(* ===== verification/_CoqProject ===== *)
-Q . S2P
Prelude.v
Limiters.v
GoStrings.v
Base64.v
Secrets.v
SecretsThms.v
LoginThrottle.v
RevealThrottle.v
Ledger.v
LedgerInv.v
LedgerThms.v
Account.v
Scheduling.v
ProviderStore.v
SchedulingThms.v
Json.v
Sse.v
Usage.v
Effects.v
GatewayTypes.v
GatewayPure.v
Gateway.v
GatewayDemo.v
GatewayStream.v
GatewaySpec.v
GatewayThms.v
AdminBase.v
Sessions.v
SessionsThms.v
AdminKeys.v
AdminKeysThms.v
Pricing.v
SettingsRuntime.v
TransportRegistry.v
Lifecycle.v
Concurrency.v
OAuth.v
OAuthLock.v
OAuthThms.v
SystemEvents.v
Alerting.v
AlertingStore.v
AlertingInv.v
AlertingThms.v
AlertingService.v
AlertingServiceThms.v
Dispatcher.v
Netip.v
RequestInfo.v
HttpJson.v
Paging.v
RequestLogs.v
ManagementLists.v
HttpApi.v
HttpRouting.v
HttpHandlers.v
HttpExport.v
HttpProvider.v
HttpServer.v
HttpGuard.v
HttpThms.v
Config.v
AccountModels.v
AccountModelsThms.v
ModelCatalog.v
ModelCatalogThms.v
ModelProbe.v
AccountAdmin.v
AccountTests.v
AccountAdminThms.v
RoutingExhaustion.v
RoutingExhaustionThms.v
BudgetMonitor.v
BudgetMonitorThms.v
KeyInventory.v
Retention.v
BackgroundTasks.v
ResponseAffinity.v
StateCleanup.v
Profiles.v
