(* ===== verification/Prelude.v ===== *)
(** * A verification library for the N2API gateway backend

    N2API is a gateway between clients of the OpenAI API and upstream accounts:
    it authenticates client keys, enforces their limits and budgets, chooses an
    upstream account through routing pools with fallbacks, forwards the request,
    delivers the answer (also as a stream) and records what was used.  Around it
    stand an administration service, the storage of secrets, the connection of
    OAuth accounts, and alerting.  This library models the Go code under
    [src/backend/internal] in the style of the code: a Go function is a Rocq
    function of the same name, a handler with effects is a program over the calls
    it makes, a database transaction is a function on tables, and goroutines are
    a step relation.

    ** The files and the code they model

    The theorems on a component [X] are in the module [XThms], in the file of [X]
    or in one of its own.

    Shared: [Prelude] (results, machine integers, time, sums over maps and
    lists, tactics and hints), [GoStrings] (package [strings]), [Base64]
    ([encoding/base64]), [Json] ([encoding/json]'s decoder), [Effects] (programs
    as trees of calls, executions, weakest preconditions), [Concurrency] (pools
    of programs with rely conditions).

    - [Limiters]: the concurrency and per-minute limiters of [gateway/proxy.go].
    - [LoginThrottle], [RevealThrottle]: [admin/login_throttle.go],
      [admin/secret_reveal_throttle.go].
    - [Ledger], [LedgerInv], [LedgerThms]: the budget ledger,
      [store/api_key_budget_ledger.go] with migration 00049 and the key
      operations of [store/admin.go] that touch it.
    - [Account], [Scheduling], [ProviderStore], [SchedulingThms]: accounts and
      failures of [provider/service.go], [provider/endpoint.go], the selection of
      [provider/scheduling.go] against the interface [Repository], and the
      queries of [store/provider.go] as its instance.
    - [Sse], [Usage]: [gateway/sse_parser.go], [gateway/usage.go].
    - [GatewayTypes], [GatewayPure], [Gateway], [GatewayDemo], [GatewayStream],
      [GatewaySpec], [GatewayThms]: [ServeHTTP] of [gateway/proxy.go] with
      [request_diagnostics.go], [response_writer.go] and [oauth_responses.go].
    - [AdminBase], [Sessions], [SessionsThms], [AdminKeys], [AdminKeysThms],
      [Pricing]: [admin/service.go] with the transactions of
      [store/admin.go].
    - [SettingsRuntime]:
      [admin/gateway_settings_runtime.go].
    - [TransportRegistry]:
      [gateway/transport_registry.go].
    - [Lifecycle]: [lifecycle/readiness.go] and [lifecycle/supervisor.go].
    - [Secrets], [SecretsThms]: [secret/crypto.go] and [secret/password.go].
    - [OAuth], [OAuthLock], [OAuthThms]: connecting and refreshing OAuth accounts,
      [provider/service.go] with [store/provider.go].
    - [SystemEvents]: [systemevent/event.go].
    - [Alerting], [AlertingStore], [AlertingInv], [AlertingThms]: rules, actions
      and their state machine, [alerting/model.go], [matcher.go],
      [templates.go], and [store/alerting.go] with its migrations.
    - [AlertingService], [AlertingServiceThms], [Dispatcher]: [alerting/service.go],
      [delivery.go], [tester.go] and [dispatcher.go].
    - [Netip] (package [net/netip]), [RequestInfo]: [httpapi/request_info.go] and
      [httpapi/security_middleware.go].
    - [HttpJson], [HttpApi], [HttpRouting], [HttpHandlers], [HttpExport],
      [HttpProvider], [HttpServer], [HttpGuard], [HttpThms]: the management
      interface, [httpapi/server.go] with [alerting.go], [system_event.go],
      [request_log_export.go] and [configuration_export.go]: decoding of bodies,
      helpers and calls, what is shown of the routing, handlers, exports, the
      route table with the middleware, and the theorems.
    - [Paging], [RequestLogs], [ManagementLists]: the paged and streamed lists of
      [store/admin.go] and [store/system_event.go] with their signed cursors.
    - [Config]: package [config].
    - [AccountModels], [AccountModelsThms]: the models of accounts,
      [provider/service.go] with [store/provider.go].
    - [ModelCatalog], [ModelCatalogThms]: [provider/catalog.go].
    - [ModelProbe]: the probes of [provider/service.go].
    - [AccountAdmin], [AccountTests], [AccountAdminThms]: the administration and
      the diagnostics of accounts in [provider/service.go], with the transactions
      of [store/provider.go].
    - [RoutingExhaustion], [RoutingExhaustionThms]:
      [store/routing_exhaustion_projector.go].
    - [BudgetMonitor], [BudgetMonitorThms]: [store/api_key_budget_monitor.go].
    - [KeyInventory]: [encryptioninventory/service.go],
      [encryptionrotation/gate.go], [store/encryption_inventory.go].
    - [Retention]: the retention of request logs,
      [admin/service.go], [admin/request_log_retention_runner.go] and
      [store/admin.go].
    - [BackgroundTasks]: the cycles and the status of
      [admin/api_key_budget_maintenance.go], [admin/api_key_budget_monitor.go]
      and [admin/routing_exhaustion_projector.go].
    - [ResponseAffinity]: [store/response_affinity.go] and
      [gateway/response_affinity_retention.go].
    - [StateCleanup]: [oauthstatecleanup/service.go] with
      [store/oauth_state_cleanup.go].
    - [Profiles]: [admin/fingerprint.go], [store/fingerprint.go] and
      [store/error_passthrough.go] with their operations in [admin/service.go].

    ** How they interact

    [Gateway.ServeHTTP] calls everything it needs through the effects [cmd] of
    [GatewayTypes]: the key's authentication, which [AdminKeys] implements; the
    limiters of [Limiters]; the budget's admission and settlement, which [Ledger]
    implements; the selection, which [Scheduling] implements over the store
    [ProviderStore] or any other instance of its interface; the refresh of an
    access token, which [OAuth] implements; and the log.  The theorems on the
    gateway hold for every answer of these calls, so they compose with the
    theorems on each component.  [AlertingService] calls the transactions of
    [AlertingStore]; [alerting_calls_prepared] discharges what the theorems on
    the tables ask of their caller.  A handler of the management interface is a
    program over the effects of [HttpApi], which are the operations of the
    administration, provider and alerting services, the throttles, the recorder
    of events and the clock; [HttpServer.ServeHTTP] finds it, behind the middleware
    that establishes with [RequestInfo] who sent the request.  The operations of
    [AccountAdmin] call the transactions on the account tables, [Secrets], the
    catalogue of [ModelCatalog] and the probes of [ModelProbe]; the calls of
    [OAuth] are embedded in theirs.  The background tasks [RoutingExhaustion] and
    [BudgetMonitor] read what the gateway logs and the ledger counts, and write
    the events of [SystemEvents] that the alerting evaluates; [BackgroundTasks]
    runs them, the maintenance of [Ledger] and the retention of
    [ResponseAffinity], behind the interface [Task].  The gateway looks responses
    up in [ResponseAffinity] and applies the profiles and rules of [Profiles];
    [StateCleanup] removes what [OAuth] no longer needs.
    [KeyInventory] reads with [Secrets] what the other components encrypted, and
    [Retention] deletes what the gateway logged.

    ** What the theorems show

    - Budgets: the counters are exact, an admission is granted exactly when the
      key's history allows it, a settlement is charged once, expiry gives the
      rolling windows; the gateway admits and settles exactly once and gives every
      slot and body back.
    - Selection: only schedulable accounts of enabled pools that were not tried
      before, a bounded number of attempts, termination of the fallback walk, the
      preview agrees with the selection, fallback links stay acyclic.
    - Streams: parsing undoes rendering, chunking does not matter, aggregation
      agrees with streaming.
    - Administration: what a password change, a revocation and a login guarantee
      under any interleaving; the throttles refine their quotas; published
      settings are not lost; the budget that is shown is the one enforced.
    - Secrets and OAuth: key rotation keeps secrets, the inventory counts every
      encrypted value and says with which key it can be read, the gate opens only
      when a rotation loses nothing; states are used once, refresh tokens are not
      replayed, refreshes end.
    - Alerting: notifications are spaced by the cooldown, need their matches, are
      delivered in order, a bounded number of times, and a shutdown drains them.
    - Management interface: every call to a service follows the check of the
      session and is made for its administrator, a browser cannot be made to
      mutate for another site, the client's address is not forged, logins are
      throttled, a secret is revealed only on record, failures are recorded; the
      routing that is shown is the one the gateway uses.
    - Lists and exports: following the cursors shows every row once, in order; an
      export counts the rows it wrote.
    - Configuration: what is loaded is within its bounds.
    - Accounts: an account is created completely or not at all, only encrypted
      credentials are written, a deleted account stays deleted; the catalogue is
      fetched once at a time, a sync is exact, stored messages carry no secret.
    - Background tasks: each request log is projected exactly once and in order,
      thresholds are those that are reached, every key is visited, and events
      alternate; the retention deletes exactly the logs before its cutoff, oldest
      first, and ends; cycles of a task do not overlap, and the maintenance drains
      the admissions that are due; a response is found under the account it was
      bound to until it expires; the cleanup of OAuth states ends and takes none
      that can be claimed.
    - Profiles: headers that are stored can be sent, the system's profiles are
      never changed.

    A property is introduced by a comment with its number in brackets; a lemma
    named after it with the suffix [_witness] or [_demo] applies it to a concrete
    execution.  Some statements record where the code does not do what it means
    to (for instance [overlapping_updates_close_cycle],
    [reauthorisation_drops_settings] and [long_retention_deletes_everything]).

    ** Fuel and bounds

    Definitions are executable.  Where the code's recursion is not structural the
    definition takes fuel that is provably enough: the fallback walk gets the
    number of pools plus two (a longer walk repeats a pool, which the code
    refuses); a settlement cycle its batch size; the JSON reader twice the length
    of the text plus two; the SSE parser the length of its input plus one; the
    upstream loop two rounds, for the one retry after a refresh; the attempts of
    a request [maxGatewayAttempts] = 5; evictions the number of entries; the
    delivery of a notification the configured number of attempts; the cycles of
    the budget monitor one more than there are keys; the rounds of the retention
    one more than there are logs before the cutoff, those of the cleanup of OAuth
    states one more than there are eligible states.  The walk over pages and the
    stream of an export recurse on the rows that are left.  Integers are
    [Z], wrapped with [wrap64] where the code's arithmetic can overflow; [int] of
    a [float64] is as on amd64.

    ** What is assumed

    Transactions are serialised by the row locks they take; rows passed over by
    [SKIP LOCKED] are an argument.  A failing database is one of the answers of a
    call, and whether a failed commit took effect is open.  Clock readings are
    calls or arguments, timestamps are stored in microseconds, and intervals of
    days are 24 hours (sessions run in UTC).  AES-GCM, Argon2, PBKDF2, SHA-256,
    HMAC, [json.Marshal], URL and address parsing and random numbers are
    parameters.  A response body is the finite list of what its reads return, and
    what closes it asynchronously is seen as such a result.  Folding of letters is
    exact for ASCII.  The iteration order of a map is an argument where the result
    depends on it.  The texts of errors, the collation of the database, [LIKE] and
    the formats of times are parameters or stand by the name of what they report.
    Audit events and metrics are left out of the transactions that write them.
    An OAuth server issues a new refresh token with each refresh and rejects one
    it has replaced.

    ** What is not modelled

    The command-line programs ([cmd]), the metrics registry and log output; the
    SQL of statistics and of the configuration snapshot, which only aggregates and
    projects columns; the monitor of log writes and the runner of automatic tests,
    a counter and a loop around one operation; the TLS dialers, the checks for
    updates, the fetching of the official price list, the subscription to the
    database's notifications, its connection, instance lock and migrations'
    runner, which are input and output through libraries.  The frontend
    is not Go code. *)

From stdpp Require Export base gmap strings list sorting relations.
From Stdlib Require Export ZArith Lia.

#[global] Open Scope Z_scope.

(** ** Notation scope and hint databases of the development *)

Declare Scope n2api_scope.
Delimit Scope n2api_scope with n2api.
#[global] Open Scope n2api_scope.

Create HintDb n2api discriminated.
Create Rewrite HintDb n2api_rw.

(** ** Results with errors: a Go function returning [(T, error)] *)

Inductive result (E A : Type) :=
| Ok (a : A)
| Err (e : E).

Arguments Ok {E A} a.
Arguments Err {E A} e.

Definition result_bind {E A B} (c : result E A) (k : A → result E B) : result E B :=
  match c with
  | Ok a => k a
  | Err e => Err e
  end.

Notation "'let?' x ':=' c 'in' k" := (result_bind c (fun x => k))
  (at level 10, x pattern, c at level 200, k at level 200,
   format "'[v' 'let?'  x  ':='  c  'in' '/' k ']'") : n2api_scope.

Lemma result_bind_Ok {E A B} (c : result E A) (k : A → result E B) (b : B) :
  result_bind c k = Ok b ↔ ∃ a, c = Ok a ∧ k a = Ok b.
Proof. split; [destruct c; simpl; eauto; done|by intros (a & -> & ?)]. Qed.

(** ** Machine integers and Go time

    Go's [int] and [int64] are 64-bit.  A [time.Time] is its number of
    nanoseconds since the zero time, so that [IsZero] is equality with [0];
    a [time.Duration] is an [int64] number of nanoseconds. *)

Definition int64_min : Z := - 2 ^ 63.
Definition int64_max : Z := 2 ^ 63 - 1.

(** Two's complement wrap-around of a 64-bit signed result. *)
Definition wrap64 (z : Z) : Z := (z + 2 ^ 63) mod 2 ^ 64 - 2 ^ 63.

Definition in_int64 (z : Z) : Prop := int64_min ≤ z ≤ int64_max.

Abbreviation Time := Z (only parsing).
Abbreviation Duration := Z (only parsing).

Definition Nanosecond : Duration := 1.
Definition Microsecond : Duration := 1000.
Definition Second : Duration := 1000000000.
Definition Minute : Duration := 60 * Second.
Definition Hour : Duration := 60 * Minute.

(** [t.Sub(u)] saturates at the bounds of [Duration]. *)
Definition time_sub (t u : Time) : Duration :=
  Z.max int64_min (Z.min int64_max (t - u)).

(** [t.Truncate(d)] rounds down to a multiple of [d] since the zero time. *)
Definition time_truncate (t : Time) (d : Duration) : Time :=
  if bool_decide (d ≤ 0) then t else t - t mod d.

Definition time_before (t u : Time) : bool := bool_decide (t < u).
Definition time_after (t u : Time) : bool := bool_decide (u < t).
Definition time_is_zero (t : Time) : bool := bool_decide (t = 0).

Lemma wrap64_id (z : Z) : in_int64 z → wrap64 z = z.
Proof.
  unfold in_int64, wrap64, int64_min, int64_max. intros ?.
  rewrite Z.mod_small; lia.
Qed.

Lemma wrap64_in_int64 (z : Z) : in_int64 (wrap64 z).
Proof.
  unfold in_int64, wrap64, int64_min, int64_max.
  pose proof (Z.mod_pos_bound (z + 2 ^ 63) (2 ^ 64)). lia.
Qed.

Lemma time_sub_pos (t u : Time) : 0 < time_sub t u ↔ u < t.
Proof. unfold time_sub, int64_min, int64_max. lia. Qed.

Lemma time_sub_exact (t u : Time) : in_int64 (t - u) → time_sub t u = t - u.
Proof. unfold in_int64, time_sub. lia. Qed.

Lemma time_sub_le (t u : Time) : 0 ≤ t - u → time_sub t u ≤ t - u.
Proof. unfold time_sub, int64_min. lia. Qed.

Lemma time_truncate_bounds (t : Time) (d : Duration) :
  0 < d → time_truncate t d ≤ t < time_truncate t d + d.
Proof.
  intros Hd. unfold time_truncate. rewrite bool_decide_eq_false_2 by lia.
  pose proof (Z.mod_pos_bound t d Hd). lia.
Qed.

Lemma time_truncate_mono (t u : Time) (d : Duration) :
  0 < d → t ≤ u → time_truncate t d ≤ time_truncate u d.
Proof.
  intros Hd Htu. unfold time_truncate. rewrite !bool_decide_eq_false_2 by lia.
  pose proof (Z.div_mod t d ltac:(lia)) as Ht.
  pose proof (Z.div_mod u d ltac:(lia)) as Hu.
  pose proof (Z.div_le_mono t u d Hd Htu). nia.
Qed.

Lemma time_truncate_div (t : Time) (d : Duration) : 0 < d → time_truncate t d = t / d * d.
Proof.
  intros Hd. unfold time_truncate. rewrite bool_decide_eq_false_2 by lia.
  pose proof (Z.div_mod t d ltac:(lia)). lia.
Qed.

(** The next boundary after a truncation is itself a boundary. *)
Lemma time_truncate_next (t : Time) (d : Duration) :
  0 < d → time_truncate (time_truncate t d + d) d = time_truncate t d + d.
Proof.
  intros Hd. rewrite !time_truncate_div by done.
  replace (t / d * d + d) with ((t / d + 1) * d) by lia. by rewrite Z.div_mul by lia.
Qed.

(** ** Automation *)

(** Case analysis on the boolean tests of the code. *)
Ltac case_bool :=
  repeat match goal with
  | |- context [bool_decide ?P] => case_bool_decide
  | H : context [bool_decide ?P] |- _ => case_bool_decide
  | H : context [if ?b then _ else _] |- _ => destruct b eqn:?
  | |- context [if ?b then _ else _] => destruct b eqn:?
  end.

(** Turn boolean connectives in hypotheses and goals into propositions. *)
Ltac to_prop :=
  repeat (rewrite ?andb_true_iff, ?orb_true_iff, ?andb_false_iff, ?orb_false_iff,
    ?negb_true_iff, ?negb_false_iff, ?bool_decide_eq_true, ?bool_decide_eq_false in * ).

(** Discharge the guards of a transaction assumed to succeed: the outermost
    test of the premise must be false. *)
Ltac peel_guard :=
  match goal with |- (if ?c then _ else _) = _ → _ => destruct c eqn:?; [discriminate|] end.

(** Split conjunctions and existentials in the context. *)
Ltac split_hyps :=
  repeat match goal with
  | H : _ ∧ _ |- _ => destruct H
  | H : ∃ _, _ |- _ => destruct H
  end.

(** ** Sums of integers over lists and maps *)

Definition sumZ {A} (f : A → Z) (l : list A) : Z :=
  foldr (fun x acc => f x + acc) 0 l.

#[global] Arguments sumZ : simpl never.

Section sums.
Context {A : Type}.
Implicit Types (f g : A → Z) (l : list A).

Lemma sumZ_nil f : sumZ f [] = 0.
Proof. done. Qed.

Lemma sumZ_cons f x l : sumZ f (x :: l) = f x + sumZ f l.
Proof. done. Qed.

Lemma sumZ_app f l1 l2 : sumZ f (l1 ++ l2) = sumZ f l1 + sumZ f l2.
Proof.
  induction l1 as [|x l1 IH]; [done|]. change ((x :: l1) ++ l2) with (x :: (l1 ++ l2)).
  rewrite !sumZ_cons. lia.
Qed.

Lemma sumZ_ext f g l : (∀ x, x ∈ l → f x = g x) → sumZ f l = sumZ g l.
Proof.
  induction l as [|x l IH]; intros H; [done|]. rewrite !sumZ_cons, IH.
  - rewrite (H x) by (by constructor). done.
  - intros y Hy. apply H. by constructor.
Qed.

Lemma sumZ_nonneg f l : (∀ x, x ∈ l → 0 ≤ f x) → 0 ≤ sumZ f l.
Proof.
  induction l as [|x l IH]; intros H; [done|]. rewrite sumZ_cons.
  assert (0 ≤ f x) by (apply H; by constructor).
  assert (0 ≤ sumZ f l) by (apply IH; intros y Hy; apply H; by constructor). lia.
Qed.

Lemma sumZ_elem_le f l x :
  (∀ y, y ∈ l → 0 ≤ f y) → x ∈ l → f x ≤ sumZ f l.
Proof.
  induction l as [|y l IH]; intros Hf Hx; [by inversion Hx|].
  rewrite sumZ_cons. apply elem_of_cons in Hx as [->|Hx].
  - assert (0 ≤ sumZ f l); [|lia].
    apply sumZ_nonneg. intros z Hz. apply Hf. by constructor.
  - assert (0 ≤ f y) by (apply Hf; by constructor).
    assert (f x ≤ sumZ f l); [|lia].
    apply IH; [intros z Hz; apply Hf; by constructor|done].
Qed.

Lemma sumZ_zero f l : (∀ x, x ∈ l → f x = 0) → sumZ f l = 0.
Proof.
  intros H. rewrite (sumZ_ext f (fun _ => 0)) by done. clear H.
  induction l as [|x l IH]; [done|]. rewrite sumZ_cons. lia.
Qed.

Lemma sumZ_perm f l1 l2 : l1 ≡ₚ l2 → sumZ f l1 = sumZ f l2.
Proof. induction 1; rewrite ?sumZ_cons in *; lia. Qed.

Global Instance sumZ_Proper f : Proper ((≡ₚ) ==> (=)) (sumZ f).
Proof. intros l1 l2. apply sumZ_perm. Qed.
End sums.

#[export] Hint Rewrite @sumZ_nil @sumZ_cons @sumZ_app : n2api_rw.

(** Sum of a weight over the values of a finite map. *)
Definition sum_map `{Countable K} {A} (f : K → A → Z) (m : gmap K A) : Z :=
  sumZ (fun kv => f kv.1 kv.2) (map_to_list m).

Section map_sums.
Context `{Countable K} {A : Type}.
Implicit Types (f g : K → A → Z) (m : gmap K A).

Lemma sum_map_empty f : sum_map f (∅ : gmap K A) = 0.
Proof. unfold sum_map. by rewrite map_to_list_empty. Qed.

Lemma sum_map_insert_None f m k x :
  m !! k = None → sum_map f (<[k:=x]> m) = f k x + sum_map f m.
Proof. intros Hk. unfold sum_map. by rewrite map_to_list_insert. Qed.

Lemma sum_map_delete f m k x :
  m !! k = Some x → sum_map f m = f k x + sum_map f (delete k m).
Proof.
  intros Hk. rewrite <- (insert_delete_id m k x Hk) at 1.
  apply sum_map_insert_None, lookup_delete_eq.
Qed.

Lemma sum_map_insert_Some f m k x y :
  m !! k = Some y → sum_map f (<[k:=x]> m) = sum_map f m + f k x - f k y.
Proof.
  intros Hk. rewrite (sum_map_delete f m k y Hk), <- insert_delete_eq.
  rewrite sum_map_insert_None by apply lookup_delete_eq. lia.
Qed.

Lemma sum_map_ext f g m :
  (∀ k x, m !! k = Some x → f k x = g k x) → sum_map f m = sum_map g m.
Proof.
  intros Hfg. apply sumZ_ext. intros [k x] Hx. simpl.
  apply Hfg. by apply elem_of_map_to_list.
Qed.

Lemma sum_map_nonneg f m :
  (∀ k x, m !! k = Some x → 0 ≤ f k x) → 0 ≤ sum_map f m.
Proof.
  intros Hf. apply sumZ_nonneg. intros [k x] Hx. apply Hf.
  by apply elem_of_map_to_list.
Qed.

Lemma sum_map_elem_le f m k x :
  (∀ k' x', m !! k' = Some x' → 0 ≤ f k' x') → m !! k = Some x →
  f k x ≤ sum_map f m.
Proof.
  intros Hf Hk. apply (sumZ_elem_le (fun kv => f kv.1 kv.2) _ (k, x)).
  - intros [k' x'] Hx. apply Hf. by apply elem_of_map_to_list.
  - by apply elem_of_map_to_list.
Qed.
End map_sums.

(** [Z.b2z] weights: how many elements satisfy a test. *)
Definition countZ {A} (p : A → bool) (l : list A) : Z := sumZ (fun x => Z.b2z (p x)) l.
#[global] Arguments countZ : simpl never.

Lemma countZ_cons {A} (p : A → bool) x l : countZ p (x :: l) = Z.b2z (p x) + countZ p l.
Proof. unfold countZ. by rewrite sumZ_cons. Qed.

Lemma countZ_app {A} (p : A → bool) l k : countZ p (l ++ k) = countZ p l + countZ p k.
Proof. unfold countZ. by rewrite sumZ_app. Qed.

Lemma countZ_snoc {A} (p : A → bool) l x : countZ p (l ++ [x]) = countZ p l + Z.b2z (p x).
Proof. unfold countZ. rewrite sumZ_app, sumZ_cons, sumZ_nil. lia. Qed.

Lemma countZ_nonneg {A} (p : A → bool) l : 0 ≤ countZ p l.
Proof. unfold countZ. apply sumZ_nonneg. intros x _. destruct (p x); cbn; lia. Qed.

Lemma countZ_ext {A} (p q : A → bool) l : (∀ x, p x = q x) → countZ p l = countZ q l.
Proof. intros H. unfold countZ. apply sumZ_ext. intros x _. by rewrite H. Qed.

Lemma countZ_map {A B} (p : B → bool) (g : A → B) l : countZ p (map g l) = countZ (fun x => p (g x)) l.
Proof. unfold countZ. induction l as [|x l IH]; [by rewrite !sumZ_nil|]. cbn [map]. by rewrite !sumZ_cons, IH. Qed.

Lemma countZ_perm {A} (p : A → bool) l k : l ≡ₚ k → countZ p l = countZ p k.
Proof. apply sumZ_perm. Qed.

Lemma countZ_filter {A} (p : A → bool) (l : list A) : countZ p l = Z.of_nat (length (List.filter p l)).
Proof.
  unfold countZ. induction l as [|a l IH]; [done|]. rewrite sumZ_cons. cbn [List.filter].
  destruct (p a); cbn [length Z.b2z]; lia.
Qed.

Lemma countZ_negb {A} (p : A → bool) l : Z.of_nat (length (List.filter (fun x => negb (p x)) l)) = Z.of_nat (length l) - countZ p l.
Proof.
  induction l as [|x l IH]; [done|]. unfold countZ in *. rewrite sumZ_cons. cbn [List.filter]. destruct (p x); cbn in *; lia.
Qed.

Lemma countZ_pos {A} (p : A → bool) l : 0 < countZ p l ↔ ∃ x, x ∈ l ∧ p x = true.
Proof.
  induction l as [|y l IH]; [split; [done|by intros (? & ?%elem_of_nil & _)]|].
  rewrite countZ_cons. pose proof (countZ_nonneg p l) as Hpos. destruct (p y) eqn:E; cbn.
  - split; [intros _; exists y; split; [by left|done]|lia].
  - rewrite Z.add_0_l, IH. split; intros (x & Hx & Hp); exists x; (split; [|done]); [by right|].
    apply elem_of_cons in Hx as [->|Hx]; congruence.
Qed.

Lemma countZ_filter_le {A} (p keep : A → bool) l : countZ p (List.filter keep l) ≤ countZ p l.
Proof.
  induction l as [|x l IH]; cbn; [done|]. destruct (keep x); rewrite ?countZ_cons; destruct (p x); cbn; lia.
Qed.

(** ** Updating a map at each key of a list *)

Lemma lookup_foldl_partial_alter `{Countable K} {A} (g : option A → option A)
    (ks : list K) (m : gmap K A) (k : K) :
  NoDup ks →
  foldl (fun m k => partial_alter g k m) m ks !! k
  = if decide (k ∈ ks) then g (m !! k) else m !! k.
Proof.
  revert m. induction ks as [|k' ks IH]; intros m Hnd; simpl.
  { destruct (decide (k ∈ [])) as [Hk|]; [by apply elem_of_nil in Hk|done]. }
  apply NoDup_cons in Hnd as [Hk' Hnd]. rewrite IH by done.
  destruct (decide (k = k')) as [->|Hne].
  - rewrite lookup_partial_alter_eq.
    rewrite decide_False by done. by rewrite decide_True by constructor.
  - rewrite lookup_partial_alter_ne by done.
    destruct (decide (k ∈ ks)) as [Hin|Hin].
    + by rewrite decide_True by (by constructor).
    + rewrite decide_False; [done|]. rewrite elem_of_cons. naive_solver.
Qed.

Lemma partial_alter_to_insert `{Countable K} {A} (g : option A → option A)
    (m : gmap K A) (k : K) (y : A) :
  g (m !! k) = Some y → partial_alter g k m = <[k := y]> m.
Proof.
  intros Hg. apply map_eq. intros k'. destruct (decide (k = k')) as [<-|].
  - by rewrite lookup_partial_alter_eq, lookup_insert_eq.
  - by rewrite lookup_partial_alter_ne, lookup_insert_ne.
Qed.

(** An update that always stores a value adds the keys that were absent. *)
Lemma size_foldl_partial_alter `{Countable K} {A} (g : option A → option A)
    (ks : list K) (m : gmap K A) :
  (∀ x, is_Some (g x)) → NoDup ks →
  Z.of_nat (size (foldl (fun m k => partial_alter g k m) m ks))
  = Z.of_nat (size m) + countZ (fun k => bool_decide (m !! k = None)) ks.
Proof.
  intros Hg. revert m. induction ks as [|k ks IH]; intros m Hnd; simpl.
  { unfold countZ. rewrite sumZ_nil. lia. }
  apply NoDup_cons in Hnd as [Hk Hnd]. rewrite IH by done. unfold countZ. rewrite sumZ_cons.
  rewrite (sumZ_ext _ (fun k0 => Z.b2z (bool_decide (m !! k0 = None))) ks).
  2: { intros k' Hk'. rewrite lookup_partial_alter_ne; [done|]. by intros ->. }
  destruct (Hg (m !! k)) as [e He]. rewrite (partial_alter_to_insert _ m k e He).
  destruct (m !! k) as [e0|] eqn:E.
  - rewrite map_size_insert_Some by (by rewrite E). simpl. lia.
  - rewrite map_size_insert_None by done. simpl. lia.
Qed.

(** Lists without one element. *)
Lemma elem_of_filter_ne `{EqDecision A} (x y : A) (l : list A) :
  x ∈ filter (fun z => z ≠ y) l ↔ x ≠ y ∧ x ∈ l.
Proof. rewrite list_elem_of_filter. done. Qed.

(** Filters by a [bool] test. *)
Lemma sublist_filter {A} (p : A → bool) l : List.filter p l `sublist_of` l.
Proof. induction l as [|x l IH]; simpl; [done|]. case_match; by constructor. Qed.

Lemma sublist_map {A B} (g : A → B) l k : l `sublist_of` k → map g l `sublist_of` map g k.
Proof. induction 1; simpl; by constructor. Qed.

Lemma NoDup_filter_map {A B} (f : A → B) p l : NoDup (map f l) → NoDup (map f (List.filter p l)).
Proof. intros H. eapply sublist_NoDup; [exact H|]. apply sublist_map, sublist_filter. Qed.

Lemma Forall_filter_bool {A} (P : A → Prop) p l : Forall P l → Forall P (List.filter p l).
Proof. induction 1; simpl; [constructor|]. case_match; [by constructor|done]. Qed.

Lemma filter_Forall_id {A} (p : A → bool) l : Forall (fun x => p x = true) l → List.filter p l = l.
Proof. induction 1 as [|x l Hx _ IH]; simpl; [done|]. by rewrite Hx, IH. Qed.

Lemma filter_nil_intro {A} (p : A → bool) l : (∀ x, x ∈ l → p x = false) → List.filter p l = [].
Proof.
  induction l as [|x l IH]; intros H; simpl; [done|]. rewrite (H x) by left. apply IH. intros y Hy. apply H. by right.
Qed.

Lemma filter_partition {A} (p : A → bool) l : l ≡ₚ List.filter p l ++ List.filter (fun x => negb (p x)) l.
Proof.
  induction l as [|x l IH]; [done|]. cbn. destruct (p x); cbn; [by constructor|]. rewrite <- Permutation_middle. by constructor.
Qed.

(** ** Sorting: [sort.SliceStable] by insertion *)

Section sorting.
Context {A : Type} (less : A → A → bool).

Fixpoint insert_stable (x : A) (l : list A) : list A :=
  match l with
  | [] => [x]
  | y :: l' => if less x y then x :: l else y :: insert_stable x l'
  end.

Definition SliceStable (l : list A) : list A := foldl (fun acc x => insert_stable x acc) [] l.

Lemma insert_stable_perm x l : insert_stable x l ≡ₚ x :: l.
Proof.
  induction l as [|y l IH]; simpl; [done|]. destruct (less x y); [done|]. rewrite IH. apply perm_swap.
Qed.

Lemma SliceStable_perm l : SliceStable l ≡ₚ l.
Proof.
  unfold SliceStable. enough (∀ acc, foldl (fun acc x => insert_stable x acc) acc l ≡ₚ l ++ acc) as H.
  { by rewrite H, app_nil_r. }
  induction l as [|x l IH]; intros acc; simpl; [done|]. rewrite IH, insert_stable_perm. symmetry. apply Permutation_middle.
Qed.

(** Sorted: no element is less than one before it. *)
Context (Hasym : ∀ x y, less x y = true → less y x = false).
Context (Htrans : ∀ x y z, less y x = false → less z y = false → less z x = false).

Lemma insert_stable_sorted x l :
  StronglySorted (fun a b => less b a = false) l → StronglySorted (fun a b => less b a = false) (insert_stable x l).
Proof.
  induction 1 as [|y l Hs IH Hy]; simpl; [by repeat constructor|].
  destruct (less x y) eqn:E.
  - constructor; [by constructor|]. constructor; [by apply Hasym|].
    eapply Forall_impl; [exact Hy|]. intros z Hz. eapply Htrans; [by apply Hasym|done].
  - constructor; [done|]. rewrite insert_stable_perm. by constructor.
Qed.

Lemma SliceStable_sorted l : StronglySorted (fun a b => less b a = false) (SliceStable l).
Proof.
  unfold SliceStable. enough (∀ acc, StronglySorted (fun a b => less b a = false) acc →
    StronglySorted (fun a b => less b a = false) (foldl (fun acc x => insert_stable x acc) acc l)) as H.
  { apply H. constructor. }
  induction l as [|x l IH]; intros acc Ha; simpl; [done|]. by apply IH, insert_stable_sorted.
Qed.
End sorting.

(** ** Alternation: a list of booleans that begins with [b] and alternates. *)

Fixpoint alternating (b : bool) (l : list bool) : Prop :=
  match l with [] => True | x :: l => x = b ∧ alternating (negb b) l end.

Lemma alternating_snoc b l x :
  alternating b l → match last l with Some y => x = negb y | None => x = b end → alternating b (l ++ [x]).
Proof.
  revert b. induction l as [|y l IH]; intros b; [by split|]. intros [-> Hl] Hx. split; [done|]. apply IH; [done|].
  destruct l as [|z l]; [done|]. rewrite last_cons_cons in Hx.
  assert (is_Some (last (z :: l))) as [y Hy] by by apply last_is_Some. by rewrite Hy in Hx |- *.
Qed.
