(* ===== verification/Limiters.v ===== *)
(** * The gateway's admission limiters

    [gateway/proxy.go]: the three concurrency limiters (gateway-wide, per
    provider account, per client key) with their release closures, and the two
    per-minute limiters (requests and tokens per client key).  Every method
    runs under the limiter's mutex, so one method call is one atomic step and a
    concurrent execution is a sequence of such steps. *)

From S2P Require Import Prelude.

(** ** Concurrency limiters *)

Module Concurrency.

(** The closures [Acquire] returns; running one gives the slot back. *)
Inductive release :=
| release_noop
| release_gateway
| release_account (accountID : Z)
| release_key (keyID : Z).

#[global] Instance release_eq_dec : EqDecision release.
Proof. solve_decision. Defined.

Record gatewayConcurrencyLimiter := { gw_inFlight : Z }.
Record accountConcurrencyLimiter := { acc_inFlight : gmap Z Z }.
Record apiKeyConcurrencyLimiter := { key_inFlight : gmap Z Z }.

Definition newGatewayConcurrencyLimiter : gatewayConcurrencyLimiter := {| gw_inFlight := 0 |}.
Definition newAccountConcurrencyLimiter : accountConcurrencyLimiter := {| acc_inFlight := ∅ |}.
Definition newAPIKeyConcurrencyLimiter : apiKeyConcurrencyLimiter := {| key_inFlight := ∅ |}.

(** Reading a Go map of integers: an absent key reads as zero. *)
Definition map_get (m : gmap Z Z) (k : Z) : Z := default 0 (m !! k).

Definition gateway_Acquire (l : option gatewayConcurrencyLimiter) (limit : Z)
  : option gatewayConcurrencyLimiter * option release :=
  match l with
  | None => (None, Some release_noop)
  | Some s =>
      if bool_decide (limit ≤ 0) then (Some s, Some release_noop)
      else if bool_decide (limit ≤ gw_inFlight s) then (Some s, None)
      else (Some {| gw_inFlight := gw_inFlight s + 1 |}, Some release_gateway)
  end.

Definition account_Acquire (l : option accountConcurrencyLimiter) (accountID limit : Z)
  : option accountConcurrencyLimiter * option release :=
  match l with
  | None => (None, Some release_noop)
  | Some s =>
      if bool_decide (limit ≤ 0) || bool_decide (accountID ≤ 0)
      then (Some s, Some release_noop)
      else if bool_decide (limit ≤ map_get (acc_inFlight s) accountID) then (Some s, None)
      else (Some {| acc_inFlight :=
                      <[accountID := map_get (acc_inFlight s) accountID + 1]> (acc_inFlight s) |},
            Some (release_account accountID))
  end.

Definition apiKey_Acquire (l : option apiKeyConcurrencyLimiter) (keyID limit : Z)
  : option apiKeyConcurrencyLimiter * option release :=
  match l with
  | None => (None, Some release_noop)
  | Some s =>
      if bool_decide (limit ≤ 0) || bool_decide (keyID ≤ 0)
      then (Some s, Some release_noop)
      else if bool_decide (limit ≤ map_get (key_inFlight s) keyID) then (Some s, None)
      else (Some {| key_inFlight :=
                      <[keyID := map_get (key_inFlight s) keyID + 1]> (key_inFlight s) |},
            Some (release_key keyID))
  end.

(** The bodies of the returned closures. *)
Definition gateway_release (s : gatewayConcurrencyLimiter) : gatewayConcurrencyLimiter :=
  {| gw_inFlight := gw_inFlight s - 1 |}.

Definition account_release (s : accountConcurrencyLimiter) (accountID : Z)
  : accountConcurrencyLimiter :=
  let n := map_get (acc_inFlight s) accountID - 1 in
  let m := <[accountID := n]> (acc_inFlight s) in
  {| acc_inFlight := if bool_decide (n ≤ 0) then delete accountID m else m |}.

Definition apiKey_release (s : apiKeyConcurrencyLimiter) (keyID : Z)
  : apiKeyConcurrencyLimiter :=
  let n := map_get (key_inFlight s) keyID - 1 in
  let m := <[keyID := n]> (key_inFlight s) in
  {| key_inFlight := if bool_decide (n ≤ 0) then delete keyID m else m |}.

#[global] Arguments account_release : simpl never.
#[global] Arguments apiKey_release : simpl never.

Definition account_Snapshot (l : option accountConcurrencyLimiter) : gmap Z Z :=
  match l with
  | None => ∅
  | Some s => filter (fun kv => 0 < kv.2) (acc_inFlight s)
  end.

Definition apiKey_Snapshot (l : option apiKeyConcurrencyLimiter) : gmap Z Z :=
  match l with
  | None => ∅
  | Some s => filter (fun kv => 0 < kv.2) (key_inFlight s)
  end.

(** The part of [Proxy] the limiters live in. *)
Record limiters := {
  lim_gateway : option gatewayConcurrencyLimiter;
  lim_account : option accountConcurrencyLimiter;
  lim_key : option apiKeyConcurrencyLimiter;
}.

Definition newLimiters : limiters := {|
  lim_gateway := Some newGatewayConcurrencyLimiter;
  lim_account := Some newAccountConcurrencyLimiter;
  lim_key := Some newAPIKeyConcurrencyLimiter;
|}.

Definition tryAcquireGatewaySlot (p : limiters) (limit : Z) : limiters * option release :=
  match lim_gateway p with
  | None => (p, Some release_noop)
  | Some _ =>
      let '(l, r) := gateway_Acquire (lim_gateway p) limit in
      ({| lim_gateway := l; lim_account := lim_account p; lim_key := lim_key p |}, r)
  end.

Definition tryAcquireAccountSlot (p : limiters) (accountID limit : Z)
  : limiters * option release :=
  if bool_decide (lim_account p = None) || bool_decide (accountID ≤ 0)
  then (p, Some release_noop)
  else
    let '(l, r) := account_Acquire (lim_account p) accountID limit in
    ({| lim_gateway := lim_gateway p; lim_account := l; lim_key := lim_key p |}, r).

Definition tryAcquireAPIKeySlot (p : limiters) (keyID limit : Z) : limiters * option release :=
  if bool_decide (lim_key p = None) || bool_decide (keyID ≤ 0)
  then (p, Some release_noop)
  else
    let '(l, r) := apiKey_Acquire (lim_key p) keyID limit in
    ({| lim_gateway := lim_gateway p; lim_account := lim_account p; lim_key := l |}, r).

(** Running a closure against the limiter it captured. *)
Definition run_release (p : limiters) (r : release) : limiters :=
  match r with
  | release_noop => p
  | release_gateway =>
      {| lim_gateway := gateway_release <$> lim_gateway p;
         lim_account := lim_account p; lim_key := lim_key p |}
  | release_account id =>
      {| lim_gateway := lim_gateway p;
         lim_account := (fun s => account_release s id) <$> lim_account p;
         lim_key := lim_key p |}
  | release_key id =>
      {| lim_gateway := lim_gateway p; lim_account := lim_account p;
         lim_key := (fun s => apiKey_release s id) <$> lim_key p |}
  end.

Definition effectiveAPIKeyLimit (keyLimit defaultLimit : Z) : Z :=
  if bool_decide (0 < keyLimit) then keyLimit else defaultLimit.

Definition effectiveAccountConcurrencyLimit (accountLimit defaultLimit : Z) : Z :=
  if bool_decide (0 < accountLimit) then accountLimit else defaultLimit.

(** *** Executions

    A configuration is the limiters together with the closures handed out and
    not yet run.  The request goroutines interleave arbitrarily; each acquires
    with whatever limit is configured at that moment, at most [M], and runs
    each closure it received once. *)

Definition config : Type := limiters * list release.

Inductive step (M : Z) : config → config → Prop :=
| step_gateway p p' r out limit :
    limit ≤ M → tryAcquireGatewaySlot p limit = (p', Some r) →
    step M (p, out) (p', r :: out)
| step_account p p' r out id limit :
    limit ≤ M → tryAcquireAccountSlot p id limit = (p', Some r) →
    step M (p, out) (p', r :: out)
| step_key p p' r out id limit :
    limit ≤ M → tryAcquireAPIKeySlot p id limit = (p', Some r) →
    step M (p, out) (p', r :: out)
| step_rejected_gateway p p' out limit :
    tryAcquireGatewaySlot p limit = (p', None) → step M (p, out) (p', out)
| step_rejected_account p p' out id limit :
    tryAcquireAccountSlot p id limit = (p', None) → step M (p, out) (p', out)
| step_rejected_key p p' out id limit :
    tryAcquireAPIKeySlot p id limit = (p', None) → step M (p, out) (p', out)
| step_release p out1 r out2 :
    step M (p, out1 ++ r :: out2) (run_release p r, out1 ++ out2).

Definition reachable (M : Z) (c : config) : Prop := rtc (step M) (newLimiters, []) c.

(** Slots a configuration holds open, from the limiters and from the closures. *)
Definition gateway_inFlight (p : limiters) : Z :=
  match lim_gateway p with Some s => gw_inFlight s | None => 0 end.
Definition account_inFlight (p : limiters) (id : Z) : Z :=
  match lim_account p with Some s => map_get (acc_inFlight s) id | None => 0 end.
Definition key_inFlight_of (p : limiters) (id : Z) : Z :=
  match lim_key p with Some s => map_get (key_inFlight s) id | None => 0 end.
Definition outstanding (r : release) (out : list release) : Z :=
  countZ (fun r' => bool_decide (r' = r)) out.

#[global] Arguments outstanding : simpl never.

(** Every counter equals its number of outstanding closures, and the maps
    store positive counters only. *)
Record wf (c : config) : Prop := {
  wf_gateway : gateway_inFlight c.1 = outstanding release_gateway c.2;
  wf_account id : account_inFlight c.1 id = outstanding (release_account id) c.2;
  wf_key id : key_inFlight_of c.1 id = outstanding (release_key id) c.2;
  wf_account_pos s id n :
    lim_account c.1 = Some s → acc_inFlight s !! id = Some n → 0 < n;
  wf_key_pos s id n :
    lim_key c.1 = Some s → key_inFlight s !! id = Some n → 0 < n;
  wf_present :
    is_Some (lim_gateway c.1) ∧ is_Some (lim_account c.1) ∧ is_Some (lim_key c.1);
}.

(** *** Lemmas *)

Lemma map_get_insert (m : gmap Z Z) k k' v :
  map_get (<[k:=v]> m) k' = if bool_decide (k = k') then v else map_get m k'.
Proof.
  unfold map_get. rewrite lookup_insert. case_decide; case_bool_decide; naive_solver.
Qed.

Lemma map_get_delete (m : gmap Z Z) k k' :
  map_get (delete k m) k' = if bool_decide (k = k') then 0 else map_get m k'.
Proof.
  unfold map_get. rewrite lookup_delete. case_decide; case_bool_decide; naive_solver.
Qed.

Lemma outstanding_cons r r' out :
  outstanding r (r' :: out) = Z.b2z (bool_decide (r' = r)) + outstanding r out.
Proof. done. Qed.

Lemma outstanding_mid r r' out1 out2 :
  outstanding r (out1 ++ r' :: out2)
  = Z.b2z (bool_decide (r' = r)) + outstanding r (out1 ++ out2).
Proof. unfold outstanding, countZ. rewrite !sumZ_app, sumZ_cons. lia. Qed.

Lemma outstanding_nonneg r out : 0 ≤ outstanding r out.
Proof. apply sumZ_nonneg. intros x _. destruct (bool_decide _); simpl; lia. Qed.

#[local] Hint Rewrite map_get_insert map_get_delete outstanding_cons outstanding_mid : n2api_rw.

(** The counter after a release, when a slot is really held. *)
Lemma account_release_get s id k :
  0 < map_get (acc_inFlight s) id →
  map_get (acc_inFlight (account_release s id)) k
  = map_get (acc_inFlight s) k - Z.b2z (bool_decide (id = k)).
Proof.
  intros H. unfold account_release; simpl. case_bool_decide; autorewrite with n2api_rw;
    case_bool_decide; subst; simpl; lia.
Qed.

Lemma apiKey_release_get s id k :
  0 < map_get (key_inFlight s) id →
  map_get (key_inFlight (apiKey_release s id)) k
  = map_get (key_inFlight s) k - Z.b2z (bool_decide (id = k)).
Proof.
  intros H. unfold apiKey_release; simpl. case_bool_decide; autorewrite with n2api_rw;
    case_bool_decide; subst; simpl; lia.
Qed.

Lemma account_release_pos s id k n :
  (∀ k n, acc_inFlight s !! k = Some n → 0 < n) →
  acc_inFlight (account_release s id) !! k = Some n → 0 < n.
Proof.
  intros Hpos. unfold account_release; simpl. case_bool_decide.
  - rewrite delete_insert_eq. intros [_ ?]%lookup_delete_Some. eauto.
  - intros [[_ <-]|[_ ?]]%lookup_insert_Some; eauto with lia.
Qed.

Lemma apiKey_release_pos s id k n :
  (∀ k n, key_inFlight s !! k = Some n → 0 < n) →
  key_inFlight (apiKey_release s id) !! k = Some n → 0 < n.
Proof.
  intros Hpos. unfold apiKey_release; simpl. case_bool_decide.
  - rewrite delete_insert_eq. intros [_ ?]%lookup_delete_Some. eauto.
  - intros [[_ <-]|[_ ?]]%lookup_insert_Some; eauto with lia.
Qed.

(** What a successful acquisition did. *)
Lemma tryAcquireGatewaySlot_spec p limit p' r :
  tryAcquireGatewaySlot p limit = (p', Some r) →
  (r = release_noop ∧ p' = p) ∨
  (r = release_gateway ∧ gateway_inFlight p < limit ∧
   lim_gateway p' = Some {| gw_inFlight := gateway_inFlight p + 1 |} ∧
   lim_account p' = lim_account p ∧ lim_key p' = lim_key p).
Proof.
  unfold tryAcquireGatewaySlot, gateway_Acquire, gateway_inFlight.
  destruct p as [[s|] a k]; simpl; case_bool; intros; simplify_eq/=; auto with lia.
  right. eauto with lia.
Qed.

Lemma tryAcquireAccountSlot_spec p id limit p' r :
  tryAcquireAccountSlot p id limit = (p', Some r) →
  (r = release_noop ∧ p' = p) ∨
  (r = release_account id ∧ account_inFlight p id < limit ∧
   lim_gateway p' = lim_gateway p ∧ lim_key p' = lim_key p ∧
   ∃ s, lim_account p = Some s ∧
     lim_account p' = Some {| acc_inFlight :=
       <[id := account_inFlight p id + 1]> (acc_inFlight s) |}).
Proof.
  unfold tryAcquireAccountSlot, account_Acquire, account_inFlight.
  destruct p as [g [s|] k]; simpl; case_bool; intros; simplify_eq/=; auto.
  right. split_and!; eauto with lia.
Qed.

Lemma tryAcquireAPIKeySlot_spec p id limit p' r :
  tryAcquireAPIKeySlot p id limit = (p', Some r) →
  (r = release_noop ∧ p' = p) ∨
  (r = release_key id ∧ key_inFlight_of p id < limit ∧
   lim_gateway p' = lim_gateway p ∧ lim_account p' = lim_account p ∧
   ∃ s, lim_key p = Some s ∧
     lim_key p' = Some {| key_inFlight :=
       <[id := key_inFlight_of p id + 1]> (key_inFlight s) |}).
Proof.
  unfold tryAcquireAPIKeySlot, apiKey_Acquire, key_inFlight_of.
  destruct p as [g a [s|]]; simpl; case_bool; intros; simplify_eq/=; auto.
  right. split_and!; eauto with lia.
Qed.

(** A rejected acquisition changes nothing. *)
Lemma tryAcquire_rejected p id limit p' :
  tryAcquireGatewaySlot p limit = (p', None) ∨
  tryAcquireAccountSlot p id limit = (p', None) ∨
  tryAcquireAPIKeySlot p id limit = (p', None) → p' = p.
Proof.
  unfold tryAcquireGatewaySlot, tryAcquireAccountSlot, tryAcquireAPIKeySlot,
    gateway_Acquire, account_Acquire, apiKey_Acquire.
  destruct p as [[g|] [a|] [k|]]; simpl; case_bool; naive_solver.
Qed.

Lemma wf_noop p out : wf (p, out) → wf (p, release_noop :: out).
Proof. intros []; split; simpl in *; autorewrite with n2api_rw; auto. Qed.

Lemma wf_acquire_gateway p p' out :
  wf (p, out) →
  lim_gateway p' = Some {| gw_inFlight := gateway_inFlight p + 1 |} →
  lim_account p' = lim_account p → lim_key p' = lim_key p →
  wf (p', release_gateway :: out).
Proof.
  intros [Hg Ha Hk Hap Hkp Hp] Hg' Ha' Hk'. simpl in *.
  split; unfold gateway_inFlight, account_inFlight, key_inFlight_of in *; simpl;
    rewrite ?Hg', ?Ha', ?Hk'; autorewrite with n2api_rw; simpl; eauto with lia.
  destruct Hp. eauto.
Qed.

Lemma wf_acquire_account p p' s id out :
  wf (p, out) → lim_account p = Some s →
  lim_account p' = Some {| acc_inFlight :=
    <[id := account_inFlight p id + 1]> (acc_inFlight s) |} →
  lim_gateway p' = lim_gateway p → lim_key p' = lim_key p →
  wf (p', release_account id :: out).
Proof.
  intros [Hg Ha Hk Hap Hkp Hp] Hs Ha' Hg' Hk'. simpl in *.
  assert (0 ≤ account_inFlight p id) by (rewrite Ha; apply outstanding_nonneg).
  split; simpl; autorewrite with n2api_rw;
    unfold gateway_inFlight, key_inFlight_of, account_inFlight in *;
    rewrite ?Hg', ?Ha', ?Hk'; simpl; eauto with lia.
  - intros k. rewrite map_get_insert, outstanding_cons, <- Ha, Hs.
    repeat case_bool_decide; simplify_eq/=; try lia.
  - intros s' k n [= <-]. simpl.
    intros [[_ <-]|[_ ?]]%lookup_insert_Some; eauto with lia.
  - rewrite Hs in Hp. naive_solver.
Qed.

Lemma wf_acquire_key p p' s id out :
  wf (p, out) → lim_key p = Some s →
  lim_key p' = Some {| key_inFlight :=
    <[id := key_inFlight_of p id + 1]> (key_inFlight s) |} →
  lim_gateway p' = lim_gateway p → lim_account p' = lim_account p →
  wf (p', release_key id :: out).
Proof.
  intros [Hg Ha Hk Hap Hkp Hp] Hs Hk' Hg' Ha'. simpl in *.
  assert (0 ≤ key_inFlight_of p id) by (rewrite Hk; apply outstanding_nonneg).
  split; simpl; autorewrite with n2api_rw;
    unfold gateway_inFlight, key_inFlight_of, account_inFlight in *;
    rewrite ?Hg', ?Ha', ?Hk'; simpl; eauto with lia.
  - intros k. rewrite map_get_insert, outstanding_cons, <- Hk, Hs.
    repeat case_bool_decide; simplify_eq/=; try lia.
  - intros s' k n [= <-]. simpl.
    intros [[_ <-]|[_ ?]]%lookup_insert_Some; eauto with lia.
  - rewrite Hs in Hp. naive_solver.
Qed.

Lemma wf_release p out1 r out2 :
  wf (p, out1 ++ r :: out2) → wf (run_release p r, out1 ++ out2).
Proof.
  intros [Hg Ha Hk Hap Hkp ([g Eg] & [a Ea] & [k Ek])]. simpl in *.
  setoid_rewrite outstanding_mid in Hg.
  setoid_rewrite outstanding_mid in Ha. setoid_rewrite outstanding_mid in Hk.
  unfold gateway_inFlight, account_inFlight, key_inFlight_of in *.
  rewrite ?Eg, ?Ea, ?Ek in *.
  pose proof (λ x, outstanding_nonneg (release_account x) (out1 ++ out2)) as Na.
  pose proof (λ x, outstanding_nonneg (release_key x) (out1 ++ out2)) as Nk.
  destruct r as [| |id|id]; simpl in *;
    (split; simpl; unfold gateway_inFlight, account_inFlight, key_inFlight_of;
      rewrite ?Eg, ?Ea, ?Ek; simpl; eauto).
  - lia.
  - intros i. specialize (Ha id) as Hid. rewrite bool_decide_eq_true_2 in Hid by done.
    simpl in Hid. specialize (Na id).
    etrans; [apply (account_release_get a id i); lia|]. rewrite Ha. repeat case_bool_decide; simplify_eq/=; lia.
  - intros s i n [= <-]. apply account_release_pos. eauto.
  - intros i. specialize (Hk id) as Hid. rewrite bool_decide_eq_true_2 in Hid by done.
    simpl in Hid. specialize (Nk id).
    etrans; [apply (apiKey_release_get k id i); lia|]. rewrite Hk. repeat case_bool_decide; simplify_eq/=; lia.
  - intros s i n [= <-]. apply apiKey_release_pos. eauto.
Qed.

#[local] Hint Resolve wf_noop wf_acquire_gateway wf_acquire_account wf_acquire_key wf_release : n2api.

Lemma wf_step M c c' : step M c c' → wf c → wf c'.
Proof.
  destruct 1 as [????? _ H|?????? _ H|?????? _ H|???? H|????? H|????? H|????]; intros Hwf.
  - apply tryAcquireGatewaySlot_spec in H as [[-> ->]|?]; split_hyps; subst; eauto with n2api.
  - apply tryAcquireAccountSlot_spec in H as [[-> ->]|?]; split_hyps; subst; eauto with n2api.
  - apply tryAcquireAPIKeySlot_spec in H as [[-> ->]|?]; split_hyps; subst; eauto with n2api.
  - by rewrite (tryAcquire_rejected p 0 limit p') by auto.
  - by rewrite (tryAcquire_rejected p id limit p') by auto.
  - by rewrite (tryAcquire_rejected p id limit p') by auto.
  - auto with n2api.
Qed.

Lemma wf_init : wf (newLimiters, []).
Proof. split; simpl; eauto; naive_solver. Qed.

Lemma wf_reachable M c : reachable M c → wf c.
Proof.
  apply (rtc_ind_r wf); eauto using wf_init, wf_step.
Qed.

(** No counter is above the largest limit in use. *)
Definition bounded (M : Z) (c : config) : Prop :=
  gateway_inFlight c.1 ≤ Z.max 0 M ∧
  ∀ id, account_inFlight c.1 id ≤ Z.max 0 M ∧ key_inFlight_of c.1 id ≤ Z.max 0 M.

Lemma bounded_step M c c' : step M c c' → wf c → bounded M c → bounded M c'.
Proof.
  intros Hs Hwf. pose proof (wf_step _ _ _ Hs Hwf) as Hwf'. revert Hs.
  destruct 1 as [????? Hl H|?????? Hl H|?????? Hl H|???? H|????? H|????? H|????];
    intros [Hg Hak]; simpl in *.
  - apply tryAcquireGatewaySlot_spec in H as [[-> ->]|?]; [done|]. split_hyps; subst.
    split; simpl; unfold gateway_inFlight, account_inFlight, key_inFlight_of in *;
      rewrite ?H1, ?H2, ?H3; simpl; auto with lia.
  - apply tryAcquireAccountSlot_spec in H as [[-> ->]|?]; [done|]. split_hyps; subst.
    split; simpl; unfold gateway_inFlight, account_inFlight, key_inFlight_of in *;
      rewrite ?H1, ?H2, ?H3, ?H4; simpl; [done|]. intros i. specialize (Hak i).
    rewrite H3 in *. rewrite map_get_insert. case_bool_decide; subst; lia.
  - apply tryAcquireAPIKeySlot_spec in H as [[-> ->]|?]; [done|]. split_hyps; subst.
    split; simpl; unfold gateway_inFlight, account_inFlight, key_inFlight_of in *;
      rewrite ?H1, ?H2, ?H3, ?H4; simpl; [done|]. intros i. specialize (Hak i).
    rewrite H3 in *. rewrite map_get_insert. case_bool_decide; subst; lia.
  - by rewrite (tryAcquire_rejected p 0 limit p') by auto.
  - by rewrite (tryAcquire_rejected p id limit p') by auto.
  - by rewrite (tryAcquire_rejected p id limit p') by auto.
  - destruct Hwf as [Wg Wa Wk _ _ _], Hwf' as [Wg' Wa' Wk' _ _ _]. simpl in *.
    rewrite outstanding_mid in Wg. setoid_rewrite outstanding_mid in Wa.
    setoid_rewrite outstanding_mid in Wk.
    assert (∀ b, 0 ≤ Z.b2z b) as Hb by (intros []; simpl; lia).
    split; simpl; [|intros i; specialize (Hak i)];
      rewrite ?Wg', ?Wa', ?Wk', ?Wg, ?Wa, ?Wk in *.
    + pose proof (Hb (bool_decide (r = release_gateway))). lia.
    + pose proof (Hb (bool_decide (r = release_account i))).
      pose proof (Hb (bool_decide (r = release_key i))). lia.
Qed.

Lemma bounded_reachable M c : reachable M c → bounded M c.
Proof.
  apply (rtc_ind_r (bounded M)).
  - split; simpl; [unfold gateway_inFlight; simpl; lia|].
    intros id. unfold account_inFlight, key_inFlight_of, map_get; simpl.
    rewrite !lookup_empty. simpl. lia.
  - intros c1 c2 Hr Hs IH. eapply bounded_step; eauto. eapply wf_reachable; done.
Qed.

(** In every interleaving of acquisitions and releases, each limiter's
    counter is exactly the number of slots handed out and not yet released, and
    it never exceeds the largest limit the acquisitions used. *)
Theorem concurrency_slots_exact_and_bounded M p out id :
  reachable M (p, out) →
  (gateway_inFlight p = outstanding release_gateway out ∧
   gateway_inFlight p ≤ Z.max 0 M) ∧
  (account_inFlight p id = outstanding (release_account id) out ∧
   account_inFlight p id ≤ Z.max 0 M) ∧
  (key_inFlight_of p id = outstanding (release_key id) out ∧
   key_inFlight_of p id ≤ Z.max 0 M).
Proof.
  intros Hr. destruct (wf_reachable _ _ Hr) as [Hg Ha Hk _ _ _].
  destruct (bounded_reachable _ _ Hr) as [Bg Bak]. specialize (Bak id).
  naive_solver.
Qed.

(** Two goroutines take the two account slots, a third is refused, one
    releases: the account limiter shows one request in flight. *)
Definition example_run : list (config → config) :=
  let acq := fun c : config =>
    match tryAcquireAccountSlot c.1 7 2 with
    | (p, Some r) => (p, r :: c.2)
    | (p, None) => (p, c.2)
    end in
  [acq; acq; acq; fun c => (run_release c.1 (release_account 7), tail c.2)].

Definition example_config : config := foldl (fun c f => f c) (newLimiters, []) example_run.

Lemma example_reachable : reachable 2 example_config.
Proof.
  unfold reachable.
  eapply rtc_l; [eapply (step_account 2 _ _ _ _ 7 2); [lia|vm_compute; reflexivity]|].
  eapply rtc_l; [eapply (step_account 2 _ _ _ _ 7 2); [lia|vm_compute; reflexivity]|].
  eapply rtc_l; [eapply (step_rejected_account 2 _ _ _ 7 2); vm_compute; reflexivity|].
  eapply rtc_l; [apply (step_release 2 _ [] (release_account 7))|].
  simpl. apply rtc_refl.
Qed.

Lemma concurrency_slots_exact_and_bounded_witness :
  reachable 2 (example_config.1, example_config.2) ∧
  account_inFlight example_config.1 7 = 1 ∧ account_inFlight example_config.1 7 ≤ 2.
Proof.
  pose proof (concurrency_slots_exact_and_bounded 2 example_config.1 example_config.2 7
    example_reachable) as (_ & (H & H') & _).
  split; [exact example_reachable|]. split; [vm_compute; reflexivity|exact H'].
Defined.

Lemma map_get_zero_empty (m : gmap Z Z) :
  (∀ k n, m !! k = Some n → 0 < n) → (∀ k, map_get m k = 0) → m = ∅.
Proof.
  intros Hpos Hz. apply map_empty. intros k. destruct (m !! k) as [n|] eqn:E; [|done].
  specialize (Hpos k n E). specialize (Hz k). unfold map_get in Hz.
  rewrite E in Hz. simpl in Hz. lia.
Qed.

(** No slot leaks: when every handed-out closure has run, the limiters are
    back in their initial state, with no map entry left behind for any account
    or key the process has ever seen. *)
Theorem concurrency_quiescent_is_initial M p :
  reachable M (p, []) → p = newLimiters.
Proof.
  intros Hr. destruct (wf_reachable _ _ Hr)
    as [Hg Ha Hk Hap Hkp ([[g] Eg] & [[a] Ea] & [[k] Ek])].
  simpl in *. destruct p as [pg pa pk]; simpl in *; subst.
  unfold newLimiters, newGatewayConcurrencyLimiter, newAccountConcurrencyLimiter,
    newAPIKeyConcurrencyLimiter.
  unfold gateway_inFlight, account_inFlight, key_inFlight_of in *; simpl in *.
  rewrite Hg, (map_get_zero_empty a), (map_get_zero_empty k); auto.
  - intros i n. apply (Hkp _ i n eq_refl).
  - intros i n. apply (Hap _ i n eq_refl).
Qed.

Lemma concurrency_quiescent_is_initial_witness :
  ∃ p, reachable 2 (p, []) ∧ p = newLimiters.
Proof.
  eexists. assert (reachable 2 (run_release example_config.1 (release_account 7), [])) as H.
  { eapply rtc_r; [exact example_reachable|].
    apply (step_release 2 _ [] (release_account 7) []). }
  split; [exact H|]. exact (concurrency_quiescent_is_initial 2 _ H).
Defined.

End Concurrency.

(** ** Per-minute limiters *)

Module Rate.

Record apiKeyRateWindow := { rw_start : Time; rw_count : Z }.
Record apiKeyTokenWindow := { tw_start : Time; tw_tokens : Z }.

Record apiKeyRateLimiter := {
  rl_defaultLimit : Z;
  rl_keys : gmap Z apiKeyRateWindow;
}.

Record apiKeyTokenLimiter := {
  tl_defaultLimit : Z;
  tl_keys : gmap Z apiKeyTokenWindow;
}.

Definition newAPIKeyRateLimiter (limit : Z) : apiKeyRateLimiter :=
  {| rl_defaultLimit := limit; rl_keys := ∅ |}.

Definition newAPIKeyTokenLimiter (limit : Z) : apiKeyTokenLimiter :=
  {| tl_defaultLimit := limit; tl_keys := ∅ |}.

(** [int(d.Seconds())] for a non-negative duration: the floating-point value
    truncated, exact because the fraction is below [1 - 1e-9]. *)
Definition secondsUntilNextMinute (now : Time) : Z :=
  let next := time_truncate now Minute + Minute in
  let seconds := Z.quot (time_sub next now) Second in
  if bool_decide (seconds < 1) then 1 else seconds.

Definition rate_effectiveLimit (l : option apiKeyRateLimiter) (limit : Z) : Z :=
  match l with
  | None => 0
  | Some s => if bool_decide (0 < limit) then limit else rl_defaultLimit s
  end.

Definition token_effectiveLimit (l : option apiKeyTokenLimiter) (limit : Z) : Z :=
  match l with
  | None => 0
  | Some s => if bool_decide (0 < limit) then limit else tl_defaultLimit s
  end.

(** An absent map entry reads as the zero window. *)
Definition rate_window (s : apiKeyRateLimiter) (keyID : Z) : apiKeyRateWindow :=
  default {| rw_start := 0; rw_count := 0 |} (rl_keys s !! keyID).

Definition token_window (s : apiKeyTokenLimiter) (keyID : Z) : apiKeyTokenWindow :=
  default {| tw_start := 0; tw_tokens := 0 |} (tl_keys s !! keyID).

Definition rate_set (s : apiKeyRateLimiter) (keyID : Z) (w : apiKeyRateWindow)
  : apiKeyRateLimiter :=
  {| rl_defaultLimit := rl_defaultLimit s; rl_keys := <[keyID := w]> (rl_keys s) |}.

Definition token_set (s : apiKeyTokenLimiter) (keyID : Z) (w : apiKeyTokenWindow)
  : apiKeyTokenLimiter :=
  {| tl_defaultLimit := tl_defaultLimit s; tl_keys := <[keyID := w]> (tl_keys s) |}.

(** Result: the limiter, the Retry-After seconds, and whether the request is allowed. *)
Definition rate_Allow (l : option apiKeyRateLimiter) (now : Time) (keyID limit : Z)
  : option apiKeyRateLimiter * (Z * bool) :=
  let effectiveLimit := rate_effectiveLimit l limit in
  if bool_decide (effectiveLimit ≤ 0) then (l, (0, true))
  else
    match l with
    | None => (l, (0, true))
    | Some s =>
        let windowStart := time_truncate now Minute in
        let window := rate_window s keyID in
        if time_is_zero (rw_start window) || negb (bool_decide (rw_start window = windowStart))
        then (Some (rate_set s keyID {| rw_start := windowStart; rw_count := 1 |}), (0, true))
        else if bool_decide (effectiveLimit ≤ rw_count window)
        then (Some s, (secondsUntilNextMinute now, false))
        else (Some (rate_set s keyID
                     {| rw_start := rw_start window; rw_count := rw_count window + 1 |}),
              (0, true))
    end.

Definition token_Allow (l : option apiKeyTokenLimiter) (now : Time) (keyID limit : Z) : Z * bool :=
  let effectiveLimit := token_effectiveLimit l limit in
  if bool_decide (effectiveLimit ≤ 0) then (0, true)
  else
    match l with
    | None => (0, true)
    | Some s =>
        let windowStart := time_truncate now Minute in
        let window := token_window s keyID in
        if time_is_zero (tw_start window) || negb (bool_decide (tw_start window = windowStart))
        then (0, true)
        else if bool_decide (effectiveLimit ≤ tw_tokens window)
        then (secondsUntilNextMinute now, false)
        else (0, true)
    end.

(** [window.tokens += tokens] is 64-bit arithmetic on reported token counts. *)
Definition token_Record (l : option apiKeyTokenLimiter) (now : Time) (keyID tokens limit : Z)
  : option apiKeyTokenLimiter :=
  if bool_decide (token_effectiveLimit l limit ≤ 0) || bool_decide (tokens ≤ 0) then l
  else
    match l with
    | None => l
    | Some s =>
        let windowStart := time_truncate now Minute in
        let window := token_window s keyID in
        if time_is_zero (tw_start window) || negb (bool_decide (tw_start window = windowStart))
        then Some (token_set s keyID {| tw_start := windowStart; tw_tokens := tokens |})
        else Some (token_set s keyID {| tw_start := tw_start window;
                                        tw_tokens := wrap64 (tw_tokens window + tokens) |})
    end.

Definition rate_Snapshot (l : option apiKeyRateLimiter) (now : Time) : gmap Z Z :=
  match l with
  | None => ∅
  | Some s =>
      let windowStart := time_truncate now Minute in
      rw_count <$> filter (fun kv => rw_start kv.2 = windowStart ∧ 0 < rw_count kv.2) (rl_keys s)
  end.

Definition token_Snapshot (l : option apiKeyTokenLimiter) (now : Time) : gmap Z Z :=
  match l with
  | None => ∅
  | Some s =>
      let windowStart := time_truncate now Minute in
      tw_tokens <$> filter (fun kv => tw_start kv.2 = windowStart ∧ 0 < tw_tokens kv.2) (tl_keys s)
  end.

Definition allowAPIKeyRequest (rl : option apiKeyRateLimiter) (now : Time)
  (keyID requestsPerMinute defaultRequestsPerMinute : Z)
  : option apiKeyRateLimiter * (Z * bool) :=
  match rl with
  | None => (None, (0, true))
  | Some _ =>
      rate_Allow rl now keyID
        (Concurrency.effectiveAPIKeyLimit requestsPerMinute defaultRequestsPerMinute)
  end.

Definition allowAPIKeyTokens (tl : option apiKeyTokenLimiter) (now : Time)
  (keyID tokensPerMinute defaultTokensPerMinute : Z) : Z * bool :=
  match tl with
  | None => (0, true)
  | Some _ =>
      token_Allow tl now keyID
        (Concurrency.effectiveAPIKeyLimit tokensPerMinute defaultTokensPerMinute)
  end.

Definition recordAPIKeyUsage (tl : option apiKeyTokenLimiter) (now : Time)
  (keyID tokens tokensPerMinute : Z) : option apiKeyTokenLimiter :=
  match tl with
  | None => None
  | Some _ => if bool_decide (tokens ≤ 0) then tl else token_Record tl now keyID tokens tokensPerMinute
  end.

(** *** Executions of the request limiter *)

Record rate_call := { call_key : Z; call_limit : Z; call_now : Time }.

(** The calls with their outcome, in the order the mutex serialises them. *)
Fixpoint rate_run (l : option apiKeyRateLimiter) (calls : list rate_call)
  : list (rate_call * bool) :=
  match calls with
  | [] => []
  | c :: calls =>
      let '(l', (_, ok)) := rate_Allow l (call_now c) (call_key c) (call_limit c) in
      (c, ok) :: rate_run l' calls
  end.

(** Requests of key [k] admitted in the minute that starts at [w]. *)
Definition admitted_in (k : Z) (w : Time) (cs : list (rate_call * bool)) : Z :=
  countZ (fun co => bool_decide (call_key co.1 = k) &&
                    bool_decide (time_truncate (call_now co.1) Minute = w) && co.2) cs.

#[global] Arguments admitted_in : simpl never.

Lemma admitted_in_cons k w c ok cs :
  admitted_in k w ((c, ok) :: cs)
  = Z.b2z (bool_decide (call_key c = k) &&
           bool_decide (time_truncate (call_now c) Minute = w) && ok) + admitted_in k w cs.
Proof. done. Qed.

(** What the limiter has charged to key [k] for the minute [w]. *)
Definition charged (s : apiKeyRateLimiter) (k : Z) (w : Time) : Z :=
  let win := rate_window s k in
  if bool_decide (rw_start win ≠ 0 ∧ rw_start win = w) then rw_count win else 0.

Lemma rate_window_set s k k' w :
  rate_window (rate_set s k w) k' = if bool_decide (k = k') then w else rate_window s k'.
Proof.
  unfold rate_window, rate_set; simpl. rewrite lookup_insert.
  case_decide; case_bool_decide; naive_solver.
Qed.

(** The three outcomes of a call that is subject to a limit. *)
Lemma rate_Allow_cases s now k limit s' sec ok :
  rate_Allow (Some s) now k limit = (s', (sec, ok)) →
  0 < rate_effectiveLimit (Some s) limit →
  let ws := time_truncate now Minute in
  let win := rate_window s k in
  (¬ (rw_start win ≠ 0 ∧ rw_start win = ws) ∧ ok = true ∧
     s' = Some (rate_set s k {| rw_start := ws; rw_count := 1 |})) ∨
  ((rw_start win ≠ 0 ∧ rw_start win = ws) ∧
     rate_effectiveLimit (Some s) limit ≤ rw_count win ∧ ok = false ∧ s' = Some s ∧
     sec = secondsUntilNextMinute now) ∨
  ((rw_start win ≠ 0 ∧ rw_start win = ws) ∧
     rw_count win < rate_effectiveLimit (Some s) limit ∧ ok = true ∧
     s' = Some (rate_set s k {| rw_start := ws; rw_count := rw_count win + 1 |})).
Proof.
  intros H Heff. unfold rate_Allow in H. rewrite bool_decide_eq_false_2 in H by lia.
  unfold time_is_zero in H. revert H. case_bool_decide as Hz; simpl.
  { intros [= <- <- <-]. left. naive_solver. }
  case_bool_decide as Hs; simpl.
  - rewrite <- Hs. case_bool_decide as Hc; intros [= <- <- <-]; right; [left|right].
    + naive_solver.
    + split_and!; try done. lia.
  - intros [= <- <- <-]. left. naive_solver.
Qed.

(** A call for another key, or one without a limit, leaves this key's window. *)
Lemma rate_Allow_other s now k k' limit s' r :
  rate_Allow (Some s) now k' limit = (s', r) →
  k' ≠ k →
  ∃ t, s' = Some t ∧ rl_defaultLimit t = rl_defaultLimit s ∧ rate_window t k = rate_window s k.
Proof.
  unfold rate_Allow. case_bool; intros [= <- <-] Hne; eexists;
    (split_and!; [done|done|]); rewrite ?rate_window_set, ?bool_decide_eq_false_2 by done; done.
Qed.

Lemma admitted_in_none k w l calls :
  (∀ c, c ∈ calls → time_truncate (call_now c) Minute ≠ w) →
  admitted_in k w (rate_run l calls) = 0.
Proof.
  revert l. induction calls as [|c calls IH]; intros l Hc; [done|]. simpl.
  destruct (rate_Allow _ _ _ _) as [l' [sec ok]]. rewrite admitted_in_cons.
  rewrite IH by (intros d Hd; apply Hc; by constructor).
  rewrite (bool_decide_eq_false_2 (_ = w)) by (apply Hc; by constructor).
  by rewrite andb_false_r.
Qed.

Definition by_time (c1 c2 : rate_call) : Prop := call_now c1 ≤ call_now c2.

(** One limited call of key [k]: the charge of the current or a later minute
    grows by exactly what the call admitted. *)
Lemma rate_Allow_charged M s now k limit s' sec ok w :
  rate_Allow (Some s) now k limit = (s', (sec, ok)) →
  0 < rate_effectiveLimit (Some s) limit ≤ M →
  0 < time_truncate now Minute →
  rw_start (rate_window s k) ≤ time_truncate now Minute →
  charged s k w ≤ M →
  ∃ t, s' = Some t ∧ rl_defaultLimit t = rl_defaultLimit s ∧
    rw_start (rate_window t k) ≤ time_truncate now Minute ∧ charged t k w ≤ M ∧
    (time_truncate now Minute ≤ w →
     Z.b2z (bool_decide (time_truncate now Minute = w) && ok) + charged s k w = charged t k w).
Proof.
  intros E HeM Hws Hst Hch. apply rate_Allow_cases in E; [|lia]. cbv zeta in E.
  remember (rate_effectiveLimit (Some s) limit) as e eqn:He. clear He.
  destruct E as [(Hnew & -> & ->)|[(Hold & Hfull & -> & -> & _)|(Hold & Hfree & -> & ->)]];
    eexists; (split_and!; [done|done|..]); unfold charged in *;
    rewrite ?rate_window_set, ?(bool_decide_eq_true_2 (k = k)) by done; simpl;
    rewrite ?andb_true_r, ?andb_false_r; auto with lia;
    repeat case_bool_decide; simpl in *; split_hyps; try lia.
Qed.

Lemma rate_run_bound M k w calls s :
  0 < M →
  StronglySorted by_time calls →
  (∀ c, c ∈ calls → Minute ≤ call_now c) →
  (∀ c, c ∈ calls → call_key c = k →
        0 < rate_effectiveLimit (Some s) (call_limit c) ≤ M) →
  (∀ c, c ∈ calls → rw_start (rate_window s k) ≤ time_truncate (call_now c) Minute) →
  charged s k w ≤ M →
  admitted_in k w (rate_run (Some s) calls) + charged s k w ≤ M.
Proof.
  intros HM. revert s. induction calls as [|c calls IH]; intros s Hs Hpos Heff Hwin Hch; [done|].
  apply StronglySorted_inv in Hs as [Hs Hhd]. rewrite Forall_forall in Hhd.
  setoid_rewrite elem_of_cons in Hpos. setoid_rewrite elem_of_cons in Heff.
  setoid_rewrite elem_of_cons in Hwin.
  assert (∀ d, d ∈ calls → time_truncate (call_now c) Minute ≤ time_truncate (call_now d) Minute)
    as Hlater by (intros d Hd; apply time_truncate_mono; [done|]; by apply Hhd).
  simpl. destruct (rate_Allow _ _ _ _) as [l' [sec ok]] eqn:E. rewrite admitted_in_cons.
  destruct (decide (call_key c = k)) as [<-|Hk].
  - destruct (rate_Allow_charged M _ _ _ _ _ _ _ w E) as (t & -> & Hd & Ht & Hct & Heq); auto.
    { assert (0 < Minute) as HMin by done. assert (Minute ≤ call_now c) as Hc by auto.
      pose proof (time_truncate_mono Minute (call_now c) Minute HMin Hc) as Hm.
      change (time_truncate Minute Minute) with Minute in Hm. lia. }
    rewrite (bool_decide_eq_true_2 (call_key c = _)) by done. simpl.
    destruct (decide (time_truncate (call_now c) Minute ≤ w)) as [Hw|Hw].
    + rewrite <- Z.add_assoc, (Z.add_comm (admitted_in _ _ _)), Z.add_assoc, Heq by done.
      rewrite Z.add_comm. apply IH; auto; unfold rate_effectiveLimit in *; rewrite ?Hd; auto.
      intros d Hd'. pose proof (Hlater d Hd'). lia.
    + rewrite bool_decide_eq_false_2 by lia. rewrite admitted_in_none; [simpl; lia|].
      intros d Hd'. pose proof (Hlater d Hd'). lia.
  - destruct (rate_Allow_other s _ k _ _ _ _ E Hk) as (t & -> & Hd & Hw).
    rewrite (bool_decide_eq_false_2 (call_key c = k)) by done. simpl.
    assert (charged s k w = charged t k w) as Hcw by (unfold charged; by rewrite Hw).
    rewrite Hcw in *. unfold rate_effectiveLimit in *. rewrite <- Hd in Heff.
    apply IH; auto. rewrite Hw. auto.
Qed.

(** The request limiter enforces its quota per calendar minute: over any
    sequence of calls with non-decreasing clock readings, at most [M] requests
    of a key are admitted in one minute, where [M] bounds the limits that were
    in effect for the key; other keys' traffic and changing limits included. *)
Theorem rate_limit_per_minute d M k w calls :
  0 < M →
  StronglySorted by_time calls →
  (∀ c, c ∈ calls → Minute ≤ call_now c) →
  (∀ c, c ∈ calls → call_key c = k →
        0 < rate_effectiveLimit (Some (newAPIKeyRateLimiter d)) (call_limit c) ≤ M) →
  admitted_in k w (rate_run (Some (newAPIKeyRateLimiter d)) calls) ≤ M.
Proof.
  intros HM Hs Hpos Heff.
  assert (charged (newAPIKeyRateLimiter d) k w = 0) as H0 by done.
  pose proof (rate_run_bound M k w calls (newAPIKeyRateLimiter d) HM Hs Hpos Heff) as H.
  rewrite H0, Z.add_0_r in H. apply H; [|lia].
  intros c Hc. change (rw_start (rate_window (newAPIKeyRateLimiter d) k)) with 0.
  specialize (Hpos c Hc). pose proof (time_truncate_bounds (call_now c) Minute). 
  unfold Minute, Second in *. lia.
Qed.

Definition example_calls : list rate_call :=
  (fun ns => {| call_key := 5; call_limit := 0; call_now := 100 * Minute + ns |})
    <$> [0; Second; 2 * Second; 70 * Second].

Lemma rate_limit_per_minute_witness :
  admitted_in 5 (100 * Minute) (rate_run (Some (newAPIKeyRateLimiter 2)) example_calls) = 2 ∧
  admitted_in 5 (100 * Minute) (rate_run (Some (newAPIKeyRateLimiter 2)) example_calls) ≤ 2.
Proof.
  split; [vm_compute; reflexivity|].
  apply (rate_limit_per_minute 2 2 5 (100 * Minute) example_calls).
  - lia.
  - unfold example_calls, by_time; simpl. repeat constructor; simpl; unfold Second; lia.
  - intros c Hc. unfold example_calls in Hc. simpl in Hc. unfold Minute, Second in *.
    repeat (apply elem_of_cons in Hc as [->|Hc]; [simpl; lia|]). by apply elem_of_nil in Hc.
  - intros c Hc _. unfold example_calls in Hc. simpl in Hc.
    repeat (apply elem_of_cons in Hc as [->|Hc]; [vm_compute; split; congruence|]).
    by apply elem_of_nil in Hc.
Defined.

(** *** Executions of the token limiter *)

Record token_record := { rec_key : Z; rec_tokens : Z; rec_limit : Z; rec_now : Time }.

Definition token_run (l : option apiKeyTokenLimiter) (rs : list token_record)
  : option apiKeyTokenLimiter :=
  foldl (fun l r => token_Record l (rec_now r) (rec_key r) (rec_tokens r) (rec_limit r)) l rs.

(** Tokens reported for key [k] in the minute that starts at [w], while a
    limit is configured. *)
Definition reported (d k : Z) (w : Time) (rs : list token_record) : Z :=
  sumZ (fun r => if bool_decide (rec_key r = k ∧ time_truncate (rec_now r) Minute = w ∧
                                 0 < rec_tokens r ∧
                                 0 < token_effectiveLimit (Some (newAPIKeyTokenLimiter d)) (rec_limit r))
                 then rec_tokens r else 0) rs.

Definition token_charged (s : apiKeyTokenLimiter) (k : Z) (w : Time) : Z :=
  let win := token_window s k in
  if bool_decide (tw_start win ≠ 0 ∧ tw_start win = w) then tw_tokens win else 0.

Definition rec_by_time (r1 r2 : token_record) : Prop := rec_now r1 ≤ rec_now r2.

Lemma token_window_set s k k' w :
  token_window (token_set s k w) k' = if bool_decide (k = k') then w else token_window s k'.
Proof.
  unfold token_window, token_set; simpl. rewrite lookup_insert.
  case_decide; case_bool_decide; naive_solver.
Qed.

Lemma token_Record_charged s r k w :
  let ws := time_truncate (rec_now r) Minute in
  let x := reported (tl_defaultLimit s) k w [r] in
  0 < ws ≤ w → tw_start (token_window s k) ≤ ws →
  0 ≤ token_charged s k w → token_charged s k w + x ≤ int64_max →
  ∃ t, token_Record (Some s) (rec_now r) (rec_key r) (rec_tokens r) (rec_limit r) = Some t ∧
    tl_defaultLimit t = tl_defaultLimit s ∧
    tw_start (token_window t k) ≤ ws ∧ token_charged t k w = token_charged s k w + x.
Proof.
  intros ws x [Hws Hw] Hst Hpos Hmax.
  unfold x, reported in *. rewrite sumZ_cons, sumZ_nil, Z.add_0_r in *. clear x.
  unfold token_Record, time_is_zero, token_charged in *. fold ws. fold ws in Hmax.
  change (token_effectiveLimit (Some (newAPIKeyTokenLimiter (tl_defaultLimit s))))
    with (token_effectiveLimit (Some s)) in *.
  remember (token_effectiveLimit (Some s) (rec_limit r)) as e eqn:He. clear He.
  destruct (bool_decide (e ≤ 0) || bool_decide (rec_tokens r ≤ 0)) eqn:Hskip.
  { to_prop. eexists; (split_and!; [done..|]).
    rewrite (bool_decide_eq_false_2 (rec_key r = k ∧ _)) by naive_solver lia. lia. }
  to_prop. destruct Hskip as [He Ht].
  destruct (decide (rec_key r = k)) as [<-|Hk].
  - destruct (_ || _) eqn:Hwin; eexists; (split_and!; [done..| |]); to_prop;
      rewrite !token_window_set, (bool_decide_eq_true_2 (rec_key r = rec_key r)) by done;
      simpl; try lia; repeat case_bool_decide; split_hyps; simpl in *;
      rewrite ?wrap64_id; unfold in_int64, int64_min in *; try lia; naive_solver lia.
  - rewrite (bool_decide_eq_false_2 (rec_key r = k ∧ _)) by naive_solver.
    destruct (_ || _) eqn:Hwin; eexists; (split_and!; [done..| |]);
      rewrite !token_window_set, (bool_decide_eq_false_2 (rec_key r = k)) by done; lia.
Qed.

Lemma reported_cons d k w r rs : reported d k w (r :: rs) = reported d k w [r] + reported d k w rs.
Proof. unfold reported. rewrite !sumZ_cons, sumZ_nil. lia. Qed.

Lemma reported_nonneg d k w rs : 0 ≤ reported d k w rs.
Proof. apply sumZ_nonneg. intros r _. case_bool_decide; [naive_solver lia|lia]. Qed.

Lemma token_run_charged k w rs s :
  StronglySorted rec_by_time rs →
  (∀ r, r ∈ rs → 0 < time_truncate (rec_now r) Minute ≤ w) →
  (∀ r, r ∈ rs → tw_start (token_window s k) ≤ time_truncate (rec_now r) Minute) →
  0 ≤ token_charged s k w →
  token_charged s k w + reported (tl_defaultLimit s) k w rs ≤ int64_max →
  ∃ t, token_run (Some s) rs = Some t ∧ tl_defaultLimit t = tl_defaultLimit s ∧
    token_charged t k w = token_charged s k w + reported (tl_defaultLimit s) k w rs.
Proof.
  revert s. induction rs as [|r rs IH]; intros s Hs Hw Hst Hpos Hmax.
  { exists s. change (reported _ k w []) with 0. split_and!; [done..|lia]. }
  apply StronglySorted_inv in Hs as [Hs Hhd]. rewrite Forall_forall in Hhd.
  rewrite reported_cons in *. setoid_rewrite elem_of_cons in Hw.
  setoid_rewrite elem_of_cons in Hst.
  pose proof (reported_nonneg (tl_defaultLimit s) k w rs).
  pose proof (reported_nonneg (tl_defaultLimit s) k w [r]).
  destruct (token_Record_charged s r k w) as (t & Ht & Hd & Hstt & Hct); auto with lia.
  destruct (IH t) as (u & Hu & Hdu & Hcu); auto; rewrite ?Hd, ?Hct in *; auto with lia.
  - intros r' Hr'. etrans; [exact Hstt|]. apply time_truncate_mono; [done|].
    by apply Hhd.
  - exists u. simpl. unfold token_run in *. simpl. rewrite Ht. split_and!; auto. lia.
Qed.

(** The token limiter is a per-minute meter: after any sequence of usage
    reports with non-decreasing clocks, a request in the minute of the latest
    report is refused exactly when the tokens reported for its key in that
    minute have reached the limit in effect, and a request in a later minute is
    always let through.  The total is assumed to fit the 64-bit counter. *)
Theorem token_limit_per_minute d k limit rs now :
  StronglySorted rec_by_time rs →
  (∀ r, r ∈ rs → 0 < time_truncate (rec_now r) Minute ≤ time_truncate now Minute) →
  let w := time_truncate now Minute in
  let lim := token_effectiveLimit (Some (newAPIKeyTokenLimiter d)) limit in
  0 < w → 0 < lim → reported d k w rs ≤ int64_max →
  (token_Allow (token_run (Some (newAPIKeyTokenLimiter d)) rs) now k limit).2
  = bool_decide (reported d k w rs < lim).
Proof.
  intros Hs Hw w lim Hw0 Hlim Hmax.
  destruct (token_run_charged k w rs (newAPIKeyTokenLimiter d)) as (t & Ht & Hd & Hc);
    [done|done| |done|done|].
  { intros r Hr. simpl. specialize (Hw r Hr). change (tw_start _) with 0. lia. }
  rewrite Ht. unfold token_Allow.
  change (token_effectiveLimit (Some t)) with (fun limit =>
    if bool_decide (0 < limit) then limit else tl_defaultLimit t).
  cbv beta. rewrite Hd. change (if bool_decide (0 < limit) then limit else _) with lim.
  rewrite bool_decide_eq_false_2 by lia. fold w.
  change (token_charged (newAPIKeyTokenLimiter d) k w) with 0 in Hc.
  change (tl_defaultLimit (newAPIKeyTokenLimiter d)) with d in Hc.
  rewrite Z.add_0_l in Hc. rewrite <- Hc. unfold token_charged, time_is_zero.
  repeat case_bool_decide; simpl; repeat case_bool_decide; try done; try lia; naive_solver lia.
Qed.

Definition example_records : list token_record :=
  (fun ns => {| rec_key := 5; rec_tokens := 40; rec_limit := 0; rec_now := 100 * Minute + ns |})
    <$> [0; Second; 2 * Second].

Lemma token_limit_per_minute_witness :
  (token_Allow (token_run (Some (newAPIKeyTokenLimiter 100)) example_records)
     (100 * Minute + 3 * Second) 5 0).2 = false.
Proof.
  etrans; [apply (token_limit_per_minute 100 5 0 example_records (100 * Minute + 3 * Second))|].
  - unfold example_records, rec_by_time; simpl. repeat constructor; simpl; unfold Second; lia.
  - intros r Hr. unfold example_records in Hr. simpl in Hr.
    repeat (apply elem_of_cons in Hr as [->|Hr]; [vm_compute; split; congruence|]).
    by apply elem_of_nil in Hr.
  - vm_compute; reflexivity.
  - vm_compute; reflexivity.
  - vm_compute; congruence.
  - vm_compute; reflexivity.
Defined.

Lemma secondsUntilNextMinute_eq now :
  secondsUntilNextMinute now
  = Z.max 1 ((time_truncate now Minute + Minute - now) / Second).
Proof.
  unfold secondsUntilNextMinute.
  pose proof (time_truncate_bounds now Minute ltac:(done)) as Hb.
  rewrite time_sub_exact, Z.quot_div_nonneg; try (unfold Second, Minute in *; lia).
  - case_bool_decide; lia.
  - unfold in_int64, int64_min, int64_max, Minute, Second in *. lia.
Qed.

(** A refused request is told to retry after between one and sixty
    seconds; waiting one second more than told always reaches the next minute,
    where the request limiter admits the key again. *)
Theorem rate_retry_hint s now k limit sec :
  (rate_Allow (Some s) now k limit).2 = (sec, false) →
  1 ≤ sec ≤ 60 ∧
  (∀ later, time_truncate now Minute + Minute ≤ now + (sec + 1) * Second ∧
     (now + (sec + 1) * Second ≤ later →
      (rate_Allow (rate_Allow (Some s) now k limit).1 later k limit).2 = (0, true))).
Proof.
  intros H. destruct (rate_Allow _ _ _ _) as [s' r] eqn:E; simpl in H; subst r.
  assert (0 < rate_effectiveLimit (Some s) limit) as Heff.
  { unfold rate_Allow in E. case_bool_decide; [done|lia]. }
  destruct (rate_Allow_cases _ _ _ _ _ _ _ E Heff) as
    [(_ & ? & _)|[([Hnz Heq] & _ & _ & -> & ->)|(_ & _ & ? & _)]]; [done| |done].
  pose proof (time_truncate_bounds now Minute ltac:(done)) as Hb.
  rewrite secondsUntilNextMinute_eq.
  set (left := time_truncate now Minute + Minute - now) in *.
  assert (0 < left ≤ 60 * Second) as Hl by (unfold left, Minute in *; lia).
  pose proof (Z.div_mod left Second ltac:(done)).
  pose proof (Z.mod_pos_bound left Second ltac:(done)).
  assert (left / Second ≤ 60) by (apply Z.div_le_upper_bound; lia).
  split; [lia|]. intros later. split; [unfold Second in *; lia|]. intros Hlater.
  assert (time_truncate (time_truncate now Minute + Minute) Minute ≤ time_truncate later Minute) as Hm.
  { apply time_truncate_mono; [done|]. unfold Second in *. lia. }
  rewrite time_truncate_next in Hm by done.
  cbn [fst]. unfold rate_Allow. rewrite bool_decide_eq_false_2 by lia.
  rewrite (bool_decide_eq_false_2 (rw_start _ = _)) by (unfold Minute, Second in *; lia).
  by rewrite orb_true_r.
Qed.

Lemma rate_retry_hint_witness :
  let l := foldl (fun l ns => (rate_Allow l (100 * Minute + ns) 5 0).1)
    (Some (newAPIKeyRateLimiter 1)) [0] in
  (rate_Allow l (100 * Minute + 500000000) 5 0).2 = (59, false) ∧ 1 ≤ 59 ≤ 60.
Proof.
  intros l. split; [vm_compute; reflexivity|].
  apply (rate_retry_hint {| rl_defaultLimit := 1;
    rl_keys := {[5 := {| rw_start := 100 * Minute; rw_count := 1 |}]} |}
    (100 * Minute + 500000000) 5 0 59).
  vm_compute. reflexivity.
Defined.

End Rate.
