(* ===== verification/GoStrings.v ===== *)
(** * Go strings

    The functions of Go's [strings] package the modelled code uses, on byte
    strings.  [TrimSpace] removes Unicode white space in its UTF-8 encoding at
    both ends. *)

From S2P Require Import Prelude.
From stdpp Require Import pretty.
From Stdlib Require Import Ascii.
From Stdlib Require String.
#[global] Open Scope string_scope.
#[global] Open Scope list_scope.
#[global] Open Scope Z_scope.

Definition byte_of (a : ascii) : Z := Z.of_N (N_of_ascii a).

(** [len(s)]: the number of bytes. *)
Definition go_len (s : string) : Z := Z.of_nat (String.length s).

(** White space encoded in one, two and three bytes: TAB, LF, VT, FF, CR and
    SPACE; U+0085 and U+00A0; U+1680, U+2000..U+200A, U+2028, U+2029, U+202F,
    U+205F and U+3000. *)
Definition space1 (a : ascii) : bool :=
  let x := byte_of a in bool_decide (9 ≤ x ≤ 13) || bool_decide (x = 32).

Definition space2 (a b : ascii) : bool :=
  bool_decide (byte_of a = 194) &&
  (bool_decide (byte_of b = 133) || bool_decide (byte_of b = 160)).

Definition space3 (a b c : ascii) : bool :=
  let x := byte_of a in let y := byte_of b in let z := byte_of c in
  (bool_decide (x = 225) && bool_decide (y = 154) && bool_decide (z = 128)) ||
  (bool_decide (x = 226) && bool_decide (y = 128) &&
     (bool_decide (128 ≤ z ≤ 138) || bool_decide (168 ≤ z ≤ 169) || bool_decide (z = 175))) ||
  (bool_decide (x = 226) && bool_decide (y = 129) && bool_decide (z = 159)) ||
  (bool_decide (x = 227) && bool_decide (y = 128) && bool_decide (z = 128)).

Section trim.
Context (p1 : ascii → bool) (p2 : ascii → ascii → bool) (p3 : ascii → ascii → ascii → bool).

(** Drop white space from the front of a byte list. *)
Fixpoint trim_front (l : list ascii) : list ascii :=
  match l with
  | [] => []
  | a :: l1 =>
      if p1 a then trim_front l1
      else match l1 with
      | [] => l
      | b :: l2 =>
          if p2 a b then trim_front l2
          else match l2 with
          | [] => l
          | c :: l3 => if p3 a b c then trim_front l3 else l
          end
      end
  end.

(** No white space in front. *)
Definition front_clean (l : list ascii) : Prop :=
  match l with
  | [] => True
  | a :: l1 => p1 a = false ∧
      match l1 with
      | [] => True
      | b :: l2 => p2 a b = false ∧
          match l2 with [] => True | c :: _ => p3 a b c = false end
      end
  end.

Lemma trim_front_spec l : front_clean (trim_front l) ∧ ∃ k, l = k ++ trim_front l.
Proof.
  induction l as [[|a l] IH] using (induction_ltof1 _ (@length ascii)); [by split; [|exists []]|].
  unfold ltof in IH. simpl. destruct (p1 a) eqn:H1.
  { destruct (IH l) as [? [k Hk]]; [simpl; lia|].
    split; [done|]. exists (a :: k). simpl. by f_equal. }
  destruct l as [|b l]; [by split; [|exists []]|]. destruct (p2 a b) eqn:H2.
  { destruct (IH l) as [? [k Hk]]; [simpl; lia|].
    split; [done|]. exists (a :: b :: k). simpl. by do 2 f_equal. }
  destruct l as [|c l]; [by split; [|exists []]|]. destruct (p3 a b c) eqn:H3.
  { destruct (IH l) as [? [k Hk]]; [simpl; lia|].
    split; [done|]. exists (a :: b :: c :: k). simpl. by do 3 f_equal. }
  split; [done|by exists []].
Qed.

Lemma trim_front_clean l : front_clean l → trim_front l = l.
Proof.
  destruct l as [|a [|b [|c l]]]; simpl; [done|..]; intros H; split_hyps.
  - by destruct (p1 a).
  - destruct (p1 a); [done|]. by destruct (p2 a b).
  - destruct (p1 a); [done|]. destruct (p2 a b); [done|]. by destruct (p3 a b c).
Qed.

Lemma front_clean_prefix l k : front_clean (l ++ k) → front_clean l.
Proof. destruct l as [|a [|b [|c l]]]; simpl; naive_solver. Qed.
End trim.

Definition trim_left_bytes : list ascii → list ascii := trim_front space1 space2 space3.

Definition trim_right_bytes (l : list ascii) : list ascii :=
  rev (trim_front space1 (fun a b => space2 b a) (fun a b c => space3 c b a) (rev l)).

(** [strings.TrimSpace] *)
Definition TrimSpace (s : string) : string :=
  String.string_of_list_ascii (trim_right_bytes (trim_left_bytes (String.list_ascii_of_string s))).

Lemma trim_right_prefix l : ∃ k, l = trim_right_bytes l ++ k.
Proof.
  unfold trim_right_bytes.
  destruct (trim_front_spec space1 (fun a b => space2 b a) (fun a b c => space3 c b a) (rev l))
    as [_ [k Hk]].
  exists (rev k). apply (f_equal (@rev _)) in Hk.
  by rewrite rev_involutive, rev_app_distr in Hk.
Qed.

Lemma trim_right_idem l : trim_right_bytes (trim_right_bytes l) = trim_right_bytes l.
Proof.
  unfold trim_right_bytes. rewrite rev_involutive. f_equal.
  apply trim_front_clean, trim_front_spec.
Qed.

Lemma TrimSpace_idem s : TrimSpace (TrimSpace s) = TrimSpace s.
Proof.
  unfold TrimSpace. rewrite String.list_ascii_of_string_of_list_ascii. f_equal.
  set (l := trim_left_bytes (String.list_ascii_of_string s)).
  assert (trim_left_bytes (trim_right_bytes l) = trim_right_bytes l) as ->.
  { apply trim_front_clean. destruct (trim_right_prefix l) as [k Hk].
    apply (front_clean_prefix _ _ _ _ k). rewrite <- Hk. apply trim_front_spec. }
  apply trim_right_idem.
Qed.

#[export] Hint Rewrite TrimSpace_idem : n2api_rw.

Lemma TrimSpace_empty : TrimSpace "" = "".
Proof. reflexivity. Qed.

Example TrimSpace_test : TrimSpace "	 a b " = "a b".
Proof. reflexivity. Qed.

(** String equality as a boolean test, as Go's [==]. *)
Definition str_eq (s t : string) : bool := bool_decide (s = t).

Lemma append_inj_l (p s t : string) : String.append p s = String.append p t → s = t.
Proof. induction p as [|a p IH]; simpl; [done|]. intros [= H]. auto. Qed.

(** [strconv.FormatInt(z, 10)]: the decimal digits with a sign. *)
Definition FormatInt (z : Z) : string := pretty z.

(** ** Case and hexadecimal digits *)

Definition is_upper (a : ascii) : bool := bool_decide (65 ≤ byte_of a ≤ 90).
Definition is_hex_digit (a : ascii) : bool :=
  let x := byte_of a in
  bool_decide (48 ≤ x ≤ 57) || bool_decide (97 ≤ x ≤ 102) || bool_decide (65 ≤ x ≤ 70).

(** [strings.ToLower(s) == s] for an ASCII string. *)
Definition ascii_lower_fixed (s : string) : bool :=
  forallb (fun a => negb (is_upper a)) (String.list_ascii_of_string s).

(** [hex.DecodeString(s)] succeeds, with [go_len s / 2] bytes. *)
Definition hex_decodes (s : string) : bool :=
  Nat.even (String.length s) && forallb is_hex_digit (String.list_ascii_of_string s).

(** [strings.ToLower], as far as a comparison with an ASCII constant can see:
    the characters whose lower case is ASCII are A..Z, U+0130 (to [i]) and
    U+212A (to [k]); all others are left as they are. *)
Definition lower_ascii (a : ascii) : ascii :=
  if is_upper a then ascii_of_N (N_of_ascii a + 32) else a.

Fixpoint lower_bytes (l : list ascii) : list ascii :=
  match l with
  | [] => []
  | a :: l1 =>
      match l1 with
      | b :: l2 =>
          if bool_decide (byte_of a = 196) && bool_decide (byte_of b = 176) then "i"%char :: lower_bytes l2
          else match l2 with
          | c :: l3 =>
              if bool_decide (byte_of a = 226) && bool_decide (byte_of b = 132) && bool_decide (byte_of c = 170)
              then "k"%char :: lower_bytes l3
              else lower_ascii a :: lower_bytes l1
          | [] => lower_ascii a :: lower_bytes l1
          end
      | [] => [lower_ascii a]
      end
  end.

Definition ToLower (s : string) : string :=
  String.string_of_list_ascii (lower_bytes (String.list_ascii_of_string s)).

Example ToLower_test : ToLower "Chat_COMPLETIONS" = "chat_completions".
Proof. reflexivity. Qed.

(** [strings.Contains(s, sub)] *)
Fixpoint prefix_of (p l : list ascii) : bool :=
  match p, l with
  | [], _ => true
  | a :: p, b :: l => bool_decide (a = b) && prefix_of p l
  | _ :: _, [] => false
  end.

Fixpoint contains_bytes (p l : list ascii) : bool :=
  prefix_of p l || match l with [] => false | _ :: l => contains_bytes p l end.

Definition Contains (s sub : string) : bool :=
  contains_bytes (String.list_ascii_of_string sub) (String.list_ascii_of_string s).

Definition HasPrefix (s p : string) : bool :=
  prefix_of (String.list_ascii_of_string p) (String.list_ascii_of_string s).

(** [strings.TrimRight(s, "/")] *)
Definition TrimRightSlash (s : string) : string :=
  let fix drop (l : list ascii) :=
    match l with
    | a :: l' => if bool_decide (a = "/"%char) then drop l' else l
    | [] => []
    end in
  String.string_of_list_ascii (rev (drop (rev (String.list_ascii_of_string s)))).

(** [strings.Join] *)
Fixpoint Join (l : list string) (sep : string) : string :=
  match l with
  | [] => ""
  | [s] => s
  | s :: l => String.append s (String.append sep (Join l sep))
  end.

(** [strconv.Atoi]: an optional sign, at least one digit, 64-bit range. *)
Fixpoint digits_value (l : list ascii) (acc : Z) : option Z :=
  match l with
  | [] => Some acc
  | a :: l =>
      if bool_decide (48 ≤ byte_of a ≤ 57) then digits_value l (acc * 10 + (byte_of a - 48)) else None
  end.

Definition Atoi (s : string) : option Z :=
  let '(sign, ds) :=
    match String.list_ascii_of_string s with
    | a :: l => if bool_decide (a = "-"%char) then (-1, l)
                else if bool_decide (a = "+"%char) then (1, l) else (1, a :: l)
    | [] => (1, [])
    end in
  match ds with
  | [] => None
  | _ => match digits_value ds 0 with
         | Some v => if bool_decide (int64_min ≤ sign * v ≤ int64_max) then Some (sign * v) else None
         | None => None
         end
  end.

Infix "+++" := String.append (at level 60, right associativity) : n2api_scope.

(** [strings.EqualFold]: equality under simple case folding, as far as a
    comparison with an ASCII string can see: the characters folding to ASCII
    letters are A..Z, U+017F (with [s]) and U+212A (with [k]). *)
Fixpoint fold_bytes (l : list ascii) : list ascii :=
  match l with
  | [] => []
  | a :: l1 =>
      match l1 with
      | b :: l2 =>
          if bool_decide (byte_of a = 197) && bool_decide (byte_of b = 191) then "s"%char :: fold_bytes l2
          else match l2 with
          | c :: l3 =>
              if bool_decide (byte_of a = 226) && bool_decide (byte_of b = 132) && bool_decide (byte_of c = 170)
              then "k"%char :: fold_bytes l3
              else lower_ascii a :: fold_bytes l1
          | [] => lower_ascii a :: fold_bytes l1
          end
      | [] => [lower_ascii a]
      end
  end.

Definition EqualFold (s t : string) : bool :=
  bool_decide (fold_bytes (String.list_ascii_of_string s) = fold_bytes (String.list_ascii_of_string t)).

(** [strings.HasSuffix], [strings.TrimPrefix], [strings.TrimSuffix] *)
Definition HasSuffix (s p : string) : bool :=
  prefix_of (rev (String.list_ascii_of_string p)) (rev (String.list_ascii_of_string s)).

Definition TrimPrefix (s p : string) : string :=
  if HasPrefix s p
  then String.string_of_list_ascii (drop (String.length p) (String.list_ascii_of_string s)) else s.

Definition TrimSuffix (s p : string) : string :=
  if HasSuffix s p
  then String.string_of_list_ascii (take (String.length s - String.length p) (String.list_ascii_of_string s))
  else s.

(** [strings.TrimLeft(s, "/")] *)
Definition TrimLeftSlash (s : string) : string :=
  let fix drop (l : list ascii) :=
    match l with
    | a :: l' => if bool_decide (a = "/"%char) then drop l' else l
    | [] => []
    end in
  String.string_of_list_ascii (drop (String.list_ascii_of_string s)).

(** [strings.Cut(s, c)] and [strings.Split(s, c)] for a separator of one byte. *)
Fixpoint cut_bytes (c : ascii) (l : list ascii) : list ascii * option (list ascii) :=
  match l with
  | [] => ([], None)
  | a :: l =>
      if bool_decide (a = c) then ([], Some l)
      else let '(b, r) := cut_bytes c l in (a :: b, r)
  end.

Definition Cut (s : string) (c : ascii) : string * option string :=
  let '(b, r) := cut_bytes c (String.list_ascii_of_string s) in
  (String.string_of_list_ascii b, String.string_of_list_ascii <$> r).

Fixpoint split_bytes (c : ascii) (l : list ascii) : list (list ascii) :=
  match l with
  | [] => [[]]
  | a :: l =>
      if bool_decide (a = c) then [] :: split_bytes c l
      else match split_bytes c l with
           | x :: xs => (a :: x) :: xs
           | [] => [[a]]
           end
  end.

Definition Split (s : string) (c : ascii) : list string :=
  map String.string_of_list_ascii (split_bytes c (String.list_ascii_of_string s)).

(** [strings.SplitN(s, c, n)] for a positive [n]. *)
Fixpoint splitn_bytes (c : ascii) (n : nat) (l : list ascii) : list (list ascii) :=
  match n with
  | O => []
  | S O => [l]
  | S n => match cut_bytes c l with
           | (b, Some r) => b :: splitn_bytes c n r
           | (b, None) => [b]
           end
  end.

Definition SplitN (s : string) (c : ascii) (n : nat) : list string :=
  map String.string_of_list_ascii (splitn_bytes c n (String.list_ascii_of_string s)).

(** ** Separators *)

(** The byte does not occur in the text. *)
Definition free_of (c : ascii) (s : string) : bool :=
  forallb (fun a => negb (bool_decide (a = c))) (String.list_ascii_of_string s).

Lemma list_ascii_append (s t : string) :
  String.list_ascii_of_string (s +++ t) = String.list_ascii_of_string s ++ String.list_ascii_of_string t.
Proof. induction s as [|a s IH]; simpl; [done|]. by rewrite IH. Qed.

Lemma cut_bytes_sep c l k :
  forallb (fun a => negb (bool_decide (a = c))) l = true → cut_bytes c (l ++ c :: k) = (l, Some k).
Proof.
  induction l as [|a l IH]; simpl; [by rewrite bool_decide_eq_true_2|].
  intros [Ha Hl]%andb_true_iff. apply negb_true_iff in Ha. by rewrite Ha, IH.
Qed.

Lemma splitn_bytes_sep c n l k :
  forallb (fun a => negb (bool_decide (a = c))) l = true →
  splitn_bytes c (S (S n)) (l ++ c :: k) = l :: splitn_bytes c (S n) k.
Proof. intros Hl. cbn [splitn_bytes]. by rewrite cut_bytes_sep. Qed.

Lemma split_bytes_sep c l k :
  forallb (fun a => negb (bool_decide (a = c))) l = true → split_bytes c (l ++ c :: k) = l :: split_bytes c k.
Proof.
  induction l as [|a l IH]; simpl; [by rewrite bool_decide_eq_true_2|].
  intros [Ha Hl]%andb_true_iff. apply negb_true_iff in Ha. by rewrite Ha, IH.
Qed.

Lemma split_bytes_free c l :
  forallb (fun a => negb (bool_decide (a = c))) l = true → split_bytes c l = [l].
Proof.
  induction l as [|a l IH]; simpl; [done|].
  intros [Ha Hl]%andb_true_iff. apply negb_true_iff in Ha. by rewrite Ha, IH.
Qed.

Lemma SplitN_sep c n (s t : string) :
  free_of c s = true → SplitN (s +++ String c t) c (S (S n)) = s :: SplitN t c (S n).
Proof.
  intros Hs. unfold SplitN. rewrite list_ascii_append. cbn [String.list_ascii_of_string].
  rewrite splitn_bytes_sep by done. cbn [map]. by rewrite String.string_of_list_ascii_of_string.
Qed.

Lemma Split_sep c (s t : string) : free_of c s = true → Split (s +++ String c t) c = s :: Split t c.
Proof.
  intros Hs. unfold Split. rewrite list_ascii_append. cbn [String.list_ascii_of_string].
  rewrite split_bytes_sep by done. cbn [map]. by rewrite String.string_of_list_ascii_of_string.
Qed.

Lemma Split_free c (s : string) : free_of c s = true → Split s c = [s].
Proof. intros Hs. unfold Split. rewrite split_bytes_free by done. cbn. by rewrite String.string_of_list_ascii_of_string. Qed.

Lemma append_assoc (s t u : string) : (s +++ t) +++ u = s +++ (t +++ u).
Proof. induction s as [|a s IH]; [done|]. change (String a ((s +++ t) +++ u) = String a (s +++ (t +++ u))). by rewrite IH. Qed.

Lemma HasPrefix_append (s p : string) : HasPrefix (p +++ s) p = true.
Proof.
  unfold HasPrefix. induction p as [|a p IH]; simpl; [done|]. by rewrite bool_decide_eq_true_2.
Qed.

Lemma prefix_of_split p l : prefix_of p l = true → ∃ k, l = p ++ k.
Proof.
  revert l. induction p as [|a p IH]; intros [|b l]; simpl; eauto; [done|].
  intros [->%bool_decide_eq_true [k ->]%IH]%andb_true_iff. eauto.
Qed.
