(* ===== verification/Base64.v ===== *)
(** * Go's [encoding/base64]

    The encodings the program uses: the standard and the URL alphabet, with and
    without padding, strict or not about unused bits; and that decoding undoes
    encoding. *)

From S2P Require Import Prelude GoStrings.
From Stdlib Require Import Ascii.
From Stdlib Require String.

Module Base64.

Record Encoding := { url_alphabet : bool; padded : bool; strict : bool }.

Definition StdEncoding : Encoding := Build_Encoding false true false.
Definition RawStdEncoding : Encoding := Build_Encoding false false false.
Definition URLEncoding : Encoding := Build_Encoding true true false.
Definition RawURLEncoding : Encoding := Build_Encoding true false false.
Definition Strict (e : Encoding) : Encoding := Build_Encoding (url_alphabet e) (padded e) true.

Definition char_of (z : Z) : ascii := ascii_of_N (Z.to_N z).

Definition encode_digit (e : Encoding) (i : Z) : ascii :=
  if bool_decide (i < 26) then char_of (65 + i)
  else if bool_decide (i < 52) then char_of (97 + (i - 26))
  else if bool_decide (i < 62) then char_of (48 + (i - 52))
  else if bool_decide (i = 62) then (if url_alphabet e then "-" else "+")%char
  else (if url_alphabet e then "_" else "/")%char.

Definition decode_digit (e : Encoding) (a : ascii) : option Z :=
  let b := byte_of a in
  if bool_decide (65 ≤ b ≤ 90) then Some (b - 65)
  else if bool_decide (97 ≤ b ≤ 122) then Some (b - 97 + 26)
  else if bool_decide (48 ≤ b ≤ 57) then Some (b - 48 + 52)
  else if bool_decide (a = if url_alphabet e then "-" else "+")%char then Some 62
  else if bool_decide (a = if url_alphabet e then "_" else "/")%char then Some 63
  else None.

(** ** Encoding *)

Definition pad (e : Encoding) (n : nat) : list ascii := if padded e then repeat "="%char n else [].

Fixpoint encode_bytes (e : Encoding) (l : list ascii) : list ascii :=
  match l with
  | a :: b :: c :: l =>
      let '(a, b, c) := (byte_of a, byte_of b, byte_of c) in
      [encode_digit e (a / 4); encode_digit e (a mod 4 * 16 + b / 16);
       encode_digit e (b mod 16 * 4 + c / 64); encode_digit e (c mod 64)] ++ encode_bytes e l
  | [a; b] =>
      let '(a, b) := (byte_of a, byte_of b) in
      [encode_digit e (a / 4); encode_digit e (a mod 4 * 16 + b / 16); encode_digit e (b mod 16 * 4)] ++ pad e 1
  | [a] => [encode_digit e (byte_of a / 4); encode_digit e (byte_of a mod 4 * 16)] ++ pad e 2
  | [] => []
  end.

Definition EncodeToString (e : Encoding) (l : list ascii) : string :=
  String.string_of_list_ascii (encode_bytes e l).

(** ** Decoding *)

Definition byte1 (w x : Z) : ascii := char_of (w * 4 + x / 16).
Definition byte2 (x y : Z) : ascii := char_of (x mod 16 * 16 + y / 4).
Definition byte3 (y z : Z) : ascii := char_of (y mod 4 * 64 + z).

(** The last two or three digits; a strict encoding wants the bits they leave
    over to be zero. *)
Definition decode_two (e : Encoding) (w x : ascii) : option (list ascii) :=
  w ← decode_digit e w; x ← decode_digit e x;
  if strict e && negb (bool_decide (x mod 16 = 0)) then None else Some [byte1 w x].

Definition decode_three (e : Encoding) (w x y : ascii) : option (list ascii) :=
  w ← decode_digit e w; x ← decode_digit e x; y ← decode_digit e y;
  if strict e && negb (bool_decide (y mod 4 = 0)) then None else Some [byte1 w x; byte2 x y].

Definition is_pad (e : Encoding) (a : ascii) : bool := padded e && bool_decide (a = "="%char).

Fixpoint decode_bytes (e : Encoding) (l : list ascii) : option (list ascii) :=
  match l with
  | [] => Some []
  | [w; x] => if padded e then None else decode_two e w x
  | [w; x; y] => if padded e then None else decode_three e w x y
  | w :: x :: y :: z :: l =>
      if is_pad e y && is_pad e z && bool_decide (l = []) then decode_two e w x
      else if is_pad e z && bool_decide (l = []) then decode_three e w x y
      else
        w ← decode_digit e w; x ← decode_digit e x; y ← decode_digit e y; z ← decode_digit e z;
        rest ← decode_bytes e l;
        Some ([byte1 w x; byte2 x y; byte3 y z] ++ rest)
  | _ => None
  end.

(** Carriage returns and line feeds are skipped. *)
Definition is_newline (a : ascii) : bool := bool_decide (byte_of a = 10 ∨ byte_of a = 13).

Definition DecodeString (e : Encoding) (s : string) : option (list ascii) :=
  decode_bytes e (List.filter (fun a => negb (is_newline a)) (String.list_ascii_of_string s)).

Definition DecodedLen (e : Encoding) (n : Z) : Z := if padded e then n / 4 * 3 else n / 4 * 3 + n mod 4 * 6 / 8.

(** ** Round trip *)

Lemma byte_of_range a : 0 ≤ byte_of a < 256.
Proof.
  unfold byte_of. split; [lia|]. pose proof (N_ascii_bounded a) as H. lia.
Qed.

Lemma byte_char_of z : 0 ≤ z < 256 → byte_of (char_of z) = z.
Proof. intros H. unfold byte_of, char_of. rewrite N_ascii_embedding; lia. Qed.

Lemma char_of_byte a : char_of (byte_of a) = a.
Proof. unfold byte_of, char_of. rewrite N2Z.id. apply ascii_N_embedding. Qed.

(** What holds of the 64 digits is checked one by one. *)
Lemma digits_check (p : Z → bool) : forallb p (map Z.of_nat (seq 0 64)) = true → ∀ i, 0 ≤ i < 64 → p i = true.
Proof.
  rewrite forallb_forall. intros H i Hi. apply H. apply in_map_iff. exists (Z.to_nat i). split; [lia|].
  apply in_seq. lia.
Qed.

Definition digit_ok (e : Encoding) (i : Z) : bool :=
  bool_decide (decode_digit e (encode_digit e i) = Some i) && negb (is_newline (encode_digit e i))
  && negb (bool_decide (encode_digit e i = "="%char)) && negb (bool_decide (encode_digit e i = ":"%char))
  && negb (bool_decide (encode_digit e i = "$"%char)).

Lemma digits_ok e i : 0 ≤ i < 64 → digit_ok e i = true.
Proof. destruct e as [[] [] []]; apply (digits_check (digit_ok _)); vm_compute; reflexivity. Qed.

Ltac digit_facts e i Hi :=
  let H := fresh "Hok" in
  pose proof (digits_ok e i Hi) as H; unfold digit_ok in H; rewrite !andb_true_iff in H;
  destruct H as [[[[?%bool_decide_eq_true ?%negb_true_iff] ?%negb_true_iff] ?%negb_true_iff] ?%negb_true_iff].

Lemma decode_encode_digit e i : 0 ≤ i < 64 → decode_digit e (encode_digit e i) = Some i.
Proof. intros Hi. by digit_facts e i Hi. Qed.

Lemma encode_digit_not_pad e i : 0 ≤ i < 64 → is_pad e (encode_digit e i) = false.
Proof. intros Hi. digit_facts e i Hi. unfold is_pad. by rewrite H1, andb_false_r. Qed.

(** A list of bytes by groups of three. *)
Lemma bytes_ind (P : list ascii → Prop) :
  P [] → (∀ a, P [a]) → (∀ a b, P [a; b]) → (∀ a b c l, P l → P (a :: b :: c :: l)) → ∀ l, P l.
Proof.
  intros H0 H1 H2 H3. fix IH 1. intros [|a [|b [|c l]]]; [done|apply H1|apply H2|]. apply H3, IH.
Qed.

Ltac Zify.zify_post_hook ::= Z.div_mod_to_equations.

(** The digits of three bytes are digits, and give the bytes back. *)
Lemma digit_ranges a b c :
  0 ≤ a < 256 → 0 ≤ b < 256 → 0 ≤ c < 256 →
  (0 ≤ a / 4 < 64 ∧ 0 ≤ a mod 4 * 16 + b / 16 < 64) ∧ 0 ≤ b mod 16 * 4 + c / 64 < 64 ∧ 0 ≤ c mod 64 < 64.
Proof. lia. Qed.

Lemma byte1_ok a b : 0 ≤ a < 256 → 0 ≤ b < 256 → a / 4 * 4 + (a mod 4 * 16 + b / 16) / 16 = a.
Proof. lia. Qed.

Lemma byte2_ok a b c :
  0 ≤ b < 256 → 0 ≤ c < 256 → (a mod 4 * 16 + b / 16) mod 16 * 16 + (b mod 16 * 4 + c / 64) / 4 = b.
Proof. lia. Qed.

Lemma byte3_ok b c : 0 ≤ c < 256 → (b mod 16 * 4 + c / 64) mod 4 * 64 + c mod 64 = c.
Proof. lia. Qed.

Lemma leftovers a b : (a mod 4 * 16) mod 16 = 0 ∧ (b mod 16 * 4) mod 4 = 0.
Proof. lia. Qed.

Ltac Zify.zify_post_hook ::= idtac.

Lemma decode_encode_bytes e l : decode_bytes e (encode_bytes e l) = Some l.
Proof.
  induction l as [|a|a b|a b c l IH] using bytes_ind; [done|..].
  - pose proof (byte_of_range a) as Ha. destruct (digit_ranges (byte_of a) 0 0 Ha ltac:(lia) ltac:(lia)) as [[R1 R2] _].
    pose proof (byte1_ok (byte_of a) 0 Ha ltac:(lia)) as B1. pose proof (leftovers (byte_of a) 0) as [L _].
    change (0 / 16) with 0 in *. rewrite !Z.add_0_r in R2, B1.
    assert (decode_two e (encode_digit e (byte_of a / 4)) (encode_digit e (byte_of a mod 4 * 16)) = Some [a]) as Hd.
    { unfold decode_two. rewrite !decode_encode_digit by done. cbn. rewrite L, andb_false_r. unfold byte1.
      by rewrite B1, char_of_byte. }
    unfold encode_bytes, pad. destruct (padded e) eqn:Ep; cbn; rewrite ?Ep; [|done].
    unfold is_pad. rewrite Ep. cbn. done.
  - pose proof (byte_of_range a) as Ha. pose proof (byte_of_range b) as Hb.
    destruct (digit_ranges (byte_of a) (byte_of b) 0 Ha Hb ltac:(lia)) as [[R1 R2] [R3 _]].
    pose proof (byte1_ok (byte_of a) (byte_of b) Ha Hb) as B1.
    pose proof (byte2_ok (byte_of a) (byte_of b) 0 Hb ltac:(lia)) as B2. pose proof (leftovers 0 (byte_of b)) as [_ L].
    change (0 / 64) with 0 in *. rewrite !Z.add_0_r in R3, B2.
    assert (decode_three e (encode_digit e (byte_of a / 4)) (encode_digit e (byte_of a mod 4 * 16 + byte_of b / 16))
              (encode_digit e (byte_of b mod 16 * 4)) = Some [a; b]) as Hd.
    { unfold decode_three. rewrite !decode_encode_digit by done. cbn. rewrite L, andb_false_r.
      unfold byte1, byte2. by rewrite B1, B2, !char_of_byte. }
    unfold encode_bytes, pad. destruct (padded e) eqn:Ep; cbn; rewrite ?Ep; [|done].
    rewrite encode_digit_not_pad by done. unfold is_pad. rewrite Ep. cbn. done.
  - pose proof (byte_of_range a) as Ha. pose proof (byte_of_range b) as Hb. pose proof (byte_of_range c) as Hc.
    destruct (digit_ranges _ _ _ Ha Hb Hc) as [[R1 R2] [R3 R4]].
    cbn [encode_bytes decode_bytes app]. rewrite !encode_digit_not_pad by done. cbn [andb].
    rewrite !decode_encode_digit by done. cbn. rewrite IH. cbn. unfold byte1, byte2, byte3.
    by rewrite byte1_ok, byte2_ok, byte3_ok, !char_of_byte.
Qed.

(** The characters of an encoded text. *)
Definition plain_char (a : ascii) : bool :=
  negb (is_newline a) && negb (bool_decide (a = ":"%char)) && negb (bool_decide (a = "$"%char)).

Lemma encode_digit_plain e i : 0 ≤ i < 64 → plain_char (encode_digit e i) = true.
Proof. intros Hi. digit_facts e i Hi. unfold plain_char. by rewrite H0, H2, H3. Qed.

Lemma pad_forall (p : ascii → bool) e n : p "="%char = true → forallb p (pad e n) = true.
Proof. intros Hp. unfold pad. destruct (padded e); [|done]. induction n as [|n IH]; [done|]. cbn. by rewrite Hp. Qed.

Lemma encode_forall (p : ascii → bool) e l :
  (∀ i, 0 ≤ i < 64 → p (encode_digit e i) = true) → p "="%char = true → forallb p (encode_bytes e l) = true.
Proof.
  intros Hd Hp.
  induction l as [|a|a b|a b c l IH] using bytes_ind; [done|..];
    pose proof (byte_of_range a) as Ha; try pose proof (byte_of_range b) as Hb; try pose proof (byte_of_range c) as Hc.
  - destruct (digit_ranges (byte_of a) 0 0 Ha ltac:(lia) ltac:(lia)) as [[R1 R2] _].
    change (0 / 16) with 0 in R2. rewrite Z.add_0_r in R2.
    cbn [encode_bytes]. rewrite forallb_app, pad_forall by done. cbn [forallb]. by rewrite !Hd.
  - destruct (digit_ranges (byte_of a) (byte_of b) 0 Ha Hb ltac:(lia)) as [[R1 R2] [R3 _]].
    change (0 / 64) with 0 in R3. rewrite Z.add_0_r in R3.
    cbn [encode_bytes]. rewrite forallb_app, pad_forall by done. cbn [forallb]. by rewrite !Hd.
  - destruct (digit_ranges _ _ _ Ha Hb Hc) as [[R1 R2] [R3 R4]].
    cbn [encode_bytes app forallb]. by rewrite !Hd, IH.
Qed.

Lemma encode_plain e l : forallb plain_char (encode_bytes e l) = true.
Proof. apply encode_forall; [apply encode_digit_plain|done]. Qed.

(** A text of visible characters is not changed by trimming. *)
Definition visible (a : ascii) : bool := bool_decide (33 ≤ byte_of a ≤ 126).

Lemma encode_visible e l : forallb visible (encode_bytes e l) = true.
Proof.
  apply encode_forall; [|done]. apply (digits_check (fun i => visible (encode_digit e i))). destruct e as [[] ? ?]; reflexivity.
Qed.

Lemma visible_space1 a : visible a = true → space1 a = false.
Proof. unfold visible, space1. intros H%bool_decide_eq_true. by rewrite !bool_decide_eq_false_2 by lia. Qed.

Lemma visible_clean l :
  forallb visible l = true → trim_left_bytes l = l ∧ trim_right_bytes l = l.
Proof.
  assert (∀ (q2 : ascii → ascii → bool) (q3 : ascii → ascii → ascii → bool),
    (∀ a b, visible a = true → visible b = true → q2 a b = false) →
    (∀ a b c, visible a = true → visible b = true → visible c = true → q3 a b c = false) →
    ∀ k, forallb visible k = true → trim_front space1 q2 q3 k = k) as Hf.
  { intros q2 q3 H2 H3 k Hk. apply trim_front_clean. destruct k as [|a [|b [|c k]]]; simpl in *; [done|..];
      rewrite ?andb_true_iff in Hk; split_hyps; split; auto using visible_space1. }
  assert (∀ a b, visible a = true → visible b = true → space2 a b = false) as H2.
  { unfold visible, space2. intros a b [? ?]%bool_decide_eq_true _. by rewrite (bool_decide_eq_false_2 (byte_of a = 194)) by lia. }
  assert (∀ a b c, visible a = true → visible b = true → visible c = true → space3 a b c = false) as H3.
  { unfold visible, space3. intros a b c [? ?]%bool_decide_eq_true _ _.
    rewrite (bool_decide_eq_false_2 (byte_of a = 225)), (bool_decide_eq_false_2 (byte_of a = 226)), (bool_decide_eq_false_2 (byte_of a = 227)) by lia. done. }
  intros Hl. split; [by apply Hf|]. unfold trim_right_bytes. rewrite Hf.
  - apply rev_involutive.
  - intros a b Ha Hb. by apply H2.
  - intros a b c Ha Hb Hc. by apply H3.
  - apply forallb_forall. intros x Hx. rewrite forallb_forall in Hl. apply Hl. by apply in_rev.
Qed.

Lemma TrimSpace_encoded e l : TrimSpace (EncodeToString e l) = EncodeToString e l.
Proof.
  unfold TrimSpace, EncodeToString. rewrite String.list_ascii_of_string_of_list_ascii.
  destruct (visible_clean _ (encode_visible e l)) as [H1 H2]. by rewrite H1, H2.
Qed.

Lemma filter_all {A} (p : A → bool) l : forallb p l = true → List.filter p l = l.
Proof. induction l as [|x l IH]; simpl; [done|]. intros [-> Hl]%andb_true_iff. by rewrite IH. Qed.

Lemma forallb_weaken {A} (p q : A → bool) l : (∀ x, p x = true → q x = true) → forallb p l = true → forallb q l = true.
Proof. rewrite !forallb_forall. auto. Qed.

(** Decoding undoes encoding, in every encoding and for all bytes. *)
Lemma DecodeString_EncodeToString e l : DecodeString e (EncodeToString e l) = Some l.
Proof.
  unfold DecodeString, EncodeToString. rewrite String.list_ascii_of_string_of_list_ascii, filter_all.
  - apply decode_encode_bytes.
  - eapply forallb_weaken; [|apply encode_plain]. intros a. unfold plain_char. rewrite !andb_true_iff. by intros [[? _] _].
Qed.

Definition EncodedLen (e : Encoding) (n : Z) : Z :=
  if padded e then (n + 2) / 3 * 4 else n / 3 * 4 + (n mod 3 * 8 + 5) / 6.

Ltac Zify.zify_post_hook ::= Z.div_mod_to_equations.

Lemma EncodedLen_step e n : 0 ≤ n → EncodedLen e (n + 3) = EncodedLen e n + 4.
Proof. unfold EncodedLen. destruct (padded e); lia. Qed.

Lemma DecodedLen_EncodedLen e n : padded e = false → 0 ≤ n → DecodedLen e (EncodedLen e n) = n.
Proof. unfold DecodedLen, EncodedLen. intros ->. lia. Qed.

Ltac Zify.zify_post_hook ::= idtac.

Lemma length_encode_bytes e l : Z.of_nat (length (encode_bytes e l)) = EncodedLen e (Z.of_nat (length l)).
Proof.
  induction l as [|a|a b|a b c l IH] using bytes_ind.
  1-3: unfold encode_bytes, pad, EncodedLen; by destruct (padded e).
  cbn [encode_bytes app length]. rewrite !Nat2Z.inj_succ, IH.
  replace (Z.succ (Z.succ (Z.succ (Z.of_nat (length l))))) with (Z.of_nat (length l) + 3) by lia.
  rewrite EncodedLen_step by lia. lia.
Qed.

Lemma length_string_of l : String.length (String.string_of_list_ascii l) = length l.
Proof. induction l as [|a l IH]; [done|]. cbn. by rewrite IH. Qed.

Lemma go_len_EncodeToString e l : go_len (EncodeToString e l) = EncodedLen e (Z.of_nat (length l)).
Proof. unfold go_len, EncodeToString. rewrite length_string_of. apply length_encode_bytes. Qed.

Example decode_examples :
  DecodeString RawStdEncoding "aGk" = Some ["h"%char; "i"%char] ∧
  DecodeString RawStdEncoding "aGk=" = None ∧ DecodeString StdEncoding "aGk=" = Some ["h"%char; "i"%char] ∧
  DecodeString RawStdEncoding "aGl" = Some ["h"%char; "i"%char] ∧ DecodeString (Strict RawStdEncoding) "aGl" = None.
Proof. vm_compute. done. Qed.

End Base64.
