(* ===== verification/Secrets.v ===== *)
(** * Secrets at rest

    [secret/crypto.go]: tokens, the encryption keyring with its ciphertext
    envelope; [secret/password.go]: encoded password hashes.  AES-GCM, Argon2
    and PBKDF2 are parameters. *)

From S2P Require Import Prelude GoStrings Base64.
From Stdlib Require Import Ascii.
From Stdlib Require String.

Module Secrets.
Import Base64.

Definition bytes_of (s : string) : list ascii := String.list_ascii_of_string s.
Definition string_of (l : list ascii) : string := String.string_of_list_ascii l.

(** ** Kinds and keys *)

Definition SecretKindGeneric : string := "generic".
Definition SecretKindClientAPIKey : string := "client-api-key".
Definition SecretKindOAuthCodeVerifier : string := "oauth-code-verifier".
Definition SecretKindProviderAPIKey : string := "provider-api-key".
Definition SecretKindProviderProxyURL : string := "provider-proxy-url".
Definition SecretKindOAuthAccessToken : string := "oauth-access-token".
Definition SecretKindOAuthRefreshToken : string := "oauth-refresh-token".
Definition SecretKindOAuthIDToken : string := "oauth-id-token".
Definition SecretKindAlertActionDestination : string := "alert-action-destination".

Definition secret_kinds : list string :=
  [SecretKindGeneric; SecretKindClientAPIKey; SecretKindOAuthCodeVerifier; SecretKindProviderAPIKey;
   SecretKindProviderProxyURL; SecretKindOAuthAccessToken; SecretKindOAuthRefreshToken; SecretKindOAuthIDToken;
   SecretKindAlertActionDestination].

Definition validSecretKind (kind : string) : bool := existsb (str_eq kind) secret_kinds.

Definition ciphertextEnvelopeNamespace : string := "n2api".
Definition ciphertextEnvelopeVersion : string := "v1".
Definition maxEncryptionKeyIDBytes : Z := 64.
Definition maxPreviousEncryptionKeys : Z := 8.
Definition DefaultEncryptionKeyID : string := "default".

Inductive CiphertextFormat := CiphertextFormatV1 | CiphertextFormatLegacy | CiphertextFormatUnknown.

#[export] Instance CiphertextFormat_eq_dec : EqDecision CiphertextFormat.
Proof. solve_decision. Defined.

Record CiphertextVerification := { V_KeyID : string; Format : CiphertextFormat }.

Record EncryptionKey := { Key_ID : string; Key_Secret : string }.

#[export] Instance EncryptionKey_eq_dec : EqDecision EncryptionKey.
Proof. solve_decision. Defined.

Record Keyring := { current : EncryptionKey; byID : gmap string EncryptionKey; legacyKeys : list EncryptionKey }.

(** A key id is made of ASCII letters, digits, dots, underscores and hyphens. *)
Definition key_id_char (a : ascii) : bool :=
  let b := byte_of a in
  bool_decide (97 ≤ b ≤ 122) || bool_decide (65 ≤ b ≤ 90) || bool_decide (48 ≤ b ≤ 57)
  || bool_decide (a = "."%char) || bool_decide (a = "_"%char) || bool_decide (a = "-"%char).

Definition validEncryptionKeyID (value : string) : bool :=
  if bool_decide (go_len value = 0) || bool_decide (maxEncryptionKeyIDBytes < go_len value) then false
  else forallb key_id_char (bytes_of value).

Definition validateEncryptionKey (key : EncryptionKey) (position : string) : result string unit :=
  if negb (validEncryptionKeyID (Key_ID key)) then Err (position +++ " encryption key ID is invalid")
  else if str_eq (Key_Secret key) "" then Err (position +++ " encryption key secret is empty")
  else Ok tt.

(** The loop over the previous keys: the map by id, the secrets seen and the
    keys to try on legacy ciphertexts. *)
Fixpoint add_previous (index : Z) (previous : list EncryptionKey)
    (acc : gmap string EncryptionKey * gset string * list EncryptionKey)
  : result string (gmap string EncryptionKey * gset string * list EncryptionKey) :=
  match previous with
  | [] => Ok acc
  | key :: previous =>
      let '(ids, secrets, legacy) := acc in
      match validateEncryptionKey key "previous" with
      | Err e => Err ("previous encryption key " +++ FormatInt index +++ ": " +++ e)
      | Ok _ =>
          if bool_decide (is_Some (ids !! Key_ID key)) then Err "encryption key IDs must be unique"
          else if bool_decide (Key_Secret key ∈ secrets) then Err "encryption key secrets must be unique"
          else add_previous (index + 1) previous
                 (<[Key_ID key := key]> ids, {[Key_Secret key]} ∪ secrets, legacy ++ [key])
      end
  end.

Definition NewKeyring (cur : EncryptionKey) (previous : list EncryptionKey) : result string Keyring :=
  let? _ := validateEncryptionKey cur "current" in
  if bool_decide (maxPreviousEncryptionKeys < Z.of_nat (length previous))
  then Err ("previous encryption key count must not exceed " +++ FormatInt maxPreviousEncryptionKeys)
  else
    let? acc := add_previous 0 previous ({[Key_ID cur := cur]}, {[Key_Secret cur]}, [cur]) in
    let '(ids, _, legacy) := acc in
    Ok {| current := cur; byID := ids; legacyKeys := legacy |}.

(** On a possibly absent keyring. *)
Definition CurrentKeyID (k : option Keyring) : string :=
  match k with None => "" | Some k => Key_ID (current k) end.

Definition PreviousKeyCount (k : option Keyring) : Z :=
  match k with
  | None => 0
  | Some k => if bool_decide (legacyKeys k = []) then 0 else Z.of_nat (length (legacyKeys k)) - 1
  end.

(** ** Tokens *)

Definition randomTokenBytes : nat := 32.

(** [random]: what the random source filled the buffer with, if it did. *)
Definition GenerateToken (random : option (list ascii)) (prefix : string) : result string string :=
  match random with
  | None => Err "generate token: random source failed"
  | Some token => Ok (prefix +++ "_" +++ EncodeToString RawURLEncoding token)
  end.

Definition TokenPrefix (token : string) : string :=
  if bool_decide (go_len token ≤ 14) then token else String.substring 0 14 token.

(** ** The envelope *)

Definition ciphertextEnvelopeHeader (keyID kind : string) : string :=
  ciphertextEnvelopeNamespace +++ ":" +++ ciphertextEnvelopeVersion +++ ":" +++ keyID +++ ":" +++ kind.

Definition InspectCiphertextFormat (encoded : string) : CiphertextFormat :=
  if negb (HasPrefix encoded (ciphertextEnvelopeNamespace +++ ":")) then CiphertextFormatLegacy
  else match SplitN encoded ":"%char 3 with
       | _ :: version :: _ => if str_eq version ciphertextEnvelopeVersion then CiphertextFormatV1
                              else CiphertextFormatUnknown
       | _ => CiphertextFormatUnknown
       end.

Section keyring.

(** AES-GCM under the SHA-256 of a secret.  [Seal secret nonce plaintext aad] of
    the variant with random nonces puts the nonce in front; [Open] takes what
    [Seal] made; [OpenLegacy] takes the nonce apart.  [None] is a failed
    authentication. *)
Context (Seal : string → list ascii → list ascii → list ascii → list ascii).
Context (Open : string → list ascii → list ascii → option (list ascii)).
Context (OpenLegacy : string → list ascii → list ascii → option (list ascii)).

Definition overhead : nat := 28.
Definition nonceSize : nat := 12.

Definition EncryptStringFor (k : option Keyring) (nonce : list ascii) (kind plaintext : string)
  : result string string :=
  match k with
  | None => Err "encryption keyring is not configured"
  | Some k =>
      if negb (validSecretKind kind) then Err "encryption secret kind is invalid"
      else
        let header := ciphertextEnvelopeHeader (Key_ID (current k)) kind in
        let ciphertext := Seal (Key_Secret (current k)) nonce (bytes_of plaintext) (bytes_of header) in
        Ok (header +++ ":" +++ EncodeToString RawStdEncoding ciphertext)
  end.

Definition decryptEnvelope (k : Keyring) (kind encoded : string)
  : result string (list ascii * CiphertextVerification) :=
  match SplitN encoded ":"%char 5 with
  | [namespace; version; keyID; envelopeKind; text] =>
      if negb (str_eq namespace ciphertextEnvelopeNamespace) then Err "ciphertext envelope is malformed"
      else if negb (str_eq version ciphertextEnvelopeVersion) then Err "ciphertext envelope version is unsupported"
      else if negb (validEncryptionKeyID keyID) then Err "ciphertext envelope key ID is invalid"
      else match byID k !! keyID with
      | None => Err "ciphertext envelope key is unavailable"
      | Some key =>
          if negb (validSecretKind envelopeKind) then Err "ciphertext envelope secret kind is invalid"
          else if negb (str_eq envelopeKind kind) then Err "ciphertext envelope secret kind does not match"
          else match DecodeString RawStdEncoding text with
          | None => Err "ciphertext payload encoding is invalid"
          | Some payload =>
              if bool_decide (length payload < overhead)%nat then Err "ciphertext is too short"
              else match Open (Key_Secret key) payload (bytes_of (ciphertextEnvelopeHeader keyID envelopeKind)) with
              | None => Err "decrypt ciphertext: authentication failed"
              | Some plaintext => Ok (plaintext, {| V_KeyID := Key_ID key; Format := CiphertextFormatV1 |})
              end
          end
      end
  | _ => Err "ciphertext envelope is malformed"
  end.

(** The keys in order; the payload's length is looked at in each round. *)
Fixpoint try_keys (keys : list EncryptionKey) (payload : list ascii)
  : result string (list ascii * CiphertextVerification) :=
  match keys with
  | [] => Err "decrypt ciphertext: authentication failed"
  | key :: keys =>
      if bool_decide (length payload ≤ nonceSize)%nat then Err "ciphertext is too short"
      else match OpenLegacy (Key_Secret key) (take nonceSize payload) (drop nonceSize payload) with
           | Some plaintext => Ok (plaintext, {| V_KeyID := Key_ID key; Format := CiphertextFormatLegacy |})
           | None => try_keys keys payload
           end
  end.

Definition decryptLegacy (k : Keyring) (encoded : string) : result string (list ascii * CiphertextVerification) :=
  match DecodeString RawStdEncoding encoded with
  | None => Err "ciphertext payload encoding is invalid"
  | Some payload => try_keys (legacyKeys k) payload
  end.

Definition decryptBytesFor (k : option Keyring) (kind encoded : string)
  : result string (list ascii * CiphertextVerification) :=
  match k with
  | None => Err "encryption keyring is not configured"
  | Some k =>
      if negb (validSecretKind kind) then Err "encryption secret kind is invalid"
      else if HasPrefix encoded (ciphertextEnvelopeNamespace +++ ":") then decryptEnvelope k kind encoded
      else decryptLegacy k encoded
  end.

Definition DecryptStringFor (k : option Keyring) (kind encoded : string) : result string string :=
  let? r := decryptBytesFor k kind encoded in Ok (string_of r.1).

Definition VerifyStringFor (k : option Keyring) (kind encoded : string) : result string CiphertextVerification :=
  let? r := decryptBytesFor k kind encoded in Ok r.2.

Definition KeyringEncryptString (k : option Keyring) (nonce : list ascii) (plaintext : string) : result string string :=
  EncryptStringFor k nonce SecretKindGeneric plaintext.

Definition KeyringDecryptString (k : option Keyring) (encoded : string) : result string string :=
  DecryptStringFor k SecretKindGeneric encoded.

Definition EncryptString (secret : string) (nonce : list ascii) (plaintext : string) : result string string :=
  let? k := NewKeyring {| Key_ID := DefaultEncryptionKeyID; Key_Secret := secret |} [] in
  KeyringEncryptString (Some k) nonce plaintext.

Definition DecryptString (secret encoded : string) : result string string :=
  let? k := NewKeyring {| Key_ID := DefaultEncryptionKeyID; Key_Secret := secret |} [] in
  KeyringDecryptString (Some k) encoded.

End keyring.

(** ** Password hashes *)

Definition argon2PasswordHashVersion : string := "argon2id".
Definition argon2MemoryKiB : Z := 64 * 1024.
Definition argon2Iterations : Z := 2.
Definition argon2Lanes : Z := 1.
Definition passwordSaltBytes : Z := 16.
Definition passwordKeyBytes : Z := 32.
Definition maxArgon2MemoryKiB : Z := 128 * 1024.
Definition maxArgon2Iterations : Z := 5.
Definition maxArgon2Lanes : Z := 4.
Definition minPasswordSaltBytes : Z := 8.
Definition maxPasswordSaltBytes : Z := 32.
Definition minPasswordKeyBytes : Z := 16.
Definition maxPasswordKeyBytes : Z := 64.
Definition legacyPasswordHashVersion : string := "pbkdf2-sha256".
Definition legacyPasswordIterations : Z := 210000.
Definition maxEncodedPasswordHashBytes : Z := 512.
Definition passwordBase64 : Encoding := Strict RawStdEncoding.

Record parsedPasswordHash := {
  algorithm : string; memory : Z; iterations : Z; lanes : Z; salt : list ascii; expected : list ascii
}.

Definition len {A} (l : list A) : Z := Z.of_nat (length l).

Definition is_digit (a : ascii) : bool := bool_decide (48 ≤ byte_of a ≤ 57).

Definition isCanonicalPasswordParameter (value : string) : bool :=
  if str_eq value "" || bool_decide (6 < go_len value)
     || (bool_decide (1 < go_len value) && HasPrefix value "0") then false
  else forallb is_digit (bytes_of value).

Definition raw_standard_char (a : ascii) : bool :=
  let b := byte_of a in
  bool_decide (65 ≤ b ≤ 90) || bool_decide (97 ≤ b ≤ 122) || bool_decide (48 ≤ b ≤ 57)
  || bool_decide (a = "+"%char) || bool_decide (a = "/"%char).

Definition isRawStandardBase64 (value : string) : bool :=
  if str_eq value "" then false else forallb raw_standard_char (bytes_of value).

Definition decodeBoundedPasswordField (encoded : string) (minimum maximum : Z) : option (list ascii) :=
  if negb (isRawStandardBase64 encoded) || bool_decide (maximum < DecodedLen passwordBase64 (go_len encoded)) then None
  else
    decoded ← DecodeString passwordBase64 encoded;
    if bool_decide (len decoded < minimum) || bool_decide (maximum < len decoded) then None else Some decoded.

(** [strconv.ParseUint(s, 10, 32)] *)
Definition ParseUint32 (s : string) : option Z :=
  match bytes_of s with
  | [] => None
  | ds => v ← digits_value ds 0; if bool_decide (v < 2 ^ 32) then Some v else None
  end.

(** The loop over the parameters [m], [t] and [p], in any order. *)
Fixpoint parse_parameters (parameters : list string) (values : gmap string Z) : option (gmap string Z) :=
  match parameters with
  | [] => Some values
  | parameter :: parameters =>
      match Split parameter "="%char with
      | [name; text] =>
          if negb (str_eq name "m" || str_eq name "t" || str_eq name "p") || negb (isCanonicalPasswordParameter text)
          then None
          else if bool_decide (is_Some (values !! name)) then None
          else
            value ← ParseUint32 text;
            if bool_decide (value = 0) then None else parse_parameters parameters (<[name := value]> values)
      | _ => None
      end
  end.

(** A missing entry of a Go map reads as zero. *)
Definition value_of (values : gmap string Z) (name : string) : Z := default 0 (values !! name).

Section passwords.

(** [argon2.Version]; [argon2.IDKey] and [pbkdf2.Key] with SHA-256, the latter
    may refuse its parameters. *)
Context (argon2_Version : Z).
Context (deriveKey : list ascii → list ascii → Z → Z → Z → Z → list ascii).
Context (pbkdf2_Key : string → list ascii → Z → Z → option (list ascii)).

Definition parseArgon2idPasswordHash (encoded : string) : option parsedPasswordHash :=
  match Split encoded "$"%char with
  | [p0; p1; p2; p3; p4; p5] =>
      if negb (str_eq p0 "") || negb (str_eq p1 argon2PasswordHashVersion)
         || negb (str_eq p2 ("v=" +++ FormatInt argon2_Version)) then None
      else
        let parameters := Split p3 ","%char in
        if negb (bool_decide (len parameters = 3)) then None
        else
          values ← parse_parameters parameters ∅;
          if negb (bool_decide (Z.of_nat (size values) = 3)) || bool_decide (maxArgon2MemoryKiB < value_of values "m")
             || bool_decide (maxArgon2Iterations < value_of values "t")
             || bool_decide (maxArgon2Lanes < value_of values "p") then None
          else
            salt ← decodeBoundedPasswordField p4 minPasswordSaltBytes maxPasswordSaltBytes;
            expected ← decodeBoundedPasswordField p5 minPasswordKeyBytes maxPasswordKeyBytes;
            Some {| algorithm := argon2PasswordHashVersion; memory := value_of values "m";
                    iterations := value_of values "t"; lanes := value_of values "p";
                    salt := salt; expected := expected |}
  | _ => None
  end.

Definition parseLegacyPasswordHash (encoded : string) : option parsedPasswordHash :=
  match Split encoded "$"%char with
  | [p0; p1; p2; p3] =>
      if negb (str_eq p0 legacyPasswordHashVersion) || negb (str_eq p1 (FormatInt legacyPasswordIterations)) then None
      else
        salt ← decodeBoundedPasswordField p2 passwordSaltBytes passwordSaltBytes;
        expected ← decodeBoundedPasswordField p3 passwordKeyBytes passwordKeyBytes;
        Some {| algorithm := legacyPasswordHashVersion; memory := 0; iterations := legacyPasswordIterations;
                lanes := 0; salt := salt; expected := expected |}
  | _ => None
  end.

Definition parsePasswordHash (encoded : string) : option parsedPasswordHash :=
  if str_eq encoded "" || bool_decide (maxEncodedPasswordHashBytes < go_len encoded) then None
  else if HasPrefix encoded ("$" +++ argon2PasswordHashVersion +++ "$") then parseArgon2idPasswordHash encoded
  else if HasPrefix encoded (legacyPasswordHashVersion +++ "$") then parseLegacyPasswordHash encoded
  else None.

Definition passwordHashNeedsRehash (parsed : parsedPasswordHash) : bool :=
  negb (str_eq (algorithm parsed) argon2PasswordHashVersion)
  || negb (bool_decide (memory parsed = argon2MemoryKiB)) || negb (bool_decide (iterations parsed = argon2Iterations))
  || negb (bool_decide (lanes parsed = argon2Lanes)) || negb (bool_decide (len (salt parsed) = passwordSaltBytes))
  || negb (bool_decide (len (expected parsed) = passwordKeyBytes)).

(** [random]: the salt read from the random source, if it could be read. *)
Definition Hash (random : option (list ascii)) (password : string) : result string string :=
  match random with
  | None => Err "generate password salt: random source failed"
  | Some salt =>
      let key := deriveKey (bytes_of password) salt argon2Iterations argon2MemoryKiB argon2Lanes passwordKeyBytes in
      Ok ("$" +++ argon2PasswordHashVersion +++ "$v=" +++ FormatInt argon2_Version
            +++ "$m=" +++ FormatInt argon2MemoryKiB +++ ",t=" +++ FormatInt argon2Iterations
            +++ ",p=" +++ FormatInt argon2Lanes +++ "$" +++ EncodeToString passwordBase64 salt
            +++ "$" +++ EncodeToString passwordBase64 key)
  end.

(** Whether the password is right, and whether its hash is out of date. *)
Definition Verify (encoded password : string) : bool * bool :=
  match parsePasswordHash encoded with
  | None => (false, false)
  | Some parsed =>
      let candidate :=
        if str_eq (algorithm parsed) argon2PasswordHashVersion then
          Some (deriveKey (bytes_of password) (salt parsed) (iterations parsed) (memory parsed) (lanes parsed)
                  (len (expected parsed)))
        else if str_eq (algorithm parsed) legacyPasswordHashVersion then
          pbkdf2_Key password (salt parsed) (iterations parsed) (len (expected parsed))
        else None in
      match candidate with
      | None => (false, false)
      | Some candidate =>
          if bool_decide (expected parsed = candidate) then (true, passwordHashNeedsRehash parsed) else (false, false)
      end
  end.

End passwords.
End Secrets.
