(* ===== verification/SecretsThms.v ===== *)
(** * Secrets at rest: what the keyring and the password hashes guarantee *)

From S2P Require Import Prelude GoStrings Base64 Secrets.
From Stdlib Require Import Ascii.
From Stdlib Require String.
Import Base64 Secrets.

Module SecretsThms.

(** ** The keyring *)

Definition valid_key (key : EncryptionKey) : Prop :=
  validEncryptionKeyID (Key_ID key) = true ∧ Key_Secret key ≠ "".

Lemma validateEncryptionKey_ok key position u : validateEncryptionKey key position = Ok u → valid_key key.
Proof.
  unfold validateEncryptionKey, valid_key, str_eq. destruct (validEncryptionKeyID (Key_ID key)); [|done].
  cbn. by case_bool_decide.
Qed.

(** What the three collections say of the keys taken so far. *)
Definition indexes (keys : list EncryptionKey) (acc : gmap string EncryptionKey * gset string * list EncryptionKey) : Prop :=
  acc.2 = keys ∧ acc.1.2 = list_to_set (map Key_Secret keys) ∧
  (∀ i key, acc.1.1 !! i = Some key ↔ key ∈ keys ∧ Key_ID key = i) ∧
  NoDup (map Key_ID keys) ∧ NoDup (map Key_Secret keys) ∧ Forall valid_key keys.

Lemma indexes_snoc keys ids secrets legacy key :
  indexes keys (ids, secrets, legacy) → valid_key key → ids !! Key_ID key = None → Key_Secret key ∉ secrets →
  indexes (keys ++ [key]) (<[Key_ID key := key]> ids, {[Key_Secret key]} ∪ secrets, legacy ++ [key]).
Proof.
  intros (Hl & Hs & Hi & Hn & Hm & Hv) Hk Hid Hsec. cbn in *. subst legacy secrets.
  assert (Key_ID key ∉ map Key_ID keys) as Hfresh.
  { intros (x & Hx & Hin)%list_elem_of_fmap. assert (ids !! Key_ID key = Some x) by (apply Hi; split; congruence). congruence. }
  split_and!; cbn.
  - done.
  - rewrite map_app, list_to_set_app_L. cbn. set_solver.
  - intros i x. rewrite lookup_insert_Some, Hi, elem_of_app, list_elem_of_singleton. split.
    + intros [[<- <-]|[Hne [Hx <-]]]; auto.
    + intros [[Hx | ->] <-]; [|by left]. right. split; [|done]. intros Heq. apply Hfresh. rewrite Heq.
      by apply list_elem_of_fmap_2.
  - rewrite map_app. cbn. apply NoDup_app. split_and!; [done| |apply NoDup_singleton]. set_solver.
  - rewrite map_app. cbn. apply NoDup_app. split_and!; [done| |apply NoDup_singleton].
    intros x Hx ->%list_elem_of_singleton. apply Hsec. by rewrite elem_of_list_to_set.
  - by apply Forall_app_2; [|constructor].
Qed.

Lemma add_previous_indexes previous index keys acc acc' :
  indexes keys acc → add_previous index previous acc = Ok acc' → indexes (keys ++ previous) acc'.
Proof.
  revert index keys acc. induction previous as [|key previous IH]; intros index keys [[ids secrets] legacy] Hacc.
  - cbn. intros [= <-]. by rewrite app_nil_r.
  - cbn [add_previous]. destruct (validateEncryptionKey key "previous") as [u|] eqn:Ev; [|done].
    apply validateEncryptionKey_ok in Ev. case_bool_decide as Hid; [done|]. case_bool_decide as Hs; [done|].
    intros Hrest. replace (keys ++ key :: previous) with ((keys ++ [key]) ++ previous) by (by rewrite <- app_assoc).
    eapply IH; [|done]. apply indexes_snoc; [done..| |done]. by apply eq_None_not_Some.
Qed.

(** A keyring knows exactly its keys, by pairwise different ids and secrets. *)
Lemma NewKeyring_spec cur previous k :
  NewKeyring cur previous = Ok k →
  current k = cur ∧ legacyKeys k = cur :: previous ∧
  (∀ i key, byID k !! i = Some key ↔ key ∈ cur :: previous ∧ Key_ID key = i) ∧
  NoDup (map Key_ID (cur :: previous)) ∧ NoDup (map Key_Secret (cur :: previous)) ∧
  Forall valid_key (cur :: previous) ∧ (length previous ≤ 8)%nat.
Proof.
  unfold NewKeyring. destruct (validateEncryptionKey cur "current") as [u|] eqn:Ev; [|done]. cbn [result_bind].
  apply validateEncryptionKey_ok in Ev. case_bool_decide as Hlen; [done|].
  destruct (add_previous 0 previous _) as [[[ids secrets] legacy]|] eqn:Ea; [|done]. cbn. intros [= <-].
  apply (add_previous_indexes _ _ [cur]) in Ea as (Hl & _ & Hi & Hn & Hm & Hv).
  - cbn in *. unfold maxPreviousEncryptionKeys in Hlen. split_and!; [done..|lia].
  - split_and!; cbn; [done|set_solver| |apply NoDup_singleton..|by constructor].
    intros i key. rewrite lookup_singleton_Some, list_elem_of_singleton. naive_solver.
Qed.

(** ** The envelope *)

Lemma forallb_imp {A} (p q : A → bool) l : (∀ x, p x = true → q x = true) → forallb p l = true → forallb q l = true.
Proof. rewrite !forallb_forall. auto. Qed.

Lemma key_id_free i : validEncryptionKeyID i = true → free_of ":"%char i = true.
Proof.
  unfold validEncryptionKeyID. destruct (_ || _); [done|]. apply forallb_imp. intros a Ha.
  apply negb_true_iff, bool_decide_eq_false_2. intros ->. vm_compute in Ha. done.
Qed.

Lemma kind_free kind : validSecretKind kind = true → free_of ":"%char kind = true.
Proof.
  unfold validSecretKind. rewrite existsb_exists. intros (x & Hx & ->%bool_decide_eq_true).
  revert Hx. assert (forallb (free_of ":"%char) secret_kinds = true) as H by (vm_compute; reflexivity).
  rewrite forallb_forall in H. apply H.
Qed.

Lemma sep_append (c : ascii) (t : string) : String c "" +++ t = String c t.
Proof. done. Qed.

Lemma envelope_parts i kind text :
  free_of ":"%char i = true → free_of ":"%char kind = true →
  SplitN (ciphertextEnvelopeHeader i kind +++ ":" +++ text) ":"%char 5 = ["n2api"; "v1"; i; kind; text].
Proof.
  intros Hi Hk. unfold ciphertextEnvelopeHeader, ciphertextEnvelopeNamespace, ciphertextEnvelopeVersion.
  rewrite !append_assoc, !sep_append, !SplitN_sep by done. unfold SplitN. cbn.
  by rewrite String.string_of_list_ascii_of_string.
Qed.

Lemma envelope_prefix i kind text :
  HasPrefix (ciphertextEnvelopeHeader i kind +++ ":" +++ text) (ciphertextEnvelopeNamespace +++ ":") = true.
Proof.
  unfold ciphertextEnvelopeHeader. rewrite !append_assoc, <- (append_assoc ciphertextEnvelopeNamespace ":").
  apply HasPrefix_append.
Qed.

Section keyring.
Context (Seal : string → list ascii → list ascii → list ascii → list ascii).
Context (Open : string → list ascii → list ascii → option (list ascii)).
Context (OpenLegacy : string → list ascii → list ascii → option (list ascii)).

(** What [crypto/cipher] documents of an AEAD: opening undoes sealing under the
    same key and additional data, and the output of the variant with random
    nonces is at least a nonce and a tag long. *)
Class AEAD := {
  open_seal : ∀ secret nonce p aad, Open secret (Seal secret nonce p aad) aad = Some p;
  seal_length : ∀ secret nonce p aad, (overhead ≤ length (Seal secret nonce p aad))%nat
}.

(** [C29] Key rotation loses nothing: what was encrypted under the current key of
    a keyring is decrypted, to the same text and as of that key, by every
    keyring that still has the key, current or previous, and only for the kind
    of secret it was encrypted for. *)
Theorem rotation_keeps_secrets cur previous k cur' previous' k' nonce kind plaintext encoded :
  AEAD →
  NewKeyring cur previous = Ok k → NewKeyring cur' previous' = Ok k' → cur ∈ cur' :: previous' →
  EncryptStringFor Seal (Some k) nonce kind plaintext = Ok encoded →
  DecryptStringFor Open OpenLegacy (Some k') kind encoded = Ok plaintext ∧
  VerifyStringFor Open OpenLegacy (Some k') kind encoded =
    Ok {| V_KeyID := Key_ID cur; Format := CiphertextFormatV1 |} ∧
  ∀ kind', kind' ≠ kind → ∃ e, DecryptStringFor Open OpenLegacy (Some k') kind' encoded = Err e.
Proof.
  intros HA Hk Hk' Hcur. apply NewKeyring_spec in Hk as (Hc & _ & _ & _ & _ & Hv & _).
  apply NewKeyring_spec in Hk' as (_ & _ & Hi & _). apply Forall_cons in Hv as [[Hid _] _].
  unfold EncryptStringFor. rewrite Hc. destruct (validSecretKind kind) eqn:Hkind; [|done]. cbn [negb]. intros [= <-].
  set (aad := bytes_of _). set (payload := Seal _ _ _ _).
  assert (∀ kind', validSecretKind kind' = true →
    decryptBytesFor Open OpenLegacy (Some k') kind' (ciphertextEnvelopeHeader (Key_ID cur) kind +++ ":" +++ EncodeToString RawStdEncoding payload)
    = if negb (str_eq kind kind') then Err "ciphertext envelope secret kind does not match"
      else Ok (bytes_of plaintext, {| V_KeyID := Key_ID cur; Format := CiphertextFormatV1 |})) as Hdec.
  { intros kind' Hkind'. unfold decryptBytesFor. rewrite Hkind', envelope_prefix. cbn [negb]. unfold decryptEnvelope.
    rewrite envelope_parts by auto using key_id_free, kind_free. cbn [negb str_eq]. rewrite Hid. cbn [negb].
    rewrite (proj2 (Hi (Key_ID cur) cur)) by done. rewrite Hkind. cbn [negb]. destruct (str_eq kind kind'); [|done]. cbn [negb].
    rewrite DecodeString_EncodeToString. rewrite bool_decide_eq_false_2.
    - unfold payload, aad. by rewrite open_seal.
    - apply Nat.le_ngt, seal_length. }
  unfold DecryptStringFor, VerifyStringFor. split_and!.
  - rewrite Hdec by done. unfold str_eq. rewrite bool_decide_eq_true_2 by done. cbn. unfold string_of, bytes_of.
    by rewrite String.string_of_list_ascii_of_string.
  - rewrite Hdec by done. unfold str_eq. by rewrite bool_decide_eq_true_2 by done.
  - intros kind' Hne. destruct (validSecretKind kind') eqn:Hv'.
    + rewrite Hdec by done. unfold str_eq. rewrite bool_decide_eq_false_2 by done. cbn. eauto.
    + unfold decryptBytesFor. rewrite Hv'. cbn. eauto.
Qed.

(** The second part does not depend on how many parts are asked for. *)
Lemma SplitN_version encoded a b c d e :
  SplitN encoded ":"%char 5 = [a; b; c; d; e] → ∃ rest, SplitN encoded ":"%char 3 = a :: b :: rest.
Proof.
  unfold SplitN. cbn [splitn_bytes].
  destruct (cut_bytes ":"%char (String.list_ascii_of_string encoded)) as [x [r|]]; [|done].
  destruct (cut_bytes ":"%char r) as [y [r'|]]; [|done]. cbn. intros [= <- <- _]. eauto.
Qed.

(** Whatever its origin, a text that decrypts is of the format its prefix
    shows, and an envelope decrypts for one kind of secret only: a stored
    refresh token cannot be passed off as an API key. *)
Theorem ciphertext_kind_unique k kind encoded p v :
  decryptBytesFor Open OpenLegacy k kind encoded = Ok (p, v) →
  Format v = InspectCiphertextFormat encoded ∧
  (Format v = CiphertextFormatV1 →
   ∀ kind' r, decryptBytesFor Open OpenLegacy k kind' encoded = Ok r → kind' = kind).
Proof.
  unfold decryptBytesFor. destruct k as [k|]; [|done]. destruct (negb (validSecretKind kind)); [done|].
  unfold InspectCiphertextFormat. destruct (HasPrefix _ _) eqn:Hp; cbn [negb].
  - unfold decryptEnvelope. destruct (SplitN encoded ":"%char 5) as [|a [|b [|c [|d [|e [|]]]]]] eqn:Hs; try done.
    apply SplitN_version in Hs as [rest ->].
    destruct (str_eq a _); [|done]. destruct (str_eq b _) eqn:Hb; [|done]. cbn [negb].
    destruct (negb (validEncryptionKeyID c)); [done|]. destruct (byID k !! c) as [key|]; [|done].
    destruct (negb (validSecretKind d)); [done|]. destruct (str_eq d kind) eqn:Hd; [|done]. cbn [negb].
    intros Hr. split; [by repeat case_match; simplify_eq|]. intros _ kind' r. destruct (negb (validSecretKind kind')); [done|].
    destruct (str_eq d kind') eqn:Hd'; [|done]. unfold str_eq in *. apply bool_decide_eq_true in Hd, Hd'. congruence.
  - unfold decryptLegacy. destruct (DecodeString _ _) as [payload|]; [|done].
    intros Hr. enough (Format v = CiphertextFormatLegacy) as -> by done. revert Hr.
    induction (legacyKeys k) as [|key keys IH]; cbn; [done|]. case_bool_decide; [done|].
    destruct (OpenLegacy _ _ _); [|done]. by intros [= <- <-].
Qed.

(** Ciphertexts from before the envelope stay readable: one made under a
    secret of the keyring, not opened by the keys before it, gives its text and
    that key, whatever the kind asked for. *)
Theorem legacy_secrets_readable cur previous k before key after nonce ciphertext plaintext kind :
  NewKeyring cur previous = Ok k → cur :: previous = before ++ key :: after →
  Forall (fun x => OpenLegacy (Key_Secret x) nonce ciphertext = None) before →
  length nonce = nonceSize → ciphertext ≠ [] → OpenLegacy (Key_Secret key) nonce ciphertext = Some plaintext →
  validSecretKind kind = true →
  decryptBytesFor Open OpenLegacy (Some k) kind (EncodeToString RawStdEncoding (nonce ++ ciphertext)) =
    Ok (plaintext, {| V_KeyID := Key_ID key; Format := CiphertextFormatLegacy |}).
Proof.
  intros Hk Hkeys Hbefore Hn Hne Hopen Hkind. apply NewKeyring_spec in Hk as (_ & Hl & _).
  unfold decryptBytesFor. rewrite Hkind. cbn [negb].
  destruct (HasPrefix _ _) eqn:Hp.
  { exfalso. pose proof (encode_plain RawStdEncoding (nonce ++ ciphertext)) as Hplain.
    unfold HasPrefix, EncodeToString in Hp. rewrite String.list_ascii_of_string_of_list_ascii in Hp.
    apply prefix_of_split in Hp as [rest Hp]. rewrite Hp, forallb_app in Hplain. vm_compute in Hplain. done. }
  unfold decryptLegacy. rewrite DecodeString_EncodeToString, Hl, Hkeys. clear Hl Hkeys.
  assert (nonceSize < length (nonce ++ ciphertext))%nat as Hlen.
  { rewrite length_app, Hn. destruct ciphertext; [done|]. cbn [length]. lia. }
  induction before as [|x before IH]; cbn [app try_keys].
  - rewrite bool_decide_eq_false_2 by lia. rewrite take_app_length', drop_app_length' by done. by rewrite Hopen.
  - apply Forall_cons in Hbefore as [Hx Hbefore].
    rewrite bool_decide_eq_false_2 by lia. rewrite take_app_length', drop_app_length' by done. rewrite Hx. auto.
Qed.
End keyring.

(** ** Password hashes *)

(** The encoded fields pass the scan for the alphabet. *)
Lemma encode_digit_raw i : 0 ≤ i < 64 → raw_standard_char (encode_digit passwordBase64 i) = true.
Proof. apply (digits_check (fun i => raw_standard_char (encode_digit passwordBase64 i))). vm_compute. reflexivity. Qed.

Lemma encode_raw_standard l : forallb raw_standard_char (encode_bytes passwordBase64 l) = true.
Proof.
  induction l as [|a|a b|a b c l IH] using bytes_ind; [done|..];
    pose proof (byte_of_range a) as Ha; try pose proof (byte_of_range b) as Hb; try pose proof (byte_of_range c) as Hc.
  - destruct (digit_ranges (byte_of a) 0 0 Ha ltac:(lia) ltac:(lia)) as [[R1 R2] _].
    change (0 / 16) with 0 in R2. rewrite Z.add_0_r in R2.
    cbn [encode_bytes app pad padded passwordBase64 Strict RawStdEncoding forallb]. by rewrite !encode_digit_raw.
  - destruct (digit_ranges (byte_of a) (byte_of b) 0 Ha Hb ltac:(lia)) as [[R1 R2] [R3 _]].
    change (0 / 64) with 0 in R3. rewrite Z.add_0_r in R3.
    cbn [encode_bytes app pad padded passwordBase64 Strict RawStdEncoding forallb]. by rewrite !encode_digit_raw.
  - destruct (digit_ranges _ _ _ Ha Hb Hc) as [[R1 R2] [R3 R4]].
    cbn [encode_bytes app forallb]. by rewrite !encode_digit_raw, IH.
Qed.

Lemma decode_field l minimum maximum :
  0 < len l → minimum ≤ len l ≤ maximum →
  decodeBoundedPasswordField (EncodeToString passwordBase64 l) minimum maximum = Some l.
Proof.
  intros Hpos Hl. unfold decodeBoundedPasswordField.
  assert (isRawStandardBase64 (EncodeToString passwordBase64 l) = true) as ->.
  { unfold isRawStandardBase64, bytes_of, EncodeToString. rewrite String.list_ascii_of_string_of_list_ascii, encode_raw_standard.
    unfold str_eq. case_bool_decide as He; [|done]. exfalso. unfold len in Hpos. destruct l as [|a [|b [|c l]]]; done. }
  rewrite go_len_EncodeToString, DecodedLen_EncodedLen by (done || lia). fold (len l). rewrite bool_decide_eq_false_2 by lia.
  cbn [negb orb]. rewrite DecodeString_EncodeToString. cbn. by rewrite !bool_decide_eq_false_2 by lia.
Qed.

Lemma field_free l : free_of "$"%char (EncodeToString passwordBase64 l) = true.
Proof.
  unfold free_of, EncodeToString. rewrite String.list_ascii_of_string_of_list_ascii.
  eapply forallb_imp; [|apply encode_plain]. intros a. unfold plain_char. rewrite !andb_true_iff. by intros [_ ?].
Qed.

Lemma go_len_append (s t : string) : go_len (s +++ t) = go_len s + go_len t.
Proof.
  unfold go_len. induction s as [|a s IH]; [done|]. change (String a s +++ t) with (String a (s +++ t)). cbn [String.length]. lia.
Qed.

Lemma go_len_dollar (s : string) : go_len (String "$"%char s) = 1 + go_len s.
Proof. unfold go_len. cbn [String.length]. lia. Qed.

Section passwords.
Context (argon2_Version : Z).
Context (deriveKey : list ascii → list ascii → Z → Z → Z → Z → list ascii).
Context (pbkdf2_Key : string → list ascii → Z → Z → option (list ascii)).

(** [argon2.IDKey] returns a key of the length asked for; the version of the
    algorithm is a number of one byte. *)
Class Argon2 := {
  derived_length : ∀ password salt t m p n, 0 ≤ n → len (deriveKey password salt t m p n) = n;
  version_byte : 0 ≤ argon2_Version < 256
}.

Definition version_text_ok (v : Z) : bool :=
  free_of "$"%char ("v=" +++ FormatInt v) && bool_decide (go_len (FormatInt v) ≤ 3).

Lemma version_text : Argon2 → version_text_ok argon2_Version = true.
Proof.
  intros HA. pose proof version_byte as Hv.
  assert (forallb version_text_ok (map Z.of_nat (seq 0 256)) = true) as H by (vm_compute; reflexivity).
  rewrite forallb_forall in H. apply H, in_map_iff. exists (Z.to_nat argon2_Version). split; [lia|]. apply in_seq. lia.
Qed.

Definition current_hash (salt key : list ascii) : parsedPasswordHash :=
  {| algorithm := argon2PasswordHashVersion; memory := argon2MemoryKiB; iterations := argon2Iterations;
     lanes := argon2Lanes; salt := salt; expected := key |}.

(** Parsing what [Hash] printed. *)
Lemma parse_Hash random password encoded :
  Argon2 → len random = passwordSaltBytes →
  Hash argon2_Version deriveKey (Some random) password = Ok encoded →
  parsePasswordHash argon2_Version encoded = Some (current_hash random
    (deriveKey (bytes_of password) random argon2Iterations argon2MemoryKiB argon2Lanes passwordKeyBytes)).
Proof.
  intros HA Hsalt. unfold Hash. set (key := deriveKey _ _ _ _ _ _). intros [= <-].
  pose proof (version_text HA) as [Hvf Hvl]%andb_true_iff. apply bool_decide_eq_true in Hvl.
  assert (len key = passwordKeyBytes) as Hkey by (by apply derived_length).
  assert (go_len (EncodeToString passwordBase64 random) = 22) as Hl1.
  { rewrite go_len_EncodeToString. fold (len random). by rewrite Hsalt. }
  assert (go_len (EncodeToString passwordBase64 key) = 43) as Hl2.
  { rewrite go_len_EncodeToString. fold (len key). by rewrite Hkey. }
  set (t1 := EncodeToString _ random). set (t2 := EncodeToString _ key).
  set (encoded := "$" +++ _).
  assert (encoded = "" +++ String "$" ("argon2id" +++ String "$" (("v=" +++ FormatInt argon2_Version) +++
            String "$" ("m=65536,t=2,p=1" +++ String "$" (t1 +++ String "$" t2))))) as Henc by reflexivity.
  assert (go_len encoded ≤ maxEncodedPasswordHashBytes) as Hlen.
  { rewrite Henc. repeat (rewrite go_len_append || rewrite go_len_dollar). fold t1 in Hl1. fold t2 in Hl2.
    change (go_len "") with 0. change (go_len "argon2id") with 8. change (go_len "v=") with 2.
    change (go_len "m=65536,t=2,p=1") with 15. unfold maxEncodedPasswordHashBytes. lia. }
  assert (HasPrefix encoded ("$" +++ argon2PasswordHashVersion +++ "$") = true) as Hp.
  { rewrite Henc. reflexivity. }
  unfold parsePasswordHash. rewrite Hp.
  unfold str_eq. rewrite bool_decide_eq_false_2 by (rewrite Henc; discriminate). rewrite bool_decide_eq_false_2 by lia.
  cbn [orb]. unfold parseArgon2idPasswordHash. rewrite Henc, !Split_sep, Split_free by (done || apply field_free).
  cbv beta iota. unfold str_eq. rewrite !bool_decide_eq_true_2 by done. cbn [negb orb].
  change (Split "m=65536,t=2,p=1" ","%char) with ["m=65536"; "t=2"; "p=1"].
  assert (parse_parameters ["m=65536"; "t=2"; "p=1"] ∅ =
    Some (<["p" := 1]> (<["t" := 2]> (<["m" := 65536]> ∅)))) as -> by (vm_compute; reflexivity).
  subst t1 t2. rewrite !decode_field; [reflexivity|rewrite ?Hsalt, ?Hkey; done..].
Qed.

(** A password verifies against the hash made of it, and the hash is not
    reported as out of date; any other password verifies exactly when the key
    derived from it is the same. *)
Theorem password_hash_verifies random password encoded :
  Argon2 → len random = passwordSaltBytes →
  Hash argon2_Version deriveKey (Some random) password = Ok encoded →
  Verify argon2_Version deriveKey pbkdf2_Key encoded password = (true, false) ∧
  ∀ other, (Verify argon2_Version deriveKey pbkdf2_Key encoded other).1 = true ↔
    deriveKey (bytes_of other) random argon2Iterations argon2MemoryKiB argon2Lanes passwordKeyBytes =
    deriveKey (bytes_of password) random argon2Iterations argon2MemoryKiB argon2Lanes passwordKeyBytes.
Proof.
  intros HA Hsalt Hhash. pose proof (parse_Hash _ _ _ HA Hsalt Hhash) as Hparse. unfold Verify. rewrite Hparse.
  cbn [current_hash algorithm memory iterations lanes salt expected]. rewrite derived_length by done.
  change (str_eq argon2PasswordHashVersion argon2PasswordHashVersion) with true. cbv iota. split.
  - rewrite bool_decide_eq_true_2 by done. f_equal. unfold passwordHashNeedsRehash. cbn -[bool_decide].
    rewrite Hsalt, derived_length by done. reflexivity.
  - intros other. case_bool_decide as He; cbn; [by rewrite He|]. split; [done|]. intros Heq. by destruct He.
Qed.

End passwords.

Section bounds.
Context (argon2_Version : Z).

Lemma digits_value_nonneg l acc v : 0 ≤ acc → digits_value l acc = Some v → 0 ≤ v.
Proof.
  revert acc. induction l as [|a l IH]; intros acc Ha; cbn; [by intros [= <-]|]. case_bool_decide; [|done]. apply IH. lia.
Qed.

Lemma ParseUint32_nonneg s v : ParseUint32 s = Some v → 0 ≤ v.
Proof.
  unfold ParseUint32. destruct (bytes_of s) as [|a l]; [done|].
  destruct (digits_value _ 0) as [w|] eqn:E; [|done]. cbn -[digits_value]. case_bool_decide; [|done]. intros [= <-].
  by eapply digits_value_nonneg; [|done].
Qed.

(** The parameters read are among the three known ones, and positive. *)
Lemma parse_parameters_values ps values values' :
  map_Forall (fun k v => k ∈ ["m"; "t"; "p"] ∧ 0 < v) values → parse_parameters ps values = Some values' →
  map_Forall (fun k v => k ∈ ["m"; "t"; "p"] ∧ 0 < v) values'.
Proof.
  revert values. induction ps as [|p ps IH]; intros values Hv; cbn [parse_parameters]; [by intros [= <-]|].
  destruct (Split p "="%char) as [|name [|text [|]]]; try done.
  destruct (_ || _) eqn:Hname; [done|]. case_bool_decide; [done|].
  destruct (ParseUint32 text) as [v|] eqn:Hp; [|done]. cbn. case_bool_decide as Hz; [done|]. apply IH.
  apply map_Forall_insert_2; [|done]. split.
  - unfold str_eq in Hname. to_prop. destruct Hname as [[[->| ->]| ->] _]; set_solver.
  - assert (0 ≤ v) by (by eapply ParseUint32_nonneg). lia.
Qed.

Lemma decode_field_bounds encoded minimum maximum l :
  decodeBoundedPasswordField encoded minimum maximum = Some l → minimum ≤ len l ≤ maximum.
Proof.
  unfold decodeBoundedPasswordField. destruct (_ || _); [done|]. destruct (DecodeString _ _) as [k|]; [|done]. cbn.
  destruct (_ || _) eqn:E; [done|]. intros [= <-]. to_prop. lia.
Qed.

(** Three distinct names among [m], [t] and [p] are all of them. *)
Lemma three_values values :
  map_Forall (fun k v => k ∈ ["m"; "t"; "p"] ∧ 0 < v) values → Z.of_nat (size values) = 3 →
  0 < value_of values "m" ∧ 0 < value_of values "t" ∧ 0 < value_of values "p".
Proof.
  intros Hv Hs. assert (dom values = {["m"; "t"; "p"]} :> gset string) as Hd.
  { apply set_subseteq_size_eq; [|rewrite size_dom; change (size ({["m"; "t"; "p"]} : gset string)) with 3%nat; lia].
    intros k [v Hk]%elem_of_dom. apply Hv in Hk as [Hk _]. set_solver. }
  assert (∀ k, k ∈ (["m"; "t"; "p"] : list string) → 0 < value_of values k) as H.
  { intros k Hk. assert (k ∈ dom values) as [v Hkv]%elem_of_dom by (rewrite Hd; set_solver).
    unfold value_of. rewrite Hkv. by apply Hv in Hkv as [_ ?]. }
  split_and!; apply H; set_solver.
Qed.

Lemma argon2_bounds encoded parsed :
  parseArgon2idPasswordHash argon2_Version encoded = Some parsed →
  algorithm parsed = argon2PasswordHashVersion ∧ 0 < memory parsed ≤ maxArgon2MemoryKiB ∧
  0 < iterations parsed ≤ maxArgon2Iterations ∧ 0 < lanes parsed ≤ maxArgon2Lanes ∧
  minPasswordSaltBytes ≤ len (salt parsed) ≤ maxPasswordSaltBytes ∧
  minPasswordKeyBytes ≤ len (expected parsed) ≤ maxPasswordKeyBytes.
Proof.
  unfold parseArgon2idPasswordHash.
  destruct (Split encoded "$"%char) as [|p0 [|p1 [|p2 [|p3 [|p4 [|p5 [|]]]]]]]; try done.
  destruct (_ || _ || _); [done|]. destruct (negb _); [done|].
  destruct (parse_parameters _ ∅) as [values|] eqn:Hp; [|done]. cbn -[size].
  apply parse_parameters_values in Hp; [|by apply map_Forall_empty].
  destruct (_ || _) eqn:Hg; [done|]. destruct (decodeBoundedPasswordField p4 _ _) as [sl|] eqn:Hsl; [|done].
  cbn. destruct (decodeBoundedPasswordField p5 _ _) as [ex|] eqn:Hex; [|done]. cbn. intros [= <-]. cbn.
  apply decode_field_bounds in Hsl, Hex. to_prop. destruct Hg as [[[Hs Hm] Ht] Hl].
  destruct (three_values values Hp Hs) as (? & ? & ?). split_and!; try done; lia.
Qed.

Lemma legacy_bounds encoded parsed :
  parseLegacyPasswordHash encoded = Some parsed →
  algorithm parsed = legacyPasswordHashVersion ∧ iterations parsed = legacyPasswordIterations ∧
  len (salt parsed) = passwordSaltBytes ∧ len (expected parsed) = passwordKeyBytes ∧
  passwordHashNeedsRehash parsed = true.
Proof.
  unfold parseLegacyPasswordHash. destruct (Split encoded "$"%char) as [|p0 [|p1 [|p2 [|p3 [|]]]]]; try done.
  destruct (_ || _); [done|]. destruct (decodeBoundedPasswordField p2 _ _) as [sl|] eqn:Hsl; [|done].
  cbn. destruct (decodeBoundedPasswordField p3 _ _) as [ex|] eqn:Hex; [|done]. cbn. intros [= <-]. cbn.
  apply decode_field_bounds in Hsl, Hex. split_and!; try done; lia.
Qed.

(** The work a stored hash can demand is bounded: whatever the text, if it
    is accepted as a hash its memory, iterations, lanes, salt and key are within
    the configured limits, and a legacy hash is always reported as out of date. *)
Theorem password_work_bounded encoded parsed :
  parsePasswordHash argon2_Version encoded = Some parsed →
  (algorithm parsed = argon2PasswordHashVersion ∧ 0 < memory parsed ≤ maxArgon2MemoryKiB ∧
   0 < iterations parsed ≤ maxArgon2Iterations ∧ 0 < lanes parsed ≤ maxArgon2Lanes ∧
   minPasswordSaltBytes ≤ len (salt parsed) ≤ maxPasswordSaltBytes ∧
   minPasswordKeyBytes ≤ len (expected parsed) ≤ maxPasswordKeyBytes)
  ∨ (algorithm parsed = legacyPasswordHashVersion ∧ iterations parsed = legacyPasswordIterations ∧
     len (salt parsed) = passwordSaltBytes ∧ len (expected parsed) = passwordKeyBytes ∧
     passwordHashNeedsRehash parsed = true).
Proof.
  unfold parsePasswordHash. destruct (_ || _); [done|].
  destruct (HasPrefix _ _); [intros Hp; left|destruct (HasPrefix _ _); [intros Hp; right|done]].
  - by eapply argon2_bounds.
  - by eapply legacy_bounds.
Qed.
End bounds.

(** ** Concrete runs *)
Module Demo.

(** An AEAD whose tag is the secret and the additional data. *)
Definition seal (secret : string) (nonce p aad : list ascii) : list ascii :=
  repeat "0"%char 28 ++ bytes_of secret ++ aad ++ p.
Definition open (secret : string) (payload aad : list ascii) : option (list ascii) :=
  let tag := repeat "0"%char 28 ++ bytes_of secret ++ aad in
  if bool_decide (take (length tag) payload = tag) then Some (drop (length tag) payload) else None.
Definition open_legacy (secret : string) (nonce ciphertext : list ascii) : option (list ascii) :=
  open secret ciphertext nonce.

Lemma demo_aead : AEAD seal open.
Proof.
  split.
  - intros secret nonce p aad. unfold open, seal. rewrite !app_assoc, <- (app_assoc (repeat _ _)).
    rewrite take_app_length, bool_decide_eq_true_2, drop_app_length by done. done.
  - intros. unfold seal, overhead. rewrite length_app, repeat_length. lia.
Qed.

Definition key_2023 : EncryptionKey := {| Key_ID := "2023"; Key_Secret := "old secret" |}.
Definition key_2024 : EncryptionKey := {| Key_ID := "2024"; Key_Secret := "new secret" |}.

Definition ring (c : EncryptionKey) (l : list EncryptionKey) : Keyring :=
  match NewKeyring c l with Ok k => k | Err _ => Build_Keyring c ∅ [] end.

Definition sealed_2023 : string :=
  match EncryptStringFor seal (Some (ring key_2023 [])) [] SecretKindOAuthRefreshToken "r1" with Ok s => s | Err _ => "" end.

(** [rotation_keeps_secrets] for a token written before the key of 2024 came. *)
Lemma rotation_keeps_secrets_witness :
  DecryptStringFor open open_legacy (Some (ring key_2024 [key_2023])) SecretKindOAuthRefreshToken sealed_2023 = Ok "r1" ∧
  VerifyStringFor open open_legacy (Some (ring key_2024 [key_2023])) SecretKindOAuthRefreshToken sealed_2023
    = Ok {| V_KeyID := "2023"; Format := CiphertextFormatV1 |} ∧
  ∀ kind', kind' ≠ SecretKindOAuthRefreshToken →
    ∃ e, DecryptStringFor open open_legacy (Some (ring key_2024 [key_2023])) kind' sealed_2023 = Err e.
Proof.
  apply (rotation_keeps_secrets seal open open_legacy key_2023 [] (ring key_2023 []) key_2024 [key_2023]
           (ring key_2024 [key_2023]) [] SecretKindOAuthRefreshToken "r1" sealed_2023).
  - exact demo_aead.
  - vm_compute. reflexivity.
  - vm_compute. reflexivity.
  - right. left.
  - vm_compute. reflexivity.
Defined.

Lemma ciphertext_kind_unique_witness :
  Format {| V_KeyID := "2023"; Format := CiphertextFormatV1 |} = InspectCiphertextFormat sealed_2023 ∧
  (CiphertextFormatV1 = CiphertextFormatV1 →
   ∀ kind' r, decryptBytesFor open open_legacy (Some (ring key_2023 [])) kind' sealed_2023 = Ok r →
     kind' = SecretKindOAuthRefreshToken).
Proof.
  apply (ciphertext_kind_unique open open_legacy (Some (ring key_2023 [])) SecretKindOAuthRefreshToken sealed_2023
           (bytes_of "r1") {| V_KeyID := "2023"; Format := CiphertextFormatV1 |}).
  vm_compute. reflexivity.
Defined.

Definition nonce12 : list ascii := repeat "n"%char 12.

Lemma legacy_secrets_readable_witness :
  decryptBytesFor open open_legacy (Some (ring key_2024 [key_2023])) SecretKindClientAPIKey
    (EncodeToString RawStdEncoding (nonce12 ++ seal "old secret" [] (bytes_of "k1") nonce12))
  = Ok (bytes_of "k1", {| V_KeyID := "2023"; Format := CiphertextFormatLegacy |}).
Proof.
  apply (legacy_secrets_readable open open_legacy key_2024 [key_2023] (ring key_2024 [key_2023]) [key_2024] key_2023 []).
  - vm_compute. reflexivity.
  - reflexivity.
  - repeat constructor.
  - reflexivity.
  - discriminate.
  - vm_compute. reflexivity.
  - reflexivity.
Defined.

(** A key derivation that repeats the password. *)
Definition derive (password salt : list ascii) (t m p n : Z) : list ascii :=
  take (Z.to_nat n) (password ++ repeat "0"%char (Z.to_nat n)).

Lemma demo_argon2 : Argon2 19 derive.
Proof.
  split; [|lia]. intros password sl t m p n Hn. unfold len, derive. rewrite length_take, length_app, repeat_length. lia.
Qed.

Definition salt16 : list ascii := repeat "s"%char 16.
Definition hashed : string := match Hash 19 derive (Some salt16) "correct horse" with Ok s => s | Err _ => "" end.

Lemma password_hash_verifies_witness :
  Verify 19 derive (fun _ _ _ _ => None) hashed "correct horse" = (true, false) ∧
  (Verify 19 derive (fun _ _ _ _ => None) hashed "battery").1 = false.
Proof.
  destruct (password_hash_verifies 19 derive (fun _ _ _ _ => None) salt16 "correct horse" hashed demo_argon2) as [H1 H2];
    [reflexivity|vm_compute; reflexivity|].
  split; [exact H1|]. apply not_true_is_false. rewrite H2. vm_compute. discriminate.
Defined.

Lemma password_work_bounded_witness :
  (argon2PasswordHashVersion = argon2PasswordHashVersion ∧ 0 < 65536 ≤ maxArgon2MemoryKiB ∧ 0 < 2 ≤ maxArgon2Iterations ∧
   0 < 1 ≤ maxArgon2Lanes ∧ minPasswordSaltBytes ≤ len salt16 ≤ maxPasswordSaltBytes ∧
   minPasswordKeyBytes ≤ len (derive (bytes_of "correct horse") salt16 2 65536 1 32) ≤ maxPasswordKeyBytes)
  ∨ (argon2PasswordHashVersion = legacyPasswordHashVersion ∧ 2 = legacyPasswordIterations ∧
     len salt16 = passwordSaltBytes ∧ len (derive (bytes_of "correct horse") salt16 2 65536 1 32) = passwordKeyBytes ∧
     passwordHashNeedsRehash (current_hash salt16 (derive (bytes_of "correct horse") salt16 2 65536 1 32)) = true).
Proof.
  apply (password_work_bounded 19 hashed (current_hash salt16 (derive (bytes_of "correct horse") salt16 2 65536 1 32))).
  vm_compute. reflexivity.
Defined.

(** A hash of 2^20 KiB is refused without being computed. *)
Example greedy_hash_refused :
  parsePasswordHash 19 "$argon2id$v=19$m=999999,t=2,p=1$c3Nzc3Nzc3Nzc3Nzc3Nzcw$c3Nzc3Nzc3Nzc3Nzc3Nzcw" = None.
Proof. vm_compute. reflexivity. Qed.
End Demo.
End SecretsThms.
