(* ===== verification/LoginThrottle.v ===== *)
(** * Administrator login throttling

    [admin/login_throttle.go].  The throttle keeps failure state per identity
    (client IP, user name digest) in a bounded map with an LRU list.  A login
    attempt reserves both identities, and is finished by a failure, a success
    or a cancellation.  Every method body runs under the throttle's mutex, so
    an execution is a sequence of whole method calls.

    An entry object is identified with its key: the code creates at most one
    entry per key while the key is in the map, and the LRU list holds the
    entries' keys, oldest first.  A nil throttle behaves as a disabled one. *)

From S2P Require Import Prelude GoStrings.

Module LoginThrottle.

Record LoginThrottleConfig := {
  FailureThreshold : Z;
  BaseDelay : Duration;
  MaxDelay : Duration;
  EntryTTL : Duration;
  EventWindow : Duration;
  MaxEntries : Z;
}.

Record LoginThrottleDecision := {
  Allowed : bool;
  RetryAfter : Duration;
  ReportEvent : bool;
}.

Record loginThrottleEntry := {
  failures : Z;
  inFlight : Z;
  blockedUntil : Time;
  lastSeen : Time;
}.

Record LoginThrottle := {
  self : positive;
  config : LoginThrottleConfig;
  entries : gmap string loginThrottleEntry;
  lru : list string;
  lastEvent : Time;
}.

Record LoginThrottleAttempt := {
  throttle : positive;
  keys : list string;
  active : bool;
}.

Definition NewLoginThrottle (p : positive) (c : LoginThrottleConfig) : LoginThrottle :=
  {| self := p; config := c; entries := ∅; lru := []; lastEvent := 0 |}.

(** Updates of single fields. *)
Definition set_entries (t : LoginThrottle) (m : gmap string loginThrottleEntry) (l : list string)
  : LoginThrottle :=
  {| self := self t; config := config t; entries := m; lru := l; lastEvent := lastEvent t |}.

Definition set_counts (e : loginThrottleEntry) (f i : Z) (b : Time) : loginThrottleEntry :=
  {| failures := f; inFlight := i; blockedUntil := b; lastSeen := lastSeen e |}.

Definition deactivate (a : LoginThrottleAttempt) : LoginThrottleAttempt :=
  {| throttle := throttle a; keys := keys a; active := false |}.

Definition enabled (t : LoginThrottle) : bool :=
  bool_decide (0 < FailureThreshold (config t)) && bool_decide (0 < MaxEntries (config t)).

Definition allowedLoginThrottleDecision : LoginThrottleDecision :=
  {| Allowed := true; RetryAfter := 0; ReportEvent := false |}.

(** [list.MoveToBack]: a no-op for an element that is not in the list. *)
Definition move_to_back (k : string) (l : list string) : list string :=
  if bool_decide (k ∈ l) then filter (fun x => x ≠ k) l ++ [k] else l.

(** Store the mutated entry with its access time and move it to the back. *)
Definition touch (t : LoginThrottle) (k : string) (e : loginThrottleEntry) (now : Time)
  : LoginThrottle :=
  set_entries t
    (<[k := {| failures := failures e; inFlight := inFlight e;
               blockedUntil := blockedUntil e; lastSeen := now |}]> (entries t))
    (move_to_back k (lru t)).

Definition removeEntry (t : LoginThrottle) (k : string) : LoginThrottle :=
  set_entries t (delete k (entries t)) (filter (fun x => x ≠ k) (lru t)).

Definition oldestEntry (t : LoginThrottle) : option (string * loginThrottleEntry) :=
  match lru t with
  | [] => None
  | k :: _ => pair k <$> entries t !! k
  end.

(** The loop of [purgeExpired]; [fuel] is the length of the LRU list, which
    every iteration shortens. *)
Fixpoint purge_loop (fuel : nat) (t : LoginThrottle) (now : Time) : LoginThrottle :=
  match fuel with
  | O => t
  | S fuel =>
      match oldestEntry t with
      | None => t
      | Some (k, oldest) =>
          if bool_decide (0 < inFlight oldest) || time_before now (blockedUntil oldest) ||
             time_before now (lastSeen oldest + EntryTTL (config t))
          then t
          else purge_loop fuel (removeEntry t k) now
      end
  end.

Definition purgeExpired (t : LoginThrottle) (now : Time) : LoginThrottle :=
  if bool_decide (EntryTTL (config t) ≤ 0) then t
  else purge_loop (length (lru t)) t now.

Fixpoint capacity_loop (fuel : nat) (t : LoginThrottle) (required : Z) (now : Time)
  : LoginThrottle * bool :=
  if bool_decide (Z.of_nat (size (entries t)) + required ≤ MaxEntries (config t))
  then (t, true)
  else
    match fuel with
    | O => (t, false)
    | S fuel =>
        match oldestEntry t with
        | None => (t, false)
        | Some (k, oldest) =>
            if bool_decide (0 < inFlight oldest) || bool_decide (0 < failures oldest) ||
               time_before now (blockedUntil oldest)
            then (t, false)
            else capacity_loop fuel (removeEntry t k) required now
        end
    end.

Definition ensureCapacity (t : LoginThrottle) (required : Z) (now : Time)
  : LoginThrottle * bool :=
  capacity_loop (S (length (lru t))) t required now.

Definition shouldReportEvent (t : LoginThrottle) (now : Time) : LoginThrottle * bool :=
  if negb (time_is_zero (lastEvent t)) && bool_decide (0 < EventWindow (config t)) &&
     time_before now (lastEvent t + EventWindow (config t))
  then (t, false)
  else ({| self := self t; config := config t; entries := entries t; lru := lru t;
           lastEvent := now |}, true).

(** The doubling loop of [failureDelay], on 64-bit durations. *)
Fixpoint delay_loop (steps : nat) (maximum delay : Duration) : Duration :=
  match steps with
  | O => if bool_decide (maximum < delay) then maximum else delay
  | S steps =>
      if bool_decide (maximum ≤ delay) || bool_decide (Z.quot maximum 2 < delay)
      then maximum
      else delay_loop steps maximum (wrap64 (delay * 2))
  end.

Definition failureDelay (c : LoginThrottleConfig) (n : Z) : Duration :=
  if bool_decide (n < FailureThreshold c) || bool_decide (BaseDelay c ≤ 0) then 0
  else
    let maximum := if bool_decide (MaxDelay c ≤ 0) then BaseDelay c else MaxDelay c in
    if bool_decide (maximum ≤ BaseDelay c) then maximum
    else delay_loop (Z.to_nat (n - FailureThreshold c)) maximum (BaseDelay c).

(** First loop of [BeginAttempt]: one identity's contribution to the decision. *)
Definition check_key (now : Time) (td : LoginThrottle * LoginThrottleDecision) (key : string)
  : LoginThrottle * LoginThrottleDecision :=
  let '(t, d) := td in
  match entries t !! key with
  | None => (t, d)
  | Some entry =>
      let t := touch t key entry now in
      let remaining := time_sub (blockedUntil entry) now in
      let d :=
        if bool_decide (0 < remaining)
        then {| Allowed := false;
                RetryAfter := if bool_decide (RetryAfter d < remaining) then remaining else RetryAfter d;
                ReportEvent := ReportEvent d |}
        else d in
      let d :=
        if bool_decide (0 < inFlight entry) &&
           bool_decide (FailureThreshold (config t) ≤ failures entry + inFlight entry)
        then {| Allowed := false;
                RetryAfter := if bool_decide (RetryAfter d < BaseDelay (config t))
                              then BaseDelay (config t) else RetryAfter d;
                ReportEvent := ReportEvent d |}
        else d in
      (t, d)
  end.

(** Last loop of [BeginAttempt]: reserve one identity. *)
Definition reserve_key (now : Time) (t : LoginThrottle) (key : string) : LoginThrottle :=
  let '(t, entry) :=
    match entries t !! key with
    | Some entry => (t, entry)
    | None =>
        let entry := {| failures := 0; inFlight := 0; blockedUntil := 0; lastSeen := now |} in
        (set_entries t (<[key := entry]> (entries t)) (lru t ++ [key]), entry)
    end in
  touch t key (set_counts entry (failures entry) (inFlight entry + 1) (blockedUntil entry)) now.

Definition count_new (t : LoginThrottle) (ks : list string) : Z :=
  countZ (fun k => bool_decide (entries t !! k = None)) ks.

(** [BeginAttempt] once the identities of the request are known. *)
Definition beginWithKeys (t : LoginThrottle) (ks : list string) (now : Time)
  : LoginThrottle * LoginThrottleAttempt * LoginThrottleDecision :=
  let attempt := {| throttle := self t; keys := []; active := false |} in
  if negb (enabled t) then (t, attempt, allowedLoginThrottleDecision)
  else
    let t := purgeExpired t now in
    let '(t, decision) := foldl (check_key now) (t, allowedLoginThrottleDecision) ks in
    if negb (Allowed decision) then
      let '(t, report) := shouldReportEvent t now in
      (t, attempt, {| Allowed := Allowed decision; RetryAfter := RetryAfter decision;
                      ReportEvent := report |})
    else
      let '(t, fits) := ensureCapacity t (count_new t ks) now in
      if negb fits then
        let '(t, report) := shouldReportEvent t now in
        (t, attempt, {| Allowed := false; RetryAfter := Z.max (BaseDelay (config t)) Second;
                        ReportEvent := report |})
      else
        (foldl (reserve_key now) t ks,
         {| throttle := self t; keys := ks; active := true |}, decision).

(** One identity of a failed attempt. *)
Definition fail_key (now : Time) (td : LoginThrottle * LoginThrottleDecision) (key : string)
  : LoginThrottle * LoginThrottleDecision :=
  let '(t, d) := td in
  match entries t !! key with
  | None => (t, d)
  | Some entry =>
      if bool_decide (inFlight entry ≤ 0) then (t, d)
      else
        let delay := failureDelay (config t) (failures entry + 1) in
        let blocked := if bool_decide (0 < delay) then now + delay else blockedUntil entry in
        let d :=
          if bool_decide (0 < delay)
          then {| Allowed := false;
                  RetryAfter := if bool_decide (RetryAfter d < delay) then delay else RetryAfter d;
                  ReportEvent := ReportEvent d |}
          else d in
        (touch t key (set_counts entry (failures entry + 1) (inFlight entry - 1) blocked) now, d)
  end.

Definition RecordFailure (t : LoginThrottle) (a : option LoginThrottleAttempt) (now : Time)
  : LoginThrottle * option LoginThrottleAttempt * LoginThrottleDecision :=
  match a with
  | None => (t, a, allowedLoginThrottleDecision)
  | Some attempt =>
      if negb (enabled t) || negb (bool_decide (throttle attempt = self t)) || negb (active attempt)
      then (t, a, allowedLoginThrottleDecision)
      else
        let '(t, decision) :=
          foldl (fail_key now) (t, allowedLoginThrottleDecision) (keys attempt) in
        let '(t, report) := shouldReportEvent t now in
        (t, Some (deactivate attempt),
         {| Allowed := Allowed decision; RetryAfter := RetryAfter decision; ReportEvent := report |})
  end.

(** One identity of a finished (successful or cancelled) attempt. *)
Definition finish_key (success : bool) (now : Time) (t : LoginThrottle) (key : string)
  : LoginThrottle :=
  match entries t !! key with
  | None => t
  | Some entry =>
      if bool_decide (inFlight entry ≤ 0) then t
      else
        let f := if success then 0 else failures entry in
        let b := if success then 0 else blockedUntil entry in
        let entry' := set_counts entry f (inFlight entry - 1) b in
        if bool_decide (inFlight entry' = 0) && bool_decide (failures entry' = 0)
        then removeEntry t key
        else touch t key entry' now
  end.

Definition finishAttempt (t : LoginThrottle) (a : option LoginThrottleAttempt) (success : bool)
  (now : Time) : LoginThrottle * option LoginThrottleAttempt :=
  match a with
  | None => (t, a)
  | Some attempt =>
      if negb (enabled t) || negb (bool_decide (throttle attempt = self t)) || negb (active attempt)
      then (t, a)
      else (foldl (finish_key success now) t (keys attempt), Some (deactivate attempt))
  end.

Definition RecordSuccess t a now := finishAttempt t a true now.
Definition CancelAttempt t a now := finishAttempt t a false now.

#[global] Arguments check_key : simpl never.
#[global] Arguments reserve_key : simpl never.
#[global] Arguments fail_key : simpl never.
#[global] Arguments finish_key : simpl never.

(** *** Identities

    [strings.ToLower] on the whole of Unicode, SHA-256 and the canonical text
    of a parsed IP address are functions of Go's standard library whose tables
    and algorithms do not matter here; any functions will do. *)
Section identities.
Context (ToLower sha256_hex : string → string).
(** [netip.ParseAddr], for an address without a zone, then [Unmap().String()]. *)
Context (parse_unmap : string → option string).

Definition normalizeLoginThrottleIP (raw : string) : string :=
  let raw := TrimSpace raw in
  match parse_unmap raw with
  | Some s => s
  | None => raw
  end.

Definition loginThrottleKeys (ip username : string) : list string :=
  let normalized := normalizeLoginThrottleIP ip in
  (if str_eq normalized "" then [] else ["ip:" +:+ normalized]) ++
  ["username:" +:+ sha256_hex (ToLower (TrimSpace username))].

Definition BeginAttempt (t : LoginThrottle) (ip username : string) (now : Time)
  : LoginThrottle * LoginThrottleAttempt * LoginThrottleDecision :=
  beginWithKeys t (loginThrottleKeys ip username) now.

Lemma loginThrottleKeys_nodup ip username : NoDup (loginThrottleKeys ip username).
Proof.
  unfold loginThrottleKeys. destruct (str_eq _ _); simpl.
  - apply NoDup_singleton.
  - apply NoDup_cons. split; [|apply NoDup_singleton].
    rewrite list_elem_of_singleton. discriminate.
Qed.
End identities.

(** ** The abstract throttle

    Forgetting access times and the LRU order leaves, per identity, its failure
    count, its reservations in flight and the end of its block.  Each loop body
    of the code refines an update of that map at one key. *)

Abbreviation counts := (Z * Z * Z)%type (only parsing).

Definition core_entry (e : loginThrottleEntry) : counts :=
  (failures e, inFlight e, blockedUntil e).

Definition core (t : LoginThrottle) : gmap string counts := core_entry <$> entries t.

Definition abs_reserve (c : option counts) : option counts :=
  match c with
  | Some (f, i, b) => Some (f, i + 1, b)
  | None => Some (0, 1, 0)
  end.

Definition abs_fail (cfg : LoginThrottleConfig) (now : Time) (c : option counts) : option counts :=
  match c with
  | Some (f, i, b) =>
      if bool_decide (i ≤ 0) then c
      else
        let delay := failureDelay cfg (f + 1) in
        Some (f + 1, i - 1, if bool_decide (0 < delay) then now + delay else b)
  | None => None
  end.

Definition abs_finish (success : bool) (c : option counts) : option counts :=
  match c with
  | Some (f, i, b) =>
      if bool_decide (i ≤ 0) then c
      else
        let f' := if success then 0 else f in
        if bool_decide (i - 1 = 0) && bool_decide (f' = 0) then None
        else Some (f', i - 1, if success then 0 else b)
  | None => None
  end.

(** The LRU list enumerates the map's keys without repetition. *)
Definition lru_ok (t : LoginThrottle) : Prop :=
  NoDup (lru t) ∧ ∀ k, k ∈ lru t ↔ is_Some (entries t !! k).

(** Same configuration and identity. *)
Definition same_frame (t t' : LoginThrottle) : Prop :=
  config t' = config t ∧ self t' = self t.

#[global] Instance same_frame_preorder : PreOrder same_frame.
Proof. split; unfold same_frame; [done|]. intros ??? [-> ->] [-> ->]. done. Qed.

Lemma enabled_frame t t' : same_frame t t' → enabled t' = enabled t.
Proof. unfold enabled. by intros [-> _]. Qed.

(** *** The list operations *)

Lemma move_to_back_elem k x l : x ∈ move_to_back k l ↔ x ∈ l.
Proof.
  unfold move_to_back. case_bool_decide as Hk; [|done].
  rewrite elem_of_app, elem_of_filter_ne, list_elem_of_singleton.
  destruct (decide (x = k)) as [->|]; tauto.
Qed.

Lemma move_to_back_nodup k l : NoDup l → NoDup (move_to_back k l).
Proof.
  intros Hl. unfold move_to_back. case_bool_decide; [|done].
  apply NoDup_app. split_and!; [by apply NoDup_filter| |apply NoDup_singleton].
  intros x Hx. rewrite elem_of_filter_ne in Hx. rewrite list_elem_of_singleton. naive_solver.
Qed.

Lemma core_lookup t k : core t !! k = core_entry <$> entries t !! k.
Proof. apply lookup_fmap. Qed.

Lemma core_size t : size (core t) = size (entries t).
Proof. apply map_size_fmap. Qed.

Lemma touch_core t k e now : core (touch t k e now) = <[k := core_entry e]> (core t).
Proof. unfold core, touch; simpl. by rewrite fmap_insert. Qed.

Lemma touch_lru_ok t k e now :
  lru_ok t → is_Some (entries t !! k) → lru_ok (touch t k e now).
Proof.
  intros [Hnd Hdom] Hk. split; simpl; [by apply move_to_back_nodup|].
  intros x. rewrite move_to_back_elem, Hdom, lookup_insert.
  case_decide as Hx; [subst x|]; naive_solver.
Qed.

Lemma removeEntry_core t k : core (removeEntry t k) = delete k (core t).
Proof. unfold core, removeEntry; simpl. by rewrite fmap_delete. Qed.

Lemma removeEntry_lru_ok t k : lru_ok t → lru_ok (removeEntry t k).
Proof.
  intros [Hnd Hdom]. split; simpl; [by apply NoDup_filter|].
  intros x. rewrite elem_of_filter_ne, Hdom, lookup_delete.
  case_decide as Hx; [subst x|]; naive_solver.
Qed.

Lemma touch_frame t k e now : same_frame t (touch t k e now).
Proof. done. Qed.
Lemma removeEntry_frame t k : same_frame t (removeEntry t k).
Proof. done. Qed.

#[local] Hint Resolve touch_lru_ok removeEntry_lru_ok touch_frame removeEntry_frame : n2api.

(** *** Refinement of the loop bodies *)

Lemma reserve_key_refines now t k :
  lru_ok t →
  core (reserve_key now t k) = partial_alter abs_reserve k (core t) ∧
  lru_ok (reserve_key now t k) ∧ same_frame t (reserve_key now t k).
Proof.
  intros Hl. unfold reserve_key. destruct (entries t !! k) as [e|] eqn:E.
  - split_and!; [|by auto with n2api|done]. rewrite touch_core. apply map_eq. intros x.
    destruct (decide (k = x)) as [<-|]; [|by rewrite lookup_insert_ne, lookup_partial_alter_ne].
    by rewrite lookup_insert_eq, lookup_partial_alter_eq, core_lookup, E.
  - split_and!; [| |done].
    + rewrite touch_core. apply map_eq. intros x. unfold core at 1. simpl.
      rewrite fmap_insert, insert_insert_eq. fold (core t).
      destruct (decide (k = x)) as [<-|]; [|by rewrite lookup_insert_ne, lookup_partial_alter_ne].
      by rewrite lookup_insert_eq, lookup_partial_alter_eq, core_lookup, E.
    + apply touch_lru_ok; simpl; [|by rewrite lookup_insert_eq].
      destruct Hl as [Hnd Hdom]. split; simpl.
      * apply NoDup_app. split_and!; [done| |apply NoDup_singleton].
        intros x Hx. rewrite list_elem_of_singleton. intros ->. apply Hdom in Hx.
        rewrite E in Hx. by destruct Hx.
      * intros x. rewrite elem_of_app, list_elem_of_singleton, Hdom, lookup_insert.
        case_decide as Hx; [subst x|]; naive_solver.
Qed.

Lemma fail_key_refines now t d k :
  lru_ok t →
  core (fail_key now (t, d) k).1 = partial_alter (abs_fail (config t) now) k (core t) ∧
  lru_ok (fail_key now (t, d) k).1 ∧ same_frame t (fail_key now (t, d) k).1.
Proof.
  intros Hl. unfold fail_key. destruct (entries t !! k) as [e|] eqn:E; simpl.
  2: { split_and!; [|done..]. symmetry. apply partial_alter_id. rewrite core_lookup, E. done. }
  destruct (bool_decide (inFlight e ≤ 0)) eqn:Hi; simpl.
  { split_and!; [|done..]. symmetry. apply partial_alter_id.
    rewrite core_lookup, E. simpl. by rewrite Hi. }
  split_and!; [|by eauto with n2api|done]. rewrite touch_core. apply map_eq. intros x.
  destruct (decide (k = x)) as [<-|]; [|by rewrite lookup_insert_ne, lookup_partial_alter_ne].
  rewrite lookup_insert_eq, lookup_partial_alter_eq, core_lookup, E. simpl. by rewrite Hi.
Qed.

Lemma finish_key_refines success now t k :
  lru_ok t →
  core (finish_key success now t k) = partial_alter (abs_finish success) k (core t) ∧
  lru_ok (finish_key success now t k) ∧ same_frame t (finish_key success now t k).
Proof.
  intros Hl. unfold finish_key. destruct (entries t !! k) as [e|] eqn:E; simpl.
  2: { split_and!; [|done..]. symmetry. apply partial_alter_id. rewrite core_lookup, E. done. }
  destruct (bool_decide (inFlight e ≤ 0)) eqn:Hi; simpl.
  { split_and!; [|done..]. symmetry. apply partial_alter_id.
    rewrite core_lookup, E. simpl. by rewrite Hi. }
  destruct (bool_decide (inFlight e - 1 = 0) && _) eqn:Hz.
  - split_and!; [|by eauto with n2api|done]. rewrite removeEntry_core. apply map_eq. intros x.
    destruct (decide (k = x)) as [<-|]; [|by rewrite lookup_delete_ne, lookup_partial_alter_ne].
    rewrite lookup_delete_eq, lookup_partial_alter_eq, core_lookup, E. simpl. by rewrite Hi, Hz.
  - split_and!; [|by eauto with n2api|done]. rewrite touch_core. apply map_eq. intros x.
    destruct (decide (k = x)) as [<-|]; [|by rewrite lookup_insert_ne, lookup_partial_alter_ne].
    rewrite lookup_insert_eq, lookup_partial_alter_eq, core_lookup, E. simpl. by rewrite Hi, Hz.
Qed.

(** ** Invariant *)

(** No entry is idle, and a burst of concurrent checks stays below the
    threshold: several reservations at once only while failures and
    reservations together are within it. *)
Definition counts_ok (cfg : LoginThrottleConfig) (c : counts) : Prop :=
  let '(f, i, _) := c in
  0 ≤ f ∧ 0 ≤ i ∧ (0 < i ∨ 0 < f) ∧ (i ≤ 1 ∨ f + i ≤ FailureThreshold cfg).

Record Inv (t : LoginThrottle) : Prop := {
  Inv_lru : lru_ok t;
  Inv_counts : map_Forall (fun _ c => counts_ok (config t) c) (core t);
  Inv_size : Z.of_nat (size (core t)) ≤ Z.max 0 (MaxEntries (config t));
}.

(** Reservations in flight for an identity. *)
Definition flight (m : gmap string counts) (k : string) : Z :=
  match m !! k with Some (_, i, _) => i | None => 0 end.

Lemma oldestEntry_Some t k e :
  oldestEntry t = Some (k, e) → entries t !! k = Some e ∧ k ∈ lru t.
Proof.
  unfold oldestEntry. destruct (lru t) as [|k' l]; [done|].
  destruct (entries t !! k') eqn:E; simpl; [|done]. intros [= <- <-].
  split; [done|constructor].
Qed.

Lemma oldestEntry_None t : lru_ok t → oldestEntry t = None → entries t = ∅.
Proof.
  intros [_ Hdom]. unfold oldestEntry. destruct (lru t) as [|k l] eqn:E.
  - intros _. apply map_empty. intros k. apply eq_None_not_Some. rewrite <- Hdom.
    apply not_elem_of_nil.
  - destruct (proj1 (Hdom k)) as [e He]; [constructor|]. by rewrite He.
Qed.

Lemma Inv_remove_idle t k f b :
  Inv t → core t !! k = Some (f, 0, b) →
  Inv (removeEntry t k) ∧ ∀ k', flight (core (removeEntry t k)) k' = flight (core t) k'.
Proof.
  intros [Hl Hc Hs] Hk. split; [split|].
  - auto with n2api.
  - rewrite removeEntry_core. by apply map_Forall_delete.
  - rewrite removeEntry_core, map_size_delete_Some by eauto. simpl. lia.
  - intros k'. rewrite removeEntry_core. unfold flight. rewrite lookup_delete.
    case_decide as Hkk; [subst k'; by rewrite Hk|done].
Qed.

Lemma purge_loop_spec fuel t now :
  Inv t →
  let t' := purge_loop fuel t now in
  Inv t' ∧ same_frame t t' ∧ lastEvent t' = lastEvent t ∧ core t' ⊆ core t ∧
  ∀ k, flight (core t') k = flight (core t) k.
Proof.
  revert t. induction fuel as [|fuel IH]; intros t HI; simpl; [by split_and!|].
  destruct (oldestEntry t) as [[k e]|] eqn:E; [|by split_and!].
  destruct (_ || _ || _) eqn:Hg; [by split_and!|]. to_prop. split_hyps.
  apply oldestEntry_Some in E as [Ek _].
  assert (core t !! k = Some (core_entry e)) as Hk by (by rewrite core_lookup, Ek).
  assert (inFlight e = 0) as Hi.
  { pose proof (Inv_counts t HI k _ Hk) as Hok. unfold counts_ok, core_entry in Hok. lia. }
  unfold core_entry in Hk. rewrite Hi in Hk.
  destruct (Inv_remove_idle t k _ _ HI Hk) as [HI' Hf].
  destruct (IH _ HI') as (? & [? ?] & ? & Hsub & Hf').
  split_and!; [done|by split|done| |].
  - etrans; [exact Hsub|]. rewrite removeEntry_core. apply delete_subseteq.
  - intros k'. by rewrite Hf', Hf.
Qed.

Lemma purgeExpired_spec t now :
  Inv t →
  let t' := purgeExpired t now in
  Inv t' ∧ same_frame t t' ∧ lastEvent t' = lastEvent t ∧ core t' ⊆ core t ∧
  ∀ k, flight (core t') k = flight (core t) k.
Proof.
  intros HI. unfold purgeExpired. case_bool_decide; [by split_and!|]. by apply purge_loop_spec.
Qed.

(** An identity that neither is blocked nor has its threshold reserved. *)
Definition key_free (cfg : LoginThrottleConfig) (now : Time) (m : gmap string counts) (k : string)
  : bool :=
  match m !! k with
  | None => true
  | Some (f, i, b) =>
      negb (bool_decide (now < b)) &&
      negb (bool_decide (0 < i) && bool_decide (FailureThreshold cfg ≤ f + i))
  end.

Lemma check_key_spec now t d k :
  lru_ok t →
  let '(t', d') := check_key now (t, d) k in
  core t' = core t ∧ lru_ok t' ∧ same_frame t t' ∧ lastEvent t' = lastEvent t ∧
  Allowed d' = Allowed d && key_free (config t) now (core t) k ∧
  RetryAfter d ≤ RetryAfter d'.
Proof.
  intros Hl. unfold check_key, key_free. rewrite core_lookup.
  destruct (entries t !! k) as [e|] eqn:E; simpl.
  2: { split_and!; try done. by rewrite andb_true_r. }
  rewrite (bool_decide_ext (0 < time_sub _ _) (now < blockedUntil e)) by apply time_sub_pos.
  split_and!; [|by eauto with n2api|done|done|..].
  - rewrite touch_core. apply insert_id. by rewrite core_lookup, E.
  - repeat case_bool_decide; simpl; by rewrite ?andb_true_r, ?andb_false_r.
  - destruct (bool_decide (now < _)), (bool_decide (0 < _) && _); simpl;
      repeat case_bool_decide; lia.
Qed.

Lemma check_keys_spec now ks t d :
  lru_ok t →
  let '(t', d') := foldl (check_key now) (t, d) ks in
  core t' = core t ∧ lru_ok t' ∧ same_frame t t' ∧ lastEvent t' = lastEvent t ∧
  Allowed d' = Allowed d && forallb (key_free (config t) now (core t)) ks ∧
  RetryAfter d ≤ RetryAfter d'.
Proof.
  revert t d. induction ks as [|k ks IH]; intros t d Hl; simpl.
  { split_and!; try done. by rewrite andb_true_r. }
  pose proof (check_key_spec now t d k Hl) as Hk.
  destruct (check_key now (t, d) k) as [t1 d1]. destruct Hk as (Hc & Hl1 & Hf & He & Ha & Hr).
  specialize (IH t1 d1 Hl1). destruct (foldl _ _ _) as [t2 d2].
  destruct IH as (Hc2 & Hl2 & Hf2 & He2 & Ha2 & Hr2). destruct Hf as [Hcfg Hself].
  rewrite Hc, Hcfg in Ha2. destruct Hf2 as [Hcfg2 Hself2].
  cbv beta iota. split_and!; [congruence|done|split; congruence|congruence| |lia].
  by rewrite Ha2, Ha, andb_assoc.
Qed.

(** The eviction loop of [ensureCapacity] never evicts: no entry is idle, so
    the function is the plain capacity test and fails closed when it does not
    fit. *)
Lemma ensureCapacity_spec t required now :
  Inv t →
  ensureCapacity t required now
  = (t, bool_decide (Z.of_nat (size (entries t)) + required ≤ MaxEntries (config t))).
Proof.
  intros HI. unfold ensureCapacity. simpl. case_bool_decide as Hfit; [done|].
  destruct (oldestEntry t) as [[k e]|] eqn:E; [|done].
  apply oldestEntry_Some in E as [Ek _].
  pose proof (Inv_counts t HI k (core_entry e)) as Hok.
  rewrite core_lookup, Ek in Hok. specialize (Hok eq_refl).
  unfold counts_ok, core_entry in Hok. repeat case_bool_decide; simpl; try done; lia.
Qed.

Lemma shouldReportEvent_spec t now :
  core (shouldReportEvent t now).1 = core t ∧
  (lru_ok t → lru_ok (shouldReportEvent t now).1) ∧
  same_frame t (shouldReportEvent t now).1.
Proof. unfold shouldReportEvent. by destruct (_ && _ && _). Qed.

Lemma Inv_ext t t' :
  Inv t → core t' = core t → lru_ok t' → same_frame t t' → Inv t'.
Proof. intros [_ Hc Hs] He Hl [Hcfg _]. split; rewrite ?He, ?Hcfg; done. Qed.

(** Lifting a loop body's refinement to the loop. *)
Section loops.
Context {S : Type} (π : S → LoginThrottle) (op : S → string → S).
Context (g : LoginThrottleConfig → option counts → option counts).
Hypothesis op_refines : ∀ x k, lru_ok (π x) →
  core (π (op x k)) = partial_alter (g (config (π x))) k (core (π x)) ∧
  lru_ok (π (op x k)) ∧ same_frame (π x) (π (op x k)).

Lemma foldl_refines ks x :
  lru_ok (π x) →
  core (π (foldl op x ks))
  = foldl (fun m k => partial_alter (g (config (π x))) k m) (core (π x)) ks ∧
  lru_ok (π (foldl op x ks)) ∧ same_frame (π x) (π (foldl op x ks)).
Proof.
  revert x. induction ks as [|k ks IH]; intros x Hl; simpl; [done|].
  destruct (op_refines x k Hl) as (Hc & Hl' & [Hcfg Hself]).
  destruct (IH _ Hl') as (Hc' & Hl'' & [Hcfg' Hself']).
  split_and!; [|done|split; congruence]. by rewrite Hc', Hcfg, Hc.
Qed.
End loops.

(** Reserving and recording at all keys of an attempt, on the abstract map. *)
Definition at_keys (g : option counts → option counts) (ks : list string)
  (m : gmap string counts) : gmap string counts :=
  foldl (fun m k => partial_alter g k m) m ks.

Lemma reserve_keys_refines now ks t :
  lru_ok t →
  core (foldl (reserve_key now) t ks) = at_keys abs_reserve ks (core t) ∧
  lru_ok (foldl (reserve_key now) t ks) ∧ same_frame t (foldl (reserve_key now) t ks).
Proof.
  apply (foldl_refines id (reserve_key now) (fun _ => abs_reserve)).
  intros x k. apply reserve_key_refines.
Qed.

Lemma fail_keys_refines now ks t d :
  lru_ok t →
  core (foldl (fail_key now) (t, d) ks).1 = at_keys (abs_fail (config t) now) ks (core t) ∧
  lru_ok (foldl (fail_key now) (t, d) ks).1 ∧
  same_frame t (foldl (fail_key now) (t, d) ks).1.
Proof.
  apply (foldl_refines fst (fail_key now) (fun c => abs_fail c now) ltac:(
    intros [x dx] k; apply fail_key_refines) ks (t, d)).
Qed.

Lemma finish_keys_refines success now ks t :
  lru_ok t →
  core (foldl (finish_key success now) t ks) = at_keys (abs_finish success) ks (core t) ∧
  lru_ok (foldl (finish_key success now) t ks) ∧
  same_frame t (foldl (finish_key success now) t ks).
Proof.
  apply (foldl_refines id (finish_key success now) (fun _ => abs_finish success)).
  intros x k. apply finish_key_refines.
Qed.

(** How many of the identities are new to the map. *)
Definition new_keys (m : gmap string counts) (ks : list string) : Z :=
  countZ (fun k => bool_decide (m !! k = None)) ks.

Lemma count_new_core t ks : count_new t ks = new_keys (core t) ks.
Proof.
  apply sumZ_ext. intros k _. f_equal. apply bool_decide_ext.
  rewrite core_lookup. by destruct (entries t !! k).
Qed.

Lemma at_keys_reserve_size ks m :
  NoDup ks →
  Z.of_nat (size (at_keys abs_reserve ks m)) = Z.of_nat (size m) + new_keys m ks.
Proof.
  apply size_foldl_partial_alter. intros [[[f i] b]|]; simpl; eauto.
Qed.

(** The whole of [BeginAttempt] on the abstract map: expired identities go,
    then the attempt is granted when every identity is free and the new ones
    fit, and refused without any other change otherwise. *)
Lemma beginWithKeys_spec t ks now :
  Inv t → enabled t = true →
  let m := core (purgeExpired t now) in
  let '(t', a, d) := beginWithKeys t ks now in
  same_frame t t' ∧ lru_ok t' ∧ throttle a = self t ∧
  if forallb (key_free (config t) now m) ks &&
     bool_decide (Z.of_nat (size m) + new_keys m ks ≤ MaxEntries (config t))
  then Allowed d = true ∧ active a = true ∧ keys a = ks ∧ core t' = at_keys abs_reserve ks m
  else Allowed d = false ∧ active a = false ∧ keys a = [] ∧ core t' = m.
Proof.
  intros HI Hen m. unfold beginWithKeys. rewrite Hen. simpl.
  destruct (purgeExpired_spec t now HI) as (HIp & [Hpc Hps] & _ & _ & _).
  pose proof (check_keys_spec now ks (purgeExpired t now) allowedLoginThrottleDecision
    (Inv_lru _ HIp)) as Hck.
  destruct (foldl (check_key now) _ ks) as [t1 d1].
  destruct Hck as (Hc1 & Hl1 & [Hcfg1 Hs1] & _ & Ha1 & _). rewrite Hpc in Ha1. fold m in Ha1, Hc1.
  assert (Inv t1) as HI1 by (eapply Inv_ext; [exact HIp|done|done|split; congruence]).
  simpl in Ha1. rewrite Ha1. destruct (forallb _ ks) eqn:Hfree; simpl.
  2: { pose proof (shouldReportEvent_spec t1 now) as (Hc & Hl & [Hcf Hsf]).
       destruct (shouldReportEvent t1 now) as [t2 rep]; simpl in *.
       split_and!; try done; [split; congruence|auto|congruence]. }
  rewrite ensureCapacity_spec, count_new_core, Hc1, <- core_size, Hc1, Hcfg1, Hpc by done.
  case_bool_decide as Hfit; simpl.
  - destruct (reserve_keys_refines now ks t1 Hl1) as (Hc & Hl & [Hcf Hsf]).
    rewrite Hc1 in Hc. split_and!; try done; [split; congruence|congruence].
  - pose proof (shouldReportEvent_spec t1 now) as (Hc & Hl & [Hcf Hsf]).
    destruct (shouldReportEvent t1 now) as [t2 rep]; simpl in *.
    split_and!; try done; [split; congruence|auto|congruence].
Qed.

(** *** Updates at the keys of an attempt *)

Lemma at_keys_lookup g ks m k :
  NoDup ks → at_keys g ks m !! k = if decide (k ∈ ks) then g (m !! k) else m !! k.
Proof. apply lookup_foldl_partial_alter. Qed.

Lemma at_keys_Forall (P : counts → Prop) g ks m :
  NoDup ks → map_Forall (fun _ => P) m →
  (∀ k c, k ∈ ks → g (m !! k) = Some c → P c) →
  map_Forall (fun _ => P) (at_keys g ks m).
Proof.
  intros Hnd Hm Hg k c. rewrite at_keys_lookup by done. case_decide; eauto.
Qed.

Lemma at_keys_size g ks m :
  NoDup ks → g None = None → (size (at_keys g ks m) ≤ size m)%nat.
Proof.
  intros Hnd Hg. rewrite <- !size_dom. apply subseteq_size. intros k.
  rewrite !elem_of_dom, at_keys_lookup by done. case_decide; [|done].
  destruct (m !! k); [done|]. rewrite Hg. by intros [? ?].
Qed.

Definition flight_of (c : option counts) : Z :=
  match c with Some (_, i, _) => i | None => 0 end.

Lemma at_keys_flight g ks m k :
  NoDup ks →
  flight (at_keys g ks m) k = if decide (k ∈ ks) then flight_of (g (m !! k)) else flight m k.
Proof. intros Hnd. unfold flight. rewrite at_keys_lookup by done. by case_decide. Qed.

(** A reservation granted to a free identity keeps its counts in order, and so
    do the outcomes of an identity that has a reservation. *)
Lemma abs_reserve_ok cfg now m k c :
  map_Forall (fun _ => counts_ok cfg) m → key_free cfg now m k = true →
  abs_reserve (m !! k) = Some c → counts_ok cfg c.
Proof.
  unfold key_free. intros Hok Hfree. specialize (Hok k).
  destruct (m !! k) as [[[f i] b]|]; simpl in *; intros [= <-]; unfold counts_ok.
  - specialize (Hok _ eq_refl). simpl in Hok. to_prop. lia.
  - lia.
Qed.

Lemma abs_fail_ok cfg now c :
  counts_ok cfg c → 0 < flight_of (Some c) →
  flight_of (abs_fail cfg now (Some c)) = flight_of (Some c) - 1 ∧
  ∀ c', abs_fail cfg now (Some c) = Some c' → counts_ok cfg c'.
Proof.
  destruct c as [[f i] b]. unfold counts_ok; simpl. intros Hok Hi.
  rewrite bool_decide_eq_false_2 by lia. split; [done|]. intros c' [= <-]. simpl. lia.
Qed.

Lemma abs_finish_ok cfg success c :
  counts_ok cfg c → 0 < flight_of (Some c) →
  flight_of (abs_finish success (Some c)) = flight_of (Some c) - 1 ∧
  ∀ c', abs_finish success (Some c) = Some c' → counts_ok cfg c'.
Proof.
  destruct c as [[f i] b]. unfold counts_ok; simpl. intros Hok Hi.
  rewrite (bool_decide_eq_false_2 (i ≤ 0)) by lia.
  destruct (bool_decide (i - 1 = 0) && _) eqn:Hz; to_prop; simpl;
    (split; [lia|]); intros c' [= <-]; destruct success; lia.
Qed.

(** ** Executions *)

(** Attempts that hold a reservation for identity [k]. *)
Definition holders (A : gmap positive LoginThrottleAttempt) (k : string) : Z :=
  sum_map (fun _ a => Z.b2z (active a && bool_decide (k ∈ keys a))) A.

Section executions.
Context (ToLower sha256_hex : string → string) (parse_unmap : string → option string).

Definition state : Type := LoginThrottle * gmap positive LoginThrottleAttempt.

(** One method call, by any goroutine, at any clock reading. *)
Inductive step : state → state → Prop :=
| step_begin t A id ip username now t' a d :
    A !! id = None →
    BeginAttempt ToLower sha256_hex parse_unmap t ip username now = (t', a, d) →
    step (t, A) (t', <[id := a]> A)
| step_failure t A id a now t' a' d :
    A !! id = Some a → RecordFailure t (Some a) now = (t', Some a', d) →
    step (t, A) (t', <[id := a']> A)
| step_success t A id a now t' a' :
    A !! id = Some a → RecordSuccess t (Some a) now = (t', Some a') →
    step (t, A) (t', <[id := a']> A)
| step_cancel t A id a now t' a' :
    A !! id = Some a → CancelAttempt t (Some a) now = (t', Some a') →
    step (t, A) (t', <[id := a']> A).

Definition reachable (p : positive) (cfg : LoginThrottleConfig) (s : state) : Prop :=
  rtc step (NewLoginThrottle p cfg, ∅) s.

Record SysInv (s : state) : Prop := {
  Sys_inv : Inv s.1;
  Sys_flight k : flight (core s.1) k = holders s.2 k;
  Sys_attempts id a : s.2 !! id = Some a → NoDup (keys a) ∧ throttle a = self s.1;
}.

Lemma holders_insert_new A id a k :
  A !! id = None →
  holders (<[id := a]> A) k = Z.b2z (active a && bool_decide (k ∈ keys a)) + holders A k.
Proof. apply (sum_map_insert_None (fun _ a => Z.b2z (active a && bool_decide (k ∈ keys a)))). Qed.

Lemma holders_deactivate A id a k :
  A !! id = Some a → active a = true →
  holders (<[id := deactivate a]> A) k = holders A k - Z.b2z (bool_decide (k ∈ keys a)).
Proof.
  intros Ha Hact. unfold holders. erewrite sum_map_insert_Some by done.
  rewrite Hact. simpl. lia.
Qed.

(** An active attempt's identities really are reserved. *)
Lemma holders_active A id a k :
  A !! id = Some a → active a = true → k ∈ keys a → 0 < holders A k.
Proof.
  intros Ha Hact Hk. unfold holders.
  pose proof (sum_map_elem_le (fun _ a => Z.b2z (active a && bool_decide (k ∈ keys a))) A id a)
    as Hle. simpl in Hle. rewrite Hact, bool_decide_eq_true_2 in Hle by done.
  simpl in Hle. apply (Z.lt_le_trans _ 1); [lia|]. apply Hle; [|done].
  intros ? x _. destruct (active x && _); simpl; lia.
Qed.

Lemma SysInv_begin t A id ip username now t' a d :
  SysInv (t, A) → A !! id = None →
  BeginAttempt ToLower sha256_hex parse_unmap t ip username now = (t', a, d) →
  SysInv (t', <[id := a]> A).
Proof.
  intros [HI Hf Hatt] Hid Hb. simpl in *. unfold BeginAttempt in Hb.
  set (ks := loginThrottleKeys _ _ _ ip username) in *.
  assert (NoDup ks) as Hnd by apply loginThrottleKeys_nodup.
  destruct (enabled t) eqn:Hen.
  2: { unfold beginWithKeys in Hb. rewrite Hen in Hb. simpl in Hb. simplify_eq.
       split; simpl; [done| |].
       - intros k. rewrite holders_insert_new by done. simpl. rewrite Hf. lia.
       - intros i x [[_ <-]|[_ ?]]%lookup_insert_Some; [split; [apply NoDup_nil_2|done]|eauto]. }
  pose proof (beginWithKeys_spec t ks now HI Hen) as Hs. rewrite Hb in Hs. simpl in Hs.
  destruct (purgeExpired_spec t now HI) as (HIp & [Hpc _] & _ & _ & Hpf).
  destruct Hs as ([Hcfg Hself] & Hl & Hthr & Hs).
  destruct (forallb _ _ && _) eqn:Hgrant.
  - destruct Hs as (_ & Hact & Hkeys & Hcore). to_prop. destruct Hgrant as [Hfree Hfit].
    rewrite forallb_forall in Hfree.
    split; simpl.
    + split; [done|rewrite Hcore, Hcfg|rewrite Hcore, Hcfg].
      * rewrite <- Hpc. apply at_keys_Forall; [done|apply HIp|].
        intros k c Hk. apply (abs_reserve_ok _ now); [apply HIp|].
        rewrite Hpc. apply Hfree. by apply list_elem_of_In.
      * rewrite at_keys_reserve_size by done. lia.
    + intros k. rewrite holders_insert_new, Hact, Hkeys, Hcore, at_keys_flight, <- Hf, <- Hpf by done.
      simpl. unfold flight. case_bool_decide;
        [rewrite decide_True by done|rewrite decide_False by done; simpl; lia].
      destruct (core _ !! k) as [[[f i] b]|]; simpl; lia.
    + intros i x [[_ <-]|[_ Hx]]%lookup_insert_Some; [rewrite Hkeys; split; congruence|].
      destruct (Hatt i x Hx). split; congruence.
  - destruct Hs as (_ & Hact & Hkeys & Hcore). split; simpl.
    + eapply Inv_ext; [exact HIp|done|done|]. destruct (purgeExpired_spec t now HI) as (_ & [? ?] & _).
      split; congruence.
    + intros k. rewrite holders_insert_new, Hact, Hcore, <- Hf, Hpf by done. simpl. lia.
    + intros i x [[_ <-]|[_ Hx]]%lookup_insert_Some; [rewrite Hkeys; split; [apply NoDup_nil_2|congruence]|].
      destruct (Hatt i x Hx). split; congruence.
Qed.

(** Finishing an active attempt, by any of the three outcomes: [g] is the
    outcome's effect on one identity that has a reservation. *)
Lemma SysInv_finish (g : option counts → option counts) t A id a t' :
  SysInv (t, A) → A !! id = Some a → active a = true →
  core t' = at_keys g (keys a) (core t) → lru_ok t' → same_frame t t' →
  g None = None →
  (∀ c, counts_ok (config t) c → 0 < flight_of (Some c) →
    flight_of (g (Some c)) = flight_of (Some c) - 1 ∧
    ∀ c', g (Some c) = Some c' → counts_ok (config t) c') →
  SysInv (t', <[id := deactivate a]> A).
Proof.
  intros [HI Hf Hatt] Ha Hact Hcore Hl [Hcfg Hself] Hg0 Hg. simpl in *.
  destruct (Hatt id a Ha) as [Hnd Hthr].
  assert (∀ k, k ∈ keys a → ∃ c, core t !! k = Some c ∧ counts_ok (config t) c ∧
    0 < flight_of (Some c)) as Hheld.
  { intros k Hk. pose proof (holders_active A id a k Ha Hact Hk) as Hpos.
    rewrite <- Hf in Hpos. unfold flight in Hpos.
    pose proof (Inv_counts t HI k) as Hok.
    destruct (core t !! k) as [[[f i] b]|]; [|lia]. eauto. }
  split; simpl.
  - split; [done|rewrite Hcore, Hcfg|rewrite Hcore, Hcfg].
    + apply at_keys_Forall; [done|apply HI|]. intros k c Hk. destruct (Hheld k Hk) as (c0 & -> & Hok & Hpos).
      by apply Hg.
    + pose proof (at_keys_size g (keys a) (core t) Hnd Hg0). pose proof (Inv_size t HI). lia.
  - intros k. rewrite holders_deactivate, Hcore, at_keys_flight, <- Hf by done.
    case_bool_decide as Hk; [rewrite decide_True by done|rewrite decide_False by done; simpl; lia].
    destruct (Hheld k Hk) as (c0 & Hc0 & Hok & Hpos). change (flight (core t) k) with (flight_of (core t !! k)).
    rewrite Hc0. destruct (Hg c0 Hok Hpos) as [-> _]. done.
  - intros i x [[_ <-]|[_ Hx]]%lookup_insert_Some; simpl; [split; congruence|].
    destruct (Hatt i x Hx). split; congruence.
Qed.

Lemma RecordFailure_inactive t a now :
  negb (enabled t) || negb (bool_decide (throttle a = self t)) || negb (active a) = true →
  RecordFailure t (Some a) now = (t, Some a, allowedLoginThrottleDecision).
Proof. unfold RecordFailure. by intros ->. Qed.

Lemma SysInv_step s s' : step s s' → SysInv s → SysInv s'.
Proof.
  destruct 1 as [t A id ip username now t' a d Hid Hb|t A id a now t' a' d Ha Hr
    |t A id a now t' a' Ha Hr|t A id a now t' a' Ha Hr]; intros HS;
    [by eapply SysInv_begin| | |];
    unfold RecordSuccess, CancelAttempt, RecordFailure, finishAttempt in Hr;
    (destruct (_ || _ || _) eqn:Hg; [simplify_eq; by rewrite insert_id|]);
    to_prop; destruct Hg as [[_ _] Hact]; pose proof (Inv_lru _ (Sys_inv _ HS)) as Hl;
    simpl in Hl.
  - pose proof (fail_keys_refines now (keys a) t allowedLoginThrottleDecision Hl) as (Hc & Hl' & Hf).
    destruct (foldl (fail_key now) _ _) as [t1 d1]; simpl in *.
    pose proof (shouldReportEvent_spec t1 now) as (Hc2 & Hl2 & Hf2).
    destruct (shouldReportEvent t1 now) as [t2 rep]; simpl in *. simplify_eq.
    eapply (SysInv_finish (abs_fail (config t) now)); eauto using abs_fail_ok; [congruence|by etrans].
  - pose proof (finish_keys_refines true now (keys a) t Hl) as (Hc & Hl' & Hf). simplify_eq.
    eapply (SysInv_finish (abs_finish true)); eauto using abs_finish_ok.
  - pose proof (finish_keys_refines false now (keys a) t Hl) as (Hc & Hl' & Hf). simplify_eq.
    eapply (SysInv_finish (abs_finish false)); eauto using abs_finish_ok.
Qed.

Lemma SysInv_init p cfg : SysInv (NewLoginThrottle p cfg, ∅).
Proof.
  assert (core (NewLoginThrottle p cfg) = ∅) as Hc by apply fmap_empty.
  split; simpl.
  - split; rewrite ?Hc.
    + split; simpl; [apply NoDup_nil_2|]. intros k. rewrite lookup_empty.
      split; [by intros ?%elem_of_nil|by intros [? ?]].
    + apply map_Forall_empty.
    + rewrite map_size_empty. lia.
  - intros k. rewrite Hc. unfold flight. rewrite lookup_empty. done.
  - done.
Qed.

Lemma SysInv_reachable p cfg s : reachable p cfg s → SysInv s.
Proof. apply (rtc_ind_r SysInv); eauto using SysInv_init, SysInv_step. Qed.

Lemma config_step s s' : step s s' → SysInv s → config s'.1 = config s.1.
Proof.
  intros Hst HS. destruct Hst as [t A id ip username now t' a d Hid Hb|t A id a now t' a' d Ha Hr
    |t A id a now t' a' Ha Hr|t A id a now t' a' Ha Hr]; simpl;
    pose proof (Inv_lru _ (Sys_inv _ HS)) as Hl; simpl in Hl.
  - unfold BeginAttempt in Hb. destruct (enabled t) eqn:Hen.
    + pose proof (beginWithKeys_spec t
        (loginThrottleKeys ToLower sha256_hex parse_unmap ip username) now (Sys_inv _ HS) Hen) as Hs.
      rewrite Hb in Hs. by destruct Hs as ([? ?] & _).
    + unfold beginWithKeys in Hb. rewrite Hen in Hb. by simplify_eq/=.
  - unfold RecordFailure in Hr. destruct (_ || _ || _); [by simplify_eq|].
    pose proof (fail_keys_refines now (keys a) t allowedLoginThrottleDecision Hl) as (_ & _ & [Hf _]).
    destruct (foldl _ _ _) as [t1 d1]; simpl in *.
    pose proof (shouldReportEvent_spec t1 now) as (_ & _ & [Hf2 _]).
    destruct (shouldReportEvent t1 now) as [t2 rep]; simpl in *. simplify_eq. congruence.
  - unfold RecordSuccess, finishAttempt in Hr. destruct (_ || _ || _); [by simplify_eq|].
    pose proof (finish_keys_refines true now (keys a) t Hl) as (_ & _ & [Hf _]). by simplify_eq.
  - unfold CancelAttempt, finishAttempt in Hr. destruct (_ || _ || _); [by simplify_eq|].
    pose proof (finish_keys_refines false now (keys a) t Hl) as (_ & _ & [Hf _]). by simplify_eq.
Qed.

Lemma config_reachable p cfg s : reachable p cfg s → config s.1 = cfg.
Proof.
  apply (rtc_ind_r (fun s => config s.1 = cfg)); [done|].
  intros s1 s2 Hr Hst IH. rewrite (config_step s1 s2 Hst); [done|].
  by eapply SysInv_reachable.
Qed.

End executions.

(** ** The exponential delay *)

(** The doubling loop computes the capped power without overflowing. *)
Lemma delay_loop_spec steps maximum delay :
  0 < delay ≤ maximum → maximum ≤ int64_max →
  delay_loop steps maximum delay = Z.min maximum (delay * 2 ^ Z.of_nat steps).
Proof.
  revert delay. induction steps as [|n IH]; intros delay Hd Hm; cbn [delay_loop].
  - case_bool_decide; change (2 ^ Z.of_nat 0) with 1; lia.
  - rewrite Nat2Z.inj_succ, Z.pow_succ_r by lia.
    pose proof (Z.pow_pos_nonneg 2 (Z.of_nat n) ltac:(lia) ltac:(lia)) as Hp.
    pose proof (Z.quot_div_nonneg maximum 2 ltac:(lia) ltac:(lia)) as Hq. rewrite Hq.
    pose proof (Z.div_mod maximum 2 ltac:(lia)). pose proof (Z.mod_pos_bound maximum 2 ltac:(lia)).
    destruct (_ || _) eqn:Hb; to_prop.
    + rewrite Z.min_l; [done|]. assert (maximum < 2 * delay ∨ maximum ≤ delay) by lia. nia.
    + rewrite wrap64_id by (unfold in_int64, int64_min; lia).
      rewrite IH by lia. f_equal. lia.
Qed.

(** The delay imposed after the n-th failure is zero below the threshold
    and then doubles from [BaseDelay], capped at [MaxDelay] (or at [BaseDelay]
    when no maximum is set); the 64-bit arithmetic of the loop never wraps. *)
Theorem failureDelay_closed_form cfg n :
  in_int64 (BaseDelay cfg) → in_int64 (MaxDelay cfg) →
  failureDelay cfg n =
    if bool_decide (n < FailureThreshold cfg ∨ BaseDelay cfg ≤ 0) then 0
    else Z.min (if bool_decide (MaxDelay cfg ≤ 0) then BaseDelay cfg else MaxDelay cfg)
               (BaseDelay cfg * 2 ^ (n - FailureThreshold cfg)).
Proof.
  intros Hb Hm. unfold failureDelay.
  destruct (bool_decide (n < _) || _) eqn:Hz; to_prop.
  { by rewrite bool_decide_eq_true_2. }
  rewrite (bool_decide_eq_false_2 (n < _ ∨ _)) by lia.
  pose proof (Z.pow_pos_nonneg 2 (n - FailureThreshold cfg) ltac:(lia) ltac:(lia)) as Hp.
  unfold in_int64 in *.
  destruct (bool_decide (MaxDelay cfg ≤ 0)) eqn:Hmx; to_prop;
    (destruct (bool_decide (_ ≤ BaseDelay cfg)) eqn:Hcap; to_prop; [rewrite Z.min_l; [done|nia]|]);
    rewrite delay_loop_spec by lia; by rewrite Z2Nat.id by lia.
Qed.

Definition demo_cfg : LoginThrottleConfig := {|
  FailureThreshold := 2; BaseDelay := Second; MaxDelay := 60 * Second;
  EntryTTL := 15 * Minute; EventWindow := Minute; MaxEntries := 4;
|}.

Lemma failureDelay_closed_form_witness : failureDelay demo_cfg 9 = 60 * Second.
Proof.
  etrans; [apply (failureDelay_closed_form demo_cfg 9); vm_compute; split; congruence|].
  vm_compute. reflexivity.
Defined.

(** ** Guarantees of every execution *)

(** In every interleaving of login attempts the map is within its bound,
    the reservations counted for an identity are exactly the unfinished
    attempts that hold it, and concurrent password checks for one identity
    never exceed what is left of its threshold (one probe once the threshold
    is spent). *)
Theorem login_reservations_exact ToLower sha256_hex parse_unmap p cfg t A :
  reachable ToLower sha256_hex parse_unmap p cfg (t, A) →
  Z.of_nat (size (entries t)) ≤ Z.max 0 (MaxEntries cfg) ∧
  (∀ k, flight (core t) k = holders A k) ∧
  ∀ k e, entries t !! k = Some e →
    0 ≤ failures e ∧ 0 ≤ inFlight e ≤ Z.max 1 (FailureThreshold cfg - failures e).
Proof.
  intros Hr. pose proof (config_reachable _ _ _ _ _ _ Hr) as Hcfg. simpl in Hcfg.
  destruct (SysInv_reachable _ _ _ _ _ _ Hr) as [[Hl Hc Hs] Hf _]. simpl in *. subst cfg.
  rewrite core_size in Hs. split_and!; [done..|].
  intros k e He. specialize (Hc k (core_entry e)). rewrite core_lookup, He in Hc.
  specialize (Hc eq_refl). unfold counts_ok, core_entry in Hc. lia.
Qed.

(** Running out of capacity fails closed: in every reachable state
    [ensureCapacity] leaves the throttle unchanged and merely tests whether the
    new identities fit, so no failure or reservation is ever evicted to make
    room for another identity. *)
Theorem ensureCapacity_never_evicts ToLower sha256_hex parse_unmap p cfg t A required now :
  reachable ToLower sha256_hex parse_unmap p cfg (t, A) →
  ensureCapacity t required now
  = (t, bool_decide (Z.of_nat (size (entries t)) + required ≤ MaxEntries cfg)).
Proof.
  intros Hr. rewrite <- (config_reachable _ _ _ _ _ _ Hr).
  apply ensureCapacity_spec, (SysInv_reachable _ _ _ _ _ _ Hr).
Qed.

(** Two concurrent attempts from one address. *)
Definition demo_id (s : string) : string := s.
Definition demo_parse (s : string) : option string := None.
Definition demo_begin1 :=
  BeginAttempt demo_id demo_id demo_parse (NewLoginThrottle 1 demo_cfg) "10.0.0.1" "root" (100 * Hour).
Definition demo_begin2 :=
  BeginAttempt demo_id demo_id demo_parse demo_begin1.1.1 "10.0.0.1" "admin" (100 * Hour).
Definition demo_t : LoginThrottle := demo_begin2.1.1.
Definition demo_A : gmap positive LoginThrottleAttempt :=
  <[2%positive := demo_begin2.1.2]> (<[1%positive := demo_begin1.1.2]> ∅).

Lemma demo_reachable : reachable demo_id demo_id demo_parse 1 demo_cfg (demo_t, demo_A).
Proof.
  eapply rtc_l; [apply (step_begin _ _ _ _ ∅ 1 "10.0.0.1" "root" (100 * Hour)
    demo_begin1.1.1 demo_begin1.1.2 demo_begin1.2); vm_compute; reflexivity|].
  eapply rtc_l; [apply (step_begin _ _ _ _ _ 2 "10.0.0.1" "admin" (100 * Hour)
    demo_t demo_begin2.1.2 demo_begin2.2); vm_compute; reflexivity|].
  apply rtc_refl.
Qed.

Lemma login_reservations_exact_witness :
  flight (core demo_t) "ip:10.0.0.1" = 2 ∧
  Z.of_nat (size (entries demo_t)) ≤ 4.
Proof.
  pose proof (login_reservations_exact demo_id demo_id demo_parse 1 demo_cfg demo_t
    demo_A demo_reachable) as (Hs & _).
  split; [vm_compute; reflexivity|exact Hs].
Defined.

Lemma ensureCapacity_never_evicts_witness :
  ensureCapacity demo_t 2 (200 * Hour) = (demo_t, false).
Proof.
  etrans; [apply (ensureCapacity_never_evicts demo_id demo_id demo_parse 1 demo_cfg
    demo_t demo_A 2 (200 * Hour) demo_reachable)|].
  vm_compute. reflexivity.
Defined.

(** *** Blocking and clearing *)

Lemma purge_loop_keeps_blocked fuel t now k e :
  entries t !! k = Some e → now < blockedUntil e →
  entries (purge_loop fuel t now) !! k = Some e.
Proof.
  revert t. induction fuel as [|fuel IH]; intros t He Hb; simpl; [done|].
  destruct (oldestEntry t) as [[k' e']|] eqn:E; [|done].
  destruct (_ || _ || _) eqn:Hg; [done|]. to_prop. unfold time_before in *. to_prop.
  apply oldestEntry_Some in E as [Ek _]. apply IH; [|done].
  unfold removeEntry; simpl. rewrite lookup_delete_ne; [done|].
  intros ->. simplify_eq. lia.
Qed.

Lemma purgeExpired_keeps_blocked t now k e :
  entries t !! k = Some e → now < blockedUntil e →
  entries (purgeExpired t now) !! k = Some e.
Proof.
  unfold purgeExpired. case_bool_decide; [done|]. apply purge_loop_keeps_blocked.
Qed.

(** A request that names a blocked identity is refused. *)
Lemma begin_blocked t ks now k f i b :
  Inv t → enabled t = true → k ∈ ks → core t !! k = Some (f, i, b) → now < b →
  let '(t', a, d) := beginWithKeys t ks now in Allowed d = false ∧ active a = false.
Proof.
  intros HI Hen Hk Hc Hb. pose proof (beginWithKeys_spec t ks now HI Hen) as Hs.
  destruct (beginWithKeys t ks now) as [[t' a] d]. destruct Hs as (_ & _ & _ & Hs).
  destruct (forallb _ _) eqn:Hfree; simpl in Hs; [exfalso|by destruct Hs as (? & ? & _)].
  rewrite forallb_forall in Hfree. specialize (Hfree k (proj1 (list_elem_of_In _ _) Hk)).
  rewrite core_lookup in Hc. destruct (entries t !! k) as [e|] eqn:He; [|done].
  simpl in Hc. unfold core_entry in Hc. simplify_eq.
  unfold key_free in Hfree. rewrite core_lookup, (purgeExpired_keeps_blocked t now k e He Hb) in Hfree.
  simpl in Hfree. rewrite bool_decide_eq_true_2 in Hfree by done. done.
Qed.

Lemma failureDelay_nonneg cfg n :
  in_int64 (BaseDelay cfg) → in_int64 (MaxDelay cfg) → 0 ≤ failureDelay cfg n.
Proof.
  intros Hb Hm. unfold failureDelay. destruct (_ || _) eqn:Hz; [done|]. to_prop.
  unfold in_int64 in *.
  pose proof (Z.pow_nonneg 2 (Z.of_nat (Z.to_nat (n - FailureThreshold cfg))) ltac:(lia)).
  destruct (bool_decide (MaxDelay cfg ≤ 0)) eqn:Hmx; to_prop;
    (destruct (bool_decide (_ ≤ BaseDelay cfg)) eqn:Hcap; to_prop; [lia|]);
    rewrite delay_loop_spec by lia; nia.
Qed.

(** Brute force is delayed: once a recorded failure brings an identity to
    its threshold, every further attempt that names the identity before
    [failureDelay] has passed is refused, whatever the other identity of the
    request is and however the map has been purged in between. *)
Theorem recorded_failure_blocks ToLower sha256_hex parse_unmap p cfg t A id a now k f i b
    ip username later :
  reachable ToLower sha256_hex parse_unmap p cfg (t, A) →
  enabled t = true → A !! id = Some a → active a = true → k ∈ keys a →
  core t !! k = Some (f, i, b) →
  k ∈ loginThrottleKeys ToLower sha256_hex parse_unmap ip username →
  later < now + failureDelay cfg (f + 1) →
  0 < failureDelay cfg (f + 1) →
  let t' := (RecordFailure t (Some a) now).1.1 in
  let '(_, a', d) := BeginAttempt ToLower sha256_hex parse_unmap t' ip username later in
  Allowed d = false ∧ active a' = false.
Proof.
  intros Hr Hen Ha Hact Hk Hc Hkey Hlater Hdelay t'.
  pose proof (config_reachable _ _ _ _ _ _ Hr) as Hcfg. simpl in Hcfg. subst cfg.
  pose proof (SysInv_reachable _ _ _ _ _ _ Hr) as HS.
  destruct (Sys_attempts _ HS id a Ha) as [Hnd Hthr]. simpl in Hthr.
  pose proof (holders_active A id a k Ha Hact Hk) as Hpos.
  pose proof (Sys_flight _ HS k) as Hfl. simpl in Hfl. rewrite <- Hfl in Hpos.
  unfold flight in Hpos. rewrite Hc in Hpos.
  assert (SysInv (t', <[id := deactivate a]> A) ∧ enabled t' = true ∧
    core t' = at_keys (abs_fail (config t) now) (keys a) (core t)) as (HS' & Hen' & Hcore).
  { unfold t', RecordFailure. rewrite Hen, Hact, bool_decide_eq_true_2 by done. simpl.
    pose proof (fail_keys_refines now (keys a) t allowedLoginThrottleDecision
      (Inv_lru _ (Sys_inv _ HS))) as (Hc1 & Hl1 & Hf1).
    destruct (foldl _ _ _) as [t1 d1]; simpl in *.
    pose proof (shouldReportEvent_spec t1 now) as (Hc2 & Hl2 & Hf2).
    destruct (shouldReportEvent t1 now) as [t2 rep]; simpl in *.
    split_and!; [|by rewrite (enabled_frame t1), (enabled_frame t)|by rewrite Hc2].
    eapply (SysInv_finish (abs_fail (config t) now)); eauto using abs_fail_ok;
      [by rewrite Hc2|by etrans]. }
  unfold BeginAttempt. eapply (begin_blocked t' _ later k _ _ (now + failureDelay (config t) (f + 1)));
    [apply HS'|done|done| |done].
  rewrite Hcore, at_keys_lookup, decide_True, Hc by done. simpl.
  rewrite bool_decide_eq_false_2, bool_decide_eq_true_2 by lia. done.
Qed.

(** One failure is on record and a second attempt is in flight. *)
Definition demo_failed := RecordFailure demo_t (Some demo_begin1.1.2) (100 * Hour).
Definition demo_t2 : LoginThrottle := demo_failed.1.1.
Definition demo_A2 : gmap positive LoginThrottleAttempt :=
  <[1%positive := deactivate demo_begin1.1.2]> demo_A.

Lemma demo_reachable2 : reachable demo_id demo_id demo_parse 1 demo_cfg (demo_t2, demo_A2).
Proof.
  eapply rtc_r; [apply demo_reachable|].
  apply (step_failure _ _ _ _ _ 1 demo_begin1.1.2 (100 * Hour) demo_t2
    (deactivate demo_begin1.1.2) demo_failed.2); vm_compute; reflexivity.
Qed.

Lemma recorded_failure_blocks_witness :
  let t' := (RecordFailure demo_t2 (Some demo_begin2.1.2) (100 * Hour)).1.1 in
  Allowed (BeginAttempt demo_id demo_id demo_parse t' "10.0.0.1" "guest" (100 * Hour + 999999999)).2
  = false.
Proof.
  intros t'.
  pose proof (recorded_failure_blocks demo_id demo_id demo_parse 1 demo_cfg
    demo_t2 demo_A2 2 demo_begin2.1.2 (100 * Hour) "ip:10.0.0.1" 1 1 0
    "10.0.0.1" "guest" (100 * Hour + 999999999) demo_reachable2) as H.
  assert (∀ l : list string, bool_decide ("ip:10.0.0.1" ∈ l) = true → "ip:10.0.0.1" ∈ l)
    as Hin by (intros l; apply bool_decide_eq_true_1).
  specialize (H ltac:(vm_compute; reflexivity) ltac:(vm_compute; reflexivity)
    ltac:(vm_compute; reflexivity) ltac:(apply Hin; vm_compute; reflexivity)
    ltac:(vm_compute; reflexivity) ltac:(apply Hin; vm_compute; reflexivity)
    ltac:(vm_compute; reflexivity) ltac:(vm_compute; reflexivity)).
  cbv zeta in H. fold t' in H.
  destruct (BeginAttempt _ _ _ t' _ _ _) as [[? ?] ?]. apply H.
Defined.

(** A successful login clears its identities: an identity the attempt
    was the last to hold is forgotten entirely, and one that is also held by
    other attempts keeps those reservations but loses its failures and block;
    other identities are untouched. *)
Theorem success_clears ToLower sha256_hex parse_unmap p cfg t A id a now k :
  reachable ToLower sha256_hex parse_unmap p cfg (t, A) →
  enabled t = true → A !! id = Some a → active a = true →
  let t' := (RecordSuccess t (Some a) now).1 in
  core t' !! k =
    if decide (k ∈ keys a)
    then (if bool_decide (holders A k = 1) then None else Some (0, holders A k - 1, 0))
    else core t !! k.
Proof.
  intros Hr Hen Ha Hact t'. pose proof (SysInv_reachable _ _ _ _ _ _ Hr) as HS.
  destruct (Sys_attempts _ HS id a Ha) as [Hnd Hthr]. simpl in Hthr.
  unfold t', RecordSuccess, finishAttempt.
  rewrite Hen, Hact, (bool_decide_eq_true_2 (throttle a = _)) by done. simpl.
  destruct (finish_keys_refines true now (keys a) t (Inv_lru _ (Sys_inv _ HS))) as (-> & _ & _).
  rewrite at_keys_lookup by done. case_decide as Hk; [|done].
  pose proof (holders_active A id a k Ha Hact Hk) as Hpos.
  pose proof (Sys_flight _ HS k) as Hfl. simpl in Hfl. rewrite <- Hfl in *. unfold flight in *.
  destruct (core t !! k) as [[[f i] b]|]; [|lia]. simpl.
  rewrite (bool_decide_eq_false_2 (i ≤ 0)) by lia.
  repeat case_bool_decide; simpl; try done; lia.
Qed.

Lemma success_clears_witness :
  core (RecordSuccess demo_t2 (Some demo_begin2.1.2) (100 * Hour)).1 !! "ip:10.0.0.1" = None.
Proof.
  etrans; [apply (success_clears demo_id demo_id demo_parse 1 demo_cfg demo_t2
    demo_A2 2 demo_begin2.1.2 (100 * Hour) "ip:10.0.0.1" demo_reachable2);
    vm_compute; reflexivity|].
  vm_compute. reflexivity.
Defined.

End LoginThrottle.
