(* ===== verification/RevealThrottle.v ===== *)
(** * Secret-reveal throttling

    [admin/secret_reveal_throttle.go]: a fixed-window quota on revealing API
    key secrets, charged atomically to three identities (client IP,
    administrator, key).  The map is accompanied by a list of its keys in
    creation order, from whose front expired windows are purged.  As for the
    login throttle, an entry object is identified with its key, and a nil
    throttle behaves as a disabled one. *)

From S2P Require Import Prelude GoStrings LoginThrottle.

Module RevealThrottle.

Record SecretRevealThrottleConfig := {
  Limit : Z;
  Window : Duration;
  MaxEntries : Z;
}.

Record SecretRevealThrottleDecision := {
  Allowed : bool;
  RetryAfter : Duration;
}.

Record secretRevealThrottleEntry := {
  count : Z;
  resetAt : Time;
}.

Record SecretRevealThrottle := {
  config : SecretRevealThrottleConfig;
  entries : gmap string secretRevealThrottleEntry;
  order : list string;
}.

Definition NewSecretRevealThrottle (c : SecretRevealThrottleConfig) : SecretRevealThrottle :=
  {| config := c; entries := ∅; order := [] |}.

Definition set_entries (t : SecretRevealThrottle) (m : gmap string secretRevealThrottleEntry)
  (l : list string) : SecretRevealThrottle :=
  {| config := config t; entries := m; order := l |}.

(** The loop runs down the creation list; each iteration drops its front. *)
Fixpoint purge_loop (now : Time) (l : list string) (m : gmap string secretRevealThrottleEntry)
  : list string * gmap string secretRevealThrottleEntry :=
  match l with
  | [] => ([], m)
  | k :: l' =>
      match m !! k with
      | None => (l, m)
      | Some entry =>
          if time_before now (resetAt entry) then (l, m)
          else purge_loop now l' (delete k m)
      end
  end.

Definition purgeExpired (t : SecretRevealThrottle) (now : Time) : SecretRevealThrottle :=
  let '(l, m) := purge_loop now (order t) (entries t) in set_entries t m l.

(** First loop of [BeginAttempt]: a full identity denies the attempt. *)
Definition check_key (t : SecretRevealThrottle) (now : Time) (d : SecretRevealThrottleDecision)
  (key : string) : SecretRevealThrottleDecision :=
  match entries t !! key with
  | None => d
  | Some entry =>
      if bool_decide (count entry < Limit (config t)) then d
      else
        let remaining := time_sub (resetAt entry) now in
        {| Allowed := false;
           RetryAfter := if bool_decide (RetryAfter d < remaining) then remaining else RetryAfter d |}
  end.

(** Last loop of [BeginAttempt]: charge one identity. *)
Definition charge_key (now : Time) (t : SecretRevealThrottle) (key : string) : SecretRevealThrottle :=
  match entries t !! key with
  | Some entry =>
      set_entries t (<[key := {| count := count entry + 1; resetAt := resetAt entry |}]> (entries t))
        (order t)
  | None =>
      set_entries t (<[key := {| count := 1; resetAt := now + Window (config t) |}]> (entries t))
        (order t ++ [key])
  end.

Definition missing (t : SecretRevealThrottle) (ks : list string) : Z :=
  countZ (fun k => bool_decide (entries t !! k = None)) ks.

Definition beginWithKeys (t : SecretRevealThrottle) (ks : list string) (now : Time)
  : SecretRevealThrottle * SecretRevealThrottleDecision :=
  if bool_decide (Limit (config t) ≤ 0) || bool_decide (Window (config t) ≤ 0) ||
     bool_decide (MaxEntries (config t) ≤ 0)
  then (t, {| Allowed := true; RetryAfter := 0 |})
  else
    let t := purgeExpired t now in
    let decision := foldl (check_key t now) {| Allowed := true; RetryAfter := 0 |} ks in
    if negb (Allowed decision) then (t, decision)
    else if bool_decide (MaxEntries (config t) < Z.of_nat (size (entries t)) + missing t ks)
    then (t, {| Allowed := false; RetryAfter := Window (config t) |})
    else (foldl (charge_key now) t ks, decision).

Section identities.
Context (parse_unmap : string → option string).

Definition secretRevealThrottleKeys (ip : string) (adminID keyID : Z) : list string :=
  let normalized := LoginThrottle.normalizeLoginThrottleIP parse_unmap ip in
  (if str_eq normalized "" then [] else ["ip:" +:+ normalized]) ++
  ["admin:" +:+ FormatInt adminID; "key:" +:+ FormatInt keyID].

Definition BeginAttempt (t : SecretRevealThrottle) (ip : string) (adminID keyID : Z) (now : Time)
  : SecretRevealThrottle * SecretRevealThrottleDecision :=
  beginWithKeys t (secretRevealThrottleKeys ip adminID keyID) now.

Lemma secretRevealThrottleKeys_nodup ip adminID keyID :
  NoDup (secretRevealThrottleKeys ip adminID keyID).
Proof.
  unfold secretRevealThrottleKeys. destruct (str_eq _ _); simpl;
    repeat (apply NoDup_cons; split); try apply NoDup_nil_2;
    repeat rewrite ?elem_of_cons, ?elem_of_nil; intuition discriminate.
Qed.
End identities.

(** ** The abstract quota

    What the throttle promises, without the list and without expired entries:
    a finite map of the identities whose window is still open. *)

Definition live (now : Time) (m : gmap string secretRevealThrottleEntry)
  : gmap string secretRevealThrottleEntry :=
  filter (fun kv => now < resetAt kv.2) m.

Definition has_room (cfg : SecretRevealThrottleConfig)
  (m : gmap string secretRevealThrottleEntry) (k : string) : bool :=
  match m !! k with
  | None => true
  | Some e => bool_decide (count e < Limit cfg)
  end.

Definition charge (cfg : SecretRevealThrottleConfig) (now : Time)
  (e : option secretRevealThrottleEntry) : option secretRevealThrottleEntry :=
  match e with
  | Some e => Some {| count := count e + 1; resetAt := resetAt e |}
  | None => Some {| count := 1; resetAt := now + Window cfg |}
  end.

(** Grant and charge all identities, or change nothing. *)
Definition spec_attempt (cfg : SecretRevealThrottleConfig) (ks : list string) (now : Time)
  (m : gmap string secretRevealThrottleEntry)
  : gmap string secretRevealThrottleEntry * bool :=
  let m := live now m in
  if forallb (has_room cfg m) ks &&
     bool_decide (Z.of_nat (size m) + countZ (fun k => bool_decide (m !! k = None)) ks
                  ≤ MaxEntries cfg)
  then (foldl (fun m k => partial_alter (charge cfg now) k m) m ks, true)
  else (m, false).

(** The creation list enumerates the map, by non-decreasing expiry. *)
Record listed (l : list string) (m : gmap string secretRevealThrottleEntry) : Prop := {
  listed_nodup : NoDup l;
  listed_dom k : k ∈ l ↔ is_Some (m !! k);
  listed_sorted : StronglySorted
    (fun k1 k2 => ∀ e1 e2, m !! k1 = Some e1 → m !! k2 = Some e2 → resetAt e1 ≤ resetAt e2) l;
}.

(** The windows opened up to time [now] end by [now + Window], the counts are
    within the limit and the map within its bound. *)
Record Inv (t : SecretRevealThrottle) (now : Time) : Prop := {
  Inv_listed : listed (order t) (entries t);
  Inv_expiry k e : entries t !! k = Some e → resetAt e ≤ now + Window (config t);
  Inv_count k e : entries t !! k = Some e → 1 ≤ count e ≤ Limit (config t);
  Inv_size : Z.of_nat (size (entries t)) ≤ Z.max 0 (MaxEntries (config t));
}.

Lemma live_all now m :
  (∀ k e, m !! k = Some e → now < resetAt e) → live now m = m.
Proof. intros H. apply map_filter_id. intros k e He. by apply (H k). Qed.

Lemma live_delete_expired now m k e :
  m !! k = Some e → resetAt e ≤ now → live now (delete k m) = live now m.
Proof.
  intros He Hexp. unfold live. rewrite map_filter_delete. apply delete_id.
  apply map_lookup_filter_None. right. intros e' He' Hlt. simpl in Hlt. simplify_eq. lia.
Qed.

Lemma listed_tail k l m : listed (k :: l) m → listed l (delete k m).
Proof.
  intros [Hnd Hdom Hs]. apply NoDup_cons in Hnd as [Hk Hnd].
  apply StronglySorted_inv in Hs as [Hs _]. split; [done| |].
  - intros k'. rewrite lookup_delete. case_decide as Hkk.
    + subst k'. split; [done|by intros [? ?]].
    + rewrite <- Hdom, elem_of_cons. naive_solver.
  - clear Hdom Hk Hnd. induction Hs as [|k1 l Hs IH Hf]; constructor.
    + apply IH.
    + eapply Forall_impl; [exact Hf|]. intros k2 H12 e1 e2 He1 He2.
      apply lookup_delete_Some in He1 as [_ He1]. apply lookup_delete_Some in He2 as [_ He2].
      by apply H12.
Qed.

(** Purging from the front removes exactly the expired windows. *)
Lemma purge_loop_live now l m :
  listed l m → ∃ l', purge_loop now l m = (l', live now m) ∧ listed l' (live now m).
Proof.
  revert m. induction l as [|k l IH]; intros m Hl; simpl.
  - assert (m = ∅) as ->.
    { apply map_empty. intros k. apply eq_None_not_Some. rewrite <- (listed_dom _ _ Hl).
      apply not_elem_of_nil. }
    exists []. rewrite live_all by done. done.
  - destruct (proj1 (listed_dom _ _ Hl k)) as [e He]; [constructor|]. rewrite He.
    unfold time_before. case_bool_decide as Hlt.
    + exists (k :: l). rewrite live_all; [done|]. intros k' e' He'.
      assert (k' ∈ k :: l) as Hin by (apply (listed_dom _ _ Hl); eauto).
      apply elem_of_cons in Hin as [->|Hin]; [naive_solver|].
      pose proof (listed_sorted _ _ Hl) as Hs. apply StronglySorted_inv in Hs as [_ Hs].
      rewrite Forall_forall in Hs. specialize (Hs k' Hin e e' He He'). lia.
    + destruct (IH (delete k m) (listed_tail _ _ _ Hl)) as (l' & Hp & Hl').
      rewrite (live_delete_expired now m k e) in Hp, Hl' by (done || lia). eauto.
Qed.

Lemma purgeExpired_live t now :
  listed (order t) (entries t) →
  entries (purgeExpired t now) = live now (entries t) ∧
  config (purgeExpired t now) = config t ∧
  listed (order (purgeExpired t now)) (live now (entries t)).
Proof.
  intros Hl. unfold purgeExpired.
  destruct (purge_loop_live now _ _ Hl) as (l' & -> & Hl'). done.
Qed.

Lemma Inv_purge t now now' : Inv t now → now ≤ now' → Inv (purgeExpired t now') now'.
Proof.
  intros [Hl He Hc Hs] Hle. destruct (purgeExpired_live t now' Hl) as (Hm & Hcfg & Hl').
  split; rewrite ?Hm, ?Hcfg; [done|..].
  - intros k e [Hk _]%map_lookup_filter_Some. specialize (He k e Hk). lia.
  - intros k e [Hk _]%map_lookup_filter_Some. eauto.
  - etrans; [|exact Hs]. apply Nat2Z.inj_le. unfold live.
    rewrite <- !size_dom. apply subseteq_size. intros k.
    rewrite !elem_of_dom. intros [e [? _]%map_lookup_filter_Some]. eauto.
Qed.

(** *** The loops of [BeginAttempt] *)

Lemma check_keys_allowed t now ks d :
  Allowed (foldl (check_key t now) d ks)
  = Allowed d && forallb (has_room (config t) (entries t)) ks.
Proof.
  revert d. induction ks as [|k ks IH]; intros d; simpl; [by rewrite andb_true_r|].
  rewrite IH. unfold check_key, has_room. destruct (entries t !! k) as [e|]; [|done].
  case_bool_decide; simpl; [done|]. by rewrite andb_false_r.
Qed.

(** A denial asks to wait for some positive time within one window. *)
Lemma check_keys_retry t now ks d :
  (∀ k e, entries t !! k = Some e → now < resetAt e ≤ now + Window (config t)) →
  (Allowed d = false → 0 < RetryAfter d) → RetryAfter d ≤ Window (config t) →
  let d' := foldl (check_key t now) d ks in
  (Allowed d' = false → 0 < RetryAfter d') ∧ RetryAfter d' ≤ Window (config t).
Proof.
  intros He. revert d. induction ks as [|k ks IH]; intros d Hd Hw; simpl; [done|].
  apply IH; unfold check_key; destruct (entries t !! k) as [e|] eqn:E; try done;
    case_bool_decide; try done; simpl; specialize (He k e E);
    pose proof (time_sub_pos (resetAt e) now); pose proof (time_sub_le (resetAt e) now);
    case_bool_decide; lia.
Qed.

Lemma charge_key_entries now t k :
  entries (charge_key now t k) = partial_alter (charge (config t) now) k (entries t) ∧
  config (charge_key now t k) = config t.
Proof.
  unfold charge_key. destruct (entries t !! k) as [e|] eqn:E; (split; [|done]); simpl;
    symmetry; apply partial_alter_to_insert; by rewrite E.
Qed.

Lemma listed_snoc l m k e :
  listed l m → m !! k = None → (∀ k' e', m !! k' = Some e' → resetAt e' ≤ resetAt e) →
  listed (l ++ [k]) (<[k := e]> m).
Proof.
  intros [Hnd Hdom Hs] Hk He.
  assert (k ∉ l) as Hkl by (rewrite Hdom, Hk; by intros [? ?]). split.
  - apply NoDup_app. split_and!; [done| |apply NoDup_singleton].
    intros x Hx. rewrite list_elem_of_singleton. by intros ->.
  - intros x. rewrite elem_of_app, list_elem_of_singleton, Hdom, lookup_insert.
    case_decide as Hx; [subst x; naive_solver|naive_solver].
  - apply StronglySorted_app_2.
    + intros k1 k2 Hk1 ->%list_elem_of_singleton e1 e2 He1 He2.
      rewrite lookup_insert_eq in He2. simplify_eq.
      rewrite lookup_insert_ne in He1 by (intros ->; done). eauto.
    + clear Hdom Hnd. induction Hs as [|k1 l Hs IH Hf]; constructor;
        apply not_elem_of_cons in Hkl as [Hk1 Hkl]; [by apply IH|].
      rewrite Forall_forall in Hf |- *. intros k2 Hk2 e1 e2 He1 He2.
      rewrite lookup_insert_ne in He1 by done.
      rewrite lookup_insert_ne in He2 by (intros ->; done). by apply (Hf k2).
    + repeat constructor.
Qed.

Lemma listed_update l m k e e' :
  listed l m → m !! k = Some e → resetAt e' = resetAt e → listed l (<[k := e']> m).
Proof.
  intros [Hnd Hdom Hs] Hk He. split; [done| |].
  - intros x. rewrite Hdom, lookup_insert. case_decide as Hx; [subst x; naive_solver|done].
  - clear Hdom Hnd. induction Hs as [|k1 l Hs IH Hf]; constructor; [done|].
    eapply Forall_impl; [exact Hf|]. intros k2 H12 e1 e2 He1 He2.
    destruct (decide (k1 = k)) as [->|Hk1], (decide (k2 = k)) as [->|Hk2];
      rewrite ?lookup_insert_eq in He1; rewrite ?lookup_insert_eq in He2;
      rewrite ?lookup_insert_ne in He1 by done; rewrite ?lookup_insert_ne in He2 by done;
      simplify_eq; rewrite ?He; eauto; lia.
Qed.

Lemma charge_keys_spec now ks t :
  listed (order t) (entries t) → 0 < Window (config t) →
  (∀ k e, entries t !! k = Some e → resetAt e ≤ now + Window (config t)) →
  let t' := foldl (charge_key now) t ks in
  entries t' = foldl (fun m k => partial_alter (charge (config t) now) k m) (entries t) ks ∧
  config t' = config t ∧ listed (order t') (entries t') ∧
  (∀ k e, entries t' !! k = Some e → resetAt e ≤ now + Window (config t)).
Proof.
  revert t. induction ks as [|k ks IH]; intros t Hl Hw He; simpl; [done|].
  destruct (charge_key_entries now t k) as [Hm Hc].
  destruct (IH (charge_key now t k)) as (Hm' & Hc' & Hl' & He'); rewrite ?Hc in *; auto.
  - unfold charge_key. destruct (entries t !! k) as [e|] eqn:E; simpl.
    + by eapply listed_update.
    + apply listed_snoc; auto.
  - intros k' e'. rewrite Hm. destruct (decide (k = k')) as [<-|].
    + rewrite lookup_partial_alter_eq. destruct (entries t !! k) as [e|] eqn:E; simpl;
        intros [= <-]; simpl; [eauto|lia].
    + rewrite lookup_partial_alter_ne by done. eauto.
  - split_and!; auto. by rewrite Hm', Hm.
Qed.

Definition configured (cfg : SecretRevealThrottleConfig) : Prop :=
  0 < Limit cfg ∧ 0 < Window cfg ∧ 0 < MaxEntries cfg.

(** One call, against the abstract quota. *)
Lemma beginWithKeys_refines t ks last now :
  Inv t last → last ≤ now → configured (config t) → NoDup ks →
  let '(t', d) := beginWithKeys t ks now in
  spec_attempt (config t) ks now (entries t) = (entries t', Allowed d) ∧
  config t' = config t ∧ Inv t' now ∧
  (Allowed d = false → 0 < RetryAfter d ≤ Window (config t)).
Proof.
  intros HI Hle (Hlim & Hwin & Hmax) Hnd. unfold beginWithKeys.
  rewrite !bool_decide_eq_false_2 by lia. simpl.
  pose proof (Inv_purge t last now HI Hle) as HIp.
  destruct (purgeExpired_live t now (Inv_listed _ _ HI)) as (Hm & Hcfg & Hl).
  pose proof (check_keys_allowed (purgeExpired t now) now ks {| Allowed := true; RetryAfter := 0 |})
    as Hck. rewrite Hm, Hcfg in Hck. simpl in Hck.
  assert (∀ k e, entries (purgeExpired t now) !! k = Some e →
    now < resetAt e ≤ now + Window (config (purgeExpired t now))) as Hbnd.
  { intros k e Hk. split; [|by apply (Inv_expiry _ _ HIp k)]. rewrite Hm in Hk.
    by apply map_lookup_filter_Some in Hk as [_ ?]. }
  destruct (check_keys_retry (purgeExpired t now) now ks {| Allowed := true; RetryAfter := 0 |}
    Hbnd ltac:(done) ltac:(simpl; rewrite Hcfg; lia)) as [Hr1 Hr2]. rewrite Hcfg in Hr2.
  unfold spec_attempt. rewrite <- Hck. unfold missing. rewrite Hm, Hcfg.
  destruct (Allowed _) eqn:Hall; simpl.
  2: { split_and!; auto; congruence. }
  destruct (bool_decide (MaxEntries _ < _)) eqn:Hfit; to_prop.
  - rewrite bool_decide_eq_false_2 by lia. simpl. split_and!; auto; [congruence|lia].
  - rewrite bool_decide_eq_true_2 by lia.
    destruct (charge_keys_spec now ks (purgeExpired t now)) as (Hm' & Hc' & Hl' & He');
      [apply HIp|congruence|apply HIp|].
    rewrite Hm, Hcfg in Hm'. split_and!; [by rewrite Hm', Hall|congruence| |congruence].
    split; [done|rewrite Hc'; done|..].
    + rewrite Hc', Hm', Hcfg. intros k e. rewrite lookup_foldl_partial_alter by done.
      rewrite <- Hm, <- Hcfg. case_decide as Hk; [|apply (Inv_count _ _ HIp)].
      rewrite Hcfg. symmetry in Hck. rewrite forallb_forall in Hck.
      specialize (Hck k (proj1 (list_elem_of_In _ _) Hk)). unfold has_room in Hck.
      rewrite Hm in *. pose proof (Inv_count _ _ HIp k) as Hc. rewrite Hm, Hcfg in Hc.
      destruct (live now (entries t) !! k) as [e0|]; simpl; intros [= <-]; simpl; [|lia].
      specialize (Hc _ eq_refl). to_prop. lia.
    + rewrite Hm', Hc', Hcfg, size_foldl_partial_alter; [lia| |done].
      intros [e|]; simpl; eauto.
Qed.

(** ** Executions *)

Record attempt := { at_ip : string; at_admin : Z; at_key : Z; at_now : Time }.

Section executions.
Context (parse_unmap : string → option string).

Fixpoint run (t : SecretRevealThrottle) (l : list attempt) : list bool :=
  match l with
  | [] => []
  | a :: l =>
      let '(t', d) := BeginAttempt parse_unmap t (at_ip a) (at_admin a) (at_key a) (at_now a) in
      Allowed d :: run t' l
  end.

Fixpoint spec_run (cfg : SecretRevealThrottleConfig)
  (m : gmap string secretRevealThrottleEntry) (l : list attempt) : list bool :=
  match l with
  | [] => []
  | a :: l =>
      let ks := secretRevealThrottleKeys parse_unmap (at_ip a) (at_admin a) (at_key a) in
      let '(m', ok) := spec_attempt cfg ks (at_now a) m in
      ok :: spec_run cfg m' l
  end.

Lemma run_refines t last l :
  Inv t last → configured (config t) →
  StronglySorted (fun a b => at_now a ≤ at_now b) l →
  (∀ a, a ∈ l → last ≤ at_now a) →
  run t l = spec_run (config t) (entries t) l.
Proof.
  revert t last. induction l as [|a l IH]; intros t last HI Hcfg Hs Hlast; simpl; [done|].
  apply StronglySorted_inv in Hs as [Hs Hhd]. rewrite Forall_forall in Hhd.
  pose proof (beginWithKeys_refines t
    (secretRevealThrottleKeys parse_unmap (at_ip a) (at_admin a) (at_key a)) last (at_now a) HI
    (Hlast a ltac:(constructor)) Hcfg (secretRevealThrottleKeys_nodup _ _ _ _)) as Hb.
  unfold BeginAttempt. destruct (beginWithKeys _ _ _) as [t' d].
  destruct Hb as (-> & Hc & HI' & _). f_equal. rewrite <- Hc.
  apply (IH t' (at_now a)); auto. by rewrite Hc.
Qed.
End executions.

Lemma Inv_new cfg now : Inv (NewSecretRevealThrottle cfg) now.
Proof.
  split; simpl; [|done|done|rewrite map_size_empty; lia].
  split; [apply NoDup_nil_2| |constructor].
  intros k. rewrite lookup_empty. split; [by intros ?%elem_of_nil|by intros [? ?]].
Qed.

(** The reveal throttle implements its quota: on any sequence of
    attempts with non-decreasing clock readings it grants exactly the attempts
    the specification grants, which keeps open windows only, charges all
    identities of an attempt or none, and refuses when an identity has spent
    its limit or the map is full.  Purging from the front of the creation list
    therefore loses no live window and keeps no expired one. *)
Theorem reveal_throttle_refines parse_unmap cfg l :
  configured cfg →
  StronglySorted (fun a b => at_now a ≤ at_now b) l →
  run parse_unmap (NewSecretRevealThrottle cfg) l = spec_run parse_unmap cfg ∅ l.
Proof.
  intros Hcfg Hs. destruct l as [|a l]; [done|].
  apply (run_refines parse_unmap (NewSecretRevealThrottle cfg) (at_now a));
    [apply Inv_new|done|done|].
  apply StronglySorted_inv in Hs as [_ Hhd]. rewrite Forall_forall in Hhd.
  intros b [->|Hb]%elem_of_cons; [lia|by apply Hhd].
Qed.

Definition demo_attempts : list attempt :=
  (fun s => {| at_ip := "10.0.0.1"; at_admin := 1; at_key := 9; at_now := 100 * Hour + s * Second |})
    <$> [0; 1; 2; 61].

Lemma reveal_throttle_refines_witness :
  run (fun _ => None)
    (NewSecretRevealThrottle {| Limit := 2; Window := Minute; MaxEntries := 16 |}) demo_attempts
  = [true; true; false; true].
Proof.
  etrans; [apply (reveal_throttle_refines (fun _ => None)
    {| Limit := 2; Window := Minute; MaxEntries := 16 |} demo_attempts)|].
  - vm_compute. auto.
  - unfold demo_attempts; simpl. repeat constructor; simpl; unfold Second; lia.
  - vm_compute. reflexivity.
Defined.

End RevealThrottle.
