(* ===== verification/Ledger.v ===== *)
(** * The API key budget ledger

    [store/api_key_budget_ledger.go] with the part of [store/admin.go] that
    creates, re-budgets and deletes client keys.  The database is a record of
    tables; a SQL statement is a function on it, the [CHECK] and [UNIQUE]
    constraints of migration 00049 included, and a transaction is a function
    that either returns a value with the committed database or an error with
    the database rolled back.  Row locks serialise the transactions, so an
    execution is a sequence of them; the rows that [SKIP LOCKED] passes over
    are an argument ([locked]) of the maintenance transactions.

    Timestamps are stored by PostgreSQL with microsecond precision, and
    intervals of days are multiples of 24 hours (the session is in UTC). *)

From S2P Require Import Prelude GoStrings.

Module Ledger.

Inductive ledger_error :=
| ErrInvalidInput
| ErrNotFound
| ErrBudgetInitializing
| ErrAPIKeyRequestBudgetExceeded
| ErrAPIKeyTokenBudgetExceeded
| ErrAPIKeyCostBudgetExceeded
| ErrNoObservationTime
| ErrDatabase.

(** ** Tables *)

Record apiKeyBudgetLimits := {
  Request24h : Z; Token24h : Z; Cost24h : Z;
  Request30d : Z; Token30d : Z; Cost30d : Z
}.

(** The columns of [client_api_keys] the ledger reads. *)
Record client_key := {
  limits : apiKeyBudgetLimits;
  revoked_at : option Time;
  disabled_at : option Time
}.

Inductive init_status := Pending | Ready.

(** The six counter columns of [api_key_budget_states]. *)
Record usage := {
  requests_used_24h : Z; requests_used_30d : Z;
  observed_tokens_used_24h : Z; observed_tokens_used_30d : Z;
  observed_cost_microusd_used_24h : Z; observed_cost_microusd_used_30d : Z
}.

(** The columns of a state row that drive the backfill. *)
Record init_columns := {
  initialization_status : init_status;
  initialization_window_start : option Time;
  initialization_window_end : option Time;
  initialization_cursor : option (Time * Z);
  initialization_attempts : Z;
  initialized_at : option Time
}.

Record budget_state := {
  init : init_columns;
  used : usage;
  last_maintenance_at : option Time;
  version : Z;
  updated_at : Time
}.

Inductive source := Live | Legacy.
Inductive admission_status := StatusAdmitted | SettlementPending | Settled | Abandoned.
Inductive settlement_outcome := OutcomePending | Observed | Missing | OutcomeAbandoned.

#[global] Instance init_status_eq_dec : EqDecision init_status.
Proof. solve_decision. Defined.
#[global] Instance source_eq_dec : EqDecision source.
Proof. solve_decision. Defined.
#[global] Instance admission_status_eq_dec : EqDecision admission_status.
Proof. solve_decision. Defined.
#[global] Instance settlement_outcome_eq_dec : EqDecision settlement_outcome.
Proof. solve_decision. Defined.

Record admission := {
  id : Z;
  admission_id : string;
  client_key_id : Z;
  src : source;
  status : admission_status;
  outcome : settlement_outcome;
  usage_known : bool;
  observed_tokens : Z;
  observed_cost_microusd : Z;
  admitted_at : Time;
  settled_at : option Time;
  request_24h_expires_at : Time;
  request_30d_expires_at : Time;
  request_24h_expired : bool;
  request_30d_expired : bool;
  row_updated_at : Time
}.

(** The columns of [request_logs] the backfill reads. *)
Record request_log := {
  log_id : Z;
  log_client_key_id : option Z;
  log_created_at : Time;
  total_tokens : Z;
  estimated_cost_microusd : Z;
  usage_source : string;
  budget_backfill_eligible : bool
}.

Record db := {
  keys : gmap Z client_key;
  states : gmap Z budget_state;
  admissions : list admission;
  next_id : Z;
  logs : list request_log
}.

Definition set_keys (d : db) (m : gmap Z client_key) : db :=
  {| keys := m; states := states d; admissions := admissions d; next_id := next_id d; logs := logs d |}.
Definition set_states (d : db) (m : gmap Z budget_state) : db :=
  {| keys := keys d; states := m; admissions := admissions d; next_id := next_id d; logs := logs d |}.
Definition set_admissions (d : db) (l : list admission) : db :=
  {| keys := keys d; states := states d; admissions := l; next_id := next_id d; logs := logs d |}.

(** A timestamp as PostgreSQL stores it. *)
Definition pg_time (t : Time) : Time := time_truncate t Microsecond.

Definition hours24 : Duration := 24 * Hour.
Definition days30 : Duration := 30 * 24 * Hour.

(** ** Constraints of the tables *)

Definition bigint_nonneg (z : Z) : bool := bool_decide (0 ≤ z ≤ int64_max).
Definition is_some {A} (o : option A) : bool := match o with Some _ => true | None => false end.

Definition usage_ok (u : usage) : bool :=
  bigint_nonneg (requests_used_24h u) && bigint_nonneg (requests_used_30d u) &&
  bigint_nonneg (observed_tokens_used_24h u) && bigint_nonneg (observed_tokens_used_30d u) &&
  bigint_nonneg (observed_cost_microusd_used_24h u) && bigint_nonneg (observed_cost_microusd_used_30d u).

Definition init_ok (i : init_columns) : bool :=
  bool_decide (0 ≤ initialization_attempts i ≤ 2 ^ 31 - 1) &&
  match initialization_cursor i with Some (_, l) => bool_decide (0 < l) | None => true end &&
  match initialization_status i with
  | Pending =>
      match initialization_window_start i, initialization_window_end i with
      | Some s, Some e => bool_decide (s ≤ e)
      | _, _ => false
      end
  | Ready => is_some (initialized_at i)
  end.

Definition state_row_ok (s : budget_state) : bool :=
  usage_ok (used s) && init_ok (init s) && bool_decide (0 < version s ≤ int64_max).

Definition admission_row_ok (a : admission) : bool :=
  bool_decide (1 ≤ go_len (admission_id a) ≤ 128) &&
  bigint_nonneg (observed_tokens a) && bigint_nonneg (observed_cost_microusd a) &&
  bool_decide (request_24h_expires_at a = admitted_at a + hours24) &&
  bool_decide (request_30d_expires_at a = admitted_at a + days30) &&
  let unobserved := negb (usage_known a) && bool_decide (observed_tokens a = 0) &&
                    bool_decide (observed_cost_microusd a = 0) in
  match status a, outcome a, settled_at a with
  | StatusAdmitted, OutcomePending, None => unobserved
  | SettlementPending, Observed, Some _ | Settled, Observed, Some _ => usage_known a
  | SettlementPending, Missing, Some _ | Settled, Missing, Some _ => unobserved
  | Abandoned, OutcomeAbandoned, Some _ => unobserved
  | _, _, _ => false
  end.

(** ** Statements *)

(** [UPDATE api_key_budget_states SET .. WHERE client_key_id = k] *)
Definition update_state (k : Z) (f : budget_state → budget_state) (d : db)
  : result ledger_error db :=
  match states d !! k with
  | None => Ok d
  | Some s =>
      if state_row_ok (f s) then Ok (set_states d (<[k := f s]> (states d)))
      else Err ErrDatabase
  end.

(** [UPDATE api_key_budget_admissions SET .. WHERE p] *)
Definition update_rows (p : admission → bool) (f : admission → admission) (l : list admission)
  : list admission :=
  map (fun a => if p a then f a else a) l.

Definition update_admissions (p : admission → bool) (f : admission → admission) (d : db)
  : result ledger_error db :=
  if forallb (fun a => negb (p a) || admission_row_ok (f a)) (admissions d)
  then Ok (set_admissions d (update_rows p f (admissions d)))
  else Err ErrDatabase.

Definition has_admission (aid : string) (d : db) : bool :=
  existsb (fun a => str_eq (admission_id a) aid) (admissions d).

(** [INSERT INTO api_key_budget_admissions ..]: the row gets the next id. *)
Definition insert_admission (row : Z → admission) (d : db) : result ledger_error db :=
  let a := row (next_id d) in
  if negb (has_admission (admission_id a) d) && admission_row_ok a
  then Ok {| keys := keys d; states := states d; admissions := admissions d ++ [a];
             next_id := next_id d + 1; logs := logs d |}
  else Err ErrDatabase.

Definition select_admission (aid : string) (d : db) : option admission :=
  List.find (fun a => str_eq (admission_id a) aid) (admissions d).

(** [.. ORDER BY c ASC, id ASC] on a timestamp column; the second relation
    orders the expiry times, where [None] is ['infinity']. *)
Definition row_le {A} (c : A → Time) (i : A → Z) (a b : A) : Prop :=
  c a < c b ∨ (c a = c b ∧ i a ≤ i b).

#[global] Instance row_le_dec {A} (c : A → Time) (i : A → Z) : RelDecision (row_le c i).
Proof. intros a b. unfold row_le. apply _. Defined.

Definition inf_lt (x y : option Time) : Prop :=
  match x, y with
  | Some a, Some b => a < b
  | Some _, None => True
  | None, _ => False
  end.

#[global] Instance inf_lt_dec : RelDecision inf_lt.
Proof. intros [a|] [b|]; unfold inf_lt; apply _. Defined.

(** ** Values passed to and returned from the operations *)

Record APIKeyBudgetAdmission := { ID : string; KeyID : Z; AdmittedAt : Time }.

Record APIKeyBudgetSettlementRequest := {
  AdmissionID : string; ObservedTokens : Z; ObservedCostMicrousd : Z;
  UsageKnown : bool; SettledAt : Time
}.

Record APIKeyBudgetSettlement := {
  S_AdmissionID : string; AlreadySettled : bool; Outcome : settlement_outcome;
  S_ObservedTokens : Z; S_ObservedCostMicrousd : Z
}.

Record APIKeyBudgetExpiryCycleResult := {
  E_Processed : Z; Expired24h : Z; Expired30d : Z; E_LastMaintenanceAt : option Time
}.

Record APIKeyBudgetInitializationCycleResult := {
  I_ClientKeyID : Z; I_Processed : Z; I_Ready : bool; I_HasPending : bool
}.

(** A transaction, and what the caller sees of it. *)
Abbreviation txn A := (result ledger_error (A * db)).

Definition run {A} (t : db → txn A) (d : db) : result ledger_error A * db :=
  match t d with
  | Ok (a, d') => (Ok a, d')
  | Err e => (Err e, d)
  end.

(** ** Guards *)

Definition validLiveBudgetAdmissionID (value : string) : bool :=
  bool_decide (go_len value = 32) && ascii_lower_fixed value && hex_decodes value.

Definition budgetLimitsDisabled (l : apiKeyBudgetLimits) : bool :=
  bool_decide (Request24h l ≤ 0) && bool_decide (Token24h l ≤ 0) && bool_decide (Cost24h l ≤ 0) &&
  bool_decide (Request30d l ≤ 0) && bool_decide (Token30d l ≤ 0) && bool_decide (Cost30d l ≤ 0).

Definition budgetLimitReached (limit used : Z) : bool :=
  bool_decide (0 < limit) && bool_decide (limit ≤ used).

Definition maxAPIKeyBudgetLedgerBatchSize : Z := 1000.

Definition validAPIKeyBudgetBatchSize (batchSize : Z) : bool :=
  bool_decide (0 < batchSize) && bool_decide (batchSize ≤ maxAPIKeyBudgetLedgerBatchSize).

(** ** Counter arithmetic of the UPDATE statements *)

Definition add_usage (u v : usage) : usage :=
  {| requests_used_24h := requests_used_24h u + requests_used_24h v;
     requests_used_30d := requests_used_30d u + requests_used_30d v;
     observed_tokens_used_24h := observed_tokens_used_24h u + observed_tokens_used_24h v;
     observed_tokens_used_30d := observed_tokens_used_30d u + observed_tokens_used_30d v;
     observed_cost_microusd_used_24h := observed_cost_microusd_used_24h u + observed_cost_microusd_used_24h v;
     observed_cost_microusd_used_30d := observed_cost_microusd_used_30d u + observed_cost_microusd_used_30d v |}.

(** [GREATEST(0, column - value)] on each counter. *)
Definition sub_usage (u v : usage) : usage :=
  {| requests_used_24h := Z.max 0 (requests_used_24h u - requests_used_24h v);
     requests_used_30d := Z.max 0 (requests_used_30d u - requests_used_30d v);
     observed_tokens_used_24h := Z.max 0 (observed_tokens_used_24h u - observed_tokens_used_24h v);
     observed_tokens_used_30d := Z.max 0 (observed_tokens_used_30d u - observed_tokens_used_30d v);
     observed_cost_microusd_used_24h :=
       Z.max 0 (observed_cost_microusd_used_24h u - observed_cost_microusd_used_24h v);
     observed_cost_microusd_used_30d :=
       Z.max 0 (observed_cost_microusd_used_30d u - observed_cost_microusd_used_30d v) |}.

Definition zero_usage : usage := Build_usage 0 0 0 0 0 0.

(** ** Admission *)

Definition live_row (dbnow : Time) (admissionID : string) (keyID : Z) (admittedAt : Time) (i : Z)
  : admission :=
  {| id := i; admission_id := admissionID; client_key_id := keyID; src := Live;
     status := StatusAdmitted; outcome := OutcomePending; usage_known := false;
     observed_tokens := 0; observed_cost_microusd := 0;
     admitted_at := pg_time admittedAt; settled_at := None;
     request_24h_expires_at := pg_time admittedAt + hours24;
     request_30d_expires_at := pg_time admittedAt + days30;
     request_24h_expired := false; request_30d_expired := false;
     row_updated_at := dbnow |}.

(** The key row of an active key. *)
Definition active_key (keyID : Z) (d : db) : option client_key :=
  match keys d !! keyID with
  | Some k => if is_some (revoked_at k) || is_some (disabled_at k) then None else Some k
  | None => None
  end.

Definition AdmitAPIKeyBudget (dbnow : Time) (keyID : Z) (admissionID : string) (admittedAt : Time)
    (d : db) : txn APIKeyBudgetAdmission :=
  if bool_decide (keyID < 1) || time_is_zero admittedAt || negb (validLiveBudgetAdmissionID admissionID)
  then Err ErrInvalidInput
  else match active_key keyID d with
  | None => Err ErrNotFound
  | Some key =>
  match states d !! keyID with
  | None => Err ErrNotFound
  | Some s =>
  match List.find (fun a => str_eq (admission_id a) admissionID && bool_decide (src a = Live))
          (admissions d) with
  | Some existing =>
      if bool_decide (client_key_id existing ≠ keyID) then Err ErrInvalidInput
      else Ok ({| ID := admissionID; KeyID := keyID; AdmittedAt := admitted_at existing |}, d)
  | None =>
      let l := limits key in
      if negb (budgetLimitsDisabled l) && bool_decide (initialization_status (init s) ≠ Ready)
      then Err ErrBudgetInitializing
      else if budgetLimitReached (Request24h l) (requests_used_24h (used s)) ||
              budgetLimitReached (Request30d l) (requests_used_30d (used s))
      then Err ErrAPIKeyRequestBudgetExceeded
      else if budgetLimitReached (Token24h l) (observed_tokens_used_24h (used s)) ||
              budgetLimitReached (Token30d l) (observed_tokens_used_30d (used s))
      then Err ErrAPIKeyTokenBudgetExceeded
      else if budgetLimitReached (Cost24h l) (observed_cost_microusd_used_24h (used s)) ||
              budgetLimitReached (Cost30d l) (observed_cost_microusd_used_30d (used s))
      then Err ErrAPIKeyCostBudgetExceeded
      else
        let? d1 := insert_admission (live_row dbnow admissionID keyID admittedAt) d in
        let? d2 := update_state keyID (fun s =>
          {| init := init s; used := add_usage (used s) (Build_usage 1 1 0 0 0 0);
             last_maintenance_at := last_maintenance_at s; version := version s + 1;
             updated_at := pg_time admittedAt |}) d1 in
        Ok ({| ID := admissionID; KeyID := keyID; AdmittedAt := admittedAt |}, d2)
  end end end.

(** ** Settlement *)

Definition budgetSettlementFromRecord (a : admission) (alreadySettled : bool) : APIKeyBudgetSettlement :=
  {| S_AdmissionID := admission_id a; AlreadySettled := alreadySettled; Outcome := outcome a;
     S_ObservedTokens := observed_tokens a; S_ObservedCostMicrousd := observed_cost_microusd a |}.

(** [loadAPIKeyBudgetPendingSettlement] with [next = true]. *)
Definition next_pending (locked : Z → bool) (d : db) : option admission :=
  head (merge_sort (row_le row_updated_at id)
    (List.filter (fun a => bool_decide (status a = SettlementPending) && negb (locked (id a)))
       (admissions d))).

Definition loadAPIKeyBudgetPendingSettlement (locked : Z → bool) (admissionID : string) (next : bool)
    (d : db) : option admission :=
  if next then next_pending locked d else select_admission admissionID d.

Definition observe_row (request : APIKeyBudgetSettlementRequest) (oc : settlement_outcome) (a : admission)
  : admission :=
  {| id := id a; admission_id := admission_id a; client_key_id := client_key_id a; src := src a;
     status := SettlementPending; outcome := oc; usage_known := UsageKnown request;
     observed_tokens := ObservedTokens request; observed_cost_microusd := ObservedCostMicrousd request;
     admitted_at := admitted_at a; settled_at := Some (pg_time (SettledAt request));
     request_24h_expires_at := request_24h_expires_at a;
     request_30d_expires_at := request_30d_expires_at a;
     request_24h_expired := request_24h_expired a; request_30d_expired := request_30d_expired a;
     row_updated_at := pg_time (SettledAt request) |}.

Definition set_status (st : admission_status) (t : Time) (a : admission) : admission :=
  {| id := id a; admission_id := admission_id a; client_key_id := client_key_id a; src := src a;
     status := st; outcome := outcome a; usage_known := usage_known a;
     observed_tokens := observed_tokens a; observed_cost_microusd := observed_cost_microusd a;
     admitted_at := admitted_at a; settled_at := settled_at a;
     request_24h_expires_at := request_24h_expires_at a;
     request_30d_expires_at := request_30d_expires_at a;
     request_24h_expired := request_24h_expired a; request_30d_expired := request_30d_expired a;
     row_updated_at := t |}.

Definition enqueueAPIKeyBudgetSettlement (request : APIKeyBudgetSettlementRequest) (d : db)
  : txn (APIKeyBudgetSettlement * bool) :=
  match loadAPIKeyBudgetPendingSettlement (fun _ => false) (AdmissionID request) false d with
  | None => Err ErrNotFound
  | Some record =>
      if bool_decide (status record ≠ StatusAdmitted)
      then Ok ((budgetSettlementFromRecord record true,
                bool_decide (status record ≠ SettlementPending)), d)
      else
        let oc := if UsageKnown request then Observed else Missing in
        let? d1 := update_admissions (fun a => str_eq (admission_id a) (AdmissionID request))
                     (observe_row request oc) d in
        Ok (({| S_AdmissionID := AdmissionID request; AlreadySettled := false; Outcome := oc;
                S_ObservedTokens := ObservedTokens request;
                S_ObservedCostMicrousd := ObservedCostMicrousd request |}, false), d1)
  end.

(** [addTokens24h], [addTokens30d], [addCost24h], [addCost30d]. *)
Definition settlement_usage (record : admission) (settled : Time) : usage :=
  let '(t24, c24) :=
    if negb (request_24h_expired record) && time_after (request_24h_expires_at record) settled
    then (observed_tokens record, observed_cost_microusd record) else (0, 0) in
  let '(t30, c30) :=
    if negb (request_30d_expired record) && time_after (request_30d_expires_at record) settled
    then (observed_tokens record, observed_cost_microusd record) else (0, 0) in
  Build_usage 0 0 t24 t30 c24 c30.

Definition applyLockedAPIKeyBudgetSettlement (record : admission) (appliedAt : Time) (d : db)
  : result ledger_error db :=
  match settled_at record with
  | None => Err ErrNoObservationTime
  | Some settled =>
      let? d1 := update_state (client_key_id record) (fun s =>
        {| init := init s; used := add_usage (used s) (settlement_usage record settled);
           last_maintenance_at := last_maintenance_at s; version := version s + 1;
           updated_at := pg_time appliedAt |}) d in
      update_admissions
        (fun a => str_eq (admission_id a) (admission_id record) &&
                  bool_decide (status a = SettlementPending))
        (set_status Settled (pg_time appliedAt)) d1
  end.

Definition applyAPIKeyBudgetSettlement (admissionID : string) (appliedAt : Time) (alreadyQueued : bool)
    (d : db) : txn APIKeyBudgetSettlement :=
  match loadAPIKeyBudgetPendingSettlement (fun _ => false) admissionID false d with
  | None => Err ErrNotFound
  | Some record =>
      if bool_decide (status record ≠ SettlementPending)
      then Ok (budgetSettlementFromRecord record true, d)
      else
        let? d1 := applyLockedAPIKeyBudgetSettlement record appliedAt d in
        Ok (budgetSettlementFromRecord record alreadyQueued, d1)
  end.

Definition normalize_request (request : APIKeyBudgetSettlementRequest) : APIKeyBudgetSettlementRequest :=
  {| AdmissionID := TrimSpace (AdmissionID request);
     ObservedTokens := if UsageKnown request then ObservedTokens request else 0;
     ObservedCostMicrousd := if UsageKnown request then ObservedCostMicrousd request else 0;
     UsageKnown := UsageKnown request; SettledAt := SettledAt request |}.

(** Two transactions: the observation is queued durably, then applied. *)
Definition SettleAPIKeyBudgetUsage (request : APIKeyBudgetSettlementRequest) (d : db)
  : result ledger_error APIKeyBudgetSettlement * db :=
  let aid := TrimSpace (AdmissionID request) in
  if str_eq aid "" || bool_decide (128 < go_len aid) || bool_decide (ObservedTokens request < 0) ||
     bool_decide (ObservedCostMicrousd request < 0) || time_is_zero (SettledAt request)
  then (Err ErrInvalidInput, d)
  else
    let request := normalize_request request in
    match run (enqueueAPIKeyBudgetSettlement request) d with
    | (Err e, d1) => (Err e, d1)
    | (Ok (queued, final), d1) =>
        if final then (Ok queued, d1)
        else run (applyAPIKeyBudgetSettlement (AdmissionID request) (SettledAt request)
                    (AlreadySettled queued)) d1
    end.

Definition SettleAPIKeyBudget (admissionID : string) (observedTokens observedCostMicrousd : Z)
    (settledAt : Time) (d : db) : result ledger_error APIKeyBudgetSettlement * db :=
  SettleAPIKeyBudgetUsage {| AdmissionID := admissionID; ObservedTokens := observedTokens;
    ObservedCostMicrousd := observedCostMicrousd; UsageKnown := true; SettledAt := settledAt |} d.

Definition applyNextAPIKeyBudgetSettlement (locked : Z → bool) (appliedAt : Time) (d : db) : txn bool :=
  match loadAPIKeyBudgetPendingSettlement locked "" true d with
  | None => Ok (false, d)
  | Some record =>
      let? d1 := applyLockedAPIKeyBudgetSettlement record appliedAt d in
      Ok (true, d1)
  end.

(** The loop of [RunAPIKeyBudgetSettlementCycle]: at most [fuel] = [batchSize]
    rounds, one transaction each. *)
Fixpoint settlement_loop (locked : Z → bool) (now : Time) (fuel : nat) (processed : Z) (d : db)
  : Z * option ledger_error * db :=
  match fuel with
  | O => (processed, None, d)
  | S fuel =>
      match run (applyNextAPIKeyBudgetSettlement locked now) d with
      | (Err e, d1) => (processed, Some e, d1)
      | (Ok false, d1) => (processed, None, d1)
      | (Ok true, d1) => settlement_loop locked now fuel (processed + 1) d1
      end
  end.

Definition RunAPIKeyBudgetSettlementCycle (locked : Z → bool) (now : Time) (batchSize : Z) (d : db)
  : Z * option ledger_error * db :=
  if time_is_zero now || negb (validAPIKeyBudgetBatchSize batchSize)
  then (0, Some ErrInvalidInput, d)
  else settlement_loop locked now (Z.to_nat batchSize) 0 d.

(** ** Reading *)

(** The row as stored: times come back in UTC. *)
Definition GetAPIKeyBudgetState (clientKeyID : Z) (d : db) : result ledger_error budget_state :=
  if bool_decide (clientKeyID < 1) then Err ErrInvalidInput
  else match states d !! clientKeyID with
  | None => Err ErrNotFound
  | Some s => Ok s
  end.

(** ** Expiry *)

Record apiKeyBudgetExpiryCandidate := {
  C_ID : Z; C_ClientKeyID : Z; C_ObservedTokens : Z; C_ObservedCost : Z;
  UsageCharged24h : bool; UsageCharged30d : bool; Expire24h : bool; Expire30d : bool
}.

Definition settled_before (a : admission) (t : Time) : bool :=
  bool_decide (status a = Settled) &&
  match settled_at a with Some s => bool_decide (s < t) | None => false end.

Definition due_24h (now : Time) (a : admission) : bool :=
  negb (request_24h_expired a) && bool_decide (request_24h_expires_at a ≤ now).
Definition due_30d (now : Time) (a : admission) : bool :=
  negb (request_30d_expired a) && bool_decide (request_30d_expires_at a ≤ now).
Definition due (now : Time) (a : admission) : bool := due_24h now a || due_30d now a.

Definition expiry_candidate (now : Time) (a : admission) : apiKeyBudgetExpiryCandidate :=
  {| C_ID := id a; C_ClientKeyID := client_key_id a;
     C_ObservedTokens := observed_tokens a; C_ObservedCost := observed_cost_microusd a;
     UsageCharged24h := settled_before a (request_24h_expires_at a);
     UsageCharged30d := settled_before a (request_30d_expires_at a);
     Expire24h := due_24h now a; Expire30d := due_30d now a |}.

Definition expiry_least (a : admission) : option Time :=
  match (if request_24h_expired a then None else Some (request_24h_expires_at a)),
        (if request_30d_expired a then None else Some (request_30d_expires_at a)) with
  | Some x, Some y => Some (Z.min x y)
  | Some x, None => Some x
  | None, y => y
  end.

Definition expiry_le (a b : admission) : Prop :=
  inf_lt (expiry_least a) (expiry_least b) ∨ (expiry_least a = expiry_least b ∧ id a ≤ id b).

#[global] Instance expiry_le_dec : RelDecision expiry_le.
Proof. intros a b. unfold expiry_le. apply _. Defined.

Definition expiry_rows (locked : Z → bool) (now : Time) (batchSize : Z) (d : db) : list admission :=
  take (Z.to_nat batchSize) (merge_sort expiry_le
    (List.filter (fun a => due now a && negb (locked (id a))) (admissions d))).

(** The state rows are locked one by one, in increasing key order. *)
Definition lock_order (candidates : list apiKeyBudgetExpiryCandidate) : list Z :=
  merge_sort Z.le (remove_dups (map C_ClientKeyID candidates)).

Definition lockAPIKeyBudgetStateRows (candidates : list apiKeyBudgetExpiryCandidate) (d : db)
  : result ledger_error (list Z) :=
  let keyIDs := lock_order candidates in
  if forallb (fun k => is_some (states d !! k)) keyIDs then Ok keyIDs else Err ErrDatabase.

Definition mark_expired (e24 e30 : bool) (now : Time) (a : admission) : admission :=
  {| id := id a; admission_id := admission_id a; client_key_id := client_key_id a; src := src a;
     status := status a; outcome := outcome a; usage_known := usage_known a;
     observed_tokens := observed_tokens a; observed_cost_microusd := observed_cost_microusd a;
     admitted_at := admitted_at a; settled_at := settled_at a;
     request_24h_expires_at := request_24h_expires_at a;
     request_30d_expires_at := request_30d_expires_at a;
     request_24h_expired := request_24h_expired a || e24;
     request_30d_expired := request_30d_expired a || e30;
     row_updated_at := now |}.

(** The usage one candidate gives back. *)
Definition candidate_usage (c : apiKeyBudgetExpiryCandidate) : usage :=
  let '(r24, t24, c24) :=
    if Expire24h c
    then if UsageCharged24h c then (1, C_ObservedTokens c, C_ObservedCost c) else (1, 0, 0)
    else (0, 0, 0) in
  let '(r30, t30, c30) :=
    if Expire30d c
    then if UsageCharged30d c then (1, C_ObservedTokens c, C_ObservedCost c) else (1, 0, 0)
    else (0, 0, 0) in
  Build_usage r24 r30 t24 t30 c24 c30.

Definition expire_candidate (now : Time) (c : apiKeyBudgetExpiryCandidate) (d : db)
  : result ledger_error db :=
  let? d1 := update_state (C_ClientKeyID c) (fun s =>
    {| init := init s; used := sub_usage (used s) (candidate_usage c);
       last_maintenance_at := Some (pg_time now); version := version s + 1;
       updated_at := pg_time now |}) d in
  update_admissions (fun a => bool_decide (id a = C_ID c))
    (mark_expired (Expire24h c) (Expire30d c) (pg_time now)) d1.

Fixpoint expire_loop (now : Time) (cs : list apiKeyBudgetExpiryCandidate) (d : db)
  : result ledger_error db :=
  match cs with
  | [] => Ok d
  | c :: cs => let? d1 := expire_candidate now c d in expire_loop now cs d1
  end.

Definition RunAPIKeyBudgetExpiryCycle (locked : Z → bool) (now : Time) (batchSize : Z) (d : db)
  : txn APIKeyBudgetExpiryCycleResult :=
  if time_is_zero now || negb (validAPIKeyBudgetBatchSize batchSize) then Err ErrInvalidInput
  else
    (* the parameter of the query is sent with microsecond precision *)
    let candidates := map (expiry_candidate (pg_time now)) (expiry_rows locked (pg_time now) batchSize d) in
    let? _ := lockAPIKeyBudgetStateRows candidates d in
    let? d1 := expire_loop now candidates d in
    let processed := Z.of_nat (length candidates) in
    Ok ({| E_Processed := processed;
           Expired24h := countZ Expire24h candidates; Expired30d := countZ Expire30d candidates;
           E_LastMaintenanceAt := if bool_decide (0 < processed) then Some now else None |}, d1).

(** ** Abandoned admissions *)

Definition abandon_row (now : Time) (a : admission) : admission :=
  {| id := id a; admission_id := admission_id a; client_key_id := client_key_id a; src := src a;
     status := Abandoned; outcome := OutcomeAbandoned; usage_known := usage_known a;
     observed_tokens := observed_tokens a; observed_cost_microusd := observed_cost_microusd a;
     admitted_at := admitted_at a; settled_at := Some (pg_time now);
     request_24h_expires_at := request_24h_expires_at a;
     request_30d_expires_at := request_30d_expires_at a;
     request_24h_expired := request_24h_expired a; request_30d_expired := request_30d_expired a;
     row_updated_at := pg_time now |}.

Definition abandon_candidates (locked : Z → bool) (cutoff : Time) (batchSize : Z) (d : db) : list Z :=
  map id (take (Z.to_nat batchSize) (merge_sort (row_le admitted_at id)
    (List.filter (fun a => bool_decide (status a = StatusAdmitted) &&
       bool_decide (admitted_at a ≤ pg_time cutoff) && negb (locked (id a))) (admissions d)))).

Definition RunAPIKeyBudgetAbandonedCycle (locked : Z → bool) (cutoff now : Time) (batchSize : Z) (d : db)
  : txn Z :=
  if time_is_zero cutoff || time_is_zero now || time_before now cutoff ||
     negb (validAPIKeyBudgetBatchSize batchSize)
  then Err ErrInvalidInput
  else
    let candidates := abandon_candidates locked cutoff batchSize d in
    let? d1 := update_admissions (fun a => bool_decide (id a ∈ candidates)) (abandon_row now) d in
    Ok (countZ (fun a => bool_decide (id a ∈ candidates)) (admissions d), d1).

(** ** Backfill of keys that had traffic before the ledger *)

Definition legacy_id (i : Z) : string := String.append "legacy:" (FormatInt i).

Record apiKeyBudgetLegacyLog := {
  L_ID : Z; L_CreatedAt : Time; L_ObservedTokens : Z; L_ObservedCost : Z; L_UsageKnown : bool
}.

Definition legacy_log (l : request_log) : apiKeyBudgetLegacyLog :=
  {| L_ID := log_id l; L_CreatedAt := log_created_at l;
     L_ObservedTokens := Z.max (total_tokens l) 0;
     L_ObservedCost := Z.max (estimated_cost_microusd l) 0;
     L_UsageKnown := negb (str_eq (usage_source l) "missing") |}.

(** The key the cycle works on: the smallest pending one. *)
Definition pending_keys (d : db) : list Z :=
  merge_sort Z.le (map fst (List.filter (fun ks => bool_decide (initialization_status (init ks.2) = Pending))
    (map_to_list (states d)))).

Definition after_cursor (cursor : option (Time * Z)) (l : request_log) : bool :=
  match cursor with
  | Some (t, i) => bool_decide (t < log_created_at l) ||
                   (bool_decide (log_created_at l = t) && bool_decide (i < log_id l))
  | None => true
  end.

(** The condition of the backfill query. *)
Definition backfill_eligible (d : db) (keyID : Z) (windowStart windowEnd : Time)
    (cursor : option (Time * Z)) (l : request_log) : bool :=
  bool_decide (log_client_key_id l = Some keyID) &&
  bool_decide (windowStart ≤ log_created_at l) && bool_decide (log_created_at l ≤ windowEnd) &&
  budget_backfill_eligible l && negb (has_admission (legacy_id (log_id l)) d) &&
  after_cursor cursor l.

Definition backfill_logs (d : db) (keyID : Z) (windowStart windowEnd : Time)
    (cursor : option (Time * Z)) (limit : Z) : list apiKeyBudgetLegacyLog :=
  map legacy_log (take (Z.to_nat limit) (merge_sort (row_le log_created_at log_id)
    (List.filter (backfill_eligible d keyID windowStart windowEnd cursor) (logs d)))).

Definition legacy_row (dbnow now : Time) (keyID : Z) (l : apiKeyBudgetLegacyLog) (i : Z) : admission :=
  {| id := i; admission_id := legacy_id (L_ID l); client_key_id := keyID; src := Legacy;
     status := Settled; outcome := if L_UsageKnown l then Observed else Missing;
     usage_known := L_UsageKnown l;
     observed_tokens := if L_UsageKnown l then L_ObservedTokens l else 0;
     observed_cost_microusd := if L_UsageKnown l then L_ObservedCost l else 0;
     admitted_at := L_CreatedAt l; settled_at := Some (L_CreatedAt l);
     request_24h_expires_at := L_CreatedAt l + hours24;
     request_30d_expires_at := L_CreatedAt l + days30;
     request_24h_expired := negb (time_after (L_CreatedAt l + hours24) now);
     request_30d_expired := negb (time_after (L_CreatedAt l + days30) now);
     row_updated_at := dbnow |}.

(** The 64-bit accumulators of the loop. *)
Definition accumulate (u : usage) (a : admission) : usage :=
  let t := observed_tokens a in let c := observed_cost_microusd a in
  {| requests_used_24h :=
       if request_24h_expired a then requests_used_24h u else wrap64 (requests_used_24h u + 1);
     requests_used_30d :=
       if request_30d_expired a then requests_used_30d u else wrap64 (requests_used_30d u + 1);
     observed_tokens_used_24h :=
       if request_24h_expired a then observed_tokens_used_24h u else wrap64 (observed_tokens_used_24h u + t);
     observed_tokens_used_30d :=
       if request_30d_expired a then observed_tokens_used_30d u else wrap64 (observed_tokens_used_30d u + t);
     observed_cost_microusd_used_24h :=
       if request_24h_expired a then observed_cost_microusd_used_24h u
       else wrap64 (observed_cost_microusd_used_24h u + c);
     observed_cost_microusd_used_30d :=
       if request_30d_expired a then observed_cost_microusd_used_30d u
       else wrap64 (observed_cost_microusd_used_30d u + c) |}.

(** [INSERT .. ON CONFLICT (admission_id) DO NOTHING], one log at a time. *)
Fixpoint backfill_loop (dbnow now : Time) (keyID : Z) (ls : list apiKeyBudgetLegacyLog)
    (u : usage) (d : db) : result ledger_error (usage * db) :=
  match ls with
  | [] => Ok (u, d)
  | l :: ls =>
      if has_admission (legacy_id (L_ID l)) d then backfill_loop dbnow now keyID ls u d
      else
        let? d1 := insert_admission (legacy_row dbnow now keyID l) d in
        backfill_loop dbnow now keyID ls
          (accumulate u (legacy_row dbnow now keyID l (next_id d))) d1
  end.

Definition has_pending (d : db) : bool := bool_decide (pending_keys d ≠ []).

(** The final UPDATE of the cycle. *)
Definition init_update (now windowStart windowEnd : Time) (cursor : option (Time * Z)) (ready : bool)
    (u : usage) (s : budget_state) : budget_state :=
  {| init := {| initialization_status := if ready then Ready else Pending;
                initialization_window_start := Some (pg_time windowStart);
                initialization_window_end := Some (pg_time windowEnd);
                initialization_cursor := cursor;
                initialization_attempts := initialization_attempts (init s) + 1;
                initialized_at := if ready then Some (pg_time now) else None |};
     used := add_usage (used s) u;
     last_maintenance_at := Some (pg_time now);
     version := version s + 1;
     updated_at := pg_time now |}.

Definition init_window (i : init_columns) (now : Time) : Time * Time :=
  match initialization_window_start i, initialization_window_end i with
  | Some s, Some e => (s, e)
  | _, _ => (now - days30, now)
  end.

(** The cycle from the query of the logs on, for the locked key. *)
Definition initialize_key (dbnow now : Time) (batchSize keyID : Z) (s : budget_state) (d : db)
  : txn APIKeyBudgetInitializationCycleResult :=
  let '(windowStart, windowEnd) := init_window (init s) now in
  let cursor := initialization_cursor (init s) in
  let found := backfill_logs d keyID (pg_time windowStart) (pg_time windowEnd) cursor (batchSize + 1) in
  let hasMore := bool_decide (batchSize < Z.of_nat (length found)) in
  let ls := if hasMore then take (Z.to_nat batchSize) found else found in
  let? (u, d1) := backfill_loop dbnow now keyID ls zero_usage d in
  let nextCursor := match last ls with Some l => Some (L_CreatedAt l, L_ID l) | None => cursor end in
  let ready := negb hasMore in
  let? d2 := update_state keyID (init_update now windowStart windowEnd nextCursor ready u) d1 in
  Ok ({| I_ClientKeyID := keyID; I_Processed := Z.of_nat (length ls); I_Ready := ready;
         I_HasPending := has_pending d2 |}, d2).

Definition RunAPIKeyBudgetInitializationCycle (dbnow now : Time) (batchSize : Z) (d : db)
  : txn APIKeyBudgetInitializationCycleResult :=
  let nothing := Build_APIKeyBudgetInitializationCycleResult 0 0 false false in
  if time_is_zero now || negb (validAPIKeyBudgetBatchSize batchSize) then Err ErrInvalidInput
  else match head (pending_keys d) with
  | None => Ok (nothing, d)
  | Some keyID =>
      match keys d !! keyID, states d !! keyID with
      | Some _, Some s => initialize_key dbnow now batchSize keyID s d
      | _, _ => Ok (nothing, d)
      end
  end.

(** ** Client keys: creation with its trigger, budgets, revocation, deletion *)

(** [CreateAPIKey]: the insert and the trigger that creates the state row. *)
Definition CreateAPIKey (dbnow : Time) (i : Z) (d : db) : txn unit :=
  if is_some (keys d !! i) then Err ErrDatabase
  else
    let key := {| limits := Build_apiKeyBudgetLimits 0 0 0 0 0 0; revoked_at := None; disabled_at := None |} in
    let s := {| init := {| initialization_status := Ready; initialization_window_start := None;
                           initialization_window_end := None; initialization_cursor := None;
                           initialization_attempts := 0; initialized_at := Some dbnow |};
                used := zero_usage; last_maintenance_at := None; version := 1; updated_at := dbnow |} in
    let d1 := set_keys d (<[i := key]> (keys d)) in
    Ok (tt, match states d !! i with Some _ => d1 | None => set_states d1 (<[i := s]> (states d1)) end).

Definition reopen_init (dbnow : Time) (s : budget_state) : budget_state :=
  {| init := {| initialization_status := Pending;
                initialization_window_start := Some (dbnow - days30);
                initialization_window_end := Some dbnow;
                initialization_cursor := None;
                initialization_attempts := initialization_attempts (init s);
                initialized_at := None |};
     used := used s; last_maintenance_at := last_maintenance_at s;
     version := version s + 1; updated_at := dbnow |}.

Definition has_unbackfilled (dbnow : Time) (i : Z) (d : db) : bool :=
  existsb (fun l => bool_decide (log_client_key_id l = Some i) &&
    bool_decide (dbnow - days30 ≤ log_created_at l) && budget_backfill_eligible l &&
    negb (has_admission (legacy_id (log_id l)) d)) (logs d).

Definition UpdateAPIKeyBudgets (dbnow : Time) (i : Z) (current : apiKeyBudgetLimits) (d : db) : txn unit :=
  match keys d !! i with
  | Some k =>
      if is_some (revoked_at k) then Err ErrNotFound
      else
        let d1 := set_keys d (<[i := {| limits := current; revoked_at := revoked_at k;
                                        disabled_at := disabled_at k |}]> (keys d)) in
        if budgetLimitsDisabled (limits k) && negb (budgetLimitsDisabled current)
        then
          match states d1 !! i with
          | Some s =>
              if bool_decide (initialization_status (init s) = Ready) && has_unbackfilled dbnow i d1
              then let? d2 := update_state i (reopen_init dbnow) d1 in Ok (tt, d2)
              else Ok (tt, d1)
          | None => Ok (tt, d1)
          end
        else Ok (tt, d1)
  | None => Err ErrNotFound
  end.

(** The other key updates touch neither counters nor admissions. *)
Definition RevokeAPIKey (dbnow : Time) (i : Z) (d : db) : txn unit :=
  match keys d !! i with
  | Some k =>
      Ok (tt, set_keys d (<[i := {| limits := limits k;
        revoked_at := Some (default dbnow (revoked_at k)); disabled_at := disabled_at k |}]> (keys d)))
  | None => Err ErrNotFound
  end.

(** [DELETE FROM client_api_keys]: both ledger tables cascade, and the key
    column of the logs becomes NULL. *)
Definition delete_key (i : Z) (d : db) : db :=
  {| keys := delete i (keys d); states := delete i (states d);
     admissions := List.filter (fun a => bool_decide (client_key_id a ≠ i)) (admissions d);
     next_id := next_id d;
     logs := map (fun l => if bool_decide (log_client_key_id l = Some i)
       then {| log_id := log_id l; log_client_key_id := None; log_created_at := log_created_at l;
               total_tokens := total_tokens l; estimated_cost_microusd := estimated_cost_microusd l;
               usage_source := usage_source l; budget_backfill_eligible := budget_backfill_eligible l |}
       else l) (logs d) |}.

Definition DeleteRevokedAPIKey (i : Z) (d : db) : txn unit :=
  match keys d !! i with
  | Some k => if is_some (revoked_at k) then Ok (tt, delete_key i d) else Err ErrNotFound
  | None => Err ErrNotFound
  end.

Definition SetAPIKeyDisabled (dbnow : Time) (i : Z) (disabled : bool) (d : db) : txn unit :=
  match keys d !! i with
  | Some k =>
      if is_some (revoked_at k) then Err ErrNotFound
      else Ok (tt, set_keys d (<[i := {| limits := limits k; revoked_at := revoked_at k;
        disabled_at := if disabled then Some (default dbnow (disabled_at k)) else None |}]> (keys d)))
  | None => Err ErrNotFound
  end.

End Ledger.
