(* ===== verification/LedgerInv.v ===== *)
(** * Exactness of the budget counters

    What the six counters of a state row mean: for each window and metric, the
    sum over the key's admissions of the weight they have in that window.
    Every transaction of the ledger preserves this, so the counters can be
    read instead of the admissions. *)

From S2P Require Import Prelude GoStrings Ledger.
Import Ledger.

Module LedgerInv.

Inductive window := W24 | W30.
Inductive metric := Requests | Tokens | Cost.

Definition counter (m : metric) (w : window) (u : usage) : Z :=
  match m, w with
  | Requests, W24 => requests_used_24h u
  | Requests, W30 => requests_used_30d u
  | Tokens, W24 => observed_tokens_used_24h u
  | Tokens, W30 => observed_tokens_used_30d u
  | Cost, W24 => observed_cost_microusd_used_24h u
  | Cost, W30 => observed_cost_microusd_used_30d u
  end.

Definition expired (w : window) (a : admission) : bool :=
  match w with W24 => request_24h_expired a | W30 => request_30d_expired a end.
Definition expires_at (w : window) (a : admission) : Time :=
  match w with W24 => request_24h_expires_at a | W30 => request_30d_expires_at a end.
Definition width (w : window) : Duration :=
  match w with W24 => hours24 | W30 => days30 end.

(** What one admission contributes to a window: a request while it is not
    expired, and its observed usage once settled, if the observation was made
    inside the window. *)
Definition weight (m : metric) (w : window) (a : admission) : Z :=
  if expired w a then 0
  else match m with
  | Requests => 1
  | Tokens => if settled_before a (expires_at w a) then observed_tokens a else 0
  | Cost => if settled_before a (expires_at w a) then observed_cost_microusd a else 0
  end.

Definition key_weight (m : metric) (w : window) (k : Z) (a : admission) : Z :=
  if bool_decide (client_key_id a = k) then weight m w a else 0.

Definition total (m : metric) (w : window) (k : Z) (l : list admission) : Z :=
  sumZ (key_weight m w k) l.

(** The largest cost per logged request for which a batch of the backfill
    cannot overflow its 64-bit accumulators. *)
Definition max_log_cost : Z := int64_max `div` maxAPIKeyBudgetLedgerBatchSize.

Definition log_ok (l : request_log) : Prop :=
  total_tokens l ≤ 2 ^ 31 - 1 ∧ estimated_cost_microusd l ≤ max_log_cost.

(** Consistency of the tables, where the counters of key [k0] are behind the
    admissions by [δ]. *)
Record InvD (k0 : Z) (δ : metric → window → Z) (d : db) : Prop := {
  inv_ids : NoDup (map id (admissions d));
  inv_aids : NoDup (map admission_id (admissions d));
  inv_rows : ∀ a, a ∈ admissions d →
    id a < next_id d ∧ admission_row_ok a = true ∧ is_Some (states d !! client_key_id a);
  inv_states : ∀ k s, states d !! k = Some s →
    state_row_ok s = true ∧ is_Some (keys d !! k) ∧
    ∀ m w, counter m w (used s) + (if decide (k = k0) then δ m w else 0) = total m w k (admissions d);
  inv_logs : ∀ l, l ∈ logs d → log_ok l
}.

Definition Inv : db → Prop := InvD 0 (fun _ _ => 0).

(** ** Generic facts *)

Lemma Inv_any k0 (δ : metric → window → Z) d : (∀ m w, δ m w = 0) → InvD k0 δ d ↔ Inv d.
Proof.
  intros Hδ. split; intros [? ? ? Hs ?]; split; try done; intros k s Hk;
    destruct (Hs k s Hk) as (? & ? & H); (split_and!; [done|done|]); intros m w;
    specialize (H m w); specialize (Hδ m w); destruct (decide (k = k0)), (decide (k = 0)); lia.
Qed.

Lemma Inv_of_lag k0 (δ : metric → window → Z) d : InvD k0 δ d → (∀ m w, δ m w = 0) → Inv d.
Proof. intros H Hδ. by apply (Inv_any k0 δ). Qed.

Lemma Inv_lag k0 d : Inv d → InvD k0 (fun _ _ => 0) d.
Proof. by apply Inv_any. Qed.

Lemma InvD_ext k0 (δ δ' : metric → window → Z) d :
  (∀ m w, δ m w = δ' m w) → InvD k0 δ d → InvD k0 δ' d.
Proof.
  intros Hδ [? ? ? Hs ?]; split; try done. intros k s Hk.
  destruct (Hs k s Hk) as (? & ? & H). split_and!; [done|done|]. intros m w.
  specialize (H m w). specialize (Hδ m w). destruct (decide (k = k0)); lia.
Qed.

Lemma row_ok_nonneg a :
  admission_row_ok a = true → 0 ≤ observed_tokens a ≤ int64_max ∧ 0 ≤ observed_cost_microusd a ≤ int64_max.
Proof.
  unfold admission_row_ok, bigint_nonneg. rewrite !andb_true_iff, !bool_decide_eq_true. tauto.
Qed.

Lemma row_ok_expires a w : admission_row_ok a = true → expires_at w a = admitted_at a + width w.
Proof.
  unfold admission_row_ok. rewrite !andb_true_iff, !bool_decide_eq_true.
  intros [[[[[_ _] _] H1] H2] _]. by destruct w.
Qed.

Lemma weight_nonneg m w a : admission_row_ok a = true → 0 ≤ weight m w a.
Proof.
  intros Hok. destruct (row_ok_nonneg a Hok). unfold weight.
  destruct (expired w a), m; repeat case_match; lia.
Qed.

Lemma key_weight_nonneg m w k a : admission_row_ok a = true → 0 ≤ key_weight m w k a.
Proof. intros ?. unfold key_weight. case_bool_decide; [by apply weight_nonneg|done]. Qed.

Lemma counter_add m w u v : counter m w (add_usage u v) = counter m w u + counter m w v.
Proof. by destruct m, w. Qed.

Lemma counter_sub m w u v : counter m w (sub_usage u v) = Z.max 0 (counter m w u - counter m w v).
Proof. by destruct m, w. Qed.

Lemma usage_ok_counter u : usage_ok u = true ↔ ∀ m w, 0 ≤ counter m w u ≤ int64_max.
Proof.
  unfold usage_ok, bigint_nonneg. rewrite !andb_true_iff, !bool_decide_eq_true. split.
  - intros [[[[[? ?] ?] ?] ?] ?] [] []; done.
  - intros H. pose proof (H Requests W24). pose proof (H Requests W30). pose proof (H Tokens W24).
    pose proof (H Tokens W30). pose proof (H Cost W24). pose proof (H Cost W30). tauto.
Qed.

Lemma state_row_ok_used s : state_row_ok s = true → usage_ok (used s) = true.
Proof. unfold state_row_ok. rewrite !andb_true_iff. tauto. Qed.

(** ** Lists of rows *)

Lemma NoDup_map_inj {A B} (f : A → B) (l : list A) x y :
  NoDup (map f l) → x ∈ l → y ∈ l → f x = f y → x = y.
Proof.
  induction l as [|z l IH]; [by intros _ ?%elem_of_nil|]. cbn [map]. rewrite NoDup_cons, !elem_of_cons.
  intros [Hz Hnd] [->|Hx] [->|Hy] Heq; [done|..|by apply IH];
    destruct Hz; [rewrite Heq|rewrite <- Heq]; by apply (list_elem_of_fmap_2 f).
Qed.

Lemma elem_of_update_rows p f (l : list admission) b :
  b ∈ update_rows p f l ↔ ∃ a, a ∈ l ∧ b = if p a then f a else a.
Proof.
  unfold update_rows. change (map ?g l) with (g <$> l). rewrite list_elem_of_fmap.
  split; intros (a & ? & ?); eauto.
Qed.

Lemma map_update_rows {B} (g : admission → B) p f (l : list admission) :
  (∀ a, g (f a) = g a) → map g (update_rows p f l) = map g l.
Proof.
  intros Hg. unfold update_rows. rewrite map_map. apply map_ext. intros a. destruct (p a); auto.
Qed.

(** Updating rows without changing their weight. *)
Lemma sumZ_update_same (g : admission → Z) p f (l : list admission) :
  (∀ a, a ∈ l → p a = true → g (f a) = g a) → sumZ g (update_rows p f l) = sumZ g l.
Proof.
  intros H. unfold update_rows. induction l as [|a l IH]; [done|]. cbn [map].
  rewrite !sumZ_cons, IH by (intros b Hb; apply H; by constructor).
  destruct (p a) eqn:E; [|done]. by rewrite (H a) by (try constructor; done).
Qed.

(** Updating exactly one row. *)
Lemma sumZ_update_one (g : admission → Z) p f (l : list admission) a :
  NoDup (map id l) → a ∈ l → p a = true → (∀ b, b ∈ l → p b = true → id b = id a) →
  sumZ g (update_rows p f l) = sumZ g l - g a + g (f a).
Proof.
  induction l as [|b l IH]; intros Hnd Ha Hpa Hp; [by apply elem_of_nil in Ha|].
  cbn [map] in Hnd. apply NoDup_cons in Hnd as [Hb Hnd]. unfold update_rows. cbn [map].
  change (map _ l) with (update_rows p f l). rewrite !sumZ_cons.
  apply elem_of_cons in Ha as [->|Ha].
  - rewrite Hpa, (sumZ_update_same g p f l); [lia|]. intros c Hc Hpc. exfalso. apply Hb.
    rewrite <- (Hp c) by (try (by constructor); done). by apply (list_elem_of_fmap_2 id).
  - destruct (p b) eqn:Hpb.
    + exfalso. apply Hb. rewrite (Hp b) by (try constructor; done). by apply (list_elem_of_fmap_2 id).
    + rewrite IH; [lia|done..|]. intros c Hc. apply Hp. by constructor.
Qed.

(** ** Statements preserve consistency up to the counters' lag *)

Lemma InvD_update_state k0 δ (ε : metric → window → Z) d f d' :
  InvD k0 δ d → update_state k0 f d = Ok d' → is_Some (states d !! k0) →
  (∀ s, states d !! k0 = Some s → ∀ m w, counter m w (used (f s)) = counter m w (used s) + ε m w) →
  InvD k0 (fun m w => δ m w - ε m w) d'.
Proof.
  intros [Hi Ha Hr Hs Hl] Hu [s Hk] Hf. unfold update_state in Hu. rewrite Hk in Hu.
  destruct (state_row_ok (f s)) eqn:Hok; [|done]. injection Hu as <-.
  split; cbn [set_states admissions states keys next_id logs]; try done.
  - intros a Hin. destruct (Hr a Hin) as (? & ? & ?). split_and!; try done.
    apply lookup_insert_is_Some'. by right.
  - intros k s' Hk'. destruct (decide (k = k0)) as [->|Hne].
    + rewrite lookup_insert_eq in Hk'. injection Hk' as <-.
      destruct (Hs k0 s Hk) as (_ & ? & H). split_and!; [done|done|]. intros m w.
      specialize (H m w). rewrite decide_True in H by done. rewrite (Hf s Hk m w). lia.
    + rewrite lookup_insert_ne in Hk' by done. destruct (Hs k s' Hk') as (? & ? & H).
      split_and!; [done|done|]. intros m w. specialize (H m w). by rewrite decide_False in H.
Qed.

Lemma update_admissions_Ok p f d d' :
  update_admissions p f d = Ok d' →
  d' = set_admissions d (update_rows p f (admissions d)) ∧
  ∀ a, a ∈ admissions d → p a = true → admission_row_ok (f a) = true.
Proof.
  unfold update_admissions. destruct (forallb _ _) eqn:E; [|done]. intros [= <-]. split; [done|].
  rewrite forallb_forall in E. intros a Ha Hp.
  specialize (E a (proj1 (list_elem_of_In _ _) Ha)). rewrite Hp in E. exact E.
Qed.

Lemma update_admissions_succeeds p f d :
  (∀ a, a ∈ admissions d → p a = true → admission_row_ok (f a) = true) →
  update_admissions p f d = Ok (set_admissions d (update_rows p f (admissions d))).
Proof.
  intros H. unfold update_admissions. rewrite (proj2 (forallb_forall _ _)); [done|].
  intros a Ha%list_elem_of_In. destruct (p a) eqn:E; [by rewrite (H a)|done].
Qed.

(** What an update of admissions must leave alone. *)
Definition keeps_identity (f : admission → admission) : Prop :=
  ∀ a, id (f a) = id a ∧ admission_id (f a) = admission_id a ∧ client_key_id (f a) = client_key_id a.

Lemma InvD_rows_generic k0 δ δ' d p f d' :
  InvD k0 δ d → keeps_identity f → update_admissions p f d = Ok d' →
  (∀ k m w, is_Some (states d !! k) →
    total m w k (update_rows p f (admissions d)) = total m w k (admissions d) +
      (if decide (k = k0) then δ' m w - δ m w else 0)) →
  InvD k0 δ' d'.
Proof.
  intros [Hi Ha Hr Hs Hl] Hf Hu Ht. destruct (update_admissions_Ok _ _ _ _ Hu) as [-> Hok].
  split; cbn [set_admissions admissions states keys next_id logs]; try done.
  - rewrite map_update_rows; [done|]. intros a. apply Hf.
  - rewrite map_update_rows; [done|]. intros a. apply Hf.
  - intros b (a & Hin & ->)%elem_of_update_rows. destruct (Hr a Hin) as (? & ? & ?).
    destruct (p a) eqn:E; [|done]. destruct (Hf a) as (-> & _ & ->). split_and!; auto.
  - intros k s Hk. destruct (Hs k s Hk) as (? & ? & H). split_and!; [done|done|]. intros m w.
    specialize (H m w). rewrite (Ht k m w) by eauto. destruct (decide (k = k0)); lia.
Qed.

Lemma InvD_rows_same k0 δ d p f d' :
  InvD k0 δ d → keeps_identity f → update_admissions p f d = Ok d' →
  (∀ a m w, a ∈ admissions d → p a = true → weight m w (f a) = weight m w a) →
  InvD k0 δ d'.
Proof.
  intros HI Hf Hu Hw. apply (InvD_rows_generic k0 δ δ d p f d' HI Hf Hu). intros k m w _.
  unfold total. rewrite sumZ_update_same.
  - destruct (decide _); lia.
  - intros a Ha Hp. unfold key_weight. destruct (Hf a) as (_ & _ & ->). by rewrite Hw.
Qed.

Lemma InvD_row_one δ d p f d' a :
  InvD (client_key_id a) δ d → update_admissions p f d = Ok d' → keeps_identity f →
  a ∈ admissions d → p a = true → (∀ b, b ∈ admissions d → p b = true → id b = id a) →
  InvD (client_key_id a) (fun m w => δ m w + (weight m w (f a) - weight m w a)) d'.
Proof.
  intros HI Hu Hf Ha Hpa Hp.
  apply (InvD_rows_generic (client_key_id a) δ _ d p f d' HI Hf Hu).
  intros k m w _. unfold total. rewrite (sumZ_update_one _ p f _ a) by (try apply HI; done).
  unfold key_weight. destruct (Hf a) as (_ & _ & ->).
  destruct (decide (k = client_key_id a)) as [->|]; case_bool_decide; done || lia.
Qed.

Lemma has_admission_false aid d :
  has_admission aid d = false ↔ ∀ a, a ∈ admissions d → admission_id a ≠ aid.
Proof.
  unfold has_admission, str_eq.
  split.
  - intros H a Ha Heq. assert (existsb (fun a => bool_decide (admission_id a = aid)) (admissions d) = true); [|congruence].
    apply existsb_exists. exists a. split; [by apply list_elem_of_In|]. by apply bool_decide_eq_true.
  - intros H. destruct (existsb _ _) eqn:E; [|done]. apply existsb_exists in E as (a & Ha & Heq).
    apply bool_decide_eq_true in Heq. destruct (H a); [by apply list_elem_of_In|done].
Qed.

Lemma insert_admission_Ok row d d' :
  insert_admission row d = Ok d' →
  let a := row (next_id d) in
  has_admission (admission_id a) d = false ∧ admission_row_ok a = true ∧
  d' = {| keys := keys d; states := states d; admissions := admissions d ++ [a];
          next_id := next_id d + 1; logs := logs d |}.
Proof.
  unfold insert_admission. cbv zeta. destruct (has_admission _ d), (admission_row_ok _); naive_solver.
Qed.

Lemma InvD_insert k0 δ row d d' :
  InvD k0 δ d → insert_admission row d = Ok d' →
  id (row (next_id d)) = next_id d → client_key_id (row (next_id d)) = k0 →
  is_Some (states d !! k0) →
  InvD k0 (fun m w => δ m w + weight m w (row (next_id d))) d'.
Proof.
  intros [Hi Ha Hr Hs Hl] Hins Hid Hkey Hst.
  destruct (insert_admission_Ok _ _ _ Hins) as (Hhas & Hok & ->).
  set (a := row (next_id d)) in *. rewrite has_admission_false in Hhas.
  split; cbn [admissions states keys next_id logs]; try done.
  - rewrite map_app. apply NoDup_app. split_and!; [done| |apply NoDup_singleton].
    intros x (b & -> & Hb)%list_elem_of_fmap. cbn [map]. rewrite list_elem_of_singleton, Hid.
    destruct (Hr b Hb). lia.
  - rewrite map_app. apply NoDup_app. split_and!; [done| |apply NoDup_singleton].
    intros x (b & -> & Hb)%list_elem_of_fmap. cbn [map]. rewrite list_elem_of_singleton. auto.
  - intros b [Hb | ->%list_elem_of_singleton]%elem_of_app.
    + destruct (Hr b Hb) as (? & ? & ?). split_and!; [lia|done..].
    + split_and!; [lia|done|by rewrite Hkey].
  - intros k s Hk. destruct (Hs k s Hk) as (? & ? & H). split_and!; [done|done|]. intros m w.
    specialize (H m w). unfold total in *. rewrite sumZ_app, sumZ_cons, sumZ_nil, <- H.
    unfold key_weight at 1. rewrite Hkey. destruct (decide (k = k0)); case_bool_decide; done || lia.
Qed.

(** ** Transactions preserve consistency *)

Lemma select_admission_Some aid d a :
  select_admission aid d = Some a → a ∈ admissions d ∧ admission_id a = aid.
Proof.
  unfold select_admission, str_eq. intros H. destruct (find_some _ _ H) as [Hin Heq].
  apply bool_decide_eq_true in Heq. split; [by apply list_elem_of_In|done].
Qed.

Lemma same_aid_same_row k0 δ d a b :
  InvD k0 δ d → a ∈ admissions d → b ∈ admissions d → admission_id b = admission_id a → b = a.
Proof. intros HI Ha Hb Heq. by apply (NoDup_map_inj admission_id (admissions d)); [apply HI|..]. Qed.

Lemma same_id_same_row k0 δ d a b :
  InvD k0 δ d → a ∈ admissions d → b ∈ admissions d → id b = id a → b = a.
Proof. intros HI Ha Hb Heq. by apply (NoDup_map_inj id (admissions d)); [apply HI|..]. Qed.

Lemma Admit_Inv dbnow keyID aid t d r d' :
  Inv d → AdmitAPIKeyBudget dbnow keyID aid t d = Ok (r, d') → Inv d'.
Proof.
  intros HI. unfold AdmitAPIKeyBudget. destruct (_ || _); [done|].
  destruct (active_key keyID d) as [key|]; [|done].
  destruct (states d !! keyID) as [s|] eqn:Hs; [|done].
  destruct (List.find _ _) as [e|]; [destruct (bool_decide _); naive_solver|].
  cbv zeta. do 4 peel_guard.
  intros (d1 & Hins & (d2 & Hup & [= <- <-])%result_bind_Ok)%result_bind_Ok.
  apply (Inv_lag keyID) in HI.
  pose proof (InvD_insert _ _ _ _ _ HI Hins eq_refl eq_refl ltac:(eauto)) as H1.
  eapply (InvD_update_state _ _ (fun m _ => match m with Requests => 1 | _ => 0 end)) in H1; [|exact Hup|..].
  - apply (Inv_of_lag _ _ _ H1). intros [] []; reflexivity.
  - destruct (insert_admission_Ok _ _ _ Hins) as (_ & _ & ->). eauto.
  - intros s' _ m w. cbn [used]. rewrite counter_add. by destruct m, w.
Qed.

Lemma row_ok_admitted a :
  admission_row_ok a = true → status a = StatusAdmitted → observed_tokens a = 0 ∧ observed_cost_microusd a = 0.
Proof.
  unfold admission_row_ok. intros H Hst. rewrite Hst in H. apply andb_true_iff in H as [_ H].
  destruct (outcome a), (settled_at a); try done. rewrite !andb_true_iff, !bool_decide_eq_true in H. tauto.
Qed.

Lemma settled_before_not_settled a t : status a ≠ Settled → settled_before a t = false.
Proof. intros H. unfold settled_before. by rewrite bool_decide_eq_false_2. Qed.

(** Rows that are not settled before nor after keep their weight. *)
Lemma weight_unsettled m w a b :
  status a ≠ Settled → status b ≠ Settled → expired w a = expired w b → weight m w a = weight m w b.
Proof.
  intros Ha Hb He. unfold weight. rewrite He. destruct (expired w b), m; try done;
    by rewrite !settled_before_not_settled.
Qed.

Lemma enqueue_Inv k0 δ request d r d' :
  InvD k0 δ d → enqueueAPIKeyBudgetSettlement request d = Ok (r, d') → InvD k0 δ d'.
Proof.
  intros HI. unfold enqueueAPIKeyBudgetSettlement, loadAPIKeyBudgetPendingSettlement.
  destruct (select_admission _ d) as [rec|] eqn:Hsel; [|done].
  destruct (select_admission_Some _ _ _ Hsel) as [Hin Haid].
  case_bool_decide as Hst; [naive_solver|].
  intros (d1 & Hup & [= <- <-])%result_bind_Ok.
  apply (InvD_rows_same _ _ _ _ _ _ HI) in Hup; [done|done|].
  intros a m w Ha Heq%bool_decide_eq_true.
  assert (a = rec) as -> by (eapply same_aid_same_row; eauto; congruence).
  destruct (decide (status rec = StatusAdmitted)) as [Hs|]; [|done].
  apply weight_unsettled; [done|by rewrite Hs|by destruct w].
Qed.

Lemma settlement_usage_weight m w a s t :
  status a = SettlementPending → settled_at a = Some s →
  counter m w (settlement_usage a s) = weight m w (set_status Settled t a) - weight m w a.
Proof.
  intros Hst Hs. unfold weight. rewrite !(settled_before_not_settled a) by (by rewrite Hst).
  unfold settled_before, settlement_usage, time_after. cbn [set_status status settled_at]. rewrite Hs.
  destruct m, w; cbn;
    destruct (request_24h_expired a), (request_30d_expired a); cbn; repeat case_bool_decide; cbn; done || lia.
Qed.

(** Settling a row only adds weight. *)
Lemma weight_settle_mono m w a t :
  admission_row_ok a = true → status a = SettlementPending → weight m w a ≤ weight m w (set_status Settled t a).
Proof.
  intros Hok Hst. destruct (row_ok_nonneg a Hok). unfold weight.
  change (expired w (set_status Settled t a)) with (expired w a). destruct (expired w a); [done|].
  rewrite !(settled_before_not_settled a) by (by rewrite Hst).
  destruct m; cbn; try case_match; lia.
Qed.

Lemma applyLocked_Inv rec t d d' :
  Inv d → rec ∈ admissions d → status rec = SettlementPending →
  applyLockedAPIKeyBudgetSettlement rec t d = Ok d' → Inv d'.
Proof.
  intros HI Hin Hst. unfold applyLockedAPIKeyBudgetSettlement.
  destruct (settled_at rec) as [s|] eqn:Hs; [|done].
  intros (d1 & Hup & Hrows)%result_bind_Ok.
  assert (is_Some (states d !! client_key_id rec)) as Hsome by (eapply HI; eauto).
  apply (Inv_lag (client_key_id rec)) in HI.
  assert (admissions d1 = admissions d) as Had.
  { unfold update_state in Hup. repeat case_match; simplify_eq; done. }
  eapply (InvD_update_state _ _ (fun m w => counter m w (settlement_usage rec s))) in HI;
    [|exact Hup|done|intros; apply counter_add].
  eapply (InvD_row_one _ _ _ _ _ rec) in HI; [|exact Hrows|done|by rewrite Had|..].
  - apply (Inv_of_lag _ _ _ HI). intros m w. cbv beta.
    rewrite (settlement_usage_weight m w rec s (pg_time t)) by done. lia.
  - unfold str_eq. rewrite andb_true_iff, !bool_decide_eq_true. done.
  - intros b Hb. unfold str_eq. rewrite andb_true_iff, !bool_decide_eq_true. intros [Heq _].
    f_equal. eapply same_aid_same_row; eauto. by rewrite Had.
Qed.

Lemma apply_Inv aid t q d r d' :
  Inv d → applyAPIKeyBudgetSettlement aid t q d = Ok (r, d') → Inv d'.
Proof.
  intros HI. unfold applyAPIKeyBudgetSettlement, loadAPIKeyBudgetPendingSettlement.
  destruct (select_admission _ d) as [rec|] eqn:Hsel; [|done].
  destruct (select_admission_Some _ _ _ Hsel) as [Hin Haid].
  case_bool_decide as Hst; [naive_solver|].
  intros (d1 & Hup & [= <- <-])%result_bind_Ok.
  eapply applyLocked_Inv; eauto.
Qed.

Lemma head_elem {A} (l : list A) x : head l = Some x → x ∈ l.
Proof. destruct l; simpl; intros; simplify_eq. by constructor. Qed.

Lemma next_pending_Some locked d a :
  next_pending locked d = Some a →
  a ∈ admissions d ∧ status a = SettlementPending ∧ locked (id a) = false.
Proof.
  unfold next_pending. intros Ha%head_elem. rewrite merge_sort_Permutation in Ha.
  apply list_elem_of_In, filter_In in Ha as [Hin Hp].
  rewrite andb_true_iff, bool_decide_eq_true, negb_true_iff in Hp.
  split; [by apply list_elem_of_In|done].
Qed.

Lemma applyNext_Inv locked t d r d' :
  Inv d → applyNextAPIKeyBudgetSettlement locked t d = Ok (r, d') → Inv d'.
Proof.
  intros HI. unfold applyNextAPIKeyBudgetSettlement, loadAPIKeyBudgetPendingSettlement.
  destruct (next_pending locked d) as [rec|] eqn:Hsel; [|by intros [= <- <-]].
  destruct (next_pending_Some _ _ _ Hsel) as (Hin & Hst & _).
  intros (d1 & Hup & [= <- <-])%result_bind_Ok. by eapply applyLocked_Inv.
Qed.

Lemma abandon_Inv locked cutoff now n d r d' :
  Inv d → RunAPIKeyBudgetAbandonedCycle locked cutoff now n d = Ok (r, d') → Inv d'.
Proof.
  intros HI. unfold RunAPIKeyBudgetAbandonedCycle. destruct (_ || _); [done|]. cbv zeta.
  intros (d1 & Hup & [= <- <-])%result_bind_Ok.
  apply (InvD_rows_same _ _ _ _ _ _ HI) in Hup; [done|done|].
  intros a m w Ha Hc%bool_decide_eq_true.
  assert (status a = StatusAdmitted) as Hst.
  { unfold abandon_candidates in Hc. apply list_elem_of_fmap in Hc as (b & Hid & Hb).
    apply elem_of_take in Hb as (j & Hj & _). apply list_elem_of_lookup_2 in Hj.
    rewrite merge_sort_Permutation in Hj. apply list_elem_of_In, filter_In in Hj as [Hin Hp].
    apply list_elem_of_In in Hin. assert (a = b) as -> by (eapply same_id_same_row; eauto).
    rewrite !andb_true_iff, bool_decide_eq_true in Hp. tauto. }
  apply weight_unsettled; [done|by rewrite Hst|by destruct w].
Qed.

(** *** Expiry *)

Lemma candidate_usage_weight m w t t' a :
  counter m w (candidate_usage (expiry_candidate t a)) =
  weight m w a - weight m w (mark_expired (due_24h t a) (due_30d t a) t' a).
Proof.
  unfold candidate_usage, expiry_candidate, weight.
  cbn [Expire24h Expire30d UsageCharged24h UsageCharged30d C_ObservedTokens C_ObservedCost].
  unfold due_24h, due_30d. unfold settled_before.
  destruct w, m; cbn; destruct (request_24h_expired a), (request_30d_expired a); cbn;
    repeat case_bool_decide; cbn; repeat case_match; cbn in *; simplify_eq; lia.
Qed.

(** Expiring a row only removes weight. *)
Lemma weight_mark_expired m w e24 e30 t a :
  admission_row_ok a = true → weight m w (mark_expired e24 e30 t a) ≤ weight m w a.
Proof.
  intros Hok. pose proof (weight_nonneg m w a Hok). unfold weight in *.
  change (settled_before (mark_expired e24 e30 t a)) with (settled_before a).
  change (expires_at w (mark_expired e24 e30 t a)) with (expires_at w a).
  assert (expired w a = true → expired w (mark_expired e24 e30 t a) = true) as H'.
  { destruct w; cbn; by intros ->. }
  destruct (expired w a); [by rewrite H'|]. destruct (expired w (mark_expired _ _ _ _)); [done|by destruct m].
Qed.

Lemma key_weight_le_total m w d k0 δ a :
  InvD k0 δ d → a ∈ admissions d → weight m w a ≤ total m w (client_key_id a) (admissions d).
Proof.
  intros HI Ha. unfold total.
  assert (weight m w a = key_weight m w (client_key_id a) a) as ->.
  { unfold key_weight. by rewrite bool_decide_eq_true_2. }
  apply sumZ_elem_le; [|done]. intros b Hb. apply key_weight_nonneg. by apply HI.
Qed.

Lemma update_state_admissions k f d d' : update_state k f d = Ok d' → admissions d' = admissions d.
Proof. unfold update_state. intros. repeat case_match; simplify_eq; done. Qed.

(** In a consistent state [GREATEST(0, ..)] never cuts a counter off. *)
Lemma sub_candidate_exact d k0 δ t a s m w :
  InvD k0 δ d → (∀ m w, δ m w = 0) → a ∈ admissions d → states d !! client_key_id a = Some s →
  counter m w (sub_usage (used s) (candidate_usage (expiry_candidate t a))) =
  counter m w (used s) - counter m w (candidate_usage (expiry_candidate t a)).
Proof.
  intros HI Hδ Ha Hs. rewrite counter_sub, (candidate_usage_weight m w t t a).
  assert (counter m w (used s) = total m w (client_key_id a) (admissions d)) as Heq.
  { destruct HI as [_ _ _ Hst _]. destruct (Hst _ _ Hs) as (_ & _ & H).
    specialize (H m w). specialize (Hδ m w). destruct (decide _); lia. }
  pose proof (key_weight_le_total m w d k0 δ a HI Ha).
  assert (0 ≤ weight m w (mark_expired (due_24h t a) (due_30d t a) t a)); [|lia].
  apply weight_nonneg. change (admission_row_ok a = true). by apply HI.
Qed.

Lemma expire_candidate_Inv now t a d d' :
  Inv d → a ∈ admissions d → expire_candidate now (expiry_candidate t a) d = Ok d' →
  Inv d' ∧ ∀ b, b ∈ admissions d → id b ≠ id a → b ∈ admissions d'.
Proof.
  intros HI Ha. unfold expire_candidate. intros (d1 & Hup & Hrows)%result_bind_Ok.
  pose proof (update_state_admissions _ _ _ _ Hup) as Had.
  assert (is_Some (states d !! client_key_id a)) as Hsome by (eapply HI; eauto).
  split.
  - pose proof (Inv_lag (client_key_id a) d HI) as HI'.
    eapply (InvD_update_state _ _ (fun m w => - counter m w (candidate_usage (expiry_candidate t a)))) in HI';
      [|exact Hup|done|].
    2: { intros s Hs m w. cbn [used]. rewrite (sub_candidate_exact d 0 (fun _ _ => 0)) by done. lia. }
    eapply (InvD_row_one _ _ _ _ _ a) in HI'; [|exact Hrows|done|by rewrite Had|..].
    + apply (Inv_of_lag _ _ _ HI'). intros m w. cbv beta.
      rewrite (candidate_usage_weight m w t (pg_time now) a). cbn [expiry_candidate Expire24h Expire30d]. lia.
    + by apply bool_decide_eq_true.
    + by intros b _ Hb%bool_decide_eq_true.
  - intros b Hb Hne. destruct (update_admissions_Ok _ _ _ _ Hrows) as [-> _].
    cbn [set_admissions admissions]. apply elem_of_update_rows. exists b.
    rewrite bool_decide_eq_false_2 by done. by rewrite Had.
Qed.

Lemma expire_loop_Inv now t rows d d' :
  Inv d → NoDup (map id rows) → (∀ a, a ∈ rows → a ∈ admissions d) →
  expire_loop now (map (expiry_candidate t) rows) d = Ok d' → Inv d'.
Proof.
  revert d. induction rows as [|a rows IH]; intros d HI Hnd Hrows; cbn [map expire_loop].
  { by intros [= <-]. }
  cbn [map] in Hnd. apply NoDup_cons in Hnd as [Ha Hnd].
  intros (d1 & H1 & H2)%result_bind_Ok.
  apply expire_candidate_Inv in H1 as [HI1 Hkeep]; [|done|apply Hrows; constructor].
  apply (IH d1); try done. intros b Hb. apply Hkeep; [apply Hrows; by constructor|].
  intros Heq. apply Ha. rewrite <- Heq. by apply (list_elem_of_fmap_2 id).
Qed.

Lemma NoDup_map_sublist {A B} (f : A → B) (l k : list A) :
  l `sublist_of` k → NoDup (map f k) → NoDup (map f l).
Proof.
  induction 1 as [|x l k Hs IH|x l k Hs IH]; cbn [map]; [done|..];
    rewrite NoDup_cons; intros [Hx Hnd]; [|auto].
  apply NoDup_cons. split; [|auto]. intros (y & Hy & Hin)%list_elem_of_fmap. apply Hx. rewrite Hy.
  apply (list_elem_of_fmap_2 f). by eapply elem_of_sublist.
Qed.

Lemma filter_sublist {A} (p : A → bool) (l : list A) : List.filter p l `sublist_of` l.
Proof. induction l as [|a l IH]; simpl; [done|]. destruct (p a); by constructor. Qed.

(** Selecting rows with ORDER BY and LIMIT. *)
Lemma select_rows_spec {A B} (R : relation A) `{!RelDecision R} (f : A → B) (p : A → bool) n (l : list A) :
  NoDup (map f l) →
  let rows := take n (merge_sort R (List.filter p l)) in
  NoDup (map f rows) ∧ ∀ a, a ∈ rows → a ∈ l ∧ p a = true.
Proof.
  intros Hnd rows. split.
  - apply (NoDup_map_sublist f _ (merge_sort R (List.filter p l))); [apply sublist_take|].
    change (NoDup (f <$> merge_sort R (List.filter p l))). rewrite merge_sort_Permutation.
    apply (NoDup_map_sublist f _ l); [apply filter_sublist|done].
  - intros a Ha. apply elem_of_take in Ha as (j & Hj & _). apply list_elem_of_lookup_2 in Hj.
    rewrite merge_sort_Permutation in Hj. apply list_elem_of_In, filter_In in Hj as [? ?].
    split; [by apply list_elem_of_In|done].
Qed.

Lemma expiry_Inv locked now n d r d' :
  Inv d → RunAPIKeyBudgetExpiryCycle locked now n d = Ok (r, d') → Inv d'.
Proof.
  intros HI. unfold RunAPIKeyBudgetExpiryCycle. peel_guard. cbv zeta.
  intros (ks & _ & (d1 & Hl & [= <- <-])%result_bind_Ok)%result_bind_Ok.
  destruct (select_rows_spec expiry_le id (fun a => due (pg_time now) a && negb (locked (id a)))
    (Z.to_nat n) (admissions d) ltac:(apply HI)) as [Hnd Hin].
  eapply expire_loop_Inv; [exact HI|exact Hnd| |exact Hl]. intros a Ha. by apply Hin.
Qed.

(** *** Backfill *)

Lemma accumulate_weight m w u a :
  status a = Settled → settled_before a (expires_at w a) = true →
  counter m w (accumulate u a) = wrap64 (counter m w u + weight m w a)
  ∨ counter m w (accumulate u a) = counter m w u + weight m w a.
Proof.
  intros Hst Hsb. unfold weight. destruct (expired w a) eqn:He.
  - right. destruct m, w; cbn in *; rewrite He; lia.
  - left. destruct m, w; cbn in *; by rewrite He, ?Hsb.
Qed.

Lemma legacy_row_settled dbnow now k l i w :
  settled_before (legacy_row dbnow now k l i) (expires_at w (legacy_row dbnow now k l i)) = true.
Proof.
  unfold settled_before, hours24, days30. rewrite andb_true_iff, bool_decide_eq_true. split; [done|].
  apply bool_decide_eq_true. destruct w; cbn; unfold hours24, days30, Hour, Minute, Second; lia.
Qed.

Definition legacy_ok (l : apiKeyBudgetLegacyLog) : Prop :=
  0 ≤ L_ObservedTokens l ≤ max_log_cost ∧ 0 ≤ L_ObservedCost l ≤ max_log_cost.

Lemma max_log_cost_bound (j : Z) : 0 ≤ j ≤ maxAPIKeyBudgetLedgerBatchSize → 0 ≤ max_log_cost * j ≤ int64_max.
Proof.
  intros Hj. assert (0 ≤ max_log_cost ∧ max_log_cost * 1000 ≤ int64_max) by (split; by vm_compute).
  unfold maxAPIKeyBudgetLedgerBatchSize in Hj. nia.
Qed.

Lemma legacy_row_weight m w dbnow now k l i :
  legacy_ok l → 0 ≤ weight m w (legacy_row dbnow now k l i) ≤ max_log_cost.
Proof.
  intros [? ?]. assert (1 ≤ max_log_cost) by (by vm_compute). unfold weight.
  destruct (expired _ _); [lia|]. rewrite legacy_row_settled. destruct m; cbn; destruct (L_UsageKnown l); lia.
Qed.

Lemma accumulate_exact m w u dbnow now k l i j :
  legacy_ok l → 0 ≤ j < maxAPIKeyBudgetLedgerBatchSize → 0 ≤ counter m w u ≤ max_log_cost * j →
  counter m w (accumulate u (legacy_row dbnow now k l i)) =
  counter m w u + weight m w (legacy_row dbnow now k l i).
Proof.
  intros Hl Hj Hu. pose proof (legacy_row_weight m w dbnow now k l i Hl).
  pose proof (max_log_cost_bound (j + 1) ltac:(lia)).
  destruct (accumulate_weight m w u (legacy_row dbnow now k l i) eq_refl (legacy_row_settled _ _ _ _ _ _))
    as [->| ->]; [|done].
  apply wrap64_id. unfold in_int64, int64_min. lia.
Qed.

Lemma backfill_loop_InvD dbnow now k ls u d u' d' j :
  InvD k (fun m w => counter m w u) d → is_Some (states d !! k) →
  (∀ l, l ∈ ls → legacy_ok l) → 0 ≤ j → j + Z.of_nat (length ls) ≤ maxAPIKeyBudgetLedgerBatchSize →
  (∀ m w, 0 ≤ counter m w u ≤ max_log_cost * j) →
  backfill_loop dbnow now k ls u d = Ok (u', d') →
  InvD k (fun m w => counter m w u') d' ∧ states d' = states d ∧ keys d' = keys d.
Proof.
  revert u d j. induction ls as [|l ls IH]; intros u d j HI Hk Hls Hj Hlen Hu; cbn [backfill_loop].
  { by intros [= <- <-]. }
  cbn [length] in Hlen. assert (legacy_ok l) as Hl by (apply Hls; constructor).
  assert (∀ l, l ∈ ls → legacy_ok l) as Hls' by (intros; apply Hls; by constructor).
  destruct (has_admission _ d).
  { apply (IH u d j); try done. lia. }
  intros (d1 & Hins & Hrec)%result_bind_Ok.
  pose proof (InvD_insert _ _ _ _ _ HI Hins eq_refl eq_refl Hk) as H1.
  destruct (insert_admission_Ok _ _ _ Hins) as (_ & _ & Hd1).
  assert (∀ m w, counter m w (accumulate u (legacy_row dbnow now k l (next_id d))) =
    counter m w u + weight m w (legacy_row dbnow now k l (next_id d))) as Hacc.
  { intros m w. apply (accumulate_exact m w u dbnow now k l _ j); [done|lia|done]. }
  apply (IH _ d1 (j + 1)) in Hrec as (? & ? & ?); try done; try lia.
  - subst d1. done.
  - eapply InvD_ext; [|exact H1]. intros m w. by rewrite Hacc.
  - by subst d1.
  - intros m w. rewrite Hacc. pose proof (legacy_row_weight m w dbnow now k l (next_id d) Hl).
    specialize (Hu m w). lia.
Qed.

Lemma backfill_logs_ok d k ws we cursor n l k0 δ :
  InvD k0 δ d → l ∈ backfill_logs d k ws we cursor n → legacy_ok l.
Proof.
  intros HI (r & -> & Hr)%list_elem_of_fmap. apply elem_of_take in Hr as (j & Hj & _).
  apply list_elem_of_lookup_2 in Hj. rewrite merge_sort_Permutation in Hj.
  apply list_elem_of_In, filter_In in Hj as [Hin%list_elem_of_In _].
  destruct (inv_logs _ _ _ HI r Hin) as [Ht Hc].
  assert (2 ^ 31 - 1 ≤ max_log_cost) by (by vm_compute). unfold legacy_ok, legacy_log. cbn. lia.
Qed.

Lemma initialize_key_Inv dbnow now n k s d r d' :
  Inv d → states d !! k = Some s → 0 < n ≤ maxAPIKeyBudgetLedgerBatchSize →
  initialize_key dbnow now n k s d = Ok (r, d') → Inv d'.
Proof.
  intros HI Hs Hn. unfold initialize_key. destruct (init_window (init s) now) as [ws we]. cbv zeta.
  set (found := backfill_logs _ _ _ _ _ _). set (ls := if bool_decide _ then _ else _).
  assert (∀ l, l ∈ ls → l ∈ found) as Hsub.
  { intros l. unfold ls. case_bool_decide; [|done]. intros (j & Hj & _)%elem_of_take.
    by eapply list_elem_of_lookup_2. }
  assert (Z.of_nat (length ls) ≤ maxAPIKeyBudgetLedgerBatchSize) as Hlen.
  { unfold ls. case_bool_decide; [rewrite length_take|]; lia. }
  intros ([u d1] & Hloop & (d2 & Hup & [= <- <-])%result_bind_Ok)%result_bind_Ok.
  pose proof (Inv_lag k d HI) as HI'.
  destruct (backfill_loop_InvD dbnow now k ls zero_usage d u d1 0) as (H1 & Hst & _); try done.
  - eapply InvD_ext; [|exact HI']. by intros [] [].
  - intros l Hl. by eapply backfill_logs_ok, Hsub.
  - by intros [] [].
  - eapply (InvD_update_state _ _ (fun m w => counter m w u)) in H1; [|exact Hup|rewrite Hst; eauto|].
    + apply (Inv_of_lag _ _ _ H1). intros. lia.
    + intros s' _ m w. apply counter_add.
Qed.

Lemma init_Inv dbnow now n d r d' :
  Inv d → RunAPIKeyBudgetInitializationCycle dbnow now n d = Ok (r, d') → Inv d'.
Proof.
  intros HI. unfold RunAPIKeyBudgetInitializationCycle. destruct (_ || _) eqn:Hg; [done|].
  destruct (head _) as [k|]; [|by intros [= <- <-]].
  destruct (keys d !! k), (states d !! k) as [s|] eqn:Hs; try (by intros [= <- <-]).
  apply initialize_key_Inv; [done|done|]. apply orb_false_iff in Hg as [_ Hg].
  unfold validAPIKeyBudgetBatchSize in Hg.
  rewrite negb_false_iff, andb_true_iff, !bool_decide_eq_true in Hg. lia.
Qed.

(** *** Client keys *)

Lemma total_other_key m w k k0 δ d :
  InvD k0 δ d → states d !! k = None → total m w k (admissions d) = 0.
Proof.
  intros HI Hk. apply sumZ_zero. intros a Ha. unfold key_weight. rewrite bool_decide_eq_false_2; [done|].
  intros Heq. destruct (inv_rows _ _ _ HI a Ha) as (_ & _ & [s Hs]). congruence.
Qed.

(** Changing a key row that stays. *)
Lemma Inv_set_key d i key : Inv d → Inv (set_keys d (<[i := key]> (keys d))).
Proof.
  intros [Hi Ha Hr Hs Hl]. split; try done. intros k s Hk. destruct (Hs k s Hk) as (? & ? & ?).
  split_and!; [done| |done]. apply lookup_insert_is_Some'. by right.
Qed.

Lemma CreateAPIKey_Inv dbnow i d r d' : Inv d → CreateAPIKey dbnow i d = Ok (r, d') → Inv d'.
Proof.
  intros HI. unfold CreateAPIKey. destruct (keys d !! i) eqn:Hk; [done|]. cbn [is_some].
  intros [= _ <-]. destruct (states d !! i) as [s|] eqn:Hs.
  { destruct (inv_states _ _ _ HI i s Hs) as (_ & [? ?] & _). congruence. }
  apply Inv_set_key with (i := i) (key := {| limits := Build_apiKeyBudgetLimits 0 0 0 0 0 0;
    revoked_at := None; disabled_at := None |}) in HI as HI1.
  destruct HI1 as [Hi Ha Hr Hst Hl]. split; cbn [set_states set_keys states keys admissions] in *; try done.
  - intros a Hin. destruct (Hr a Hin) as (? & ? & ?). split_and!; [done..|].
    apply lookup_insert_is_Some'. by right.
  - intros k s Hs'. destruct (decide (k = i)) as [->|].
    + rewrite lookup_insert_eq in Hs'. injection Hs' as <-.
      split_and!; [done|apply lookup_insert_is_Some'; by left|]. intros m w.
      rewrite (total_other_key m w i 0 _ d HI Hs). by destruct m, w, (decide (i = 0)).
    + rewrite lookup_insert_ne in Hs' by done. by apply Hst.
Qed.

Lemma UpdateAPIKeyBudgets_Inv dbnow i l d r d' :
  Inv d → UpdateAPIKeyBudgets dbnow i l d = Ok (r, d') → Inv d'.
Proof.
  intros HI. unfold UpdateAPIKeyBudgets. destruct (keys d !! i) as [key|]; [|done].
  peel_guard. cbv zeta. set (d1 := set_keys d _). assert (Inv d1) as HI1 by (by apply Inv_set_key).
  destruct (_ && _); [|by intros [= _ <-]].
  destruct (states d1 !! i) as [s|] eqn:Hs; [|by intros [= _ <-]].
  destruct (_ && _); [|by intros [= _ <-]].
  intros (d2 & Hup & [= _ <-])%result_bind_Ok.
  pose proof (Inv_lag i d1 HI1) as H.
  eapply (InvD_update_state _ _ (fun _ _ => 0)) in H; [|exact Hup|eauto|intros; cbn [used reopen_init]; lia].
  by apply (Inv_of_lag _ _ _ H).
Qed.

Lemma total_delete_key m w k i (l : list admission) :
  k ≠ i → total m w k (List.filter (fun a => bool_decide (client_key_id a ≠ i)) l) = total m w k l.
Proof.
  intros Hne. unfold total. induction l as [|a l IH]; [done|]. cbn [List.filter].
  rewrite (sumZ_cons _ a l), <- IH. case_bool_decide as H; [by rewrite sumZ_cons|].
  unfold key_weight at 2. rewrite bool_decide_eq_false_2 by congruence. lia.
Qed.

Lemma delete_key_Inv i d : Inv d → Inv (delete_key i d).
Proof.
  intros [Hi Ha Hr Hs Hl]. split; cbn [delete_key admissions states keys next_id logs].
  - by eapply NoDup_map_sublist, Hi; apply filter_sublist.
  - by eapply NoDup_map_sublist, Ha; apply filter_sublist.
  - intros a [Hin Hne]%list_elem_of_In%filter_In. apply list_elem_of_In in Hin.
    apply bool_decide_eq_true in Hne. destruct (Hr a Hin) as (? & ? & ?). split_and!; [done..|].
    by rewrite lookup_delete_ne.
  - intros k s [Hne Hk]%lookup_delete_Some. destruct (Hs k s Hk) as (? & ? & H).
    split_and!; [done|by rewrite lookup_delete_ne|]. intros m w. rewrite total_delete_key by done. apply H.
  - intros l (l0 & -> & Hin)%list_elem_of_fmap. specialize (Hl l0 Hin). by case_bool_decide.
Qed.

(** ** Executions

    The transactions of the ledger in any order, with maintenance clocks up to
    [T]; new request logs come from the gateway. *)
Definition append_log (l : request_log) (d : db) : db :=
  {| keys := keys d; states := states d; admissions := admissions d; next_id := next_id d;
     logs := logs d ++ [l] |}.

Inductive step (T : Time) (d : db) : db → Prop :=
| step_admit dbnow k aid t : step T d (run (AdmitAPIKeyBudget dbnow k aid t) d).2
| step_enqueue request : step T d (run (enqueueAPIKeyBudgetSettlement request) d).2
| step_apply aid t q : step T d (run (applyAPIKeyBudgetSettlement aid t q) d).2
| step_apply_next locked t : step T d (run (applyNextAPIKeyBudgetSettlement locked t) d).2
| step_expire locked now n : now ≤ T → step T d (run (RunAPIKeyBudgetExpiryCycle locked now n) d).2
| step_abandon locked cutoff now n : step T d (run (RunAPIKeyBudgetAbandonedCycle locked cutoff now n) d).2
| step_init dbnow now n : now ≤ T → step T d (run (RunAPIKeyBudgetInitializationCycle dbnow now n) d).2
| step_create dbnow i : step T d (run (CreateAPIKey dbnow i) d).2
| step_budgets dbnow i l : step T d (run (UpdateAPIKeyBudgets dbnow i l) d).2
| step_revoke dbnow i : step T d (run (RevokeAPIKey dbnow i) d).2
| step_disable dbnow i b : step T d (run (SetAPIKeyDisabled dbnow i b) d).2
| step_delete i : step T d (run (DeleteRevokedAPIKey i) d).2
| step_log l : log_ok l → step T d (append_log l d).

(** The tables the migration leaves: no admission and zero counters. *)
Definition migrated (d : db) : Prop :=
  admissions d = [] ∧ (∀ l, l ∈ logs d → log_ok l) ∧
  ∀ k s, states d !! k = Some s → state_row_ok s = true ∧ is_Some (keys d !! k) ∧ used s = zero_usage.

Definition reachable (T : Time) (d : db) : Prop := ∃ d0, migrated d0 ∧ rtc (step T) d0 d.

Lemma migrated_Inv d : migrated d → Inv d.
Proof.
  intros (Ha & Hl & Hs). split; rewrite ?Ha; try done; try apply NoDup_nil_2.
  - by intros a ?%elem_of_nil.
  - intros k s Hk. destruct (Hs k s Hk) as (? & ? & Hu). split_and!; [done|done|]. intros m w.
    rewrite Hu. destruct m, w; cbn; by destruct (decide (k = 0)).
Qed.

Lemma run_Inv {A} (t : db → txn A) (P : db → Prop) d :
  P d → (∀ r d', t d = Ok (r, d') → P d') → P (run t d).2.
Proof. intros HI H. unfold run. destruct (t d) as [[a d']|] eqn:E; [by eapply H|done]. Qed.

Lemma step_Inv T d d' : Inv d → step T d d' → Inv d'.
Proof.
  intros HI Hstep. destruct Hstep; try (apply run_Inv; [done|intros r d1 H1]).
  - by eapply Admit_Inv.
  - by eapply enqueue_Inv.
  - by eapply apply_Inv.
  - by eapply applyNext_Inv.
  - by eapply expiry_Inv.
  - by eapply abandon_Inv.
  - by eapply init_Inv.
  - by eapply CreateAPIKey_Inv.
  - by eapply UpdateAPIKeyBudgets_Inv.
  - unfold RevokeAPIKey in H1. destruct (keys d !! i); simplify_eq. by apply Inv_set_key.
  - unfold SetAPIKeyDisabled in H1. destruct (keys d !! i); [|done].
    destruct (is_some _); simplify_eq. by apply Inv_set_key.
  - unfold DeleteRevokedAPIKey in H1. destruct (keys d !! i); [|done].
    destruct (is_some _); simplify_eq. by apply delete_key_Inv.
  - destruct HI as [Hi Ha Hr Hs Hl]. split; try done. cbn [append_log logs].
    intros x [Hx|Hx%list_elem_of_singleton]%elem_of_app; [auto|by subst].
Qed.

Lemma reachable_Inv T d : reachable T d → Inv d.
Proof.
  intros (d0 & H0 & Hrtc). apply migrated_Inv in H0. induction Hrtc; [done|].
  apply IHHrtc. by eapply step_Inv.
Qed.
End LedgerInv.
