(* ===== verification/LedgerThms.v ===== *)
(** * Properties of the budget ledger

    Over every execution from the migrated tables: the counters equal the
    admissions' usage, an admission is granted exactly when the history of the
    key is under its limits, settlement charges once, and expiry turns the
    counters into rolling 24 hour and 30 day windows. *)

From S2P Require Import Prelude GoStrings Ledger LedgerInv.
Import Ledger LedgerInv.

Module LedgerThms.

(** ** Specification of the admission decision *)

Definition limit (m : metric) (w : window) (l : apiKeyBudgetLimits) : Z :=
  match m, w with
  | Requests, W24 => Request24h l | Requests, W30 => Request30d l
  | Tokens, W24 => Token24h l | Tokens, W30 => Token30d l
  | Cost, W24 => Cost24h l | Cost, W30 => Cost30d l
  end.

Definition over (m : metric) (w : window) (l : apiKeyBudgetLimits) (hist : metric → window → Z) : Prop :=
  0 < limit m w l ∧ limit m w l ≤ hist m w.

Definition over_any (m : metric) (l : apiKeyBudgetLimits) (hist : metric → window → Z) : bool :=
  bool_decide (over m W24 l hist ∨ over m W30 l hist).

(** The verdict on a history of usage: requests first, then tokens, then cost. *)
Definition verdict (l : apiKeyBudgetLimits) (hist : metric → window → Z) : option ledger_error :=
  if over_any Requests l hist then Some ErrAPIKeyRequestBudgetExceeded
  else if over_any Tokens l hist then Some ErrAPIKeyTokenBudgetExceeded
  else if over_any Cost l hist then Some ErrAPIKeyCostBudgetExceeded
  else None.

Definition history (k : Z) (d : db) (m : metric) (w : window) : Z := total m w k (admissions d).

(** The answer that names a recorded admission. *)
Definition recorded (a : admission) : APIKeyBudgetAdmission :=
  {| ID := admission_id a; KeyID := client_key_id a; AdmittedAt := admitted_at a |}.

(** The number of admissions whose expiry is due. *)
Definition backlog (now : Time) (d : db) : Z := countZ (due (pg_time now)) (admissions d).

(** What a settlement observed at [t] adds to a counter. *)
Definition charge (m : metric) (w : window) (a : admission) (tokens cost t : Z) : Z :=
  if expired w a || bool_decide (expires_at w a ≤ t) then 0
  else match m with Requests => 0 | Tokens => tokens | Cost => cost end.

(** Usage in the window of [w] that ends at [now]. *)
Definition rolling_weight (m : metric) (w : window) (k : Z) (now : Time) (a : admission) : Z :=
  if bool_decide (client_key_id a = k) && bool_decide (now < admitted_at a + width w) then
    match m with
    | Requests => 1
    | Tokens => if settled_before a (admitted_at a + width w) then observed_tokens a else 0
    | Cost => if settled_before a (admitted_at a + width w) then observed_cost_microusd a else 0
    end
  else 0.

(** ** Counters *)

Lemma counter_history T d k s :
  reachable T d → states d !! k = Some s → ∀ m w, counter m w (used s) = history k d m w.
Proof.
  intros HI%reachable_Inv Hs m w. destruct (inv_states _ _ _ HI k s Hs) as (_ & _ & H).
  specialize (H m w). unfold history. destruct (decide _); lia.
Qed.

Lemma budgetLimitReached_over m w l hist :
  budgetLimitReached (limit m w l) (hist m w) = bool_decide (over m w l hist).
Proof. unfold budgetLimitReached, over. by rewrite bool_decide_and. Qed.

Lemma over_any_reached m l hist c24 c30 :
  c24 = hist m W24 → c30 = hist m W30 →
  budgetLimitReached (limit m W24 l) c24 || budgetLimitReached (limit m W30 l) c30 = over_any m l hist.
Proof.
  intros -> ->. rewrite !budgetLimitReached_over. unfold over_any. by rewrite bool_decide_or.
Qed.

Lemma state_row_ok_bump s s' :
  state_row_ok s = true → init s' = init s → version s' = version s + 1 → version s < int64_max →
  (∀ m w, 0 ≤ counter m w (used s') ≤ int64_max) → state_row_ok s' = true.
Proof.
  unfold state_row_ok. rewrite !andb_true_iff, !bool_decide_eq_true. intros [[_ Hi] Hv] -> -> Hlt Hu.
  split_and!; [by apply usage_ok_counter|done|lia..].
Qed.

Lemma update_state_succeeds k s f d :
  states d !! k = Some s → state_row_ok (f s) = true →
  update_state k f d = Ok (set_states d (<[k := f s]> (states d))).
Proof. intros Hs Hok. unfold update_state. by rewrite Hs, Hok. Qed.

Lemma insert_admission_succeeds row d :
  (∀ a, a ∈ admissions d → admission_id a ≠ admission_id (row (next_id d))) →
  admission_row_ok (row (next_id d)) = true →
  insert_admission row d = Ok {| keys := keys d; states := states d;
    admissions := admissions d ++ [row (next_id d)]; next_id := next_id d + 1; logs := logs d |}.
Proof.
  intros Hno Hok. unfold insert_admission.
  by rewrite (proj2 (has_admission_false _ _) Hno), Hok.
Qed.

Lemma live_row_ok dbnow aid k t i :
  validLiveBudgetAdmissionID aid = true → admission_row_ok (live_row dbnow aid k t i) = true.
Proof.
  unfold validLiveBudgetAdmissionID. rewrite !andb_true_iff, bool_decide_eq_true. intros [[Hlen _] _].
  unfold admission_row_ok. cbn. rewrite Hlen. rewrite !bool_decide_eq_true_2 by (done || lia). done.
Qed.

(** [C1] In every execution of the ledger, whatever the order in which
    admissions, settlements, expiry, abandonment, backfill and key changes
    commit, each of the six counters of a key equals the usage of its
    admissions in that window: one request per unexpired admission, and the
    observed tokens and cost of the settled ones. *)
Theorem ledger_counters_exact T d k s :
  reachable T d → states d !! k = Some s →
  ∀ m w, counter m w (used s) = history k d m w ∧ 0 ≤ counter m w (used s) ≤ int64_max.
Proof.
  intros Hr Hs m w. split; [by apply (counter_history T d k s)|].
  apply reachable_Inv in Hr. destruct (inv_states _ _ _ Hr k s Hs) as (Hok & _ & _).
  by apply usage_ok_counter, state_row_ok_used.
Qed.

(** [C2] For an initialised key and a fresh admission id the decision is the
    verdict on the key's history alone: the first exceeded budget is reported,
    and otherwise the admission is recorded, after which no request budget is
    exceeded. *)
Theorem admission_decision T d k key s aid t dbnow :
  reachable T d → 1 ≤ k → t ≠ 0 → validLiveBudgetAdmissionID aid = true →
  active_key k d = Some key → states d !! k = Some s → initialization_status (init s) = Ready →
  (∀ a, a ∈ admissions d → admission_id a ≠ aid) →
  version s < int64_max → (∀ w, counter Requests w (used s) < int64_max) →
  match verdict (limits key) (history k d) with
  | Some e => AdmitAPIKeyBudget dbnow k aid t d = Err e
  | None => ∃ d', AdmitAPIKeyBudget dbnow k aid t d =
        Ok ({| ID := aid; KeyID := k; AdmittedAt := t |}, d') ∧
      admissions d' = admissions d ++ [live_row dbnow aid k t (next_id d)] ∧
      ∀ w, 0 < limit Requests w (limits key) → history k d' Requests w ≤ limit Requests w (limits key)
  end.
Proof.
  intros Hr Hk Ht Hv Hkey Hs Hready Hfresh Hver Hreq.
  pose proof (counter_history T d k s Hr Hs) as Hc.
  unfold AdmitAPIKeyBudget, time_is_zero. rewrite !bool_decide_eq_false_2 by lia.
  rewrite Hv, Hkey, Hs. cbn [negb orb].
  destruct (List.find _ _) as [e|] eqn:Hf.
  { destruct (find_some _ _ Hf) as [Hin Heq]. unfold str_eq in Heq.
    rewrite andb_true_iff, bool_decide_eq_true in Heq. destruct Heq as [Heq _].
    by destruct (Hfresh e (proj2 (list_elem_of_In _ _) Hin)). }
  rewrite Hready, bool_decide_eq_false_2 by tauto. rewrite andb_false_r. cbv zeta.
  rewrite (over_any_reached Requests _ (history k d)) by (by rewrite <- Hc).
  rewrite (over_any_reached Tokens _ (history k d)) by (by rewrite <- Hc).
  rewrite (over_any_reached Cost _ (history k d)) by (by rewrite <- Hc).
  unfold verdict. destruct (over_any Requests _ _) eqn:Ho; [done|].
  destruct (over_any Tokens _ _); [done|]. destruct (over_any Cost _ _); [done|].
  rewrite insert_admission_succeeds by (done || by apply live_row_ok). cbn [result_bind].
  pose proof (reachable_Inv _ _ Hr) as HI.
  destruct (inv_states _ _ _ HI k s Hs) as (Hok & _ & _).
  erewrite (update_state_succeeds k s); [|done|].
  2: { apply (state_row_ok_bump s); try done. intros m w. cbn [used]. rewrite counter_add.
       pose proof (proj1 (usage_ok_counter _) (state_row_ok_used _ Hok) m w). specialize (Hreq w).
       destruct m, w; cbn in *; lia. }
  eexists. split; [reflexivity|]. split; [done|]. intros w Hlim.
  unfold history, total. cbn [set_states admissions]. rewrite sumZ_app, sumZ_cons, sumZ_nil.
  unfold over_any in Ho. apply bool_decide_eq_false in Ho.
  assert (¬ over Requests w (limits key) (history k d)) as Hno by (destruct w; tauto).
  unfold over, history, total in Hno. unfold key_weight at 2, live_row.
  rewrite bool_decide_eq_true_2 by done. unfold weight. destruct w; cbn in *; lia.
Qed.

(** Admission is idempotent: repeating the request of a recorded live
    admission returns it and changes nothing, whatever happened in between; a
    different key cannot reuse its id. *)
Theorem admission_idempotent T d a k key s t dbnow :
  reachable T d → a ∈ admissions d → src a = Live →
  validLiveBudgetAdmissionID (admission_id a) = true → 1 ≤ k → t ≠ 0 →
  active_key k d = Some key → states d !! k = Some s →
  AdmitAPIKeyBudget dbnow k (admission_id a) t d =
  if bool_decide (k = client_key_id a)
  then Ok (recorded a, d)
  else Err ErrInvalidInput.
Proof.
  intros Hr Ha Hsrc Hv Hk Ht Hkey Hs. pose proof (reachable_Inv _ _ Hr) as HI.
  unfold AdmitAPIKeyBudget, time_is_zero. rewrite !bool_decide_eq_false_2 by lia.
  rewrite Hv, Hkey, Hs. cbn [negb orb].
  destruct (List.find _ _) as [e|] eqn:Hf.
  - destruct (find_some _ _ Hf) as [Hin Heq]. unfold str_eq in Heq.
    rewrite andb_true_iff, !bool_decide_eq_true in Heq. destruct Heq as [Heq _].
    apply list_elem_of_In in Hin. assert (e = a) as -> by (by eapply same_aid_same_row).
    unfold recorded. repeat case_bool_decide; congruence.
  - apply list_elem_of_In in Ha. apply (find_none _ _ Hf) in Ha.
    unfold str_eq in Ha. by rewrite Hsrc, !bool_decide_eq_true_2 in Ha by done.
Qed.

(** ** Settlement *)

Lemma select_admission_of d a : Inv d → a ∈ admissions d → select_admission (admission_id a) d = Some a.
Proof.
  intros HI Ha. destruct (select_admission (admission_id a) d) as [b|] eqn:Hf.
  - destruct (select_admission_Some _ _ _ Hf) as [Hb Heq]. f_equal. by eapply same_aid_same_row.
  - apply list_elem_of_In, (find_none _ _ Hf) in Ha. unfold str_eq in Ha.
    by rewrite bool_decide_eq_true_2 in Ha.
Qed.

(** The guard on settlement requests. *)
Definition valid_request (request : APIKeyBudgetSettlementRequest) : Prop :=
  let aid := TrimSpace (AdmissionID request) in
  aid ≠ "" ∧ go_len aid ≤ 128 ∧ 0 ≤ ObservedTokens request ≤ int64_max ∧
  0 ≤ ObservedCostMicrousd request ≤ int64_max ∧ SettledAt request ≠ 0.

Lemma Settle_guard request d :
  valid_request request →
  SettleAPIKeyBudgetUsage request d =
    match run (enqueueAPIKeyBudgetSettlement (normalize_request request)) d with
    | (Err e, d1) => (Err e, d1)
    | (Ok (queued, final), d1) =>
        if final then (Ok queued, d1)
        else run (applyAPIKeyBudgetSettlement (TrimSpace (AdmissionID request)) (SettledAt request)
                    (AlreadySettled queued)) d1
    end.
Proof.
  intros (H1 & H2 & H3 & H4 & H5). unfold SettleAPIKeyBudgetUsage, str_eq, time_is_zero.
  by rewrite !bool_decide_eq_false_2 by (done || lia).
Qed.

(** The row after the first settlement. *)
Definition request_outcome (request : APIKeyBudgetSettlementRequest) : settlement_outcome :=
  if UsageKnown request then Observed else Missing.
Definition settled_row (request : APIKeyBudgetSettlementRequest) (a : admission) : admission :=
  set_status Settled (pg_time (SettledAt request))
    (observe_row (normalize_request request) (request_outcome request) a).

Lemma observe_row_ok request a :
  valid_request request → admission_row_ok a = true →
  admission_row_ok (observe_row (normalize_request request) (request_outcome request) a) = true.
Proof.
  intros (_ & _ & H3 & H4 & _) Ha. unfold admission_row_ok, bigint_nonneg in *.
  rewrite !andb_true_iff, !bool_decide_eq_true in Ha. destruct Ha as [[[[[Hlen _] _] H24] H30] _].
  unfold request_outcome. cbn -[go_len int64_max hours24 days30].
  destruct (UsageKnown request); rewrite !bool_decide_eq_true_2 by (done || lia); done.
Qed.

Lemma settle_row_ok t a :
  admission_row_ok a = true → status a = SettlementPending → admission_row_ok (set_status Settled t a) = true.
Proof.
  unfold admission_row_ok. cbn [set_status admission_id observed_tokens observed_cost_microusd
    request_24h_expires_at request_30d_expires_at admitted_at usage_known status outcome settled_at].
  intros H Hst. by rewrite Hst in H.
Qed.

(** The first transaction queues the observation. *)
Lemma enqueue_succeeds d a request :
  Inv d → a ∈ admissions d → status a = StatusAdmitted → valid_request request →
  TrimSpace (AdmissionID request) = admission_id a →
  let f := observe_row (normalize_request request) (request_outcome request) in
  ∃ d1, run (enqueueAPIKeyBudgetSettlement (normalize_request request)) d =
    (Ok (budgetSettlementFromRecord (f a) false, false), d1) ∧
  Inv d1 ∧ f a ∈ admissions d1 ∧ states d1 = states d.
Proof.
  intros HI Ha Hst Hreq Haid f. destruct (enqueueAPIKeyBudgetSettlement (normalize_request request) d)
    as [[r d1]|] eqn:He.
  - exists d1. unfold run. rewrite He. pose proof (enqueue_Inv _ _ _ _ _ _ HI He) as HI1. revert He.
    unfold enqueueAPIKeyBudgetSettlement, loadAPIKeyBudgetPendingSettlement.
    cbn [normalize_request AdmissionID]. rewrite Haid, (select_admission_of d a HI Ha).
    rewrite Hst, bool_decide_eq_false_2 by tauto. cbv zeta.
    intros (d2 & Hup & [= <- <-])%result_bind_Ok.
    destruct (update_admissions_Ok _ _ _ _ Hup) as [-> _]. split_and!; [|done| |done].
    + done.
    + cbn [set_admissions admissions]. apply elem_of_update_rows. exists a. split; [done|].
      unfold str_eq. by rewrite bool_decide_eq_true_2.
  - exfalso. revert He. unfold enqueueAPIKeyBudgetSettlement, loadAPIKeyBudgetPendingSettlement.
    cbn [normalize_request AdmissionID]. rewrite Haid, (select_admission_of d a HI Ha).
    rewrite Hst, bool_decide_eq_false_2 by tauto. cbv zeta. rewrite update_admissions_succeeds; [done|].
    intros b Hb Heq%bool_decide_eq_true. assert (b = a) as -> by (by eapply same_aid_same_row).
    apply observe_row_ok; [done|]. by apply HI.
Qed.

(** The second transaction charges the pending observation of a row. *)
Definition settled_state (t : Time) (u : usage) (s : budget_state) : budget_state :=
  {| init := init s; used := add_usage (used s) u; last_maintenance_at := last_maintenance_at s;
     version := version s + 1; updated_at := pg_time t |}.

Lemma settled_state_ok d a s t ts :
  Inv d → a ∈ admissions d → status a = SettlementPending → settled_at a = Some ts →
  states d !! client_key_id a = Some s → version s < int64_max →
  (∀ m w, counter m w (used s) + counter m w (settlement_usage a ts) ≤ int64_max) →
  state_row_ok (settled_state t (settlement_usage a ts) s) = true.
Proof.
  intros HI Ha Hst Hts Hs Hv Hroom. destruct (inv_states _ _ _ HI _ s Hs) as (Hok & _ & _).
  apply (state_row_ok_bump s); try done. intros m w. cbn [settled_state used]. rewrite counter_add.
  specialize (Hroom m w). pose proof (proj1 (usage_ok_counter _) (state_row_ok_used _ Hok) m w).
  rewrite (settlement_usage_weight m w a ts t Hst Hts) in *.
  pose proof (weight_settle_mono m w a t (proj1 (proj2 (inv_rows _ _ _ HI a Ha))) Hst). lia.
Qed.

Lemma applyLocked_succeeds d a s t ts :
  Inv d → a ∈ admissions d → status a = SettlementPending → settled_at a = Some ts →
  states d !! client_key_id a = Some s → version s < int64_max →
  (∀ m w, counter m w (used s) + counter m w (settlement_usage a ts) ≤ int64_max) →
  ∃ d1, applyLockedAPIKeyBudgetSettlement a t d = Ok d1 ∧
    states d1 = <[client_key_id a := settled_state t (settlement_usage a ts) s]> (states d) ∧
    admissions d1 = update_rows (fun b => str_eq (admission_id b) (admission_id a) &&
      bool_decide (status b = SettlementPending)) (set_status Settled (pg_time t)) (admissions d).
Proof.
  intros HI Ha Hst Hts Hs Hv Hroom. unfold applyLockedAPIKeyBudgetSettlement. rewrite Hts.
  rewrite (update_state_succeeds _ s) by (done || by eapply settled_state_ok). cbn [result_bind].
  rewrite update_admissions_succeeds; [eexists; split_and!; done|].
  intros b Hb [_ Hbst%bool_decide_eq_true]%andb_true_iff. apply settle_row_ok; [|done]. by apply HI.
Qed.

Lemma apply_succeeds d a s t ts q :
  Inv d → a ∈ admissions d → status a = SettlementPending → settled_at a = Some ts →
  states d !! client_key_id a = Some s → version s < int64_max →
  (∀ m w, counter m w (used s) + counter m w (settlement_usage a ts) ≤ int64_max) →
  ∃ d1, run (applyAPIKeyBudgetSettlement (admission_id a) t q) d =
      (Ok (budgetSettlementFromRecord a q), d1) ∧
    Inv d1 ∧ set_status Settled (pg_time t) a ∈ admissions d1 ∧
    states d1 !! client_key_id a = Some (settled_state t (settlement_usage a ts) s).
Proof.
  intros HI Ha Hst Hts Hs Hv Hroom.
  destruct (applyLocked_succeeds d a s t ts HI Ha Hst Hts Hs Hv Hroom) as (d1 & Hok & Hstates & Hadm).
  assert (applyAPIKeyBudgetSettlement (admission_id a) t q d = Ok (budgetSettlementFromRecord a q, d1)) as He.
  { unfold applyAPIKeyBudgetSettlement, loadAPIKeyBudgetPendingSettlement.
    by rewrite (select_admission_of d a HI Ha), Hst, bool_decide_eq_false_2, Hok by tauto. }
  exists d1. unfold run. rewrite He. split_and!; [done|by eapply apply_Inv| |].
  - rewrite Hadm. apply elem_of_update_rows. exists a. split; [done|].
    unfold str_eq. by rewrite Hst, !bool_decide_eq_true_2.
  - rewrite Hstates. apply lookup_insert_eq.
Qed.

Lemma settlement_usage_charge m w request a :
  counter m w (settlement_usage (observe_row (normalize_request request) (request_outcome request) a)
    (pg_time (SettledAt request))) =
  charge m w a (ObservedTokens (normalize_request request)) (ObservedCostMicrousd (normalize_request request))
    (pg_time (SettledAt request)).
Proof.
  unfold charge, settlement_usage, time_after.
  cbn [observe_row request_24h_expired request_30d_expired request_24h_expires_at request_30d_expires_at].
  destruct m, w; cbn; destruct (request_24h_expired a), (request_30d_expired a); cbn;
    repeat case_bool_decide; cbn; done || lia.
Qed.

(** [C3] Settling an admitted request charges its observed usage to the
    windows that are still open at the observation, once: every later
    settlement of the admission returns the first observation, marked as
    already settled, and leaves the database as it is. *)
Theorem settlement_exactly_once T d a s request :
  reachable T d → a ∈ admissions d → status a = StatusAdmitted → states d !! client_key_id a = Some s →
  valid_request request → TrimSpace (AdmissionID request) = admission_id a →
  version s < int64_max →
  (∀ m w, counter m w (used s) + ObservedTokens request ≤ int64_max ∧
          counter m w (used s) + ObservedCostMicrousd request ≤ int64_max) →
  let n := normalize_request request in
  let observation := {| S_AdmissionID := admission_id a; AlreadySettled := false;
    Outcome := request_outcome request; S_ObservedTokens := ObservedTokens n;
    S_ObservedCostMicrousd := ObservedCostMicrousd n |} in
  ∃ d' s', SettleAPIKeyBudgetUsage request d = (Ok observation, d') ∧
    states d' !! client_key_id a = Some s' ∧
    (∀ m w, counter m w (used s') = counter m w (used s) +
       charge m w a (ObservedTokens n) (ObservedCostMicrousd n) (pg_time (SettledAt request))) ∧
    ∀ request', valid_request request' → TrimSpace (AdmissionID request') = admission_id a →
      SettleAPIKeyBudgetUsage request' d' =
        (Ok (budgetSettlementFromRecord (settled_row request a) true), d').
Proof.
  intros Hr Ha Hst Hs Hreq Haid Hv Hroom n observation. pose proof (reachable_Inv _ _ Hr) as HI.
  destruct (enqueue_succeeds d a request HI Ha Hst Hreq Haid) as (d1 & He & HI1 & Ha1 & Hs1).
  set (a1 := observe_row _ _ a) in *.
  destruct (apply_succeeds d1 a1 s (SettledAt request) (pg_time (SettledAt request)) false)
    as (d2 & Hap & HI2 & Ha2 & Hs2); try done.
  { by rewrite Hs1. }
  { intros m w. unfold a1. rewrite settlement_usage_charge. destruct (Hroom m w).
    destruct (inv_states _ _ _ HI _ s Hs) as (Hok & _ & _).
    pose proof (proj1 (usage_ok_counter _) (state_row_ok_used _ Hok) m w).
    unfold charge. destruct (_ || _); [lia|]. destruct m; cbn [normalize_request ObservedTokens ObservedCostMicrousd]; destruct (UsageKnown request); lia. }
  exists d2. eexists. split_and!; [|exact Hs2| |].
  - rewrite Settle_guard by done. rewrite He, Haid. change (admission_id a) with (admission_id a1).
    cbn [AlreadySettled budgetSettlementFromRecord]. rewrite Hap. done.
  - intros m w. cbn [settled_state used]. rewrite counter_add. unfold a1. by rewrite settlement_usage_charge.
  - intros request' Hreq' Haid'. rewrite Settle_guard by done.
    unfold run, enqueueAPIKeyBudgetSettlement, loadAPIKeyBudgetPendingSettlement.
    cbn [normalize_request AdmissionID]. rewrite Haid'.
    pose proof (select_admission_of d2 (settled_row request a) HI2 Ha2) as Hsel.
    change (admission_id (settled_row request a)) with (admission_id a) in Hsel. by rewrite Hsel.
Qed.

(** ** Expiry *)

Lemma due_mark_expired t t' a : due t (mark_expired (due_24h t a) (due_30d t a) t' a) = false.
Proof.
  unfold due, due_24h, due_30d. cbn.
  destruct (request_24h_expired a), (request_30d_expired a); cbn; repeat case_bool_decide; done || lia.
Qed.

(** One candidate: the transaction succeeds and one row is no longer due. *)
Lemma expire_candidate_succeeds now t a d room :
  Inv d → a ∈ admissions d → due t a = true →
  (∀ k s, states d !! k = Some s → version s + 1 + room ≤ int64_max) → 0 ≤ room →
  ∃ d', expire_candidate now (expiry_candidate t a) d = Ok d' ∧
    (∀ k s, states d' !! k = Some s → version s + room ≤ int64_max) ∧
    countZ (due t) (admissions d') = countZ (due t) (admissions d) - 1.
Proof.
  intros HI Ha Hdue Hroom Hr. destruct (inv_rows _ _ _ HI a Ha) as (_ & _ & [s Hs]).
  destruct (inv_states _ _ _ HI _ s Hs) as (Hok & _ & _). unfold expire_candidate.
  erewrite (update_state_succeeds _ s); [|done|].
  2: { apply (state_row_ok_bump s); try done; [specialize (Hroom _ _ Hs); lia|]. intros m w. cbn [used].
       pose proof (proj1 (usage_ok_counter _) (state_row_ok_used _ Hok) m w).
       rewrite counter_sub. split; [lia|]. rewrite (candidate_usage_weight m w t (pg_time now) a).
       assert (weight m w (mark_expired (due_24h t a) (due_30d t a) (pg_time now) a) ≤ weight m w a); [|lia].
       apply weight_mark_expired. by apply HI. }
  cbn [result_bind]. rewrite update_admissions_succeeds.
  2: { intros b Hb _. change (admission_row_ok b = true). by apply HI. }
  eexists. split; [done|]. cbn [set_admissions set_states states admissions]. split.
  - intros k s' [(<- & <-)|[_ Hk]]%lookup_insert_Some; cbn [version].
    + specialize (Hroom _ _ Hs). lia.
    + specialize (Hroom _ _ Hk). lia.
  - unfold countZ. rewrite (sumZ_update_one _ _ _ _ a); [|apply HI|done| |].
    + rewrite Hdue. cbn [expiry_candidate Expire24h Expire30d]. rewrite due_mark_expired. cbn. lia.
    + by apply bool_decide_eq_true.
    + by intros b _ Hb%bool_decide_eq_true.
Qed.

Lemma expire_loop_succeeds now t rows d :
  Inv d → NoDup (map id rows) → (∀ a, a ∈ rows → a ∈ admissions d ∧ due t a = true) →
  (∀ k s, states d !! k = Some s → version s + Z.of_nat (length rows) ≤ int64_max) →
  ∃ d', expire_loop now (map (expiry_candidate t) rows) d = Ok d' ∧
    countZ (due t) (admissions d') = countZ (due t) (admissions d) - Z.of_nat (length rows).
Proof.
  revert d. induction rows as [|a rows IH]; intros d HI Hnd Hrows Hroom; cbn [map expire_loop length].
  { exists d. split; [done|lia]. }
  cbn [map] in Hnd. apply NoDup_cons in Hnd as [Ha Hnd].
  destruct (Hrows a ltac:(constructor)) as [Hin Hdue].
  destruct (expire_candidate_succeeds now t a d (Z.of_nat (length rows))) as (d1 & H1 & Hroom1 & Hc1); try done.
  { intros k s Hk. specialize (Hroom k s Hk). cbn [length] in Hroom. lia. }
  { lia. }
  rewrite H1. cbn [result_bind]. apply expire_candidate_Inv in H1 as [HI1 Hkeep]; try done.
  destruct (IH d1) as (d' & H2 & Hc2); try done.
  - intros b Hb. destruct (Hrows b ltac:(by constructor)). split; [|done]. apply Hkeep; [done|].
    intros Heq. apply Ha. rewrite <- Heq. by apply (list_elem_of_fmap_2 id).
  - exists d'. split; [done|]. lia.
Qed.

Lemma lock_succeeds t rows d :
  Inv d → (∀ a, a ∈ rows → a ∈ admissions d) →
  lockAPIKeyBudgetStateRows (map (expiry_candidate t) rows) d = Ok (lock_order (map (expiry_candidate t) rows)).
Proof.
  intros HI Hrows. unfold lockAPIKeyBudgetStateRows. rewrite (proj2 (forallb_forall _ _)); [done|].
  intros k Hk%list_elem_of_In. unfold lock_order in Hk. rewrite merge_sort_Permutation in Hk.
  rewrite elem_of_remove_dups, map_map in Hk.
  apply list_elem_of_fmap in Hk as (a & -> & Ha). cbn.
  destruct (inv_rows _ _ _ HI a (Hrows a Ha)) as (_ & _ & [s ->]). done.
Qed.

(** An expiry cycle without lock contention always commits, processes
    the smaller of the batch size and the number of due admissions, and leaves
    that many fewer due: cycles drain the backlog. *)
Theorem expiry_cycle_progress T d now batchSize :
  reachable T d → now ≠ 0 → 1 ≤ batchSize ≤ maxAPIKeyBudgetLedgerBatchSize →
  (∀ k s, states d !! k = Some s → version s + batchSize ≤ int64_max) →
  ∃ r d', RunAPIKeyBudgetExpiryCycle (fun _ => false) now batchSize d = Ok (r, d') ∧
    E_Processed r = Z.min batchSize (backlog now d) ∧ backlog now d' = backlog now d - E_Processed r.
Proof.
  intros HI%reachable_Inv Hnow Hb Hroom. set (t := pg_time now).
  set (rows := expiry_rows (fun _ => false) t batchSize d).
  destruct (select_rows_spec expiry_le id (fun a => due t a && negb false)
    (Z.to_nat batchSize) (admissions d) ltac:(apply HI)) as [Hnd Hin].
  assert (Z.of_nat (length rows) = Z.min batchSize (countZ (due t) (admissions d))) as Hlen.
  { unfold rows, expiry_rows. rewrite length_take, merge_sort_Permutation, countZ_filter.
    rewrite (filter_ext _ (due t)) by (intros a; by rewrite andb_true_r). lia. }
  destruct (expire_loop_succeeds now t rows d HI Hnd) as (d' & Hloop & Hc).
  { intros a Ha. destruct (Hin a Ha) as [? Hd]. by rewrite andb_true_r in Hd. }
  { intros k s Hk. specialize (Hroom k s Hk). lia. }
  eexists _, d'. unfold RunAPIKeyBudgetExpiryCycle, validAPIKeyBudgetBatchSize, time_is_zero.
  rewrite bool_decide_eq_false_2 by done. rewrite !bool_decide_eq_true_2 by lia. cbn [negb andb orb].
  cbv zeta. fold t. fold rows. rewrite lock_succeeds by (done || (intros a Ha; by destruct (Hin a Ha))). cbn [result_bind].
  rewrite Hloop. cbn [result_bind]. split; [reflexivity|]. cbn [E_Processed]. rewrite length_map. unfold backlog. fold t. lia.
Qed.

(** *** Rolling windows *)

(** Only due admissions are marked expired. *)
Definition expired_due (T : Time) (a : admission) : Prop :=
  ∀ w, expired w a = true → expires_at w a ≤ T.

Definition all_rows (P : admission → Prop) (d : db) : Prop := ∀ a, a ∈ admissions d → P a.

Lemma update_admissions_all P p f d d' :
  all_rows P d → (∀ a, a ∈ admissions d → p a = true → P (f a)) → update_admissions p f d = Ok d' → all_rows P d'.
Proof.
  intros HP Hf Hup. destruct (update_admissions_Ok _ _ _ _ Hup) as [-> _].
  intros b (a & Ha & ->)%elem_of_update_rows. destruct (p a) eqn:E; auto.
Qed.

Lemma insert_admission_all P row d d' :
  all_rows P d → P (row (next_id d)) → insert_admission row d = Ok d' → all_rows P d'.
Proof.
  intros HP Hrow Hins. destruct (insert_admission_Ok _ _ _ Hins) as (_ & _ & ->).
  intros a [Ha|Ha%list_elem_of_singleton]%elem_of_app; [auto|by subst].
Qed.

Lemma update_state_all P k f d d' : all_rows P d → update_state k f d = Ok d' → all_rows P d'.
Proof. intros HP Hup a. rewrite (update_state_admissions _ _ _ _ Hup). apply HP. Qed.

Lemma applyLocked_all T rec t d d' :
  all_rows (expired_due T) d → applyLockedAPIKeyBudgetSettlement rec t d = Ok d' → all_rows (expired_due T) d'.
Proof.
  intros HP. unfold applyLockedAPIKeyBudgetSettlement. destruct (settled_at rec); [|done].
  intros (d1 & H1 & H2)%result_bind_Ok. eapply update_admissions_all, H2; [by eapply update_state_all|].
  intros a Ha _. rewrite (update_state_admissions _ _ _ _ H1) in Ha. intros w. exact (HP a Ha w).
Qed.

Lemma expire_loop_all T now t rows d d' :
  Inv d → NoDup (map id rows) → (∀ a, a ∈ rows → a ∈ admissions d) → t ≤ T →
  all_rows (expired_due T) d → expire_loop now (map (expiry_candidate t) rows) d = Ok d' →
  all_rows (expired_due T) d'.
Proof.
  intros HI Hnd Hrows Ht. revert d HI Hrows. induction rows as [|a rows IH]; intros d HI Hrows HP; cbn [map expire_loop].
  { by intros [= <-]. }
  cbn [map] in Hnd. apply NoDup_cons in Hnd as [Ha Hnd]. intros (d1 & H1 & H2)%result_bind_Ok.
  pose proof H1 as H1'. apply expire_candidate_Inv in H1' as [HI1 Hkeep]; [|done|apply Hrows; constructor].
  apply (IH Hnd d1 HI1) in H2; [done|..].
  - intros b Hb. apply Hkeep; [apply Hrows; by constructor|]. intros Heq. apply Ha. rewrite <- Heq.
    by apply (list_elem_of_fmap_2 id).
  - unfold expire_candidate in H1. apply result_bind_Ok in H1 as (d2 & Hu & Hrow).
    eapply update_admissions_all, Hrow; [by eapply update_state_all|].
    intros b Hb Hid%bool_decide_eq_true. rewrite (update_state_admissions _ _ _ _ Hu) in Hb.
    assert (b = a) as -> by (eapply same_id_same_row; [exact HI|apply Hrows; constructor|done|done]).
    intros w Hw. specialize (HP a Hb w). cbn in Hw. unfold due_24h, due_30d in Hw.
    destruct w; cbn in *; destruct (request_24h_expired a), (request_30d_expired a); cbn in *;
      auto; apply bool_decide_eq_true in Hw; lia.
Qed.

Lemma backfill_loop_all T dbnow now k ls u d u' d' :
  now ≤ T → all_rows (expired_due T) d → backfill_loop dbnow now k ls u d = Ok (u', d') →
  all_rows (expired_due T) d'.
Proof.
  intros Hnow. revert u d. induction ls as [|l ls IH]; intros u d HP; cbn [backfill_loop].
  { by intros [= <- <-]. }
  destruct (has_admission _ d); [by apply IH|]. intros (d1 & Hins & Hrec)%result_bind_Ok.
  eapply IH, Hrec. eapply insert_admission_all, Hins; [done|].
  intros w. unfold time_after. destruct w; cbn; unfold time_after; rewrite negb_true_iff, bool_decide_eq_false; lia.
Qed.

Lemma Admit_all T dbnow k aid t d r d' :
  all_rows (expired_due T) d → AdmitAPIKeyBudget dbnow k aid t d = Ok (r, d') → all_rows (expired_due T) d'.
Proof.
  intros HP. unfold AdmitAPIKeyBudget. destruct (_ || _); [done|].
  destruct (active_key k d) as [key|]; [|done]. destruct (states d !! k) as [s|]; [|done].
  destruct (List.find _ _) as [e|]; [destruct (bool_decide _); naive_solver|].
  cbv zeta. do 4 peel_guard.
  intros (d1 & Hins & (d2 & Hup & [= <- <-])%result_bind_Ok)%result_bind_Ok.
  eapply update_state_all, Hup. eapply insert_admission_all, Hins; [done|]. by intros [].
Qed.

Lemma init_all T dbnow now n d r d' :
  now ≤ T → all_rows (expired_due T) d → RunAPIKeyBudgetInitializationCycle dbnow now n d = Ok (r, d') →
  all_rows (expired_due T) d'.
Proof.
  intros Hnow HP. unfold RunAPIKeyBudgetInitializationCycle. peel_guard.
  destruct (head _) as [k|]; [|by intros [= <- <-]].
  destruct (keys d !! k), (states d !! k) as [s|]; try (by intros [= <- <-]).
  unfold initialize_key. destruct (init_window _ _) as [ws we]. cbv zeta.
  intros ([u d1] & Hloop & (d2 & Hup & [= <- <-])%result_bind_Ok)%result_bind_Ok.
  eapply update_state_all, Hup. by eapply backfill_loop_all.
Qed.

Lemma expiry_all T locked now n d r d' :
  Inv d → now ≤ T → all_rows (expired_due T) d →
  RunAPIKeyBudgetExpiryCycle locked now n d = Ok (r, d') → all_rows (expired_due T) d'.
Proof.
  intros HI Hnow HP. unfold RunAPIKeyBudgetExpiryCycle. peel_guard. cbv zeta.
  intros (ks & _ & (d1 & Hl & [= <- <-])%result_bind_Ok)%result_bind_Ok.
  destruct (select_rows_spec expiry_le id (fun a => due (pg_time now) a && negb (locked (id a)))
    (Z.to_nat n) (admissions d) ltac:(apply HI)) as [Hnd Hin].
  eapply expire_loop_all; [exact HI|exact Hnd| | |exact HP|exact Hl].
  - intros a Ha. by apply Hin.
  - pose proof (time_truncate_bounds now Microsecond ltac:(done)). unfold pg_time. lia.
Qed.

Lemma enqueue_all T request d r d' :
  all_rows (expired_due T) d → enqueueAPIKeyBudgetSettlement request d = Ok (r, d') → all_rows (expired_due T) d'.
Proof.
  intros HP. unfold enqueueAPIKeyBudgetSettlement. destruct (loadAPIKeyBudgetPendingSettlement _ _ _ _); [|done].
  case_bool_decide; [by intros [= <- <-]|]. cbv zeta. intros (d1 & Hup & [= <- <-])%result_bind_Ok.
  eapply update_admissions_all, Hup; [done|]. intros b Hb _ w. exact (HP b Hb w).
Qed.

Lemma settle_txn_all T d r d' :
  all_rows (expired_due T) d →
  (∃ aid t q, applyAPIKeyBudgetSettlement aid t q d = Ok (r, d')) → all_rows (expired_due T) d'.
Proof.
  intros HP (aid & t & q & He). unfold applyAPIKeyBudgetSettlement in He.
  destruct (loadAPIKeyBudgetPendingSettlement _ _ _ _); [|done].
  case_bool_decide; [by simplify_eq|]. apply result_bind_Ok in He as (d1 & Hup & [= <- <-]).
  by eapply applyLocked_all.
Qed.

Lemma step_expired_due T d d' :
  Inv d → all_rows (expired_due T) d → step T d d' → all_rows (expired_due T) d'.
Proof.
  intros HI HP Hstep. destruct Hstep; try (apply run_Inv; [done|intros r d1 H1]); try done.
  - by eapply Admit_all.
  - by eapply enqueue_all.
  - by eapply settle_txn_all; eauto.
  - unfold applyNextAPIKeyBudgetSettlement in H1.
    destruct (loadAPIKeyBudgetPendingSettlement _ _ _ _); [|by simplify_eq].
    apply result_bind_Ok in H1 as (d2 & Hup & [= <- <-]). by eapply applyLocked_all.
  - by eapply expiry_all.
  - unfold RunAPIKeyBudgetAbandonedCycle in H1. destruct (_ || _) in H1; [done|]. cbv zeta in H1.
    apply result_bind_Ok in H1 as (d2 & Hup & [= <- <-]). eapply update_admissions_all, Hup; [done|].
    intros a Ha _ w. exact (HP a Ha w).
  - by eapply init_all.
  - unfold CreateAPIKey in H1. destruct (is_some _); [done|]. cbv zeta in H1. simplify_eq.
    destruct (states d !! i); exact HP.
  - unfold UpdateAPIKeyBudgets in H1. destruct (keys d !! i); [|done]. cbv zeta in H1.
    repeat case_match; simplify_eq; try exact HP.
    apply result_bind_Ok in H1 as (d2 & Hup & [= <- <-]). by eapply update_state_all; [|exact Hup].
  - unfold RevokeAPIKey in H1. destruct (keys d !! i); simplify_eq. exact HP.
  - unfold SetAPIKeyDisabled in H1. destruct (keys d !! i); [|done]. destruct (is_some _); simplify_eq. exact HP.
  - unfold DeleteRevokedAPIKey in H1. destruct (keys d !! i); [|done]. destruct (is_some _); simplify_eq.
    intros b [Hb _]%list_elem_of_In%filter_In. apply HP. by apply list_elem_of_In.
Qed.

Lemma reachable_expired_due T d : reachable T d → all_rows (expired_due T) d.
Proof.
  intros (d0 & H0 & Hrtc).
  assert (Inv d0 ∧ all_rows (expired_due T) d0) as HH.
  { split; [by apply migrated_Inv|]. destruct H0 as [H0 _]. intros a. rewrite H0. by intros ?%elem_of_nil. }
  clear H0. cut (Inv d ∧ all_rows (expired_due T) d); [tauto|].
  induction Hrtc as [|d1 d2 d3 Hs Hrtc IH]; [done|]. apply IH.
  split; [eapply step_Inv; [apply HH|exact Hs]|by eapply step_expired_due; [apply HH..|]].
Qed.

(** [C4] Once expiry has caught up with the clock [T], the counters are the
    usage of rolling windows: exactly the key's admissions of the last 24 hours
    (30 days), and the tokens and cost they were settled with inside the
    window. *)
Theorem rolling_window_exact T d k s :
  reachable T d → countZ (due T) (admissions d) = 0 → states d !! k = Some s →
  ∀ m w, counter m w (used s) = sumZ (rolling_weight m w k T) (admissions d).
Proof.
  intros Hr Hdue Hs m w. rewrite (counter_history T d k s Hr Hs). unfold history, total.
  apply sumZ_ext. intros a Ha. pose proof (reachable_expired_due T d Hr a Ha w) as Hexp.
  pose proof (reachable_Inv _ _ Hr) as HI. destruct (inv_rows _ _ _ HI a Ha) as (_ & Hok & _).
  rewrite (row_ok_expires a w Hok) in Hexp.
  assert (expired w a = false → T < admitted_at a + width w) as Hopen.
  { intros He. assert (due T a = false) as Hd.
    { destruct (due T a) eqn:Ed; [|done]. rewrite countZ_filter in Hdue.
      assert (a ∈ List.filter (due T) (admissions d)) as Hf by (by apply list_elem_of_In, filter_In; split; [apply list_elem_of_In|]).
      destruct (List.filter _ _); [by apply elem_of_nil in Hf|done]. }
    unfold due, due_24h, due_30d in Hd. rewrite <- (row_ok_expires a w Hok).
    destruct w; cbn in He |- *; rewrite He in Hd; cbn in Hd.
    - apply orb_false_iff in Hd as [Hd _]. apply bool_decide_eq_false in Hd. lia.
    - apply orb_false_iff in Hd as [_ Hd]. apply bool_decide_eq_false in Hd. lia. }
  unfold key_weight, rolling_weight, weight. rewrite (row_ok_expires a w Hok).
  case_bool_decide; [|done]. cbn [andb]. destruct (expired w a).
  - rewrite bool_decide_eq_false_2; [done|]. specialize (Hexp eq_refl). lia.
  - by rewrite bool_decide_eq_true_2 by auto.
Qed.

(** ** A concrete execution

    One key with a budget of two requests per day; one request admitted at
    noon of some day and settled, and a second one admitted. *)
Definition demo_state : budget_state :=
  {| init := Build_init_columns Ready None None None 0 (Some 1000); used := zero_usage;
     last_maintenance_at := None; version := 1; updated_at := 1000 |}.
Definition demo_key : client_key :=
  {| limits := Build_apiKeyBudgetLimits 2 100 0 0 0 0; revoked_at := None; disabled_at := None |}.
Definition demo0 : db :=
  {| keys := {[ 1 := demo_key ]}; states := {[ 1 := demo_state ]}; admissions := []; next_id := 1; logs := [] |}.
Definition demo_aid : string := "0123456789abcdef0123456789abcdef".
Definition demo_t : Time := 12 * Hour.
Definition demo_request : APIKeyBudgetSettlementRequest :=
  {| AdmissionID := demo_aid; ObservedTokens := 30; ObservedCostMicrousd := 7; UsageKnown := true;
     SettledAt := demo_t + Second |}.
Definition demo1 : db := (run (AdmitAPIKeyBudget 0 1 demo_aid demo_t) demo0).2.
Definition demo_row : admission := live_row 0 demo_aid 1 demo_t 1.
Definition demo_state1 : budget_state :=
  {| init := init demo_state; used := Build_usage 1 1 0 0 0 0; last_maintenance_at := None;
     version := 2; updated_at := demo_t |}.

Lemma demo0_migrated : migrated demo0.
Proof.
  split_and!; [done|by intros l ?%elem_of_nil|]. intros k s. unfold demo0. cbn [states].
  intros [<- <-]%lookup_singleton_Some. split_and!; [done|by eexists|done].
Qed.

Lemma demo1_reachable T : reachable T demo1.
Proof. exists demo0. split; [apply demo0_migrated|]. apply rtc_once, step_admit. Qed.

Lemma demo1_row : demo_row ∈ admissions demo1.
Proof. assert (admissions demo1 = [demo_row]) as -> by (by vm_compute). constructor. Qed.

Lemma demo_request_valid : valid_request demo_request.
Proof. unfold valid_request. split_and!; vm_compute; congruence. Qed.

Lemma ledger_counters_exact_witness :
  counter Requests W24 (used demo_state1) = history 1 demo1 Requests W24 ∧
  0 ≤ counter Requests W24 (used demo_state1) ≤ int64_max.
Proof. apply (ledger_counters_exact 0 demo1 1 demo_state1); [apply demo1_reachable|by vm_compute]. Defined.

Lemma admission_decision_witness :
  ∃ d', AdmitAPIKeyBudget 0 1 "1123456789abcdef0123456789abcdef" demo_t demo1 =
    Ok ({| ID := "1123456789abcdef0123456789abcdef"; KeyID := 1; AdmittedAt := demo_t |}, d') ∧
    admissions d' = admissions demo1 ++ [live_row 0 "1123456789abcdef0123456789abcdef" 1 demo_t (next_id demo1)] ∧
    ∀ w, 0 < limit Requests w (limits demo_key) → history 1 d' Requests w ≤ limit Requests w (limits demo_key).
Proof.
  assert (verdict (limits demo_key) (history 1 demo1) = None) as Hv by (by vm_compute).
  pose proof (admission_decision 0 demo1 1 demo_key demo_state1 "1123456789abcdef0123456789abcdef" demo_t 0
    (demo1_reachable 0)) as H.
  rewrite Hv in H. apply H.
  - lia.
  - done.
  - reflexivity.
  - by vm_compute.
  - by vm_compute.
  - reflexivity.
  - intros a. assert (admissions demo1 = [demo_row]) as -> by (by vm_compute).
    by intros ->%list_elem_of_singleton.
  - by vm_compute.
  - intros []; by vm_compute.
Defined.

Lemma admission_idempotent_witness :
  AdmitAPIKeyBudget 0 1 demo_aid (demo_t + 5) demo1 =
  Ok ({| ID := demo_aid; KeyID := 1; AdmittedAt := demo_t |}, demo1).
Proof.
  exact (admission_idempotent 0 demo1 demo_row 1 demo_key demo_state1 (demo_t + 5) 0
    (demo1_reachable 0) demo1_row eq_refl eq_refl ltac:(lia) ltac:(done) eq_refl eq_refl).
Defined.

Lemma settlement_exactly_once_witness :
  ∃ d' s', SettleAPIKeyBudgetUsage demo_request demo1 =
    (Ok {| S_AdmissionID := demo_aid; AlreadySettled := false; Outcome := Observed;
           S_ObservedTokens := 30; S_ObservedCostMicrousd := 7 |}, d') ∧
    states d' !! 1 = Some s' ∧ counter Tokens W24 (used s') = 30.
Proof.
  destruct (settlement_exactly_once 0 demo1 demo_row demo_state1 demo_request)
    as (d' & s' & H1 & H2 & H3 & _).
  - apply demo1_reachable.
  - apply demo1_row.
  - reflexivity.
  - by vm_compute.
  - apply demo_request_valid.
  - by vm_compute.
  - by vm_compute.
  - intros [] []; by vm_compute.
  - exists d', s'. split_and!; [exact H1|exact H2|]. rewrite H3. by vm_compute.
Defined.

Lemma expiry_cycle_progress_witness :
  ∃ r d', RunAPIKeyBudgetExpiryCycle (fun _ => false) (demo_t + hours24) 10 demo1 = Ok (r, d') ∧
    E_Processed r = 1 ∧ backlog (demo_t + hours24) d' = 0.
Proof.
  destruct (expiry_cycle_progress 0 demo1 (demo_t + hours24) 10) as (r & d' & H1 & H2 & H3).
  - apply demo1_reachable.
  - by vm_compute.
  - by vm_compute.
  - intros k s. assert (states demo1 = {[ 1 := demo_state1 ]}) as -> by (by vm_compute).
    intros [_ <-]%lookup_singleton_Some. by vm_compute.
  - exists r, d'. split; [exact H1|]. rewrite H3, H2. by vm_compute.
Defined.

Lemma rolling_window_exact_witness :
  counter Requests W24 (used demo_state1) = sumZ (rolling_weight Requests W24 1 (demo_t + Hour)) (admissions demo1).
Proof.
  apply (rolling_window_exact (demo_t + Hour) demo1 1 demo_state1);
    [apply demo1_reachable|by vm_compute|by vm_compute].
Defined.
End LedgerThms.
