(* ===== verification/Account.v ===== *)
(** * Provider accounts

    The account data of [provider/service.go], the endpoint capabilities of
    [provider/endpoint.go], the credential normalisation, and when an account
    may be scheduled. *)

From S2P Require Import Prelude GoStrings.

Module Account.

(** ** Errors *)

Inductive perror :=
| ErrNotConfigured
| ErrNotConnected
| ErrInvalidState
| ErrInvalidInput
| ErrAccountsDisabled
| ErrAccountsUnavailable
| ErrModelUnavailable
| ErrSessionBindingNotFound
| ErrRoutingPoolNotFound
| ErrRoutingPoolEmpty
| ErrRoutingPoolCycle
| ErrRoutingPoolExhausted
| ErrEndpointUnavailable
| ErrOther (message : string)
| ErrWrap (prefix : string) (inner : perror).

#[global] Instance perror_eq_dec : EqDecision perror.
Proof. solve_decision. Defined.

(** [errors.Is(err, target)] for a sentinel [target]. *)
Fixpoint is_err (e target : perror) : bool :=
  bool_decide (e = target) || match e with ErrWrap _ inner => is_err inner target | _ => false end.

Fixpoint error_text (e : perror) : string :=
  match e with
  | ErrNotConfigured => "provider not configured"
  | ErrNotConnected => "provider not connected"
  | ErrInvalidState => "invalid oauth state"
  | ErrInvalidInput => "invalid provider input"
  | ErrAccountsDisabled => "provider accounts disabled"
  | ErrAccountsUnavailable => "provider accounts unavailable"
  | ErrModelUnavailable => "model unavailable"
  | ErrSessionBindingNotFound => "provider session binding not found"
  | ErrRoutingPoolNotFound => "routing pool not found"
  | ErrRoutingPoolEmpty => "routing pool empty"
  | ErrRoutingPoolCycle => "routing pool fallback cycle"
  | ErrRoutingPoolExhausted => "routing pool fallback chain exhausted"
  | ErrEndpointUnavailable => "provider endpoint unavailable"
  | ErrOther m => m
  | ErrWrap p inner => p +++ ": " +++ error_text inner
  end.

(** ** Data *)

(** A Go [map[string]string]; [None] is the nil map. *)
Abbreviation metadata_map := (option (gmap string string)).

Definition meta_get (m : metadata_map) (k : string) : string :=
  match m with Some m => default "" (m !! k) | None => "" end.

Record AccountCredential := {
  CredentialType : string;
  C_EncryptedAccessToken : string;
  C_EncryptedRefreshToken : string;
  C_EncryptedIDToken : string;
  C_AccessTokenExpiresAt : option Time;
  C_LastRefreshAt : option Time;
  C_LastRefreshError : string;
  C_LastRefreshErrorAt : option Time;
  EncryptedAPIKey : string;
  EncryptedProxyURL : string;
  C_BaseURL : string;
  C_Metadata : metadata_map
}.

Record Account := {
  ID : Z;
  Provider : string;
  AccountType : string;
  Subject : string;
  Name : string;
  DisplayName : string;
  BaseURL : string;
  Credential : AccountCredential;
  EncryptedAccessToken : string;
  EncryptedRefreshToken : string;
  EncryptedIDToken : string;
  AccessTokenExpiresAt : option Time;
  LastRefreshAt : option Time;
  Enabled : bool;
  Priority : Z;
  GlobalPriority : Z;
  RoutingPoolPriority : option Z;
  LoadFactor : Z;
  MaxConcurrentRequests : Z;
  LastUsedAt : option Time;
  LastError : string;
  LastErrorAt : option Time;
  LastTestAt : option Time;
  LastTestStatus : string;
  LastTestError : string;
  Metadata : metadata_map;
  Status : string;
  StatusReason : string;
  FingerprintHash : string;
  UserAgentHash : string;
  IPHash : string;
  FailureCount : Z;
  CircuitOpenUntil : option Time;
  RateLimitedUntil : option Time;
  FingerprintProfileID : option Z;
  LastRefreshError : string;
  LastRefreshErrorAt : option Time
}.

Record AccountModel := {
  M_AccountID : Z;
  Model : string;
  M_Enabled : bool;
  M_Metadata : metadata_map
}.

Record RoutingPool := {
  P_ID : Z;
  P_Name : string;
  P_Enabled : bool;
  FallbackPoolID : option Z
}.

Record SelectedAccount := {
  AccountID : Z;
  S_Provider : string;
  S_AccountType : string;
  S_DisplayName : string;
  AuthorizationToken : string;
  S_BaseURL : string;
  ProxyURL : string;
  ChatGPTAccountID : string;
  S_MaxConcurrentRequests : Z;
  RoutingPoolID : Z;
  RoutingPoolName : string;
  RoutingPoolFallbackDepth : Z;
  RoutingPoolFallbackChain : string;
  RoutingPoolError : string;
  FingerprintUA : string;
  FingerprintTLS : string;
  FingerprintHeaders : metadata_map
}.

Definition AccountTypeCodexOAuth : string := "codex_oauth".
Definition AccountTypeAPIUpstream : string := "api_upstream".
Definition AccountStatusActive : string := "active".
Definition AccountStatusDisabled : string := "disabled".
Definition AccountStatusRateLimited : string := "rate_limited".
Definition AccountStatusCircuitOpen : string := "circuit_open".
Definition AccountStatusExpired : string := "expired".
Definition defaultCircuitOpen : Duration := 5 * Minute.

(** ** Endpoint capabilities ([endpoint.go]) *)

Definition EndpointChatCompletions : string := "chat_completions".
Definition EndpointResponses : string := "responses".
Definition EndpointCapabilitySupported : string := "supported".
Definition EndpointCapabilityUnsupported : string := "unsupported".
Definition EndpointCapabilityUnknown : string := "unknown".

Definition NormalizeEndpoint (endpoint : string) : result perror string :=
  let e := ToLower (TrimSpace endpoint) in
  if str_eq e "" then Ok ""
  else if str_eq e EndpointChatCompletions || str_eq e "chat" || str_eq e "/v1/chat/completions"
  then Ok EndpointChatCompletions
  else if str_eq e EndpointResponses || str_eq e "/v1/responses" then Ok EndpointResponses
  else Err ErrInvalidInput.

Definition normalizeEndpointCapability (capability : string) : string :=
  let c := ToLower (TrimSpace capability) in
  if str_eq c EndpointCapabilitySupported then EndpointCapabilitySupported
  else if str_eq c EndpointCapabilityUnsupported then EndpointCapabilityUnsupported
  else EndpointCapabilityUnknown.

Definition EndpointCapabilityMetadata (endpoint capability : string) : metadata_map :=
  match NormalizeEndpoint endpoint with
  | Err _ => None
  | Ok e => if str_eq e "" then None
            else Some {[ "endpoint." +++ e := normalizeEndpointCapability capability ]}
  end.

Definition cloneStringMap (values : metadata_map) : metadata_map :=
  match values with
  | Some m => if bool_decide (m = ∅) then None else Some m
  | None => None
  end.

Definition MergeEndpointCapabilityMetadata (metadata : metadata_map) (endpoint capability : string)
  : metadata_map :=
  let merged := cloneStringMap metadata in
  match EndpointCapabilityMetadata endpoint capability with
  | None => merged
  | Some new => Some (new ∪ default ∅ merged)
  end.

(** The loop over the canonical and the short key. *)
Fixpoint capability_of_keys (metadata : metadata_map) (keys : list string) : string :=
  match keys with
  | [] => EndpointCapabilityUnknown
  | key :: keys =>
      let capability := normalizeEndpointCapability (meta_get metadata key) in
      if negb (str_eq capability EndpointCapabilityUnknown) ||
         negb (str_eq (TrimSpace (meta_get metadata key)) "")
      then capability else capability_of_keys metadata keys
  end.

Definition EndpointCapability (metadata : metadata_map) (endpoint : string) : string :=
  match NormalizeEndpoint endpoint with
  | Err _ => EndpointCapabilityUnknown
  | Ok e => if str_eq e "" then EndpointCapabilityUnknown
            else capability_of_keys metadata ["endpoint." +++ e; e]
  end.

Definition endpointCapabilityUnsupported (metadata : metadata_map) (endpoint : string) : bool :=
  str_eq (EndpointCapability metadata endpoint) EndpointCapabilityUnsupported.

(** ** Credential normalisation *)

Definition str_or (s t : string) : string := if str_eq s "" then t else s.
Definition opt_or {A} (o p : option A) : option A := match o with None => p | Some _ => o end.

(** The assignments in their order: the account side is filled from the
    credential, then the credential from the account. *)
Definition normalizeAccountCredentialFields (a : Account) : Account :=
  let c := Credential a in
  let accountType := if str_eq (TrimSpace (AccountType a)) "" then AccountTypeCodexOAuth else AccountType a in
  let metadata := opt_or (opt_or (Metadata a) (C_Metadata c)) (Some ∅) in
  let c_metadata := opt_or (C_Metadata c) metadata in
  let access := str_or (EncryptedAccessToken a) (C_EncryptedAccessToken c) in
  let refresh := str_or (EncryptedRefreshToken a) (C_EncryptedRefreshToken c) in
  let idt := str_or (EncryptedIDToken a) (C_EncryptedIDToken c) in
  let expires := opt_or (AccessTokenExpiresAt a) (C_AccessTokenExpiresAt c) in
  let lastRefresh := opt_or (LastRefreshAt a) (C_LastRefreshAt c) in
  let refreshErr := str_or (LastRefreshError a) (C_LastRefreshError c) in
  let refreshErrAt := opt_or (LastRefreshErrorAt a) (C_LastRefreshErrorAt c) in
  let baseURL := str_or (BaseURL a) (C_BaseURL c) in
  {| ID := ID a; Provider := Provider a; AccountType := accountType; Subject := Subject a; Name := Name a;
     DisplayName := DisplayName a; BaseURL := baseURL;
     Credential := {|
       CredentialType := CredentialType c;
       C_EncryptedAccessToken := str_or (C_EncryptedAccessToken c) access;
       C_EncryptedRefreshToken := str_or (C_EncryptedRefreshToken c) refresh;
       C_EncryptedIDToken := str_or (C_EncryptedIDToken c) idt;
       C_AccessTokenExpiresAt := opt_or (C_AccessTokenExpiresAt c) expires;
       C_LastRefreshAt := opt_or (C_LastRefreshAt c) lastRefresh;
       C_LastRefreshError := str_or (C_LastRefreshError c) refreshErr;
       C_LastRefreshErrorAt := opt_or (C_LastRefreshErrorAt c) refreshErrAt;
       EncryptedAPIKey := EncryptedAPIKey c; EncryptedProxyURL := EncryptedProxyURL c;
       C_BaseURL := str_or (C_BaseURL c) baseURL;
       C_Metadata := c_metadata |};
     EncryptedAccessToken := access; EncryptedRefreshToken := refresh; EncryptedIDToken := idt;
     AccessTokenExpiresAt := expires; LastRefreshAt := lastRefresh; Enabled := Enabled a;
     Priority := Priority a; GlobalPriority := GlobalPriority a; RoutingPoolPriority := RoutingPoolPriority a;
     LoadFactor := LoadFactor a; MaxConcurrentRequests := MaxConcurrentRequests a;
     LastUsedAt := LastUsedAt a; LastError := LastError a; LastErrorAt := LastErrorAt a;
     LastTestAt := LastTestAt a; LastTestStatus := LastTestStatus a; LastTestError := LastTestError a;
     Metadata := metadata; Status := Status a; StatusReason := StatusReason a;
     FingerprintHash := FingerprintHash a; UserAgentHash := UserAgentHash a; IPHash := IPHash a;
     FailureCount := FailureCount a; CircuitOpenUntil := CircuitOpenUntil a;
     RateLimitedUntil := RateLimitedUntil a; FingerprintProfileID := FingerprintProfileID a;
     LastRefreshError := refreshErr; LastRefreshErrorAt := refreshErrAt |}.

Fixpoint first_trimmed (l : list string) : string :=
  match l with
  | [] => ""
  | s :: l => if str_eq (TrimSpace s) "" then first_trimmed l else TrimSpace s
  end.

Definition accountDisplayName (a : Account) : string :=
  first_trimmed [Name a; DisplayName a; Subject a; Provider a].

Definition valueOrDefault (value fallback : string) : string :=
  if str_eq (TrimSpace value) "" then fallback else value.

Definition normalizedLoadFactor (value : Z) : Z := if bool_decide (value ≤ 0) then 1 else value.

(** ** Schedulability *)

(** [t != nil && t.After(now)] and [t == nil || t.After(now)] *)
Definition set_after (t : option Time) (now : Time) : bool :=
  match t with Some t => time_after t now | None => false end.
Definition unset_or_after (t : option Time) (now : Time) : bool :=
  match t with Some t => time_after t now | None => true end.

Definition AccountSchedulable (a : Account) (now : Time) : bool :=
  if negb (Enabled a) then false
  else
    let window := negb (set_after (RateLimitedUntil a) now) && negb (set_after (CircuitOpenUntil a) now) in
    if str_eq (Status a) "" || str_eq (Status a) AccountStatusActive then window
    else if str_eq (Status a) AccountStatusRateLimited
    then if unset_or_after (RateLimitedUntil a) now then false else window
    else if str_eq (Status a) AccountStatusCircuitOpen
    then if unset_or_after (CircuitOpenUntil a) now then false else window
    else false.

Definition accountSchedulable : Account → Time → bool := AccountSchedulable.

Definition accountUnschedulableReason (a : Account) (now : Time) : string :=
  if negb (Enabled a) then "account disabled"
  else
    let window :=
      if set_after (RateLimitedUntil a) now then "account rate limited"
      else if set_after (CircuitOpenUntil a) now then "account circuit open"
      else "" in
    if str_eq (Status a) "" || str_eq (Status a) AccountStatusActive then window
    else if str_eq (Status a) AccountStatusRateLimited
    then if unset_or_after (RateLimitedUntil a) now then "account rate limited" else window
    else if str_eq (Status a) AccountStatusCircuitOpen
    then if unset_or_after (CircuitOpenUntil a) now then "account circuit open" else window
    else if str_eq (Status a) AccountStatusDisabled then "account disabled"
    else if str_eq (Status a) AccountStatusExpired then "account expired"
    else "status " +++ Status a.

(** ** Failures reported by the upstream *)

(** [ParseTime] is [net/http]'s parser of HTTP dates. *)
Definition retryAfterTime (ParseTime : string → option Time) (value : string) (now : Time)
    (fallback : Duration) : Time :=
  let value := TrimSpace value in
  if str_eq value "" then now + fallback
  else
    let by_date := match ParseTime value with
      | Some parsed => if time_after parsed now then parsed else now + fallback
      | None => now + fallback
      end in
    match Atoi value with
    | Some seconds => if bool_decide (0 ≤ seconds) then now + wrap64 (seconds * Second) else by_date
    | None => by_date
    end.

Definition isEndpointPermissionError (message : string) : bool :=
  let lower := ToLower (TrimSpace message) in
  if str_eq lower "" then false
  else Contains lower "missing scopes" || Contains lower "api.responses.write" ||
       (Contains lower "insufficient permissions" && Contains lower "scope").

(** What the service asks the repository to record on an account:
    [RecordAccountStatus], [MarkAccountError], [MarkAccountUsed] and
    [UpdateAccount] with [ClearStatus]. *)
Inductive account_record :=
| RecordStatus (status reason : string) (at_ : Time) (rateLimitedUntil circuitOpenUntil : option Time)
| MarkError (reason : string) (at_ : Time)
| MarkUsed (usedAt : Time)
| ClearStatus.

(** [StatusText] is [net/http]'s table of reason phrases. *)
Definition RecordAccountFailure (ParseTime : string → option Time) (StatusText : Z → string)
    (accountID statusCode : Z) (retryAfter message : string) (now : Time) : result perror account_record :=
  if bool_decide (accountID ≤ 0) then Err ErrInvalidInput
  else
    let reason := if str_eq (TrimSpace message) "" then StatusText statusCode else TrimSpace message in
    if bool_decide (statusCode = 429)
    then Ok (RecordStatus AccountStatusRateLimited reason now
               (Some (retryAfterTime ParseTime retryAfter now Minute)) None)
    else if bool_decide (statusCode = 403) && isEndpointPermissionError reason
    then Ok (MarkError reason now)
    else if bool_decide (statusCode = 401) || bool_decide (statusCode = 403)
    then Ok (RecordStatus AccountStatusExpired reason now None None)
    else if bool_decide (500 ≤ statusCode)
    then Ok (RecordStatus AccountStatusCircuitOpen reason now None (Some (now + defaultCircuitOpen)))
    else Ok (MarkError reason now).

(** The row update the repository makes for it. *)
Definition with_status (a : Account) (status statusReason lastError : string)
    (lastErrorAt lastUsedAt : option Time)
    (rateLimitedUntil circuitOpenUntil : option Time) (failureCount : Z) : Account :=
  {| ID := ID a; Provider := Provider a; AccountType := AccountType a; Subject := Subject a; Name := Name a;
     DisplayName := DisplayName a; BaseURL := BaseURL a; Credential := Credential a;
     EncryptedAccessToken := EncryptedAccessToken a; EncryptedRefreshToken := EncryptedRefreshToken a;
     EncryptedIDToken := EncryptedIDToken a; AccessTokenExpiresAt := AccessTokenExpiresAt a;
     LastRefreshAt := LastRefreshAt a; Enabled := Enabled a; Priority := Priority a;
     GlobalPriority := GlobalPriority a; RoutingPoolPriority := RoutingPoolPriority a;
     LoadFactor := LoadFactor a; MaxConcurrentRequests := MaxConcurrentRequests a;
     LastUsedAt := lastUsedAt; LastError := lastError; LastErrorAt := lastErrorAt;
     LastTestAt := LastTestAt a; LastTestStatus := LastTestStatus a; LastTestError := LastTestError a;
     Metadata := Metadata a; Status := status; StatusReason := statusReason;
     FingerprintHash := FingerprintHash a; UserAgentHash := UserAgentHash a; IPHash := IPHash a;
     FailureCount := failureCount; CircuitOpenUntil := circuitOpenUntil;
     RateLimitedUntil := rateLimitedUntil; FingerprintProfileID := FingerprintProfileID a;
     LastRefreshError := LastRefreshError a; LastRefreshErrorAt := LastRefreshErrorAt a |}.

Definition apply_record (r : account_record) (a : Account) : Account :=
  match r with
  | RecordStatus status reason at_ rl co =>
      with_status a status reason reason (Some (time_truncate at_ Microsecond)) (LastUsedAt a)
        (option_map (fun t => time_truncate t Microsecond) rl)
        (option_map (fun t => time_truncate t Microsecond) co)
        (if str_eq status AccountStatusCircuitOpen then FailureCount a + 1 else FailureCount a)
  | MarkError reason at_ =>
      with_status a (Status a) (StatusReason a) reason (Some (time_truncate at_ Microsecond)) (LastUsedAt a)
        (RateLimitedUntil a) (CircuitOpenUntil a) (FailureCount a)
  | MarkUsed usedAt =>
      with_status a (Status a) (StatusReason a) (LastError a) (LastErrorAt a)
        (Some (time_truncate usedAt Microsecond)) (RateLimitedUntil a) (CircuitOpenUntil a) (FailureCount a)
  | ClearStatus => with_status a AccountStatusActive "" "" None (LastUsedAt a) None None 0
  end.

(** ** Properties *)

(** The scheduler's test and the reason shown to administrators agree:
    an account is schedulable exactly when no reason is given. *)
Theorem schedulable_iff_no_reason a now :
  AccountSchedulable a now = true ↔ accountUnschedulableReason a now = "".
Proof.
  unfold AccountSchedulable, accountUnschedulableReason.
  destruct (Enabled a); cbn [negb]; [|done].
  destruct (str_eq (Status a) "" || _);
    [|destruct (str_eq (Status a) AccountStatusRateLimited);
      [|destruct (str_eq (Status a) AccountStatusCircuitOpen);
        [|by destruct (str_eq (Status a) AccountStatusDisabled), (str_eq (Status a) AccountStatusExpired)]]];
    destruct (RateLimitedUntil a) as [r|], (CircuitOpenUntil a) as [c|]; cbn [set_after unset_or_after];
    repeat match goal with |- context [time_after ?x ?y] => destruct (time_after x y) end; done.
Qed.

Lemma str_or_fill s t : str_or (str_or s t) (str_or t (str_or s t)) = str_or s t.
Proof. unfold str_or, str_eq. repeat case_bool_decide; congruence. Qed.

Lemma str_or_fill2 s t : str_or (str_or t (str_or s t)) (str_or s t) = str_or t (str_or s t).
Proof. unfold str_or, str_eq. repeat case_bool_decide; congruence. Qed.

(** Credential normalisation is idempotent, and afterwards the account
    and its credential agree on every field only one of them had: tokens,
    expiry, base URL and metadata are never empty on one side and set on the
    other. *)
Theorem normalize_idempotent a :
  let n := normalizeAccountCredentialFields a in
  normalizeAccountCredentialFields n = n ∧
  (EncryptedAccessToken n = "" ↔ C_EncryptedAccessToken (Credential n) = "") ∧
  (EncryptedRefreshToken n = "" ↔ C_EncryptedRefreshToken (Credential n) = "") ∧
  (AccessTokenExpiresAt n = None ↔ C_AccessTokenExpiresAt (Credential n) = None) ∧
  (BaseURL n = "" ↔ C_BaseURL (Credential n) = "") ∧
  is_Some (Metadata n) ∧ is_Some (C_Metadata (Credential n)) ∧ TrimSpace (AccountType n) ≠ "".
Proof.
  assert (∀ (A : Type) (o p : option A), opt_or (opt_or o p) (opt_or p (opt_or o p)) = opt_or o p) as Ho
    by (by intros A [] []).
  assert (∀ (A : Type) (o p : option A),
    opt_or (opt_or p (opt_or o p)) (opt_or o p) = opt_or p (opt_or o p)) as Ho2
    by (by intros A [] []).
  assert (∀ s t : string, str_or s t = "" ↔ str_or t (str_or s t) = "") as Hs.
  { intros s t. unfold str_or, str_eq. repeat case_bool_decide; naive_solver. }
  assert (TrimSpace AccountTypeCodexOAuth ≠ "") as Hct by (vm_compute; congruence).
  intros n. subst n. unfold normalizeAccountCredentialFields. cbn -[TrimSpace str_or opt_or]. split_and!.
  - rewrite !str_or_fill, !str_or_fill2, ?Ho, ?Ho2.
    destruct (str_eq (TrimSpace (AccountType a)) "") eqn:E; rewrite ?E;
      destruct (Metadata a), (C_Metadata (Credential a)); f_equal; f_equal; done || apply Ho2.
  - apply Hs.
  - apply Hs.
  - by destruct (AccessTokenExpiresAt a), (C_AccessTokenExpiresAt (Credential a)).
  - apply Hs.
  - by destruct (Metadata a), (C_Metadata (Credential a)); eexists.
  - by destruct (Metadata a), (C_Metadata (Credential a)); eexists.
  - destruct (str_eq (TrimSpace (AccountType a)) "") eqn:E; [done|].
    by apply bool_decide_eq_false in E.
Qed.

Lemma normalizeEndpointCapability_cases c :
  normalizeEndpointCapability c = EndpointCapabilitySupported ∨
  normalizeEndpointCapability c = EndpointCapabilityUnsupported ∨
  normalizeEndpointCapability c = EndpointCapabilityUnknown.
Proof.
  unfold normalizeEndpointCapability. cbv zeta.
  destruct (str_eq _ EndpointCapabilitySupported); [by left|].
  destruct (str_eq _ EndpointCapabilityUnsupported); [by right; left|by right; right].
Qed.

(** A capability written for an endpoint is read back, normalised, for
    every spelling of that endpoint, whatever the metadata held before. *)
Theorem endpoint_capability_roundtrip metadata endpoint endpoint' e capability :
  NormalizeEndpoint endpoint = Ok e → NormalizeEndpoint endpoint' = Ok e → e ≠ "" →
  EndpointCapability (MergeEndpointCapabilityMetadata metadata endpoint capability) endpoint' =
  normalizeEndpointCapability capability.
Proof.
  intros He He' Hne. unfold EndpointCapability, MergeEndpointCapabilityMetadata, EndpointCapabilityMetadata.
  rewrite He, He'. unfold str_eq at 1 2. rewrite !bool_decide_eq_false_2 by done.
  cbn [capability_of_keys meta_get]. rewrite (lookup_union_Some_l _ _ _ _ (lookup_singleton_eq _ _)).
  cbn [from_option]. unfold id. set (c := normalizeEndpointCapability capability).
  assert (normalizeEndpointCapability c = c ∧ str_eq (TrimSpace c) "" = false) as [-> ->].
  { destruct (normalizeEndpointCapability_cases capability) as [H|[H|H]]; fold c in H; rewrite H;
      split; reflexivity. }
  rewrite orb_true_r. done.
Qed.

Lemma endpoint_capability_roundtrip_witness :
  EndpointCapability (MergeEndpointCapabilityMetadata None "/v1/responses" " Unsupported ") "Responses" = "unsupported".
Proof.
  rewrite (endpoint_capability_roundtrip None "/v1/responses" "Responses" "responses" " Unsupported ");
    [by vm_compute|by vm_compute|by vm_compute|done].
Defined.

(** Recording a failure and applying it to the account row. *)
Definition after_failure (ParseTime : string → option Time) (StatusText : Z → string) (a : Account)
    (statusCode : Z) (retryAfter message : string) (now : Time) : Account :=
  match RecordAccountFailure ParseTime StatusText (ID a) statusCode retryAfter message now with
  | Ok r => apply_record r a
  | Err _ => a
  end.

Lemma schedulable_rate_limited a reason t until now :
  Enabled a = true →
  AccountSchedulable (apply_record (RecordStatus AccountStatusRateLimited reason t (Some until) None) a) now
  = bool_decide (time_truncate until Microsecond ≤ now).
Proof.
  intros He. unfold AccountSchedulable. cbn. rewrite He. cbn. unfold time_after.
  repeat case_bool_decide; cbn; done || lia.
Qed.

Lemma schedulable_circuit_open a reason t until now :
  Enabled a = true →
  AccountSchedulable (apply_record (RecordStatus AccountStatusCircuitOpen reason t None (Some until)) a) now
  = bool_decide (time_truncate until Microsecond ≤ now).
Proof.
  intros He. unfold AccountSchedulable. cbn. rewrite He. cbn. unfold time_after.
  repeat case_bool_decide; cbn; done || lia.
Qed.

(** What an upstream failure does to the scheduling of an enabled
    account: a 5xx takes it out for five minutes, 401 and 403 for good, a 429
    with a decimal Retry-After for that many seconds (when they fit a
    [time.Duration]), and the permission errors of an endpoint as well as the
    other 4xx leave its schedulability as it was. *)
Theorem failure_backoff ParseTime StatusText a statusCode retryAfter message seconds now now' :
  Enabled a = true → 0 < ID a →
  let a' := after_failure ParseTime StatusText a statusCode retryAfter message now in
  let reason := if str_eq (TrimSpace message) "" then StatusText statusCode else TrimSpace message in
  (500 ≤ statusCode → AccountSchedulable a' now' = bool_decide (time_truncate (now + defaultCircuitOpen) Microsecond ≤ now')) ∧
  (statusCode = 429 → Atoi (TrimSpace retryAfter) = Some seconds → 0 ≤ seconds ≤ int64_max `div` Second →
     AccountSchedulable a' now' = bool_decide (time_truncate (now + seconds * Second) Microsecond ≤ now')) ∧
  (statusCode = 401 ∨ (statusCode = 403 ∧ isEndpointPermissionError reason = false) → AccountSchedulable a' now' = false) ∧
  (statusCode < 500 → statusCode ≠ 429 → statusCode ≠ 401 → (statusCode = 403 → isEndpointPermissionError reason = true) →
     AccountSchedulable a' now' = AccountSchedulable a now').
Proof.
  intros He Hid a' reason. subst a'. unfold after_failure, RecordAccountFailure.
  rewrite bool_decide_eq_false_2 by lia. cbv zeta. fold reason. split_and!.
  - intros Hc. rewrite !(bool_decide_eq_false_2 (statusCode = _)) by lia.
    rewrite bool_decide_eq_true_2 by done. cbn [andb orb]. by rewrite schedulable_circuit_open.
  - intros -> Hatoi Hs. rewrite bool_decide_eq_true_2 by done. rewrite schedulable_rate_limited by done.
    unfold retryAfterTime. cbv zeta. rewrite Hatoi.
    destruct (str_eq (TrimSpace retryAfter) "") eqn:E.
    { apply bool_decide_eq_true in E. by rewrite E in Hatoi. }
    rewrite (bool_decide_eq_true_2 (0 ≤ seconds)) by lia. rewrite wrap64_id; [done|].
    change (int64_max `div` Second) with 9223372036 in Hs. unfold in_int64, int64_min, int64_max, Second. lia.
  - intros Hc. rewrite (bool_decide_eq_false_2 (statusCode = 429)) by lia.
    assert (bool_decide (statusCode = 403) && isEndpointPermissionError reason = false) as ->.
    { destruct Hc as [->|[-> ->]]; [done|apply andb_false_r]. }
    assert (bool_decide (statusCode = 401) || bool_decide (statusCode = 403) = true) as ->.
    { destruct Hc as [->|[-> _]]; done. }
    unfold AccountSchedulable. cbn. by rewrite He.
  - intros H5 H429 H401 H403. rewrite (bool_decide_eq_false_2 (statusCode = 429)) by lia.
    rewrite (bool_decide_eq_false_2 (500 ≤ statusCode)) by lia.
    rewrite (bool_decide_eq_false_2 (statusCode = 401)) by lia.
    destruct (decide (statusCode = 403)) as [->|Hn]; [rewrite H403 by done|rewrite bool_decide_eq_false_2 by done];
      unfold AccountSchedulable; cbn; done.
Qed.

(** An enabled account in service. *)
Definition demo_account : Account :=
  {| ID := 7; Provider := "openai"; AccountType := "codex_oauth"; Subject := ""; Name := "main"; DisplayName := "";
     BaseURL := ""; Credential := Build_AccountCredential "" "" "" "" None None "" None "" "" "" None;
     EncryptedAccessToken := "t"; EncryptedRefreshToken := ""; EncryptedIDToken := ""; AccessTokenExpiresAt := None;
     LastRefreshAt := None; Enabled := true; Priority := 1; GlobalPriority := 1; RoutingPoolPriority := None;
     LoadFactor := 1; MaxConcurrentRequests := 0; LastUsedAt := None; LastError := ""; LastErrorAt := None;
     LastTestAt := None; LastTestStatus := ""; LastTestError := ""; Metadata := None; Status := "active";
     StatusReason := ""; FingerprintHash := ""; UserAgentHash := ""; IPHash := ""; FailureCount := 0; CircuitOpenUntil := None; RateLimitedUntil := None;
     FingerprintProfileID := None; LastRefreshError := ""; LastRefreshErrorAt := None |}.

Lemma failure_backoff_witness :
  AccountSchedulable (after_failure (fun _ => None) (fun _ => "error") demo_account 429 " 30 " "" Hour) (Hour + 29 * Second) = false ∧
  AccountSchedulable (after_failure (fun _ => None) (fun _ => "error") demo_account 429 " 30 " "" Hour) (Hour + 30 * Second) = true.
Proof.
  destruct (failure_backoff (fun _ => None) (fun _ => "error") demo_account 429 " 30 " "" 30 Hour (Hour + 29 * Second))
    as (_ & H1 & _); [done|done|].
  destruct (failure_backoff (fun _ => None) (fun _ => "error") demo_account 429 " 30 " "" 30 Hour (Hour + 30 * Second))
    as (_ & H2 & _); [done|done|].
  split; [rewrite H1|rewrite H2]; try (by vm_compute); done.
Defined.

(** A Retry-After beyond the range of [time.Duration] overflows: the
    account is recorded as rate limited until a moment in the past and stays
    schedulable. *)
Theorem retry_after_overflow ParseTime StatusText a message now :
  Enabled a = true → 0 < ID a → 0 ≤ now →
  AccountSchedulable (after_failure ParseTime StatusText a 429 "9223372037" message now) now = true.
Proof.
  intros He Hid Hnow. unfold after_failure, RecordAccountFailure.
  rewrite bool_decide_eq_false_2 by lia. cbv zeta. rewrite bool_decide_eq_true_2 by done.
  rewrite schedulable_rate_limited by done. unfold retryAfterTime.
  assert (Atoi (TrimSpace "9223372037") = Some 9223372037) as -> by reflexivity.
  change (str_eq (TrimSpace "9223372037") "") with false. cbv zeta. rewrite (bool_decide_eq_true_2 (0 ≤ 9223372037)) by lia.
  assert (wrap64 (9223372037 * Second) < 0) by (vm_compute; reflexivity).
  apply bool_decide_eq_true. pose proof (time_truncate_bounds (now + wrap64 (9223372037 * Second)) Microsecond ltac:(done)).
  lia.
Qed.

Lemma retry_after_overflow_witness :
  AccountSchedulable (after_failure (fun _ => None) (fun _ => "") demo_account 429 "9223372037" "" Hour) Hour = true.
Proof. apply retry_after_overflow; done. Defined.

End Account.
