(* ===== verification/Scheduling.v ===== *)
(** * Account selection

    [provider/scheduling.go] and the selection part of [provider/service.go].
    The repository is an interface ([Repository]): the queries and updates the
    selection uses, on an abstract store state that the operations thread
    through.  Decryption, the OAuth access token with its refresh, URL parsing
    and fingerprint profiles are parameters.  One reading of the clock, [now],
    serves an operation. *)

From S2P Require Import Prelude GoStrings Account.
Import Account.

Module Scheduling.

(** ** The repository interface *)

Definition normalizedExcludedAccountIDs (ids : list Z) : list Z :=
  List.filter (fun i => bool_decide (0 < i)) ids.

Class Repository (St : Type) := {
  ListAccounts : St → result perror (list Account);
  HasEnabledAccounts : St → result perror bool;
  FindRoutingPool : St → Z → result perror RoutingPool;
  RoutingPoolHasAccounts : St → Z → result perror bool;
  (** the endpoint-aware variants; the plain ones pass an empty endpoint *)
  EndpointAware : bool;
  ListEligibleAccountsForModelAndEndpoint :
    St → string → string → list Z → Time → result perror (list Account);
  ListAccountsForRoutingPoolAndEndpoint :
    St → Z → string → string → list Z → Time → result perror (list Account);
  ListRoutingPoolAccounts : St → Z → result perror (list Account);
  ListAccountModelsForAccounts : St → list Z → result perror (gmap Z (list AccountModel));
  (** session bindings, global or of a routing pool *)
  FindSessionBinding : St → option Z → string → string → result perror Z;
  UpsertSessionBinding : St → option Z → string → string → Z → result perror unit * St;
  (** [RecordAccountStatus], [MarkAccountError], [MarkAccountUsed] and
      [UpdateAccount] with [ClearStatus] *)
  RecordAccount : St → Z → account_record → result perror unit * St;
  (** the pools that exist: [FindRoutingPool] succeeds only on these *)
  PoolIDs : St → list Z
}.

(** What the repository promises to the selection. *)
Class RepositoryLaws (St : Type) `{Repository St} := {
  find_pool_known : ∀ st i p, FindRoutingPool st i = Ok p → i ∈ PoolIDs st ∧ P_ID p = i;
  pool_accounts_eligible : ∀ st i model endpoint excluded now l a,
    ListAccountsForRoutingPoolAndEndpoint st i model endpoint excluded now = Ok l → a ∈ l →
    AccountSchedulable a now = true ∧ ID a ∉ normalizedExcludedAccountIDs excluded;
  model_accounts_eligible : ∀ st model endpoint excluded now l a,
    ListEligibleAccountsForModelAndEndpoint st model endpoint excluded now = Ok l → a ∈ l →
    AccountSchedulable a now = true ∧ ID a ∉ normalizedExcludedAccountIDs excluded
}.

(** ** Pure parts *)

Definition selectionPriority (a : Account) : Z :=
  match RoutingPoolPriority a with Some p => p | None => Priority a end.

Definition globalAccountPriority (a : Account) : Z :=
  match RoutingPoolPriority a with Some _ => GlobalPriority a | None => Priority a end.

(** [hash/fnv]'s 64-bit FNV-1a. *)
Definition fnv64a (s : string) : Z :=
  foldl (fun h c => (Z.lxor h (byte_of c) * 1099511628211) mod 2 ^ 64)
    14695981039346656037 (String.list_ascii_of_string s).

Definition stickyAccountIndex (sessionID : string) (count : Z) : Z :=
  if bool_decide (count ≤ 1) then 0 else fnv64a sessionID mod count.

Definition id_le (a b : Account) : Prop := ID a ≤ ID b.
#[global] Instance id_le_dec : RelDecision id_le.
Proof. intros a b. unfold id_le. apply _. Defined.

Definition is_set {A} (o : option A) : bool := match o with Some _ => true | None => false end.

(** The scheduling tier of an account; the loop extends the group while the
    tier is that of the first account. *)
Definition tier (a : Account) : Z * Z * Z * bool :=
  (selectionPriority a, globalAccountPriority a, normalizedLoadFactor (LoadFactor a), is_set (LastErrorAt a)).

Fixpoint group_end (t : Z * Z * Z * bool) (accounts : list Account) : nat :=
  match accounts with
  | [] => 0
  | a :: accounts => if bool_decide (tier a = t) then S (group_end t accounts) else 0
  end.

Definition rotate {A} (n : nat) (l : list A) : list A := drop n l ++ take n l.

Definition stickySessionHashCandidates (accounts : list Account) (sessionID : string) : list Account :=
  match accounts with
  | [] | [_] => accounts
  | first :: _ =>
      let groupEnd := group_end (tier first) accounts in
      if bool_decide (groupEnd ≤ 1)%nat then accounts
      else
        let priorityGroup := merge_sort id_le (take groupEnd accounts) in
        let start := stickyAccountIndex sessionID (Z.of_nat (length priorityGroup)) in
        rotate (Z.to_nat start) priorityGroup ++ drop groupEnd accounts
  end.

Definition moreSpecificSelectionError (current next : option perror) : option perror :=
  match next with
  | None => current
  | Some n =>
      match current with
      | None => next
      | Some c =>
          if is_err c ErrAccountsUnavailable then next
          else if is_err n ErrModelUnavailable then next
          else if is_err n ErrEndpointUnavailable then next
          else current
      end
  end.

Definition RoutingPoolErrorDisabled : string := "routing_pool_disabled".
Definition RoutingPoolErrorUnavailable : string := "routing_pool_unavailable".
Definition RoutingPoolErrorEmpty : string := "routing_pool_empty".
Definition RoutingPoolErrorExhausted : string := "routing_pool_exhausted".
Definition RoutingPoolErrorCycle : string := "routing_pool_cycle".

Definition routingPoolDiagnosticError (e : perror) : string :=
  if is_err e ErrAccountsDisabled then RoutingPoolErrorDisabled
  else if is_err e ErrRoutingPoolCycle then RoutingPoolErrorCycle
  else if is_err e ErrRoutingPoolNotFound then RoutingPoolErrorUnavailable
  else if is_err e ErrRoutingPoolExhausted then RoutingPoolErrorExhausted
  else TrimSpace (error_text e).

Definition pool_label (p : RoutingPool) : string :=
  if str_eq (TrimSpace (P_Name p)) "" then "pool " +++ FormatInt (P_ID p) else TrimSpace (P_Name p).

Definition routingPoolChainLabel (pools : list RoutingPool) : string := Join (map pool_label pools) " -> ".

Definition empty_selected : SelectedAccount :=
  Build_SelectedAccount 0 "" "" "" "" "" "" "" 0 0 "" 0 "" "" "" "" None.

(** The diagnostic value returned next to an error. *)
Definition diagnostic (poolID : Z) (poolName : string) (depth : Z) (chain err : string) : SelectedAccount :=
  Build_SelectedAccount 0 "" "" "" "" "" "" "" 0 poolID poolName depth chain err "" "" None.

Definition with_pool (s : SelectedAccount) (pool : RoutingPool) (depth : Z) (chain : string) : SelectedAccount :=
  {| AccountID := AccountID s; S_Provider := S_Provider s; S_AccountType := S_AccountType s;
     S_DisplayName := S_DisplayName s; AuthorizationToken := AuthorizationToken s; S_BaseURL := S_BaseURL s;
     ProxyURL := ProxyURL s; ChatGPTAccountID := ChatGPTAccountID s;
     S_MaxConcurrentRequests := S_MaxConcurrentRequests s;
     RoutingPoolID := P_ID pool; RoutingPoolName := P_Name pool; RoutingPoolFallbackDepth := depth;
     RoutingPoolFallbackChain := chain; RoutingPoolError := RoutingPoolError s;
     FingerprintUA := FingerprintUA s; FingerprintTLS := FingerprintTLS s;
     FingerprintHeaders := FingerprintHeaders s |}.

(** Why an account is not a candidate; [""] when it is. *)
Fixpoint model_reason (model endpoint : string) (models : list AccountModel) (hasModel : bool) : string :=
  match models with
  | [] => if hasModel then "model disabled" else "model not configured"
  | item :: models =>
      if negb (str_eq (Model item) model) then model_reason model endpoint models hasModel
      else if endpointCapabilityUnsupported (M_Metadata item) endpoint then "endpoint unsupported"
      else if M_Enabled item then "" else model_reason model endpoint models true
  end.

Definition selectionUnschedulableReasonForEndpoint (a : Account) (model endpoint : string) (excluded : list Z)
    (now : Time) (models : list AccountModel) (modelsAvailable : bool) : string :=
  if bool_decide (ID a ∈ excluded) then "account excluded"
  else if negb (Enabled a) then "account disabled"
  else
    let reason := accountUnschedulableReason a now in
    if negb (str_eq reason "") then reason
    else if str_eq (TrimSpace model) "" then ""
    else if negb modelsAvailable then "model not configured"
    else model_reason model endpoint models false.

Fixpoint endpointCapabilityLoop (model endpoint : string) (models : list AccountModel) : string :=
  match models with
  | [] => EndpointCapabilityUnknown
  | item :: models =>
      if negb (str_eq (Model item) model) then endpointCapabilityLoop model endpoint models
      else
        let capability := EndpointCapability (M_Metadata item) endpoint in
        if str_eq capability EndpointCapabilityUnsupported then capability
        else if str_eq capability EndpointCapabilitySupported then capability
        else endpointCapabilityLoop model endpoint models
  end.

Definition endpointCapabilityForModel (models : list AccountModel) (model endpoint : string) : string :=
  if str_eq (TrimSpace model) "" || str_eq (TrimSpace endpoint) "" then EndpointCapabilityUnknown
  else endpointCapabilityLoop model endpoint models.

Definition scheduleTier (a : Account) : string :=
  let recentErrorTier := if is_set (LastErrorAt a) then "present" else "clean" in
  match RoutingPoolPriority a with
  | Some _ =>
      "pool priority " +++ FormatInt (selectionPriority a) +++ ", global account priority " +++
      FormatInt (globalAccountPriority a) +++ ", scheduling preference tier " +++
      FormatInt (normalizedLoadFactor (LoadFactor a)) +++ ", recent-error tier " +++ recentErrorTier
  | None =>
      "account priority " +++ FormatInt (Priority a) +++ ", scheduling preference tier " +++
      FormatInt (normalizedLoadFactor (LoadFactor a)) +++ ", recent-error tier " +++ recentErrorTier
  end.

Definition scheduleReason (a : Account) (selected stickyBound stickySession : bool) : string :=
  let t := scheduleTier a in
  let base := "base tie-breakers least-recently-used then account ID " +++ FormatInt (ID a) in
  if stickyBound then
    "reused sticky session binding for " +++ t +++
    "; new sticky FNV hashes stay within the highest exactly equal scheduling tier; " +++ base
  else if stickySession && selected then
    "selected by sticky FNV hash within the highest exactly equal scheduling tier: " +++ t +++ "; " +++ base
  else if stickySession then
    "ordered after sticky FNV hash, which only changes order within the highest exactly equal scheduling tier: "
    +++ t +++ "; " +++ base
  else if selected then
    "selected by " +++ t +++ "; tie-breakers least-recently-used then account ID " +++ FormatInt (ID a)
  else "ordered by " +++ t +++ "; tie-breakers least-recently-used then account ID " +++ FormatInt (ID a).

Record SelectionCandidate := {
  SC_ID : Z;
  SC_DisplayName : string;
  SC_AccountType : string;
  SC_Priority : Z;
  SC_LoadFactor : Z;
  SC_Status : string;
  SC_LastUsedAt : option Time;
  SC_LastTestAt : option Time;
  SC_LastTestStatus : string;
  SC_LastTestError : string;
  ScheduleRank : Z;
  ScheduleReason : string;
  Selected : bool;
  StickyBound : bool;
  Schedulable : bool;
  UnschedulableReason : string;
  SC_EndpointCapability : string
}.

Definition selectionCandidateForEndpoint (a : Account) (model endpoint : string) (models : list AccountModel)
    (scheduleRank : Z) (selected schedulable : bool) (reason : string) : SelectionCandidate :=
  let a := normalizeAccountCredentialFields a in
  let capability :=
    if str_eq (TrimSpace endpoint) "" then ""
    else if str_eq reason "endpoint unsupported" then EndpointCapabilityUnsupported
    else endpointCapabilityForModel models model endpoint in
  {| SC_ID := ID a; SC_DisplayName := accountDisplayName a; SC_AccountType := AccountType a;
     SC_Priority := selectionPriority a; SC_LoadFactor := normalizedLoadFactor (LoadFactor a);
     SC_Status := valueOrDefault (Status a) AccountStatusActive; SC_LastUsedAt := LastUsedAt a;
     SC_LastTestAt := LastTestAt a; SC_LastTestStatus := LastTestStatus a; SC_LastTestError := LastTestError a;
     ScheduleRank := scheduleRank; ScheduleReason := ""; Selected := selected; StickyBound := false;
     Schedulable := schedulable; UnschedulableReason := reason; SC_EndpointCapability := capability |}.

(** [candidate.StickyBound = ..; candidate.ScheduleReason = ..] *)
Definition with_reason (c : SelectionCandidate) (sticky : bool) (reason : string) : SelectionCandidate :=
  {| SC_ID := SC_ID c; SC_DisplayName := SC_DisplayName c; SC_AccountType := SC_AccountType c;
     SC_Priority := SC_Priority c; SC_LoadFactor := SC_LoadFactor c; SC_Status := SC_Status c;
     SC_LastUsedAt := SC_LastUsedAt c; SC_LastTestAt := SC_LastTestAt c;
     SC_LastTestStatus := SC_LastTestStatus c; SC_LastTestError := SC_LastTestError c;
     ScheduleRank := ScheduleRank c; ScheduleReason := reason; Selected := Selected c; StickyBound := sticky;
     Schedulable := Schedulable c; UnschedulableReason := UnschedulableReason c;
     SC_EndpointCapability := SC_EndpointCapability c |}.

Record SelectionPreview := {
  SP_Model : string;
  SP_Endpoint : string;
  SP_SessionID : string;
  SelectedAccountID : Z;
  StickyBoundAccountID : Z;
  SP_RoutingPoolID : Z;
  SP_RoutingPoolName : string;
  SP_RoutingPoolFallbackDepth : Z;
  SP_RoutingPoolFallbackChain : string;
  SP_RoutingPoolError : string;
  Candidates : list SelectionCandidate
}.

Definition empty_preview : SelectionPreview := Build_SelectionPreview "" "" "" 0 0 0 "" 0 "" "" [].

Record Config := {
  CfgProvider : string;
  ClientID : string;
  RedirectURL : string;
  AuthURL : string;
  TokenURL : string;
  Secret : string;
  has_keyring : bool;
  APIBaseURL : string;
  AllowHTTPAPIUpstreams : bool
}.

Definition Configured (cfg : Config) : bool :=
  negb (str_eq (TrimSpace (ClientID cfg)) "") && negb (str_eq (TrimSpace (RedirectURL cfg)) "") &&
  negb (str_eq (TrimSpace (AuthURL cfg)) "") && negb (str_eq (TrimSpace (TokenURL cfg)) "") &&
  (has_keyring cfg || negb (str_eq (TrimSpace (Secret cfg)) "")).

Definition apiUpstreamSchemeAllowed (cfg : Config) (scheme : string) : bool :=
  let s := ToLower (TrimSpace scheme) in
  if str_eq s "https" then true else if str_eq s "http" then AllowHTTPAPIUpstreams cfg else false.

(** ** The service *)

Section service.
Context {St : Type} `{Repository St}.
Context (cfg : Config).

(** Collaborators: decryption by secret kind, the access token of an OAuth
    account (refreshing it when it is about to expire), [url.Parse] (whether
    absolute, host, scheme), and the fingerprint profile of an id (user agent,
    TLS fingerprint, headers). *)
Context (decryptString : string → string → result perror string).
Context (accessTokenForAccount : Account → St → result perror string * St).
Context (url_Parse : string → option (bool * string * string)).
Context (FindFingerprintProfileByID : Z → St → result perror (string * string * metadata_map)).

(** [selectedAccount]: the credentials to use for an account. *)
Definition proxy_url (a : Account) : result perror string :=
  if str_eq (TrimSpace (EncryptedProxyURL (Credential a))) "" then Ok ""
  else let? u := decryptString "provider-proxy-url" (EncryptedProxyURL (Credential a)) in Ok (TrimSpace u).

Definition with_fingerprint (a : Account) (s : SelectedAccount) (st : St) : SelectedAccount :=
  match FingerprintProfileID a with
  | Some i =>
      if bool_decide (0 < i) then
        match FindFingerprintProfileByID i st with
        | Ok (ua, tls, headers) =>
            {| AccountID := AccountID s; S_Provider := S_Provider s; S_AccountType := S_AccountType s;
               S_DisplayName := S_DisplayName s; AuthorizationToken := AuthorizationToken s;
               S_BaseURL := S_BaseURL s; ProxyURL := ProxyURL s; ChatGPTAccountID := ChatGPTAccountID s;
               S_MaxConcurrentRequests := S_MaxConcurrentRequests s; RoutingPoolID := RoutingPoolID s;
               RoutingPoolName := RoutingPoolName s; RoutingPoolFallbackDepth := RoutingPoolFallbackDepth s;
               RoutingPoolFallbackChain := RoutingPoolFallbackChain s; RoutingPoolError := RoutingPoolError s;
               FingerprintUA := if str_eq (TrimSpace ua) "" then FingerprintUA s else TrimSpace ua;
               FingerprintTLS := if str_eq (TrimSpace tls) "" then FingerprintTLS s else TrimSpace tls;
               FingerprintHeaders := match cloneStringMap headers with
                                     | Some _ => headers | None => FingerprintHeaders s end |}
        | Err _ => s
        end
      else s
  | None => s
  end.

(** The base URL and token of the two account types. *)
Definition account_credentials (a : Account) (accountType : string) (st : St)
  : result perror (string * string) * St :=
  if str_eq accountType AccountTypeCodexOAuth then
    match accessTokenForAccount a st with
    | (Ok token, st) => (Ok (token, TrimRightSlash (TrimSpace (APIBaseURL cfg))), st)
    | (Err e, st) => (Err e, st)
    end
  else if str_eq accountType AccountTypeAPIUpstream then
    match decryptString "provider-api-key" (EncryptedAPIKey (Credential a)) with
    | Err e => (Err e, st)
    | Ok token =>
        let baseURL := TrimRightSlash (TrimSpace (C_BaseURL (Credential a))) in
        match url_Parse baseURL with
        | Some (isAbs, host, scheme) =>
            if negb isAbs || str_eq host "" || negb (apiUpstreamSchemeAllowed cfg scheme)
            then (Err ErrInvalidInput, st) else (Ok (token, baseURL), st)
        | None => (Err ErrInvalidInput, st)
        end
    end
  else (Err (ErrOther ("unsupported account type " +++ accountType)), st).

Definition selectedAccount (a : Account) (st : St) : result perror SelectedAccount * St :=
  let a := normalizeAccountCredentialFields a in
  let accountType :=
    if str_eq (TrimSpace (AccountType a)) "" then AccountTypeCodexOAuth else TrimSpace (AccountType a) in
  match proxy_url a with
  | Err e => (Err e, st)
  | Ok proxyURL =>
      match account_credentials a accountType st with
      | (Err e, st) => (Err e, st)
      | (Ok (token, baseURL), st) =>
          (Ok (with_fingerprint a
            {| AccountID := ID a; S_Provider := valueOrDefault (TrimSpace (Provider a)) (CfgProvider cfg);
               S_AccountType := accountType; S_DisplayName := accountDisplayName a;
               AuthorizationToken := token; S_BaseURL := baseURL; ProxyURL := proxyURL;
               ChatGPTAccountID := TrimSpace (meta_get (Metadata a) "chatgpt_account_id");
               S_MaxConcurrentRequests := MaxConcurrentRequests a;
               RoutingPoolID := 0; RoutingPoolName := ""; RoutingPoolFallbackDepth := 0;
               RoutingPoolFallbackChain := ""; RoutingPoolError := ""; FingerprintUA := "";
               FingerprintTLS := ""; FingerprintHeaders := None |} st), st)
      end
  end.

(** *** Candidates *)

Definition unsupported_by (models : list AccountModel) (model endpoint : string) : bool :=
  existsb (fun m => str_eq (Model m) model && M_Enabled m &&
                    endpointCapabilityUnsupported (M_Metadata m) endpoint) models.

Definition filterAccountsByEndpoint (st : St) (model endpoint : string) (accounts : list Account)
  : result perror (list Account) :=
  if str_eq (TrimSpace model) "" || str_eq (TrimSpace endpoint) "" || bool_decide (accounts = [])
  then Ok accounts
  else
    let? modelsByAccount := ListAccountModelsForAccounts st (map ID accounts) in
    Ok (List.filter (fun a => negb (unsupported_by (default [] (modelsByAccount !! ID a)) model endpoint)) accounts).

Definition listEligibleAccountsForModelAndEndpoint (st : St) (model endpoint : string) (excluded : list Z)
    (now : Time) : result perror (list Account) :=
  let? accounts :=
    if negb (str_eq endpoint "") && EndpointAware
    then ListEligibleAccountsForModelAndEndpoint st model endpoint excluded now
    else ListEligibleAccountsForModelAndEndpoint st model "" excluded now in
  filterAccountsByEndpoint st model endpoint accounts.

Definition listAccountsForRoutingPoolAndEndpoint (st : St) (routingPoolID : Z) (model endpoint : string)
    (excluded : list Z) (now : Time) : result perror (list Account) :=
  let? accounts :=
    if negb (str_eq endpoint "") && EndpointAware
    then ListAccountsForRoutingPoolAndEndpoint st routingPoolID model endpoint excluded now
    else ListAccountsForRoutingPoolAndEndpoint st routingPoolID model "" excluded now in
  filterAccountsByEndpoint st model endpoint accounts.

(** Candidates, whether some account is enabled, and the error if none works. *)
Definition candidates : Type := list Account * bool * perror.

Definition selectionCandidatesForEndpoint (st : St) (model endpoint : string) (excludedAccountIDs : list Z)
    (now : Time) : result perror candidates :=
  let model := TrimSpace model in
  if negb (str_eq model "") then
    let excluded := normalizedExcludedAccountIDs excludedAccountIDs in
    let? accounts := listEligibleAccountsForModelAndEndpoint st model endpoint excluded now in
    if negb (bool_decide (accounts = [])) then Ok (accounts, true, ErrAccountsUnavailable)
    else
      let? hasEnabled := HasEnabledAccounts st in
      if negb hasEnabled then Ok (accounts, false, ErrAccountsDisabled)
      else
        let? available :=
          if negb (bool_decide (excluded = []))
          then listEligibleAccountsForModelAndEndpoint st model endpoint [] now else Ok [] in
        if negb (bool_decide (available = [])) then Ok (accounts, true, ErrAccountsUnavailable)
        else
          let? baseAccounts := ListEligibleAccountsForModelAndEndpoint st model "" [] now in
          Ok (accounts, true,
              if negb (str_eq endpoint "") && negb (bool_decide (baseAccounts = []))
              then ErrEndpointUnavailable else ErrModelUnavailable)
  else
    let? accounts := ListAccounts st in
    if bool_decide (accounts = []) then Err ErrNotConnected
    else
      let excluded := normalizedExcludedAccountIDs excludedAccountIDs in
      Ok (List.filter (fun a => Enabled a && negb (bool_decide (ID a ∈ excluded)) && accountSchedulable a now) accounts,
          existsb Enabled accounts, ErrAccountsUnavailable).

Definition selectionCandidatesForRoutingPoolForEndpoint (st : St) (routingPoolID : Z) (model endpoint : string)
    (excludedAccountIDs : list Z) (now : Time) : result perror candidates :=
  match FindRoutingPool st routingPoolID with
  | Err e => if is_err e ErrRoutingPoolNotFound then Ok ([], true, ErrRoutingPoolNotFound) else Err e
  | Ok pool =>
      if negb (P_Enabled pool) then Ok ([], false, ErrAccountsDisabled)
      else
        let model := TrimSpace model in
        let excluded := normalizedExcludedAccountIDs excludedAccountIDs in
        let? accounts := listAccountsForRoutingPoolAndEndpoint st routingPoolID model endpoint excluded now in
        if negb (bool_decide (accounts = [])) then Ok (accounts, true, ErrAccountsUnavailable)
        else
          let? available := listAccountsForRoutingPoolAndEndpoint st routingPoolID model endpoint [] now in
          if negb (bool_decide (available = [])) then Ok (accounts, true, ErrAccountsUnavailable)
          else
            let? hasPoolAccounts := RoutingPoolHasAccounts st routingPoolID in
            if negb hasPoolAccounts then Ok (accounts, true, ErrRoutingPoolEmpty)
            else if negb (str_eq model "") then
              let? baseAccounts := ListAccountsForRoutingPoolAndEndpoint st routingPoolID model "" [] now in
              Ok (accounts, true,
                  if negb (str_eq endpoint "") && negb (bool_decide (baseAccounts = []))
                  then ErrEndpointUnavailable else ErrModelUnavailable)
            else Ok (accounts, true, ErrRoutingPoolEmpty)
  end.

(** *** Sticky sessions *)

(** The bound account moved to the front, if it is a candidate. *)
Fixpoint find_split (i : Z) (before accounts : list Account) : option (list Account) :=
  match accounts with
  | [] => None
  | a :: rest => if bool_decide (ID a = i) then Some (a :: before ++ rest)
                 else find_split i (before ++ [a]) rest
  end.

(** [stickySessionCandidates] ([pool = None]) and
    [stickySessionCandidatesInRoutingPool]. *)
Definition stickySessionCandidates (st : St) (pool : option Z) (accounts : list Account) (model sessionID : string)
  : result perror (list Account * Z) :=
  if bool_decide (accounts = []) then Ok (accounts, 0)
  else
    match FindSessionBinding st pool model sessionID with
    | Err e => if negb (is_err e ErrSessionBindingNotFound) then Err e
               else Ok (stickySessionHashCandidates accounts sessionID, 0)
    | Ok bound =>
        match find_split bound [] accounts with
        | Some ordered => Ok (ordered, bound)
        | None => Ok (stickySessionHashCandidates accounts sessionID, 0)
        end
    end.

(** *** Trying the candidates *)

Definition selection_failure (e : perror) (now : Time) : account_record :=
  let reason := if str_eq (TrimSpace (error_text e)) "" then "provider account selection failed"
                else TrimSpace (error_text e) in
  if is_err e ErrInvalidInput
  then RecordStatus AccountStatusCircuitOpen reason now None (Some (now + defaultCircuitOpen))
  else MarkError reason now.

Definition recordSelectionFailure (st : St) (accountID : Z) (e : perror) (now : Time) : result perror unit * St :=
  RecordAccount st accountID (selection_failure e now).

Fixpoint selectFromCandidates (accounts : list Account) (hasEnabled : bool) (notFoundErr : perror) (now : Time)
    (st : St) : result perror SelectedAccount * St :=
  match accounts with
  | [] => (Err (if negb hasEnabled then ErrAccountsDisabled else notFoundErr), st)
  | a :: accounts =>
      match selectedAccount a st with
      | (Ok selected, st) => (Ok selected, st)
      | (Err e, st) =>
          match recordSelectionFailure st (ID a) e now with
          | (Err markErr, st) => (Err (ErrWrap "mark provider account error" markErr), st)
          | (Ok _, st) => selectFromCandidates accounts hasEnabled notFoundErr now st
          end
      end
  end.

(** Bind the session to the account it was given. *)
Definition bind_session (st : St) (pool : option Z) (model sessionID : string) (selected : SelectedAccount)
  : result perror SelectedAccount * St :=
  match UpsertSessionBinding st pool model sessionID (AccountID selected) with
  | (Ok _, st) => (Ok selected, st)
  | (Err e, st) => (Err (ErrWrap "upsert provider session binding" e), st)
  end.

(** *** Selection without a fallback chain *)

Definition SelectAccountForModelAndEndpoint (model endpoint : string) (excluded : list Z) (now : Time) (st : St)
  : result perror SelectedAccount * St :=
  match NormalizeEndpoint endpoint with
  | Err e => (Err e, st)
  | Ok endpoint =>
      if negb (Configured cfg) then (Err ErrNotConfigured, st)
      else match selectionCandidatesForEndpoint st model endpoint excluded now with
      | Err e => (Err e, st)
      | Ok (accounts, hasEnabled, notFoundErr) => selectFromCandidates accounts hasEnabled notFoundErr now st
      end
  end.

Definition SelectAccountForModelAndSessionAndEndpoint (model endpoint sessionID : string) (excluded : list Z)
    (now : Time) (st : St) : result perror SelectedAccount * St :=
  match NormalizeEndpoint endpoint with
  | Err e => (Err e, st)
  | Ok endpoint =>
      let model := TrimSpace model in
      let sessionID := TrimSpace sessionID in
      if str_eq sessionID "" then SelectAccountForModelAndEndpoint model endpoint excluded now st
      else if negb (Configured cfg) then (Err ErrNotConfigured, st)
      else match selectionCandidatesForEndpoint st model endpoint excluded now with
      | Err e => (Err e, st)
      | Ok (accounts, hasEnabled, notFoundErr) =>
          match stickySessionCandidates st None accounts model sessionID with
          | Err e => (Err e, st)
          | Ok (accounts, _) =>
              match selectFromCandidates accounts hasEnabled notFoundErr now st with
              | (Err e, st) => (Err e, st)
              | (Ok selected, st) => bind_session st None model sessionID selected
              end
          end
      end
  end.

Definition SelectAccountForModelInRoutingPoolAndEndpoint (routingPoolID : Z) (model endpoint : string)
    (excluded : list Z) (now : Time) (st : St) : result perror SelectedAccount * St :=
  match NormalizeEndpoint endpoint with
  | Err e => (Err e, st)
  | Ok endpoint =>
      if bool_decide (routingPoolID ≤ 0) then SelectAccountForModelAndEndpoint model endpoint excluded now st
      else if negb (Configured cfg) then (Err ErrNotConfigured, st)
      else match selectionCandidatesForRoutingPoolForEndpoint st routingPoolID model endpoint excluded now with
      | Err e => (Err e, st)
      | Ok (accounts, hasEnabled, notFoundErr) => selectFromCandidates accounts hasEnabled notFoundErr now st
      end
  end.

Definition SelectAccountForModelAndSessionInRoutingPoolAndEndpoint (routingPoolID : Z)
    (model endpoint sessionID : string) (excluded : list Z) (now : Time) (st : St)
  : result perror SelectedAccount * St :=
  match NormalizeEndpoint endpoint with
  | Err e => (Err e, st)
  | Ok endpoint =>
      if bool_decide (routingPoolID ≤ 0)
      then SelectAccountForModelAndSessionAndEndpoint model endpoint sessionID excluded now st
      else
        let model := TrimSpace model in
        let sessionID := TrimSpace sessionID in
        if str_eq sessionID ""
        then SelectAccountForModelInRoutingPoolAndEndpoint routingPoolID model endpoint excluded now st
        else if negb (Configured cfg) then (Err ErrNotConfigured, st)
        else match selectionCandidatesForRoutingPoolForEndpoint st routingPoolID model endpoint excluded now with
        | Err e => (Err e, st)
        | Ok (accounts, hasEnabled, notFoundErr) =>
            match stickySessionCandidates st (Some routingPoolID) accounts model sessionID with
            | Err e => (Err e, st)
            | Ok (accounts, _) =>
                match selectFromCandidates accounts hasEnabled notFoundErr now st with
                | (Err e, st) => (Err e, st)
                | (Ok selected, st) => bind_session st (Some routingPoolID) model sessionID selected
                end
            end
        end
  end.

(** *** Fallback chains of routing pools *)

(** The loop of [routingPoolChain]; [fuel] bounds the pools visited. *)
Fixpoint chain_loop (fuel : nat) (st : St) (visited : list Z) (pools : list RoutingPool) (i : Z)
  : option (list RoutingPool * string * option perror) :=
  if bool_decide (i ≤ 0) then Some (pools, routingPoolChainLabel pools, None)
  else match fuel with
  | O => None
  | S fuel =>
      if bool_decide (i ∈ visited) then Some ([], "", Some ErrRoutingPoolCycle)
      else match FindRoutingPool st i with
      | Err e =>
          if is_err e ErrRoutingPoolNotFound && negb (bool_decide (pools = []))
          then Some (pools, routingPoolChainLabel pools, Some ErrRoutingPoolExhausted)
          else Some ([], "", Some e)
      | Ok pool =>
          let pools := pools ++ [pool] in
          match FallbackPoolID pool with
          | None => Some (pools, routingPoolChainLabel pools, None)
          | Some next =>
              if bool_decide (next ≤ 0) then Some (pools, routingPoolChainLabel pools, None)
              else chain_loop fuel st (i :: visited) pools next
          end
      end
  end.

(** Two rounds more than there are pools: one to meet a pool again, one to
    miss a pool. *)
Definition chain_fuel (st : St) : nat := S (S (length (PoolIDs st))).

Definition routingPoolChain (st : St) (primaryPoolID : Z) : list RoutingPool * string * option perror :=
  default ([], "", Some (ErrOther "routing pool chain does not end"))
    (chain_loop (chain_fuel st) st [] [] primaryPoolID).

(** One enabled pool of the chain: a selection, an error that ends the
    request, or the error to remember before trying the next pool. *)
Inductive pool_attempt :=
| Found (selected : SelectedAccount)
| Stop (diag : SelectedAccount) (e : perror)
| TryNext (finalErr : option perror).

Definition attempt_pool (pool : RoutingPool) (depth : Z) (chainLabel model sessionID endpoint : string)
    (excluded : list Z) (now : Time) (finalErr : option perror) (st : St) : pool_attempt * St :=
  match selectionCandidatesForRoutingPoolForEndpoint st (P_ID pool) model endpoint excluded now with
  | Err e => (Stop (diagnostic (P_ID pool) (P_Name pool) depth chainLabel (error_text e)) e, st)
  | Ok (accounts, poolHasEnabled, notFoundErr) =>
      let finalErr := moreSpecificSelectionError finalErr (Some notFoundErr) in
      if bool_decide (accounts = []) then
        if is_err notFoundErr ErrRoutingPoolEmpty && bool_decide (depth = 0)
        then (Stop (diagnostic (P_ID pool) (P_Name pool) depth chainLabel RoutingPoolErrorEmpty) ErrRoutingPoolEmpty, st)
        else (TryNext finalErr, st)
      else
        let ordered := if str_eq sessionID "" then Ok (accounts, 0)
                       else stickySessionCandidates st (Some (P_ID pool)) accounts model sessionID in
        match ordered with
        | Err e => (Stop empty_selected e, st)
        | Ok (accounts, _) =>
            match selectFromCandidates accounts poolHasEnabled notFoundErr now st with
            | (Err e, st) => (TryNext (moreSpecificSelectionError finalErr (Some e)), st)
            | (Ok selected, st) =>
                let selected := with_pool selected pool depth chainLabel in
                if str_eq sessionID "" then (Found selected, st)
                else match bind_session st (Some (P_ID pool)) model sessionID selected with
                     | (Ok selected, st) => (Found selected, st)
                     | (Err e, st) => (Stop empty_selected e, st)
                     end
            end
        end
  end.

Fixpoint chain_select (pools : list RoutingPool) (depth : Z) (chainLabel model sessionID endpoint : string)
    (excluded : list Z) (now : Time) (finalErr : option perror) (hasEnabled : bool) (st : St)
  : SelectedAccount * option perror * St :=
  match pools with
  | [] => (diagnostic 0 "" 0 chainLabel RoutingPoolErrorExhausted,
           if negb hasEnabled then Some ErrAccountsDisabled else finalErr, st)
  | pool :: pools =>
      if negb (P_Enabled pool) then
        if bool_decide (depth = 0)
        then (diagnostic (P_ID pool) (P_Name pool) depth chainLabel RoutingPoolErrorDisabled,
              Some ErrAccountsDisabled, st)
        else chain_select pools (depth + 1) chainLabel model sessionID endpoint excluded now finalErr hasEnabled st
      else match attempt_pool pool depth chainLabel model sessionID endpoint excluded now finalErr st with
      | (Found selected, st) => (selected, None, st)
      | (Stop diag e, st) => (diag, Some e, st)
      | (TryNext finalErr, st) =>
          chain_select pools (depth + 1) chainLabel model sessionID endpoint excluded now finalErr true st
      end
  end.

Definition selectAccountForRoutingPoolChain (primaryPoolID : Z) (model sessionID endpoint : string)
    (excluded : list Z) (now : Time) (st : St) : SelectedAccount * option perror * St :=
  match routingPoolChain st primaryPoolID with
  | (_, chainLabel, Some e) => (diagnostic 0 "" 0 chainLabel (routingPoolDiagnosticError e), Some e, st)
  | (pools, chainLabel, None) =>
      chain_select pools 0 chainLabel (TrimSpace model) (TrimSpace sessionID) endpoint excluded now
        (Some ErrAccountsUnavailable) false st
  end.

(** A Go result [(T, error)] from a [result]. *)
Definition pair_of (r : result perror SelectedAccount * St) : SelectedAccount * option perror * St :=
  match r with
  | (Ok s, st) => (s, None, st)
  | (Err e, st) => (empty_selected, Some e, st)
  end.

Definition SelectAccountForModelInRoutingPoolChainAndEndpoint (primaryPoolID : Z) (model endpoint : string)
    (excluded : list Z) (now : Time) (st : St) : SelectedAccount * option perror * St :=
  match NormalizeEndpoint endpoint with
  | Err e => (empty_selected, Some e, st)
  | Ok endpoint =>
      if bool_decide (primaryPoolID ≤ 0) then pair_of (SelectAccountForModelAndEndpoint model endpoint excluded now st)
      else if negb (Configured cfg) then (empty_selected, Some ErrNotConfigured, st)
      else selectAccountForRoutingPoolChain primaryPoolID model "" endpoint excluded now st
  end.

Definition SelectAccountForModelAndSessionInRoutingPoolChainAndEndpoint (primaryPoolID : Z)
    (model endpoint sessionID : string) (excluded : list Z) (now : Time) (st : St)
  : SelectedAccount * option perror * St :=
  match NormalizeEndpoint endpoint with
  | Err e => (empty_selected, Some e, st)
  | Ok endpoint =>
      if bool_decide (primaryPoolID ≤ 0)
      then pair_of (SelectAccountForModelAndSessionAndEndpoint model endpoint sessionID excluded now st)
      else
        let model := TrimSpace model in
        let sessionID := TrimSpace sessionID in
        if str_eq sessionID ""
        then SelectAccountForModelInRoutingPoolChainAndEndpoint primaryPoolID model endpoint excluded now st
        else if negb (Configured cfg) then (empty_selected, Some ErrNotConfigured, st)
        else selectAccountForRoutingPoolChain primaryPoolID model sessionID endpoint excluded now st
  end.

(** *** Response affinity *)

Record responseAffinityCandidate := { rac_account : Account; rac_pool : RoutingPool; rac_depth : Z }.

Definition candidates_of (pool : RoutingPool) (depth : Z) (accounts : list Account) : list responseAffinityCandidate :=
  map (fun a => {| rac_account := a; rac_pool := pool; rac_depth := depth |}) accounts.

Fixpoint topology_loop (st : St) (pools : list RoutingPool) (depth : Z)
  : result perror (list responseAffinityCandidate) :=
  match pools with
  | [] => Ok []
  | pool :: pools =>
      if bool_decide (depth = 0) && negb (P_Enabled pool) then Err ErrAccountsDisabled
      else
        let? accounts := ListRoutingPoolAccounts st (P_ID pool) in
        let? rest := topology_loop st pools (depth + 1) in
        Ok (candidates_of pool depth accounts ++ rest)
  end.

Definition responseAffinityTopology (st : St) (primaryPoolID : Z)
  : result perror (list responseAffinityCandidate) * string :=
  if negb (Configured cfg) then (Err ErrNotConfigured, "")
  else match routingPoolChain st primaryPoolID with
  | (_, chainLabel, Some e) => (Err e, chainLabel)
  | (pools, chainLabel, None) => (topology_loop st pools 0, chainLabel)
  end.

Fixpoint affinity_loop (st : St) (model endpoint : string) (now : Time) (pools : list RoutingPool) (depth : Z)
  : result perror (list responseAffinityCandidate) :=
  match pools with
  | [] => Ok []
  | pool :: pools =>
      if negb (P_Enabled pool)
      then if bool_decide (depth = 0) then Err ErrAccountsDisabled
           else affinity_loop st model endpoint now pools (depth + 1)
      else
        let? c := selectionCandidatesForRoutingPoolForEndpoint st (P_ID pool) model endpoint [] now in
        let? rest := affinity_loop st model endpoint now pools (depth + 1) in
        Ok (candidates_of pool depth c.1.1 ++ rest)
  end.

Definition responseAffinityCandidatesForEndpoint (st : St) (primaryPoolID : Z) (model endpoint : string) (now : Time)
  : result perror (list responseAffinityCandidate) * string :=
  if negb (Configured cfg) then (Err ErrNotConfigured, "")
  else match routingPoolChain st primaryPoolID with
  | (_, chainLabel, Some e) => (Err e, chainLabel)
  | (pools, chainLabel, None) => (affinity_loop st model endpoint now pools 0, chainLabel)
  end.

Definition selectedResponseAffinityAccount (c : responseAffinityCandidate) (chainLabel : string) (st : St)
  : result perror SelectedAccount * St :=
  match selectedAccount (rac_account c) st with
  | (Ok selected, st) => (Ok (with_pool selected (rac_pool c) (rac_depth c) chainLabel), st)
  | (Err e, st) => (Err e, st)
  end.

Definition SelectAccountByIDInRoutingPoolChainAndEndpoint (primaryPoolID accountID : Z) (model endpoint : string)
    (now : Time) (st : St) : SelectedAccount * option perror * St :=
  match NormalizeEndpoint endpoint with
  | Err e => (empty_selected, Some e, st)
  | Ok endpoint =>
      if bool_decide (primaryPoolID ≤ 0) || bool_decide (accountID ≤ 0) then (empty_selected, Some ErrInvalidInput, st)
      else match responseAffinityCandidatesForEndpoint st primaryPoolID model endpoint now with
      | (Err e, chainLabel) => (diagnostic 0 "" 0 chainLabel (routingPoolDiagnosticError e), Some e, st)
      | (Ok cs, chainLabel) =>
          match List.find (fun c => bool_decide (ID (rac_account c) = accountID)) cs with
          | Some c => pair_of (selectedResponseAffinityAccount c chainLabel st)
          | None => (diagnostic 0 "" 0 chainLabel RoutingPoolErrorExhausted, Some ErrAccountsUnavailable, st)
          end
      end
  end.

Definition accountModelsForCandidates (st : St) (model : string) (accounts : list Account)
  : gmap Z (list AccountModel) * bool :=
  if str_eq (TrimSpace model) "" then (∅, true)
  else match ListAccountModelsForAccounts st (map ID accounts) with
  | Ok m => (m, true)
  | Err _ => (∅, false)
  end.

Definition legal_candidate (model endpoint : string) (now : Time) (models : gmap Z (list AccountModel))
    (available : bool) (c : responseAffinityCandidate) : bool :=
  P_Enabled (rac_pool c) &&
  str_eq (selectionUnschedulableReasonForEndpoint (rac_account c) model endpoint [] now
            (default [] (models !! ID (rac_account c))) available) "".

Definition exhausted (chainLabel : string) (st : St) : SelectedAccount * bool * option perror * St :=
  (diagnostic 0 "" 0 chainLabel RoutingPoolErrorExhausted, false, Some ErrAccountsUnavailable, st).

Definition select_affinity (c : responseAffinityCandidate) (chainLabel : string) (st : St)
  : SelectedAccount * bool * option perror * St :=
  match selectedResponseAffinityAccount c chainLabel st with
  | (Ok selected, st) => (selected, true, None, st)
  | (Err e, st) => (empty_selected, false, Some e, st)
  end.

(** Without an endpoint: the accounts of the whole chain, usable or not, must
    be one account. *)
Definition selectSingleAccountInRoutingPoolChainLegacy (primaryPoolID : Z) (model : string) (now : Time) (st : St)
  : SelectedAccount * bool * option perror * St :=
  match responseAffinityTopology st primaryPoolID with
  | (Err e, chainLabel) => (diagnostic 0 "" 0 chainLabel (routingPoolDiagnosticError e), false, Some e, st)
  | (Ok topology, chainLabel) =>
      match topology with
      | [] => exhausted chainLabel st
      | first :: _ =>
          if existsb (fun c => negb (bool_decide (ID (rac_account c) = ID (rac_account first)))) topology
          then (diagnostic 0 "" 0 chainLabel "", false, None, st)
          else
            let '(models, available) := accountModelsForCandidates st model [rac_account first] in
            match List.find (legal_candidate model "" now models available) topology with
            | Some c => select_affinity c chainLabel st
            | None => exhausted chainLabel st
            end
      end
  end.

Definition SelectSingleAccountInRoutingPoolChainAndEndpoint (primaryPoolID : Z) (model endpoint : string)
    (now : Time) (st : St) : SelectedAccount * bool * option perror * St :=
  match NormalizeEndpoint endpoint with
  | Err e => (empty_selected, false, Some e, st)
  | Ok endpoint =>
      if bool_decide (primaryPoolID ≤ 0) then (empty_selected, false, Some ErrInvalidInput, st)
      else if str_eq endpoint "" then selectSingleAccountInRoutingPoolChainLegacy primaryPoolID model now st
      else match responseAffinityTopology st primaryPoolID with
      | (Err e, chainLabel) => (diagnostic 0 "" 0 chainLabel (routingPoolDiagnosticError e), false, Some e, st)
      | (Ok topology, chainLabel) =>
          let '(models, available) := accountModelsForCandidates st model (map rac_account topology) in
          match List.filter (legal_candidate model endpoint now models available) topology with
          | [] => exhausted chainLabel st
          | first :: rest =>
              if existsb (fun c => negb (bool_decide (ID (rac_account c) = ID (rac_account first)))) rest
              then (diagnostic 0 "" 0 chainLabel "", false, None, st)
              else select_affinity first chainLabel st
          end
      end
  end.

(** *** Previews for the administration console *)

Definition unschedulable_candidates (st : St) (model endpoint : string) (accounts selected : list Account)
    (excludedAccountIDs : list Z) (now : Time) : list SelectionCandidate :=
  let '(models, available) := accountModelsForCandidates st model accounts in
  let excluded := normalizedExcludedAccountIDs excludedAccountIDs in
  flat_map (fun a =>
    if bool_decide (ID a ∈ map ID selected) then []
    else
      let ms := default [] (models !! ID a) in
      let reason := selectionUnschedulableReasonForEndpoint a model endpoint excluded now ms available in
      if str_eq reason "" then []
      else [selectionCandidateForEndpoint a model endpoint ms 0 false false reason]) accounts.

Definition unschedulableSelectionCandidatesForEndpoint (st : St) (model endpoint : string)
    (selected : list Account) (excludedAccountIDs : list Z) (now : Time) : list SelectionCandidate :=
  match ListAccounts st with
  | Err _ => []
  | Ok accounts => unschedulable_candidates st model endpoint accounts selected excludedAccountIDs now
  end.

Definition unschedulableSelectionCandidatesInRoutingPoolForEndpoint (st : St) (routingPoolID : Z)
    (model endpoint : string) (selected : list Account) (excludedAccountIDs : list Z) (now : Time)
  : list SelectionCandidate :=
  match ListRoutingPoolAccounts st routingPoolID with
  | Err _ => []
  | Ok accounts => unschedulable_candidates st model endpoint accounts selected excludedAccountIDs now
  end.

(** The ranked candidates of a preview: rank 1 is the selected account. *)
Fixpoint ranked (models : gmap Z (list AccountModel)) (available : bool) (model endpoint sessionID : string)
    (bound : Z) (rank : Z) (accounts : list Account) : list SelectionCandidate :=
  match accounts with
  | [] => []
  | a :: accounts =>
      let ms := if available then default [] (models !! ID a) else [] in
      let selected := bool_decide (rank = 1) in
      let sticky := bool_decide (0 < bound) && bool_decide (ID a = bound) in
      with_reason (selectionCandidateForEndpoint a model endpoint ms rank selected true "") sticky
        (scheduleReason a selected sticky (negb (str_eq sessionID "")))
      :: ranked models available model endpoint sessionID bound (rank + 1) accounts
  end.

Definition preview_models (st : St) (model endpoint : string) (accounts : list Account)
  : gmap Z (list AccountModel) * bool :=
  if negb (str_eq endpoint "") then accountModelsForCandidates st model accounts else (∅, true).

Definition PreviewAccountSelectionForEndpoint (model endpoint sessionID : string) (excluded : list Z) (now : Time)
    (st : St) : result perror SelectionPreview :=
  let? endpoint := NormalizeEndpoint endpoint in
  if negb (Configured cfg) then Err ErrNotConfigured
  else
    let model := TrimSpace model in
    let sessionID := TrimSpace sessionID in
    let? (accounts, _, notFoundErr) := selectionCandidatesForEndpoint st model endpoint excluded now in
    let? (accounts, bound) :=
      if negb (str_eq sessionID "") then stickySessionCandidates st None accounts model sessionID
      else Ok (accounts, 0) in
    match accounts with
    | [] =>
        let blocked := unschedulableSelectionCandidatesForEndpoint st model endpoint [] excluded now in
        if negb (bool_decide (length blocked = 0%nat))
        then Ok (Build_SelectionPreview model endpoint sessionID 0 0 0 "" 0 "" "" blocked)
        else Err notFoundErr
    | first :: _ =>
        let '(models, available) := preview_models st model endpoint accounts in
        Ok (Build_SelectionPreview model endpoint sessionID (ID first) bound 0 "" 0 "" ""
              (ranked models available model endpoint sessionID bound 1 accounts ++
               unschedulableSelectionCandidatesForEndpoint st model endpoint accounts excluded now))
    end.

(** The loop over the chain of a preview. *)
Fixpoint preview_chain (pools : list RoutingPool) (depth : Z) (chainLabel model endpoint sessionID : string)
    (excluded : list Z) (now : Time) (finalErr : option perror) (blockedChain : list SelectionCandidate)
    (hasEnabled : bool) (st : St) : SelectionPreview * option perror :=
  let at_pool pool account bound err cs :=
    Build_SelectionPreview model endpoint sessionID account bound (P_ID pool) (P_Name pool) depth chainLabel err cs in
  match pools with
  | [] => (Build_SelectionPreview model endpoint sessionID 0 0 0 "" 0 chainLabel RoutingPoolErrorExhausted blockedChain,
           if negb hasEnabled then Some ErrAccountsDisabled else finalErr)
  | pool :: pools =>
      if negb (P_Enabled pool) then
        if bool_decide (depth = 0) then (at_pool pool 0 0 RoutingPoolErrorDisabled [], Some ErrAccountsDisabled)
        else preview_chain pools (depth + 1) chainLabel model endpoint sessionID excluded now finalErr blockedChain
               hasEnabled st
      else match selectionCandidatesForRoutingPoolForEndpoint st (P_ID pool) model endpoint excluded now with
      | Err e => (at_pool pool 0 0 (error_text e) [], Some e)
      | Ok (accounts, _, notFoundErr) =>
          let finalErr := moreSpecificSelectionError finalErr (Some notFoundErr) in
          let blocked :=
            unschedulableSelectionCandidatesInRoutingPoolForEndpoint st (P_ID pool) model endpoint accounts excluded now in
          if bool_decide (accounts = []) then
            if is_err notFoundErr ErrRoutingPoolEmpty && bool_decide (depth = 0)
            then (at_pool pool 0 0 RoutingPoolErrorEmpty (blockedChain ++ blocked), Some ErrRoutingPoolEmpty)
            else preview_chain pools (depth + 1) chainLabel model endpoint sessionID excluded now finalErr
                   (blockedChain ++ blocked) true st
          else match (if negb (str_eq sessionID "")
                      then stickySessionCandidates st (Some (P_ID pool)) accounts model sessionID
                      else Ok (accounts, 0)) with
          | Err e => (empty_preview, Some e)
          | Ok ([], _) => (empty_preview, None)
          | Ok (((first :: _) as accounts), bound) =>
              let '(models, available) := preview_models st model endpoint accounts in
              (at_pool pool (ID first) bound ""
                 (ranked models available model endpoint sessionID bound 1 accounts ++ blockedChain ++ blocked), None)
          end
      end
  end.

Definition PreviewAccountSelectionInRoutingPoolForEndpoint (routingPoolID : Z) (model endpoint sessionID : string)
    (excluded : list Z) (now : Time) (st : St) : SelectionPreview * option perror :=
  match NormalizeEndpoint endpoint with
  | Err e => (empty_preview, Some e)
  | Ok endpoint =>
      if bool_decide (routingPoolID ≤ 0) then
        match PreviewAccountSelectionForEndpoint model endpoint sessionID excluded now st with
        | Ok p => (p, None)
        | Err e => (empty_preview, Some e)
        end
      else if negb (Configured cfg) then (empty_preview, Some ErrNotConfigured)
      else match routingPoolChain st routingPoolID with
      | (_, chainLabel, Some e) =>
          (Build_SelectionPreview "" "" "" 0 0 0 "" 0 chainLabel (routingPoolDiagnosticError e) [], Some e)
      | (pools, chainLabel, None) =>
          preview_chain pools 0 chainLabel (TrimSpace model) endpoint (TrimSpace sessionID) excluded now
            (Some ErrAccountsUnavailable) [] false st
      end
  end.

(** [ListExposedModelsForRoutingPoolChain]: the pools whose models are listed. *)
Definition exposed_pools (st : St) (primaryPoolID : Z) : result perror (list Z) :=
  if bool_decide (primaryPoolID ≤ 0) then Ok []
  else match routingPoolChain st primaryPoolID with
  | (_, _, Some e) => Err e
  | (pools, _, None) =>
      match pools with
      | [] => Ok []
      | primary :: _ => if negb (P_Enabled primary) then Ok [] else Ok (map P_ID (List.filter P_Enabled pools))
      end
  end.

(** *** What the gateway reports back *)

Definition RecordAccountUsed (accountID : Z) (now : Time) (st : St) : result perror unit * St :=
  if bool_decide (accountID ≤ 0) then (Err ErrInvalidInput, st) else RecordAccount st accountID (MarkUsed now).

Definition RecordAccountRecovered (accountID : Z) (st : St) : result perror unit * St :=
  if bool_decide (accountID ≤ 0) then (Err ErrInvalidInput, st) else RecordAccount st accountID ClearStatus.

(** *** The variants without an endpoint *)

Definition SelectAccountForModel (model : string) (excluded : list Z) (now : Time) (st : St)
  : result perror SelectedAccount * St := SelectAccountForModelAndEndpoint model "" excluded now st.
Definition SelectAccountForModelAndSession (model sessionID : string) (excluded : list Z) (now : Time) (st : St)
  : result perror SelectedAccount * St :=
  SelectAccountForModelAndSessionAndEndpoint model "" sessionID excluded now st.
Definition SelectAccountForModelInRoutingPool (pool : Z) (model : string) (excluded : list Z) (now : Time) (st : St)
  : result perror SelectedAccount * St := SelectAccountForModelInRoutingPoolAndEndpoint pool model "" excluded now st.
Definition SelectAccountForModelInRoutingPoolChain (pool : Z) (model : string) (excluded : list Z) (now : Time)
    (st : St) : SelectedAccount * option perror * St :=
  SelectAccountForModelInRoutingPoolChainAndEndpoint pool model "" excluded now st.
Definition SelectAccountForModelAndSessionInRoutingPool (pool : Z) (model sessionID : string) (excluded : list Z)
    (now : Time) (st : St) : result perror SelectedAccount * St :=
  SelectAccountForModelAndSessionInRoutingPoolAndEndpoint pool model "" sessionID excluded now st.
Definition SelectAccountForModelAndSessionInRoutingPoolChain (pool : Z) (model sessionID : string)
    (excluded : list Z) (now : Time) (st : St) : SelectedAccount * option perror * St :=
  SelectAccountForModelAndSessionInRoutingPoolChainAndEndpoint pool model "" sessionID excluded now st.
Definition SelectAccountByIDInRoutingPoolChain (pool accountID : Z) (model : string) (now : Time) (st : St)
  : SelectedAccount * option perror * St :=
  SelectAccountByIDInRoutingPoolChainAndEndpoint pool accountID model "" now st.
Definition SelectSingleAccountInRoutingPoolChain (pool : Z) (model : string) (now : Time) (st : St)
  : SelectedAccount * bool * option perror * St :=
  SelectSingleAccountInRoutingPoolChainAndEndpoint pool model "" now st.
Definition PreviewAccountSelection (model sessionID : string) (excluded : list Z) (now : Time) (st : St)
  : result perror SelectionPreview := PreviewAccountSelectionForEndpoint model "" sessionID excluded now st.
Definition PreviewAccountSelectionInRoutingPool (pool : Z) (model sessionID : string) (excluded : list Z)
    (now : Time) (st : St) : SelectionPreview * option perror :=
  PreviewAccountSelectionInRoutingPoolForEndpoint pool model "" sessionID excluded now st.

End service.
End Scheduling.
