(* ===== verification/ProviderStore.v ===== *)
(** * The provider repository

    The queries and updates of [store/provider.go] that the selection uses, on
    the tables of the configured provider, as an instance of the [Repository]
    interface, with the proof of what the interface promises. *)

From S2P Require Import Prelude GoStrings Account Scheduling.
Import Account Scheduling.

Module ProviderStore.

(** Rows of [provider_accounts] joined with their credentials, as
    [scanProviderAccount] returns them; pools; [routing_pool_accounts] as
    (pool, account, priority); models; session bindings by pool, model and
    session. *)
Record store := {
  rows : list Account;
  pools : list RoutingPool;
  members : list (Z * Z * Z);
  models : list AccountModel;
  bindings : gmap (option Z * string * string) Z
}.

(** The row of a pool query: the pool's priority replaces the account's. *)
Definition scan_pool_row (priority : Z) (a : Account) : Account :=
  {| ID := ID a; Provider := Provider a; AccountType := AccountType a; Subject := Subject a; Name := Name a;
     DisplayName := DisplayName a; BaseURL := BaseURL a; Credential := Credential a;
     EncryptedAccessToken := EncryptedAccessToken a; EncryptedRefreshToken := EncryptedRefreshToken a;
     EncryptedIDToken := EncryptedIDToken a; AccessTokenExpiresAt := AccessTokenExpiresAt a;
     LastRefreshAt := LastRefreshAt a; Enabled := Enabled a; Priority := priority;
     GlobalPriority := Priority a; RoutingPoolPriority := Some priority;
     LoadFactor := LoadFactor a; MaxConcurrentRequests := MaxConcurrentRequests a;
     LastUsedAt := LastUsedAt a; LastError := LastError a; LastErrorAt := LastErrorAt a;
     LastTestAt := LastTestAt a; LastTestStatus := LastTestStatus a; LastTestError := LastTestError a;
     Metadata := Metadata a; Status := Status a; StatusReason := StatusReason a;
     FingerprintHash := FingerprintHash a; UserAgentHash := UserAgentHash a; IPHash := IPHash a;
     FailureCount := FailureCount a; CircuitOpenUntil := CircuitOpenUntil a;
     RateLimitedUntil := RateLimitedUntil a; FingerprintProfileID := FingerprintProfileID a;
     LastRefreshError := LastRefreshError a; LastRefreshErrorAt := LastRefreshErrorAt a |}.

(** ** ORDER BY *)

Fixpoint lex_le (l k : list Z) : bool :=
  match l, k with
  | [], _ => true
  | _ :: _, [] => false
  | x :: l, y :: k => bool_decide (x < y) || (bool_decide (x = y) && lex_le l k)
  end.

(** load_factor DESC, (last_error_at IS NOT NULL) ASC, last_used_at ASC NULLS FIRST, id ASC *)
Definition order_tail (a : Account) : list Z :=
  [ - LoadFactor a; Z.b2z (is_set (LastErrorAt a));
    Z.b2z (is_set (LastUsedAt a)); default 0 (LastUsedAt a); ID a ].

Definition account_le (a b : Account) : Prop :=
  lex_le (Priority a :: order_tail a) (Priority b :: order_tail b) = true.
Definition pool_row_le (a b : Account) : Prop :=
  lex_le (selectionPriority a :: globalAccountPriority a :: order_tail a)
         (selectionPriority b :: globalAccountPriority b :: order_tail b) = true.

#[global] Instance account_le_dec : RelDecision account_le.
Proof. intros a b. unfold account_le. apply _. Defined.
#[global] Instance pool_row_le_dec : RelDecision pool_row_le.
Proof. intros a b. unfold pool_row_le. apply _. Defined.

(** ** WHERE clauses *)

Definition null_or_le (t : option Time) (now : Time) : bool :=
  match t with Some t => bool_decide (t ≤ now) | None => true end.
Definition set_and_le (t : option Time) (now : Time) : bool :=
  match t with Some t => bool_decide (t ≤ now) | None => false end.

Definition sql_schedulable (now : Time) (a : Account) : bool :=
  let now := time_truncate now Microsecond in
  Enabled a &&
  (str_eq (Status a) "" || str_eq (Status a) "active" ||
   (str_eq (Status a) "rate_limited" && set_and_le (RateLimitedUntil a) now) ||
   (str_eq (Status a) "circuit_open" && set_and_le (CircuitOpenUntil a) now)) &&
  null_or_le (RateLimitedUntil a) now && null_or_le (CircuitOpenUntil a) now.

(** [m.model = $ AND m.enabled AND ($ = '' OR COALESCE(m.metadata->>('endpoint.' || $), 'unknown') <> 'unsupported')] *)
Definition sql_model_matches (a : Account) (model endpoint : string) (m : AccountModel) : bool :=
  bool_decide (M_AccountID m = ID a) && str_eq (Model m) model && M_Enabled m &&
  (str_eq endpoint "" ||
   negb (str_eq (match M_Metadata m with
                 | Some md => default "unknown" (md !! ("endpoint." +++ endpoint))
                 | None => "unknown" end) "unsupported")).

Definition pool_rows (s : store) (poolID : Z) : list Account :=
  flat_map (fun '(p, i, prio) =>
    if bool_decide (p = poolID)
    then map (scan_pool_row prio) (List.filter (fun a => bool_decide (ID a = i)) (rows s)) else [])
    (members s).

(** ** Operations *)

Definition store_ListAccounts (s : store) : result perror (list Account) :=
  Ok (merge_sort account_le (rows s)).

Definition store_HasEnabledAccounts (s : store) : result perror bool := Ok (existsb Enabled (rows s)).

Definition store_FindRoutingPool (s : store) (i : Z) : result perror RoutingPool :=
  match List.find (fun p => bool_decide (P_ID p = i)) (pools s) with
  | Some p => Ok p
  | None => Err ErrRoutingPoolNotFound
  end.

Definition store_RoutingPoolHasAccounts (s : store) (i : Z) : result perror bool :=
  Ok (existsb (fun '(p, _, _) => bool_decide (p = i)) (members s)).

Definition store_ListEligibleAccountsForModelAndEndpoint (s : store) (model endpoint : string)
    (excluded : list Z) (now : Time) : result perror (list Account) :=
  let model := TrimSpace model in
  if str_eq model "" then Ok []
  else Ok (merge_sort account_le
    (flat_map (fun a =>
      if sql_schedulable now a && negb (bool_decide (ID a ∈ excluded))
      then map (fun _ => a) (List.filter (sql_model_matches a model endpoint) (models s)) else []) (rows s))).

Definition store_ListAccountsForRoutingPoolAndEndpoint (s : store) (poolID : Z) (model endpoint : string)
    (excludedAccountIDs : list Z) (now : Time) : result perror (list Account) :=
  let model := TrimSpace model in
  let excluded := normalizedExcludedAccountIDs excludedAccountIDs in
  Ok (merge_sort pool_row_le
    (List.filter (fun a => sql_schedulable now a && negb (bool_decide (ID a ∈ excluded)) &&
       (str_eq model "" || existsb (sql_model_matches a model endpoint) (models s))) (pool_rows s poolID))).

Definition store_ListRoutingPoolAccounts (s : store) (poolID : Z) : result perror (list Account) :=
  Ok (merge_sort pool_row_le (pool_rows s poolID)).

(** An entry for each id asked for; the models of one account have distinct
    names, so their order within an entry is immaterial. *)
Definition store_ListAccountModelsForAccounts (s : store) (ids : list Z)
  : result perror (gmap Z (list AccountModel)) :=
  Ok (list_to_map (map (fun i => (i, List.filter (fun m => bool_decide (M_AccountID m = i)) (models s))) ids)).

Definition store_FindSessionBinding (s : store) (pool : option Z) (model session : string) : result perror Z :=
  match bindings s !! (pool, model, session) with
  | Some i => Ok i
  | None => Err ErrSessionBindingNotFound
  end.

Definition store_UpsertSessionBinding (s : store) (pool : option Z) (model session : string) (accountID : Z)
  : result perror unit * store :=
  (Ok tt, {| rows := rows s; pools := pools s; members := members s; models := models s;
             bindings := <[(pool, model, session) := accountID]> (bindings s) |}).

(** The single-row updates: [ErrNotConnected] when no row has the id. *)
Definition store_RecordAccount (s : store) (i : Z) (r : account_record) : result perror unit * store :=
  if existsb (fun a => bool_decide (ID a = i)) (rows s)
  then (Ok tt, {| rows := map (fun a => if bool_decide (ID a = i) then apply_record r a else a) (rows s);
                  pools := pools s; members := members s; models := models s; bindings := bindings s |})
  else (Err ErrNotConnected, s).

#[global] Instance store_repository : Repository store := {
  ListAccounts := store_ListAccounts;
  HasEnabledAccounts := store_HasEnabledAccounts;
  FindRoutingPool := store_FindRoutingPool;
  RoutingPoolHasAccounts := store_RoutingPoolHasAccounts;
  EndpointAware := true;
  ListEligibleAccountsForModelAndEndpoint := store_ListEligibleAccountsForModelAndEndpoint;
  ListAccountsForRoutingPoolAndEndpoint := store_ListAccountsForRoutingPoolAndEndpoint;
  ListRoutingPoolAccounts := store_ListRoutingPoolAccounts;
  ListAccountModelsForAccounts := store_ListAccountModelsForAccounts;
  FindSessionBinding := store_FindSessionBinding;
  UpsertSessionBinding := store_UpsertSessionBinding;
  RecordAccount := store_RecordAccount;
  PoolIDs := fun s => map P_ID (pools s)
}.

(** ** The query and the Go test agree *)

Definition aligned (t : option Time) : Prop :=
  match t with Some t => time_truncate t Microsecond = t | None => True end.

Lemma le_truncate t now :
  time_truncate t Microsecond = t → t ≤ time_truncate now Microsecond ↔ t ≤ now.
Proof.
  intros Ht. split.
  - pose proof (time_truncate_bounds now Microsecond ltac:(done)). lia.
  - intros Hle. rewrite <- Ht. by apply time_truncate_mono.
Qed.

Lemma sql_schedulable_sound now a : sql_schedulable now a = true → AccountSchedulable a now = true.
Proof.
  unfold sql_schedulable, AccountSchedulable, AccountStatusActive, AccountStatusRateLimited,
    AccountStatusCircuitOpen. cbv zeta.
  pose proof (time_truncate_bounds now Microsecond ltac:(done)) as [Hle _].
  set (n := time_truncate now Microsecond) in *.
  assert (∀ t, null_or_le t n = true → set_after t now = false) as H1.
  { intros [t|]; [|done]. cbn. unfold time_after. rewrite bool_decide_eq_true, bool_decide_eq_false. lia. }
  assert (∀ t, set_and_le t n = true → unset_or_after t now = false) as H2.
  { intros [t|]; [|done]. cbn. unfold time_after. rewrite bool_decide_eq_true, bool_decide_eq_false. lia. }
  rewrite !andb_true_iff, !orb_true_iff, !andb_true_iff. intros [[[-> Hst] Hr] Hc]. cbn [negb].
  rewrite (H1 _ Hr), (H1 _ Hc). cbn [negb andb].
  destruct Hst as [[[Hst|Hst]|[Hst Hs]]|[Hst Hs]]; apply bool_decide_eq_true in Hst; rewrite Hst;
    unfold str_eq; cbn; try rewrite (H2 _ Hs); done.
Qed.

(** The WHERE clause of the scheduling queries and [AccountSchedulable]
    accept the same accounts at the same time, although the query compares
    with a clock truncated to microseconds. *)
Theorem sql_schedulable_exact now a :
  aligned (RateLimitedUntil a) → aligned (CircuitOpenUntil a) →
  sql_schedulable now a = AccountSchedulable a now.
Proof.
  intros Hr Hc. destruct (AccountSchedulable a now) eqn:Hs.
  2: { destruct (sql_schedulable now a) eqn:E; [|done]. apply sql_schedulable_sound in E. congruence. }
  unfold AccountSchedulable in Hs. destruct (Enabled a) eqn:He; [|done]. cbn [negb] in Hs. cbv zeta in Hs.
  set (n := time_truncate now Microsecond).
  assert (∀ t, aligned t → set_after t now = false → null_or_le t n = true) as H1.
  { intros [t|]; [|done]. cbn. unfold time_after. rewrite bool_decide_eq_true, bool_decide_eq_false.
    intros Ht. pose proof (le_truncate t now Ht). unfold n. lia. }
  assert (∀ t, aligned t → unset_or_after t now = false → set_and_le t n = true) as H2.
  { intros [t|]; [|done]. cbn. unfold time_after. rewrite bool_decide_eq_true, bool_decide_eq_false.
    intros Ht. pose proof (le_truncate t now Ht). unfold n. lia. }
  unfold sql_schedulable. cbv zeta. rewrite He. fold n. cbn [andb].
  assert (set_after (RateLimitedUntil a) now = false ∧ set_after (CircuitOpenUntil a) now = false) as [Hra Hca].
  { repeat case_match; try done; apply andb_true_iff in Hs; by rewrite !negb_true_iff in Hs. }
  rewrite (H1 _ Hr Hra), (H1 _ Hc Hca), !andb_true_r, !orb_true_iff, !andb_true_iff.
  unfold AccountStatusActive, AccountStatusRateLimited, AccountStatusCircuitOpen in Hs.
  destruct (str_eq (Status a) "" || str_eq (Status a) "active") eqn:E0; [apply orb_true_iff in E0; tauto|].
  destruct (str_eq (Status a) "rate_limited") eqn:E1.
  { destruct (unset_or_after (RateLimitedUntil a) now) eqn:E; [done|]. left. right. auto. }
  destruct (str_eq (Status a) "circuit_open") eqn:E2; [|done].
  destruct (unset_or_after (CircuitOpenUntil a) now) eqn:E; [done|]. right. auto.
Qed.

Lemma sql_schedulable_exact_witness :
  sql_schedulable (Hour + 7) (after_failure (fun _ => None) (fun _ => "") demo_account 500 "" "" Hour) = false.
Proof.
  rewrite sql_schedulable_exact; [by vm_compute|done|by vm_compute].
Defined.

(** ** The laws of the interface *)

Lemma elem_of_flat_map {A B} (f : A → list B) (l : list A) (y : B) :
  y ∈ flat_map f l ↔ ∃ x, x ∈ l ∧ y ∈ f x.
Proof.
  rewrite list_elem_of_In, in_flat_map. split; intros (x & Hx & Hy); exists x;
    [by rewrite !list_elem_of_In|by rewrite <- !list_elem_of_In].
Qed.

#[global] Instance store_laws : RepositoryLaws store.
Proof.
  split.
  - intros st i p. cbn. unfold store_FindRoutingPool. destruct (List.find _ _) as [q|] eqn:Hf; [|done].
    intros [= <-]. destruct (find_some _ _ Hf) as [Hin Hid%bool_decide_eq_true]. split; [|done].
    rewrite <- Hid. apply (list_elem_of_fmap_2 P_ID). by apply list_elem_of_In.
  - intros st i model endpoint excluded now l a. cbn. unfold store_ListAccountsForRoutingPoolAndEndpoint.
    intros [= <-] Ha. rewrite merge_sort_Permutation in Ha. apply list_elem_of_In, filter_In in Ha as [_ Hp].
    rewrite !andb_true_iff, negb_true_iff, bool_decide_eq_false in Hp. destruct Hp as [[Hs Hex] _].
    split; [by apply sql_schedulable_sound|done].
  - intros st model endpoint excluded now l a. cbn. unfold store_ListEligibleAccountsForModelAndEndpoint.
    cbv zeta. destruct (str_eq _ ""); intros [= <-] Ha; [by apply elem_of_nil in Ha|].
    rewrite merge_sort_Permutation in Ha. apply elem_of_flat_map in Ha as (b & _ & Hb).
    destruct (_ && _) eqn:E; [|by apply elem_of_nil in Hb]. rewrite andb_true_iff, negb_true_iff in E.
    apply list_elem_of_fmap in Hb as (? & -> & _). destruct E as [Hs Hex%bool_decide_eq_false].
    split; [by apply sql_schedulable_sound|]. intros [Hin _]%list_elem_of_In%filter_In.
    by apply Hex, list_elem_of_In.
Qed.

End ProviderStore.
