(* ===== verification/SchedulingThms.v ===== *)
(** * Properties of account selection

    The fallback chain is walked exactly, selection returns only schedulable
    accounts that were not excluded, sticky sessions reorder within the top
    tier only, and the preview shown to administrators is what the gateway
    does. *)

From S2P Require Import Prelude GoStrings Account Scheduling ProviderStore.
Import Account Scheduling.

Module SchedulingThms.

(** ** Fallback chains *)

Section chain.
Context {St : Type} `{RepositoryLaws St}.

(** The pools met when following the fallback links from pool [i] to an end. *)
Inductive chain_of (st : St) : Z → list RoutingPool → Prop :=
| chain_last i p : FindRoutingPool st i = Ok p →
    (∀ j, FallbackPoolID p = Some j → j ≤ 0) → chain_of st i [p]
| chain_next i p j ps : FindRoutingPool st i = Ok p → FallbackPoolID p = Some j → 0 < j →
    chain_of st j ps → chain_of st i (p :: ps).

Lemma chain_of_det st i ps qs : chain_of st i ps → chain_of st i qs → ps = qs.
Proof.
  intros Hp. revert qs. induction Hp as [i p Hf Hend|i p j ps Hf Hnext Hj Hp IH]; intros qs Hq;
    inversion Hq as [i' p' Hf' Hend'|i' p' j' qs' Hf' Hnext' Hj' Hq']; subst.
  - congruence.
  - assert (p = p') as -> by congruence. specialize (Hend _ Hnext'). lia.
  - assert (p = p') as -> by congruence. specialize (Hend' _ Hnext). lia.
  - assert (p = p') as -> by congruence. assert (j = j') as -> by congruence. f_equal. auto.
Qed.

(** Every pool of a chain starts the rest of it. *)
Lemma chain_of_suffix st i ps q :
  chain_of st i ps → q ∈ ps → ∃ qs, chain_of st (P_ID q) qs ∧ (length qs ≤ length ps)%nat.
Proof.
  intros Hp. induction Hp as [i p Hf Hend|i p j ps Hf Hnext Hj Hp IH]; intros Hq;
    destruct (find_pool_known _ _ _ Hf) as [_ Hid].
  - apply list_elem_of_singleton in Hq as ->. exists [p]. rewrite Hid. split; [by constructor|done].
  - apply elem_of_cons in Hq as [->|Hq].
    + exists (p :: ps). rewrite Hid. split; [by eapply chain_next|done].
    + destruct (IH Hq) as (qs & Hqs & Hlen). exists qs. split; [done|]. cbn [length]. lia.
Qed.

Lemma chain_of_nodup st i ps : chain_of st i ps → NoDup (map P_ID ps).
Proof.
  intros Hp. induction Hp as [i p Hf Hend|i p j ps Hf Hnext Hj Hp IH]; cbn [map].
  { apply NoDup_singleton. }
  apply NoDup_cons. split; [|done]. intros (q & Hid & Hq)%list_elem_of_fmap.
  assert (chain_of st i (p :: ps)) as Hfull by (by eapply chain_next).
  destruct (chain_of_suffix st j ps q Hp Hq) as (qs & Hqs & Hlen).
  destruct (find_pool_known _ _ _ Hf) as [_ Hpi]. rewrite <- Hid, Hpi in Hqs.
  rewrite (chain_of_det _ _ _ _ Hqs Hfull) in Hlen. cbn in Hlen. lia.
Qed.

(** The loop ends within its fuel. *)
Lemma chain_loop_total fuel st visited pools i :
  NoDup visited → (∀ j, j ∈ visited → j ∈ PoolIDs st) →
  (length (PoolIDs st) + 1 ≤ fuel + length visited)%nat →
  is_Some (chain_loop fuel st visited pools i).
Proof.
  revert visited pools i. induction fuel as [|fuel IH]; intros visited pools i Hnd Hsub Hfuel; cbn [chain_loop];
    case_bool_decide; [by eexists|exfalso|by eexists|].
  - assert (length visited ≤ length (PoolIDs st))%nat; [|lia].
    apply NoDup_incl_length; [by apply NoDup_ListNoDup|]. intros j Hj. by apply list_elem_of_In, Hsub, list_elem_of_In.
  - case_bool_decide as Hv; [by eexists|]. destruct (FindRoutingPool st i) as [p|e] eqn:Hf.
    + cbv zeta. destruct (FallbackPoolID p) as [j|]; [|by eexists]. case_bool_decide; [by eexists|].
      destruct (find_pool_known _ _ _ Hf) as [Hk _]. apply IH.
      * by apply NoDup_cons.
      * intros k [->|Hk']%elem_of_cons; auto.
      * cbn [length]. lia.
    + destruct (_ && _); by eexists.
Qed.

Lemma chain_loop_sound fuel st visited pools i r label :
  chain_loop fuel st visited pools i = Some (r, label, None) → 0 < i →
  ∃ ps, r = pools ++ ps ∧ chain_of st i ps ∧ label = routingPoolChainLabel r.
Proof.
  revert visited pools i. induction fuel as [|fuel IH]; intros visited pools i; cbn [chain_loop];
    case_bool_decide; try lia; [done|]. intros Hloop _. revert Hloop.
  case_bool_decide; [done|]. destruct (FindRoutingPool st i) as [p|e] eqn:Hf; [|by destruct (_ && _)].
  cbv zeta. destruct (FallbackPoolID p) as [j|] eqn:Hj.
  - case_bool_decide.
    + intros [= <- <-]. exists [p]. split; [done|]. split; [|done]. apply chain_last; [done|].
      intros k Hk. rewrite Hj in Hk. injection Hk as <-. lia.
    + intros Hl. apply IH in Hl as (ps & -> & Hps & ->); [|lia]. exists (p :: ps).
      split; [by rewrite <- app_assoc|]. split; [|done]. eapply chain_next; eauto. lia.
  - intros [= <- <-]. exists [p]. split; [done|]. split; [|done]. apply chain_last; [done|].
    intros k Hk. congruence.
Qed.

Lemma chain_loop_complete fuel st visited pools i ps :
  chain_of st i ps → 0 < i → (length ps ≤ fuel)%nat →
  (∀ p, p ∈ ps → P_ID p ∉ visited) →
  chain_loop fuel st visited pools i = Some (pools ++ ps, routingPoolChainLabel (pools ++ ps), None).
Proof.
  intros Hp. revert fuel visited pools.
  induction Hp as [i p Hf Hend|i p j ps Hf Hnext Hj Hp IH]; intros [|fuel] visited pools Hi Hfuel Hv;
    cbn [length] in Hfuel; try lia; cbn [chain_loop]; rewrite bool_decide_eq_false_2 by lia;
    destruct (find_pool_known _ _ _ Hf) as [_ Hid];
    (rewrite bool_decide_eq_false_2 by (rewrite <- Hid; apply Hv; by constructor)); rewrite Hf; cbv zeta.
  - destruct (FallbackPoolID p) as [j|] eqn:Hj; [|done]. by rewrite bool_decide_eq_true_2 by auto.
  - rewrite Hnext, bool_decide_eq_false_2 by lia.
    rewrite (IH fuel (i :: visited) (pools ++ [p]) Hj ltac:(lia)), <- app_assoc; [done|].
    intros q Hq [Heq|Hin]%elem_of_cons; [|by eapply Hv; [right|]].
    pose proof (chain_of_nodup st i (p :: ps) ltac:(by eapply chain_next)) as Hnd. cbn [map] in Hnd.
    apply NoDup_cons in Hnd as [Hn _]. apply Hn. rewrite Hid, <- Heq. by apply (list_elem_of_fmap_2 P_ID).
Qed.

Lemma chain_of_known st i ps p : chain_of st i ps → p ∈ ps → P_ID p ∈ PoolIDs st.
Proof.
  intros Hp. induction Hp as [i q Hf Hend|i q j ps Hf Hnext Hj Hp IH].
  - intros ->%list_elem_of_singleton. by destruct (find_pool_known _ _ _ Hf) as [Hk ->].
  - intros [->|Hin]%elem_of_cons; [|auto]. by destruct (find_pool_known _ _ _ Hf) as [Hk ->].
Qed.

Lemma routing_chain_spec st i ps :
  0 < i →
  (routingPoolChain st i = (ps, routingPoolChainLabel ps, None) ↔ chain_of st i ps) ∧
  (chain_of st i ps → NoDup (map P_ID ps)) ∧
  ∃ r, chain_loop (chain_fuel st) st [] [] i = Some r ∧ routingPoolChain st i = r.
Proof.
  intros Hi. destruct (chain_loop_total (chain_fuel st) st [] [] i) as [r Hr].
  { apply NoDup_nil_2. }
  { by intros j ?%elem_of_nil. }
  { unfold chain_fuel. cbn [length]. lia. }
  split_and!; [|apply chain_of_nodup|exists r; split; [done|]; unfold routingPoolChain; by rewrite Hr].
  unfold routingPoolChain. rewrite Hr. cbn [from_option]. unfold id. split.
  - intros ->. destruct (chain_loop_sound _ _ _ _ _ _ _ Hr Hi) as (qs & Hqs & Hc & _). by rewrite Hqs.
  - intros Hc. rewrite (chain_loop_complete _ st [] [] i ps Hc Hi) in Hr; [by injection Hr as <-| |].
    + assert (length (map P_ID ps) ≤ length (PoolIDs st))%nat as Hlen.
      { apply NoDup_incl_length; [by apply NoDup_ListNoDup, chain_of_nodup with (st := st) (i := i)|].
        intros j Hj. apply list_elem_of_In. apply list_elem_of_In, list_elem_of_fmap in Hj as (p & -> & Hp).
        by eapply chain_of_known. }
      rewrite length_map in Hlen. unfold chain_fuel. lia.
    + intros p _. by apply not_elem_of_nil.
Qed.

(** Walking the fallback links ends, and it succeeds exactly on the
    finite chains: then it returns every pool of the chain once, in order, with
    the chain's label. *)
Theorem routing_chain_exact st i ps :
  0 < i →
  (routingPoolChain st i = (ps, routingPoolChainLabel ps, None) ↔ chain_of st i ps) ∧
  (chain_of st i ps → NoDup (map P_ID ps)) ∧
  ∃ r, chain_loop (chain_fuel st) st [] [] i = Some r ∧ routingPoolChain st i = r.
Proof. apply routing_chain_spec. Qed.
End chain.

(** ** Sticky sessions *)

Lemma group_end_le t l : (group_end t l ≤ length l)%nat.
Proof. induction l as [|a l IH]; cbn; [done|]. case_bool_decide; lia. Qed.

Lemma group_end_tier t l : Forall (fun a => tier a = t) (take (group_end t l) l).
Proof. induction l as [|a l IH]; cbn; [done|]. case_bool_decide; cbn; by constructor. Qed.

Lemma group_end_app t g rest :
  Forall (fun a => tier a = t) g → (∀ a, head rest = Some a → tier a ≠ t) →
  group_end t (g ++ rest) = length g.
Proof.
  induction 1 as [|a g Ha Hg IH]; intros Hrest; cbn.
  - destruct rest as [|b rest]; [done|]. cbn. rewrite bool_decide_eq_false_2; [done|]. by apply Hrest.
  - rewrite bool_decide_eq_true_2 by done. f_equal. auto.
Qed.

Lemma rotate_perm {A} n (l : list A) : rotate n l ≡ₚ l.
Proof. unfold rotate. rewrite Permutation_app_comm. by rewrite take_drop. Qed.

(** The candidates with the group sorted by id and rotated. *)
Lemma sticky_hash_eq first rest s :
  let l := first :: rest in
  let n := group_end (tier first) l in
  let g := merge_sort id_le (take n l) in
  stickySessionHashCandidates l s = l ∧ (n ≤ 1)%nat ∨
  stickySessionHashCandidates l s = rotate (Z.to_nat (stickyAccountIndex s (Z.of_nat (length g)))) g ++ drop n l.
Proof.
  intros l n g. unfold stickySessionHashCandidates, l. destruct rest as [|b rest].
  - left. split; [done|]. pose proof (group_end_le (tier first) [first]). unfold n, l. cbn [length] in *. lia.
  - cbv zeta. case_bool_decide as Hn; [left; done|right; done].
Qed.

Lemma sticky_hash_spec first rest s :
  let l := first :: rest in
  let n := group_end (tier first) l in
  stickySessionHashCandidates l s ≡ₚ l ∧
  drop n (stickySessionHashCandidates l s) = drop n l ∧
  take n (stickySessionHashCandidates l s) ≡ₚ take n l ∧
  Forall (fun a => tier a = tier first) (take n (stickySessionHashCandidates l s)).
Proof.
  intros l n. pose proof (group_end_tier (tier first) l) as Ht. fold n in Ht.
  pose proof (sticky_hash_eq first rest s) as Hq. cbv zeta in Hq. fold l in Hq. fold n in Hq.
  destruct Hq as [[-> _]| ->]; [done|].
  set (g := merge_sort id_le (take n l)). set (r := rotate _ g).
  assert (r ≡ₚ take n l) as Hr by (unfold r, g; by rewrite rotate_perm, merge_sort_Permutation).
  assert (length r = n) as Hlen.
  { rewrite Hr, length_take. pose proof (group_end_le (tier first) l). unfold n. lia. }
  rewrite take_app_length', drop_app_length' by done. rewrite Hr. split_and!; try done.
  by rewrite take_drop.
Qed.

(** A new session only reorders the accounts of the highest scheduling
    tier: the rest of the candidates keep their order, and no candidate is lost
    or duplicated. *)
Theorem sticky_hash_within_tier first rest s :
  let l := first :: rest in
  let n := group_end (tier first) l in
  stickySessionHashCandidates l s ≡ₚ l ∧
  drop n (stickySessionHashCandidates l s) = drop n l ∧
  take n (stickySessionHashCandidates l s) ≡ₚ take n l ∧
  Forall (fun a => tier a = tier first) (take n (stickySessionHashCandidates l s)).
Proof. apply sticky_hash_spec. Qed.

(** The order a new session gets does not depend on how the accounts of
    the highest tier were ordered before (least recently used first): a session
    without a binding keeps hitting the same account while the tier keeps the
    same accounts. *)
Theorem sticky_order_independent g1 g2 rest t s :
  g1 ≡ₚ g2 → Forall (fun a => tier a = t) g1 → NoDup (map ID g1) →
  (∀ a, head rest = Some a → tier a ≠ t) → g1 ≠ [] →
  stickySessionHashCandidates (g1 ++ rest) s = stickySessionHashCandidates (g2 ++ rest) s.
Proof.
  intros Hperm H1 Hnd Hrest Hne.
  assert (Forall (fun a => tier a = t) g2) as H2 by (by rewrite <- Hperm).
  assert (∀ g, Forall (fun a => tier a = t) g → g ≠ [] →
    (g = [] ∨ ∃ x, g = [x] ∧ stickySessionHashCandidates (g ++ rest) s = g ++ rest) ∨
    stickySessionHashCandidates (g ++ rest) s =
      rotate (Z.to_nat (stickyAccountIndex s (Z.of_nat (length (merge_sort id_le g))))) (merge_sort id_le g) ++ rest) as Hform.
  { intros [|a g] Hg; [done|]. intros _. pose proof (sticky_hash_eq a (g ++ rest) s) as Hq. cbv zeta in Hq.
    change (a :: g ++ rest) with ((a :: g) ++ rest) in Hq. inversion Hg as [|? ? Ha Hg']; subst.
    rewrite (group_end_app (tier a) (a :: g) rest) in Hq by done.
    rewrite take_app_length, drop_app_length in Hq. destruct Hq as [[Heq Hn]|Heq]; [|by right].
    left. right. destruct g; [eauto|cbn in Hn; lia]. }
  assert (g2 ≠ []) as Hne2 by (intros ->; by apply Permutation_nil_r in Hperm).
  destruct (Hform g1 H1 Hne) as [[?|(x & -> & Hx)]|Heq1]; [done| |].
  { apply Permutation_singleton_l in Hperm as ->. done. }
  destruct (Hform g2 H2 Hne2) as [[?|(x & -> & Hx)]|Heq2]; [done| |].
  { by apply Permutation_singleton_r in Hperm as ->. }
  assert (merge_sort id_le g1 = merge_sort id_le g2) as Hsort; [|by rewrite Heq1, Heq2, Hsort].
  assert (Total id_le) by (intros a b; unfold id_le; lia).
  assert (Transitive id_le) by (intros a b c; unfold id_le; lia).
  apply (StronglySorted_unique_strong id_le).
  - intros a b Ha Hb Hab Hba. rewrite merge_sort_Permutation in Ha, Hb. rewrite <- Hperm in Hb.
    assert (ID a = ID b) as Hid by (unfold id_le in *; lia).
    clear -Hnd Ha Hb Hid. induction g1 as [|c g IH]; [by apply elem_of_nil in Ha|].
    cbn [map] in Hnd. apply NoDup_cons in Hnd as [Hc Hnd].
    apply elem_of_cons in Ha as [->|Ha], Hb as [->|Hb]; auto; destruct Hc; apply list_elem_of_fmap; eauto.
  - apply StronglySorted_merge_sort; apply _.
  - apply StronglySorted_merge_sort; apply _.
  - by rewrite !merge_sort_Permutation.
Qed.

(** ** Selection *)

Lemma find_split_Some i before l r :
  find_split i before l = Some r →
  ∃ a pre post, l = pre ++ a :: post ∧ ID a = i ∧ r = a :: before ++ pre ++ post.
Proof.
  revert before. induction l as [|a l IH]; intros before; cbn; [done|]. case_bool_decide as Hi.
  - intros [= <-]. by exists a, [], l.
  - intros (b & pre & post & -> & Hb & ->)%IH. exists b, (a :: pre), post. by rewrite <- !app_assoc.
Qed.

Lemma find_split_None i before l : find_split i before l = None → ∀ a, a ∈ l → ID a ≠ i.
Proof.
  revert before. induction l as [|b l IH]; intros before Hf a; cbn in Hf; [by intros ?%elem_of_nil|].
  case_bool_decide; [done|]. intros [->|Ha]%elem_of_cons; [done|by eapply IH].
Qed.

Lemma sticky_hash_perm l s : stickySessionHashCandidates l s ≡ₚ l.
Proof. destruct l as [|a l]; [done|]. apply (sticky_hash_spec a l s). Qed.

Section selection.
Context {St : Type} `{Hrepo : Repository St} (cfg : Config).
Context (decryptString : string → string → result perror string).
Context (accessTokenForAccount : Account → St → result perror string * St).
Context (url_Parse : string → option (bool * string * string)).
Context (FindFingerprintProfileByID : Z → St → result perror (string * string * metadata_map)).

Abbreviation selectedAccount' := (selectedAccount cfg decryptString accessTokenForAccount url_Parse FindFingerprintProfileByID).
Abbreviation selectFromCandidates' :=
  (selectFromCandidates cfg decryptString accessTokenForAccount url_Parse FindFingerprintProfileByID).
Abbreviation attempt_pool' := (attempt_pool cfg decryptString accessTokenForAccount url_Parse FindFingerprintProfileByID).
Abbreviation chain_select' := (chain_select cfg decryptString accessTokenForAccount url_Parse FindFingerprintProfileByID).
Abbreviation selectChain :=
  (selectAccountForRoutingPoolChain cfg decryptString accessTokenForAccount url_Parse FindFingerprintProfileByID).

Lemma sticky_session_spec st pool accounts model session ordered bound :
  stickySessionCandidates st pool accounts model session = Ok (ordered, bound) →
  ordered ≡ₚ accounts ∧
  ∀ i, FindSessionBinding st pool model session = Ok i → i ∈ map ID accounts →
    bound = i ∧ option_map ID (head ordered) = Some i.
Proof.
  unfold stickySessionCandidates. case_bool_decide as He.
  { intros [= <- <-]. split; [done|]. rewrite He. by intros i _ ?%elem_of_nil. }
  destruct (FindSessionBinding st pool model session) as [b|e] eqn:Hb.
  - destruct (find_split b [] accounts) as [r|] eqn:Hf; intros [= <- <-].
    + apply find_split_Some in Hf as (a & pre & post & -> & Ha & ->). cbn [app]. split.
      * by rewrite Permutation_middle.
      * intros i [= <-] _. cbn. by rewrite Ha.
    + split; [apply sticky_hash_perm|]. intros i [= <-] (a & Ha & Hin)%list_elem_of_fmap.
      by destruct (find_split_None _ _ _ Hf a Hin).
  - destruct (negb _); [done|]. intros [= <- <-]. split; [apply sticky_hash_perm|done].
Qed.

(** An ongoing session keeps its account: the candidates are a
    reordering of the eligible accounts, and when the account the session is
    bound to is among them it comes first. *)
Theorem sticky_session_bound_first st pool accounts model session ordered bound :
  stickySessionCandidates st pool accounts model session = Ok (ordered, bound) →
  ordered ≡ₚ accounts ∧
  ∀ i, FindSessionBinding st pool model session = Ok i → i ∈ map ID accounts →
    bound = i ∧ option_map ID (head ordered) = Some i.
Proof. apply sticky_session_spec. Qed.

Lemma with_fingerprint_id a s st : AccountID (with_fingerprint FindFingerprintProfileByID a s st) = AccountID s.
Proof.
  unfold with_fingerprint. destruct (FingerprintProfileID a); [|done]. case_bool_decide; [|done].
  by destruct (FindFingerprintProfileByID z st) as [[[? ?] ?]|].
Qed.

Lemma selectedAccount_id a st s st' : selectedAccount' a st = (Ok s, st') → AccountID s = ID a.
Proof.
  unfold selectedAccount. cbv zeta. destruct (proxy_url _ _); [|done].
  destruct (account_credentials _ _ _ _ _ _ _) as [[[t b]|] st1]; [|done].
  intros [= <- _]. by rewrite with_fingerprint_id.
Qed.

Lemma selectFromCandidates_Ok accounts he nf now st s st' :
  selectFromCandidates' accounts he nf now st = (Ok s, st') → ∃ a, a ∈ accounts ∧ AccountID s = ID a.
Proof.
  revert st. induction accounts as [|a accounts IH]; intros st; cbn [selectFromCandidates]; [done|].
  destruct (selectedAccount' a st) as [[s1|e] st1] eqn:Hs.
  - intros [= <- <-]. apply selectedAccount_id in Hs. exists a. split; [constructor|done].
  - destruct (recordSelectionFailure st1 (ID a) e now) as [[]]; [|done].
    intros (b & Hb & Hid)%IH. exists b. split; [by constructor|done].
Qed.

Lemma filterAccountsByEndpoint_subset st model endpoint l r a :
  filterAccountsByEndpoint st model endpoint l = Ok r → a ∈ r → a ∈ l.
Proof.
  unfold filterAccountsByEndpoint. destruct (_ || _); [by intros [= <-]|].
  intros (ms & _ & [= <-])%result_bind_Ok Ha. apply list_elem_of_In, filter_In in Ha as [Ha _].
  by apply list_elem_of_In.
Qed.

Lemma normalizedExcluded_idem l :
  normalizedExcludedAccountIDs (normalizedExcludedAccountIDs l) = normalizedExcludedAccountIDs l.
Proof.
  unfold normalizedExcludedAccountIDs. induction l as [|i l IH]; cbn; [done|].
  case_bool_decide as Hi; [|done]. cbn. rewrite bool_decide_eq_true_2 by done. by f_equal.
Qed.

(** The candidates of a pool come from its query. *)
Lemma pool_candidates_subset st i model endpoint excluded now l b e a (P : Account → Prop) :
  selectionCandidatesForRoutingPoolForEndpoint st i model endpoint excluded now = Ok (l, b, e) →
  (∀ model endpoint r a, ListAccountsForRoutingPoolAndEndpoint st i model endpoint
     (normalizedExcludedAccountIDs excluded) now = Ok r → a ∈ r → P a) →
  a ∈ l → P a.
Proof.
  unfold selectionCandidatesForRoutingPoolForEndpoint. intros Hc HP Ha. revert Hc.
  destruct (FindRoutingPool st i) as [p|e0].
  2: { destruct (is_err _ _); intros [= <- _ _]. by apply elem_of_nil in Ha. }
  destruct (P_Enabled p); cbn [negb]; [|intros [= <- _ _]; by apply elem_of_nil in Ha].
  intros (accounts & Hl & Hrest)%result_bind_Ok.
  assert (a ∈ accounts) as Hin.
  { revert Hrest. case_bool_decide as Hne; cbn [negb]; [|intros [= <- _ _]; done]. subst accounts.
    intros (av & _ & Hrest)%result_bind_Ok. revert Hrest.
    case_bool_decide; cbn [negb]; [|intros [= <- _ _]; done].
    intros (hp & _ & Hrest)%result_bind_Ok. revert Hrest. destruct hp; cbn [negb]; [|by intros [= <- _ _]].
    destruct (negb _); [|by intros [= <- _ _]]. intros (ba & _ & [= <- _ _])%result_bind_Ok. done. }
  unfold listAccountsForRoutingPoolAndEndpoint in Hl. apply result_bind_Ok in Hl as (base & Hbase & Hfil).
  eapply filterAccountsByEndpoint_subset in Hin; [|exact Hfil].
  destruct (_ && _) in Hbase; by eapply HP.
Qed.

Lemma pool_candidates_eligible `{!RepositoryLaws St} st i model endpoint excluded now l b e a :
  selectionCandidatesForRoutingPoolForEndpoint st i model endpoint excluded now = Ok (l, b, e) → a ∈ l →
  AccountSchedulable a now = true ∧ ID a ∉ normalizedExcludedAccountIDs excluded.
Proof.
  intros Hc. eapply (pool_candidates_subset _ _ _ _ _ _ _ _ _ a (fun a => AccountSchedulable a now = true ∧ _) Hc).
  intros m e' r a' Hr Ha'. rewrite <- normalizedExcluded_idem. by eapply pool_accounts_eligible.
Qed.

Lemma moreSpecific_Some c n : is_Some (moreSpecificSelectionError (Some c) (Some n)).
Proof. unfold moreSpecificSelectionError. repeat case_match; by eexists. Qed.

(** What a successful selection carries. *)
Definition selected_from (pool : RoutingPool) (depth : Z) (label : string) (excluded : list Z) (now : Time)
    (s : SelectedAccount) : Prop :=
  P_Enabled pool = true ∧ RoutingPoolID s = P_ID pool ∧ RoutingPoolName s = P_Name pool ∧
  RoutingPoolFallbackDepth s = depth ∧ RoutingPoolFallbackChain s = label ∧
  ∃ a, AccountID s = ID a ∧ AccountSchedulable a now = true ∧ ID a ∉ normalizedExcludedAccountIDs excluded.

Lemma attempt_pool_spec `{!RepositoryLaws St} pool depth label model session endpoint excluded now fe st r st' :
  P_Enabled pool = true → is_Some fe →
  attempt_pool' pool depth label model session endpoint excluded now fe st = (r, st') →
  match r with
  | Found s => selected_from pool depth label excluded now s
  | Stop _ _ => True
  | TryNext fe' => is_Some fe'
  end.
Proof.
  intros Hen [c ->]. unfold attempt_pool.
  destruct (selectionCandidatesForRoutingPoolForEndpoint st _ _ _ _ _) as [[[accounts he] nf]|e] eqn:Hc;
    [|by intros [= <- _]].
  cbv zeta. destruct (moreSpecific_Some c nf) as [c' Hc']. rewrite Hc'.
  case_bool_decide as He; [destruct (_ && _); intros [= <- _]; [done|by eexists]|].
  destruct (if str_eq session "" then _ else _) as [[ordered bound]|e] eqn:Ho; [|by intros [= <- _]].
  assert (ordered ≡ₚ accounts) as Hperm.
  { destruct (str_eq session ""); [by injection Ho as <- _|]. by eapply sticky_session_spec. }
  destruct (selectFromCandidates' ordered he nf now st) as [[s|e] st1] eqn:Hs.
  - apply selectFromCandidates_Ok in Hs as (a & Ha & Hid). rewrite Hperm in Ha.
    assert (selected_from pool depth label excluded now (with_pool s pool depth label)) as Hsel.
    { unfold selected_from. cbn. split_and!; try done. exists a. split; [done|].
      by eapply pool_candidates_eligible. }
    destruct (str_eq session ""); [by intros [= <- _]|]. unfold bind_session.
    destruct (UpsertSessionBinding _ _ _ _ _) as [[] st2]; by intros [= <- _].
  - intros [= <- _]. apply moreSpecific_Some.
Qed.

Lemma chain_select_sound `{!RepositoryLaws St} pools depth label model session endpoint excluded now fe he st s st' :
  is_Some fe → 0 ≤ depth →
  chain_select' pools depth label model session endpoint excluded now fe he st = (s, None, st') →
  (∃ k pool, pools !! k = Some pool ∧ selected_from pool (depth + Z.of_nat k) label excluded now s) ∧
  (depth = 0 → ∀ p, head pools = Some p → P_Enabled p = true).
Proof.
  revert depth fe he st. induction pools as [|pool pools IH]; intros depth fe he st Hfe Hd; cbn [chain_select].
  { destruct Hfe as [c ->]. destruct he; cbn; intros; simplify_eq. }
  destruct (P_Enabled pool) eqn:Hen; cbn [negb].
  - destruct (attempt_pool' _ _ _ _ _ _ _ _ _ _) as [[s1|dg e|fe1] st1] eqn:Ha;
      pose proof (attempt_pool_spec _ _ _ _ _ _ _ _ _ _ _ _ Hen Hfe Ha) as Hsp.
    + intros [= <- _]. split; [|intros _ p [= <-]; done]. exists 0%nat, pool. split; [done|].
      by rewrite Z.add_0_r.
    + intros; simplify_eq.
    + intros Hrec. apply IH in Hrec as [(k & p & Hk & Hs) _]; [|done|lia]. split; [|intros _ q [= <-]; done].
      exists (S k), p. split; [done|]. by replace (depth + Z.of_nat (S k)) with (depth + 1 + Z.of_nat k) by lia.
  - case_bool_decide; [intros; simplify_eq|]. intros Hrec.
    apply IH in Hrec as [(k & p & Hk & Hs) _]; [|done|lia]. split; [|done].
    exists (S k), p. split; [done|]. by replace (depth + Z.of_nat (S k)) with (depth + 1 + Z.of_nat k) by lia.
Qed.


(** *** Previews *)

Abbreviation selectInChain :=
  (SelectAccountForModelAndSessionInRoutingPoolChainAndEndpoint cfg decryptString accessTokenForAccount url_Parse
     FindFingerprintProfileByID).
Abbreviation previewInPool := (PreviewAccountSelectionInRoutingPoolForEndpoint cfg).

(** Credentials that work and bindings that can be stored. *)
Definition serviceable (st : St) : Prop :=
  (∀ i model endpoint excluded now l b e a,
     selectionCandidatesForRoutingPoolForEndpoint st i model endpoint excluded now = Ok (l, b, e) → a ∈ l →
     ∃ s, selectedAccount' a st = (Ok s, st)) ∧
  ∀ pool model session i, ∃ st', UpsertSessionBinding st pool model session i = (Ok tt, st').

(** The outcome of a selection matches a preview. *)
Definition agrees (p : SelectionPreview * option perror) (r : SelectedAccount * option perror * St) : Prop :=
  r.1.2 = p.2 ∧
  (p.2 = None → AccountID r.1.1 = SelectedAccountID p.1 ∧ RoutingPoolID r.1.1 = SP_RoutingPoolID p.1 ∧
     RoutingPoolFallbackDepth r.1.1 = SP_RoutingPoolFallbackDepth p.1 ∧
     RoutingPoolFallbackChain r.1.1 = SP_RoutingPoolFallbackChain p.1).

Lemma preview_chain_agrees pools depth label model endpoint session excluded now fe blocked he st :
  serviceable st → is_Some fe →
  agrees (preview_chain pools depth label model endpoint session excluded now fe blocked he st)
         (chain_select' pools depth label model session endpoint excluded now fe he st).
Proof.
  intros [Hcred Hbind]. revert depth fe blocked he.
  induction pools as [|pool pools IH]; intros depth fe blocked he [c ->]; cbn [preview_chain chain_select].
  { by destruct he; cbn; split. }
  destruct (P_Enabled pool); cbn [negb]; [|case_bool_decide; [by split|by apply IH]].
  unfold attempt_pool.
  destruct (selectionCandidatesForRoutingPoolForEndpoint st _ _ _ _ _) as [[[accounts ph] nf]|e] eqn:Hc; [|by split].
  cbv zeta. destruct (moreSpecific_Some c nf) as [c' Hc']. rewrite Hc'.
  case_bool_decide as He; [destruct (_ && _); [by split|by apply IH]|].
  replace (if negb (str_eq session "") then stickySessionCandidates st (Some (P_ID pool)) accounts model session
           else Ok (accounts, 0))
    with (if str_eq session "" then Ok (accounts, 0)
          else stickySessionCandidates st (Some (P_ID pool)) accounts model session)
    by (by destruct (str_eq session "")).
  destruct (if str_eq session "" then _ else _) as [[ordered bound]|e] eqn:Ho; [|by split].
  assert (ordered ≡ₚ accounts) as Hperm.
  { destruct (str_eq session ""); [by injection Ho as <- _|]. by eapply sticky_session_spec. }
  destruct ordered as [|first ordered]; [by apply Permutation_nil_l in Hperm|].
  cbn [selectFromCandidates].
  destruct (Hcred _ _ _ _ _ _ _ _ first Hc) as [s Hs]; [rewrite <- Hperm; constructor|]. rewrite Hs.
  apply selectedAccount_id in Hs. destruct (preview_models st model endpoint (first :: ordered)) as [ms av].
  destruct (str_eq session ""); [by split; [|intros _; cbn; rewrite Hs]|].
  unfold bind_session. destruct (Hbind (Some (P_ID pool)) model session (AccountID (with_pool s pool depth label)))
    as [st' ->]. by split; [|intros _; cbn; rewrite Hs].
Qed.

Lemma NormalizeEndpoint_idem e e' : NormalizeEndpoint e = Ok e' → NormalizeEndpoint e' = Ok e'.
Proof.
  unfold NormalizeEndpoint at 1. cbv zeta. destruct (str_eq _ ""); [intros [= <-]; by vm_compute|].
  destruct (_ || _); [intros [= <-]; by vm_compute|].
  destruct (_ || _); [intros [= <-]; by vm_compute|done].
Qed.


(** *** Affinity to a single account *)

Abbreviation selectSingle :=
  (SelectSingleAccountInRoutingPoolChainAndEndpoint cfg decryptString accessTokenForAccount url_Parse
     FindFingerprintProfileByID).

Lemma select_affinity_Some c label st s st' :
  select_affinity cfg decryptString accessTokenForAccount url_Parse FindFingerprintProfileByID c label st
    = (s, true, None, st') →
  AccountID s = ID (rac_account c) ∧ RoutingPoolID s = P_ID (rac_pool c) ∧ RoutingPoolFallbackDepth s = rac_depth c.
Proof.
  unfold select_affinity, selectedResponseAffinityAccount.
  destruct (selectedAccount' (rac_account c) st) as [[s1|e] st1] eqn:Hs; intros; simplify_eq.
  apply selectedAccount_id in Hs. done.
Qed.

Lemma existsb_other_false {A} (f : A → Z) (x : Z) (l : list A) :
  existsb (fun c => negb (bool_decide (f c = x))) l = false → ∀ c, c ∈ l → f c = x.
Proof.
  intros Hex c Hc. destruct (decide (f c = x)) as [|Hne]; [done|].
  assert (existsb (fun c => negb (bool_decide (f c = x))) l = true); [|congruence].
  apply existsb_exists. exists c. split; [by apply list_elem_of_In|]. by rewrite bool_decide_eq_false_2.
Qed.

(** Response affinity to "the only account" is granted only when it is
    the only one: every account of the chain that could serve the request is the
    selected one, and it is legal in the pool it is reported with. *)
Theorem single_account_unique primary model endpoint e now st s st' :
  NormalizeEndpoint endpoint = Ok e →
  selectSingle primary model endpoint now st = (s, true, None, st') →
  ∃ topology label models available,
    responseAffinityTopology cfg st primary = (Ok topology, label) ∧
    (∃ c, c ∈ topology ∧ legal_candidate model e now models available c = true ∧
       AccountID s = ID (rac_account c) ∧ RoutingPoolID s = P_ID (rac_pool c)) ∧
    ∀ c, c ∈ topology → legal_candidate model e now models available c = true →
      ID (rac_account c) = AccountID s.
Proof.
  intros He. unfold SelectSingleAccountInRoutingPoolChainAndEndpoint. rewrite He.
  case_bool_decide; [intros; simplify_eq|]. unfold str_eq at 1. case_bool_decide as Hempty.
  - subst e. unfold selectSingleAccountInRoutingPoolChainLegacy.
    destruct (responseAffinityTopology cfg st primary) as [[topology|err] label]; [|intros; simplify_eq].
    destruct topology as [|first topology]; [intros; simplify_eq|].
    destruct (existsb _ _) eqn:Hex; [intros; simplify_eq|].
    destruct (accountModelsForCandidates st model [rac_account first]) as [ms av].
    destruct (List.find _ _) as [c|] eqn:Hf; [|intros; simplify_eq].
    intros (Hid & Hpool & _)%select_affinity_Some. destruct (find_some _ _ Hf) as [Hin%list_elem_of_In Hlegal].
    exists (first :: topology), label, ms, av. split_and!; [done|by exists c|].
    intros d Hd _. rewrite Hid. pose proof (existsb_other_false (fun c => ID (rac_account c)) _ _ Hex) as Hall.
    by rewrite (Hall d Hd), (Hall c Hin).
  - destruct (responseAffinityTopology cfg st primary) as [[topology|err] label]; [|intros; simplify_eq].
    destruct (accountModelsForCandidates st model (map rac_account topology)) as [ms av].
    destruct (List.filter _ _) as [|first rest] eqn:Hfil; [intros; simplify_eq|].
    destruct (existsb _ _) eqn:Hex; [intros; simplify_eq|].
    intros (Hid & Hpool & _)%select_affinity_Some.
    assert (∀ c, c ∈ topology ∧ legal_candidate model e now ms av c = true ↔ c ∈ first :: rest) as Hmem.
    { intros c. rewrite <- Hfil, !list_elem_of_In. symmetry. apply filter_In. }
    exists topology, label, ms, av. split_and!; [done| |].
    + exists first. destruct (proj2 (Hmem first)) as [? ?]; [constructor|]. done.
    + intros d Hd Hl. assert (d ∈ first :: rest) as Hin by (by apply Hmem). rewrite Hid.
      apply elem_of_cons in Hin as [->|Hin]; [done|].
      by apply (existsb_other_false (fun c => ID (rac_account c)) _ _ Hex).
Qed.
End selection.

(** ** A concrete store

    Two pools, the second the fallback of the first; the account of the first
    pool is disabled, the second pool has one usable account. *)
Definition account_of (i : Z) (enabled : bool) : Account :=
  {| ID := i; Provider := "openai"; AccountType := "codex_oauth"; Subject := ""; Name := "acct"; DisplayName := "";
     BaseURL := ""; Credential := Build_AccountCredential "" "" "" "" None None "" None "" "" "" None;
     EncryptedAccessToken := "t"; EncryptedRefreshToken := ""; EncryptedIDToken := ""; AccessTokenExpiresAt := None;
     LastRefreshAt := None; Enabled := enabled; Priority := 1; GlobalPriority := 1; RoutingPoolPriority := None;
     LoadFactor := 1; MaxConcurrentRequests := 0; LastUsedAt := None; LastError := ""; LastErrorAt := None;
     LastTestAt := None; LastTestStatus := ""; LastTestError := ""; Metadata := None; Status := "active";
     StatusReason := ""; FingerprintHash := ""; UserAgentHash := ""; IPHash := ""; FailureCount := 0; CircuitOpenUntil := None; RateLimitedUntil := None;
     FingerprintProfileID := None; LastRefreshError := ""; LastRefreshErrorAt := None |}.
Definition demo_primary : RoutingPool :=
  {| P_ID := 10; P_Name := "primary"; P_Enabled := true; FallbackPoolID := Some 20 |}.
Definition demo_fallback : RoutingPool :=
  {| P_ID := 20; P_Name := "fallback"; P_Enabled := true; FallbackPoolID := None |}.
Definition demo_store : ProviderStore.store :=
  {| ProviderStore.rows := [account_of 1 false; account_of 2 true];
     ProviderStore.pools := [demo_primary; demo_fallback];
     ProviderStore.members := [(10, 1, 5); (20, 2, 5)];
     ProviderStore.models := [{| M_AccountID := 2; Model := "gpt"; M_Enabled := true; M_Metadata := None |}];
     ProviderStore.bindings := ∅ |}.
Definition demo_cfg : Config := Build_Config "openai" "id" "https://r" "https://a" "https://t" "secret" false "https://api/" false.
Definition demo_decrypt (_ s : string) : result perror string := Ok s.
Definition demo_token (_ : Account) (st : ProviderStore.store) : result perror string * ProviderStore.store := (Ok "token", st).
Definition demo_url (_ : string) : option (bool * string * string) := Some (true, "host", "https").
Definition demo_fingerprint (_ : Z) (_ : ProviderStore.store) : result perror (string * string * metadata_map) :=
  Err ErrInvalidInput.

Lemma routing_chain_exact_witness :
  chain_of demo_store 10 [demo_primary; demo_fallback] ∧ NoDup (map P_ID [demo_primary; demo_fallback]).
Proof.
  destruct (routing_chain_exact demo_store 10 [demo_primary; demo_fallback]) as (H1 & H2 & _); [done|].
  assert (chain_of demo_store 10 [demo_primary; demo_fallback]) as Hc by (apply H1; by vm_compute).
  split; [exact Hc|apply H2; exact Hc].
Defined.

Lemma sticky_order_independent_witness :
  stickySessionHashCandidates ([account_of 1 true; account_of 2 true] ++ []) "session" =
  stickySessionHashCandidates ([account_of 2 true; account_of 1 true] ++ []) "session".
Proof.
  apply (sticky_order_independent _ _ [] (1, 1, 1, false) "session").
  - constructor.
  - by repeat constructor.
  - cbn. repeat constructor; set_solver.
  - done.
  - done.
Defined.

Lemma sticky_session_bound_first_witness :
  [account_of 2 true; account_of 1 true] ≡ₚ [account_of 1 true; account_of 2 true].
Proof.
  apply (sticky_session_bound_first
    {| ProviderStore.rows := []; ProviderStore.pools := []; ProviderStore.members := []; ProviderStore.models := [];
       ProviderStore.bindings := {[ (None : option Z, "gpt", "s") := 2 ]} |}
    None [account_of 1 true; account_of 2 true] "gpt" "s" [account_of 2 true; account_of 1 true] 2).
  by vm_compute.
Defined.

Definition demo_selected : SelectedAccount :=
  (selectAccountForRoutingPoolChain demo_cfg demo_decrypt demo_token demo_url demo_fingerprint 10 "gpt" "" "" [] Hour demo_store).1.1.


Lemma single_account_unique_witness :
  ∃ topology label models available,
    responseAffinityTopology demo_cfg demo_store 10 = (Ok topology, label) ∧
    (∃ c, c ∈ topology ∧ legal_candidate "gpt" "responses" Hour models available c = true ∧
       AccountID demo_selected = ID (rac_account c) ∧ RoutingPoolID demo_selected = P_ID (rac_pool c)) ∧
    ∀ c, c ∈ topology → legal_candidate "gpt" "responses" Hour models available c = true →
      ID (rac_account c) = AccountID demo_selected.
Proof.
  apply (single_account_unique demo_cfg demo_decrypt demo_token demo_url demo_fingerprint 10 "gpt" "responses"
    "responses" Hour demo_store demo_selected demo_store); by vm_compute.
Defined.

Lemma demo_pool_row i a : a ∈ ProviderStore.pool_rows demo_store i →
  ∃ j en, a = ProviderStore.scan_pool_row 5 (account_of j en).
Proof.
  intros (((p & j) & prio) & Hm & Ha)%ProviderStore.elem_of_flat_map.
  destruct (bool_decide _); [|by apply elem_of_nil in Ha]. apply list_elem_of_fmap in Ha as (r & -> & Hr).
  apply list_elem_of_In, filter_In in Hr as [Hr%list_elem_of_In _]. cbn in Hm, Hr.
  assert (prio = 5) as -> by (rewrite !elem_of_cons, elem_of_nil in Hm; naive_solver).
  rewrite !elem_of_cons, elem_of_nil in Hr. destruct Hr as [->|[->|[]]]; eauto.
Qed.

Lemma demo_store_serviceable :
  serviceable demo_cfg demo_decrypt demo_token demo_url demo_fingerprint demo_store.
Proof.
  split; [|intros; by eexists]. intros i model endpoint excluded now l b e a Hc Ha.
  assert (∃ j, a ∈ ProviderStore.pool_rows demo_store j) as [j Hj].
  { exists i. revert Ha.
    apply (pool_candidates_subset demo_store i model endpoint excluded now l b e a
      (fun a => a ∈ ProviderStore.pool_rows demo_store i) Hc).
    intros m' e' l' a' [= <-] Hin. rewrite merge_sort_Permutation in Hin.
    by apply list_elem_of_In, filter_In in Hin as [Hin%list_elem_of_In _]. }
  apply demo_pool_row in Hj as (k & en & ->). by eexists.
Qed.

End SchedulingThms.
