(* ===== verification/Json.v ===== *)
(** * JSON as Go's [encoding/json] reads it

    [json.Unmarshal] into [map[string]any] and into structs with string fields,
    as the gateway uses it: the syntax check of the whole text, the nesting
    bound, string escapes and the replacement of invalid UTF-8, and numbers as
    [float64] converted to [int].  A member of an object keeps the text of its
    value, which is what a [json.RawMessage] field receives. *)

From S2P Require Import Prelude GoStrings.
From Stdlib Require Import Ascii.
From Stdlib Require String.

Module Json.

Abbreviation chars := (list ascii).

(** A number is [± mantissa * 10 ^ exponent]. *)
Inductive json :=
| JNull
| JBool (b : bool)
| JNumber (negative : bool) (mantissa exponent : Z)
| JString (s : string)
| JArray (l : list json)
| JObject (members : list (string * (string * json))).

(** ** Characters *)

Definition is_ws (a : ascii) : bool :=
  let x := byte_of a in
  bool_decide (x = 32) || bool_decide (x = 9) || bool_decide (x = 10) || bool_decide (x = 13).

Fixpoint skip_ws (l : chars) : chars :=
  match l with a :: l' => if is_ws a then skip_ws l' else l | [] => [] end.

Definition is_digit (a : ascii) : bool := bool_decide (48 ≤ byte_of a ≤ 57).

Fixpoint take_digits (l : chars) : chars * chars :=
  match l with
  | a :: l' => if is_digit a then let '(d, r) := take_digits l' in (a :: d, r) else ([], l)
  | [] => ([], [])
  end.

Definition digits_Z (l : chars) : Z := foldl (fun acc a => acc * 10 + (byte_of a - 48)) 0 l.

Definition ch (c : string) : ascii := match c with String.String a _ => a | _ => "000"%char end.
Definition is_char (c : string) (a : ascii) : bool := bool_decide (a = ch c).

(** ** UTF-8 *)

Definition byte_in (lo hi : Z) (a : ascii) : bool := bool_decide (lo ≤ byte_of a ≤ hi).
Definition cont : ascii → bool := byte_in 128 191.

(** The length of the well-formed character at the front, if there is one. *)
Definition utf8_length (l : chars) : option nat :=
  match l with
  | [] => None
  | a :: l1 =>
      if byte_in 0 127 a then Some 1%nat
      else match l1 with
      | [] => None
      | b :: l2 =>
          if byte_in 194 223 a && cont b then Some 2%nat
          else match l2 with
          | [] => None
          | c :: l3 =>
              if ((byte_in 224 224 a && byte_in 160 191 b) || (byte_in 225 236 a && cont b) ||
                  (byte_in 237 237 a && byte_in 128 159 b) || (byte_in 238 239 a && cont b)) && cont c
              then Some 3%nat
              else match l3 with
              | [] => None
              | d :: _ =>
                  if ((byte_in 240 240 a && byte_in 144 191 b) || (byte_in 241 243 a && cont b) ||
                      (byte_in 244 244 a && byte_in 128 143 b)) && cont c && cont d
                  then Some 4%nat else None
              end
          end
      end
  end.

Definition byte (x : Z) : ascii := ascii_of_N (Z.to_N x).

(** [utf8.AppendRune] for a scalar value. *)
Definition encode_rune (r : Z) : chars :=
  if bool_decide (r < 128) then [byte r]
  else if bool_decide (r < 2048) then [byte (192 + r / 64); byte (128 + r mod 64)]
  else if bool_decide (r < 65536)
  then [byte (224 + r / 4096); byte (128 + r / 64 mod 64); byte (128 + r mod 64)]
  else [byte (240 + r / 262144); byte (128 + r / 4096 mod 64); byte (128 + r / 64 mod 64);
        byte (128 + r mod 64)].

Definition replacement : chars := encode_rune 65533.

(** ** Strings *)

Definition hex_value (a : ascii) : option Z :=
  let x := byte_of a in
  if bool_decide (48 ≤ x ≤ 57) then Some (x - 48)
  else if bool_decide (97 ≤ x ≤ 102) then Some (x - 87)
  else if bool_decide (65 ≤ x ≤ 70) then Some (x - 55) else None.

Definition hex4 (l : chars) : option (Z * chars) :=
  match l with
  | a :: b :: c :: d :: l =>
      match hex_value a, hex_value b, hex_value c, hex_value d with
      | Some a, Some b, Some c, Some d => Some (((a * 16 + b) * 16 + c) * 16 + d, l)
      | _, _, _, _ => None
      end
  | _ => None
  end.

Definition is_surrogate (r : Z) : bool := bool_decide (55296 ≤ r ≤ 57343).

(** A [\u] escape after its [\u]: a pair of surrogates is one character, a
    lone one is replaced. *)
Definition unicode_escape (l : chars) : option (chars * chars) :=
  match hex4 l with
  | None => None
  | Some (r, l) =>
      if negb (is_surrogate r) then Some (encode_rune r, l)
      else match l with
      | a :: b :: l2 =>
          if is_char "\" a && is_char "u" b then
            match hex4 l2 with
            | Some (r2, l3) =>
                if bool_decide (r < 56320) && bool_decide (56320 ≤ r2 ≤ 57343)
                then Some (encode_rune (65536 + (r - 55296) * 1024 + (r2 - 56320)), l3)
                else Some (replacement, l)
            | None => None
            end
          else Some (replacement, l)
      | _ => Some (replacement, l)
      end
  end.

Definition quote : ascii := ascii_of_N 34.

Definition simple_escape (a : ascii) : option ascii :=
  if bool_decide (a = quote) then Some quote
  else if is_char "\" a then Some (ch "\")
  else if is_char "/" a then Some (ch "/")
  else if is_char "b" a then Some (byte 8)
  else if is_char "f" a then Some (byte 12)
  else if is_char "n" a then Some (byte 10)
  else if is_char "r" a then Some (byte 13)
  else if is_char "t" a then Some (byte 9)
  else None.

(** The text after an opening quote: the decoded string and what follows. *)
Fixpoint parse_string (fuel : nat) (l : chars) : option (chars * chars) :=
  match fuel with
  | O => None
  | S fuel =>
      match l with
      | [] => None
      | a :: l1 =>
          if bool_decide (a = quote) then Some ([], l1)
          else if bool_decide (byte_of a < 32) then None
          else if is_char "\" a then
            match l1 with
            | [] => None
            | e :: l2 =>
                if is_char "u" e then
                  '(c, l3) ← unicode_escape l2;
                  '(s, r) ← parse_string fuel l3;
                  Some (c ++ s, r)
                else
                  c ← simple_escape e;
                  '(s, r) ← parse_string fuel l2;
                  Some (c :: s, r)
            end
          else match utf8_length l with
          | Some n => '(s, r) ← parse_string fuel (drop n l); Some (take n l ++ s, r)
          | None => '(s, r) ← parse_string fuel l1; Some (replacement ++ s, r)
          end
      end
  end.

(** ** Numbers *)

Definition parse_exponent (l : chars) : option (Z * chars) :=
  match l with
  | a :: l1 =>
      if is_char "e" a || is_char "E" a then
        let '(sign, l2) :=
          match l1 with
          | s :: l2 => if is_char "-" s then (-1, l2) else if is_char "+" s then (1, l2) else (1, l1)
          | [] => (1, [])
          end in
        match take_digits l2 with
        | ([], _) => None
        | (ds, r) => Some (sign * digits_Z ds, r)
        end
      else Some (0, l)
  | [] => Some (0, [])
  end.

Definition parse_fraction (l : chars) : option (chars * chars) :=
  match l with
  | a :: l1 =>
      if is_char "." a then
        match take_digits l1 with ([], _) => None | (ds, r) => Some (ds, r) end
      else Some ([], l)
  | [] => Some ([], [])
  end.

Definition parse_number (l : chars) : option (json * chars) :=
  let '(neg, l) := match l with a :: l' => if is_char "-" a then (true, l') else (false, l) | [] => (false, []) end in
  ' (int, l) ← match l with
               | a :: l' => if is_char "0" a then Some ([a], l')
                            else match take_digits l with ([], _) => None | (ds, r) => Some (ds, r) end
               | [] => None
               end;
  ' (frac, l) ← parse_fraction l;
  ' (e, l) ← parse_exponent l;
  Some (JNumber neg (digits_Z (int ++ frac)) (e - Z.of_nat (length frac)), l).

Fixpoint strip_prefix (p l : chars) : option chars :=
  match p, l with
  | [], _ => Some l
  | a :: p, b :: l => if bool_decide (a = b) then strip_prefix p l else None
  | _ :: _, [] => None
  end.

Definition literal (word : string) (v : json) (l : chars) : option (json * chars) :=
  r ← strip_prefix (String.list_ascii_of_string word) l; Some (v, r).

(** ** Values *)

Definition maxNestingDepth : Z := 10000.

(** [text l r]: what was read between [l] and its suffix [r]. *)
Definition text (l r : chars) : string :=
  String.string_of_list_ascii (take (length l - length r) l).

Fixpoint parse_value (fuel : nat) (depth : Z) (l : chars) : option (json * chars) :=
  match fuel with
  | O => None
  | S fuel =>
      let l := skip_ws l in
      match l with
      | [] => None
      | a :: l1 =>
          if is_char "{" a then
            if bool_decide (maxNestingDepth < depth + 1) then None
            else match skip_ws l1 with
            | b :: r => if is_char "}" b then Some (JObject [], r)
                        else '(ms, r) ← parse_members fuel (depth + 1) l1; Some (JObject ms, r)
            | [] => None
            end
          else if is_char "[" a then
            if bool_decide (maxNestingDepth < depth + 1) then None
            else match skip_ws l1 with
            | b :: r => if is_char "]" b then Some (JArray [], r)
                        else '(vs, r) ← parse_elements fuel (depth + 1) l1; Some (JArray vs, r)
            | [] => None
            end
          else if bool_decide (a = quote) then
            '(s, r) ← parse_string (S (length l1)) l1; Some (JString (String.string_of_list_ascii s), r)
          else if is_char "t" a then literal "true" (JBool true) l
          else if is_char "f" a then literal "false" (JBool false) l
          else if is_char "n" a then literal "null" JNull l
          else parse_number l
      end
  end
with parse_members (fuel : nat) (depth : Z) (l : chars) : option (list (string * (string * json)) * chars) :=
  match fuel with
  | O => None
  | S fuel =>
      match skip_ws l with
      | q :: l1 =>
          if bool_decide (q = quote) then
            '(k, l2) ← parse_string (S (length l1)) l1;
            match skip_ws l2 with
            | c :: l3 =>
                if is_char ":" c then
                  let l4 := skip_ws l3 in
                  '(v, l5) ← parse_value fuel depth l4;
                  let m := (String.string_of_list_ascii k, (text l4 l5, v)) in
                  match skip_ws l5 with
                  | d :: l6 =>
                      if is_char "," d then '(ms, r) ← parse_members fuel depth l6; Some (m :: ms, r)
                      else if is_char "}" d then Some ([m], l6) else None
                  | [] => None
                  end
                else None
            | [] => None
            end
          else None
      | [] => None
      end
  end
with parse_elements (fuel : nat) (depth : Z) (l : chars) : option (list json * chars) :=
  match fuel with
  | O => None
  | S fuel =>
      '(v, l1) ← parse_value fuel depth l;
      match skip_ws l1 with
      | d :: l2 =>
          if is_char "," d then '(vs, r) ← parse_elements fuel depth l2; Some (v :: vs, r)
          else if is_char "]" d then Some ([v], l2) else None
      | [] => None
      end
  end.

(** [json.Valid]: one value and nothing but white space around it.  A value of
    [n] bytes nests fewer than [n] calls. *)
Definition parse (s : string) : option json :=
  let l := String.list_ascii_of_string s in
  ' (v, r) ← parse_value (2 * length l + 2) 0 l;
  match skip_ws r with [] => Some v | _ => None end.

Definition Valid (s : string) : bool := bool_decide (is_Some (parse s)).

(** ** [float64] *)

(** [n / d] rounded to an integer, ties to even. *)
Definition round_even (n d : Z) : Z :=
  let q := n / d in
  let r := n mod d in
  if bool_decide (2 * r < d) then q
  else if bool_decide (d < 2 * r) then q + 1
  else if Z.even q then q else q + 1.

(** The [float64] nearest to [n / d] is [m * 2 ^ u]. *)
Definition float_of (n d : Z) : Z * Z :=
  if bool_decide (n = 0) then (0, 0)
  else
    let b := Z.log2 n - Z.log2 d in
    let b := if bool_decide (n * 2 ^ Z.max 0 (- b) < d * 2 ^ Z.max 0 b) then b - 1 else b in
    let u := Z.max (b - 52) (-1074) in
    (round_even (n * 2 ^ Z.max 0 (- u)) (d * 2 ^ Z.max 0 u), u).

Definition ratio (mantissa exponent : Z) : Z * Z :=
  (mantissa * 10 ^ Z.max 0 exponent, 10 ^ Z.max 0 (- exponent)).

(** [strconv.ParseFloat] reports a range error from [2 ^ 1024] on. *)
Definition float_overflows (mantissa exponent : Z) : bool :=
  let '(n, d) := ratio mantissa exponent in
  let '(m, u) := float_of n d in
  bool_decide (2 ^ 1024 * 2 ^ Z.max 0 (- u) ≤ m * 2 ^ Z.max 0 u).

(** [int(v)] of a [float64]: truncation; outside the range of [int] the
    conversion of amd64, the smallest integer. *)
Definition float_to_int (negative : bool) (mantissa exponent : Z) : Z :=
  let '(n, d) := ratio mantissa exponent in
  let '(m, u) := float_of n d in
  let t := m * 2 ^ Z.max 0 u / 2 ^ Z.max 0 (- u) in
  let v := if negative then - t else t in
  if bool_decide (int64_min ≤ v ≤ int64_max) then v else int64_min.

(** Every number of the value is a [float64]. *)
Fixpoint in_range (v : json) : bool :=
  match v with
  | JNumber _ m e => negb (float_overflows m e)
  | JArray l => forallb in_range l
  | JObject ms => forallb (fun m => in_range m.2.2) ms
  | _ => true
  end.

(** ** [Unmarshal] *)

(** The last member of a name, as in the map Go builds. *)
Definition get (ms : list (string * (string * json))) (k : string) : option json :=
  snd <$> (snd <$> last (filter (fun m => m.1 = k) ms)).

(** Into [map[string]any]: [None] is an error, [Some None] the nil map. *)
Definition unmarshal_map (s : string) : option (option (list (string * (string * json)))) :=
  v ← parse s;
  if in_range v then
    match v with
    | JObject ms => Some (Some ms)
    | JNull => Some None
    | _ => None
    end
  else None.

Definition members (o : option (list (string * (string * json)))) : list (string * (string * json)) :=
  default [] o.

(** Type assertions on [any]. *)
Definition as_string (v : option json) : option string := match v with Some (JString s) => Some s | _ => None end.
Definition as_object (v : option json) : option (list (string * (string * json))) :=
  match v with Some (JObject ms) => Some ms | _ => None end.
Definition as_array (v : option json) : option (list json) :=
  match v with Some (JArray l) => Some l | _ => None end.

(** Decoding into a struct: a member goes to the field whose name it equals up
    to case, [null] leaves the field as it is, a value of another type is an
    error; the last member wins. *)
Definition field_members (name : string) (ms : list (string * (string * json))) : list (string * json) :=
  snd <$> filter (fun m => EqualFold m.1 name = true) ms.

Definition string_field (name : string) (ms : list (string * (string * json))) : option string :=
  foldl (fun acc m => match acc, m.2 with
                      | Some _, JString s => Some s
                      | Some s, JNull => Some s
                      | _, _ => None
                      end) (Some "") (field_members name ms).

(** A struct field: its members, those of every occurrence in order. *)
Definition struct_field (name : string) (ms : list (string * (string * json)))
  : option (list (string * (string * json))) :=
  foldl (fun acc m => match acc, m.2 with
                      | Some l, JObject o => Some (l ++ o)
                      | Some l, JNull => Some l
                      | _, _ => None
                      end) (Some []) (field_members name ms).

(** A [json.RawMessage] field: the text of its last value. *)
Definition raw_field (name : string) (ms : list (string * (string * json))) : string :=
  default "" (fst <$> last (field_members name ms)).

(** The members a struct is decoded from: those of an object, none for
    [null]. *)
Definition unmarshal_struct (s : string) : option (list (string * (string * json))) :=
  v ← parse s;
  match v with
  | JObject ms => Some ms
  | JNull => Some []
  | _ => None
  end.

(** ** The fuel is enough *)

Lemma skip_ws_length l : (length (skip_ws l) ≤ length l)%nat.
Proof. induction l as [|a l IH]; simpl; [lia|]. destruct (is_ws a); simpl; lia. Qed.

Lemma unicode_escape_length l c r : unicode_escape l = Some (c, r) → (length r ≤ length l)%nat.
Proof.
  unfold unicode_escape. assert (∀ l x r, hex4 l = Some (x, r) → (length r ≤ length l)%nat) as Hex.
  { intros [|a1 [|a2 [|a3 [|a4 l']]]] x r'; simpl; try done.
    repeat (destruct (hex_value _); [|done]). intros [= _ <-]. lia. }
  destruct (hex4 l) as [[x l1]|] eqn:E; [|done]. apply Hex in E.
  destruct (negb _); [by intros [= _ <-]|].
  destruct l1 as [|b1 [|b2 l2]]; [by intros [= _ <-]..|].
  destruct (_ && _); [|by intros [= _ <-]].
  destruct (hex4 l2) as [[x2 l3]|] eqn:E2; [|done]. apply Hex in E2. simpl in *.
  destruct (_ && _); intros [= _ <-]; simpl; lia.
Qed.

Lemma utf8_length_pos l n : utf8_length l = Some n → (1 ≤ n ∧ n ≤ length l)%nat.
Proof.
  destruct l as [|a [|b [|c [|d l]]]]; simpl; try done;
    repeat (case_match; try done); intros; simplify_eq/=; lia.
Qed.

Lemma parse_string_spec f f' l :
  (length l < f)%nat → (length l < f')%nat →
  parse_string f l = parse_string f' l ∧
  ∀ s r, parse_string f l = Some (s, r) → (length r < length l)%nat.
Proof.
  revert f' l. induction f as [|f IH]; intros [|f'] l Hf Hf'; try lia.
  destruct l as [|a l]; [done|]. simpl in Hf, Hf'. cbn [parse_string].
  assert (∀ (k : chars → chars) m, (length m ≤ length l)%nat →
    (' (s, r) ← parse_string f m; Some (k s, r)) = (' (s, r) ← parse_string f' m; Some (k s, r)) ∧
    ∀ s r, (' (s, r) ← parse_string f m; Some (k s, r)) = Some (s, r) → (length r < length (a :: l))%nat) as Hk.
  { intros k m Hm. destruct (IH f' m ltac:(lia) ltac:(lia)) as [<- Hlen]. split; [done|].
    destruct (parse_string f m) as [[s r]|] eqn:E; simpl; [|done].
    intros s' r' [= _ <-]. specialize (Hlen _ _ eq_refl). lia. }
  destruct (bool_decide _); [by split; [|intros s r [= _ <-]; simpl; lia]|].
  destruct (bool_decide _); [done|]. destruct (is_char _ _).
  - destruct l as [|e l2]; [done|]. destruct (is_char "u" e).
    + destruct (unicode_escape l2) as [[c l3]|] eqn:E; [|done]. cbn [mbind option_bind].
      apply unicode_escape_length in E. apply (Hk (fun s => c ++ s)). simpl. lia.
    + destruct (simple_escape e) as [c|]; [|done]. cbn [mbind option_bind].
      apply (Hk (fun s => c :: s)). simpl. lia.
  - destruct (utf8_length (a :: l)) as [n|] eqn:E.
    + apply utf8_length_pos in E. apply (Hk (fun s => take n (a :: l) ++ s)).
      rewrite length_drop. simpl in *. lia.
    + apply (Hk (fun s => replacement ++ s)). lia.
Qed.

Lemma parse_string_rest f l s r :
  (length l < f)%nat → parse_string f l = Some (s, r) → (length r < length l)%nat.
Proof. intros Hf. by destruct (parse_string_spec f f l Hf Hf) as [_ ?]; eauto. Qed.

#[global] Arguments parse_string : simpl never.

Lemma take_digits_length l d r : take_digits l = (d, r) → length l = (length d + length r)%nat.
Proof.
  revert d r. induction l as [|a l IH]; simpl; intros d r; [by intros [= <- <-]|].
  destruct (is_digit a); [|by intros [= <- <-]].
  destruct (take_digits l) as [d' r'] eqn:E. intros [= <- <-]. simpl. by rewrite (IH _ _ eq_refl).
Qed.

Lemma parse_number_rest l v r : parse_number l = Some (v, r) → (length r < length l)%nat.
Proof.
  assert (∀ l d r, parse_fraction l = Some (d, r) → (length r ≤ length l)%nat) as Hf.
  { intros [|a l'] d r'; simpl; [by intros [= <- <-]|]. destruct (is_char _ _); [|by intros [= <- <-]].
    destruct (take_digits l') as [[|x ds] r''] eqn:E; [done|]. intros [= <- <-].
    apply take_digits_length in E. simpl in *. lia. }
  assert (∀ l e r, parse_exponent l = Some (e, r) → (length r ≤ length l)%nat) as He.
  { intros [|a l'] e r'; simpl; [by intros [= <- <-]|]. destruct (_ || _); [|by intros [= <- <-]].
    set (sl := match l' with [] => (1, []) | _ => _ end).
    assert (length sl.2 ≤ length l')%nat.
    { subst sl. destruct l' as [|s l2]; [done|]. repeat destruct (is_char _ _); simpl; lia. }
    destruct sl as [sg l2]. simpl in *.
    destruct (take_digits l2) as [[|x ds] r''] eqn:E; [done|]. intros [= <- <-].
    apply take_digits_length in E. simpl in *. lia. }
  unfold parse_number. set (sl := match l with [] => (false, []) | _ => _ end).
  assert (length sl.2 ≤ length l)%nat.
  { subst sl. destruct l as [|s l2]; [done|]. destruct (is_char _ _); simpl; lia. }
  destruct sl as [neg l1]. simpl in *. destruct l1 as [|a l1]; [done|].
  assert (∀ ds l2, (if is_char "0" a then Some ([a], l1)
     else match take_digits (a :: l1) with ([], _) => None | (ds, r) => Some (ds, r) end) = Some (ds, l2) →
     (length l2 < length (a :: l1))%nat) as Hi.
  { intros ds l2. destruct (is_char "0" a); [intros [= _ <-]; simpl; lia|].
    destruct (take_digits (a :: l1)) as [[|x ds'] r'] eqn:E; [done|]. intros [= _ <-].
    apply take_digits_length in E. simpl in *. lia. }
  destruct (if is_char "0" a then _ else _) as [[ds l2]|]; [|done]. specialize (Hi _ _ eq_refl).
  cbn [mbind option_bind]. destruct (parse_fraction l2) as [[fr l3]|] eqn:E1; [|done]. apply Hf in E1.
  cbn [mbind option_bind]. destruct (parse_exponent l3) as [[e l4]|] eqn:E2; [|done]. apply He in E2.
  cbn [mbind option_bind]. intros [= _ <-]. simpl in *. lia.
Qed.
Lemma literal_rest word v l v' r :
  word ≠ "" → literal word v l = Some (v', r) → (length r < length l)%nat.
Proof.
  assert (∀ p l r, strip_prefix p l = Some r → length l = (length p + length r)%nat) as Hs.
  { induction p as [|a p IH]; intros [|b l'] r'; simpl; try (by intros; simplify_eq).
    destruct (bool_decide _); [|done]. by intros ->%IH. }
  unfold literal. intros Hw. destruct (strip_prefix _ l) as [r'|] eqn:E; [|done]. apply Hs in E.
  cbn [mbind option_bind]. intros [= _ <-]. destruct word; [done|]. simpl in *. lia.
Qed.

(** What the three parsers promise: more fuel changes nothing, and something
    is consumed. *)
Definition settled {A} (f f' : nat → chars → option (A * chars)) (n n' : nat) (l : chars) : Prop :=
  f n l = f' n' l ∧ ∀ v r, f n l = Some (v, r) → (length r < length l)%nat.

Definition enough (f : nat) : Prop := ∀ f' d l,
  ((2 * length l < f)%nat → (2 * length l < f')%nat →
     settled (fun n => parse_value n d) (fun n => parse_value n d) f f' l ∧
     settled (fun n => parse_members n d) (fun n => parse_members n d) f f' l) ∧
  ((2 * length l + 1 < f)%nat → (2 * length l + 1 < f')%nat →
     settled (fun n => parse_elements n d) (fun n => parse_elements n d) f f' l).

Lemma value_step f f' d l :
  enough f → (2 * length l < S f)%nat → (2 * length l < S f')%nat →
  settled (fun n => parse_value n d) (fun n => parse_value n d) (S f) (S f') l.
Proof.
  intros IH Hf Hf'. unfold settled. cbn [parse_value]. pose proof (skip_ws_length l).
  destruct (skip_ws l) as [|a l1]; [done|]. simpl in *.
  destruct (is_char "{" a).
  { destruct (bool_decide _); [done|]. pose proof (skip_ws_length l1).
    destruct (skip_ws l1) as [|b r]; [done|]. simpl in *.
    destruct (is_char "}" b); [by split; [|intros ?? [= _ <-]; lia]|].
    destruct (IH f' (d + 1) l1) as [[_ [<- Hr]] _]; [lia..|]. split; [done|].
    destruct (parse_members f (d + 1) l1) as [[ms r']|]; [|done]. cbn [mbind option_bind].
    intros ?? [= _ <-]. specialize (Hr _ _ eq_refl). lia. }
  destruct (is_char "[" a).
  { destruct (bool_decide _); [done|]. pose proof (skip_ws_length l1).
    destruct (skip_ws l1) as [|b r]; [done|]. simpl in *.
    destruct (is_char "]" b); [by split; [|intros ?? [= _ <-]; lia]|].
    destruct (IH f' (d + 1) l1) as [_ [<- Hr]]; [lia..|]. split; [done|].
    destruct (parse_elements f (d + 1) l1) as [[ms r']|]; [|done]. cbn [mbind option_bind].
    intros ?? [= _ <-]. specialize (Hr _ _ eq_refl). lia. }
  split; [done|]. intros v r. destruct (bool_decide _).
  { pose proof (parse_string_rest (S (length l1)) l1) as Hs.
    destruct (parse_string (S (length l1)) l1) as [[s r']|]; [|done].
    cbn [mbind option_bind]. intros [= _ <-]. specialize (Hs _ _ ltac:(lia) eq_refl). lia. }
  destruct (is_char "t" a); [intros Hl%literal_rest; [simpl in *; lia|done]|].
  destruct (is_char "f" a); [intros Hl%literal_rest; [simpl in *; lia|done]|].
  destruct (is_char "n" a); [intros Hl%literal_rest; [simpl in *; lia|done]|].
  intros Hn%parse_number_rest. simpl in *. lia.
Qed.

Lemma members_step f f' d l :
  enough f → (2 * length l < S f)%nat → (2 * length l < S f')%nat →
  settled (fun n => parse_members n d) (fun n => parse_members n d) (S f) (S f') l.
Proof.
  intros IH Hf Hf'. unfold settled. cbn [parse_members]. pose proof (skip_ws_length l).
  destruct (skip_ws l) as [|q l1]; [done|]. simpl in *. destruct (bool_decide _); [|done].
  pose proof (parse_string_rest (S (length l1)) l1) as Hs.
  destruct (parse_string (S (length l1)) l1) as [[k l2]|]; [|done].
  specialize (Hs _ _ ltac:(lia) eq_refl). cbn [mbind option_bind].
  pose proof (skip_ws_length l2). destruct (skip_ws l2) as [|c l3]; [done|]. simpl in *.
  destruct (is_char ":" c); [|done]. pose proof (skip_ws_length l3).
  destruct (IH f' d (skip_ws l3)) as [[[<- Hv] _] _]; [lia..|].
  destruct (parse_value f d (skip_ws l3)) as [[v l5]|]; [|done].
  specialize (Hv _ _ eq_refl). cbn [mbind option_bind].
  pose proof (skip_ws_length l5). destruct (skip_ws l5) as [|e l6]; [done|]. simpl in *.
  destruct (is_char "," e).
  - destruct (IH f' d l6) as [[_ [<- Hm]] _]; [lia..|]. split; [done|].
    destruct (parse_members f d l6) as [[ms r]|]; [|done]. cbn [mbind option_bind].
    intros ?? [= _ <-]. specialize (Hm _ _ eq_refl). lia.
  - destruct (is_char "}" e); [|done]. split; [done|]. intros ?? [= _ <-]. lia.
Qed.

Lemma elements_step f f' d l :
  enough f → (2 * length l + 1 < S f)%nat → (2 * length l + 1 < S f')%nat →
  settled (fun n => parse_elements n d) (fun n => parse_elements n d) (S f) (S f') l.
Proof.
  intros IH Hf Hf'. unfold settled. cbn [parse_elements].
  destruct (IH f' d l) as [[[<- Hv] _] _]; [lia..|].
  destruct (parse_value f d l) as [[v l1]|]; [|done]. specialize (Hv _ _ eq_refl). cbn [mbind option_bind].
  pose proof (skip_ws_length l1). destruct (skip_ws l1) as [|e l2]; [done|]. simpl in *.
  destruct (is_char "," e).
  - destruct (IH f' d l2) as [_ [<- Hm]]; [lia..|]. split; [done|].
    destruct (parse_elements f d l2) as [[ms r]|]; [|done]. cbn [mbind option_bind].
    intros ?? [= _ <-]. specialize (Hm _ _ eq_refl). lia.
  - destruct (is_char "]" e); [|done]. split; [done|]. intros ?? [= _ <-]. lia.
Qed.

Lemma fuel_enough f : enough f.
Proof.
  induction f as [|f IH]; intros [|f'] d l; (split; [intros; split|intros]); try lia;
    by apply value_step || by apply members_step || by apply elements_step.
Qed.

(** Parsing does not depend on the fuel chosen by [parse]. *)
Lemma parse_value_fuel f d l :
  (2 * length l < f)%nat → parse_value f d l = parse_value (2 * length l + 2)%nat d l.
Proof. intros Hf. destruct (fuel_enough f (2 * length l + 2)%nat d l) as [[[? _] _] _]; [lia..|done]. Qed.

(** ** Examples

    JSON text with its quotes written as apostrophes. *)
Definition quoted (s : string) : string :=
  String.string_of_list_ascii
    (map (fun a => if is_char "'" a then quote else a) (String.list_ascii_of_string s)).

Example unmarshal_map_test :
  (members <$> unmarshal_map (quoted " {'a':[1,2.5e3,-0], 'b':{'c':null},'a':'\u0041\n'} "))
    ≫= (fun ms => Some (get ms "a", get ms "b"))
  = Some (Some (JString (String.append "A" (String.String "010" ""))),
          Some (JObject [("c", ("null", JNull))])).
Proof. vm_compute. reflexivity. Qed.

Example float_to_int_test :
  (float_to_int false 25 2, float_to_int true 19 (-1), float_to_int false 9007199254740993 0,
   float_to_int false 1 19, float_overflows 1 309, float_overflows 1 308)
  = (2500, -1, 9007199254740992, int64_min, true, false).
Proof. vm_compute. reflexivity. Qed.
End Json.
