(* ===== verification/Sse.v ===== *)
(** * Server-sent events

    [gateway/sse_parser.go]: the incremental parser with its three limits, and
    the event splitting of [SSEUsageObserver] in [gateway/usage.go].  A reader
    is the bytes it will deliver and the error it ends with ([io.EOF] for a
    clean end); the buffered reader in front of it hands out slices of at most
    4096 bytes, as [bufio.Reader.ReadSlice] does. *)

From S2P Require Import Prelude GoStrings.
From Stdlib Require Import Ascii.
From Stdlib Require String.

Abbreviation bytes := (list ascii).

Definition to_string : bytes → string := String.string_of_list_ascii.
Definition of_string : string → bytes := String.list_ascii_of_string.
Definition blen (b : bytes) : Z := Z.of_nat (length b).

Lemma of_to_string b : of_string (to_string b) = b.
Proof. apply String.list_ascii_of_string_of_list_ascii. Qed.

Definition LF : ascii := "010"%char.
Definition CR : ascii := "013"%char.
Definition COLON : ascii := ":"%char.
Definition SPACE : ascii := " "%char.

Module Sse.

(** ** The parser *)

Definition DefaultSSEParserMaxLineBytes : Z := 64 * 1024.
Definition DefaultSSEParserMaxEventBytes : Z := 1 * 1024 * 1024.
Definition DefaultSSEParserMaxDataBytes : Z := 8 * 1024 * 1024.

Record SSEParserLimits := { MaxLineBytes : Z; MaxEventBytes : Z; MaxDataBytes : Z }.
Record SSEEvent := { Event : string; Data : string; HasData : bool }.

(** What reading can end with: [io.EOF], the idle timeout or the size limit of
    the readers in [oauth_responses.go], or another failure. *)
Inductive read_error := ReadEOF | ReadIdleTimeout | ReadTooLarge | ReadFailed.

Inductive sse_error :=
| ErrSSELineTooLarge
| ErrSSEEventTooLarge
| ErrSSEDataTooLarge
| ErrSSEUnexpectedEOF
| ErrRead (e : read_error).

#[export] Instance read_error_eq_dec : EqDecision read_error.
Proof. solve_decision. Defined.
#[export] Instance sse_error_eq_dec : EqDecision sse_error.
Proof. solve_decision. Defined.

Record SSEParser := {
  rest : bytes; rerr : read_error;
  limits : SSEParserLimits;
  event : bytes; data : bytes;
  eventN : Z; dataN : Z;
  hasField : bool; hasData : bool;
}.

Definition or_default (limit default : Z) : Z := if bool_decide (limit ≤ 0) then default else limit.

Definition NewSSEParser (stream : bytes) (e : read_error) (l : SSEParserLimits) : SSEParser := {|
  rest := stream; rerr := e;
  limits := {| MaxLineBytes := or_default (MaxLineBytes l) DefaultSSEParserMaxLineBytes;
               MaxEventBytes := or_default (MaxEventBytes l) DefaultSSEParserMaxEventBytes;
               MaxDataBytes := or_default (MaxDataBytes l) DefaultSSEParserMaxDataBytes |};
  event := []; data := []; eventN := 0; dataN := 0; hasField := false; hasData := false;
|}.

(** [bufio.Reader.ReadSlice('\n')] with the default buffer of 4096 bytes. *)
Inductive slice_error := SliceBufferFull | SliceErr (e : read_error).

Fixpoint split_line (n : nat) (b : bytes) : bytes * option bytes :=
  match n, b with
  | O, _ => ([], None)
  | _, [] => ([], None)
  | S n, a :: b =>
      if bool_decide (a = LF) then ([a], Some b)
      else let '(l, r) := split_line n b in (a :: l, r)
  end.

Definition bufferSize : nat := 4096.

Definition ReadSlice (b : bytes) (e : read_error) : bytes * bytes * option slice_error :=
  match split_line bufferSize b with
  | (l, Some r) => (l, r, None)
  | (l, None) =>
      if bool_decide (bufferSize ≤ length b)%nat then (l, drop bufferSize b, Some SliceBufferFull)
      else (b, [], Some (SliceErr e))
  end.

(** [readLine]; [line] is what earlier slices of the line delivered. *)
Fixpoint readLine_loop (fuel : nat) (max : Z) (e : read_error) (line b : bytes)
  : bytes * bytes * option sse_error :=
  match fuel with
  | O => (line, b, Some (ErrRead e))
  | S fuel =>
      let '(chunk, b', err) := ReadSlice b e in
      if bool_decide (chunk ≠ []) && bool_decide (max - blen chunk < blen line)
      then ([], b', Some ErrSSELineTooLarge)
      else
        let line := line ++ chunk in
        match err with
        | None => (line, b', None)
        | Some SliceBufferFull => readLine_loop fuel max e line b'
        | Some (SliceErr ReadEOF) => (line, b', Some (ErrRead ReadEOF))
        | Some (SliceErr e) => ([], b', Some (ErrRead e))
        end
  end.

Definition readLine (max : Z) (e : read_error) (b : bytes) : bytes * bytes * option sse_error :=
  readLine_loop (S (length b)) max e [] b.

Definition trim_last (a : ascii) (line : bytes) : bytes :=
  match last line with
  | Some c => if bool_decide (c = a) then removelast line else line
  | None => line
  end.

Definition trimSSELineEnding (line : bytes) : bytes := trim_last CR (trim_last LF line).

(** The bytes before the first colon, and those after it. *)
Fixpoint cut_colon (line : bytes) : bytes * option bytes :=
  match line with
  | [] => ([], None)
  | a :: line =>
      if bool_decide (a = COLON) then ([], Some line)
      else let '(f, v) := cut_colon line in (a :: f, v)
  end.

Definition splitSSEField (line : bytes) : bytes * bytes :=
  match cut_colon line with
  | (field, Some (a :: value)) => (field, if bool_decide (a = SPACE) then value else a :: value)
  | (field, Some []) => (field, [])
  | (_, None) => (line, [])
  end.

Definition with_rest (p : SSEParser) (b : bytes) : SSEParser :=
  {| rest := b; rerr := rerr p; limits := limits p; event := event p; data := data p;
     eventN := eventN p; dataN := dataN p; hasField := hasField p; hasData := hasData p |}.

Definition resetEvent (p : SSEParser) : SSEParser :=
  {| rest := rest p; rerr := rerr p; limits := limits p; event := []; data := [];
     eventN := 0; dataN := 0; hasField := false; hasData := false |}.

Definition dispatchEvent (p : SSEParser) : SSEEvent * SSEParser :=
  ({| Event := to_string (event p); Data := to_string (data p); HasData := hasData p |}, resetEvent p).

Definition accountEventLine (p : SSEParser) (lineBytes : Z) : result sse_error SSEParser :=
  if bool_decide (MaxEventBytes (limits p) - eventN p < lineBytes) then Err ErrSSEEventTooLarge
  else Ok {| rest := rest p; rerr := rerr p; limits := limits p; event := event p; data := data p;
             eventN := eventN p + lineBytes; dataN := dataN p;
             hasField := hasField p; hasData := hasData p |}.

Definition set_field (p : SSEParser) : SSEParser :=
  {| rest := rest p; rerr := rerr p; limits := limits p; event := event p; data := data p;
     eventN := eventN p; dataN := dataN p; hasField := true; hasData := hasData p |}.

Definition set_event (p : SSEParser) (value : bytes) : SSEParser :=
  {| rest := rest p; rerr := rerr p; limits := limits p; event := value; data := data p;
     eventN := eventN p; dataN := dataN p; hasField := hasField p; hasData := hasData p |}.

Definition appendData (p : SSEParser) (value : bytes) : result sse_error SSEParser :=
  let separatorBytes := if hasData p then 1 else 0 in
  if bool_decide (MaxDataBytes (limits p) - dataN p < separatorBytes) ||
     bool_decide (MaxDataBytes (limits p) - dataN p - separatorBytes < blen value)
  then Err ErrSSEDataTooLarge
  else Ok {| rest := rest p; rerr := rerr p; limits := limits p; event := event p;
             data := data p ++ (if hasData p then [LF] else []) ++ value;
             eventN := eventN p; dataN := dataN p + separatorBytes + blen value;
             hasField := hasField p; hasData := true |}.

(** One non-empty line of an event. *)
Definition field_line (p : SSEParser) (line : bytes) : result sse_error SSEParser :=
  let? p := accountEventLine p (blen line) in
  if bool_decide (head line = Some COLON) then Ok p
  else
    let p := set_field p in
    let '(field, value) := splitSSEField line in
    if str_eq (to_string field) "event" then Ok (set_event p value)
    else if str_eq (to_string field) "data" then appendData p value
    else Ok p.

Fixpoint Next_loop (fuel : nat) (p : SSEParser) : result sse_error SSEEvent * SSEParser :=
  match fuel with
  | O => (Err (ErrRead (rerr p)), p)
  | S fuel =>
      let '(line, b, err) := readLine (MaxLineBytes (limits p)) (rerr p) (rest p) in
      let p := with_rest p b in
      match err with
      | Some (ErrRead ReadEOF) =>
          if bool_decide (line = []) then
            if hasField p then (Err ErrSSEUnexpectedEOF, resetEvent p) else (Err (ErrRead ReadEOF), p)
          else (Err ErrSSEUnexpectedEOF, resetEvent p)
      | Some e => (Err e, p)
      | None =>
          let line := trimSSELineEnding line in
          if bool_decide (line = []) then let '(ev, p) := dispatchEvent p in (Ok ev, p)
          else match field_line p line with
               | Err e => (Err e, resetEvent p)
               | Ok p => Next_loop fuel p
               end
      end
  end.

Definition Next (p : SSEParser) : result sse_error SSEEvent * SSEParser :=
  Next_loop (S (length (rest p))) p.

(** All events of a stream, and the error that ends it. *)
Fixpoint drain (fuel : nat) (p : SSEParser) : list SSEEvent * option sse_error :=
  match fuel with
  | O => ([], None)
  | S fuel =>
      match Next p with
      | (Err e, _) => ([], Some e)
      | (Ok ev, p) => let '(evs, e) := drain fuel p in (ev :: evs, e)
      end
  end.

Definition parse_stream (stream : bytes) (e : read_error) (l : SSEParserLimits)
  : list SSEEvent * option sse_error :=
  drain (S (length stream)) (NewSSEParser stream e l).

Definition no_limits : SSEParserLimits := {| MaxLineBytes := 0; MaxEventBytes := 0; MaxDataBytes := 0 |}.

Example parse_example :
  parse_stream (of_string "event: a
data: x
data: y

: c
data

data:z") ReadEOF no_limits
  = ([{| Event := "a"; Data := "x
y"; HasData := true |}; {| Event := ""; Data := ""; HasData := true |}], Some ErrSSEUnexpectedEOF).
Proof. vm_compute. reflexivity. Qed.
(** ** Reading lines *)

Lemma split_line_found n l b :
  LF ∉ l → (length l < n)%nat → split_line n (l ++ LF :: b) = (l ++ [LF], Some b).
Proof.
  revert n. induction l as [|a l IH]; intros [|n] Hl Hn; simpl in *; try lia; [done|].
  apply not_elem_of_cons in Hl as [Ha Hl]. rewrite bool_decide_eq_false_2 by congruence.
  by rewrite IH by (done || lia).
Qed.

Lemma split_line_full n l b :
  LF ∉ l → (n ≤ length l)%nat → split_line n (l ++ b) = (take n l, None).
Proof.
  revert n. induction l as [|a l IH]; intros [|n] Hl Hn; simpl in *; try lia; [done..|].
  apply not_elem_of_cons in Hl as [Ha Hl]. rewrite bool_decide_eq_false_2 by congruence.
  by rewrite IH by (done || lia).
Qed.

Lemma split_line_length n b l r : split_line n b = (l, r) → (length l ≤ n)%nat.
Proof.
  revert b l r. induction n as [|n IH]; intros [|a b] l r; simpl; try (intros; simplify_eq/=; lia).
  case_bool_decide; [intros; simplify_eq/=; lia|].
  destruct (split_line n b) as [l' r'] eqn:E. intros; simplify_eq/=. apply IH in E. lia.
Qed.

Lemma split_line_Some n b l r : split_line n b = (l, Some r) → b = l ++ r ∧ l ≠ [].
Proof.
  revert b l r. induction n as [|n IH]; intros [|a b] l r; simpl; try (intros; simplify_eq/=; done).
  case_bool_decide; [intros; simplify_eq/=; done|].
  destruct (split_line n b) as [l' r'] eqn:E. intros; simplify_eq/=.
  apply IH in E as [-> _]. done.
Qed.

(** A line that fits is delivered whole, however many slices it takes. *)
Lemma readLine_loop_fits fuel max e line l b :
  LF ∉ l → blen line + blen l + 1 ≤ max → (length l < fuel)%nat →
  readLine_loop fuel max e line (l ++ LF :: b) = (line ++ l ++ [LF], b, None).
Proof.
  unfold blen. revert line l. induction fuel as [|fuel IH]; intros line l Hl Hmax Hf; [lia|].
  cbn [readLine_loop]. unfold ReadSlice. destruct (decide (length l < bufferSize)%nat).
  - rewrite split_line_found by done. unfold blen. rewrite length_app. cbn [length].
    rewrite (bool_decide_eq_false_2 (max - _ < _)) by lia. by rewrite andb_false_r.
  - rewrite split_line_full by (done || lia). rewrite bool_decide_eq_true_2 by (rewrite length_app; lia).
    unfold blen. rewrite length_take_le by lia.
    rewrite (bool_decide_eq_false_2 (max - _ < _)) by lia. rewrite andb_false_r.
    rewrite drop_app_le by lia. rewrite IH.
    + rewrite <- app_assoc, (app_assoc (take _ _)), take_drop. done.
    + intros Hin. apply Hl. rewrite <- (take_drop bufferSize l), elem_of_app. by right.
    + rewrite length_app, length_take_le, length_drop by lia. lia.
    + rewrite length_drop. unfold bufferSize in *. lia.
Qed.

Lemma readLine_fits max e l b :
  LF ∉ l → blen l + 1 ≤ max → readLine max e (l ++ LF :: b) = (l ++ [LF], b, None).
Proof.
  intros. unfold readLine. rewrite readLine_loop_fits; [done|done|..].
  - unfold blen in *. simpl. lia.
  - rewrite length_app. simpl. lia.
Qed.

(** Reading consumes: a delivered line is not empty and its bytes are gone. *)
Lemma readLine_loop_consumes fuel max e line b line' b' :
  readLine_loop fuel max e line b = (line', b', None) → (length b' < length b)%nat.
Proof.
  revert line b. induction fuel as [|fuel IH]; intros line b; [done|].
  cbn [readLine_loop]. unfold ReadSlice. destruct (split_line bufferSize b) as [l [r|]] eqn:E.
  - apply split_line_Some in E as [-> Hne]. destruct (_ && _); [done|]. intros; simplify_eq/=.
    rewrite length_app. destruct l; [done|simpl; lia].
  - case_bool_decide as Hfull.
    + destruct (_ && _); [done|]. intros H%IH. rewrite length_drop in H. unfold bufferSize in *. lia.
    + destruct (_ && _); [done|]. by destruct e.
Qed.

Lemma readLine_consumes max e b line b' :
  readLine max e b = (line, b', None) → (length b' < length b)%nat.
Proof. apply readLine_loop_consumes. Qed.
(** ** What a stream means

    A stream on the wire is a sequence of events, an event a sequence of lines:
    comments and fields, a field with or without the space after its colon. *)

Inductive wire_line :=
| WField (name : bytes) (space : bool) (value : bytes)
| WComment (text : bytes).

Definition bytes_of (l : wire_line) : bytes :=
  match l with
  | WField name space value => name ++ COLON :: (if space then SPACE :: value else value)
  | WComment text => COLON :: text
  end.

Definition wf_line (l : wire_line) : Prop :=
  LF ∉ bytes_of l ∧ last (bytes_of l) ≠ Some CR ∧
  match l with
  | WField name space value =>
      name ≠ [] ∧ COLON ∉ name ∧ (space = false → head value ≠ Some SPACE)
  | WComment _ => True
  end.

#[export] Instance wf_line_dec l : Decision (wf_line l).
Proof. destruct l; apply _. Defined.

(** The values of the fields with a name. *)
Definition values (name : string) (ls : list wire_line) : list bytes :=
  omap (fun l => match l with
                 | WField n _ v => if str_eq (to_string n) name then Some v else None
                 | WComment _ => None
                 end) ls.

Fixpoint join_lines (l : list bytes) : bytes :=
  match l with
  | [] => []
  | [v] => v
  | v :: l => v ++ LF :: join_lines l
  end.

(** The event name is the last [event] field, the data the [data] fields
    joined with line feeds. *)
Definition meaning (ls : list wire_line) : SSEEvent :=
  {| Event := to_string (default [] (last (values "event" ls)));
     Data := to_string (join_lines (values "data" ls));
     HasData := bool_decide (values "data" ls ≠ []) |}.

Definition render_lines (eol : bytes) (ls : list wire_line) : bytes :=
  concat (map (fun l => bytes_of l ++ eol) ls).
Definition render_event (eol : bytes) (ls : list wire_line) : bytes := render_lines eol ls ++ eol.
Definition render (eol : bytes) (evs : list (list wire_line)) : bytes :=
  concat (map (render_event eol) evs).

Definition line_ending (eol : bytes) : Prop := eol = [LF] ∨ eol = [CR; LF].

(** An event within the limits of a parser. *)
Definition total (ls : list wire_line) : Z := sumZ (fun l => blen (bytes_of l)) ls.
Definition fits (lim : SSEParserLimits) (ls : list wire_line) : Prop :=
  Forall (fun l => blen (bytes_of l) + 2 ≤ MaxLineBytes lim) ls ∧ 2 ≤ MaxLineBytes lim ∧
  total ls ≤ MaxEventBytes lim ∧ blen (join_lines (values "data" ls)) ≤ MaxDataBytes lim.

(** ** The parser computes it *)

Lemma trim_last_app a l : trim_last a (l ++ [a]) = l.
Proof. unfold trim_last. rewrite last_snoc, bool_decide_eq_true_2 by done. by rewrite removelast_last. Qed.

Lemma trim_last_other a l : last l ≠ Some a → trim_last a l = l.
Proof.
  unfold trim_last. destruct (last l) as [c|]; [|done]. intros H.
  rewrite bool_decide_eq_false_2; [done|congruence].
Qed.

Lemma trim_ending l eol :
  line_ending eol → last l ≠ Some CR → trimSSELineEnding (l ++ eol) = l.
Proof.
  intros [->| ->] Hl; unfold trimSSELineEnding.
  - by rewrite trim_last_app, trim_last_other.
  - change [CR; LF] with ([CR] ++ [LF]). by rewrite app_assoc, !trim_last_app.
Qed.

Lemma readLine_ending max e l eol b :
  line_ending eol → LF ∉ l → blen l + 2 ≤ max →
  readLine max e (l ++ eol ++ b) = (l ++ eol, b, None).
Proof.
  intros [->| ->] Hl Hmax; simpl.
  - apply readLine_fits; [done|lia].
  - replace (l ++ CR :: LF :: b) with ((l ++ [CR]) ++ LF :: b) by (by rewrite <- app_assoc).
    rewrite readLine_fits.
    + by rewrite <- app_assoc.
    + rewrite not_elem_of_app. split; [done|]. by intros ?%list_elem_of_singleton.
    + unfold blen in *. rewrite length_app. simpl. lia.
Qed.

Lemma splitSSEField_field name space value :
  COLON ∉ name → (space = false → head value ≠ Some SPACE) →
  splitSSEField (bytes_of (WField name space value)) = (name, value).
Proof.
  intros Hn Hs. unfold splitSSEField, bytes_of.
  assert (∀ v, cut_colon (name ++ COLON :: v) = (name, Some v)) as ->.
  { intros v. induction name as [|a name IH]; simpl; [done|].
    apply not_elem_of_cons in Hn as [? ?]. rewrite bool_decide_eq_false_2 by congruence. by rewrite IH. }
  destruct space; [done|]. destruct value as [|c value]; [done|].
  rewrite bool_decide_eq_false_2; [done|]. specialize (Hs eq_refl). simpl in Hs. congruence.
Qed.

Lemma join_lines_snoc l v :
  join_lines (l ++ [v]) = join_lines l ++ (if bool_decide (l ≠ []) then [LF] else []) ++ v.
Proof.
  induction l as [|x l IH]; [done|]. destruct l as [|y l]; [done|].
  change ((x :: y :: l) ++ [v]) with (x :: (y :: l) ++ [v]).
  transitivity (x ++ LF :: join_lines ((y :: l) ++ [v])); [done|]. rewrite IH.
  change (join_lines (x :: y :: l)) with (x ++ LF :: join_lines (y :: l)).
  rewrite !bool_decide_eq_true_2 by done. by rewrite <- app_assoc.
Qed.

Lemma values_app name ls1 ls2 : values name (ls1 ++ ls2) = values name ls1 ++ values name ls2.
Proof. apply omap_app. Qed.

Lemma values_one name n space v :
  values name [WField n space v] = if str_eq (to_string n) name then [v] else [].
Proof. unfold values. cbn [omap list_omap]. by destruct (str_eq (to_string n) name). Qed.

(** The parser after the lines [ls] of an event. *)
Definition after (lim : SSEParserLimits) (e : read_error) (ls : list wire_line) (b : bytes) : SSEParser :=
  {| rest := b; rerr := e; limits := lim;
     event := default [] (last (values "event" ls)); data := join_lines (values "data" ls);
     eventN := total ls; dataN := blen (join_lines (values "data" ls));
     hasField := existsb (fun l => match l with WField _ _ _ => true | _ => false end) ls;
     hasData := bool_decide (values "data" ls ≠ []) |}.
Lemma join_lines_prefix l1 l2 : blen (join_lines l1) ≤ blen (join_lines (l1 ++ l2)).
Proof.
  induction l2 as [|v l2 IH] using rev_ind; [by rewrite app_nil_r|].
  rewrite app_assoc, join_lines_snoc. unfold blen in *. rewrite length_app. lia.
Qed.

Lemma total_app ls1 ls2 : total (ls1 ++ ls2) = total ls1 + total ls2.
Proof. apply sumZ_app. Qed.

Lemma total_nonneg ls : 0 ≤ total ls.
Proof. apply sumZ_nonneg. unfold blen. lia. Qed.

Lemma fits_prefix lim ls1 ls2 : fits lim (ls1 ++ ls2) → fits lim ls1.
Proof.
  intros (Hl & ? & Ht & Hd). apply Forall_app in Hl as [Hl _].
  rewrite total_app in Ht. rewrite values_app in Hd.
  pose proof (total_nonneg ls2). pose proof (join_lines_prefix (values "data" ls1) (values "data" ls2)).
  split_and!; [done|done|lia|lia].
Qed.

Lemma appendData_snoc vs lim e b ev n f v :
  blen (join_lines (vs ++ [v])) ≤ MaxDataBytes lim →
  appendData (set_field {| rest := b; rerr := e; limits := lim; event := ev; data := join_lines vs;
      eventN := n; dataN := blen (join_lines vs); hasField := f; hasData := bool_decide (vs ≠ []) |}) v
  = Ok {| rest := b; rerr := e; limits := lim; event := ev; data := join_lines (vs ++ [v]);
          eventN := n; dataN := blen (join_lines (vs ++ [v])); hasField := true; hasData := true |}.
Proof.
  rewrite join_lines_snoc. unfold appendData, blen.
  cbn [set_field rest rerr limits event data eventN dataN hasField hasData].
  rewrite !length_app. unfold blen. intros Hd.
  destruct (bool_decide (vs ≠ [])); simpl in *;
    rewrite !bool_decide_eq_false_2 by lia; simpl; do 2 f_equal; lia.
Qed.

(** Each line takes the parser to the state of the lines read so far. *)
Lemma field_line_after lim e ls l b :
  wf_line l → fits lim (ls ++ [l]) →
  field_line (after lim e ls b) (bytes_of l) = Ok (after lim e (ls ++ [l]) b).
Proof.
  intros (_ & _ & Hwf) (_ & _ & Ht & Hd). rewrite total_app in Ht. unfold total at 2 in Ht.
  rewrite sumZ_cons, sumZ_nil in Ht. rewrite values_app in Hd.
  unfold field_line, accountEventLine. cbn [after limits eventN].
  rewrite bool_decide_eq_false_2 by lia. cbn [result_bind].
  assert (total (ls ++ [l]) = total ls + blen (bytes_of l)) as Htot.
  { rewrite total_app. unfold total at 2. rewrite sumZ_cons, sumZ_nil. lia. }
  unfold after. cbn [rest rerr event data eventN dataN hasField hasData].
  rewrite !values_app, Htot, existsb_app. destruct l as [name space value|text].
  - destruct Hwf as (Hne & Hc & Hs). rewrite values_one in Hd.
    rewrite bool_decide_eq_false_2.
    2: { destruct name as [|a name]; [done|]. simpl. intros [= ->]. apply Hc. by constructor. }
    rewrite splitSSEField_field, !values_one by done. cbn [existsb]. rewrite orb_true_r.
    destruct (str_eq (to_string name) "event") eqn:Ee.
    + assert (str_eq (to_string name) "data" = false) as ->.
      { unfold str_eq in *. to_prop. congruence. }
      by rewrite !app_nil_r, last_snoc.
    + destruct (str_eq (to_string name) "data") eqn:Ed; [|by rewrite !app_nil_r].
      rewrite (appendData_snoc (values "data" ls)) by done. rewrite app_nil_r.
      by rewrite (bool_decide_eq_true_2 (_ ++ [value] ≠ [])) by (by destruct (values "data" ls)).
  - rewrite bool_decide_eq_true_2 by done. by rewrite orb_false_r, !app_nil_r.
Qed.
Lemma wf_line_ne l : bytes_of l ≠ [].
Proof. destruct l as [[|]|]; done. Qed.

(** One whole event, with the blank line that ends it. *)
Lemma Next_loop_event lim e eol fuel read ls b :
  line_ending eol → Forall wf_line ls → fits lim (read ++ ls) → (length ls < fuel)%nat →
  Next_loop fuel (after lim e read (render_lines eol ls ++ eol ++ b))
  = (Ok (meaning (read ++ ls)), after lim e [] b).
Proof.
  intros Heol. revert fuel read. induction ls as [|l ls IH]; intros [|fuel] read Hwf Hfit Hf;
    simpl in Hf; try lia; cbn [Next_loop after rest rerr limits].
  - cbn [render_lines map concat app]. change (eol ++ b) with ([] ++ eol ++ b).
    rewrite readLine_ending; [|done|by apply not_elem_of_nil|destruct Hfit as (_ & ? & _); unfold blen; simpl; lia].
    rewrite trim_ending by done. by rewrite app_nil_r.
  - apply Forall_cons in Hwf as [Hl Hwf]. unfold render_lines. cbn [map concat]. rewrite <- !app_assoc.
    rewrite readLine_ending.
    2: done. 2: by destruct Hl.
    2: { destruct Hfit as (Hfit & _). apply Forall_app in Hfit as [_ Hfit]. by apply Forall_cons in Hfit as [? _]. }
    rewrite trim_ending by (done || by destruct Hl as (_ & ? & _)).
    rewrite bool_decide_eq_false_2 by apply wf_line_ne.
    change (with_rest _ ?r) with (after lim e read r). replace (read ++ l :: ls) with ((read ++ [l]) ++ ls) in *
      by (by rewrite <- app_assoc).
    rewrite field_line_after by (done || by eapply fits_prefix). apply IH; [done|done|lia].
Qed.

Lemma render_lines_length eol ls :
  line_ending eol → (length ls ≤ length (render_lines eol ls))%nat.
Proof.
  intros Heol. induction ls as [|l ls IH]; [done|]. unfold render_lines. cbn [map concat].
  fold (render_lines eol ls). rewrite !length_app. cbn [length].
  assert (1 ≤ length eol)%nat by (by destruct Heol as [->| ->]; simpl; lia). lia.
Qed.

Lemma drain_render lim eol evs fuel :
  line_ending eol → Forall (Forall wf_line) evs → Forall (fits lim) evs → (length evs < fuel)%nat →
  drain fuel (after lim ReadEOF [] (render eol evs)) = (map meaning evs, Some (ErrRead ReadEOF)).
Proof.
  intros Heol. revert fuel. induction evs as [|ls evs IH]; intros [|fuel] Hwf Hfit Hf; simpl in Hf; try lia.
  - reflexivity.
  - apply Forall_cons in Hwf as [Hl Hwf]. apply Forall_cons in Hfit as [Hlf Hfit].
    unfold render. cbn [map concat drain]. unfold Next. cbn [rest after].
    change (concat (map (render_event eol) evs)) with (render eol evs). unfold render_event.
    rewrite <- app_assoc.
    rewrite (Next_loop_event lim ReadEOF eol _ [] ls) by
      (done || (rewrite length_app; pose proof (render_lines_length eol ls Heol); lia)).
    rewrite IH by (done || lia). done.
Qed.

Lemma render_length eol evs :
  line_ending eol → (length evs ≤ length (render eol evs))%nat.
Proof.
  intros Heol. induction evs as [|ls evs IH]; [done|]. unfold render. cbn [map concat].
  fold (render eol evs). unfold render_event. rewrite !length_app. cbn [length].
  assert (1 ≤ length eol)%nat by (by destruct Heol as [->| ->]; simpl; lia). lia.
Qed.

(** The limits a parser works with: zero and negative ones are defaults. *)
Definition effective (l : SSEParserLimits) : SSEParserLimits := limits (NewSSEParser [] ReadEOF l).

(** [C40] Round trip: reading a stream written with line feeds or with carriage
    return and line feed gives back every event, in order and with its name and
    its data, and then the end of the stream, provided that every event is
    within the limits. *)
Theorem sse_roundtrip l eol evs :
  line_ending eol → Forall (Forall wf_line) evs → Forall (fits (effective l)) evs →
  parse_stream (render eol evs) ReadEOF l = (map meaning evs, Some (ErrRead ReadEOF)).
Proof.
  intros Heol Hwf Hfit. unfold parse_stream.
  change (NewSSEParser (render eol evs) ReadEOF l) with (after (effective l) ReadEOF [] (render eol evs)).
  apply drain_render; try done. pose proof (render_length eol evs Heol). lia.
Qed.

Definition example_events : list (list wire_line) :=
  [[WComment (of_string " keep-alive"); WField (of_string "event") true (of_string "response.created");
    WField (of_string "data") false (of_string "{}")];
   [WField (of_string "data") true (of_string "a"); WField (of_string "id") true (of_string "7");
    WField (of_string "data") true (of_string " b")]].

Lemma sse_roundtrip_witness :
  parse_stream (render [CR; LF] example_events) ReadEOF no_limits
  = ([{| Event := "response.created"; Data := "{}"; HasData := true |};
      {| Event := ""; Data := "a
 b"; HasData := true |}], Some (ErrRead ReadEOF)).
Proof.
  rewrite (sse_roundtrip no_limits [CR; LF] example_events); [reflexivity|by right|..].
  all: apply (bool_decide_unpack _); vm_compute; exact I.
Defined.
(** ** Every stream: termination and bounds *)

Definition within (lim : SSEParserLimits) (p : SSEParser) : Prop :=
  limits p = lim ∧ blen (data p) = dataN p ∧ dataN p ≤ MaxDataBytes lim ∧
  blen (event p) ≤ eventN p ∧ eventN p ≤ MaxEventBytes lim.

Definition event_within (lim : SSEParserLimits) (ev : SSEEvent) : Prop :=
  go_len (Event ev) ≤ MaxEventBytes lim ∧ go_len (Data ev) ≤ MaxDataBytes lim.

Lemma go_len_to_string b : go_len (to_string b) = blen b.
Proof. unfold go_len, blen, to_string. induction b as [|a b IH]; simpl; lia. Qed.

Lemma splitSSEField_length line : blen (splitSSEField line).2 ≤ blen line.
Proof.
  unfold splitSSEField, blen. assert (∀ v, (cut_colon line).2 = Some v → (length v < length line)%nat) as H.
  { induction line as [|a line IH]; simpl; [done|]. case_bool_decide; [intros v [= ->]; simpl; lia|].
    destruct (cut_colon line) as [f [v'|]]; [|done]. simpl in *. intros v [= ->].
    specialize (IH v eq_refl). lia. }
  destruct (cut_colon line) as [f [[|a v]|]]; simpl in *; [lia| |lia].
  specialize (H _ eq_refl). simpl in H. case_bool_decide; simpl; lia.
Qed.

Lemma appendData_within lim p v p' :
  appendData p v = Ok p' → within lim p → within lim p' ∧ rest p' = rest p.
Proof.
  unfold appendData, within, blen. destruct (_ || _) eqn:E; [done|]. intros [= <-] (Hl & Hd & ?).
  rewrite <- Hl in *. to_prop. split; [|done]. cbn [limits data dataN eventN event].
  rewrite !length_app. unfold blen in *. destruct (hasData p); cbn [length] in *; split_and!; done || lia.
Qed.

Lemma field_line_within lim p line p' :
  field_line p line = Ok p' → within lim p → within lim p' ∧ rest p' = rest p.
Proof.
  unfold field_line, accountEventLine. case_bool_decide; [done|]. cbn [result_bind].
  intros Hf (Hl & Hd & ? & He & ?). rewrite <- Hl in *.
  assert (0 ≤ blen line) by (unfold blen; lia). revert Hf.
  set (q := Build_SSEParser _ _ _ _ _ _ _ _ _). assert (within (limits p) q).
  { unfold within. cbn. split_and!; done || lia. }
  case_bool_decide; [by intros [= <-]|]. pose proof (splitSSEField_length line).
  destruct (splitSSEField line) as [field value]. simpl in *.
  destruct (str_eq _ "event").
  { intros [= <-]. unfold within, set_event. cbn. assert (0 ≤ blen (event p)) by (unfold blen; lia).
    split_and!; done || lia. }
  destruct (str_eq _ "data"); [|by intros [= <-]].
  intros Hf%(appendData_within (limits p)); done.
Qed.

Lemma Next_loop_spec lim fuel p :
  0 ≤ MaxEventBytes lim → 0 ≤ MaxDataBytes lim → within lim p → (length (rest p) < fuel)%nat →
  Next_loop fuel p = Next p ∧
  match Next p with
  | (Ok ev, p') => within lim p' ∧ event_within lim ev ∧ (length (rest p') < length (rest p))%nat
  | (Err _, _) => True
  end.
Proof.
  intros Hme Hmd. remember (length (rest p)) as n eqn:Hn. revert p fuel Hn.
  induction n as [n IH] using lt_wf_ind. intros p [|fuel] -> Hp Hf; [lia|].
  unfold Next. cbn [Next_loop].
  destruct (readLine (MaxLineBytes (limits p)) (rerr p) (rest p)) as [[line b] [err|]] eqn:E.
  { destruct err as [| | | |[]]; try done. case_bool_decide; [|done]. by destruct (hasField (with_rest p b)). }
  apply readLine_consumes in E. case_bool_decide.
  { destruct Hp as (Hl & ? & ? & ? & ?). cbn. unfold event_within, within. cbn.
    rewrite !go_len_to_string. unfold blen in *. simpl. split_and!; done || lia. }
  destruct (field_line (with_rest p b) (trimSSELineEnding line)) as [p'|] eqn:Ef; [|done].
  apply (field_line_within lim) in Ef as [Hp' Hr]; [|done]. cbn [with_rest rest] in Hr.
  assert (length (rest p') < length (rest p))%nat as Hlt by (by rewrite Hr).
  destruct (IH _ Hlt p' fuel eq_refl Hp' ltac:(lia)) as [-> Hspec].
  destruct (IH _ Hlt p' (length (rest p)) eq_refl Hp' ltac:(lia)) as [-> _].
  split; [done|]. destruct (Next p') as [[ev|] p'']; [|done]. destruct Hspec as (? & ? & ?).
  split_and!; [done|done|lia].
Qed.

Lemma drain_spec lim p fuel :
  0 ≤ MaxEventBytes lim → 0 ≤ MaxDataBytes lim → within lim p → (length (rest p) < fuel)%nat →
  drain fuel p = drain (S (length (rest p))) p ∧
  Forall (event_within lim) (drain fuel p).1 ∧ is_Some (drain fuel p).2.
Proof.
  intros Hme Hmd. remember (length (rest p)) as n eqn:Hn. revert p fuel Hn.
  induction n as [n IH] using lt_wf_ind. intros p [|fuel] -> Hp Hf; [lia|]. cbn [drain].
  destruct (Next_loop_spec lim (S (length (rest p))) p Hme Hmd Hp ltac:(lia)) as [_ Hspec].
  destruct (Next p) as [[ev|err] p'] eqn:E; [|by split_and!]. destruct Hspec as (Hp' & Hev & Hlt).
  destruct (IH _ Hlt p' fuel eq_refl Hp' ltac:(lia)) as (H1 & H2 & H3).
  destruct (IH _ Hlt p' (length (rest p)) eq_refl Hp' ltac:(lia)) as (H1' & _).
  rewrite H1', <- H1. destruct (drain fuel p') as [evs e]. simpl in *. by split_and!; [|constructor|].
Qed.

Lemma or_default_pos x d : 0 < d → 0 < or_default x d.
Proof. unfold or_default. case_bool_decide; lia. Qed.

Lemma drain_total stream e l fuel :
  (length stream < fuel)%nat →
  ∃ evs err, drain fuel (NewSSEParser stream e l) = (evs, Some err) ∧
    parse_stream stream e l = (evs, Some err) ∧ Forall (event_within (effective l)) evs.
Proof.
  intros Hf. pose proof (or_default_pos (MaxEventBytes l) DefaultSSEParserMaxEventBytes ltac:(done)).
  pose proof (or_default_pos (MaxDataBytes l) DefaultSSEParserMaxDataBytes ltac:(done)).
  destruct (drain_spec (effective l) (NewSSEParser stream e l) fuel) as (H1 & H2 & [err H3]);
    [simpl; lia..|split_and!; unfold blen; simpl; done || lia|done|].
  unfold parse_stream. cbn [NewSSEParser rest] in H1. rewrite <- H1.
  destruct (drain _ _) as [evs x]. simpl in *. subst. by exists evs, err.
Qed.

Lemma parse_stream_total stream e l : ∃ evs err, parse_stream stream e l = (evs, Some err).
Proof. destruct (drain_total stream e l (S (length stream))) as (evs & err & _ & ? & _); eauto. Qed.

(** On every stream, whatever error it ends with, the parser stops: it
    reports a final error after finitely many events (more fuel gives the same
    result), and every event it reports is within the limits. *)
Theorem sse_parser_bounded stream e l fuel :
  (length stream < fuel)%nat →
  ∃ evs err, drain fuel (NewSSEParser stream e l) = (evs, Some err) ∧
    parse_stream stream e l = (evs, Some err) ∧ Forall (event_within (effective l)) evs.
Proof. apply drain_total. Qed.

Lemma sse_parser_bounded_witness :
  ∃ evs err, drain 9 (NewSSEParser (of_string "data:abc") ReadIdleTimeout no_limits) = (evs, Some err) ∧
    parse_stream (of_string "data:abc") ReadIdleTimeout no_limits = (evs, Some err) ∧
    Forall (event_within (effective no_limits)) evs.
Proof. apply (sse_parser_bounded (of_string "data:abc") ReadIdleTimeout no_limits 9). vm_compute. lia. Defined.
End Sse.
