(* ===== verification/Usage.v ===== *)
(** * Token usage of upstream responses

    [gateway/usage.go]: the usage object of a JSON response and of the events
    of a stream, and [SSEUsageObserver], which sees the stream in the chunks the
    network delivers.  [json_Marshal] stands for [encoding/json]'s encoder,
    which re-encodes the response object of a stream event. *)

From S2P Require Import Prelude GoStrings Json Sse.
From Stdlib Require Import Ascii.
From Stdlib Require String.

Module Usage.
Import Json.

Abbreviation object := (list (string * (string * json))).

Record Usage := {
  Model : string; InputTokens : Z; OutputTokens : Z; TotalTokens : Z;
  CachedInputTokens : Z; ReasoningTokens : Z; Source : string;
}.

Definition missing : Usage := Build_Usage "" 0 0 0 0 0 "missing".

(** [payload[key]] of numbers: a [float64], everything else counts as zero. *)
Definition intFromAny (v : option json) : Z :=
  match v with Some (JNumber neg m e) => float_to_int neg m e | _ => 0 end.

Definition detail (payload : object) (details key : string) : Z :=
  match as_object (get payload details) with Some d => intFromAny (get d key) | None => 0 end.

Definition parseChatUsage (payload : object) : Usage := {|
  Model := ""; Source := "";
  InputTokens := intFromAny (get payload "prompt_tokens");
  OutputTokens := intFromAny (get payload "completion_tokens");
  TotalTokens := intFromAny (get payload "total_tokens");
  CachedInputTokens := detail payload "prompt_tokens_details" "cached_tokens";
  ReasoningTokens := detail payload "completion_tokens_details" "reasoning_tokens";
|}.

Definition parseResponsesUsage (payload : object) : Usage := {|
  Model := ""; Source := "";
  InputTokens := intFromAny (get payload "input_tokens");
  OutputTokens := intFromAny (get payload "output_tokens");
  TotalTokens := intFromAny (get payload "total_tokens");
  CachedInputTokens := detail payload "input_tokens_details" "cached_tokens";
  ReasoningTokens := detail payload "output_tokens_details" "reasoning_tokens";
|}.

Definition parseGeminiUsageMetadata (payload : object) : Usage := {|
  Model := ""; Source := "";
  InputTokens := intFromAny (get payload "promptTokenCount");
  OutputTokens := intFromAny (get payload "candidatesTokenCount");
  TotalTokens := intFromAny (get payload "totalTokenCount");
  CachedInputTokens := intFromAny (get payload "cachedContentTokenCount");
  ReasoningTokens := intFromAny (get payload "thoughtsTokenCount");
|}.

Definition labelled (u : Usage) (model source : string) : Usage :=
  {| Model := TrimSpace model; InputTokens := InputTokens u; OutputTokens := OutputTokens u;
     TotalTokens := TotalTokens u; CachedInputTokens := CachedInputTokens u;
     ReasoningTokens := ReasoningTokens u; Source := source |}.

Definition no_tokens (u : Usage) : bool :=
  bool_decide (InputTokens u = 0) && bool_decide (OutputTokens u = 0) && bool_decide (TotalTokens u = 0).

(** The default branch of the route switch: the Responses names, then the chat
    names, then a total computed as Anthropic's usage needs it. *)
Definition parseOtherUsage (payload : object) (model : string) : Usage :=
  let u := parseResponsesUsage payload in
  let u := if no_tokens u then parseChatUsage payload else u in
  let '(u, source) :=
    if bool_decide (TotalTokens u = 0) && bool_decide (0 < InputTokens u) && bool_decide (0 < OutputTokens u)
    then ({| Model := ""; Source := ""; InputTokens := InputTokens u; OutputTokens := OutputTokens u;
             TotalTokens := wrap64 (InputTokens u + OutputTokens u);
             CachedInputTokens := wrap64 (intFromAny (get payload "cache_read_input_tokens") +
                                          intFromAny (get payload "cache_creation_input_tokens"));
             ReasoningTokens := ReasoningTokens u |}, "anthropic_usage")
    else (u, "") in
  labelled u model
    (if no_tokens u then "missing" else if str_eq source "" then "json" else source).

Definition ParseUsageFromJSON (route raw : string) : Usage :=
  match unmarshal_map raw with
  | None => missing
  | Some payload =>
      let payload := members payload in
      let model := default "" (as_string (get payload "model")) in
      match as_object (get payload "usage") with
      | None =>
          match as_object (get payload "usageMetadata") with
          | Some usageMetadata =>
              let u := parseGeminiUsageMetadata usageMetadata in
              labelled u model (if no_tokens u then "missing" else "gemini_usage_metadata")
          | None => missing
          end
      | Some usagePayload =>
          if str_eq route "/v1/chat/completions" then labelled (parseChatUsage usagePayload) model "chat_completions"
          else if str_eq route "/v1/responses" then labelled (parseResponsesUsage usagePayload) model "responses"
          else parseOtherUsage usagePayload model
      end
  end.

(** ** Response identifiers *)

Definition responseIDFromJSON (route raw : string) : string :=
  if negb (str_eq route "/v1/responses") && negb (HasPrefix route "/v1/responses/") then ""
  else match unmarshal_struct raw ≫= string_field "id" with
       | Some id => TrimSpace id
       | None => ""
       end.

Definition responseIDFromSSEData (eventName raw : string) : string :=
  match (ms ← unmarshal_struct raw;
         t ← string_field "type" ms;
         r ← struct_field "response" ms;
         id ← string_field "id" r;
         Some (t, id)) with
  | None => ""
  | Some (t, id) =>
      let eventType := TrimSpace t in
      let eventType := if str_eq eventType "" then TrimSpace eventName else eventType in
      if str_eq eventType "response.created" || str_eq eventType "response.completed"
      then TrimSpace id else ""
  end.

Section observer.
Variable json_Marshal : object → string.

Definition stream_source (u : Usage) : Usage :=
  if str_eq (Source u) "missing" then u
  else {| Model := Model u; InputTokens := InputTokens u; OutputTokens := OutputTokens u;
          TotalTokens := TotalTokens u; CachedInputTokens := CachedInputTokens u;
          ReasoningTokens := ReasoningTokens u; Source := "stream" |}.

Definition ParseUsageFromSSEData (route raw : string) : Usage :=
  match unmarshal_map raw with
  | None => missing
  | Some payload =>
      match as_object (get (members payload) "response") with
      | Some response => stream_source (ParseUsageFromJSON route (json_Marshal response))
      | None => stream_source (ParseUsageFromJSON route raw)
      end
  end.

(** ** The stream observer *)

Record SSEUsageObserver := { route : string; buf : bytes; usage : Usage; responseID : string }.

Definition NewSSEUsageObserver (route : string) : SSEUsageObserver :=
  {| route := route; buf := []; usage := missing; responseID := "" |}.

(** The index of the first occurrence of [p]. *)
Fixpoint index_of (p l : bytes) : option nat :=
  if prefix_of p l then Some O
  else match l with [] => None | _ :: l => S <$> index_of p l end.

Definition LFLF : bytes := [LF; LF].
Definition CRLFCRLF : bytes := [CR; LF; CR; LF].

Definition nextSSEEventDelimiter (b : bytes) : option (nat * nat) :=
  match index_of CRLFCRLF b, index_of LFLF b with
  | Some crlf, None => Some (crlf, 4%nat)
  | Some crlf, Some lf => if bool_decide (crlf < lf)%nat then Some (crlf, 4%nat) else Some (lf, 2%nat)
  | None, Some lf => Some (lf, 2%nat)
  | None, None => None
  end.

(** [bytes.Split(event, "\n")] *)
Fixpoint split_lines (l : bytes) : list bytes :=
  match l with
  | [] => [[]]
  | a :: l =>
      if bool_decide (a = LF) then [] :: split_lines l
      else match split_lines l with
           | x :: xs => (a :: x) :: xs
           | [] => [[a]]
           end
  end.

(** The event name and the data lines of an event. *)
Definition observe_line (acc : string * list string) (line : bytes) : string * list string :=
  let '(eventName, dataLines) := acc in
  let line := TrimSpace (to_string line) in
  if HasPrefix line "event:"
  then (TrimSpace (to_string (drop 6 (of_string line))), dataLines)
  else if negb (HasPrefix line "data:") then acc
  else
    let data := TrimSpace (to_string (drop 5 (of_string line))) in
    if str_eq data "" || str_eq data "[DONE]" then acc else (eventName, dataLines ++ [data]).

Definition observe_data (eventName : string) (o : SSEUsageObserver) (data : string) : SSEUsageObserver :=
  let u := ParseUsageFromSSEData (route o) data in
  let id := responseIDFromSSEData eventName data in
  {| route := route o; buf := buf o;
     usage := if negb (str_eq (Source u) "missing") then u else usage o;
     responseID := if negb (str_eq id "") then id else responseID o |}.

Definition observeEvent (o : SSEUsageObserver) (event : bytes) : SSEUsageObserver :=
  let '(eventName, dataLines) := foldl observe_line ("", []) (split_lines event) in
  foldl (observe_data eventName) o dataLines.

Definition with_buf (o : SSEUsageObserver) (b : bytes) : SSEUsageObserver :=
  {| route := route o; buf := b; usage := usage o; responseID := responseID o |}.

Fixpoint observe_loop (fuel : nat) (o : SSEUsageObserver) : SSEUsageObserver :=
  match fuel with
  | O => o
  | S fuel =>
      match nextSSEEventDelimiter (buf o) with
      | None => o
      | Some (index, delimiterLength) =>
          let event := take index (buf o) in
          let o := with_buf o (drop (index + delimiterLength) (buf o)) in
          observe_loop fuel (observeEvent o event)
      end
  end.

Definition Observe (o : SSEUsageObserver) (chunk : bytes) : SSEUsageObserver :=
  if bool_decide (chunk = []) then o
  else
    let b := buf o ++ chunk in
    observe_loop (S (length b)) (with_buf o b).

(** ** Chunks do not matter *)

Lemma prefix_of_Some p l : prefix_of p l = true ↔ ∃ r, l = p ++ r.
Proof.
  revert l. induction p as [|a p IH]; intros l; simpl; [split; [by exists l|done]|].
  destruct l as [|b l]; [split; [done|by intros [r ?]]|]. rewrite andb_true_iff, bool_decide_eq_true, IH.
  split; [intros [-> [r ->]]; by exists r|intros [r [= -> ->]]; eauto].
Qed.

Lemma prefix_of_app p x y : (length p ≤ length x)%nat → prefix_of p (x ++ y) = prefix_of p x.
Proof.
  revert x. induction p as [|a p IH]; intros [|b x] Hp; simpl in *; try lia; [done..|].
  by rewrite IH by lia.
Qed.

Lemma index_of_Some p l i :
  index_of p l = Some i → prefix_of p (drop i l) = true ∧ (i + length p ≤ length l)%nat.
Proof.
  revert i. induction l as [|a l IH]; intros i; cbn [index_of].
  - destruct (prefix_of p []) eqn:E; [|done]. intros [= <-]. split; [done|]. by destruct p.
  - destruct (prefix_of p (a :: l)) eqn:E.
    + intros [= <-]. split; [done|]. apply prefix_of_Some in E as [r ->]. rewrite length_app. lia.
    + destruct (index_of p l) as [k|]; [|done]. intros [= <-].
      destruct (IH k eq_refl) as [? ?]. split; [done|simpl; lia].
Qed.

Lemma index_of_app p x y i : index_of p x = Some i → index_of p (x ++ y) = Some i.
Proof.
  revert i. induction x as [|a x IH]; intros i Hi.
  - cbn [index_of] in Hi. destruct p as [|b p]; [|done]. simplify_eq/=. by destruct y.
  - pose proof (index_of_Some _ _ _ Hi) as [_ Hlen].
    pose proof (prefix_of_app p (a :: x) y ltac:(lia)) as Hp. cbn [index_of app] in *. rewrite Hp. destruct (prefix_of p (a :: x)); [done|].
    destruct (index_of p x) as [k|]; [|done]. by rewrite (IH k).
Qed.

(** An occurrence that starts before the end of [x] and is not in [x] reaches
    into [y]. *)
Lemma index_of_new p x y j :
  index_of p x = None → index_of p (x ++ y) = Some j → (length x < j + length p)%nat.
Proof.
  revert j. induction x as [|a x IH]; intros j Hx Hj; cbn [index_of app] in *.
  - simpl. destruct p; [done|simpl; lia].
  - destruct (prefix_of p (a :: x)) eqn:E; [done|].
    destruct (index_of p x) eqn:Ex; [done|].
    destruct (prefix_of p (a :: x ++ y)) eqn:E2.
    + simplify_eq. destruct (decide (length p ≤ length (a :: x))%nat) as [Hle|]; [|simpl in *; lia].
      pose proof (prefix_of_app p (a :: x) y Hle). simpl in *. congruence.
    + destruct (index_of p (x ++ y)) as [k|] eqn:Ek; [|done]. simplify_eq/=.
      specialize (IH k eq_refl eq_refl). lia.
Qed.

Lemma index_of_lookup p l i k : index_of p l = Some i → (k < length p)%nat → l !! (i + k)%nat = p !! k.
Proof.
  intros [Hp _]%index_of_Some Hk. apply prefix_of_Some in Hp as [r Hr].
  rewrite <- lookup_drop, Hr. by apply lookup_app_l.
Qed.

(** A delimiter that is there stays the first one when more bytes arrive. *)
Lemma nextSSEEventDelimiter_app x y i n :
  nextSSEEventDelimiter x = Some (i, n) → nextSSEEventDelimiter (x ++ y) = Some (i, n).
Proof.
  unfold nextSSEEventDelimiter.
  destruct (index_of CRLFCRLF x) as [c|] eqn:Ec, (index_of LFLF x) as [l|] eqn:El; try done.
  - by rewrite (index_of_app _ _ y _ Ec), (index_of_app _ _ y _ El).
  - intros [= <- <-]. rewrite (index_of_app _ _ y _ Ec).
    destruct (index_of LFLF (x ++ y)) as [l|] eqn:El'; [|done].
    pose proof (index_of_new _ _ _ _ El El') as Hl.
    apply index_of_Some in Ec as [_ Hc]. simpl in *. by rewrite bool_decide_eq_true_2 by lia.
  - intros [= <- <-]. rewrite (index_of_app _ _ y _ El).
    destruct (index_of CRLFCRLF (x ++ y)) as [c|] eqn:Ec'; [|done].
    case_bool_decide as Hlt; [|done]. exfalso.
    pose proof (index_of_new _ _ _ _ Ec Ec') as Hc. pose proof (index_of_Some _ _ _ El) as [_ Hl].
    simpl in Hc, Hl. assert (l = c + 1)%nat as -> by lia.
    pose proof (index_of_lookup _ _ _ 2 Ec' ltac:(simpl; lia)) as H1.
    pose proof (index_of_lookup _ _ _ 1 El ltac:(simpl; lia)) as H2.
    rewrite lookup_app_l in H1 by lia. replace (c + 1 + 1)%nat with (c + 2)%nat in H2 by lia.
    rewrite H1 in H2. done.
Qed.

Lemma nextSSEEventDelimiter_bound x i n :
  nextSSEEventDelimiter x = Some (i, n) → (i + n ≤ length x ∧ 1 ≤ n)%nat.
Proof.
  unfold nextSSEEventDelimiter.
  destruct (index_of CRLFCRLF x) as [c|] eqn:Ec, (index_of LFLF x) as [l|] eqn:El; try done;
    try apply index_of_Some in Ec as [_ Hc]; try apply index_of_Some in El as [_ Hl]; simpl in *;
    case_bool; intros; simplify_eq; lia.
Qed.

Lemma observeEvent_buf o e : buf (observeEvent o e) = buf o.
Proof.
  unfold observeEvent. destruct (foldl observe_line ("", []) (split_lines e)) as [n ds].
  revert o. induction ds as [|d ds IH]; intros o; simpl; [done|]. by rewrite IH.
Qed.

Lemma with_buf_twice o a b : with_buf (with_buf o a) b = with_buf o b.
Proof. done. Qed.

Lemma observeEvent_with_buf o e b : observeEvent (with_buf o b) e = with_buf (observeEvent o e) b.
Proof.
  unfold observeEvent. destruct (foldl observe_line ("", []) (split_lines e)) as [n ds].
  revert o. induction ds as [|d ds IH]; intros o; simpl; [done|]. by rewrite <- IH.
Qed.

Lemma observe_loop_fuel f g o :
  (length (buf o) < f)%nat → (length (buf o) < g)%nat → observe_loop f o = observe_loop g o.
Proof.
  revert g o. induction f as [|f IH]; intros [|g] o Hf Hg; try lia. cbn [observe_loop].
  destruct (nextSSEEventDelimiter (buf o)) as [[i n]|] eqn:E; [|done].
  apply nextSSEEventDelimiter_bound in E.
  apply IH; rewrite observeEvent_buf; cbn [with_buf buf]; rewrite length_drop; lia.
Qed.

(** The loop over a buffer can be interrupted anywhere. *)
Lemma observe_loop_app o x y f g :
  (length x < f)%nat → (length x + length y < g)%nat →
  let o' := observe_loop f (with_buf o x) in
  observe_loop g (with_buf o (x ++ y)) = observe_loop (S (length (buf o' ++ y))) (with_buf o' (buf o' ++ y)).
Proof.
  revert o x g. induction f as [|f IH]; intros o x g Hf Hg; [lia|].
  cbn [observe_loop with_buf buf]. destruct (nextSSEEventDelimiter x) as [[i n]|] eqn:E.
  - destruct g as [|g]; [lia|]. cbn [observe_loop with_buf buf].
    rewrite (nextSSEEventDelimiter_app _ y _ _ E). apply nextSSEEventDelimiter_bound in E.
    rewrite take_app_le, drop_app_le by lia. rewrite !with_buf_twice, !observeEvent_with_buf.
    apply (IH _ (drop (i + n) x) g); rewrite length_drop; lia.
  - change (observe_loop g (with_buf o (x ++ y)) = observe_loop (S (length (x ++ y))) (with_buf o (x ++ y))).
    apply observe_loop_fuel; cbn [with_buf buf]; rewrite length_app; lia.
Qed.

Lemma Observe_app o a b : Observe (Observe o a) b = Observe o (a ++ b).
Proof.
  unfold Observe at 2 3. case_bool_decide as Ha; [by subst|]. unfold Observe.
  case_bool_decide as Hb.
  { subst. rewrite app_nil_r. by rewrite bool_decide_eq_false_2. }
  rewrite bool_decide_eq_false_2 by (by destruct a). rewrite app_assoc. symmetry.
  apply observe_loop_app; rewrite ?length_app; lia.
Qed.

(** The usage and the response identifier seen in a stream do not depend
    on how the network cuts it into chunks: observing the chunks one after the
    other leaves the observer as observing the whole stream at once. *)
Theorem observer_chunking route chunks :
  foldl Observe (NewSSEUsageObserver route) chunks = Observe (NewSSEUsageObserver route) (concat chunks).
Proof.
  generalize (NewSSEUsageObserver route). induction chunks as [|c chunks IH]; intros o; [done|].
  cbn [foldl concat]. by rewrite IH, Observe_app.
Qed.

End observer.
End Usage.
