(* ===== verification/Effects.v ===== *)
(** * Programs with effects

    A request handler as a tree of calls to its environment: [Ret] ends it,
    [Vis e k] performs the call [e] and goes on with its answer.  An execution
    is the list of calls with their answers.  [wp] is the weakest precondition
    of a program with respect to a summary of its execution: each call must be
    admissible in the summary so far, whatever the environment answers. *)

From S2P Require Import Prelude.

Section programs.
Context {E : Set → Type}.

Inductive prog (A : Type) : Type :=
| Ret (a : A)
| Vis (R : Set) (e : E R) (k : R → prog A).

#[global] Arguments Ret {A} a.
#[global] Arguments Vis {A R} e k.

Fixpoint bind {A B : Type} (p : prog A) (f : A → prog B) : prog B :=
  match p with
  | Ret a => f a
  | Vis e k => Vis e (fun r => bind (k r) f)
  end.

(** Executions. *)
Inductive ev : Type :=
| Ev (R : Set) (e : E R) (r : R).

#[global] Arguments Ev {R} e r.

Inductive executes {A : Type} : prog A → list ev → A → Prop :=
| executes_ret a : executes (Ret a) [] a
| executes_vis R (e : E R) k r tr a : executes (k r) tr a → executes (Vis e k) (Ev e r :: tr) a.

(** Inversion without equalities between answer types. *)
Lemma executes_inv {A} (p : prog A) tr a :
  executes p tr a →
  match p with
  | Ret b => tr = [] ∧ a = b
  | Vis e k => ∃ r tr', tr = Ev e r :: tr' ∧ executes (k r) tr' a
  end.
Proof. destruct 1; eauto. Qed.

Lemma executes_bind {A B} (p : prog A) (f : A → prog B) tr b :
  executes (bind p f) tr b → ∃ a tr1 tr2, tr = tr1 ++ tr2 ∧ executes p tr1 a ∧ executes (f a) tr2 b.
Proof.
  revert tr. induction p as [a|R e k IH]; simpl; intros tr Hex.
  - exists a, [], tr. split; [done|]. split; [constructor|done].
  - apply executes_inv in Hex as (r & tr' & -> & Hex). apply IH in Hex as (a & tr1 & tr2 & -> & H1 & H2).
    exists a, (Ev e r :: tr1), tr2. split; [done|]. split; [by constructor|done].
Qed.

(** ** Weakest preconditions over a summary *)

Section wp.
Context {M : Type} (observe : ∀ R : Set, E R → R → M → M).
Context (admissible : ∀ R : Set, E R → M → Prop) (answers : ∀ R : Set, E R → R → M → Prop).

Fixpoint wp {A : Type} (p : prog A) (Q : A → M → Prop) (m : M) : Prop :=
  match p with
  | Ret a => Q a m
  | Vis e k => admissible _ e m ∧ ∀ r, answers _ e r m → wp (k r) Q (observe _ e r m)
  end.

Lemma wp_mono {A} (p : prog A) (Q Q' : A → M → Prop) m :
  wp p Q m → (∀ a m, Q a m → Q' a m) → wp p Q' m.
Proof.
  revert m. induction p as [a|R e k IH]; simpl; intros m H HQ; [auto|].
  destruct H as [Ha H]. split; [done|]. intros r Hr. apply IH; auto.
Qed.

Lemma wp_bind {A B} (p : prog A) (f : A → prog B) (Q : B → M → Prop) m :
  wp p (fun a m => wp (f a) Q m) m → wp (bind p f) Q m.
Proof.
  revert m. induction p as [a|R e k IH]; simpl; intros m H; [done|].
  destruct H as [Ha H]. split; [done|]. intros r Hr. auto.
Qed.

(** The usual way to use a specification of a part. *)
Lemma wp_bind_mono {A B} (p : prog A) (f : A → prog B) (P : A → M → Prop) (Q : B → M → Prop) m :
  wp p P m → (∀ a m, P a m → wp (f a) Q m) → wp (bind p f) Q m.
Proof. intros Hp Hf. apply wp_bind. by eapply wp_mono. Qed.

(** The summary of an execution, and the environment's part of the contract. *)
Definition observe_ev (m : M) (x : ev) : M := match x with Ev e r => observe _ e r m end.
Definition summary (m : M) (tr : list ev) : M := foldl observe_ev m tr.

Fixpoint honest (m : M) (tr : list ev) : Prop :=
  match tr with
  | [] => True
  | Ev e r :: tr => answers _ e r m ∧ honest (observe _ e r m) tr
  end.

(** Every call of the execution was admissible when it was made. *)
Fixpoint safe (m : M) (tr : list ev) : Prop :=
  match tr with
  | [] => True
  | Ev e r :: tr => admissible _ e m ∧ safe (observe _ e r m) tr
  end.

Lemma wp_sound {A} (p : prog A) (Q : A → M → Prop) m tr a :
  wp p Q m → executes p tr a → honest m tr → safe m tr ∧ Q a (summary m tr).
Proof.
  intros Hwp Hex. revert m Hwp. induction Hex as [a|R e k r tr a Hex IH]; intros m Hwp Hh; [done|].
  destruct Hwp as [Ha Hwp], Hh as [Hr Hh]. destruct (IH _ (Hwp r Hr) Hh) as [? ?]. by repeat split.
Qed.

End wp.

(** Running a program against an environment with a state. *)
Section run.
Context {W : Type} (handle : ∀ R : Set, E R → W → R * W).

Fixpoint run {A : Type} (p : prog A) (w : W) : A * list ev * W :=
  match p with
  | Ret a => (a, [], w)
  | Vis e k =>
      let '(r, w) := handle _ e w in
      let '(a, tr, w) := run (k r) w in
      (a, Ev e r :: tr, w)
  end.

Lemma run_executes {A} (p : prog A) w a tr w' : run p w = (a, tr, w') → executes p tr a.
Proof.
  revert w tr. induction p as [x|R e k IH]; simpl; intros w tr; [intros [= -> <- _]; constructor|].
  destruct (handle R e w) as [r w1]. destruct (run (k r) w1) as [[a' tr'] w2] eqn:Er.
  intros [= -> <- ->]. constructor. by eapply IH.
Qed.
End run.

(** ** Interleavings

    A program whose calls act on a state shared with others: [acts] says what a
    call may answer and do, and between two calls the others move the state. *)
Section interleaved.
Context {S : Type} (acts : ∀ R : Set, E R → S → R → S → Prop) (others : S → S → Prop).

Inductive runs {A : Type} : prog A → S → A → S → Prop :=
| runs_ret a s s' : rtc others s s' → runs (Ret a) s a s'
| runs_vis R (e : E R) k s s1 r s2 a s3 :
    rtc others s s1 → acts R e s1 r s2 → runs (k r) s2 a s3 → runs (Vis e k) s a s3.

Lemma runs_inv {A} (p : prog A) s a s' :
  runs p s a s' →
  match p with
  | Ret b => a = b ∧ rtc others s s'
  | Vis e k => ∃ s1 r s2, rtc others s s1 ∧ acts _ e s1 r s2 ∧ runs (k r) s2 a s'
  end.
Proof. destruct 1; [done|]. eauto 10. Qed.

Lemma runs_bind {A B} (p : prog A) (f : A → prog B) s b s' :
  runs (bind p f) s b s' → ∃ a s1, runs p s a s1 ∧ runs (f a) s1 b s'.
Proof.
  revert s. induction p as [a|R e k IH]; simpl; intros s Hr.
  - exists a, s. split; [by constructor|done].
  - apply runs_inv in Hr as (s1 & r & s2 & H1 & H2 & Hr). apply IH in Hr as (a & s3 & H3 & H4).
    exists a, s3. split; [by econstructor|done].
Qed.

(** A relation that both the calls and the others keep holds of the whole run. *)
Lemma runs_preserves {A} (p : prog A) (I : S → S → Prop) s a s' :
  (∀ x, I x x) → (∀ x y z, I x y → I y z → I x z) →
  (∀ x y, others x y → I x y) → (∀ R (e : E R) x r y, acts R e x r y → I x y) →
  runs p s a s' → I s s'.
Proof.
  intros Hrefl Htrans Ho Ha Hr. assert (∀ x y, rtc others x y → I x y) as Hstar.
  { intros x y Hxy. induction Hxy; eauto. }
  induction Hr; eauto.
Qed.

(** A run against a functional environment that follows [acts], undisturbed. *)
Lemma run_runs {A} (handle : ∀ R : Set, E R → S → R * S) (p : prog A) s a tr s' :
  (∀ R (e : E R) x, acts R e x (handle R e x).1 (handle R e x).2) →
  run handle p s = (a, tr, s') → runs p s a s'.
Proof.
  intros Hh. revert s tr. induction p as [x|R e k IH]; simpl; intros s tr; [intros [= -> _ ->]; by constructor|].
  destruct (handle R e s) as [r s1] eqn:Eh. destruct (run handle (k r) s1) as [[a' tr'] s2] eqn:Er.
  intros [= -> _ ->]. econstructor; [done| |by eapply IH]. specialize (Hh R e s). by rewrite Eh in Hh.
Qed.

(** Two programs taking turns, call by call. *)
Inductive interleaves {A B : Type} : prog A → prog B → S → A → B → S → Prop :=
| interleaves_ret a b s : interleaves (Ret a) (Ret b) s a b s
| interleaves_left R (e : E R) k q s r s1 a b s' :
    acts R e s r s1 → interleaves (k r) q s1 a b s' → interleaves (Vis e k) q s a b s'
| interleaves_right R (e : E R) p k s r s1 a b s' :
    acts R e s r s1 → interleaves p (k r) s1 a b s' → interleaves p (Vis e k) s a b s'.

(** The turns as given: [true] for the first program. *)
Fixpoint run2 {A B : Type} (handle : ∀ R : Set, E R → S → R * S) (turns : list bool) (p : prog A) (q : prog B) (s : S)
  : option (A * B * S) :=
  match turns with
  | [] => match p, q with Ret a, Ret b => Some (a, b, s) | _, _ => None end
  | true :: turns => match p with Vis e k => let '(r, s) := handle _ e s in run2 handle turns (k r) q s | Ret _ => None end
  | false :: turns => match q with Vis e k => let '(r, s) := handle _ e s in run2 handle turns p (k r) s | Ret _ => None end
  end.

Lemma run2_interleaves {A B} (handle : ∀ R : Set, E R → S → R * S) turns (p : prog A) (q : prog B) s a b s' :
  (∀ R (e : E R) x, acts R e x (handle R e x).1 (handle R e x).2) →
  run2 handle turns p q s = Some (a, b, s') → interleaves p q s a b s'.
Proof.
  intros Hh. revert p q s. induction turns as [|[] turns IH]; simpl; intros p q s.
  - destruct p, q; try done. intros [= -> -> ->]. constructor.
  - destruct p as [|R e k]; [done|]. destruct (handle R e s) as [r s1] eqn:Eh. intros Hr.
    eapply interleaves_left; [|by eapply IH]. specialize (Hh R e s). by rewrite Eh in Hh.
  - destruct q as [|R e k]; [done|]. destruct (handle R e s) as [r s1] eqn:Eh. intros Hr.
    eapply interleaves_right; [|by eapply IH]. specialize (Hh R e s). by rewrite Eh in Hh.
Qed.
End interleaved.
End programs.

Arguments prog E A : clear implicits.
Arguments ev E : clear implicits.

Notation "'let!' x ':=' c 'in' k" := (bind c (fun x => k))
  (at level 10, x pattern, c at level 200, k at level 200,
   format "'[v' 'let!'  x  ':='  c  'in' '/' k ']'") : n2api_scope.
Notation "c ';;' k" := (bind c (fun _ => k))
  (at level 100, right associativity, format "'[v' c  ';;' '/' k ']'") : n2api_scope.
