(* ===== verification/GatewayTypes.v ===== *)
(** * The gateway: data, environment and pure helpers

    The types of [gateway/proxy.go], [gateway/request_diagnostics.go] and
    [requestlog/diagnostics.go], the calls a request makes to its environment
    (the Go interfaces of the proxy, the HTTP client, the response writer, the
    limiters and the clock) as the effects [cmd], and the helper functions that
    compute without effects. *)

From S2P Require Import Prelude GoStrings Json Sse Usage Effects Limiters Ledger Account.
From Stdlib Require Import Ascii.
From Stdlib Require String.

Module GatewayTypes.
Import Account.

(** ** Requests, keys, settings *)

(** An [http.Header]: values by canonical name. *)
Abbreviation header := (gmap string (list string)).

(** [textproto.CanonicalMIMEHeaderKey] *)
Definition token_char (a : ascii) : bool :=
  let x := byte_of a in
  bool_decide (48 ≤ x ≤ 57) || bool_decide (65 ≤ x ≤ 90) || bool_decide (97 ≤ x ≤ 122) ||
  existsb (fun c => bool_decide (c = a)) (String.list_ascii_of_string "!#$%&'*+-.^_`|~").

Definition upper_ascii (a : ascii) : ascii :=
  if bool_decide (97 ≤ byte_of a ≤ 122) then ascii_of_N (N_of_ascii a - 32) else a.

Fixpoint canonical_bytes (start : bool) (l : list ascii) : list ascii :=
  match l with
  | [] => []
  | a :: l => (if start then upper_ascii a else lower_ascii a) :: canonical_bytes (bool_decide (a = "-"%char)) l
  end.

Definition canonical (k : string) : string :=
  let l := String.list_ascii_of_string k in
  if forallb token_char l then String.string_of_list_ascii (canonical_bytes true l) else k.

Definition h_get (h : header) (k : string) : string := default "" (h !! canonical k ≫= head).
Definition h_set (h : header) (k v : string) : header := <[canonical k := [v]]> h.
Definition h_add (h : header) (k v : string) : header :=
  <[canonical k := default [] (h !! canonical k) ++ [v]]> h.
Definition h_del (h : header) (k : string) : header := delete (canonical k) h.

(** The incoming request: the header, the declared length, whether there is a
    body, and the correlation identifier its context carries. *)
Record Request := {
  Method : string; Path : string; RawQuery : string; Header : header;
  ContentLength : Z; HasBody : bool; ContextCorrelationID : option string
}.

Record APIKey := {
  K_ID : Z; ModelPolicy : string; AllowedModels : list string;
  RequestsPerMinute : Z; TokensPerMinute : Z;
  K_RoutingPoolID : option Z; K_RoutingPoolName : string
}.

Record GatewaySettings := {
  MaxConcurrentGatewayRequests : Z; MaxConcurrentRequestsPerAccount : Z;
  MaxConcurrentRequestsPerKey : Z; RequestsPerMinutePerKey : Z; TokensPerMinutePerKey : Z
}.

Record ErrorPassthroughRule := { Pattern : string; MatchType : string; Enabled : bool }.
Record ExposedModel := { E_ID : string; OwnedBy : string }.
Record UsageCostEstimate := { Matched : bool; CostMicrousd : Z }.

(** ** Errors *)

Inductive ctx_error := Canceled | DeadlineExceeded.

Inductive auth_error := AuthUnauthorized | AuthUnavailable | AuthFailed.

Inductive select_error :=
| SelProvider (e : perror)
| errResponseAffinityUnknown
| errResponseAffinityAccountUnavailable.

(** Reading the request body and preparing it. *)
Inductive body_error :=
| BodyTimeout
| errRequestBodyDeadline
| errRequestBodyTooLarge
| errInvalidJSONBody
| errModelNotFound
| BodyInvalidInput
| BodyCtx (e : ctx_error)
| BodyOther.

(** Sending the upstream request: what [isTimeoutError] and [errors.Is] see. *)
Inductive send_error := SendTimeout | SendDeadline | SendCanceled | SendFailed.

(** Writing the response: the errors of [response_writer.go] and
    [oauth_responses.go]. *)
Inductive write_error :=
| errUpstreamResponseTooLarge
| errUpstreamResponseRead
| errUpstreamSSEIdleTimeout
| errUpstreamModelError
| errUpstreamGenerationMissing
| errUpstreamSSETerminalMissing
| errUpstreamSSETruncated
| errUpstreamSSEMalformed
| errUpstreamSSEError
| errUpstreamResponseFailed
| errUpstreamResponseIncomplete
| errUpstreamResponseCanceled
| errUpstreamResponseDeadline
| ClientWriteFailed.

#[export] Instance ctx_error_eq_dec : EqDecision ctx_error.
Proof. solve_decision. Defined.
#[export] Instance write_error_eq_dec : EqDecision write_error.
Proof. solve_decision. Defined.
#[export] Instance body_error_eq_dec : EqDecision body_error.
Proof. solve_decision. Defined.

(** ** Upstream responses

    A body is identified by its handle; it delivers the results of its reads
    one by one and then ends. *)

Record read_result := { rd_data : bytes; rd_err : option Sse.read_error; rd_idle : bool }.
Record body := { b_id : Z; b_reads : list read_result }.
Record Response := { StatusCode : Z; R_Header : header; Body : body }.

Record upstream_request := {
  U_Method : string; U_URL : string; U_Header : header; U_Body : option string; U_TLS : string
}.

(** ** Diagnostics *)

Definition MaxRequestAttemptTimelineEntries : Z := 16.
Definition MaxRequestDiagnosticTextBytes : Z := 128.

Record RequestAttempt := {
  Order : Z; Type_ : string; A_AccountID : Z; A_AccountType : string; A_AccountName : string;
  PoolID : Z; PoolName : string; StartedAt : Time; EndedAt : option Time; DurationMS : option Z;
  HTTPStatus : Z; A_Error : string; FallbackReason : string; A_UpstreamRequestID : string
}.

Record ResponseTiming := {
  HeaderWaitMS : option Z; FirstUsefulOutputMS : option Z; StreamFinishMS : option Z
}.
Definition no_timing : ResponseTiming := Build_ResponseTiming None None None.

(** ** The request log *)

Record RequestLog := {
  RequestID : string; UpstreamRequestID : string; ClientKeyID : Z;
  Provider : string; ProviderAccountID : Z; ProviderAccountType : string; ProviderAccountName : string;
  L_RoutingPoolID : Z; L_RoutingPoolName : string; L_FallbackDepth : Z; L_FallbackChain : string;
  L_RoutingPoolError : string; L_Model : string; SessionID : string; Route : string; L_Method : string;
  L_StatusCode : Z; Latency : Duration; Error : string; L_Usage : Usage.Usage;
  EstimatedCostMicrousd : Z; GatewayAttemptCount : Z; GatewayFallbackCount : Z;
  Attempts : list RequestAttempt; AttemptTimelineTruncated : bool; L_ResponseTiming : ResponseTiming;
  CreatedAt : Time
}.

(** ** The environment *)

(** The selection methods of the account provider's interfaces. *)
Inductive selection :=
| SelForModel (model : string)
| SelForModelAndEndpoint (model endpoint : string)
| SelForModelAndSession (model session : string)
| SelForModelAndSessionAndEndpoint (model endpoint session : string)
| SelInPool (pool : Z) (model : string)
| SelSessionInPool (pool : Z) (model session : string)
| SelInPoolAndEndpoint (pool : Z) (model endpoint : string)
| SelSessionInPoolAndEndpoint (pool : Z) (model endpoint session : string)
| SelInChain (pool : Z) (model : string)
| SelSessionInChain (pool : Z) (model session : string)
| SelInChainAndEndpoint (pool : Z) (model endpoint : string)
| SelSessionInChainAndEndpoint (pool : Z) (model endpoint session : string).

(** Metrics calls. *)
Inductive metric :=
| GatewayRequestStarted
| GatewayRequestFinished (route : string) (status : Z) (stream : bool) (accountType : string) (d : Duration)
| ObserveUpstreamAttempt (accountType outcome : string)
| ObserveFallback (reason : string)
| ObserveRoutingFailure (reason : string)
| ObserveLimitRejection (scope reason : string)
| ObserveStream (route outcome : string)
| ObserveUsage (u : Usage.Usage) (priced : bool) (cost : Z).

Inductive deadline_error := DeadlineNotSupported | DeadlineFailed.

Inductive cmd : Set → Type :=
| Now : cmd Time
| CtxErr : cmd (option ctx_error)
| NewCorrelationID : cmd string
| AuthenticateAPIKey (token : string) : cmd (result auth_error APIKey)
| GetGatewaySettings : cmd (option GatewaySettings)
| RateAllow (keyID limit : Z) : cmd (Z * bool)
| TokenAllow (keyID limit : Z) : cmd (Z * bool)
| TokenRecord (keyID tokens limit : Z) : cmd unit
| AcquireGateway (limit : Z) : cmd (option Concurrency.release)
| AcquireKey (keyID limit : Z) : cmd (option Concurrency.release)
| AcquireAccount (accountID limit : Z) : cmd (option Concurrency.release)
| Release (r : Concurrency.release) : cmd unit
| SetReadDeadline (t : Time) : cmd (option deadline_error)
| ReadRequestBody : cmd (bytes * option body_error)
| CloseRequestBody : cmd unit
| DefaultModel : cmd (result body_error string)
| ListExposedModels (pool : Z) : cmd (option (list ExposedModel))
| FindResponseAffinity (responseID : string) (pool : Z) (now : Time) : cmd (option (option Z))
| UpsertResponseAffinity (responseID : string) (account pool : Z) (expires : Time) : cmd bool
| SelectAccount (s : selection) (excluded : list Z) : cmd (SelectedAccount * option perror)
| SelectByID (pool account : Z) (model : string) (endpoint : option string) : cmd (SelectedAccount * option perror)
| SelectSingle (pool : Z) (model : string) (endpoint : option string) : cmd (SelectedAccount * bool * option perror)
| RecordAccountUsed (account : Z) : cmd bool
| RecordAccountRecovered (account : Z) : cmd unit
| RecordAccountFailure (account status : Z) (retryAfter message : string) : cmd unit
| RefreshAccountAuthorization (account : Z) (token : string) (status : Z) (message : string)
    : cmd (string * bool * bool * bool)
| AdmitAPIKeyBudget (keyID : Z) (at_ : Time) : cmd (result Ledger.ledger_error string)
| SettleAPIKeyBudgetUsage (request : Ledger.APIKeyBudgetSettlementRequest) : cmd bool
| EstimateUsageCost (u : Usage.Usage) : cmd (option UsageCostEstimate)
| ListErrorPassthroughRules : cmd (option (list ErrorPassthroughRule))
| ClientFor (s : SelectedAccount) : cmd bool
| Do (account : Z) (request : upstream_request) : cmd (result send_error Response)
| CloseBody (id : Z) : cmd unit
| SetHeader (k v : string) : cmd unit
| AddHeader (k v : string) : cmd unit
| DelHeader (k : string) : cmd unit
| WriteHeader (status : Z) : cmd unit
| Write (data : bytes) : cmd bool
| CreateRequestLog (entry : RequestLog) : cmd bool
| ObserveLogWrite (requestID : string) (ok : bool) : cmd unit
| ProcessLog (message : string) : cmd unit
| Metric (m : metric) : cmd unit.

End GatewayTypes.
