(* ===== verification/GatewayPure.v ===== *)
(** * The gateway: functions without effects

    Routes, error codes and messages, header copying and the upstream request
    of [gateway/proxy.go]; the attempt timeline and the observation of response
    phases of [gateway/request_diagnostics.go]; [requestlog.BoundedText]. *)

From S2P Require Import Prelude GoStrings Json Sse Usage Account Scheduling Ledger GatewayTypes.
From Stdlib Require Import Ascii.
From Stdlib Require String.

Module GatewayPure.
Import Account Json GatewayTypes.

(** ** [requestlog.BoundedText] *)

(** The well-formed characters of a text; other bytes are dropped. *)
Fixpoint characters (fuel : nat) (l : list ascii) : list (list ascii) :=
  match fuel with
  | O => []
  | S fuel =>
      match l with
      | [] => []
      | _ :: l1 =>
          match utf8_length l with
          | Some n => take n l :: characters fuel (drop n l)
          | None => characters fuel l1
          end
      end
  end.

Definition characters_of (s : string) : list (list ascii) :=
  characters (String.length s) (String.list_ascii_of_string s).

(** [unicode.IsControl]: U+0000..U+001F and U+007F..U+009F. *)
Definition is_control (c : list ascii) : bool :=
  match c with
  | [a] => bool_decide (byte_of a < 32) || bool_decide (byte_of a = 127)
  | [a; b] => bool_decide (byte_of a = 194) && bool_decide (128 ≤ byte_of b ≤ 159)
  | _ => false
  end.

Definition text_of (cs : list (list ascii)) : string := String.string_of_list_ascii (concat cs).

(** Dropping characters from the end (the list is reversed) down to a length. *)
Fixpoint drop_last (maxBytes : Z) (rcs : list (list ascii)) : list (list ascii) :=
  match rcs with
  | [] => []
  | _ :: rcs' => if bool_decide (maxBytes < blen (concat rcs)) then drop_last maxBytes rcs' else rcs
  end.

Definition BoundedText (value : string) (maxBytes : Z) : string :=
  if bool_decide (maxBytes ≤ 0) then ""
  else
    let value := TrimSpace (text_of (filter (fun c => is_control c = false) (characters_of (TrimSpace value)))) in
    if bool_decide (go_len value ≤ maxBytes) then value
    else TrimSpace (text_of (rev (drop_last maxBytes (rev (characters_of value))))).

Definition bounded (s : string) : string := BoundedText s MaxRequestDiagnosticTextBytes.

(** ** The attempt timeline *)

Definition attemptTypeSelection : string := "selection".
Definition attemptTypeConcurrencyRejection : string := "concurrency_rejection".
Definition attemptTypeGatewayRejection : string := "gateway_rejection".
Definition attemptTypeUpstreamHTTP : string := "upstream_http".
Definition attemptTypeUpstreamTransport : string := "upstream_transport".
Definition attemptTypeAuthRefreshRetry : string := "auth_refresh_retry".

Record requestDiagnostics := {
  attempts : list RequestAttempt; nextAttemptOrder : Z; attemptsTruncated : bool;
  responseTiming : ResponseTiming
}.

(** A span is the index of its entry; it has none when the timeline is full. *)
Abbreviation requestAttemptSpan := (option nat).

Definition newRequestDiagnostics : requestDiagnostics := Build_requestDiagnostics [] 0 false no_timing.

Definition beginAttempt (d : requestDiagnostics) (attemptType : string) (selected : SelectedAccount)
    (fallbackReason : string) (now : Time) : requestDiagnostics * requestAttemptSpan :=
  if bool_decide (MaxRequestAttemptTimelineEntries ≤ Z.of_nat (length (attempts d)))
  then (Build_requestDiagnostics (attempts d) (nextAttemptOrder d) true (responseTiming d), None)
  else
    (Build_requestDiagnostics
       (attempts d ++
        [{| Order := nextAttemptOrder d; Type_ := bounded attemptType; A_AccountID := AccountID selected;
            A_AccountType := bounded (S_AccountType selected); A_AccountName := bounded (S_DisplayName selected);
            PoolID := RoutingPoolID selected; PoolName := bounded (RoutingPoolName selected);
            StartedAt := now; EndedAt := None; DurationMS := None; HTTPStatus := 0; A_Error := "";
            FallbackReason := bounded fallbackReason; A_UpstreamRequestID := "" |}])
       (nextAttemptOrder d + 1) (attemptsTruncated d) (responseTiming d),
     Some (length (attempts d))).

Definition update_entry (d : requestDiagnostics) (s : requestAttemptSpan)
    (f : RequestAttempt → RequestAttempt) : requestDiagnostics :=
  match s with
  | Some i => Build_requestDiagnostics (alter f i (attempts d)) (nextAttemptOrder d) (attemptsTruncated d)
                (responseTiming d)
  | None => d
  end.

Definition setSelected (d : requestDiagnostics) (s : requestAttemptSpan) (selected : SelectedAccount) :=
  update_entry d s (fun e =>
    {| Order := Order e; Type_ := Type_ e; A_AccountID := AccountID selected;
       A_AccountType := bounded (S_AccountType selected); A_AccountName := bounded (S_DisplayName selected);
       PoolID := RoutingPoolID selected; PoolName := bounded (RoutingPoolName selected);
       StartedAt := StartedAt e; EndedAt := EndedAt e; DurationMS := DurationMS e; HTTPStatus := HTTPStatus e;
       A_Error := A_Error e; FallbackReason := FallbackReason e; A_UpstreamRequestID := A_UpstreamRequestID e |}).

Definition setType (d : requestDiagnostics) (s : requestAttemptSpan) (attemptType : string) :=
  update_entry d s (fun e =>
    {| Order := Order e; Type_ := bounded attemptType; A_AccountID := A_AccountID e;
       A_AccountType := A_AccountType e; A_AccountName := A_AccountName e; PoolID := PoolID e;
       PoolName := PoolName e; StartedAt := StartedAt e; EndedAt := EndedAt e; DurationMS := DurationMS e;
       HTTPStatus := HTTPStatus e; A_Error := A_Error e; FallbackReason := FallbackReason e;
       A_UpstreamRequestID := A_UpstreamRequestID e |}).

Definition setUpstreamRequestID (d : requestDiagnostics) (s : requestAttemptSpan) (value : string) :=
  update_entry d s (fun e =>
    {| Order := Order e; Type_ := Type_ e; A_AccountID := A_AccountID e;
       A_AccountType := A_AccountType e; A_AccountName := A_AccountName e; PoolID := PoolID e;
       PoolName := PoolName e; StartedAt := StartedAt e; EndedAt := EndedAt e; DurationMS := DurationMS e;
       HTTPStatus := HTTPStatus e; A_Error := A_Error e; FallbackReason := FallbackReason e;
       A_UpstreamRequestID := bounded value |}).

Definition elapsedMilliseconds (start end_ : Time) : option Z :=
  if time_is_zero start || time_is_zero end_ then None
  else Some (Z.max 0 (time_sub end_ start) / 1000000).

Definition finish (d : requestDiagnostics) (s : requestAttemptSpan) (statusCode : Z) (errorCode : string)
    (now : Time) :=
  update_entry d s (fun e =>
    let ended := match EndedAt e with Some t => Some t | None => Some now end in
    let duration := match EndedAt e with Some _ => DurationMS e | None => elapsedMilliseconds (StartedAt e) now end in
    {| Order := Order e; Type_ := Type_ e; A_AccountID := A_AccountID e;
       A_AccountType := A_AccountType e; A_AccountName := A_AccountName e; PoolID := PoolID e;
       PoolName := PoolName e; StartedAt := StartedAt e; EndedAt := ended; DurationMS := duration;
       HTTPStatus := if bool_decide (0 < statusCode) then statusCode else HTTPStatus e;
       A_Error := if str_eq errorCode "" then A_Error e else bounded errorCode;
       FallbackReason := FallbackReason e; A_UpstreamRequestID := A_UpstreamRequestID e |}).

Definition setError (d : requestDiagnostics) (s : requestAttemptSpan) (errorCode : string) :=
  update_entry d s (fun e =>
    {| Order := Order e; Type_ := Type_ e; A_AccountID := A_AccountID e;
       A_AccountType := A_AccountType e; A_AccountName := A_AccountName e; PoolID := PoolID e;
       PoolName := PoolName e; StartedAt := StartedAt e; EndedAt := EndedAt e; DurationMS := DurationMS e;
       HTTPStatus := HTTPStatus e;
       A_Error := if str_eq errorCode "" then A_Error e else bounded errorCode;
       FallbackReason := FallbackReason e; A_UpstreamRequestID := A_UpstreamRequestID e |}).

Definition with_timing (d : requestDiagnostics) (t : ResponseTiming) : requestDiagnostics :=
  Build_requestDiagnostics (attempts d) (nextAttemptOrder d) (attemptsTruncated d) t.

Definition resetResponseTiming (d : requestDiagnostics) : requestDiagnostics := with_timing d no_timing.

Definition setHeaderWait (d : requestDiagnostics) (start end_ : Time) : requestDiagnostics :=
  with_timing d (Build_ResponseTiming (elapsedMilliseconds start end_)
                   (FirstUsefulOutputMS (responseTiming d)) (StreamFinishMS (responseTiming d))).

Definition addMilliseconds (offset value : option Z) : option Z :=
  match offset, value with Some o, Some v => Some (wrap64 (o + v)) | _, _ => value end.

Definition setResponseTiming (d : requestDiagnostics) (t : ResponseTiming) : requestDiagnostics :=
  let wait := HeaderWaitMS (responseTiming d) in
  with_timing d
    (match HeaderWaitMS t with
     | None => Build_ResponseTiming wait (addMilliseconds wait (FirstUsefulOutputMS t))
                 (addMilliseconds wait (StreamFinishMS t))
     | Some _ => t
     end).

(** ** Observing a response *)

Definition isGenerationRoute (route : string) : bool :=
  str_eq route "/v1/responses" || str_eq route "/v1/chat/completions".

Definition success (statusCode : Z) : bool := bool_decide (200 ≤ statusCode) && bool_decide (statusCode < 300).

Definition nonEmptyJSONValue (v : option json) : bool :=
  match v with
  | None | Some JNull => false
  | Some (JString s) => negb (str_eq (TrimSpace s) "")
  | Some (JArray l) => negb (bool_decide (length l = O))
  | Some (JObject ms) => negb (bool_decide (length ms = O))
  | Some _ => true
  end.

(** [payload[k] != nil] *)
Definition not_nil (v : option json) : bool := match v with None | Some JNull => false | Some _ => true end.

Definition responseBodyHasUsefulJSON (route : string) (statusCode : Z) (raw : string) : bool :=
  if negb (success statusCode) then false
  else match unmarshal_map raw with
  | None => false
  | Some payload =>
      let payload := members payload in
      if bool_decide (length payload = O) then false
      else if bool_decide (is_Some (get payload "error")) then false
      else if HasPrefix route "/v1/responses"
      then bool_decide (is_Some (get payload "id")) || not_nil (get payload "output")
      else if str_eq route "/v1/chat/completions"
      then match as_array (get payload "choices") with Some l => negb (bool_decide (length l = O)) | None => false end
      else true
  end.

Definition responseBodyDiagnosticError (route : string) (statusCode : Z) (raw : string) : option write_error :=
  if negb (isGenerationRoute route) || negb (success statusCode) then None
  else if match unmarshal_map raw with
          | Some payload => bool_decide (is_Some (get (members payload) "error"))
          | None => false
          end then Some errUpstreamModelError
  else if negb (responseBodyHasUsefulJSON route statusCode raw) then Some errUpstreamGenerationMissing
  else None.

Definition event_type (payload : Usage.object) (eventName : string) : string :=
  let t := TrimSpace (default "" (as_string (get payload "type"))) in
  if str_eq t "" then TrimSpace eventName else t.

Definition sseEventHasUsefulData (route eventName data : string) : bool :=
  let data := TrimSpace data in
  if str_eq data "" || str_eq data "[DONE]" then false
  else match unmarshal_map data with
  | None => false
  | Some payload =>
      let payload := members payload in
      let t := event_type payload eventName in
      let any ks := existsb (fun k => nonEmptyJSONValue (get payload k)) ks in
      if existsb (str_eq t) ["response.created"; "response.queued"; "response.in_progress"; "response.failed";
                             "response.incomplete"] then false
      else if str_eq t "response.completed" then not_nil (get payload "response")
      else
        let responses := HasPrefix route "/v1/responses" || HasPrefix t "response." in
        if responses && HasSuffix t ".delta" then any ["delta"; "text"; "arguments"]
        else if responses && existsb (str_eq t) ["response.output_item.added"; "response.content_part.added";
                                                 "response.output_text.done"]
        then not_nil (get payload "item") || not_nil (get payload "part") || nonEmptyJSONValue (get payload "text")
        else if str_eq route "/v1/chat/completions" then
          match as_array (get payload "choices") with
          | None => false
          | Some choices =>
              existsb (fun c => match c with
                                | JObject choice => nonEmptyJSONValue (get choice "delta") ||
                                    nonEmptyJSONValue (get choice "message") || nonEmptyJSONValue (get choice "text")
                                | _ => false
                                end) choices
          end
        else any ["delta"; "text"; "content"]
  end.

Definition sseEventDiagnosticError (eventName data : string) : string :=
  let data := TrimSpace data in
  if str_eq data "" || str_eq data "[DONE]" then ""
  else match unmarshal_map data with
  | None => ""
  | Some payload =>
      let payload := members payload in
      let t := event_type payload eventName in
      if str_eq t "response.failed" then "upstream_response_failed"
      else if str_eq t "response.incomplete" then "upstream_response_incomplete"
      else if EqualFold (TrimSpace eventName) "error" then "upstream_sse_error"
      else if bool_decide (is_Some (get payload "error")) then "upstream_model_error"
      else ""
  end.

(** [responsePhaseTracker] *)
Record responsePhaseTracker := {
  T_route : string; startedAt : Time; firstUsefulAt : Time; sseBuffer : bytes; diagnosticError : string
}.

Definition newResponsePhaseTracker (route : string) (now : Time) : responsePhaseTracker :=
  Build_responsePhaseTracker route now 0 [] "".

Definition markUseful (t : responsePhaseTracker) (now : Time) : responsePhaseTracker :=
  if time_is_zero (firstUsefulAt t)
  then Build_responsePhaseTracker (T_route t) (startedAt t) now (sseBuffer t) (diagnosticError t) else t.

Definition observeSSEEvent (t : responsePhaseTracker) (eventName data : string) (now : Time)
  : responsePhaseTracker :=
  let t := if str_eq (diagnosticError t) ""
           then Build_responsePhaseTracker (T_route t) (startedAt t) (firstUsefulAt t) (sseBuffer t)
                  (sseEventDiagnosticError eventName data)
           else t in
  if sseEventHasUsefulData (T_route t) eventName data then markUseful t now else t.

(** [parseSSEEventForObservation] *)
Definition observation_line (acc : string * list string) (rawLine : bytes) : string * list string :=
  let line := TrimSpace (to_string (Sse.trim_last CR rawLine)) in
  if str_eq line "" || HasPrefix line ":" then acc
  else if HasPrefix line "event:" then (TrimSpace (TrimPrefix line "event:"), acc.2)
  else if HasPrefix line "data:" then (acc.1, acc.2 ++ [TrimSpace (TrimPrefix line "data:")])
  else acc.

Definition parseSSEEventForObservation (event : bytes) : string * string :=
  let '(eventName, dataLines) := foldl observation_line ("", []) (Usage.split_lines event) in
  (eventName, Join dataLines (to_string [LF])).

Definition maxBufferedSSEObservation : nat := 131072.

Fixpoint phase_loop (fuel : nat) (t : responsePhaseTracker) (now : Time) : responsePhaseTracker :=
  match fuel with
  | O => t
  | S fuel =>
      match Usage.nextSSEEventDelimiter (sseBuffer t) with
      | None => t
      | Some (index, delimiterLength) =>
          let '(eventName, data) := parseSSEEventForObservation (take index (sseBuffer t)) in
          let t := Build_responsePhaseTracker (T_route t) (startedAt t) (firstUsefulAt t)
                     (drop (index + delimiterLength) (sseBuffer t)) (diagnosticError t) in
          phase_loop fuel (observeSSEEvent t eventName data now) now
      end
  end.

Definition observeSSE (t : responsePhaseTracker) (chunk : bytes) (now : Time) : responsePhaseTracker :=
  if bool_decide (chunk = []) then t
  else
    let b := sseBuffer t ++ chunk in
    let b := if bool_decide (maxBufferedSSEObservation < length b)%nat
             then drop (length b - maxBufferedSSEObservation) b else b in
    phase_loop (S (length b))
      (Build_responsePhaseTracker (T_route t) (startedAt t) (firstUsefulAt t) b (diagnosticError t)) now.

Definition diagnosticErrorFor (t : responsePhaseTracker) (route : string) : string :=
  if negb (str_eq (diagnosticError t) "") then diagnosticError t
  else if isGenerationRoute route && time_is_zero (firstUsefulAt t) then "upstream_generation_missing"
  else "".

Definition phase_snapshot (t : responsePhaseTracker) (now : Time) : ResponseTiming :=
  if time_is_zero (startedAt t) then no_timing
  else Build_ResponseTiming None (elapsedMilliseconds (startedAt t) (firstUsefulAt t))
         (elapsedMilliseconds (startedAt t) now).
(** ** Routes *)

Definition isResponsesSubroute (path : string) : bool :=
  if negb (HasPrefix path "/v1/responses/") then false
  else
    let rest := TrimPrefix path "/v1/responses/" in
    if str_eq rest "" || Contains rest "//" then false
    else match Split rest "/" with
         | [_] => true
         | [_; second] => str_eq second "input_items"
         | _ => false
         end.

Definition isSupportedRoute (r : Request) : bool :=
  (str_eq (Method r) "GET" && str_eq (Path r) "/v1/models") ||
  (str_eq (Method r) "POST" && str_eq (Path r) "/v1/chat/completions") ||
  (str_eq (Method r) "POST" && str_eq (Path r) "/v1/responses") ||
  (str_eq (Method r) "GET" && isResponsesSubroute (Path r)).

Definition routeRequiresModel (r : Request) : bool :=
  str_eq (Method r) "POST" && (str_eq (Path r) "/v1/chat/completions" || str_eq (Path r) "/v1/responses").

Definition endpointForRequest (r : Request) : string :=
  if negb (str_eq (Method r) "POST") then
    if str_eq (Method r) "GET" && isResponsesSubroute (Path r) then EndpointResponses else ""
  else if str_eq (Path r) "/v1/chat/completions" then EndpointChatCompletions
  else if str_eq (Path r) "/v1/responses" then EndpointResponses
  else "".

Definition responseIDForAffinityLookup (r : Request) (previousResponseID : string) : string :=
  if str_eq (Method r) "POST" && str_eq (Path r) "/v1/responses" then TrimSpace previousResponseID
  else if negb (str_eq (Method r) "GET") || negb (isResponsesSubroute (Path r)) then ""
  else TrimSpace (Cut (TrimPrefix (Path r) "/v1/responses/") "/").1.

Definition bearerToken (h : string) : option string :=
  match Cut (TrimSpace h) " " with
  | (scheme, Some token) =>
      if negb (EqualFold scheme "Bearer") || str_eq (TrimSpace token) "" then None else Some (TrimSpace token)
  | _ => None
  end.

Definition stickySessionIDFromHeader (h : header) : string :=
  let sessionID := TrimSpace (h_get h "session_id") in
  if negb (str_eq sessionID "") then sessionID else TrimSpace (h_get h "X-N2API-Session-ID").

Definition apiKeyRoutingPool (key : APIKey) : Z * string :=
  match K_RoutingPoolID key with
  | Some id => if bool_decide (id ≤ 0) then (0, "") else (id, TrimSpace (K_RoutingPoolName key))
  | None => (0, "")
  end.

Definition APIKeyModelPolicyAll : string := "all".
Definition APIKeyModelPolicySelected : string := "selected".

Definition apiKeyAllowsModel (key : APIKey) (model : string) : bool :=
  if str_eq (ModelPolicy key) "" || str_eq (ModelPolicy key) APIKeyModelPolicyAll then true
  else if str_eq (ModelPolicy key) APIKeyModelPolicySelected
  then existsb (str_eq (TrimSpace model)) (AllowedModels key)
  else false.

(** The routing pool of a selection for the request log. *)
Record pool_log := { PL_ID : Z; PL_Name : string; PL_Depth : Z; PL_Chain : string; PL_Error : string }.

Definition selectedRoutingPoolLogFields (selected : SelectedAccount) (fallbackID : Z) (fallbackName : string)
  : pool_log :=
  {| PL_ID := if bool_decide (0 < RoutingPoolID selected) then RoutingPoolID selected else fallbackID;
     PL_Name := if str_eq (TrimSpace (RoutingPoolName selected)) "" then TrimSpace fallbackName
                else TrimSpace (RoutingPoolName selected);
     PL_Depth := RoutingPoolFallbackDepth selected;
     PL_Chain := TrimSpace (RoutingPoolFallbackChain selected);
     PL_Error := TrimSpace (RoutingPoolError selected) |}.

Definition selectedProviderName (a : SelectedAccount) : string :=
  let p := TrimSpace (S_Provider a) in if str_eq p "" then "openai" else p.

Definition containsInt64 (values : list Z) (target : Z) : bool := existsb (fun v => bool_decide (v = target)) values.
Definition appendUniqueInt64 (values : list Z) (value : Z) : list Z :=
  if bool_decide (value = 0) || containsInt64 values value then values else values ++ [value].

(** ** Error codes and messages *)

Definition body_timeout (e : body_error) : bool :=
  match e with BodyTimeout | BodyCtx DeadlineExceeded => true | _ => false end.

Definition requestBodyErrorCode (e : body_error) : string :=
  if body_timeout e then "request_body_timeout"
  else match e with
  | errRequestBodyDeadline => "request_body_deadline_error"
  | errRequestBodyTooLarge => "request_too_large"
  | errInvalidJSONBody => "invalid_request"
  | errModelNotFound | BodyInvalidInput => "model_not_found"
  | _ => "upstream_request_error"
  end.

Definition requestBodyErrorStatus (e : body_error) : Z :=
  if body_timeout e then 408
  else match e with
  | errRequestBodyDeadline => 500
  | errRequestBodyTooLarge => 413
  | errInvalidJSONBody | errModelNotFound | BodyInvalidInput => 400
  | _ => 502
  end.

Definition requestBodyErrorMessage (e : body_error) : string :=
  if body_timeout e then "request body read timed out"
  else match e with
  | errRequestBodyDeadline => "could not clear request body deadline"
  | errRequestBodyTooLarge => "request body is too large"
  | errInvalidJSONBody => "request body must be valid JSON"
  | errModelNotFound | BodyInvalidInput => "requested model is not available"
  | _ => "could not read upstream request"
  end.

Definition retryableUpstreamStatus (statusCode : Z) : bool :=
  bool_decide (statusCode = 401) || bool_decide (statusCode = 403) || bool_decide (statusCode = 429) ||
  bool_decide (500 ≤ statusCode).

Definition authorizationFailureStatus (statusCode : Z) : bool :=
  bool_decide (statusCode = 401) || bool_decide (statusCode = 403).

Definition upstreamStatusErrorCode (statusCode : Z) : string :=
  if bool_decide (statusCode = 401) then "upstream_unauthorized"
  else if bool_decide (statusCode = 403) then "upstream_forbidden"
  else if bool_decide (statusCode = 429) then "upstream_rate_limited"
  else if bool_decide (500 ≤ statusCode) then "upstream_unavailable"
  else "upstream_error".

Definition upstreamRequestErrorCode (e : send_error) : string :=
  match e with SendTimeout | SendDeadline => "upstream_timeout" | _ => "upstream_unavailable" end.

Definition upstreamRequestErrorMessage (code : string) : string :=
  if str_eq code "upstream_timeout" then "upstream request timed out" else "upstream request failed".

Definition upstreamHTTPOutcome (statusCode : Z) : string := if success statusCode then "success" else "http_error".

Definition upstreamTransportOutcome (ctx : option ctx_error) (e : send_error) : string :=
  match e, ctx with
  | SendCanceled, _ | _, Some Canceled => "canceled"
  | _, _ => "transport_error"
  end.

Definition budgetMetricReason (errorCode : string) : string :=
  if str_eq errorCode "api_key_request_budget_exceeded" then "request_budget"
  else if str_eq errorCode "api_key_token_budget_exceeded" then "token_budget"
  else if str_eq errorCode "api_key_cost_budget_exceeded" then "cost_budget"
  else "other".

Definition providerErrorCode (e : perror) : string :=
  if is_err e ErrNotConnected then "provider_not_connected"
  else if is_err e ErrNotConfigured then "provider_not_configured"
  else if is_err e ErrAccountsDisabled then "provider_accounts_disabled"
  else if is_err e ErrRoutingPoolCycle then "routing_pool_cycle"
  else if is_err e ErrRoutingPoolNotFound then "routing_pool_unavailable"
  else if is_err e ErrRoutingPoolEmpty then "routing_pool_empty"
  else if is_err e ErrRoutingPoolExhausted then "routing_pool_exhausted"
  else if is_err e ErrAccountsUnavailable then "provider_accounts_unavailable"
  else if is_err e ErrModelUnavailable then "model_unavailable"
  else if is_err e ErrEndpointUnavailable then "endpoint_unavailable"
  else "upstream_token_error".

Definition providerErrorCodeForSelection (e : perror) (selected : SelectedAccount) : string :=
  if is_err e ErrAccountsDisabled &&
     str_eq (TrimSpace (RoutingPoolError selected)) Scheduling.RoutingPoolErrorDisabled
  then Scheduling.RoutingPoolErrorDisabled
  else if is_err e ErrModelUnavailable &&
     str_eq (TrimSpace (RoutingPoolError selected)) Scheduling.RoutingPoolErrorExhausted
  then Scheduling.RoutingPoolErrorExhausted
  else providerErrorCode e.

Definition providerErrorMessage (code : string) : string :=
  if str_eq code "provider_not_connected" then "provider account is not connected"
  else if str_eq code "provider_not_configured" then "provider account is not configured"
  else if str_eq code "provider_accounts_disabled" then "provider accounts are disabled"
  else if str_eq code "routing_pool_cycle" then "routing pool fallback chain contains a cycle"
  else if str_eq code "routing_pool_unavailable" then "routing pool is unavailable"
  else if str_eq code "routing_pool_empty" then "routing pool has no eligible accounts"
  else if str_eq code "routing_pool_disabled" then "routing pool is disabled"
  else if str_eq code "routing_pool_exhausted" then "routing pool fallback chain is exhausted"
  else if str_eq code "provider_accounts_unavailable" then "provider accounts are unavailable"
  else if str_eq code "model_unavailable" then "requested model is not available"
  else if str_eq code "endpoint_unavailable"
  then "requested model is not supported by any eligible account for this endpoint"
  else "provider token lookup failed".

Definition upstreamResponseErrorCode (e : write_error) : string :=
  match e with
  | errUpstreamResponseTooLarge => "upstream_response_too_large"
  | errUpstreamModelError => "upstream_model_error"
  | errUpstreamGenerationMissing => "upstream_generation_missing"
  | errUpstreamSSEIdleTimeout => "upstream_sse_idle_timeout"
  | errUpstreamSSETerminalMissing => "upstream_sse_terminal_missing"
  | errUpstreamSSETruncated => "upstream_sse_truncated"
  | errUpstreamSSEMalformed => "upstream_sse_malformed"
  | errUpstreamSSEError => "upstream_sse_error"
  | errUpstreamResponseFailed => "upstream_response_failed"
  | errUpstreamResponseIncomplete => "upstream_response_incomplete"
  | errUpstreamResponseCanceled => "upstream_response_canceled"
  | errUpstreamResponseDeadline => "upstream_response_timeout"
  | errUpstreamResponseRead | ClientWriteFailed => "upstream_response_error"
  end.

Definition upstreamResponseErrorMessage (e : write_error) : string :=
  match e with
  | errUpstreamResponseTooLarge => "upstream response is too large"
  | errUpstreamModelError => "upstream response reported a model error"
  | errUpstreamGenerationMissing => "upstream response contained no generated output"
  | errUpstreamSSEIdleTimeout => "upstream stream timed out"
  | errUpstreamSSETerminalMissing => "upstream SSE stream ended without a terminal response"
  | errUpstreamSSETruncated => "upstream SSE stream ended before an event was complete"
  | errUpstreamSSEMalformed => "upstream SSE stream contained malformed data"
  | errUpstreamSSEError => "upstream SSE stream reported an error"
  | errUpstreamResponseFailed => "upstream response failed"
  | errUpstreamResponseIncomplete => "upstream response was incomplete"
  | errUpstreamResponseCanceled => "upstream response was canceled"
  | errUpstreamResponseDeadline => "upstream response timed out"
  | errUpstreamResponseRead | ClientWriteFailed => "could not read upstream response"
  end.

(** ** Passing upstream errors through *)

(** A struct with string fields [code] and [message] under [error]. *)
Definition upstreamErrorFields (raw : string) : string * string :=
  let raw := TrimSpace raw in
  if str_eq raw "" then ("", "")
  else match (ms ← unmarshal_struct raw;
              err ← struct_field "error" ms;
              code ← string_field "code" err;
              message ← string_field "message" err;
              Some (code, message)) with
       | Some (code, message) => (TrimSpace code, TrimSpace message)
       | None => ("", "")
       end.

Definition rule_matches (status errorCode errorMessage : string) (rule : ErrorPassthroughRule) : bool :=
  let pattern := TrimSpace (Pattern rule) in
  if negb (Enabled rule) || str_eq pattern "" then false
  else if str_eq (MatchType rule) "status_code" then str_eq pattern status
  else if str_eq (MatchType rule) "error_code" then EqualFold pattern (TrimSpace errorCode)
  else if str_eq (MatchType rule) "error_message" then Contains (ToLower errorMessage) (ToLower pattern)
  else false.

Definition passes_through (rules : list ErrorPassthroughRule) (statusCode : Z) (failureBody : string) : bool :=
  let '(errorCode, errorMessage) := upstreamErrorFields failureBody in
  let errorMessage := if str_eq (TrimSpace errorMessage) "" then failureBody else errorMessage in
  existsb (rule_matches (FormatInt statusCode) errorCode errorMessage) rules.

Definition isEndpointPermissionFailure (failureBody : string) : bool :=
  let '(_, message) := upstreamErrorFields failureBody in
  let message := if str_eq message "" then failureBody else message in
  let lower := ToLower (TrimSpace message) in
  Contains lower "missing scopes" || Contains lower "api.responses.write" ||
  (Contains lower "insufficient permissions" && Contains lower "scope").

Definition maxFailureBody : nat := 65536.

(** [io.ReadAll(io.LimitReader(body, n))]: at most [n] bytes, or the error. *)
Fixpoint read_limited (n : nat) (reads : list read_result) : bytes * option Sse.read_error :=
  match n, reads with
  | O, _ | _, [] => ([], None)
  | _, r :: reads =>
      let data := take n (rd_data r) in
      match rd_err r with
      | Some Sse.ReadEOF => (data, None)
      | Some e => if bool_decide (n ≤ length (rd_data r))%nat then (data, None) else (data, Some e)
      | None => let '(rest, e) := read_limited (n - length data) reads in (data ++ rest, e)
      end
  end.

(** What the body delivers after the first [n] bytes. *)
Fixpoint skip_read (n : nat) (reads : list read_result) : list read_result :=
  match reads with
  | [] => []
  | r :: reads' =>
      if bool_decide (length (rd_data r) < n)%nat
      then match rd_err r with
           | None => skip_read (n - length (rd_data r)) reads'
           | Some _ => [{| rd_data := []; rd_err := rd_err r; rd_idle := rd_idle r |}]
           end
      else {| rd_data := drop n (rd_data r); rd_err := rd_err r; rd_idle := rd_idle r |} :: reads'
  end.

(** [captureFailure]: the message and the text of a failure, and the response
    with the bytes read put back in front. *)
Definition captureFailure (resp : Response) : string * string * Response :=
  let reads := b_reads (Body resp) in
  let '(data, err) := read_limited (S maxFailureBody) reads in
  let resp' := {| StatusCode := StatusCode resp; R_Header := R_Header resp;
                  Body := {| b_id := b_id (Body resp);
                             b_reads := {| rd_data := data; rd_err := None; rd_idle := false |}
                                        :: skip_read (length data) reads |} |} in
  match err with
  | Some _ => (upstreamStatusErrorCode (StatusCode resp), "", resp')
  | None =>
      let failureBody := TrimSpace (to_string (take maxFailureBody data)) in
      let message :=
        if bool_decide (StatusCode resp = 403) && isEndpointPermissionFailure failureBody
        then "upstream_endpoint_permission_denied: missing scopes"
        else upstreamStatusErrorCode (StatusCode resp) in
      (message, failureBody, resp')
  end.
(** ** The upstream request *)

Definition isHopByHopHeader (key : string) : bool :=
  existsb (str_eq (ToLower key))
    ["connection"; "keep-alive"; "proxy-authenticate"; "proxy-authorization"; "te"; "trailer";
     "transfer-encoding"; "upgrade"].

Definition add_values (dst : header) (key : string) (values : list string) : header :=
  foldl (fun h v => h_add h key v) dst values.

(** The range over a map visits every key once, here in the order of the map's
    list. *)
Definition copyRequestHeaders (dst src : header) : header :=
  foldl (fun h kv => if isHopByHopHeader kv.1 || EqualFold kv.1 "Authorization" then h
                     else add_values h kv.1 kv.2) dst (map_to_list src).

(** The headers of the response that are copied to the client. *)
Definition copied_response_headers (src : header) : list (string * string) :=
  concat (map (fun kv => map (fun v => (kv.1, v)) kv.2)
    (filter (fun kv => isHopByHopHeader kv.1 || EqualFold kv.1 "X-Request-ID" = false) (map_to_list src))).

Definition maxUpstreamRequestIDLength : Z := 200.

Definition utf8_valid (s : string) : bool :=
  bool_decide (concat (characters_of s) = String.list_ascii_of_string s).

Definition responseUpstreamRequestID (resp : Response) : string :=
  let requestID := TrimSpace (h_get (R_Header resp) "X-Request-ID") in
  if str_eq requestID "" || bool_decide (maxUpstreamRequestIDLength < go_len requestID) ||
     negb (utf8_valid requestID) || existsb is_control (characters_of requestID)
  then "" else requestID.

Definition usesCodexResponsesEndpoint (r : Request) (selected : SelectedAccount) : bool :=
  str_eq (S_AccountType selected) AccountTypeCodexOAuth && str_eq (Method r) "POST" &&
  str_eq (Path r) "/v1/responses" && negb (str_eq (TrimSpace (ChatGPTAccountID selected)) "").

Definition shouldStreamUpstreamResponse (r : Request) (selected : SelectedAccount) (resp : Response) : bool :=
  if Contains (ToLower (h_get (R_Header resp) "Content-Type")) "text/event-stream" then true
  else success (StatusCode resp) && usesCodexResponsesEndpoint r selected.

Definition shouldStreamUpstreamResponseForClient (r : Request) (selected : SelectedAccount) (resp : Response)
    (clientStream : bool) : bool :=
  if usesCodexResponsesEndpoint r selected && negb clientStream then false
  else shouldStreamUpstreamResponse r selected resp.

Definition shouldAggregateOAuthResponses (r : Request) (selected : SelectedAccount) (resp : Response)
    (clientStream : bool) : bool :=
  if clientStream || negb (usesCodexResponsesEndpoint r selected) then false else success (StatusCode resp).

Definition upstreamURLBaseAndPath (baseURL routePath : string) : string * string :=
  let baseURL := TrimRightSlash (TrimSpace baseURL) in
  let routePath := "/" +++ TrimLeftSlash (TrimSpace routePath) in
  if HasSuffix baseURL "/v1" && HasPrefix routePath "/v1/" then (TrimSuffix baseURL "/v1", routePath)
  else (baseURL, routePath).

Definition normalizeTLSFingerprintName (fingerprint : string) : string :=
  let replace a := if bool_decide (a = "_"%char) || bool_decide (a = " "%char) then "-"%char else a in
  let f := String.string_of_list_ascii
             (map replace (String.list_ascii_of_string (TrimSpace (ToLower fingerprint)))) in
  let among := existsb (str_eq f) in
  if among ["chrome"; "hellochrome"; "hellochrome-auto"; "chrome-auto"] then "chrome"
  else if among ["firefox"; "hellofirefox"; "hellofirefox-auto"; "firefox-auto"] then "firefox"
  else if among ["safari"; "hellosafari"; "hellosafari-auto"; "safari-auto"] then "safari"
  else if among ["ios"; "helloios"; "helloios-auto"; "ios-auto"] then "ios"
  else if among ["android"; "android-okhttp"; "helloandroid"; "helloandroid-11-okhttp"] then "android"
  else if among ["edge"; "helloedge"; "helloedge-auto"; "edge-auto"] then "edge"
  else if among ["random"; "randomized"; "hellorandomized"] then "randomized"
  else if among ["randomized-alpn"; "hellorandomizedalpn"] then "randomized-alpn"
  else if among ["randomized-no-alpn"; "hellorandomizednoalpn"] then "randomized-no-alpn"
  else if among ["go"; "golang"; "hello-golang"; "hellogolang"] then "golang"
  else "".

Definition defaultCodexUserAgent : string :=
  "codex-tui/0.135.0 (Mac OS 26.5.0; arm64) iTerm.app/3.6.10 (codex-tui; 0.135.0)".
Definition DefaultCodexFingerprintOriginator : string := "codex-tui".
Definition DefaultCodexFingerprintVersion : string := "0.135.0".
Definition defaultCodexInstructions : string := "You are Codex, a coding agent.".

(** [m[k] = v] on a decoded object. *)
Definition put (ms : Usage.object) (k : string) (v : json) : Usage.object :=
  filter (fun m => m.1 ≠ k) ms ++ [(k, ("", v))].

Section upstream.
Variable json_Marshal : Usage.object → string.
Variable upstream_url : string → string → option string.

(** [None]: assignment to an entry of a nil map, which panics. *)
Definition normalizeCodexResponsesBody (raw : string) : option string :=
  if str_eq (TrimSpace raw) "" then Some raw
  else match unmarshal_map raw with
  | None => Some raw
  | Some None => None
  | Some (Some payload) =>
      let payload := put payload "stream" (JBool true) in
      let payload := put payload "store" (JBool false) in
      let payload :=
        match as_string (get payload "instructions") with
        | Some i => if str_eq (TrimSpace i) "" then put payload "instructions" (JString defaultCodexInstructions)
                    else payload
        | None => put payload "instructions" (JString defaultCodexInstructions)
        end in
      let payload :=
        match as_string (get payload "input") with
        | Some input =>
            put payload "input"
              (JArray [JObject [("type", ("", JString "message")); ("role", ("", JString "user"));
                                ("content", ("", JString input))]])
        | None => payload
        end in
      Some (json_Marshal payload)
  end.

Record proxy_urls := { upstreamBaseURL : string; codexBaseURL : string }.

Definition codex_headers (h : header) (selected : SelectedAccount) : header :=
  let h := h_set h "chatgpt-account-id" (TrimSpace (ChatGPTAccountID selected)) in
  let h := h_set h "Accept" "text/event-stream" in
  let h := h_set h "OpenAI-Beta" "responses=experimental" in
  let h := h_set h "originator" DefaultCodexFingerprintOriginator in
  let h := h_set h "User-Agent" defaultCodexUserAgent in
  let h := h_set h "Version" DefaultCodexFingerprintVersion in
  h_set h "Content-Type" "application/json".

(** The header of the upstream request. *)
Definition upstream_header (r : Request) (selected : SelectedAccount) (correlationID : string) : header :=
  let h := copyRequestHeaders ∅ (Header r) in
  let h := h_set h "X-Request-ID" correlationID in
  let h := h_set h "Authorization" ("Bearer " +++ AuthorizationToken selected) in
  let h := if usesCodexResponsesEndpoint r selected then codex_headers h selected else h in
  let h := if str_eq (TrimSpace (FingerprintUA selected)) "" then h
           else h_set h "User-Agent" (TrimSpace (FingerprintUA selected)) in
  foldl (fun h kv => h_set h kv.1 kv.2) h (map_to_list (default ∅ (FingerprintHeaders selected))).

(** [newUpstreamRequest]; [correlationID] is the request's identifier and
    [reqBody] its body.  The outer option is the panic of the body's
    normalisation, the inner one an error. *)
Definition newUpstreamRequest (urls : proxy_urls) (r : Request) (selected : SelectedAccount)
    (correlationID : string) (reqBody : option string) : option (option upstream_request) :=
  let codex := usesCodexResponsesEndpoint r selected in
  let '(base, path) :=
    if codex then (codexBaseURL urls, "/responses")
    else
      let selectedBaseURL := TrimRightSlash (TrimSpace (S_BaseURL selected)) in
      if str_eq selectedBaseURL "" then (upstreamBaseURL urls, Path r)
      else upstreamURLBaseAndPath selectedBaseURL (Path r) in
  reqBody ← (if codex then
               match reqBody with
               | None => Some None
               | Some raw => Some <$> normalizeCodexResponsesBody raw
               end
             else Some reqBody);
  Some (url ← upstream_url (base +++ path) (RawQuery r);
        Some {| U_Method := Method r; U_URL := url; U_Header := upstream_header r selected correlationID;
                U_Body := reqBody; U_TLS := normalizeTLSFingerprintName (FingerprintTLS selected) |}).

(** ** The request body *)

Record prepared := {
  P_body : option string; P_maxAttempts : Z; P_model : string; P_session : string;
  P_previous : string; P_stream : bool
}.

Definition maxReplayableAttempts : Z := 5.

(** A member that must be a string if it is there. *)
Definition string_member (payload : Usage.object) (k : string) : option string :=
  match get payload k with
  | None => Some ""
  | Some (JString s) => Some (TrimSpace s)
  | Some _ => None
  end.

Definition bool_member (payload : Usage.object) (k : string) : option bool :=
  match get payload k with
  | None => Some false
  | Some (JBool b) => Some b
  | Some _ => None
  end.

(** The fields of a model request: model, session, previous response, stream. *)
Definition model_request_fields (payload : Usage.object) : option (string * string * string * bool) :=
  model ← string_member payload "model";
  session ← string_member payload "session_id";
  previous ← string_member payload "previous_response_id";
  stream ← bool_member payload "stream";
  Some (model, session, previous, stream).

(** [json.Unmarshal] of the body into a fresh map: [None] is an error, the
    inner option tells whether the map is nil afterwards. *)
Definition request_payload (raw : string) : option (option Usage.object) :=
  if str_eq (TrimSpace raw) "" then Some (Some []) else unmarshal_map raw.

End upstream.
End GatewayPure.
