(* ===== verification/Gateway.v ===== *)
(** * The gateway: serving a request

    [ServeHTTP] of [gateway/proxy.go] and what it calls, as programs over the
    environment's calls: authentication and limits, the preparation of the
    body, response affinity and account selection, the attempts with their
    fallbacks and the refresh of a rejected authorisation, the delivery of the
    upstream response ([gateway/response_writer.go],
    [gateway/oauth_responses.go]) and the settlement, metrics and log entry that
    end every authenticated request.

    The variables the deferred function captures are the record [locals]; a
    deferred call is placed after the code it is deferred for, which is when Go
    runs it, also when that code panics. *)

From S2P Require Import Prelude GoStrings Json Sse Usage Effects Limiters Ledger Account Scheduling.
From S2P Require Import GatewayTypes GatewayPure.
From Stdlib Require Import Ascii.
From Stdlib Require String.

Module Gateway.
Import Account Json GatewayTypes GatewayPure.

Abbreviation P := (prog cmd).

Definition call {R : Set} (c : cmd R) : P R := Vis c Ret.

(** ** The proxy *)

(** The interfaces the account provider implements. *)
Record provider_caps := {
  cap_affinity : bool; cap_affinity_endpoint : bool;
  cap_chain_endpoint : bool; cap_chain : bool; cap_pool_endpoint : bool; cap_pool : bool;
  cap_sticky_endpoint : bool; cap_sticky : bool; cap_endpoint : bool;
  cap_usage : bool; cap_recovery : bool; cap_failure : bool; cap_refresh : bool
}.

(** Which collaborators are configured (not nil), and the limits. *)
Record Proxy := {
  has_auth : bool; has_accounts : bool; caps : provider_caps; has_settings : bool;
  staticSettings : GatewaySettings; has_logger : bool; has_models : bool; models_by_pool : bool;
  has_pricer : bool; has_budgets : bool; has_rules : bool; has_affinities : bool; has_metrics : bool;
  maxAcceptedBody : Z; maxReplayBody : Z; maxResponseBody : Z;
  requestBodyTimeout : Duration; affinityTTL : Duration; urls : proxy_urls
}.

Section proxy.
Variable json_Marshal : Usage.object → string.
Variable upstream_url : string → string → option string.
Variable p : Proxy.

(** ** Local variables of a request *)

Record locals := {
  l_errorCode : string;
  l_account : SelectedAccount;
  l_pool : pool_log;
  l_model : string;
  l_session : string;
  l_usage : Usage.Usage;
  l_admission : string;
  l_upstreamID : string;
  l_attemptCount : Z;
  l_fallbackCount : Z;
  l_diag : requestDiagnostics;
  l_status : Z;
  l_stream : bool;
  l_accountType : string;
  l_metricsFinished : bool;
  l_panicked : bool
}.

Definition set_errorCode (v : string) (l : locals) : locals :=
  Build_locals v (l_account l) (l_pool l) (l_model l) (l_session l) (l_usage l) (l_admission l) (l_upstreamID l) (l_attemptCount l) (l_fallbackCount l) (l_diag l) (l_status l) (l_stream l) (l_accountType l) (l_metricsFinished l) (l_panicked l).
Definition set_account (v : SelectedAccount) (l : locals) : locals :=
  Build_locals (l_errorCode l) v (l_pool l) (l_model l) (l_session l) (l_usage l) (l_admission l) (l_upstreamID l) (l_attemptCount l) (l_fallbackCount l) (l_diag l) (l_status l) (l_stream l) (l_accountType l) (l_metricsFinished l) (l_panicked l).
Definition set_pool (v : pool_log) (l : locals) : locals :=
  Build_locals (l_errorCode l) (l_account l) v (l_model l) (l_session l) (l_usage l) (l_admission l) (l_upstreamID l) (l_attemptCount l) (l_fallbackCount l) (l_diag l) (l_status l) (l_stream l) (l_accountType l) (l_metricsFinished l) (l_panicked l).
Definition set_model (v : string) (l : locals) : locals :=
  Build_locals (l_errorCode l) (l_account l) (l_pool l) v (l_session l) (l_usage l) (l_admission l) (l_upstreamID l) (l_attemptCount l) (l_fallbackCount l) (l_diag l) (l_status l) (l_stream l) (l_accountType l) (l_metricsFinished l) (l_panicked l).
Definition set_session (v : string) (l : locals) : locals :=
  Build_locals (l_errorCode l) (l_account l) (l_pool l) (l_model l) v (l_usage l) (l_admission l) (l_upstreamID l) (l_attemptCount l) (l_fallbackCount l) (l_diag l) (l_status l) (l_stream l) (l_accountType l) (l_metricsFinished l) (l_panicked l).
Definition set_usage (v : Usage.Usage) (l : locals) : locals :=
  Build_locals (l_errorCode l) (l_account l) (l_pool l) (l_model l) (l_session l) v (l_admission l) (l_upstreamID l) (l_attemptCount l) (l_fallbackCount l) (l_diag l) (l_status l) (l_stream l) (l_accountType l) (l_metricsFinished l) (l_panicked l).
Definition set_admission (v : string) (l : locals) : locals :=
  Build_locals (l_errorCode l) (l_account l) (l_pool l) (l_model l) (l_session l) (l_usage l) v (l_upstreamID l) (l_attemptCount l) (l_fallbackCount l) (l_diag l) (l_status l) (l_stream l) (l_accountType l) (l_metricsFinished l) (l_panicked l).
Definition set_upstreamID (v : string) (l : locals) : locals :=
  Build_locals (l_errorCode l) (l_account l) (l_pool l) (l_model l) (l_session l) (l_usage l) (l_admission l) v (l_attemptCount l) (l_fallbackCount l) (l_diag l) (l_status l) (l_stream l) (l_accountType l) (l_metricsFinished l) (l_panicked l).
Definition set_attemptCount (v : Z) (l : locals) : locals :=
  Build_locals (l_errorCode l) (l_account l) (l_pool l) (l_model l) (l_session l) (l_usage l) (l_admission l) (l_upstreamID l) v (l_fallbackCount l) (l_diag l) (l_status l) (l_stream l) (l_accountType l) (l_metricsFinished l) (l_panicked l).
Definition set_fallbackCount (v : Z) (l : locals) : locals :=
  Build_locals (l_errorCode l) (l_account l) (l_pool l) (l_model l) (l_session l) (l_usage l) (l_admission l) (l_upstreamID l) (l_attemptCount l) v (l_diag l) (l_status l) (l_stream l) (l_accountType l) (l_metricsFinished l) (l_panicked l).
Definition set_diag (v : requestDiagnostics) (l : locals) : locals :=
  Build_locals (l_errorCode l) (l_account l) (l_pool l) (l_model l) (l_session l) (l_usage l) (l_admission l) (l_upstreamID l) (l_attemptCount l) (l_fallbackCount l) v (l_status l) (l_stream l) (l_accountType l) (l_metricsFinished l) (l_panicked l).
Definition set_status (v : Z) (l : locals) : locals :=
  Build_locals (l_errorCode l) (l_account l) (l_pool l) (l_model l) (l_session l) (l_usage l) (l_admission l) (l_upstreamID l) (l_attemptCount l) (l_fallbackCount l) (l_diag l) v (l_stream l) (l_accountType l) (l_metricsFinished l) (l_panicked l).
Definition set_stream (v : bool) (l : locals) : locals :=
  Build_locals (l_errorCode l) (l_account l) (l_pool l) (l_model l) (l_session l) (l_usage l) (l_admission l) (l_upstreamID l) (l_attemptCount l) (l_fallbackCount l) (l_diag l) (l_status l) v (l_accountType l) (l_metricsFinished l) (l_panicked l).
Definition set_accountType (v : string) (l : locals) : locals :=
  Build_locals (l_errorCode l) (l_account l) (l_pool l) (l_model l) (l_session l) (l_usage l) (l_admission l) (l_upstreamID l) (l_attemptCount l) (l_fallbackCount l) (l_diag l) (l_status l) (l_stream l) v (l_metricsFinished l) (l_panicked l).
Definition set_metricsFinished (v : bool) (l : locals) : locals :=
  Build_locals (l_errorCode l) (l_account l) (l_pool l) (l_model l) (l_session l) (l_usage l) (l_admission l) (l_upstreamID l) (l_attemptCount l) (l_fallbackCount l) (l_diag l) (l_status l) (l_stream l) (l_accountType l) v (l_panicked l).
Definition set_panicked (v : bool) (l : locals) : locals :=
  Build_locals (l_errorCode l) (l_account l) (l_pool l) (l_model l) (l_session l) (l_usage l) (l_admission l) (l_upstreamID l) (l_attemptCount l) (l_fallbackCount l) (l_diag l) (l_status l) (l_stream l) (l_accountType l) (l_metricsFinished l) v.

Definition no_account : SelectedAccount :=
  {| AccountID := 0; S_Provider := ""; S_AccountType := ""; S_DisplayName := ""; AuthorizationToken := "";
     S_BaseURL := ""; ProxyURL := ""; ChatGPTAccountID := ""; S_MaxConcurrentRequests := 0; RoutingPoolID := 0;
     RoutingPoolName := ""; RoutingPoolFallbackDepth := 0; RoutingPoolFallbackChain := "";
     RoutingPoolError := ""; FingerprintUA := ""; FingerprintTLS := ""; FingerprintHeaders := None |}.

Definition init_locals (key : APIKey) : locals :=
  let '(id, name) := apiKeyRoutingPool key in
  Build_locals "" no_account {| PL_ID := id; PL_Name := name; PL_Depth := 0; PL_Chain := ""; PL_Error := "" |}
    "" "" Usage.missing "" "" 0 0 newRequestDiagnostics 0 false "none" false false.

Definition fail (code : string) (l : locals) : locals := set_errorCode code l.

(** ** The response writer *)

Definition rec_WriteHeader (status : Z) (l : locals) : P locals :=
  if negb (bool_decide (l_status l = 0)) then Ret l
  else call (WriteHeader status) ;; Ret (set_status status l).

Definition rec_Write (data : bytes) (l : locals) : P (bool * locals) :=
  let l := if bool_decide (l_status l = 0) then set_status 200 l else l in
  let! ok := call (Write data) in Ret (ok, l).

Definition statusCode (l : locals) : Z := if bool_decide (l_status l = 0) then 200 else l_status l.
Definition committed (l : locals) : bool := negb (bool_decide (l_status l = 0)).

(** The encoded error object; the encoder ends it with a line feed. *)
Definition error_body (code message : string) : bytes :=
  of_string (quoted ("{'error':{'code':'" +++ code +++ "','message':'" +++ message +++
                     "','type':'n2api_error'}}")) ++ [LF].

Definition writeOpenAIError (status : Z) (code message : string) (l : locals) : P locals :=
  call (SetHeader "Content-Type" "application/json") ;;
  let! l := rec_WriteHeader status l in
  let! (_, l) := rec_Write (error_body code message) l in
  Ret l.

(** The error answers before a recorder exists or matters. *)
Definition early_error (status : Z) (code message : string) : P Z :=
  call (SetHeader "Content-Type" "application/json") ;;
  call (WriteHeader status) ;;
  call (Write (error_body code message)) ;;
  Ret status.

Definition metric_call (m : metric) : P unit := if has_metrics p then call (Metric m) else Ret tt.

(** ** Limits and settings *)

Definition gatewaySettings : P GatewaySettings :=
  if negb (has_settings p) then Ret (staticSettings p)
  else let! s := call GetGatewaySettings in Ret (default (staticSettings p) s).

Definition setRetryAfterHeader (seconds : Z) : P unit :=
  if bool_decide (seconds ≤ 0) then Ret tt else call (SetHeader "Retry-After" (FormatInt seconds)).

Definition recordAPIKeyUsage (keyID tokens limit : Z) : P unit :=
  if bool_decide (tokens ≤ 0) then Ret tt else call (TokenRecord keyID tokens limit).

Definition estimateUsageCost (u : Usage.Usage) : P UsageCostEstimate :=
  if negb (has_pricer p) then Ret (Build_UsageCostEstimate false 0)
  else let! e := call (EstimateUsageCost u) in Ret (default (Build_UsageCostEstimate false 0) e).

(** ** Response affinity and account selection *)

Record responseAffinityRoute := { AR_account : Z; AR_single : bool }.

Definition affinity_enabled (a : responseAffinityRoute) : bool :=
  bool_decide (0 < AR_account a) || AR_single a.

(** [None]: the lookup failed. *)
Definition responseAffinitySelection (r : Request) (previousResponseID : string) (pool : Z) (now : Time)
  : P (option responseAffinityRoute) :=
  let responseID := responseIDForAffinityLookup r previousResponseID in
  if str_eq responseID "" || negb (has_affinities p) then Ret (Some (Build_responseAffinityRoute 0 false))
  else
    let! found := call (FindResponseAffinity responseID pool now) in
    Ret (match found with
         | None => None
         | Some (Some account) =>
             if bool_decide (account ≤ 0) then None else Some (Build_responseAffinityRoute account false)
         | Some None => Some (Build_responseAffinityRoute 0 true)
         end).

Definition select (s : selection) (excluded : list Z) : P (SelectedAccount * option select_error) :=
  let! (a, e) := call (SelectAccount s excluded) in Ret (a, option_map SelProvider e).

Definition selectGlobalAccount (model endpoint session : string) (excluded : list Z) :=
  let c := caps p in
  if negb (str_eq session "") && cap_sticky_endpoint c
  then select (SelForModelAndSessionAndEndpoint model endpoint session) excluded
  else if negb (str_eq session "") && cap_sticky c then select (SelForModelAndSession model session) excluded
  else if cap_endpoint c then select (SelForModelAndEndpoint model endpoint) excluded
  else select (SelForModel model) excluded.

Definition selectAccountForKey (key : APIKey) (model endpoint session : string) (excluded : list Z)
  : P (SelectedAccount * option select_error) :=
  let c := caps p in
  let sticky := negb (str_eq (TrimSpace session) "") in
  match K_RoutingPoolID key with
  | Some pool =>
      if bool_decide (0 < pool) then
        if cap_chain_endpoint c then
          select (if sticky then SelSessionInChainAndEndpoint pool model endpoint session
                  else SelInChainAndEndpoint pool model endpoint) excluded
        else if cap_chain c then
          select (if sticky then SelSessionInChain pool model session else SelInChain pool model) excluded
        else if cap_pool_endpoint c then
          select (if sticky then SelSessionInPoolAndEndpoint pool model endpoint session
                  else SelInPoolAndEndpoint pool model endpoint) excluded
        else if cap_pool c then
          select (if sticky then SelSessionInPool pool model session else SelInPool pool model) excluded
        else Ret (no_account, Some (SelProvider ErrAccountsUnavailable))
      else selectGlobalAccount model endpoint session excluded
  | None => selectGlobalAccount model endpoint session excluded
  end.

Definition selectAccountForRequest (key : APIKey) (model endpoint session : string)
    (affinity : responseAffinityRoute) (excluded : list Z) : P (SelectedAccount * option select_error) :=
  if negb (affinity_enabled affinity) then selectAccountForKey key model endpoint session excluded
  else if negb (cap_affinity (caps p)) then Ret (no_account, Some errResponseAffinityAccountUnavailable)
  else
    let '(pool, _) := apiKeyRoutingPool key in
    let endpoint := if cap_affinity_endpoint (caps p) then Some endpoint else None in
    if bool_decide (0 < AR_account affinity) then
      let! (a, e) := call (SelectByID pool (AR_account affinity) model endpoint) in
      Ret (a, match e with Some _ => Some errResponseAffinityAccountUnavailable | None => None end)
    else
      let! (a, unique, e) := call (SelectSingle pool model endpoint) in
      match e with
      | Some _ => Ret (a, Some errResponseAffinityAccountUnavailable)
      | None => if negb unique then Ret (no_account, Some errResponseAffinityUnknown) else Ret (a, None)
      end.

Definition recordAccountUsed (account : Z) : P bool :=
  if cap_usage (caps p) then call (RecordAccountUsed account) else Ret true.

Definition recordAccountRecovered (account : Z) : P unit :=
  if bool_decide (account ≤ 0) || negb (cap_recovery (caps p)) then Ret tt
  else call (RecordAccountRecovered account).

Definition recordAccountFailure (account status : Z) (retryAfter message : string) : P unit :=
  if bool_decide (account ≤ 0) || negb (cap_failure (caps p)) then Ret tt
  else call (RecordAccountFailure account status retryAfter message).

(** The refreshed token, whether to retry, whether a failure was recorded, and
    whether the refresh failed. *)
Definition refreshAccountAuthorization (selected : SelectedAccount) (status : Z) (message : string)
  : P (string * bool * bool * bool) :=
  if bool_decide (AccountID selected ≤ 0) || negb (str_eq (S_AccountType selected) AccountTypeCodexOAuth) ||
     negb (cap_refresh (caps p))
  then Ret ("", false, false, false)
  else call (RefreshAccountAuthorization (AccountID selected) (AuthorizationToken selected) status message).

Definition shouldPassThroughUpstreamError (status : Z) (failureBody : string) : P bool :=
  if negb (has_rules p) then Ret false
  else
    let! rules := call ListErrorPassthroughRules in
    Ret (match rules with Some rules => passes_through rules status failureBody | None => false end).

Definition persistResponseAffinity (responseID : string) (account pool : Z) (now : Time) : P unit :=
  if negb (has_affinities p) || str_eq (TrimSpace responseID) "" || bool_decide (account ≤ 0) ||
     bool_decide (pool ≤ 0) then Ret tt
  else
    let! ok := call (UpsertResponseAffinity responseID account pool (now + affinityTTL p)) in
    if ok then Ret tt else call (ProcessLog "response affinity write failed").

(** ** Listing the models *)

(** The models of [writeModelList]: identifier and owner. *)
Definition listed_models (key : APIKey) (models : list ExposedModel) : list (string * string) :=
  omap (fun m =>
    let id := TrimSpace (E_ID m) in
    if str_eq id "" then None
    else if negb (apiKeyAllowsModel key id) then None
    else Some (id, let o := TrimSpace (OwnedBy m) in if str_eq o "" then "openai" else o)) models.

Definition model_list_body (ms : list (string * string)) : Usage.object :=
  [("data", ("", JArray (map (fun m => JObject
       [("id", ("", JString m.1)); ("object", ("", JString "model")); ("created", ("", JNumber false 0 0));
        ("owned_by", ("", JString m.2))]) ms)));
   ("object", ("", JString "list"))].

(** [true]: the list was written. *)
Definition writeModelList (key : APIKey) (models : list ExposedModel) (l : locals) : P (bool * locals) :=
  call (SetHeader "Content-Type" "application/json") ;;
  rec_Write (of_string (json_Marshal (model_list_body (listed_models key models))) ++ [LF]) l.

Definition writeLocalModels (key : APIKey) (l : locals) : P (bool * locals) :=
  match K_RoutingPoolID key with
  | Some pool =>
      if has_models p && bool_decide (0 < pool) then
        if negb (models_by_pool p) then writeModelList key [] l
        else
          let! models := call (ListExposedModels pool) in
          match models with
          | None => Ret (false, l)
          | Some models => writeModelList key models l
          end
      else writeModelList key [] l
  | None => writeModelList key [] l
  end.

(** ** The request body *)

Inductive body_outcome :=
| BodyReady (b : prepared)
| BodyFailed (e : body_error)
| BodyPanicked.

Definition armRequestBodyDeadline (r : Request) : P (result deadline_error Time) :=
  if bool_decide (requestBodyTimeout p ≤ 0) || negb (str_eq (Method r) "POST") || negb (HasBody r) then Ret (Ok 0)
  else
    let! now := call Now in
    let deadline := now + requestBodyTimeout p in
    let! err := call (SetReadDeadline deadline) in
    Ret (match err with
         | Some DeadlineNotSupported => Ok 0
         | Some e => Err e
         | None => Ok deadline
         end).

Definition defaultModel : P (result body_error string) :=
  if negb (has_models p) then Ret (Err errModelNotFound)
  else
    let! m := call DefaultModel in
    Ret (match m with
         | Err e => Err e
         | Ok m => let m := TrimSpace m in if str_eq m "" then Err errModelNotFound else Ok m
         end).

(** The body to send with the model, session, previous response and streaming
    flag it names.  A body [null] leaves the map nil, and assigning the default
    model to it panics. *)
Definition normalizeModelRequestBodyWithStream (raw : string)
  : P (option (result body_error (string * string * string * string * bool))) :=
  match request_payload raw with
  | None => Ret (Some (Err errInvalidJSONBody))
  | Some payload =>
      match model_request_fields (members payload) with
      | None => Ret (Some (Err errInvalidJSONBody))
      | Some (model, session, previous, stream) =>
          if str_eq model "" then
            let! d := defaultModel in
            match d with
            | Err e => Ret (Some (Err e))
            | Ok model =>
                match payload with
                | None => Ret None
                | Some payload =>
                    Ret (Some (Ok (json_Marshal (put payload "model" (JString model)), model, session, previous, stream)))
                end
            end
          else if bool_decide (as_string (get (members payload) "model") = Some model)
          then Ret (Some (Ok (raw, model, session, previous, stream)))
          else Ret (Some (Ok (json_Marshal (put (members payload) "model" (JString model)), model, session,
                              previous, stream)))
      end
  end.

(** [io.ReadAll(io.LimitReader(r.Body, maxAcceptedBody+1))] *)
Definition limited_body (data : bytes) (err : option body_error) : result body_error bytes :=
  if bool_decide (maxAcceptedBody p < blen data) then Ok (take (Z.to_nat (maxAcceptedBody p + 1)) data)
  else match err with Some e => Err e | None => Ok data end.

Definition read_body (r : Request) : P body_outcome :=
  let! (data, err) := call ReadRequestBody in
  match limited_body data err with
  | Err e =>
      if body_timeout e then Ret (BodyFailed e)
      else
        let! ctx := call CtxErr in
        Ret (BodyFailed (match ctx with Some c => BodyCtx c | None => e end))
  | Ok limitedBody =>
      if bool_decide (maxAcceptedBody p < blen limitedBody) then Ret (BodyFailed errRequestBodyTooLarge)
      else
        let maxAttempts := if bool_decide (maxReplayBody p < blen limitedBody) then 1 else maxReplayableAttempts in
        let sticky session := if str_eq session "" then stickySessionIDFromHeader (Header r) else session in
        if routeRequiresModel r then
          let! res := normalizeModelRequestBodyWithStream (to_string limitedBody) in
          Ret (match res with
               | None => BodyPanicked
               | Some (Err e) => BodyFailed e
               | Some (Ok (raw, model, session, previous, stream)) =>
                   BodyReady (Build_prepared (Some raw) maxAttempts model (sticky session) previous stream)
               end)
        else Ret (BodyReady (Build_prepared (Some (to_string limitedBody)) maxAttempts "" (sticky "") "" false))
  end.

Definition requestBodyFactoryWithOptions (r : Request) : P body_outcome :=
  if negb (str_eq (Method r) "POST") || negb (HasBody r)
  then Ret (BodyReady (Build_prepared None maxReplayableAttempts "" (stickySessionIDFromHeader (Header r)) "" false))
  else
    let! res := (if bool_decide (maxAcceptedBody p < ContentLength r) then Ret (BodyFailed errRequestBodyTooLarge)
                 else read_body r) in
    call CloseRequestBody ;;
    Ret res.

(** ** Delivering the upstream response *)

Record observation := {
  O_Usage : Usage.Usage; O_ResponseID : string; O_StreamOutcome : string; O_DiagnosticError : string;
  O_Timing : ResponseTiming
}.

Definition missing_observation (outcome : string) : observation :=
  Build_observation Usage.missing "" outcome "" no_timing.

Definition timed (o : observation) (t : ResponseTiming) : observation :=
  Build_observation (O_Usage o) (O_ResponseID o) (O_StreamOutcome o) (O_DiagnosticError o) t.

(** The deferred [observation.ResponseTiming = tracker.snapshot()]. *)
Definition with_snapshot (t : responsePhaseTracker) (o : observation) (e : option write_error) (l : locals)
  : P (observation * option write_error * locals) :=
  let! now := call Now in Ret (timed o (phase_snapshot t now), e, l).

Fixpoint add_headers (hs : list (string * string)) : P unit :=
  match hs with
  | [] => Ret tt
  | (k, v) :: hs => call (AddHeader k v) ;; add_headers hs
  end.

Definition copyResponseHeaders (resp : Response) : P unit := add_headers (copied_response_headers (R_Header resp)).

Definition writeBufferedUpstreamResponse (resp : Response) (route : string) (l : locals)
  : P (observation * option write_error * locals) :=
  let! started := call Now in
  let tracker := newResponsePhaseTracker route started in
  let '(data, err) := read_limited (Z.to_nat (maxResponseBody p + 1)) (b_reads (Body resp)) in
  match err with
  | Some _ => with_snapshot tracker (missing_observation "") (Some errUpstreamResponseRead) l
  | None =>
      if bool_decide (maxResponseBody p < blen data)
      then with_snapshot tracker (missing_observation "") (Some errUpstreamResponseTooLarge) l
      else
        let raw := to_string data in
        let! now := call Now in
        let tracker := if responseBodyHasUsefulJSON route (StatusCode resp) raw then markUseful tracker now else tracker in
        copyResponseHeaders resp ;;
        let! l := rec_WriteHeader (StatusCode resp) l in
        let! (ok, l) := rec_Write data l in
        if negb ok then with_snapshot tracker (missing_observation "") (Some ClientWriteFailed) l
        else with_snapshot tracker
               (Build_observation (Usage.ParseUsageFromJSON route raw) (Usage.responseIDFromJSON route raw) "" "" no_timing)
               (responseBodyDiagnosticError route (StatusCode resp) raw) l
  end.

(** What the observers have seen of a stream. *)
Definition seen (o : Usage.SSEUsageObserver) (outcome diagnostic : string) : observation :=
  Build_observation (Usage.usage o) (Usage.responseID o) outcome diagnostic no_timing.

Abbreviation Observe := (Usage.Observe json_Marshal).

(** The loop of [copyStreamingResponse] over the reads of the body; a body
    whose reads are used up is at its end. *)
Fixpoint copy_loop (route : string) (reads : list read_result) (o : Usage.SSEUsageObserver)
    (t : responsePhaseTracker) (l : locals) : P (observation * option write_error * locals) :=
  let finish_read o t l err :=
    let! ctx := call CtxErr in
    match ctx with
    | Some DeadlineExceeded => with_snapshot t (seen o "server_error" "upstream_response_timeout") None l
    | Some Canceled => with_snapshot t (seen o "client_canceled" "client_canceled") None l
    | None =>
        match err with
        | Sse.ReadEOF => with_snapshot t (seen o "completed" (diagnosticErrorFor t route)) None l
        | _ => with_snapshot t (seen o "upstream_error" "") (Some errUpstreamResponseRead) l
        end
    end in
  match reads with
  | [] => finish_read o t l Sse.ReadEOF
  | r :: reads =>
      let! now := call Now in
      let '(o, t) := if bool_decide (rd_data r = []) then (o, t)
                     else (Observe o (rd_data r), observeSSE t (rd_data r) now) in
      let! (ok, l) := (if bool_decide (rd_data r = []) then Ret (true, l) else rec_Write (rd_data r) l) in
      if negb ok then with_snapshot t (seen o "client_canceled" "client_canceled") None l
      else if rd_idle r then with_snapshot t (seen o "upstream_error" "") (Some errUpstreamSSEIdleTimeout) l
      else match rd_err r with
           | Some e => finish_read o t l e
           | None => copy_loop route reads o t l
           end
  end.

Definition copyStreamingResponse (reads : list read_result) (route : string) (l : locals) :=
  let! now := call Now in
  copy_loop route reads (Usage.NewSSEUsageObserver route) (newResponsePhaseTracker route now) l.

(** *** Responses streams of OAuth accounts *)

Record oauthSSEEventResult := {
  terminal : bool; outcome : string; response : string; ev_err : option write_error
}.

Definition nothing : oauthSSEEventResult := Build_oauthSSEEventResult false "" "" None.
Definition malformed : oauthSSEEventResult :=
  Build_oauthSSEEventResult false "malformed" "" (Some errUpstreamSSEMalformed).

Definition oauthResponseObject (raw : string) : option string :=
  let responseBody := TrimSpace raw in
  match of_string responseBody with
  | a :: _ => if is_char "{" a && Valid responseBody then Some responseBody else None
  | [] => None
  end.

Definition parseOAuthSSEEvent (event : Sse.SSEEvent) : oauthSSEEventResult :=
  if negb (Sse.HasData event) then nothing
  else
    let data := TrimSpace (Sse.Data event) in
    if str_eq data "" then malformed
    else if str_eq (TrimSpace (Sse.Event event)) "error"
    then Build_oauthSSEEventResult false "error" "" (Some errUpstreamSSEError)
    else if str_eq data "[DONE]" then nothing
    else match (ms ← unmarshal_struct data; t ← string_field "type" ms; Some (ms, t)) with
    | None => malformed
    | Some (ms, t) =>
        let eventType := TrimSpace t in
        let eventType := if str_eq eventType "" then TrimSpace (Sse.Event event) else eventType in
        if str_eq eventType "error" then Build_oauthSSEEventResult false "error" "" (Some errUpstreamSSEError)
        else
          let final outcome err :=
            match oauthResponseObject (raw_field "response" ms) with
            | None => malformed
            | Some responseBody => Build_oauthSSEEventResult true outcome responseBody err
            end in
          if str_eq eventType "response.completed" then final "completed" None
          else if str_eq eventType "response.failed" then final "failed" (Some errUpstreamResponseFailed)
          else if str_eq eventType "response.incomplete" then final "incomplete" (Some errUpstreamResponseIncomplete)
          else nothing
    end.

Definition classifyOAuthSSEReadError (ctx : option ctx_error) (e : Sse.sse_error) : write_error :=
  match ctx with
  | Some Canceled => errUpstreamResponseCanceled
  | Some DeadlineExceeded => errUpstreamResponseDeadline
  | None =>
      match e with
      | Sse.ErrRead Sse.ReadIdleTimeout => errUpstreamSSEIdleTimeout
      | Sse.ErrRead Sse.ReadTooLarge | Sse.ErrSSELineTooLarge | Sse.ErrSSEEventTooLarge
      | Sse.ErrSSEDataTooLarge => errUpstreamResponseTooLarge
      | Sse.ErrSSEUnexpectedEOF => errUpstreamSSETruncated
      | Sse.ErrRead Sse.ReadEOF => errUpstreamSSETerminalMissing
      | Sse.ErrRead Sse.ReadFailed => errUpstreamResponseRead
      end
  end.

Definition defaultMaxUpstreamResponseBody : Z := 8 * 2 ^ 20.

Definition minPositive (left right : Z) : Z :=
  if bool_decide (right ≤ 0) then left else if bool_decide (left ≤ right) then left else right.

Definition oauth_limits (maxBytes : Z) : Sse.SSEParserLimits :=
  {| Sse.MaxLineBytes := minPositive Sse.DefaultSSEParserMaxLineBytes maxBytes;
     Sse.MaxEventBytes := minPositive Sse.DefaultSSEParserMaxEventBytes maxBytes;
     Sse.MaxDataBytes := minPositive Sse.DefaultSSEParserMaxDataBytes maxBytes |}.

(** The bytes behind the bounded reader and how they end: one byte beyond the
    maximum is delivered with the error. *)
Definition bounded_stream (maxBytes : Z) (data : bytes) (e : Sse.read_error) : bytes * Sse.read_error :=
  if bool_decide (0 < maxBytes) && bool_decide (maxBytes < blen data)
  then (take (Z.to_nat (maxBytes + 1)) data, Sse.ReadTooLarge) else (data, e).

(** Everything a body delivers, through the idle-timeout reader. *)
Fixpoint body_stream (reads : list read_result) : bytes * Sse.read_error :=
  match reads with
  | [] => ([], Sse.ReadEOF)
  | r :: reads =>
      if rd_idle r then (rd_data r, Sse.ReadIdleTimeout)
      else match rd_err r with
           | Some e => (rd_data r, e)
           | None => let '(data, e) := body_stream reads in (rd_data r ++ data, e)
           end
  end.

Fixpoint aggregate_loop (fuel : nat) (route : string) (parser : Sse.SSEParser) (t : responsePhaseTracker)
  : P (observation * string * option write_error * responsePhaseTracker) :=
  match fuel with
  | O => Ret (missing_observation "", "", Some errUpstreamResponseRead, t)
  | S fuel =>
      match Sse.Next parser with
      | (Err e, _) =>
          let! ctx := call CtxErr in
          Ret (missing_observation "", "", Some (classifyOAuthSSEReadError ctx e), t)
      | (Ok event, parser) =>
          let! now := call Now in
          let t := observeSSEEvent t (Sse.Event event) (Sse.Data event) now in
          let res := parseOAuthSSEEvent event in
          if negb (terminal res) then
            match ev_err res with
            | Some e => Ret (missing_observation (outcome res), "", Some e, t)
            | None => aggregate_loop fuel route parser t
            end
          else
            Ret (Build_observation (Usage.ParseUsageFromJSON route (response res))
                   (Usage.responseIDFromJSON route (response res)) (outcome res) "" no_timing,
                 response res, ev_err res, t)
      end
  end.

(** The observation, the response object and the error. *)
Definition aggregateOAuthResponses (b : body) (route : string) : P (observation * string * option write_error) :=
  let! started := call Now in
  let '(data, e) := body_stream (b_reads b) in
  let maxBytes := if bool_decide (0 < maxResponseBody p) then maxResponseBody p else defaultMaxUpstreamResponseBody in
  let '(data, e) := bounded_stream maxBytes data e in
  let parser := Sse.NewSSEParser data e (oauth_limits maxBytes) in
  let! (o, responseBody, err, t) := aggregate_loop (S (length data)) route parser (newResponsePhaseTracker route started) in
  call (CloseBody (b_id b)) ;;
  let! now := call Now in
  Ret (timed o (phase_snapshot t now), responseBody, err).

(** *** The stream tracker

    A goroutine parses what the copying loop writes to its pipe; the loop waits
    for it when the stream has ended, so its verdict is a function of the bytes
    written. *)
Definition oauthSSEOutcomeForError (e : write_error) : string :=
  match e with
  | errUpstreamSSETerminalMissing => "terminal_missing"
  | errUpstreamSSETruncated => "truncated"
  | errUpstreamSSEMalformed => "malformed"
  | errUpstreamSSEError => "error"
  | errUpstreamResponseFailed => "failed"
  | errUpstreamResponseIncomplete => "incomplete"
  | errUpstreamResponseTooLarge => "too_large"
  | _ => "upstream_error"
  end.

Fixpoint tracker_loop (fuel : nat) (parser : Sse.SSEParser) : option write_error * string :=
  match fuel with
  | O => (Some errUpstreamResponseRead, "upstream_error")
  | S fuel =>
      match Sse.Next parser with
      | (Err e, _) => let err := classifyOAuthSSEReadError None e in (Some err, oauthSSEOutcomeForError err)
      | (Ok event, parser) =>
          let res := parseOAuthSSEEvent event in
          match ev_err res with
          | Some e => (Some e, outcome res)
          | None => if terminal res then (None, outcome res) else tracker_loop fuel parser
          end
      end
  end.

Definition oauthSSEStreamTracker (maxBytes : Z) (written : bytes) : option write_error * string :=
  let maxBytes := if bool_decide (maxBytes ≤ 0) then defaultMaxUpstreamResponseBody else maxBytes in
  let '(data, e) := bounded_stream maxBytes written Sse.ReadEOF in
  tracker_loop (S (length data)) (Sse.NewSSEParser data e (oauth_limits maxBytes)).

Fixpoint oauth_copy_loop (route : string) (reads : list read_result) (o : Usage.SSEUsageObserver)
    (t : responsePhaseTracker) (written : bytes) (l : locals) : P (observation * option write_error * locals) :=
  let finish_read o t written l err :=
    let! ctx := call CtxErr in
    match ctx with
    | Some Canceled => with_snapshot t (seen o "client_canceled" "") (Some errUpstreamResponseCanceled) l
    | Some DeadlineExceeded => with_snapshot t (seen o "server_error" "") (Some errUpstreamResponseDeadline) l
    | None =>
        match err with
        | Sse.ReadEOF =>
            match oauthSSEStreamTracker (maxResponseBody p) written with
            | (Some e, outcome) =>
                with_snapshot t (seen o (if str_eq outcome "" then "upstream_error" else outcome) "") (Some e) l
            | (None, _) => with_snapshot t (seen o "completed" "") None l
            end
        | _ => with_snapshot t (seen o "upstream_error" "") (Some errUpstreamResponseRead) l
        end
    end in
  match reads with
  | [] => finish_read o t written l Sse.ReadEOF
  | r :: reads =>
      let data := rd_data r in
      if negb (bool_decide (data = [])) && bool_decide (0 < maxResponseBody p) &&
         bool_decide (maxResponseBody p - blen data < blen written)
      then with_snapshot t (seen o "upstream_error" "") (Some errUpstreamResponseTooLarge) l
      else
        let! now := call Now in
        let '(o, t) := if bool_decide (data = []) then (o, t) else (Observe o data, observeSSE t data now) in
        let! (ok, l) := (if bool_decide (data = []) then Ret (true, l) else rec_Write data l) in
        if negb ok then with_snapshot t (seen o "client_canceled" "client_canceled") None l
        else if rd_idle r then with_snapshot t (seen o "upstream_error" "") (Some errUpstreamSSEIdleTimeout) l
        else match rd_err r with
             | Some e => finish_read o t (written ++ data) l e
             | None => oauth_copy_loop route reads o t (written ++ data) l
             end
  end.

Definition copyOAuthStreamingResponse (reads : list read_result) (route : string) (l : locals) :=
  let! now := call Now in
  oauth_copy_loop route reads (Usage.NewSSEUsageObserver route) (newResponsePhaseTracker route now) [] l.

Definition writeUpstreamResponseWithOptions (resp : Response) (route : string)
    (stream aggregateOAuth validateSSETerminal : bool) (l : locals) : P (observation * option write_error * locals) :=
  if aggregateOAuth then
    let! (o, responseBody, err) := aggregateOAuthResponses (Body resp) route in
    if bool_decide (is_Some err) && str_eq responseBody "" then Ret (o, err, l)
    else
      copyResponseHeaders resp ;;
      call (SetHeader "Content-Type" "application/json") ;;
      call (DelHeader "Content-Length") ;;
      call (SetHeader "Content-Length" (FormatInt (go_len responseBody))) ;;
      let! l := rec_WriteHeader (StatusCode resp) l in
      let! (ok, l) := rec_Write (of_string responseBody) l in
      Ret (o, if negb ok then Some ClientWriteFailed else err, l)
  else if stream then
    copyResponseHeaders resp ;;
    call (SetHeader "Content-Type" "text/event-stream") ;;
    let! l := rec_WriteHeader (StatusCode resp) l in
    if validateSSETerminal then copyOAuthStreamingResponse (b_reads (Body resp)) route l
    else copyStreamingResponse (b_reads (Body resp)) route l
  else writeBufferedUpstreamResponse resp route l.

Definition responseObservationErrorCode (o : observation) (e : option write_error) : string :=
  match e with
  | Some errUpstreamResponseCanceled => "client_canceled"
  | Some e => upstreamResponseErrorCode e
  | None => O_DiagnosticError o
  end.

Definition shouldPersistResponseAffinity (status : Z) (stream : bool) (o : observation) (e : option write_error) : bool :=
  if negb (success status) then false
  else bool_decide (e = None) || (stream && negb (str_eq (TrimSpace (O_ResponseID o)) "")).

(** ** Attempts *)

(** Spans of the timeline, each call reading the clock. *)
Definition begin_span (attemptType : string) (selected : SelectedAccount) (reason : string) (l : locals)
  : P (locals * requestAttemptSpan) :=
  let! now := call Now in
  let '(d, s) := beginAttempt (l_diag l) attemptType selected reason now in
  Ret (set_diag d l, s).

Definition finish_span (s : requestAttemptSpan) (status : Z) (code : string) (l : locals) : P locals :=
  let! now := call Now in Ret (set_diag (finish (l_diag l) s status code now) l).

(** A span that is begun and finished at once. *)
Definition rejection_span (attemptType : string) (selected : SelectedAccount) (reason : string) (status : Z)
    (code : string) (l : locals) : P locals :=
  let! (l, s) := begin_span attemptType selected reason l in finish_span s status code l.

Definition upstream_metric (selected : SelectedAccount) (outcome : string) : P unit :=
  metric_call (ObserveUpstreamAttempt (S_AccountType selected) outcome).

(** What the requests to one account end with: an answer or an error. *)
Record upstream_result := {
  UR_resp : result send_error Response; UR_span : requestAttemptSpan; UR_recorded : bool; UR_locals : locals
}.

Inductive upstream_outcome :=
| UDone (r : upstream_result)
| UFailed (l : locals)
| UPanicked (l : locals)
| UStuck (l : locals).

Definition set_token (s : SelectedAccount) (token : string) : SelectedAccount :=
  {| AccountID := AccountID s; S_Provider := S_Provider s; S_AccountType := S_AccountType s;
     S_DisplayName := S_DisplayName s; AuthorizationToken := token; S_BaseURL := S_BaseURL s;
     ProxyURL := ProxyURL s; ChatGPTAccountID := ChatGPTAccountID s;
     S_MaxConcurrentRequests := S_MaxConcurrentRequests s; RoutingPoolID := RoutingPoolID s;
     RoutingPoolName := RoutingPoolName s; RoutingPoolFallbackDepth := RoutingPoolFallbackDepth s;
     RoutingPoolFallbackChain := RoutingPoolFallbackChain s; RoutingPoolError := RoutingPoolError s;
     FingerprintUA := FingerprintUA s; FingerprintTLS := FingerprintTLS s;
     FingerprintHeaders := FingerprintHeaders s |}.

Definition send_failed (s : requestAttemptSpan) (code : string) (e : send_error) (l : locals) : P upstream_outcome :=
  let l := set_diag (setType (l_diag l) s attemptTypeUpstreamTransport) l in
  let! l := finish_span s 502 code l in
  Ret (UDone {| UR_resp := Err e; UR_span := s; UR_recorded := false; UR_locals := l |}).

Definition answered (selected : SelectedAccount) (s : requestAttemptSpan) (resp : Response) (code outcome : string)
    (l : locals) : P upstream_outcome :=
  let! l := finish_span s (StatusCode resp) code l in
  upstream_metric selected outcome ;;
  Ret (UDone {| UR_resp := Ok resp; UR_span := s; UR_recorded := false; UR_locals := l |}).

(** A rejected authorisation: it is refreshed and the request repeated with the
    new token ([again]), or the answer stands. *)
Definition refused (again : SelectedAccount → locals → P upstream_outcome) (selected : SelectedAccount)
    (span : requestAttemptSpan) (id : string) (resp : Response) (l : locals) : P upstream_outcome :=
  let code := upstreamStatusErrorCode (StatusCode resp) in
  let '(message, failureBody, resp) := captureFailure resp in
  let! pass := shouldPassThroughUpstreamError (StatusCode resp) failureBody in
  if pass then answered selected span resp code "http_error" l
  else
    let! (token, retry, recorded, failed) := refreshAccountAuthorization selected (StatusCode resp) message in
    if negb retry then answered selected span resp code "http_error" l
    else
      let! (l, refresh) := begin_span attemptTypeAuthRefreshRetry selected "" l in
      let l := set_diag (setUpstreamRequestID (l_diag l) refresh id) l in
      if failed || str_eq (TrimSpace token) "" then
        let! l := finish_span span (StatusCode resp) code l in
        let! l := finish_span refresh (StatusCode resp) "auth_refresh_failed" l in
        upstream_metric selected "http_error" ;;
        Ret (UDone {| UR_resp := Ok resp; UR_span := span; UR_recorded := recorded; UR_locals := l |})
      else
        upstream_metric selected "refresh_retry" ;;
        let! l := finish_span span (StatusCode resp) code l in
        let! l := finish_span refresh (StatusCode resp) "" l in
        call (CloseBody (b_id (Body resp))) ;;
        again (set_token selected token) (set_attemptCount (l_attemptCount l + 1) l).

(** The loop over one account: a rejected authorisation is refreshed and the
    request repeated once. *)
Fixpoint upstream_loop (fuel : nat) (r : Request) (correlationID : string) (reqBody : option string)
    (maxAttempts : Z) (selected : SelectedAccount) (reason : string) (retried : bool) (l : locals)
  : P upstream_outcome :=
  match fuel with
  | O => Ret (UStuck l)
  | S fuel =>
      let! upstreamStartedAt := call Now in
      let! (l, span) := begin_span attemptTypeUpstreamHTTP selected reason l in
      match newUpstreamRequest json_Marshal upstream_url (urls p) r selected correlationID reqBody with
      | None => Ret (UPanicked l)
      | Some None =>
          let l := set_diag (setType (l_diag l) span attemptTypeUpstreamTransport) l in
          let! l := finish_span span 502 "upstream_request_error" l in
          Ret (UFailed l)
      | Some (Some request) =>
          let! client := call (ClientFor selected) in
          if negb client then send_failed span (upstreamRequestErrorCode SendFailed) SendFailed l
          else
            let! res := call (Do (AccountID selected) request) in
            match res with
            | Err e =>
                let! ctx := call CtxErr in
                let code := match ctx with Some _ => "request_canceled" | None => upstreamRequestErrorCode e end in
                let! out := send_failed span code e l in
                let! ctx := call CtxErr in
                upstream_metric selected (upstreamTransportOutcome ctx e) ;;
                Ret out
            | Ok resp =>
                let id := responseUpstreamRequestID resp in
                let! now := call Now in
                let l := set_upstreamID id l in
                let l := set_diag (setHeaderWait (setUpstreamRequestID (l_diag l) span id) upstreamStartedAt now) l in
                let code := upstreamStatusErrorCode (StatusCode resp) in
                if retried || bool_decide (maxAttempts = 1) || negb (authorizationFailureStatus (StatusCode resp))
                then answered selected span resp (if bool_decide (400 ≤ StatusCode resp) then code else "")
                       (upstreamHTTPOutcome (StatusCode resp)) l
                else
                  refused (fun selected l =>
                             upstream_loop fuel r correlationID reqBody maxAttempts selected "" true l)
                    selected span id resp l
            end
      end
  end.

(** Writing the answer of the upstream to the client, with the deferred
    closing of its body and release of the account. *)
Definition deliver (r : Request) (selected : SelectedAccount) (pool : Z) (startedAt : Time) (clientStream : bool)
    (release : Concurrency.release) (span : requestAttemptSpan) (resp : Response) (l : locals) : P locals :=
  let streamResponse := shouldStreamUpstreamResponseForClient r selected resp clientStream in
  let aggregateResponse := shouldAggregateOAuthResponses r selected resp clientStream in
  let l := set_stream streamResponse l in
  let! (o, err, l) := writeUpstreamResponseWithOptions resp (Path r) streamResponse aggregateResponse
                        (usesCodexResponsesEndpoint r selected) l in
  let l := set_usage (O_Usage o) l in
  let l := set_diag (setResponseTiming (l_diag l) (O_Timing o)) l in
  (if streamResponse then metric_call (ObserveStream (Path r) (O_StreamOutcome o)) else Ret tt) ;;
  let code := responseObservationErrorCode o err in
  let! l := (if str_eq code "" then Ret l
             else
               let l := fail code l in
               let l := set_diag (setError (l_diag l) span code) l in
               match err with
               | Some e => if committed l then Ret l
                           else writeOpenAIError 502 code (upstreamResponseErrorMessage e) l
               | None => Ret l
               end) in
  (if shouldPersistResponseAffinity (StatusCode resp) streamResponse o err
   then persistResponseAffinity (O_ResponseID o) (AccountID selected) pool startedAt else Ret tt) ;;
  call (CloseBody (b_id (Body resp))) ;;
  call (Release release) ;;
  Ret l.

(** The admission of the request's budget, at the first account it reaches:
    [None] if it was refused and answered. *)
Definition admit_budget (key : APIKey) (selected : SelectedAccount) (reason : string) (release : Concurrency.release)
    (l : locals) : P (option locals * locals) :=
  if str_eq (l_admission l) "" && has_budgets p then
    let! now := call Now in
    let! a := call (AdmitAPIKeyBudget (K_ID key) now) in
    match a with
    | Ok id => let l := set_admission id l in Ret (Some l, l)
    | Err e =>
        call (Release release) ;;
        let! (l, span) := begin_span attemptTypeGatewayRejection selected reason l in
        let exceeded code :=
          let! l := finish_span span 429 code (fail code l) in
          metric_call (ObserveLimitRejection "api_key" (budgetMetricReason code)) ;;
          let! l := writeOpenAIError 429 "rate_limit_exceeded" "api key budget exceeded" l in
          Ret (None, l) in
        match e with
        | Ledger.ErrAPIKeyRequestBudgetExceeded => exceeded "api_key_request_budget_exceeded"
        | Ledger.ErrAPIKeyTokenBudgetExceeded => exceeded "api_key_token_budget_exceeded"
        | Ledger.ErrAPIKeyCostBudgetExceeded => exceeded "api_key_cost_budget_exceeded"
        | Ledger.ErrBudgetInitializing =>
            let! l := finish_span span 503 "budget_initializing" (fail "budget_initializing" l) in
            let! l := writeOpenAIError 503 "budget_initializing" "api key budget is initializing" l in
            Ret (None, l)
        | _ =>
            let! l := finish_span span 500 "internal_error" (fail "internal_error" l) in
            let! l := writeOpenAIError 500 "internal_error" "could not admit api key budget" l in
            Ret (None, l)
        end
    end
  else Ret (Some l, l).

Definition close_last (last : option Z) : P unit :=
  match last with Some id => call (CloseBody id) | None => Ret tt end.

Definition selection_failed (selected : SelectedAccount) (e : select_error) (span : requestAttemptSpan)
    (limited : bool) (last : option Z) (l : locals) : P locals :=
  let l := set_pool (selectedRoutingPoolLogFields selected (PL_ID (l_pool l)) (PL_Name (l_pool l))) l in
  close_last last ;;
  let answer code status errCode message l :=
    let l := fail code l in
    let! l := finish_span span 0 code l in
    writeOpenAIError status errCode message l in
  match e with
  | SelProvider e =>
      if limited && is_err e ErrAccountsUnavailable then
        let l := fail "provider_account_concurrency_limited" l in
        let! l := finish_span span 0 "provider_account_concurrency_limited" l in
        metric_call (ObserveLimitRejection "provider_account" "concurrency") ;;
        writeOpenAIError 429 "rate_limit_exceeded" "provider account concurrency limit exceeded" l
      else
        let code := providerErrorCodeForSelection e selected in
        let l := fail code l in
        let! l := finish_span span 0 code l in
        metric_call (ObserveRoutingFailure code) ;;
        writeOpenAIError 503 code (providerErrorMessage code) l
  | errResponseAffinityUnknown =>
      answer "response_affinity_unknown" 409 "response_affinity_unknown"
        "response account affinity is unknown in this routing scope" l
  | errResponseAffinityAccountUnavailable =>
      answer "response_affinity_account_unavailable" 503 "response_affinity_account_unavailable"
        "response account is unavailable" l
  end.

Section attempts.
Variables (r : Request) (correlationID : string) (key : APIKey) (settings : GatewaySettings) (pool : Z)
  (startedAt : Time) (affinity : responseAffinityRoute) (b : prepared) (maxAttempts : Z).

(** The variables the loop carries. *)
Record loop_state := {
  failedAccountIDs : list Z; concurrencyLimited : bool; nextFallbackReason : string; lastRetryable : option Z
}.

(** [gatewayFallbackCount++], the reason and the metric of a [continue]. *)
Definition fall_back (reason : string) (l : locals) : P locals :=
  let l := set_fallbackCount (l_fallbackCount l + 1) l in
  metric_call (ObserveFallback reason) ;; Ret l.

(** After the upstream has answered or failed: [inl] goes on with the next
    attempt, [inr] ends the request. *)
Definition after_upstream (more : bool) (selected : SelectedAccount) (failed : list Z)
    (release : Concurrency.release) (u : upstream_result) : P (locals * string * option Z + locals) :=
  let l := UR_locals u in
  let span := UR_span u in
  match UR_resp u with
  | Err e =>
      call (Release release) ;;
      let! ctx := call CtxErr in
      match ctx with
      | Some _ =>
          let l := fail "request_canceled" l in
          Ret (inr (set_diag (setError (l_diag l) span "request_canceled") l))
      | None =>
          let code := upstreamRequestErrorCode e in
          recordAccountFailure (AccountID selected) 502 "" (upstreamRequestErrorMessage code) ;;
          if more then let! l := fall_back "transport_error" l in Ret (inl (l, "transport_error", None))
          else
            let! l := writeOpenAIError 502 code (upstreamRequestErrorMessage code) (fail code l) in
            Ret (inr l)
      end
  | Ok resp =>
      let status := StatusCode resp in
      let finish_request l resp :=
        (if success status then recordAccountRecovered (AccountID selected) else Ret tt) ;;
        let! l := deliver r selected pool startedAt (P_stream b) release span resp l in
        Ret (inr l) in
      if retryableUpstreamStatus status then
        let '(message, failureBody, resp) := captureFailure resp in
        let! pass := shouldPassThroughUpstreamError status failureBody in
        let code := upstreamStatusErrorCode status in
        if pass then
          let l := fail code l in
          let l := set_diag (setError (l_diag l) span code) l in
          let! l := deliver r selected pool startedAt (P_stream b) release span resp l in
          Ret (inr l)
        else
          (if UR_recorded u then Ret tt
           else recordAccountFailure (AccountID selected) status (h_get (R_Header resp) "Retry-After") message) ;;
          if more then
            call (Release release) ;;
            let! l := fall_back "retryable_status" l in
            Ret (inl (l, "retryable_status", Some (b_id (Body resp))))
          else finish_request (fail code l) resp
      else finish_request l resp
  end.

(** An attempt that holds the slot of its account: admission, the requests and
    what follows them. *)
Definition use_account (more : bool) (selected : SelectedAccount) (reason : string) (failed : list Z)
    (release : Concurrency.release) (l : locals) : P (locals * string * option Z + locals) :=
  let! (admitted, l) := admit_budget key selected reason release l in
  match admitted with
  | None => Ret (inr l)
  | Some l =>
      let! used := recordAccountUsed (AccountID selected) in
      if negb used then
        call (Release release) ;;
        let l := fail "internal_error" l in
        let! l := rejection_span attemptTypeGatewayRejection selected reason 500 "internal_error" l in
        let! l := writeOpenAIError 500 "internal_error" "could not record provider account use" l in
        Ret (inr l)
      else
        let l := set_account selected l in
        let l := set_pool (selectedRoutingPoolLogFields selected (PL_ID (l_pool l)) (PL_Name (l_pool l))) l in
        let l := set_upstreamID "" l in
        let! u := upstream_loop 2 r correlationID (P_body b) maxAttempts selected reason false l in
        match u with
        | UStuck l => Ret (inr l)
        | UPanicked l => Ret (inr (set_panicked true l))
        | UFailed l =>
            call (Release release) ;;
            let! l := writeOpenAIError 502 "upstream_request_error" "could not create upstream request"
                        (fail "upstream_request_error" l) in
            Ret (inr l)
        | UDone u => after_upstream more selected failed release u
        end
  end.

Fixpoint attempt_loop (n : nat) (attempt : Z) (s : loop_state) (l : locals) : P locals :=
  match n with
  | O => Ret l
  | S n =>
      let more := bool_decide (attempt + 1 < maxAttempts) in
      let l := set_diag (resetResponseTiming (l_diag l)) l in
      let! (l, selectionSpan) := begin_span attemptTypeSelection no_account (nextFallbackReason s) l in
      let! (selected, err) := selectAccountForRequest key (P_model b) (endpointForRequest r) (P_session b) affinity
                                (failedAccountIDs s) in
      let l := set_diag (setSelected (l_diag l) selectionSpan selected) l in
      let l := if str_eq (S_AccountType selected) "" then l else set_accountType (S_AccountType selected) l in
      match err with
      | Some e => selection_failed selected e selectionSpan (concurrencyLimited s) (lastRetryable s) l
      | None =>
          let! l := finish_span selectionSpan 0 "" l in
          let l := set_attemptCount (l_attemptCount l + 1) l in
          let reason := nextFallbackReason s in
          close_last (lastRetryable s) ;;
          if negb (bool_decide (AccountID selected = 0)) && containsInt64 (failedAccountIDs s) (AccountID selected) then
            let l := fail "upstream_unavailable" l in
            let! l := rejection_span attemptTypeGatewayRejection selected reason 502 "upstream_unavailable" l in
            writeOpenAIError 502 "upstream_unavailable" "upstream request failed" l
          else
            let limit := Concurrency.effectiveAccountConcurrencyLimit (S_MaxConcurrentRequests selected)
                           (MaxConcurrentRequestsPerAccount settings) in
            let! slot := call (AcquireAccount (AccountID selected) limit) in
            let failed := appendUniqueInt64 (failedAccountIDs s) (AccountID selected) in
            match slot with
            | None =>
                let! l := rejection_span attemptTypeConcurrencyRejection selected reason 429
                            "provider_account_concurrency_limited" l in
                if more then
                  let! l := fall_back "account_concurrency" l in
                  attempt_loop n (attempt + 1)
                    {| failedAccountIDs := failed; concurrencyLimited := true;
                       nextFallbackReason := "account_concurrency"; lastRetryable := None |} l
                else
                  let l := fail "provider_account_concurrency_limited" l in
                  metric_call (ObserveLimitRejection "provider_account" "concurrency") ;;
                  writeOpenAIError 429 "rate_limit_exceeded" "provider account concurrency limit exceeded" l
            | Some release =>
                let! next := use_account more selected reason failed release l in
                match next with
                | inl (l, reason, last) =>
                    attempt_loop n (attempt + 1)
                      {| failedAccountIDs := failed; concurrencyLimited := concurrencyLimited s;
                         nextFallbackReason := reason; lastRetryable := last |} l
                | inr l => Ret l
                end
            end
      end
  end.
End attempts.

(** ** The request *)

Definition ValidCorrelationID (value : string) : bool :=
  let alnum a := let x := byte_of a in
    bool_decide (48 ≤ x ≤ 57) || bool_decide (65 ≤ x ≤ 90) || bool_decide (97 ≤ x ≤ 122) in
  match of_string value with
  | a :: rest =>
      alnum a && bool_decide (length rest ≤ 99)%nat &&
      forallb (fun a => alnum a || existsb (fun c => bool_decide (c = a)) (of_string "._:-")) rest
  | [] => false
  end.

Definition NormalizeCorrelationID (value : string) : P string :=
  let value := TrimSpace value in
  if ValidCorrelationID value then Ret value else call NewCorrelationID.

Definition withGatewayCorrelationID (r : Request) : P (Request * string) :=
  let fromContext := TrimSpace (default "" (ContextCorrelationID r)) in
  let! requestID := (if bool_decide (is_Some (ContextCorrelationID r)) && ValidCorrelationID fromContext
                     then Ret fromContext
                     else NormalizeCorrelationID (h_get (Header r) "X-Request-ID")) in
  call (SetHeader "X-Request-ID" requestID) ;;
  Ret ({| Method := Method r; Path := Path r; RawQuery := RawQuery r;
          Header := h_set (Header r) "X-Request-ID" requestID; ContentLength := ContentLength r;
          HasBody := HasBody r; ContextCorrelationID := Some requestID |}, requestID).

(** [finishMetrics]: once per request. *)
Definition finishMetrics (r : Request) (startedAt : Time) (l : locals) : P locals :=
  if l_metricsFinished l || negb (has_metrics p) then Ret l
  else
    let! now := call Now in
    call (Metric (GatewayRequestFinished (Path r) (statusCode l) (l_stream l) (l_accountType l)
                    (time_sub now startedAt))) ;;
    Ret (set_metricsFinished true l).

(** The deferred function: usage, price, metrics, settlement and log. *)
Definition with_model (u : Usage.Usage) (model : string) : Usage.Usage :=
  if str_eq (Usage.Model u) "" then
    {| Usage.Model := model; Usage.InputTokens := Usage.InputTokens u; Usage.OutputTokens := Usage.OutputTokens u;
       Usage.TotalTokens := Usage.TotalTokens u; Usage.CachedInputTokens := Usage.CachedInputTokens u;
       Usage.ReasoningTokens := Usage.ReasoningTokens u; Usage.Source := Usage.Source u |}
  else u.

Definition settle (l : locals) (u : Usage.Usage) (cost : Z) : P unit :=
  if negb (str_eq (l_admission l) "") && has_budgets p then
    let! now := call Now in
    let! ok := call (SettleAPIKeyBudgetUsage
      {| Ledger.AdmissionID := l_admission l; Ledger.ObservedTokens := Z.max (Usage.TotalTokens u) 0;
         Ledger.ObservedCostMicrousd := Z.max cost 0;
         Ledger.UsageKnown := negb (str_eq (Usage.Source u) "missing"); Ledger.SettledAt := now |}) in
    if ok then Ret tt else call (ProcessLog "API key budget settlement failed")
  else Ret tt.

Definition log_entry (r : Request) (requestID : string) (key : APIKey) (startedAt now : Time) (u : Usage.Usage)
    (cost : Z) (l : locals) : RequestLog :=
  {| RequestID := requestID; UpstreamRequestID := l_upstreamID l; ClientKeyID := K_ID key;
     Provider := selectedProviderName (l_account l); ProviderAccountID := AccountID (l_account l);
     ProviderAccountType := S_AccountType (l_account l); ProviderAccountName := S_DisplayName (l_account l);
     L_RoutingPoolID := PL_ID (l_pool l); L_RoutingPoolName := PL_Name (l_pool l);
     L_FallbackDepth := PL_Depth (l_pool l); L_FallbackChain := PL_Chain (l_pool l);
     L_RoutingPoolError := PL_Error (l_pool l); L_Model := l_model l; SessionID := l_session l;
     Route := Path r; L_Method := Method r; L_StatusCode := statusCode l; Latency := time_sub now startedAt;
     Error := l_errorCode l; L_Usage := u; EstimatedCostMicrousd := cost;
     GatewayAttemptCount := l_attemptCount l; GatewayFallbackCount := l_fallbackCount l;
     Attempts := attempts (l_diag l); AttemptTimelineTruncated := attemptsTruncated (l_diag l);
     L_ResponseTiming := responseTiming (l_diag l); CreatedAt := startedAt |}.

Definition logRequest (entry : RequestLog) : P unit :=
  if negb (has_logger p) then Ret tt
  else
    let! ok := call (CreateRequestLog entry) in
    call (ObserveLogWrite (RequestID entry) ok).

Definition finish_request (r : Request) (requestID : string) (key : APIKey) (settings : GatewaySettings)
    (startedAt : Time) (l : locals) : P unit :=
  let u := with_model (l_usage l) (l_model l) in
  recordAPIKeyUsage (K_ID key) (Usage.TotalTokens u)
    (Concurrency.effectiveAPIKeyLimit (TokensPerMinute key) (TokensPerMinutePerKey settings)) ;;
  let! cost := estimateUsageCost u in
  metric_call (ObserveUsage u (Matched cost) (CostMicrousd cost)) ;;
  let! l := finishMetrics r startedAt l in
  settle l u (CostMicrousd cost) ;;
  let! now := call Now in
  logRequest (log_entry r requestID key startedAt now u (CostMicrousd cost) l).

(** Reading the body under its deadline: what to serve, or how it ended. *)
Definition prepare_body (r : Request) (l : locals) : P (option prepared * locals) :=
  let! armed := armRequestBodyDeadline r in
  match armed with
  | Err _ =>
      let! l := writeOpenAIError 500 "request_body_deadline_error" "could not set request body deadline"
                  (fail "request_body_deadline_error" l) in
      Ret (None, l)
  | Ok deadline =>
      let deadlineArmed := negb (time_is_zero deadline) in
      let! res := requestBodyFactoryWithOptions r in
      match res with
      | BodyPanicked => Ret (None, set_panicked true l)
      | _ =>
          let! ctx := call CtxErr in
          let requestCanceled := bool_decide (is_Some ctx) in
          let! timedOut := match res with
                           | BodyFailed e =>
                               if deadlineArmed && body_timeout e
                               then let! now := call Now in Ret (negb (time_before now deadline))
                               else Ret false
                           | _ => Ret false
                           end in
          let! res := (if deadlineArmed && negb requestCanceled then
                         let! err := call (SetReadDeadline 0) in
                         Ret (match res, err with
                              | BodyReady _, Some _ => BodyFailed errRequestBodyDeadline
                              | _, _ => res
                              end)
                       else Ret res) in
          let res := match res, ctx with BodyReady _, Some c => BodyFailed (BodyCtx c) | _, _ => res end in
          match res with
          | BodyReady b => Ret (Some b, l)
          | BodyPanicked => Ret (None, l)
          | BodyFailed e =>
              if requestCanceled && negb timedOut then Ret (None, fail "request_canceled" l)
              else
                let code := requestBodyErrorCode e in
                let! l := writeOpenAIError (requestBodyErrorStatus e) code (requestBodyErrorMessage e) (fail code l) in
                Ret (None, l)
          end
      end
  end.

(** With the slots of the gateway and of the key: body, model, affinity and the
    attempts. *)
Definition serve_admitted (r : Request) (requestID : string) (key : APIKey) (settings : GatewaySettings) (pool : Z)
    (startedAt : Time) (l : locals) : P locals :=
  let! (b, l) := prepare_body r l in
  match b with
  | None => Ret l
  | Some b =>
      let l := set_session (P_session b) (set_model (P_model b) l) in
      if negb (str_eq (P_model b) "") && negb (apiKeyAllowsModel key (P_model b)) then
        writeOpenAIError 404 "model_not_found" "requested model is not available" (fail "model_not_found" l)
      else
        let! affinity := responseAffinitySelection r (P_previous b) pool startedAt in
        match affinity with
        | None =>
            writeOpenAIError 500 "response_affinity_lookup_failed" "could not resolve response account affinity"
              (fail "response_affinity_lookup_failed" l)
        | Some affinity =>
            let maxAttempts := if affinity_enabled affinity then 1 else P_maxAttempts b in
            attempt_loop r requestID key settings pool startedAt affinity b maxAttempts (Z.to_nat maxAttempts) 0
              {| failedAccountIDs := []; concurrencyLimited := false; nextFallbackReason := "";
                 lastRetryable := None |} l
        end
  end.

(** Everything between the key's authentication and the deferred function. *)
Definition serve_request (r : Request) (requestID : string) (key : APIKey) (settings : GatewaySettings)
    (startedAt : Time) (l : locals) : P locals :=
  let! (retryAfter, ok) := call (RateAllow (K_ID key)
    (Concurrency.effectiveAPIKeyLimit (RequestsPerMinute key) (RequestsPerMinutePerKey settings))) in
  if negb ok then
    let l := fail "api_key_request_rate_limited" l in
    metric_call (ObserveLimitRejection "api_key" "request_rate") ;;
    setRetryAfterHeader retryAfter ;;
    writeOpenAIError 429 "rate_limit_exceeded" "api key request rate limit exceeded" l
  else if str_eq (Method r) "GET" && str_eq (Path r) "/v1/models" then
    let! (ok, l) := writeLocalModels key l in
    if ok then Ret l
    else writeOpenAIError 500 "internal_error" "could not list models" (fail "internal_error" l)
  else match K_RoutingPoolID key with
  | None =>
      let l := set_pool {| PL_ID := PL_ID (l_pool l); PL_Name := PL_Name (l_pool l); PL_Depth := PL_Depth (l_pool l);
                           PL_Chain := PL_Chain (l_pool l); PL_Error := "routing_pool_required" |}
                 (fail "routing_pool_required" l) in
      writeOpenAIError 503 "routing_pool_required" "api key must be bound to a routing pool" l
  | Some pool =>
      if bool_decide (pool ≤ 0) then
        let l := set_pool {| PL_ID := PL_ID (l_pool l); PL_Name := PL_Name (l_pool l); PL_Depth := PL_Depth (l_pool l);
                             PL_Chain := PL_Chain (l_pool l); PL_Error := "routing_pool_required" |}
                   (fail "routing_pool_required" l) in
        writeOpenAIError 503 "routing_pool_required" "api key must be bound to a routing pool" l
      else if negb (has_accounts p) then
        writeOpenAIError 503 "service_unavailable" "gateway service unavailable" (fail "service_unavailable" l)
      else
        let! (retryAfter, ok) := call (TokenAllow (K_ID key)
          (Concurrency.effectiveAPIKeyLimit (TokensPerMinute key) (TokensPerMinutePerKey settings))) in
        if negb ok then
          let l := fail "api_key_token_rate_limited" l in
          metric_call (ObserveLimitRejection "api_key" "token_rate") ;;
          setRetryAfterHeader retryAfter ;;
          writeOpenAIError 429 "rate_limit_exceeded" "api key token rate limit exceeded" l
        else
          let! slot := call (AcquireGateway (MaxConcurrentGatewayRequests settings)) in
          match slot with
          | None =>
              let l := fail "gateway_concurrency_limited" l in
              metric_call (ObserveLimitRejection "gateway" "concurrency") ;;
              writeOpenAIError 429 "rate_limit_exceeded" "gateway concurrency limit exceeded" l
          | Some release =>
              let! l := (
                let! keySlot := call (AcquireKey (K_ID key) (MaxConcurrentRequestsPerKey settings)) in
                match keySlot with
                | None =>
                    let l := fail "api_key_concurrency_limited" l in
                    metric_call (ObserveLimitRejection "api_key" "concurrency") ;;
                    writeOpenAIError 429 "rate_limit_exceeded" "api key concurrency limit exceeded" l
                | Some releaseKey =>
                    let! l := serve_admitted r requestID key settings pool startedAt l in
                    call (Release releaseKey) ;;
                    Ret l
                end) in
              call (Release release) ;;
              Ret l
          end
  end.

(** The answers before the key is known; only metrics follow them. *)
Definition refuse (r : Request) (startedAt : Time) (status : Z) (code message : string) : P unit :=
  let! s := early_error status code message in
  if has_metrics p then
    let! now := call Now in
    call (Metric (GatewayRequestFinished (Path r) s false "none" (time_sub now startedAt)))
  else Ret tt.

Definition ServeHTTP (r : Request) : P unit :=
  let! (r, requestID) := withGatewayCorrelationID r in
  if negb (isSupportedRoute r) then
    let! _ := early_error 404 "unsupported_route" "unsupported route" in Ret tt
  else
    let! startedAt := call Now in
    metric_call GatewayRequestStarted ;;
    if negb (has_auth p) then refuse r startedAt 503 "service_unavailable" "gateway service unavailable"
    else match bearerToken (h_get (Header r) "Authorization") with
    | None => refuse r startedAt 401 "unauthorized" "missing bearer token"
    | Some token =>
        let! auth := call (AuthenticateAPIKey token) in
        match auth with
        | Err AuthUnauthorized => refuse r startedAt 401 "unauthorized" "invalid bearer token"
        | Err AuthUnavailable =>
            refuse r startedAt 503 "authentication_unavailable" "api key authentication unavailable"
        | Err AuthFailed => refuse r startedAt 500 "internal_error" "api key authentication failed"
        | Ok key =>
            let! settings := gatewaySettings in
            let! l := serve_request r requestID key settings startedAt (init_locals key) in
            finish_request r requestID key settings startedAt l
        end
    end.

End proxy.
End Gateway.
