(* ===== verification/GatewayDemo.v ===== *)
(** * The gateway: a concrete environment

    Two accounts: the first answers 500, the second succeeds; budgets, logger,
    metrics and limiters are configured.  The theorems about the gateway are
    applied to its executions. *)

From S2P Require Import Prelude GoStrings Json Sse Usage Effects Limiters Ledger Account Scheduling.
From S2P Require Import GatewayTypes GatewayPure Gateway.
From Stdlib Require Import Ascii.
From Stdlib Require String.

Import Account Json GatewayTypes GatewayPure Gateway.

Module Demo.

Definition all_caps : provider_caps := Build_provider_caps true true true true true true true true true true true true true.

Definition proxy : Proxy :=
  {| has_auth := true; has_accounts := true; caps := all_caps; has_settings := true;
     staticSettings := Build_GatewaySettings 0 0 0 0 0; has_logger := true; has_models := true; models_by_pool := true;
     has_pricer := true; has_budgets := true; has_rules := true; has_affinities := true; has_metrics := true;
     maxAcceptedBody := 1000; maxReplayBody := 1000; maxResponseBody := 1000; requestBodyTimeout := 0;
     affinityTTL := 3600 * Second; urls := Build_proxy_urls "https://api.example" "https://chat.example" |}.

Definition key : APIKey :=
  {| K_ID := 7; ModelPolicy := "all"; AllowedModels := []; RequestsPerMinute := 0; TokensPerMinute := 0;
     K_RoutingPoolID := Some 1; K_RoutingPoolName := "main" |}.

Definition request : Request :=
  {| Method := "POST"; Path := "/v1/chat/completions"; RawQuery := "";
     Header := h_set ∅ "Authorization" "Bearer token"; ContentLength := -1; HasBody := true;
     ContextCorrelationID := Some "req-1" |}.

Definition account (id : Z) : SelectedAccount :=
  {| AccountID := id; S_Provider := "openai"; S_AccountType := "api_key"; S_DisplayName := "a";
     AuthorizationToken := "t"; S_BaseURL := ""; ProxyURL := ""; ChatGPTAccountID := "";
     S_MaxConcurrentRequests := 0; RoutingPoolID := 1; RoutingPoolName := "main"; RoutingPoolFallbackDepth := 0;
     RoutingPoolFallbackChain := ""; RoutingPoolError := ""; FingerprintUA := ""; FingerprintTLS := "";
     FingerprintHeaders := None |}.

Definition pick (excluded : list Z) : SelectedAccount := account (if containsInt64 excluded 1 then 2 else 1).

Definition answer (a : Z) : Response :=
  {| StatusCode := if bool_decide (a = 1) then 500 else 200;
     R_Header := h_set ∅ "Content-Type" "application/json";
     Body := {| b_id := a;
                b_reads := [{| rd_data := of_string (quoted
                  "{'model':'m','choices':[{'message':{'content':'hi'}}],'usage':{'prompt_tokens':3,'completion_tokens':2,'total_tokens':5}}");
                  rd_err := None; rd_idle := false |}] |} |}.

(** The environment; its state is the clock, its parameter the request's body. *)
Definition handle (data : string) (R : Set) (c : cmd R) : Z → R * Z :=
  match c in cmd R return Z → R * Z with
  | Now => fun t => (t, t + 1)
  | CtxErr => fun t => (None, t)
  | NewCorrelationID => fun t => ("fresh", t)
  | AuthenticateAPIKey _ => fun t => (Ok key, t)
  | GetGatewaySettings => fun t => (None, t)
  | RateAllow _ _ => fun t => ((0, true), t)
  | TokenAllow _ _ => fun t => ((0, true), t)
  | TokenRecord _ _ _ => fun t => (tt, t)
  | AcquireGateway _ => fun t => (Some Concurrency.release_gateway, t)
  | AcquireKey k _ => fun t => (Some (Concurrency.release_key k), t)
  | AcquireAccount a _ => fun t => (Some (Concurrency.release_account a), t)
  | Release _ => fun t => (tt, t)
  | SetReadDeadline _ => fun t => (None, t)
  | ReadRequestBody => fun t => ((of_string data, None), t)
  | CloseRequestBody => fun t => (tt, t)
  | DefaultModel => fun t => (Ok "m", t)
  | ListExposedModels _ => fun t => (None, t)
  | FindResponseAffinity _ _ _ => fun t => (Some None, t)
  | UpsertResponseAffinity _ _ _ _ => fun t => (true, t)
  | SelectAccount _ excluded => fun t => ((pick excluded, None), t)
  | SelectByID _ _ _ _ => fun t => ((account 1, None), t)
  | SelectSingle _ _ _ => fun t => ((account 1, true, None), t)
  | RecordAccountUsed _ => fun t => (true, t)
  | RecordAccountRecovered _ => fun t => (tt, t)
  | RecordAccountFailure _ _ _ _ => fun t => (tt, t)
  | RefreshAccountAuthorization _ _ _ _ => fun t => (("", false, false, false), t)
  | AdmitAPIKeyBudget _ _ => fun t => (Ok "adm", t)
  | SettleAPIKeyBudgetUsage _ => fun t => (true, t)
  | EstimateUsageCost _ => fun t => (Some (Build_UsageCostEstimate true 40), t)
  | ListErrorPassthroughRules => fun t => (None, t)
  | ClientFor _ => fun t => (true, t)
  | Do a _ => fun t => (Ok (answer a), t)
  | CloseBody _ => fun t => (tt, t)
  | SetHeader _ _ => fun t => (tt, t)
  | AddHeader _ _ => fun t => (tt, t)
  | DelHeader _ => fun t => (tt, t)
  | WriteHeader _ => fun t => (tt, t)
  | Write _ => fun t => (true, t)
  | CreateRequestLog _ => fun t => (true, t)
  | ObserveLogWrite _ _ => fun t => (tt, t)
  | ProcessLog _ => fun t => (tt, t)
  | Metric _ => fun t => (tt, t)
  end.

Definition marshal (o : Usage.object) : string := "{}".
Definition resolve (base path : string) : option string := Some (base +++ path).

Definition execution (data : string) : list (ev cmd) :=
  (run (handle data) (ServeHTTP marshal resolve proxy request) 1).1.2.

Definition hello : string := quoted "{'model':'m'}".

End Demo.
