(* ===== verification/GatewayStream.v ===== *)
(** * The gateway: Responses streams of OAuth accounts

    A client that asked for a stream gets the upstream's events as they come,
    while [oauthSSEStreamTracker] judges them; a client that did not gets the
    object of the final event, from [aggregateOAuthResponses].  Both come to the
    same verdict, which the events of the stream determine. *)

From S2P Require Import Prelude GoStrings Json Sse Usage Effects GatewayTypes GatewayPure Gateway GatewayDemo.
From Stdlib Require Import Ascii.
From Stdlib Require String.

Module GatewayStream.
Import Json GatewayTypes GatewayPure Gateway.

(** ** The verdict *)

(** The first event that decides the stream. *)
Definition decides (ev : Sse.SSEEvent) : bool :=
  let res := parseOAuthSSEEvent ev in terminal res || bool_decide (is_Some (ev_err res)).

Fixpoint deciding (evs : list Sse.SSEEvent) : option oauthSSEEventResult :=
  match evs with
  | [] => None
  | ev :: evs => if decides ev then Some (parseOAuthSSEEvent ev) else deciding evs
  end.

(** Its error and response object, or the error of a stream that ends without
    one. *)
Definition verdict (stream : list Sse.SSEEvent * option Sse.sse_error) : option write_error * string :=
  match deciding stream.1, stream.2 with
  | Some res, _ => (ev_err res, if terminal res then response res else "")
  | None, Some e => (Some (classifyOAuthSSEReadError None e), "")
  | None, None => (None, "")
  end.

Lemma verdict_skip ev evs e : decides ev = false → verdict (ev :: evs, e) = verdict (evs, e).
Proof. unfold verdict. simpl. by intros ->. Qed.

Lemma parse_terminal ev :
  let res := parseOAuthSSEEvent ev in
  ev_err res = None → terminal res = true → outcome res = "completed" ∧ Valid (response res) = true.
Proof.
  unfold parseOAuthSSEEvent. destruct (negb _); [done|]. destruct (str_eq _ ""); [done|].
  destruct (str_eq _ "error"); [done|]. destruct (str_eq _ "[DONE]"); [done|].
  destruct (unmarshal_struct _ ≫= _) as [[ms t]|]; [|done].
  set (ty := if str_eq (TrimSpace t) "" then _ else _). destruct (str_eq ty "error"); [done|].
  assert (∀ x, oauthResponseObject (raw_field "response" ms) = Some x → Valid x = true) as Hx.
  { unfold oauthResponseObject. intros x. destruct (of_string (TrimSpace (raw_field "response" ms))); [done|].
    destruct (is_char "{" _ && _) eqn:E; [|done]. intros [= <-]. by apply andb_true_iff in E as [_ E]. }
  destruct (oauthResponseObject _) as [x|]; simpl.
  - specialize (Hx x eq_refl). destruct (str_eq ty "response.completed"); [by simpl|].
    destruct (str_eq ty "response.failed"); [done|]. by destruct (str_eq ty "response.incomplete").
  - destruct (str_eq ty "response.completed"); [done|]. destruct (str_eq ty "response.failed"); [done|].
    by destruct (str_eq ty "response.incomplete").
Qed.

(** ** The tracker *)

Lemma tracker_loop_verdict fuel q :
  is_Some (Sse.drain fuel q).2 → (tracker_loop fuel q).1 = (verdict (Sse.drain fuel q)).1.
Proof.
  revert q. induction fuel as [|fuel IH]; intros q; [by intros [? [=]]|]. cbn [Sse.drain tracker_loop].
  destruct (Sse.Next q) as [[ev|e] q']; [|done]. specialize (IH q').
  destruct (Sse.drain fuel q') as [evs e]. cbn [snd] in *. intros He. specialize (IH He).
  destruct (ev_err (parseOAuthSSEEvent ev)) as [x|] eqn:Hx; [|destruct (terminal (parseOAuthSSEEvent ev)) eqn:Ht].
  - unfold verdict, decides. simpl. unfold decides. rewrite Hx, bool_decide_eq_true_2, orb_true_r by eauto. simpl.
    by rewrite Hx.
  - unfold verdict. simpl. unfold decides. rewrite Ht. simpl. by rewrite Hx.
  - rewrite verdict_skip; [done|]. unfold decides. rewrite Ht, Hx. done.
Qed.

(** ** The aggregation *)

(** The context of the request has not ended. *)
Definition not_cancelled (x : ev cmd) : Prop :=
  match x with
  | Ev c r => match c in cmd R return R → Prop with CtxErr => fun r => r = None | _ => fun _ => True end r
  end.

Definition aggregated (route : string) (v : option write_error * string) (o : observation) (resp : string)
    (err : option write_error) : Prop :=
  (err, resp) = v ∧
  (err = None → O_StreamOutcome o = "completed" ∧ Valid resp = true ∧
     O_Usage o = Usage.ParseUsageFromJSON route resp ∧ O_ResponseID o = Usage.responseIDFromJSON route resp).

Lemma aggregate_loop_verdict fuel route q t tr o resp err t' :
  is_Some (Sse.drain fuel q).2 → executes (aggregate_loop fuel route q t) tr (o, resp, err, t') →
  Forall not_cancelled tr → aggregated route (verdict (Sse.drain fuel q)) o resp err.
Proof.
  revert q t tr. induction fuel as [|fuel IH]; intros q t tr; [by intros [? [=]]|].
  cbn [Sse.drain aggregate_loop]. destruct (Sse.Next q) as [[ev|e] q'].
  - specialize (IH q'). destruct (Sse.drain fuel q') as [evs e]. cbn [snd] in *.
    intros He Hex%executes_inv. cbn [bind call] in Hex. destruct Hex as (now & tr' & -> & Hex).
    intros Hnc%Forall_cons. destruct Hnc as [_ Hnc]. cbn [bind] in Hex.
    pose proof (parse_terminal ev) as Hfin. destruct (terminal (parseOAuthSSEEvent ev)) eqn:Ht; cbn [negb] in Hex.
    + apply executes_inv in Hex as [-> [= -> -> -> ->]]. split.
      * unfold verdict. simpl. unfold decides. rewrite Ht. simpl. by rewrite Ht.
      * intros Hn. destruct (Hfin Hn Ht). by simpl.
    + destruct (ev_err (parseOAuthSSEEvent ev)) as [x|] eqn:Hx.
      * apply executes_inv in Hex as [-> [= -> -> -> ->]]. split; [|done].
        unfold verdict. simpl. unfold decides. rewrite Hx, bool_decide_eq_true_2, orb_true_r by eauto. simpl.
        by rewrite Hx, Ht.
      * rewrite verdict_skip; [by eapply IH|]. unfold decides. rewrite Ht, Hx. done.
  - intros _ Hex%executes_inv. cbn [bind call] in Hex. destruct Hex as (ctx & tr' & -> & Hex).
    intros Hnc%Forall_cons. destruct Hnc as [-> _]. by apply executes_inv in Hex as [-> [= -> -> -> ->]].
Qed.

(** ** The two agree *)

(** The events of a bounded stream, as both of them see it. *)
Definition stream_events (maxBytes : Z) (data : bytes) (e : Sse.read_error) : list Sse.SSEEvent * option Sse.sse_error :=
  let '(data, e) := bounded_stream maxBytes data e in Sse.parse_stream data e (oauth_limits maxBytes).

Lemma parse_stream_ends data e lim : is_Some (Sse.parse_stream data e lim).2.
Proof. destruct (Sse.parse_stream_total data e lim) as (evs & err & ->). eauto. Qed.

Definition maxBytes_of (max : Z) : Z := if bool_decide (0 < max) then max else defaultMaxUpstreamResponseBody.

Lemma tracker_verdict max data :
  (oauthSSEStreamTracker max data).1 = (verdict (stream_events (maxBytes_of max) data Sse.ReadEOF)).1.
Proof.
  unfold oauthSSEStreamTracker, stream_events, maxBytes_of.
  replace (if bool_decide (max ≤ 0) then defaultMaxUpstreamResponseBody else max)
    with (if bool_decide (0 < max) then max else defaultMaxUpstreamResponseBody)
    by (repeat case_bool_decide; lia || done).
  destruct (bounded_stream _ _ _) as [d e]. apply tracker_loop_verdict. apply parse_stream_ends.
Qed.


(** A stream of two events. *)
Definition example_body : body :=
  {| b_id := 1; b_reads := [{| rd_data := of_string (quoted "event: response.created
data: {'type':'response.created'}

data: {'type':'response.completed','response':{'id':'r1'}}

"); rd_err := None; rd_idle := false |}] |}.

Definition example_run : observation * string * option write_error * list (ev cmd) :=
  (run (Demo.handle "") (aggregateOAuthResponses Demo.proxy example_body "/v1/responses") 1).1.


End GatewayStream.
