(* ===== verification/GatewaySpec.v ===== *)
(** * The gateway: what a request may do

    A summary of the calls a request has made so far (slots held, upstream
    bodies open, budget admissions and settlements, accounts tried, requests
    sent, log entries, response headers), which calls are admissible in it, and
    the proof that [ServeHTTP] makes only admissible calls and leaves nothing
    behind, whatever its environment answers. *)

From S2P Require Import Prelude GoStrings Json Sse Usage Effects Limiters Ledger Account Scheduling.
From S2P Require Import GatewayTypes GatewayPure Gateway.
From Stdlib Require Import Ascii.
From Stdlib Require String.

Module GatewaySpec.
Import Account Json GatewayTypes GatewayPure Gateway.

(** ** Summaries *)

Record summary := {
  s_keys : list APIKey;
  s_held : list Concurrency.release;
  s_open : list Z;
  s_admitted : list string;
  s_settled : list Ledger.APIKeyBudgetSettlementRequest;
  s_accounts : list Z;
  s_sent : list Z;
  s_selections : Z;
  s_logs : list RequestLog;
  s_headers : list Z
}.

Definition nothing_done : summary := Build_summary [] [] [] [] [] [] [] 0 [] [].

Definition hold (r : Concurrency.release) (m : summary) : summary :=
  Build_summary (s_keys m) (r :: s_held m) (s_open m) (s_admitted m) (s_settled m) (s_accounts m) (s_sent m)
    (s_selections m) (s_logs m) (s_headers m).

Fixpoint remove_one (r : Concurrency.release) (l : list Concurrency.release) : list Concurrency.release :=
  match l with
  | [] => []
  | x :: l => if bool_decide (x = r) then l else x :: remove_one r l
  end.

Definition unhold (r : Concurrency.release) (m : summary) : summary :=
  Build_summary (s_keys m) (remove_one r (s_held m)) (s_open m) (s_admitted m) (s_settled m) (s_accounts m)
    (s_sent m) (s_selections m) (s_logs m) (s_headers m).

Definition open_body (id : Z) (m : summary) : summary :=
  Build_summary (s_keys m) (s_held m) (id :: s_open m) (s_admitted m) (s_settled m) (s_accounts m) (s_sent m)
    (s_selections m) (s_logs m) (s_headers m).

Definition close_body (id : Z) (m : summary) : summary :=
  Build_summary (s_keys m) (s_held m) (filter (fun x => x ≠ id) (s_open m)) (s_admitted m) (s_settled m)
    (s_accounts m) (s_sent m) (s_selections m) (s_logs m) (s_headers m).

Definition add_key (k : APIKey) (m : summary) : summary :=
  Build_summary (s_keys m ++ [k]) (s_held m) (s_open m) (s_admitted m) (s_settled m) (s_accounts m) (s_sent m)
    (s_selections m) (s_logs m) (s_headers m).

Definition add_admission (id : string) (m : summary) : summary :=
  Build_summary (s_keys m) (s_held m) (s_open m) (s_admitted m ++ [id]) (s_settled m) (s_accounts m) (s_sent m)
    (s_selections m) (s_logs m) (s_headers m).

Definition add_settlement (q : Ledger.APIKeyBudgetSettlementRequest) (m : summary) : summary :=
  Build_summary (s_keys m) (s_held m) (s_open m) (s_admitted m) (s_settled m ++ [q]) (s_accounts m) (s_sent m)
    (s_selections m) (s_logs m) (s_headers m).

Definition add_account (a : Z) (m : summary) : summary :=
  Build_summary (s_keys m) (s_held m) (s_open m) (s_admitted m) (s_settled m) (s_accounts m ++ [a]) (s_sent m)
    (s_selections m) (s_logs m) (s_headers m).

Definition add_sent (a : Z) (m : summary) : summary :=
  Build_summary (s_keys m) (s_held m) (s_open m) (s_admitted m) (s_settled m) (s_accounts m) (s_sent m ++ [a])
    (s_selections m) (s_logs m) (s_headers m).

Definition add_selection (m : summary) : summary :=
  Build_summary (s_keys m) (s_held m) (s_open m) (s_admitted m) (s_settled m) (s_accounts m) (s_sent m)
    (s_selections m + 1) (s_logs m) (s_headers m).

Definition add_log (e : RequestLog) (m : summary) : summary :=
  Build_summary (s_keys m) (s_held m) (s_open m) (s_admitted m) (s_settled m) (s_accounts m) (s_sent m)
    (s_selections m) (s_logs m ++ [e]) (s_headers m).

Definition add_header (s : Z) (m : summary) : summary :=
  Build_summary (s_keys m) (s_held m) (s_open m) (s_admitted m) (s_settled m) (s_accounts m) (s_sent m)
    (s_selections m) (s_logs m) (s_headers m ++ [s]).

Definition observe (R : Set) (c : cmd R) : R → summary → summary :=
  match c in cmd R return R → summary → summary with
  | AuthenticateAPIKey _ => fun r m => match r with Ok k => add_key k m | Err _ => m end
  | AcquireGateway _ => fun r m => match r with Some x => hold x m | None => m end
  | AcquireKey _ _ => fun r m => match r with Some x => hold x m | None => m end
  | AcquireAccount a _ => fun r m => match r with Some x => add_account a (hold x m) | None => m end
  | Release x => fun _ m => unhold x m
  | SelectAccount _ _ => fun _ m => add_selection m
  | SelectByID _ _ _ _ => fun _ m => add_selection m
  | SelectSingle _ _ _ => fun _ m => add_selection m
  | AdmitAPIKeyBudget _ _ => fun r m => match r with Ok id => add_admission id m | Err _ => m end
  | SettleAPIKeyBudgetUsage q => fun _ m => add_settlement q m
  | Do a _ => fun r m =>
      let m := add_sent a m in
      match r with Ok resp => open_body (b_id (Body resp)) m | Err _ => m end
  | CloseBody id => fun _ m => close_body id m
  | WriteHeader s => fun _ m => add_header s m
  | CreateRequestLog e => fun _ m => add_log e m
  | _ => fun _ m => m
  end.

(** ** Admissible calls *)

Section protocol.
Variable p : Proxy.

(** - a slot is given back only while it is held;
    - nothing is sent upstream without an authenticated key, the slots of the
      gateway, of the key and of the account, and, with budgets configured, an
      admission; and only to the account whose slot was taken last;
    - a request is admitted to its budget at most once, and settled only under
      the identifier it was admitted with, with amounts that are not negative,
      after all slots and upstream bodies have been given back;
    - the log entry is the last of these, and there is one;
    - the status line is written once. *)
Definition admissible (R : Set) (c : cmd R) (m : summary) : Prop :=
  match c with
  | Release x => x ∈ s_held m
  | Do a _ => s_keys m ≠ [] ∧ length (s_held m) = 3%nat ∧ last (s_accounts m) = Some a ∧
              (has_budgets p = true → s_admitted m ≠ [])
  | AdmitAPIKeyBudget k _ => s_admitted m = [] ∧ ∃ key, s_keys m = [key] ∧ k = K_ID key
  | SettleAPIKeyBudgetUsage q =>
      s_admitted m = [Ledger.AdmissionID q] ∧ s_settled m = [] ∧ s_held m = [] ∧ s_open m = [] ∧
      0 ≤ Ledger.ObservedTokens q ∧ 0 ≤ Ledger.ObservedCostMicrousd q
  | CreateRequestLog _ => s_logs m = [] ∧ s_held m = [] ∧ s_open m = [] ∧
                          Ledger.AdmissionID <$> s_settled m = s_admitted m
  | WriteHeader _ => s_headers m = []
  | _ => True
  end.

(** What the environment's answers may be: a granted admission has an
    identifier, a response a status. *)
Definition answers (R : Set) (c : cmd R) : R → summary → Prop :=
  match c in cmd R return R → summary → Prop with
  | AdmitAPIKeyBudget _ _ => fun r _ => match r with Ok id => id ≠ "" | Err _ => True end
  | Do _ _ => fun r _ => match r with Ok resp => 100 ≤ StatusCode resp | Err _ => True end
  | _ => fun _ _ => True
  end.

Abbreviation wp := (wp observe admissible answers).

(** ** Parts that only touch the response *)

(** The recorder's status agrees with the status line sent. *)
Definition status_ok (l : locals) (m : summary) : Prop :=
  (s_headers m = [] ∧ (l_status l = 0 ∨ l_status l = 200)) ∨ (s_headers m = [l_status l] ∧ l_status l ≠ 0).

(** What stays the same outside the response, the bodies and the requests. *)
Definition frame (m m' : summary) : Prop :=
  s_keys m' = s_keys m ∧ s_held m' = s_held m ∧ s_admitted m' = s_admitted m ∧ s_settled m' = s_settled m ∧
  s_accounts m' = s_accounts m ∧ s_selections m' = s_selections m ∧ s_logs m' = s_logs m.

Definition moved (l : locals) (m : summary) (l' : locals) (m' : summary) : Prop :=
  frame m m' ∧ s_open m' = s_open m ∧ s_sent m' = s_sent m ∧
  l_admission l' = l_admission l ∧ l_panicked l' = l_panicked l ∧ status_ok l' m'.

Lemma moved_refl l m : status_ok l m → moved l m l m.
Proof. by repeat split. Qed.

Lemma moved_trans l1 m1 l2 m2 l3 m3 : moved l1 m1 l2 m2 → moved l2 m2 l3 m3 → moved l1 m1 l3 m3.
Proof. unfold moved, frame. intros. split_hyps. repeat split; congruence || done. Qed.

(** A change of the locals that keeps admission, status and panic. *)
Definition keeps (l l' : locals) : Prop :=
  l_admission l' = l_admission l ∧ l_status l' = l_status l ∧ l_panicked l' = l_panicked l.

Lemma moved_keeps l m l' m' l'' : keeps l' l'' → moved l m l' m' → moved l m l'' m'.
Proof.
  unfold moved, keeps, status_ok. intros (E1 & E2 & E3) (? & ? & ? & ? & ? & ?).
  rewrite E1, E2, E3. done.
Qed.

Lemma status_ok_keeps l l' m : keeps l l' → status_ok l m → status_ok l' m.
Proof. unfold keeps, status_ok. intros (_ & E & _). by rewrite E. Qed.

Lemma wp_call {R : Set} (c : cmd R) Q m :
  admissible _ c m → (∀ r, answers _ c r m → Q r (observe _ c r m)) → wp (call c) Q m.
Proof. done. Qed.

Lemma wp_metric_call x Q m : Q tt m → wp (metric_call p x) Q m.
Proof. unfold metric_call. destruct (has_metrics p); simpl; [by intros; split; [|intros []]|done]. Qed.

Lemma wp_begin_span t a r l Q m :
  (∀ l' s, keeps l l' → Q (l', s) m) → wp (begin_span t a r l) Q m.
Proof.
  intros HQ. split; [done|]. intros now _. cbn. destruct (beginAttempt _ _ _ _ _) as [d s]. by apply HQ.
Qed.

Lemma wp_finish_span s st c l Q m :
  (∀ l', keeps l l' → Q l' m) → wp (finish_span s st c l) Q m.
Proof. intros HQ. split; [done|]. intros now _. by apply HQ. Qed.

Lemma keeps_trans l1 l2 l3 : keeps l1 l2 → keeps l2 l3 → keeps l1 l3.
Proof. unfold keeps. intros. split_hyps. repeat split; congruence. Qed.

Lemma wp_rejection_span t a r st c l Q m :
  (∀ l', keeps l l' → Q l' m) → wp (rejection_span t a r st c l) Q m.
Proof.
  intros HQ. apply wp_bind, wp_begin_span. intros l1 s H1. apply wp_finish_span. intros l2 H2.
  apply HQ. by eapply keeps_trans.
Qed.

Lemma wp_fall_back reason l Q m : (∀ l', keeps l l' → Q l' m) → wp (fall_back p reason l) Q m.
Proof. intros HQ. apply wp_bind, wp_metric_call. by apply HQ. Qed.

Lemma wp_rec_WriteHeader s l Q m :
  s ≠ 0 → status_ok l m → (∀ l' m', moved l m l' m' → Q l' m') → wp (rec_WriteHeader s l) Q m.
Proof.
  intros Hs Hok HQ. unfold rec_WriteHeader. case_bool_decide as H0; simpl.
  - destruct Hok as [[Hh _]|[? ?]]; [|done]. split; [done|]. intros [] _. apply HQ.
    repeat split; try done. right. simpl. by rewrite Hh.
  - by apply HQ, moved_refl.
Qed.

Lemma wp_rec_Write d l Q m :
  status_ok l m → (∀ ok l' m', moved l m l' m' → Q (ok, l') m') → wp (rec_Write d l) Q m.
Proof.
  intros Hok HQ. split; [done|]. intros ok _. cbn. apply HQ. case_bool_decide as H0; [|by apply moved_refl].
  destruct Hok as [[Hh _]|[? ?]]; [|done]. repeat split; try done. left. by split; [|right].
Qed.

Lemma wp_writeOpenAIError s c msg l Q m :
  s ≠ 0 → status_ok l m → (∀ l' m', moved l m l' m' → Q l' m') → wp (writeOpenAIError s c msg l) Q m.
Proof.
  intros Hs Hok HQ. apply wp_bind. split; [done|]. intros [] _. cbn -[rec_WriteHeader rec_Write].
  apply wp_bind, wp_rec_WriteHeader; [done|done|]. intros l1 m1 Hm1.
  apply wp_bind, wp_rec_Write; [by destruct Hm1 as (_ & _ & _ & _ & _ & ?)|]. intros ok l2 m2 Hm2.
  by apply HQ; eapply moved_trans.
Qed.

Lemma wp_add_headers hs Q m : Q tt m → wp (add_headers hs) Q m.
Proof. intros HQ. induction hs as [|[k v] hs IH]; [done|]. split; [done|]. by intros []. Qed.

Lemma wp_with_snapshot t o e l Q m : (∀ o', Q (o', e, l) m) → wp (with_snapshot t o e l) Q m.
Proof. intros HQ. split; [done|]. intros now _. apply HQ. Qed.

Lemma moved_status l m l' m' : moved l m l' m' → status_ok l' m'.
Proof. by intros (_ & _ & _ & _ & _ & ?). Qed.

End protocol.

#[export] Hint Resolve moved_refl moved_status : n2api.

(** The step of a program at the head of the goal: a specification of the part
    that runs next. *)
Ltac wp_part :=
  match goal with
  | |- Effects.wp _ _ _ (bind _ _) _ _ => apply wp_bind
  | |- Effects.wp _ _ _ (metric_call _ _) _ _ => apply wp_metric_call
  | |- Effects.wp _ _ _ (with_snapshot _ _ _ _) _ _ => apply wp_with_snapshot; intros ?
  | |- Effects.wp _ _ _ (begin_span _ _ _ _) _ _ => apply wp_begin_span; intros ? ? ?
  | |- Effects.wp _ _ _ (finish_span _ _ _ _) _ _ => apply wp_finish_span; intros ? ?
  | |- Effects.wp _ _ _ (rejection_span _ _ _ _ _ _) _ _ => apply wp_rejection_span; intros ? ?
  | |- Effects.wp _ _ _ (fall_back _ _ _) _ _ => apply wp_fall_back; intros ? ?
  | |- Effects.wp _ _ _ (copyResponseHeaders _) _ _ => apply wp_add_headers
  | |- Effects.wp _ _ _ (Ret _) _ _ => cbn [Effects.wp]
  | |- Effects.wp _ _ _ (call _) _ _ => apply wp_call; [|intros ? ?; cbn [observe]]
  end.

(** A call whose answer is named. *)
Tactic Notation "wp_answer" ident(r) := wp_part; apply wp_call; [|intros r ?; cbn [observe]].

Section calls.
Variable p : Proxy.
Abbreviation wp := (Effects.wp observe (admissible p) answers).

Section delivery.
Variable json_Marshal : Usage.object → string.

Lemma wp_copy_loop route reads o t l Q m :
  status_ok l m → (∀ ob e l' m', moved l m l' m' → Q (ob, e, l') m') →
  wp (copy_loop json_Marshal route reads o t l) Q m.
Proof.
  revert o t l Q m. induction reads as [|r reads IH]; intros o t l Q m Hok HQ; cbn [copy_loop].
  - wp_part. wp_part; [done|]. repeat case_match; wp_part; auto with n2api.
  - wp_part. wp_part; [done|].
    set (ot := if bool_decide _ then _ else _). destruct ot as [o' t'].
    assert (∀ Q, (∀ ok l' m', moved l m l' m' → Q (ok, l') m') →
      wp (if bool_decide (rd_data r = []) then Ret (true, l) else rec_Write (rd_data r) l) Q m) as Hw.
    { intros Q' HQ'. case_bool_decide; [|by apply wp_rec_Write]. apply HQ'. auto with n2api. }
    wp_part. apply Hw. intros ok l1 m1 Hm1. destruct ok; cbn [negb]; [|wp_part; auto].
    destruct (rd_idle r); [wp_part; auto|]. destruct (rd_err r) as [e|].
    + wp_part. wp_part; [done|]. repeat case_match; wp_part; auto.
    + apply IH; [by eapply moved_status|]. intros ob e l2 m2 H2. apply HQ. by eapply moved_trans.
Qed.

Lemma wp_oauth_copy_loop route reads o t w l Q m :
  status_ok l m → (∀ ob e l' m', moved l m l' m' → Q (ob, e, l') m') →
  wp (oauth_copy_loop json_Marshal p route reads o t w l) Q m.
Proof.
  revert o t w l Q m. induction reads as [|r reads IH]; intros o t w l Q m Hok HQ; cbn [oauth_copy_loop].
  - wp_part. wp_part; [done|]. repeat case_match; wp_part; auto with n2api.
  - destruct (_ && _ && _); [wp_part; auto with n2api|]. wp_part. wp_part; [done|].
    set (ot := if bool_decide _ then _ else _). destruct ot as [o' t'].
    assert (∀ Q, (∀ ok l' m', moved l m l' m' → Q (ok, l') m') →
      wp (if bool_decide (rd_data r = []) then Ret (true, l) else rec_Write (rd_data r) l) Q m) as Hw.
    { intros Q' HQ'. case_bool_decide; [|by apply wp_rec_Write]. apply HQ'. auto with n2api. }
    wp_part. apply Hw. intros ok l1 m1 Hm1. destruct ok; cbn [negb]; [|wp_part; auto].
    destruct (rd_idle r); [wp_part; auto|]. destruct (rd_err r) as [e|].
    + wp_part. wp_part; [done|]. repeat case_match; wp_part; auto.
    + apply IH; [by eapply moved_status|]. intros ob e l2 m2 H2. apply HQ. by eapply moved_trans.
Qed.

Lemma wp_aggregate_loop fuel route parser t Q m :
  (∀ x, Q x m) → wp (aggregate_loop fuel route parser t) Q m.
Proof.
  revert parser t. induction fuel as [|fuel IH]; intros parser t HQ; cbn [aggregate_loop]; [apply HQ|].
  destruct (Sse.Next parser) as [[ev|e] parser'].
  - wp_part. wp_part; [done|]. destruct (negb _); [|apply HQ]. destruct (ev_err _); [apply HQ|auto].
  - wp_part. wp_part; [done|]. apply HQ.
Qed.

Lemma wp_writeBuffered resp route l Q m :
  100 ≤ StatusCode resp → status_ok l m → (∀ ob e l' m', moved l m l' m' → Q (ob, e, l') m') →
  wp (writeBufferedUpstreamResponse p resp route l) Q m.
Proof.
  intros Hs Hok HQ. unfold writeBufferedUpstreamResponse. wp_part. wp_part; [done|].
  destruct (read_limited _ _) as [data [err|]]; [wp_part; auto with n2api|].
  destruct (bool_decide _); [wp_part; auto with n2api|].
  wp_part. wp_part; [done|]. wp_part. wp_part.
  wp_part. apply wp_rec_WriteHeader; [lia|done|]. intros l1 m1 Hm1.
  wp_part. apply wp_rec_Write; [by eapply moved_status|]. intros ok l2 m2 Hm2.
  assert (moved l m l2 m2) by (by eapply moved_trans). destruct ok; cbn [negb]; wp_part; auto.
Qed.

(** Writing the response may close its body. *)
Lemma wp_writeUpstreamResponse resp route stream agg val l Q m :
  100 ≤ StatusCode resp → status_ok l m →
  (∀ ob e l' m', moved l m l' m' ∨ moved l (close_body (b_id (Body resp)) m) l' m' → Q (ob, e, l') m') →
  wp (writeUpstreamResponseWithOptions json_Marshal p resp route stream agg val l) Q m.
Proof.
  intros Hs Hok HQ. unfold writeUpstreamResponseWithOptions. destruct agg.
  - wp_part. unfold aggregateOAuthResponses. wp_part. wp_part; [done|].
    destruct (body_stream _) as [d0 e0]. destruct (bounded_stream _ d0 e0) as [d e].
    wp_part. apply wp_aggregate_loop. intros [[[o body] err] t].
    wp_part. wp_part; [done|]. wp_part. wp_part; [done|]. cbn [Effects.wp].
    assert (status_ok l (close_body (b_id (Body resp)) m)) as Hok' by done.
    destruct (_ && _); [apply HQ; right; auto with n2api|].
    wp_part. wp_part. do 3 (wp_part; wp_part; [done|]).
    wp_part. apply wp_rec_WriteHeader; [lia|done|]. intros l1 m1 Hm1.
    wp_part. apply wp_rec_Write; [by eapply moved_status|]. intros ok l2 m2 Hm2.
    apply HQ. right. by eapply moved_trans.
  - destruct stream; [|apply wp_writeBuffered; auto].
    wp_part. wp_part. wp_part. wp_part; [done|].
    wp_part. apply wp_rec_WriteHeader; [lia|done|]. intros l1 m1 Hm1.
    unfold copyOAuthStreamingResponse, copyStreamingResponse. destruct val; wp_part; (wp_part; [done|]).
    + apply wp_oauth_copy_loop; [by eapply moved_status|]. intros. apply HQ. left. by eapply moved_trans.
    + apply wp_copy_loop; [by eapply moved_status|]. intros. apply HQ. left. by eapply moved_trans.
Qed.
End delivery.

(** ** Selection and refresh *)

Lemma wp_select x ex Q m : (∀ r, Q r (add_selection m)) → wp (select x ex) Q m.
Proof. intros HQ. split; [done|]. intros [a e] _. apply HQ. Qed.

Lemma wp_selectAccountForRequest key model endpoint session aff ex Q m :
  (∀ x m', m' = m ∨ m' = add_selection m → Q x m') →
  wp (selectAccountForRequest p key model endpoint session aff ex) Q m.
Proof.
  intros HQ. assert (∀ x ex, wp (select x ex) Q m) as Hs.
  { intros. apply wp_select. intros. apply HQ. by right. }
  unfold selectAccountForRequest. destruct (negb _).
  { unfold selectAccountForKey, selectGlobalAccount. repeat case_match; auto; apply HQ; by left. }
  destruct (negb _); [apply HQ; by left|]. destruct (apiKeyRoutingPool key) as [pool name].
  destruct (bool_decide _).
  - split; [done|]. intros [a e] _. apply HQ. by right.
  - split; [done|]. intros [[a u] e] _. cbn. repeat case_match; apply HQ; by right.
Qed.

(** Calls that only inform collaborators. *)
Lemma wp_recordAccountUsed a Q m : (∀ b, Q b m) → wp (recordAccountUsed p a) Q m.
Proof. intros HQ. unfold recordAccountUsed. case_match; [split; [done|]; intros|]; apply HQ. Qed.

Lemma wp_recordAccountRecovered a Q m : Q tt m → wp (recordAccountRecovered p a) Q m.
Proof. intros HQ. unfold recordAccountRecovered. case_match; [done|split; [done|by intros []]]. Qed.

Lemma wp_recordAccountFailure a st ra msg Q m : Q tt m → wp (recordAccountFailure p a st ra msg) Q m.
Proof. intros HQ. unfold recordAccountFailure. case_match; [done|split; [done|by intros []]]. Qed.

Lemma wp_refresh sel st msg Q m : (∀ x, Q x m) → wp (refreshAccountAuthorization p sel st msg) Q m.
Proof. intros HQ. unfold refreshAccountAuthorization. case_match; [apply HQ|split; [done|intros; apply HQ]]. Qed.

Lemma wp_passThrough st body Q m : (∀ b, Q b m) → wp (shouldPassThroughUpstreamError p st body) Q m.
Proof. intros HQ. unfold shouldPassThroughUpstreamError. case_match; [apply HQ|split; [done|intros; apply HQ]]. Qed.

Lemma wp_persist id a pool now Q m : Q tt m → wp (persistResponseAffinity p id a pool now) Q m.
Proof.
  intros HQ. unfold persistResponseAffinity. case_match; [done|]. split; [done|]. intros [] _; [done|].
  split; [done|]. by intros [].
Qed.

Lemma captureFailure_spec resp :
  StatusCode (captureFailure resp).2 = StatusCode resp ∧ b_id (Body (captureFailure resp).2) = b_id (Body resp).
Proof. unfold captureFailure. destruct (read_limited _ _) as [d [e|]]; done. Qed.

(** ** The requests to one account *)

Section upstream.
Variables (json_Marshal : Usage.object → string) (upstream_url : string → string → option string).

(** The body can be turned into a request for the Codex endpoint. *)
Definition sendable (b : option string) : Prop :=
  ∀ raw, b = Some raw → normalizeCodexResponsesBody json_Marshal raw ≠ None.

Lemma newUpstreamRequest_sendable u r sel c b :
  sendable b → newUpstreamRequest json_Marshal upstream_url u r sel c b ≠ None.
Proof.
  intros Hb. unfold newUpstreamRequest. case_match; case_match; try done;
    destruct b as [raw|]; simpl; try done;
    specialize (Hb raw eq_refl); by destruct (normalizeCodexResponsesBody json_Marshal raw).
Qed.

(** The locals after a part that neither admits nor panics. *)
Definition stable (l l' : locals) (m' : summary) : Prop :=
  l_admission l' = l_admission l ∧ l_panicked l' = l_panicked l ∧ status_ok l' m'.

(** After the requests to one account: what was sent, and which body is left
    open. *)
Definition upstream_post (l : locals) (m : summary) (a : Z) (fuel : nat) (out : upstream_outcome) (m' : summary)
  : Prop :=
  ∃ k, (k ≤ fuel)%nat ∧ frame m m' ∧ s_sent m' = s_sent m ++ replicate k a ∧
  match out with
  | UDone u => stable l (UR_locals u) m' ∧
      match UR_resp u with
      | Ok resp => 100 ≤ StatusCode resp ∧ ∀ x, x ∈ s_open m' → x = b_id (Body resp)
      | Err _ => s_open m' = []
      end
  | UFailed l' => stable l l' m' ∧ s_open m' = []
  | UPanicked _ | UStuck _ => False
  end.

(** May something be sent to the account? *)
Definition may_send (a : Z) (m : summary) : Prop :=
  s_keys m ≠ [] ∧ length (s_held m) = 3%nat ∧ last (s_accounts m) = Some a ∧ (has_budgets p = true → s_admitted m ≠ []).

Lemma stable_keeps l l' m : keeps l l' → status_ok l m → stable l l' m.
Proof. unfold keeps, stable, status_ok. intros (-> & -> & ->). done. Qed.

Lemma frame_refl m : frame m m.
Proof. by repeat split. Qed.

Lemma frame_trans m1 m2 m3 : frame m1 m2 → frame m2 m3 → frame m1 m3.
Proof. unfold frame. intros. split_hyps. repeat split; congruence. Qed.

Lemma may_send_frame a m m' : frame m m' → may_send a m → may_send a m'.
Proof. unfold frame, may_send. intros (-> & -> & -> & _ & -> & _). done. Qed.

Lemma wp_answered sel s resp code out l Q m :
  (∀ l', keeps l l' → Q (UDone {| UR_resp := Ok resp; UR_span := s; UR_recorded := false; UR_locals := l' |}) m) →
  wp (answered p sel s resp code out l) Q m.
Proof. intros HQ. unfold answered, upstream_metric. repeat wp_part. auto. Qed.

Lemma wp_send_failed s code e l Q m :
  (∀ l', keeps l l' → Q (UDone {| UR_resp := Err e; UR_span := s; UR_recorded := false; UR_locals := l' |}) m) →
  wp (send_failed s code e l) Q m.
Proof. intros HQ. unfold send_failed. repeat wp_part. auto. Qed.

(** The postcondition once an answer with an open body is there. *)
Lemma upstream_post_Ok l l' m m1 a fuel s rec resp :
  frame m m1 → s_sent m1 = s_sent m ++ [a] → (1 ≤ fuel)%nat → 100 ≤ StatusCode resp →
  s_open m1 = [b_id (Body resp)] → status_ok l m1 → keeps l l' →
  upstream_post l m a fuel (UDone {| UR_resp := Ok resp; UR_span := s; UR_recorded := rec; UR_locals := l' |}) m1.
Proof.
  intros Hf Hs Hfuel Hst Ho Hok Hk. exists 1%nat. cbn [UR_resp UR_locals].
  split_and!; [done|done|done|by apply stable_keeps..|done|].
  rewrite Ho. by intros x ->%list_elem_of_singleton.
Qed.

Lemma upstream_post_Err l l' m m1 a fuel s rec e k :
  frame m m1 → s_sent m1 = s_sent m ++ replicate k a → (k ≤ fuel)%nat → s_open m1 = [] → status_ok l m1 → keeps l l' →
  upstream_post l m a fuel (UDone {| UR_resp := Err e; UR_span := s; UR_recorded := rec; UR_locals := l' |}) m1.
Proof. intros Hf Hs Hfuel Ho Hok Hk. exists k. cbn [UR_resp UR_locals]. by split_and!; try apply stable_keeps. Qed.

Lemma upstream_post_later l l1 m m1 a fuel out m' :
  frame m m1 → s_sent m1 = s_sent m ++ [a] → l_admission l1 = l_admission l → l_panicked l1 = l_panicked l →
  upstream_post l1 m1 a fuel out m' → upstream_post l m a (S fuel) out m'.
Proof.
  intros Hf Hs Ha Hp (k & Hk & Hf' & Hs' & Hout). exists (S k).
  split_and!; [lia|by eapply frame_trans|by rewrite Hs', Hs, <- app_assoc|].
  unfold stable in *. by destruct out; rewrite ?Ha, ?Hp in Hout.
Qed.

Lemma close_body_only id m : (∀ x, x ∈ s_open m → x = id) → s_open (close_body id m) = [].
Proof.
  cbn [close_body s_open]. induction (s_open m) as [|x o IH]; intros H; [done|].
  rewrite filter_cons_False; [|intros Hx; apply Hx, H; by constructor].
  apply IH. intros y Hy. apply H. by constructor.
Qed.

Lemma close_body_one id m : s_open m = [id] → s_open (close_body id m) = [].
Proof. intros E. apply close_body_only. rewrite E. by intros x ->%list_elem_of_singleton. Qed.

Lemma wp_refused again sel span id resp l Q m :
  (∀ l' resp' s rec, keeps l l' → StatusCode resp' = StatusCode resp → b_id (Body resp') = b_id (Body resp) →
     Q (UDone {| UR_resp := Ok resp'; UR_span := s; UR_recorded := rec; UR_locals := l' |}) m) →
  (∀ token l', keeps l l' → wp (again (set_token sel token) l') Q (close_body (b_id (Body resp)) m)) →
  wp (refused p again sel span id resp l) Q m.
Proof.
  intros Hdone Hagain. unfold refused. pose proof (captureFailure_spec resp) as [Hst Hid].
  destruct (captureFailure resp) as [[message failureBody] resp']. cbn [snd] in Hst, Hid.
  wp_part. apply wp_passThrough. intros pass. destruct pass; [apply wp_answered; auto|].
  wp_part. apply wp_refresh. intros [[[token retry] recorded] failed].
  destruct retry; cbn [negb]; [|apply wp_answered; auto].
  wp_part. apply wp_begin_span. intros l2 refresh Hk2. destruct (failed || _); unfold upstream_metric.
  - do 6 wp_part. wp_part. apply Hdone; [|done|done]. repeat (eapply keeps_trans; [eassumption|]). done.
  - do 6 wp_part. wp_part. wp_part; [done|]. rewrite Hid. apply Hagain.
    repeat (eapply keeps_trans; [eassumption|]). done.
Qed.

Lemma wp_upstream_loop fuel r c body maxA sel reason (retried : bool) l m :
  sendable body → ((if retried then 1 else 2) ≤ fuel)%nat → status_ok l m → s_open m = [] →
  may_send (AccountID sel) m →
  wp (upstream_loop json_Marshal upstream_url p fuel r c body maxA sel reason retried l)
    (upstream_post l m (AccountID sel) fuel) m.
Proof.
  intros Hb. revert sel reason retried l m.
  induction fuel as [|fuel IH]; intros sel reason retried l m Hfuel Hok Ho Hsend; [destruct retried; lia|].
  cbn [upstream_loop]. wp_part. wp_part; [done|]. wp_part. apply wp_begin_span. intros l0 span Hk.
  destruct (newUpstreamRequest _ _ _ _ _ _ _) as [[req|]|] eqn:Hreq; [| |by apply newUpstreamRequest_sendable in Hreq].
  2: { wp_part. wp_part. wp_part. exists O. rewrite app_nil_r.
       split_and!; [lia|apply frame_refl|done| |done]. apply stable_keeps; [|done]. eapply keeps_trans; eauto. }
  assert (status_ok l0 m) as Hok0 by (by eapply status_ok_keeps).
  wp_answer client; [done|]. destruct client; cbn [negb].
  2: { apply wp_send_failed. intros l2 Hk2. apply (upstream_post_Err _ _ _ _ _ _ _ _ _ 0); try done;
         [by rewrite app_nil_r|lia|by eapply keeps_trans]. }
  wp_answer res; [destruct Hsend as (?&?&?&?); by split_and!|].
  destruct res as [resp|e].
  2: { wp_part. wp_part; [done|]. wp_part. apply wp_send_failed. intros l2 Hk2. wp_part. wp_part; [done|].
       wp_part. unfold upstream_metric. wp_part. wp_part.
       apply (upstream_post_Err _ _ _ _ _ _ _ _ _ 1); try done; [lia|by eapply keeps_trans]. }
  set (m1 := open_body _ _).
  assert (frame m m1 ∧ s_sent m1 = s_sent m ++ [AccountID sel] ∧ s_open m1 = [b_id (Body resp)] ∧
          status_ok l m1 ∧ 100 ≤ StatusCode resp) as (Hf1 & Hs1 & Ho1 & Hok1 & Hst).
  { subst m1. split_and!; try done. simpl. by rewrite Ho. }
  clearbody m1. wp_answer now; [done|].
  set (l1 := set_diag _ (set_upstreamID _ l0)). assert (keeps l l1) as Hk1 by (by eapply keeps_trans).
  clearbody l1. clear dependent l0. destruct (_ || _ || _) eqn:Hret.
  { apply wp_answered. intros l2 Hk2. apply upstream_post_Ok; try done; [lia|by eapply keeps_trans]. }
  destruct retried; [done|]. apply wp_refused.
  - intros l2 resp' s rec Hk2 E1 E2. rewrite <- E2 in Ho1. rewrite <- E1 in Hst.
    apply upstream_post_Ok; try done; [lia|by eapply keeps_trans].
  - intros token l3 Hk3. pose proof (keeps_trans _ _ _ Hk1 Hk3) as (Ha3 & Hs3 & Hp3). eapply wp_mono.
    + apply IH; [lia|by apply (status_ok_keeps l)|by apply close_body_one|by apply (may_send_frame _ m)].
    + intros out m' Hout. by apply (upstream_post_later l l3 m (close_body (b_id (Body resp)) m1)).
Qed.
End upstream.

(** ** Delivery and what follows the upstream's answer *)

(** The account's slot is given back, and no body is left open. *)
Definition given_back (rel : Concurrency.release) (l : locals) (m : summary) (l' : locals) (m' : summary) : Prop :=
  stable l l' m' ∧ frame (unhold rel m) m' ∧ s_sent m' = s_sent m.

Lemma given_back_keeps rel l m l1 l2 m' : keeps l1 l2 → given_back rel l m l1 m' → given_back rel l m l2 m'.
Proof.
  intros Hk ((? & ? & ?) & ? & ?). split; [|by split]. pose proof Hk as (? & _ & ?).
  split_and!; try congruence. by eapply status_ok_keeps.
Qed.

Section delivering.
Variables (json_Marshal : Usage.object → string) (upstream_url : string → string → option string).

Lemma wp_deliver r sel pool started cs rel span resp l m :
  100 ≤ StatusCode resp → status_ok l m → (∀ x, x ∈ s_open m → x = b_id (Body resp)) → rel ∈ s_held m →
  wp (deliver json_Marshal p r sel pool started cs rel span resp l)
    (fun l' m' => given_back rel l m l' m' ∧ s_open m' = []) m.
Proof.
  intros Hst Hok Ho Hrel. unfold deliver. wp_part.
  apply wp_writeUpstreamResponse; [done|by eapply status_ok_keeps|]. intros ob e l1 m1 Hm1.
  assert (frame m m1 ∧ s_sent m1 = s_sent m ∧ (∀ x, x ∈ s_open m1 → x = b_id (Body resp)) ∧ stable l l1 m1)
    as (Hf1 & Hs1 & Ho1 & Hl1).
  { destruct Hm1 as [(? & E & ? & ? & ? & ?)|(? & E & ? & ? & ? & ?)]; rewrite E; split_and!; try done.
    rewrite close_body_only by done. by intros x ?%elem_of_nil. }
  clear Hm1. wp_part.
  assert (∀ Q, Q tt m1 → wp (if shouldStreamUpstreamResponseForClient r sel resp cs
     then metric_call p (ObserveStream (Path r) (O_StreamOutcome ob)) else Ret tt) Q m1) as Hmetric.
  { intros Q HQ. case_match; [by wp_part|done]. }
  apply Hmetric. clear Hmetric. wp_part.
  set (l2 := set_diag _ (set_usage _ l1)). assert (keeps l1 l2) as Hk2 by done. clearbody l2.
  assert (stable l l2 m1) as Hl2.
  { destruct Hl1 as (? & ? & ?), Hk2 as (? & ? & ?). split_and!; try congruence. by eapply status_ok_keeps. }
  eapply (wp_mono _ _ _ _ (fun l' m' => stable l l' m' ∧ frame m m' ∧ s_sent m' = s_sent m ∧ s_open m' = s_open m1)).
  - case_match; [by split_and!|]. destruct e as [e|]; [|by split_and!]. case_match; [by split_and!|].
    apply wp_writeOpenAIError; [done|destruct Hl2 as (_ & _ & ?); by apply (status_ok_keeps l2)|].
    intros l3 m3 (? & ? & ? & Ha & Hp & ?). destruct Hl2 as (? & ? & ?). simpl in Ha, Hp.
    split; [split_and!; try congruence; done|]. split; [by eapply frame_trans|]. split; congruence.
  - intros l3 m3 (Hl3 & Hf3 & Hs3 & Ho3). wp_part.
    assert (∀ Q, Q tt m3 → wp (if shouldPersistResponseAffinity (StatusCode resp)
      (shouldStreamUpstreamResponseForClient r sel resp cs) ob e
      then persistResponseAffinity p (O_ResponseID ob) (AccountID sel) pool started else Ret tt) Q m3) as Hp.
    { intros Q HQ. case_match; [by apply wp_persist|done]. }
    apply Hp. wp_part. wp_part; [done|]. wp_part. wp_part.
    { destruct Hf3 as (_ & E & _). change (rel ∈ s_held m3). by rewrite E. }
    wp_part. split; [|by rewrite <- (close_body_only (b_id (Body resp)) m3) by (by rewrite Ho3)].
    split; [done|]. split; [|done]. destruct Hf3 as (? & E & ? & ? & ? & ? & ?).
    unfold frame, unhold, close_body. simpl. rewrite E. by split_and!.
Qed.

(** The two ways an attempt can end. *)
Definition attempt_end (more : bool) (rel : Concurrency.release) (l : locals) (m : summary)
    (next : locals * string * option Z + locals) (m' : summary) : Prop :=
  match next with
  | inl (l', _, lst) => more = true ∧ given_back rel l m l' m' ∧ ∀ x, x ∈ s_open m' → lst = Some x
  | inr l' => given_back rel l m l' m' ∧ s_open m' = []
  end.

Lemma wp_after_upstream r pool started b more sel failed rel u l m :
  stable l (UR_locals u) m → rel ∈ s_held m →
  match UR_resp u with
  | Ok resp => 100 ≤ StatusCode resp ∧ ∀ x, x ∈ s_open m → x = b_id (Body resp)
  | Err _ => s_open m = []
  end →
  wp (after_upstream json_Marshal p r pool started b more sel failed rel u) (attempt_end more rel l m) m.
Proof.
  intros Hl Hrel Hresp. unfold after_upstream. destruct (UR_resp u) as [resp|e].
  - destruct Hresp as [Hst Ho].
    assert (∀ l1 resp1, stable l l1 m → StatusCode resp1 = StatusCode resp → b_id (Body resp1) = b_id (Body resp) →
      ∀ Q, (∀ l' m', given_back rel l m l' m' → s_open m' = [] → Q l' m') →
      wp (deliver json_Marshal p r sel pool started (P_stream b) rel (UR_span u) resp1 l1) Q m) as Hd.
    { intros l1 resp1 (Ha & Hp & Hok) Hs1 Hb1 Q HQ. eapply wp_mono.
      - apply wp_deliver; [by rewrite Hs1|done|by rewrite Hb1|done].
      - intros l' m' [((? & ? & ?) & ? & ?) ?]. apply HQ; [|done].
        split; [split_and!; try congruence; done|by split]. }
    assert (∀ l1 resp1, stable l l1 m → StatusCode resp1 = StatusCode resp → b_id (Body resp1) = b_id (Body resp) →
      wp ((if success (StatusCode resp) then recordAccountRecovered p (AccountID sel) else Ret tt) ;;
          let! l := deliver json_Marshal p r sel pool started (P_stream b) rel (UR_span u) resp1 l1 in Ret (inr l))
        (attempt_end more rel l m) m) as Hfin.
    { intros. wp_part. case_match; [apply wp_recordAccountRecovered|wp_part]; wp_part; (apply Hd; [done..|by split]). }
    destruct (retryableUpstreamStatus (StatusCode resp)); [|by apply Hfin].
    pose proof (captureFailure_spec resp) as [Hs' Hid].
    destruct (captureFailure resp) as [[message failureBody] resp']. cbn [snd] in *.
    wp_part. apply wp_passThrough. intros [].
    + wp_part. apply Hd; [done..|]. intros l' m' ? ?. wp_part. by split.
    + wp_part. assert (∀ Q, Q tt m → wp (if UR_recorded u then Ret tt
        else recordAccountFailure p (AccountID sel) (StatusCode resp) (h_get (R_Header resp') "Retry-After") message)
        Q m) as Hrec
        by (intros Q HQ; destruct (UR_recorded u); [exact HQ|by apply wp_recordAccountFailure]).
      apply Hrec. destruct more; [|by apply Hfin].
      wp_part. wp_part; [done|]. wp_part. wp_part. wp_part. split; [done|]. split.
      * eapply given_back_keeps; [eassumption|by split].
      * intros x Hx. rewrite Hid. f_equal. symmetry. by apply Ho.
  - wp_part. wp_part; [done|]. wp_answer ctx; [done|].
    assert (given_back rel l m (UR_locals u) (unhold rel m)) as Hg by (by split_and!; try apply Hl).
    destruct ctx; [by split|]. wp_part. apply wp_recordAccountFailure. destruct more.
    + wp_part. wp_part. wp_part. split; [done|]. split; [|cbn [unhold s_open]; rewrite Hresp; by intros x ?%elem_of_nil].
      by eapply given_back_keeps.
    + wp_part. apply wp_writeOpenAIError; [done|by apply Hg|]. intros l3 m3 (Hf & Ho3 & Hs3 & Ha & Hp & Hok3).
      wp_part. destruct Hg as ((? & ? & ?) & ? & ?). simpl in Ha, Hp. split; [|by rewrite Ho3].
      split; [split_and!; try congruence; done|]. split; [by eapply frame_trans|]. by rewrite Hs3.
Qed.
End delivering.
End calls.
End GatewaySpec.
