(* ===== verification/GatewayThms.v ===== *)
(** * The gateway: correctness of serving a request

    The invariant of a request's attempts, the proof that [ServeHTTP] follows
    the protocol of [GatewaySpec], and the theorems about its executions. *)

From S2P Require Import Prelude GoStrings Json Sse Usage Effects Limiters Ledger Account Scheduling.
From S2P Require Import GatewayTypes GatewayPure Gateway GatewayDemo GatewaySpec.
From Stdlib Require Import Ascii.
From Stdlib Require String.

Module GatewayThms.
Import Account Json GatewayTypes GatewayPure Gateway GatewaySpec.

Definition times (a : Z) (l : list Z) : Z := countZ (fun x => bool_decide (x = a)) l.

(** ** The invariant of a request *)

Section serving.
Variables (json_Marshal : Usage.object → string) (upstream_url : string → string → option string) (p : Proxy).
Abbreviation wp := (Effects.wp observe (admissible p) answers).

Record request_inv (key : APIKey) (H : list Concurrency.release) (ks kt : Z) (l : locals) (m : summary) : Prop := {
  ri_status : status_ok l m;
  ri_keys : s_keys m = [key];
  ri_held : s_held m = H;
  ri_admitted : s_admitted m = if str_eq (l_admission l) "" then [] else [l_admission l];
  ri_budgets : s_admitted m ≠ [] → has_budgets p = true;
  ri_settled : s_settled m = [];
  ri_logs : s_logs m = [];
  ri_selections : s_selections m ≤ ks;
  ri_sent : Z.of_nat (length (s_sent m)) ≤ kt;
  ri_nodup : NoDup (filter (fun a => a ≠ 0) (s_accounts m));
  ri_count a : a ≠ 0 → times a (s_sent m) ≤ 2;
  ri_sub a : a ∈ s_sent m → a ∈ s_accounts m
}.

Lemma inv_stable key H ks kt l l' m m' :
  request_inv key H ks kt l m → frame m m' → s_sent m' = s_sent m → stable l l' m' →
  request_inv key H ks kt l' m'.
Proof.
  intros [] (E1 & E2 & E3 & E4 & E5 & E6 & E7) Es (Ea & Ep & Ho).
  split; rewrite ?E1, ?E2, ?E3, ?E4, ?E5, ?E6, ?E7, ?Es, ?Ea, ?Ep; done.
Qed.

Lemma inv_moved key H ks kt l l' m m' :
  request_inv key H ks kt l m → moved l m l' m' → request_inv key H ks kt l' m' ∧ s_open m' = s_open m.
Proof.
  intros HI (? & ? & ? & ? & ? & ?). split; [|done]. by eapply inv_stable; [..|split_and!].
Qed.

Lemma inv_keeps key H ks kt l l' m :
  request_inv key H ks kt l m → keeps l l' → request_inv key H ks kt l' m.
Proof.
  intros HI Hk. eapply inv_stable; [done|by repeat split|done|]. destruct HI. by apply stable_keeps.
Qed.

Lemma inv_mono key H ks kt ks' kt' l m :
  request_inv key H ks kt l m → ks ≤ ks' → kt ≤ kt' → request_inv key H ks' kt' l m.
Proof. intros [] ? ?. split; try done; lia. Qed.

Lemma inv_given_back key H ks kt rel l l' m m' :
  request_inv key (rel :: H) ks kt l m → given_back rel l m l' m' → request_inv key H ks kt l' m'.
Proof.
  intros HI (Hl & (E1 & E2 & E3 & E4 & E5 & E6 & E7) & Es). destruct HI, Hl as (Ea & Ep & Ho).
  assert (s_held m' = H) as Eh.
  { rewrite E2. cbn [unhold s_held]. rewrite ri_held0. simpl. by rewrite bool_decide_eq_true_2. }
  split; rewrite ?E1, ?Eh, ?E3, ?E4, ?E5, ?E6, ?E7, ?Es, ?Ea, ?Ep; done.
Qed.

Lemma inv_selection key H ks kt l m m' :
  request_inv key H ks kt l m → m' = m ∨ m' = add_selection m → request_inv key H (ks + 1) kt l m'.
Proof. intros HI [-> | ->]; destruct HI; split; try done; simpl; lia. Qed.

(** Taking the slot of an account that has not had one. *)
Lemma inv_account key H ks kt rel a l m :
  request_inv key H ks kt l m → (a ≠ 0 → a ∉ s_accounts m) →
  request_inv key (rel :: H) ks kt l (add_account a (hold rel m)).
Proof.
  intros [] Ha. split; try done; simpl.
  - by rewrite ri_held0.
  - rewrite filter_app. destruct (decide (a ≠ 0)) as [Hne|Hz].
    + rewrite filter_cons_True by done. apply NoDup_app. split; [done|]. split; [|by repeat constructor; intros ?%elem_of_nil].
      intros x Hx ->%list_elem_of_singleton. apply list_elem_of_filter in Hx as [_ Hx]. by apply Ha.
    + rewrite filter_cons_False by done. by rewrite app_nil_r.
  - intros b Hb. apply elem_of_app. left. auto.
Qed.

Lemma times_app a l1 l2 : times a (l1 ++ l2) = times a l1 + times a l2.
Proof. apply sumZ_app. Qed.

Lemma times_replicate a b k : times a (replicate k b) = if bool_decide (b = a) then Z.of_nat k else 0.
Proof.
  induction k as [|k IH]; [by case_bool_decide|]. cbn [replicate]. unfold times, countZ in *.
  rewrite sumZ_cons, IH. case_bool_decide; simpl; lia.
Qed.

Lemma times_zero a l : a ∉ l → times a l = 0.
Proof.
  intros Ha. apply sumZ_zero. intros x Hx. rewrite bool_decide_eq_false_2; [done|]. by intros ->.
Qed.

(** Sending up to two requests to the account whose slot is new. *)
Lemma inv_sent key H ks kt k a l l' m m' :
  request_inv key H ks kt l m → (k ≤ 2)%nat → a ∈ s_accounts m → (a ≠ 0 → a ∉ s_sent m) →
  frame m m' → s_sent m' = s_sent m ++ replicate k a → stable l l' m' →
  request_inv key H ks (kt + 2) l' m'.
Proof.
  intros [] Hk Ha Hnew (E1 & E2 & E3 & E4 & E5 & E6 & E7) Es (Ea & Ep & Ho).
  split; rewrite ?E1, ?E2, ?E3, ?E4, ?E5, ?E6, ?E7, ?Es, ?Ea, ?Ep; try done.
  - rewrite length_app, length_replicate. lia.
  - intros b Hb. rewrite times_app, times_replicate. specialize (ri_count0 b Hb).
    case_bool_decide as Hab; [|lia]. subst b. rewrite times_zero by auto. lia.
  - intros b [Hb|Hb]%elem_of_app; [auto|]. apply elem_of_replicate in Hb as [-> _]. done.
Qed.

(** The end of the attempts: the slots they took are given back. *)
Definition served (key : APIKey) (H : list Concurrency.release) (k : Z) (l : locals) (m : summary) : Prop :=
  request_inv key H k (2 * k) l m ∧ s_open m = [].

(** ** The attempts *)

Lemma wp_error key H ks kt s c msg l Q m :
  s ≠ 0 → request_inv key H ks kt l m →
  (∀ l' m', request_inv key H ks kt l' m' → s_open m' = s_open m → Q l' m') →
  wp (writeOpenAIError s c msg l) Q m.
Proof.
  intros Hs HI HQ. apply wp_writeOpenAIError; [done|by destruct HI|]. intros l' m' Hm.
  destruct (inv_moved _ _ _ _ _ _ _ _ HI Hm) as [? ?]. auto.
Qed.

Lemma wp_close_last key H ks kt lst l Q m :
  request_inv key H ks kt l m → (∀ x, x ∈ s_open m → lst = Some x) →
  (∀ m', request_inv key H ks kt l m' → s_open m' = [] → s_accounts m' = s_accounts m → Q tt m') →
  wp (close_last lst) Q m.
Proof.
  intros HI Ho HQ. destruct lst as [id|]; simpl.
  - split; [done|]. intros [] _. apply HQ; [by destruct HI| |done].
    apply close_body_only. intros x Hx. apply Ho in Hx. congruence.
  - apply HQ; [done| |done]. destruct (s_open m) as [|x o]; [done|]. by specialize (Ho x ltac:(constructor)).
Qed.

Lemma wp_selection_failed key H ks kt sel e span lim lst l m :
  request_inv key H ks kt l m → (∀ x, x ∈ s_open m → lst = Some x) →
  wp (selection_failed p sel e span lim lst l)
    (fun l' m' => request_inv key H ks kt l' m' ∧ s_open m' = []) m.
Proof.
  intros HI Ho. unfold selection_failed. wp_part. eapply wp_close_last; [done|done|].
  intros m1 HI1 Ho1 _. clear HI Ho. destruct e as [e| |].
  - destruct (_ && _).
    all: wp_part; wp_part; wp_part; wp_part;
      (eapply wp_error; [done|eapply inv_keeps; eauto|]; intros l2 m2 ? ->; by split).
  - wp_part; wp_part. eapply wp_error; [done|eapply inv_keeps; eauto|]. intros l2 m2 ? ->. by split.
  - wp_part; wp_part. eapply wp_error; [done|eapply inv_keeps; eauto|]. intros l2 m2 ? ->. by split.
Qed.

(** Releasing a slot at the head of those held. *)
Lemma wp_release key H ks kt rel l Q m :
  request_inv key (rel :: H) ks kt l m →
  (∀ m', request_inv key H ks kt l m' → s_open m' = s_open m → Q tt m') →
  wp (call (Release rel)) Q m.
Proof.
  intros HI HQ. apply wp_call.
  - destruct HI. simpl. rewrite ri_held0. constructor.
  - intros [] _. apply HQ; [|done]. eapply inv_given_back; [done|]. destruct HI. by repeat split.
Qed.

(** What the admission leaves: the request goes on with an admission, or it has
    been answered and its slot is free. *)
Definition admit_post key H ks kt rel m (x : option locals * locals) (m' : summary) : Prop :=
  s_open m' = s_open m ∧
  match x.1 with
  | Some l' => request_inv key (rel :: H) ks kt l' m' ∧ (has_budgets p = true → s_admitted m' ≠ []) ∧
               s_accounts m' = s_accounts m ∧ s_sent m' = s_sent m
  | None => request_inv key H ks kt x.2 m'
  end.

Lemma wp_admit key H ks kt sel reason rel l m :
  request_inv key (rel :: H) ks kt l m →
  wp (admit_budget p key sel reason rel l) (admit_post key H ks kt rel m) m.
Proof.
  intros HI. unfold admit_budget. destruct (str_eq (l_admission l) "" && has_budgets p) eqn:Hb.
  - apply andb_true_iff in Hb as [Hl Hb]. wp_part. wp_part; [done|].
    assert (s_admitted m = []) as Hnone by (destruct HI; by rewrite ri_admitted0, Hl).
    wp_part. apply wp_call. { destruct HI. split; [done|eauto]. }
    intros [id|e] Hid; cbn [observe].
    + wp_part. split; [done|]. simpl in Hid. split; [|split; [|by split]].
      * destruct HI. split; try done. simpl. rewrite Hnone. unfold str_eq. by rewrite bool_decide_eq_false_2.
      * intros _. simpl. by rewrite Hnone.
    + wp_part. eapply wp_release; [done|]. intros m1 HI1 Ho1. clear HI. wp_part.
      apply wp_begin_span. intros lb sp Hlb.
      assert (∀ s c code msg l2, s ≠ 0 → keeps l l2 →
        wp (let! l0 := finish_span sp s code l2 in let! l1 := writeOpenAIError s c msg l0 in Ret (None, l1))
          (admit_post key H ks kt rel m) m1) as Hrej.
      { intros s c code msg l2 Hs Hk. wp_part. wp_part. wp_part.
        eapply wp_error; [done|repeat (eapply inv_keeps; [|eassumption]); done|].
        intros l3 m3 ? ?. wp_part. split; [congruence|done]. }
      destruct e; try (by apply Hrej).
      all: wp_part; wp_part; wp_part; wp_part; wp_part;
        (eapply wp_error; [done|repeat (eapply inv_keeps; [|eassumption]); done|];
         intros l3 m3 ? ?; wp_part; split; [congruence|done]).
  - wp_part. split; [done|]. split; [done|]. split; [|done]. intros Hbud. rewrite Hbud, andb_true_r in Hb.
    destruct HI. rewrite ri_admitted0, Hb. done.
Qed.

Lemma appendUnique_sub a fs x : x ∈ fs → x ∈ appendUniqueInt64 fs a.
Proof. unfold appendUniqueInt64. case_match; [done|]. intros. apply elem_of_app. by left. Qed.

Lemma appendUnique_new a fs : a ≠ 0 → a ∈ appendUniqueInt64 fs a.
Proof.
  intros Ha. unfold appendUniqueInt64. rewrite (bool_decide_eq_false_2 (a = 0)) by done. simpl.
  destruct (containsInt64 fs a) eqn:E.
  - apply existsb_exists in E as (x & Hx & ->%bool_decide_eq_true). by apply list_elem_of_In.
  - apply elem_of_app. right. constructor.
Qed.

Lemma containsInt64_false fs a : containsInt64 fs a = false → a ∉ fs.
Proof.
  intros E Ha. apply not_true_iff_false in E. apply E. apply existsb_exists. exists a.
  split; [by apply list_elem_of_In|by apply bool_decide_eq_true].
Qed.

(** One attempt: the invariant [Inv] at the head of the loop is the invariant of
    the request with [attempt] selections and [2 * attempt] requests, the
    accounts that had a slot among the failed ones, and no body open but the
    last retryable one. *)
Definition loop_inv key H attempt (s : loop_state) l m : Prop :=
  request_inv key H attempt (2 * attempt) l m ∧
  (∀ a, a ≠ 0 → a ∈ s_accounts m → a ∈ failedAccountIDs s) ∧
  (∀ x, x ∈ s_open m → lastRetryable s = Some x).

Section attempts.
Variables (r : Request) (cid : string) (key : APIKey) (settings : GatewaySettings) (pool : Z)
  (started : Time) (aff : responseAffinityRoute) (b : prepared) (maxAttempts : Z).
Hypothesis Hsend : sendable json_Marshal (P_body b).

(** With the slot of the account: how the attempt ends. *)
Definition slot_end H attempt (failed : list Z) (more : bool) (next : locals * string * option Z + locals)
    (m : summary) : Prop :=
  match next with
  | inl (l, _, lst) => more = true ∧ request_inv key H (attempt + 1) (2 * (attempt + 1)) l m ∧
      (∀ a, a ≠ 0 → a ∈ s_accounts m → a ∈ failed) ∧ ∀ x, x ∈ s_open m → lst = Some x
  | inr l => request_inv key H (attempt + 1) (2 * (attempt + 1)) l m ∧ s_open m = []
  end.

Lemma wp_use_account H attempt more sel reason failed rel l m :
  length H = 2%nat → request_inv key (rel :: H) (attempt + 1) (2 * attempt) l m → s_open m = [] →
  last (s_accounts m) = Some (AccountID sel) → (AccountID sel ≠ 0 → AccountID sel ∉ s_sent m) →
  (∀ a, a ≠ 0 → a ∈ s_accounts m → a ∈ failed) →
  wp (use_account json_Marshal upstream_url p r cid key pool started b maxAttempts more sel reason failed rel l)
    (slot_end H attempt failed more) m.
Proof.
  intros HH HI Ho Hlast Hnew Hacc. unfold use_account. wp_part. eapply wp_mono; [by apply wp_admit|].
  intros [[l1|] l1'] m1 [Ho1 Hm1]; cbn [fst snd] in Hm1.
  2: { wp_part. split; [|congruence]. eapply inv_mono; [done|lia..]. }
  destruct Hm1 as (HI1 & Hbud & Ha1 & Hs1). clear HI. wp_part. apply wp_recordAccountUsed. intros [].
  2: { cbn [negb]. wp_part. eapply wp_release; [done|]. intros m2 HI2 Ho2. wp_part. wp_part. wp_part.
       eapply wp_error; [done|eapply inv_keeps; [|eassumption]; by eapply inv_keeps|]. intros l3 m3 HI3 Ho3. wp_part.
       split; [eapply inv_mono; [done|lia..]|congruence]. }
  cbn [negb]. wp_part. set (l2 := set_upstreamID _ _). assert (request_inv key (rel :: H) (attempt + 1) (2 * attempt) l2 m1) as HI2
    by (by eapply inv_keeps). clearbody l2. clear HI1.
  assert (last (s_accounts m1) = Some (AccountID sel)) as Hlast1 by congruence.
  eapply wp_mono.
  { apply wp_upstream_loop; [done|done|by destruct HI2|congruence|]. destruct HI2. split_and!; try done.
    - by rewrite ri_keys0.
    - rewrite ri_held0. simpl. lia. }
  intros out m2 (k & Hk & Hf & Hs & Hout).
  assert (∀ l3, stable l2 l3 m2 → request_inv key (rel :: H) (attempt + 1) (2 * (attempt + 1)) l3 m2) as HI3.
  { intros l3 Hl3. replace (2 * (attempt + 1)) with (2 * attempt + 2) by lia.
    eapply inv_sent; [exact HI2|exact Hk| | |done|done|done].
    - apply last_Some in Hlast1 as [ls ->]. apply elem_of_app. right. constructor.
    - by rewrite Hs1. }
  assert (∀ a, a ≠ 0 → a ∈ s_accounts m2 → a ∈ failed) as Hacc2.
  { destruct Hf as (_ & _ & _ & _ & E & _). intros a Hz. rewrite E, Ha1. auto. }
  destruct out as [u|l3|l3|l3]; [|..]; try done.
  - destruct Hout as [Hst Hresp]. specialize (HI3 _ Hst). eapply wp_mono.
    + apply (wp_after_upstream _ _ _ _ _ _ _ _ _ _ _ (UR_locals u)); [| |done].
      * by destruct Hst as (? & ? & ?).
      * destruct HI3. rewrite ri_held0. constructor.
    + intros next m3 Hend. destruct next as [[[l4 rs] lst]|l4].
      * destruct Hend as (? & Hg & ?). split; [done|]. split; [by eapply inv_given_back|]. split; [|done].
        destruct Hg as (_ & (_ & _ & _ & _ & E & _) & _). intros a Hz. rewrite E. by apply Hacc2.
      * destruct Hend as [Hg ?]. split; [by eapply inv_given_back|done].
  - destruct Hout as [Hst Ho3]. wp_part. eapply wp_release; [by apply HI3|]. intros m3 HI4 Ho4. wp_part.
    eapply wp_error; [done|by eapply inv_keeps|]. intros l5 m5 HI5 Ho5. wp_part. split; [done|congruence].
Qed.

(** The slot of an account that has not been tried. *)
Lemma wp_use_fresh H attempt more sel reason failed rel l m :
  length H = 2%nat → request_inv key H (attempt + 1) (2 * attempt) l m → s_open m = [] →
  (AccountID sel ≠ 0 → AccountID sel ∉ s_accounts m) → (∀ a, a ≠ 0 → a ∈ s_accounts m → a ∈ failed) →
  let failed := appendUniqueInt64 failed (AccountID sel) in
  wp (use_account json_Marshal upstream_url p r cid key pool started b maxAttempts more sel reason failed rel l)
    (slot_end H attempt failed more) (add_account (AccountID sel) (hold rel m)).
Proof.
  intros HH HI Ho Hfresh Hacc failed'. apply wp_use_account; [done|by apply inv_account|done|simpl; by rewrite last_snoc|..].
  - intros Hz Hin. destruct HI. by apply Hfresh, ri_sub0.
  - simpl. intros a Hz [Ha|Ha%list_elem_of_singleton]%elem_of_app; [by apply appendUnique_sub, Hacc|].
    subst. by apply appendUnique_new.
Qed.

Lemma inv_begin H attempt l l1 m m1 :
  request_inv key H attempt (2 * attempt) l m → keeps l l1 → m1 = m ∨ m1 = add_selection m →
  request_inv key H (attempt + 1) (2 * attempt) l1 m1 ∧ s_accounts m1 = s_accounts m ∧ s_open m1 = s_open m.
Proof.
  intros HI Hk Hm1. split_and!; [|by destruct Hm1 as [-> | ->]..]. eapply inv_selection; [by eapply inv_keeps|done].
Qed.

Lemma wp_attempt_loop H n attempt s l m :
  length H = 2%nat → Z.of_nat n = maxAttempts - attempt → 0 ≤ attempt < maxAttempts →
  loop_inv key H attempt s l m →
  wp (attempt_loop json_Marshal upstream_url p r cid key settings pool started aff b maxAttempts n attempt s l)
    (served key H maxAttempts) m.
Proof.
  intros HH. revert attempt s l m. induction n as [|n IH]; intros attempt s l m Hn Hat (HI & Hacc & Ho); [lia|].
  assert (∀ l' m', request_inv key H (attempt + 1) (2 * attempt) l' m' → s_open m' = [] → served key H maxAttempts l' m')
    as Hserved.
  { intros l' m' HI' Ho'. split; [|done]. eapply inv_mono; [done|lia..]. }
  cbn [attempt_loop]. wp_part. apply wp_begin_span. intros l1 sp Hl1. wp_part.
  apply wp_selectAccountForRequest. intros [sel err] m1 Hm1.
  destruct (inv_begin _ _ _ l1 _ _ HI Hl1 Hm1) as (HI1 & Ha1 & Ho1).
  rewrite <- Ha1 in Hacc. rewrite <- Ho1 in Ho. clear HI Hm1 Ha1 Ho1 m Hl1.
  set (l2 := if str_eq (S_AccountType sel) "" then _ else _).
  assert (keeps l1 l2) as Hl2 by (subst l2; by case_match). clearbody l2.
  apply (fun X => inv_keeps _ _ _ _ _ _ _ X Hl2) in HI1. clear dependent l1.
  destruct err as [e|].
  { eapply wp_mono; [by eapply wp_selection_failed|]. intros l' m' [? ?]. auto. }
  wp_part. apply wp_finish_span. intros l3 Hl3. apply (fun X => inv_keeps _ _ _ _ _ _ _ X Hl3) in HI1. clear dependent l2.
  set (l4 := set_attemptCount _ l3). assert (keeps l3 l4) as Hl4 by done. clearbody l4.
  apply (fun X => inv_keeps _ _ _ _ _ _ _ X Hl4) in HI1. clear dependent l3.
  wp_part. eapply wp_close_last; [done|done|]. intros m2 HI2 Ho2 Ha2. rewrite <- Ha2 in Hacc. clear dependent m1.
  destruct (_ && _) eqn:Hseen.
  { wp_part. wp_part. eapply wp_error; [done|eapply inv_keeps; [|eassumption]; by eapply inv_keeps|].
    intros lx mx ? ?. apply Hserved; [done|congruence]. }
  assert (AccountID sel ≠ 0 → AccountID sel ∉ s_accounts m2) as Hfresh.
  { intros Hz Hin. rewrite (bool_decide_eq_false_2 (AccountID sel = 0)) in Hseen by done.
    apply (containsInt64_false _ _ Hseen). auto. }
  wp_answer slot; [done|]. destruct slot as [rel|].
  - wp_part. eapply wp_mono.
    + by apply wp_use_fresh.
    + intros [[[l5 rs] lst]|l5] m5; cbn [slot_end].
      * intros (Hmore & HI5 & Hacc5 & Ho5). apply bool_decide_eq_true in Hmore. apply IH; [lia|lia|done].
      * intros [HI5 Ho5]. split; [|done]. eapply inv_mono; [done|lia..].
  - wp_part. apply wp_rejection_span. intros l5 Hl5. destruct (bool_decide (attempt + 1 < maxAttempts)) eqn:Hmore.
    + apply bool_decide_eq_true in Hmore. wp_part. apply wp_fall_back. intros l6 Hl6.
      apply IH; [lia|lia|]. split_and!; simpl.
      * eapply inv_mono; [eapply inv_keeps; [by eapply inv_keeps|done]|lia..].
      * intros a Hz Ha. by apply appendUnique_sub, Hacc.
      * rewrite Ho2. by intros x ?%elem_of_nil.
    + wp_part. wp_part. eapply wp_error; [done|eapply (inv_keeps _ _ _ _ l5); [by eapply inv_keeps|done]|].
      intros lx mx ? ?. apply Hserved; [done|congruence].
Qed.
End attempts.

(** ** Body, slots and the rest of the request *)

(** The encoder turns a map that is not nil into an object. *)
Definition marshals_objects : Prop := ∀ o, unmarshal_map (json_Marshal o) ≠ Some None.

Lemma sendable_payload raw o : unmarshal_map raw = Some (Some o) → sendable json_Marshal (Some raw).
Proof.
  intros E raw' [= <-]. unfold normalizeCodexResponsesBody. case_match; [done|]. by rewrite E.
Qed.

Lemma sendable_marshal o : marshals_objects → sendable json_Marshal (Some (json_Marshal o)).
Proof.
  intros Hm raw [= <-]. unfold normalizeCodexResponsesBody. case_match; [done|]. specialize (Hm o).
  by destruct (unmarshal_map (json_Marshal o)) as [[x|]|].
Qed.

Lemma wp_defaultModel Q m : (∀ x, Q x m) → wp (defaultModel p) Q m.
Proof. intros HQ. unfold defaultModel. case_match; [apply HQ|]. split; [done|]. intros x _. apply HQ. Qed.

Lemma wp_normalize raw Q m :
  marshals_objects →
  (∀ x, match x with Some (Ok (raw', _, _, _, _)) => sendable json_Marshal (Some raw') | _ => True end → Q x m) →
  wp (normalizeModelRequestBodyWithStream json_Marshal p raw) Q m.
Proof.
  intros Hm HQ. unfold normalizeModelRequestBodyWithStream.
  destruct (request_payload raw) as [payload|] eqn:Hp; [|by apply HQ].
  destruct (model_request_fields (members payload)) as [[[[model session] previous] stream]|] eqn:Hf; [|by apply HQ].
  destruct (str_eq model "") eqn:He.
  - wp_part. apply wp_defaultModel. intros [model'|e]; [|by apply HQ].
    destruct payload; [|by apply HQ]. apply HQ. by apply sendable_marshal.
  - case_bool_decide as Heq; apply HQ; [|by apply sendable_marshal].
    unfold request_payload in Hp. destruct (str_eq (TrimSpace raw) ""); [by simplify_eq|].
    destruct payload as [o|]; [by eapply sendable_payload|done].
Qed.

Definition ready (b : prepared) : Prop :=
  sendable json_Marshal (P_body b) ∧ (P_maxAttempts b = 1 ∨ P_maxAttempts b = 5).

Lemma wp_requestBodyFactory r Q m :
  marshals_objects → (str_eq (Method r) "POST" = true → routeRequiresModel r = true) →
  (∀ x, match x with BodyReady b => ready b | _ => True end → Q x m) →
  wp (requestBodyFactoryWithOptions json_Marshal p r) Q m.
Proof.
  intros Hm Hroute HQ. unfold requestBodyFactoryWithOptions. destruct (_ || _) eqn:Hpost.
  { apply HQ. split; [by intros raw [=]|by right]. }
  apply orb_false_iff in Hpost as [Hpost%negb_false_iff _].
  assert (∀ x, match x with BodyReady b => ready b | _ => True end →
    wp (call CloseRequestBody ;; Ret x) Q m) as Hclose.
  { intros x Hx. wp_part. wp_part; [done|]. by apply HQ. }
  wp_part. destruct (bool_decide _); [by apply Hclose|]. unfold read_body. wp_part. wp_part; [done|].
  destruct r0 as [data err]. destruct (limited_body p data err) as [body|e].
  - case_match; [by apply Hclose|]. rewrite (Hroute Hpost). wp_part. apply wp_normalize; [done|].
    intros [[[[[[raw model] session] previous] stream]|e]|] Hx; apply Hclose; try done.
    split; [done|]. cbn [P_maxAttempts]. case_match; [by left|by right].
  - case_match; [by apply Hclose|]. wp_part. wp_part; [done|]. by apply Hclose.
Qed.

Lemma wp_prepare_body key H ks kt r l Q m :
  marshals_objects → (str_eq (Method r) "POST" = true → routeRequiresModel r = true) →
  request_inv key H ks kt l m →
  (∀ x m', request_inv key H ks kt x.2 m' → s_open m' = s_open m → s_accounts m' = s_accounts m →
     match x.1 with Some b => ready b | None => True end → Q x m') →
  wp (prepare_body json_Marshal p r l) Q m.
Proof.
  intros Hm Hroute HI HQ. assert (∀ s c msg l2, s ≠ 0 → keeps l l2 →
    wp (let! l3 := writeOpenAIError s c msg l2 in Ret (None, l3)) Q m) as Herr.
  { intros s c msg l2 Hs Hk. wp_part. apply wp_writeOpenAIError; [done|by destruct HI; eapply status_ok_keeps|].
    intros l3 m3 Hm3. apply (fun X => inv_keeps _ _ _ _ _ _ _ X Hk) in HI.
    destruct (inv_moved _ _ _ _ _ _ _ _ HI Hm3) as [? ?]. destruct Hm3 as ((_ & _ & _ & _ & ? & _) & _).
    by apply HQ. }
  assert (∀ Q, (∀ x, Q x m) → wp (armRequestBodyDeadline p r) Q m) as Harm.
  { intros Q' HQ'. unfold armRequestBodyDeadline. case_match; [apply HQ'|]. wp_part. wp_part; [done|].
    wp_part. wp_part; [done|]. apply HQ'. }
  unfold prepare_body. wp_part. apply Harm. intros [deadline|e]; [|by apply Herr].
  wp_part. apply wp_requestBodyFactory; [done|done|]. intros res Hres.
  assert (∀ res' c t, match res' with BodyReady b => ready b | _ => True end →
    wp (match match res', c with BodyReady _, Some c => BodyFailed (BodyCtx c) | _, _ => res' end with
        | BodyReady b => Ret (Some b, l)
        | BodyFailed e => if bool_decide (is_Some c) && negb t then Ret (None, fail "request_canceled" l)
            else let! l0 := writeOpenAIError (requestBodyErrorStatus e) (requestBodyErrorCode e)
                   (requestBodyErrorMessage e) (fail (requestBodyErrorCode e) l) in Ret (None, l0)
        | BodyPanicked => Ret (None, l)
        end) Q m) as Hend.
  { intros res' c t Hr. assert (∀ e, requestBodyErrorStatus e ≠ 0) as Hst by (by intros [| | | | | |[]|]).
    destruct res' as [b|e|], c as [c|]; try (by apply HQ);
      (destruct (bool_decide _ && negb t); [apply HQ; [by eapply inv_keeps|done..]|by apply Herr]). }
  destruct res as [b|e|]; [| |by apply HQ; [by destruct HI|..]].
  - wp_answer ctx; [done|]. wp_part. wp_part. wp_part. destruct (_ && _); [|by apply (Hend (BodyReady b) ctx false)].
    wp_answer err; [done|]. wp_part.
    destruct err; [by apply (Hend (BodyFailed errRequestBodyDeadline) ctx false)|by apply (Hend (BodyReady b) ctx false)].
  - wp_answer ctx; [done|]. wp_part. eapply (wp_mono _ _ _ _ (fun _ m' => m' = m)).
    + case_match; [wp_answer now; [done|]; by wp_part|by wp_part].
    + intros timedOut m' ->. wp_part.
      destruct (_ && negb _); [wp_answer err; [done|]; wp_part|wp_part]; by apply (Hend (BodyFailed e) ctx).
Qed.

(** Five attempts, two requests for each, is what serving a request comes to. *)
Definition served_all key H := served key H 5.

Lemma served_of_inv key H ks kt l m :
  request_inv key H ks kt l m → ks ≤ 5 → kt ≤ 10 → s_open m = [] → served_all key H l m.
Proof. intros. split; [|done]. by eapply inv_mono. Qed.

Lemma wp_serve_admitted rel relKey r id key settings pool started l m :
  marshals_objects → (str_eq (Method r) "POST" = true → routeRequiresModel r = true) →
  request_inv key [relKey; rel] 0 0 l m → s_open m = [] → s_accounts m = [] →
  wp (serve_admitted json_Marshal upstream_url p r id key settings pool started l)
    (served_all key [relKey; rel]) m.
Proof.
  intros Hm Hroute HI Ho Ha. unfold serve_admitted. wp_part.
  eapply wp_prepare_body; [done|done|done|]. intros [[b|] l1] m1; cbn [fst snd]; intros HI1 Ho1 Ha1 Hb.
  2: { wp_part. eapply served_of_inv; [done|lia..|congruence]. }
  rewrite Ho in Ho1. rewrite Ha in Ha1. clear HI Ho Ha.
  set (l2 := set_session _ _). assert (request_inv key [relKey; rel] 0 0 l2 m1) as HI2 by (by eapply inv_keeps).
  clearbody l2. clear HI1.
  assert (∀ s c msg code, s ≠ 0 → wp (writeOpenAIError s c msg (fail code l2)) (served_all key [relKey; rel]) m1) as Herr.
  { intros s c msg code Hs. eapply wp_error; [done|by eapply inv_keeps|]. intros l3 m3 ? ?.
    eapply served_of_inv; [done|lia..|congruence]. }
  destruct (_ && _); [by apply Herr|]. wp_part. unfold responseAffinitySelection.
  assert (∀ aff, wp (match aff with
    | Some aff => attempt_loop json_Marshal upstream_url p r id key settings pool started aff b
        (if affinity_enabled aff then 1 else P_maxAttempts b)
        (Z.to_nat (if affinity_enabled aff then 1 else P_maxAttempts b)) 0
        {| failedAccountIDs := []; concurrencyLimited := false; nextFallbackReason := ""; lastRetryable := None |} l2
    | None => writeOpenAIError 500 "response_affinity_lookup_failed" "could not resolve response account affinity"
        (fail "response_affinity_lookup_failed" l2)
    end) (served_all key [relKey; rel]) m1) as Hgo.
  { destruct Hb as [Hsend Hmax]. intros [aff|]; [|by apply Herr].
    assert (0 < (if affinity_enabled aff then 1 else P_maxAttempts b) ≤ 5) by (case_match; lia).
    eapply wp_mono.
    - apply (wp_attempt_loop _ _ _ _ _ _ _ _ _ Hsend [relKey; rel]); [done|rewrite Z2Nat.id; lia|lia|]. split; [done|]. rewrite Ho1, Ha1.
      split; [by intros a _ ?%elem_of_nil|by intros x ?%elem_of_nil].
    - intros l3 m3 [HI3 Ho3]. eapply served_of_inv; [done|lia..|done]. }
  case_match; [wp_part; apply (Hgo (Some _))|]. wp_answer found; [done|]. wp_part. apply Hgo.
Qed.

Lemma wp_writeLocalModels key l Q m :
  status_ok l m → (∀ ok l' m', moved l m l' m' → Q (ok, l') m') → wp (writeLocalModels json_Marshal p key l) Q m.
Proof.
  intros Hok HQ. assert (∀ ms, wp (writeModelList json_Marshal key ms l) Q m) as Hlist.
  { intros ms. unfold writeModelList. wp_part. wp_part; [done|]. by apply wp_rec_Write. }
  unfold writeLocalModels. destruct (K_RoutingPoolID key) as [pool|]; [|apply Hlist].
  destruct (_ && _); [|apply Hlist]. destruct (negb _); [apply Hlist|].
  wp_answer ms; [done|]. destruct ms; [apply Hlist|]. wp_part. by apply HQ, moved_refl.
Qed.

Lemma wp_setRetryAfter s Q m : Q tt m → wp (setRetryAfterHeader s) Q m.
Proof. intros HQ. unfold setRetryAfterHeader. case_match; [done|]. apply wp_call; [done|]. by intros []. Qed.
Lemma wp_serve_request r id key settings started l m :
  marshals_objects → (str_eq (Method r) "POST" = true → routeRequiresModel r = true) →
  request_inv key [] 0 0 l m → s_open m = [] → s_accounts m = [] →
  wp (serve_request json_Marshal upstream_url p r id key settings started l) (served_all key []) m.
Proof.
  intros Hm Hroute HI Ho Ha. unfold serve_request.
  assert (∀ H s c msg l2 m2, s ≠ 0 → request_inv key H 0 0 l2 m2 → s_open m2 = [] →
    wp (writeOpenAIError s c msg l2) (served_all key H) m2) as Herr.
  { intros H s c msg l2 m2 Hs HI2 Ho2. eapply wp_error; [done|done|]. intros l3 m3 ? ?.
    eapply served_of_inv; [done|lia..|congruence]. }
  assert (∀ s c msg l2, s ≠ 0 → keeps l l2 → wp (writeOpenAIError s c msg l2) (served_all key []) m) as Hrej.
  { intros s c msg l2 Hs Hk. apply Herr; [done|by eapply inv_keeps|done]. }
  wp_part. apply wp_call; [done|]. intros [retryAfter ok] _. cbn [observe]. destruct ok; cbn [negb].
  2: { do 2 wp_part. wp_part. apply wp_setRetryAfter. by apply Hrej. }
  destruct (_ && _).
  { wp_part. apply wp_writeLocalModels; [by destruct HI|]. intros ok l1 m1 Hm1.
    destruct (inv_moved _ _ _ _ _ _ _ _ HI Hm1) as [HI1 Ho1]. rewrite Ho in Ho1.
    destruct ok; [by eapply served_of_inv|]. apply Herr; [done|by eapply inv_keeps|done]. }
  destruct (K_RoutingPoolID key) as [pool|]; [|by apply Hrej].
  destruct (bool_decide (pool ≤ 0)); [by apply Hrej|].
  destruct (negb (has_accounts p)); [by apply Hrej|].
  wp_part. apply wp_call; [done|]. intros [retryAfter2 ok] _. cbn [observe]. destruct ok; cbn [negb].
  2: { do 2 wp_part. wp_part. apply wp_setRetryAfter. by apply Hrej. }
  wp_answer slot; [done|]. destruct slot as [rel|]; [|do 2 wp_part; by apply Hrej].
  assert (∀ x hs l2 m2, request_inv key hs 0 0 l2 m2 → request_inv key (x :: hs) 0 0 l2 (hold x m2)) as Hhold.
  { intros x hs l2 m2 []. split; try done. simpl. by f_equal. }
  assert (∀ x hs l2 m2, served_all key (x :: hs) l2 m2 →
    wp (call (Release x) ;; Ret l2) (served_all key hs) m2) as Hrel.
  { intros x hs l2 m2 [HI2 Ho2]. wp_part. eapply wp_release; [done|]. intros m3 HI3 Ho3. wp_part.
    split; [done|congruence]. }
  wp_part. wp_part. apply wp_call; [done|]. intros [relKey|] _; cbn [observe].
  - wp_part. eapply wp_mono; [apply (wp_serve_admitted rel relKey); [done|done|by apply Hhold, Hhold|done|done]|].
    intros l2 m2 Hs2. eapply wp_mono; [by apply Hrel|]. intros l3 m3 Hs3. by apply Hrel.
  - wp_part. wp_part. eapply wp_mono; [apply Herr; [done|eapply inv_keeps; [by apply Hhold|done]|done]|].
    intros l2 m2 Hs2. by apply Hrel.
Qed.

(** ** The end of a request *)

(** What the ledger is charged is what the log entry says. *)
Definition charged_as_logged (q : Ledger.APIKeyBudgetSettlementRequest) (e : RequestLog) : Prop :=
  Ledger.ObservedTokens q = Z.max (Usage.TotalTokens (L_Usage e)) 0 ∧
  Ledger.ObservedCostMicrousd q = Z.max (EstimatedCostMicrousd e) 0 ∧
  Ledger.UsageKnown q = negb (str_eq (Usage.Source (L_Usage e)) "missing").

(** The status of the log entry is the one the client got; no status line means 200. *)
Definition logged_status (e : RequestLog) (m : summary) : Prop :=
  s_headers m = [] ∧ L_StatusCode e = 200 ∨ s_headers m = [L_StatusCode e].

Definition log_of (key : APIKey) (m : summary) (e : RequestLog) : Prop :=
  ClientKeyID e = K_ID key ∧ logged_status e m ∧ ∀ q, q ∈ s_settled m → charged_as_logged q e.

Definition bounded_attempts (m : summary) : Prop :=
  s_selections m ≤ 5 ∧ (length (s_sent m) ≤ 10)%nat ∧ NoDup (filter (fun a => a ≠ 0) (s_accounts m)) ∧
  ∀ a, a ∈ s_sent m → a ∈ s_accounts m ∧ (a ≠ 0 → times a (s_sent m) ≤ 2).

Record finished (key : APIKey) (m : summary) : Prop := {
  f_held : s_held m = [];
  f_open : s_open m = [];
  f_keys : s_keys m = [key];
  f_settled : Ledger.AdmissionID <$> s_settled m = s_admitted m;
  f_admitted : (length (s_admitted m) ≤ 1)%nat;
  f_attempts : bounded_attempts m;
  f_logs : if has_logger p then ∃ e, s_logs m = [e] ∧ log_of key m e else s_logs m = []
}.

Lemma wp_settle key l u cost Q m :
  request_inv key [] 5 10 l m → s_open m = [] →
  (s_admitted m = [] → Q tt m) →
  (∀ q, s_admitted m = [Ledger.AdmissionID q] → Ledger.ObservedTokens q = Z.max (Usage.TotalTokens u) 0 →
     Ledger.ObservedCostMicrousd q = Z.max cost 0 → Ledger.UsageKnown q = negb (str_eq (Usage.Source u) "missing") →
     Q tt (add_settlement q m)) →
  wp (settle p l u cost) Q m.
Proof.
  intros HI Ho HQ0 HQ. pose proof HI as []. unfold settle. rewrite ri_admitted0 in HQ, HQ0, ri_budgets0.
  destruct (str_eq (l_admission l) "") eqn:Hl; [by apply HQ0|]. rewrite ri_budgets0 by done. cbn [negb andb].
  wp_answer now; [done|]. wp_answer ok; [simpl; split_and!; [done|done|done|done|lia..]|].
  destruct ok; [by apply HQ|]. apply wp_call; [done|]. intros [] _. by apply HQ.
Qed.

Lemma wp_finishMetrics r started l Q m :
  (∀ l', keeps l l' → Q l' m) → wp (finishMetrics p r started l) Q m.
Proof.
  intros HQ. unfold finishMetrics. destruct (_ || _); [by apply HQ|]. wp_answer now; [done|]. wp_answer x; [done|].
  by apply HQ.
Qed.

Lemma wp_logRequest e (Q : unit → summary → Prop) m :
  s_logs m = [] → s_held m = [] → s_open m = [] → Ledger.AdmissionID <$> s_settled m = s_admitted m →
  Q tt (if has_logger p then add_log e m else m) → wp (logRequest p e) Q m.
Proof.
  intros. unfold logRequest. destruct (has_logger p); simpl; [|done].
  split; [done|]. intros ok _. split; [done|]. by intros [].
Qed.

(** The log entry of a request whose ledger entries are settled. *)
Lemma finished_logged key r id started now u cost l m :
  request_inv key [] 5 10 l m → s_open m = [] →
  let e := log_entry r id key started now u cost l in
  ∀ qs, Ledger.AdmissionID <$> qs = s_admitted m → (∀ q, q ∈ qs → charged_as_logged q e) →
  let m' := foldr add_settlement m qs in s_settled m' = qs →
  finished key (if has_logger p then add_log e m' else m').
Proof.
  intros HI Ho e qs Hqs Hch m' Hm'. destruct HI.
  assert (s_keys m' = [key] ∧ s_held m' = [] ∧ s_open m' = [] ∧ s_admitted m' = s_admitted m ∧
    s_accounts m' = s_accounts m ∧ s_sent m' = s_sent m ∧ s_selections m' = s_selections m ∧ s_logs m' = [] ∧
    s_headers m' = s_headers m) as (E1 & E2 & E3 & E4 & E5 & E6 & E7 & E8 & E9).
  { subst m'. clear Hm' Hqs Hch. induction qs as [|q qs IH]; [by split_and!|]. exact IH. }
  clearbody m'.
  assert (bounded_attempts m') as Hb.
  { unfold bounded_attempts. rewrite E5, E6, E7. split_and!; [lia|lia|done|]. auto. }
  assert (log_of key m' e) as Hlog.
  { split; [done|]. split; [|by rewrite Hm']. unfold logged_status. rewrite E9. subst e. simpl. unfold statusCode.
    destruct ri_status0 as [[? [-> | ->]]|[? ?]]; [by left|by left|right]. by rewrite bool_decide_eq_false_2. }
  assert ((length (s_admitted m') ≤ 1)%nat) by (rewrite E4, ri_admitted0; case_match; simpl; lia).
  destruct (has_logger p) eqn:Hl; split; simpl; rewrite ?E4, ?Hm', ?Hl, ?E8; try done; try congruence.
  by exists e.
Qed.

Lemma wp_finish_request r id key settings started l m :
  request_inv key [] 5 10 l m → s_open m = [] →
  wp (finish_request p r id key settings started l) (fun _ m' => finished key m') m.
Proof.
  intros HI Ho. unfold finish_request. wp_part. set (u := with_model (l_usage l) (l_model l)).
  assert (∀ lim (Q : unit → summary → Prop), Q tt m → wp (recordAPIKeyUsage (K_ID key) (Usage.TotalTokens u) lim) Q m) as Hrec.
  { intros lim Q HQ. unfold recordAPIKeyUsage. case_match; [done|]. apply wp_call; [done|]. by intros []. }
  apply Hrec. clear Hrec. wp_part.
  assert (∀ Q, (∀ c, Q c m) → wp (estimateUsageCost p u) Q m) as Hcost.
  { intros Q HQ. unfold estimateUsageCost. case_match; [apply HQ|]. wp_answer c; [done|]. apply HQ. }
  apply Hcost. clear Hcost. intros cost. do 2 wp_part. wp_part. apply wp_finishMetrics. intros l1 Hl1.
  apply (fun X => inv_keeps _ _ _ _ _ _ _ X Hl1) in HI. wp_part. eapply wp_settle; [done|done|..].
  - intros Hnone. wp_answer now; [done|]. pose proof HI as [].
    apply wp_logRequest; [done|done|done|by rewrite ri_settled0, Hnone|].
    apply (finished_logged _ _ _ _ _ _ _ _ _ HI Ho []); [by rewrite Hnone|by intros q ?%elem_of_nil|done].
  - intros q Hid Ht Hc Hk. wp_answer now; [done|]. pose proof HI as [].
    apply wp_logRequest; [done|done|done|simpl; by rewrite ri_settled0, Hid|].
    apply (finished_logged _ _ _ _ _ _ _ _ _ HI Ho [q]); [by rewrite Hid| |simpl; by rewrite ri_settled0].
    by intros x ->%list_elem_of_singleton.
Qed.

(** ** Serving a request *)

(** A request turned away before its key is known does nothing but answer. *)
Definition turned_away (m : summary) : Prop := ∃ s, m = add_header s nothing_done.

Lemma wp_ServeHTTP r :
  marshals_objects →
  wp (ServeHTTP json_Marshal upstream_url p r) (fun _ m => turned_away m ∨ ∃ key, finished key m) nothing_done.
Proof.
  intros Hm. unfold ServeHTTP. wp_part.
  assert (∀ Q, (∀ r' id, Method r' = Method r → Path r' = Path r → Q (r', id) nothing_done) →
    wp (withGatewayCorrelationID r) Q nothing_done) as Hid.
  { intros Q HQ. unfold withGatewayCorrelationID, NormalizeCorrelationID. wp_part.
    assert (∀ id, wp (call (SetHeader "X-Request-ID" id) ;; Ret
       ({| Method := Method r; Path := Path r; RawQuery := RawQuery r;
           Header := h_set (Header r) "X-Request-ID" id; ContentLength := ContentLength r;
           HasBody := HasBody r; ContextCorrelationID := Some id |}, id)) Q nothing_done) as Hset.
    { intros id. wp_answer x; [done|]. by apply HQ. }
    destruct (_ && _); [apply Hset|]. case_match; [apply Hset|]. apply wp_call; [done|]. intros id _. apply Hset. }
  apply Hid. clear Hid. intros r' id Em Ep.
  assert (∀ s c msg (Q : Z → summary → Prop), Q s (add_header s nothing_done) → wp (early_error s c msg) Q nothing_done) as Hearly.
  { intros s c msg Q HQ. unfold early_error. wp_answer x; [done|]. wp_answer y; [done|]. wp_answer z; [done|]. done. }
  assert (∀ now s c msg, wp (refuse p r' now s c msg) (fun _ m => turned_away m ∨ ∃ key, finished key m) nothing_done) as Href.
  { intros now s c msg. unfold refuse. wp_part. apply Hearly. assert (turned_away (add_header s nothing_done)) by (by eexists).
    case_match; [|by left]. wp_answer t; [done|]. apply wp_call; [done|]. by left. }
  destruct (negb (isSupportedRoute r')) eqn:Hroute.
  { wp_part. apply Hearly. left. by eexists. }
  wp_answer started; [done|]. wp_part. wp_part. destruct (negb (has_auth p)); [apply Href|].
  destruct (bearerToken _) as [token|]; [|apply Href]. wp_answer auth; [done|].
  destruct auth as [key|e]; [|destruct e; apply Href].
  assert (str_eq (Method r') "POST" = true → routeRequiresModel r' = true) as Hpost.
  { intros E. apply negb_false_iff in Hroute. unfold isSupportedRoute, routeRequiresModel in *. rewrite E in *.
    unfold str_eq in *. apply bool_decide_eq_true in E. rewrite E in Hroute. simpl in *.
    rewrite orb_false_r in Hroute. done. }
  wp_part. assert (∀ (Q : GatewaySettings → summary → Prop) m, (∀ s, Q s m) → wp (gatewaySettings p) Q m) as Hset.
  { intros Q m HQ. unfold gatewaySettings. case_match; [apply HQ|]. wp_answer s; [done|]. apply HQ. }
  apply Hset. intros settings. wp_part. eapply wp_mono.
  - apply wp_serve_request; [done|done| |done|done]. unfold init_locals. destruct (apiKeyRoutingPool key).
    split; try done; try (by intros ? ?%elem_of_nil); [by left; split; [|left]|constructor].
  - intros l m [HI Ho]. eapply wp_mono; [by apply wp_finish_request|]. intros x m' Hf. right. by exists key.
Qed.

End serving.

(** ** Executions *)

(** An execution of [ServeHTTP] in an environment that keeps its contract, with
    the summary of its calls. *)
Definition serves (json_Marshal : Usage.object → string) (upstream_url : string → string → option string)
    (p : Proxy) (r : Request) (tr : list (ev cmd)) : Prop :=
  executes (ServeHTTP json_Marshal upstream_url p r) tr tt ∧ honest observe answers nothing_done tr.

Definition after (tr : list (ev cmd)) : summary := Effects.summary observe nothing_done tr.

Lemma safe_at {M} (obs : ∀ R : Set, cmd R → R → M → M) adm m tr1 {R : Set} (c : cmd R) (x : R) tr2 :
  safe obs adm m (tr1 ++ Ev c x :: tr2) → adm _ c (Effects.summary obs m tr1).
Proof.
  revert m. induction tr1 as [|[R' e y] tr1 IH]; intros m; simpl; [by intros [? _]|]. intros [_ ?]. by apply IH.
Qed.

(** The account a call sends a request to. *)
Definition sent_to (x : ev cmd) : option Z :=
  match x with Ev c _ => match c with Do a _ => Some a | _ => None end end.

Section executions.
Context (json_Marshal : Usage.object → string) (upstream_url : string → string → option string).
Context (p : Proxy) (r : Request) (tr : list (ev cmd)).
Hypothesis Hjson : marshals_objects json_Marshal.
Hypothesis Hserves : serves json_Marshal upstream_url p r tr.

Lemma serves_wp :
  safe observe (admissible p) nothing_done tr ∧ (turned_away (after tr) ∨ ∃ key, finished p key (after tr)).
Proof.
  destruct Hserves as [Hex Hh].
  exact (wp_sound _ _ _ _ _ _ _ _ (wp_ServeHTTP json_Marshal upstream_url p r Hjson) Hex Hh).
Qed.

(** A call of the execution was admissible after those before it. *)
Lemma serves_call tr1 tr2 {R : Set} (c : cmd R) (x : R) :
  tr = tr1 ++ Ev c x :: tr2 → admissible p _ c (after tr1).
Proof.
  intros E. pose proof (proj1 serves_wp) as Hs. rewrite E in Hs. exact (safe_at _ _ _ _ _ _ _ Hs).
Qed.

(** [C6] Whatever the collaborators of the gateway answer, and however the
    request ends (rejected, failed over, answered, panicked), each slot it took
    from a limiter is given back exactly once: a slot is only ever released
    while it is held, and at the end none is held and no upstream response body
    is open. *)
Theorem gateway_releases_everything :
  (∀ tr1 tr2 x u, tr = tr1 ++ Ev (Release x) u :: tr2 → x ∈ s_held (after tr1)) ∧
  s_held (after tr) = [] ∧ s_open (after tr) = [].
Proof.
  split; [intros tr1 tr2 x u E; exact (serves_call _ _ _ _ E)|].
  destruct serves_wp as [_ [[s ->]|[key []]]]; by split.
Qed.

(** [C7] Nothing is sent upstream unless the request has been authenticated,
    holds the slots of the gateway, of its key and of the account it is sent
    to, and, when budgets are configured, has been admitted to its budget. *)
Theorem gateway_sends_admitted_only i a :
  tr !! i ≫= sent_to = Some a →
  let m := after (take i tr) in
  s_keys m ≠ [] ∧ length (s_held m) = 3%nat ∧ last (s_accounts m) = Some a ∧
  (has_budgets p = true → s_admitted m ≠ []).
Proof.
  intros H%bind_Some m. destruct H as ([R c x] & Hi & Hx). apply take_drop_middle in Hi.
  destruct c; try done. injection Hx as <-. exact (serves_call _ _ _ _ (eq_sym Hi)).
Qed.

(** [C5] A request is charged to its budget exactly once: it is admitted at most
    once, after its key was authenticated and under that key; what it is settled
    under is exactly what it was admitted under, so an admission never stays
    unsettled and nothing is settled twice; and it is settled when all its slots
    and upstream bodies have been given back, with amounts that are not
    negative. *)
Theorem gateway_budget_exactly_once :
  (length (s_admitted (after tr)) ≤ 1)%nat ∧
  Ledger.AdmissionID <$> s_settled (after tr) = s_admitted (after tr) ∧
  (∀ tr1 tr2 k t x, tr = tr1 ++ Ev (AdmitAPIKeyBudget k t) x :: tr2 → K_ID <$> s_keys (after tr1) = [k]) ∧
  (∀ tr1 tr2 q x, tr = tr1 ++ Ev (SettleAPIKeyBudgetUsage q) x :: tr2 →
     s_held (after tr1) = [] ∧ s_open (after tr1) = [] ∧
     0 ≤ Ledger.ObservedTokens q ∧ 0 ≤ Ledger.ObservedCostMicrousd q).
Proof.
  split; [|split; [|split]].
  - destruct serves_wp as [_ [[s ->]|[key []]]]; [simpl; lia|done].
  - destruct serves_wp as [_ [[s ->]|[key []]]]; done.
  - intros tr1 tr2 k t x E. destruct (serves_call _ _ _ _ E) as (_ & key & -> & ->). done.
  - intros tr1 tr2 q x E. by destruct (serves_call _ _ _ _ E) as (_ & _ & ? & ? & ? & ?).
Qed.

(** [C8] The work a request can cause is bounded: at most five accounts are
    selected and at most ten requests are sent, only to accounts whose slot was
    taken; no account is tried twice, and none gets more than two requests (the
    second after its authorisation was refreshed). *)
Theorem gateway_attempts_bounded : bounded_attempts (after tr).
Proof.
  destruct serves_wp as [_ [[s ->]|[key []]]]; [|done]. split_and!; simpl; [lia|lia|constructor|].
  by intros a ?%elem_of_nil.
Qed.

(** With a logger configured, every authenticated request leaves exactly
    one log entry, for its key, with the status the client was answered with
    (200 when no status line was sent) and with the usage and cost its budget
    was charged with; a request turned away before authentication leaves
    none. *)
Theorem gateway_logs_once :
  has_logger p = true →
  match s_keys (after tr) with
  | [] => s_logs (after tr) = []
  | key :: _ => ∃ e, s_logs (after tr) = [e] ∧ log_of key (after tr) e
  end.
Proof.
  intros Hl. destruct serves_wp as [_ [[s ->]|[key []]]]; [done|]. rewrite f_keys0. by rewrite Hl in f_logs0.
Qed.

End executions.
(** ** The body [null] *)

(** The model a call of [DefaultModel] was answered with. *)
Definition default_answer (x : ev cmd) : option string :=
  match x with
  | Ev c r =>
      match c in cmd R return R → option string with
      | DefaultModel => fun r => match r with Ok model => Some model | Err _ => None end
      | _ => fun _ => None
      end r
  end.

(** The preparation of a body panics in exactly one case: the body decodes
    to a nil map, which is what the JSON text [null] does, and there is a default
    model to store in that map.  (An object without a model gets the default
    model; any other text that is not an object is refused as invalid.) *)
Theorem body_panics_only_on_null json_Marshal p raw tr x :
  executes (normalizeModelRequestBodyWithStream json_Marshal p raw) tr x →
  x = None ↔ request_payload raw = Some None ∧
             ∃ model, default_answer <$> tr = [Some model] ∧ str_eq (TrimSpace model) "" = false.
Proof.
  unfold normalizeModelRequestBodyWithStream. intros Hex.
  destruct (request_payload raw) as [payload|]; [|apply executes_inv in Hex as [-> ->]; split; [done|by intros []]].
  destruct (model_request_fields (members payload)) as [[[[model session] previous] stream]|] eqn:Hf;
    [|apply executes_inv in Hex as [-> ->]; split; [done|intros [[= ->] _]; done]].
  destruct (str_eq model "") eqn:Hmodel.
  - unfold defaultModel in Hex. destruct (negb (has_models p)); simpl in Hex.
    { destruct (executes_inv _ _ _ Hex) as [-> ->]. split; [done|]. by intros (_ & ? & ? & _). }
    destruct (executes_inv _ _ _ Hex) as (m & tr' & -> & Hex'). clear Hex.
    destruct m as [m|e]; [destruct (str_eq (TrimSpace m) "") eqn:Hm; [|destruct payload as [payload|]]|].
    all: destruct (executes_inv _ _ _ Hex') as [-> ->]; split; try done.
    + intros (_ & m' & [= <-] & ?). congruence.
    + by intros [[=] _].
    + intros _. split; [done|]. by exists m.
    + by intros (_ & m' & [=] & _).
  - assert (payload ≠ None) as Hp by (intros ->; vm_compute in Hf; by simplify_eq).
    destruct (bool_decide _); destruct (executes_inv _ _ _ Hex) as [-> ->]; (split; [done|]; by intros [[=] _]).
Qed.

(** ** The environment of [GatewayDemo] *)

Lemma demo_marshals : marshals_objects Demo.marshal.
Proof. intros o. by vm_compute. Qed.

(** This environment keeps its contract in every run. *)
Lemma demo_honest data {A} (c : prog cmd A) m t :
  honest observe answers m (run (Demo.handle data) c t).1.2.
Proof.
  revert m t. induction c as [a|R e k IH]; intros m t; simpl; [done|].
  destruct (Demo.handle data R e t) as [r t1] eqn:E. specialize (IH r (observe R e r m) t1).
  destruct (run (Demo.handle data) (k r) t1) as [[a tr] t2]. simpl in *. split; [|done].
  destruct e; try done; simpl in E; injection E as <- <-; [done|]. simpl. by destruct (bool_decide _).
Qed.

Lemma demo_serves data : serves Demo.marshal Demo.resolve Demo.proxy Demo.request (Demo.execution data).
Proof.
  split; [|apply demo_honest]. unfold Demo.execution.
  destruct (run (Demo.handle data) (ServeHTTP Demo.marshal Demo.resolve Demo.proxy Demo.request) 1) as [[[] tr] t] eqn:E. by eapply run_executes.
Qed.


(** ** The theorems at that environment *)

(** The run with a fallback from the first account to the second. *)
Definition fallback_run : list (ev cmd) := Demo.execution Demo.hello.

Lemma gateway_releases_everything_witness :
  s_accounts (after fallback_run) = [1; 2] ∧ s_held (after fallback_run) = [] ∧ s_open (after fallback_run) = [].
Proof.
  split; [by vm_compute|].
  exact (proj2 (gateway_releases_everything Demo.marshal Demo.resolve Demo.proxy Demo.request fallback_run
    demo_marshals (demo_serves Demo.hello))).
Defined.

Lemma gateway_sends_admitted_only_witness :
  fallback_run !! 39%nat ≫= sent_to = Some 2 ∧ last (s_accounts (after (take 39 fallback_run))) = Some 2.
Proof.
  assert (fallback_run !! 39%nat ≫= sent_to = Some 2) as Hi by (vm_compute; reflexivity).
  split; [exact Hi|].
  destruct (gateway_sends_admitted_only Demo.marshal Demo.resolve Demo.proxy Demo.request fallback_run
    demo_marshals (demo_serves Demo.hello) 39%nat 2 Hi) as (_ & _ & H & _). exact H.
Defined.

Lemma gateway_budget_exactly_once_witness :
  Ledger.AdmissionID <$> s_settled (after fallback_run) = s_admitted (after fallback_run) ∧
  s_admitted (after fallback_run) = ["adm"].
Proof.
  split; [|by vm_compute].
  exact (proj1 (proj2 (gateway_budget_exactly_once Demo.marshal Demo.resolve Demo.proxy Demo.request fallback_run
    demo_marshals (demo_serves Demo.hello)))).
Defined.

Lemma gateway_attempts_bounded_witness :
  bounded_attempts (after fallback_run) ∧ s_sent (after fallback_run) = [1; 2].
Proof.
  split; [|by vm_compute].
  exact (gateway_attempts_bounded Demo.marshal Demo.resolve Demo.proxy Demo.request fallback_run
    demo_marshals (demo_serves Demo.hello)).
Defined.

Lemma gateway_logs_once_witness :
  ∃ e, s_logs (after fallback_run) = [e] ∧ log_of Demo.key (after fallback_run) e.
Proof.
  refine (gateway_logs_once Demo.marshal Demo.resolve Demo.proxy Demo.request fallback_run
    demo_marshals (demo_serves Demo.hello) _).
  reflexivity.
Defined.

(** A body of [null]: the client gets no status line, and the log says 200. *)
Example null_body_run :
  s_headers (after (Demo.execution "null")) = [] ∧
  L_StatusCode <$> s_logs (after (Demo.execution "null")) = [200].
Proof. by vm_compute. Qed.

Lemma body_panics_only_on_null_witness :
  (None : option (result body_error (string * string * string * string * bool))) = None ↔
  request_payload "null" = Some None ∧ ∃ model, [Some "m"] = [Some model] ∧ str_eq (TrimSpace model) "" = false.
Proof.
  apply (body_panics_only_on_null Demo.marshal Demo.proxy "null" [Ev DefaultModel (Ok "m")] None).
  by eapply (run_executes (Demo.handle "null") _ 1).
Defined.

End GatewayThms.
