(* ===== verification/AdminBase.v ===== *)
(** * The administration service: what its components share

    The errors of [admin/service.go] and how a database call ends. *)

From S2P Require Import Prelude GoStrings.

Module AdminBase.

(** The sentinel errors of the package; [ErrStore] is any other error of the
    database, [ErrCrypto] one of hashing, encryption or the random source. *)
Inductive aerror :=
| ErrNotFound
| ErrUnauthorized
| ErrInvalidInput
| ErrInvalidCursor
| ErrConflict
| ErrAuthenticationUnavailable
| ErrStore
| ErrCrypto.

#[export] Instance aerror_eq_dec : EqDecision aerror.
Proof. solve_decision. Defined.

(** A transaction against the state [s] that would answer [r] and leave [s']:
    it does, or it fails with an error of the database.  The error can be that
    of the commit, when it is not known whether the change was made. *)
Definition transacts {S A : Type} (done : result aerror A * S) (s : S) (r : result aerror A) (s' : S) : Prop :=
  (r, s') = done ∨ (r = Err ErrStore ∧ (s' = s ∨ s' = done.2)).

Lemma transacts_state {S A} (done : result aerror A * S) s r s' :
  transacts done s r s' → s' = s ∨ s' = done.2.
Proof. intros [<-|[_ ?]]; [by right|done]. Qed.

Lemma transacts_ok {S A} (done : result aerror A * S) s a s' :
  transacts done s (Ok a) s' → done = (Ok a, s').
Proof. by intros [<-|[[=] _]]. Qed.

(** ** Shared lemmas on lists and names *)

Lemma find_app_none {A} (p : A → bool) l k : List.find p l = None → List.find p (l ++ k) = List.find p k.
Proof. induction l as [|x l IH]; simpl; [done|]. by case_match. Qed.

Lemma find_app_some {A} (p : A → bool) l k x : List.find p l = Some x → List.find p (l ++ k) = Some x.
Proof. induction l as [|y l IH]; simpl; [done|]. by case_match. Qed.

Lemma not_Some_find {A} (p : A → bool) l : (∀ x, x ∈ l → p x = false) → List.find p l = None.
Proof.
  intros H. destruct (List.find p l) as [x|] eqn:E; [|done]. apply find_some in E as [Hin Hp].
  rewrite H in Hp; [done|]. by apply list_elem_of_In.
Qed.

Lemma str_eq_true a b : str_eq a b = true → a = b.
Proof. unfold str_eq. apply bool_decide_eq_true. Qed.

Lemma str_eq_refl a : str_eq a a = true.
Proof. unfold str_eq. by apply bool_decide_eq_true. Qed.

Lemma find_none_false {A} (p : A → bool) l x : List.find p l = None → x ∈ l → p x = false.
Proof. intros Hf Hx. eapply find_none; [done|]. by apply list_elem_of_In. Qed.

Lemma NoDup_snoc {A} (l : list A) x : NoDup l → x ∉ l → NoDup (l ++ [x]).
Proof. intros ? ?. apply NoDup_app. split_and!; [done| |apply NoDup_singleton]. set_solver. Qed.

Lemma not_in_bound {A} (g : A → Z) l n : Forall (fun x => g x < n) l → n ∉ map g l.
Proof.
  intros Hl Hn. apply list_elem_of_fmap in Hn as (x & -> & Hx). rewrite Forall_forall in Hl. specialize (Hl x Hx). lia.
Qed.

Lemma existsb_not_in {A} (g : A → string) l v :
  existsb (fun x => str_eq (g x) v) l = false → v ∉ map g l.
Proof.
  intros He Hv. apply list_elem_of_fmap in Hv as (x & -> & Hx).
  enough (existsb (fun y => str_eq (g y) (g x)) l = true) by congruence.
  apply existsb_exists. exists x. split; [by apply list_elem_of_In|]. unfold str_eq. by case_bool_decide.
Qed.

End AdminBase.
