(* ===== verification/Sessions.v ===== *)
(** * Administrators and their sessions

    The part of [admin/service.go] that signs administrators in and out, over
    the tables [admins] and [admin_sessions] of [store/admin.go].

    Each method of the repository is one transaction: a function from the tables
    to its answer and the new tables.  The service's operations are programs
    over these calls, the clock and the random number generator, interleaved
    with everything else that happens to the tables. *)

From S2P Require Import Prelude GoStrings Json Sse Usage Effects Limiters Ledger Account GatewayTypes GatewayPure.
From S2P Require Import AdminBase.
From Stdlib Require Import Ascii.
From Stdlib Require String.

Module Sessions.
Import AdminBase.

(** ** Tables *)

Record Admin := { A_ID : Z; Username : string; PasswordHash : string }.

Record SessionMetadata := { CreatedIP : string; UserAgent : string }.

Record session_row := {
  s_id : Z; s_admin : Z; s_token_hash : string; s_expires_at : Time; s_revoked_at : option Time;
  s_created_at : Time; s_last_used_at : Time; s_metadata : SessionMetadata
}.

(** [AdminSession] of a listing *)
Record AdminSession := { AS_row : session_row; Current : bool }.

(** Rows in the order of their identifiers, and the sequences behind them. *)
Record db := {
  admins : list Admin; sessions : list session_row; next_admin : Z; next_session : Z
}.

Definition set_admins (l : list Admin) (d : db) : db :=
  Build_db l (sessions d) (next_admin d) (next_session d).
Definition set_sessions (l : list session_row) (d : db) : db :=
  Build_db (admins d) l (next_admin d) (next_session d).

Abbreviation pg_time := Ledger.pg_time.

(** [revoked_at IS NULL AND expires_at > $now] *)
Definition active (s : session_row) (now : Time) : bool :=
  bool_decide (s_revoked_at s = None) && bool_decide (pg_time now < s_expires_at s).

(** ** The repository *)

Definition FindBootstrapAdmin (d : db) : result aerror Admin :=
  match head (admins d) with Some a => Ok a | None => Err ErrNotFound end.

Definition FindAdminByUsername (username : string) (d : db) : result aerror Admin :=
  match find (fun a => str_eq (Username a) username) (admins d) with Some a => Ok a | None => Err ErrNotFound end.

(** The name is unique. *)
Definition CreateAdmin (username passwordHash : string) (d : db) : result aerror Admin * db :=
  if existsb (fun a => str_eq (Username a) username) (admins d) then (Err ErrStore, d)
  else
    let a := {| A_ID := next_admin d; Username := username; PasswordHash := passwordHash |} in
    (Ok a, Build_db (admins d ++ [a]) (sessions d) (next_admin d + 1) (next_session d)).

Definition rename (username : string) (a : Admin) : Admin := Build_Admin (A_ID a) username (PasswordHash a).
Definition rehash (h : string) (a : Admin) : Admin := Build_Admin (A_ID a) (Username a) h.

Definition update_admin (id : Z) (f : Admin → Admin) (d : db) : db :=
  set_admins (map (fun a => if bool_decide (A_ID a = id) then f a else a) (admins d)) d.

Definition find_admin (id : Z) (d : db) : option Admin := find (fun a => bool_decide (A_ID a = id)) (admins d).

Definition UpdateAdminUsername (id : Z) (username : string) (d : db) : result aerror Admin * db :=
  match find_admin id d with
  | None => (Err ErrNotFound, d)
  | Some a =>
      if existsb (fun b => str_eq (Username b) username && negb (bool_decide (A_ID b = id))) (admins d)
      then (Err ErrStore, d)
      else (Ok (rename username a), update_admin id (rename username) d)
  end.

Definition revoke (at_ : Time) (s : session_row) : session_row :=
  {| s_id := s_id s; s_admin := s_admin s; s_token_hash := s_token_hash s; s_expires_at := s_expires_at s;
     s_revoked_at := Some (pg_time at_); s_created_at := s_created_at s; s_last_used_at := s_last_used_at s;
     s_metadata := s_metadata s |}.

(** [UPDATE admin_sessions SET revoked_at ... WHERE p], with the number of rows. *)
Definition revoke_where (p : session_row → bool) (at_ : Time) (d : db) : Z * db :=
  (Z.of_nat (length (List.filter p (sessions d))),
   set_sessions (map (fun s => if p s then revoke at_ s else s) (sessions d)) d).

Definition other_active (adminID : Z) (hash : string) (at_ : Time) (s : session_row) : bool :=
  bool_decide (s_admin s = adminID) && negb (str_eq (s_token_hash s) hash) && active s at_.

Definition UpdateAdminPasswordAndRevokeOtherSessions (id : Z) (passwordHash currentSessionHash : string)
    (revokedAt : Time) (d : db) : result aerror Z * db :=
  if bool_decide (is_Some (find_admin id d)) &&
     existsb (fun s => bool_decide (s_admin s = id) && str_eq (s_token_hash s) currentSessionHash &&
                       active s revokedAt) (sessions d)
  then
    let '(revoked, d) := revoke_where (other_active id currentSessionHash revokedAt) revokedAt
                           (update_admin id (rehash passwordHash) d) in
    (Ok revoked, d)
  else (Err ErrUnauthorized, d).

Definition CompareAndSwapAdminPasswordHash (id : Z) (oldHash newHash : string) (d : db) : result aerror bool * db :=
  match find_admin id d with
  | Some a => if str_eq (PasswordHash a) oldHash then (Ok true, update_admin id (rehash newHash) d) else (Ok false, d)
  | None => (Ok false, d)
  end.

(** [createSession]: the row of the administrator is locked until the commit,
    so that its hash is still the one compared when the session appears. *)
Definition createSession (adminID : Z) (passwordHash tokenHash : string) (metadata : SessionMetadata)
    (createdAt expiresAt : Time) (verifyPasswordHash : bool) (d : db) : result aerror bool * db :=
  let matches := match find_admin adminID d with
                 | Some a => str_eq (PasswordHash a) passwordHash
                 | None => false
                 end in
  if verifyPasswordHash && negb matches then (Ok false, d)
  else if negb (bool_decide (is_Some (find_admin adminID d))) ||
          existsb (fun s => str_eq (s_token_hash s) tokenHash) (sessions d) then (Err ErrStore, d)
  else
    let s := {| s_id := next_session d; s_admin := adminID; s_token_hash := tokenHash;
                s_expires_at := pg_time expiresAt; s_revoked_at := None; s_created_at := pg_time createdAt;
                s_last_used_at := pg_time createdAt; s_metadata := metadata |} in
    (Ok true, Build_db (admins d) (sessions d ++ [s]) (next_admin d) (next_session d + 1)).

Definition CreateSessionIfAdminPasswordHashMatches (adminID : Z) (passwordHash tokenHash : string)
    (metadata : SessionMetadata) (createdAt expiresAt : Time) (d : db) : result aerror bool * db :=
  createSession adminID passwordHash tokenHash metadata createdAt expiresAt true d.

Definition touch (now : Time) (s : session_row) : session_row :=
  {| s_id := s_id s; s_admin := s_admin s; s_token_hash := s_token_hash s; s_expires_at := s_expires_at s;
     s_revoked_at := s_revoked_at s; s_created_at := s_created_at s; s_last_used_at := pg_time now;
     s_metadata := s_metadata s |}.

(** The session is looked up and its last use written, at most once a minute. *)
Definition FindAdminBySessionHash (tokenHash : string) (now : Time) (d : db) : result aerror Admin * db :=
  match find (fun s => str_eq (s_token_hash s) tokenHash && active s now) (sessions d) with
  | None => (Err ErrNotFound, d)
  | Some s =>
      let due x := bool_decide (s_id x = s_id s) && bool_decide (s_last_used_at x ≤ pg_time now - Minute) in
      let d' := set_sessions (map (fun x => if due x then touch now x else x) (sessions d)) d in
      match find_admin (s_admin s) d with Some a => (Ok a, d') | None => (Err ErrNotFound, d') end
  end.

Definition RevokeSession (tokenHash : string) (revokedAt : Time) (d : db) : result aerror unit * db :=
  let p s := str_eq (s_token_hash s) tokenHash && bool_decide (s_revoked_at s = None) in
  match find p (sessions d) with
  | None => (Err ErrNotFound, d)
  | Some _ => (Ok tt, (revoke_where p revokedAt d).2)
  end.

(** [ORDER BY (token_hash = $2) DESC, last_used_at DESC, id DESC] *)
Definition listed_before (currentHash : string) (x y : session_row) : Prop :=
  let cur s := if str_eq (s_token_hash s) currentHash then 1 else 0 in
  cur y < cur x ∨ (cur x = cur y ∧ (s_last_used_at y < s_last_used_at x ∨
    (s_last_used_at x = s_last_used_at y ∧ s_id y ≤ s_id x))).

#[export] Instance listed_before_dec h x y : Decision (listed_before h x y).
Proof. unfold listed_before. apply _. Defined.

Definition ListAdminSessions (adminID : Z) (currentHash : string) (now : Time) (d : db) : list AdminSession :=
  map (fun s => Build_AdminSession s (str_eq (s_token_hash s) currentHash))
    (merge_sort (listed_before currentHash)
       (List.filter (fun s => bool_decide (s_admin s = adminID) && active s now) (sessions d))).

Definition RevokeAdminSession (adminID sessionID : Z) (revokedAt : Time) (d : db) : result aerror session_row * db :=
  let p s := bool_decide (s_admin s = adminID) && bool_decide (s_id s = sessionID) && active s revokedAt in
  match find p (sessions d) with
  | None => (Err ErrNotFound, d)
  | Some s => (Ok s, (revoke_where p revokedAt d).2)
  end.

Definition RevokeOtherAdminSessions (adminID : Z) (currentHash : string) (revokedAt : Time) (d : db)
  : result aerror Z * db :=
  let '(count, d) := revoke_where (other_active adminID currentHash revokedAt) revokedAt d in (Ok count, d).

(** ** Metadata of a session *)

Definition maxSessionUserAgentBytes : Z := 256.

(** [unicode.IsSpace] of a character in its encoding *)
Definition is_space (c : list ascii) : bool :=
  match c with
  | [a] => space1 a
  | [a; b] => space2 a b
  | [a; b; x] => space3 a b x
  | _ => false
  end.

(** The loop of [normalizeSessionUserAgent] over the characters; [spacePending]
    as in the code. *)
Fixpoint collapse (spacePending : bool) (out : list ascii) (cs : list (list ascii)) : list ascii :=
  match cs with
  | [] => out
  | c :: cs =>
      if GatewayPure.is_control c || is_space c then collapse (negb (bool_decide (out = []))) out cs
      else collapse false (out ++ (if spacePending then [" "%char] else []) ++ c) cs
  end.

(** [truncateUTF8Bytes]: the longest valid prefix within the limit. *)
Fixpoint shrink (fuel : nat) (value : list ascii) : list ascii :=
  match fuel with
  | O => value
  | S fuel =>
      if bool_decide (value = []) || GatewayPure.utf8_valid (String.string_of_list_ascii value) then value
      else shrink fuel (removelast value)
  end.

Definition truncateUTF8Bytes (value : list ascii) (limit : Z) : list ascii :=
  if bool_decide (blen value ≤ limit) then value
  else shrink (Z.to_nat limit) (take (Z.to_nat limit) value).

Definition normalizeSessionUserAgent (value : string) : string :=
  TrimSpace (String.string_of_list_ascii
    (truncateUTF8Bytes (collapse false [] (GatewayPure.characters_of value)) maxSessionUserAgentBytes)).

(** ** The service *)

Record Session := { Token : string; AdminID : Z; ExpiresAt : Time }.

(** The calls the service makes: clock, hashing, tokens, warnings and the
    repository. *)
Inductive cmd : Set → Type :=
| Now : cmd Time
| Hash (password : string) : cmd (option string)
| GenerateToken : cmd (option string)
| Warn (stage : string) : cmd unit
| RFindBootstrapAdmin : cmd (result aerror Admin)
| RFindAdminByUsername (username : string) : cmd (result aerror Admin)
| RCreateAdmin (username hash : string) : cmd (result aerror Admin)
| RUpdateAdminUsername (id : Z) (username : string) : cmd (result aerror Admin)
| RUpdatePassword (id : Z) (hash currentSessionHash : string) (revokedAt : Time) : cmd (result aerror Z)
| RCompareAndSwap (id : Z) (oldHash newHash : string) : cmd (result aerror bool)
| RCreateSession (id : Z) (hash tokenHash : string) (metadata : SessionMetadata) (createdAt expiresAt : Time)
    : cmd (result aerror bool)
| RFindAdminBySession (tokenHash : string) (now : Time) : cmd (result aerror Admin)
| RRevokeSession (tokenHash : string) (revokedAt : Time) : cmd (result aerror unit)
| RListSessions (id : Z) (currentHash : string) (now : Time) : cmd (result aerror (list AdminSession))
| RRevokeAdminSession (id sessionID : Z) (revokedAt : Time) : cmd (result aerror session_row)
| RRevokeOtherSessions (id : Z) (currentHash : string) (revokedAt : Time) : cmd (result aerror Z).

Abbreviation P := (prog cmd).
Definition call {R : Set} (c : cmd R) : P R := Vis c Ret.

Definition MinimumAdminPasswordBytes : Z := 12.
Definition dummyAdminPasswordHash : string :=
  "$argon2id$v=19$m=65536,t=2,p=1$AAECAwQFBgcICQoLDA0ODw$4+l33+PIVDfT0JxKceGyoMV79LaP0UukE46kTIFpaps".

(** The verification of a password, valid or not and whether its hash is
    outdated; the hash of a token; the summary of an address. *)
Section service.
Variables (Verify : string → string → bool * bool) (HashAPIKey : string → string)
  (summarizeSessionIP : string → string) (sessionTTL : Duration).

Definition normalizeSessionMetadata (m : SessionMetadata) : SessionMetadata :=
  {| CreatedIP := summarizeSessionIP (CreatedIP m); UserAgent := normalizeSessionUserAgent (UserAgent m) |}.

Definition BootstrapAdmin (username password : string) : P (result aerror unit) :=
  let username := TrimSpace username in
  if str_eq username "" || str_eq password "" then Ret (Err ErrInvalidInput)
  else
    let! existing := call RFindBootstrapAdmin in
    match existing with
    | Ok a =>
        if str_eq (Username a) username then Ret (Ok tt)
        else
          let! r := call (RUpdateAdminUsername (A_ID a) username) in
          Ret (match r with Ok _ => Ok tt | Err e => Err e end)
    | Err ErrNotFound =>
        let! h := call (Hash password) in
        match h with
        | None => Ret (Err ErrCrypto)
        | Some hash =>
            let! r := call (RCreateAdmin username hash) in
            Ret (match r with Ok _ => Ok tt | Err e => Err e end)
        end
    | Err e => Ret (Err e)
    end.

Definition rehashAdminPassword (a : Admin) (password : string) : P unit :=
  let! h := call (Hash password) in
  match h with
  | None => call (Warn "hash")
  | Some newHash =>
      let! r := call (RCompareAndSwap (A_ID a) (PasswordHash a) newHash) in
      match r with Ok _ => Ret tt | Err _ => call (Warn "store") end
  end.

Definition Login (username password : string) (metadata : SessionMetadata) : P (result aerror Session) :=
  let username := TrimSpace username in
  if str_eq username "" || str_eq password "" then Ret (Err ErrUnauthorized)
  else
    let! found := call (RFindAdminByUsername username) in
    match found with
    | Err ErrNotFound => Ret (Err ErrUnauthorized)
    | Err e => Ret (Err e)
    | Ok a =>
        let '(valid, needsRehash) := Verify (PasswordHash a) password in
        if negb valid then Ret (Err ErrUnauthorized)
        else
          let! t := call GenerateToken in
          match t with
          | None => Ret (Err ErrCrypto)
          | Some token =>
              let! now := call Now in
              let expiresAt := now + sessionTTL in
              let! created := call (RCreateSession (A_ID a) (PasswordHash a) (HashAPIKey token)
                                      (normalizeSessionMetadata metadata) now expiresAt) in
              match created with
              | Err e => Ret (Err e)
              | Ok false => Ret (Err ErrUnauthorized)
              | Ok true =>
                  (if needsRehash then rehashAdminPassword a password else Ret tt) ;;
                  Ret (Ok {| Token := token; AdminID := A_ID a; ExpiresAt := expiresAt |})
              end
          end
    end.

Definition ValidateSession (token : string) : P (result aerror Admin) :=
  let token := TrimSpace token in
  if str_eq token "" then Ret (Err ErrUnauthorized)
  else
    let! now := call Now in
    let! r := call (RFindAdminBySession (HashAPIKey token) now) in
    Ret (match r with Err ErrNotFound => Err ErrUnauthorized | _ => r end).

Definition ChangePassword (adminID : Z) (currentToken currentPassword newPassword : string) : P (result aerror Z) :=
  let currentToken := TrimSpace currentToken in
  if str_eq currentToken "" || str_eq currentPassword "" || str_eq newPassword "" then Ret (Err ErrInvalidInput)
  else if bool_decide (go_len newPassword < MinimumAdminPasswordBytes) then Ret (Err ErrInvalidInput)
  else
    let! found := call RFindBootstrapAdmin in
    match found with
    | Err e => Ret (Err e)
    | Ok a =>
        if negb (bool_decide (A_ID a = adminID)) then Ret (Err ErrUnauthorized)
        else if negb (Verify (PasswordHash a) currentPassword).1 then Ret (Err ErrUnauthorized)
        else
          let! h := call (Hash newPassword) in
          match h with
          | None => Ret (Err ErrCrypto)
          | Some newHash =>
              let! now := call Now in
              call (RUpdatePassword adminID newHash (HashAPIKey currentToken) now)
          end
    end.

Definition Logout (token : string) : P (result aerror unit) :=
  let token := TrimSpace token in
  if str_eq token "" then Ret (Ok tt)
  else
    let! now := call Now in
    let! current := call (RFindAdminBySession (HashAPIKey token) now) in
    match current with
    | Err ErrNotFound => Ret (Ok tt)
    | Err e => Ret (Err e)
    | Ok _ =>
        let! r := call (RRevokeSession (HashAPIKey token) now) in
        Ret (match r with Err ErrNotFound => Ok tt | _ => r end)
    end.

Definition ListSessions (adminID : Z) (currentToken : string) : P (result aerror (list AdminSession)) :=
  let currentToken := TrimSpace currentToken in
  if bool_decide (adminID ≤ 0) || str_eq currentToken "" then Ret (Err ErrUnauthorized)
  else let! now := call Now in call (RListSessions adminID (HashAPIKey currentToken) now).

(** Whether the revoked session is the current one. *)
Definition RevokeSessionByID (adminID sessionID : Z) (currentToken : string) : P (result aerror bool) :=
  let currentToken := TrimSpace currentToken in
  if bool_decide (adminID ≤ 0) || bool_decide (sessionID ≤ 0) || str_eq currentToken "" then Ret (Err ErrInvalidInput)
  else
    let! now := call Now in
    let! r := call (RRevokeAdminSession adminID sessionID now) in
    Ret (match r with
         | Ok s => Ok (str_eq (s_token_hash s) (HashAPIKey currentToken))
         | Err e => Err e
         end).

Definition RevokeOtherSessions (adminID : Z) (currentToken : string) : P (result aerror Z) :=
  let currentToken := TrimSpace currentToken in
  if bool_decide (adminID ≤ 0) || str_eq currentToken "" then Ret (Err ErrInvalidInput)
  else let! now := call Now in call (RRevokeOtherSessions adminID (HashAPIKey currentToken) now).

End service.

(** ** What a call does to the tables *)

(** A token is a prefix and base64 text. *)
Definition token_ok (t : string) : Prop := TrimSpace t = t ∧ t ≠ "".

Section environment.
(** [hashes p h]: hashing the password [p] can give [h]. *)
Variable hashes : string → string → Prop.

Definition acts (R : Set) (c : cmd R) (d : db) : R → db → Prop :=
  match c in cmd R return R → db → Prop with
  | Now | Warn _ => fun _ d' => d' = d
  | Hash p => fun h d' => d' = d ∧ match h with Some h => hashes p h | None => True end
  | GenerateToken => fun t d' => d' = d ∧ match t with Some t => token_ok t | None => True end
  | RFindBootstrapAdmin => transacts (FindBootstrapAdmin d, d) d
  | RFindAdminByUsername u => transacts (FindAdminByUsername u d, d) d
  | RCreateAdmin u h => transacts (CreateAdmin u h d) d
  | RUpdateAdminUsername id u => transacts (UpdateAdminUsername id u d) d
  | RUpdatePassword id h cur t => transacts (UpdateAdminPasswordAndRevokeOtherSessions id h cur t d) d
  | RCompareAndSwap id o n => transacts (CompareAndSwapAdminPasswordHash id o n d) d
  | RCreateSession id h th m c e => transacts (CreateSessionIfAdminPasswordHashMatches id h th m c e d) d
  | RFindAdminBySession th now => transacts (FindAdminBySessionHash th now d) d
  | RRevokeSession th t => transacts (RevokeSession th t d) d
  | RListSessions id cur now => transacts (Ok (ListAdminSessions id cur now d), d) d
  | RRevokeAdminSession id s t => transacts (RevokeAdminSession id s t d) d
  | RRevokeOtherSessions id cur t => transacts (RevokeOtherAdminSessions id cur t d) d
  end.

(** Everybody else: any call, with any arguments. *)
Definition others (d d' : db) : Prop := ∃ (R : Set) (c : cmd R) r, acts R c d r d'.

End environment.

End Sessions.
