(* ===== verification/SessionsThms.v ===== *)
(** * Administrators and their sessions: theorems

    Every transaction keeps the tables consistent ([wf]) and only ever revokes
    a session that exists ([evolve]).  From this follow the guarantees of the
    service under any interleaving: what a password change evicts, when a login
    succeeds, and what a logout ends. *)

From S2P Require Import Prelude GoStrings Effects Ledger AdminBase Sessions.

Module SessionsThms.
Import AdminBase Sessions.

(** ** Consistent tables *)

(** The constraints of the schema and the sequences behind the identifiers. *)
Record wf (d : db) : Prop := {
  wf_admin_ids : NoDup (map A_ID (admins d));
  wf_usernames : NoDup (map Username (admins d));
  wf_admin_next : Forall (fun a => A_ID a < next_admin d) (admins d);
  wf_session_ids : NoDup (map s_id (sessions d));
  wf_tokens : NoDup (map s_token_hash (sessions d));
  wf_session_next : Forall (fun s => s_id s < next_session d) (sessions d);
  wf_owner : Forall (fun s => is_Some (find_admin (s_admin s) d)) (sessions d)
}.

(** A row later on: the same session, still revoked when it was. *)
Definition same_session (s s' : session_row) : Prop :=
  s_id s' = s_id s ∧ s_admin s' = s_admin s ∧ s_token_hash s' = s_token_hash s ∧
  s_expires_at s' = s_expires_at s ∧ (s_revoked_at s' = None → s_revoked_at s = None).

Lemma same_session_refl s : same_session s s.
Proof. by repeat split. Qed.

Lemma same_session_trans s1 s2 s3 : same_session s1 s2 → same_session s2 s3 → same_session s1 s3.
Proof. unfold same_session. naive_solver congruence. Qed.

Lemma same_session_active s s' now : same_session s s' → active s' now = true → active s now = true.
Proof.
  unfold active. intros (_ & _ & _ & He & Hr) [H1 H2]%andb_prop.
  apply bool_decide_eq_true in H1, H2. rewrite He in H2. apply andb_true_intro.
  split; apply bool_decide_eq_true; auto.
Qed.

Lemma active_earlier s t now : t ≤ now → active s now = true → active s t = true.
Proof.
  unfold active. intros Hle [H1 H2]%andb_prop. apply andb_true_intro. split; [done|].
  apply bool_decide_eq_true in H2. apply bool_decide_eq_true.
  enough (pg_time t ≤ pg_time now) by lia. by apply time_truncate_mono.
Qed.

(** What can become of the sessions: each is an earlier one or new. *)
Record evolve (d d' : db) : Prop := {
  ev_next : next_session d ≤ next_session d';
  ev_rows : ∀ s', s' ∈ sessions d' →
    next_session d ≤ s_id s' ∨ ∃ s, s ∈ sessions d ∧ same_session s s'
}.

Lemma evolve_refl d : evolve d d.
Proof. split; [lia|]. intros s Hs. right. eauto using same_session_refl. Qed.

Lemma evolve_trans d1 d2 d3 : evolve d1 d2 → evolve d2 d3 → evolve d1 d3.
Proof.
  intros [N1 R1] [N2 R2]. split; [lia|]. intros s Hs. destruct (R2 s Hs) as [|(s2 & Hs2 & K2)]; [left; lia|].
  destruct (R1 s2 Hs2) as [|(s1 & Hs1 & K1)].
  - left. destruct K2 as [-> _]. done.
  - right. exists s1. eauto using same_session_trans.
Qed.

(** ** The shapes of a change *)

(** Some rows rewritten in place. *)
Lemma evolve_map d f :
  (∀ s, same_session s (f s)) → evolve d (set_sessions (map f (sessions d)) d).
Proof.
  intros Hf. split; [done|]. simpl. intros s' Hs'. right.
  apply list_elem_of_fmap in Hs' as (s & -> & Hs). eauto.
Qed.

Lemma same_session_revoke t s : same_session s (revoke t s).
Proof. by repeat split. Qed.
Lemma same_session_touch t s : same_session s (touch t s).
Proof. by repeat split. Qed.

Lemma same_session_if (b : bool) s s' : same_session s s' → same_session s (if b then s' else s).
Proof. destruct b; auto using same_session_refl. Qed.

Create HintDb sessions.
#[local] Hint Resolve same_session_refl same_session_revoke same_session_touch same_session_if evolve_refl : sessions.

Lemma evolve_admins d l n : evolve d (Build_db l (sessions d) n (next_session d)).
Proof. split; [done|]. simpl. eauto using same_session_refl. Qed.

(** ** What each transaction keeps *)

(** A change that keeps the tables consistent and the sessions' history. *)
Definition good (d d' : db) : Prop := (wf d → wf d') ∧ evolve d d'.

Lemma good_refl d : good d d.
Proof. split; auto with sessions. Qed.

Lemma good_trans d1 d2 d3 : good d1 d2 → good d2 d3 → good d1 d3.
Proof. intros [? ?] [? ?]. split; eauto using evolve_trans. Qed.

Lemma map_attr {A B} (g : A → B) (f : A → A) l : (∀ x, g (f x) = g x) → map g (map f l) = map g l.
Proof. intros H. rewrite map_map. by apply map_ext. Qed.

Lemma good_map_sessions d f : (∀ s, same_session s (f s)) → good d (set_sessions (map f (sessions d)) d).
Proof.
  intros Hf. split; [|by apply evolve_map]. intros [????? Hn Ho]. split; simpl; try done.
  - rewrite (map_attr s_id f); [done|]. intros s. apply Hf.
  - rewrite (map_attr s_token_hash f); [done|]. intros s. apply Hf.
  - apply Forall_fmap. eapply Forall_impl; [exact Hn|]. intros s Hs. simpl in *.
    pose proof (Hf s) as [E _]. lia.
  - apply Forall_fmap. eapply Forall_impl; [exact Ho|]. intros s Hs. simpl in *.
    pose proof (Hf s) as (_ & -> & _). exact Hs.
Qed.

Lemma find_update_admin id f d i :
  (∀ a, A_ID (f a) = A_ID a) →
  find_admin i (update_admin id f d) =
  option_map (fun a => if bool_decide (A_ID a = id) then f a else a) (find_admin i d).
Proof.
  intros Hf. unfold find_admin, update_admin. simpl. induction (admins d) as [|a l IH]; [done|].
  simpl. assert (A_ID (if bool_decide (A_ID a = id) then f a else a) = A_ID a) as -> by (case_match; auto).
  by case_match.
Qed.

Lemma good_update_admin d id f :
  (∀ a, A_ID (f a) = A_ID a) →
  (wf d → NoDup (map Username (admins (update_admin id f d)))) →
  good d (update_admin id f d).
Proof.
  intros Hf Hu. split; [|apply evolve_admins]. intros Hwf. pose proof Hwf as [?????? Ho]. split; auto; simpl.
  - rewrite (map_attr A_ID); [done|]. intros a. by case_match.
  - apply Forall_fmap. eapply Forall_impl; [done|]. intros a. simpl. case_match; by rewrite ?Hf.
  - eapply Forall_impl; [exact Ho|]. intros s [a Ha]. simpl.
    rewrite (find_update_admin id f d) by done. rewrite Ha. by eexists.
Qed.

Lemma good_rehash d id h : good d (update_admin id (rehash h) d).
Proof.
  apply good_update_admin; [done|]. intros []. simpl. rewrite (map_attr Username); [done|].
  intros a. by case_match.
Qed.

Lemma good_CreateAdmin u h d : good d (CreateAdmin u h d).2.
Proof.
  unfold CreateAdmin. destruct (existsb _ _) eqn:He; [apply good_refl|]. simpl. split; [|apply evolve_admins].
  intros [?? Hn ??? Ho]. split; simpl; try done.
  - rewrite map_app. apply NoDup_snoc; [done|]. by apply not_in_bound.
  - rewrite map_app. apply NoDup_snoc; [done|]. by apply existsb_not_in.
  - apply Forall_app. split; [|by repeat constructor; simpl; lia]. eapply Forall_impl; [exact Hn|]. simpl. lia.
  - eapply Forall_impl; [exact Ho|]. intros s [a Ha]. exists a. unfold find_admin in *. simpl.
    by apply find_app_some.
Qed.

Lemma good_UpdateAdminUsername id u d : good d (UpdateAdminUsername id u d).2.
Proof.
  unfold UpdateAdminUsername. destruct (find_admin id d) as [a0|]; [|apply good_refl].
  destruct (existsb _ _) eqn:He; [apply good_refl|]. simpl. apply good_update_admin; [done|].
  intros [Hid Hu _ _ _ _ _]. simpl.
  assert (∀ b, b ∈ admins d → A_ID b ≠ id → Username b ≠ u) as Hfresh.
  { intros b Hb Hne Hname. apply (f_equal negb) in He. apply negb_true_iff in He. revert He. simpl.
    enough (existsb (fun b => str_eq (Username b) u && negb (bool_decide (A_ID b = id))) (admins d) = true) as ->; [done|].
    apply existsb_exists. exists b. split; [by apply list_elem_of_In|]. unfold str_eq. rewrite bool_decide_true by done.
    by rewrite bool_decide_false. }
  clear He. revert Hid Hu Hfresh. induction (admins d) as [|a l IH]; simpl; intros Hid Hu Hfresh; [constructor|].
  apply NoDup_cons in Hid as [Hid1 Hid2], Hu as [Hu1 Hu2].
  apply NoDup_cons. split; [|apply IH; set_solver].
  intros Hin. apply list_elem_of_fmap in Hin as (b & Hb & Hin). apply list_elem_of_fmap in Hin as (c & -> & Hc).
  assert (A_ID c ≠ A_ID a). { intros Heq. apply Hid1. rewrite <- Heq. by apply list_elem_of_fmap_2. }
  assert (Username c ≠ Username a). { intros Heq. apply Hu1. rewrite <- Heq. by apply list_elem_of_fmap_2. }
  repeat case_bool_decide; simpl in *; subst; try congruence.
  - apply (Hfresh c); [set_solver|congruence|congruence].
  - apply (Hfresh a); [set_solver|congruence|congruence].
Qed.

Lemma good_createSession id h th m c e v d : good d (createSession id h th m c e v d).2.
Proof.
  unfold createSession. destruct (v && _); [apply good_refl|].
  destruct (_ || _) eqn:He; [apply good_refl|]. apply orb_false_iff in He as [Ha Ht].
  apply negb_false_iff, bool_decide_eq_true in Ha. split; simpl.
  - intros [??? Hi Hk Hn Ho]. split; simpl; try done.
    + rewrite map_app. apply NoDup_snoc; [done|]. by apply not_in_bound.
    + rewrite map_app. apply NoDup_snoc; [done|]. by apply existsb_not_in.
    + apply Forall_app. split; [|by repeat constructor; simpl; lia]. eapply Forall_impl; [exact Hn|]. simpl. lia.
    + apply Forall_app. split; [done|]. by repeat constructor.
  - split; simpl; [lia|]. intros s' [Hs|Hs]%elem_of_app; [right; eauto with sessions|].
    apply list_elem_of_singleton in Hs as ->. left. simpl. lia.
Qed.

Lemma good_revoke_where p t d : good d (revoke_where p t d).2.
Proof. apply good_map_sessions. auto with sessions. Qed.

Lemma good_UpdatePassword id h cur t d : good d (UpdateAdminPasswordAndRevokeOtherSessions id h cur t d).2.
Proof.
  unfold UpdateAdminPasswordAndRevokeOtherSessions. destruct (_ && _); [|apply good_refl].
  apply (good_trans _ (update_admin id (rehash h) d)); [apply good_rehash|apply good_revoke_where].
Qed.

Lemma good_FindAdminBySessionHash th now d : good d (FindAdminBySessionHash th now d).2.
Proof.
  unfold FindAdminBySessionHash. destruct (find _ _) as [s|]; [|apply good_refl].
  destruct (find_admin _ _); apply good_map_sessions; auto with sessions.
Qed.

Lemma good_transacts {A} (done : result aerror A * db) d r d' :
  good d done.2 → transacts done d r d' → good d d'.
Proof. intros Hg [-> | ->]%transacts_state; [apply good_refl|done]. Qed.

(** Every call keeps the tables consistent and only revokes. *)
Lemma acts_good hashes R (c : cmd R) d r d' : acts hashes R c d r d' → good d d'.
Proof.
  destruct c; simpl; try (intros ->; apply good_refl); try (intros [-> _]; apply good_refl);
    apply good_transacts; simpl; try apply good_refl.
  - apply good_CreateAdmin.
  - apply good_UpdateAdminUsername.
  - apply good_UpdatePassword.
  - unfold CompareAndSwapAdminPasswordHash. repeat case_match; try apply good_refl. apply good_rehash.
  - apply good_createSession.
  - apply good_FindAdminBySessionHash.
  - unfold RevokeSession. case_match; [|apply good_refl]. apply good_revoke_where.
  - unfold RevokeAdminSession. case_match; [|apply good_refl]. apply good_revoke_where.
  - apply (good_revoke_where _ _ d).
Qed.

Lemma others_good hashes d d' : others hashes d d' → good d d'.
Proof. intros (R & c & r & H). by eapply acts_good. Qed.

Lemma rtc_good hashes d d' : rtc (others hashes) d d' → good d d'.
Proof. induction 1; eauto using good_refl, good_trans, others_good. Qed.

Lemma runs_good hashes {A} (p : P A) d a d' : runs (acts hashes) (others hashes) p d a d' → good d d'.
Proof. apply runs_preserves; eauto using good_refl, good_trans, others_good, acts_good. Qed.

(** ** Evicted sessions stay evicted *)

(** The sessions of an administrator that are not [current] are over in [d] at
    [t]: in any later state, at any later time, the active ones are [current] or
    were created after [d]. *)
Lemma evicted hashes d d' id cur t :
  (∀ s, s ∈ sessions d → s_admin s = id → active s t = true → s_token_hash s = cur) →
  rtc (others hashes) d d' → ∀ s now, s ∈ sessions d' → s_admin s = id → t ≤ now → active s now = true →
  s_token_hash s = cur ∨ next_session d ≤ s_id s.
Proof.
  intros Hd Hr s now Hs Hid Ht Ha. apply rtc_good in Hr as [_ [_ Hrows]].
  destruct (Hrows s Hs) as [?|(s0 & Hs0 & Hsame)]; [by right|]. left.
  pose proof Hsame as (_ & Hid' & -> & _). apply Hd; [done|congruence|].
  by eapply active_earlier, same_session_active.
Qed.

(** The same for one token: whoever holds it is signed out. *)
Lemma signed_out hashes d d' th t :
  (∀ s, s ∈ sessions d → s_token_hash s = th → active s t = false) →
  rtc (others hashes) d d' → ∀ s now, s ∈ sessions d' → s_token_hash s = th → t ≤ now → active s now = true →
  next_session d ≤ s_id s.
Proof.
  intros Hd Hr s now Hs Hth Ht Ha. apply rtc_good in Hr as [_ [_ Hrows]].
  destruct (Hrows s Hs) as [?|(s0 & Hs0 & Hsame)]; [done|]. exfalso.
  pose proof Hsame as (_ & _ & Hth' & _). specialize (Hd s0 Hs0 ltac:(congruence)).
  enough (active s0 t = true) by congruence. by eapply active_earlier, same_session_active.
Qed.

(** What the transaction of a password change leaves. *)
Lemma UpdatePassword_evicts id h cur t d n d' :
  UpdateAdminPasswordAndRevokeOtherSessions id h cur t d = (Ok n, d') →
  (∃ a, find_admin id d = Some a ∧ find_admin id d' = Some (rehash h a)) ∧ next_session d' = next_session d ∧
  ∀ s, s ∈ sessions d' → s_admin s = id → active s t = true → s_token_hash s = cur.
Proof.
  unfold UpdateAdminPasswordAndRevokeOtherSessions. destruct (bool_decide (is_Some _)) eqn:Ha; [|done].
  apply bool_decide_eq_true in Ha as [a Ha]. simpl. destruct (existsb _ _); [|done].
  intros [= <- <-]. split_and!; [|done|].
  - exists a. split; [done|]. change (find_admin id (update_admin id (rehash h) d) = Some (rehash h a)).
    rewrite find_update_admin by done. rewrite Ha. simpl. rewrite bool_decide_true; [done|].
    unfold find_admin in Ha. apply find_some in Ha as [_ Ha]. by apply bool_decide_eq_true in Ha.
  - simpl. intros s Hs Hid Hact. apply list_elem_of_fmap in Hs as (s0 & -> & Hs0).
    destruct (other_active id cur t s0) eqn:Ho; [done|]. unfold other_active in Ho.
    rewrite Hact, bool_decide_true in Ho by done. destruct (str_eq (s_token_hash s0) cur) eqn:E; [|done].
    unfold str_eq in E. by apply bool_decide_eq_true in E.
Qed.

(** The row a new session gets. *)
Definition new_session (d : db) (id : Z) (th : string) (m : SessionMetadata) (c e : Time) : session_row :=
  {| s_id := next_session d; s_admin := id; s_token_hash := th; s_expires_at := pg_time e;
     s_revoked_at := None; s_created_at := pg_time c; s_last_used_at := pg_time c; s_metadata := m |}.

Lemma createSession_created id h th m c e d d' :
  CreateSessionIfAdminPasswordHashMatches id h th m c e d = (Ok true, d') →
  (∃ a, find_admin id d = Some a ∧ PasswordHash a = h) ∧ th ∉ map s_token_hash (sessions d) ∧
  sessions d' = sessions d ++ [new_session d id th m c e] ∧ admins d' = admins d.
Proof.
  unfold CreateSessionIfAdminPasswordHashMatches, createSession.
  destruct (find_admin id d) as [a|] eqn:Ha; [|done]. simpl. destruct (str_eq (PasswordHash a) h) eqn:Eh; [|done].
  simpl. destruct (existsb _ _) eqn:Ex; [done|]. intros [= <-]. split_and!; [|by apply existsb_not_in|done|done].
  exists a. split; [done|]. unfold str_eq in Eh. by apply bool_decide_eq_true in Eh.
Qed.

Lemma FindAdminBySession_none th now d :
  wf d → (FindAdminBySessionHash th now d).1 = Err ErrNotFound →
  (FindAdminBySessionHash th now d).2 = d ∧ ∀ s, s ∈ sessions d → s_token_hash s = th → active s now = false.
Proof.
  unfold FindAdminBySessionHash. intros Hwf. destruct (List.find _ _) as [s|] eqn:Hs.
  - apply find_some in Hs as [Hs _]. apply list_elem_of_In in Hs.
    pose proof (wf_owner _ Hwf) as Ho. rewrite Forall_forall in Ho.
    destruct (Ho s Hs) as [a Ha]. by rewrite Ha.
  - intros _. split; [done|]. intros s Hin <-. apply find_none_false with (x := s) in Hs; [|done].
    rewrite str_eq_refl in Hs. exact Hs.
Qed.

Lemma RevokeSession_over th t d :
  ∀ s, s ∈ sessions (RevokeSession th t d).2 → s_token_hash s = th → s_revoked_at s ≠ None.
Proof.
  unfold RevokeSession. destruct (List.find _ _) as [x|] eqn:Hf; simpl.
  - intros s Hs Hth. apply list_elem_of_fmap in Hs as (s0 & -> & Hs0).
    destruct (str_eq (s_token_hash s0) th && bool_decide (s_revoked_at s0 = None)) eqn:E; [done|].
    subst th. rewrite str_eq_refl in E. by apply bool_decide_eq_false in E.
  - intros s Hs <-. apply find_none_false with (x := s) in Hf; [|done].
    rewrite str_eq_refl in Hf. by apply bool_decide_eq_false in Hf.
Qed.

Lemma revoked_inactive s t : s_revoked_at s ≠ None → active s t = false.
Proof. intros. unfold active. by rewrite bool_decide_false. Qed.

(** Stepping through a run: one call, then the rest. *)
Ltac step Hr x d1 d2 Hd Ha :=
  apply runs_inv in Hr as (d1 & x & d2 & Hd & Ha & Hr); simpl in Ha, Hr.

Section guarantees.
Context (hashes : string → string → Prop) (Verify : string → string → bool * bool) (HashAPIKey : string → string)
  (summarizeSessionIP : string → string) (sessionTTL : Duration).

Abbreviation Runs := (runs (acts hashes) (others hashes)).
Abbreviation later := (rtc (others hashes)).

(** A password change that reports success verified the current password
    against the stored hash, stored a hash of the new one (of at least twelve
    bytes), and evicted every other session of the administrator: from then on,
    in every state the system can reach and at every later time, an active
    session of the administrator is the one that made the change or one created
    after it. *)
Theorem password_change_evicts adminID token current new d n d' :
  Runs (ChangePassword Verify HashAPIKey adminID token current new) d (Ok n) d' →
  ∃ d0 d1 d2 a h revokedAt, later d d0 ∧ later d0 d1 ∧ later d2 d' ∧
    FindBootstrapAdmin d0 = Ok a ∧ A_ID a = adminID ∧ (Verify (PasswordHash a) current).1 = true ∧
    MinimumAdminPasswordBytes ≤ go_len new ∧ hashes new h ∧
    (∃ b, find_admin adminID d1 = Some b ∧ find_admin adminID d2 = Some (rehash h b)) ∧
    ∀ d3 s now, later d' d3 → s ∈ sessions d3 → s_admin s = adminID → revokedAt ≤ now → active s now = true →
      s_token_hash s = HashAPIKey (TrimSpace token) ∨ next_session d1 ≤ s_id s.
Proof.
  unfold ChangePassword. intros Hr. destruct (_ || _); [by apply runs_inv in Hr as [[=] _]|].
  destruct (bool_decide (go_len new < _)) eqn:Hlen; [by apply runs_inv in Hr as [[=] _]|].
  apply bool_decide_eq_false in Hlen.
  step Hr r d0 d0' H0 Hf. destruct r as [a|e]; [|by apply runs_inv in Hr as [[=] _]].
  apply transacts_ok in Hf. injection Hf as Hf <-.
  destruct (bool_decide (A_ID a = adminID)) eqn:Hid; simpl in Hr; [|by apply runs_inv in Hr as [[=] _]].
  apply bool_decide_eq_true in Hid.
  destruct (Verify (PasswordHash a) current) as [[] o] eqn:Hv; simpl in Hr; [|by apply runs_inv in Hr as [[=] _]].
  step Hr h d4 d4' H4 Hh. destruct Hh as [-> Hh]. destruct h as [h|]; [|by apply runs_inv in Hr as [[=] _]].
  step Hr revokedAt d5 d5' H5 Hn. subst d5'.
  step Hr n' d1 d2 H1 Hu. apply runs_inv in Hr as [<- H2]. apply transacts_ok in Hu.
  apply UpdatePassword_evicts in Hu as (Hb & Hnext & Hev).
  exists d0, d1, d2, a, h, revokedAt. split_and!; try done; [by rewrite H4, H5| by rewrite Hv|lia|].
  intros d3 s now H3 Hs Hsid Hle Hact. rewrite <- Hnext.
  eapply (evicted hashes d2 d3); [exact Hev|by rewrite H2| | | |]; done.
Qed.

(** A login that succeeds gives a session which was opened at an instant
    when the account's stored hash was exactly the hash the password had been
    verified against, so that a login in flight during a password change cannot
    open a session with the old password.  The session is new, carries the hash
    of the returned token and ends [sessionTTL] after it was created. *)
Theorem login_needs_current_password username password metadata d session d' :
  Runs (Login Verify HashAPIKey summarizeSessionIP sessionTTL username password metadata) d (Ok session) d' →
  ∃ d0 d1 d2 a b now, later d d0 ∧ later d0 d1 ∧
    FindAdminByUsername (TrimSpace username) d0 = Ok a ∧ (Verify (PasswordHash a) password).1 = true ∧
    find_admin (A_ID a) d1 = Some b ∧ PasswordHash b = PasswordHash a ∧
    AdminID session = A_ID a ∧ ExpiresAt session = now + sessionTTL ∧ token_ok (Token session) ∧
    sessions d2 = sessions d1 ++ [new_session d1 (A_ID a) (HashAPIKey (Token session))
                     (normalizeSessionMetadata summarizeSessionIP metadata) now (now + sessionTTL)] ∧
    evolve d2 d'.
Proof.
  unfold Login. intros Hr. destruct (_ || _); [by apply runs_inv in Hr as [[=] _]|].
  step Hr r d0 d0' H0 Hf. destruct r as [a|e]; [|by destruct e; apply runs_inv in Hr as [[=] _]].
  apply transacts_ok in Hf. injection Hf as Hf <-.
  destruct (Verify (PasswordHash a) password) as [[] o] eqn:Hv; simpl in Hr; [|by apply runs_inv in Hr as [[=] _]].
  step Hr t d4 d4' H4 Ht. destruct Ht as [-> Ht]. destruct t as [token|]; [|by apply runs_inv in Hr as [[=] _]].
  step Hr now d5 d5' H5 Hn. subst d5'.
  step Hr c d1 d2 H1 Hc. destruct c as [[]|e]; [|by apply runs_inv in Hr as [[=] _]..].
  apply transacts_ok, createSession_created in Hc as ((b & Hb & Hhash) & _ & Hs & _).
  apply runs_bind in Hr as ([] & d6 & Hrehash & Hr). apply runs_inv in Hr as [[= ->] H6].
  exists d0, d1, d2, a, b, now. simpl. split_and!; try done; [by rewrite H4, H5|by rewrite Hv|].
  apply (evolve_trans _ d6); [by apply runs_good in Hrehash as [_ ?]|by apply rtc_good in H6 as [_ ?]].
Qed.

(** After a logout that reports success, whoever presents the token is
    signed out: in every state the system can reach, at every later time, no
    session with the token's hash that existed when the logout ended is active. *)
Theorem logout_effective token d d' :
  wf d → TrimSpace token ≠ "" →
  Runs (Logout HashAPIKey token) d (Ok tt) d' →
  ∃ d1 t, later d1 d' ∧ ∀ d3 s now, later d' d3 → s ∈ sessions d3 →
    s_token_hash s = HashAPIKey (TrimSpace token) → t ≤ now → active s now = true → next_session d1 ≤ s_id s.
Proof.
  unfold Logout. intros Hwf Hne Hr. destruct (str_eq (TrimSpace token) "") eqn:E.
  { unfold str_eq in E. by apply bool_decide_eq_true in E. }
  set (th := HashAPIKey (TrimSpace token)) in *.
  step Hr now d0 d0' H0 Hn. subst d0'. step Hr r d1 d2 H1 Hf.
  assert (wf d1) as Hwf1. { apply (rtc_good hashes d d1); [by rewrite H0|done]. }
  destruct r as [a|[]]; try (by apply runs_inv in Hr as [[=] _]).
  - step Hr r d3 d4 H3 Hrev. apply runs_inv in Hr as [Hr H4]. exists d4, now. split; [done|].
    intros d5 s t H5 Hs Hth Hle Hact. eapply (signed_out hashes d4 d5); [|by rewrite H4|done..].
    destruct Hrev as [Hrev|[-> _]]; [|done]. rewrite (f_equal snd Hrev : d4 = _).
    intros s' Hs' Hth'. apply revoked_inactive. by apply (RevokeSession_over th now d3).
  - apply runs_inv in Hr as [_ H4]. exists d2, now. split; [done|]. destruct Hf as [Hf|[[=] _]].
    destruct (FindAdminBySession_none th now d1 Hwf1) as [Heq Hnone]; [by rewrite <- Hf|].
    rewrite <- Hf in Heq. simpl in Heq. subst d2.
    intros d5 s t H5 Hs Hth Hle Hact. eapply (signed_out hashes d1 d5); [done|by rewrite H4|done..].
Qed.

(** Any sequence of operations of the service, interleaved with any others
    and with database failures at any call, keeps the tables consistent: unique
    identifiers, names and token hashes, identifiers below their sequences, and
    every session owned by an administrator that exists. *)
Theorem sessions_consistent {A} (p : P A) d a d' : Runs p d a d' → wf d → wf d'.
Proof. intros Hr. by apply runs_good in Hr as [? _]. Qed.

(** A token is accepted only while its session is active: a validation that
    succeeds answers with the owner of a session that has the token's hash, is
    not revoked and has not expired at the clock reading of the call. *)
Theorem validated_session_active token d a d' :
  Runs (ValidateSession HashAPIKey token) d (Ok a) d' →
  TrimSpace token ≠ "" ∧ ∃ d1 now s, later d d1 ∧ s ∈ sessions d1 ∧
    s_token_hash s = HashAPIKey (TrimSpace token) ∧ active s now = true ∧ find_admin (s_admin s) d1 = Some a.
Proof.
  unfold ValidateSession. intros Hr. destruct (str_eq (TrimSpace token) "") eqn:E; [by apply runs_inv in Hr as [[=] _]|].
  split. { intros Ht. by rewrite Ht in E. }
  step Hr now d0 d0' H0 Hn. subst d0'. step Hr r d1 d2 H1 Hf. apply runs_inv in Hr as [Hr _].
  assert (r = Ok a) as -> by (destruct r as [?|[]]; congruence).
  apply transacts_ok in Hf. unfold FindAdminBySessionHash in Hf. destruct (List.find _ _) as [s|] eqn:Hs; [|done].
  apply find_some in Hs as [Hin [Hth Hact]%andb_prop]. apply str_eq_true in Hth. apply list_elem_of_In in Hin.
  destruct (find_admin (s_admin s) d1) as [b|] eqn:Hb; [|done]. injection Hf as <- _.
  exists d1, now, s. split_and!; try done. by rewrite H0.
Qed.

End guarantees.

Section rehash.
Context (Verify : string → string → bool * bool) (HashAPIKey : string → string)
  (summarizeSessionIP : string → string) (sessionTTL : Duration).

(** Looking for an event of an execution: it is the next one or a later one. *)
Ltac event Hex Hx r :=
  let tr := fresh "tr" in
  apply executes_inv in Hex as (r & tr & -> & Hex); simpl in Hex; apply elem_of_cons in Hx as [->|Hx].
Ltac ended Hex Hx := apply executes_inv in Hex as [-> _]; apply elem_of_nil in Hx.

(** What a call writes as a new password hash, and which hash it replaces. *)
Definition swap_of (x : ev cmd) : option (Z * string * string) :=
  match x with Ev (RCompareAndSwap id o n) _ => Some (id, o, n) | _ => None end.
Definition hash_of (x : ev cmd) : option (string * string) :=
  match x with Ev (Hash p) r => match r with Some h => Some (p, h) | None => None end | _ => None end.

(** The upgrade of an outdated hash at login never changes the password: the
    hash it replaces is one that accepts the password, and the hash it writes was
    computed from that same password during the login. *)
Theorem rehash_keeps_password username password metadata tr r x id old new :
  executes (Login Verify HashAPIKey summarizeSessionIP sessionTTL username password metadata) tr r →
  x ∈ tr → swap_of x = Some (id, old, new) →
  Verify old password = (true, true) ∧ ∃ y, y ∈ tr ∧ hash_of y = Some (password, new).
Proof.
  unfold Login. intros Hex Hx Hswap. destruct (_ || _); [by ended Hex Hx|].
  event Hex Hx found; [done|]. destruct found as [a|e]; [|by destruct e; ended Hex Hx].
  destruct (Verify (PasswordHash a) password) as [[] o] eqn:Hv; simpl in Hex; [|by ended Hex Hx].
  event Hex Hx t; [done|]. destruct t as [token|]; [|by ended Hex Hx].
  event Hex Hx now; [done|]. event Hex Hx c; [done|]. destruct c as [[]|e]; [|by ended Hex Hx..].
  apply executes_bind in Hex as ([] & tr4 & tr5 & -> & Hex & Hend). apply executes_inv in Hend as [-> _].
  rewrite app_nil_r in Hx. destruct o; [|by ended Hex Hx]. event Hex Hx h; [done|].
  destruct h as [h|]; [|event Hex Hx u; [done|by ended Hex Hx]]. event Hex Hx w.
  - injection Hswap as <- <- <-. split; [done|]. exists (Ev (Hash password) (Some h)). split; [|done]. set_solver.
  - destruct w; [by ended Hex Hx|]. event Hex Hx u; [done|by ended Hex Hx].
Qed.
End rehash.

(** ** Examples *)

Module Demo.

Definition hashes (p h : string) : Prop := h = String.append "#" p.
Definition Verify (h p : string) : bool * bool :=
  if str_eq h (String.append "#" p) then (true, false)
  else if str_eq h (String.append "old" p) then (true, true) else (false, false).
Definition HashAPIKey (t : string) : string := String.append "sha:" t.
Definition ip (s : string) : string := s.
Definition ttl : Duration := Hour.

(** An environment without failures; the clock stands still. *)
Definition handle (R : Set) (c : cmd R) (d : db) : R * db :=
  match c in cmd R return R * db with
  | Now => (100 * Second, d)
  | Hash p => (Some (String.append "#" p), d)
  | GenerateToken => (Some "token-3", d)
  | Warn _ => (tt, d)
  | RFindBootstrapAdmin => (FindBootstrapAdmin d, d)
  | RFindAdminByUsername u => (FindAdminByUsername u d, d)
  | RCreateAdmin u h => CreateAdmin u h d
  | RUpdateAdminUsername id u => UpdateAdminUsername id u d
  | RUpdatePassword id h cur t => UpdateAdminPasswordAndRevokeOtherSessions id h cur t d
  | RCompareAndSwap id o n => CompareAndSwapAdminPasswordHash id o n d
  | RCreateSession id h th m c e => CreateSessionIfAdminPasswordHashMatches id h th m c e d
  | RFindAdminBySession th now => FindAdminBySessionHash th now d
  | RRevokeSession th t => RevokeSession th t d
  | RListSessions id cur now => (Ok (ListAdminSessions id cur now d), d)
  | RRevokeAdminSession id s t => RevokeAdminSession id s t d
  | RRevokeOtherSessions id cur t => RevokeOtherAdminSessions id cur t d
  end.

Lemma sessions_handle_acts R (c : cmd R) d : acts hashes R c d (handle R c d).1 (handle R c d).2.
Proof.
  destruct c; simpl; first [done | split; done | left; symmetry; apply surjective_pairing | by left].
Qed.

Definition session (id : Z) (token : string) : session_row :=
  {| s_id := id; s_admin := 1; s_token_hash := HashAPIKey token; s_expires_at := 4000 * Second; s_revoked_at := None;
     s_created_at := 0; s_last_used_at := 0; s_metadata := {| CreatedIP := ""; UserAgent := "" |} |}.

(** One administrator whose hash is outdated, with two sessions. *)
Definition start : db :=
  {| admins := [{| A_ID := 1; Username := "root"; PasswordHash := "oldcorrect horse" |}];
     sessions := [session 1 "token-1"; session 2 "token-2"]; next_admin := 2; next_session := 3 |}.

Lemma start_wf : wf start.
Proof. split; apply (bool_decide_unpack _); vm_compute; exact I. Qed.

Definition result_of {A} (p : P A) : A * db := let '(a, _, d) := run handle p start in (a, d).
Definition trace_of {A} (p : P A) : list (ev cmd) := let '(_, tr, _) := run handle p start in tr.

Lemma sessions_result_runs {A} (p : P A) a d : result_of p = (a, d) → runs (acts hashes) (others hashes) p start a d.
Proof.
  unfold result_of. destruct (run handle p start) as [[a' tr] d'] eqn:E. intros [= -> ->].
  eapply run_runs; [apply sessions_handle_acts|exact E].
Qed.

Lemma trace_executes {A} (p : P A) : executes p (trace_of p) (result_of p).1.
Proof.
  unfold trace_of, result_of. destruct (run handle p start) as [[a tr] d] eqn:E. by apply run_executes in E.
Qed.

Definition change : P (result aerror Z) :=
  ChangePassword Verify HashAPIKey 1 "token-1" "correct horse" "a longer password".
Definition login : P (result aerror Session) :=
  Login Verify HashAPIKey ip ttl " root " "correct horse" {| CreatedIP := ""; UserAgent := "curl" |}.

End Demo.

Lemma password_change_evicts_witness :
  ∃ d', Demo.result_of Demo.change = (Ok 1, d') ∧
  ∃ d1 t, ∀ d3 s now, rtc (others Demo.hashes) d' d3 → s ∈ sessions d3 → s_admin s = 1 → t ≤ now →
    active s now = true → s_token_hash s = "sha:token-1" ∨ next_session d1 ≤ s_id s.
Proof.
  eexists. split; [vm_compute; reflexivity|].
  edestruct (password_change_evicts Demo.hashes Demo.Verify Demo.HashAPIKey 1 "token-1" "correct horse"
               "a longer password" Demo.start 1) as (d0 & d1 & d2 & a & h & t & H);
    [apply Demo.sessions_result_runs; vm_compute; reflexivity|].
  exists d1, t. apply H.
Defined.

Lemma login_needs_current_password_witness :
  ∃ session d', Demo.result_of Demo.login = (Ok session, d') ∧
  ∃ d0 d1 a b, rtc (others Demo.hashes) d0 d1 ∧ FindAdminByUsername "root" d0 = Ok a ∧
    find_admin (A_ID a) d1 = Some b ∧ PasswordHash b = PasswordHash a.
Proof.
  eexists _, _. split; [vm_compute; reflexivity|].
  edestruct (login_needs_current_password Demo.hashes Demo.Verify Demo.HashAPIKey Demo.ip Demo.ttl " root "
               "correct horse" {| CreatedIP := ""; UserAgent := "curl" |} Demo.start)
    as (d0 & d1 & d2 & a & b & now & H0 & H1 & H2 & H3 & H4 & H5 & _);
    [apply Demo.sessions_result_runs; vm_compute; reflexivity|].
  by exists d0, d1, a, b.
Defined.

Lemma logout_effective_witness :
  ∃ d', Demo.result_of (Logout Demo.HashAPIKey " token-2 ") = (Ok tt, d') ∧
  ∃ d1 t, ∀ d3 s now, rtc (others Demo.hashes) d' d3 → s ∈ sessions d3 → s_token_hash s = "sha:token-2" →
    t ≤ now → active s now = true → next_session d1 ≤ s_id s.
Proof.
  eexists. split; [vm_compute; reflexivity|].
  edestruct (logout_effective Demo.hashes Demo.HashAPIKey " token-2 " Demo.start) as (d1 & t & _ & H);
    [apply Demo.start_wf|by vm_compute|apply Demo.sessions_result_runs; vm_compute; reflexivity|].
  exists d1, t. exact H.
Defined.

Lemma sessions_consistent_witness : wf (Demo.result_of Demo.login).2.
Proof.
  apply (sessions_consistent Demo.hashes Demo.login Demo.start (Demo.result_of Demo.login).1);
    [by apply Demo.sessions_result_runs, surjective_pairing|apply Demo.start_wf].
Defined.

Lemma validated_session_active_witness :
  ∃ a d', Demo.result_of (ValidateSession Demo.HashAPIKey "token-1") = (Ok a, d') ∧ A_ID a = 1 ∧
  ∃ d1 now s, s ∈ sessions d1 ∧ s_token_hash s = "sha:token-1" ∧ active s now = true.
Proof.
  eexists _, _. split; [vm_compute; reflexivity|]. split; [done|].
  edestruct (validated_session_active Demo.hashes Demo.HashAPIKey "token-1" Demo.start)
    as (_ & d1 & now & s & _ & H1 & H2 & H3 & _); [apply Demo.sessions_result_runs; vm_compute; reflexivity|].
  by exists d1, now, s.
Defined.

Lemma rehash_keeps_password_witness :
  ∃ x, x ∈ Demo.trace_of Demo.login ∧ swap_of x = Some (1, "oldcorrect horse", "#correct horse") ∧
    Demo.Verify "oldcorrect horse" "correct horse" = (true, true).
Proof.
  set (tr := Demo.trace_of Demo.login).
  assert (∃ x, x ∈ tr ∧ swap_of x = Some (1, "oldcorrect horse", "#correct horse")) as (x & Hx & Hs).
  { exists (Ev (RCompareAndSwap 1 "oldcorrect horse" "#correct horse") (Ok true)). split; [|done].
    vm_compute. do 5 right. left. }
  exists x. split_and!; [done|done|].
  apply (rehash_keeps_password Demo.Verify Demo.HashAPIKey Demo.ip Demo.ttl " root " "correct horse"
    {| CreatedIP := ""; UserAgent := "curl" |} tr (Demo.result_of Demo.login).1 x 1 "oldcorrect horse" "#correct horse");
    [apply Demo.trace_executes|done|done].
Defined.

End SessionsThms.
