(* ===== verification/AdminKeys.v ===== *)
(** * Client API keys and routing pools

    The part of [admin/service.go] that manages API keys and routing pools, and
    the methods of [store/admin.go] behind it.

    The state is the content of the tables [routing_pools],
    [routing_pool_accounts], [client_api_keys] and [client_api_key_models].  A
    statement or a transaction is one function; a repository method that makes
    several of them outside of a transaction is a program, so that others may
    act in between.  Audit events and alert recoveries are left out. *)

From S2P Require Import Prelude GoStrings Effects Ledger AdminBase.

Module AdminKeys.
Import AdminBase.

(** ** Tables *)

Record pool_row := {
  pl_id : Z; pl_name : string; pl_description : string; pl_enabled : bool; pl_fallback : option Z;
  pl_created_at : Time; pl_updated_at : Time
}.

Record member_row := { m_pool : Z; m_account : Z; m_priority : Z }.

(** A key with its rows in [client_api_key_models]; the order in which the
    database returns the models is not represented. *)
Record key_row := {
  k_id : Z; k_name : string; k_hash : string; k_prefix : string; k_encrypted_secret : string;
  k_created_at : Time; k_last_used_at : option Time; k_revoked_at : option Time; k_disabled_at : option Time;
  k_model_policy : string; k_models : list string;
  k_requests_per_minute : Z; k_tokens_per_minute : Z; k_budgets : Ledger.apiKeyBudgetLimits;
  k_routing_pool : option Z
}.

Record db := {
  pools : list pool_row; members : list member_row; keys : list key_row;
  accounts : list Z; next_pool : Z; next_key : Z
}.

Definition set_pools (l : list pool_row) (d : db) : db :=
  Build_db l (members d) (keys d) (accounts d) (next_pool d) (next_key d).
Definition set_members (l : list member_row) (d : db) : db :=
  Build_db (pools d) l (keys d) (accounts d) (next_pool d) (next_key d).
Definition set_keys (l : list key_row) (d : db) : db :=
  Build_db (pools d) (members d) l (accounts d) (next_pool d) (next_key d).

Abbreviation pg_time := Ledger.pg_time.

Definition find_pool (id : Z) (d : db) : option pool_row := List.find (fun p => bool_decide (pl_id p = id)) (pools d).
Definition find_key (id : Z) (d : db) : option key_row := List.find (fun k => bool_decide (k_id k = id)) (keys d).

(** A reference to a pool is null or one that exists. *)
Definition pool_ref_ok (r : option Z) (d : db) : bool :=
  match r with None => true | Some i => bool_decide (is_Some (find_pool i d)) end.

(** ** Routing pools: statements and transactions *)

(** [SELECT fallback_pool_id FROM routing_pools WHERE id = $1] *)
Definition SelectFallback (id : Z) (d : db) : result aerror (option Z) :=
  match find_pool id d with Some p => Ok (pl_fallback p) | None => Err ErrNotFound end.

Definition InsertPool (dbnow : Time) (name description : string) (enabled : bool) (fallback : option Z) (d : db)
  : result aerror Z * db :=
  if existsb (fun p => str_eq (pl_name p) name) (pools d) || negb (pool_ref_ok fallback d) then (Err ErrStore, d)
  else
    let p := {| pl_id := next_pool d; pl_name := name; pl_description := description; pl_enabled := enabled;
                pl_fallback := fallback; pl_created_at := dbnow; pl_updated_at := dbnow |} in
    (Ok (next_pool d),
     Build_db (pools d ++ [p]) (members d) (keys d) (accounts d) (next_pool d + 1) (next_key d)).

Definition rewrite_pool (dbnow : Time) (name description : string) (enabled : bool) (fallback : option Z)
    (p : pool_row) : pool_row :=
  {| pl_id := pl_id p; pl_name := name; pl_description := description; pl_enabled := enabled;
     pl_fallback := fallback; pl_created_at := pl_created_at p; pl_updated_at := dbnow |}.

Definition UpdatePool (dbnow : Time) (id : Z) (name description : string) (enabled : bool) (fallback : option Z)
    (d : db) : result aerror Z * db :=
  match find_pool id d with
  | None => (Err ErrNotFound, d)
  | Some _ =>
      if existsb (fun p => str_eq (pl_name p) name && negb (bool_decide (pl_id p = id))) (pools d)
         || negb (pool_ref_ok fallback d)
      then (Err ErrStore, d)
      else
        (Ok id, set_pools (map (fun p => if bool_decide (pl_id p = id)
                                         then rewrite_pool dbnow name description enabled fallback p else p)
                             (pools d)) d)
  end.

(** What the foreign keys make of references to a deleted pool. *)
Definition unlink (id : Z) (r : option Z) : option Z := if bool_decide (r = Some id) then None else r.

Definition unlink_pool (id : Z) (p : pool_row) : pool_row :=
  {| pl_id := pl_id p; pl_name := pl_name p; pl_description := pl_description p; pl_enabled := pl_enabled p;
     pl_fallback := unlink id (pl_fallback p); pl_created_at := pl_created_at p; pl_updated_at := pl_updated_at p |}.

Definition set_routing_pool (r : option Z) (k : key_row) : key_row :=
  {| k_id := k_id k; k_name := k_name k; k_hash := k_hash k; k_prefix := k_prefix k;
     k_encrypted_secret := k_encrypted_secret k; k_created_at := k_created_at k; k_last_used_at := k_last_used_at k;
     k_revoked_at := k_revoked_at k; k_disabled_at := k_disabled_at k; k_model_policy := k_model_policy k;
     k_models := k_models k; k_requests_per_minute := k_requests_per_minute k;
     k_tokens_per_minute := k_tokens_per_minute k; k_budgets := k_budgets k; k_routing_pool := r |}.

(** [ON DELETE CASCADE] for the memberships, [ON DELETE SET NULL] for the
    fallbacks and the keys. *)
Definition DeleteRoutingPool (id : Z) (d : db) : result aerror unit * db :=
  match find_pool id d with
  | None => (Err ErrNotFound, d)
  | Some _ =>
      (Ok tt,
       Build_db (map (unlink_pool id) (List.filter (fun p => negb (bool_decide (pl_id p = id))) (pools d)))
         (List.filter (fun m => negb (bool_decide (m_pool m = id))) (members d))
         (map (fun k => set_routing_pool (unlink id (k_routing_pool k)) k) (keys d))
         (accounts d) (next_pool d) (next_key d))
  end.

Record RoutingPoolAccount := { AccountID : Z; Priority : Z }.

(** The rows are inserted one by one; the primary key refuses a second row for
    an account, the foreign key one that does not exist. *)
Fixpoint insert_members (id : Z) (accts : list Z) (l : list RoutingPoolAccount) (ms : list member_row)
  : option (list member_row) :=
  match l with
  | [] => Some ms
  | a :: l =>
      if negb (bool_decide (AccountID a ∈ accts)) ||
         existsb (fun m => bool_decide (m_pool m = id) && bool_decide (m_account m = AccountID a)) ms then None
      else insert_members id accts l (ms ++ [{| m_pool := id; m_account := AccountID a; m_priority := Priority a |}])
  end.

Definition ReplaceMembers (id : Z) (l : list RoutingPoolAccount) (d : db) : result aerror unit * db :=
  match find_pool id d with
  | None => (Err ErrNotFound, d)
  | Some _ =>
      match insert_members id (accounts d) l (List.filter (fun m => negb (bool_decide (m_pool m = id))) (members d)) with
      | None => (Err ErrStore, d)
      | Some ms => (Ok tt, set_members ms d)
      end
  end.

Record RoutingPool := {
  RP_ID : Z; RP_Name : string; RP_Description : string; RP_Enabled : bool; RP_FallbackPoolID : option Z;
  RP_FallbackPoolName : string; RP_CreatedAt : Time; RP_UpdatedAt : Time; RP_Accounts : list RoutingPoolAccount
}.

(** [COALESCE(rp.name, '')] over the left join *)
Definition pool_name (r : option Z) (d : db) : string :=
  match r with
  | Some i => match find_pool i d with Some p => pl_name p | None => "" end
  | None => ""
  end.

(** [ORDER BY priority ASC, account_id ASC] *)
Definition member_before (x y : member_row) : Prop :=
  m_priority x < m_priority y ∨ (m_priority x = m_priority y ∧ m_account x ≤ m_account y).

#[export] Instance member_before_dec x y : Decision (member_before x y).
Proof. unfold member_before. apply _. Defined.

Definition read_pool (p : pool_row) (d : db) : RoutingPool :=
  {| RP_ID := pl_id p; RP_Name := pl_name p; RP_Description := pl_description p; RP_Enabled := pl_enabled p;
     RP_FallbackPoolID := pl_fallback p; RP_FallbackPoolName := pool_name (pl_fallback p) d;
     RP_CreatedAt := pl_created_at p; RP_UpdatedAt := pl_updated_at p;
     RP_Accounts := map (fun m => Build_RoutingPoolAccount (m_account m) (m_priority m))
       (merge_sort member_before (List.filter (fun m => bool_decide (m_pool m = pl_id p)) (members d))) |}.

Definition getRoutingPool (id : Z) (d : db) : result aerror RoutingPool :=
  match find_pool id d with Some p => Ok (read_pool p d) | None => Err ErrNotFound end.

(** ** API keys: statements and transactions *)

Record APIKey := {
  K_ID : Z; K_Name : string; K_Prefix : string; SecretAvailable : bool; K_CreatedAt : Time;
  K_LastUsedAt : option Time; K_RevokedAt : option Time; K_DisabledAt : option Time;
  K_ModelPolicy : string; K_AllowedModels : list string;
  K_RequestsPerMinute : Z; K_TokensPerMinute : Z; K_Budgets : Ledger.apiKeyBudgetLimits;
  K_RoutingPoolID : option Z; K_RoutingPoolName : string
}.

(** [apiKeySelectColumns] of a row; the models come from elsewhere. *)
Definition scanAPIKey (k : key_row) (models : list string) (d : db) : APIKey :=
  {| K_ID := k_id k; K_Name := k_name k; K_Prefix := k_prefix k;
     SecretAvailable := negb (str_eq (k_encrypted_secret k) ""); K_CreatedAt := k_created_at k;
     K_LastUsedAt := k_last_used_at k; K_RevokedAt := k_revoked_at k; K_DisabledAt := k_disabled_at k;
     K_ModelPolicy := k_model_policy k; K_AllowedModels := models; K_RequestsPerMinute := k_requests_per_minute k;
     K_TokensPerMinute := k_tokens_per_minute k; K_Budgets := k_budgets k; K_RoutingPoolID := k_routing_pool k;
     K_RoutingPoolName := pool_name (k_routing_pool k) d |}.

Definition no_budgets : Ledger.apiKeyBudgetLimits := Ledger.Build_apiKeyBudgetLimits 0 0 0 0 0 0.

Definition APIKeyModelPolicyAll : string := "all".
Definition APIKeyModelPolicySelected : string := "selected".

(** The defaults of the columns that are not given. *)
Definition InsertKey (dbnow : Time) (name hash prefix encryptedSecret : string) (pool : option Z) (d : db)
  : result aerror Z * db :=
  if existsb (fun k => str_eq (k_hash k) hash) (keys d) || negb (pool_ref_ok pool d) then (Err ErrStore, d)
  else
    let k := {| k_id := next_key d; k_name := name; k_hash := hash; k_prefix := prefix;
                k_encrypted_secret := encryptedSecret; k_created_at := dbnow; k_last_used_at := None;
                k_revoked_at := None; k_disabled_at := None; k_model_policy := APIKeyModelPolicyAll; k_models := [];
                k_requests_per_minute := 0; k_tokens_per_minute := 0; k_budgets := no_budgets;
                k_routing_pool := pool |} in
    (Ok (next_key d), Build_db (pools d) (members d) (keys d ++ [k]) (accounts d) (next_pool d) (next_key d + 1)).

Definition GetAPIKeyEncryptedSecret (id : Z) (d : db) : result aerror string :=
  match find_key id d with
  | Some k => if bool_decide (k_revoked_at k = None) then Ok (k_encrypted_secret k) else Err ErrNotFound
  | None => Err ErrNotFound
  end.

Definition update_key (id : Z) (f : key_row → key_row) (d : db) : db :=
  set_keys (map (fun k => if bool_decide (k_id k = id) then f k else k) (keys d)) d.

(** [UPDATE client_api_keys SET ... WHERE id = $1 AND revoked_at IS NULL] *)
Definition update_live (id : Z) (f : key_row → key_row) (d : db) : result aerror Z * db :=
  match find_key id d with
  | Some k => if bool_decide (k_revoked_at k = None) then (Ok id, update_key id f d) else (Err ErrNotFound, d)
  | None => (Err ErrNotFound, d)
  end.

Definition set_revoked (t : Time) (k : key_row) : key_row :=
  {| k_id := k_id k; k_name := k_name k; k_hash := k_hash k; k_prefix := k_prefix k;
     k_encrypted_secret := k_encrypted_secret k; k_created_at := k_created_at k; k_last_used_at := k_last_used_at k;
     k_revoked_at := Some (default t (k_revoked_at k)); k_disabled_at := k_disabled_at k;
     k_model_policy := k_model_policy k; k_models := k_models k; k_requests_per_minute := k_requests_per_minute k;
     k_tokens_per_minute := k_tokens_per_minute k; k_budgets := k_budgets k; k_routing_pool := k_routing_pool k |}.

Definition set_disabled (t : Time) (disabled : bool) (k : key_row) : key_row :=
  {| k_id := k_id k; k_name := k_name k; k_hash := k_hash k; k_prefix := k_prefix k;
     k_encrypted_secret := k_encrypted_secret k; k_created_at := k_created_at k; k_last_used_at := k_last_used_at k;
     k_revoked_at := k_revoked_at k;
     k_disabled_at := if disabled then Some (default t (k_disabled_at k)) else None;
     k_model_policy := k_model_policy k; k_models := k_models k; k_requests_per_minute := k_requests_per_minute k;
     k_tokens_per_minute := k_tokens_per_minute k; k_budgets := k_budgets k; k_routing_pool := k_routing_pool k |}.

Definition set_last_used (t : Time) (k : key_row) : key_row :=
  {| k_id := k_id k; k_name := k_name k; k_hash := k_hash k; k_prefix := k_prefix k;
     k_encrypted_secret := k_encrypted_secret k; k_created_at := k_created_at k; k_last_used_at := Some (pg_time t);
     k_revoked_at := k_revoked_at k; k_disabled_at := k_disabled_at k; k_model_policy := k_model_policy k;
     k_models := k_models k; k_requests_per_minute := k_requests_per_minute k;
     k_tokens_per_minute := k_tokens_per_minute k; k_budgets := k_budgets k; k_routing_pool := k_routing_pool k |}.

Definition set_settings (name policy : string) (models : list string) (rpm tpm : Z)
    (budgets : Ledger.apiKeyBudgetLimits) (k : key_row) : key_row :=
  {| k_id := k_id k; k_name := name; k_hash := k_hash k; k_prefix := k_prefix k;
     k_encrypted_secret := k_encrypted_secret k; k_created_at := k_created_at k; k_last_used_at := k_last_used_at k;
     k_revoked_at := k_revoked_at k; k_disabled_at := k_disabled_at k; k_model_policy := policy; k_models := models;
     k_requests_per_minute := rpm; k_tokens_per_minute := tpm; k_budgets := budgets;
     k_routing_pool := k_routing_pool k |}.

Definition RevokeKey (dbnow : Time) (id : Z) (d : db) : result aerror Z * db :=
  match find_key id d with
  | Some _ => (Ok id, update_key id (set_revoked dbnow) d)
  | None => (Err ErrNotFound, d)
  end.

Definition DeleteRevokedAPIKey (id : Z) (d : db) : result aerror unit * db :=
  match find_key id d with
  | Some k =>
      if bool_decide (k_revoked_at k = None) then (Err ErrNotFound, d)
      else (Ok tt, set_keys (List.filter (fun k => negb (bool_decide (k_id k = id))) (keys d)) d)
  | None => (Err ErrNotFound, d)
  end.

(** [revoked_at IS NOT NULL AND revoked_at <= $1] *)
Definition purgeable (cutoff : Time) (k : key_row) : bool :=
  match k_revoked_at k with Some t => bool_decide (t ≤ pg_time cutoff) | None => false end.

Definition PurgeRevokedAPIKeys (cutoff : Time) (d : db) : result aerror Z * db :=
  (Ok (Z.of_nat (length (List.filter (purgeable cutoff) (keys d)))),
   set_keys (List.filter (fun k => negb (purgeable cutoff k)) (keys d)) d).

Definition live (k : key_row) : bool := bool_decide (k_revoked_at k = None) && bool_decide (k_disabled_at k = None).

(** The last use is written at most once a minute. *)
Definition touch_due (now : Time) (k : key_row) : bool :=
  match k_last_used_at k with None => true | Some t => bool_decide (t ≤ pg_time now - Minute) end.

Definition AuthenticateAPIKeyByHash (hash : string) (now : Time) (d : db) : result aerror (APIKey * bool) * db :=
  match List.find (fun k => str_eq (k_hash k) hash && live k) (keys d) with
  | None => (Err ErrNotFound, d)
  | Some k =>
      let models := if str_eq (k_model_policy k) APIKeyModelPolicySelected then k_models k else [] in
      (Ok (scanAPIKey k models d, touch_due now k),
       if touch_due now k then update_key (k_id k) (set_last_used now) d else d)
  end.

Definition UpdateName (id : Z) (name : string) : db → result aerror Z * db :=
  update_live id (fun k => set_settings name (k_model_policy k) (k_models k) (k_requests_per_minute k)
                             (k_tokens_per_minute k) (k_budgets k) k).

Definition SetDisabled (dbnow : Time) (id : Z) (disabled : bool) : db → result aerror Z * db :=
  update_live id (set_disabled dbnow disabled).

Definition UpdatePolicy (id : Z) (policy : string) (models : list string) : db → result aerror Z * db :=
  update_live id (fun k => set_settings (k_name k) policy models (k_requests_per_minute k)
                             (k_tokens_per_minute k) (k_budgets k) k).

Definition UpdateLimits (id rpm tpm : Z) : db → result aerror Z * db :=
  update_live id (fun k => set_settings (k_name k) (k_model_policy k) (k_models k) rpm tpm (k_budgets k) k).

(** The limits of the row; what becomes of the ledger's state is
    [Ledger.UpdateAPIKeyBudgets]. *)
Definition UpdateBudgets (id : Z) (budgets : Ledger.apiKeyBudgetLimits) : db → result aerror Z * db :=
  update_live id (fun k => set_settings (k_name k) (k_model_policy k) (k_models k) (k_requests_per_minute k)
                             (k_tokens_per_minute k) budgets k).

Definition UpdateKeyPool (id : Z) (pool : option Z) (d : db) : result aerror Z * db :=
  if pool_ref_ok pool d then update_live id (set_routing_pool pool) d
  else match update_live id (set_routing_pool pool) d with (Ok _, _) => (Err ErrStore, d) | r => r end.

Definition SelectKey (id : Z) (d : db) : result aerror APIKey :=
  match find_key id d with Some k => Ok (scanAPIKey k [] d) | None => Err ErrNotFound end.

Definition ListAPIKeyModels (id : Z) (d : db) : list string :=
  match find_key id d with Some k => k_models k | None => [] end.

(** ** The calls *)

Inductive cmd : Set → Type :=
| Now : cmd Time
| GenerateToken : cmd (option string)
| Encrypt (value : string) : cmd (option string)
| Decrypt (value : string) : cmd (option string)
| ObserveLastUsed (outcome : string) : cmd unit
| QFindBootstrapAdmin : cmd (result aerror (Z * string))
| QListRoutingPools : cmd (result aerror (list RoutingPool))
| QFallback (id : Z) : cmd (result aerror (option Z))
| TInsertPool (name description : string) (enabled : bool) (fallback : option Z) : cmd (result aerror Z)
| TUpdatePool (id : Z) (name description : string) (enabled : bool) (fallback : option Z) : cmd (result aerror Z)
| TDeletePool (id : Z) : cmd (result aerror unit)
| TReplaceMembers (id : Z) (l : list RoutingPoolAccount) : cmd (result aerror unit)
| QPool (id : Z) : cmd (result aerror RoutingPool)
| TInsertKey (name hash prefix encryptedSecret : string) (pool : option Z) : cmd (result aerror Z)
| QEncryptedSecret (id : Z) : cmd (result aerror string)
| TRevokeKey (id : Z) : cmd (result aerror Z)
| TDeleteKey (id : Z) : cmd (result aerror unit)
| TPurge (cutoff : Time) : cmd (result aerror Z)
| TAuthenticate (hash : string) (now : Time) : cmd (result aerror (APIKey * bool))
| TUpdateName (id : Z) (name : string) : cmd (result aerror Z)
| TSetDisabled (id : Z) (disabled : bool) : cmd (result aerror Z)
| TUpdatePolicy (id : Z) (policy : string) (models : list string) : cmd (result aerror Z)
| TUpdateLimits (id rpm tpm : Z) : cmd (result aerror Z)
| TUpdateBudgets (id : Z) (budgets : Ledger.apiKeyBudgetLimits) : cmd (result aerror Z)
| TUpdateKeyPool (id : Z) (pool : option Z) : cmd (result aerror Z)
| QKey (id : Z) : cmd (result aerror APIKey)
| QKeyModels (id : Z) : cmd (result aerror (list string)).

Abbreviation P := (prog cmd).
Definition call {R : Set} (c : cmd R) : P R := Vis c Ret.

(** Continuing with the value of a fallible step. *)
Definition try {A B : Type} (p : P (result aerror A)) (f : A → P (result aerror B)) : P (result aerror B) :=
  let! r := p in match r with Ok a => f a | Err e => Ret (Err e) end.

(** ** The repository's methods *)

Definition with_models (models : list string) (k : APIKey) : APIKey :=
  {| K_ID := K_ID k; K_Name := K_Name k; K_Prefix := K_Prefix k; SecretAvailable := SecretAvailable k;
     K_CreatedAt := K_CreatedAt k; K_LastUsedAt := K_LastUsedAt k; K_RevokedAt := K_RevokedAt k;
     K_DisabledAt := K_DisabledAt k; K_ModelPolicy := K_ModelPolicy k; K_AllowedModels := models;
     K_RequestsPerMinute := K_RequestsPerMinute k; K_TokensPerMinute := K_TokensPerMinute k;
     K_Budgets := K_Budgets k; K_RoutingPoolID := K_RoutingPoolID k; K_RoutingPoolName := K_RoutingPoolName k |}.

Definition loadAPIKey (id : Z) : P (result aerror APIKey) :=
  try (call (QKey id)) (fun k =>
    if str_eq (K_ModelPolicy k) APIKeyModelPolicySelected
    then try (call (QKeyModels (K_ID k))) (fun models => Ret (Ok (with_models models k)))
    else Ret (Ok k)).

(** The loop of [validateRoutingPoolFallback]; [None] when the fuel runs out. *)
Fixpoint fallback_loop (fuel : nat) (seen : list Z) (currentID : Z) : P (option (result aerror unit)) :=
  match fuel with
  | O => Ret None
  | S fuel =>
      if bool_decide (currentID ≤ 0) then Ret (Some (Ok tt))
      else if bool_decide (currentID ∈ seen) then Ret (Some (Err ErrInvalidInput))
      else
        let! r := call (QFallback currentID) in
        match r with
        | Err ErrNotFound => Ret (Some (Err ErrInvalidInput))
        | Err e => Ret (Some (Err e))
        | Ok None => Ret (Some (Ok tt))
        | Ok (Some next) => fallback_loop fuel (currentID :: seen) next
        end
  end.

Definition validateRoutingPoolFallback (fuel : nat) (poolID : Z) (fallback : option Z)
  : P (option (result aerror unit)) :=
  match fallback with
  | None => Ret (Some (Ok tt))
  | Some f =>
      if bool_decide (f ≤ 0) || bool_decide (f = poolID) then Ret (Some (Err ErrInvalidInput))
      else fallback_loop fuel (if bool_decide (0 < poolID) then [poolID] else []) f
  end.

(** A validated change of a pool, then the pool as it is. *)
Definition validated_change (fuel : nat) (poolID : Z) (fallback : option Z) (change : cmd (result aerror Z))
  : P (option (result aerror RoutingPool)) :=
  let! v := validateRoutingPoolFallback fuel poolID fallback in
  match v with
  | None => Ret None
  | Some (Err e) => Ret (Some (Err e))
  | Some (Ok _) => let! r := try (call change) (fun id => call (QPool id)) in Ret (Some r)
  end.

Definition repo_CreateRoutingPool fuel (name description : string) (enabled : bool) (fallback : option Z) :=
  validated_change fuel 0 fallback (TInsertPool name description enabled fallback).

Definition repo_UpdateRoutingPool fuel (id : Z) (name description : string) (enabled : bool) (fallback : option Z) :=
  validated_change fuel id fallback (TUpdatePool id name description enabled fallback).

(** ** The service: routing pools *)

Definition normalizeRoutingPoolFallbackID (id : option Z) : result aerror (option Z) :=
  match id with
  | None => Ok None
  | Some i => if bool_decide (i = 0) then Ok None else if bool_decide (i < 0) then Err ErrInvalidInput else Ok (Some i)
  end.

Definition CreateRoutingPool fuel (name description : string) (enabled : bool) (fallback : option Z)
  : P (option (result aerror RoutingPool)) :=
  let name := TrimSpace name in
  let description := TrimSpace description in
  if str_eq name "" then Ret (Some (Err ErrInvalidInput))
  else match normalizeRoutingPoolFallbackID fallback with
       | Err e => Ret (Some (Err e))
       | Ok fallback => repo_CreateRoutingPool fuel name description enabled fallback
       end.

Definition UpdateRoutingPool fuel (id : Z) (name description : string) (enabled : bool) (fallback : option Z)
  : P (option (result aerror RoutingPool)) :=
  let name := TrimSpace name in
  let description := TrimSpace description in
  if bool_decide (id ≤ 0) || str_eq name "" then Ret (Some (Err ErrInvalidInput))
  else match normalizeRoutingPoolFallbackID fallback with
       | Err e => Ret (Some (Err e))
       | Ok fallback =>
           if bool_decide (fallback = Some id) then Ret (Some (Err ErrInvalidInput))
           else repo_UpdateRoutingPool fuel id name description enabled fallback
       end.

Definition DeletePool (id : Z) : P (result aerror unit) :=
  if bool_decide (id ≤ 0) then Ret (Err ErrInvalidInput) else call (TDeletePool id).

(** The first entry of each account; [None] when an entry is invalid. *)
Fixpoint normalize_members (seen : list Z) (l : list RoutingPoolAccount) : option (list RoutingPoolAccount) :=
  match l with
  | [] => Some []
  | a :: l =>
      if bool_decide (AccountID a ≤ 0) || bool_decide (Priority a < 0) then None
      else if bool_decide (AccountID a ∈ seen) then normalize_members seen l
      else match normalize_members (AccountID a :: seen) l with Some r => Some (a :: r) | None => None end
  end.

Definition ReplaceRoutingPoolAccounts (id : Z) (l : list RoutingPoolAccount) : P (result aerror RoutingPool) :=
  if bool_decide (id ≤ 0) then Ret (Err ErrInvalidInput)
  else match normalize_members [] l with
       | None => Ret (Err ErrInvalidInput)
       | Some l => try (call (TReplaceMembers id l)) (fun _ => call (QPool id))
       end.

(** ** The service: API keys *)

Definition APIKeyPhysicalDeleteRetention : Duration := 7 * 24 * Hour.

Section keys.
(** The hash and the prefix of a token, the verification of a password; whether
    there is a key to encrypt secrets with. *)
Variables (HashAPIKey TokenPrefix : string → string) (Verify : string → string → bool) (encrypting : bool).

Record CreatedAPIKey := { Key : APIKey; Secret : string }.

(** A pool given as zero means none. *)
Definition normalize_pool (pool : option Z) : result aerror (option Z) :=
  match pool with
  | Some i => if bool_decide (i < 0) then Err ErrInvalidInput else if bool_decide (i = 0) then Ok None else Ok (Some i)
  | None => Ok None
  end.

Definition pool_known (pool : option Z) : P (result aerror unit) :=
  match pool with
  | None => Ret (Ok tt)
  | Some i =>
      try (call QListRoutingPools) (fun l =>
        Ret (if existsb (fun p => bool_decide (RP_ID p = i)) l then Ok tt else Err ErrNotFound))
  end.

Definition repo_CreateAPIKey (name hash prefix encryptedSecret : string) (pool : option Z) : P (result aerror APIKey) :=
  try (call (TInsertKey name hash prefix encryptedSecret pool)) loadAPIKey.

Definition CreateAPIKey (name : string) (pool : option Z) : P (result aerror CreatedAPIKey) :=
  let name := TrimSpace name in
  if str_eq name "" then Ret (Err ErrInvalidInput)
  else
    try (Ret (normalize_pool pool)) (fun pool =>
    try (pool_known pool) (fun _ =>
    let! t := call GenerateToken in
    match t with
    | None => Ret (Err ErrCrypto)
    | Some token =>
        let! e := (if encrypting then call (Encrypt token) else Ret (Some "")) in
        match e with
        | None => Ret (Err ErrCrypto)
        | Some encryptedSecret =>
            try (repo_CreateAPIKey name (HashAPIKey token) (TokenPrefix token) encryptedSecret pool) (fun key =>
              Ret (Ok {| Key := key; Secret := token |}))
        end
    end)).

Definition RevealAPIKeySecret (adminID keyID : Z) (currentPassword : string) : P (result aerror string) :=
  if bool_decide (adminID ≤ 0) || bool_decide (keyID ≤ 0) then Ret (Err ErrUnauthorized)
  else
    try (call QFindBootstrapAdmin) (fun a =>
    if negb (bool_decide (a.1 = adminID)) then Ret (Err ErrUnauthorized)
    else if negb (Verify a.2 currentPassword) then Ret (Err ErrUnauthorized)
    else
      try (call (QEncryptedSecret keyID)) (fun encrypted =>
      if str_eq (TrimSpace encrypted) "" then Ret (Err ErrNotFound)
      else
        let! v := call (Decrypt encrypted) in
        Ret (match v with Some value => Ok value | None => Err ErrCrypto end))).

Definition PurgeExpiredAPIKeys : P (result aerror Z) :=
  let! now := call Now in call (TPurge (now - APIKeyPhysicalDeleteRetention)).

Definition RevokeAPIKey (id : Z) : P (result aerror APIKey) := try (call (TRevokeKey id)) loadAPIKey.
Definition DeleteAPIKey (id : Z) : P (result aerror unit) := call (TDeleteKey id).

Definition UpdateAPIKeyName (id : Z) (name : string) : P (result aerror APIKey) :=
  let name := TrimSpace name in
  if str_eq name "" then Ret (Err ErrInvalidInput) else try (call (TUpdateName id name)) loadAPIKey.

Definition SetAPIKeyDisabled (id : Z) (disabled : bool) : P (result aerror APIKey) :=
  try (call (TSetDisabled id disabled)) loadAPIKey.

Definition maxModels : nat := 100.
Definition maxModelNameLen : Z := 128.

(** The loop of [normalizeModelList], with what is kept so far. *)
Fixpoint normalize_models (normalized : list string) (models : list string) : option (list string) :=
  match models with
  | [] => Some normalized
  | raw :: models =>
      let model := TrimSpace raw in
      if str_eq model "" then normalize_models normalized models
      else if bool_decide (maxModelNameLen < go_len model) then None
      else if bool_decide (model ∈ normalized) then normalize_models normalized models
      else if bool_decide (maxModels < length (normalized ++ [model]))%nat then None
      else normalize_models (normalized ++ [model]) models
  end.

Definition normalizeModelList (models : list string) : result aerror (list string) :=
  match normalize_models [] models with Some l => Ok l | None => Err ErrInvalidInput end.

(** The repository's own normalisation. *)
Fixpoint normalizeAPIKeyModels (normalized : list string) (models : list string) : list string :=
  match models with
  | [] => normalized
  | raw :: models =>
      let model := TrimSpace raw in
      if str_eq model "" || bool_decide (model ∈ normalized) then normalizeAPIKeyModels normalized models
      else normalizeAPIKeyModels (normalized ++ [model]) models
  end.

Definition repo_UpdateAPIKeyModelPolicy (id : Z) (policy : string) (models : list string) : P (result aerror APIKey) :=
  try (call (TUpdatePolicy id policy (normalizeAPIKeyModels [] models))) loadAPIKey.

Definition UpdateAPIKeyModelPolicy (id : Z) (policy : string) (models : list string) : P (result aerror APIKey) :=
  let policy := TrimSpace policy in
  if str_eq policy APIKeyModelPolicyAll then repo_UpdateAPIKeyModelPolicy id policy []
  else if str_eq policy APIKeyModelPolicySelected then
    try (Ret (normalizeModelList models)) (fun normalized =>
      if bool_decide (normalized = []) then Ret (Err ErrInvalidInput)
      else repo_UpdateAPIKeyModelPolicy id policy normalized)
  else Ret (Err ErrInvalidInput).

Definition UpdateAPIKeyLimits (id rpm tpm : Z) : P (result aerror APIKey) :=
  if bool_decide (rpm < 0) || bool_decide (tpm < 0) then Ret (Err ErrInvalidInput)
  else try (call (TUpdateLimits id rpm tpm)) loadAPIKey.

Definition budgets_negative (b : Ledger.apiKeyBudgetLimits) : bool :=
  existsb (fun x => bool_decide (x < 0))
    [Ledger.Request24h b; Ledger.Token24h b; Ledger.Cost24h b; Ledger.Request30d b; Ledger.Token30d b; Ledger.Cost30d b].

Definition UpdateAPIKeyBudgets (id : Z) (b : Ledger.apiKeyBudgetLimits) : P (result aerror APIKey) :=
  if budgets_negative b then Ret (Err ErrInvalidInput) else try (call (TUpdateBudgets id b)) loadAPIKey.

Definition UpdateAPIKeyRoutingPool (id : Z) (pool : option Z) : P (result aerror APIKey) :=
  if bool_decide (id ≤ 0) then Ret (Err ErrInvalidInput)
  else try (Ret (normalize_pool pool)) (fun pool => try (call (TUpdateKeyPool id pool)) loadAPIKey).

Definition APIKeyAllowsModel (key : APIKey) (model : string) : bool :=
  if str_eq (K_ModelPolicy key) "" || str_eq (K_ModelPolicy key) APIKeyModelPolicyAll then true
  else if str_eq (K_ModelPolicy key) APIKeyModelPolicySelected
       then existsb (str_eq (TrimSpace model)) (K_AllowedModels key)
       else false.

Definition AuthenticateAPIKey (apiKey : string) : P (result aerror APIKey) :=
  let apiKey := TrimSpace apiKey in
  if str_eq apiKey "" then Ret (Err ErrUnauthorized)
  else
    let! now := call Now in
    let! r := call (TAuthenticate (HashAPIKey apiKey) now) in
    match r with
    | Err ErrNotFound => Ret (Err ErrUnauthorized)
    | Err _ => call (ObserveLastUsed "failure") ;; Ret (Err ErrAuthenticationUnavailable)
    | Ok (key, touched) => call (ObserveLastUsed (if touched then "updated" else "skipped")) ;; Ret (Ok key)
    end.

End keys.

(** ** What a call does to the tables *)

Definition token_ok (t : string) : Prop := TrimSpace t = t ∧ t ≠ "".

(** A transaction that reads the clock of the database. *)
Definition transacts_at {A : Type} (f : Time → result aerror A * db) (d : db) (r : result aerror A) (d' : db) : Prop :=
  ∃ dbnow, transacts (f (pg_time dbnow)) d r d'.

Definition acts (R : Set) (c : cmd R) (d : db) : R → db → Prop :=
  match c in cmd R return R → db → Prop with
  | Now | Encrypt _ | Decrypt _ | ObserveLastUsed _ | QFindBootstrapAdmin => fun _ d' => d' = d
  | GenerateToken => fun t d' => d' = d ∧ match t with Some t => token_ok t | None => True end
  | QListRoutingPools => fun r d' => d' = d ∧
      match r with Ok l => l ≡ₚ map (fun p => read_pool p d) (pools d) | Err e => e = ErrStore end
  | QFallback id => transacts (SelectFallback id d, d) d
  | TInsertPool n ds e f => transacts_at (fun t => InsertPool t n ds e f d) d
  | TUpdatePool id n ds e f => transacts_at (fun t => UpdatePool t id n ds e f d) d
  | TDeletePool id => transacts (DeleteRoutingPool id d) d
  | TReplaceMembers id l => transacts (ReplaceMembers id l d) d
  | QPool id => transacts (getRoutingPool id d, d) d
  | TInsertKey n h p s pool => transacts_at (fun t => InsertKey t n h p s pool d) d
  | QEncryptedSecret id => transacts (GetAPIKeyEncryptedSecret id d, d) d
  | TRevokeKey id => transacts_at (fun t => RevokeKey t id d) d
  | TDeleteKey id => transacts (DeleteRevokedAPIKey id d) d
  | TPurge cutoff => transacts (PurgeRevokedAPIKeys cutoff d) d
  | TAuthenticate h now => transacts (AuthenticateAPIKeyByHash h now d) d
  | TUpdateName id n => transacts (UpdateName id n d) d
  | TSetDisabled id b => transacts_at (fun t => SetDisabled t id b d) d
  | TUpdatePolicy id p ms => transacts (UpdatePolicy id p ms d) d
  | TUpdateLimits id r t => transacts (UpdateLimits id r t d) d
  | TUpdateBudgets id b => transacts (UpdateBudgets id b d) d
  | TUpdateKeyPool id p => transacts (UpdateKeyPool id p d) d
  | QKey id => transacts (SelectKey id d, d) d
  | QKeyModels id => transacts (Ok (ListAPIKeyModels id d), d) d
  end.

(** Everybody else: any call, with any arguments. *)
Definition others (d d' : db) : Prop := ∃ (R : Set) (c : cmd R) r, acts R c d r d'.

(** Nobody else. *)
Definition alone (d d' : db) : Prop := False.

End AdminKeys.
