(* ===== verification/AdminKeysThms.v ===== *)
(** * Client API keys and routing pools: theorems

    The fallback links of the routing pools stay acyclic as long as the
    operations run one after the other, and not when two of them overlap; a
    revoked key never authenticates again, whatever happens in between. *)

From S2P Require Import Prelude GoStrings Effects Ledger AdminBase AdminKeys.

Module AdminKeysThms.
Import AdminBase AdminKeys.

(** ** Consistent pools *)

Record wf_pools (d : db) : Prop := {
  wfp_ids : NoDup (map pl_id (pools d));
  wfp_range : Forall (fun p => 0 < pl_id p < next_pool d) (pools d);
  wfp_next : 0 < next_pool d;
  wfp_fallback : ∀ p j, p ∈ pools d → pl_fallback p = Some j → is_Some (find_pool j d)
}.

Definition fallback_of (d : db) (i : Z) : option Z :=
  match find_pool i d with Some p => pl_fallback p | None => None end.

(** The chain from a pool comes to an end. *)
Inductive ends (d : db) : Z → Prop :=
| ends_last i : fallback_of d i = None → ends d i
| ends_next i j : fallback_of d i = Some j → ends d j → ends d i.

Definition acyclic (d : db) : Prop := ∀ i, ends d i.

(** ... without meeting pool [x]. *)
Inductive ends_without (d : db) (x : Z) : Z → Prop :=
| without_last i : i ≠ x → fallback_of d i = None → ends_without d x i
| without_next i j : i ≠ x → fallback_of d i = Some j → ends_without d x j → ends_without d x i.

Lemma find_pool_in i d p : find_pool i d = Some p → p ∈ pools d ∧ pl_id p = i.
Proof.
  unfold find_pool. intros [Hin Hid]%find_some. split; [by apply list_elem_of_In|]. by apply bool_decide_eq_true in Hid.
Qed.

Lemma find_pool_none i d p : find_pool i d = None → p ∈ pools d → pl_id p ≠ i.
Proof.
  unfold find_pool. intros Hn Hp. apply find_none with (x := p) in Hn; [|by apply list_elem_of_In].
  by apply bool_decide_eq_false in Hn.
Qed.

Lemma fallback_known d i j : wf_pools d → fallback_of d i = Some j → is_Some (find_pool j d) ∧ 0 < j.
Proof.
  unfold fallback_of. intros Hwf. destruct (find_pool i d) as [p|] eqn:Hp; [|done]. intros Hj.
  apply find_pool_in in Hp as [Hp _]. pose proof (wfp_fallback _ Hwf _ _ Hp Hj) as [q Hq]. split; [by eexists|].
  apply find_pool_in in Hq as [Hq <-]. pose proof (wfp_range _ Hwf) as Hr. rewrite Forall_forall in Hr. by apply Hr.
Qed.

(** Changing the links of [x] only keeps the chains that avoid it. *)
Lemma ends_without_ends d d' x i :
  (∀ k, k ≠ x → fallback_of d' k = fallback_of d k) → ends_without d x i → ends d' i.
Proof.
  intros Hsame. induction 1 as [i Hx Hn|i j Hx Hj _ IH].
  - apply ends_last. by rewrite Hsame.
  - apply ends_next with j; [by rewrite Hsame|done].
Qed.

Lemma acyclic_relink d d' x :
  (∀ k, k ≠ x → fallback_of d' k = fallback_of d k) →
  (∀ j, fallback_of d' x = Some j → ends d' j) → acyclic d → acyclic d'.
Proof.
  intros Hsame Hx Hac i. induction (Hac i) as [i Hn|i j Hj _ IH]; destruct (decide (i = x)) as [->|Hne].
  1, 3: destruct (fallback_of d' x) as [j'|] eqn:E; [eapply ends_next; eauto|by apply ends_last].
  - apply ends_last. by rewrite Hsame.
  - apply ends_next with j; [by rewrite Hsame|done].
Qed.

(** Removing links keeps every chain finite. *)
Lemma acyclic_fewer d d' :
  (∀ k j, fallback_of d' k = Some j → fallback_of d k = Some j) → acyclic d → acyclic d'.
Proof.
  intros Hsub Hac i. induction (Hac i) as [i Hn|i j Hj _ IH]; destruct (fallback_of d' i) as [j'|] eqn:E;
    [|by apply ends_last| |by apply ends_last]; pose proof (Hsub _ _ E); [congruence|].
  assert (j' = j) as -> by congruence. by apply ends_next with j.
Qed.

(** ** The validation of a fallback, undisturbed *)

Abbreviation Alone := (runs acts alone).

Lemma alone_rtc d d' : rtc alone d d' → d' = d.
Proof. by inversion 1. Qed.

(** One call of a run without others. *)
Ltac step_alone Hr x d2 Ha :=
  let d1 := fresh "d" in let Hd := fresh "Hd" in
  apply runs_inv in Hr as (d1 & x & d2 & Hd & Ha & Hr); apply alone_rtc in Hd; subst d1; simpl in Ha, Hr.
Ltac end_alone Hr := 
  let Hd := fresh "Hd" in apply runs_inv in Hr as [Hr Hd]; apply alone_rtc in Hd; subst.

Lemma transacts_query {A} (a : result aerror A) (d : db) r d' :
  transacts (a, d) d r d' → d' = d ∧ (r = a ∨ r = Err ErrStore).
Proof. intros [[= -> ->]|[-> [-> | ->]]]; auto. Qed.

Lemma SelectFallback_ok d i r : SelectFallback i d = Ok r → is_Some (find_pool i d) ∧ fallback_of d i = r.
Proof. unfold SelectFallback, fallback_of. destruct (find_pool i d); [|done]. intros [= ->]. split; [by eexists|done]. Qed.

Lemma fallback_loop_ok fuel seen c d d' :
  wf_pools d → 0 < c → Alone (fallback_loop fuel seen c) d (Some (Ok tt)) d' →
  d' = d ∧ is_Some (find_pool c d) ∧ ∀ x, x ∈ seen → ends_without d x c.
Proof.
  intros Hwf. revert seen c. induction fuel as [|fuel IH]; intros seen c Hc Hr; cbn [fallback_loop] in Hr.
  { end_alone Hr. done. }
  rewrite bool_decide_false in Hr by lia. case_bool_decide as Hseen; [by end_alone Hr|].
  step_alone Hr r d1 Ha. apply transacts_query in Ha as [-> [-> | ->]]; [|by end_alone Hr].
  destruct (SelectFallback c d) as [[j|]|e] eqn:Hs.
  - apply SelectFallback_ok in Hs as [Hk Hj]. pose proof (fallback_known _ _ _ Hwf Hj) as [_ Hpos].
    apply IH in Hr as (-> & _ & Hav); [|done]. split_and!; [done|done|]. intros x Hx.
    apply without_next with j; [set_solver|done|]. apply Hav. by right.
  - apply SelectFallback_ok in Hs as [Hk Hj]. end_alone Hr. split_and!; [done|done|]. intros x Hx.
    apply without_last; [set_solver|done].
  - destruct e; by end_alone Hr.
Qed.

Lemma validate_ok fuel id fb d d' :
  wf_pools d → Alone (validateRoutingPoolFallback fuel id fb) d (Some (Ok tt)) d' →
  d' = d ∧ ∀ f, fb = Some f → f ≠ id ∧ is_Some (find_pool f d) ∧ (0 < id → ends_without d id f).
Proof.
  intros Hwf Hr. destruct fb as [f|]; cbn [validateRoutingPoolFallback] in Hr; [|by end_alone Hr].
  destruct (bool_decide (f ≤ 0)) eqn:Hf; [by end_alone Hr|]. apply bool_decide_eq_false in Hf.
  destruct (bool_decide (f = id)) eqn:Hid; [by end_alone Hr|]. apply bool_decide_eq_false in Hid. simpl in Hr.
  apply fallback_loop_ok in Hr as (-> & Hk & Hav); [|done|lia]. split; [done|]. intros f' [= <-].
  split_and!; [done|done|]. intros Hpos. apply Hav. rewrite bool_decide_true by done. set_solver.
Qed.

(** The validation ends: every round meets a pool it has not met. *)
Lemma fallback_loop_total fuel seen x c d d' :
  NoDup seen → (∀ y, y ∈ seen → y = x ∨ y ∈ map pl_id (pools d)) → (length (pools d) + 1 < fuel + length seen)%nat →
  ¬ Alone (fallback_loop fuel seen c) d None d'.
Proof.
  revert seen c. induction fuel as [|fuel IH]; intros seen c Hnd Hsub Hlen Hr; cbn [fallback_loop] in Hr.
  - assert (length seen ≤ length (x :: map pl_id (pools d)))%nat as Hle; [|simpl in Hle; rewrite length_map in Hle; lia].
    apply NoDup_incl_length; [by apply NoDup_ListNoDup|]. intros y Hy%list_elem_of_In.
    destruct (Hsub y Hy) as [->|?]; [by left|right; by apply list_elem_of_In].
  - case_bool_decide; [by end_alone Hr|]. case_bool_decide as Hseen; [by end_alone Hr|].
    step_alone Hr r d1 Ha. apply transacts_query in Ha as [-> [-> | ->]]; [|by end_alone Hr].
    destruct (SelectFallback c d) as [[j|]|e] eqn:Hs; [|by end_alone Hr|destruct e; by end_alone Hr].
    apply SelectFallback_ok in Hs as [[p Hp] _]. apply find_pool_in in Hp as [Hp <-].
    eapply (IH (pl_id p :: seen)); [by constructor| |simpl; lia|exact Hr].
    intros y [->|Hy]%elem_of_cons; [right; by apply list_elem_of_fmap_2|auto].
Qed.

Lemma validate_total fuel id fb d d' :
  (length (pools d) + 2 ≤ fuel)%nat → ¬ Alone (validateRoutingPoolFallback fuel id fb) d None d'.
Proof.
  intros Hfuel Hr. destruct fb as [f|]; cbn [validateRoutingPoolFallback] in Hr; [|by end_alone Hr].
  destruct (_ || _); [by end_alone Hr|]. revert Hr. apply fallback_loop_total with id.
  - case_bool_decide; [apply NoDup_singleton|apply NoDup_nil_2].
  - intros y. case_bool_decide; set_solver.
  - lia.
Qed.

(** ** What the transactions do to the links *)

Lemma pool_ref_known r d : pool_ref_ok r d = true → ∀ j, r = Some j → is_Some (find_pool j d).
Proof. unfold pool_ref_ok. intros H j ->. by apply bool_decide_eq_true in H. Qed.

Lemma next_pool_unknown d : wf_pools d → find_pool (next_pool d) d = None.
Proof.
  intros Hwf. destruct (find_pool _ d) as [p|] eqn:E; [|done]. apply find_pool_in in E as [Hp Hid].
  pose proof (wfp_range _ Hwf) as Hr. rewrite Forall_forall in Hr. specialize (Hr p Hp). lia.
Qed.

Lemma ends_without_next d i : wf_pools d → acyclic d → i ≠ next_pool d → ends_without d (next_pool d) i.
Proof.
  intros Hwf Hac. induction (Hac i) as [i Hn|i j Hj _ IH]; intros Hi; [by apply without_last|].
  apply without_next with j; [done..|]. apply IH. intros ->. apply fallback_known in Hj as [[p Hp] _]; [|done].
  by rewrite next_pool_unknown in Hp.
Qed.

(** An insertion that passed the validation. *)
Lemma InsertPool_keeps t n ds e fb d :
  wf_pools d → acyclic d → wf_pools (InsertPool t n ds e fb d).2 ∧ acyclic (InsertPool t n ds e fb d).2.
Proof.
  intros Hwf Hac. unfold InsertPool. destruct (existsb _ _ || negb _) eqn:He; [done|].
  apply orb_false_iff in He as [_ Href]. apply negb_false_iff in Href. cbn [snd].
  set (d' := Build_db _ _ _ _ _ _). pose proof (next_pool_unknown d Hwf) as Hnone.
  assert (∀ k, k ≠ next_pool d → find_pool k d' = find_pool k d) as Hfind.
  { intros k Hk. unfold find_pool, d'. simpl. destruct (List.find _ (pools d)) as [p|] eqn:E.
    - by apply find_app_some.
    - rewrite find_app_none by done. simpl. by rewrite bool_decide_false by congruence. }
  assert (∀ j, is_Some (find_pool j d) → is_Some (find_pool j d')) as Hmono.
  { intros j [p Hp]. rewrite Hfind; [by eexists|]. intros ->. congruence. }
  split.
  - split; simpl.
    + rewrite map_app. apply NoDup_app. split_and!; [apply Hwf| |apply NoDup_singleton].
      intros i (p & -> & Hp)%list_elem_of_fmap. simpl. rewrite list_elem_of_singleton.
      by apply (find_pool_none _ _ p) in Hnone.
    + destruct Hwf as [_ Hr Hn _]. apply Forall_app. split; [|repeat constructor; simpl; lia].
      eapply Forall_impl; [exact Hr|]. simpl. lia.
    + destruct Hwf. lia.
    + intros p j [Hp|Hp]%elem_of_app Hj; apply Hmono.
      * by eapply wfp_fallback.
      * apply list_elem_of_singleton in Hp as ->. by eapply pool_ref_known.
  - apply (acyclic_relink d d' (next_pool d)); [| |done].
    + intros k Hk. unfold fallback_of. by rewrite Hfind.
    + intros j Hj. apply (ends_without_ends d d' (next_pool d)).
      { intros k Hk. unfold fallback_of. by rewrite Hfind. }
      apply ends_without_next; [done..|]. intros ->.
      unfold fallback_of, find_pool in Hj. simpl in Hj. unfold find_pool in Hnone. rewrite find_app_none in Hj by done.
      simpl in Hj. rewrite bool_decide_true in Hj by done. simpl in Hj.
      destruct (pool_ref_known _ _ Href _ Hj) as [p Hp]. unfold find_pool in Hp. congruence.
Qed.

Lemma find_pool_map id f d i :
  (∀ p, pl_id (f p) = pl_id p) →
  find_pool i (set_pools (map (fun p => if bool_decide (pl_id p = id) then f p else p) (pools d)) d) =
  option_map (fun p => if bool_decide (pl_id p = id) then f p else p) (find_pool i d).
Proof.
  intros Hf. unfold find_pool. simpl. induction (pools d) as [|a l IH]; [done|]. simpl.
  assert (pl_id (if bool_decide (pl_id a = id) then f a else a) = pl_id a) as -> by (case_match; auto). by case_match.
Qed.

(** An update that passed the validation. *)
Lemma UpdatePool_keeps t id n ds e fb d :
  wf_pools d → acyclic d → (∀ f, fb = Some f → ends_without d id f) →
  wf_pools (UpdatePool t id n ds e fb d).2 ∧ acyclic (UpdatePool t id n ds e fb d).2.
Proof.
  intros Hwf Hac Hval. unfold UpdatePool. destruct (find_pool id d) as [p0|] eqn:Hp0; [|done].
  destruct (existsb _ _ || negb _) eqn:He; [done|]. apply orb_false_iff in He as [_ Href].
  apply negb_false_iff in Href. cbn [snd]. set (f := rewrite_pool t n ds e fb).
  pose proof (find_pool_map id f d) as Hfind. set (d' := set_pools _ d) in *.
  assert (∀ j, is_Some (find_pool j d) → is_Some (find_pool j d')) as Hmono.
  { intros j [p Hp]. rewrite Hfind, Hp by done. by eexists. }
  assert (∀ k, k ≠ id → fallback_of d' k = fallback_of d k) as Hsame.
  { intros k Hk. unfold fallback_of. rewrite Hfind by done. destruct (find_pool k d) as [p|] eqn:Hp; [|done]. simpl.
    apply find_pool_in in Hp as [_ Hid]. by rewrite bool_decide_false by congruence. }
  split.
  - split; simpl; try apply Hwf.
    + rewrite map_map. rewrite (map_ext _ pl_id); [apply Hwf|]. intros p. by case_match.
    + apply Forall_fmap. eapply Forall_impl; [apply Hwf|]. intros p Hp. simpl. by case_match.
    + intros q j (p & -> & Hp)%list_elem_of_fmap Hj. apply Hmono. case_bool_decide; simpl in Hj.
      * by eapply pool_ref_known.
      * by eapply wfp_fallback.
  - apply (acyclic_relink d d' id); [done| |done]. intros j Hj. apply (ends_without_ends d d' id); [done|].
    apply Hval. unfold fallback_of in Hj. rewrite Hfind, Hp0 in Hj by done. simpl in Hj.
    apply find_pool_in in Hp0 as [_ Hid]. by rewrite bool_decide_true in Hj by done.
Qed.

Lemma find_filter {A} (p q : A → bool) l :
  (∀ x, p x = true → q x = true) → List.find p (List.filter q l) = List.find p l.
Proof.
  intros Hpq. induction l as [|x l IH]; [done|]. simpl. destruct (q x) eqn:Hq; simpl; rewrite IH; [done|].
  destruct (p x) eqn:Hp; [|done]. by rewrite Hpq in Hq.
Qed.

Lemma find_map_pool id i l :
  List.find (fun p => bool_decide (pl_id p = i)) (map (unlink_pool id) l) =
  option_map (unlink_pool id) (List.find (fun p => bool_decide (pl_id p = i)) l).
Proof. induction l as [|p l IH]; [done|]. simpl. by case_match. Qed.

Lemma DeleteRoutingPool_find id d i :
  is_Some (find_pool id d) → i ≠ id →
  find_pool i (DeleteRoutingPool id d).2 = option_map (unlink_pool id) (find_pool i d).
Proof.
  intros [p0 Hp0] Hi. unfold DeleteRoutingPool. rewrite Hp0. unfold find_pool. simpl.
  rewrite find_map_pool, find_filter; [done|]. intros p Hp%bool_decide_eq_true.
  apply negb_true_iff, bool_decide_eq_false. congruence.
Qed.

Lemma DeleteRoutingPool_keeps id d :
  wf_pools d → acyclic d → wf_pools (DeleteRoutingPool id d).2 ∧ acyclic (DeleteRoutingPool id d).2.
Proof.
  intros Hwf Hac. destruct (find_pool id d) as [p0|] eqn:Hp0; [|unfold DeleteRoutingPool; by rewrite Hp0].
  pose proof (fun i => DeleteRoutingPool_find id d i ltac:(by eexists)) as Hfind.
  assert (pools (DeleteRoutingPool id d).2 =
          map (unlink_pool id) (List.filter (fun p => negb (bool_decide (pl_id p = id))) (pools d))) as Hpools
    by (unfold DeleteRoutingPool; by rewrite Hp0).
  assert (next_pool (DeleteRoutingPool id d).2 = next_pool d) as Hnext by (unfold DeleteRoutingPool; by rewrite Hp0).
  set (d' := (DeleteRoutingPool id d).2) in *.
  split.
  - split; rewrite ?Hpools, ?Hnext; try apply Hwf.
    + rewrite map_map. simpl. apply (sublist_NoDup _ (map pl_id (pools d))); [apply Hwf|].
      clear. induction (pools d) as [|p l IH]; simpl; [done|]. case_match; simpl; by constructor.
    + apply Forall_fmap, Forall_forall. intros p (Hp & _)%list_elem_of_In%filter_In.
      pose proof (wfp_range _ Hwf) as Hr. rewrite Forall_forall in Hr. apply (Hr p). by apply list_elem_of_In.
    + intros q j (p & -> & Hp)%list_elem_of_fmap Hj. apply list_elem_of_In, filter_In in Hp as [Hp _].
      apply list_elem_of_In in Hp. simpl in Hj. unfold unlink in Hj. case_bool_decide; [done|].
      destruct (wfp_fallback _ Hwf p j Hp Hj) as [r Hr]. rewrite Hfind by congruence. rewrite Hr. by eexists.
  - apply (acyclic_fewer d d'); [|done]. intros k j. unfold fallback_of. destruct (decide (k = id)) as [->|Hk].
    + destruct (find_pool id d') as [q|] eqn:Hq; [|done]. apply find_pool_in in Hq as [Hq Hid]. rewrite Hpools in Hq.
      apply list_elem_of_fmap in Hq as (p & -> & Hp). apply list_elem_of_In, filter_In in Hp as [_ Hp].
      simpl in Hid. by rewrite bool_decide_true in Hp.
    + rewrite Hfind by done. destruct (find_pool k d) as [p|]; [|done]. simpl. unfold unlink. by case_bool_decide.
Qed.

(** ** Validation rejects exactly the links that would close a cycle *)

Definition link (d : db) (i j : Z) : Prop := fallback_of d i = Some j.

Lemma ends_no_cycle d i : ends d i → ¬ tc (link d) i i.
Proof.
  induction 1 as [i Hn|i j Hj _ IH]; intros Hc.
  - inversion Hc as [x y Hl|x y z Hl _]; unfold link in Hl; congruence.
  - apply IH. inversion Hc as [x y Hl|x y z Hl Hr]; unfold link in Hl; subst.
    + assert (i = j) as -> by congruence. by constructor.
    + assert (y = j) as -> by congruence. eapply tc_r; [exact Hr|done].
Qed.

Lemma fallback_loop_rejects fuel seen id c d d' :
  wf_pools d → acyclic d → 0 < c → is_Some (find_pool c d) →
  (∀ y, y ∈ seen → y = id ∨ tc (link d) y c) →
  Alone (fallback_loop fuel seen c) d (Some (Err ErrInvalidInput)) d' → rtc (link d) c id.
Proof.
  intros Hwf Hac. revert seen c. induction fuel as [|fuel IH]; intros seen c Hc Hk Hseen Hr; cbn [fallback_loop] in Hr.
  { by end_alone Hr. }
  rewrite bool_decide_false in Hr by lia. case_bool_decide as Hin.
  { destruct (Hseen c Hin) as [->|Hcyc]; [done|]. by apply ends_no_cycle in Hcyc. }
  step_alone Hr r d1 Ha. apply transacts_query in Ha as [-> [-> | ->]]; [|by end_alone Hr].
  destruct (SelectFallback c d) as [[j|]|e] eqn:Hs.
  - apply SelectFallback_ok in Hs as [_ Hj]. apply rtc_l with j; [done|].
    destruct (fallback_known _ _ _ Hwf Hj). eapply (IH (c :: seen) j); [done|done| |exact Hr].
    intros y [->|Hy]%elem_of_cons; [right; by constructor|]. destruct (Hseen y Hy) as [?|Ht]; [by left|right].
    by eapply tc_r.
  - by end_alone Hr.
  - unfold SelectFallback in Hs. destruct Hk as [p Hp]. by rewrite Hp in Hs.
Qed.

(** ** Histories of complete operations *)

Inductive pool_step (d d' : db) : Prop :=
| step_create fuel name description enabled fb r :
    Alone (CreateRoutingPool fuel name description enabled fb) d r d' → pool_step d d'
| step_update fuel id name description enabled fb r :
    Alone (UpdateRoutingPool fuel id name description enabled fb) d r d' → pool_step d d'
| step_delete id r : Alone (DeletePool id) d r d' → pool_step d d'
| step_members id l r : Alone (ReplaceRoutingPoolAccounts id l) d r d' → pool_step d d'.

(** What the tables are after a call that may have failed. *)
Lemma transacts_at_state {A} (f : Time → result aerror A * db) d r d' :
  transacts_at f d r d' → d' = d ∨ ∃ t, d' = (f t).2.
Proof. intros [t [->| ->]%transacts_state]; eauto. Qed.

(** The validation only reads. *)
Lemma validate_state fuel id fb d v d' : Alone (validateRoutingPoolFallback fuel id fb) d v d' → d' = d.
Proof.
  intros Hv. destruct fb as [f|]; cbn [validateRoutingPoolFallback] in Hv; [|by end_alone Hv].
  destruct (_ || _); [by end_alone Hv|]. revert Hv. generalize (if bool_decide (0 < id) then [id] else []).
  revert f. induction fuel as [|fuel IH]; intros f seen Hv; cbn [fallback_loop] in Hv; [by end_alone Hv|].
  destruct (bool_decide (f ≤ 0)); [by end_alone Hv|]. destruct (bool_decide (f ∈ seen)); [by end_alone Hv|].
  step_alone Hv x d2 Ha. apply transacts_query in Ha as [-> _].
  destruct x as [[j|]|[]]; first [by end_alone Hv|by eapply IH].
Qed.

Lemma validated_change_keeps fuel id fb (c : cmd (result aerror Z)) d r d' :
  wf_pools d →
  (∀ r1 d1, (∀ f, fb = Some f → f ≠ id ∧ is_Some (find_pool f d) ∧ (0 < id → ends_without d id f)) →
     acts _ c d r1 d1 → wf_pools d1 ∧ acyclic d1) →
  acyclic d → Alone (validated_change fuel id fb c) d r d' → wf_pools d' ∧ acyclic d'.
Proof.
  intros Hwf Hc Hac Hr. unfold validated_change in Hr. apply runs_bind in Hr as (v & d1 & Hv & Hr).
  apply validate_state in Hv as Hd. subst d1.
  destruct v as [[[]|e]|]; [|by end_alone Hr|by end_alone Hr]. apply validate_ok in Hv as [_ Hv]; [|done].
  apply runs_bind in Hr as (x & d2 & Hx & Hr). end_alone Hr. unfold try in Hx. cbn [bind call] in Hx.
  step_alone Hx y d3 Ha. apply Hc in Ha; [|done]. destruct y as [i|e]; [|by end_alone Hx].
  step_alone Hx z d4 Hq. apply transacts_query in Hq as [-> _]. by end_alone Hx.
Qed.

Lemma pool_step_keeps d d' : wf_pools d → acyclic d → pool_step d d' → wf_pools d' ∧ acyclic d'.
Proof.
  intros Hwf Hac [fuel name description enabled fb r Hr|fuel id name description enabled fb r Hr|id r Hr|id l r Hr].
  - unfold CreateRoutingPool in Hr. destruct (str_eq _ _); [by end_alone Hr|].
    destruct (normalizeRoutingPoolFallbackID fb) as [f|e]; [|by end_alone Hr].
    eapply validated_change_keeps in Hr; try done. simpl. intros r1 d1 _ [->|[t ->]]%transacts_at_state; [done|].
    by apply InsertPool_keeps.
  - unfold UpdateRoutingPool in Hr. destruct (bool_decide (id ≤ 0)) eqn:Hid; [by end_alone Hr|].
    apply bool_decide_eq_false in Hid. simpl in Hr. destruct (str_eq _ _); [by end_alone Hr|].
    destruct (normalizeRoutingPoolFallbackID fb) as [f|e]; [|by end_alone Hr].
    case_bool_decide; [by end_alone Hr|]. eapply validated_change_keeps in Hr; try done. simpl.
    intros r1 d1 Hv [->|[t ->]]%transacts_at_state; [done|]. apply UpdatePool_keeps; [done..|].
    intros g Hg. apply Hv; [done|lia].
  - unfold DeletePool in Hr. case_bool_decide; [by end_alone Hr|]. step_alone Hr x d1 Ha. end_alone Hr.
    apply transacts_state in Ha as [->| ->]; [done|]. by apply DeleteRoutingPool_keeps.
  - unfold ReplaceRoutingPoolAccounts in Hr. case_bool_decide; [by end_alone Hr|].
    destruct (normalize_members [] l) as [l'|]; [|by end_alone Hr]. unfold try in Hr. cbn [bind call] in Hr.
    step_alone Hr x d1 Ha. assert (pools d1 = pools d ∧ next_pool d1 = next_pool d) as [Hp Hn].
    { apply transacts_state in Ha as [->| ->]; [done|]. unfold ReplaceMembers. by repeat case_match. }
    assert (d' = d1) as ->.
    { destruct x; [|by end_alone Hr]. step_alone Hr y d2 Hq. apply transacts_query in Hq as [-> _]. by end_alone Hr. }
    assert (∀ i, find_pool i d1 = find_pool i d) as Hf by (intros i; unfold find_pool; by rewrite Hp).
    split; [split; rewrite ?Hp, ?Hn; try apply Hwf|].
    + intros p j. rewrite Hf. by apply wfp_fallback.
    + apply (acyclic_fewer d d1); [|done]. intros k j. unfold fallback_of. by rewrite Hf.
Qed.

(** Operations on routing pools that run one after the other, with database
    failures at any call, never close a cycle of fallback links: from every pool
    the chain comes to an end. *)
Theorem fallback_links_acyclic d d' :
  wf_pools d → acyclic d → rtc pool_step d d' → wf_pools d' ∧ acyclic d'.
Proof.
  intros Hwf Hac Hr. induction Hr as [d|d1 d2 d3 H1 _ IH]; [done|].
  destruct (pool_step_keeps _ _ Hwf Hac H1). auto.
Qed.

(** The validation of a fallback for an existing pool, undisturbed: it ends
    after at most as many queries as there are pools, plus one; it accepts only a
    fallback from which the chain never comes back to the pool; and it rejects an
    existing fallback only when the chain does come back. *)
Theorem fallback_validation_exact fuel id f d :
  wf_pools d → acyclic d → 0 < id → 0 < f → is_Some (find_pool f d) → (length (pools d) + 2 ≤ fuel)%nat →
  (∀ d', ¬ Alone (validateRoutingPoolFallback fuel id (Some f)) d None d') ∧
  (∀ d', Alone (validateRoutingPoolFallback fuel id (Some f)) d (Some (Ok tt)) d' → ¬ rtc (link d) f id) ∧
  (∀ d', Alone (validateRoutingPoolFallback fuel id (Some f)) d (Some (Err ErrInvalidInput)) d' → rtc (link d) f id).
Proof.
  intros Hwf Hac Hid Hf Hk Hfuel. split_and!.
  - intros d'. by apply validate_total.
  - intros d' Hr Hreach. apply validate_ok in Hr as [_ Hv]; [|done]. destruct (Hv f eq_refl) as (_ & _ & Hw).
    specialize (Hw Hid). clear Hf Hk Hv. induction Hreach as [i|i j k Hl _ IH].
    + by inversion Hw.
    + apply IH; [done|]. inversion Hw as [? _ Hn|? j' _ Hj Hrest]; unfold link in Hl; [congruence|].
      by assert (j' = j) as -> by congruence.
  - intros d' Hr. cbn [validateRoutingPoolFallback] in Hr. rewrite (bool_decide_false (f ≤ 0)) in Hr by lia.
    simpl in Hr. case_bool_decide; [by subst|]. eapply fallback_loop_rejects in Hr; [done..|].
    intros y. case_bool_decide; set_solver.
Qed.

(** ** API keys *)

Record wf_keys (d : db) : Prop := {
  wfk_ids : NoDup (map k_id (keys d));
  wfk_hashes : NoDup (map k_hash (keys d));
  wfk_next : Forall (fun k => k_id k < next_key d) (keys d)
}.

(** A row later on: the same key, still revoked when it was. *)
Definition same_key (k k' : key_row) : Prop :=
  k_id k' = k_id k ∧ k_hash k' = k_hash k ∧ (k_revoked_at k ≠ None → k_revoked_at k' ≠ None).

Lemma same_key_refl k : same_key k k.
Proof. by repeat split. Qed.

Lemma same_key_trans k1 k2 k3 : same_key k1 k2 → same_key k2 k3 → same_key k1 k3.
Proof. unfold same_key. naive_solver congruence. Qed.

(** What can become of the keys: each is an earlier one or new, and the
    constraints of the table hold. *)
Record kept (d d' : db) : Prop := {
  kept_next : next_key d ≤ next_key d';
  kept_rows : ∀ k', k' ∈ keys d' → next_key d ≤ k_id k' ∨ ∃ k, k ∈ keys d ∧ same_key k k';
  kept_wf : wf_keys d → wf_keys d'
}.

Lemma kept_refl d : kept d d.
Proof. split; [done| |done]. eauto using same_key_refl. Qed.

Lemma kept_trans d1 d2 d3 : kept d1 d2 → kept d2 d3 → kept d1 d3.
Proof.
  intros [N1 R1 W1] [N2 R2 W2]. split; [lia| |auto]. intros k3 H3.
  destruct (R2 k3 H3) as [?|(k2 & H2 & K2)]; [left; lia|]. destruct (R1 k2 H2) as [?|(k1 & H1 & K1)].
  - left. destruct K2 as [-> _]. done.
  - right. eauto using same_key_trans.
Qed.

(** Changes outside of the keys. *)
Lemma kept_same d d' : keys d' = keys d → next_key d' = next_key d → kept d d'.
Proof.
  intros Hk Hn. split; [by rewrite Hn| |].
  - intros k. rewrite Hk. eauto using same_key_refl.
  - intros [H1 H2 H3]. split; by rewrite ?Hk, ?Hn.
Qed.

(** Rows rewritten in place. *)
Lemma kept_map d d' f :
  (∀ k, same_key k (f k)) → keys d' = map f (keys d) → next_key d' = next_key d → kept d d'.
Proof.
  intros Hf Hk Hn. split; [by rewrite Hn| |].
  - intros k'. rewrite Hk. intros (k & -> & Hin)%list_elem_of_fmap. eauto.
  - intros [H1 H2 H3]. split; rewrite Hk, ?Hn, ?map_map.
    + rewrite (map_ext _ k_id); [done|]. intros k. apply Hf.
    + rewrite (map_ext _ k_hash); [done|]. intros k. apply Hf.
    + apply Forall_fmap. eapply Forall_impl; [exact H3|]. intros k Hlt. simpl. by destruct (Hf k) as [-> _].
Qed.

(** Rows removed. *)
Lemma kept_filter d p : kept d (set_keys (List.filter p (keys d)) d).
Proof.
  split; [done| |].
  - simpl. intros k Hk. apply list_elem_of_In, filter_In in Hk as [Hk _]. apply list_elem_of_In in Hk.
    eauto using same_key_refl.
  - intros [H1 H2 H3]. split; simpl.
    + eapply sublist_NoDup; [exact H1|]. apply sublist_map, sublist_filter.
    + eapply sublist_NoDup; [exact H2|]. apply sublist_map, sublist_filter.
    + apply Forall_forall. intros k Hk. apply list_elem_of_In, filter_In in Hk as [Hk _].
      rewrite Forall_forall in H3. apply H3. by apply list_elem_of_In.
Qed.

Lemma kept_update_key d id f : (∀ k, same_key k (f k)) → kept d (update_key id f d).
Proof.
  intros Hf. eapply kept_map; [|reflexivity|done]. intros k. simpl. case_match; [done|apply same_key_refl].
Qed.

Lemma kept_update_live d id f : (∀ k, same_key k (f k)) → kept d (update_live id f d).2.
Proof.
  intros Hf. unfold update_live. destruct (find_key id d) as [k|]; [|apply kept_refl].
  case_bool_decide; [by apply kept_update_key|apply kept_refl].
Qed.

Lemma kept_InsertKey t n h pre s pool d : kept d (InsertKey t n h pre s pool d).2.
Proof.
  unfold InsertKey. destruct (existsb _ _ || negb _) eqn:He; [apply kept_refl|]. apply orb_false_iff in He as [Hh _].
  split; simpl; [lia| |].
  - intros k [Hk|Hk]%elem_of_app; [right; eauto using same_key_refl|].
    apply list_elem_of_singleton in Hk as ->. left. simpl. lia.
  - intros [H1 H2 H3]. split; simpl; rewrite ?map_app.
    + apply NoDup_snoc; [done|by apply not_in_bound].
    + apply NoDup_snoc; [done|by apply existsb_not_in].
    + apply Forall_app. split; [|repeat constructor; simpl; lia]. eapply Forall_impl; [exact H3|]. simpl. lia.
Qed.

Lemma kept_transacts {A} (done : result aerror A * db) d r d' : kept d done.2 → transacts done d r d' → kept d d'.
Proof. intros Hk [->| ->]%transacts_state; [apply kept_refl|done]. Qed.

Lemma kept_transacts_at {A} (f : Time → result aerror A * db) d r d' :
  (∀ t, kept d (f t).2) → transacts_at f d r d' → kept d d'.
Proof. intros Hk [->|[t ->]]%transacts_at_state; [apply kept_refl|done]. Qed.

Ltac same_key := intros ?; repeat split; simpl; done.

Lemma acts_kept R (c : cmd R) d r d' : acts R c d r d' → kept d d'.
Proof.
  destruct c; simpl; try (intros ->; apply kept_refl); try (intros [-> _]; apply kept_refl);
    try (apply kept_transacts; simpl; apply kept_refl).
  - apply kept_transacts_at. intros t. unfold InsertPool. case_match; by apply kept_same.
  - apply kept_transacts_at. intros t. unfold UpdatePool. repeat case_match; by apply kept_same.
  - apply kept_transacts. unfold DeleteRoutingPool. case_match; [|apply kept_refl].
    eapply (kept_map _ _ (fun k => set_routing_pool (unlink id (k_routing_pool k)) k)); [same_key|done..].
  - apply kept_transacts. unfold ReplaceMembers. repeat case_match; by apply kept_same.
  - apply kept_transacts_at. intros t. apply kept_InsertKey.
  - apply kept_transacts_at. intros t. unfold RevokeKey. case_match; [|apply kept_refl]. apply kept_update_key. same_key.
  - apply kept_transacts. unfold DeleteRevokedAPIKey. repeat case_match; try apply kept_refl. apply kept_filter.
  - apply kept_transacts, kept_filter.
  - apply kept_transacts. unfold AuthenticateAPIKeyByHash. case_match; [|apply kept_refl]. simpl.
    case_match; [|apply kept_refl]. apply kept_update_key. same_key.
  - apply kept_transacts, kept_update_live. same_key.
  - apply kept_transacts_at. intros t. apply kept_update_live. same_key.
  - apply kept_transacts, kept_update_live. same_key.
  - apply kept_transacts, kept_update_live. same_key.
  - apply kept_transacts, kept_update_live. same_key.
  - apply kept_transacts. unfold UpdateKeyPool. pose proof (kept_update_live d id (set_routing_pool pool) ltac:(same_key)).
    case_match; [done|]. destruct (update_live _ _ _) as [[] ?]; [apply kept_refl|done].
Qed.

Abbreviation Runs := (runs acts others).
Abbreviation later := (rtc others).

Lemma later_kept d d' : later d d' → kept d d'.
Proof.
  induction 1 as [|d1 d2 d3 (R & c & r & Ha) _ IH]; [apply kept_refl|].
  eapply kept_trans; [by eapply acts_kept|done].
Qed.

Lemma runs_kept {A} (p : P A) d a d' : Runs p d a d' → kept d d'.
Proof.
  apply runs_preserves; eauto using kept_refl, kept_trans, acts_kept.
  intros x y (R & c & r & Ha). by eapply acts_kept.
Qed.

(** ** Authentication *)

Lemma find_key_in i d k : find_key i d = Some k → k ∈ keys d ∧ k_id k = i.
Proof.
  unfold find_key. intros [Hin Hid]%find_some. split; [by apply list_elem_of_In|]. by apply bool_decide_eq_true in Hid.
Qed.

Section authentication.
Context (HashAPIKey : string → string).

(** A successful authentication found a live key with the hash of the token. *)
Lemma authenticate_found token d key d' :
  Runs (AuthenticateAPIKey HashAPIKey token) d (Ok key) d' →
  TrimSpace token ≠ "" ∧ ∃ d1 k, later d d1 ∧ k ∈ keys d1 ∧ k_hash k = HashAPIKey (TrimSpace token) ∧ live k = true ∧
    key = scanAPIKey k (if str_eq (k_model_policy k) APIKeyModelPolicySelected then k_models k else []) d1.
Proof.
  unfold AuthenticateAPIKey. intros Hr. destruct (str_eq (TrimSpace token) "") eqn:E; [by apply runs_inv in Hr as [[=] _]|].
  split; [intros Ht; by rewrite Ht in E|].
  apply runs_inv in Hr as (d1 & now & d1' & H1 & Hn & Hr). simpl in Hn, Hr. subst d1'.
  apply runs_inv in Hr as (d2 & r & d3 & H2 & Ha & Hr). simpl in Ha, Hr.
  destruct r as [[k touched]|e].
  - apply transacts_ok in Ha. apply runs_inv in Hr as (d4 & u & d5 & _ & _ & Hr). apply runs_inv in Hr as [[= ->] _].
    unfold AuthenticateAPIKeyByHash in Ha. destruct (List.find _ _) as [k0|] eqn:Hf; [|done].
    apply find_some in Hf as [Hin [Hh Hl]%andb_prop]. injection Ha as <- _ _.
    exists d2, k0. split_and!; [by rewrite H1|by apply list_elem_of_In|by apply str_eq_true|done|done].
  - exfalso. destruct e; try (by apply runs_inv in Hr as [[=] _]);
      apply runs_inv in Hr as (? & ? & ? & _ & _ & Hr); by apply runs_inv in Hr as [[=] _].
Qed.

(** A key authenticates only while it exists and is neither revoked nor
    disabled, and then with its own limits and models. *)
Theorem authentication_needs_live_key token d key d' :
  Runs (AuthenticateAPIKey HashAPIKey token) d (Ok key) d' →
  TrimSpace token ≠ "" ∧ ∃ d1 k, later d d1 ∧ k ∈ keys d1 ∧ k_hash k = HashAPIKey (TrimSpace token) ∧ live k = true ∧
    key = scanAPIKey k (if str_eq (k_model_policy k) APIKeyModelPolicySelected then k_models k else []) d1.
Proof. apply authenticate_found. Qed.

(** Revocation is final: once a revocation has reported success, no
    authentication that starts later ever returns the key, whatever the
    administrators, the purge and other clients do. *)
Theorem revoked_key_never_authenticates id d key d' d3 token key' d4 :
  wf_keys d → Runs (RevokeAPIKey id) d (Ok key) d' → later d' d3 →
  Runs (AuthenticateAPIKey HashAPIKey token) d3 (Ok key') d4 → K_ID key' ≠ id.
Proof.
  intros Hwf Hr Hlater Hauth. unfold RevokeAPIKey, try in Hr. cbn [bind call] in Hr.
  apply runs_inv in Hr as (d1 & r & d2 & H1 & Ha & Hr). cbn [acts] in Ha. cbn [bind] in Hr.
  destruct r as [i|e]; [|by apply runs_inv in Hr as [[=] _]]. destruct Ha as [t Ha]. apply transacts_ok in Ha.
  unfold RevokeKey in Ha. destruct (find_key id d1) as [k0|] eqn:Hk0; [|done]. injection Ha as <- <-.
  apply find_key_in in Hk0 as [Hk0 Hid0]. pose proof (kept_wf _ _ (later_kept _ _ H1) Hwf) as [_ _ Hnext].
  rewrite Forall_forall in Hnext. specialize (Hnext k0 Hk0).
  set (d2 := update_key id (set_revoked (pg_time t)) d1) in *.
  apply authenticate_found in Hauth as (_ & d5 & k5 & H5 & Hk5 & _ & Hlive & ->). simpl. intros Hid5.
  assert (kept d2 d5) as Hkept.
  { eapply kept_trans; [by eapply runs_kept|]. apply later_kept. by rewrite Hlater. }
  destruct (kept_rows _ _ Hkept k5 Hk5) as [Hge|(k2 & Hk2 & Hsame)]; [simpl in Hge; lia|].
  destruct Hsame as (Hidk & _ & Hrev). apply list_elem_of_fmap in Hk2 as (k1 & -> & Hk1).
  unfold live in Hlive. apply andb_prop in Hlive as [Hnone%bool_decide_eq_true _].
  revert Hnone Hidk Hrev. case_bool_decide; simpl; intros; [by apply Hrev|congruence].
Qed.

(** Reading a key back changes nothing. *)
Lemma loadAPIKey_ok id d key d' :
  Alone (loadAPIKey id) d (Ok key) d' → d' = d ∧ ∃ k, find_key id d = Some k ∧ K_ID key = id.
Proof.
  unfold loadAPIKey, try. cbn [bind call]. intros Hr. step_alone Hr r d1 Ha. apply transacts_query in Ha as [-> Ha].
  destruct r as [k|e]; [|by end_alone Hr]. destruct Ha as [Ha|[=]]. unfold SelectKey in Ha.
  destruct (find_key id d) as [k0|] eqn:Hk; [|done]. injection Ha as ->. pose proof (find_key_in _ _ _ Hk) as [_ Hid].
  destruct (str_eq _ _).
  - step_alone Hr r d1 Ha. apply transacts_query in Ha as [-> _]. destruct r as [ms|e]; end_alone Hr; [|done].
    injection Hr as ->. eauto.
  - end_alone Hr. injection Hr as ->. eauto.
Qed.

Lemma InsertKey_ok t n h pre s pool d i d' :
  InsertKey t n h pre s pool d = (Ok i, d') →
  ∃ k, keys d' = keys d ++ [k] ∧ k_id k = i ∧ k_hash k = h ∧ live k = true ∧ k_model_policy k = APIKeyModelPolicyAll ∧
    ∀ k0, k0 ∈ keys d → k_hash k0 ≠ h.
Proof.
  unfold InsertKey. destruct (existsb _ _ || negb _) eqn:He; [done|]. apply orb_false_iff in He as [Hh _].
  intros [= <- <-]. eexists. split_and!; [reflexivity|done..|]. intros k0 Hk0 Heq.
  apply existsb_not_in in Hh. apply Hh. rewrite <- Heq. by apply list_elem_of_fmap_2.
Qed.

Lemma pool_known_state pool d r d' : Alone (pool_known pool) d r d' → d' = d.
Proof.
  unfold pool_known, try. destruct pool; [|intros Hr; by end_alone Hr]. cbn [bind call]. intros Hr.
  step_alone Hr x d1 Ha. destruct Ha as [-> _]. destruct x; by end_alone Hr.
Qed.

(** What a creation leaves: a new live key under the hash of its secret. *)
Lemma CreateAPIKey_ok TokenPrefix encrypting name pool d c d' :
  Alone (CreateAPIKey HashAPIKey TokenPrefix encrypting name pool) d (Ok c) d' →
  token_ok (Secret c) ∧ ∃ k, keys d' = keys d ++ [k] ∧ k_id k = K_ID (Key c) ∧ k_hash k = HashAPIKey (Secret c) ∧
    live k = true ∧ k_model_policy k = APIKeyModelPolicyAll ∧ ∀ k0, k0 ∈ keys d → k_hash k0 ≠ k_hash k.
Proof.
  unfold CreateAPIKey. intros Hr. destruct (str_eq _ _); [by end_alone Hr|]. unfold try in Hr. cbn [bind] in Hr.
  destruct (normalize_pool pool) as [pool'|e]; [|by end_alone Hr].
  apply runs_bind in Hr as (r1 & d1 & H1 & Hr). apply pool_known_state in H1. subst d1.
  destruct r1 as [[]|e]; [|by end_alone Hr].
  step_alone Hr t d1 Ht. destruct Ht as [-> Ht]. destruct t as [token|]; [|by end_alone Hr].
  apply runs_bind in Hr as (enc & d1 & He & Hr).
  assert (d1 = d) as ->.
  { destruct encrypting; [|by end_alone He]. step_alone He x d2 Hx. subst d2. by end_alone He. }
  destruct enc as [enc|]; [|by end_alone Hr]. step_alone Hr i d3 Ha.
  apply runs_bind in Hr as (r2 & d2 & Hc & Hr). destruct i as [i|e]; [|by end_alone Hc; end_alone Hr].
  destruct r2 as [key|e]; [|by end_alone Hr]. end_alone Hr. injection Hr as ->. simpl. split; [done|].
  destruct Ha as [t Ha]. apply transacts_ok, InsertKey_ok in Ha.
  destruct Ha as (k & Hkeys & Hid & Hh & Hl & Hp & Hfresh). apply loadAPIKey_ok in Hc as (-> & _ & _ & Hkid).
  exists k. split_and!; try done; [congruence|]. intros k0 Hk0. rewrite Hh. by apply Hfresh.
Qed.

(** A new key works: the secret returned by a creation authenticates as that
    key and may use every model, unless the database fails. *)
Theorem created_key_authenticates TokenPrefix encrypting name pool d c d1 r d2 :
  Alone (CreateAPIKey HashAPIKey TokenPrefix encrypting name pool) d (Ok c) d1 →
  Alone (AuthenticateAPIKey HashAPIKey (Secret c)) d1 r d2 →
  r = Err ErrAuthenticationUnavailable ∨
  ∃ key, r = Ok key ∧ K_ID key = K_ID (Key c) ∧ ∀ model, APIKeyAllowsModel key model = true.
Proof.
  intros Hc Hr. apply CreateAPIKey_ok in Hc as [[Htrim Hne] (k & Hkeys & Hid & Hh & Hl & Hp & Hfresh)].
  unfold AuthenticateAPIKey in Hr. rewrite Htrim in Hr. destruct (str_eq (Secret c) "") eqn:E.
  { by apply str_eq_true in E. }
  step_alone Hr now d3 Hn. subst d3. step_alone Hr x d3 Ha.
  assert (AuthenticateAPIKeyByHash (HashAPIKey (Secret c)) now d1 =
    (Ok (scanAPIKey k [] d1, touch_due now k), if touch_due now k then update_key (k_id k) (set_last_used now) d1 else d1))
    as Hfound.
  { unfold AuthenticateAPIKeyByHash. rewrite Hkeys, find_app_none.
    - simpl. rewrite Hh, Hl. unfold str_eq. rewrite bool_decide_true by done. simpl. by rewrite Hp.
    - apply not_Some_find. intros k0 Hk0. specialize (Hfresh k0 Hk0). unfold str_eq.
      by rewrite bool_decide_false by congruence. }
  rewrite Hfound in Ha. destruct Ha as [[= -> _]|[-> _]].
  - right. step_alone Hr u d4 Hu. end_alone Hr. eexists. split_and!; [done|by simpl|]. intros model.
    unfold APIKeyAllowsModel. simpl. by rewrite Hp.
  - left. step_alone Hr u d4 Hu. by end_alone Hr.
Qed.

End authentication.

(** ** Examples *)

Module Demo.

Definition HashAPIKey (t : string) : string := String.append "sha:" t.
Definition TokenPrefix (t : string) : string := "n2".

Definition now : Time := 100 * Second.

Definition handle (R : Set) (c : cmd R) (d : db) : R * db :=
  match c in cmd R return R * db with
  | Now => (now, d)
  | GenerateToken => (Some "token-7", d)
  | Encrypt v => (Some v, d)
  | Decrypt v => (Some v, d)
  | ObserveLastUsed _ => (tt, d)
  | QFindBootstrapAdmin => (Ok (1, "hash"), d)
  | QListRoutingPools => (Ok (map (fun p => read_pool p d) (pools d)), d)
  | QFallback id => (SelectFallback id d, d)
  | TInsertPool n ds e f => InsertPool (pg_time now) n ds e f d
  | TUpdatePool id n ds e f => UpdatePool (pg_time now) id n ds e f d
  | TDeletePool id => DeleteRoutingPool id d
  | TReplaceMembers id l => ReplaceMembers id l d
  | QPool id => (getRoutingPool id d, d)
  | TInsertKey n h p s pool => InsertKey (pg_time now) n h p s pool d
  | QEncryptedSecret id => (GetAPIKeyEncryptedSecret id d, d)
  | TRevokeKey id => RevokeKey (pg_time now) id d
  | TDeleteKey id => DeleteRevokedAPIKey id d
  | TPurge cutoff => PurgeRevokedAPIKeys cutoff d
  | TAuthenticate h t => AuthenticateAPIKeyByHash h t d
  | TUpdateName id n => UpdateName id n d
  | TSetDisabled id b => SetDisabled (pg_time now) id b d
  | TUpdatePolicy id p ms => UpdatePolicy id p ms d
  | TUpdateLimits id r t => UpdateLimits id r t d
  | TUpdateBudgets id b => UpdateBudgets id b d
  | TUpdateKeyPool id p => UpdateKeyPool id p d
  | QKey id => (SelectKey id d, d)
  | QKeyModels id => (Ok (ListAPIKeyModels id d), d)
  end.

Lemma keys_handle_acts R (c : cmd R) d : acts R c d (handle R c d).1 (handle R c d).2.
Proof.
  destruct c; simpl; first [done | split; done | by left | left; symmetry; apply surjective_pairing
    | exists now; left; symmetry; apply surjective_pairing].
Qed.

Definition pool (id : Z) (name : string) (fb : option Z) : pool_row :=
  {| pl_id := id; pl_name := name; pl_description := ""; pl_enabled := true; pl_fallback := fb;
     pl_created_at := 0; pl_updated_at := 0 |}.

Definition key (id : Z) (token : string) : key_row :=
  {| k_id := id; k_name := "k"; k_hash := HashAPIKey token; k_prefix := ""; k_encrypted_secret := "";
     k_created_at := 0; k_last_used_at := None; k_revoked_at := None; k_disabled_at := None;
     k_model_policy := "all"; k_models := []; k_requests_per_minute := 0; k_tokens_per_minute := 0;
     k_budgets := no_budgets; k_routing_pool := None |}.

(** Three pools, the third falling back to the first, and two keys. *)
Definition start : db :=
  {| pools := [pool 1 "a" None; pool 2 "b" None; pool 3 "c" (Some 1)]; members := []; keys := [key 1 "t1"; key 2 "t2"];
     accounts := [10]; next_pool := 4; next_key := 3 |}.

Lemma start_pools : wf_pools start.
Proof.
  split; [apply (bool_decide_unpack _); vm_compute; exact I | repeat constructor | done |].
  intros p j Hp Hj. assert (j = 1) as ->; [|by eexists].
  repeat (apply elem_of_cons in Hp as [->|Hp]; [simpl in Hj; congruence|]). by apply elem_of_nil in Hp.
Qed.

Lemma start_keys : wf_keys start.
Proof. split; apply (bool_decide_unpack _); vm_compute; exact I. Qed.

Lemma start_acyclic : acyclic start.
Proof.
  assert (ends start 1) as H1 by (apply ends_last; reflexivity).
  intros i. destruct (decide (i = 3)) as [->|H3]; [by apply ends_next with 1|].
  apply ends_last. unfold fallback_of, find_pool. simpl.
  do 2 (case_bool_decide; [done|]). by rewrite bool_decide_false by congruence.
Qed.

Definition result_of {A} (p : P A) (d : db) : A * db := let '(a, _, d) := run handle p d in (a, d).

Lemma keys_result_runs {A} o (p : P A) d a d' : result_of p d = (a, d') → runs acts o p d a d'.
Proof.
  unfold result_of. destruct (run handle p d) as [[a' tr] d2] eqn:E. intros [= -> ->].
  eapply run_runs; [apply keys_handle_acts|exact E].
Qed.

(** The pool 1 falls back to 2, and at the same time 2 to 1. *)
Definition first : P (option (result aerror RoutingPool)) := UpdateRoutingPool 5 1 "a" "" true (Some 2).
Definition second : P (option (result aerror RoutingPool)) := UpdateRoutingPool 5 2 "b" "" true (Some 1).
Definition turns : list bool := [true; false; true; true; false; false].

End Demo.

(** Two updates of routing pools that overlap can close a cycle: both
    validate their fallback before either has stored it, both report success, and
    from the first pool the chain of fallbacks never ends. *)
Theorem overlapping_updates_close_cycle :
  ∃ d x y d', wf_pools d ∧ acyclic d ∧
    interleaves acts (UpdateRoutingPool 5 1 "a" "" true (Some 2)) (UpdateRoutingPool 5 2 "b" "" true (Some 1))
      d (Some (Ok x)) (Some (Ok y)) d' ∧ ¬ ends d' 1.
Proof.
  destruct (run2 Demo.handle Demo.turns Demo.first Demo.second Demo.start) as [[[a b] d']|] eqn:E;
    [|vm_compute in E; discriminate].
  pose proof (run2_interleaves acts Demo.handle _ _ _ _ _ _ _ Demo.keys_handle_acts E) as Hi.
  vm_compute in E. injection E as <- <- <-. eexists Demo.start, _, _, _.
  split_and!; [apply Demo.start_pools|apply Demo.start_acyclic|exact Hi|].
  intros Hends. apply ends_no_cycle in Hends. apply Hends.
  apply tc_l with 2; [reflexivity|]. by apply tc_once.
Qed.

Lemma fallback_links_acyclic_witness :
  ∃ d', Demo.result_of (UpdateRoutingPool 5 1 "a" "" true (Some 2)) Demo.start = d' ∧
    fallback_of d'.2 1 = Some 2 ∧ acyclic d'.2.
Proof.
  eexists. split; [reflexivity|]. split; [vm_compute; reflexivity|].
  apply (fallback_links_acyclic Demo.start); [apply Demo.start_pools|apply Demo.start_acyclic|].
  apply rtc_once. eapply step_update, Demo.keys_result_runs, surjective_pairing.
Defined.

Lemma fallback_validation_exact_witness :
  rtc (link Demo.start) 3 1 ∧ ¬ rtc (link Demo.start) 2 1.
Proof.
  split.
  - eapply (fallback_validation_exact 5 1 3 Demo.start Demo.start_pools Demo.start_acyclic);
      [done|done|by eexists|vm_compute; lia|].
    apply Demo.keys_result_runs. vm_compute. reflexivity.
  - eapply (fallback_validation_exact 5 1 2 Demo.start Demo.start_pools Demo.start_acyclic);
      [done|done|by eexists|vm_compute; lia|].
    apply Demo.keys_result_runs. vm_compute. reflexivity.
Defined.

Lemma authentication_needs_live_key_witness :
  ∃ key d', Demo.result_of (AuthenticateAPIKey Demo.HashAPIKey " t2") Demo.start = (Ok key, d') ∧ K_ID key = 2 ∧
    ∃ d1 k, k ∈ keys d1 ∧ k_hash k = "sha:t2" ∧ live k = true.
Proof.
  eexists _, _. split; [vm_compute; reflexivity|]. split; [done|].
  edestruct (authentication_needs_live_key Demo.HashAPIKey " t2" Demo.start) as (_ & d1 & k & _ & H1 & H2 & H3 & _);
    [apply Demo.keys_result_runs; vm_compute; reflexivity|].
  by exists d1, k.
Defined.

(** A key is revoked while the other one is still in use. *)
Lemma revoked_key_never_authenticates_witness :
  ∃ key d' key' d4, Demo.result_of (RevokeAPIKey 1) Demo.start = (Ok key, d') ∧
    Demo.result_of (AuthenticateAPIKey Demo.HashAPIKey "t2") d' = (Ok key', d4) ∧ K_ID key' ≠ 1.
Proof.
  eexists _, _, _, _. split; [vm_compute; reflexivity|]. split; [vm_compute; reflexivity|].
  eapply (revoked_key_never_authenticates Demo.HashAPIKey 1 Demo.start);
    [apply Demo.start_keys|apply Demo.keys_result_runs; vm_compute; reflexivity|done|].
  apply (Demo.keys_result_runs _ (AuthenticateAPIKey Demo.HashAPIKey "t2")). vm_compute. reflexivity.
Defined.

Lemma created_key_authenticates_witness :
  ∃ c d1 key d2, Demo.result_of (CreateAPIKey Demo.HashAPIKey Demo.TokenPrefix true " new " (Some 3)) Demo.start = (Ok c, d1) ∧
    Demo.result_of (AuthenticateAPIKey Demo.HashAPIKey (Secret c)) d1 = (Ok key, d2) ∧ K_ID key = K_ID (Key c).
Proof.
  eexists _, _, _, _. split; [vm_compute; reflexivity|]. split; [vm_compute; reflexivity|].
  edestruct (created_key_authenticates Demo.HashAPIKey Demo.TokenPrefix true " new " (Some 3) Demo.start)
    as [H|(k & H & Hid & _)].
  - apply Demo.keys_result_runs. vm_compute. reflexivity.
  - apply Demo.keys_result_runs. vm_compute. reflexivity.
  - discriminate H.
  - injection H as <-. exact Hid.
Defined.

End AdminKeysThms.
