(* ===== verification/Pricing.v ===== *)
(** * Prices, costs and budgets shown

    The part of [admin/service.go] that turns token counts into money: the
    normalisation of a price list, the choice of the price of a model, the cost
    of a request, and what is left of a key's budgets.

    A Go map is iterated in no particular order: the price list that is
    normalised is the list of its entries in the order of that iteration. *)

From S2P Require Import Prelude GoStrings Ledger Effects AdminBase AdminKeys.
From Stdlib Require Import Ascii.
From Stdlib Require String.

Module Pricing.
Import AdminBase.

(** ** Price lists *)

Record UsagePrice := {
  InputMicrousdPerMillion : Z; CachedInputMicrousdPerMillion : Z; OutputMicrousdPerMillion : Z;
  LongInputMicrousdPerMillion : Z; LongCachedInputMicrousdPerMillion : Z; LongOutputMicrousdPerMillion : Z
}.

#[export] Instance UsagePrice_eq_dec : EqDecision UsagePrice.
Proof. solve_decision. Defined.

Record UsagePricing := {
  Version : Z; Currency : string; Unit : string; UpdatedAt : Time;
  Models : gmap string UsagePrice; IgnoredModels : list string
}.

Definition rates (p : UsagePrice) : list Z :=
  [InputMicrousdPerMillion p; CachedInputMicrousdPerMillion p; OutputMicrousdPerMillion p;
   LongInputMicrousdPerMillion p; LongCachedInputMicrousdPerMillion p; LongOutputMicrousdPerMillion p].

Definition price_ok (p : UsagePrice) : bool := forallb (fun r => bool_decide (0 ≤ r)) (rates p).

Definition name_ok (model : string) : bool :=
  negb (str_eq model "") && bool_decide (go_len model ≤ AdminKeys.maxModelNameLen).

(** The loop over the prices, in the order of the iteration. *)
Fixpoint normalize_prices (l : list (string * UsagePrice)) (models : gmap string UsagePrice)
  : option (gmap string UsagePrice) :=
  match l with
  | [] => Some models
  | (raw, price) :: l =>
      let model := TrimSpace raw in
      if negb (name_ok model) || negb (price_ok price) then None
      else normalize_prices l (<[model := price]> models)
  end.

(** The loop over the ignored models: the names seen and those kept. *)
Fixpoint normalize_ignored (models : gmap string UsagePrice) (seen kept : list string) (l : list string)
  : option (list string) :=
  match l with
  | [] => Some kept
  | raw :: l =>
      let model := TrimSpace raw in
      if negb (name_ok model) || bool_decide (model ∈ seen) then None
      else normalize_ignored models (model :: seen)
             (if bool_decide (is_Some (models !! model)) then kept else kept ++ [model]) l
  end.

(** [sort.Strings]: by bytes. *)
Definition string_le (s t : string) : Prop := String.leb s t = true.

#[export] Instance string_le_dec s t : Decision (string_le s t).
Proof. unfold string_le. apply _. Defined.

(** [strings.ToUpper] as far as comparisons with ASCII texts go: the letters of
    ASCII, and the two others whose upper case is one. *)
Definition upper_ascii (a : ascii) : ascii :=
  if bool_decide (97 ≤ byte_of a ≤ 122) then ascii_of_N (N_of_ascii a - 32) else a.
Fixpoint upper_bytes (l : list ascii) : list ascii :=
  match l with
  | [] => []
  | a :: l' =>
      match l' with
      | b :: l'' =>
          if bool_decide (byte_of a = 197) && bool_decide (byte_of b = 191) then "S"%char :: upper_bytes l''
          else if bool_decide (byte_of a = 196) && bool_decide (byte_of b = 177) then "I"%char :: upper_bytes l''
          else upper_ascii a :: upper_bytes l'
      | [] => [upper_ascii a]
      end
  end.
Definition ToUpper (s : string) : string := String.string_of_list_ascii (upper_bytes (String.list_ascii_of_string s)).

Definition defaulted (value fallback : string) : string := if str_eq value "" then fallback else value.

(** [entries] enumerates the prices of [p]. *)
Definition normalizeUsagePricing (p : UsagePricing) (entries : list (string * UsagePrice)) : result aerror UsagePricing :=
  let version := if bool_decide (Version p = 0) then 1 else Version p in
  let currency := defaulted (ToUpper (TrimSpace (Currency p))) "USD" in
  let unit := defaulted (TrimSpace (Unit p)) "1M_tokens" in
  if negb (bool_decide (version = 1)) || negb (str_eq currency "USD") || negb (str_eq unit "1M_tokens")
     || bool_decide (entries = []) then Err ErrInvalidInput
  else
    match normalize_prices entries ∅ with
    | None => Err ErrInvalidInput
    | Some models =>
        if bool_decide (models = ∅) then Err ErrInvalidInput
        else match normalize_ignored models [] [] (IgnoredModels p) with
             | None => Err ErrInvalidInput
             | Some ignored =>
                 Ok {| Version := version; Currency := currency; Unit := unit; UpdatedAt := UpdatedAt p;
                       Models := models; IgnoredModels := merge_sort string_le ignored |}
             end
    end.

(** ** The price of a model *)

Definition is_digit (a : ascii) : bool := bool_decide (48 ≤ byte_of a ≤ 57).

Definition digits (l : list ascii) : option Z :=
  if forallb is_digit l then Some (fold_left (fun acc a => acc * 10 + (byte_of a - 48)) l 0) else None.

Definition is_leap (year : Z) : bool :=
  bool_decide (year mod 4 = 0) && (negb (bool_decide (year mod 100 = 0)) || bool_decide (year mod 400 = 0)).

Definition daysIn (month year : Z) : Z :=
  if bool_decide (month = 2) then if is_leap year then 29 else 28
  else if bool_decide (month = 4) || bool_decide (month = 6) || bool_decide (month = 9) || bool_decide (month = 11)
       then 30 else 31.

(** [time.Parse("2006-01-02", l)] succeeds. *)
Definition parses_as_date (l : list ascii) : bool :=
  match l with
  | [y1; y2; y3; y4; d1; m1; m2; d2; a1; a2] =>
      match digits [y1; y2; y3; y4], digits [m1; m2], digits [a1; a2] with
      | Some year, Some month, Some day =>
          bool_decide (d1 = "-"%char) && bool_decide (d2 = "-"%char) && bool_decide (1 ≤ month ≤ 12)
          && bool_decide (1 ≤ day ≤ daysIn month year)
      | _, _, _ => false
      end
  | _ => false
  end.

Definition dateLength : nat := 10.

(** The model without the date at its end, when there is one. *)
Definition base_model (model : string) : option string :=
  let l := String.list_ascii_of_string model in
  let n := length l in
  if bool_decide (n ≤ dateLength)%nat then None
  else if negb (bool_decide (l !! (n - dateLength - 1)%nat = Some "-"%char)) then None
  else if parses_as_date (drop (n - dateLength) l)
       then Some (String.string_of_list_ascii (take (n - dateLength - 1) l)) else None.

Definition usagePriceForModel (prices : gmap string UsagePrice) (model : string) : option (string * UsagePrice) :=
  match prices !! model with
  | Some price => Some (model, price)
  | None =>
      match base_model model with
      | None => None
      | Some b => match prices !! b with Some price => Some (b, price) | None => None end
      end
  end.

(** ** Costs *)

Record UsageCostInput := { Model : string; InputTokens : Z; OutputTokens : Z; CachedInputTokens : Z }.

Definition costPartMicrousd (tokens rate : Z) : Z :=
  if bool_decide (tokens ≤ 0) || bool_decide (rate ≤ 0) then 0
  else Z.quot (wrap64 (wrap64 (tokens * rate) + 500000)) 1000000.

Definition estimateCostMicrousd (u : UsageCostInput) (p : UsagePrice) : Z :=
  let cachedInput := if bool_decide (CachedInputTokens u < 0) then 0 else CachedInputTokens u in
  let billable := wrap64 (InputTokens u - cachedInput) in
  let billableInput := if bool_decide (billable < 0) then 0 else billable in
  wrap64 (wrap64 (costPartMicrousd billableInput (InputMicrousdPerMillion p)
                  + costPartMicrousd cachedInput (CachedInputMicrousdPerMillion p))
          + costPartMicrousd (OutputTokens u) (OutputMicrousdPerMillion p)).

(** Whether there is a price, and the cost. *)
Definition estimate (prices : gmap string UsagePrice) (u : UsageCostInput) : bool * Z :=
  match usagePriceForModel prices (TrimSpace (Model u)) with
  | None => (false, 0)
  | Some (_, price) => (true, estimateCostMicrousd u price)
  end.

(** ** Budgets *)

Definition remainingBudget64 (limit used : Z) : option Z :=
  if bool_decide (limit ≤ 0) then None
  else let remaining := wrap64 (limit - used) in Some (if bool_decide (remaining < 0) then 0 else remaining).

Definition budgetExceeded64 (limit used : Z) : bool := bool_decide (0 < limit) && bool_decide (limit ≤ used).

(** What is added to the usage of a key. *)
Record remaining6 := {
  RequestsRemaining24h : option Z; TokensRemaining24h : option Z; CostRemainingMicrousd24h : option Z;
  RequestsRemaining30d : option Z; TokensRemaining30d : option Z; CostRemainingMicrousd30d : option Z;
  RequestBudgetExceeded : bool; TokenBudgetExceeded : bool; CostBudgetExceeded : bool
}.

Definition applyBudgetRemaining (l : Ledger.apiKeyBudgetLimits) (u : Ledger.usage) : remaining6 :=
  {| RequestsRemaining24h := remainingBudget64 (Ledger.Request24h l) (Ledger.requests_used_24h u);
     TokensRemaining24h := remainingBudget64 (Ledger.Token24h l) (Ledger.observed_tokens_used_24h u);
     CostRemainingMicrousd24h := remainingBudget64 (Ledger.Cost24h l) (Ledger.observed_cost_microusd_used_24h u);
     RequestsRemaining30d := remainingBudget64 (Ledger.Request30d l) (Ledger.requests_used_30d u);
     TokensRemaining30d := remainingBudget64 (Ledger.Token30d l) (Ledger.observed_tokens_used_30d u);
     CostRemainingMicrousd30d := remainingBudget64 (Ledger.Cost30d l) (Ledger.observed_cost_microusd_used_30d u);
     RequestBudgetExceeded := budgetExceeded64 (Ledger.Request24h l) (Ledger.requests_used_24h u)
                              || budgetExceeded64 (Ledger.Request30d l) (Ledger.requests_used_30d u);
     TokenBudgetExceeded := budgetExceeded64 (Ledger.Token24h l) (Ledger.observed_tokens_used_24h u)
                            || budgetExceeded64 (Ledger.Token30d l) (Ledger.observed_tokens_used_30d u);
     CostBudgetExceeded := budgetExceeded64 (Ledger.Cost24h l) (Ledger.observed_cost_microusd_used_24h u)
                           || budgetExceeded64 (Ledger.Cost30d l) (Ledger.observed_cost_microusd_used_30d u) |}.

(** ** The service *)

(** The calls: the settings row, the iteration over a map, the clock. *)
Inductive cmd : Set → Type :=
| Now : cmd Time
| QPricing : cmd (result aerror UsagePricing)
| Iterate (m : gmap string UsagePrice) : cmd (list (string * UsagePrice))
| TSavePricing (p : UsagePricing) : cmd (result aerror UsagePricing).

Abbreviation P := (prog cmd).
Definition call {R : Set} (c : cmd R) : P R := Vis c Ret.

Section service.
(** The built-in price list, at the time it is asked for. *)
Variable defaultPrices : gmap string UsagePrice.

Definition defaultUsagePricing (now : Time) : UsagePricing :=
  {| Version := 1; Currency := "USD"; Unit := "1M_tokens"; UpdatedAt := now; Models := defaultPrices;
     IgnoredModels := [] |}.

Definition normalized (p : UsagePricing) : P (result aerror UsagePricing) :=
  let! entries := call (Iterate (Models p)) in Ret (normalizeUsagePricing p entries).

Definition GetUsagePricing : P (result aerror UsagePricing) :=
  let! r := call QPricing in
  match r with
  | Ok p => normalized p
  | Err ErrNotFound => let! now := call Now in Ret (Ok (defaultUsagePricing now))
  | Err e => Ret (Err e)
  end.

Definition with_ignored (l : list string) (p : UsagePricing) : UsagePricing :=
  {| Version := Version p; Currency := Currency p; Unit := Unit p; UpdatedAt := UpdatedAt p; Models := Models p;
     IgnoredModels := l |}.
Definition stamped (now : Time) (p : UsagePricing) : UsagePricing :=
  {| Version := Version p; Currency := Currency p; Unit := Unit p; UpdatedAt := now; Models := Models p;
     IgnoredModels := IgnoredModels p |}.

(** The ignored models of the stored list, without those that now have a price. *)
Definition still_ignored (models : gmap string UsagePrice) (l : list string) : list string :=
  List.filter (fun m => negb (bool_decide (is_Some (models !! m)))) l.

Definition UpdateUsagePricing (p : UsagePricing) : P (result aerror UsagePricing) :=
  let! n := normalized p in
  match n with
  | Err e => Ret (Err e)
  | Ok n =>
      let! c := GetUsagePricing in
      match c with
      | Err e => Ret (Err e)
      | Ok current =>
          let! m := normalized (with_ignored (still_ignored (Models n) (IgnoredModels current)) n) in
          match m with
          | Err e => Ret (Err e)
          | Ok m => let! now := call Now in call (TSavePricing (stamped now m))
          end
      end
  end.

Definition EstimateUsageCost (u : UsageCostInput) : P (result aerror (bool * Z)) :=
  let! r := GetUsagePricing in
  match r with
  | Err e => Ret (Err e)
  | Ok p => Ret (Ok (estimate (Models p) u))
  end.
End service.

(** The settings row. *)
Definition acts (R : Set) (c : cmd R) (d : option UsagePricing) : R → option UsagePricing → Prop :=
  match c in cmd R return R → option UsagePricing → Prop with
  | Now => fun _ d' => d' = d
  | QPricing => transacts (match d with Some p => Ok p | None => Err ErrNotFound end, d) d
  | Iterate m => fun l d' => d' = d ∧ l ≡ₚ map_to_list m
  | TSavePricing p => transacts (Ok p, Some p) d
  end.

End Pricing.

(** * Prices, costs and budgets shown: theorems *)

Module PricingThms.
Import AdminBase Pricing.

(** ** Costs *)

(** The exact price of one kind of tokens, in millionths of a microdollar. *)
Definition exact_part (tokens rate : Z) : Z := Z.max 0 tokens * Z.max 0 rate.

Lemma costPart_spec tokens rate :
  exact_part tokens rate + 500000 ≤ int64_max →
  0 ≤ costPartMicrousd tokens rate ≤ exact_part tokens rate + 500000 ∧
  - 500000 < 1000000 * costPartMicrousd tokens rate - exact_part tokens rate ≤ 500000.
Proof.
  unfold costPartMicrousd, exact_part. intros Hb.
  destruct (bool_decide (tokens ≤ 0)) eqn:Ht; [apply bool_decide_eq_true in Ht; simpl; nia|].
  destruct (bool_decide (rate ≤ 0)) eqn:Hr; [apply bool_decide_eq_true in Hr; simpl; nia|].
  apply bool_decide_eq_false in Ht, Hr. rewrite !Z.max_r in * by lia. simpl. unfold int64_max in Hb.
  assert (0 < tokens * rate) by nia.
  rewrite (wrap64_id (tokens * rate)) by (unfold in_int64, int64_min, int64_max; lia).
  rewrite wrap64_id by (unfold in_int64, int64_min, int64_max; lia).
  rewrite Z.quot_div_nonneg by lia.
  pose proof (Z.div_mod (tokens * rate + 500000) 1000000 ltac:(lia)).
  pose proof (Z.mod_pos_bound (tokens * rate + 500000) 1000000 ltac:(lia)). lia.
Qed.

(** The exact price of a request. *)
Definition exact_cost (u : UsageCostInput) (p : UsagePrice) : Z :=
  exact_part (InputTokens u - Z.max 0 (CachedInputTokens u)) (InputMicrousdPerMillion p)
  + exact_part (CachedInputTokens u) (CachedInputMicrousdPerMillion p)
  + exact_part (OutputTokens u) (OutputMicrousdPerMillion p).

(** The estimate of a cost is not negative and within one and a half
    microdollars of the exact price, where cached input tokens are charged at
    their own rate and never twice, as long as the price fits in 64 bits. *)
Theorem cost_rounds u p :
  in_int64 (InputTokens u - Z.max 0 (CachedInputTokens u)) → exact_cost u p + 1500000 ≤ int64_max →
  0 ≤ estimateCostMicrousd u p ∧
  - 1500000 < 1000000 * estimateCostMicrousd u p - exact_cost u p ≤ 1500000.
Proof.
  intros Hin Hb. unfold exact_cost in *.
  assert (∀ a b, 0 ≤ exact_part a b) as Hpos by (intros; unfold exact_part; nia).
  pose proof (Hpos (InputTokens u - Z.max 0 (CachedInputTokens u)) (InputMicrousdPerMillion p)).
  pose proof (Hpos (CachedInputTokens u) (CachedInputMicrousdPerMillion p)).
  pose proof (Hpos (OutputTokens u) (OutputMicrousdPerMillion p)).
  unfold estimateCostMicrousd.
  assert ((if bool_decide (CachedInputTokens u < 0) then 0 else CachedInputTokens u) = Z.max 0 (CachedInputTokens u))
    as -> by (case_bool_decide; lia).
  rewrite (wrap64_id (InputTokens u - _)) by done. set (b := InputTokens u - Z.max 0 (CachedInputTokens u)) in *.
  set (b' := if bool_decide (b < 0) then 0 else b).
  assert (exact_part b' (InputMicrousdPerMillion p) = exact_part b (InputMicrousdPerMillion p)) as Hb1.
  { unfold exact_part, b'. case_bool_decide; [|done]. rewrite Z.max_l, (Z.max_l 0 b) by lia. done. }
  assert (exact_part (Z.max 0 (CachedInputTokens u)) (CachedInputMicrousdPerMillion p)
          = exact_part (CachedInputTokens u) (CachedInputMicrousdPerMillion p)) as Hb2.
  { unfold exact_part. by rewrite Z.max_assoc. }
  unfold int64_max in Hb.
  pose proof (costPart_spec b' (InputMicrousdPerMillion p)) as C1. rewrite Hb1 in C1.
  pose proof (costPart_spec (Z.max 0 (CachedInputTokens u)) (CachedInputMicrousdPerMillion p)) as C2. rewrite Hb2 in C2.
  pose proof (costPart_spec (OutputTokens u) (OutputMicrousdPerMillion p)) as C3.
  unfold int64_max in C1, C2, C3. specialize (C1 ltac:(lia)). specialize (C2 ltac:(lia)). specialize (C3 ltac:(lia)).
  rewrite (wrap64_id (_ + costPartMicrousd (Z.max 0 _) _)) by (unfold in_int64, int64_min, int64_max; lia).
  rewrite wrap64_id by (unfold in_int64, int64_min, int64_max; lia). lia.
Qed.

Lemma cost_rounds_witness :
  let u := {| Model := "gpt-5"; InputTokens := 1500; OutputTokens := 20; CachedInputTokens := 1000 |} in
  let p := {| InputMicrousdPerMillion := 1250000; CachedInputMicrousdPerMillion := 125000;
              OutputMicrousdPerMillion := 10000000; LongInputMicrousdPerMillion := 0;
              LongCachedInputMicrousdPerMillion := 0; LongOutputMicrousdPerMillion := 0 |} in
  estimateCostMicrousd u p = 950 ∧ 0 ≤ estimateCostMicrousd u p.
Proof.
  intros u p. split; [vm_compute; reflexivity|].
  apply (cost_rounds u p); [split; vm_compute; discriminate|vm_compute; discriminate].
Defined.

(** Prices are only bounded below: a price that passes the normalisation can
    make the cost of a request wrap around and be negative. *)
Theorem cost_can_be_negative :
  ∃ u p, price_ok p = true ∧ 0 ≤ InputTokens u ∧ 0 ≤ OutputTokens u ∧ estimateCostMicrousd u p < 0.
Proof.
  exists {| Model := "m"; InputTokens := 3; OutputTokens := 0; CachedInputTokens := 0 |},
    {| InputMicrousdPerMillion := 2 ^ 62; CachedInputMicrousdPerMillion := 0; OutputMicrousdPerMillion := 0;
       LongInputMicrousdPerMillion := 0; LongCachedInputMicrousdPerMillion := 0; LongOutputMicrousdPerMillion := 0 |}.
  split_and!; vm_compute; done.
Qed.

(** The prices for long contexts have no part in it. *)
Lemma long_prices_unused u p q :
  InputMicrousdPerMillion p = InputMicrousdPerMillion q →
  CachedInputMicrousdPerMillion p = CachedInputMicrousdPerMillion q →
  OutputMicrousdPerMillion p = OutputMicrousdPerMillion q → estimateCostMicrousd u p = estimateCostMicrousd u q.
Proof. unfold estimateCostMicrousd. by intros -> -> ->. Qed.

(** ** Budgets: what is shown is what is enforced *)

Lemma remaining_zero limit used :
  0 < limit ≤ int64_max → 0 ≤ used ≤ int64_max →
  budgetExceeded64 limit used = true ↔ remainingBudget64 limit used = Some 0.
Proof.
  unfold budgetExceeded64, remainingBudget64, int64_max. intros Hl Hu.
  rewrite (bool_decide_true (0 < limit)), (bool_decide_false (limit ≤ 0)) by lia. rewrite wrap64_id by (unfold in_int64, int64_min, int64_max; lia). simpl.
  case_bool_decide; case_bool_decide; split; intros H'; try done; try lia; try (injection H'; lia). f_equal. lia.
Qed.

(** The first budget that is shown as exceeded, as the ledger names it. *)
Definition exceeded (r : remaining6) : option Ledger.ledger_error :=
  if RequestBudgetExceeded r then Some Ledger.ErrAPIKeyRequestBudgetExceeded
  else if TokenBudgetExceeded r then Some Ledger.ErrAPIKeyTokenBudgetExceeded
  else if CostBudgetExceeded r then Some Ledger.ErrAPIKeyCostBudgetExceeded
  else None.

(** A key whose budget is shown as exceeded is refused and no other: for a
    new admission of an active key whose state is initialised, the budget ledger
    reports the first of request, token and cost budget that the management
    interface shows as exceeded, and admits the request when it shows none. *)
Theorem shown_budget_is_enforced dbnow i aid at_ d key s :
  0 < i → at_ ≠ 0 → Ledger.validLiveBudgetAdmissionID aid = true →
  Ledger.active_key i d = Some key → Ledger.states d !! i = Some s →
  Ledger.initialization_status (Ledger.init s) = Ledger.Ready →
  List.find (fun a => str_eq (Ledger.admission_id a) aid && bool_decide (Ledger.src a = Ledger.Live))
    (Ledger.admissions d) = None →
  match exceeded (applyBudgetRemaining (Ledger.limits key) (Ledger.used s)) with
  | Some e => Ledger.AdmitAPIKeyBudget dbnow i aid at_ d = Err e
  | None => (∃ a, Ledger.AdmitAPIKeyBudget dbnow i aid at_ d = Ok a) ∨
            Ledger.AdmitAPIKeyBudget dbnow i aid at_ d = Err Ledger.ErrDatabase
  end.
Proof.
  intros Hi Ht Hid Hkey Hs Hready Hnew. unfold Ledger.AdmitAPIKeyBudget.
  rewrite bool_decide_false by lia. unfold time_is_zero. rewrite bool_decide_false by done. rewrite Hid, Hkey, Hs, Hnew.
  cbn [orb negb]. cbv zeta. rewrite (bool_decide_false (Ledger.initialization_status _ ≠ _)) by (by rewrite Hready; intros []).
  rewrite andb_false_r. unfold exceeded, applyBudgetRemaining. cbn [RequestBudgetExceeded TokenBudgetExceeded CostBudgetExceeded].
  change budgetExceeded64 with Ledger.budgetLimitReached.
  do 3 (match goal with |- context [if ?b then _ else _] => destruct b; [reflexivity|] end).
  unfold Ledger.insert_admission. destruct (_ && _); [|by right]. cbn [result_bind].
  unfold Ledger.update_state. case_match; cbn [result_bind]; [|left; by eexists]. case_match; [left; by eexists|by right].
Qed.

(** A key with a request budget of one that has been used. *)
Definition demo_limits : Ledger.client_key := Ledger.Build_client_key (Ledger.Build_apiKeyBudgetLimits 1 0 0 0 0 0) None None.
Definition demo_state : Ledger.budget_state :=
  Ledger.Build_budget_state (Ledger.Build_init_columns Ledger.Ready None None None 0 (Some 1))
    (Ledger.Build_usage 1 1 0 0 0 0) None 1 0.
Definition demo_ledger : Ledger.db := Ledger.Build_db {[ 1 := demo_limits ]} {[ 1 := demo_state ]} [] 1 [].

Lemma shown_budget_is_enforced_witness :
  Ledger.AdmitAPIKeyBudget 0 1 "0123456789abcdef0123456789abcdef" Hour demo_ledger
  = Err Ledger.ErrAPIKeyRequestBudgetExceeded.
Proof.
  apply (shown_budget_is_enforced 0 1 "0123456789abcdef0123456789abcdef" Hour demo_ledger demo_limits demo_state);
    [lia|done|vm_compute; reflexivity..].
Defined.

(** ** Normalisation of a price list *)

(** The names of the entries, as they are stored. *)
Definition names (l : list (string * UsagePrice)) : list string := map (fun e => TrimSpace e.1) l.

Definition stored (l : list (string * UsagePrice)) (m : gmap string UsagePrice) : gmap string UsagePrice :=
  foldl (fun m e => <[TrimSpace e.1 := e.2]> m) m l.

Lemma normalize_prices_stored l models :
  normalize_prices l models =
  if forallb (fun e => name_ok (TrimSpace e.1) && price_ok e.2) l then Some (stored l models) else None.
Proof.
  revert models. induction l as [|[raw price] l IH]; intros models; [done|]. simpl. rewrite IH.
  destruct (name_ok (TrimSpace raw)), (price_ok price); done.
Qed.

(** The last entry of a name, in the order of the iteration, gives its price. *)
Lemma stored_lookup l m k :
  stored l m !! k =
  match last (List.filter (fun e => str_eq (TrimSpace e.1) k) l) with Some e => Some e.2 | None => m !! k end.
Proof.
  unfold stored. revert m. induction l as [|[raw price] l IH] using rev_ind; intros m; [done|].
  rewrite foldl_app, List.filter_app. simpl. unfold str_eq at 2. case_bool_decide as E.
  - subst. rewrite lookup_insert_eq. by rewrite last_snoc.
  - rewrite lookup_insert_ne by done. rewrite app_nil_r. apply IH.
Qed.

Lemma names_inj l e e' : NoDup (names l) → e ∈ l → e' ∈ l → TrimSpace e.1 = TrimSpace e'.1 → e = e'.
Proof.
  intros Hnd He He' Heq. apply list_elem_of_lookup in He as [i Hi], He' as [j Hj].
  assert (i = j) as ->; [|congruence]. eapply NoDup_lookup; [exact Hnd| |]; unfold names.
  - change (map ?f l) with (f <$> l). by rewrite list_lookup_fmap, Hi.
  - change (map ?f l) with (f <$> l). rewrite list_lookup_fmap, Hj. simpl. by rewrite Heq.
Qed.

Lemma stored_perm l l' : NoDup (names l) → l ≡ₚ l' → stored l ∅ = stored l' ∅.
Proof.
  intros Hnd Hp. apply map_eq. intros k. rewrite !stored_lookup.
  assert (∀ (x : list (string * UsagePrice)) e, last (List.filter (fun e => str_eq (TrimSpace e.1) k) x) = Some e → e ∈ x ∧ TrimSpace e.1 = k) as Hlast.
  { intros x e He. apply last_Some_elem_of, list_elem_of_In, filter_In in He as [Hin Hk].
    split; [by apply list_elem_of_In|]. unfold str_eq in Hk. by apply bool_decide_eq_true in Hk. }
  assert (∀ (x : list (string * UsagePrice)) e, e ∈ x → TrimSpace e.1 = k → last (List.filter (fun e => str_eq (TrimSpace e.1) k) x) ≠ None) as Hsome.
  { intros x e He Hk Hn. apply last_None in Hn. apply list_elem_of_In in He.
    enough (In e (List.filter (fun e => str_eq (TrimSpace e.1) k) x)) as Hf by (by rewrite Hn in Hf).
    apply filter_In. split; [done|]. unfold str_eq. by apply bool_decide_eq_true. }
  destruct (last (List.filter _ l)) as [e|] eqn:E, (last (List.filter _ l')) as [e'|] eqn:E'; [| | |done].
  - apply Hlast in E as [H1 H2], E' as [H3 H4]. rewrite <- Hp in H3. f_equal.
    rewrite (names_inj l e e'); congruence.
  - apply Hlast in E as [H1 H2]. rewrite Hp in H1. by destruct (Hsome l' e H1 H2).
  - apply Hlast in E' as [H1 H2]. rewrite <- Hp in H1. by destruct (Hsome l e' H1 H2).
Qed.

Lemma forallb_perm {A} (f : A → bool) l l' : l ≡ₚ l' → forallb f l = forallb f l'.
Proof. induction 1; simpl; [done|congruence|by rewrite !andb_assoc, (andb_comm (f _))|congruence]. Qed.

(** The normalisation of a price list does not depend on the order in which
    the map is iterated as long as no two of its names are the same without
    their spaces; when two are, the order decides which price is stored. *)
Theorem normalisation_and_iteration_order :
  (∀ p l l', NoDup (names l) → l ≡ₚ l' → normalizeUsagePricing p l = normalizeUsagePricing p l') ∧
  (∃ p l l' q q', l ≡ₚ map_to_list (Models p) ∧ l' ≡ₚ map_to_list (Models p) ∧ normalizeUsagePricing p l = Ok q ∧
     normalizeUsagePricing p l' = Ok q' ∧ Models q ≠ Models q').
Proof.
  split.
  - intros p l l' Hnd Hp. unfold normalizeUsagePricing.
    assert (bool_decide (l = []) = bool_decide (l' = [])) as ->.
    { apply bool_decide_ext. split; intros ->; [by apply Permutation_nil_l in Hp|by apply Permutation_nil_r in Hp]. }
    by rewrite !normalize_prices_stored, (forallb_perm _ _ _ Hp), (stored_perm l l' Hnd Hp).
  - set (price := fun r => {| InputMicrousdPerMillion := r; CachedInputMicrousdPerMillion := 0;
      OutputMicrousdPerMillion := 0; LongInputMicrousdPerMillion := 0; LongCachedInputMicrousdPerMillion := 0;
      LongOutputMicrousdPerMillion := 0 |}).
    set (l := [("gpt-5", price 1); (" gpt-5", price 2)]).
    assert (map_to_list (list_to_map l : gmap string UsagePrice) ≡ₚ l) as Hl.
    { apply map_to_list_to_map. by apply (bool_decide_unpack _). }
    exists {| Version := 1; Currency := "usd"; Unit := ""; UpdatedAt := 0; Models := list_to_map l; IgnoredModels := [] |},
      l, [(" gpt-5", price 2); ("gpt-5", price 1)].
    eexists _, _. split_and!; [by symmetry|symmetry; etransitivity; [exact Hl|constructor]| | |];
      [vm_compute; reflexivity|vm_compute; reflexivity|].
    intros H%(f_equal (lookup "gpt-5")). vm_compute in H. discriminate.
Qed.

End PricingThms.
