(* ===== verification/SettingsRuntime.v ===== *)
(** * The gateway settings at run time

    [admin/gateway_settings_runtime.go]: the settings the gateway works with,
    refreshed from the database now and then and published directly when an
    administrator changes them.

    The snapshot pointer and the refresh trigger are the state.  Loading a record
    and applying it are two steps: other refreshes and publications come in
    between, since only the second one holds the mutex. *)

From S2P Require Import Prelude GoStrings AdminBase.

Module SettingsRuntime.
Import AdminBase.

(** ** Settings *)

Record GatewaySettings := {
  MaxConcurrentGatewayRequests : Z; MaxConcurrentRequestsPerAccount : Z; MaxConcurrentRequestsPerKey : Z;
  RequestsPerMinutePerKey : Z; TokensPerMinutePerKey : Z;
  ProviderAccountAutoTestEnabled : bool; ProviderAccountAutoTestIntervalSeconds : Z; RequestLogRetentionDays : Z
}.

#[export] Instance GatewaySettings_eq_dec : EqDecision GatewaySettings.
Proof. solve_decision. Defined.

Definition set_interval (i : Z) (s : GatewaySettings) : GatewaySettings :=
  {| MaxConcurrentGatewayRequests := MaxConcurrentGatewayRequests s;
     MaxConcurrentRequestsPerAccount := MaxConcurrentRequestsPerAccount s;
     MaxConcurrentRequestsPerKey := MaxConcurrentRequestsPerKey s;
     RequestsPerMinutePerKey := RequestsPerMinutePerKey s; TokensPerMinutePerKey := TokensPerMinutePerKey s;
     ProviderAccountAutoTestEnabled := ProviderAccountAutoTestEnabled s;
     ProviderAccountAutoTestIntervalSeconds := i; RequestLogRetentionDays := RequestLogRetentionDays s |}.

Definition normalizeGatewaySettings (s : GatewaySettings) : result aerror GatewaySettings :=
  if existsb (fun x => bool_decide (x < 0))
       [MaxConcurrentGatewayRequests s; MaxConcurrentRequestsPerAccount s; MaxConcurrentRequestsPerKey s;
        RequestsPerMinutePerKey s; TokensPerMinutePerKey s; ProviderAccountAutoTestIntervalSeconds s;
        RequestLogRetentionDays s]
  then Err ErrInvalidInput
  else
    let s := if bool_decide (ProviderAccountAutoTestIntervalSeconds s = 0) then set_interval 300 s else s in
    if ProviderAccountAutoTestEnabled s && bool_decide (ProviderAccountAutoTestIntervalSeconds s < 60)
    then Err ErrInvalidInput
    else Ok s.

Record GatewaySettingsRecord := { R_Settings : GatewaySettings; R_UpdatedAt : Time }.

(** ** The snapshot *)

Definition SourcePersisted : string := "persisted".
Definition SourceStartupDefault : string := "startup-default".
Definition SourceLastKnownGood : string := "last-known-good".
Definition LoadFailedErrorCode : string := "gateway_settings_load_failed".
Definition InvalidErrorCode : string := "gateway_settings_invalid".
Definition MissingErrorCode : string := "gateway_settings_missing".
Definition VersionErrorCode : string := "gateway_settings_version_conflict".

Record GatewaySettingsSnapshot := {
  Settings : GatewaySettings; Version : option Time; LoadedAt : option Time;
  LastRefreshAttemptAt : option Time; LastRefreshSucceededAt : option Time; LastRefreshFailedAt : option Time;
  LastErrorCode : string; ConsecutiveFailures : Z; RefreshSuccesses : Z; RefreshFailures : Z;
  Source : string; Valid : bool; Stale : bool; PersistedLoaded : bool
}.

Definition zero_settings : GatewaySettings := Build_GatewaySettings 0 0 0 0 0 false 0 0.
Definition zero_snapshot : GatewaySettingsSnapshot :=
  Build_GatewaySettingsSnapshot zero_settings None None None None None "" 0 0 0 "" false false false.

(** [cloneGatewaySettingsSnapshot]: a copy, or the zero value. *)
Definition clone (s : option GatewaySettingsSnapshot) : GatewaySettingsSnapshot := default zero_snapshot s.

(** A [uint64] counter. *)
Definition incr (x : Z) : Z := (x + 1) mod 2 ^ 64.

(** What the log says about refreshes. *)
Inductive notice := RefreshFailed (code : string) | RefreshRecovered.

Record runtime := {
  defaults : GatewaySettings; snapshot : option GatewaySettingsSnapshot; refreshTrigger : bool; notices : list notice
}.

Definition storeSnapshot (next : GatewaySettingsSnapshot) (outcome : string) (r : runtime) : runtime :=
  let previousFailures := match snapshot r with Some p => ConsecutiveFailures p | None => 0 end in
  {| defaults := defaults r; snapshot := Some next; refreshTrigger := refreshTrigger r;
     notices := notices r ++
       (if str_eq outcome "failure" && bool_decide (previousFailures = 0) then [RefreshFailed (LastErrorCode next)] else [])
       ++ (if str_eq outcome "success" && bool_decide (0 < previousFailures) then [RefreshRecovered] else []) |}.

Definition publishCommitted (record : GatewaySettingsRecord) (now : Time) (r : runtime) : runtime :=
  let n := clone (snapshot r) in
  storeSnapshot
    {| Settings := R_Settings record; Version := Some (R_UpdatedAt record); LoadedAt := Some now;
       LastRefreshAttemptAt := LastRefreshAttemptAt n; LastRefreshSucceededAt := LastRefreshSucceededAt n;
       LastRefreshFailedAt := LastRefreshFailedAt n; LastErrorCode := ""; ConsecutiveFailures := 0;
       RefreshSuccesses := RefreshSuccesses n; RefreshFailures := RefreshFailures n; Source := SourcePersisted;
       Valid := true; Stale := false; PersistedLoaded := true |} "" r.

Definition publishDefaultSuccess (now : Time) (r : runtime) : runtime :=
  let n := clone (snapshot r) in
  storeSnapshot
    {| Settings := if Valid n then Settings n else defaults r; Version := Version n;
       LoadedAt := if Valid n then LoadedAt n else Some now;
       LastRefreshAttemptAt := Some now; LastRefreshSucceededAt := Some now;
       LastRefreshFailedAt := LastRefreshFailedAt n; LastErrorCode := ""; ConsecutiveFailures := 0;
       RefreshSuccesses := incr (RefreshSuccesses n); RefreshFailures := RefreshFailures n;
       Source := SourceStartupDefault; Valid := true; Stale := false; PersistedLoaded := PersistedLoaded n |}
    "success" r.

Definition publishSuccess (record : GatewaySettingsRecord) (source : string) (persisted : bool) (now : Time)
    (r : runtime) : runtime :=
  let n := clone (snapshot r) in
  storeSnapshot
    {| Settings := R_Settings record; Version := Some (R_UpdatedAt record); LoadedAt := Some now;
       LastRefreshAttemptAt := Some now; LastRefreshSucceededAt := Some now;
       LastRefreshFailedAt := LastRefreshFailedAt n; LastErrorCode := ""; ConsecutiveFailures := 0;
       RefreshSuccesses := incr (RefreshSuccesses n); RefreshFailures := RefreshFailures n; Source := source;
       Valid := true; Stale := false; PersistedLoaded := PersistedLoaded n || persisted |}
    "success" r.

Definition publishFailure (errorCode : string) (now : Time) (r : runtime) : runtime :=
  let n := clone (snapshot r) in
  storeSnapshot
    {| Settings := Settings n; Version := Version n; LoadedAt := LoadedAt n;
       LastRefreshAttemptAt := Some now; LastRefreshSucceededAt := LastRefreshSucceededAt n;
       LastRefreshFailedAt := Some now; LastErrorCode := errorCode;
       ConsecutiveFailures := incr (ConsecutiveFailures n); RefreshSuccesses := RefreshSuccesses n;
       RefreshFailures := incr (RefreshFailures n);
       Source := if Valid n then SourceLastKnownGood else Source n; Valid := Valid n; Stale := Valid n;
       PersistedLoaded := PersistedLoaded n |}
    "failure" r.

Definition publishVersionConflict (r : runtime) : runtime :=
  let n := clone (snapshot r) in
  storeSnapshot
    {| Settings := Settings n; Version := Version n; LoadedAt := LoadedAt n;
       LastRefreshAttemptAt := LastRefreshAttemptAt n; LastRefreshSucceededAt := LastRefreshSucceededAt n;
       LastRefreshFailedAt := LastRefreshFailedAt n; LastErrorCode := VersionErrorCode;
       ConsecutiveFailures := ConsecutiveFailures n; RefreshSuccesses := RefreshSuccesses n;
       RefreshFailures := RefreshFailures n; Source := if Valid n then SourceLastKnownGood else Source n;
       Valid := Valid n; Stale := Valid n; PersistedLoaded := PersistedLoaded n |}
    "" r.

(** The trigger is a channel of one element. *)
Definition ScheduleRefresh (r : runtime) : runtime :=
  {| defaults := defaults r; snapshot := snapshot r; refreshTrigger := true; notices := notices r |}.

Inductive rerror := ErrGatewaySettingsUnavailable | ErrGatewaySettingsInvalid | ErrContext.

(** ** Operations *)

Definition NewGatewaySettingsRuntime (d : GatewaySettings) : result rerror runtime :=
  match normalizeGatewaySettings d with
  | Ok n => Ok {| defaults := n; snapshot := None; refreshTrigger := false; notices := [] |}
  | Err _ => Err ErrGatewaySettingsInvalid
  end.

(** The current version is after the given one. *)
Definition version_after (r : runtime) (t : Time) : bool :=
  match snapshot r with
  | Some s => match Version s with Some v => time_before t v | None => false end
  | None => false
  end.

(** [PublishPersisted]: the whole of it holds the mutex. *)
Definition PublishPersisted (record : GatewaySettingsRecord) (now : Time) (r : runtime)
  : result rerror unit * runtime :=
  match normalizeGatewaySettings (R_Settings record) with
  | Err _ => (Err ErrGatewaySettingsInvalid, r)
  | Ok settings =>
      if time_is_zero (R_UpdatedAt record) then (Err ErrGatewaySettingsInvalid, r)
      else
        let record := {| R_Settings := settings; R_UpdatedAt := R_UpdatedAt record |} in
        if version_after r (R_UpdatedAt record) then (Ok tt, r)
        else
          match snapshot r with
          | Some s =>
              if bool_decide (Version s = Some (R_UpdatedAt record)) && negb (bool_decide (R_Settings record = Settings s))
              then (Err ErrGatewaySettingsInvalid, ScheduleRefresh (publishVersionConflict r))
              else (Ok tt, publishCommitted record now r)
          | None => (Ok tt, publishCommitted record now r)
          end
  end.

Definition GetGatewaySettings (r : runtime) : result rerror GatewaySettings :=
  match snapshot r with
  | Some s => if Valid s then Ok (Settings s) else Err ErrGatewaySettingsUnavailable
  | None => Err ErrGatewaySettingsUnavailable
  end.

(** What the database answered. *)
Inductive load := Loaded (record : GatewaySettingsRecord) | LoadNotFound | LoadInvalid | LoadFailed.

(** The second half of [refresh], with the mutex held; [initial] at the start of
    the program. *)
Definition apply_load (initial : bool) (l : load) (now : Time) (r : runtime) : result rerror unit * runtime :=
  match l with
  | LoadNotFound =>
      if match snapshot r with Some s => PersistedLoaded s | None => false end
      then (Err ErrGatewaySettingsUnavailable, publishFailure MissingErrorCode now r)
      else (Ok tt, publishDefaultSuccess now r)
  | LoadInvalid => (Err ErrGatewaySettingsInvalid, publishFailure InvalidErrorCode now r)
  | LoadFailed => (Err ErrGatewaySettingsUnavailable, publishFailure LoadFailedErrorCode now r)
  | Loaded record =>
      match normalizeGatewaySettings (R_Settings record) with
      | Err _ => (Err ErrGatewaySettingsInvalid, publishFailure InvalidErrorCode now r)
      | Ok settings =>
          if time_is_zero (R_UpdatedAt record) then (Err ErrGatewaySettingsInvalid, publishFailure InvalidErrorCode now r)
          else
            let record := {| R_Settings := settings; R_UpdatedAt := R_UpdatedAt record |} in
            if negb initial && version_after r (R_UpdatedAt record)
            then (Err ErrGatewaySettingsInvalid, publishFailure VersionErrorCode now r)
            else (Ok tt, publishSuccess record SourcePersisted true now r)
      end
  end.

(** [Service.UpdateGatewaySettings]: the answer of the database, then the
    publication. *)
Definition UpdateGatewaySettings (settings : GatewaySettings)
    (save : GatewaySettings → result aerror GatewaySettingsRecord) (now : Time) (r : runtime)
  : result (aerror + rerror) GatewaySettings * runtime :=
  match normalizeGatewaySettings settings with
  | Err e => (Err (inl e), r)
  | Ok normalized =>
      match save normalized with
      | Err e => (Err (inl e), r)
      | Ok record =>
          match PublishPersisted record now r with
          | (Ok _, r) => (Ok (R_Settings record), r)
          | (Err e, r) => (Err (inr e), ScheduleRefresh r)
          end
      end
  end.

(** [boundedGatewaySettingsJitter] with what the random source answers below the
    bound it is given, and the delay of the next refresh in [Run]. *)
Definition boundedGatewaySettingsJitter (rand : Z → Z) (interval : Duration) : Duration :=
  let window := Z.quot interval 10 in
  if bool_decide (window ≤ 0) then 0 else rand (window + 1).

Definition next_delay (rand : Z → Z) (interval : Duration) : Duration :=
  wrap64 (interval + boundedGatewaySettingsJitter rand interval).

(** ** Histories

    The refreshes that have loaded but not applied, and the runtime.  A step is
    labelled with the record it made known, if any. *)
Record system := { sys : runtime; loading : list (bool * load) }.

Definition record_of (l : load) : list GatewaySettingsRecord := match l with Loaded r => [r] | _ => [] end.

Inductive step : system → list GatewaySettingsRecord → system → Prop :=
| step_load r ls initial l : step (Build_system r ls) (record_of l) (Build_system r (ls ++ [(initial, l)]))
| step_apply r ls1 ls2 initial l now res r' :
    apply_load initial l now r = (res, r') →
    step (Build_system r (ls1 ++ (initial, l) :: ls2)) [] (Build_system r' (ls1 ++ ls2))
| step_cancel r ls1 ls2 x : step (Build_system r (ls1 ++ x :: ls2)) [] (Build_system r (ls1 ++ ls2))
| step_publish r ls record now res r' :
    PublishPersisted record now r = (res, r') → step (Build_system r ls) [record] (Build_system r' ls)
| step_schedule r ls : step (Build_system r ls) [] (Build_system (ScheduleRefresh r) ls)
| step_take r ls :
    refreshTrigger r = true →
    step (Build_system r ls) [] (Build_system {| defaults := defaults r; snapshot := snapshot r;
                                                 refreshTrigger := false; notices := notices r |} ls).

(** Histories without a start-up load in flight. *)
Definition running (s : system) : Prop := Forall (fun x => x.1 = false) (loading s).

Inductive history : system → list GatewaySettingsRecord → system → Prop :=
| history_nil s : history s [] s
| history_step s l s1 k s2 : step s l s1 → running s1 → history s1 k s2 → history s (l ++ k) s2.

End SettingsRuntime.

(** * The gateway settings at run time: theorems *)

Module SettingsRuntimeThms.
Import AdminBase SettingsRuntime.

(** ** Normal settings *)

Definition normal (s : GatewaySettings) : Prop := normalizeGatewaySettings s = Ok s.

Lemma normalize_settings_idempotent s n : normalizeGatewaySettings s = Ok n → normal n.
Proof.
  unfold normal, normalizeGatewaySettings. destruct (existsb _ _) eqn:He; [done|].
  case_bool_decide as H0.
  - destruct (_ && _) eqn:E; [done|]. intros [= <-]. simpl in *. repeat (apply orb_false_iff in He as [? He]).
    repeat match goal with H : bool_decide _ = false |- _ => rewrite H; clear H end.
    simpl. by rewrite andb_false_r.
  - destruct (_ && _) eqn:E; [done|]. intros [= <-]. rewrite He. rewrite bool_decide_false by done. by rewrite E.
Qed.

(** ** What an operation does to the snapshot *)

Record good (r : runtime) : Prop := {
  good_defaults : normal (defaults r);
  good_valid : ∀ s, snapshot r = Some s → Valid s = true → normal (Settings s);
  good_version : ∀ s, snapshot r = Some s → Version s ≠ None → Valid s = true ∧ PersistedLoaded s = true
}.

Lemma clone_good r : good r →
  (Valid (clone (snapshot r)) = true → normal (Settings (clone (snapshot r)))) ∧
  (Version (clone (snapshot r)) ≠ None → Valid (clone (snapshot r)) = true ∧ PersistedLoaded (clone (snapshot r)) = true).
Proof. intros [_ Hv Hp]. destruct (snapshot r) as [s|]; simpl in *; [eauto|done]. Qed.

Ltac store_good := split; simpl; [done|intros ? [= <-]; simpl|intros ? [= <-]; simpl].

Lemma failure_good code now r : good r → good (publishFailure code now r).
Proof. intros Hg. destruct (clone_good r Hg) as [Hv Hp]. destruct Hg. store_good; auto. Qed.

Lemma conflict_good r : good r → good (publishVersionConflict r).
Proof. intros Hg. destruct (clone_good r Hg) as [Hv Hp]. destruct Hg. store_good; auto. Qed.

Lemma default_good now r :
  match snapshot r with Some s => PersistedLoaded s | None => false end = false →
  good r → good (publishDefaultSuccess now r).
Proof.
  intros Hl Hg. destruct (clone_good r Hg) as [Hv Hp]. pose proof Hg as [Hd _ _]. store_good.
  - intros _. destruct (Valid (clone (snapshot r))); auto.
  - intros H. destruct (Hp H) as [_ Hl']. destruct (snapshot r); simpl in *; congruence.
Qed.

Lemma committed_good record now r : normal (R_Settings record) → good r → good (publishCommitted record now r).
Proof. intros Hn []. by store_good. Qed.

Lemma success_good record src now r : normal (R_Settings record) → good r → good (publishSuccess record src true now r).
Proof. intros Hn []. store_good; [done|]. intros _. by rewrite orb_true_r. Qed.

Lemma schedule_good r : good r → good (ScheduleRefresh r).
Proof. by intros []. Qed.

#[local] Hint Resolve failure_good conflict_good default_good committed_good success_good schedule_good
  normalize_settings_idempotent : settings.

Lemma apply_good initial l now r res r' : apply_load initial l now r = (res, r') → good r → good r'.
Proof.
  intros Ha Hg. destruct l as [record| | |]; simpl in Ha.
  - destruct (normalizeGatewaySettings _) as [n|] eqn:Hn; [|simplify_eq; auto with settings].
    destruct (time_is_zero _); [simplify_eq; auto with settings|].
    destruct (_ && _); simplify_eq; [auto with settings|]. apply success_good; [by eapply normalize_settings_idempotent|done].
  - destruct (match snapshot r with Some s => PersistedLoaded s | None => false end) eqn:Hl; simplify_eq;
      auto with settings.
  - simplify_eq; auto with settings.
  - simplify_eq; auto with settings.
Qed.

Lemma publish_good record now r res r' : PublishPersisted record now r = (res, r') → good r → good r'.
Proof.
  unfold PublishPersisted. destruct (normalizeGatewaySettings _) as [n|] eqn:Hn; [|by intros [= _ <-]].
  destruct (time_is_zero _); [by intros [= _ <-]|]. cbv zeta. destruct (version_after _ _); [by intros [= _ <-]|].
  intros Hp Hg. assert (good (publishCommitted (Build_GatewaySettingsRecord n (R_UpdatedAt record)) now r)) as Hc.
  { apply committed_good; [by eapply normalize_settings_idempotent|done]. }
  destruct (snapshot r); [|by simplify_eq]. destruct (_ && _); simplify_eq; auto with settings.
Qed.

Lemma step_good s l s' : step s l s' → good (sys s) → good (sys s').
Proof.
  destruct 1; simpl; intros Hg; eauto using apply_good, publish_good, schedule_good. by destruct Hg.
Qed.

(** Valid settings stay valid. *)
Definition serving (r : runtime) : Prop := ∃ s, snapshot r = Some s ∧ Valid s = true.

Lemma apply_serving initial l now r res r' : apply_load initial l now r = (res, r') → serving r → serving r'.
Proof.
  intros Ha (s & Hs & Hv). destruct l as [record| | |]; simpl in Ha; rewrite ?Hs in Ha;
    repeat case_match; simplify_eq; eexists; (split; [reflexivity|]); simpl; rewrite ?Hs; simpl; done.
Qed.

Lemma publish_serving record now r res r' : PublishPersisted record now r = (res, r') → serving r → serving r'.
Proof.
  unfold PublishPersisted. intros Hp (s & Hs & Hv). rewrite Hs in Hp.
  repeat case_match; simplify_eq; try (by exists s); eexists; (split; [reflexivity|]); simpl; rewrite ?Hs; simpl; done.
Qed.

Lemma step_serving s l s' : step s l s' → serving (sys s) → serving (sys s').
Proof. destruct 1; simpl; intros Hg; eauto using apply_serving, publish_serving. Qed.

(** Once the gateway has settings it always has some: along every history of
    refreshes, failures and publications, reading the settings keeps succeeding,
    and what is read is normal (no negative limit, a test interval of at least a
    minute when testing is on). *)
Theorem settings_stay_available s s' x :
  good (sys s) → GetGatewaySettings (sys s) = Ok x → rtc (fun a b => ∃ l, step a l b) s s' →
  ∃ y, GetGatewaySettings (sys s') = Ok y ∧ normal y.
Proof.
  intros Hg Hx Hr. assert (serving (sys s)) as Hs.
  { unfold GetGatewaySettings in Hx. destruct (snapshot (sys s)) as [t|] eqn:E; [|done]. exists t.
    destruct (Valid t) eqn:V; [done|discriminate]. }
  clear Hx. induction Hr as [s|s s1 s2 [l Hl] _ IH].
  - destruct Hs as (t & Ht & Hv). exists (Settings t). unfold GetGatewaySettings. rewrite Ht, Hv.
    split; [done|]. by eapply good_valid.
  - eauto using step_good, step_serving.
Qed.

(** ** Committed settings are not overwritten by what was loaded before *)

(** The settings in force are at least as recent as [v], and are the ones they
    were or those of a record from [known]. *)
Definition current (v : Time) (x : GatewaySettings) (known : list GatewaySettingsRecord) (r : runtime) : Prop :=
  ∃ t v', snapshot r = Some t ∧ Valid t = true ∧ PersistedLoaded t = true ∧ Version t = Some v' ∧ v ≤ v' ∧
    ((v' = v ∧ Settings t = x) ∨
     ∃ record, record ∈ known ∧ R_UpdatedAt record = v' ∧ normalizeGatewaySettings (R_Settings record) = Ok (Settings t)).

(** Changes that keep what is in force. *)
Lemma current_same v x known r r' s s' :
  snapshot r = Some s → snapshot r' = Some s' → Settings s' = Settings s → Version s' = Version s →
  Valid s' = Valid s → PersistedLoaded s' = PersistedLoaded s → current v x known r → current v x known r'.
Proof.
  intros Hs Hs' HS HV Hval Hpl (t & v' & Ht & H1 & H2 & H3 & H4 & H5). assert (t = s) as -> by congruence.
  exists s', v'. rewrite HS, HV, Hval, Hpl. by split_and!.
Qed.

(** A record takes over. *)
Lemma current_new v x known r' record n s' :
  snapshot r' = Some s' → Settings s' = n → Version s' = Some (R_UpdatedAt record) → Valid s' = true →
  PersistedLoaded s' = true → v ≤ R_UpdatedAt record → record ∈ known →
  normalizeGatewaySettings (R_Settings record) = Ok n → current v x known r'.
Proof. intros Hs <- HV Hval Hpl Hle Hin Hn. exists s', (R_UpdatedAt record). split_and!; eauto. Qed.

Lemma version_not_after v x known r t : current v x known r → version_after r t = false → v ≤ t.
Proof.
  intros (s & v' & Hs & _ & _ & HV & Hle & _). unfold version_after, time_before. rewrite Hs, HV.
  intros H%bool_decide_eq_false. lia.
Qed.

Lemma apply_current v x known l now r res r' :
  apply_load false l now r = (res, r') → (∀ record, record ∈ record_of l → record ∈ known) →
  current v x known r → current v x known r'.
Proof.
  intros Ha Hk Hc. pose proof Hc as (s & v' & Hs & Hval & Hpl & _).
  assert (∀ code, current v x known (publishFailure code now r)) as Hfail.
  { intros code. eapply (current_same _ _ _ r); [exact Hs|reflexivity|..|done]; simpl; by rewrite Hs. }
  destruct l as [record| | |]; simpl in Ha.
  - destruct (normalizeGatewaySettings _) as [n|] eqn:Hn; [|by simplify_eq].
    destruct (time_is_zero _); [by simplify_eq|]. destruct (version_after _ _) eqn:Hv; [by simplify_eq|].
    simplify_eq. eapply current_new with (record := record) (n := n); try reflexivity; simpl;
      [by rewrite orb_true_r|by eapply version_not_after|apply Hk; by left|done].
  - rewrite Hs, Hpl in Ha. by simplify_eq.
  - by simplify_eq.
  - by simplify_eq.
Qed.

Lemma publish_current v x known record now r res r' :
  PublishPersisted record now r = (res, r') → record ∈ known → current v x known r → current v x known r'.
Proof.
  intros Hp Hk Hc. pose proof Hc as (s & v' & Hs & Hval & Hpl & _). unfold PublishPersisted in Hp. rewrite Hs in Hp.
  destruct (normalizeGatewaySettings _) as [n|] eqn:Hn; [|by simplify_eq].
  destruct (time_is_zero _); [by simplify_eq|]. cbv zeta in Hp. cbn [R_UpdatedAt] in Hp.
  destruct (version_after _ _) eqn:Hv; [by simplify_eq|]. destruct (_ && _); simplify_eq.
  - eapply (current_same _ _ _ r); [exact Hs|reflexivity|..|done]; simpl; by rewrite Hs.
  - eapply current_new with (record := record) (n := n); try reflexivity; simpl; [by eapply version_not_after|done|done].
Qed.

Definition loaded (s : system) : list GatewaySettingsRecord := concat (map (fun x => record_of x.2) (loading s)).

Lemma step_current v x known s l s' :
  step s l s' → running s → (∀ record, record ∈ l → record ∈ known) → (∀ record, record ∈ loaded s → record ∈ known) →
  current v x known (sys s) → (∀ record, record ∈ loaded s' → record ∈ known) ∧ current v x known (sys s').
Proof.
  unfold loaded. destruct 1 as [r ls i k|r ls1 ls2 i k now res r' Ha|r ls1 ls2 y|r ls rec now res r' Hp|r ls|r ls Ht];
    simpl; intros Hrun Hl Hk Hc.
  - split; [|done]. intros rec. rewrite map_app, concat_app, elem_of_app. simpl. rewrite app_nil_r. naive_solver.
  - rewrite !map_app, !concat_app in *. simpl in *. apply Forall_app in Hrun as [_ Hrun].
    apply Forall_cons in Hrun as [Hi _]. simpl in Hi. subst i. split.
    + intros rec Hin. apply Hk. set_solver.
    + eapply apply_current; [exact Ha| |done]. intros rec Hin. apply Hk. set_solver.
  - rewrite !map_app, !concat_app in *. simpl in *. split; [|done]. intros rec Hin. apply Hk. set_solver.
  - split; [done|]. eapply publish_current; [exact Hp|apply Hl; by left|done].
  - by split.
  - by split.
Qed.

Lemma history_current v x known s k s' :
  history s k s' → running s → (∀ record, record ∈ k → record ∈ known) → (∀ record, record ∈ loaded s → record ∈ known) →
  current v x known (sys s) → current v x known (sys s').
Proof.
  induction 1 as [s|s l s1 k s2 Hstep Hrun1 _ IH]; intros Hrun Hk Hl Hc; [done|].
  destruct (step_current v x known s l s1) as [Hl' Hc']; try done; [set_solver|]. apply IH; set_solver.
Qed.

(** An update that was published successfully is never undone by a refresh:
    whatever was loaded before and is applied later, the settings in force are
    the published ones or those of a record that is at least as recent. *)
Theorem published_settings_not_lost record now r r' n ls k s' :
  PublishPersisted record now r = (Ok tt, r') → version_after r (R_UpdatedAt record) = false →
  normalizeGatewaySettings (R_Settings record) = Ok n →
  Forall (fun x => x.1 = false) ls → history (Build_system r' ls) k s' →
  ∃ t v, snapshot (sys s') = Some t ∧ Valid t = true ∧ Version t = Some v ∧ R_UpdatedAt record ≤ v ∧
    ((v = R_UpdatedAt record ∧ Settings t = n) ∨
     ∃ newer, newer ∈ loaded (Build_system r' ls) ++ k ∧ R_UpdatedAt newer = v ∧
       normalizeGatewaySettings (R_Settings newer) = Ok (Settings t)).
Proof.
  intros Hp Hv Hn Hls Hh.
  assert (current (R_UpdatedAt record) n (concat (map (fun x => record_of x.2) ls) ++ k) r') as Hc.
  { unfold PublishPersisted in Hp. rewrite Hn in Hp. destruct (time_is_zero _); [done|]. cbv zeta in Hp.
    cbn [R_UpdatedAt] in Hp. rewrite Hv in Hp.
    assert (r' = publishCommitted (Build_GatewaySettingsRecord n (R_UpdatedAt record)) now r) as ->.
    { destruct (snapshot r); [destruct (_ && _)|]; by simplify_eq. }
    eexists _, _. split; [reflexivity|]. simpl. split_and!; try done. by left. }
  eapply history_current in Hh as (t & v & H1 & H2 & _ & H3 & H4 & H5); [| | | |exact Hc].
  - exists t, v. by split_and!.
  - done.
  - set_solver.
  - unfold loaded. simpl. set_solver.
Qed.

(** A refresh that fails leaves the settings, their version and their
    validity as they were, marks them stale when they are valid, and counts one
    more failure. *)
Theorem failed_refresh_keeps_settings initial l now r e r' :
  apply_load initial l now r = (Err e, r') →
  ∃ s', snapshot r' = Some s' ∧ let s := clone (snapshot r) in
    Settings s' = Settings s ∧ Version s' = Version s ∧ Valid s' = Valid s ∧ Stale s' = Valid s ∧
    RefreshFailures s' = incr (RefreshFailures s) ∧ ConsecutiveFailures s' = incr (ConsecutiveFailures s).
Proof.
  intros Ha. destruct l as [record| | |]; simpl in Ha; repeat case_match; simplify_eq; eexists; (split; [reflexivity|]);
    cbv zeta; simpl; repeat match goal with H : snapshot r = _ |- _ => rewrite H end; split_and!; reflexivity.
Qed.

(** The delay between refreshes is the interval and up to a tenth more. *)
Lemma next_delay_bounds rand interval :
  (∀ n, 0 < n → 0 ≤ rand n < n) → 0 < interval ≤ 2 ^ 61 →
  interval ≤ next_delay rand interval ≤ interval + interval / 10.
Proof.
  intros Hrand Hi. unfold next_delay, boundedGatewaySettingsJitter. rewrite Z.quot_div_nonneg by lia.
  assert (0 ≤ interval / 10 ≤ interval) by (split; [apply Z.div_pos; lia|apply Z.div_le_upper_bound; lia]).
  case_bool_decide.
  - rewrite wrap64_id by (unfold in_int64, int64_min, int64_max; lia). lia.
  - specialize (Hrand (interval / 10 + 1) ltac:(lia)).
    rewrite wrap64_id by (unfold in_int64, int64_min, int64_max; lia). lia.
Qed.

(** ** Examples *)

Module Demo.
Definition conf (n : Z) : GatewaySettings := Build_GatewaySettings n 1 1 60 0 true 60 30.
Definition rec (n t : Z) : GatewaySettingsRecord := {| R_Settings := conf n; R_UpdatedAt := t |}.
Definition fresh : runtime :=
  {| defaults := conf 1; snapshot := None; refreshTrigger := false; notices := [] |}.
Definition loaded1 : runtime := (apply_load true (Loaded (rec 2 100)) 101 fresh).2.
Definition updated : runtime := (PublishPersisted (rec 3 200) 201 loaded1).2.

Lemma loaded1_good : good loaded1.
Proof.
  eapply (apply_good true (Loaded (rec 2 100)) 101 fresh); [apply surjective_pairing|].
  split; [reflexivity|done|done].
Qed.
End Demo.

(** A refresh loaded before the update of version 200 is applied after it. *)
Lemma published_settings_not_lost_witness :
  ∃ s' t, sys s' = (apply_load false (Loaded (Demo.rec 2 100)) 202 Demo.updated).2 ∧
    snapshot (sys s') = Some t ∧ Settings t = Demo.conf 3 ∧ Stale t = true ∧
    ∃ v, Version t = Some v ∧ 200 ≤ v.
Proof.
  set (s' := Build_system (apply_load false (Loaded (Demo.rec 2 100)) 202 Demo.updated).2 []).
  exists s'. eexists. split; [reflexivity|]. split; [vm_compute; reflexivity|]. do 2 (split; [vm_compute; reflexivity|]).
  edestruct (published_settings_not_lost (Demo.rec 3 200) 201 Demo.loaded1 Demo.updated (Demo.conf 3)
    [(false, Loaded (Demo.rec 2 100))] ([] ++ []) s') as (t & v & H1 & H2 & H3 & H4 & _).
  - vm_compute. reflexivity.
  - vm_compute. reflexivity.
  - vm_compute. reflexivity.
  - by repeat constructor.
  - eapply (history_step _ [] s' []); [|by constructor|constructor].
    apply (step_apply Demo.updated [] [] false (Loaded (Demo.rec 2 100)) 202 _ _ (surjective_pairing _)).
  - exists v. split; [|exact H4]. vm_compute in H1. injection H1 as <-. exact H3.
Defined.

Lemma settings_stay_available_witness :
  ∃ y, GetGatewaySettings Demo.updated = Ok y ∧ normal y.
Proof.
  eapply (settings_stay_available (Build_system Demo.loaded1 []) (Build_system Demo.updated []) (Demo.conf 2)
    Demo.loaded1_good); [vm_compute; reflexivity|].
  apply rtc_once. eexists. eapply (step_publish Demo.loaded1 [] (Demo.rec 3 200) 201), surjective_pairing.
Defined.

Lemma failed_refresh_keeps_settings_witness :
  ∃ s', snapshot (apply_load false LoadFailed 300 Demo.updated).2 = Some s' ∧ Settings s' = Demo.conf 3.
Proof.
  destruct (failed_refresh_keeps_settings false LoadFailed 300 Demo.updated ErrGatewaySettingsUnavailable
    (apply_load false LoadFailed 300 Demo.updated).2) as (s' & H1 & H2 & _); [apply surjective_pairing|].
  exists s'. split; [exact H1|]. rewrite H2. vm_compute. reflexivity.
Defined.

End SettingsRuntimeThms.
