(* ===== verification/TransportRegistry.v ===== *)
(** * The upstream transports

    [gateway/transport_registry.go]: one HTTP client per proxy and fingerprint
    configuration, shared by the accounts that use it, at most [capacity] of
    them, the least recently used one evicted.

    A client is a number.  An element of the list stands for the entry of its
    key.  The state also records whose idle connections have been closed. *)

From S2P Require Import Prelude Limiters GoStrings Ledger Account Json Sse Usage Effects GatewayTypes GatewayPure.

Module TransportRegistry.
Import Account.

Record transportKey := {
  proxyScheme : string; proxyAddress : string; proxyUserHash : string; fingerprint : string; protocolPolicy : string
}.

#[export] Instance transportKey_eq_dec : EqDecision transportKey.
Proof. solve_decision. Defined.

#[export] Instance transportKey_countable : Countable transportKey.
Proof.
  refine (inj_countable'
    (fun k => (proxyScheme k, proxyAddress k, proxyUserHash k, fingerprint k, protocolPolicy k))
    (fun t => let '(a, b, c, d, e) := t in Build_transportKey a b c d e) _).
  by intros [].
Defined.

Record registry := {
  capacity : nat;
  entries : gmap transportKey nat;
  bindings : gmap Z transportKey;
  lru : list transportKey;
  closed : bool;
  created : list transportKey;
  idle_closed : list nat
}.

Definition defaultTransportRegistryCapacity : Z := 64.

Definition newTransportRegistry (cap : Z) : registry :=
  {| capacity := Z.to_nat (if bool_decide (cap ≤ 0) then defaultTransportRegistryCapacity else cap);
     entries := ∅; bindings := ∅; lru := []; closed := false; created := []; idle_closed := [] |}.

Definition set_bindings (b : gmap Z transportKey) (r : registry) : registry :=
  {| capacity := capacity r; entries := entries r; bindings := b; lru := lru r; closed := closed r;
     created := created r; idle_closed := idle_closed r |}.
Definition set_lru (l : list transportKey) (r : registry) : registry :=
  {| capacity := capacity r; entries := entries r; bindings := bindings r; lru := l; closed := closed r;
     created := created r; idle_closed := idle_closed r |}.

Definition removeEntryLocked (key : transportKey) (r : registry) : registry :=
  match entries r !! key with
  | None => r
  | Some c =>
      {| capacity := capacity r; entries := delete key (entries r); bindings := bindings r;
         lru := List.filter (fun k => negb (bool_decide (k = key))) (lru r); closed := closed r;
         created := created r; idle_closed := idle_closed r ++ [c] |}
  end.

Definition bound (key : transportKey) (b : gmap Z transportKey) : bool :=
  existsb (fun x => bool_decide (x.2 = key)) (map_to_list b).

Definition releaseBindingLocked (account : Z) (key : transportKey) (r : registry) : registry :=
  let r := set_bindings (delete account (bindings r)) r in
  if bound key (bindings r) then r else removeEntryLocked key r.

Definition evictOldestLocked (r : registry) : registry :=
  match last (lru r) with
  | None => r
  | Some key => removeEntryLocked key (set_bindings (filter (fun x => x.2 ≠ key) (bindings r)) r)
  end.

(** The loop [for len(r.entries) > r.capacity]; every round removes an entry. *)
Fixpoint evict_loop (fuel : nat) (r : registry) : registry :=
  match fuel with
  | O => r
  | S fuel => if bool_decide (capacity r < size (entries r))%nat then evict_loop fuel (evictOldestLocked r) else r
  end.

Definition move_to_front (key : transportKey) (l : list transportKey) : list transportKey :=
  key :: List.filter (fun k => negb (bool_decide (k = key))) l.

Definition bind_account (account : Z) (key : transportKey) (r : registry) : registry :=
  if bool_decide (0 < account) then set_bindings (<[account := key]> (bindings r)) r else r.

(** A new client at the front of the list. *)
Definition add_entry (key : transportKey) (r : registry) : registry :=
  {| capacity := capacity r; entries := <[key := length (created r)]> (entries r); bindings := bindings r;
     lru := key :: lru r; closed := closed r; created := created r ++ [key]; idle_closed := idle_closed r |}.

(** [ClientFor] with the key of the account; [None] when the registry is closed. *)
Definition client_for_key (account : Z) (key : transportKey) (r : registry) : option nat * registry :=
  if closed r then (None, r)
  else
    let r := if bool_decide (0 < account)
             then match bindings r !! account with
                  | Some previous => if bool_decide (previous = key) then r else releaseBindingLocked account previous r
                  | None => r
                  end
             else r in
    match entries r !! key with
    | Some c => (Some c, bind_account account key (set_lru (move_to_front key (lru r)) r))
    | None =>
        let r' := bind_account account key (add_entry key r) in
        (Some (length (created r)), evict_loop (size (entries r')) r')
    end.

Definition InvalidateAccountTransport (account : Z) (r : registry) : registry :=
  if bool_decide (account ≤ 0) then r
  else match bindings r !! account with Some key => releaseBindingLocked account key r | None => r end.

(** [closeEntriesLocked] and the new maps. *)
Definition clear (c : bool) (r : registry) : registry :=
  {| capacity := capacity r; entries := ∅; bindings := ∅; lru := []; closed := c; created := created r;
     idle_closed := idle_closed r ++ map snd (map_to_list (entries r)) |}.

Definition InvalidateAllAccountTransports (r : registry) : registry := clear (closed r) r.

Definition Close (r : registry) : registry := if closed r then r else clear true r.

(** ** The key of an account *)

(** What [url.Parse] finds: whether the URL is absolute, the name and the port of
    its host, the scheme and the user information. *)
Record parsed_url := {
  u_abs : bool; u_hostname : string; u_port : string; u_scheme : string; u_user : option string
}.

Section key.
Variables (url_Parse : string → option parsed_url) (sha256 : string → string).

(** [net.JoinHostPort] *)
Definition JoinHostPort (host port : string) : string :=
  if Contains host ":" then String.append "[" (String.append host (String.append "]:" port))
  else String.append host (String.append ":" port).

Definition canonicalProxyAddress (u : parsed_url) : string :=
  let port := if str_eq (u_port u) "" then if EqualFold (u_scheme u) "https" then "443" else "80" else u_port u in
  JoinHostPort (ToLower (u_hostname u)) port.

Inductive key_error := UnsupportedFingerprint | InvalidProxy | UnsupportedProxy.

Definition credentialPrefix : string :=
  String.append "n2api:gateway:proxy-credential:v1" (String.String (Ascii.ascii_of_nat 0) EmptyString).

(** The zero hash when there is no user. *)
Definition zeroHash : string := "".

Definition selectedAccountTransportKey (selected : SelectedAccount) : result key_error transportKey :=
  let fingerprintValue := TrimSpace (FingerprintTLS selected) in
  let fp := GatewayPure.normalizeTLSFingerprintName fingerprintValue in
  if negb (str_eq fingerprintValue "") && str_eq fp "" then Err UnsupportedFingerprint
  else
    let proxyValue := TrimSpace (ProxyURL selected) in
    if str_eq proxyValue "" then Ok (Build_transportKey "" "" zeroHash fp "http1-fingerprint-v1")
    else
      match url_Parse proxyValue with
      | None => Err InvalidProxy
      | Some u =>
          if negb (u_abs u) || str_eq (u_hostname u) "" then Err InvalidProxy
          else
            let scheme := ToLower (u_scheme u) in
            if negb (str_eq scheme "http") && negb (str_eq scheme "https") then Err UnsupportedProxy
            else
              let u := Build_parsed_url (u_abs u) (u_hostname u) (u_port u) scheme (u_user u) in
              Ok (Build_transportKey scheme (canonicalProxyAddress u)
                    (match u_user u with
                     | Some credential => sha256 (String.append credentialPrefix credential)
                     | None => zeroHash
                     end) fp "http1-fingerprint-v1")
      end.

Definition ClientFor (selected : SelectedAccount) (r : registry) : result key_error (option nat) * registry :=
  match selectedAccountTransportKey selected with
  | Err e => (Err e, r)
  | Ok key => let '(c, r) := client_for_key (AccountID selected) key r in (Ok c, r)
  end.
End key.

End TransportRegistry.

(** * The upstream transports: theorems *)

Module TransportRegistryThms.
Import TransportRegistry.

(** ** The invariant *)

Record wf0 (r : registry) : Prop := {
  wf_nodup : NoDup (lru r);
  wf_lru : ∀ k, k ∈ lru r ↔ is_Some (entries r !! k);
  wf_bound : ∀ a k, bindings r !! a = Some k → is_Some (entries r !! k);
  wf_created : ∀ k c, entries r !! k = Some c → created r !! c = Some k;
  wf_accounted : ∀ c, (c < length (created r))%nat → (∃ k, entries r !! k = Some c) ∨ c ∈ idle_closed r;
  wf_open : ∀ k c, entries r !! k = Some c → c ∉ idle_closed r;
  wf_idle : ∀ c, c ∈ idle_closed r → (c < length (created r))%nat;
  wf_capacity : (0 < capacity r)%nat;
  wf_closed : closed r = true → entries r = ∅
}.

Record wf (r : registry) : Prop := { wf_wf0 : wf0 r; wf_size : (size (entries r) ≤ capacity r)%nat }.

Lemma filter_ne_in (l : list transportKey) key k :
  k ∈ List.filter (fun k => negb (bool_decide (k = key))) l ↔ k ∈ l ∧ k ≠ key.
Proof. rewrite list_elem_of_In, filter_In, <- list_elem_of_In. case_bool_decide; naive_solver. Qed.

Lemma filter_nodup {A} (p : A → bool) l : NoDup l → NoDup (List.filter p l).
Proof. intros H. apply NoDup_ListNoDup, List.NoDup_filter, NoDup_ListNoDup, H. Qed.

(** The list and the map have the same keys. *)
Lemma lru_length r : wf0 r → length (lru r) = size (entries r).
Proof.
  intros Hwf. rewrite <- size_dom, <- (size_list_to_set (C := gset transportKey) (lru r)) by apply Hwf.
  f_equal. apply set_eq. intros k. by rewrite elem_of_list_to_set, elem_of_dom, (wf_lru _ Hwf).
Qed.

Lemma entry_inj r k1 k2 c : wf0 r → entries r !! k1 = Some c → entries r !! k2 = Some c → k1 = k2.
Proof. intros Hwf H1%(wf_created _ Hwf) H2%(wf_created _ Hwf). congruence. Qed.

(** ** Parts of operations *)

Lemma set_bindings_wf b r :
  wf0 r → (∀ a k, b !! a = Some k → is_Some (entries r !! k)) → wf0 (set_bindings b r).
Proof. intros [] Hb. by split. Qed.

Lemma remove_wf key r : wf0 r → (∀ a, bindings r !! a ≠ Some key) → wf0 (removeEntryLocked key r).
Proof.
  intros Hwf Hb. unfold removeEntryLocked. destruct (entries r !! key) as [c|] eqn:Hc; [|done].
  split; simpl; try apply Hwf.
  - apply filter_nodup, Hwf.
  - intros k. rewrite filter_ne_in, (wf_lru _ Hwf), lookup_delete_is_Some. naive_solver.
  - intros a k Hk. rewrite lookup_delete_ne by (intros ->; by apply (Hb a)). by eapply wf_bound.
  - intros k c' [_ Hk]%lookup_delete_Some. by eapply wf_created.
  - intros c' Hlt. rewrite elem_of_app, list_elem_of_singleton. destruct (decide (c' = c)) as [->|Hne]; [auto|].
    destruct (wf_accounted _ Hwf c' Hlt) as [[k Hk]|]; [|auto]. left. exists k.
    rewrite lookup_delete_ne by congruence. done.
  - intros k c' [Hne Hk]%lookup_delete_Some. rewrite elem_of_app, list_elem_of_singleton. intros [H| ->].
    + by eapply wf_open.
    + apply Hne. by eapply entry_inj.
  - intros c' [H| ->%list_elem_of_singleton]%elem_of_app; [by eapply wf_idle|].
    apply (wf_created _ Hwf), lookup_lt_Some in Hc. done.
  - intros H. rewrite (wf_closed _ Hwf H). apply delete_empty.
Qed.

Lemma bound_false key b a : bound key b = false → b !! a ≠ Some key.
Proof.
  unfold bound. intros Hf Ha. enough (existsb (fun x => bool_decide (x.2 = key)) (map_to_list b) = true) by congruence.
  apply existsb_exists. exists (a, key). split; [|by apply bool_decide_eq_true].
  by apply list_elem_of_In, elem_of_map_to_list.
Qed.

Lemma release_wf a key r : wf0 r → wf0 (releaseBindingLocked a key r).
Proof.
  intros Hwf. unfold releaseBindingLocked.
  assert (wf0 (set_bindings (delete a (bindings r)) r)) as Hb.
  { apply set_bindings_wf; [done|]. intros a' k [_ Hk]%lookup_delete_Some. by eapply wf_bound. }
  destruct (bound key _) eqn:E; [done|]. apply remove_wf; [done|]. intros a'. by apply bound_false.
Qed.

Lemma evict_wf r : wf0 r → wf0 (evictOldestLocked r).
Proof.
  intros Hwf. unfold evictOldestLocked. destruct (last (lru r)) as [key|]; [|done]. apply remove_wf.
  - apply set_bindings_wf; [done|]. intros a k [Hk _]%map_lookup_filter_Some. by eapply wf_bound.
  - simpl. intros a [_ Hne]%map_lookup_filter_Some. by apply Hne.
Qed.

Lemma add_wf key r : wf0 r → closed r = false → entries r !! key = None → wf0 (add_entry key r).
Proof.
  intros Hwf Hcl Hk. split; simpl; try apply Hwf.
  - apply NoDup_cons. split; [|apply Hwf]. rewrite (wf_lru _ Hwf), Hk. by intros [].
  - intros k. rewrite elem_of_cons, (wf_lru _ Hwf), lookup_insert_is_Some. destruct (decide (k = key)); naive_solver.
  - intros a k Ha. rewrite lookup_insert_is_Some. destruct (decide (key = k)); [auto|]. right. split; [done|].
    by eapply wf_bound.
  - intros k c [[<- <-]|[Hne Hc]]%lookup_insert_Some.
    + by rewrite lookup_app_r, Nat.sub_diag by lia.
    + apply lookup_app_l_Some. by eapply wf_created.
  - intros c. rewrite length_app. simpl. intros Hlt. destruct (decide (c = length (created r))) as [->|Hne].
    + left. exists key. by rewrite lookup_insert_eq.
    + destruct (wf_accounted _ Hwf c) as [[k Hc]|]; [lia| |by right]. left. exists k.
      rewrite lookup_insert_ne; [done|]. congruence.
  - intros k c [[<- <-]|[Hne Hc]]%lookup_insert_Some; [|by eapply wf_open].
    intros H%(wf_idle _ Hwf). lia.
  - intros c H%(wf_idle _ Hwf). rewrite length_app. lia.
  - congruence.
Qed.

Lemma bind_wf a key r : wf0 r → is_Some (entries r !! key) → wf0 (bind_account a key r).
Proof.
  intros Hwf Hk. unfold bind_account. case_bool_decide; [|done]. apply set_bindings_wf; [done|].
  intros a' k [[_ <-]|[_ Hb]]%lookup_insert_Some; [done|]. by eapply wf_bound.
Qed.

Lemma bind_entries a key r : entries (bind_account a key r) = entries r ∧ lru (bind_account a key r) = lru r ∧
  capacity (bind_account a key r) = capacity r ∧ created (bind_account a key r) = created r ∧
  (0 < a → bindings (bind_account a key r) !! a = Some key).
Proof. unfold bind_account. case_bool_decide; simpl; split_and!; try done. intros _. apply lookup_insert_eq. Qed.

Lemma remove_size key r : (size (entries (removeEntryLocked key r)) ≤ size (entries r))%nat.
Proof.
  unfold removeEntryLocked. destruct (entries r !! key) eqn:E; [|done]. simpl. rewrite map_size_delete, E. lia.
Qed.

Lemma release_size a key r : (size (entries (releaseBindingLocked a key r)) ≤ size (entries r))%nat.
Proof. unfold releaseBindingLocked. destruct (bound _ _); [done|]. etransitivity; [apply remove_size|done]. Qed.

Lemma remove_fixed key r : capacity (removeEntryLocked key r) = capacity r ∧ closed (removeEntryLocked key r) = closed r ∧
  created (removeEntryLocked key r) = created r ∧ bindings (removeEntryLocked key r) = bindings r.
Proof. unfold removeEntryLocked. by destruct (_ !! _). Qed.

Lemma release_fixed a key r : capacity (releaseBindingLocked a key r) = capacity r ∧
  closed (releaseBindingLocked a key r) = closed r ∧ created (releaseBindingLocked a key r) = created r.
Proof.
  unfold releaseBindingLocked. destruct (bound _ _); [done|].
  destruct (remove_fixed key (set_bindings (delete a (bindings r)) r)) as (-> & -> & -> & _). done.
Qed.

(** ** Eviction *)

Lemma evict_size r : wf0 r → (0 < size (entries r))%nat → S (size (entries (evictOldestLocked r))) = size (entries r).
Proof.
  intros Hwf Hs. pose proof (lru_length r Hwf) as Hl. unfold evictOldestLocked.
  destruct (last (lru r)) as [key|] eqn:E.
  - apply last_Some_elem_of, (wf_lru _ Hwf) in E as [c Hc]. unfold removeEntryLocked. simpl. rewrite Hc. simpl.
    rewrite map_size_delete, Hc. lia.
  - apply last_None in E. rewrite E in Hl. simpl in Hl. lia.
Qed.

(** The most recently used entry survives when there is another one. *)
Lemma evict_keeps_front r key rest :
  wf0 r → lru r = key :: rest → rest ≠ [] →
  entries (evictOldestLocked r) !! key = entries r !! key ∧
  ∀ a, bindings r !! a = Some key → bindings (evictOldestLocked r) !! a = Some key.
Proof.
  intros Hwf Hl Hne. pose proof (wf_nodup _ Hwf) as Hnd. rewrite Hl in Hnd. apply NoDup_cons in Hnd as [Hnin _].
  unfold evictOldestLocked. rewrite Hl. destruct rest as [|k2 rest]; [done|]. change (last (key :: k2 :: rest)) with (last (k2 :: rest)).
  destruct (last (k2 :: rest)) as [old|] eqn:E; [|done]. apply last_Some_elem_of in E.
  assert (old ≠ key) as Hold by (intros ->; done).
  destruct (remove_fixed old (set_bindings (filter (fun x => x.2 ≠ old) (bindings r)) r)) as (_ & _ & _ & ->).
  split; [|intros a Ha; simpl; by apply map_lookup_filter_Some].
  unfold removeEntryLocked. simpl. destruct (entries r !! old); [|done]. simpl. by rewrite lookup_delete_ne.
Qed.

Lemma evict_fixed r : capacity (evictOldestLocked r) = capacity r ∧ created (evictOldestLocked r) = created r.
Proof.
  unfold evictOldestLocked. destruct (last (lru r)) as [key|]; [|done].
  by destruct (remove_fixed key (set_bindings (filter (fun x => x.2 ≠ key) (bindings r)) r)) as (-> & _ & -> & _).
Qed.

(** At most one entry too many: one round is enough, and spares the newest. *)
Lemma evict_loop_spec fuel r key rest :
  wf0 r → lru r = key :: rest → (size (entries r) ≤ S (capacity r))%nat → (0 < fuel)%nat →
  let r' := evict_loop fuel r in
  wf r' ∧ entries r' !! key = entries r !! key ∧ created r' = created r ∧
  ∀ a, bindings r !! a = Some key → bindings r' !! a = Some key.
Proof.
  intros Hwf Hl Hs Hfuel. pose proof (lru_length r Hwf) as Hlen. rewrite Hl in Hlen. simpl in Hlen.
  destruct fuel as [|fuel]; [lia|]. cbn [evict_loop]. case_bool_decide as Hover; [|split_and!; try done; by split; [done|lia]].
  assert (rest ≠ []) as Hne. { intros ->. simpl in Hlen. pose proof (wf_capacity _ Hwf). lia. }
  destruct (evict_keeps_front r key rest Hwf Hl Hne) as [He Hb]. destruct (evict_fixed r) as [Hcap Hcr].
  pose proof (evict_size r Hwf ltac:(lia)) as Hsz.
  assert (evict_loop fuel (evictOldestLocked r) = evictOldestLocked r) as ->.
  { destruct fuel; [done|]. cbn [evict_loop]. rewrite bool_decide_false; [done|]. rewrite Hcap. lia. }
  split_and!; [|done|done|done]. split; [by apply evict_wf|rewrite Hcap; lia].
Qed.

(** ** The registry *)

(** The account gives its former configuration up first. *)
Definition rebound (a : Z) (key : transportKey) (r : registry) : registry :=
  if bool_decide (0 < a)
  then match bindings r !! a with
       | Some previous => if bool_decide (previous = key) then r else releaseBindingLocked a previous r
       | None => r
       end
  else r.

Lemma rebound_wf a key r : wf r → wf (rebound a key r) ∧ closed (rebound a key r) = closed r.
Proof.
  intros [Hwf Hs]. unfold rebound. case_bool_decide; [|done]. destruct (bindings r !! a) as [k|]; [|done].
  case_bool_decide; [done|]. destruct (release_fixed a k r) as (Hc & -> & _). split; [|done].
  split; [by apply release_wf|]. rewrite Hc. pose proof (release_size a k r). lia.
Qed.

Lemma client_for_key_spec a key r c r' :
  wf r → client_for_key a key r = (Some c, r') →
  wf r' ∧ entries r' !! key = Some c ∧ created r' !! c = Some key ∧ (0 < a → bindings r' !! a = Some key).
Proof.
  intros Hwf. unfold client_for_key. destruct (closed r) eqn:Hcl; [done|]. fold (rebound a key r). cbv zeta.
  destruct (rebound_wf a key r Hwf) as [[Hwf1 Hs1] Hcl1]. set (r1 := rebound a key r) in *.
  destruct (entries r1 !! key) as [c0|] eqn:Hk.
  - intros [= <- <-]. set (r2 := set_lru (move_to_front key (lru r1)) r1).
    assert (wf0 r2) as Hwf2.
    { pose proof Hwf1 as [Hnd Hl ? ? ? ? ? ? ?]. split; simpl; try done.
      - unfold move_to_front. apply NoDup_cons. split; [rewrite filter_ne_in; naive_solver|by apply filter_nodup].
      - intros k. unfold move_to_front. rewrite elem_of_cons, filter_ne_in, Hl.
        destruct (decide (k = key)) as [->|]; [|naive_solver]. rewrite Hk. naive_solver. }
    destruct (bind_entries a key r2) as (He & _ & Hcap & Hcr & Hb).
    assert (wf0 (bind_account a key r2)) as Hwf3 by (apply bind_wf; [done|by eexists]).
    split_and!; [split; [done|by rewrite He, Hcap]|by rewrite He|rewrite Hcr; by eapply (wf_created _ Hwf1)|done].
  - intros [= <- <-]. set (r2 := add_entry key r1). destruct (bind_entries a key r2) as (He & Hl & Hcap & Hcr & Hb).
    assert (wf0 (bind_account a key r2)) as Hwf3.
    { apply bind_wf; [apply add_wf; [done|congruence|done]|]. simpl. rewrite lookup_insert_eq. by eexists. }
    destruct (evict_loop_spec (size (entries (bind_account a key r2))) (bind_account a key r2) key (lru r1))
      as (H1 & H2 & H3 & H4); [done|done|rewrite He, Hcap; simpl; rewrite map_size_insert, Hk; lia| |].
    { rewrite He. simpl. rewrite map_size_insert, Hk. lia. }
    assert (entries (bind_account a key r2) !! key = Some (length (created r1))) as Hnew
      by (rewrite He; simpl; apply lookup_insert_eq).
    split_and!; [done|by rewrite H2|rewrite H3; by apply (wf_created _ Hwf3)|auto].
Qed.

(** Clients are never forgotten nor renamed. *)
Lemma evict_loop_created fuel r : created (evict_loop fuel r) = created r.
Proof.
  revert r. induction fuel as [|fuel IH]; intros r; [done|]. cbn [evict_loop]. case_match; [|done]. rewrite IH.
  apply evict_fixed.
Qed.

Lemma client_for_created a key r x r' c k :
  client_for_key a key r = (x, r') → created r !! c = Some k → created r' !! c = Some k.
Proof.
  unfold client_for_key. destruct (closed r); [by intros [= _ <-]|]. fold (rebound a key r). cbv zeta.
  assert (created (rebound a key r) = created r) as Hcr.
  { unfold rebound. repeat case_match; try done. apply release_fixed. }
  destruct (entries (rebound a key r) !! key).
  - intros [= _ <-] Hc. destruct (bind_entries a key (set_lru (move_to_front key (lru (rebound a key r))) (rebound a key r)))
      as (_ & _ & _ & -> & _). simpl. by rewrite Hcr.
  - intros [= _ <-] Hc. rewrite evict_loop_created. destruct (bind_entries a key (add_entry key (rebound a key r)))
      as (_ & _ & _ & -> & _). simpl. rewrite Hcr. by apply lookup_app_l_Some.
Qed.

Lemma client_for_key_wf a key r : wf r → wf (client_for_key a key r).2.
Proof.
  intros Hwf. destruct (client_for_key a key r) as [[c|] r'] eqn:E.
  - by eapply client_for_key_spec.
  - unfold client_for_key in E. destruct (closed r); [by injection E as <-|]. cbv zeta in E. by case_match.
Qed.

Lemma clear_wf b r : wf r → wf (clear b r).
Proof.
  intros [Hwf Hs]. split; [|simpl; rewrite map_size_empty; lia]. split; simpl; try done.
  - apply NoDup_nil_2.
  - intros k. rewrite lookup_empty, elem_of_nil. split; [done|by intros []].
  - intros c Hlt. right. apply elem_of_app. destruct (wf_accounted _ Hwf c Hlt) as [[k Hk]|]; [right|by left].
    apply list_elem_of_fmap. exists (k, c). split; [done|]. by apply elem_of_map_to_list.
  - intros c [H|H]%elem_of_app; [by eapply wf_idle|]. apply list_elem_of_fmap in H as ([k c'] & -> & H).
    apply elem_of_map_to_list in H. by apply (wf_created _ Hwf), lookup_lt_Some in H.
  - apply Hwf.
Qed.

Lemma invalidate_wf a r : wf r → wf (InvalidateAccountTransport a r).
Proof.
  intros Hwf. unfold InvalidateAccountTransport. case_bool_decide; [done|]. destruct (bindings r !! a) as [k|]; [|done].
  destruct Hwf as [Hwf Hs]. split; [by apply release_wf|]. destruct (release_fixed a k r) as (-> & _).
  pose proof (release_size a k r). lia.
Qed.

Lemma new_wf cap : wf (newTransportRegistry cap).
Proof.
  split; [split|]; simpl; try done.
  - apply NoDup_nil_2.
  - intros k. rewrite lookup_empty, elem_of_nil. split; [done|by intros []].
  - intros c Hc. lia.
  - by intros c ?%elem_of_nil.
  - unfold defaultTransportRegistryCapacity. case_bool_decide; lia.
  - rewrite map_size_empty. lia.
Qed.

(** ** Histories *)

Section history.
Context (url_Parse : string → option parsed_url) (sha256 : string → string).

Inductive step (r : registry) : registry → Prop :=
| step_client selected : step r (ClientFor url_Parse sha256 selected r).2
| step_invalidate a : step r (InvalidateAccountTransport a r)
| step_invalidate_all : step r (InvalidateAllAccountTransports r)
| step_close : step r (Close r).

Lemma step_wf r r' : wf r → step r r' → wf r'.
Proof.
  intros Hwf [selected|a| |].
  - unfold ClientFor. destruct (selectedAccountTransportKey _ _ _) as [key|e]; [|done].
    pose proof (client_for_key_wf (Account.AccountID selected) key r Hwf). by destruct (client_for_key _ _ _).
  - by apply invalidate_wf.
  - by apply clear_wf.
  - unfold Close. case_match; [done|by apply clear_wf].
Qed.

(** In every history of a transport registry: there are never more clients
    than the capacity; the recency list holds exactly the keys of the entries,
    each once; every account is bound to a client that exists; every client was
    made for the configuration it is filed under; and no connection leaks: each
    client ever made is either in use or had its idle connections closed, and
    never both. *)
Theorem transport_registry_invariant cap r :
  rtc step (newTransportRegistry cap) r → wf r.
Proof.
  intros Hr. assert (∀ r1 r2, rtc step r1 r2 → wf r1 → wf r2) as H.
  { clear. induction 1 as [|r1 r2 r3 H1 _ IH]; [done|]. intros Hwf. apply IH. by eapply step_wf. }
  eapply H; [exact Hr|apply new_wf].
Qed.

(** The client an account is given was made for exactly the account's
    configuration, is in the registry, and the account is bound to it; two
    accounts with different configurations never share one. *)
Theorem transport_client_exact selected key r c r' :
  wf r → selectedAccountTransportKey url_Parse sha256 selected = Ok key →
  ClientFor url_Parse sha256 selected r = (Ok (Some c), r') →
  entries r' !! key = Some c ∧ created r' !! c = Some key ∧ c ∉ idle_closed r' ∧
  (0 < Account.AccountID selected → bindings r' !! Account.AccountID selected = Some key) ∧
  ∀ other key' c' r'', selectedAccountTransportKey url_Parse sha256 other = Ok key' → key' ≠ key →
    ClientFor url_Parse sha256 other r' = (Ok (Some c'), r'') → c' ≠ c.
Proof.
  intros Hwf Hkey. unfold ClientFor at 1. rewrite Hkey.
  destruct (client_for_key _ _ _) as [[c0|] r0] eqn:E; [|done]. intros [= -> ->].
  apply client_for_key_spec in E as (Hwf' & He & Hc & Hb); [|done].
  split_and!; [done|done|by eapply (wf_open _ (wf_wf0 _ Hwf'))|done|].
  intros other key' c' r'' Hkey' Hne. unfold ClientFor. rewrite Hkey'.
  destruct (client_for_key _ _ r') as [[c1|] r1] eqn:E1; [|done]. intros [= -> ->] ->.
  assert (created r'' !! c = Some key') as H2 by (by eapply client_for_key_spec).
  enough (created r'' !! c = Some key) by congruence. eapply client_for_created; [exact E1|done].
Qed.
End history.

(** ** Examples *)

Module Demo.
Definition parse (s : string) : option parsed_url :=
  if str_eq s "http://p1" then Some (Build_parsed_url true "p1" "" "http" None)
  else if str_eq s "http://p2:80" then Some (Build_parsed_url true "p2" "80" "http" (Some "u:p")) else None.
Definition sha (s : string) : string := s.

Definition account (id : Z) (proxy tls : string) : Account.SelectedAccount :=
  Account.Build_SelectedAccount id "" "" "" "" "" proxy "" 0 0 "" 0 "" "" "" tls None.

Definition r0 : registry := newTransportRegistry 1.
Definition r1 : registry := (ClientFor parse sha (account 1 "http://p1" "") r0).2.
Definition r2 : registry := (ClientFor parse sha (account 2 "http://p2:80" "chrome") r1).2.
End Demo.

(** With room for one client, the second account evicts that of the first. *)
Lemma transport_registry_invariant_witness : wf Demo.r2 ∧ idle_closed Demo.r2 = [0%nat].
Proof.
  split; [|vm_compute; reflexivity].
  apply (transport_registry_invariant Demo.parse Demo.sha 1).
  eapply rtc_l; [apply (step_client _ _ _ (Demo.account 1 "http://p1" ""))|].
  eapply rtc_once, (step_client _ _ _ (Demo.account 2 "http://p2:80" "chrome")).
Defined.

Lemma transport_client_exact_witness :
  created Demo.r1 !! 0%nat = Some (Build_transportKey "http" "p1:80" "" "" "http1-fingerprint-v1").
Proof.
  apply (transport_client_exact Demo.parse Demo.sha (Demo.account 1 "http://p1" "")
    (Build_transportKey "http" "p1:80" "" "" "http1-fingerprint-v1") Demo.r0 0%nat Demo.r1 (new_wf 1));
    vm_compute; reflexivity.
Defined.

End TransportRegistryThms.
