(* ===== verification/Lifecycle.v ===== *)
(** * Start, readiness and stop of the process

    [lifecycle/readiness.go] and [lifecycle/supervisor.go].  Readiness is a
    state machine behind a mutex.  The supervisor runs components, each in a
    goroutine of its own: its state is what the mutex, the channels and the wait
    group hold, and its steps are the sections between two synchronisations. *)

From S2P Require Import Prelude.

Module Lifecycle.

(** ** Readiness *)

Inductive Phase := PhaseStarting | PhaseReady | PhaseDraining | PhaseFailed.

#[export] Instance Phase_eq_dec : EqDecision Phase.
Proof. solve_decision. Defined.

Record ReadinessSnapshot := { phase : Phase; Reason : string }.

Definition Ready (s : ReadinessSnapshot) : bool := bool_decide (phase s = PhaseReady).
Definition NewReadiness : ReadinessSnapshot := {| phase := PhaseStarting; Reason := "" |}.

Definition MarkReady (s : ReadinessSnapshot) : bool * ReadinessSnapshot :=
  if negb (bool_decide (phase s = PhaseStarting)) then (false, s)
  else (true, {| phase := PhaseReady; Reason := "" |}).

Definition BeginDrain (reason : string) (s : ReadinessSnapshot) : bool * ReadinessSnapshot :=
  if bool_decide (phase s = PhaseDraining) || bool_decide (phase s = PhaseFailed) then (false, s)
  else (true, {| phase := PhaseDraining; Reason := reason |}).

Definition MarkFailed (reason : string) (s : ReadinessSnapshot) : bool * ReadinessSnapshot :=
  if bool_decide (phase s = PhaseFailed) then (false, s)
  else (true, {| phase := PhaseFailed; Reason := reason |}).

Inductive ready_step (s : ReadinessSnapshot) : bool → ReadinessSnapshot → Prop :=
| do_MarkReady : ready_step s (MarkReady s).1 (MarkReady s).2
| do_BeginDrain reason : ready_step s (BeginDrain reason s).1 (BeginDrain reason s).2
| do_MarkFailed reason : ready_step s (MarkFailed reason s).1 (MarkFailed reason s).2.

Definition rank (p : Phase) : Z :=
  match p with PhaseStarting => 0 | PhaseReady => 1 | PhaseDraining => 2 | PhaseFailed => 3 end.

(** Readiness only moves forward, from starting over ready and draining to
    failed: an operation that reports a change strictly advances the phase, and
    one that does not leaves the snapshot as it was, reason included.  A process
    that is draining or has failed is never ready again. *)
Theorem readiness_monotone s b s' :
  ready_step s b s' →
  (if b then rank (phase s) < rank (phase s') else s' = s) ∧
  (2 ≤ rank (phase s) → ∀ s'', rtc (fun x y => ∃ b, ready_step x b y) s' s'' → Ready s'' = false).
Proof.
  assert (∀ x c y, ready_step x c y → if c then rank (phase x) < rank (phase y) else y = x) as Hmono.
  { intros [[] reason] c y; destruct 1; simpl; done. }
  intros Hs. split; [by apply Hmono|]. intros Hr s'' Hlater.
  assert (2 ≤ rank (phase s')) as Hr'. { apply Hmono in Hs. destruct b; [lia|by subst]. }
  clear Hs Hr. induction Hlater as [x|x y z [c Hc] _ IH].
  - unfold Ready. case_bool_decide as H; [rewrite H in Hr'; simpl in Hr'; lia|done].
  - apply IH. apply Hmono in Hc. destruct c; [lia|by subst].
Qed.

Lemma readiness_monotone_witness :
  let s := {| phase := PhaseDraining; Reason := "signal" |} in
  (MarkReady s).1 = false ∧ Ready (MarkReady s).2 = false.
Proof.
  intros s. split; [reflexivity|].
  apply (readiness_monotone s false (MarkReady s).2 (do_MarkReady s)); [simpl; lia|done].
Defined.

(** ** The supervisor *)

(** What a component ends with: [ErrComponentStopped] or its own error, a panic
    included. *)
Inductive failure_cause := ErrComponentStopped | ComponentFailed (message : string).

Abbreviation failure := (string * failure_cause)%type.

(** Where the goroutine of a component is: in [run]; with an error to report; in
    [reportFailure] after the mutex; after the channel; done with the wait
    group, with the error it reported if any. *)
Inductive component :=
| Running
| Reporting (e : failure_cause)
| Recorded (e : failure_cause)
| Notified (e : failure_cause)
| Finished (e : option failure_cause).

Record supervisor := {
  stopping : bool;
  cancelled : bool;
  components : gmap string component;
  last_failure : option failure;
  failures : option failure;
  waiting : bool;
  done : bool;
  reported : list failure
}.

Definition NewSupervisor : supervisor := Build_supervisor false false ∅ None None false false [].

Definition set_component (name : string) (c : component) (s : supervisor) : supervisor :=
  {| stopping := stopping s; cancelled := cancelled s; components := <[name := c]> (components s);
     last_failure := last_failure s; failures := failures s; waiting := waiting s; done := done s;
     reported := reported s |}.

Inductive start_error := ErrNotConfigured | ErrSupervisorStopping | ErrAlreadyStarted.

Definition Start (name : string) (s : supervisor) : result start_error unit * supervisor :=
  if bool_decide (name = "") then (Err ErrNotConfigured, s)
  else if stopping s then (Err ErrSupervisorStopping, s)
  else if bool_decide (is_Some (components s !! name)) then (Err ErrAlreadyStarted, s)
  else (Ok tt, set_component name Running s).

(** [run] returns, [None] for no error. *)
Definition return_of (name : string) (r : option string) (s : supervisor) : supervisor :=
  match r with
  | Some message => set_component name (Reporting (ComponentFailed message)) s
  | None => if cancelled s then set_component name (Finished None) s
            else set_component name (Reporting ErrComponentStopped) s
  end.

(** [reportFailure]: first under the mutex, *)
Definition record_failure (name : string) (e : failure_cause) (s : supervisor) : supervisor :=
  set_component name (Recorded e)
    {| stopping := stopping s; cancelled := cancelled s; components := components s;
       last_failure := Some (name, e); failures := failures s; waiting := waiting s; done := done s;
       reported := reported s ++ [(name, e)] |}.

(** then into the channel of one element, unless it is full. *)
Definition notify_failure (name : string) (e : failure_cause) (s : supervisor) : supervisor :=
  set_component name (Notified e)
    {| stopping := stopping s; cancelled := cancelled s; components := components s;
       last_failure := last_failure s;
       failures := match failures s with Some f => Some f | None => Some (name, e) end;
       waiting := waiting s; done := done s; reported := reported s |}.

Definition BeginStop (s : supervisor) : supervisor :=
  {| stopping := true; cancelled := cancelled s; components := components s; last_failure := last_failure s;
     failures := failures s; waiting := waiting s; done := done s; reported := reported s |}.

(** [Stop]: no new component, the context cancelled, the waiter started; a second
    time nothing. *)
Definition Stop (s : supervisor) : supervisor :=
  if waiting s then s
  else {| stopping := true; cancelled := true; components := components s; last_failure := last_failure s;
          failures := failures s; waiting := true; done := done s; reported := reported s |}.

(** Every goroutine has called [wg.Done]. *)
Definition all_done (s : supervisor) : Prop :=
  ∀ name c, components s !! name = Some c → ∃ e, c = Finished e.

Definition with_cancelled (s : supervisor) : supervisor :=
  {| stopping := stopping s; cancelled := true; components := components s; last_failure := last_failure s;
     failures := failures s; waiting := waiting s; done := done s; reported := reported s |}.
Definition with_failures (f : option failure) (s : supervisor) : supervisor :=
  {| stopping := stopping s; cancelled := cancelled s; components := components s; last_failure := last_failure s;
     failures := f; waiting := waiting s; done := done s; reported := reported s |}.
Definition with_done (s : supervisor) : supervisor :=
  {| stopping := stopping s; cancelled := cancelled s; components := components s; last_failure := last_failure s;
     failures := failures s; waiting := waiting s; done := true; reported := reported s |}.

Inductive step (s : supervisor) : supervisor → Prop :=
| step_start name : step s (Start name s).2
| step_return name r : components s !! name = Some Running → step s (return_of name r s)
| step_record name e : components s !! name = Some (Reporting e) → step s (record_failure name e s)
| step_notify name e : components s !! name = Some (Recorded e) → step s (notify_failure name e s)
| step_finish name e : components s !! name = Some (Notified e) → step s (set_component name (Finished (Some e)) s)
| step_begin_stop : step s (BeginStop s)
| step_stop : step s (Stop s)
| step_parent_cancelled : step s (with_cancelled s)
| step_receive : step s (with_failures None s)
| step_wait : waiting s = true → all_done s → step s (with_done s).

(** The error a component has decided to report, once it is recorded. *)
Definition recorded_error (c : component) : option failure_cause :=
  match c with Recorded e | Notified e | Finished (Some e) => Some e | _ => None end.

Record inv (s : supervisor) : Prop := {
  inv_last : last_failure s = last (reported s);
  inv_reported : ∀ name c e, components s !! name = Some c → recorded_error c = Some e → (name, e) ∈ reported s;
  inv_failures : ∀ f, failures s = Some f → f ∈ reported s;
  inv_waiting : waiting s = true → stopping s = true ∧ cancelled s = true;
  inv_done : done s = true → waiting s = true ∧ all_done s
}.

(** Moving one component. *)
Lemma set_component_inv name c s :
  inv s → (∀ e, recorded_error c = Some e → (name, e) ∈ reported s) → (done s = true → ∃ e, c = Finished e) →
  inv (set_component name c s).
Proof.
  intros [H1 H2 H3 H4 H5] Hc Hd. split; simpl; try done.
  - intros n c' e [[<- <-]|[_ Hn]]%lookup_insert_Some He; eauto.
  - intros D. destruct (H5 D) as [W A]. split; [done|].
    intros n c' Hn. simpl in Hn. apply lookup_insert_Some in Hn as [[<- <-]|[_ Hn]]; eauto.
Qed.

Lemma not_done name c s : inv s → components s !! name = Some c → (∀ e, c ≠ Finished e) → done s = true → False.
Proof. intros Hi Hn Hne D. destruct (inv_done _ Hi D) as [_ A]. destruct (A name c Hn) as [e ->]. by apply (Hne e). Qed.

Lemma step_inv s s' : inv s → step s s' → inv s'.
Proof.
  intros Hi. destruct 1 as [name|name r Hn|name e Hn|name e Hn|name e Hn| | | | |Hw Ha].
  - unfold Start. repeat case_match; try done. apply set_component_inv; [done|done|]. simpl. intros D.
    destruct (inv_done _ Hi D) as [W _]. destruct (inv_waiting _ Hi W). congruence.
  - unfold return_of. repeat case_match; apply set_component_inv; simpl; try done; intros D;
      exfalso; eapply not_done; eauto.
  - unfold record_failure. apply set_component_inv; simpl.
    + destruct Hi as [H1 H2 H3 H4 H5]. split; simpl; try done.
      * by rewrite last_snoc.
      * intros n c e' Hc He. apply elem_of_app. left. by eapply H2.
      * intros f Hf. apply elem_of_app. left. auto.
    + intros e' [= <-]. apply elem_of_app. right. by left.
    + intros D. exfalso. eapply not_done; eauto.
  - pose proof (inv_reported _ Hi name _ e Hn eq_refl) as Hin. unfold notify_failure. apply set_component_inv; simpl.
    + destruct Hi as [H1 H2 H3 H4 H5]. split; simpl; try done. intros f. destruct (failures s); [auto|]. by intros [= <-].
    + by intros e' [= <-].
    + intros D. exfalso. eapply not_done; eauto.
  - pose proof (inv_reported _ Hi name _ e Hn eq_refl). apply set_component_inv; [done| |eauto]. by intros e' [= <-].
  - destruct Hi as [H1 H2 H3 H4 H5]. split; simpl; try done. intros W. by destruct (H4 W).
  - unfold Stop. destruct (waiting s) eqn:W; [done|]. destruct Hi as [H1 H2 H3 H4 H5]. split; simpl; try done.
    intros D. destruct (H5 D). congruence.
  - destruct Hi as [H1 H2 H3 H4 H5]. split; simpl; try done. intros W. by destruct (H4 W).
  - destruct Hi. by split.
  - destruct Hi. by split.
Qed.

Lemma reachable_inv s : rtc step NewSupervisor s → inv s.
Proof.
  assert (inv NewSupervisor) as H0 by by split. intros Hr. revert H0. generalize NewSupervisor Hr. clear Hr.
  intros x Hr. induction Hr as [|x y z Hxy _ IH]; eauto using step_inv.
Qed.

(** The supervisor loses no failure: when [Wait] sees the end, the process is
    stopping, every component has finished, every error a component ended with
    has been recorded, and [LastFailure] is the last of them; in particular it is
    nil only when no component failed. *)
Theorem supervisor_wait_complete s :
  rtc step NewSupervisor s → done s = true →
  stopping s = true ∧ cancelled s = true ∧ all_done s ∧ last_failure s = last (reported s) ∧
  (∀ name e, components s !! name = Some (Finished (Some e)) → (name, e) ∈ reported s ∧ last_failure s ≠ None).
Proof.
  intros Hr%reachable_inv D. destruct (inv_done _ Hr D) as [W A]. destruct (inv_waiting _ Hr W).
  split_and!; try done; [apply Hr|]. intros name e Hn.
  pose proof (inv_reported _ Hr name _ e Hn eq_refl) as Hin. split; [done|]. rewrite (inv_last _ Hr).
  intros E%last_None. rewrite E in Hin. by apply elem_of_nil in Hin.
Qed.

(** A component that ends without an error while the context lives, a stop having
    begun or not, is reported like one that fails. *)
Lemma unexpected_return_reported name s :
  components s !! name = Some Running → cancelled s = false →
  components (return_of name None s) !! name = Some (Reporting ErrComponentStopped).
Proof. intros Hn Hc. unfold return_of. rewrite Hc. simpl. apply lookup_insert_eq. Qed.

Definition is_finished (x : string * component) : bool := match x.2 with Finished _ => true | _ => false end.

Lemma all_done_dec s : forallb is_finished (map_to_list (components s)) = true → all_done s.
Proof.
  intros Hf name c Hc. rewrite forallb_forall in Hf. specialize (Hf (name, c)).
  destruct c; simpl in Hf; try (by eexists); (assert (false = true); [|done]);
    apply Hf, list_elem_of_In, elem_of_map_to_list, Hc.
Qed.

(** A listener fails, a worker stops in time. *)
Definition demo : supervisor :=
  let s := (Start "worker" (Start "listener" NewSupervisor).2).2 in
  let s := return_of "listener" (Some "boom") s in
  let s := record_failure "listener" (ComponentFailed "boom") s in
  let s := Stop (notify_failure "listener" (ComponentFailed "boom") s) in
  let s := return_of "worker" None s in
  with_done (set_component "listener" (Finished (Some (ComponentFailed "boom"))) s).

Lemma demo_supervisor_reachable : rtc step NewSupervisor demo.
Proof.
  unfold demo.
  eapply rtc_l; [apply (step_start _ "listener")|]. eapply rtc_l; [apply (step_start _ "worker")|].
  eapply rtc_l; [apply (step_return _ "listener" (Some "boom")); vm_compute; reflexivity|].
  eapply rtc_l; [apply (step_record _ "listener" (ComponentFailed "boom")); vm_compute; reflexivity|].
  eapply rtc_l; [apply (step_notify _ "listener" (ComponentFailed "boom")); vm_compute; reflexivity|].
  eapply rtc_l; [apply step_stop|].
  eapply rtc_l; [apply (step_return _ "worker" None); vm_compute; reflexivity|].
  eapply rtc_l; [apply (step_finish _ "listener" (ComponentFailed "boom")); vm_compute; reflexivity|].
  eapply rtc_once, step_wait; [vm_compute; reflexivity|].
  apply all_done_dec. vm_compute. reflexivity.
Qed.

Lemma supervisor_wait_complete_witness :
  last_failure demo = Some ("listener", ComponentFailed "boom") ∧ all_done demo.
Proof.
  split; [vm_compute; reflexivity|].
  apply (supervisor_wait_complete demo demo_supervisor_reachable). vm_compute. reflexivity.
Defined.

End Lifecycle.
