(* ===== verification/Concurrency.v ===== *)
(** * Programs running side by side

    A pool of programs whose calls act on a shared state, one call at a time in
    any order, and a way to reason about it one program at a time: each program
    says what it needs the others to leave alone ([rely]), every call keeps an
    invariant and disturbs no other program, and the head call of a program is
    always [fine]. *)

From S2P Require Import Prelude Effects.

Section pools.
Context {E : Set → Type} {S : Type}.
(** What a call of the program number [i] may answer and do. *)
Context (acts : nat → ∀ R : Set, E R → S → R → S → Prop).

(** ** Pools *)

Inductive pstep : list (prog E unit) * S → list (prog E unit) * S → Prop :=
| pool_step i l s R (e : E R) k r s' :
    l !! i = Some (Vis e k) → acts i R e s r s' → pstep (l, s) (<[i := k r]> l, s').

(** ** One program among others *)

Context (Inv : S → Prop) (rely : nat → S → S → Prop) (fine : nat → ∀ R : Set, E R → S → Prop).
Context `{rely_preorder : ∀ i, PreOrder (rely i)}.

Fixpoint ok {A : Type} (i : nat) (p : prog E A) (Q : A → S → Prop) (s : S) : Prop :=
  match p with
  | Ret a => Q a s
  | Vis e k => ∀ s', rely i s s' → Inv s' →
      fine i _ e s' ∧
      ∀ r s'', acts i _ e s' r s'' → Inv s'' ∧ (∀ j, j ≠ i → rely j s' s'') ∧ ok i (k r) Q s''
  end.

(** A postcondition others cannot spoil. *)
Definition stable {A : Type} (i : nat) (Q : A → S → Prop) : Prop :=
  ∀ a s s', rely i s s' → Q a s → Q a s'.

Lemma ok_stable {A} i (p : prog E A) Q : stable i Q → stable i (fun (_ : unit) s => ok i p Q s).
Proof.
  intros HQ _ s s' Hs. destruct p as [a|R e k]; simpl; [by apply HQ|].
  intros H t Ht. apply H. by transitivity s'.
Qed.

Lemma ok_mono {A} i (p : prog E A) (Q Q' : A → S → Prop) s :
  (∀ a s, Q a s → Q' a s) → ok i p Q s → ok i p Q' s.
Proof.
  intros HQ. revert s. induction p as [a|R e k IH]; simpl; intros s H; [auto|].
  intros s' Hs Hi. destruct (H s' Hs Hi) as [Hf Hk]. split; [done|]. intros r s'' Ha.
  destruct (Hk r s'' Ha) as (? & ? & ?). auto.
Qed.

Lemma ok_bind {A B} i (p : prog E A) (f : A → prog E B) Q s :
  ok i p (fun a s => ok i (f a) Q s) s → ok i (bind p f) Q s.
Proof.
  revert s. induction p as [a|R e k IH]; simpl; intros s H; [done|].
  intros s' Hs Hi. destruct (H s' Hs Hi) as [Hf Hk]. split; [done|]. intros r s'' Ha.
  destruct (Hk r s'' Ha) as (? & ? & ?). auto.
Qed.

Lemma ok_seq {A B} i (p : prog E A) (f : A → prog E B) (Q : A → S → Prop) Q' s :
  ok i p Q s → (∀ a s, Q a s → ok i (f a) Q' s) → ok i (bind p f) Q' s.
Proof. intros Hp Hf. apply ok_bind. by eapply ok_mono. Qed.

(** ** The pool keeps what its programs keep *)

(** Each program is all right from here on and ends with [done]. *)
Definition pool_ok (done : nat → S → Prop) (l : list (prog E unit)) (s : S) : Prop :=
  Inv s ∧ ∀ i p, l !! i = Some p → ok i p (fun _ => done i) s.

Lemma pool_ok_step done l s l' s' :
  (∀ i, stable i (fun _ : unit => done i)) →
  pool_ok done l s → pstep (l, s) (l', s') → pool_ok done l' s'.
Proof.
  intros Hd [Hi Hl] Hstep. inversion Hstep as [i ? ? R e k r ? Hp Ha]; subst.
  pose proof (Hl _ _ Hp) as Hok. simpl in Hok. destruct (Hok s ltac:(reflexivity) Hi) as [_ Hk].
  destruct (Hk _ _ Ha) as (Hi' & Hg & Hr). split; [done|]. intros j p Hj.
  destruct (decide (j = i)) as [->|Hne].
  - assert (i < length l)%nat by (by eapply lookup_lt_Some). rewrite list_lookup_insert_eq in Hj by done. by simplify_eq.
  - rewrite list_lookup_insert_ne in Hj by done.
    apply (ok_stable j p (fun _ => done j) (Hd j) tt s s'); [by apply Hg|]. by apply Hl.
Qed.

Lemma pool_ok_reach done x y :
  (∀ i, stable i (fun _ : unit => done i)) →
  rtc pstep x y → pool_ok done x.1 x.2 → pool_ok done y.1 y.2.
Proof.
  intros Hd Hxy. induction Hxy as [|[l s] [l1 s1] y Hstep Hrest IH]; [done|].
  intros Hx. apply IH. by eapply pool_ok_step.
Qed.

(** The head calls of a pool are fine, and what has ended is done. *)
Lemma pool_ok_heads done l s i (p : prog E unit) :
  pool_ok done l s → l !! i = Some p →
  match p with Ret _ => done i s | Vis e k => fine i _ e s end.
Proof.
  intros [Hi Hl] Hp. specialize (Hl _ _ Hp). destruct p as [a|R e k]; simpl in Hl; [done|].
  by destruct (Hl s ltac:(reflexivity) Hi).
Qed.

(** ** Programs end *)

(** A step leaves a smaller program in one place, and programs are well-founded
    trees: no pool runs forever. *)
Definition shrinks (l' l : list (prog E unit)) : Prop :=
  ∃ i R (e : E R) k r, l !! i = Some (Vis e k) ∧ l' = <[i := k r]> l.

Lemma shrinks_cons l : Acc shrinks l → ∀ p, Acc shrinks (p :: l).
Proof.
  induction 1 as [l _ IHl]. intros p. induction p as [a|R e k IHp]; constructor; intros l' (i & R' & e' & k' & r & Hi & ->).
  - destruct i as [|i]; cbn in *; [done|]. apply IHl. by exists i, R', e', k', r.
  - destruct i as [|i]; cbn in *.
    + assert (∃ r0, k' r = k r0) as [r0 ->].
      { revert k' r Hi. enough (∀ (p : prog E unit), Some p = Some (Vis e k) → match p with Vis e0 k0 => ∀ r, ∃ r0, k0 r = k r0 | Ret _ => True end) as H.
        { intros k' r Hi. exact (H (Vis e' k') (eq_sym Hi) r). }
        intros p [= ->]. eauto. }
      apply IHp.
    + apply IHl. by exists i, R', e', k', r.
Qed.

Lemma shrinks_wf l : Acc shrinks l.
Proof. induction l as [|p l IH]; [|by apply shrinks_cons]. constructor. intros l' (i & R & e & k & r & Hi & _). done. Qed.

Lemma pstep_sn x : sn pstep x.
Proof.
  destruct x as [l s]. revert s. induction (shrinks_wf l) as [l _ IH]. intros s. constructor.
  intros [l' s'] Hstep. inversion Hstep as [i ? ? R e k r ? Hp Ha]; subst. apply IH. by exists i, R, e, k, r.
Qed.
End pools.

(** ** Running a pool by a schedule, against a functional environment *)
Section schedule.
Context {E : Set → Type} {S : Type}.
Context (acts : nat → ∀ R : Set, E R → S → R → S → Prop) (handle : nat → ∀ R : Set, E R → S → option (R * S)).

Fixpoint run_pool (turns : list nat) (l : list (prog E unit)) (s : S) : option (list (prog E unit) * S) :=
  match turns with
  | [] => Some (l, s)
  | i :: turns =>
      match l !! i with
      | Some (Vis e k) => match handle i _ e s with
                          | Some (r, s) => run_pool turns (<[i := k r]> l) s
                          | None => None
                          end
      | _ => None
      end
  end.

Lemma run_pool_reach turns l s y :
  (∀ i R (e : E R) s r s', handle i R e s = Some (r, s') → acts i R e s r s') →
  run_pool turns l s = Some y → rtc (pstep acts) (l, s) y.
Proof.
  intros Hh. revert l s. induction turns as [|i turns IH]; intros l s; simpl; [intros [= <-]; reflexivity|].
  destruct (l !! i) as [[a|R e k]|] eqn:El; [done| |done].
  destruct (handle i R e s) as [[r s1]|] eqn:Eh; [|done]. intros Hrun.
  eapply rtc_l; [by econstructor; [|by apply Hh]|]. by apply IH.
Qed.
End schedule.
