(* ===== verification/OAuth.v ===== *)
(** * Provider accounts behind OAuth

    The connection flow and the token refresh of [provider/service.go], and the
    statements and transactions of [store/provider.go] behind them.

    The service is a program whose calls are the repository's transactions, the
    OAuth client, encryption, the clock and the account's refresh lock; the
    tables are a state the transactions act on.  Audit events are left out. *)

From S2P Require Import Prelude GoStrings Base64 Json Effects Account Scheduling Secrets.
From Stdlib Require Import Ascii.
From Stdlib Require String.

Module OAuth.
Import Account.
Import Scheduling (Config, CfgProvider, ClientID, RedirectURL, AuthURL, Configured).

(** ** Data *)

Record TokenResponse := {
  AccessToken : string; RefreshToken : string; IDToken : string; ExpiresIn : Z; T_Subject : string;
  T_DisplayName : string; T_AccountID : string; Email : string; PlanType : string; T_ClientID : string
}.

Record OAuthState := {
  O_Provider : string; StateHash : string; RedirectAfter : string; ExpiresAt : Time; ConsumedAt : option Time;
  CodeVerifier : string; EncryptedCodeVerifier : string; CodeVerifierHash : string; O_ClientID : string;
  TargetAccountID : Z; PendingAccountName : string; PendingPriority : Z; PendingEnabled : option bool;
  PendingFingerprintProfileID : option Z; O_FingerprintHash : string; O_UserAgentHash : string; O_IPHash : string
}.

Record AccountIdentities := {
  I_ChatGPTAccountID : string; I_ChatGPTUserID : string; I_Email : string; I_AccessTokenSHA256 : string
}.

Record Fingerprint := { F_Value : string; F_UserAgent : string; F_IP : string }.

Record ConnectOptions := {
  Opt_RedirectAfter : string; Opt_Name : string; Opt_Priority : Z; Opt_Enabled : option bool;
  Opt_TargetAccountID : Z; Opt_FingerprintProfileID : option Z; Opt_Fingerprint : Fingerprint
}.

Record openAIAuthClaims := { ChatGPTAccountID : string; ChatGPTPlanType : string }.
Record idTokenClaims := { Claim_Subject : string; Claim_Email : string; OpenAIAuth : option openAIAuthClaims }.

Definition CredentialTypeOAuthToken : string := "oauth_token".
Definition CredentialTypeAPIKey : string := "api_key".
Definition refreshFailureCircuitThreshold : Z := 3.
Definition AccountTestStatusPassed : string := "passed".
Definition AccountTestStatusFailed : string := "failed".

(** ** Claims of the ID token *)

Abbreviation obj := (list (string * (string * Json.json))).

(** The types a member may have; [null] leaves a field alone. *)
Definition string_ok (v : Json.json) : bool :=
  match v with Json.JString _ => true | Json.JNull => true | _ => false end.
Definition bool_ok (v : Json.json) : bool :=
  match v with Json.JBool _ => true | Json.JNull => true | _ => false end.
Definition members_ok (name : string) (ok : Json.json → bool) (ms : obj) : bool :=
  forallb (fun m => ok m.2) (Json.field_members name ms).

Definition organization_ok (v : Json.json) : bool :=
  match v with
  | Json.JObject ms => members_ok "id" string_ok ms && members_ok "role" string_ok ms
                       && members_ok "title" string_ok ms && members_ok "is_default" bool_ok ms
  | Json.JNull => true
  | _ => false
  end.

Definition organizations_ok (v : Json.json) : bool :=
  match v with Json.JArray l => forallb organization_ok l | Json.JNull => true | _ => false end.

Definition auth_ok (ms : obj) : bool :=
  forallb (fun name => members_ok name string_ok ms)
    ["chatgpt_account_id"; "chatgpt_user_id"; "chatgpt_plan_type"; "user_id"; "poid"]
  && members_ok "organizations" organizations_ok ms.

(** The pointer field: [null] makes it nil, an object is decoded into what it
    points to. *)
Definition auth_field (ms : obj) : option (option obj) :=
  foldl (fun acc m => match acc, m.2 with
                      | Some _, Json.JNull => Some None
                      | Some l, Json.JObject o => if auth_ok o then Some (Some (default [] l ++ o)) else None
                      | _, _ => None
                      end) (Some None) (Json.field_members "https://api.openai.com/auth" ms).

Definition unmarshal_claims (payload : string) : option idTokenClaims :=
  ms ← Json.unmarshal_struct payload;
  subject ← Json.string_field "sub" ms;
  email ← Json.string_field "email" ms;
  auth ← auth_field ms;
  Some {| Claim_Subject := subject; Claim_Email := email;
          OpenAIAuth := (fun a => {| ChatGPTAccountID := default "" (Json.string_field "chatgpt_account_id" a);
                                     ChatGPTPlanType := default "" (Json.string_field "chatgpt_plan_type" a) |}) <$> auth |}.

Definition decodeIDTokenClaims (idToken : string) : option idTokenClaims :=
  match Split idToken "."%char with
  | [_; part; _] =>
      payload ← match Base64.DecodeString Base64.RawURLEncoding part with
                | Some p => Some p
                | None => Base64.DecodeString Base64.URLEncoding part
                end;
      unmarshal_claims (Secrets.string_of payload)
  | _ => None
  end.

Definition blank (s : string) : bool := str_eq (TrimSpace s) "".

Definition enrichTokenResponseFromIDToken (t : TokenResponse) : TokenResponse :=
  match decodeIDTokenClaims (IDToken t) with
  | None => t
  | Some claims =>
      {| AccessToken := AccessToken t; RefreshToken := RefreshToken t; IDToken := IDToken t; ExpiresIn := ExpiresIn t;
         T_Subject := if blank (T_Subject t) then Claim_Subject claims else T_Subject t;
         T_DisplayName := T_DisplayName t;
         T_AccountID := match OpenAIAuth claims with
                        | Some a => if blank (T_AccountID t) then ChatGPTAccountID a else T_AccountID t
                        | None => T_AccountID t end;
         Email := if blank (Email t) then Claim_Email claims else Email t;
         PlanType := match OpenAIAuth claims with
                     | Some a => if blank (PlanType t) then ChatGPTPlanType a else PlanType t
                     | None => PlanType t end;
         T_ClientID := T_ClientID t |}
  end.

Definition identitiesFromTokenResponse (t : TokenResponse) : AccountIdentities :=
  let t := enrichTokenResponseFromIDToken t in
  {| I_ChatGPTAccountID := TrimSpace (T_AccountID t); I_ChatGPTUserID := "";
     I_Email := ToLower (TrimSpace (Email t)); I_AccessTokenSHA256 := "" |}.

Definition firstNonEmpty : list string → string := first_trimmed.

(** ** Token metadata *)

Definition setMetadata (m : gmap string string) (key value : string) : gmap string string :=
  if blank value then m else <[key := TrimSpace value]> m.

Section hashing.
(** The hexadecimal SHA-256 of a text. *)
Variable sha256 : string → string.

Definition sha256Hex (value : string) : string :=
  let value := TrimSpace value in if str_eq value "" then "" else sha256 value.

Definition hashOptional (value : string) : string :=
  if blank value then "" else sha256 (TrimSpace value).

Definition tokenMetadata (t : TokenResponse) (previous : option Account) : metadata_map :=
  let m := match previous with
           | Some a => filter (fun kv => blank kv.2 = false) (default ∅ (Metadata a))
           | None => ∅ end in
  let m := setMetadata m "account_id" (T_AccountID t) in
  let m := setMetadata m "chatgpt_account_id" (T_AccountID t) in
  let m := setMetadata m "email" (Email t) in
  let m := setMetadata m "plan_type" (PlanType t) in
  let m := setMetadata m "client_id" (T_ClientID t) in
  Some (setMetadata m "access_token_sha256" (sha256Hex (AccessToken t))).
End hashing.

Definition previousID (p : option Account) : Z := match p with Some a => ID a | None => 0 end.
Definition previousEnabled (p : option Account) : bool := match p with Some a => Enabled a | None => true end.
Definition previousPriority (p : option Account) : Z := match p with Some a => Priority a | None => 100 end.
Definition previousName (p : option Account) : string := match p with Some a => Name a | None => "" end.
Definition previousFingerprintHash (p : option Account) : string := match p with Some a => FingerprintHash a | None => "" end.
Definition previousUserAgentHash (p : option Account) : string := match p with Some a => UserAgentHash a | None => "" end.
Definition previousIPHash (p : option Account) : string := match p with Some a => IPHash a | None => "" end.

(** ** Tables

    Rows of [provider_accounts] with their credentials, [oauth_states] and
    [provider_account_test_results]. *)

Record db := {
  accounts : list Account; states : list OAuthState; test_results : list (Z * string * string * Time); next_account : Z
}.

Definition set_accounts (l : list Account) (d : db) : db := Build_db l (states d) (test_results d) (next_account d).
Definition set_states (l : list OAuthState) (d : db) : db := Build_db (accounts d) l (test_results d) (next_account d).

(** A [timestamptz] keeps microseconds. *)
Definition pg (t : Time) : Time := time_truncate t Microsecond.

Definition is_row (provider : string) (id : Z) (a : Account) : bool := str_eq (Provider a) provider && bool_decide (ID a = id).

(** [syncAccountLegacyFields] on what is stored: the account's fields follow
    the credential. *)
Definition syncAccountLegacyFields (a : Account) : Account :=
  let c := Credential a in
  let md := match C_Metadata c with Some m => Some m | None => Some ∅ end in
  {| ID := ID a; Provider := Provider a; AccountType := AccountType a; Subject := Subject a; Name := Name a;
     DisplayName := DisplayName a; BaseURL := C_BaseURL c;
     Credential := {|
       CredentialType := CredentialType c; C_EncryptedAccessToken := C_EncryptedAccessToken c;
       C_EncryptedRefreshToken := C_EncryptedRefreshToken c; C_EncryptedIDToken := C_EncryptedIDToken c;
       C_AccessTokenExpiresAt := C_AccessTokenExpiresAt c; C_LastRefreshAt := C_LastRefreshAt c;
       C_LastRefreshError := C_LastRefreshError c; C_LastRefreshErrorAt := C_LastRefreshErrorAt c;
       EncryptedAPIKey := EncryptedAPIKey c; EncryptedProxyURL := EncryptedProxyURL c; C_BaseURL := C_BaseURL c;
       C_Metadata := md |};
     EncryptedAccessToken := C_EncryptedAccessToken c; EncryptedRefreshToken := C_EncryptedRefreshToken c;
     EncryptedIDToken := C_EncryptedIDToken c; AccessTokenExpiresAt := C_AccessTokenExpiresAt c;
     LastRefreshAt := C_LastRefreshAt c; Enabled := Enabled a; Priority := Priority a;
     GlobalPriority := GlobalPriority a; RoutingPoolPriority := RoutingPoolPriority a;
     LoadFactor := LoadFactor a; MaxConcurrentRequests := MaxConcurrentRequests a;
     LastUsedAt := LastUsedAt a; LastError := LastError a; LastErrorAt := LastErrorAt a;
     LastTestAt := LastTestAt a; LastTestStatus := LastTestStatus a; LastTestError := LastTestError a;
     Metadata := md; Status := Status a; StatusReason := StatusReason a;
     FingerprintHash := FingerprintHash a; UserAgentHash := UserAgentHash a; IPHash := IPHash a;
     FailureCount := FailureCount a; CircuitOpenUntil := CircuitOpenUntil a;
     RateLimitedUntil := RateLimitedUntil a; FingerprintProfileID := FingerprintProfileID a;
     LastRefreshError := C_LastRefreshError c; LastRefreshErrorAt := C_LastRefreshErrorAt c |}.

(** [scanProviderAccount] of a row. *)
Definition scan (a : Account) : Account := syncAccountLegacyFields a.

Definition find_account (provider : string) (id : Z) (d : db) : result perror Account :=
  match List.find (is_row provider id) (accounts d) with
  | Some a => Ok (scan a)
  | None => Err ErrNotConnected
  end.

Definition meta_of (a : Account) (key : string) : option string := default ∅ (C_Metadata (Credential a)) !! key.

Definition is_meta (a : Account) (key value : string) : bool :=
  negb (str_eq value "") && bool_decide (meta_of a key = Some value).

Definition identity_matches (i : AccountIdentities) (a : Account) : bool :=
  is_meta a "chatgpt_account_id" (I_ChatGPTAccountID i) || is_meta a "chatgpt_user_id" (I_ChatGPTUserID i)
  || (negb (str_eq (I_Email i) "") && bool_decide (ToLower <$> meta_of a "email" = Some (I_Email i)))
  || is_meta a "access_token_sha256" (I_AccessTokenSHA256 i).

Definition find_by_identity (provider : string) (i : AccountIdentities) (d : db) : result perror Account :=
  match merge_sort Scheduling.id_le
          (List.filter (fun a => str_eq (Provider a) provider && identity_matches i a) (accounts d)) with
  | a :: _ => Ok (scan a)
  | [] => Err ErrNotConnected
  end.

(** A row with another credential. *)
Definition with_credential (c : AccountCredential) (a : Account) : Account :=
  {| ID := ID a; Provider := Provider a; AccountType := AccountType a; Subject := Subject a; Name := Name a;
     DisplayName := DisplayName a; BaseURL := BaseURL a; Credential := c;
     EncryptedAccessToken := EncryptedAccessToken a; EncryptedRefreshToken := EncryptedRefreshToken a;
     EncryptedIDToken := EncryptedIDToken a; AccessTokenExpiresAt := AccessTokenExpiresAt a;
     LastRefreshAt := LastRefreshAt a; Enabled := Enabled a; Priority := Priority a;
     GlobalPriority := GlobalPriority a; RoutingPoolPriority := RoutingPoolPriority a;
     LoadFactor := LoadFactor a; MaxConcurrentRequests := MaxConcurrentRequests a;
     LastUsedAt := LastUsedAt a; LastError := LastError a; LastErrorAt := LastErrorAt a;
     LastTestAt := LastTestAt a; LastTestStatus := LastTestStatus a; LastTestError := LastTestError a;
     Metadata := Metadata a; Status := Status a; StatusReason := StatusReason a;
     FingerprintHash := FingerprintHash a; UserAgentHash := UserAgentHash a; IPHash := IPHash a;
     FailureCount := FailureCount a; CircuitOpenUntil := CircuitOpenUntil a;
     RateLimitedUntil := RateLimitedUntil a; FingerprintProfileID := FingerprintProfileID a;
     LastRefreshError := LastRefreshError a; LastRefreshErrorAt := LastRefreshErrorAt a |}.

(** [metadata || $] of two [jsonb] objects. *)
Definition merge_metadata (old new : metadata_map) : metadata_map := Some (default ∅ new ∪ default ∅ old).

(** [upsertProviderAccountCredential], for the row there is, if any. *)
Definition upsert_credential (old : option AccountCredential) (c : AccountCredential) : AccountCredential :=
  {| CredentialType := CredentialType c; C_EncryptedAccessToken := C_EncryptedAccessToken c;
     C_EncryptedRefreshToken := C_EncryptedRefreshToken c; C_EncryptedIDToken := C_EncryptedIDToken c;
     C_AccessTokenExpiresAt := pg <$> C_AccessTokenExpiresAt c; C_LastRefreshAt := pg <$> C_LastRefreshAt c;
     C_LastRefreshError := C_LastRefreshError c; C_LastRefreshErrorAt := pg <$> C_LastRefreshErrorAt c;
     EncryptedAPIKey := EncryptedAPIKey c; EncryptedProxyURL := EncryptedProxyURL c; C_BaseURL := C_BaseURL c;
     C_Metadata := merge_metadata (old ≫= C_Metadata) (C_Metadata c) |}.

Definition normalizeAccountForSave (a : Account) : Account :=
  let c := Credential a in
  let accountType := if blank (AccountType a) then AccountTypeCodexOAuth else AccountType a in
  let c' := {|
    CredentialType := if blank (CredentialType c)
                      then (if str_eq accountType AccountTypeAPIUpstream then CredentialTypeAPIKey else CredentialTypeOAuthToken)
                      else CredentialType c;
    C_EncryptedAccessToken := str_or (C_EncryptedAccessToken c) (EncryptedAccessToken a);
    C_EncryptedRefreshToken := str_or (C_EncryptedRefreshToken c) (EncryptedRefreshToken a);
    C_EncryptedIDToken := str_or (C_EncryptedIDToken c) (EncryptedIDToken a);
    C_AccessTokenExpiresAt := opt_or (C_AccessTokenExpiresAt c) (AccessTokenExpiresAt a);
    C_LastRefreshAt := opt_or (C_LastRefreshAt c) (LastRefreshAt a);
    C_LastRefreshError := str_or (C_LastRefreshError c) (LastRefreshError a);
    C_LastRefreshErrorAt := opt_or (C_LastRefreshErrorAt c) (LastRefreshErrorAt a);
    EncryptedAPIKey := EncryptedAPIKey c; EncryptedProxyURL := EncryptedProxyURL c; C_BaseURL := C_BaseURL c;
    C_Metadata := opt_or (C_Metadata c) (Metadata a) |} in
  syncAccountLegacyFields
    {| ID := ID a; Provider := Provider a; AccountType := accountType; Subject := Subject a; Name := Name a;
       DisplayName := DisplayName a; BaseURL := BaseURL a; Credential := c';
       EncryptedAccessToken := EncryptedAccessToken a; EncryptedRefreshToken := EncryptedRefreshToken a;
       EncryptedIDToken := EncryptedIDToken a; AccessTokenExpiresAt := AccessTokenExpiresAt a;
       LastRefreshAt := LastRefreshAt a; Enabled := Enabled a; Priority := Priority a;
       GlobalPriority := GlobalPriority a; RoutingPoolPriority := RoutingPoolPriority a;
       LoadFactor := if bool_decide (LoadFactor a ≤ 0) then 1 else LoadFactor a;
       MaxConcurrentRequests := MaxConcurrentRequests a;
       LastUsedAt := LastUsedAt a; LastError := LastError a; LastErrorAt := LastErrorAt a;
       LastTestAt := LastTestAt a; LastTestStatus := LastTestStatus a; LastTestError := LastTestError a;
       Metadata := Metadata a; Status := Status a; StatusReason := StatusReason a;
       FingerprintHash := FingerprintHash a; UserAgentHash := UserAgentHash a; IPHash := IPHash a;
       FailureCount := FailureCount a; CircuitOpenUntil := CircuitOpenUntil a;
       RateLimitedUntil := RateLimitedUntil a; FingerprintProfileID := FingerprintProfileID a;
       LastRefreshError := LastRefreshError a; LastRefreshErrorAt := LastRefreshErrorAt a |}.

(** ** Transactions *)

Definition same_key (a b : Account) : bool :=
  negb (str_eq (Subject a) "") && str_eq (Provider a) (Provider b) && str_eq (AccountType a) (AccountType b)
  && str_eq (Subject a) (Subject b).

Definition default100 (p : Z) : Z := if bool_decide (p = 0) then 100 else p.
Definition default1 (p : Z) : Z := if bool_decide (p = 0) then 1 else p.

(** The UPDATE of [SaveAccount] and the upsert of the credential. *)
Definition update_row (new old : Account) : Account :=
  {| ID := ID old; Provider := Provider old; AccountType := AccountType new; Subject := Subject new; Name := Name new;
     DisplayName := DisplayName new; BaseURL := BaseURL old;
     Credential := upsert_credential (Some (Credential old)) (Credential new);
     EncryptedAccessToken := EncryptedAccessToken old; EncryptedRefreshToken := EncryptedRefreshToken old;
     EncryptedIDToken := EncryptedIDToken old; AccessTokenExpiresAt := AccessTokenExpiresAt old;
     LastRefreshAt := LastRefreshAt old; Enabled := Enabled new; Priority := default100 (Priority new);
     GlobalPriority := GlobalPriority old; RoutingPoolPriority := RoutingPoolPriority old;
     LoadFactor := default1 (LoadFactor new); MaxConcurrentRequests := MaxConcurrentRequests new;
     LastUsedAt := LastUsedAt old; LastError := LastError old; LastErrorAt := LastErrorAt old;
     LastTestAt := LastTestAt old; LastTestStatus := LastTestStatus old; LastTestError := LastTestError old;
     Metadata := Metadata old; Status := Status old; StatusReason := StatusReason old;
     FingerprintHash := FingerprintHash new; UserAgentHash := UserAgentHash new; IPHash := IPHash new;
     FailureCount := FailureCount old; CircuitOpenUntil := CircuitOpenUntil old;
     RateLimitedUntil := RateLimitedUntil old; FingerprintProfileID := FingerprintProfileID new;
     LastRefreshError := LastRefreshError old; LastRefreshErrorAt := LastRefreshErrorAt old |}.

(** A new row with the columns the INSERT names. *)
Definition insert_row (id : Z) (new : Account) : Account :=
  {| ID := id; Provider := Provider new; AccountType := AccountType new; Subject := Subject new; Name := Name new;
     DisplayName := DisplayName new; BaseURL := "";
     Credential := upsert_credential None (Credential new);
     EncryptedAccessToken := ""; EncryptedRefreshToken := ""; EncryptedIDToken := ""; AccessTokenExpiresAt := None;
     LastRefreshAt := None; Enabled := Enabled new; Priority := default100 (Priority new);
     GlobalPriority := 0; RoutingPoolPriority := None;
     LoadFactor := default1 (LoadFactor new); MaxConcurrentRequests := MaxConcurrentRequests new;
     LastUsedAt := None; LastError := ""; LastErrorAt := None;
     LastTestAt := None; LastTestStatus := ""; LastTestError := ""; Metadata := None;
     Status := str_or (Status new) "active"; StatusReason := StatusReason new;
     FingerprintHash := FingerprintHash new; UserAgentHash := UserAgentHash new; IPHash := IPHash new;
     FailureCount := FailureCount new; CircuitOpenUntil := pg <$> CircuitOpenUntil new;
     RateLimitedUntil := pg <$> RateLimitedUntil new; FingerprintProfileID := FingerprintProfileID new;
     LastRefreshError := ""; LastRefreshErrorAt := None |}.

(** [ON CONFLICT ... DO UPDATE], and the upsert of the credential. *)
Definition conflict_row (new old : Account) : Account :=
  {| ID := ID old; Provider := Provider old; AccountType := AccountType old; Subject := Subject old; Name := Name new;
     DisplayName := DisplayName new; BaseURL := BaseURL old;
     Credential := upsert_credential (Some (Credential old)) (Credential new);
     EncryptedAccessToken := EncryptedAccessToken old; EncryptedRefreshToken := EncryptedRefreshToken old;
     EncryptedIDToken := EncryptedIDToken old; AccessTokenExpiresAt := AccessTokenExpiresAt old;
     LastRefreshAt := LastRefreshAt old; Enabled := Enabled old; Priority := Priority old;
     GlobalPriority := GlobalPriority old; RoutingPoolPriority := RoutingPoolPriority old;
     LoadFactor := default1 (LoadFactor new); MaxConcurrentRequests := MaxConcurrentRequests old;
     LastUsedAt := LastUsedAt old; LastError := LastError old; LastErrorAt := LastErrorAt old;
     LastTestAt := LastTestAt old; LastTestStatus := LastTestStatus old; LastTestError := LastTestError old;
     Metadata := Metadata old; Status := Status old; StatusReason := StatusReason old;
     FingerprintHash := FingerprintHash new; UserAgentHash := UserAgentHash new; IPHash := IPHash new;
     FailureCount := FailureCount old; CircuitOpenUntil := CircuitOpenUntil old;
     RateLimitedUntil := RateLimitedUntil old; FingerprintProfileID := FingerprintProfileID old;
     LastRefreshError := LastRefreshError old; LastRefreshErrorAt := LastRefreshErrorAt old |}.

Definition on_row (provider : string) (id : Z) (f : Account → Account) (d : db) : db :=
  set_accounts (map (fun a => if is_row provider id a then f a else a) (accounts d)) d.

(** The transaction of [SaveAccount], on a normalised account: the id saved. *)
Definition save_account (a : Account) (d : db) : result perror Z * db :=
  if bool_decide (0 < ID a) then
    match List.find (is_row (Provider a) (ID a)) (accounts d) with
    | None => (Err ErrNotConnected, d)
    | Some _ =>
        if existsb (fun b => same_key a b && negb (is_row (Provider a) (ID a) b)) (accounts d)
        then (Err (ErrOther "duplicate key value violates unique constraint"), d)
        else (Ok (ID a), on_row (Provider a) (ID a) (update_row a) d)
    end
  else
    match List.find (same_key a) (accounts d) with
    | Some b => (Ok (ID b), on_row (Provider b) (ID b) (conflict_row a) d)
    | None => (Ok (next_account d),
               Build_db (accounts d ++ [insert_row (next_account d) a]) (states d) (test_results d) (next_account d + 1))
    end.

Definition update_oauth_columns (c old : AccountCredential) : AccountCredential :=
  {| CredentialType := CredentialType old; C_EncryptedAccessToken := C_EncryptedAccessToken c;
     C_EncryptedRefreshToken := C_EncryptedRefreshToken c; C_EncryptedIDToken := C_EncryptedIDToken c;
     C_AccessTokenExpiresAt := pg <$> C_AccessTokenExpiresAt c; C_LastRefreshAt := pg <$> C_LastRefreshAt c;
     C_LastRefreshError := C_LastRefreshError c; C_LastRefreshErrorAt := pg <$> C_LastRefreshErrorAt c;
     EncryptedAPIKey := EncryptedAPIKey old; EncryptedProxyURL := EncryptedProxyURL old; C_BaseURL := C_BaseURL old;
     C_Metadata := merge_metadata (C_Metadata old) (C_Metadata c) |}.

Definition if_row {A} (provider : string) (id : Z) (d : db) (done : result perror A * db) : result perror A * db :=
  match List.find (is_row provider id) (accounts d) with Some _ => done | None => (Err ErrNotConnected, d) end.

Definition update_oauth_credential (provider : string) (id : Z) (c : AccountCredential) (d : db) : result perror unit * db :=
  if_row provider id d
    (Ok tt, on_row provider id (fun a => with_credential (update_oauth_columns c (Credential a)) a) d).

Definition with_refresh_error (message : string) (at_ : Time) (c : AccountCredential) : AccountCredential :=
  {| CredentialType := CredentialType c; C_EncryptedAccessToken := C_EncryptedAccessToken c;
     C_EncryptedRefreshToken := C_EncryptedRefreshToken c; C_EncryptedIDToken := C_EncryptedIDToken c;
     C_AccessTokenExpiresAt := C_AccessTokenExpiresAt c; C_LastRefreshAt := C_LastRefreshAt c;
     C_LastRefreshError := message; C_LastRefreshErrorAt := Some (pg at_);
     EncryptedAPIKey := EncryptedAPIKey c; EncryptedProxyURL := EncryptedProxyURL c; C_BaseURL := C_BaseURL c;
     C_Metadata := C_Metadata c |}.

Definition refresh_failed (message : string) (at_ : Time) (openUntil : option Time) (a : Account) : Account :=
  let a := with_credential (with_refresh_error message at_ (Credential a)) a in
  with_status a
    (match openUntil with Some _ => AccountStatusCircuitOpen | None => Status a end)
    (match openUntil with Some _ => message | None => StatusReason a end)
    (LastError a) (LastErrorAt a) (LastUsedAt a) (RateLimitedUntil a)
    (match openUntil with Some t => Some (pg t) | None => CircuitOpenUntil a end) (FailureCount a + 1).

Definition record_refresh_failure (provider : string) (id : Z) (message : string) (at_ : Time) (openUntil : option Time)
    (d : db) : result perror unit * db :=
  if_row provider id d (Ok tt, on_row provider id (refresh_failed message at_ openUntil) d).

Definition with_test (at_ : Time) (status message : string) (a : Account) : Account :=
  {| ID := ID a; Provider := Provider a; AccountType := AccountType a; Subject := Subject a; Name := Name a;
     DisplayName := DisplayName a; BaseURL := BaseURL a; Credential := Credential a;
     EncryptedAccessToken := EncryptedAccessToken a; EncryptedRefreshToken := EncryptedRefreshToken a;
     EncryptedIDToken := EncryptedIDToken a; AccessTokenExpiresAt := AccessTokenExpiresAt a;
     LastRefreshAt := LastRefreshAt a; Enabled := Enabled a; Priority := Priority a;
     GlobalPriority := GlobalPriority a; RoutingPoolPriority := RoutingPoolPriority a;
     LoadFactor := LoadFactor a; MaxConcurrentRequests := MaxConcurrentRequests a;
     LastUsedAt := LastUsedAt a; LastError := LastError a; LastErrorAt := LastErrorAt a;
     LastTestAt := Some (pg at_); LastTestStatus := status; LastTestError := message;
     Metadata := Metadata a; Status := Status a; StatusReason := StatusReason a;
     FingerprintHash := FingerprintHash a; UserAgentHash := UserAgentHash a; IPHash := IPHash a;
     FailureCount := FailureCount a; CircuitOpenUntil := CircuitOpenUntil a;
     RateLimitedUntil := RateLimitedUntil a; FingerprintProfileID := FingerprintProfileID a;
     LastRefreshError := LastRefreshError a; LastRefreshErrorAt := LastRefreshErrorAt a |}.

Definition record_test_result (provider : string) (id : Z) (status message : string) (at_ : Time) (d : db)
  : result perror unit * db :=
  if_row provider id d
    (Ok tt, let d := on_row provider id (with_test at_ status message) d in
            Build_db (accounts d) (states d) (test_results d ++ [(id, status, message, pg at_)]) (next_account d)).

Definition record_account (provider : string) (id : Z) (r : account_record) (d : db) : result perror unit * db :=
  if_row provider id d (Ok tt, on_row provider id (apply_record r) d).

(** The code verifier itself is not a column. *)
Definition stored_state (s : OAuthState) (consumed : option Time) : OAuthState :=
  {| O_Provider := O_Provider s; StateHash := StateHash s; RedirectAfter := RedirectAfter s; ExpiresAt := pg (ExpiresAt s);
     ConsumedAt := consumed; CodeVerifier := ""; EncryptedCodeVerifier := EncryptedCodeVerifier s;
     CodeVerifierHash := CodeVerifierHash s; O_ClientID := O_ClientID s; TargetAccountID := TargetAccountID s;
     PendingAccountName := PendingAccountName s; PendingPriority := PendingPriority s; PendingEnabled := PendingEnabled s;
     PendingFingerprintProfileID := PendingFingerprintProfileID s; O_FingerprintHash := O_FingerprintHash s;
     O_UserAgentHash := O_UserAgentHash s; O_IPHash := O_IPHash s |}.

(** [state_hash] is unique. *)
Definition create_state (s : OAuthState) (d : db) : result perror unit * db :=
  if existsb (fun x => str_eq (StateHash x) (StateHash s)) (states d)
  then (Err (ErrOther "duplicate key value violates unique constraint"), d)
  else (Ok tt, set_states (states d ++ [stored_state s None]) d).

Definition claimable (provider stateHash : string) (now : Time) (s : OAuthState) : bool :=
  str_eq (O_Provider s) provider && str_eq (StateHash s) stateHash && bool_decide (pg now < ExpiresAt s)
  && bool_decide (ConsumedAt s = None).

Definition claim_state (provider stateHash : string) (now : Time) (d : db) : result perror OAuthState * db :=
  match List.find (claimable provider stateHash now) (states d) with
  | None => (Err ErrInvalidState, d)
  | Some s => (Ok (stored_state s (Some (pg now))),
               set_states (map (fun x => if claimable provider stateHash now x then stored_state x (Some (pg now)) else x)
                             (states d)) d)
  end.

(** ** The calls of the service *)

(** A status probe's answer. *)
Record probeResult := { statusCode : Z; retryAfter : string; probe_message : string }.

Inductive cmd : Set → Type :=
| Now : cmd Time
| LockRefresh (id : Z) : cmd unit
| UnlockRefresh (id : Z) : cmd unit
| EncryptString (kind value : string) : cmd (result perror string)
| DecryptString (kind value : string) : cmd (result perror string)
| GenerateToken (prefix : string) : cmd (result perror string)
| GenerateCodeVerifier : cmd (result perror string)
| ExchangeCode (clientID codeVerifier code : string) : cmd (result perror TokenResponse)
| CallRefreshToken (proxyURL refreshToken : string) : cmd (result perror TokenResponse)
| ProbeAccountStatus (chatGPTAccountID proxyURL accessToken : string) : cmd (result perror probeResult)
| FindAccountByID (id : Z) : cmd (result perror Account)
| FindAccountByIdentity (i : AccountIdentities) : cmd (result perror Account)
| SaveAccountTx (a : Account) : cmd (result perror Z)
| UpdateOAuthCredential (id : Z) (c : AccountCredential) : cmd (result perror unit)
| RecordRefreshFailure (id : Z) (message : string) (at_ : Time) (openUntil : option Time) : cmd (result perror unit)
| RecordOAuthRefreshFailureEvent (id : Z) : cmd (result perror unit)
| RecordAccountTestResult (id : Z) (status message : string) (at_ : Time) : cmd (result perror unit)
| RecordAccount (id : Z) (r : account_record) : cmd (result perror unit)
| CreateState (s : OAuthState) : cmd (result perror unit)
| ClaimState (stateHash : string) (now : Time) : cmd (result perror OAuthState)
| FindFingerprintProfileByID (id : Z) : cmd (result perror unit)
| EnsureDefaultCodexFingerprintProfile : cmd (result perror Z)
| InvalidateOAuthModelCatalog (id : Z) : cmd unit
| ObserveProviderRefresh (mode outcome : string) : cmd unit.

Abbreviation P := (prog cmd).

Definition call {R : Set} (c : cmd R) : P R := Vis c Ret.

(** [value, err := c; if err != nil { return err }] *)
Definition try {A : Set} {B : Type} (c : P (result perror A)) (k : A → P (result perror B)) : P (result perror B) :=
  let! r := c in match r with Ok a => k a | Err e => Ret (Err e) end.

(** [return fmt.Errorf(prefix: %w, err)] *)
Definition try_wrap {A : Set} {B : Type} (prefix : string) (c : P (result perror A)) (k : A → P (result perror B))
  : P (result perror B) :=
  let! r := c in match r with Ok a => k a | Err e => Ret (Err (ErrWrap prefix e)) end.

Section service.
Context (cfg : Config) (StateTTL RefreshWindow : Duration) (has_prober records_diagnostics : bool).
(** SHA-256 in hexadecimal and in base64, [url.Parse] of the authorization
    address, reason phrases and dates of HTTP. *)
Context (sha256 : string → string) (codeChallengeS256 : string → string) (url_parses : string → bool).
Context (ParseTime : string → option Time) (StatusText : Z → string).

Definition encryptString (kind value : string) : P (result perror string) := call (EncryptString kind value).
Definition decryptString (kind value : string) : P (result perror string) := call (DecryptString kind value).

Definition lockAccountRefresh (id : Z) : P unit := call (LockRefresh id).

(** *** Repository methods and small helpers *)

Definition SaveAccount (a : Account) : P (result perror Account) :=
  let a := normalizeAccountForSave a in
  try (call (SaveAccountTx a)) (fun id => call (FindAccountByID id)).

Definition invalidateOAuthModelCatalog (id : Z) : P unit :=
  if bool_decide (id ≤ 0) then Ret tt else call (InvalidateOAuthModelCatalog id).

Definition accountProxyURL (a : Account) : P (result perror string) :=
  let a := normalizeAccountCredentialFields a in
  if blank (EncryptedProxyURL (Credential a)) then Ret (Ok "")
  else try_wrap "decrypt account proxy" (decryptString Secrets.SecretKindProviderProxyURL (EncryptedProxyURL (Credential a)))
         (fun u => Ret (Ok (TrimSpace u))).

(** [time.Now().Add(time.Duration(n) * time.Second)] *)
Definition expiry (t : TokenResponse) : P (option Time) :=
  if bool_decide (0 < ExpiresIn t)
  then let! now := call Now in Ret (Some (now + wrap64 (ExpiresIn t * Second))) else Ret None.

Definition last_refresh (previous : option Account) : P (option Time) :=
  match previous with Some _ => let! now := call Now in Ret (Some now) | None => Ret None end.

(** The refresh token to keep: the response's, or the one there was. *)
Definition kept_refresh_token (t : TokenResponse) (previous : option Account) : P (result perror string) :=
  match previous with
  | Some a => if str_eq (RefreshToken t) ""
              then decryptString Secrets.SecretKindOAuthRefreshToken (EncryptedRefreshToken a)
              else Ret (Ok (RefreshToken t))
  | None => Ret (Ok (RefreshToken t))
  end.

Definition account_subject (subject : string) : P (result perror string) :=
  if blank subject then try_wrap "generate local account subject" (call (GenerateToken "local_acct")) (fun s => Ret (Ok s))
  else Ret (Ok subject).

Definition id_token (t : TokenResponse) (previous : option Account) : P (result perror string) :=
  if negb (blank (IDToken t))
  then try_wrap "encrypt id token" (encryptString Secrets.SecretKindOAuthIDToken (IDToken t)) (fun s => Ret (Ok s))
  else Ret (Ok (match previous with Some a => EncryptedIDToken a | None => "" end)).

(** The [Account] literal both ways of storing tokens build. *)
Definition oauth_account (t : TokenResponse) (previous : option Account) (subject displayName name : string)
    (access refresh idt : string) (expiresAt lastRefreshAt : option Time) (fingerprint userAgent ip : string) : Account :=
  {| ID := previousID previous; Provider := CfgProvider cfg; AccountType := AccountTypeCodexOAuth; Subject := subject;
     Name := name; DisplayName := displayName; BaseURL := "";
     Credential := {|
       CredentialType := CredentialTypeOAuthToken; C_EncryptedAccessToken := access; C_EncryptedRefreshToken := refresh;
       C_EncryptedIDToken := idt; C_AccessTokenExpiresAt := expiresAt; C_LastRefreshAt := lastRefreshAt;
       C_LastRefreshError := ""; C_LastRefreshErrorAt := None; EncryptedAPIKey := ""; EncryptedProxyURL := "";
       C_BaseURL := ""; C_Metadata := tokenMetadata sha256 t previous |};
     EncryptedAccessToken := access; EncryptedRefreshToken := refresh; EncryptedIDToken := idt;
     AccessTokenExpiresAt := expiresAt; LastRefreshAt := lastRefreshAt; Enabled := previousEnabled previous;
     Priority := previousPriority previous; GlobalPriority := 0; RoutingPoolPriority := None; LoadFactor := 0;
     MaxConcurrentRequests := 0; LastUsedAt := None; LastError := ""; LastErrorAt := None; LastTestAt := None;
     LastTestStatus := ""; LastTestError := ""; Metadata := tokenMetadata sha256 t previous;
     Status := AccountStatusActive; StatusReason := ""; FingerprintHash := fingerprint; UserAgentHash := userAgent;
     IPHash := ip; FailureCount := 0; CircuitOpenUntil := None; RateLimitedUntil := None; FingerprintProfileID := None;
     LastRefreshError := ""; LastRefreshErrorAt := None |}.

(** *** Storing tokens *)

Definition storeTokenResponseWithMode (t : TokenResponse) (previous : option Account) (credentialOnly : bool)
  : P (result perror Account) :=
  if blank (AccessToken t) then Ret (Err (ErrOther "oauth token response missing access token")) else
  let t := enrichTokenResponseFromIDToken t in
  let subject := if blank (T_Subject t) then T_AccountID t else T_Subject t in
  let displayName := if blank (T_DisplayName t) then valueOrDefault (Email t) (T_AccountID t) else T_DisplayName t in
  let subject := match previous with Some a => Subject a | None => subject end in
  let displayName := match previous with Some a => valueOrDefault displayName (DisplayName a) | None => displayName end in
  try (kept_refresh_token t previous) (fun refreshToken =>
  try (account_subject subject) (fun subject =>
  if blank refreshToken then Ret (Err (ErrOther "oauth token response missing refresh token")) else
  try_wrap "encrypt access token" (encryptString Secrets.SecretKindOAuthAccessToken (AccessToken t)) (fun access =>
  try_wrap "encrypt refresh token" (encryptString Secrets.SecretKindOAuthRefreshToken refreshToken) (fun refresh =>
  try (id_token t previous) (fun idt =>
  let! expiresAt := expiry t in
  let! lastRefreshAt := last_refresh previous in
  let account := oauth_account t previous subject displayName (previousName previous) access refresh idt expiresAt
                   lastRefreshAt (previousFingerprintHash previous) (previousUserAgentHash previous)
                   (previousIPHash previous) in
  if credentialOnly then
    match previous with
    | Some a =>
        if bool_decide (ID a ≤ 0) then Ret (Err ErrInvalidInput)
        else
          invalidateOAuthModelCatalog (ID a) ;;
          try (call (UpdateOAuthCredential (ID a) (Credential account))) (fun _ => call (FindAccountByID (ID a)))
    | None => Ret (Err ErrInvalidInput)
    end
  else
    (if bool_decide (0 < ID account) then invalidateOAuthModelCatalog (ID account) else Ret tt) ;;
    try (SaveAccount account) (fun saved =>
    (if bool_decide (ID saved = ID account) then Ret tt else invalidateOAuthModelCatalog (ID saved)) ;;
    Ret (Ok saved))))))).

Definition storeTokenResponse (t : TokenResponse) (previous : option Account) : P (result perror Account) :=
  storeTokenResponseWithMode t previous (match previous with Some _ => true | None => false end).

Definition storeTokenResponseForDiagnostic (t : TokenResponse) (previous : option Account) : P (result perror Account) :=
  storeTokenResponseWithMode t previous true.

Definition accountFromTokenResponse (t : TokenResponse) (previous : option Account) : P (result perror Account) :=
  if blank (AccessToken t) then Ret (Err (ErrOther "oauth token response missing access token")) else
  let t := enrichTokenResponseFromIDToken t in
  let subject := if blank (T_Subject t) then firstNonEmpty [T_AccountID t; Email t] else T_Subject t in
  let displayName := if blank (T_DisplayName t) then firstNonEmpty [Email t; T_AccountID t; subject] else T_DisplayName t in
  let displayName := match previous with Some a => valueOrDefault displayName (DisplayName a) | None => displayName end in
  let subject := match previous with Some a => Subject a | None => subject end in
  try (kept_refresh_token t previous) (fun refreshToken =>
  try (account_subject subject) (fun subject =>
  if blank refreshToken then Ret (Err (ErrOther "oauth token response missing refresh token")) else
  try_wrap "encrypt access token" (encryptString Secrets.SecretKindOAuthAccessToken (AccessToken t)) (fun access =>
  try_wrap "encrypt refresh token" (encryptString Secrets.SecretKindOAuthRefreshToken refreshToken) (fun refresh =>
  try (id_token t previous) (fun idt =>
  let! expiresAt := expiry t in
  let! lastRefreshAt := last_refresh previous in
  Ret (Ok (oauth_account t previous subject displayName (previousName previous) access refresh idt expiresAt
             lastRefreshAt "" "" ""))))))).
(** *** The callback *)

Definition applyOAuthStateToAccount (a : Account) (state : OAuthState) (previous : option Account) : Account :=
  let pick {X : Type} (x : X) (f : Account → X) : X := match previous with Some p => f p | None => x end in
  let applies := match previous with None => true | Some _ => bool_decide (0 < TargetAccountID state) end in
  let name := pick (Name a) Name in
  let name := if negb (blank (PendingAccountName state)) && applies then TrimSpace (PendingAccountName state) else name in
  let priority := pick (Priority a) Priority in
  let priority := if bool_decide (0 < PendingPriority state) && applies then PendingPriority state else priority in
  let enabled := pick (Enabled a) Enabled in
  let enabled := match PendingEnabled state with Some e => if applies then e else enabled | None => enabled end in
  let profile := pick (FingerprintProfileID a) FingerprintProfileID in
  let profile := match PendingFingerprintProfileID state with Some i => if applies then Some i else profile | None => profile end in
  let is_new := match previous with None => true | Some _ => false end in
  let priority := if is_new && bool_decide (priority = 0) then 100 else priority in
  let name := if is_new && str_eq name "" then firstNonEmpty [DisplayName a; Subject a] else name in
  {| ID := ID a; Provider := Provider a; AccountType := AccountType a; Subject := Subject a; Name := name;
     DisplayName := DisplayName a; BaseURL := BaseURL a; Credential := Credential a;
     EncryptedAccessToken := EncryptedAccessToken a; EncryptedRefreshToken := EncryptedRefreshToken a;
     EncryptedIDToken := EncryptedIDToken a; AccessTokenExpiresAt := AccessTokenExpiresAt a;
     LastRefreshAt := LastRefreshAt a; Enabled := enabled; Priority := priority;
     GlobalPriority := GlobalPriority a; RoutingPoolPriority := RoutingPoolPriority a;
     LoadFactor := LoadFactor a; MaxConcurrentRequests := MaxConcurrentRequests a;
     LastUsedAt := LastUsedAt a; LastError := LastError a; LastErrorAt := LastErrorAt a;
     LastTestAt := LastTestAt a; LastTestStatus := LastTestStatus a; LastTestError := LastTestError a;
     Metadata := Metadata a; Status := AccountStatusActive; StatusReason := "";
     FingerprintHash := str_or (O_FingerprintHash state) (pick (FingerprintHash a) FingerprintHash);
     UserAgentHash := str_or (O_UserAgentHash state) (pick (UserAgentHash a) UserAgentHash);
     IPHash := str_or (O_IPHash state) (pick (IPHash a) IPHash);
     FailureCount := 0; CircuitOpenUntil := None; RateLimitedUntil := RateLimitedUntil a; FingerprintProfileID := profile;
     LastRefreshError := ""; LastRefreshErrorAt := None |}.

(** The account the tokens belong to, if there is one. *)
Definition callback_account (state : OAuthState) (identities : AccountIdentities) : P (result perror (option Account)) :=
  if bool_decide (0 < TargetAccountID state)
  then try (call (FindAccountByID (TargetAccountID state))) (fun a => Ret (Ok (Some a)))
  else
    let! r := call (FindAccountByIdentity identities) in
    match r with
    | Ok a => Ret (Ok (Some a))
    | Err e => if is_err e ErrNotConnected then Ret (Ok None) else Ret (Err e)
    end.

Definition storeCallbackTokenResponse (t : TokenResponse) (state : OAuthState) : P (result perror Account) :=
  let t := enrichTokenResponseFromIDToken t in
  let identities := identitiesFromTokenResponse t in
  try (callback_account state identities) (fun previous =>
  try (accountFromTokenResponse t previous) (fun account =>
  let account := applyOAuthStateToAccount account state previous in
  (if bool_decide (0 < ID account) then invalidateOAuthModelCatalog (ID account) else Ret tt) ;;
  try (SaveAccount account) (fun saved =>
  (if bool_decide (ID saved = ID account) then Ret tt else invalidateOAuthModelCatalog (ID saved)) ;;
  Ret (Ok saved)))).

(** The verifier of a claimed state, checked against its hash. *)
Definition claimed_verifier (claimed : OAuthState) : P (result perror string) :=
  let v := TrimSpace (CodeVerifier claimed) in
  let! r := if str_eq v "" then decryptString Secrets.SecretKindOAuthCodeVerifier (EncryptedCodeVerifier claimed)
            else Ret (Ok v) in
  match r with
  | Err _ => Ret (Err ErrInvalidState)
  | Ok v => if negb (blank (CodeVerifierHash claimed)) && negb (str_eq (sha256 v) (CodeVerifierHash claimed))
            then Ret (Err ErrInvalidState) else Ret (Ok v)
  end.

Definition CompleteCallback (code state : string) : P (result perror Account) :=
  let code := TrimSpace code in
  let state := TrimSpace state in
  if str_eq code "" || str_eq state "" then Ret (Err ErrInvalidState)
  else if negb (Configured cfg) then Ret (Err ErrNotConfigured)
  else
    let! now := call Now in
    let! r := call (ClaimState (sha256 state) now) in
    match r with
    | Err e => Ret (Err (if is_err e ErrInvalidState then ErrInvalidState else e))
    | Ok claimed =>
        try (claimed_verifier claimed) (fun codeVerifier =>
        let clientID := if blank (O_ClientID claimed) then ClientID cfg else O_ClientID claimed in
        try (call (ExchangeCode clientID codeVerifier code)) (fun tokens => storeCallbackTokenResponse tokens claimed))
    end.

(** *** Starting a connection *)

Definition defaultOpenAIOAuthScopes : string := "openid profile email offline_access".

(** The authorization address with the parameters set on it. *)
Record authorization_url := { base : string; query : list (string * string) }.

Definition connect_profile (o : ConnectOptions) : P (result perror Z) :=
  match Opt_FingerprintProfileID o with
  | Some i =>
      if bool_decide (i ≤ 0) then Ret (Err ErrInvalidInput)
      else let! r := call (FindFingerprintProfileByID i) in
           match r with Ok _ => Ret (Ok i) | Err _ => Ret (Err ErrInvalidInput) end
  | None => try_wrap "ensure default fingerprint profile" (call EnsureDefaultCodexFingerprintProfile) (fun i => Ret (Ok i))
  end.

Definition StartConnect (o : ConnectOptions) : P (result perror authorization_url) :=
  if negb (Configured cfg) then Ret (Err ErrNotConfigured) else
  let redirectAfter := if blank (Opt_RedirectAfter o) then "/" else Opt_RedirectAfter o in
  try (connect_profile o) (fun profile =>
  try_wrap "generate oauth state" (call (GenerateToken "oauth_state")) (fun state =>
  try_wrap "generate code verifier" (call GenerateCodeVerifier) (fun codeVerifier =>
  let codeChallenge := codeChallengeS256 codeVerifier in
  try_wrap "encrypt code verifier" (encryptString Secrets.SecretKindOAuthCodeVerifier codeVerifier) (fun encrypted =>
  let! now := call Now in
  try (call (CreateState {|
    O_Provider := CfgProvider cfg; StateHash := sha256 state; RedirectAfter := redirectAfter;
    ExpiresAt := now + StateTTL; ConsumedAt := None; CodeVerifier := codeVerifier; EncryptedCodeVerifier := encrypted;
    CodeVerifierHash := sha256 codeVerifier; O_ClientID := ClientID cfg; TargetAccountID := Opt_TargetAccountID o;
    PendingAccountName := TrimSpace (Opt_Name o); PendingPriority := Opt_Priority o; PendingEnabled := Opt_Enabled o;
    PendingFingerprintProfileID := Some profile;
    O_FingerprintHash := hashOptional sha256 (F_Value (Opt_Fingerprint o));
    O_UserAgentHash := hashOptional sha256 (F_UserAgent (Opt_Fingerprint o));
    O_IPHash := hashOptional sha256 (F_IP (Opt_Fingerprint o)) |})) (fun _ =>
  if negb (url_parses (AuthURL cfg)) then Ret (Err (ErrOther "parse oauth authorization url"))
  else Ret (Ok {| base := AuthURL cfg; query :=
    [("response_type", "code"); ("client_id", ClientID cfg); ("redirect_uri", RedirectURL cfg);
     ("scope", defaultOpenAIOAuthScopes); ("state", state); ("code_challenge", codeChallenge);
     ("code_challenge_method", "S256"); ("id_token_add_organizations", "true");
     ("codex_cli_simplified_flow", "true")] |})))))).
(** *** Refreshing tokens *)

(** [now] and the end of the circuit to open at the third failure. *)
Definition refresh_circuit (failureCount : Z) (now : Time) : option Time :=
  if bool_decide (refreshFailureCircuitThreshold ≤ failureCount + 1) then Some (now + defaultCircuitOpen) else None.

(** The access token, whether a failure was recorded, and the error. *)
Definition refreshAccessTokenLocked (a : Account) (recordRefreshFailure : bool) : P (string * bool * option perror) :=
  let a := normalizeAccountCredentialFields a in
  let! r := decryptString Secrets.SecretKindOAuthRefreshToken (EncryptedRefreshToken a) in
  match r with
  | Err e => Ret ("", false, Some e)
  | Ok refreshToken =>
  let! r := accountProxyURL a in
  match r with
  | Err e => Ret ("", false, Some e)
  | Ok proxyURL =>
  let! r := call (CallRefreshToken proxyURL refreshToken) in
  match r with
  | Err e =>
      if recordRefreshFailure && bool_decide (0 < ID a) then
        let! now := call Now in
        let! r := call (RecordRefreshFailure (ID a) (error_text e) now (refresh_circuit (FailureCount a) now)) in
        match r with Err markErr => Ret ("", false, Some markErr) | Ok _ => Ret ("", true, Some e) end
      else if bool_decide (0 < ID a) && records_diagnostics then
        let! r := call (RecordOAuthRefreshFailureEvent (ID a)) in
        match r with Err recordErr => Ret ("", false, Some recordErr) | Ok _ => Ret ("", false, Some e) end
      else Ret ("", false, Some e)
  | Ok tokens =>
  let! r := if recordRefreshFailure then storeTokenResponse tokens (Some a) else storeTokenResponseForDiagnostic tokens (Some a) in
  match r with
  | Err e => Ret ("", false, Some e)
  | Ok refreshed =>
  let! r := decryptString Secrets.SecretKindOAuthAccessToken (EncryptedAccessToken refreshed) in
  match r with Ok token => Ret (token, false, None) | Err e => Ret ("", false, Some e) end
  end end end end.

(** Whether the access token can still be used for a while. *)
Definition fresh_enough (expiresAt : option Time) (now : Time) : bool :=
  match expiresAt with None => true | Some t => time_after t (now + RefreshWindow) end.

Definition token_result (r : string * bool * option perror) : result perror string :=
  match r with (token, _, None) => Ok token | (_, _, Some e) => Err e end.

(** The clock is read only when there is an expiry. *)
Definition usable (a : Account) : P bool :=
  match AccessTokenExpiresAt a with
  | None => Ret true
  | Some t => let! now := call Now in Ret (fresh_enough (Some t) now)
  end.

(** The part under the account's lock, with the outcome to observe. *)
Definition locked_access_token (a : Account) (recordRefreshFailure : bool) : P (result perror string * string) :=
  let! r := call (FindAccountByID (ID a)) in
  match r with
  | Err e => Ret (Err e, "failure")
  | Ok latest =>
      let latest := normalizeAccountCredentialFields latest in
      let! ok := usable latest in
      if ok then
        let! t := decryptString Secrets.SecretKindOAuthAccessToken (EncryptedAccessToken latest) in Ret (t, "skipped")
      else
        let! r := refreshAccessTokenLocked latest recordRefreshFailure in
        Ret (token_result r, match token_result r with Ok _ => "success" | Err _ => "failure" end)
  end.

Definition accessTokenForAccount (a : Account) (recordRefreshFailure : bool) : P (result perror string) :=
  let a := normalizeAccountCredentialFields a in
  let! ok := usable a in
  if ok then decryptString Secrets.SecretKindOAuthAccessToken (EncryptedAccessToken a)
  else if bool_decide (0 < ID a) then
    lockAccountRefresh (ID a) ;;
    let! (r, outcome) := locked_access_token a recordRefreshFailure in
    call (UnlockRefresh (ID a)) ;;
    call (ObserveProviderRefresh "automatic" outcome) ;;
    Ret r
  else
    let! r := refreshAccessTokenLocked a recordRefreshFailure in
    call (ObserveProviderRefresh "automatic" (match token_result r with Ok _ => "success" | Err _ => "failure" end)) ;;
    Ret (token_result r).

Definition AccessTokenForAccount (a : Account) : P (result perror string) := accessTokenForAccount a true.

(** Access token, whether to retry, whether a failure was recorded, the error. *)
Abbreviation authorization := (string * bool * bool * option perror)%type.

Definition locked_authorization (accountID : Z) (rejected : string) : P (authorization * string) :=
  let! r := call (FindAccountByID accountID) in
  match r with
  | Err e => Ret (("", false, false, Some e), "failure")
  | Ok a =>
      let a := normalizeAccountCredentialFields a in
      let accountType := if blank (AccountType a) then AccountTypeCodexOAuth else TrimSpace (AccountType a) in
      if negb (str_eq accountType AccountTypeCodexOAuth) then Ret (("", false, false, None), "skipped")
      else
        let! r := decryptString Secrets.SecretKindOAuthAccessToken (EncryptedAccessToken a) in
        match r with
        | Err e => Ret (("", true, false, Some e), "failure")
        | Ok current =>
            if negb (str_eq current rejected) then Ret ((current, true, false, None), "skipped")
            else
              let! (token, recorded, err) := refreshAccessTokenLocked a true in
              Ret ((token, true, recorded, err), match err with Some _ => "failure" | None => "success" end)
        end
  end.

Definition RefreshAccountAuthorization (accountID : Z) (rejected : string) (status : Z) (message : string)
  : P authorization :=
  if bool_decide (accountID ≤ 0) || str_eq rejected "" then Ret ("", false, false, Some ErrInvalidInput)
  else if (negb (bool_decide (status = 401)) && negb (bool_decide (status = 403)))
          || (bool_decide (status = 403) && isEndpointPermissionError message) then
    call (ObserveProviderRefresh "rejected_token" "skipped") ;; Ret ("", false, false, None)
  else
    lockAccountRefresh accountID ;;
    let! (r, outcome) := locked_authorization accountID rejected in
    call (UnlockRefresh accountID) ;;
    call (ObserveProviderRefresh "rejected_token" outcome) ;;
    Ret r.

(** *** The manual refresh and its probe *)

Definition isSuccessfulAccountStatus (code : Z) : bool := bool_decide (200 ≤ code < 300).

Definition recordAccountTestResult (a : Account) (status message : string) (at_ : Time) : P (result perror unit) :=
  call (RecordAccountTestResult (ID a) status message at_).

Definition record_failure (id code : Z) (retryAfter message : string) : P (result perror unit) :=
  if bool_decide (id ≤ 0) then Ret (Err ErrInvalidInput)
  else
    let! now := call Now in
    match RecordAccountFailure ParseTime StatusText id code retryAfter message now with
    | Ok r => call (RecordAccount id r)
    | Err e => Ret (Err e)
    end.

Definition probeLatestAccountStatus (a : Account) (accessToken : string) : P (result perror Account) :=
  if negb has_prober || blank accessToken then Ret (Ok a)
  else
    let! r := accountProxyURL a in
    match r with
    | Err _ => Ret (Ok a)
    | Ok proxyURL =>
        let! r := call (ProbeAccountStatus (TrimSpace (meta_get (Metadata a) "chatgpt_account_id")) proxyURL accessToken) in
        match r with
        | Err e =>
            let! now := call Now in
            try (recordAccountTestResult a AccountTestStatusFailed (error_text e) now) (fun _ => call (FindAccountByID (ID a)))
        | Ok result =>
            if negb (isSuccessfulAccountStatus (statusCode result)) then
              let message := if blank (probe_message result) then StatusText (statusCode result) else TrimSpace (probe_message result) in
              let! now := call Now in
              try (recordAccountTestResult a AccountTestStatusFailed message now) (fun _ =>
              try (record_failure (ID a) (statusCode result) (retryAfter result) (probe_message result)) (fun _ =>
              call (FindAccountByID (ID a))))
            else
              let! now := call Now in
              try (recordAccountTestResult a AccountTestStatusPassed "" now) (fun _ =>
              try (if bool_decide (ID a ≤ 0) then Ret (Err ErrInvalidInput) else call (RecordAccount (ID a) ClearStatus)) (fun _ =>
              call (FindAccountByID (ID a))))
        end
    end.

(** The part under the lock. *)
Definition locked_refresh (id : Z) : P (result perror Account * string) :=
  let! r := call (FindAccountByID id) in
  match r with
  | Err e => Ret (Err e, "failure")
  | Ok a =>
  if str_eq (TrimSpace (AccountType a)) AccountTypeAPIUpstream then Ret (Err ErrInvalidInput, "skipped") else
  let! r := decryptString Secrets.SecretKindOAuthRefreshToken (EncryptedRefreshToken a) in
  match r with
  | Err e => Ret (Err e, "failure")
  | Ok refreshToken =>
  let! r := accountProxyURL a in
  match r with
  | Err e => Ret (Err e, "failure")
  | Ok proxyURL =>
  let! r := call (CallRefreshToken proxyURL refreshToken) in
  match r with
  | Err e =>
      let! now := call Now in
      let! r := call (RecordRefreshFailure (ID a) (error_text e) now (refresh_circuit (FailureCount a) now)) in
      match r with Err markErr => Ret (Err markErr, "failure") | Ok _ => Ret (Err e, "failure") end
  | Ok tokens =>
  let! r := storeTokenResponse tokens (Some a) in
  match r with
  | Err e => Ret (Err e, "failure")
  | Ok refreshed => let! r := probeLatestAccountStatus refreshed (AccessToken tokens) in Ret (r, "success")
  end end end end end.

Definition RefreshAccount (id : Z) : P (result perror Account) :=
  if bool_decide (id ≤ 0) then Ret (Err ErrInvalidInput)
  else
    lockAccountRefresh id ;;
    let! (r, outcome) := locked_refresh id in
    call (UnlockRefresh id) ;;
    call (ObserveProviderRefresh "manual" outcome) ;;
    Ret r.
End service.
End OAuth.
