(* ===== verification/OAuthLock.v ===== *)
(** * Refresh tokens under concurrency

    An OAuth server may rotate refresh tokens: a refresh answers with a new
    token and the old one must not be sent again.  Requests, manual refreshes
    and rejected tokens refresh accounts side by side; the account's refresh
    lock keeps them from sending a token that another has just used up.

    The state of the world is the database, the locks, and the server's view of
    the tokens it issued; what is in flight between the server's answer and the
    database, and what got lost there, is kept as bookkeeping. *)

From S2P Require Import Prelude GoStrings Effects Concurrency Account Scheduling Secrets OAuth.
From Stdlib Require Import Ascii.

Module OAuthLock.
Import Account OAuth.

Record world := {
  data : db;
  held : gmap Z nat;                       (** the holder of an account's lock *)
  issued : gset string;                    (** refresh tokens the server has issued *)
  spent : gset string;                     (** and rotated out *)
  inflight : gmap nat (string * string);   (** rotated by a program, not yet stored *)
  lost : gset string;                      (** rotated, but the successor never stored *)
  replayed : gset string                   (** sent after having been rotated out *)
}.

Definition set_data (d : db) (w : world) : world :=
  Build_world d (held w) (issued w) (spent w) (inflight w) (lost w) (replayed w).
Definition set_held (h : gmap Z nat) (w : world) : world :=
  Build_world (data w) h (issued w) (spent w) (inflight w) (lost w) (replayed w).
Definition set_inflight (f : gmap nat (string * string)) (w : world) : world :=
  Build_world (data w) (held w) (issued w) (spent w) f (lost w) (replayed w).
Definition add_lost (t : string) (w : world) : world :=
  Build_world (data w) (held w) (issued w) (spent w) (inflight w) ({[t]} ∪ lost w) (replayed w).

Section lock.
Context (provider : string).
(** What a ciphertext of a kind decrypts to. *)
Context (opens : string → string → option string).

Definition refresh_of (c : AccountCredential) : option string :=
  opens Secrets.SecretKindOAuthRefreshToken (C_EncryptedRefreshToken c).

(** The refresh token stored for each account. *)
Definition rows (w : world) : list (Z * option string) :=
  map (fun a => (ID a, refresh_of (Credential a))) (accounts (data w)).

(** ** What the calls do *)

(** A transaction that would end as [done] does so, or it fails with an error,
    which may be that of a commit that was made. *)
Definition db_step {A} (done : result perror A * db) (w : world) (r : result perror A) (w' : world) : Prop :=
  ∃ d, w' = set_data d w ∧ ((r, d) = done ∨ ∃ e, r = Err e ∧ (d = data w ∨ d = done.2)).

(** The server got the token. *)
Definition sent (token : string) (w : world) : world :=
  Build_world (data w) (held w) (issued w) (spent w) (inflight w) (lost w)
    (if bool_decide (token ∈ spent w) then {[token]} ∪ replayed w else replayed w).

(** It rotates the token, and its answer does not arrive. *)
Definition rotated_unheard (token : string) (w : world) : world :=
  Build_world (data w) (held w) (issued w) ({[token]} ∪ spent w) (inflight w) ({[token]} ∪ lost w) (replayed w).

(** It rotates the token for a new one. *)
Definition rotated (i : nat) (token new : string) (w : world) : world :=
  Build_world (data w) (held w) ({[new]} ∪ issued w) ({[token]} ∪ spent w) (<[i := (token, new)]> (inflight w))
    (lost w) (replayed w).

Definition refresh_step (i : nat) (token : string) (w : world) (r : result perror TokenResponse) (w' : world) : Prop :=
  (∃ e, r = Err e ∧ w' = sent token w) ∨
  (∃ e, r = Err e ∧ token ∉ spent w ∧ w' = rotated_unheard token (sent token w)) ∨
  (∃ t, r = Ok t ∧ token ∉ spent w ∧ RefreshToken t = "" ∧ w' = sent token w) ∨
  (∃ t, r = Ok t ∧ token ∉ spent w ∧ RefreshToken t ≠ "" ∧ RefreshToken t ∉ issued w ∧
        w' = rotated i token (RefreshToken t) (sent token w)).

(** The new credential is in the database: nothing of it is in flight. *)
Definition stored (i : nat) (c : AccountCredential) (w : world) : world :=
  match inflight w !! i with
  | Some (_, new) => if bool_decide (refresh_of c = Some new) then set_inflight (delete i (inflight w)) w else w
  | None => w
  end.

Definition update_step (i : nat) (id : Z) (c : AccountCredential) (w : world) (r : result perror unit) (w' : world) : Prop :=
  let '(answer, d) := update_oauth_credential provider id c (data w) in
  match answer with
  | Ok _ => let committed := w' = stored i c (set_data d w) in
            (r = Ok tt ∧ committed) ∨ (∃ e, r = Err e ∧ (w' = w ∨ committed))
  | Err e => (∃ e', r = Err e') ∧ w' = w
  end.

Definition unlocked (i : nat) (id : Z) (w : world) : world :=
  let w := set_held (delete id (held w)) w in
  match inflight w !! i with
  | Some (old, _) => add_lost old (set_inflight (delete i (inflight w)) w)
  | None => w
  end.

Definition acts (i : nat) (R : Set) (c : cmd R) : world → R → world → Prop :=
  match c in cmd R return world → R → world → Prop with
  | LockRefresh id => fun w _ w' => held w !! id = None ∧ w' = set_held (<[id := i]> (held w)) w
  | UnlockRefresh id => fun w _ w' => held w !! id = Some i ∧ w' = unlocked i id w
  | EncryptString kind v => fun w r w' => w' = w ∧ ∀ s, r = Ok s → opens kind s = Some v
  | DecryptString kind s => fun w r w' => w' = w ∧ ∀ v, r = Ok v → opens kind s = Some v
  | CallRefreshToken _ token => refresh_step i token
  | UpdateOAuthCredential id c => update_step i id c
  | FindAccountByID id => fun w r w' => w' = w ∧ (r = find_account provider id (data w) ∨ ∃ e, r = Err e)
  | RecordRefreshFailure id m t o => fun w => db_step (record_refresh_failure provider id m t o (data w)) w
  | RecordAccountTestResult id st m t => fun w => db_step (record_test_result provider id st m t (data w)) w
  | RecordAccount id rec => fun w => db_step (record_account provider id rec (data w)) w
  | SaveAccountTx a => fun w => db_step (save_account a (data w)) w
  | CreateState s => fun w => db_step (create_state s (data w)) w
  | ClaimState h t => fun w => db_step (claim_state provider h t (data w)) w
  | FindAccountByIdentity x => fun w r w' => w' = w ∧ (r = find_by_identity provider x (data w) ∨ ∃ e, r = Err e)
  | _ => fun w _ w' => w' = w
  end.

(** ** The invariant *)

Record Inv (w : world) : Prop := {
  ids_unique : NoDup (rows w).*1;
  tokens_issued : ∀ id t, (id, Some t) ∈ rows w → t ∈ issued w;
  tokens_distinct : ∀ id id' t, (id, Some t) ∈ rows w → (id', Some t) ∈ rows w → id = id';
  (** a stored token that was rotated out is being replaced, or its successor was lost *)
  spent_replaced : ∀ id t, (id, Some t) ∈ rows w → t ∈ spent w →
    t ∈ lost w ∨ ∃ i n, held w !! id = Some i ∧ inflight w !! i = Some (t, n);
  spent_issued : spent w ⊆ issued w;
  inflight_fresh : ∀ i o n, inflight w !! i = Some (o, n) → n ∈ issued w ∧ n ∉ spent w ∧ ∀ id, (id, Some n) ∉ rows w;
  inflight_distinct : ∀ i j o o' n, inflight w !! i = Some (o, n) → inflight w !! j = Some (o', n) → i = j;
  inflight_held : ∀ i x, inflight w !! i = Some x → ∃ id, held w !! id = Some i;
  one_lock : ∀ i id id', held w !! id = Some i → held w !! id' = Some i → id = id';
  replays_lost : replayed w ⊆ lost w
}.

(** What a program relies on: its locks, what it has in flight, and the tokens
    of the accounts it has locked. *)
Record rely (i : nat) (w w' : world) : Prop := {
  rely_held : ∀ id, held w !! id = Some i ↔ held w' !! id = Some i;
  rely_inflight : inflight w' !! i = inflight w !! i;
  rely_rows : ∀ id t, held w !! id = Some i → (id, t) ∈ rows w ↔ (id, t) ∈ rows w'
}.

#[global] Instance rely_preorder i : PreOrder (rely i).
Proof.
  split.
  - intros w. by split.
  - intros w1 w2 w3 [H1 H2 H3] [K1 K2 K3]. split.
    + intros id. by rewrite H1.
    + by rewrite K2.
    + intros id t Hid. rewrite H3 by done. apply K3. by apply H1.
Qed.

(** A call that waits for a lock is made without holding one; any other call
    can be answered. *)
Definition holds_none (i : nat) (w : world) : Prop := ∀ id, held w !! id ≠ Some i.

Definition fine (i : nat) (R : Set) (c : cmd R) (w : world) : Prop :=
  match c with LockRefresh _ => holds_none i w | _ => ∃ r w', acts i R c w r w' end.

(** ** Calls that leave tokens and locks alone *)

Definition neutral (R : Set) (c : cmd R) : bool :=
  match c with
  | Now | EncryptString _ _ | DecryptString _ _ | GenerateToken _ | ProbeAccountStatus _ _ _ | FindAccountByID _
  | RecordRefreshFailure _ _ _ _ | RecordOAuthRefreshFailureEvent _ | RecordAccountTestResult _ _ _ _
  | RecordAccount _ _ | InvalidateOAuthModelCatalog _ | ObserveProviderRefresh _ _ => true
  | _ => false
  end.

Lemma Inv_set_data d w : rows (set_data d w) = rows w → Inv w → Inv (set_data d w).
Proof. intros Hr []. split; cbn; rewrite ?Hr; done. Qed.

Lemma rely_set_data d w j : rows (set_data d w) = rows w → rely j w (set_data d w).
Proof. intros Hr. split; cbn; [done..|]. by rewrite Hr. Qed.

Lemma rows_on_row f id d w :
  (∀ a, ID (f a) = ID a ∧ refresh_of (Credential (f a)) = refresh_of (Credential a)) →
  accounts d = accounts (on_row provider id f (data w)) → rows (set_data d w) = rows w.
Proof.
  intros Hf Hd. unfold rows. cbn. rewrite Hd. unfold on_row. cbn. rewrite map_map. apply map_ext.
  intros a. destruct (is_row provider id a); [|done]. destruct (Hf a) as [-> ->]. done.
Qed.

(** A transaction that keeps the tokens, whatever it answers. *)
Lemma db_step_keeps {A} (done : result perror A * db) w r w' :
  rows (set_data done.2 w) = rows w → db_step done w r w' → ∃ d, w' = set_data d w ∧ rows (set_data d w) = rows w.
Proof.
  intros Hd (d & -> & Hr). exists d. split; [done|].
  destruct Hr as [Hr|(e & _ & [-> | ->])]; [by rewrite <- Hr in Hd|done|done].
Qed.

Lemma if_row_keeps {A} id f w (answer : result perror A) d :
  (∀ a, ID (f a) = ID a ∧ refresh_of (Credential (f a)) = refresh_of (Credential a)) →
  accounts d = accounts (on_row provider id f (data w)) →
  rows (set_data (if_row provider id (data w) (answer, d)).2 w) = rows w.
Proof. intros Hf Hd. unfold if_row. destruct (List.find _ _); cbn; [by eapply rows_on_row|done]. Qed.

Lemma apply_record_keeps r a :
  ID (apply_record r a) = ID a ∧ refresh_of (Credential (apply_record r a)) = refresh_of (Credential a).
Proof. by destruct r. Qed.

Lemma neutral_keeps i R (c : cmd R) w r w' :
  neutral R c = true → acts i R c w r w' → Inv w → Inv w' ∧ ∀ j, rely j w w'.
Proof.
  intros Hn Ha Hi.
  assert (w' = w ∨ ∃ d, w' = set_data d w ∧ rows (set_data d w) = rows w) as [-> | (d & -> & Hr)].
  - destruct c; try discriminate Hn; cbn in Ha; try (by left); try (left; by destruct Ha); right;
      (eapply db_step_keeps; [|exact Ha]).
    + unfold record_refresh_failure. eapply if_row_keeps; [|reflexivity]. by intros a.
    + unfold record_test_result. eapply if_row_keeps; [|reflexivity]. by intros a.
    + unfold record_account. eapply if_row_keeps; [|reflexivity]. apply apply_record_keeps.
  - split; [done|]. intros j. reflexivity.
  - split; [by apply Inv_set_data|]. intros j. by apply rely_set_data.
Qed.

Lemma neutral_fine i R (c : cmd R) w : neutral R c = true → fine i R c w.
Proof.
  assert (w = set_data (data w) w) as Hw by by destruct w.
  destruct c; try discriminate; intros _; unfold fine; cbn;
    first [by exists 0, w | by exists tt, w | exists (Err ErrNotConnected), w];
    first [done | split; [done|]; first [by intros|by eauto] | exists (data w); split; [done|]; right; eauto].
Qed.

Abbreviation ok := (Concurrency.ok acts Inv rely fine).

(** A neutral call keeps what the program knows; its answer is as documented. *)
Lemma ok_neutral {A} i R (c : cmd R) (k : R → P A) (L : world → Prop) Q w :
  neutral R c = true → (∀ w w', rely i w w' → L w → L w') → L w →
  (∀ w r w', L w → L w' → Inv w → acts i R c w r w' → ok i (k r) Q w') → ok i (Vis c k) Q w.
Proof.
  intros Hn HL Hw Hk w1 Hr Hi. split; [by apply neutral_fine|]. intros r w2 Ha.
  destruct (neutral_keeps _ _ _ _ _ _ Hn Ha Hi) as [Hi2 Hr2]. split_and!; [done|intros j _; apply Hr2|].
  assert (L w1) by (by eapply HL). apply (Hk w1 r w2); [done|by apply (HL w1)|done|done].
Qed.

(** ** Taking and giving back a lock *)

Lemma lock_keeps i id w :
  Inv w → holds_none i w → held w !! id = None →
  let w' := set_held (<[id := i]> (held w)) w in
  Inv w' ∧ (∀ j, j ≠ i → rely j w w') ∧ held w' !! id = Some i ∧ inflight w' !! i = None.
Proof.
  intros Hi Hnone Hfree w'. destruct Hi. split_and!; cbn; [split; cbn; try done| | |].
  - intros x t Hx Ht. destruct (spent_replaced0 x t Hx Ht) as [?|(j & n & Hj & Hf)]; [by left|right].
    exists j, n. split; [|done]. rewrite lookup_insert_ne; [done|]. intros ->. congruence.
  - intros j x Hx. destruct (inflight_held0 j x Hx) as [y Hy]. exists y. rewrite lookup_insert_ne; [done|].
    intros ->. congruence.
  - intros j x y. rewrite !lookup_insert_Some. intros [[<- <-]|[Hx Hjx]] [[<- ?]|[Hy Hjy]]; [done|..|by eauto].
    + by destruct (Hnone y).
    + subst j. by destruct (Hnone x).
  - intros j Hj. split; cbn; [|done..]. intros x. rewrite lookup_insert_Some. split; [|naive_solver].
    intros Hx. right. split; [|done]. intros ->. congruence.
  - by rewrite lookup_insert_eq.
  - destruct (inflight w !! i) as [x|] eqn:Hf; [|done]. destruct (inflight_held0 _ _ Hf) as [y Hy]. by destruct (Hnone y).
Qed.

Lemma unlocked_facts i id w :
  rows (unlocked i id w) = rows w ∧ held (unlocked i id w) = delete id (held w) ∧
  issued (unlocked i id w) = issued w ∧ spent (unlocked i id w) = spent w ∧
  inflight (unlocked i id w) = delete i (inflight w) ∧ replayed (unlocked i id w) = replayed w ∧
  lost w ⊆ lost (unlocked i id w) ∧ (∀ o n, inflight w !! i = Some (o, n) → o ∈ lost (unlocked i id w)).
Proof.
  unfold unlocked. cbn. destruct (inflight w !! i) as [[o n]|] eqn:Hf; cbn.
  - split_and!; try done; [set_solver|]. intros o' n' [= <- <-]. set_solver.
  - split_and!; try done. by rewrite delete_id.
Qed.

Lemma unlock_keeps i id w :
  Inv w → held w !! id = Some i →
  Inv (unlocked i id w) ∧ (∀ j, j ≠ i → rely j w (unlocked i id w)) ∧ holds_none i (unlocked i id w).
Proof.
  intros Hi Hheld. destruct Hi. destruct (unlocked_facts i id w) as (Er & Eh & Ei & Es & Ef & Ep & Hl & Ho).
  set (w' := unlocked i id w) in *. clearbody w'. split_and!; [split; rewrite ?Er, ?Eh, ?Ei, ?Es, ?Ef, ?Ep; try done| |].
  - intros x t Hx Ht. destruct (spent_replaced0 x t Hx Ht) as [?|(j & n & Hj & Hf)]; [left; set_solver|].
    destruct (decide (j = i)) as [->|Hne]; [left; by eapply Ho|]. right. exists j, n.
    rewrite !lookup_delete_Some. split; [|done]. split; [|done]. intros ->. congruence.
  - intros j o n [_ Hj]%lookup_delete_Some. by eapply inflight_fresh0.
  - intros j j' o o' n [_ Hj]%lookup_delete_Some [_ Hj']%lookup_delete_Some. by eapply inflight_distinct0.
  - intros j x [Hne Hx]%lookup_delete_Some. destruct (inflight_held0 j x Hx) as [y Hy]. exists y.
    rewrite lookup_delete_Some. split; [|done]. intros ->. congruence.
  - intros j x y [_ Hx]%lookup_delete_Some [_ Hy]%lookup_delete_Some. by eapply one_lock0.
  - set_solver.
  - intros j Hj. split; rewrite ?Er, ?Eh, ?Ef; [|by rewrite lookup_delete_ne|done].
    intros x. rewrite lookup_delete_Some. split; [|naive_solver]. intros Hx. split; [|done]. intros ->. congruence.
  - intros x. rewrite Eh. intros [Hne Hx]%lookup_delete_Some. by specialize (one_lock0 i id x Hheld Hx).
Qed.

(** ** The refresh *)

(** The program [i] has locked the account, whose stored token is [t], and has
    [f] in flight. *)
Definition mine (i : nat) (id : Z) (t : option string) (f : option (string * string)) (w : world) : Prop :=
  held w !! id = Some i ∧ (id, t) ∈ rows w ∧ inflight w !! i = f.

Lemma mine_stable i id t f w w' : rely i w w' → mine i id t f w → mine i id t f w'.
Proof.
  intros [Hh Hf Hr] (H1 & H2 & H3). split_and!; [by apply Hh|by apply Hr|by rewrite Hf].
Qed.

Lemma held_stable i id w w' : rely i w w' → held w !! id = Some i → held w' !! id = Some i.
Proof. intros [Hh _ _]. apply Hh. Qed.

(** The token of a locked account that is about to be sent was not rotated out,
    unless its successor was lost. *)
Lemma sent_keeps i id t w :
  Inv w → mine i id (Some t) None w →
  Inv (sent t w) ∧ (∀ j, rely j w (sent t w)) ∧ mine i id (Some t) None (sent t w).
Proof.
  intros Hi (Hh & Hr & Hf). split_and!; [|by split|done]. destruct Hi. split; cbn; try done.
  case_bool_decide as Hs; [|done]. enough (t ∈ lost w) by set_solver.
  destruct (spent_replaced0 id t Hr Hs) as [?|(j & n & Hj & Hjf)]; [done|]. congruence.
Qed.

Lemma rotated_unheard_keeps i id t w :
  Inv w → mine i id (Some t) None w →
  Inv (rotated_unheard t w) ∧ (∀ j, rely j w (rotated_unheard t w)) ∧ mine i id (Some t) None (rotated_unheard t w).
Proof.
  intros Hi (Hh & Hr & Hf). split_and!; [|by split|done]. destruct Hi. split; cbn; try done.
  - intros x u Hx [->%elem_of_singleton|Hu]%elem_of_union; [left; set_solver|].
    destruct (spent_replaced0 x u Hx Hu) as [?|?]; [left; set_solver|by right].
  - specialize (tokens_issued0 id t Hr). set_solver.
  - intros j o n Hj. destruct (inflight_fresh0 j o n Hj) as (? & ? & Hn). split_and!; [done| |done].
    intros [->%elem_of_singleton|?]%elem_of_union; [|done]. by destruct (Hn id).
  - set_solver.
Qed.

Lemma rotated_keeps i id t n w :
  Inv w → mine i id (Some t) None w → n ∉ issued w →
  Inv (rotated i t n w) ∧ (∀ j, j ≠ i → rely j w (rotated i t n w)) ∧ mine i id (Some t) (Some (t, n)) (rotated i t n w).
Proof.
  intros Hi (Hh & Hr & Hf) Hn. destruct Hi.
  assert (t ∈ issued w) as Ht by eauto.
  split_and!; [|split; cbn; [done|by rewrite lookup_insert_ne|done]|split_and!; cbn; [done..|by rewrite lookup_insert_eq]].
  split; cbn; try done.
  - intros x u Hx. apply elem_of_union. right. by eapply tokens_issued0.
  - intros x u Hx [->%elem_of_singleton|Hu]%elem_of_union.
    + right. exists i, n. rewrite lookup_insert_eq. split; [|done].
      by rewrite (tokens_distinct0 x id t Hx Hr).
    + destruct (spent_replaced0 x u Hx Hu) as [?|(j & m & Hj & Hjf)]; [by left|]. right. exists j, m.
      split; [done|]. rewrite lookup_insert_ne; [done|]. intros ->. congruence.
  - intros u [->%elem_of_singleton|Hu]%elem_of_union; apply elem_of_union; right; [done|by apply spent_issued0].
  - intros j o m. rewrite lookup_insert_Some. intros [[<- [= <- <-]]|[Hne Hj]].
    + split_and!; [by apply elem_of_union_l, elem_of_singleton| |].
      * intros [->%elem_of_singleton|Hu%spent_issued0]%elem_of_union; done.
      * intros x Hx. by apply Hn, (tokens_issued0 x).
    + destruct (inflight_fresh0 j o m Hj) as (? & ? & Hm). split_and!; [by apply elem_of_union_r| |done].
      intros [->%elem_of_singleton|?]%elem_of_union; [|done]. by destruct (Hm id).
  - intros j k o o' m. rewrite !lookup_insert_Some.
    intros [[<- [= <- <-]]|[Hne Hj]] [[<- Heq]|[Hne' Hk]]; [done|..|by eauto].
    + exfalso. destruct (inflight_fresh0 k o' n Hk) as [? _]. done.
    + simplify_eq. exfalso. destruct (inflight_fresh0 j o _ Hj) as [? _]. done.
  - intros j x. rewrite lookup_insert_Some. intros [[<- _]|[_ Hj]]; [by exists id|by eapply inflight_held0].
Qed.

(** ** Storing the new credential *)

Lemma rows_ids w : (rows w).*1 = map ID (accounts (data w)).
Proof. unfold rows. change (map ?f ?l) with (f <$> l) at 1. rewrite <- list_fmap_compose. done. Qed.

Lemma row_of_id w id b a :
  NoDup (rows w).*1 → List.find (is_row provider id) (accounts (data w)) = Some b →
  a ∈ accounts (data w) → is_row provider id a = bool_decide (ID a = id).
Proof.
  rewrite rows_ids. intros Hn Hb Ha. apply find_some in Hb as [Hin Hb]. apply list_elem_of_In in Hin.
  unfold is_row, str_eq in *. to_prop. destruct Hb as [Hp Hid]. case_bool_decide as Hp'; [done|].
  case_bool_decide as Hid'; [|done]. exfalso. apply Hp'. enough (a = b) by congruence.
  apply list_elem_of_lookup in Ha as [x Hx], Hin as [y Hy].
  enough (x = y) by congruence. eapply NoDup_lookup; [exact Hn| |]; rewrite list_lookup_fmap; [by rewrite Hx|].
  rewrite Hy. cbn. congruence.
Qed.

Definition stored_db (id : Z) (c : AccountCredential) (w : world) : db :=
  on_row provider id (fun a => with_credential (update_oauth_columns c (Credential a)) a) (data w).

Lemma rows_stored id c w b :
  NoDup (rows w).*1 → List.find (is_row provider id) (accounts (data w)) = Some b →
  (rows (set_data (stored_db id c w) w)).*1 = (rows w).*1 ∧
  ∀ x t, (x, t) ∈ rows (set_data (stored_db id c w) w) ↔ (x = id ∧ t = refresh_of c) ∨ (x ≠ id ∧ (x, t) ∈ rows w).
Proof.
  intros Hn Hb. split.
  - rewrite !rows_ids. cbn. rewrite map_map. apply map_ext. intros a. by destruct (is_row provider id a).
  - intros x t. unfold rows, stored_db, on_row. cbn [data set_data accounts set_accounts]. rewrite map_map.
    change (map ?f ?l) with (f <$> l). rewrite !list_elem_of_fmap. split.
    + intros (a & Heq & Ha). rewrite (row_of_id _ _ _ _ Hn Hb Ha) in Heq. case_bool_decide as Hid; cbn in Heq; simplify_eq.
      * left. done.
      * right. split; [done|]. by exists a.
    + intros [[-> ->]|[Hne (a & Heq & Ha)]].
      * pose proof Hb as [Hin Hr]%find_some. apply list_elem_of_In in Hin. exists b. rewrite Hr. cbn. split; [|done].
        rewrite (row_of_id _ _ _ _ Hn Hb Hin) in Hr. apply bool_decide_eq_true in Hr. by rewrite Hr.
      * exists a. rewrite (row_of_id _ _ _ _ Hn Hb Ha). simplify_eq. by rewrite bool_decide_eq_false_2.
Qed.

(** The token to store is the one in flight, or nothing is in flight and it is
    the one that was there. *)
Definition storable (t : option string) (f : option (string * string)) (c : AccountCredential) : Prop :=
  match f with Some (_, n) => refresh_of c = Some n | None => refresh_of c = t end.

Lemma stored_keeps i id t f c b w :
  Inv w → mine i id t f w → storable t f c → List.find (is_row provider id) (accounts (data w)) = Some b →
  let w' := stored i c (set_data (stored_db id c w) w) in
  Inv w' ∧ (∀ j, j ≠ i → rely j w w') ∧ held w' !! id = Some i.
Proof.
  intros Hi (Hh & Hr & Hf) Hs Hb w'.
  destruct (rows_stored id c w b (ids_unique _ Hi) Hb) as [Hids Hrows]. destruct Hi.
  assert (rows w' = rows (set_data (stored_db id c w) w) ∧ held w' = held w ∧ issued w' = issued w ∧ spent w' = spent w ∧
    inflight w' = delete i (inflight w) ∧ lost w' = lost w ∧ replayed w' = replayed w) as (Er & Eh & Ei & Es & Ef & El & Ep).
  { unfold w', stored. cbn. rewrite Hf. destruct f as [[o n]|]; cbn in Hs.
    - rewrite bool_decide_eq_true_2 by done. done.
    - cbn. by rewrite delete_id. }
  clearbody w'.
  (* what is known of the token stored *)
  assert (∀ u, refresh_of c = Some u → u ∈ issued w ∧ (u ∈ spent w → u ∈ lost w) ∧
    (∀ x, x ≠ id → (x, Some u) ∉ rows w) ∧ ∀ j o, j ≠ i → inflight w !! j = Some (o, u) → False) as Hnew.
  { intros u Hu. destruct f as [[o n]|]; cbn in Hs; rewrite Hu in Hs.
    - injection Hs as ->. destruct (inflight_fresh0 i o n Hf) as (? & ? & ?). split_and!; [done..|].
      intros j o' Hj Hj'. by apply Hj, (inflight_distinct0 j i o' o n).
    - subst t. split_and!; [by eauto| | |].
      + intros Hsp. destruct (spent_replaced0 id u Hr Hsp) as [?|(j & n & Hj & Hjf)]; [done|]. congruence.
      + intros x Hx Hxr. by apply Hx, (tokens_distinct0 x id u).
      + intros j o _ Hj. destruct (inflight_fresh0 j o u Hj) as (_ & _ & Hn). by destruct (Hn id). }
  split_and!; [split; rewrite ?Er, ?Eh, ?Ei, ?Es, ?Ef, ?El, ?Ep; try done| |by rewrite Eh].
  - by rewrite Hids.
  - intros x u [[-> Hu]|[_ Hx]]%Hrows; [by apply Hnew|by eauto].
  - intros x y u [[-> Hu]|[Hne Hx]]%Hrows [[-> Hu']|[Hne' Hy]]%Hrows; [done|..|by eauto].
    + symmetry in Hu. by destruct (Hnew u Hu) as (_ & _ & Hd & _); destruct (Hd y).
    + symmetry in Hu'. by destruct (Hnew u Hu') as (_ & _ & Hd & _); destruct (Hd x).
  - intros x u [[-> Hu]|[Hne Hx]]%Hrows Hsp; [left; by apply Hnew|].
    destruct (spent_replaced0 x u Hx Hsp) as [?|(j & n & Hj & Hjf)]; [by left|right]. exists j, n. split; [done|].
    rewrite lookup_delete_ne; [done|]. intros <-. apply Hne. by eapply one_lock0.
  - intros j o n [Hne Hj]%lookup_delete_Some. destruct (inflight_fresh0 j o n Hj) as (? & ? & Hn). split_and!; [done..|].
    intros x [[-> Hu]|[_ Hx]]%Hrows; [|by destruct (Hn x)]. symmetry in Hu. destruct (Hnew n Hu) as (_ & _ & _ & Hd). by eapply Hd.
  - intros j k o o' n [_ Hj]%lookup_delete_Some [_ Hk]%lookup_delete_Some. by eapply inflight_distinct0.
  - intros j x [_ Hj]%lookup_delete_Some. by eapply inflight_held0.
  - intros j Hj. split; rewrite ?Er, ?Eh, ?Ef; [done|by rewrite lookup_delete_ne|].
    intros x u Hx. rewrite Hrows. assert (x ≠ id) by (intros ->; congruence). naive_solver.
Qed.

(** ** The programs *)

Lemma ok_try {A : Set} {B} i (c : P (result perror A)) (k : A → P (result perror B)) Q w :
  ok i c (fun r w => match r with Ok a => ok i (k a) Q w | Err e => Q (Err e) w end) w → ok i (try c k) Q w.
Proof. intros H. apply ok_bind. eapply ok_mono; [|exact H]. by intros [a|e] w' Hr. Qed.

Lemma ok_try_wrap {A : Set} {B} i m (c : P (result perror A)) (k : A → P (result perror B)) Q w :
  ok i c (fun r w => match r with Ok a => ok i (k a) Q w | Err e => Q (Err (ErrWrap m e)) w end) w →
  ok i (try_wrap m c k) Q w.
Proof. intros H. apply ok_bind. eapply ok_mono; [|exact H]. by intros [a|e] w' Hr. Qed.

(** Programs of neutral calls. *)
Fixpoint quiet {A} (p : P A) : Prop :=
  match p with Ret _ => True | Vis c k => neutral _ c = true ∧ ∀ r, quiet (k r) end.

Lemma quiet_bind {A B} (p : P A) (f : A → P B) : quiet p → (∀ a, quiet (f a)) → quiet (bind p f).
Proof. induction p as [a|R c k IH]; cbn; [by auto|]. intros [Hn Hk] Hf. split; [done|]. intros r. by apply IH. Qed.

Lemma ok_quiet {A} i (p : P A) (L : world → Prop) w :
  quiet p → (∀ w w', rely i w w' → L w → L w') → L w → ok i p (fun _ => L) w.
Proof.
  intros Hq HL. revert w. induction p as [a|R c k IH]; intros w; [done|]. cbn in Hq. destruct Hq as [Hn Hk]. intros Hw.
  eapply ok_neutral; [done|exact HL|done|]. intros w1 r w2 _ H2 _ _. by apply IH.
Qed.

(** One quiet call whose answer matters. *)
Lemma ok_answer {R : Set} i (c : cmd R) (L : world → Prop) w :
  neutral R c = true → (∀ w w', rely i w w' → L w → L w') → L w →
  ok i (call c) (fun r w' => L w' ∧ ∃ w1 w2, L w1 ∧ acts i R c w1 r w2) w.
Proof.
  intros Hn HL Hw. eapply ok_neutral; [done|exact HL|done|]. intros w1 r w2 H1 H2 _ Ha. cbn. eauto.
Qed.

Ltac quiet := repeat first [done | apply quiet_bind | progress cbn | split | progress intros | case_match].

Section programs.
Context (cfg : Scheduling.Config) (RefreshWindow : Duration) (has_prober records_diagnostics : bool).
Context (sha256 : string → string) (ParseTime : string → option Time) (StatusText : Z → string).

Lemma account_subject_quiet subject : quiet (account_subject subject).
Proof. unfold account_subject, try_wrap. quiet. Qed.
Lemma id_token_quiet t previous : quiet (id_token t previous).
Proof. unfold id_token, try_wrap, encryptString. quiet. Qed.
Lemma expiry_quiet t : quiet (expiry t).
Proof. unfold expiry. quiet. Qed.
Lemma last_refresh_quiet previous : quiet (last_refresh previous).
Proof. unfold last_refresh. quiet. Qed.
Lemma accountProxyURL_quiet a : quiet (accountProxyURL a).
Proof. unfold accountProxyURL, try_wrap, decryptString. quiet. Qed.
Lemma invalidate_quiet id : quiet (invalidateOAuthModelCatalog id).
Proof. unfold invalidateOAuthModelCatalog. quiet. Qed.
Lemma usable_quiet a : quiet (usable RefreshWindow a).
Proof. unfold usable. quiet. Qed.
Lemma probe_quiet a token : quiet (probeLatestAccountStatus has_prober ParseTime StatusText a token).
Proof.
  unfold probeLatestAccountStatus, try, recordAccountTestResult, record_failure. quiet.
  apply accountProxyURL_quiet.
Qed.

Lemma enrich_RefreshToken t : RefreshToken (enrichTokenResponseFromIDToken t) = RefreshToken t.
Proof. unfold enrichTokenResponseFromIDToken. by destruct (decodeIDTokenClaims (IDToken t)). Qed.

Lemma enrich_idem_access t : AccessToken (enrichTokenResponseFromIDToken t) = AccessToken t.
Proof. unfold enrichTokenResponseFromIDToken. by destruct (decodeIDTokenClaims (IDToken t)). Qed.

(** What the answer to a refresh says about what is in flight. *)
Definition answered (t : option string) (tokens : TokenResponse) (f : option (string * string)) : Prop :=
  (f = None ∧ RefreshToken tokens = "") ∨ (∃ o, f = Some (o, RefreshToken tokens) ∧ RefreshToken tokens ≠ "").

Definition holds (i : nat) (id : Z) (w : world) : Prop := held w !! id = Some i.

Lemma mine_holds i id t f w : mine i id t f w → holds i id w.
Proof. by intros [? _]. Qed.

Lemma holds_stable i id w w' : rely i w w' → holds i id w → holds i id w'.
Proof. apply held_stable. Qed.

Lemma update_ok i id t f c w :
  mine i id t f w → storable t f c →
  ok i (call (UpdateOAuthCredential id c)) (fun _ => holds i id) w.
Proof.
  intros Hm Hs w1 Hr Hi. assert (mine i id t f w1) as Hm1 by (by eapply mine_stable).
  assert (∀ w2, w2 = w1 → Inv w2 ∧ (∀ j, j ≠ i → rely j w1 w2) ∧ holds i id w2) as Hsame.
  { intros w2 ->. split_and!; [done|by intros|by eapply mine_holds]. }
  unfold fine. cbn [acts]. unfold update_step, update_oauth_credential, if_row. fold (stored_db id c w1).
  destruct (List.find _ _) as [b|] eqn:Hb.
  - pose proof (stored_keeps _ _ _ _ _ _ _ Hi Hm1 Hs Hb) as Hk. split; [by exists (Ok tt); eexists; left|].
    intros r w2 [[-> ->]|(e & -> & [-> | ->])]; [done|by apply Hsame|done].
  - split; [by exists (Err ErrNotConnected), w1; eauto|]. intros r w2 [_ ->]. by apply Hsame.
Qed.
Lemma kept_ok i id t f a tokens w :
  opens Secrets.SecretKindOAuthRefreshToken (EncryptedRefreshToken a) = t →
  mine i id t f w → answered t tokens f →
  ok i (kept_refresh_token (enrichTokenResponseFromIDToken tokens) (Some a))
    (fun r w => mine i id t f w ∧ ∀ rt, r = Ok rt → match f with Some (_, n) => rt = n | None => t = Some rt end) w.
Proof.
  intros Ha Hm Hans. unfold kept_refresh_token, str_eq. rewrite enrich_RefreshToken.
  destruct Hans as [[-> ->]|(o & -> & Hne)].
  - rewrite bool_decide_eq_true_2 by done.
    eapply ok_mono; [|apply (ok_answer i _ (mine i id t None)); [done|apply mine_stable|done]].
    intros r w' [Hm' (w1 & w2 & _ & _ & Hr)]. split; [done|]. intros rt Hrt. by rewrite <- Ha, (Hr rt Hrt).
  - rewrite bool_decide_eq_false_2 by done. cbn. split; [done|]. by intros rt [= <-].
Qed.

Lemma store_ok i id t f a tokens w :
  ID a = id → opens Secrets.SecretKindOAuthRefreshToken (EncryptedRefreshToken a) = t →
  mine i id t f w → answered t tokens f →
  ok i (storeTokenResponseWithMode cfg sha256 tokens (Some a) true) (fun _ => holds i id) w.
Proof.
  intros Hid Ha Hm Hans. pose proof (mine_stable i id t f) as Hst. unfold storeTokenResponseWithMode.
  destruct (blank (AccessToken tokens)); [by eapply mine_holds|].
  apply ok_try. eapply ok_mono; [|by apply (kept_ok i id t f)]. clear w Hm. intros [rt|e] w [Hm Hrt]; [|by eapply mine_holds].
  specialize (Hrt rt eq_refl).
  apply ok_try. eapply ok_mono; [|apply (ok_quiet i _ (mine i id t f)); [apply account_subject_quiet|done|done]].
  clear w Hm. intros [subject|e] w Hm; [|by eapply mine_holds].
  destruct (blank rt); [by eapply mine_holds|].
  apply ok_try_wrap. eapply ok_mono; [|apply (ok_answer i _ (mine i id t f)); [done|done|done]].
  clear w Hm. intros [access|e] w [Hm _]; [|by eapply mine_holds].
  apply ok_try_wrap. eapply ok_mono; [|apply (ok_answer i _ (mine i id t f)); [done|done|done]].
  clear w Hm. intros [refresh|e] w [Hm (w1 & w2 & _ & _ & Henc)]; [|by eapply mine_holds].
  specialize (Henc refresh eq_refl).
  apply ok_try. eapply ok_mono; [|apply (ok_quiet i _ (mine i id t f)); [apply id_token_quiet|done|done]].
  clear w Hm. intros [idt|e] w Hm; [|by eapply mine_holds].
  eapply ok_seq; [apply (ok_quiet i _ (mine i id t f)); [apply expiry_quiet|done|done]|].
  clear w Hm. intros expiresAt w Hm. cbv beta in Hm.
  eapply ok_seq; [apply (ok_quiet i _ (mine i id t f)); [apply last_refresh_quiet|done|done]|].
  clear w Hm. intros lastRefreshAt w Hm. cbv beta in Hm.
  rewrite Hid. destruct (bool_decide (id ≤ 0)); [by eapply mine_holds|].
  eapply ok_seq; [apply (ok_quiet i _ (mine i id t f)); [apply invalidate_quiet|done|done]|].
  clear w Hm. intros [] w Hm. cbv beta in Hm.
  apply ok_try. eapply ok_mono; [|eapply update_ok; [exact Hm|]].
  - intros [[]|e] w' Hw'; [|done]. eapply ok_mono; [|apply (ok_answer i _ (holds i id)); [done|apply holds_stable|done]].
    by intros r w'' [? _].
  - unfold storable, refresh_of. cbn. rewrite Henc. destruct f as [[o n]|]; [by rewrite Hrt|done].
Qed.

(** Sending the token of the locked account. *)
Lemma refresh_call_ok i id t proxy token w :
  mine i id t None w → t = Some token →
  ok i (call (CallRefreshToken proxy token))
    (fun r w => match r with
                | Ok tokens => ∃ f, mine i id t f w ∧ answered t tokens f
                | Err _ => mine i id t None w
                end) w.
Proof.
  intros Hm -> w1 Hr Hi. assert (mine i id (Some token) None w1) as Hm1 by (by eapply mine_stable).
  destruct (sent_keeps _ _ _ _ Hi Hm1) as (Hi2 & Hr2 & Hm2). split.
  { exists (Err ErrNotConnected). eexists. left. eauto. }
  intros r w2 [(e & -> & ->)|[(e & -> & _ & ->)|[(tokens & -> & _ & Ht & ->)|(tokens & -> & _ & Ht & Hn & ->)]]].
  - split_and!; [done|by intros|done].
  - destruct (rotated_unheard_keeps _ _ _ _ Hi2 Hm2) as (Hi3 & Hr3 & Hm3). split_and!; [done| |done].
    intros j _. transitivity (sent token w1); auto.
  - split_and!; [done|by intros|]. exists None. split; [done|]. by left.
  - destruct (rotated_keeps _ _ _ _ _ Hi2 Hm2 Hn) as (Hi3 & Hr3 & Hm3). split_and!; [done| |].
    + intros j Hj. transitivity (sent token w1); auto.
    + exists (Some (token, RefreshToken tokens)). split; [done|]. right. eauto.
Qed.
(** The account read under the lock, with the token it stores. *)
Definition carries (id : Z) (x : string) (a : Account) : Prop :=
  ID a = id ∧ EncryptedRefreshToken a = x ∧ C_EncryptedRefreshToken (Credential a) = x.

Lemma carries_normalize id x a : carries id x a → carries id x (normalizeAccountCredentialFields a).
Proof.
  intros (H1 & H2 & H3). unfold carries, normalizeAccountCredentialFields. cbn. rewrite H2, H3.
  unfold str_or. by repeat case_match.
Qed.

Definition token_in (x : string) : option string := opens Secrets.SecretKindOAuthRefreshToken x.

Definition locked_idle (i : nat) (id : Z) (w : world) : Prop := holds i id w ∧ inflight w !! i = None.

Lemma locked_idle_stable i id w w' : rely i w w' → locked_idle i id w → locked_idle i id w'.
Proof. intros Hr [H1 H2]. split; [by eapply holds_stable|]. by rewrite (rely_inflight _ _ _ Hr). Qed.

Lemma find_ok i id w :
  locked_idle i id w →
  ok i (call (FindAccountByID id))
    (fun r w => match r with Ok a => ∃ x, carries id x a ∧ mine i id (token_in x) None w | Err _ => holds i id w end) w.
Proof.
  intros Hw. eapply ok_neutral; [done|apply locked_idle_stable|done|].
  intros w1 r w2 _ [H1 H2] _ [-> Hr]. destruct r as [a|e]; cbn; [|done].
  destruct Hr as [Hr|[e [=]]]. unfold find_account in Hr. destruct (List.find _ _) as [b|] eqn:Hb; [|done].
  injection Hr as ->. apply find_some in Hb as [Hin Hb]. apply list_elem_of_In in Hin.
  unfold is_row in Hb. to_prop. destruct Hb as [_ Hid].
  exists (C_EncryptedRefreshToken (Credential b)). split; [done|]. split_and!; [done| |done].
  unfold rows. apply list_elem_of_fmap. exists b. by rewrite Hid.
Qed.

Lemma refresh_locked_ok i id x a rec w :
  carries id x a → mine i id (token_in x) None w →
  ok i (refreshAccessTokenLocked cfg records_diagnostics sha256 a rec) (fun _ => holds i id) w.
Proof.
  intros (Hid & Hx & _)%carries_normalize Hm. pose proof (mine_stable i id (token_in x) None) as Hst.
  unfold refreshAccessTokenLocked. set (n := normalizeAccountCredentialFields a) in *. clearbody n.
  eapply ok_seq; [apply (ok_answer i _ (mine i id (token_in x) None)); done|].
  clear w Hm. intros [token|e] w [Hm (w1 & w2 & _ & _ & Hopen)]; [|by eapply mine_holds].
  specialize (Hopen token eq_refl). rewrite Hx in Hopen.
  eapply ok_seq; [apply (ok_quiet i _ (mine i id (token_in x) None)); [apply accountProxyURL_quiet|done|done]|].
  clear w Hm. intros [proxy|e] w Hm; cbv beta in Hm; [|by eapply mine_holds].
  eapply ok_seq; [by apply (refresh_call_ok i id (token_in x))|].
  clear w Hm. intros [tokens|e] w Hw; cbv beta iota in Hw.
  - destruct Hw as (f & Hm & Hans). eapply ok_seq with (Q := fun _ => holds i id).
    + unfold storeTokenResponse, storeTokenResponseForDiagnostic.
      destruct rec; (eapply store_ok; [done| |exact Hm|exact Hans]; by rewrite Hx).
    + clear w Hm. intros [refreshed|e] w Hm; [|done].
      eapply ok_seq; [apply (ok_answer i _ (holds i id)); [done|apply holds_stable|done]|].
      intros [tk|e] w' [? _]; done.
  - eapply ok_mono; [|apply (ok_quiet i _ (holds i id)); [|apply holds_stable|by eapply mine_holds]]; [done|].
    destruct (rec && bool_decide (0 < ID n)); [quiet|]. destruct (_ && _); quiet.
Qed.

Lemma locked_access_token_ok i id a rec w :
  ID a = id → locked_idle i id w →
  ok i (locked_access_token cfg RefreshWindow records_diagnostics sha256 a rec) (fun _ => holds i id) w.
Proof.
  intros Hid Hw. unfold locked_access_token. rewrite Hid.
  eapply ok_seq; [by apply find_ok|]. clear w Hw. intros [latest|e] w Hw; [|done].
  destruct Hw as (x & Hc & Hm). set (n := normalizeAccountCredentialFields latest).
  assert (carries id x n) as Hn by (by apply carries_normalize).
  eapply ok_seq; [apply (ok_quiet i _ (mine i id (token_in x) None)); [apply usable_quiet|apply mine_stable|done]|].
  clear w Hm. intros [] w Hm; cbv beta in Hm.
  - eapply ok_seq; [apply (ok_answer i _ (holds i id)); [done|apply holds_stable|by eapply mine_holds]|].
    by intros r w' [? _].
  - eapply ok_seq; [by eapply refresh_locked_ok|]. by intros r w'.
Qed.

Lemma locked_authorization_ok i id rejected w :
  locked_idle i id w →
  ok i (locked_authorization cfg records_diagnostics sha256 id rejected) (fun _ => holds i id) w.
Proof.
  intros Hw. unfold locked_authorization.
  eapply ok_seq; [by apply find_ok|]. clear w Hw. intros [latest|e] w Hw; [|done].
  destruct Hw as (x & Hc & Hm). set (n := normalizeAccountCredentialFields latest).
  assert (carries id x n) as Hn by (by apply carries_normalize).
  destruct (negb (str_eq _ AccountTypeCodexOAuth)); [by eapply mine_holds|].
  eapply ok_seq; [apply (ok_answer i _ (mine i id (token_in x) None)); [done|apply mine_stable|done]|].
  clear w Hm. intros [current|e] w [Hm _]; [|by eapply mine_holds].
  destruct (negb (str_eq current rejected)); [by eapply mine_holds|].
  eapply ok_seq; [by eapply refresh_locked_ok|]. by intros [[token recorded] err] w' ?.
Qed.

Lemma locked_refresh_ok i id w :
  locked_idle i id w →
  ok i (locked_refresh cfg has_prober sha256 ParseTime StatusText id) (fun _ => holds i id) w.
Proof.
  intros Hw. unfold locked_refresh.
  eapply ok_seq; [by apply find_ok|]. clear w Hw. intros [a|e] w Hw; [|done].
  destruct Hw as (x & (Hid & Hx & _) & Hm). pose proof (mine_stable i id (token_in x) None) as Hst.
  destruct (str_eq _ AccountTypeAPIUpstream); [by eapply mine_holds|].
  eapply ok_seq; [apply (ok_answer i _ (mine i id (token_in x) None)); done|].
  clear w Hm. intros [token|e] w [Hm (w1 & w2 & _ & _ & Hopen)]; [|by eapply mine_holds].
  specialize (Hopen token eq_refl). rewrite Hx in Hopen.
  eapply ok_seq; [apply (ok_quiet i _ (mine i id (token_in x) None)); [apply accountProxyURL_quiet|done|done]|].
  clear w Hm. intros [proxy|e] w Hm; cbv beta in Hm; [|by eapply mine_holds].
  eapply ok_seq; [by apply (refresh_call_ok i id (token_in x))|].
  clear w Hm. intros [tokens|e] w Hw; cbv beta iota in Hw.
  - destruct Hw as (f & Hm & Hans). eapply ok_seq with (Q := fun _ => holds i id).
    + unfold storeTokenResponse. eapply store_ok; [done| |exact Hm|exact Hans]. by rewrite Hx.
    + clear w Hm. intros [refreshed|e] w Hm; [|done].
      eapply ok_seq; [apply (ok_quiet i _ (holds i id)); [apply probe_quiet|apply holds_stable|done]|]. by intros r w' ?.
  - eapply ok_mono; [|apply (ok_quiet i _ (holds i id)); [|apply holds_stable|by eapply mine_holds]]; [done|]. quiet.
Qed.

(** ** Around the lock *)

Lemma holds_none_stable i w w' : rely i w w' → holds_none i w → holds_none i w'.
Proof. intros [Hh _ _] Hn id Hid. by apply (Hn id), Hh. Qed.

(** A body run under the account's lock, then the lock is given back. *)
Lemma under_lock_ok {A B} i id (body : P A) (k : A → P B) w :
  (∀ w, locked_idle i id w → ok i body (fun _ => holds i id) w) →
  (∀ x, ∃ k', k x = Vis (UnlockRefresh id) k' ∧ ∀ u, quiet (k' u)) →
  holds_none i w → ok i (lockAccountRefresh id ;; bind body k) (fun _ => holds_none i) w.
Proof.
  intros Hb Hk Hw w1 Hr Hi. assert (holds_none i w1) as Hn by (by eapply holds_none_stable). split; [done|].
  intros [] w2 [Hfree ->]. destruct (lock_keeps i id w1 Hi Hn Hfree) as (Hi2 & Hr2 & Hh & Hf). split_and!; [done|done|].
  cbn [bind]. eapply ok_seq; [by apply Hb|]. clear - Hk. intros x w Hh. destruct (Hk x) as (k' & -> & Hq).
  intros w1 Hr Hi. assert (holds i id w1) as Hh1 by (by eapply holds_stable).
  split; [exists tt; by eexists|]. intros [] w2 [_ ->]. destruct (unlock_keeps i id w1 Hi Hh1) as (Hi2 & Hr2 & Hn).
  split_and!; [done..|]. apply ok_quiet; [done|apply holds_none_stable|done].
Qed.

(** ** Requests *)

(** What a request asks of an account: a manual refresh, an access token, or a
    new one for a token the upstream rejected. *)
Inductive task :=
| ManualRefresh (id : Z)
| TokenRequest (a : Account) (recordRefreshFailure : bool)
| RejectedToken (id : Z) (rejected : string) (status : Z) (message : string).

Definition run_task (t : task) : P unit :=
  match t with
  | ManualRefresh id => RefreshAccount cfg has_prober sha256 ParseTime StatusText id ;; Ret tt
  | TokenRequest a rec => accessTokenForAccount cfg RefreshWindow records_diagnostics sha256 a rec ;; Ret tt
  | RejectedToken id rejected status message =>
      RefreshAccountAuthorization cfg records_diagnostics sha256 id rejected status message ;; Ret tt
  end.

(** Accounts that are asked for tokens are in the database. *)
Definition persisted (t : task) : Prop := match t with TokenRequest a _ => 0 < ID a | _ => True end.

Lemma task_ok i t w : persisted t → holds_none i w → ok i (run_task t) (fun _ => holds_none i) w.
Proof.
  intros Hp Hw. destruct t as [id|a rec|id rejected status message]; cbn [run_task];
    apply ok_bind; eapply ok_mono; try (intros ? ? Hx; exact Hx).
  - unfold RefreshAccount. destruct (bool_decide (id ≤ 0)); [done|]. apply under_lock_ok; [apply locked_refresh_ok| |done].
    intros [r outcome]. eexists. split; [reflexivity|]. intros []. quiet.
  - unfold accessTokenForAccount. set (n := normalizeAccountCredentialFields a).
    eapply ok_seq; [apply (ok_quiet i _ (holds_none i)); [apply usable_quiet|apply holds_none_stable|done]|].
    clear w Hw. intros [] w Hw; cbv beta in Hw.
    + eapply ok_mono; [|apply (ok_answer i _ (holds_none i)); [done|apply holds_none_stable|done]]. by intros r w' [? _].
    + rewrite bool_decide_eq_true_2 by done. apply under_lock_ok; [|..|done].
      * intros w' Hw'. by apply locked_access_token_ok.
      * intros [r outcome]. eexists. split; [reflexivity|]. intros []. quiet.
  - unfold RefreshAccountAuthorization. destruct (_ || _); [done|]. destruct (_ || _).
    + apply ok_quiet; [quiet|apply holds_none_stable|done].
    + apply under_lock_ok; [apply locked_authorization_ok| |done].
      intros [r outcome]. eexists. split; [reflexivity|]. intros []. quiet.
Qed.

(** ** The beginning *)

(** Nothing is locked or in flight, the server has rotated out none of the
    tokens it issued, and the accounts store different ones. *)
Definition at_rest (w : world) : Prop :=
  NoDup (rows w).*1 ∧ (∀ id t, (id, Some t) ∈ rows w → t ∈ issued w) ∧
  (∀ id id' t, (id, Some t) ∈ rows w → (id', Some t) ∈ rows w → id = id') ∧
  held w = ∅ ∧ spent w = ∅ ∧ inflight w = ∅ ∧ lost w = ∅ ∧ replayed w = ∅.

Lemma at_rest_Inv w : at_rest w → Inv w.
Proof.
  intros (H1 & H2 & H3 & Eh & Es & Ef & El & Ep). split; rewrite ?Eh, ?Es, ?Ef, ?El, ?Ep; try done; set_solver.
Qed.

Lemma tasks_ok tasks w : Forall persisted tasks → at_rest w → pool_ok acts Inv rely fine holds_none (map run_task tasks) w.
Proof.
  intros Hp Hw. split; [by apply at_rest_Inv|]. intros i p Hi. change (map run_task tasks) with (run_task <$> tasks) in Hi.
  rewrite list_lookup_fmap in Hi. destruct (tasks !! i) as [t|] eqn:Ht; [|done]. cbn in Hi. injection Hi as <-.
  apply task_ok; [by eapply Forall_lookup|]. intros id. destruct Hw as (_ & _ & _ & -> & _). by rewrite lookup_empty.
Qed.

Lemma reached_ok tasks w l' w' :
  Forall persisted tasks → at_rest w → rtc (pstep acts) (map run_task tasks, w) (l', w') →
  pool_ok acts Inv rely fine holds_none l' w'.
Proof.
  intros Hp Hw Hr. eapply (pool_ok_reach acts Inv rely fine holds_none (map run_task tasks, w) (l', w')); [|done|by apply tasks_ok].
  intros i [] s s' Hs. by apply holds_none_stable.
Qed.

(** [C23] However requests, manual refreshes and rejected tokens are interleaved,
    a refresh token is sent to the server after it was rotated out only if its
    successor was lost, because the server's answer did not arrive or could not
    be stored; otherwise what the database holds is what the server expects. *)
Theorem refresh_tokens_not_replayed tasks w l' w' :
  Forall persisted tasks → at_rest w → rtc (pstep acts) (map run_task tasks, w) (l', w') →
  replayed w' ⊆ lost w' ∧
  ∀ id t, (id, Some t) ∈ rows w' → held w' !! id = None → t ∈ spent w' → t ∈ lost w'.
Proof.
  intros Hp Hw Hr. destruct (reached_ok _ _ _ _ Hp Hw Hr) as [Hi _]. split; [apply Hi|].
  intros id t Hrow Hfree Hs. destruct (spent_replaced _ Hi id t Hrow Hs) as [?|(i & n & Hj & _)]; [done|]. congruence.
Qed.

(** ** Every request ends *)

(** A program gives locks to nobody but itself. *)
Lemma acts_held i R (c : cmd R) w r w' id j :
  acts i R c w r w' → held w' !! id = Some j → held w !! id = Some j ∨ j = i.
Proof.
  assert (∀ A (done : result perror A * db) r, db_step done w r w' → held w' = held w) as Hdb
    by (by intros A done r0 (d & -> & _)).
  destruct c; cbn; intros Ha; try (subst w'; by left); try (destruct Ha as [-> _]; by left);
    try (erewrite Hdb by exact Ha; by left).
  - destruct Ha as [_ ->]. cbn. rewrite lookup_insert_Some. naive_solver.
  - destruct Ha as [_ ->]. destruct (unlocked_facts i id0 w) as (_ & -> & _). rewrite lookup_delete_Some. naive_solver.
  - destruct Ha as [(e & _ & ->)|[(e & _ & _ & ->)|[(t & _ & _ & _ & ->)|(t & _ & _ & _ & _ & ->)]]]; by left.
  - unfold update_step in Ha. destruct (update_oauth_credential _ _ _ _) as [[[]|e] d].
    + assert (held (stored i c (set_data d w)) = held w) as Hs by (unfold stored; by repeat case_match).
      destruct Ha as [[_ ->]|(e & _ & [-> | ->])]; rewrite ?Hs; by left.
    + destruct Ha as [_ ->]. by left.
Qed.

Lemma owners_in_pool x y :
  rtc (pstep acts) x y → (∀ id j, held x.2 !! id = Some j → (j < length x.1)%nat) →
  ∀ id j, held y.2 !! id = Some j → (j < length y.1)%nat.
Proof.
  induction 1 as [|[l s] z y Hstep Hrest IH]; [done|]. intros Hx. apply IH.
  inversion Hstep as [i ? ? R e k r s' Hp Ha]; subst. cbn in *. intros id j Hj. rewrite length_insert.
  destruct (acts_held _ _ _ _ _ _ _ _ Ha Hj) as [?| ->]; [by eapply Hx|]. by eapply lookup_lt_Some.
Qed.

Definition ended (p : P unit) : bool := match p with Ret _ => true | Vis _ _ => false end.

(** The lock a program waits for. *)
Definition waits_for {R : Set} (c : cmd R) : option Z := match c with LockRefresh id => Some id | _ => None end.

Lemma fine_can_act i R (c : cmd R) w :
  fine i R c w → waits_for c = None ∨ held w = ∅ → ∃ r w', acts i R c w r w'.
Proof.
  intros Hf Hw. destruct c; try exact Hf. destruct Hw as [[=]|Hh]. exists tt. eexists. split; [|reflexivity].
  rewrite Hh. apply lookup_empty.
Qed.

Lemma forallb_false_exists {A} (p : A → bool) l : forallb p l = false → ∃ i x, l !! i = Some x ∧ p x = false.
Proof.
  induction l as [|x l IH]; cbn; [done|]. intros [Hx|(i & y & Hy & Hp)%IH]%andb_false_iff; [by exists 0%nat, x|].
  by exists (S i), y.
Qed.

Definition ready (p : P unit) : bool := match p with Ret _ => false | Vis c _ => bool_decide (waits_for c = None) end.

(** The refresh locks neither deadlock nor stay behind: however the
    requests are interleaved, the system can take a step until all of them have
    ended, it cannot run forever, and at the end every lock is free and nothing
    is in flight. *)
Theorem refreshes_end tasks w l' w' :
  Forall persisted tasks → at_rest w → rtc (pstep acts) (map run_task tasks, w) (l', w') →
  sn (pstep acts) (l', w') ∧
  ((∃ y, pstep acts (l', w') y) ∨ (forallb ended l' = true ∧ held w' = ∅ ∧ inflight w' = ∅)).
Proof.
  intros Hp Hw Hr. split; [apply pstep_sn|]. pose proof (reached_ok _ _ _ _ Hp Hw Hr) as Hok.
  pose proof (owners_in_pool _ _ Hr) as Hown. cbn in Hown.
  assert (∀ id j, held w' !! id = Some j → (j < length l')%nat) as Hlen.
  { apply Hown. intros id j. destruct Hw as (_ & _ & _ & -> & _). by rewrite lookup_empty. }
  assert (∀ i (p : P unit), l' !! i = Some p → match p with Ret _ => holds_none i w' | Vis e _ => fine i _ e w' end) as Hheads.
  { intros i p Hi. by eapply (pool_ok_heads acts Inv rely fine). }
  assert (∀ i R (c : cmd R) k, l' !! i = Some (Vis c k) → waits_for c = None ∨ held w' = ∅ →
    ∃ y, pstep acts (l', w') y) as Hgo.
  { intros i R c k Hi Hc. destruct (fine_can_act i R c w' (Hheads _ _ Hi) Hc) as (r & w2 & Ha).
    eexists. by econstructor. }
  destruct (existsb ready l') eqn:Hno.
  { apply existsb_exists in Hno as (p & [i Hi]%list_elem_of_In%list_elem_of_lookup & Hc).
    destruct p as [a|R c k]; [done|]. left. eapply Hgo; [done|]. left. by apply bool_decide_eq_true in Hc. }
  (* every program has ended or waits for a lock: nobody holds one *)
  assert (held w' = ∅) as Hfree.
  { apply map_eq. intros id. rewrite lookup_empty. destruct (held w' !! id) as [j|] eqn:Hj; [|done]. exfalso.
    destruct (lookup_lt_is_Some_2 l' j) as [p Hpj]; [by eapply Hlen|]. pose proof (Hheads _ _ Hpj) as Hhead.
    destruct p as [a|R c k]; [by apply (Hhead id)|].
    assert (ready (Vis c k) = false) as Hc.
    { apply not_true_is_false. intros Hc. apply not_true_iff_false in Hno. apply Hno, existsb_exists. eexists.
      split; [apply list_elem_of_In; by eapply list_elem_of_lookup_2|done]. }
    destruct c; try discriminate Hc. by apply (Hhead id). }
  destruct (forallb ended l') eqn:Hall.
  - right. split_and!; [done..|]. apply map_eq. intros i. rewrite lookup_empty.
    destruct (inflight w' !! i) as [x|] eqn:Hx; [|done]. destruct Hok as [Hi _].
    destruct (inflight_held _ Hi i x Hx) as [id Hid]. by rewrite Hfree, lookup_empty in Hid.
  - left. apply forallb_false_exists in Hall as (i & [a|R c k] & Hi & He); [done|]. eapply Hgo; [done|by right].
Qed.
End programs.
End lock.

(** ** Two requests whose token was rejected *)
Module Demo.

Definition opens (kind s : string) : option string :=
  match Cut s ":"%char with (k, Some v) => if str_eq k kind then Some v else None | _ => None end.

Definition response (token : string) : TokenResponse :=
  {| AccessToken := "access of " +++ token; RefreshToken := token +++ "'"; IDToken := ""; ExpiresIn := 3600; T_Subject := "";
     T_DisplayName := ""; T_AccountID := ""; Email := ""; PlanType := ""; T_ClientID := "" |}.

(** A server that rotates every token. *)
Definition handle (i : nat) (R : Set) (c : cmd R) (w : world) : option (R * world) :=
  match c in cmd R return option (R * world) with
  | Now => Some (0, w)
  | LockRefresh id => match held w !! id with None => Some (tt, set_held (<[id := i]> (held w)) w) | Some _ => None end
  | UnlockRefresh id => if bool_decide (held w !! id = Some i) then Some (tt, unlocked i id w) else None
  | EncryptString kind v =>
      let s := kind +++ ":" +++ v in
      Some (if bool_decide (opens kind s = Some v) then Ok s else Err ErrNotConnected, w)
  | DecryptString kind s => Some (match opens kind s with Some v => Ok v | None => Err ErrNotConnected end, w)
  | CallRefreshToken _ token =>
      let new := token +++ "'" in
      if bool_decide (token ∈ spent w) || bool_decide (new ∈ issued w) then Some (Err ErrNotConnected, sent token w)
      else Some (Ok (response token), rotated i token new (sent token w))
  | UpdateOAuthCredential id c =>
      match update_oauth_credential "openai" id c (data w) with
      | (Ok u, d) => Some (Ok tt, stored opens i c (set_data d w))
      | (Err e, _) => Some (Err e, w)
      end
  | FindAccountByID id => Some (find_account "openai" id (data w), w)
  | GenerateToken prefix => Some (Ok (prefix +++ "_1"), w)
  | InvalidateOAuthModelCatalog _ => Some (tt, w)
  | ObserveProviderRefresh _ _ => Some (tt, w)
  | _ => None
  end.

Lemma append_ne (s : string) : s +++ "'" ≠ "".
Proof. by destruct s. Qed.

Lemma handle_acts i R (c : cmd R) w r w' : handle i R c w = Some (r, w') → acts "openai" opens i R c w r w'.
Proof.
  destruct c; cbn; try done; try (by intros [= <- <-]).
  - destruct (held w !! id) eqn:E; [done|]. by intros [= <- <-].
  - case_bool_decide; [|done]. by intros [= <- <-].
  - intros [= <- <-]. split; [done|]. intros s. case_bool_decide; [by intros [= <-]|done].
  - intros [= <- <-]. split; [done|]. intros v. destruct (opens kind value); [by intros [= <-]|done].
  - destruct (_ || _) eqn:E; intros [= <- <-].
    + left. eauto.
    + to_prop. destruct E as [E1 E2]. do 3 right. exists (response refreshToken).
      split_and!; [done..|apply append_ne|done|done].
  - intros [= <- <-]. split; [done|]. by left.
  - unfold update_step. destruct (update_oauth_credential "openai" id c (data w)) as [[[]|e] d]; intros [= <- <-].
    + left. done.
    + eauto.
Qed.

Definition config : Scheduling.Config :=
  {| Scheduling.CfgProvider := "openai"; Scheduling.ClientID := "client"; Scheduling.RedirectURL := "r";
     Scheduling.AuthURL := "a"; Scheduling.TokenURL := "t"; Scheduling.Secret := "s"; Scheduling.has_keyring := true;
     Scheduling.APIBaseURL := ""; Scheduling.AllowHTTPAPIUpstreams := false |}.

Definition credential : AccountCredential :=
  {| CredentialType := "oauth_token"; C_EncryptedAccessToken := "oauth-access-token:a0";
     C_EncryptedRefreshToken := "oauth-refresh-token:r0"; C_EncryptedIDToken := ""; C_AccessTokenExpiresAt := None;
     C_LastRefreshAt := None; C_LastRefreshError := ""; C_LastRefreshErrorAt := None; EncryptedAPIKey := "";
     EncryptedProxyURL := ""; C_BaseURL := ""; C_Metadata := None |}.

Definition w0 : world :=
  {| data := {| accounts := [with_credential credential demo_account]; states := []; test_results := []; next_account := 8 |};
     held := ∅; issued := {["r0"]}; spent := ∅; inflight := ∅; lost := ∅; replayed := ∅ |}.

Definition tasks : list task := [RejectedToken 7 "a0" 401 ""; RejectedToken 7 "a0" 401 ""].

Definition pool : list (P unit) :=
  map (run_task config Second false false (fun s => s) (fun _ => None) (fun _ => "")) tasks.

(** The first request refreshes under the lock, the second one waits and finds
    the new token: the server sees one refresh. *)
Definition turns : list nat := repeat 0%nat 15 ++ repeat 1%nat 5 ++ [0%nat].

Definition final : list (P unit) * world := default ([], w0) (run_pool handle turns pool w0).

Lemma reach_final : rtc (pstep (acts "openai" opens)) (pool, w0) final.
Proof.
  apply (run_pool_reach (acts "openai" opens) handle turns); [intros; by apply handle_acts|].
  destruct (run_pool handle turns pool w0) as [y|] eqn:E; [unfold final; by rewrite E|].
  exfalso. revert E. vm_compute. discriminate.
Qed.

Lemma w0_at_rest : at_rest opens w0.
Proof.
  assert (rows opens w0 = [(7, Some "r0")]) as Hr by (vm_compute; reflexivity). unfold at_rest. rewrite Hr.
  split_and!; try reflexivity.
  - apply NoDup_singleton.
  - intros id t Ht. apply list_elem_of_singleton in Ht. injection Ht as -> ->. cbn. set_solver.
  - intros id id' t Ht Ht'. apply list_elem_of_singleton in Ht, Ht'. congruence.
Qed.

Lemma final_eq : final = (final.1, final.2).
Proof. by destruct final. Qed.

Lemma refresh_tokens_not_replayed_witness :
  elements (spent final.2) = ["r0"] ∧ rows opens final.2 = [(7, Some "r0'")] ∧ replayed final.2 ⊆ lost final.2 ∧
  ∀ id t, (id, Some t) ∈ rows opens final.2 → held final.2 !! id = None → t ∈ spent final.2 → t ∈ lost final.2.
Proof.
  split; [vm_compute; reflexivity|]. split; [vm_compute; reflexivity|].
  apply (refresh_tokens_not_replayed "openai" opens config Second false false (fun s => s) (fun _ => None) (fun _ => "")
           tasks w0 final.1 final.2).
  - repeat constructor.
  - exact w0_at_rest.
  - rewrite <- final_eq. exact reach_final.
Defined.

Lemma refreshes_end_witness :
  forallb ended final.1 = true ∧ sn (pstep (acts "openai" opens)) (final.1, final.2) ∧
  ((∃ y, pstep (acts "openai" opens) (final.1, final.2) y) ∨
   (forallb ended final.1 = true ∧ held final.2 = ∅ ∧ inflight final.2 = ∅)).
Proof.
  split; [vm_compute; reflexivity|].
  apply (refreshes_end "openai" opens config Second false false (fun s => s) (fun _ => None) (fun _ => "")
           tasks w0 final.1 final.2).
  - repeat constructor.
  - exact w0_at_rest.
  - rewrite <- final_eq. exact reach_final.
Defined.
End Demo.
End OAuthLock.
