(* ===== verification/OAuthThms.v ===== *)
(** * The OAuth connection flow: what it guarantees *)

From S2P Require Import Prelude GoStrings Effects Account Scheduling Secrets OAuth.
From Stdlib Require Import Ascii.
Import Account OAuth.

Module OAuthThms.

(** ** Programs by their traces *)

(** *** Counting calls *)

Definition is_exchange (x : ev cmd) : bool := match x with Ev (ExchangeCode _ _ _) _ => true | _ => false end.

Definition is_claim (h : string) (x : ev cmd) : bool :=
  match x with Ev e r => match e in cmd R return R → bool with
                         | ClaimState h' _ => fun r => str_eq h' h && match r with Ok _ => true | Err _ => false end
                         | _ => fun _ => false end r end.

Definition is_create (h : string) (x : ev cmd) : bool :=
  match x with Ev (CreateState s) _ => str_eq (StateHash s) h | _ => false end.

Definition count (p : ev cmd → bool) (tr : list (ev cmd)) : Z := countZ p tr.

(** ** The table of states *)

(** What calls do to [oauth_states]; any other call leaves it alone.  A failing
    call may have made its change. *)
Definition state_step (provider : string) (R : Set) (c : cmd R) (d : db) : R → db → Prop :=
  match c in cmd R return R → db → Prop with
  | CreateState s => fun r d' => (r, d') = create_state s d ∨ (∃ e, r = Err e ∧ (d' = d ∨ d' = (create_state s d).2))
  | ClaimState h now => fun r d' =>
      (r, d') = claim_state provider h now d ∨ (∃ e, r = Err e ∧ (d' = d ∨ d' = (claim_state provider h now d).2))
  | _ => fun _ d' => states d' = states d
  end.

(** Calls one after the other, by whatever programs, with rows removed in
    between by the cleanup. *)
Inductive history (provider : string) : db → list (ev cmd) → db → Prop :=
| history_nil d : history provider d [] d
| history_call R (c : cmd R) r d d1 d2 tr :
    state_step provider R c d r d1 → history provider d1 tr d2 → history provider d (Ev c r :: tr) d2
| history_cleanup keep d d1 d2 tr :
    states d1 = List.filter keep (states d) → history provider d1 tr d2 → history provider d tr d2.

(** States of a hash that were not consumed. *)
Definition open_state (h : string) (s : OAuthState) : bool :=
  str_eq (StateHash s) h && bool_decide (ConsumedAt s = None).
Definition open_states (h : string) (d : db) : Z := countZ (open_state h) (states d).

Lemma create_open h s d : open_states h (create_state s d).2 ≤ open_states h d + Z.b2z (str_eq (StateHash s) h).
Proof.
  unfold create_state, open_states. destruct (existsb _ _); cbn.
  - destruct (str_eq (StateHash s) h); cbn; lia.
  - rewrite countZ_app, countZ_cons. change (countZ (open_state h) []) with 0.
    assert (open_state h (stored_state s None) = str_eq (StateHash s) h) as -> by apply andb_true_r. lia.
Qed.

Lemma claim_loses h provider h' now d :
  open_states h (claim_state provider h' now d).2
    + (match (claim_state provider h' now d).1 with Ok _ => Z.b2z (str_eq h' h) | Err _ => 0 end) ≤ open_states h d.
Proof.
  unfold claim_state, open_states. destruct (List.find _ _) as [s|] eqn:Hf; cbn; [|lia].
  apply find_some in Hf as [Hin Hc]. apply list_elem_of_In in Hin.
  induction (states d) as [|x l IH]; [by apply not_elem_of_nil in Hin|]. cbn [map].
  rewrite !countZ_cons.
  assert (countZ (open_state h) (map (fun x => if claimable provider h' now x then stored_state x (Some (pg now)) else x) l)
            ≤ countZ (open_state h) l) as Hle.
  { clear. induction l as [|x l IH]; cbn [map]; [done|]. rewrite !countZ_cons.
    destruct (claimable provider h' now x); [|lia]. unfold open_state at 1. cbn. rewrite andb_false_r. cbn.
    destruct (open_state h x); cbn; lia. }
  destruct (claimable provider h' now x) eqn:Hx.
  - unfold open_state at 1. cbn. rewrite andb_false_r. cbn.
    assert (open_state h x = str_eq h' h) as ->; [|lia].
    unfold claimable in Hx. unfold open_state. to_prop. destruct Hx as [[[_ Hh] _] Hn].
    unfold str_eq in *. to_prop. rewrite Hh, Hn. rewrite (bool_decide_eq_true_2 (None = None)) by done. apply andb_true_r.
  - apply list_elem_of_In in Hin. destruct Hin as [-> |Hin%list_elem_of_In]; [congruence|]. specialize (IH Hin). lia.
Qed.

(** A state is claimed once. *)
Lemma history_claims provider h d tr d' :
  history provider d tr d' → count (is_claim h) tr + open_states h d' ≤ open_states h d + count (is_create h) tr.
Proof.
  induction 1 as [d|R c r d d1 d2 tr Hstep _ IH|keep d d1 d2 tr Hk _ IH]; unfold count in *.
  - change (countZ ?p []) with 0. lia.
  - rewrite !countZ_cons.
    enough (Z.b2z (is_claim h (Ev c r)) + open_states h d1 ≤ open_states h d + Z.b2z (is_create h (Ev c r))) by lia. clear IH.
    assert (∀ x, states x = states d → open_states h x = open_states h d) as Heq by (unfold open_states; by intros x ->).
    destruct c; cbn in Hstep |- *; try (rewrite (Heq _ Hstep); lia).
    + pose proof (create_open h s d). destruct Hstep as [Hr|(e & -> & [-> | ->])]; [|destruct (str_eq _ _); cbn in *; lia|cbn; lia].
      rewrite <- Hr in H. cbn in *. lia.
    + pose proof (claim_loses h provider stateHash now d) as Hl.
      destruct Hstep as [Hr|(e & -> & [-> | ->])]; [|rewrite andb_false_r; cbn; lia|rewrite andb_false_r; cbn].
      * rewrite <- Hr in Hl. cbn in *. destruct r; rewrite ?andb_true_r, ?andb_false_r; cbn; lia.
      * destruct (claim_state provider stateHash now d).1; [|lia]. destruct (str_eq stateHash h); cbn in Hl; lia.
  - assert (open_states h d1 ≤ open_states h d); [|lia]. unfold open_states. rewrite Hk. apply countZ_filter_le.
Qed.

(** ** What a program calls *)

(** Every call satisfies a condition. *)
Fixpoint calls_only {A} (q : ev cmd → Prop) (p : P A) : Prop :=
  match p with Ret _ => True | Vis c k => ∀ r, q (Ev c r) ∧ calls_only q (k r) end.

Lemma calls_only_bind {A B} q (p : P A) (f : A → P B) : calls_only q p → (∀ a, calls_only q (f a)) → calls_only q (bind p f).
Proof. induction p as [a|R c k IH]; cbn; [by auto|]. intros Hk Hf r. destruct (Hk r). split; [done|]. by apply IH. Qed.

Lemma calls_only_try {A : Set} {B} q (p : P (result perror A)) (f : A → P (result perror B)) :
  calls_only q p → (∀ a, calls_only q (f a)) → calls_only q (try p f).
Proof. intros Hp Hf. apply calls_only_bind; [done|]. by intros [a|e]. Qed.

Lemma calls_only_try_wrap {A : Set} {B} q m (p : P (result perror A)) (f : A → P (result perror B)) :
  calls_only q p → (∀ a, calls_only q (f a)) → calls_only q (try_wrap m p f).
Proof. intros Hp Hf. apply calls_only_bind; [done|]. by intros [a|e]. Qed.

Lemma calls_only_trace {A} q (p : P A) tr a : calls_only q p → executes p tr a → Forall q tr.
Proof.
  intros Hp Hex. revert Hp. induction Hex as [a|R c k r tr a Hex IH]; [by constructor|]. cbn. intros Hk.
  destruct (Hk r). constructor; auto.
Qed.

Ltac calls :=
  repeat first [ done | apply calls_only_try_wrap | apply calls_only_try | apply calls_only_bind
               | progress (intros; cbn) | split | case_match ].

Lemma count_none q tr : Forall (fun x => q x = false) tr → count q tr = 0.
Proof.
  unfold count. induction 1 as [|x tr Hx _ IH]; [done|]. rewrite countZ_cons, Hx. cbn. lia.
Qed.

Section flow.
Context (cfg : Scheduling.Config) (StateTTL : Duration).
Context (sha256 : string → string) (codeChallengeS256 : string → string) (url_parses : string → bool).

Definition plain (x : ev cmd) : Prop := is_exchange x = false ∧ ∀ h, is_claim h x = false.

(** Calls that neither exchange a code, nor touch states, nor save an account. *)
Definition ordinary (x : ev cmd) : bool :=
  match x with
  | Ev (ExchangeCode _ _ _) _ | Ev (ClaimState _ _) _ | Ev (CreateState _) _ | Ev (SaveAccountTx _) _ => false
  | _ => true
  end.
Definition saves (x : ev cmd) : bool := match x with Ev (SaveAccountTx _) _ => true | _ => false end.

Lemma account_ordinary t previous : calls_only (fun x => ordinary x = true) (accountFromTokenResponse cfg sha256 t previous).
Proof.
  unfold accountFromTokenResponse, kept_refresh_token, account_subject, id_token, expiry, last_refresh, encryptString,
    decryptString. calls.
Qed.

Lemma callback_account_ordinary state i : calls_only (fun x => ordinary x = true) (callback_account state i).
Proof. unfold callback_account. calls. Qed.

Lemma invalidate_ordinary id : calls_only (fun x => ordinary x = true) (invalidateOAuthModelCatalog id).
Proof. unfold invalidateOAuthModelCatalog. calls. Qed.

Lemma calls_only_mono {A} (q q' : ev cmd → Prop) (p : P A) : (∀ x, q x → q' x) → calls_only q p → calls_only q' p.
Proof. intros Hq. induction p as [a|R c k IH]; cbn; [done|]. intros Hk r. destruct (Hk r). auto. Qed.

Lemma store_callback_calls t state (q : ev cmd → Prop) :
  (∀ x, ordinary x = true ∨ saves x = true → q x) → calls_only q (storeCallbackTokenResponse cfg sha256 t state).
Proof.
  intros Hq. assert (∀ A (p : P A), calls_only (fun x => ordinary x = true) p → calls_only q p) as Ho.
  { intros A p. apply calls_only_mono. auto. }
  unfold storeCallbackTokenResponse. apply calls_only_try; [apply Ho, callback_account_ordinary|]. intros previous.
  apply calls_only_try; [apply Ho, account_ordinary|]. intros a.
  apply calls_only_bind; [case_match; [apply Ho, invalidate_ordinary|done]|]. intros [].
  apply calls_only_try; [|intros saved; apply calls_only_bind; [case_match; [done|apply Ho, invalidate_ordinary]|done]].
  unfold SaveAccount. apply calls_only_try; [|intros i]; cbn; intros r; (split; [|done]); apply Hq; auto.
Qed.

Lemma store_callback_plain t state : calls_only plain (storeCallbackTokenResponse cfg sha256 t state).
Proof. apply store_callback_calls. intros [R c r]. by destruct c; intros [|]. Qed.

Lemma verifier_plain claimed : calls_only plain (claimed_verifier sha256 claimed).
Proof. unfold claimed_verifier, decryptString. calls. Qed.

Lemma plain_counts tr : Forall plain tr → count is_exchange tr = 0 ∧ ∀ h, count (is_claim h) tr = 0.
Proof.
  intros Htr. split; [|intros h]; apply count_none; eapply Forall_impl; [exact Htr| |exact Htr|]; intros x [? ?]; auto.
Qed.

(** A callback exchanges its code at most once, and only after claiming the
    state it came with. *)
Lemma callback_exchanges code state tr r :
  executes (CompleteCallback cfg sha256 code state) tr r →
  count is_exchange tr ≤ count (is_claim (sha256 (TrimSpace state))) tr.
Proof.
  unfold CompleteCallback, count. destruct (_ || _); [intros [-> ->]%executes_inv; done|].
  destruct (negb _); [intros [-> ->]%executes_inv; done|].
  intros (now & tr1 & -> & (x & tr2 & -> & Hex)%executes_inv)%executes_inv. rewrite !countZ_cons. cbn [is_exchange is_claim Z.b2z].
  destruct x as [claimed|e]; [|apply executes_inv in Hex as [-> _]; rewrite andb_false_r; done].
  unfold str_eq at 1. rewrite bool_decide_eq_true_2 by done. cbn [andb Z.b2z].
  cbn [bind] in Hex. apply executes_bind in Hex as (v & t1 & t2 & -> & H1 & H2).
  apply (calls_only_trace plain) in H1; [|apply verifier_plain]. destruct (plain_counts _ H1) as [E1 C1]. unfold count in *.
  rewrite !countZ_app, E1, C1.
  destruct v as [v|e]; [|apply executes_inv in H2 as [-> _]; done].
  apply executes_bind in H2 as (tokens & t3 & t4 & -> & H3 & H4).
  apply executes_inv in H3 as (y & t5 & -> & H3). apply executes_inv in H3 as [-> ->].
  assert (countZ is_exchange t4 = 0) as E4.
  { destruct y as [tokens|e]; [|by apply executes_inv in H4 as [-> _]].
    apply (calls_only_trace plain) in H4; [|apply store_callback_plain]. by destruct (plain_counts _ H4). }
  rewrite !countZ_app, !countZ_cons, E4. cbn [is_exchange is_claim Z.b2z]. change (countZ _ []) with 0 at 1.
  pose proof (countZ_nonneg (is_claim (sha256 (TrimSpace state))) t4). change (countZ ?p []) with 0. lia.
Qed.

(** [C24] A connection is completed at most once: however many callbacks arrive
    with the same state, at whatever time and interleaved with anything else,
    the number of codes exchanged for it is at most the number of times it was
    created, counting what was there unconsumed. *)
Theorem oauth_state_single_use provider state d tr d' callbacks rest :
  history provider d tr d' →
  Forall (fun t => ∃ code r, executes (CompleteCallback cfg sha256 code state) t r) callbacks →
  tr ≡ₚ concat callbacks ++ rest →
  count is_exchange (concat callbacks) ≤
    open_states (sha256 (TrimSpace state)) d + count (is_create (sha256 (TrimSpace state))) tr.
Proof.
  intros Hh Hc Hp. set (h := sha256 (TrimSpace state)).
  assert (count is_exchange (concat callbacks) ≤ count (is_claim h) (concat callbacks)) as H1.
  { unfold count. clear Hp. induction Hc as [|t l (code & r & Ht) _ IH]; cbn; [done|]. rewrite !countZ_app.
    apply callback_exchanges in Ht. unfold count in Ht. fold h in Ht. lia. }
  assert (count (is_claim h) (concat callbacks) ≤ count (is_claim h) tr) as H2.
  { unfold count, countZ. rewrite (sumZ_perm _ _ _ Hp), sumZ_app.
    pose proof (countZ_nonneg (is_claim h) rest) as Hn. unfold countZ in Hn. lia. }
  pose proof (history_claims provider h d tr d' Hh) as H3. pose proof (countZ_nonneg (open_state h) (states d')).
  unfold open_states in *. lia.
Qed.

(** ** The code verifier *)

Section verifier.
Context (opens : string → string → option string).

(** Encryption and decryption answer as documented. *)
Definition honest_crypto (x : ev cmd) : Prop :=
  match x with Ev c r =>
    match c in cmd R return R → Prop with
    | EncryptString kind v => fun r => ∀ s, r = Ok s → opens kind s = Some v
    | DecryptString kind s => fun r => ∀ v, r = Ok v → opens kind s = Some v
    | _ => fun _ => True
    end r
  end.

Definition exchange_args (x : ev cmd) : option (string * string * string) :=
  match x with Ev (ExchangeCode c v code) _ => Some (c, v, code) | _ => None end.

Definition claim_answer (x : ev cmd) : option OAuthState :=
  match x with Ev c r => match c in cmd R return R → option OAuthState with
                         | ClaimState _ _ => fun r => match r with Ok s => Some s | Err _ => None end
                         | _ => fun _ => None end r end.

Definition created_state (x : ev cmd) : option OAuthState := match x with Ev (CreateState s) _ => Some s | _ => None end.

Definition no_exchange (x : ev cmd) : Prop := exchange_args x = None.

Lemma store_callback_no_exchange t state : calls_only no_exchange (storeCallbackTokenResponse cfg sha256 t state).
Proof. apply store_callback_calls. intros [R c r]. by destruct c; intros [|]. Qed.

(** What a started connection puts in the table and in the address. *)
Lemma started o tr url :
  executes (StartConnect cfg StateTTL sha256 codeChallengeS256 url_parses o) tr (Ok url) → Forall honest_crypto tr →
  ∃ state v s x, x ∈ tr ∧ created_state x = Some s ∧ StateHash s = sha256 state ∧
    opens Secrets.SecretKindOAuthCodeVerifier (EncryptedCodeVerifier s) = Some v ∧
    O_ClientID s = Scheduling.ClientID cfg ∧
    ("state", state) ∈ query url ∧ ("code_challenge", codeChallengeS256 v) ∈ query url.
Proof.
  unfold StartConnect, try, try_wrap. destruct (negb _); [by intros [_ [=]]%executes_inv|].
  intros (profile & t1 & t2 & -> & _ & H)%executes_bind [_ Hh]%Forall_app.
  destruct profile as [profile|]; [|by apply executes_inv in H as [_ [=]]].
  apply executes_inv in H as (state & t3 & -> & H). destruct state as [state|]; [|by apply executes_inv in H as [_ [=]]].
  apply executes_inv in H as (v & t4 & -> & H). destruct v as [v|]; [|by apply executes_inv in H as [_ [=]]].
  apply executes_inv in H as (enc & t5 & -> & H). destruct enc as [enc|]; [|by apply executes_inv in H as [_ [=]]].
  apply executes_inv in H as (now & t6 & -> & H). apply executes_inv in H as (c & t7 & -> & H).
  destruct c as [[]|]; [|by apply executes_inv in H as [_ [=]]].
  cbn [bind call] in H. destruct (negb (url_parses _)); [by apply executes_inv in H as [_ [=]]|].
  apply executes_inv in H as [-> [= ->]].
  apply Forall_cons in Hh as [_ Hh]. apply Forall_cons in Hh as [_ Hh]. apply Forall_cons in Hh as [Henc _].
  exists state, v. eexists. eexists. split; [apply elem_of_app; right; do 4 right; left|]. split; [reflexivity|].
  cbn. split_and!; [done|by apply Henc|done|set_solver|set_solver].
Qed.

(** The code exchanged on the callback is accompanied by the verifier whose
    challenge was in the authorization address, for the client that started the
    connection. *)
Theorem pkce_roundtrip o tr url :
  executes (StartConnect cfg StateTTL sha256 codeChallengeS256 url_parses o) tr (Ok url) → Forall honest_crypto tr →
  ∃ state v s x, x ∈ tr ∧ created_state x = Some s ∧
    ("state", state) ∈ query url ∧ ("code_challenge", codeChallengeS256 v) ∈ query url ∧ StateHash s = sha256 state ∧
    ∀ code tr' r, executes (CompleteCallback cfg sha256 code state) tr' r → Forall honest_crypto tr' →
      (∀ y c, y ∈ tr' → claim_answer y = Some c → ∃ t, c = stored_state s (Some t)) →
      ∀ y args, y ∈ tr' → exchange_args y = Some args → args = (Scheduling.ClientID cfg, v, TrimSpace code).
Proof.
  intros Hex0 Hh0. destruct (started _ _ _ Hex0 Hh0) as (state & v & s & x & Hx & Hs & Hhash & Hopen & Hclient & Hq1 & Hq2).
  exists state, v, s, x. split_and!; try done. clear x Hx Hs Hq1 Hq2. intros code tr' r Hex Hh Hclaim.
  revert Hex. unfold CompleteCallback. destruct (_ || _); [intros [-> ->]%executes_inv; by intros y args ?%not_elem_of_nil|].
  destruct (negb _); [intros [-> ->]%executes_inv; by intros y args ?%not_elem_of_nil|].
  intros (now & t1 & -> & (a & t2 & -> & Hex)%executes_inv)%executes_inv.
  destruct a as [c|e]; cbn [bind] in Hex.
  2:{ apply executes_inv in Hex as [-> _]. intros y args Hy. by repeat (apply elem_of_cons in Hy as [->|Hy]; [done|]); apply not_elem_of_nil in Hy. }
  destruct (Hclaim (Ev (ClaimState (sha256 (TrimSpace state)) now) (Ok c)) c) as [t ->]; [set_solver|done|].
  apply executes_bind in Hex as (w & t3 & t4 & -> & H3 & H4).
  apply Forall_cons in Hh as [_ Hh]. apply Forall_cons in Hh as [_ Hh]. apply Forall_app in Hh as [Hh3 Hh4].
  (* the verifier *)
  assert ((∀ u, w = Ok u → u = v) ∧ Forall no_exchange t3) as [Hv H3n].
  { revert H3. unfold claimed_verifier. cbn [CodeVerifier stored_state]. rewrite TrimSpace_empty.
    unfold str_eq at 1. rewrite bool_decide_eq_true_2 by done.
    intros (u & t5 & -> & H5)%executes_inv. apply Forall_cons in Hh3 as [Hd _]. cbn [bind] in H5.
    destruct u as [u|e]; [|apply executes_inv in H5 as [-> ->]; split; [done|by constructor; [|constructor]]].
    assert (u = v) as ->. { specialize (Hd u eq_refl). cbn in Hd. congruence. }
    destruct (_ && _); apply executes_inv in H5 as [-> ->]; (split; [by intros ? [= ->]|by constructor; [|constructor]]). }
  intros y args Hy Hargs. apply elem_of_cons in Hy as [->|Hy]; [done|]. apply elem_of_cons in Hy as [->|Hy]; [done|].
  apply elem_of_app in Hy as [Hy|Hy]; [rewrite Forall_forall in H3n; specialize (H3n y Hy); unfold no_exchange in H3n; congruence|].
  destruct w as [u|e]; cbn [bind] in H4; [|apply executes_inv in H4 as [-> _]; by apply not_elem_of_nil in Hy].
  rewrite (Hv u eq_refl) in H4. apply executes_inv in H4 as (tokens & t5 & -> & H5).
  apply elem_of_cons in Hy as [->|Hy].
  - injection Hargs as <-. cbn [O_ClientID stored_state]. rewrite Hclient. by destruct (blank (Scheduling.ClientID cfg)).
  - destruct tokens as [tokens|e]; cbn [bind] in H5; [|apply executes_inv in H5 as [-> _]; by apply not_elem_of_nil in Hy].
    apply (calls_only_trace no_exchange) in H5; [|apply store_callback_no_exchange].
    rewrite Forall_forall in H5. specialize (H5 y Hy). unfold no_exchange in H5. congruence.
Qed.
End verifier.

(** ** Reauthorising an account *)

(** Every answer of a program satisfies a condition. *)
Fixpoint yields {A} (Q : A → Prop) (p : P A) : Prop :=
  match p with Ret a => Q a | Vis c k => ∀ r, yields Q (k r) end.

Lemma yields_try {A : Set} {B} (Q : result perror B → Prop) (p : P (result perror A)) (f : A → P (result perror B)) :
  (∀ e, Q (Err e)) → (∀ a, yields Q (f a)) → yields Q (try p f).
Proof. intros He Hf. unfold try. induction p as [[a|e]|R c k IH]; cbn; auto. Qed.

Lemma yields_try_wrap {A : Set} {B} (Q : result perror B → Prop) m (p : P (result perror A)) (f : A → P (result perror B)) :
  (∀ e, Q (Err e)) → (∀ a, yields Q (f a)) → yields Q (try_wrap m p f).
Proof. intros He Hf. unfold try_wrap. induction p as [[a|e]|R c k IH]; cbn; auto. Qed.

Lemma yields_bind {A B} (Q : B → Prop) (p : P A) (f : A → P B) : (∀ a, yields Q (f a)) → yields Q (bind p f).
Proof. intros Hf. induction p as [a|R c k IH]; cbn; auto. Qed.

Lemma calls_only_try_yields {A : Set} {B} q (Q : A → Prop) (p : P (result perror A)) (f : A → P (result perror B)) :
  calls_only q p → yields (fun r => ∀ a, r = Ok a → Q a) p → (∀ a, Q a → calls_only q (f a)) → calls_only q (try p f).
Proof.
  intros Hp Hy Hf. unfold try. induction p as [[a|e]|R c k IH]; cbn in *; [by apply Hf, Hy|done|].
  intros r. destruct (Hp r). split; [done|]. by apply IH.
Qed.

(** No proxy, no load factor, no limit of concurrent requests. *)
Definition no_settings (a : Account) : Prop :=
  EncryptedProxyURL (Credential a) = "" ∧ LoadFactor a = 0 ∧ MaxConcurrentRequests a = 0.

Definition saved_account (x : ev cmd) : option Account := match x with Ev (SaveAccountTx a) _ => Some a | _ => None end.

Definition saves_without_settings (x : ev cmd) : Prop :=
  match x with
  | Ev (SaveAccountTx a) _ => EncryptedProxyURL (Credential a) = "" ∧ LoadFactor a = 1 ∧ MaxConcurrentRequests a = 0
  | _ => True
  end.

Lemma ok_no_settings (x : Account) : no_settings x → yields (fun r => ∀ a, r = Ok a → no_settings a) (Ret (Ok x) : P (result perror Account)).
Proof. by intros Hx a [= <-]. Qed.

Lemma account_without_settings t previous :
  yields (fun r => ∀ a, r = Ok a → no_settings a) (accountFromTokenResponse cfg sha256 t previous).
Proof.
  unfold accountFromTokenResponse. destruct (blank _); [done|].
  repeat first [apply yields_try; [done|]; intros | apply yields_try_wrap; [done|]; intros | case_match; [done|]
               | apply yields_bind; intros]. apply ok_no_settings. repeat split.
Qed.

Lemma store_callback_saves t state :
  calls_only saves_without_settings (storeCallbackTokenResponse cfg sha256 t state).
Proof.
  assert (∀ A (p : P A), calls_only (fun x => ordinary x = true) p → calls_only saves_without_settings p) as Ho.
  { intros A p. apply calls_only_mono. intros [R c r]. by destruct c. }
  unfold storeCallbackTokenResponse. apply calls_only_try; [apply Ho, callback_account_ordinary|]. intros previous.
  eapply (calls_only_try_yields _ no_settings); [apply Ho, account_ordinary|apply account_without_settings|].
  intros a (H1 & H2 & H3). apply calls_only_bind; [case_match; [apply Ho, invalidate_ordinary|done]|]. intros [].
  apply calls_only_try; [|intros saved; apply calls_only_bind; [case_match; [done|apply Ho, invalidate_ordinary]|done]].
  unfold SaveAccount. apply calls_only_try; [|done]. cbn. intros r. split; [|done]. by rewrite H1, H2, H3.
Qed.

(** Reauthorising an account through the callback drops settings of the
    administrator that have nothing to do with its tokens: whatever the account
    saved over was, afterwards it has no proxy, no limit of concurrent requests
    and the load factor 1. *)
Theorem reauthorisation_drops_settings t state tr r x a old d :
  executes (storeCallbackTokenResponse cfg sha256 t state) tr r → x ∈ tr → saved_account x = Some a → 0 < ID a →
  List.find (is_row (Provider a) (ID a)) (accounts d) = Some old →
  ∀ d' i, save_account a d = (Ok i, d') →
    ∃ new, List.find (is_row (Provider a) (ID a)) (accounts d') = Some new ∧
      EncryptedProxyURL (Credential new) = "" ∧ LoadFactor new = 1 ∧ MaxConcurrentRequests new = 0 ∧
      Name new = Name a ∧ Status new = Status old.
Proof.
  intros Hex Hx Ha Hid Hold d' i Hs.
  apply (calls_only_trace saves_without_settings) in Hex; [|apply store_callback_saves].
  rewrite Forall_forall in Hex. specialize (Hex x Hx). destruct x as [R c r']. destruct c; try discriminate Ha.
  injection Ha as ->. cbn in Hex. destruct Hex as (H1 & H2 & H3).
  unfold save_account in Hs. rewrite bool_decide_eq_true_2 in Hs by done. rewrite Hold in Hs.
  destruct (existsb _ _); [done|]. injection Hs as <- <-. exists (update_row a old). split.
  - unfold on_row. cbn. clear - Hold. induction (accounts d) as [|b l IH]; cbn in *; [done|].
    destruct (is_row (Provider a) (ID a) b) eqn:Hb.
    + injection Hold as ->. assert (is_row (Provider a) (ID a) (update_row a old) = true) as -> by exact Hb. done.
    + rewrite Hb. auto.
  - cbn. rewrite H1, H2, H3. done.
Qed.
End flow.

(** A run against a functional database is a history. *)
Lemma run_history {A} provider (handle : ∀ R : Set, cmd R → db → R * db) (p : P A) d a tr d' :
  (∀ R (c : cmd R) x, state_step provider R c x (handle R c x).1 (handle R c x).2) →
  run handle p d = (a, tr, d') → history provider d tr d'.
Proof.
  intros Hh. revert d tr. induction p as [x|R c k IH]; simpl; intros d tr; [intros [= _ <- <-]; constructor|].
  destruct (handle R c d) as [r d1] eqn:Eh. destruct (run handle (k r) d1) as [[a' tr'] d2] eqn:Er.
  intros [= <- <- <-]. econstructor; [|by eapply IH]. specialize (Hh R c d). by rewrite Eh in Hh.
Qed.

Lemma history_app provider d tr d1 tr' d2 :
  history provider d tr d1 → history provider d1 tr' d2 → history provider d (tr ++ tr') d2.
Proof. induction 1; intros; cbn; [done|by econstructor; [|eauto]|by eapply history_cleanup; [|eauto]]. Qed.

(** ** Concrete runs *)
Module Demo.

Definition seal (kind v : string) : string := kind +++ ":" +++ v.
Definition opens (kind s : string) : option string :=
  match Cut s ":"%char with (k, Some v) => if str_eq k kind then Some v else None | _ => None end.

Definition tokens (access refresh : string) : TokenResponse :=
  {| AccessToken := access; RefreshToken := refresh; IDToken := ""; ExpiresIn := 3600; T_Subject := "sub-1";
     T_DisplayName := "Jo"; T_AccountID := "acct-1"; Email := "jo@example.test"; PlanType := "plus"; T_ClientID := "" |}.

Definition handle (R : Set) (c : cmd R) (d : db) : R * db :=
  match c in cmd R return R * db with
  | Now => (1000 * Second, d)
  | LockRefresh _ => (tt, d)
  | UnlockRefresh _ => (tt, d)
  | EncryptString kind v => (if bool_decide (opens kind (seal kind v) = Some v) then Ok (seal kind v) else Err ErrNotConfigured, d)
  | DecryptString kind s => (match opens kind s with Some v => Ok v | None => Err ErrNotConfigured end, d)
  | GenerateToken prefix => (Ok (prefix +++ "_1"), d)
  | GenerateCodeVerifier => (Ok "verifier", d)
  | ExchangeCode _ _ _ => (Ok (tokens "a-new" "r-new"), d)
  | CallRefreshToken _ token => (Ok (tokens "a-old'" (token +++ "'")), d)
  | ProbeAccountStatus _ _ _ => (Err ErrNotConfigured, d)
  | FindAccountByID id => (find_account "openai" id d, d)
  | FindAccountByIdentity i => (find_by_identity "openai" i d, d)
  | SaveAccountTx a => save_account a d
  | UpdateOAuthCredential id c => update_oauth_credential "openai" id c d
  | RecordRefreshFailure id m t o => record_refresh_failure "openai" id m t o d
  | RecordOAuthRefreshFailureEvent _ => (Ok tt, d)
  | RecordAccountTestResult id st m t => record_test_result "openai" id st m t d
  | RecordAccount id r => record_account "openai" id r d
  | CreateState s => create_state s d
  | ClaimState h now => claim_state "openai" h now d
  | FindFingerprintProfileByID _ => (Ok tt, d)
  | EnsureDefaultCodexFingerprintProfile => (Ok 1, d)
  | InvalidateOAuthModelCatalog _ => (tt, d)
  | ObserveProviderRefresh _ _ => (tt, d)
  end.

Lemma handle_states R (c : cmd R) d : state_step "openai" R c d (handle R c d).1 (handle R c d).2.
Proof.
  destruct c; cbn; try done.
  - unfold save_account, on_row, set_accounts. by repeat case_match.
  - unfold update_oauth_credential, if_row, on_row. by case_match.
  - unfold record_refresh_failure, if_row, on_row. by case_match.
  - unfold record_test_result, if_row, on_row. by case_match.
  - unfold record_account, if_row, on_row. by case_match.
  - left. by destruct (create_state s d).
  - left. by destruct (claim_state "openai" stateHash now d).
Qed.

Definition config : Scheduling.Config :=
  {| Scheduling.CfgProvider := "openai"; Scheduling.ClientID := "client"; Scheduling.RedirectURL := "r";
     Scheduling.AuthURL := "a"; Scheduling.TokenURL := "t"; Scheduling.Secret := "s"; Scheduling.has_keyring := true;
     Scheduling.APIBaseURL := ""; Scheduling.AllowHTTPAPIUpstreams := false |}.

Definition sha (s : string) : string := "sha " +++ s.
Definition challenge (s : string) : string := "S256 " +++ s.

Definition options (target : Z) : ConnectOptions :=
  {| Opt_RedirectAfter := ""; Opt_Name := ""; Opt_Priority := 0; Opt_Enabled := None; Opt_TargetAccountID := target;
     Opt_FingerprintProfileID := None; Opt_Fingerprint := {| F_Value := "fp"; F_UserAgent := "ua"; F_IP := "" |} |}.

Definition start (target : Z) := StartConnect config (600 * Second) sha challenge (fun _ => true) (options target).
Definition callback := CompleteCallback config sha "code" "oauth_state_1".

(** An account behind a proxy, with a limit of concurrent requests. *)
Definition account : Account :=
  let c := {| CredentialType := "oauth_token"; C_EncryptedAccessToken := "oauth-access-token:a0";
              C_EncryptedRefreshToken := "oauth-refresh-token:r0"; C_EncryptedIDToken := ""; C_AccessTokenExpiresAt := None;
              C_LastRefreshAt := None; C_LastRefreshError := ""; C_LastRefreshErrorAt := None; EncryptedAPIKey := "";
              EncryptedProxyURL := "provider-proxy-url:http://proxy"; C_BaseURL := ""; C_Metadata := None |} in
  let a := with_credential c demo_account in
  {| ID := ID a; Provider := Provider a; AccountType := AccountType a; Subject := "sub-0"; Name := Name a;
     DisplayName := DisplayName a; BaseURL := BaseURL a; Credential := Credential a;
     EncryptedAccessToken := ""; EncryptedRefreshToken := ""; EncryptedIDToken := ""; AccessTokenExpiresAt := None;
     LastRefreshAt := None; Enabled := true; Priority := 1; GlobalPriority := 1; RoutingPoolPriority := None;
     LoadFactor := 5; MaxConcurrentRequests := 3; LastUsedAt := None; LastError := ""; LastErrorAt := None;
     LastTestAt := None; LastTestStatus := ""; LastTestError := ""; Metadata := None; Status := "active";
     StatusReason := ""; FingerprintHash := ""; UserAgentHash := ""; IPHash := ""; FailureCount := 0;
     CircuitOpenUntil := None; RateLimitedUntil := None; FingerprintProfileID := None; LastRefreshError := "";
     LastRefreshErrorAt := None |}.

Definition d0 : db := {| accounts := [account]; states := []; test_results := []; next_account := 8 |}.

Definition started7 := run handle (start 7) d0.
Definition first := run handle callback started7.2.
Definition second := run handle callback first.2.

Lemma runs_in_turn s f g :
  s = run handle (start 7) d0 → f = run handle callback s.2 → g = run handle callback f.2 →
  history "openai" d0 (s.1.2 ++ f.1.2 ++ g.1.2) g.2 ∧
  Forall (fun t => ∃ code r, executes (CompleteCallback config sha code "oauth_state_1") t r) [f.1.2; g.1.2].
Proof.
  destruct s as [[rs ts] ds], f as [[rf tf] df], g as [[rg tg] dg]. cbn. intros Hs Hf Hg. symmetry in Hs, Hf, Hg. split.
  - eapply history_app; [by eapply run_history; [apply handle_states|exact Hs]|].
    eapply history_app; eapply run_history; [apply handle_states|exact Hf|apply handle_states|exact Hg].
  - constructor; [|constructor; [|constructor]]; exists "code"; eexists; eapply run_executes; [exact Hf|exact Hg].
Qed.

Lemma started7_def : started7 = run handle (start 7) d0.
Proof. unfold started7. reflexivity. Qed.
Lemma first_def : first = run handle callback started7.2.
Proof. unfold first. reflexivity. Qed.
Lemma second_def : second = run handle callback first.2.
Proof. unfold second. reflexivity. Qed.

(** The second callback with the same state is refused and exchanges nothing. *)
Example second_callback_refused : second.1.1 = Err ErrInvalidState ∧ count is_exchange second.1.2 = 0.
Proof. vm_compute. done. Qed.

Lemma oauth_state_single_use_witness :
  count is_exchange (concat [first.1.2; second.1.2]) = 1 ∧
  count is_exchange (concat [first.1.2; second.1.2]) ≤
    open_states (sha (TrimSpace "oauth_state_1")) d0
    + count (is_create (sha (TrimSpace "oauth_state_1"))) (started7.1.2 ++ first.1.2 ++ second.1.2).
Proof.
  split; [vm_compute; reflexivity|].
  apply (oauth_state_single_use config sha "openai" "oauth_state_1" d0 (started7.1.2 ++ first.1.2 ++ second.1.2) second.2
           [first.1.2; second.1.2] started7.1.2).
  - exact (proj1 (runs_in_turn started7 first second started7_def first_def second_def)).
  - exact (proj2 (runs_in_turn started7 first second started7_def first_def second_def)).
  - cbn [concat]. rewrite app_nil_r. by rewrite (Permutation_app_comm started7.1.2).
Defined.

Lemma handle_honest R (c : cmd R) d : honest_crypto opens (Ev c (handle R c d).1).
Proof.
  destruct c; cbn; try done.
  - intros s. case_bool_decide; [by intros [= <-]|done].
  - intros v. destruct (opens kind value); [by intros [= <-]|done].
Qed.

Lemma run_honest {A} (p : P A) d a tr d' : run handle p d = (a, tr, d') → Forall (honest_crypto opens) tr.
Proof.
  revert d tr. induction p as [x|R c k IH]; simpl; intros d tr; [intros [= _ <- _]; constructor|].
  destruct (handle R c d) as [r d1] eqn:Eh. destruct (run handle (k r) d1) as [[a' tr'] d2] eqn:Er.
  intros [= <- <- <-]. constructor; [|by eapply IH]. pose proof (handle_honest R c d) as H. by rewrite Eh in H.
Qed.

Definition demo_url : authorization_url :=
  {| base := "a"; query := [("response_type", "code"); ("client_id", "client"); ("redirect_uri", "r");
       ("scope", defaultOpenAIOAuthScopes); ("state", "oauth_state_1"); ("code_challenge", "S256 verifier");
       ("code_challenge_method", "S256"); ("id_token_add_organizations", "true"); ("codex_cli_simplified_flow", "true")] |}.

Lemma started_run s : s = run handle (start 7) d0 → s.1.1 = Ok demo_url →
  executes (start 7) s.1.2 (Ok demo_url) ∧ Forall (honest_crypto opens) s.1.2.
Proof.
  destruct s as [[r tr] d]. cbn. intros Hs ->. symmetry in Hs. split; [by eapply run_executes|by eapply run_honest].
Qed.

Lemma pkce_roundtrip_witness :
  ∃ state v s x, x ∈ started7.1.2 ∧ created_state x = Some s ∧
    ("state", state) ∈ query demo_url ∧ ("code_challenge", challenge v) ∈ query demo_url ∧ StateHash s = sha state ∧
    ∀ code tr' r, executes (CompleteCallback config sha code state) tr' r → Forall (honest_crypto opens) tr' →
      (∀ y c, y ∈ tr' → claim_answer y = Some c → ∃ t, c = stored_state s (Some t)) →
      ∀ y args, y ∈ tr' → exchange_args y = Some args → args = ("client", v, TrimSpace code).
Proof.
  assert (started7.1.1 = Ok demo_url) as Hr by (vm_compute; reflexivity).
  destruct (started_run started7 started7_def Hr) as [H1 H2].
  exact (pkce_roundtrip config (600 * Second) sha challenge (fun _ => true) opens (options 7) started7.1.2 demo_url H1 H2).
Defined.

(** The state claimed by a callback for the account 7. *)
Definition claimed : OAuthState :=
  {| O_Provider := "openai"; StateHash := ""; RedirectAfter := "/"; ExpiresAt := 0; ConsumedAt := None; CodeVerifier := "";
     EncryptedCodeVerifier := ""; CodeVerifierHash := ""; O_ClientID := ""; TargetAccountID := 7; PendingAccountName := "";
     PendingPriority := 0; PendingEnabled := None; PendingFingerprintProfileID := None; O_FingerprintHash := "";
     O_UserAgentHash := ""; O_IPHash := "" |}.

Definition stored_run := run handle (storeCallbackTokenResponse config sha (tokens "a-new" "r-new") claimed) d0.
Definition save_call : ev cmd := default (Ev Now 0) (List.find saves stored_run.1.2).
Definition to_save : Account := default account (saved_account save_call).

Lemma stored_run_def : stored_run = run handle (storeCallbackTokenResponse config sha (tokens "a-new" "r-new") claimed) d0.
Proof. unfold stored_run. reflexivity. Qed.

Lemma stored_run_executes s :
  s = run handle (storeCallbackTokenResponse config sha (tokens "a-new" "r-new") claimed) d0 →
  executes (storeCallbackTokenResponse config sha (tokens "a-new" "r-new") claimed) s.1.2 s.1.1.
Proof. destruct s as [[r tr] d]. cbn. intros Hs. symmetry in Hs. by eapply run_executes. Qed.

Lemma found_in {A} (p : A → bool) l y : p y = false → p (default y (List.find p l)) = true → default y (List.find p l) ∈ l.
Proof.
  intros Hy Hp. destruct (List.find p l) as [z|] eqn:E; cbn in Hp |- *; [|congruence].
  apply find_some in E as [? _]. by apply list_elem_of_In.
Qed.

Lemma save_call_in : save_call ∈ stored_run.1.2.
Proof. unfold save_call. apply found_in; [reflexivity|]. vm_compute. reflexivity. Qed.

(** The account had a proxy, the limit 3 and the load factor 5. *)
Lemma reauthorisation_drops_settings_witness :
  EncryptedProxyURL (Credential account) = "provider-proxy-url:http://proxy" ∧
  ∃ new, List.find (is_row "openai" 7) (accounts stored_run.2) = Some new ∧
    EncryptedProxyURL (Credential new) = "" ∧ LoadFactor new = 1 ∧ MaxConcurrentRequests new = 0 ∧
    Name new = "main" ∧ Status new = "active".
Proof.
  split; [reflexivity|].
  assert (ID to_save = 7) as Hid by (vm_compute; reflexivity).
  assert (Provider to_save = "openai") as Hp by (vm_compute; reflexivity).
  assert (Name to_save = "main") as Hn by (vm_compute; reflexivity).
  rewrite <- Hid, <- Hp, <- Hn. change "active" with (Status account).
  apply (reauthorisation_drops_settings config sha (tokens "a-new" "r-new") claimed stored_run.1.2 stored_run.1.1
           save_call to_save account d0) with (i := 7).
  - apply stored_run_executes, stored_run_def.
  - exact save_call_in.
  - vm_compute. reflexivity.
  - vm_compute. reflexivity.
  - vm_compute. reflexivity.
  - vm_compute. reflexivity.
Defined.

(** A refresh under way when the account is reauthorised: the refresh reads the
    account and has its token rotated, the callback stores the tokens of the new
    grant, then the refresh stores those of the old one over them. *)
Definition overlap : option (result perror Account * result perror Account * db) :=
  run2 handle (repeat true 5 ++ repeat false 12 ++ repeat true 9)
    (RefreshAccount config false sha (fun _ => None) (fun _ => "") 7) callback started7.2.

(** What the callback reported stored, and what is stored at the end. *)
Lemma refresh_overwrites_reauthorisation :
  match overlap with
  | Some (_, Ok saved, d) =>
      (C_EncryptedRefreshToken (Credential saved), map (fun a => C_EncryptedRefreshToken (Credential a)) (accounts d))
  | _ => ("", [])
  end = ("oauth-refresh-token:r-new", ["oauth-refresh-token:r0'"]).
Proof. vm_compute. reflexivity. Qed.
End Demo.
End OAuthThms.
