(* ===== verification/SystemEvents.v ===== *)
(** * System events

    [systemevent/event.go]: the events the program records, their validation,
    and the check that metadata carries no key that looks like a secret.  The
    address parser and the encoder of metadata are parameters. *)

From S2P Require Import Prelude GoStrings Json Secrets.
From Stdlib Require Import Ascii.
From Stdlib Require String.

Module SystemEvents.
Import Secrets (bytes_of, string_of).

(** ** Constants *)

Definition MaxNameLength : Z := 128.
Definition MaxCodeLength : Z := 100.
Definition MaxMessageLength : Z := 500.
Definition MaxMetadataEncodedSize : Z := 8 * 1024.

Definition CategoryAudit : string := "audit".
Definition CategorySecurity : string := "security".
Definition CategoryOAuth : string := "oauth".
Definition CategoryScheduler : string := "scheduler".
Definition CategoryRuntime : string := "runtime".
Definition SeverityInfo : string := "info".
Definition SeverityWarning : string := "warning".
Definition SeverityError : string := "error".
Definition OutcomeSuccess : string := "success".
Definition OutcomeFailure : string := "failure".
Definition OutcomePartial : string := "partial".
Definition ActorAdmin : string := "admin".
Definition ActorSystem : string := "system".

Definition ActionAlertDeliveryTested : string := "alert_delivery.tested".
Definition ActionAlertDeliveryFailed : string := "alert_delivery.failed".
Definition ActionAlertDeliveryQueueOverflow : string := "alert_delivery.queue_overflow".

Definition knownActions : list string :=
  ["auth.login.succeeded"; "auth.login.failed"; "auth.session.rejected"; "auth.session.revoked";
   "auth.sessions.revoked_others"; "auth.logout.succeeded"; "auth.password.changed";
   "auth.password.change_failed"; "auth.bootstrap.created"; "auth.bootstrap.username_updated";
   "api_key.created"; "api_key.secret.viewed"; "api_key.renamed"; "api_key.enabled"; "api_key.disabled";
   "api_key.status_update.failed"; "api_key.model_policy.updated"; "api_key.limits.updated";
   "api_key.budgets.updated"; "api_key.routing_pool.updated"; "api_key.budget.threshold_80.crossed";
   "api_key.budget.threshold_80.recovered"; "api_key.budget.threshold_100.crossed";
   "api_key.budget.threshold_100.recovered"; "api_key.routing_pool.exhausted";
   "api_key.routing_pool.recovered"; "api_key.revoked"; "api_key.deleted"; "api_key.purged";
   "routing_pool.created"; "routing_pool.updated"; "routing_pool.deleted"; "routing_pool.accounts.replaced";
   "request_log.cleanup.completed"; "request_log.exported"; "request_log.export.accepted";
   "request_log.export.completed"; "configuration.exported"; "gateway_settings.updated";
   "model_settings.updated"; "usage_pricing.updated"; "usage_pricing.synced";
   "usage_pricing.shutdown_removed"; "usage_pricing.upcoming_ignored"; "fingerprint_profile.created";
   "fingerprint_profile.updated"; "fingerprint_profile.deleted"; "error_passthrough_rule.created";
   "error_passthrough_rule.updated"; "error_passthrough_rule.deleted"; "provider_account.created";
   "provider_account.updated"; "provider_account.disconnected"; "provider_account.disconnect_all";
   "provider_account.paused"; "provider_account.status_reset"; "provider_account.tested";
   "provider_account.model_tested"; "provider_account.models.replaced"; "provider_account.models.synced";
   "provider_account.batch.updated"; "provider_account.batch.disconnected"; "provider_account.batch.paused";
   "provider_account.batch.status_reset"; "provider_account.batch.tested"; "provider_account.batch.refreshed";
   "provider_account.batch.models_replaced"; "oauth.connect.started"; "oauth.connect.failed";
   "oauth.callback.completed"; "oauth.callback.failed"; "oauth.state_cleanup.completed";
   "oauth.refresh.manual.succeeded"; "oauth.refresh.manual.failed"; "oauth.refresh.automatic.succeeded";
   "oauth.refresh.automatic.failed"; "oauth.refresh.diagnostic.failed";
   "scheduler.provider_account_auto_test.completed"; "scheduler.provider_account_auto_test.failed";
   "scheduler.api_key_purge.completed"; "scheduler.api_key_purge.failed";
   "scheduler.system_event_retention.completed"; "scheduler.system_event_retention.failed";
   "scheduler.request_log_retention.succeeded"; "scheduler.request_log_retention.failed";
   "scheduler.response_affinity_retention.succeeded"; "scheduler.response_affinity_retention.failed";
   "provider_account.circuit.opened"; "provider_account.rate_limited"; "provider_account.expired";
   "provider_account.recovered"; "alert_action.created"; "alert_action.updated"; "alert_action.deleted";
   "alert_rule.created"; "alert_rule.updated"; "alert_rule.deleted"; "alert_delivery.tested";
   "alert_delivery.failed"; "alert_delivery.queue_overflow"].

(** ** Data *)

Record Actor := { Actor_Type : string; Actor_ID : Z; Actor_Name : string }.

Record RequestContext := {
  RC_CorrelationID : string; RC_SourceIP : string; RC_HTTPMethod : string; RC_RoutePattern : string; RC_Actor : Actor
}.

Record Target := { Target_Type : string; Target_ID : string; Target_Name : string }.

#[export] Instance Target_eq_dec : EqDecision Target.
Proof. solve_decision. Defined.

(** A Go map: its entries, the keys distinct; [None] is the nil map. *)
Abbreviation entries := (list (string * Json.json)).
Abbreviation metadata := (option entries).

Record EventIntent := {
  I_Category : string; I_Severity : string; I_Action : string; I_Outcome : string; I_Target : Target;
  I_ErrorCode : string; I_Message : string; I_Metadata : metadata; StartedAt : Time
}.

Record Event := {
  Event_ID : Z; OccurredAt : Time; Category : string; Severity : string; Action : string; Outcome : string;
  Event_Actor : Actor; Event_Target : Target; CorrelationID : string; SourceIP : string; HTTPMethod : string;
  RoutePattern : string; StatusCode : option Z; DurationMS : Z; ErrorCode : string; Message : string;
  Metadata : metadata
}.

Inductive serror := ErrInvalidEvent | ErrInvalidCursor.

(** ** Correlation identifiers *)

(** [hex.EncodeToString] *)
Definition hex_digit (n : Z) : ascii := ascii_of_N (Z.to_N (if bool_decide (n < 10) then 48 + n else 87 + n)).
Definition hex_bytes (l : list ascii) : list ascii :=
  l ≫= fun a => [hex_digit (byte_of a / 16); hex_digit (byte_of a mod 16)].
Definition hex_EncodeToString (l : list ascii) : string := string_of (hex_bytes l).

Definition alnum (a : ascii) : bool :=
  bool_decide (48 ≤ byte_of a ≤ 57) || bool_decide (65 ≤ byte_of a ≤ 90) || bool_decide (97 ≤ byte_of a ≤ 122).
Definition id_char (a : ascii) : bool :=
  alnum a || existsb (fun c => bool_decide (a = c)) ["."; "_"; ":"; "-"]%char.

Definition ValidCorrelationID (value : string) : bool :=
  match bytes_of value with
  | [] => false
  | a :: l => alnum a && forallb id_char l && bool_decide (Z.of_nat (length l) ≤ 99)
  end.

(** The sixteen random bytes are an argument. *)
Definition NewCorrelationID (random : list ascii) : string := hex_EncodeToString random.

Definition NormalizeCorrelationID (value : string) (random : list ascii) : string :=
  let value := TrimSpace value in
  if ValidCorrelationID value then value else NewCorrelationID random.

(** ** Building an event *)

Definition cloneMetadata (m : metadata) : metadata := Some (default [] m).

(** [request] is the request context, if the context carries one. *)
Definition BuildEvent (request : option RequestContext) (random : list ascii) (intent : EventIntent) (target : Target)
    (occurredAt now : Time) (duration : Duration) : Event :=
  let request := match request with
    | Some request => request
    | None => {| RC_CorrelationID := NewCorrelationID random; RC_SourceIP := ""; RC_HTTPMethod := "";
                 RC_RoutePattern := "";
                 RC_Actor := {| Actor_Type := ActorSystem; Actor_ID := 0; Actor_Name := "" |} |}
    end in
  let target := if bool_decide (target = Build_Target "" "" "") then I_Target intent else target in
  let occurredAt := if time_is_zero occurredAt then now else occurredAt in
  {| Event_ID := 0; OccurredAt := occurredAt; Category := I_Category intent; Severity := I_Severity intent;
     Action := I_Action intent; Outcome := I_Outcome intent; Event_Actor := RC_Actor request; Event_Target := target;
     CorrelationID := RC_CorrelationID request; SourceIP := RC_SourceIP request; HTTPMethod := RC_HTTPMethod request;
     RoutePattern := RC_RoutePattern request; StatusCode := None; DurationMS := Z.max (Z.quot duration 1000000) 0;
     ErrorCode := I_ErrorCode intent; Message := I_Message intent; Metadata := cloneMetadata (I_Metadata intent) |}.

(** ** Validation *)

Definition one_of (l : list string) (value : string) : bool := existsb (str_eq value) l.

Definition validCategory : string → bool :=
  one_of [CategoryAudit; CategorySecurity; CategoryOAuth; CategoryScheduler; CategoryRuntime].
Definition validSeverity : string → bool := one_of [SeverityInfo; SeverityWarning; SeverityError].
Definition validOutcome : string → bool := one_of [OutcomeSuccess; OutcomeFailure; OutcomePartial].
Definition validActorType : string → bool := one_of [ActorAdmin; ActorSystem].
Definition IsKnownAction : string → bool := one_of knownActions.
Definition IsAlertDeliveryInternalAction : string → bool :=
  one_of [ActionAlertDeliveryTested; ActionAlertDeliveryFailed; ActionAlertDeliveryQueueOverflow].

(** [strings.ContainsAny(s, chars)] for ASCII characters. *)
Definition ContainsAny (s : string) (chars : list ascii) : bool :=
  existsb (fun a => existsb (fun c => bool_decide (a = c)) chars) (bytes_of s).

Definition secret_words : list string :=
  ["password"; "secret"; "token"; "authorization"; "cookie"; "oauthcode"; "state"; "nonce"; "verifier"; "challenge";
   "requestbody"; "responsebody"; "proxyurl"].

Definition secretLikeKey (key : string) : bool :=
  let separator a := existsb (fun c => bool_decide (a = c)) ["-"; "_"; "."]%char in
  let normalized := string_of (List.filter (fun a => negb (separator a)) (bytes_of (ToLower key))) in
  existsb (Contains normalized) secret_words.

(** On what [json.Unmarshal] into [any] makes of a document: of members with
    one name the last one counts. *)
Fixpoint metadataKeysSafe (value : Json.json) : bool :=
  match value with
  | Json.JObject ms =>
      (fix members (ms : list (string * (string * Json.json))) : bool :=
         match ms with
         | [] => true
         | (key, (_, child)) :: ms =>
             (existsb (fun m => str_eq m.1 key) ms || negb (secretLikeKey key) && metadataKeysSafe child) && members ms
         end) ms
  | Json.JArray l => forallb metadataKeysSafe l
  | _ => true
  end.

Definition encodedMetadataKeysSafe (encoded : string) : bool :=
  match Json.parse encoded with
  | Some v => Json.in_range v && metadataKeysSafe v
  | None => false
  end.

Section validation.

(** [netip.ParseAddr] accepts the text; [json.Marshal] of a map. *)
Variable ParseAddr : string → bool.
Variable Marshal : entries → option string.

Definition metadataOrEmpty (m : metadata) : entries := default [] m.

(** The encoded metadata is small and has no key that looks like a secret. *)
Definition metadata_ok (m : entries) : bool :=
  match Marshal m with
  | Some encoded => bool_decide (go_len encoded ≤ MaxMetadataEncodedSize) && encodedMetadataKeysSafe encoded
  | None => false
  end.

Definition ValidateEvent (e : Event) : result serror unit :=
  if negb (validCategory (Category e)) || negb (validSeverity (Severity e)) || negb (validOutcome (Outcome e))
     || negb (validActorType (Actor_Type (Event_Actor e))) then Err ErrInvalidEvent
  else if negb (IsKnownAction (Action e)) || negb (ValidCorrelationID (CorrelationID e)) then Err ErrInvalidEvent
  else if bool_decide (MaxNameLength < go_len (Actor_Name (Event_Actor e)))
          || bool_decide (MaxNameLength < go_len (Target_Type (Event_Target e)))
          || bool_decide (MaxNameLength < go_len (Target_ID (Event_Target e)))
          || bool_decide (MaxNameLength < go_len (Target_Name (Event_Target e))) then Err ErrInvalidEvent
  else if bool_decide (MaxCodeLength < go_len (ErrorCode e)) || bool_decide (MaxMessageLength < go_len (Message e))
          || ContainsAny (Message e) ["013"; "010"]%char then Err ErrInvalidEvent
  else if match StatusCode e with Some c => bool_decide (c < 100) || bool_decide (599 < c) | None => false end
          || bool_decide (DurationMS e < 0) then Err ErrInvalidEvent
  else if negb (str_eq (SourceIP e) "") && negb (ParseAddr (SourceIP e)) then Err ErrInvalidEvent
  else if negb (metadata_ok (metadataOrEmpty (Metadata e))) then Err ErrInvalidEvent
  else Ok tt.

Definition ValidateIntent (random : list ascii) (now : Time) (intent : EventIntent) : result serror unit :=
  ValidateEvent
    {| Event_ID := 0; OccurredAt := now; Category := I_Category intent; Severity := I_Severity intent;
       Action := I_Action intent; Outcome := I_Outcome intent;
       Event_Actor := {| Actor_Type := ActorSystem; Actor_ID := 0; Actor_Name := "" |}; Event_Target := I_Target intent;
       CorrelationID := NewCorrelationID random; SourceIP := ""; HTTPMethod := ""; RoutePattern := "";
       StatusCode := None; DurationMS := 0; ErrorCode := I_ErrorCode intent; Message := I_Message intent;
       Metadata := I_Metadata intent |}.

Definition SafeMetadata (values : metadata) (allowedKeys : list string) : result serror metadata :=
  if existsb (fun kv => negb (one_of allowedKeys kv.1) || secretLikeKey kv.1) (default [] values)
  then Err ErrInvalidEvent
  else
    let result := cloneMetadata values in
    if metadata_ok (default [] result) then Ok result else Err ErrInvalidEvent.

End validation.

(** ** Lemmas *)

Lemma one_of_spec l v : one_of l v = true ↔ v ∈ l.
Proof.
  unfold one_of. rewrite existsb_exists. split.
  - intros (x & Hin & Heq%bool_decide_eq_true). subst. by apply list_elem_of_In.
  - intros Hin. exists v. split; [by apply list_elem_of_In|]. by apply bool_decide_eq_true.
Qed.

(** The actions the alert delivery records are known actions. *)
Lemma internal_known a : IsAlertDeliveryInternalAction a = true → IsKnownAction a = true.
Proof.
  unfold IsAlertDeliveryInternalAction, IsKnownAction. intros H%one_of_spec. apply one_of_spec. revert a H.
  apply Forall_forall, Forall_fold_right. vm_compute. set_solver.
Qed.

Lemma hex_digit_id n : 0 ≤ n < 16 → id_char (hex_digit n) = true ∧ alnum (hex_digit n) = true.
Proof.
  intros Hn. assert (n ∈ seqZ 0 16) as Hin by (apply elem_of_seqZ; lia). clear Hn. revert n Hin.
  apply Forall_forall. repeat constructor.
Qed.

Lemma byte_range a : 0 ≤ byte_of a < 256.
Proof. unfold byte_of. pose proof (N_ascii_bounded a). lia. Qed.

Lemma hex_bytes_digits l : Forall (fun c => id_char c = true ∧ alnum c = true) (hex_bytes l).
Proof.
  induction l as [|a l IH]; [constructor|]. pose proof (byte_range a). unfold hex_bytes. cbn [mbind list_bind app].
  repeat constructor; try exact IH; apply hex_digit_id.
  all: split; [apply Z.div_pos; lia|apply Z.div_lt_upper_bound; lia] || (apply Z.mod_pos_bound; lia).
Qed.

Lemma hex_bytes_length l : length (hex_bytes l) = (2 * length l)%nat.
Proof. induction l as [|a l IH]; [done|]. unfold hex_bytes in *. cbn [mbind list_bind app length]. lia. Qed.

(** A fresh correlation identifier is a valid one. *)
Lemma NewCorrelationID_valid random : length random = 16%nat → ValidCorrelationID (NewCorrelationID random) = true.
Proof.
  intros Hlen. unfold NewCorrelationID, ValidCorrelationID, hex_EncodeToString, bytes_of, string_of.
  rewrite String.list_ascii_of_string_of_list_ascii. pose proof (hex_bytes_length random) as Hl.
  pose proof (hex_bytes_digits random) as Hd. destruct (hex_bytes random) as [|a l]; simpl in Hl; [lia|].
  apply Forall_cons in Hd as [[_ Ha] Hd']. rewrite Ha. cbn [andb]. apply andb_true_iff; split.
  - apply forallb_forall. intros c Hc%list_elem_of_In. rewrite Forall_forall in Hd'. by apply Hd'.
  - apply bool_decide_eq_true. lia.
Qed.

Lemma ValidateEvent_known ParseAddr Marshal e :
  ValidateEvent ParseAddr Marshal e = Ok tt → IsKnownAction (Action e) = true.
Proof. unfold ValidateEvent. by destruct (IsKnownAction (Action e)); [|case_bool]. Qed.

End SystemEvents.
