(* ===== verification/Alerting.v ===== *)
(** * Alerting: actions, rules and the rule state machine

    [alerting/model.go], [alerting/matcher.go], [alerting/templates.go] and the
    validation of [alerting/service.go].  SHA-256, URL and address parsing are
    parameters; so are the parameters of event validation. *)

From S2P Require Import Prelude GoStrings Json Secrets SystemEvents.
From Stdlib Require Import Ascii.
From Stdlib Require String.

Module Alerting.
Import Secrets (bytes_of, string_of).
Import SystemEvents (Event, Target, hex_EncodeToString, IsAlertDeliveryInternalAction, IsKnownAction, validCategory,
  validSeverity, ContainsAny, alnum, ValidCorrelationID).

(** ** Constants and data *)

Definition MaxActionNameLength : Z := 128.
Definition MaxActionDestinationLength : Z := 4096.
Definition MaxRuleNameLength : Z := 128.
Definition MaxRuleStatesPerRule : Z := 1024.
Definition MaxAggregationCount : Z := 1024.
Definition MaxAggregationWindowSeconds : Z := 24 * 60 * 60.
Definition MaxCooldownSeconds : Z := 7 * 24 * 60 * 60.
Definition ActionTestAdmissionWindow : Duration := 30 * Second.

Definition ActionTestStatusPassed : string := "passed".
Definition ActionTestStatusFailed : string := "failed".
Definition ActionKindGenericWebhook : string := "generic_webhook".
Definition ActionKindNtfy : string := "ntfy".
Definition DeduplicationScopeRule : string := "rule".
Definition DeduplicationScopeTarget : string := "target".
Definition StatePhaseIdle : string := "idle".
Definition StatePhaseFiring : string := "firing".

Inductive Decision := DecisionNone | DecisionNotify | DecisionSuppress | DecisionRecover.

#[export] Instance Decision_eq_dec : EqDecision Decision.
Proof. solve_decision. Defined.

(** [ErrRateLimited d] is a [RateLimitError] to be retried after [d];
    [ErrDatabase] is any other error of the database. *)
Inductive alert_error :=
| ErrInvalidInput
| ErrNotFound
| ErrRepository
| ErrStateCapacity
| ErrConflict
| ErrRateLimited (RetryAfter : Duration)
| ErrCanceled
| ErrDatabase.

#[export] Instance alert_error_eq_dec : EqDecision alert_error.
Proof. solve_decision. Defined.

Record Action := {
  A_ID : Z; A_Name : string; A_Kind : string; A_Enabled : bool; DestinationConfigured : bool;
  LastTestedAt : option Time; LastTestStatus : string; LastTestHTTPStatus : option Z; LastTestLatencyMS : Z;
  LastTestErrorCode : string; LastTestRetryable : bool; A_CreatedAt : Time; A_UpdatedAt : Time
}.

Record ActionCreate := { C_Name : string; C_Kind : string; C_EncryptedDestination : string; C_Enabled : bool }.

Record ActionUpdate := {
  U_Name : string; U_Kind : string; U_EncryptedDestination : option string; U_Enabled : bool; U_ExpectedUpdatedAt : Time
}.

Record ActionForDelivery := {
  D_ID : Z; D_Name : string; D_Kind : string; D_Enabled : bool; D_EncryptedDestination : string; D_UpdatedAt : Time
}.

Record ResolvedAction := {
  R_ID : Z; R_Name : string; R_Kind : string; R_Enabled : bool; R_Destination : string; R_UpdatedAt : Time
}.

Record ActionTestStart := { S_Action : ActionForDelivery; S_AttemptToken : string; S_StartedAt : Time }.
Record ActionTestAttempt := { T_Action : ResolvedAction; T_AttemptToken : string; T_StartedAt : Time }.

Record ActionTestResult := {
  TestedAt : Time; Status : string; HTTPStatus : option Z; LatencyMS : Z; T_ErrorCode : string; T_Retryable : bool
}.

Record Rule := {
  ID : Z; TemplateKey : string; Name : string; ActionID : Z; Enabled : bool; Category : string; Severity : string;
  EventAction : string; RecoveryAction : string; AggregationCount : Z; AggregationWindowSeconds : Z;
  CooldownSeconds : Z; DeduplicationScope : string; NotifyRecovery : bool; CreatedAt : Time; UpdatedAt : Time
}.

#[export] Instance Rule_eq_dec : EqDecision Rule.
Proof. solve_decision. Defined.

Record RuleState := {
  RuleID : Z; KeyHash : string; Phase : string; WindowStartedAt : option Time; WindowMatchCount : Z;
  CooldownUntil : option Time; LastMatchedAt : option Time; LastNotifiedAt : option Time;
  LastRecoveredAt : option Time; S_UpdatedAt : Time
}.

#[export] Instance RuleState_eq_dec : EqDecision RuleState.
Proof. solve_decision. Defined.

(** A [DeduplicationKeyHash] computed for a key that has no state yet. *)
Definition initial_state (rule_id : Z) (hash : string) : RuleState :=
  {| RuleID := rule_id; KeyHash := hash; Phase := StatePhaseIdle; WindowStartedAt := None; WindowMatchCount := 0;
     CooldownUntil := None; LastMatchedAt := None; LastNotifiedAt := None; LastRecoveredAt := None; S_UpdatedAt := 0 |}.

(** ** Rule validation *)

(** [unicode.IsControl] of some character: bytes below 32 and 127, and the
    two-byte characters U+0080 to U+009F. *)
Fixpoint has_control (l : list ascii) : bool :=
  match l with
  | [] => false
  | a :: l =>
      bool_decide (byte_of a < 32) || bool_decide (byte_of a = 127)
      || (bool_decide (byte_of a = 194) && match l with b :: _ => bool_decide (128 ≤ byte_of b ≤ 159) | [] => false end)
      || has_control l
  end.

Definition invalidName (value : string) (maxLength : Z) : bool :=
  if str_eq (TrimSpace value) "" || bool_decide (maxLength < go_len value) then true else has_control (bytes_of value).

Definition empty (s : string) : bool := str_eq s "".

Definition validate (r : Rule) : result alert_error unit :=
  if invalidName (Name r) MaxRuleNameLength || bool_decide (ActionID r ≤ 0) then Err ErrInvalidInput
  else if empty (Category r) && empty (Severity r) && empty (EventAction r) then Err ErrInvalidInput
  else if negb (empty (Category r)) && negb (validCategory (Category r)) then Err ErrInvalidInput
  else if negb (empty (Severity r)) && negb (validSeverity (Severity r)) then Err ErrInvalidInput
  else if negb (empty (EventAction r)) && negb (IsKnownAction (EventAction r)) then Err ErrInvalidInput
  else if negb (empty (RecoveryAction r)) && negb (IsKnownAction (RecoveryAction r)) then Err ErrInvalidInput
  else if IsAlertDeliveryInternalAction (EventAction r) || IsAlertDeliveryInternalAction (RecoveryAction r)
  then Err ErrInvalidInput
  else if negb (empty (EventAction r)) && str_eq (RecoveryAction r) (EventAction r) then Err ErrInvalidInput
  else if NotifyRecovery r && empty (RecoveryAction r) then Err ErrInvalidInput
  else if bool_decide (AggregationCount r < 1) || bool_decide (MaxAggregationCount < AggregationCount r)
  then Err ErrInvalidInput
  else if bool_decide (AggregationWindowSeconds r < 0)
          || bool_decide (MaxAggregationWindowSeconds < AggregationWindowSeconds r) then Err ErrInvalidInput
  else if bool_decide (1 < AggregationCount r) && bool_decide (AggregationWindowSeconds r = 0) then Err ErrInvalidInput
  else if bool_decide (CooldownSeconds r < 0) || bool_decide (MaxCooldownSeconds < CooldownSeconds r)
  then Err ErrInvalidInput
  else if negb (str_eq (DeduplicationScope r) DeduplicationScopeRule)
          && negb (str_eq (DeduplicationScope r) DeduplicationScopeTarget) then Err ErrInvalidInput
  else Ok tt.

(** ** Matching and deduplication *)

(** [binary.BigEndian.PutUint64] of a length, and a component behind it. *)
Definition be64 (n : Z) : list ascii :=
  map (fun i => ascii_of_N (Z.to_N (n / 2 ^ (8 * i) mod 256))) [7; 6; 5; 4; 3; 2; 1; 0].
Definition component (value : string) : list ascii := be64 (go_len value) ++ bytes_of value.

Definition dedup_message (r : Rule) (e : Event) : list ascii :=
  component "n2api-alert-deduplication-v1" ++ component (FormatInt (ID r)) ++ component (DeduplicationScope r)
  ++ (if str_eq (DeduplicationScope r) DeduplicationScopeTarget
      then component (SystemEvents.Target_Type (SystemEvents.Event_Target e))
           ++ component (SystemEvents.Target_ID (SystemEvents.Event_Target e))
      else []).

(** [time.Duration(seconds) * time.Second] *)
Definition seconds (n : Z) : Duration := wrap64 (n * Second).

Definition markNotified (s : RuleState) (now : Time) (cooldownSeconds : Z) : RuleState :=
  {| RuleID := RuleID s; KeyHash := KeyHash s; Phase := Phase s; WindowStartedAt := WindowStartedAt s;
     WindowMatchCount := WindowMatchCount s; CooldownUntil := Some (now + seconds cooldownSeconds);
     LastMatchedAt := LastMatchedAt s; LastNotifiedAt := Some now; LastRecoveredAt := LastRecoveredAt s;
     S_UpdatedAt := now |}.

Definition aggregationWindowExpired (s : RuleState) (r : Rule) (now : Time) : bool :=
  match WindowStartedAt s with
  | None => true
  | Some started =>
      if bool_decide (AggregationWindowSeconds r = 0) then false
      else time_after now (started + seconds (AggregationWindowSeconds r))
  end.

(** The assignments of [Evaluate] to its copy of the state. *)
Definition recovered (s : RuleState) (now : Time) : RuleState :=
  {| RuleID := RuleID s; KeyHash := KeyHash s; Phase := StatePhaseIdle; WindowStartedAt := None; WindowMatchCount := 0;
     CooldownUntil := None; LastMatchedAt := LastMatchedAt s; LastNotifiedAt := LastNotifiedAt s;
     LastRecoveredAt := Some now; S_UpdatedAt := now |}.

Definition matched (s : RuleState) (now : Time) : RuleState :=
  {| RuleID := RuleID s; KeyHash := KeyHash s; Phase := Phase s; WindowStartedAt := WindowStartedAt s;
     WindowMatchCount := WindowMatchCount s; CooldownUntil := CooldownUntil s; LastMatchedAt := Some now;
     LastNotifiedAt := LastNotifiedAt s; LastRecoveredAt := LastRecoveredAt s; S_UpdatedAt := now |}.

Definition set_window (s : RuleState) (phase : string) (started : option Time) (count : Z) : RuleState :=
  {| RuleID := RuleID s; KeyHash := KeyHash s; Phase := phase; WindowStartedAt := started; WindowMatchCount := count;
     CooldownUntil := CooldownUntil s; LastMatchedAt := LastMatchedAt s; LastNotifiedAt := LastNotifiedAt s;
     LastRecoveredAt := LastRecoveredAt s; S_UpdatedAt := S_UpdatedAt s |}.

Section matching.

Variable sha256 : list ascii → list ascii.
Variable ParseAddr : string → bool.
Variable Marshal : SystemEvents.entries → option string.

Abbreviation ValidateEvent := (SystemEvents.ValidateEvent ParseAddr Marshal).

Definition DeduplicationKeyHash (r : Rule) (e : Event) : string := hex_EncodeToString (sha256 (dedup_message r e)).

Definition MatchesTrigger (r : Rule) (e : Event) : result alert_error bool :=
  match validate r with
  | Err err => Err err
  | Ok _ =>
      match ValidateEvent e with
      | Err _ => Err ErrInvalidInput
      | Ok _ =>
          if IsAlertDeliveryInternalAction (SystemEvents.Action e) then Ok false
          else if negb (Enabled r) then Ok false
          else Ok ((empty (Category r) || str_eq (Category r) (SystemEvents.Category e))
                   && (empty (Severity r) || str_eq (Severity r) (SystemEvents.Severity e))
                   && (empty (EventAction r) || str_eq (EventAction r) (SystemEvents.Action e)))
      end
  end.

Definition MatchesRecovery (r : Rule) (e : Event) : result alert_error bool :=
  match validate r with
  | Err err => Err err
  | Ok _ =>
      match ValidateEvent e with
      | Err _ => Err ErrInvalidInput
      | Ok _ =>
          if IsAlertDeliveryInternalAction (SystemEvents.Action e) then Ok false
          else if negb (Enabled r) then Ok false
          else Ok (negb (empty (RecoveryAction r)) && str_eq (RecoveryAction r) (SystemEvents.Action e))
      end
  end.

Definition Evaluate (r : Rule) (s : RuleState) (e : Event) (now : Time) : result alert_error (RuleState * Decision) :=
  if match validate r with Err _ => true | Ok _ => false end || bool_decide (ID r ≤ 0) || time_is_zero now
  then Err ErrInvalidInput
  else if negb (bool_decide (RuleID s = ID r)) || negb (str_eq (KeyHash s) (DeduplicationKeyHash r e))
          || negb (str_eq (Phase s) StatePhaseIdle) && negb (str_eq (Phase s) StatePhaseFiring)
  then Err ErrInvalidInput
  else
    match MatchesRecovery r e with
    | Err err => Err err
    | Ok true =>
        if negb (str_eq (Phase s) StatePhaseFiring) then Ok (s, DecisionNone)
        else Ok (recovered s now, if NotifyRecovery r then DecisionRecover else DecisionNone)
    | Ok false =>
        match MatchesTrigger r e with
        | Err err => Err err
        | Ok false => Ok (s, DecisionNone)
        | Ok true =>
            let s := matched s now in
            if str_eq (Phase s) StatePhaseFiring then
              if match CooldownUntil s with Some until => time_before now until | None => false end
              then Ok (s, DecisionSuppress)
              else Ok (markNotified s now (CooldownSeconds r), DecisionNotify)
            else
              let s :=
                if match WindowStartedAt s with None => true | Some _ => false end || aggregationWindowExpired s r now
                then set_window s (Phase s) (Some now) 1
                else set_window s (Phase s) (WindowStartedAt s) (wrap64 (WindowMatchCount s + 1)) in
              if bool_decide (WindowMatchCount s < AggregationCount r) then Ok (s, DecisionNone)
              else
                let s := set_window s StatePhaseFiring None 0 in
                Ok (markNotified s now (CooldownSeconds r), DecisionNotify)
        end
    end.

End matching.

(** ** Rule templates *)

Record RuleTemplate := {
  RT_Key : string; RT_Name : string; RT_Enabled : bool; RT_Category : string; RT_Severity : string;
  RT_EventAction : string; RT_RecoveryAction : string; RT_AggregationCount : Z; RT_AggregationWindowSeconds : Z;
  RT_CooldownSeconds : Z; RT_DeduplicationScope : string; RT_NotifyRecovery : bool
}.

Definition ruleTemplateCatalog : list RuleTemplate :=
  [ {| RT_Key := "oauth-refresh-repeated-v1"; RT_Name := "Repeated OAuth refresh failures"; RT_Enabled := false; RT_Category := SystemEvents.CategoryOAuth;
      RT_Severity := SystemEvents.SeverityWarning; RT_EventAction := "oauth.refresh.automatic.failed";
      RT_RecoveryAction := "oauth.refresh.automatic.succeeded"; RT_AggregationCount := 3; RT_AggregationWindowSeconds := 900;
      RT_CooldownSeconds := 3600; RT_DeduplicationScope := DeduplicationScopeTarget; RT_NotifyRecovery := true |};
    {| RT_Key := "request-log-retention-failed-v1"; RT_Name := "Request log retention failures"; RT_Enabled := false; RT_Category := SystemEvents.CategoryScheduler;
      RT_Severity := ""; RT_EventAction := "scheduler.request_log_retention.failed";
      RT_RecoveryAction := "scheduler.request_log_retention.succeeded"; RT_AggregationCount := 1; RT_AggregationWindowSeconds := 0;
      RT_CooldownSeconds := 86400; RT_DeduplicationScope := DeduplicationScopeRule; RT_NotifyRecovery := true |};
    {| RT_Key := "provider-auto-test-failed-v1"; RT_Name := "Provider account auto-test failures"; RT_Enabled := false; RT_Category := SystemEvents.CategoryScheduler;
      RT_Severity := ""; RT_EventAction := "scheduler.provider_account_auto_test.failed";
      RT_RecoveryAction := "scheduler.provider_account_auto_test.completed"; RT_AggregationCount := 2; RT_AggregationWindowSeconds := 900;
      RT_CooldownSeconds := 3600; RT_DeduplicationScope := DeduplicationScopeTarget; RT_NotifyRecovery := true |};
    {| RT_Key := "provider-account-expired-v1"; RT_Name := "Provider account expiry"; RT_Enabled := false; RT_Category := SystemEvents.CategoryRuntime;
      RT_Severity := SystemEvents.SeverityWarning; RT_EventAction := "provider_account.expired";
      RT_RecoveryAction := "provider_account.recovered"; RT_AggregationCount := 1; RT_AggregationWindowSeconds := 0;
      RT_CooldownSeconds := 86400; RT_DeduplicationScope := DeduplicationScopeTarget; RT_NotifyRecovery := true |};
    {| RT_Key := "provider-account-circuit-open-v1"; RT_Name := "Provider account circuit open"; RT_Enabled := false; RT_Category := SystemEvents.CategoryRuntime;
      RT_Severity := SystemEvents.SeverityWarning; RT_EventAction := "provider_account.circuit.opened";
      RT_RecoveryAction := "provider_account.recovered"; RT_AggregationCount := 1; RT_AggregationWindowSeconds := 0;
      RT_CooldownSeconds := 3600; RT_DeduplicationScope := DeduplicationScopeTarget; RT_NotifyRecovery := true |};
    {| RT_Key := "api-key-budget-80-percent-v1"; RT_Name := "API key budget at 80 percent"; RT_Enabled := false; RT_Category := SystemEvents.CategoryRuntime;
      RT_Severity := SystemEvents.SeverityWarning; RT_EventAction := "api_key.budget.threshold_80.crossed";
      RT_RecoveryAction := "api_key.budget.threshold_80.recovered"; RT_AggregationCount := 1; RT_AggregationWindowSeconds := 0;
      RT_CooldownSeconds := 86400; RT_DeduplicationScope := DeduplicationScopeTarget; RT_NotifyRecovery := true |};
    {| RT_Key := "api-key-budget-100-percent-v1"; RT_Name := "API key budget exhausted"; RT_Enabled := false; RT_Category := SystemEvents.CategoryRuntime;
      RT_Severity := SystemEvents.SeverityError; RT_EventAction := "api_key.budget.threshold_100.crossed";
      RT_RecoveryAction := "api_key.budget.threshold_100.recovered"; RT_AggregationCount := 1; RT_AggregationWindowSeconds := 0;
      RT_CooldownSeconds := 3600; RT_DeduplicationScope := DeduplicationScopeTarget; RT_NotifyRecovery := true |};
    {| RT_Key := "routing-pool-exhausted-v1"; RT_Name := "API key routing pool exhausted"; RT_Enabled := false; RT_Category := SystemEvents.CategoryRuntime;
      RT_Severity := SystemEvents.SeverityError; RT_EventAction := "api_key.routing_pool.exhausted";
      RT_RecoveryAction := "api_key.routing_pool.recovered"; RT_AggregationCount := 1; RT_AggregationWindowSeconds := 0;
      RT_CooldownSeconds := 3600; RT_DeduplicationScope := DeduplicationScopeTarget; RT_NotifyRecovery := true |};
    {| RT_Key := "api-key-purge-failed-v1"; RT_Name := "API key purge failures"; RT_Enabled := false; RT_Category := SystemEvents.CategoryScheduler;
      RT_Severity := SystemEvents.SeverityError; RT_EventAction := "scheduler.api_key_purge.failed";
      RT_RecoveryAction := "scheduler.api_key_purge.completed"; RT_AggregationCount := 1; RT_AggregationWindowSeconds := 0;
      RT_CooldownSeconds := 86400; RT_DeduplicationScope := DeduplicationScopeTarget; RT_NotifyRecovery := true |};
    {| RT_Key := "system-event-retention-failed-v1"; RT_Name := "System event retention failures"; RT_Enabled := false; RT_Category := SystemEvents.CategoryScheduler;
      RT_Severity := ""; RT_EventAction := "scheduler.system_event_retention.failed";
      RT_RecoveryAction := "scheduler.system_event_retention.completed"; RT_AggregationCount := 1; RT_AggregationWindowSeconds := 0;
      RT_CooldownSeconds := 86400; RT_DeduplicationScope := DeduplicationScopeTarget; RT_NotifyRecovery := true |}].

Definition ruleTemplate (key : string) : option RuleTemplate :=
  List.find (fun t => str_eq (RT_Key t) key) ruleTemplateCatalog.

Definition template_rule (t : RuleTemplate) (actionID : Z) : Rule :=
  {| ID := 0; TemplateKey := RT_Key t; Name := RT_Name t; ActionID := actionID; Enabled := RT_Enabled t;
     Category := RT_Category t; Severity := RT_Severity t; EventAction := RT_EventAction t;
     RecoveryAction := RT_RecoveryAction t; AggregationCount := RT_AggregationCount t;
     AggregationWindowSeconds := RT_AggregationWindowSeconds t; CooldownSeconds := RT_CooldownSeconds t;
     DeduplicationScope := RT_DeduplicationScope t; NotifyRecovery := RT_NotifyRecovery t;
     CreatedAt := 0; UpdatedAt := 0 |}.

(** ** Destinations *)

(** What [validateDestination] reads of a parsed URL. *)
Record URL := {
  IsAbs : bool; Scheme : string; Hostname : string; has_User : bool; Fragment : string; EscapedPath : string
}.

Definition ntfy_topic (topic : string) : bool :=
  forallb (fun a => alnum a || bool_decide (a = "_"%char) || bool_decide (a = "-"%char)) (bytes_of topic)
  && bool_decide (1 ≤ go_len topic ≤ 64).

Definition validActionKind (kind : string) : bool := str_eq kind ActionKindGenericWebhook || str_eq kind ActionKindNtfy.

Section destinations.

Variable url_Parse : string → option URL.
(** [net.ParseIP] yields a loopback address. *)
Variable loopback_ip : string → bool.

Definition loopbackHost (host : string) : bool := EqualFold host "localhost" || loopback_ip host.

Definition validateDestination (kind destination : string) : result alert_error unit :=
  if str_eq destination "" || bool_decide (MaxActionDestinationLength < go_len destination)
     || negb (str_eq destination (TrimSpace destination)) || ContainsAny destination ["000"; "013"; "010"]%char
  then Err ErrInvalidInput
  else
    match url_Parse destination with
    | None => Err ErrInvalidInput
    | Some parsed =>
        if negb (IsAbs parsed) || str_eq (Hostname parsed) "" || has_User parsed || negb (str_eq (Fragment parsed) "")
        then Err ErrInvalidInput
        else if negb (str_eq (Scheme parsed) "https")
                && negb (str_eq (Scheme parsed) "http" && loopbackHost (Hostname parsed)) then Err ErrInvalidInput
        else if str_eq kind ActionKindNtfy
                && (let topic := TrimPrefix (EscapedPath parsed) "/" in
                    Contains topic "/" || negb (ntfy_topic topic)) then Err ErrInvalidInput
        else Ok tt
    end.

Definition validateAction (name kind destination : string) : result alert_error unit :=
  if invalidName name MaxActionNameLength || negb (validActionKind kind) then Err ErrInvalidInput
  else validateDestination kind destination.

End destinations.

End Alerting.
