(* ===== verification/AlertingStore.v ===== *)
(** * The alerting tables

    [store/alerting.go] on the tables of migrations 00040, 00042 and 00043: the
    alert actions, the alert rules and the state a rule keeps for each
    deduplication key.

    A transaction is a function of the tables; a row that violates a constraint
    makes it fail with an error of the database, [ErrDatabase].  The readings of
    [now()] and [clock_timestamp()] are arguments.  Audit events are left
    out. *)

From S2P Require Import Prelude GoStrings Ledger Secrets SystemEvents Alerting.
From Stdlib Require Import Ascii.
From Stdlib Require String.

Module AlertingStore.
Import Alerting.
Import Secrets (bytes_of).
Import SystemEvents (ContainsAny).

Abbreviation pg_time := Ledger.pg_time.

(** ** Rows *)

Record action_row := {
  a_id : Z; a_name : string; a_kind : string; a_destination : string; a_enabled : bool; a_created_at : Time;
  a_updated_at : Time; test_started_at : option Time; test_attempt_token : string;
  test_attempt_config : option Time; tested_at : option Time; test_config : option Time; test_status : string;
  test_http_status : option Z; test_latency_ms : Z; test_error_code : string; test_retryable : bool
}.

(** The rows of [alert_rule_states] by rule and by hash. *)
Record db := {
  actions : gmap Z action_row; rules : gmap Z Rule; states : gmap Z (gmap string RuleState);
  next_action : Z; next_rule : Z
}.

Definition set_actions (m : gmap Z action_row) (d : db) : db :=
  Build_db m (rules d) (states d) (next_action d) (next_rule d).
Definition set_rules (m : gmap Z Rule) (d : db) : db :=
  Build_db (actions d) m (states d) (next_action d) (next_rule d).
Definition set_states (m : gmap Z (gmap string RuleState)) (d : db) : db :=
  Build_db (actions d) (rules d) m (next_action d) (next_rule d).

Definition rule_states (d : db) (id : Z) : gmap string RuleState := default ∅ (states d !! id).

(** ** Constraints *)

Definition newline_free (s : string) : bool := negb (ContainsAny s ["013"; "010"]%char).
(** [length()] counts characters. *)
Definition char_length (s : string) : Z :=
  Z.of_nat (length (List.filter (fun a => negb (bool_decide (128 ≤ byte_of a ≤ 191))) (bytes_of s))).
Definition in_list (l : list string) (s : string) : bool := existsb (str_eq s) l.
Definition between (lo hi z : Z) : bool := bool_decide (lo ≤ z ≤ hi).
Definition is_null {A} (o : option A) : bool := match o with None => true | Some _ => false end.
Definition hex_lower (a : ascii) : bool := bool_decide (48 ≤ byte_of a ≤ 57) || bool_decide (97 ≤ byte_of a ≤ 102).

Definition action_checks (a : action_row) : bool :=
  negb (empty (a_name a)) && bool_decide (go_len (a_name a) ≤ 128) && newline_free (a_name a)
  && in_list ["generic_webhook"; "ntfy"] (a_kind a)
  && negb (empty (a_destination a)) && bool_decide (go_len (a_destination a) ≤ 16384)
  && in_list [""; "passed"; "failed"] (test_status a)
  && match test_http_status a with None => true | Some c => between 100 599 c end
  && bool_decide (0 ≤ test_latency_ms a)
  && bool_decide (go_len (test_error_code a) ≤ 128) && newline_free (test_error_code a)
  && (empty (test_attempt_token a)
      || forallb hex_lower (bytes_of (test_attempt_token a)) && bool_decide (go_len (test_attempt_token a) = 32))
  && (empty (test_attempt_token a) && is_null (test_attempt_config a)
      || negb (empty (test_attempt_token a)) && negb (is_null (test_started_at a))
         && negb (is_null (test_attempt_config a)))
  && (is_null (tested_at a) && empty (test_status a) && is_null (test_config a)
      || negb (is_null (tested_at a)) && negb (empty (test_status a)) && negb (is_null (test_config a))).

Definition template_key_char (a : ascii) : bool :=
  bool_decide (97 ≤ byte_of a ≤ 122) || bool_decide (48 ≤ byte_of a ≤ 57)
  || existsb (fun c => bool_decide (a = c)) ["."; "_"; "-"]%char.

Definition template_key_ok (s : string) : bool :=
  match bytes_of s with
  | [] => true
  | a :: l => (bool_decide (97 ≤ byte_of a ≤ 122) || bool_decide (48 ≤ byte_of a ≤ 57))
              && forallb template_key_char l && bool_decide (Z.of_nat (length l) ≤ 127)
  end.

Definition rule_checks (r : Rule) : bool :=
  negb (empty (Name r)) && bool_decide (go_len (Name r) ≤ 128) && newline_free (Name r)
  && in_list [""; "audit"; "security"; "oauth"; "scheduler"; "runtime"] (Category r)
  && in_list [""; "info"; "warning"; "error"] (Severity r)
  && bool_decide (char_length (EventAction r) ≤ 128) && newline_free (EventAction r)
  && bool_decide (char_length (RecoveryAction r) ≤ 128) && newline_free (RecoveryAction r)
  && (empty (EventAction r) || empty (RecoveryAction r) || negb (str_eq (EventAction r) (RecoveryAction r)))
  && (negb (empty (Category r)) || negb (empty (Severity r)) || negb (empty (EventAction r)))
  && between 1 1024 (AggregationCount r) && between 0 86400 (AggregationWindowSeconds r)
  && (bool_decide (AggregationCount r = 1) || bool_decide (0 < AggregationWindowSeconds r))
  && between 0 604800 (CooldownSeconds r) && in_list ["rule"; "target"] (DeduplicationScope r)
  && (negb (NotifyRecovery r) || negb (empty (RecoveryAction r))) && template_key_ok (TemplateKey r).

Definition state_checks (s : RuleState) : bool :=
  forallb hex_lower (bytes_of (KeyHash s)) && bool_decide (go_len (KeyHash s) = 64)
  && in_list ["idle"; "firing"] (Phase s) && bool_decide (0 ≤ WindowMatchCount s).

(** ** Actions *)

(** The columns read back: a test result counts for the version it was made
    with. *)
Definition scanAlertAction (a : action_row) : Action :=
  let current := bool_decide (test_config a = Some (a_updated_at a)) in
  {| A_ID := a_id a; A_Name := a_name a; A_Kind := a_kind a; A_Enabled := a_enabled a;
     DestinationConfigured := negb (empty (a_destination a));
     LastTestedAt := if current then tested_at a else None;
     LastTestStatus := if current then test_status a else "";
     LastTestHTTPStatus := if current then test_http_status a else None;
     LastTestLatencyMS := if current then test_latency_ms a else 0;
     LastTestErrorCode := if current then test_error_code a else "";
     LastTestRetryable := if current then test_retryable a else false;
     A_CreatedAt := a_created_at a; A_UpdatedAt := a_updated_at a |}.

Definition CreateAction (now : Time) (input : ActionCreate) (d : db) : result alert_error Action * db :=
  let a := {| a_id := next_action d; a_name := C_Name input; a_kind := C_Kind input;
              a_destination := C_EncryptedDestination input; a_enabled := C_Enabled input; a_created_at := now;
              a_updated_at := now; test_started_at := None; test_attempt_token := ""; test_attempt_config := None;
              tested_at := None; test_config := None; test_status := ""; test_http_status := None;
              test_latency_ms := 0; test_error_code := ""; test_retryable := false |} in
  if action_checks a
  then (Ok (scanAlertAction a),
        Build_db (<[a_id a := a]> (actions d)) (rules d) (states d) (next_action d + 1) (next_rule d))
  else (Err ErrDatabase, d).

Definition staleOrMissingAlertAction (id : Z) (d : db) : alert_error :=
  if bool_decide (is_Some (actions d !! id)) then ErrConflict else ErrNotFound.

Definition rewrite_action (clock : Time) (input : ActionUpdate) (a : action_row) : action_row :=
  {| a_id := a_id a; a_name := U_Name input; a_kind := U_Kind input;
     a_destination := default (a_destination a) (U_EncryptedDestination input); a_enabled := U_Enabled input;
     a_created_at := a_created_at a; a_updated_at := Z.max clock (a_updated_at a + Microsecond);
     test_started_at := test_started_at a; test_attempt_token := test_attempt_token a;
     test_attempt_config := test_attempt_config a; tested_at := tested_at a; test_config := test_config a;
     test_status := test_status a; test_http_status := test_http_status a; test_latency_ms := test_latency_ms a;
     test_error_code := test_error_code a; test_retryable := test_retryable a |}.

Definition put_action (a : action_row) (d : db) : result alert_error Action * db :=
  if action_checks a then (Ok (scanAlertAction a), set_actions (<[a_id a := a]> (actions d)) d) else (Err ErrDatabase, d).

Definition UpdateAction (clock : Time) (id : Z) (input : ActionUpdate) (d : db) : result alert_error Action * db :=
  match actions d !! id with
  | Some a =>
      if bool_decide (a_updated_at a = pg_time (U_ExpectedUpdatedAt input))
      then put_action (rewrite_action clock input a) d
      else (Err (staleOrMissingAlertAction id d), d)
  | None => (Err (staleOrMissingAlertAction id d), d)
  end.

(** The foreign key of [alert_rules] restricts the deletion. *)
Definition DeleteAction (id : Z) (d : db) : result alert_error unit * db :=
  match actions d !! id with
  | None => (Err ErrNotFound, d)
  | Some _ =>
      if existsb (fun kr => bool_decide (ActionID kr.2 = id)) (map_to_list (rules d)) then (Err ErrConflict, d)
      else (Ok tt, set_actions (delete id (actions d)) d)
  end.

Definition GetAction (id : Z) (d : db) : result alert_error Action :=
  match actions d !! id with Some a => Ok (scanAlertAction a) | None => Err ErrNotFound end.

Definition id_le {A} (id : A → Z) (x y : A) : Prop := id x ≤ id y.

#[export] Instance id_le_dec {A} (id : A → Z) : RelDecision (id_le id).
Proof. intros x y. unfold id_le. apply _. Defined.

(** [ORDER BY id ASC] *)
Definition by_id {A} (id : A → Z) (l : list A) : list A := merge_sort (id_le id) l.

Definition ListActions (d : db) : list Action := scanAlertAction <$> by_id a_id (snd <$> map_to_list (actions d)).

Definition GetEncryptedDestination (id : Z) (d : db) : result alert_error string :=
  match actions d !! id with Some a => Ok (a_destination a) | None => Err ErrNotFound end.

Definition for_delivery (a : action_row) : ActionForDelivery :=
  {| D_ID := a_id a; D_Name := a_name a; D_Kind := a_kind a; D_Enabled := a_enabled a;
     D_EncryptedDestination := a_destination a; D_UpdatedAt := a_updated_at a |}.

Definition GetActionForDelivery (id : Z) (d : db) : result alert_error ActionForDelivery :=
  match actions d !! id with Some a => Ok (for_delivery a) | None => Err ErrNotFound end.

(** Microseconds until the last admission is thirty seconds old. *)
Definition retry_after_us (clock : Time) (a : action_row) : Z :=
  match test_started_at a with
  | None => 0
  | Some started => Z.max (- ((clock - (started + ActionTestAdmissionWindow)) / Microsecond)) 0
  end.

Definition admit_test (clock : Time) (token : string) (a : action_row) : action_row :=
  {| a_id := a_id a; a_name := a_name a; a_kind := a_kind a; a_destination := a_destination a;
     a_enabled := a_enabled a; a_created_at := a_created_at a; a_updated_at := a_updated_at a;
     test_started_at := Some clock; test_attempt_token := token; test_attempt_config := Some (a_updated_at a);
     tested_at := tested_at a; test_config := test_config a; test_status := test_status a;
     test_http_status := test_http_status a; test_latency_ms := test_latency_ms a;
     test_error_code := test_error_code a; test_retryable := test_retryable a |}.

(** [clock] and [clock'] are the clock readings of the two statements. *)
Definition BeginActionTest (clock clock' : Time) (id : Z) (expectedUpdatedAt : Time) (token : string) (d : db)
  : result alert_error ActionTestStart * db :=
  match actions d !! id with
  | None => (Err ErrNotFound, d)
  | Some a =>
      if negb (bool_decide (a_updated_at a = expectedUpdatedAt)) then (Err ErrConflict, d)
      else if bool_decide (0 < retry_after_us clock a)
      then (Err (ErrRateLimited (wrap64 (retry_after_us clock a * Microsecond))), d)
      else
        let a' := admit_test clock' token a in
        if action_checks a'
        then (Ok {| S_Action := for_delivery a; S_AttemptToken := token; S_StartedAt := clock' |},
              set_actions (<[id := a']> (actions d)) d)
        else (Err ErrDatabase, d)
  end.

Definition record_test (result : ActionTestResult) (a : action_row) : action_row :=
  {| a_id := a_id a; a_name := a_name a; a_kind := a_kind a; a_destination := a_destination a;
     a_enabled := a_enabled a; a_created_at := a_created_at a; a_updated_at := a_updated_at a;
     test_started_at := test_started_at a; test_attempt_token := ""; test_attempt_config := None;
     tested_at := Some (pg_time (TestedAt result)); test_config := test_attempt_config a; test_status := Status result;
     test_http_status := HTTPStatus result; test_latency_ms := LatencyMS result; test_error_code := T_ErrorCode result;
     test_retryable := T_Retryable result |}.

Definition FinalizeActionTest (id : Z) (token : string) (result : ActionTestResult) (d : db)
  : Prelude.result alert_error Action * db :=
  match actions d !! id with
  | Some a =>
      if str_eq (test_attempt_token a) token then put_action (record_test result a) d
      else (Err (staleOrMissingAlertAction id d), d)
  | None => (Err (staleOrMissingAlertAction id d), d)
  end.

(** ** Rules *)

Definition lockAlertAction (id : Z) (d : db) : result alert_error unit :=
  match actions d !! id with Some _ => Ok tt | None => Err ErrNotFound end.

Definition template_rule_of (key : string) (d : db) : option Rule :=
  snd <$> List.find (fun kr => str_eq (TemplateKey kr.2) key) (map_to_list (rules d)).

(** The row of a new rule. *)
Definition new_rule (id : Z) (key : string) (now : Time) (r : Rule) : Rule :=
  {| ID := id; TemplateKey := key; Name := Name r; ActionID := ActionID r; Enabled := Enabled r;
     Category := Category r; Severity := Severity r; EventAction := EventAction r; RecoveryAction := RecoveryAction r;
     AggregationCount := AggregationCount r; AggregationWindowSeconds := AggregationWindowSeconds r;
     CooldownSeconds := CooldownSeconds r; DeduplicationScope := DeduplicationScope r;
     NotifyRecovery := NotifyRecovery r; CreatedAt := now; UpdatedAt := now |}.

Definition insert_rule (r : Rule) (d : db) : result alert_error Rule * db :=
  if rule_checks r
  then (Ok r, Build_db (actions d) (<[ID r := r]> (rules d)) (states d) (next_action d) (next_rule d + 1))
  else (Err ErrDatabase, d).

Definition CreateRule (now : Time) (rule : Rule) (d : db) : result alert_error Rule * db :=
  match lockAlertAction (ActionID rule) d with
  | Err e => (Err e, d)
  | Ok _ => insert_rule (new_rule (next_rule d) "" now rule) d
  end.

(** The row may have been installed since the first look. *)
Definition InstallRuleTemplate (now : Time) (rule : Rule) (d : db) : result alert_error (Rule * bool) * db :=
  if empty (TemplateKey rule) then (Err ErrInvalidInput, d)
  else
    match template_rule_of (TemplateKey rule) d with
    | Some existing => (Ok (existing, false), d)
    | None =>
        match lockAlertAction (ActionID rule) d with
        | Err e => (Err e, d)
        | Ok _ =>
            match template_rule_of (TemplateKey rule) d with
            | Some existing => (Ok (existing, false), d)
            | None =>
                match insert_rule (new_rule (next_rule d) (TemplateKey rule) now rule) d with
                | (Ok r, d) => (Ok (r, true), d)
                | (Err e, d) => (Err e, d)
                end
            end
        end
    end.

Definition rewrite_rule (clock : Time) (input old : Rule) : Rule :=
  {| ID := ID old; TemplateKey := TemplateKey old; Name := Name input; ActionID := ActionID input;
     Enabled := Enabled input; Category := Category input; Severity := Severity input;
     EventAction := EventAction input; RecoveryAction := RecoveryAction input;
     AggregationCount := AggregationCount input; AggregationWindowSeconds := AggregationWindowSeconds input;
     CooldownSeconds := CooldownSeconds input; DeduplicationScope := DeduplicationScope input;
     NotifyRecovery := NotifyRecovery input; CreatedAt := CreatedAt old;
     UpdatedAt := Z.max clock (UpdatedAt old + Microsecond) |}.

Definition UpdateRule (clock : Time) (id : Z) (rule : Rule) (expectedUpdatedAt : Time) (d : db)
  : result alert_error Rule * db :=
  match rules d !! id with
  | None => (Err ErrNotFound, d)
  | Some old =>
      if negb (bool_decide (UpdatedAt old = expectedUpdatedAt)) then (Err ErrConflict, d)
      else
        match lockAlertAction (ActionID rule) d with
        | Err e => (Err e, d)
        | Ok _ =>
            let updated := rewrite_rule clock rule old in
            if rule_checks updated
            then (Ok updated, set_states (delete id (states d)) (set_rules (<[id := updated]> (rules d)) d))
            else (Err ErrDatabase, d)
        end
  end.

(** [ON DELETE CASCADE] for the states. *)
Definition DeleteRule (id : Z) (d : db) : result alert_error unit * db :=
  match rules d !! id with
  | None => (Err ErrNotFound, d)
  | Some _ => (Ok tt, set_states (delete id (states d)) (set_rules (delete id (rules d)) d))
  end.

Definition GetRule (id : Z) (d : db) : result alert_error Rule :=
  match rules d !! id with Some r => Ok r | None => Err ErrNotFound end.

Definition ListRules (d : db) : list Rule := by_id ID (snd <$> map_to_list (rules d)).

(** ** Rule states *)

Definition GetRuleState (id : Z) (hash : string) (d : db) : result alert_error RuleState :=
  match rule_states d id !! hash with Some s => Ok s | None => Err ErrNotFound end.

(** [ORDER BY updated_at ASC, deduplication_key_hash ASC] *)
Definition older (a b : RuleState) : bool :=
  bool_decide (S_UpdatedAt a < S_UpdatedAt b)
  || bool_decide (S_UpdatedAt a = S_UpdatedAt b) && String.ltb (KeyHash a) (KeyHash b).

Definition oldest (l : list RuleState) : option RuleState :=
  foldr (fun s best => match best with
                       | None => Some s
                       | Some b => if older s b then Some s else Some b
                       end) None l.

Definition is_idle (s : RuleState) : bool := str_eq (Phase s) StatePhaseIdle.

Definition oldest_idle (m : gmap string RuleState) : option RuleState :=
  oldest (List.filter is_idle (snd <$> map_to_list m)).

Definition ensureAlertStateCapacity (id : Z) (d : db) : result alert_error db :=
  let m := rule_states d id in
  if bool_decide (Z.of_nat (size m) < MaxRuleStatesPerRule) then Ok d
  else
    match oldest_idle m with
    | None => Err ErrStateCapacity
    | Some s => Ok (set_states (<[id := delete (KeyHash s) m]> (states d)) d)
    end.

(** Timestamps are stored in microseconds. *)
Definition stored_state (s : RuleState) : RuleState :=
  {| RuleID := RuleID s; KeyHash := KeyHash s; Phase := Phase s; WindowStartedAt := pg_time <$> WindowStartedAt s;
     WindowMatchCount := WindowMatchCount s; CooldownUntil := pg_time <$> CooldownUntil s;
     LastMatchedAt := pg_time <$> LastMatchedAt s; LastNotifiedAt := pg_time <$> LastNotifiedAt s;
     LastRecoveredAt := pg_time <$> LastRecoveredAt s; S_UpdatedAt := pg_time (S_UpdatedAt s) |}.

Definition put_state (s : RuleState) (d : db) : db :=
  set_states (<[RuleID s := <[KeyHash s := stored_state s]> (rule_states d (RuleID s))]> (states d)) d.

Definition saveAlertRuleStateTx (s : RuleState) (d : db) : result alert_error db :=
  if negb (state_checks s) then Err ErrDatabase
  else
    match rule_states d (RuleID s) !! KeyHash s with
    | Some _ => Ok (put_state s d)
    | None =>
        match ensureAlertStateCapacity (RuleID s) d with
        | Err e => Err e
        | Ok d => Ok (put_state s d)
        end
    end.

Definition set_updated (t : Time) (s : RuleState) : RuleState :=
  {| RuleID := RuleID s; KeyHash := KeyHash s; Phase := Phase s; WindowStartedAt := WindowStartedAt s;
     WindowMatchCount := WindowMatchCount s; CooldownUntil := CooldownUntil s; LastMatchedAt := LastMatchedAt s;
     LastNotifiedAt := LastNotifiedAt s; LastRecoveredAt := LastRecoveredAt s; S_UpdatedAt := t |}.

Definition SaveRuleState (now : Time) (s : RuleState) (d : db) : result alert_error unit * db :=
  let s := if time_is_zero (S_UpdatedAt s) then set_updated now s else s in
  match rules d !! RuleID s with
  | None => (Err ErrNotFound, d)
  | Some _ => match saveAlertRuleStateTx s d with Ok d => (Ok tt, d) | Err e => (Err e, d) end
  end.

Record Evaluation := {
  E_Rule : Rule; E_ActionEnabled : bool; E_ActionUpdatedAt : Time; E_State : RuleState; E_Decision : Decision
}.

Section evaluation.

Variable sha256 : list ascii → list ascii.
Variable ParseAddr : string → bool.
Variable Marshal : SystemEvents.entries → option string.

Definition no_state : RuleState :=
  {| RuleID := 0; KeyHash := ""; Phase := ""; WindowStartedAt := None; WindowMatchCount := 0; CooldownUntil := None;
     LastMatchedAt := None; LastNotifiedAt := None; LastRecoveredAt := None; S_UpdatedAt := 0 |}.

(** The part behind the checks of the action.  [Evaluate] returns the state it
    was given or a copy with new timestamps, which Go compares by address; to
    save a copy that equals the row changes nothing. *)
Definition evaluate_state (rule : Rule) (actionUpdatedAt : Time) (event : SystemEvents.Event) (now : Time) (d : db)
  : result alert_error Evaluation * db :=
  let hash := DeduplicationKeyHash sha256 rule event in
  let state := default (initial_state (ID rule) hash) (rule_states d (ID rule) !! hash) in
  match Evaluate sha256 ParseAddr Marshal rule state event now with
  | Err e => (Err e, d)
  | Ok (evaluated, decision) =>
      let evaluation := {| E_Rule := rule; E_ActionEnabled := true; E_ActionUpdatedAt := actionUpdatedAt;
                           E_State := evaluated; E_Decision := decision |} in
      if bool_decide (evaluated = state) then (Ok evaluation, d)
      else match saveAlertRuleStateTx evaluated d with
           | Err e => (Err e, d)
           | Ok d => (Ok evaluation, d)
           end
  end.

Definition evaluateRuleEvent (ruleID : Z) (event : SystemEvents.Event) (now : Time) (requireEnabledAction : bool)
    (d : db) : result alert_error Evaluation * db :=
  match rules d !! ruleID with
  | None => (Err ErrNotFound, d)
  | Some rule =>
      if requireEnabledAction then
        match actions d !! ActionID rule with
        | None => (Err ErrNotFound, d)
        | Some a =>
            if a_enabled a then evaluate_state rule (a_updated_at a) event now d
            else (Ok {| E_Rule := rule; E_ActionEnabled := false; E_ActionUpdatedAt := a_updated_at a;
                        E_State := no_state; E_Decision := DecisionNone |}, d)
        end
      else evaluate_state rule 0 event now d
  end.

Definition EvaluateRuleEvent (ruleID : Z) (event : SystemEvents.Event) (now : Time) (d : db)
  : result alert_error (RuleState * Decision) * db :=
  let '(r, d) := evaluateRuleEvent ruleID event now false d in
  (match r with Ok ev => Ok (E_State ev, E_Decision ev) | Err e => Err e end, d).

Definition EvaluateRuleEventForDelivery (ruleID : Z) (event : SystemEvents.Event) (now : Time) (d : db)
  : result alert_error Evaluation * db :=
  evaluateRuleEvent ruleID event now true d.

End evaluation.

End AlertingStore.
