(* ===== verification/AlertingInv.v ===== *)
(** * The alerting tables: operations and their invariant

    The repository's transactions as operations of one state machine, what the
    service passes to them, and the invariant of the tables. *)

From S2P Require Import Prelude GoStrings Base64 Ledger Secrets SystemEvents Alerting AlertingStore.
From Stdlib Require Import Ascii.
From Stdlib Require String.

Module AlertingInv.
Import Alerting AlertingStore.
Import Secrets (bytes_of, string_of).

(** ** Operations *)

Inductive op :=
| OCreateAction (now : Time) (input : ActionCreate)
| OUpdateAction (clock : Time) (id : Z) (input : ActionUpdate)
| ODeleteAction (id : Z)
| OBeginActionTest (clock clock' : Time) (id : Z) (expected : Time) (token : string)
| OFinalizeActionTest (id : Z) (token : string) (result : ActionTestResult)
| OCreateRule (now : Time) (rule : Rule)
| OInstallRuleTemplate (now : Time) (rule : Rule)
| OUpdateRule (clock : Time) (id : Z) (rule : Rule) (expected : Time)
| ODeleteRule (id : Z)
| OEvaluate (id : Z) (event : SystemEvents.Event) (now : Time) (for_delivery : bool).

Inductive answer :=
| RAction (r : result alert_error Action)
| RDone (r : result alert_error unit)
| RStart (r : result alert_error ActionTestStart)
| RRule (r : result alert_error Rule)
| RInstalled (r : result alert_error (Rule * bool))
| REvaluation (r : result alert_error Evaluation)
| RFailed.

Section operations.

Variable sha256 : list ascii → list ascii.
Variable ParseAddr : string → bool.
Variable Marshal : SystemEvents.entries → option string.

Definition answering {A} (f : result alert_error A → answer) (p : result alert_error A * db) : answer * db := (f p.1, p.2).

Definition perform (o : op) (d : db) : answer * db :=
  match o with
  | OCreateAction now input => answering RAction (CreateAction now input d)
  | OUpdateAction clock id input => answering RAction (UpdateAction clock id input d)
  | ODeleteAction id => answering RDone (DeleteAction id d)
  | OBeginActionTest clock clock' id expected token => answering RStart (BeginActionTest clock clock' id expected token d)
  | OFinalizeActionTest id token result => answering RAction (FinalizeActionTest id token result d)
  | OCreateRule now rule => answering RRule (CreateRule now rule d)
  | OInstallRuleTemplate now rule => answering RInstalled (InstallRuleTemplate now rule d)
  | OUpdateRule clock id rule expected => answering RRule (UpdateRule clock id rule expected d)
  | ODeleteRule id => answering RDone (DeleteRule id d)
  | OEvaluate id event now b => answering REvaluation (evaluateRuleEvent sha256 ParseAddr Marshal id event now b d)
  end.

(** What the service makes sure of before it calls the repository. *)
Definition name_ok (s : string) : Prop :=
  s ≠ "" ∧ go_len s ≤ 128 ∧ has_control (bytes_of s) = false.
Definition destination_ok (s : string) : Prop := s ≠ "" ∧ go_len s ≤ 16384.
Definition token_ok (s : string) : Prop :=
  forallb hex_lower (bytes_of s) = true ∧ go_len s = 32.

Definition test_result_ok (r : ActionTestResult) : Prop :=
  (Status r = ActionTestStatusPassed ∨ Status r = ActionTestStatusFailed) ∧ 0 ≤ LatencyMS r
  ∧ match HTTPStatus r with Some c => 100 ≤ c ≤ 599 | None => True end
  ∧ go_len (T_ErrorCode r) ≤ 100 ∧ newline_free (T_ErrorCode r) = true.

Definition served (o : op) : Prop :=
  match o with
  | OCreateAction _ input =>
      name_ok (C_Name input) ∧ validActionKind (C_Kind input) = true ∧ destination_ok (C_EncryptedDestination input)
  | OUpdateAction _ _ input =>
      name_ok (U_Name input) ∧ validActionKind (U_Kind input) = true
      ∧ match U_EncryptedDestination input with Some s => destination_ok s | None => True end
  | OBeginActionTest clock clock' _ _ token => token_ok token ∧ clock ≤ clock'
  | OFinalizeActionTest _ token result => token ≠ "" ∧ test_result_ok result
  | OCreateRule _ rule => validate rule = Ok tt
  | OInstallRuleTemplate _ rule =>
      ∃ t, t ∈ ruleTemplateCatalog ∧ 0 < ActionID rule ∧ rule = template_rule t (ActionID rule)
  | OUpdateRule _ _ rule _ => validate rule = Ok tt
  | ODeleteAction _ | ODeleteRule _ => True
  | OEvaluate id event now _ =>
      0 < id ∧ now ≠ 0 ∧ SystemEvents.ValidateEvent ParseAddr Marshal event = Ok tt
  end.

(** A step is a transaction of the service, or one that fails with an error of
    the database: then it is not known whether the change was made. *)
Inductive step (d : db) (o : op) : answer → db → Prop :=
| step_done : served o → step d o (perform o d).1 (perform o d).2
| step_rolled_back : served o → step d o RFailed d
| step_commit_unknown : served o → step d o RFailed (perform o d).2.

Record entry := { before : db; what : op; outcome : answer }.

Inductive history : db → list entry → db → Prop :=
| history_nil d : history d [] d
| history_cons d o a d' l d'' :
    step d o a d' → history d' l d'' → history d ({| before := d; what := o; outcome := a |} :: l) d''.

(** ** The invariant *)

(** The state of a deduplication key under its rule. *)
Definition coherent (r : Rule) (s : RuleState) : Prop :=
  (Phase s = StatePhaseIdle ∧ CooldownUntil s = None
   ∧ match WindowStartedAt s with None => WindowMatchCount s = 0 | Some _ => 1 ≤ WindowMatchCount s < AggregationCount r end)
  ∨ (Phase s = StatePhaseFiring ∧ WindowStartedAt s = None ∧ WindowMatchCount s = 0
     ∧ ∃ t, LastNotifiedAt s = Some (pg_time t) ∧ CooldownUntil s = Some (pg_time (t + seconds (CooldownSeconds r)))).

Record wf (d : db) : Prop := {
  wf_action : ∀ id a, actions d !! id = Some a → a_id a = id ∧ id < next_action d ∧ action_checks a = true;
  wf_rule : ∀ id r, rules d !! id = Some r →
    ID r = id ∧ 0 < id < next_rule d ∧ validate r = Ok tt ∧ rule_checks r = true ∧ is_Some (actions d !! ActionID r);
  wf_template : ∀ i j ri rj, rules d !! i = Some ri → rules d !! j = Some rj →
    TemplateKey ri = TemplateKey rj → TemplateKey ri ≠ "" → i = j;
  wf_capacity : ∀ id m, states d !! id = Some m → Z.of_nat (size m) ≤ MaxRuleStatesPerRule;
  wf_state : ∀ id h s, rule_states d id !! h = Some s →
    RuleID s = id ∧ KeyHash s = h ∧ state_checks s = true ∧ ∃ r, rules d !! id = Some r ∧ coherent r s;
  wf_next : 0 < next_rule d
}.

End operations.

(** ** What validation gives *)

Lemma empty_true s : empty s = true ↔ s = "".
Proof. unfold empty, str_eq. apply bool_decide_eq_true. Qed.
Lemma empty_false s : empty s = false ↔ s ≠ "".
Proof. unfold empty, str_eq. apply bool_decide_eq_false. Qed.

Lemma no_control_newline s : has_control (bytes_of s) = false → newline_free s = true.
Proof.
  unfold newline_free, SystemEvents.ContainsAny. generalize (bytes_of s) as l. induction l as [|a l IH]; [done|].
  cbn [has_control existsb]. rewrite !orb_false_iff. intros [[[H32 _] _] Hl]. rewrite (negb_true_iff) in *.
  rewrite orb_false_iff. split; [|by apply IH].
  apply bool_decide_eq_false in H32. cbn. rewrite orb_false_r, orb_false_iff. split; apply bool_decide_eq_false; intros ->; by apply H32.
Qed.

Lemma validate_inv r :
  validate r = Ok tt →
  (invalidName (Name r) MaxRuleNameLength = false ∧ 0 < ActionID r
   ∧ (Category r ≠ "" ∨ Severity r ≠ "" ∨ EventAction r ≠ ""))
  ∧ (Category r = "" ∨ SystemEvents.validCategory (Category r) = true)
  ∧ (Severity r = "" ∨ SystemEvents.validSeverity (Severity r) = true)
  ∧ (EventAction r = "" ∨ SystemEvents.IsKnownAction (EventAction r) = true)
  ∧ (RecoveryAction r = "" ∨ SystemEvents.IsKnownAction (RecoveryAction r) = true)
  ∧ (EventAction r = "" ∨ RecoveryAction r ≠ EventAction r)
  ∧ (NotifyRecovery r = true → RecoveryAction r ≠ "")
  ∧ 1 ≤ AggregationCount r ≤ MaxAggregationCount
  ∧ 0 ≤ AggregationWindowSeconds r ≤ MaxAggregationWindowSeconds
  ∧ (AggregationCount r = 1 ∨ 0 < AggregationWindowSeconds r)
  ∧ 0 ≤ CooldownSeconds r ≤ MaxCooldownSeconds
  ∧ (DeduplicationScope r = DeduplicationScopeRule ∨ DeduplicationScope r = DeduplicationScopeTarget).
Proof.
  unfold validate.
  repeat match goal with |- (if ?b then Err _ else _) = _ → _ => destruct b eqn:?; [discriminate|] end.
  intros _. unfold empty, str_eq in *. to_prop.
  repeat match goal with H : _ = false ∨ _ |- _ => rewrite ?negb_false_iff, ?bool_decide_eq_false, ?bool_decide_eq_true in H end.
  split_and!; intuition (try lia; try congruence).
Qed.

(** The known actions satisfy the checks of the rule table. *)
Lemma known_action_checks a :
  a = "" ∨ SystemEvents.IsKnownAction a = true → char_length a ≤ 128 ∧ newline_free a = true.
Proof.
  assert (∀ x, x ∈ "" :: SystemEvents.knownActions → char_length x ≤ 128 ∧ newline_free x = true) as Hall.
  { intros x Hx%list_elem_of_In.
    assert (forallb (fun a => bool_decide (char_length a ≤ 128) && newline_free a) ("" :: SystemEvents.knownActions) = true)
      as Hb by (vm_compute; reflexivity).
    rewrite forallb_forall in Hb. apply Hb in Hx. by rewrite andb_true_iff, bool_decide_eq_true in Hx. }
  intros [->|Hk]; apply Hall; [by left|].
  right. by apply SystemEvents.one_of_spec.
Qed.

Lemma one_of_in l v l' : SystemEvents.one_of l v = true → (∀ x, x ∈ l → in_list l' x = true) → in_list l' v = true.
Proof. intros H%SystemEvents.one_of_spec Hl. auto. Qed.

Lemma valid_name s n : invalidName s n = false → s ≠ "" ∧ go_len s ≤ n ∧ has_control (bytes_of s) = false.
Proof.
  unfold invalidName. destruct (str_eq (TrimSpace s) "") eqn:E1; [done|]. destruct (bool_decide (n < go_len s)) eqn:E2; [done|].
  cbn [orb]. intros ->. apply bool_decide_eq_false in E1, E2. split_and!; [|lia|done]. intros ->. by apply E1.
Qed.

Lemma in_list_true l v : v ∈ l → in_list l v = true.
Proof. intros H. unfold in_list. apply existsb_exists. exists v. split; [by apply list_elem_of_In|by apply bool_decide_eq_true]. Qed.

Ltac conj_true := repeat match goal with |- _ && _ = true => apply andb_true_iff; split end.

(** Every rule that passes validation passes the constraints of the table. *)
Lemma valid_rule_checks r : validate r = Ok tt → template_key_ok (TemplateKey r) = true → rule_checks r = true.
Proof.
  intros Hv Ht. apply validate_inv in Hv as
    ((Hname & _ & Hsome) & Hcat & Hsev & Hev & Hrec & Hdist & Hnot & Hn & Hw & Hnw & Hc & Hscope).
  apply valid_name in Hname as (Hne & Hlen & Hctl).
  apply known_action_checks in Hev as [Hev1 Hev2]. apply known_action_checks in Hrec as [Hrec1 Hrec2].
  unfold MaxAggregationCount, MaxAggregationWindowSeconds, MaxCooldownSeconds, MaxRuleNameLength in *.
  unfold rule_checks, between. rewrite Hev2, Hrec2, Ht, (no_control_newline _ Hctl), !(bool_decide_eq_true_2) by done.
  rewrite (proj2 (empty_false _) Hne). cbn [negb andb]. conj_true; try reflexivity.
  - destruct Hcat as [->|Hcat]; [done|]. eapply one_of_in; [exact Hcat|]. intros x Hx. apply in_list_true. set_solver.
  - destruct Hsev as [->|Hsev]; [done|]. eapply one_of_in; [exact Hsev|]. intros x Hx. apply in_list_true. set_solver.
  - destruct (empty (EventAction r)) eqn:E1; [done|]. destruct (empty (RecoveryAction r)); [done|].
    apply empty_false in E1. unfold str_eq. rewrite bool_decide_eq_false_2; [done|]. destruct Hdist; [done|congruence].
  - destruct (empty (Category r)) eqn:E1, (empty (Severity r)) eqn:E2, (empty (EventAction r)) eqn:E3; try done.
    apply empty_true in E1, E2, E3. intuition congruence.
  - destruct Hnw as [->|Hnw]; [done|]. rewrite (bool_decide_eq_true_2 _ Hnw). apply orb_true_r.
  - by apply bool_decide_eq_true.
  - destruct Hscope as [->| ->]; done.
  - destruct (NotifyRecovery r); [|done]. by rewrite (proj2 (empty_false _) (Hnot eq_refl)).
Qed.

Lemma validate_new_rule id k t r : validate (new_rule id k t r) = validate r.
Proof. reflexivity. Qed.
Lemma validate_rewrite_rule t r old : validate (rewrite_rule t r old) = validate r.
Proof. reflexivity. Qed.

Lemma template_keys_ok t : t ∈ ruleTemplateCatalog → template_key_ok (RT_Key t) = true ∧ RT_Key t ≠ "".
Proof. revert t. apply Forall_forall. repeat constructor; discriminate. Qed.

Lemma catalog_rule_valid t actionID : t ∈ ruleTemplateCatalog → 0 < actionID → validate (template_rule t actionID) = Ok tt.
Proof.
  intros Ht Ha. revert t Ht. apply Forall_forall.
  repeat constructor; unfold validate; simpl; rewrite (bool_decide_eq_false_2 (actionID ≤ 0)) by lia; reflexivity.
Qed.

(** ** Actions preserve the invariant *)

Lemma kind_checks k : validActionKind k = true → in_list ["generic_webhook"; "ntfy"] k = true.
Proof.
  unfold validActionKind. rewrite orb_true_iff. unfold str_eq. rewrite !bool_decide_eq_true.
  intros [->| ->]; reflexivity.
Qed.

(** The checks, split by the group of columns they are about. *)
Definition config_checks (a : action_row) : bool :=
  negb (empty (a_name a)) && bool_decide (go_len (a_name a) ≤ 128) && newline_free (a_name a)
  && in_list ["generic_webhook"; "ntfy"] (a_kind a)
  && negb (empty (a_destination a)) && bool_decide (go_len (a_destination a) ≤ 16384).

Definition attempt_checks (a : action_row) : bool :=
  (empty (test_attempt_token a)
   || forallb hex_lower (bytes_of (test_attempt_token a)) && bool_decide (go_len (test_attempt_token a) = 32))
  && (empty (test_attempt_token a) && is_null (test_attempt_config a)
      || negb (empty (test_attempt_token a)) && negb (is_null (test_started_at a))
         && negb (is_null (test_attempt_config a))).

Definition tested_checks (a : action_row) : bool :=
  in_list [""; "passed"; "failed"] (test_status a)
  && match test_http_status a with None => true | Some c => between 100 599 c end
  && bool_decide (0 ≤ test_latency_ms a)
  && bool_decide (go_len (test_error_code a) ≤ 128) && newline_free (test_error_code a)
  && (is_null (tested_at a) && empty (test_status a) && is_null (test_config a)
      || negb (is_null (tested_at a)) && negb (empty (test_status a)) && negb (is_null (test_config a))).

Lemma action_checks_split a :
  action_checks a = true ↔ config_checks a = true ∧ attempt_checks a = true ∧ tested_checks a = true.
Proof.
  unfold action_checks, config_checks, attempt_checks, tested_checks. rewrite !andb_true_iff. tauto.
Qed.

Lemma config_checks_intro a :
  name_ok (a_name a) → validActionKind (a_kind a) = true → destination_ok (a_destination a) → config_checks a = true.
Proof.
  intros (Hn & Hl & Hc) Hk [Hd Hdl]. unfold config_checks.
  rewrite (proj2 (empty_false _) Hn), (proj2 (empty_false _) Hd), (no_control_newline _ Hc), (kind_checks _ Hk).
  by rewrite !bool_decide_eq_true_2.
Qed.

Lemma config_checks_destination a : config_checks a = true → destination_ok (a_destination a).
Proof.
  unfold config_checks. rewrite !andb_true_iff. intros [[_ Hd] Hl]. apply negb_true_iff, empty_false in Hd.
  apply bool_decide_eq_true in Hl. done.
Qed.

Lemma updated_action_checks clock input a :
  served (fun _ => false) (fun _ => None) (OUpdateAction clock (a_id a) input) →
  action_checks a = true → action_checks (rewrite_action clock input a) = true.
Proof.
  intros (Hn & Hk & Hd) (Hc & Ha & Ht)%action_checks_split. apply action_checks_split. split_and!; [|exact Ha|exact Ht].
  apply config_checks_intro; [done|done|]. cbn. destruct (U_EncryptedDestination input); [done|].
  by apply config_checks_destination.
Qed.

Lemma admitted_action_checks clock token a :
  token_ok token → action_checks a = true → action_checks (admit_test clock token a) = true.
Proof.
  intros [Hh Hl] (Hc & Ha & Ht)%action_checks_split. apply action_checks_split. split_and!; [exact Hc| |exact Ht].
  unfold attempt_checks, admit_test. cbn [test_attempt_token test_attempt_config test_started_at is_null]. rewrite Hh, (bool_decide_eq_true_2 _ Hl).
  destruct (empty token) eqn:E; [|done]. apply empty_true in E. by subst.
Qed.

Lemma tested_action_checks token result a :
  token ≠ "" → test_result_ok result → test_attempt_token a = token →
  action_checks a = true → action_checks (record_test result a) = true.
Proof.
  intros Htok (Hs & Hl & Hh & Hel & Hen) Hta (Hc & Ha & Ht)%action_checks_split. apply action_checks_split.
  split_and!; [exact Hc|done|]. unfold tested_checks, record_test.
  cbn [test_status test_http_status test_latency_ms test_error_code tested_at test_config is_null]. rewrite Hen, !bool_decide_eq_true_2 by lia.
  unfold attempt_checks in Ha. rewrite Hta, (proj2 (empty_false _) Htok) in Ha. cbn in Ha.
  rewrite !andb_true_iff, !negb_true_iff in Ha. destruct Ha as (_ & _ & ->).
  assert (match HTTPStatus result with None => true | Some c => between 100 599 c end = true) as ->.
  { destruct (HTTPStatus result); [|done]. by apply bool_decide_eq_true. }
  destruct Hs as [-> | ->]; reflexivity.
Qed.

Lemma wf_put_action d a :
  wf d → is_Some (actions d !! a_id a) → action_checks a = true → wf (set_actions (<[a_id a := a]> (actions d)) d).
Proof.
  intros Hwf [old Hold] Hc. destruct (wf_action _ Hwf _ _ Hold) as (_ & Hlt & _). split; cbn; [| | |by apply Hwf..].
  - intros id b [[<- <-]|[Hne Hb]]%lookup_insert_Some; [done|]. by apply Hwf.
  - intros id r Hr. destruct (wf_rule _ Hwf _ _ Hr) as (? & ? & ? & ? & Hex). split_and!; try done; try lia.
    destruct (decide (ActionID r = a_id a)) as [->|Hne]; [by rewrite lookup_insert_eq|by rewrite lookup_insert_ne].
  - apply Hwf.
Qed.

Lemma wf_new_action d a :
  wf d → a_id a = next_action d → action_checks a = true →
  wf (Build_db (<[a_id a := a]> (actions d)) (rules d) (states d) (next_action d + 1) (next_rule d)).
Proof.
  intros Hwf Hid Hc. split; cbn; [| | |by apply Hwf..].
  - intros id b [[<- <-]|[Hne Hb]]%lookup_insert_Some; [split_and!; [done|lia|done]|].
    destruct (wf_action _ Hwf _ _ Hb) as (? & ? & ?). split_and!; [done|lia|done].
  - intros id r Hr. destruct (wf_rule _ Hwf _ _ Hr) as (? & ? & ? & ? & Hex). split_and!; try done; try lia.
    destruct (decide (ActionID r = a_id a)) as [->|Hne]; [by rewrite lookup_insert_eq|by rewrite lookup_insert_ne].
  - apply Hwf.
Qed.

Lemma wf_delete_action d id :
  wf d → existsb (fun kr => bool_decide (ActionID kr.2 = id)) (map_to_list (rules d)) = false →
  wf (set_actions (delete id (actions d)) d).
Proof.
  intros Hwf Hno. split; cbn; [| | |by apply Hwf..].
  - intros i a [_ Ha]%lookup_delete_Some. by apply Hwf.
  - intros i r Hr. destruct (wf_rule _ Hwf _ _ Hr) as (? & ? & ? & ? & Hex). split_and!; try done; try lia.
    rewrite lookup_delete_ne; [done|]. intros ->. enough (true = false) by done. rewrite <- Hno. symmetry.
    apply existsb_exists. exists (i, r). split; [|by apply bool_decide_eq_true].
    by apply list_elem_of_In, elem_of_map_to_list.
  - apply Hwf.
Qed.

(** ** Rules preserve the invariant *)

Lemma rule_states_same d d' : states d' = states d → ∀ id, rule_states d' id = rule_states d id.
Proof. intros H id. unfold rule_states. by rewrite H. Qed.

Lemma wf_insert_rule d r :
  wf d → ID r = next_rule d → validate r = Ok tt → rule_checks r = true → is_Some (actions d !! ActionID r) →
  (∀ i ri, rules d !! i = Some ri → TemplateKey r ≠ "" → TemplateKey ri ≠ TemplateKey r) →
  wf (Build_db (actions d) (<[ID r := r]> (rules d)) (states d) (next_action d) (next_rule d + 1)).
Proof.
  intros Hwf Hid Hv Hc Hex Hkey. pose proof (wf_next _ Hwf) as Hn. split; cbn; [by apply Hwf| | |by apply Hwf| |lia].
  - intros id q [[<- <-]|[Hne Hq]]%lookup_insert_Some; [split_and!; try done; lia|].
    destruct (wf_rule _ Hwf _ _ Hq) as (? & ? & ? & ? & ?). split_and!; try done; lia.
  - intros i j ri rj [[<- <-]|[_ Hi]]%lookup_insert_Some [[<- <-]|[_ Hj]]%lookup_insert_Some Heq Hne.
    + done.
    + by destruct (Hkey _ _ Hj Hne).
    + destruct (Hkey _ _ Hi); [by rewrite <- Heq|done].
    + by apply (wf_template _ Hwf _ _ ri rj).
  - intros id h s Hs. rewrite (rule_states_same d) in Hs by done.
    destruct (wf_state _ Hwf _ _ _ Hs) as (? & ? & ? & q & Hq & ?). split_and!; try done. exists q. split; [|done].
    rewrite lookup_insert_ne; [done|]. destruct (wf_rule _ Hwf _ _ Hq) as (_ & ? & _). lia.
Qed.

Lemma rule_states_delete d d' id :
  states d' = delete id (states d) →
  ∀ i h s, rule_states d' i !! h = Some s → i ≠ id ∧ rule_states d i !! h = Some s.
Proof.
  intros Hst i h s. unfold rule_states. rewrite Hst. destruct (decide (i = id)) as [->|Hne].
  - by rewrite lookup_delete_eq.
  - by rewrite lookup_delete_ne.
Qed.

Lemma wf_update_rule d id old r :
  wf d → rules d !! id = Some old → ID r = id → TemplateKey r = TemplateKey old → validate r = Ok tt →
  rule_checks r = true → is_Some (actions d !! ActionID r) →
  wf (set_states (delete id (states d)) (set_rules (<[id := r]> (rules d)) d)).
Proof.
  intros Hwf Hold Hid Hkey Hv Hc Hex. destruct (wf_rule _ Hwf _ _ Hold) as (_ & Hlt & _).
  split; cbn; [by apply Hwf| | | | |by apply Hwf].
  - intros i q [[<- <-]|[_ Hq]]%lookup_insert_Some; [done|]. by apply Hwf.
  - intros i j ri rj [[<- <-]|[_ Hi]]%lookup_insert_Some [[<- <-]|[_ Hj]]%lookup_insert_Some Heq Hne.
    + done.
    + eapply (wf_template _ Hwf id j old rj); [done..| |]; congruence.
    + eapply (wf_template _ Hwf i id ri old); [done..| |]; congruence.
    + by apply (wf_template _ Hwf i j ri rj).
  - intros i m [_ Hm]%lookup_delete_Some. by apply Hwf in Hm.
  - intros i h s Hs. apply (rule_states_delete d _ id) in Hs as [Hne Hs]; [|done].
    destruct (wf_state _ Hwf _ _ _ Hs) as (? & ? & ? & q & Hq & ?). split_and!; try done. exists q.
    by rewrite lookup_insert_ne.
Qed.

Lemma wf_delete_rule d id :
  wf d → wf (set_states (delete id (states d)) (set_rules (delete id (rules d)) d)).
Proof.
  intros Hwf. split; cbn; [by apply Hwf| | | | |by apply Hwf].
  - intros i q [_ Hq]%lookup_delete_Some. by apply Hwf.
  - intros i j ri rj [_ Hi]%lookup_delete_Some [_ Hj]%lookup_delete_Some. by apply (wf_template _ Hwf i j ri rj).
  - intros i m [_ Hm]%lookup_delete_Some. by apply Hwf in Hm.
  - intros i h s Hs. apply (rule_states_delete d _ id) in Hs as [Hne Hs]; [|done].
    destruct (wf_state _ Hwf _ _ _ Hs) as (? & ? & ? & q & Hq & ?). split_and!; try done. exists q.
    by rewrite lookup_delete_ne.
Qed.

(** ** Saving a state *)

Lemma oldest_in l s : oldest l = Some s → s ∈ l.
Proof.
  revert s. induction l as [|x l IH]; intros s; cbn [oldest foldr]; [done|]. fold (oldest l).
  destruct (oldest l) as [b|]; [|by intros [= ->]; left].
  destruct (older x b); intros [= ->]; [by left|]. right. by apply IH.
Qed.

Lemma oldest_idle_in m s : oldest_idle m = Some s → ∃ h, m !! h = Some s ∧ Phase s = StatePhaseIdle.
Proof.
  unfold oldest_idle. intros H%oldest_in%list_elem_of_In%filter_In. destruct H as [Hin Hi].
  apply list_elem_of_In, list_elem_of_fmap in Hin as ([h s'] & -> & Hin%elem_of_map_to_list). exists h.
  split; [done|]. by apply bool_decide_eq_true in Hi.
Qed.

Lemma rule_states_insert d m id i : rule_states (set_states (<[id := m]> (states d)) d) i = if decide (i = id) then m else rule_states d i.
Proof.
  unfold rule_states. cbn. destruct (decide (i = id)) as [->|Hne]; [by rewrite lookup_insert_eq|].
  by rewrite lookup_insert_ne.
Qed.

(** Room for a new state: nothing is lost but at most one idle state. *)
Lemma ensure_capacity id d d' :
  wf d → ensureAlertStateCapacity id d = Ok d' →
  Z.of_nat (size (rule_states d' id)) < MaxRuleStatesPerRule
  ∧ actions d' = actions d ∧ rules d' = rules d ∧ next_action d' = next_action d ∧ next_rule d' = next_rule d
  ∧ (∀ i, i ≠ id → states d' !! i = states d !! i)
  ∧ ∀ h s, rule_states d id !! h = Some s →
      rule_states d' id !! h = Some s ∨ (rule_states d' id !! h = None ∧ Phase s = StatePhaseIdle).
Proof.
  intros Hwf. unfold ensureAlertStateCapacity. case_bool_decide as Hsize; [intros [= <-]; split_and!; auto|].
  destruct (oldest_idle (rule_states d id)) as [s0|] eqn:Eo; [|done]. intros [= <-].
  apply oldest_idle_in in Eo as (h0 & Hs0 & Hidle). destruct (wf_state _ Hwf _ _ _ Hs0) as (_ & Hkey & _). subst h0.
  rewrite rule_states_insert. rewrite decide_True by done. split_and!; try done.
  - rewrite map_size_delete_Some by eauto. unfold rule_states in *.
    destruct (states d !! id) as [m|] eqn:Em; cbn in *; [|done]. apply (wf_capacity _ Hwf) in Em.
    unfold MaxRuleStatesPerRule in *. lia.
  - intros i Hi. cbn. by rewrite lookup_insert_ne.
  - intros h s Hs. destruct (decide (h = KeyHash s0)) as [->|Hne].
    + right. rewrite lookup_delete_eq. split; [done|]. congruence.
    + left. by rewrite lookup_delete_ne.
Qed.

Definition put_frame (s : RuleState) (d d' : db) : Prop :=
  actions d' = actions d ∧ rules d' = rules d ∧ next_action d' = next_action d ∧ next_rule d' = next_rule d
  ∧ rule_states d' (RuleID s) !! KeyHash s = Some (stored_state s)
  ∧ (∀ i, i ≠ RuleID s → states d' !! i = states d !! i)
  ∧ Z.of_nat (size (rule_states d' (RuleID s))) ≤ MaxRuleStatesPerRule
  ∧ ∀ h q, h ≠ KeyHash s →
      (rule_states d' (RuleID s) !! h = Some q → rule_states d (RuleID s) !! h = Some q)
      ∧ (rule_states d (RuleID s) !! h = Some q →
         rule_states d' (RuleID s) !! h = Some q ∨ (rule_states d' (RuleID s) !! h = None ∧ Phase q = StatePhaseIdle)).

Lemma save_frame s d d' : wf d → saveAlertRuleStateTx s d = Ok d' → put_frame s d d'.
Proof.
  intros Hwf. unfold saveAlertRuleStateTx. destruct (negb (state_checks s)); [done|].
  destruct (rule_states d (RuleID s) !! KeyHash s) as [old|] eqn:Eold.
  - intros [= <-]. unfold put_state, put_frame. rewrite rule_states_insert, decide_True by done. split_and!; try done.
    + by rewrite lookup_insert_eq.
    + intros i Hi. cbn. by rewrite lookup_insert_ne.
    + rewrite map_size_insert_Some by eauto. unfold rule_states in *.
      destruct (states d !! RuleID s) as [m|] eqn:Em; cbn in *; [|done]. by apply (wf_capacity _ Hwf) in Em.
    + intros h q Hne. rewrite lookup_insert_ne by done. auto.
  - destruct (ensureAlertStateCapacity (RuleID s) d) as [d1|e] eqn:Ec; [|done]. intros [= <-].
    pose proof Ec as Hcap. apply (ensure_capacity _ _ _ Hwf) in Hcap as (Hsz & Ha & Hr & Hna & Hnr & Hst & Hkeep).
    assert (∀ h q, rule_states d1 (RuleID s) !! h = Some q → rule_states d (RuleID s) !! h = Some q) as Hback.
    { intros h q. unfold ensureAlertStateCapacity in Ec. case_bool_decide; [by injection Ec as <-|].
      destruct (oldest_idle _); [|done]. injection Ec as <-. rewrite rule_states_insert, decide_True by done.
      by intros [_ ?]%lookup_delete_Some. }
    unfold put_state, put_frame. rewrite rule_states_insert, decide_True by done. split_and!; try done.
    + by rewrite lookup_insert_eq.
    + intros i Hi. cbn. rewrite lookup_insert_ne by done. by apply Hst.
    + rewrite map_size_insert. unfold MaxRuleStatesPerRule in *. destruct (rule_states d1 (RuleID s) !! KeyHash s); unfold id; lia.
    + intros h q Hne. rewrite lookup_insert_ne by done. split; [apply Hback|apply Hkeep].
Qed.

Lemma stored_state_checks s : state_checks s = true → state_checks (stored_state s) = true.
Proof. done. Qed.

Lemma save_checked s d d' : saveAlertRuleStateTx s d = Ok d' → state_checks s = true.
Proof. unfold saveAlertRuleStateTx. by destruct (state_checks s). Qed.

Lemma wf_save r s d d' :
  wf d → rules d !! RuleID s = Some r → coherent r (stored_state s) → saveAlertRuleStateTx s d = Ok d' → wf d'.
Proof.
  intros Hwf Hr Hcoh Hsave. pose proof (save_checked _ _ _ Hsave) as Hchk.
  apply save_frame in Hsave as (Ha & Hrs & Hna & Hnr & Hput & Hoth & Hsize & Hkeep); [|done].
  split; rewrite ?Ha, ?Hrs, ?Hna, ?Hnr; try apply Hwf.
  - intros id m Hm. destruct (decide (id = RuleID s)) as [->|Hne].
    + unfold rule_states in Hsize. by rewrite Hm in Hsize.
    + rewrite Hoth in Hm by done. by apply Hwf in Hm.
  - intros id h q Hq. destruct (decide (id = RuleID s)) as [->|Hne].
    + destruct (decide (h = KeyHash s)) as [->|Hne'].
      * rewrite Hput in Hq. injection Hq as <-. split_and!; [done..|]. by exists r.
      * apply Hkeep in Hq; [|done]. by apply Hwf.
    + unfold rule_states in Hq. rewrite Hoth in Hq by done. by apply Hwf.
Qed.

(** ** The rule state machine *)

Section machine.

Variable sha256 : list ascii → list ascii.
Variable ParseAddr : string → bool.
Variable Marshal : SystemEvents.entries → option string.

Abbreviation MatchesRecovery := (Alerting.MatchesRecovery ParseAddr Marshal).
Abbreviation MatchesTrigger := (Alerting.MatchesTrigger ParseAddr Marshal).
Abbreviation Evaluate := (Alerting.Evaluate sha256 ParseAddr Marshal).
Abbreviation hash_of := (DeduplicationKeyHash sha256).

(** The window the match falls into, and its number in it. *)
Inductive window (r : Rule) (s : RuleState) (now : Time) : Time → Z → Prop :=
| window_opened : window r s now now 1
| window_joined w :
    WindowStartedAt s = Some w →
    (AggregationWindowSeconds r = 0 ∨ now ≤ w + seconds (AggregationWindowSeconds r)) →
    window r s now w (wrap64 (WindowMatchCount s + 1)).

(** The transitions of a key. *)
Inductive transition (r : Rule) (s : RuleState) (e : SystemEvents.Event) (now : Time) : RuleState → Decision → Prop :=
| tr_ignored : transition r s e now s DecisionNone
| tr_recovered :
    MatchesRecovery r e = Ok true → Phase s = StatePhaseFiring →
    transition r s e now (recovered s now) (if NotifyRecovery r then DecisionRecover else DecisionNone)
| tr_suppressed until :
    MatchesRecovery r e = Ok false → MatchesTrigger r e = Ok true → Phase s = StatePhaseFiring →
    CooldownUntil s = Some until → now < until →
    transition r s e now (matched s now) DecisionSuppress
| tr_renotified :
    MatchesRecovery r e = Ok false → MatchesTrigger r e = Ok true → Phase s = StatePhaseFiring →
    (∀ until, CooldownUntil s = Some until → until ≤ now) →
    transition r s e now (markNotified (matched s now) now (CooldownSeconds r)) DecisionNotify
| tr_counted w n :
    MatchesRecovery r e = Ok false → MatchesTrigger r e = Ok true → Phase s = StatePhaseIdle →
    window r s now w n → n < AggregationCount r →
    transition r s e now (set_window (matched s now) StatePhaseIdle (Some w) n) DecisionNone
| tr_fired w n :
    MatchesRecovery r e = Ok false → MatchesTrigger r e = Ok true → Phase s = StatePhaseIdle →
    window r s now w n → AggregationCount r ≤ n →
    transition r s e now (markNotified (set_window (matched s now) StatePhaseFiring None 0) now (CooldownSeconds r))
      DecisionNotify.

Lemma Evaluate_transition r s e now s' dec :
  Evaluate r s e now = Ok (s', dec) →
  validate r = Ok tt ∧ RuleID s = ID r ∧ KeyHash s = hash_of r e ∧ transition r s e now s' dec.
Proof.
  unfold Alerting.Evaluate. destruct (validate r) as [[]|] eqn:Ev; [|done]. cbn [orb].
  destruct (bool_decide (ID r ≤ 0) || time_is_zero now) eqn:Ez; [done|].
  destruct (negb (bool_decide (RuleID s = ID r)) || _ || _) eqn:Es; [done|].
  rewrite !orb_false_iff, andb_false_iff, !negb_false_iff in Es. destruct Es as [[Hid Hkey] Hph].
  apply bool_decide_eq_true in Hid, Hkey. unfold str_eq in Hph. rewrite !bool_decide_eq_true in Hph.
  intros Heq. split_and!; [done..|]. revert Heq.
  destruct (MatchesRecovery r e) as [[]|] eqn:Erec; [| |done].
  { destruct (str_eq (Phase s) StatePhaseFiring) eqn:Ef; cbn [negb]; intros [= <- <-]; [|constructor].
    apply bool_decide_eq_true in Ef. by constructor. }
  destruct (MatchesTrigger r e) as [[]|] eqn:Etr; [| |done]; [|intros [= <- <-]; constructor].
  destruct (str_eq (Phase s) StatePhaseFiring) eqn:Ef; cbn [Phase matched] in *; rewrite Ef.
  - apply bool_decide_eq_true in Ef. cbv zeta. cbn [CooldownUntil matched].
    destruct (CooldownUntil s) as [u|] eqn:Eu.
    + unfold time_before. destruct (bool_decide (now < u)) eqn:Hu.
      * apply bool_decide_eq_true in Hu. intros Heq. injection Heq as <- <-. by eapply tr_suppressed.
      * apply bool_decide_eq_false in Hu. intros Heq. injection Heq as <- <-. apply tr_renotified; [done..|].
        rewrite Eu. intros u' [= <-]. lia.
    + intros [= <- <-]. apply tr_renotified; [done..|]. by rewrite Eu.
  - assert (Phase s = StatePhaseIdle) as Hidle.
    { apply bool_decide_eq_false in Ef. destruct Hph; [done|contradiction]. }
    intros Heq.
    assert (∃ w n, window r s now w n ∧
      (if match WindowStartedAt (matched s now) with None => true | Some _ => false end
          || aggregationWindowExpired (matched s now) r now
       then set_window (matched s now) (Phase s) (Some now) 1
       else set_window (matched s now) (Phase s) (WindowStartedAt (matched s now)) (wrap64 (WindowMatchCount (matched s now) + 1)))
      = set_window (matched s now) StatePhaseIdle (Some w) n) as (w & n & Hw & Hset).
    { cbn [WindowStartedAt matched WindowMatchCount]. unfold aggregationWindowExpired. cbn [WindowStartedAt matched].
      destruct (WindowStartedAt s) as [w|] eqn:Ew; cbn [orb].
      - destruct (if bool_decide (AggregationWindowSeconds r = 0) then false else _) eqn:Eexp.
        + exists now, 1. split; [constructor|]. by rewrite Hidle.
        + exists w, (wrap64 (WindowMatchCount s + 1)). split; [|by rewrite Hidle]. constructor; [done|].
          case_bool_decide; [by left|]. right. unfold time_after in Eexp. apply bool_decide_eq_false in Eexp. lia.
      - exists now, 1. split; [constructor|]. by rewrite Hidle. }
    rewrite Hset in Heq. cbn [WindowMatchCount set_window] in Heq.
    case_bool_decide as Hn; injection Heq as <- <-; [by eapply tr_counted|].
    eapply tr_fired; [done..|]. lia.
Qed.

Lemma pg_time_idem t : pg_time (pg_time t) = pg_time t.
Proof.
  unfold Ledger.pg_time. rewrite !time_truncate_div by done. by rewrite Z.div_mul.
Qed.

Lemma seconds_exact n : 0 ≤ n ≤ MaxCooldownSeconds → seconds n = n * Second.
Proof.
  intros Hn. unfold seconds. apply wrap64_id. unfold in_int64, int64_min, int64_max, MaxCooldownSeconds, Second in *. lia.
Qed.

Lemma window_count r s now w n :
  coherent r s → validate r = Ok tt → window r s now w n → 1 ≤ n.
Proof.
  intros Hc Hv Hw. apply validate_inv in Hv as (_ & _ & _ & _ & _ & _ & _ & Hn & _).
  unfold MaxAggregationCount in Hn. destruct Hw as [|w Hw _]; [lia|].
  destruct Hc as [(_ & _ & Hm)|(_ & Hno & _)]; [|congruence]. rewrite Hw in Hm.
  rewrite wrap64_id; [lia|]. unfold in_int64, int64_min, int64_max. lia.
Qed.

Lemma phases_differ : StatePhaseIdle ≠ StatePhaseFiring.
Proof. discriminate. Qed.

(** Coherence survives a transition and the round trip through the table. *)
Lemma transition_coherent r s e now s' dec :
  validate r = Ok tt → coherent r s → transition r s e now s' dec → coherent r (stored_state s').
Proof.
  intros Hv Hc Htr. destruct Htr as [| | | |w n ? ? ? Hw Hn|w n ? ? ? Hw Hn].
  1, 3: destruct Hc as [(? & Hcd & Hm)|(? & Hw & ? & t & Hl & Hcd)];
    [left; cbn; rewrite Hcd; split_and!; [done..|]; by destruct (WindowStartedAt s)
    |right; cbn; rewrite Hw, Hl, Hcd; split_and!; [done..|]; exists t; cbn; by rewrite !pg_time_idem].
  - by left.
  - right. destruct Hc as [(Hp & _)|(? & Hw & ? & _)]; [destruct phases_differ; congruence|]. cbn. rewrite Hw. split_and!; [done..|]. by exists now.
  - left. cbn. pose proof (window_count _ _ _ _ _ Hc Hv Hw) as Hn1. destruct Hc as [(_ & -> & _)|(? & _)]; [|destruct phases_differ; congruence].
    split_and!; [done..|lia|lia].
  - right. cbn. split_and!; [done..|]. by exists now.
Qed.

Lemma initial_coherent r id h : coherent r (initial_state id h).
Proof. by left. Qed.

Lemma transition_key r s e now s' dec : transition r s e now s' dec → RuleID s' = RuleID s ∧ KeyHash s' = KeyHash s.
Proof. by intros []. Qed.

(** ** Every step preserves the invariant *)

(** What an evaluation does: nothing, or it moves the state of the key. *)
Definition moves (id : Z) (e : SystemEvents.Event) (now : Time) (d : db) (a : result alert_error Evaluation) (d' : db) : Prop :=
  ∃ r s s' ev, rules d !! id = Some r ∧ s = default (initial_state id (hash_of r e)) (rule_states d id !! hash_of r e)
    ∧ RuleID s = id ∧ KeyHash s = hash_of r e ∧ coherent r s ∧ transition r s e now s' (E_Decision ev)
    ∧ (d' = d ∧ s' = s ∨ saveAlertRuleStateTx s' d = Ok d') ∧ a = Ok ev ∧ E_Rule ev = r.

Lemma evaluate_inv id e now b d a d' :
  wf d → evaluateRuleEvent sha256 ParseAddr Marshal id e now b d = (a, d') →
  (d' = d ∧ ∀ ev, a = Ok ev → E_Decision ev = DecisionNone) ∨ moves id e now d a d'.
Proof.
  intros Hwf. unfold evaluateRuleEvent. destruct (rules d !! id) as [r|] eqn:Er; [|intros [= <- <-]; by left].
  destruct (wf_rule _ Hwf _ _ Er) as (Hid & Hpos & Hv & _).
  assert (∀ u, evaluate_state sha256 ParseAddr Marshal r u e now d = (a, d') →
    (d' = d ∧ ∀ ev, a = Ok ev → E_Decision ev = DecisionNone) ∨ moves id e now d a d') as Hstate.
  { intros u. unfold evaluate_state. rewrite Hid.
    set (s := default (initial_state id (hash_of r e)) (rule_states d id !! hash_of r e)).
    assert (coherent r s) as Hcoh.
    { subst s. destruct (rule_states d id !! hash_of r e) as [s|] eqn:Es; [|apply initial_coherent].
      destruct (wf_state _ Hwf _ _ _ Es) as (_ & _ & _ & r' & Hr' & Hc). rewrite Er in Hr'. by injection Hr' as <-. }
    destruct (Evaluate r s e now) as [[s' dec]|err] eqn:Ee; [|intros [= <- <-]; by left].
    apply Evaluate_transition in Ee as (_ & Hrid & Hkey & Htr). rewrite Hid in Hrid.
    case_bool_decide as Hsame.
    - intros [= <- <-]. right. exists r, s, s', (Build_Evaluation r true u s' dec). split_and!; try done. by left.
    - destruct (saveAlertRuleStateTx s' d) as [d1|err] eqn:Esave; [|intros [= <- <-]; by left].
      intros [= <- <-]. right. exists r, s, s', (Build_Evaluation r true u s' dec). split_and!; try done. by right. }
  destruct b; [|apply Hstate]. destruct (actions d !! ActionID r) as [act|]; [|intros [= <- <-]; by left].
  destruct (a_enabled act); [apply Hstate|]. intros [= <- <-]. left. split; [done|]. by intros ev [= <-].
Qed.

Lemma evaluate_wf id e now b d : wf d → wf (evaluateRuleEvent sha256 ParseAddr Marshal id e now b d).2.
Proof.
  intros Hwf. destruct (evaluateRuleEvent _ _ _ id e now b d) as [a d'] eqn:E. cbn.
  destruct (evaluate_inv _ _ _ _ _ _ _ Hwf E) as [[-> _]|(r & s & s' & ev & Hr & _ & Hrid & _ & Hc & Htr & Hd & _)]; [done|].
  destruct Hd as [[-> _]|Hsave]; [done|].
  destruct (wf_rule _ Hwf _ _ Hr) as (_ & _ & Hv & _). pose proof (transition_key _ _ _ _ _ _ Htr) as [Hk _].
  eapply wf_save; [done| | |exact Hsave]; [by rewrite Hk, Hrid|]. by eapply transition_coherent.
Qed.

Lemma template_free key d i r :
  template_rule_of key d = None → rules d !! i = Some r → TemplateKey r ≠ key.
Proof.
  unfold template_rule_of. intros Hn Hr ->%eq_sym. destruct (List.find _ _) eqn:Ef; [done|].
  apply (find_none _ _) with (x := (i, r)) in Ef; [|by apply list_elem_of_In, elem_of_map_to_list].
  cbn in Ef. by apply bool_decide_eq_false in Ef.
Qed.

Lemma insert_rule_wf d r :
  wf d → ID r = next_rule d → validate r = Ok tt → template_key_ok (TemplateKey r) = true →
  is_Some (actions d !! ActionID r) →
  (∀ i ri, rules d !! i = Some ri → TemplateKey r ≠ "" → TemplateKey ri ≠ TemplateKey r) →
  wf (insert_rule r d).2 ∧ (insert_rule r d).1 = Ok r.
Proof.
  intros Hwf Hid Hv Hk Hex Hfree. unfold insert_rule. rewrite (valid_rule_checks r Hv Hk). split; [|done]. cbn.
  apply wf_insert_rule; auto using valid_rule_checks.
Qed.

Lemma lock_action id d : lockAlertAction id d = Ok tt → is_Some (actions d !! id).
Proof. unfold lockAlertAction. destruct (actions d !! id); [eauto|done]. Qed.

Lemma template_key_kept d id r : wf d → rules d !! id = Some r → template_key_ok (TemplateKey r) = true.
Proof.
  intros Hwf Hr. destruct (wf_rule _ Hwf _ _ Hr) as (_ & _ & _ & Hc & _). unfold rule_checks in Hc.
  by apply andb_true_iff in Hc as [_ ?].
Qed.

(** A transaction of the service leaves well-formed tables behind and is not
    refused by a constraint of the tables. *)
Definition refused (a : answer) : bool :=
  match a with
  | RAction (Err ErrDatabase) | RDone (Err ErrDatabase) | RStart (Err ErrDatabase) | RRule (Err ErrDatabase)
  | RInstalled (Err ErrDatabase) | REvaluation (Err ErrDatabase) | RFailed => true
  | _ => false
  end.

Abbreviation perform := (AlertingInv.perform sha256 ParseAddr Marshal).
Abbreviation served := (AlertingInv.served ParseAddr Marshal).

Lemma put_action_wf d a :
  wf d → is_Some (actions d !! a_id a) → action_checks a = true →
  wf (put_action a d).2 ∧ refused (RAction (put_action a d).1) = false.
Proof. intros Hwf Hex Hc. unfold put_action. rewrite Hc. cbn. split; [by apply wf_put_action|done]. Qed.

Lemma action_ops_wf o d :
  wf d → served o →
  match o with OCreateAction _ _ | OUpdateAction _ _ _ | ODeleteAction _ | OBeginActionTest _ _ _ _ _
             | OFinalizeActionTest _ _ _ => wf (perform o d).2 ∧ refused (perform o d).1 = false
           | _ => True end.
Proof.
  intros Hwf Hs. destruct o as [now input|clock id input|id|clock clock' id expected token|id token result| | | | |]; [..|done|done|done|done|done]; cbn [AlertingInv.perform answering fst snd].
  - destruct Hs as (Hn & Hk & Hd). unfold CreateAction.
    set (a := Build_action_row _ _ _ _ _ _ _ _ _ _ _ _ _ _ _ _ _).
    assert (action_checks a = true) as Hc.
    { apply action_checks_split. split_and!; [by apply config_checks_intro|done|done]. }
    rewrite Hc. cbn. split; [|done]. by apply (wf_new_action d a).
  - unfold UpdateAction, staleOrMissingAlertAction. destruct (actions d !! id) as [a|] eqn:Ea; [|done].
    case_bool_decide; [|by case_bool_decide]. destruct (wf_action _ Hwf _ _ Ea) as (Hid & _ & Hc).
    apply put_action_wf; [done|cbn; rewrite Hid; eauto|]. apply updated_action_checks; [|done]. by rewrite Hid.
  - unfold DeleteAction. destruct (actions d !! id) as [a|] eqn:Ea; [|done].
    destruct (existsb _ _) eqn:Ex; [done|]. split; [by apply wf_delete_action|done].
  - unfold BeginActionTest. destruct (actions d !! id) as [a|] eqn:Ea; [|done].
    destruct (negb _); [done|]. case_bool_decide; [done|]. destruct (wf_action _ Hwf _ _ Ea) as (Hid & _ & Hc).
    destruct Hs as [Htok _]. rewrite (admitted_action_checks clock' token a Htok Hc). cbn. split; [|done].
    pose proof (wf_put_action d (admit_test clock' token a) Hwf) as Hput. cbn [a_id admit_test] in Hput. rewrite Hid in Hput.
    apply Hput; [eauto|by apply admitted_action_checks].
  - unfold FinalizeActionTest, staleOrMissingAlertAction. destruct (actions d !! id) as [a|] eqn:Ea; [|done].
    destruct (str_eq (test_attempt_token a) token) eqn:Et; [|by case_bool_decide]. apply bool_decide_eq_true in Et.
    destruct (wf_action _ Hwf _ _ Ea) as (Hid & _ & Hc). destruct Hs as [Htok Hres].
    apply put_action_wf; [done|cbn; rewrite Hid; eauto|]. by apply (tested_action_checks token).
Qed.

Lemma rule_ops_wf o d :
  wf d → served o →
  match o with OCreateRule _ _ | OInstallRuleTemplate _ _ | OUpdateRule _ _ _ _ | ODeleteRule _ =>
    wf (perform o d).2 ∧ refused (perform o d).1 = false
  | _ => True end.
Proof.
  intros Hwf Hs. destruct o as [| | | | |now rule|now rule|clock id rule expected|id|]; [done|done|done|done|done|..|done]; cbn [AlertingInv.perform answering fst snd].
  - unfold CreateRule. destruct (lockAlertAction (ActionID rule) d) as [[]|[]] eqn:El; try done.
    2: { unfold lockAlertAction in El. by destruct (actions d !! ActionID rule). }
    apply lock_action in El. edestruct (insert_rule_wf d (new_rule (next_rule d) "" now rule)) as [H1 H2]; [done..|].
    rewrite H2. done.
  - destruct Hs as (t & Ht & Hpos & Heq). destruct (template_keys_ok t Ht) as [Hk Hne].
    assert (TemplateKey rule = RT_Key t) as Hkey by (by rewrite Heq).
    unfold InstallRuleTemplate. destruct (empty (TemplateKey rule)); [done|].
    destruct (template_rule_of (TemplateKey rule) d) eqn:Et; [done|].
    destruct (lockAlertAction (ActionID rule) d) as [[]|[]] eqn:El; try done.
    2: { unfold lockAlertAction in El. by destruct (actions d !! ActionID rule). }
    apply lock_action in El.
    edestruct (insert_rule_wf d (new_rule (next_rule d) (TemplateKey rule) now rule)) as [H1 H2].
    { done. } { done. } { rewrite validate_new_rule, Heq. by apply catalog_rule_valid. } { cbn. by rewrite Hkey. } { done. }
    { intros i ri Hri _. cbn. by eapply template_free. }
    destruct (insert_rule _ d) as [[r|e] d1]; [done|done].
  - unfold UpdateRule. destruct (rules d !! id) as [old|] eqn:Eo; [|done]. destruct (negb _); [done|].
    destruct (lockAlertAction (ActionID rule) d) as [[]|[]] eqn:El; try done.
    2: { unfold lockAlertAction in El. by destruct (actions d !! ActionID rule). }
    apply lock_action in El. destruct (wf_rule _ Hwf _ _ Eo) as (Hid & _).
    assert (rule_checks (rewrite_rule clock rule old) = true) as Hc.
    { apply valid_rule_checks; [done|]. cbn. by eapply template_key_kept. }
    rewrite Hc. cbn. split; [|done]. by eapply wf_update_rule.
  - unfold DeleteRule. destruct (rules d !! id); [|done]. split; [by apply wf_delete_rule|done].
Qed.

Hypothesis sha256_length : ∀ m, length (sha256 m) = 32%nat.

Lemma hash_checks r e : forallb hex_lower (bytes_of (hash_of r e)) = true ∧ go_len (hash_of r e) = 64.
Proof.
  unfold DeduplicationKeyHash, SystemEvents.hex_EncodeToString, bytes_of, string_of, go_len.
  generalize (dedup_message r e) as m. intros m. pose proof (sha256_length m) as Hl.
  rewrite String.list_ascii_of_string_of_list_ascii. split.
  - generalize (sha256 m). intros l. apply forallb_forall. intros c Hc%list_elem_of_In.
    unfold SystemEvents.hex_bytes in Hc. apply list_elem_of_bind in Hc as (a & Hin & _).
    pose proof (SystemEvents.byte_range a).
    assert (∀ n, 0 ≤ n < 16 → hex_lower (SystemEvents.hex_digit n) = true) as Hd.
    { intros n Hn. assert (n ∈ seqZ 0 16) as Hs by (apply elem_of_seqZ; lia). clear Hn. revert n Hs.
      apply Forall_forall. repeat constructor. }
    rewrite !elem_of_cons in Hin. destruct Hin as [->|[->|[]%not_elem_of_nil]]; apply Hd.
    + split; [apply Z.div_pos; lia|apply Z.div_lt_upper_bound; lia].
    + apply Z.mod_pos_bound; lia.
  - rewrite Base64.length_string_of, SystemEvents.hex_bytes_length, Hl. done.
Qed.

(** The state a key moves to passes the checks. *)
Lemma transition_checks r s e now s' dec :
  validate r = Ok tt → coherent r s → KeyHash s = hash_of r e → transition r s e now s' dec → state_checks s' = true.
Proof.
  intros Hv Hc Hk Htr. destruct (hash_checks r e) as [Hh Hl]. pose proof (transition_key _ _ _ _ _ _ Htr) as [_ Hk'].
  unfold state_checks. rewrite Hk', Hk, Hh, Hl. cbn [andb bool_decide]. rewrite bool_decide_eq_true_2 by done. cbn [andb].
  assert (coherent r (stored_state s')) as [(Hp & _ & Hm)|(Hp & _ & Hm & _)] by (by eapply transition_coherent).
  - cbn in Hp, Hm. rewrite Hp. cbn. apply bool_decide_eq_true. destruct (WindowStartedAt s'); cbn in Hm; lia.
  - cbn in Hp, Hm. rewrite Hp, Hm. done.
Qed.

Lemma save_not_refused s d e : state_checks s = true → saveAlertRuleStateTx s d = Err e → e = ErrStateCapacity.
Proof.
  intros Hc. unfold saveAlertRuleStateTx, ensureAlertStateCapacity. rewrite Hc. cbn [negb].
  destruct (rule_states d (RuleID s) !! KeyHash s); [done|]. case_bool_decide; [done|].
  destruct (oldest_idle _); [done|]. by intros [= <-].
Qed.

Lemma Evaluate_error r s e now err : Evaluate r s e now = Err err → err = ErrInvalidInput.
Proof.
  unfold Alerting.Evaluate, Alerting.MatchesRecovery, Alerting.MatchesTrigger. destruct (validate r); [|by intros [= <-]].
  cbn [orb]. destruct (_ || _); [by intros [= <-]|]. destruct (_ || _ || _); [by intros [= <-]|].
  destruct (SystemEvents.ValidateEvent _ _ e); [|by intros [= <-]].
  repeat case_match; simplify_eq; done.
Qed.

Lemma evaluate_not_refused id e now b d :
  wf d → refused (REvaluation (evaluateRuleEvent sha256 ParseAddr Marshal id e now b d).1) = false.
Proof.
  intros Hwf. unfold evaluateRuleEvent. destruct (rules d !! id) as [r|] eqn:Er; [|done].
  destruct (wf_rule _ Hwf _ _ Er) as (Hid & _ & Hv & _).
  assert (∀ u, refused (REvaluation (evaluate_state sha256 ParseAddr Marshal r u e now d).1) = false) as Hst.
  { intros u. unfold evaluate_state. set (s := default _ _).
    destruct (Evaluate r s e now) as [[s' dec]|err] eqn:Ee; [|by apply Evaluate_error in Ee as ->].
    apply Evaluate_transition in Ee as (_ & Hrid & Hkey & Htr). case_bool_decide; [done|].
    destruct (saveAlertRuleStateTx s' d) eqn:Es; [done|]. apply save_not_refused in Es as ->; [done|].
    eapply transition_checks; [done| |done|done]. subst s. rewrite Hid.
    destruct (rule_states d id !! hash_of r e) as [s|] eqn:Ess; [|apply initial_coherent].
    destruct (wf_state _ Hwf _ _ _ Ess) as (_ & _ & _ & r' & Hr' & Hc). rewrite Er in Hr'. by injection Hr' as <-. }
  destruct b; [|done]. destruct (actions d !! ActionID r) as [a|]; [|done]. by destruct (a_enabled a).
Qed.

Lemma perform_wf o d : wf d → served o → wf (perform o d).2 ∧ refused (perform o d).1 = false.
Proof.
  intros Hwf Hs. pose proof (action_ops_wf o d Hwf Hs) as Ha. pose proof (rule_ops_wf o d Hwf Hs) as Hr.
  destruct o; try assumption. cbn. split; [by apply evaluate_wf|by apply evaluate_not_refused].
Qed.

End machine.

Section invariant.
Context (sha256 : list ascii → list ascii) (ParseAddr : string → bool) (Marshal : SystemEvents.entries → option string).

Lemma op_step_wf d o a d' : wf d → step sha256 ParseAddr Marshal d o a d' → wf d'.
Proof.
  intros Hwf Hst. assert (∀ o, served ParseAddr Marshal o → wf (perform sha256 ParseAddr Marshal o d).2) as Hp.
  { intros o' Hs. pose proof (action_ops_wf sha256 ParseAddr Marshal o' d Hwf Hs) as Ha.
    pose proof (rule_ops_wf sha256 ParseAddr Marshal o' d Hwf Hs) as Hr.
    destruct o'; try apply Ha; try apply Hr. cbn. by apply evaluate_wf. }
  destruct Hst; auto.
Qed.

Lemma history_wf d l d' : wf d → history sha256 ParseAddr Marshal d l d' → wf d'.
Proof. intros Hwf Hh. induction Hh as [|d o a d1 l d2 Hst _ IH]; [done|]. apply IH. by eapply op_step_wf. Qed.

Lemma history_split d l1 l2 d' :
  history sha256 ParseAddr Marshal d (l1 ++ l2) d' →
  ∃ d1, history sha256 ParseAddr Marshal d l1 d1 ∧ history sha256 ParseAddr Marshal d1 l2 d'.
Proof.
  revert d. induction l1 as [|x l1 IH]; intros d Hh; [exists d; split; [constructor|done]|].
  inversion Hh as [|? o a d1 ? ? Hst Hh']; subst. apply IH in Hh' as (d2 & H1 & H2). exists d2.
  split; [|done]. by econstructor.
Qed.

End invariant.

Definition empty_db : db := {| actions := ∅; rules := ∅; states := ∅; next_action := 1; next_rule := 1 |}.

Lemma empty_wf : wf empty_db.
Proof.
  by split.
Qed.

(** [C28] Whatever the service does to the alerting tables, they stay well formed:
    every row satisfies the constraints of its table and every rule its
    validation, rules refer to actions that exist, a template is installed at
    most once, a rule keeps at most 1024 states and each of them is that of an
    idle key that has counted fewer matches than the rule asks for or of a
    firing key with the cooldown of its last notification; and no transaction
    is refused by a constraint. *)
Theorem alert_tables_well_formed sha256 ParseAddr Marshal l d :
  (∀ m, length (sha256 m) = 32%nat) → history sha256 ParseAddr Marshal empty_db l d →
  wf d ∧ ∀ o, served ParseAddr Marshal o → refused (perform sha256 ParseAddr Marshal o d).1 = false.
Proof.
  intros Hsha Hh. assert (wf d) as Hwf by (eapply history_wf; [apply empty_wf|done]).
  split; [done|]. intros o Ho. by apply perform_wf.
Qed.

(** ** A concrete history *)

(** The operations one after the other, none of them failing. *)
Fixpoint trace sha256 ParseAddr Marshal (ops : list op) (d : db) : list entry * db :=
  match ops with
  | [] => ([], d)
  | o :: ops =>
      let '(a, d1) := perform sha256 ParseAddr Marshal o d in
      let '(l, d2) := trace sha256 ParseAddr Marshal ops d1 in
      ({| before := d; what := o; outcome := a |} :: l, d2)
  end.

Lemma trace_history sha256 ParseAddr Marshal ops d :
  Forall (served ParseAddr Marshal) ops →
  history sha256 ParseAddr Marshal d (trace sha256 ParseAddr Marshal ops d).1 (trace sha256 ParseAddr Marshal ops d).2.
Proof.
  revert d. induction ops as [|o ops IH]; intros d Hs; [constructor|]. apply Forall_cons in Hs as [Ho Hs]. cbn [trace].
  pose proof (step_done sha256 ParseAddr Marshal d o Ho) as Hst.
  destruct (perform sha256 ParseAddr Marshal o d) as [a d1]. specialize (IH d1 Hs).
  destruct (trace sha256 ParseAddr Marshal ops d1) as [l d2]. by econstructor.
Qed.

Module Demo.

Definition sha256 (m : list ascii) : list ascii := take 32 (rev m ++ repeat "000"%char 32).
Definition ParseAddr (s : string) : bool := false.
Definition Marshal (m : SystemEvents.entries) : option string := Some "{}".

Lemma sha256_length m : length (sha256 m) = 32%nat.
Proof. unfold sha256. rewrite length_take, length_app, repeat_length. lia. Qed.

Definition destination : string := "ciphertext".
Definition create : op := OCreateAction 1000000 (Build_ActionCreate "hook" ActionKindGenericWebhook destination true).

Definition rule : Rule :=
  {| ID := 0; TemplateKey := ""; Name := "failures"; ActionID := 1; Enabled := true; Category := SystemEvents.CategoryOAuth;
     Severity := ""; EventAction := "oauth.refresh.automatic.failed"; RecoveryAction := "oauth.refresh.automatic.succeeded";
     AggregationCount := 2; AggregationWindowSeconds := 60; CooldownSeconds := 300;
     DeduplicationScope := DeduplicationScopeTarget; NotifyRecovery := true; CreatedAt := 0; UpdatedAt := 0 |}.

Definition event (account : string) : SystemEvents.Event :=
  {| SystemEvents.Event_ID := 7; SystemEvents.OccurredAt := 5; SystemEvents.Category := SystemEvents.CategoryOAuth;
     SystemEvents.Severity := SystemEvents.SeverityWarning; SystemEvents.Action := "oauth.refresh.automatic.failed";
     SystemEvents.Outcome := SystemEvents.OutcomeFailure;
     SystemEvents.Event_Actor := SystemEvents.Build_Actor SystemEvents.ActorSystem 0 "";
     SystemEvents.Event_Target := SystemEvents.Build_Target "provider_account" account "";
     SystemEvents.CorrelationID := "abc"; SystemEvents.SourceIP := ""; SystemEvents.HTTPMethod := "";
     SystemEvents.RoutePattern := ""; SystemEvents.StatusCode := None; SystemEvents.DurationMS := 0;
     SystemEvents.ErrorCode := ""; SystemEvents.Message := ""; SystemEvents.Metadata := None |}.

Definition at_second (n : Z) : Time := n * Second + 123.

(** Two failures raise an alert, further ones are suppressed until five minutes
    have passed; another account has its own count. *)
Definition ops : list op :=
  [create; OCreateRule 2000000 rule;
   OEvaluate 1 (event "4") (at_second 10) true; OEvaluate 1 (event "5") (at_second 15) true;
   OEvaluate 1 (event "4") (at_second 20) true; OEvaluate 1 (event "4") (at_second 100) true;
   OEvaluate 1 (event "4") (at_second 330) true].

Lemma event_valid a :
  go_len a ≤ 128 → SystemEvents.ValidateEvent ParseAddr Marshal (event a) = Ok tt.
Proof.
  intros Ha. unfold SystemEvents.ValidateEvent, event. cbn [SystemEvents.Event_Target SystemEvents.Target_ID].
  rewrite (bool_decide_eq_false_2 (SystemEvents.MaxNameLength < go_len a)) by (unfold SystemEvents.MaxNameLength; lia).
  vm_compute. reflexivity.
Qed.

Lemma ops_served : Forall (served ParseAddr Marshal) ops.
Proof.
  repeat constructor; try (vm_compute; done); try discriminate; try (apply event_valid; vm_compute; discriminate).
Qed.

(** Witness of [alert_tables_well_formed]. *)
Lemma alert_tables_well_formed_demo :
  wf (trace sha256 ParseAddr Marshal ops empty_db).2
  ∧ rules (trace sha256 ParseAddr Marshal ops empty_db).2 !! 1 = Some (new_rule 1 "" 2000000 rule).
Proof.
  split; [|vm_compute; reflexivity].
  exact (proj1 (alert_tables_well_formed sha256 ParseAddr Marshal _ _ sha256_length
    (trace_history sha256 ParseAddr Marshal ops empty_db ops_served))).
Defined.

End Demo.

End AlertingInv.
