(* ===== verification/AlertingThms.v ===== *)
(** * Alerting: what the notifications promise

    Theorems on histories of the alerting tables: notifications of one
    deduplication key are spaced by the cooldown, an alert needs its number of
    matches within the window, tests of an action are spaced, updates made
    from a stale version are refused. *)

From S2P Require Import Prelude GoStrings Ledger Secrets SystemEvents Alerting AlertingStore AlertingInv.
From Stdlib Require Import Ascii.
From Stdlib Require String.

Module AlertingThms.
Import Alerting AlertingStore AlertingInv.

Section histories.
Context (sha256 : list ascii → list ascii) (ParseAddr : string → bool) (Marshal : SystemEvents.entries → option string).

Abbreviation perform := (AlertingInv.perform sha256 ParseAddr Marshal).
Abbreviation step := (AlertingInv.step sha256 ParseAddr Marshal).
Abbreviation history := (AlertingInv.history sha256 ParseAddr Marshal).
Abbreviation transition := (AlertingInv.transition ParseAddr Marshal).
Abbreviation hash_of := (DeduplicationKeyHash sha256).
Abbreviation MatchesRecovery := (Alerting.MatchesRecovery ParseAddr Marshal).
Abbreviation MatchesTrigger := (Alerting.MatchesTrigger ParseAddr Marshal).

(** ** Reading a history *)

(** The entry evaluates an event of the key [h] of rule [r]. *)
Definition evaluation_of (r : Z) (h : string) (x : entry) : option (Rule * SystemEvents.Event * Time) :=
  match what x with
  | OEvaluate id e now _ =>
      match rules (before x) !! id with
      | Some rule => if bool_decide (id = r) && str_eq (hash_of rule e) h then Some (rule, e, now) else None
      | None => None
      end
  | _ => None
  end.

(** The time of a notification the entry decided on. *)
Definition notified_at (r : Z) (h : string) (x : entry) : option Time :=
  match evaluation_of r h x, outcome x with
  | Some (_, _, now), REvaluation (Ok ev) => if bool_decide (E_Decision ev = DecisionNotify) then Some now else None
  | _, _ => None
  end.

(** The rule is changed or removed. *)
Definition changes_rule (r : Z) (x : entry) : bool :=
  match what x with
  | OUpdateRule _ id _ _ => bool_decide (id = r)
  | ODeleteRule id => bool_decide (id = r)
  | _ => false
  end.

(** The event is a recovery of the key. *)
Definition recovers (r : Z) (h : string) (x : entry) : bool :=
  match evaluation_of r h x with
  | Some (rule, e, _) => match MatchesRecovery rule e with Ok b => b | Err _ => false end
  | None => false
  end.

(** The event is a trigger of the key. *)
Definition triggered_at (r : Z) (h : string) (x : entry) : option Time :=
  match evaluation_of r h x with
  | Some (rule, e, now) => match MatchesTrigger rule e with Ok true => Some now | _ => None end
  | None => None
  end.

(** ** What a step leaves alone *)

Definition untouched (r : Z) (d d' : db) : Prop :=
  rules d' !! r = rules d !! r ∧ rule_states d' r = rule_states d r.

Lemma untouched_refl r d : untouched r d d.
Proof. done. Qed.

Lemma put_action_untouched r a d : untouched r d (put_action a d).2.
Proof. unfold put_action. by destruct (action_checks a). Qed.

Lemma insert_rule_untouched r q d : r ≠ ID q → untouched r d (insert_rule q d).2.
Proof.
  intros Hne. unfold insert_rule. destruct (rule_checks q); [|done]. split; [|done]. cbn. by rewrite lookup_insert_ne.
Qed.

Lemma perform_untouched r o d :
  r < next_rule d →
  match o with OUpdateRule _ id _ _ | ODeleteRule id | OEvaluate id _ _ _ => id ≠ r | _ => True end →
  wf d → untouched r d (perform o d).2.
Proof.
  intros Hr Hne Hwf. destruct o as [| | | | |now rule|now rule|clock id rule expected|id|id e now b]; cbn [AlertingInv.perform answering snd].
  - unfold CreateAction. by case_match.
  - unfold UpdateAction. case_match; [|done]. case_match; [apply put_action_untouched|done].
  - unfold DeleteAction. case_match; [|done]. by case_match.
  - unfold BeginActionTest. repeat case_match; done.
  - unfold FinalizeActionTest. case_match; [|done]. case_match; [apply put_action_untouched|done].
  - unfold CreateRule. case_match; [|done]. apply insert_rule_untouched. cbn. lia.
  - unfold InstallRuleTemplate. repeat (case_match; try done).
    all: pose proof (insert_rule_untouched r (new_rule (next_rule d) (TemplateKey rule) now rule) d ltac:(cbn; lia)) as Hi;
      match goal with H : insert_rule _ _ = _ |- _ => rewrite H in Hi end; exact Hi.
  - unfold UpdateRule. repeat (case_match; try done). split; unfold rule_states; cbn.
    + by rewrite lookup_insert_ne.
    + by rewrite lookup_delete_ne.
  - unfold DeleteRule. case_match; [|done]. split; unfold rule_states; cbn; by rewrite lookup_delete_ne.
  - destruct (evaluateRuleEvent _ _ _ id e now b d) as [a d'] eqn:E. cbn.
    destruct (evaluate_inv _ _ _ _ _ _ _ _ _ _ Hwf E) as [[-> _]|(q & s & s' & ev & Hq & _ & Hrid & _ & _ & Htr & Hd & _)]; [done|].
    destruct Hd as [[-> _]|Hsave]; [done|]. apply transition_key in Htr as [Hk _].
    apply save_frame in Hsave as (_ & Hrs & _ & _ & _ & Hoth & _); [|done]. split; [by rewrite Hrs|].
    unfold rule_states. rewrite Hoth; [done|]. congruence.
Qed.

(** A step answers and changes the tables as the transaction does, or leaves
    them alone. *)
Lemma step_cases d o a d' :
  step d o a d' → (a, d') = perform o d ∨ (a = RFailed ∧ (d' = d ∨ d' = (perform o d).2)).
Proof. intros [Hs|Hs|Hs]; [left; by destruct (AlertingInv.perform _ _ _ o d)|by right; auto..]. Qed.

Lemma step_state d o a d' : step d o a d' → d' = d ∨ d' = (perform o d).2.
Proof. intros [H|[_ H]]%step_cases; [right; by rewrite <- H|done]. Qed.

(** ** Cooldown *)

(** The key is firing, and silent at least until [u]. *)
Definition silent_until (r : Z) (h : string) (rule : Rule) (u : Time) (d : db) : Prop :=
  rules d !! r = Some rule ∧
  ∃ s u', rule_states d r !! h = Some s ∧ Phase s = StatePhaseFiring ∧ CooldownUntil s = Some u' ∧ u ≤ u'.

Lemma silent_untouched r h rule u d d' : untouched r d d' → silent_until r h rule u d → silent_until r h rule u d'.
Proof. intros [H1 H2]. unfold silent_until. by rewrite H1, H2. Qed.

Lemma pg_time_mono t u : t ≤ u → pg_time t ≤ pg_time u.
Proof. apply time_truncate_mono. done. Qed.

Lemma pg_time_bounds t : pg_time t ≤ t < pg_time t + Microsecond.
Proof. by apply time_truncate_bounds. Qed.

Lemma cooldown_nonneg rule : validate rule = Ok tt → seconds (CooldownSeconds rule) = CooldownSeconds rule * Second ∧ 0 ≤ CooldownSeconds rule.
Proof.
  intros Hv%validate_inv. destruct Hv as (_ & _ & _ & _ & _ & _ & _ & _ & _ & _ & Hc & _).
  split; [by apply seconds_exact|lia].
Qed.

(** A transition of a silent key that is not a recovery keeps it silent. *)
Lemma transition_silent rule s e now s' dec u u' :
  validate rule = Ok tt → coherent rule s → transition rule s e now s' dec → MatchesRecovery rule e ≠ Ok true →
  Phase s = StatePhaseFiring → CooldownUntil s = Some u' → u ≤ u' →
  Phase s' = StatePhaseFiring ∧ ∃ v, CooldownUntil (stored_state s') = Some v ∧ u ≤ v.
Proof.
  intros Hv Hc Htr Hrec Hp Hu Hle. pose proof (cooldown_nonneg _ Hv) as [Hsec Hpos].
  destruct Hc as [(Hi & _)|(_ & _ & _ & t & _ & Ht)]; [destruct phases_differ; congruence|].
  rewrite Hu in Ht. injection Ht as ->.
  destruct Htr as [| | | Hr1 Hr2 Hp' Hnow|w n ? ? Hi ? ?|w n ? ? Hi ? ?]; try (destruct phases_differ; congruence).
  1, 2: split; [done|]; cbn; rewrite Hu; cbn; eexists; split; [done|]; by rewrite pg_time_idem.
  - split; [done|]. cbn. eexists. split; [done|]. specialize (Hnow _ Hu).
    etrans; [exact Hle|]. rewrite <- (pg_time_idem (t + _)). apply pg_time_mono.
    assert (0 ≤ seconds (CooldownSeconds rule)) by (rewrite Hsec; unfold Second; lia). lia.
Qed.

(** The entry of a key's evaluation. *)
Lemma evaluation_entry r h d e now b a rule :
  rules d !! r = Some rule → hash_of rule e = h →
  evaluation_of r h {| before := d; what := OEvaluate r e now b; outcome := a |} = Some (rule, e, now).
Proof.
  intros Hr Hh. unfold evaluation_of. cbn. rewrite Hr. rewrite bool_decide_eq_true_2 by done.
  unfold str_eq. by rewrite bool_decide_eq_true_2.
Qed.

Lemma silent_step r h rule u d o a d' :
  wf d → step d o a d' → silent_until r h rule u d →
  changes_rule r {| before := d; what := o; outcome := a |} = false →
  recovers r h {| before := d; what := o; outcome := a |} = false → silent_until r h rule u d'.
Proof.
  intros Hwf Hst Hsil Hch Hrec. destruct (step_state _ _ _ _ Hst) as [->| ->]; [done|].
  destruct Hsil as [Hrule Hs]. pose proof (wf_rule _ Hwf _ _ Hrule) as (Hid & Hlt & Hv & _).
  assert (silent_until r h rule u d) as Hsil by done.
  assert (match o with OUpdateRule _ id _ _ | ODeleteRule id | OEvaluate id _ _ _ => id ≠ r | _ => True end →
          silent_until r h rule u (perform o d).2) as Hoth.
  { intros Hne. eapply silent_untouched; [apply perform_untouched; [lia|done|done]|done]. }
  destruct o as [| | | | | | |clock id q expected|id|id e now b]; try (by apply Hoth).
  1, 2: apply Hoth; cbn in Hch; by apply bool_decide_eq_false in Hch.
  destruct (decide (id = r)) as [->|Hne]; [|by apply Hoth]. clear Hoth Hch. cbn [AlertingInv.perform answering snd].
  destruct (evaluateRuleEvent _ _ _ r e now b d) as [ans d'] eqn:E. cbn.
  destruct (evaluate_inv _ _ _ _ _ _ _ _ _ _ Hwf E)
    as [[-> _]|(q & s & s' & ev & Hq & Hs0 & Hrid & Hkey & Hcoh & Htr & Hd & _)]; [done|].
  destruct Hd as [[-> _]|Hsave]; [done|]. rewrite Hrule in Hq. injection Hq as <-.
  pose proof (transition_key _ _ _ _ _ _ _ _ Htr) as [Hk1 Hk2].
  apply save_frame in Hsave as (_ & Hrs & _ & _ & Hput & _ & _ & Hkeep); [|done]. rewrite Hk1, Hk2, Hrid, Hkey in *.
  split; [by rewrite Hrs|]. destruct Hs as (s1 & u' & Hs1 & Hp & Hu & Hle).
  destruct (decide (hash_of rule e = h)) as [Hh|Hh].
  - rewrite Hh in *. rewrite Hs1 in Hs0. cbn in Hs0. subst s1. unfold recovers in Hrec.
    rewrite (evaluation_entry r h d e now b a rule Hrule Hh) in Hrec.
    edestruct transition_silent as (Hp' & v & Hv1 & Hv2); [exact Hv|exact Hcoh|exact Htr| |exact Hp|exact Hu|exact Hle|].
    { intros Heq. by rewrite Heq in Hrec. }
    exists (stored_state s'), v. split_and!; [by rewrite Hput|done..].
  - destruct (Hkeep h s1 (not_eq_sym Hh)) as [_ Hk]. destruct (Hk Hs1) as [Hk'|[_ Hidle]].
    + by exists s1, u'.
    + destruct phases_differ. congruence.
Qed.

Lemma notified_inv r h d o a t :
  notified_at r h {| before := d; what := o; outcome := a |} = Some t →
  ∃ e b ev rule, o = OEvaluate r e t b ∧ rules d !! r = Some rule ∧ hash_of rule e = h
    ∧ a = REvaluation (Ok ev) ∧ E_Decision ev = DecisionNotify.
Proof.
  unfold notified_at, evaluation_of. cbn. destruct o; try done. destruct (rules d !! id) as [rule|] eqn:Er; [|done].
  destruct (bool_decide (id = r) && str_eq (hash_of rule event) h) eqn:Eb; [|done].
  apply andb_true_iff in Eb as [Hid%bool_decide_eq_true Hh%bool_decide_eq_true]. subst id.
  destruct a as [| | | | |[ev|]|]; try done. case_bool_decide as Hn; [|done]. intros [= ->]. eauto 10.
Qed.

(** A notification is made by a key that is not silent, and silences it. *)
Lemma notified_step r h d o a d' t :
  wf d → step d o a d' → notified_at r h {| before := d; what := o; outcome := a |} = Some t →
  ∃ rule, rules d !! r = Some rule ∧ silent_until r h rule (pg_time (t + seconds (CooldownSeconds rule))) d'
    ∧ ∀ rule' u, silent_until r h rule' u d → u ≤ t.
Proof.
  intros Hwf Hst (e & b & ev & rule & -> & Hrule & Hh & -> & Hdec)%notified_inv. exists rule. split; [done|].
  destruct (step_cases _ _ _ _ Hst) as [Heq|[Hf _]]; [|done].
  cbn in Heq. destruct (evaluateRuleEvent _ _ _ r e t b d) as [ans d1] eqn:E. cbn in Heq. injection Heq as Hans ->. subst ans.
  destruct (evaluate_inv _ _ _ _ _ _ _ _ _ _ Hwf E)
    as [[_ Hno]|(q & s & s' & ev' & Hq & Hs0 & Hrid & Hkey & Hcoh & Htr & Hd & [= <-] & _)].
  { rewrite (Hno ev eq_refl) in Hdec. done. }
  rewrite Hrule in Hq. injection Hq as <-. rewrite Hdec in Htr. rewrite Hh in *.
  pose proof (wf_rule _ Hwf _ _ Hrule) as (_ & _ & Hv & _).
  assert (Phase s' = StatePhaseFiring ∧ CooldownUntil s' = Some (t + seconds (CooldownSeconds rule))
          ∧ (Phase s = StatePhaseFiring → ∀ u, CooldownUntil s = Some u → u ≤ t)) as (Hp' & Hc' & Hold).
  { remember DecisionNotify as dec eqn:Ed. destruct Htr as [|? ?| |? ? ? Hn|? ? ? ? ? Hn|? ? ? ? Hi Hn ?]; try done.
    - by destruct (NotifyRecovery rule).
    - split_and!; [done..|]. intros Hf. destruct phases_differ. congruence. }
  pose proof (transition_key _ _ _ _ _ _ _ _ Htr) as [Hk1 Hk2]. split.
  - destruct Hd as [[-> ->]|Hsave].
    + split; [done|]. destruct (rule_states d r !! h) as [s1|] eqn:Es1; cbn in Hs0; subst.
      * exists s1, (t + seconds (CooldownSeconds rule)). split_and!; try done. apply pg_time_bounds.
      * destruct phases_differ. done.
    + apply save_frame in Hsave as (_ & Hrs & _ & _ & Hput & _); [|done]. rewrite Hk1, Hk2, Hrid, Hkey in Hput.
      split; [by rewrite Hrs|]. exists (stored_state s'), (pg_time (t + seconds (CooldownSeconds rule))).
      split_and!; [done|done|cbn; by rewrite Hc'|done].
  - intros rule' u [_ (s1 & u' & Hs1 & Hp & Hu & Hle)]. rewrite Hs1 in Hs0. cbn in Hs0. subst s1.
    etrans; [exact Hle|]. by apply Hold.
Qed.

Lemma silent_history r h rule u d l d' :
  wf d → history d l d' → silent_until r h rule u d →
  Forall (fun x => changes_rule r x = false ∧ recovers r h x = false) l → silent_until r h rule u d'.
Proof.
  intros Hwf Hh. revert Hwf. induction Hh as [|d o a d1 l d2 Hst Hh IH]; [done|]. intros Hwf Hs [[H1 H2] Hl]%Forall_cons.
  apply IH; [by eapply op_step_wf|by eapply silent_step|done].
Qed.

(** [C25] Two notifications about the same deduplication key of a rule are at
    least the rule's cooldown apart (to the microsecond the database keeps),
    whatever else happens to the tables in between, other events of the rule
    and the eviction of states included, unless the rule is changed or the key
    recovers in between. *)
Theorem alert_notifications_spaced r h d l1 x l2 y l3 d' t1 t2 rule :
  wf d → history d (l1 ++ x :: l2 ++ y :: l3) d' →
  notified_at r h x = Some t1 → notified_at r h y = Some t2 →
  Forall (fun z => changes_rule r z = false ∧ recovers r h z = false) l2 →
  rules (before y) !! r = Some rule →
  t1 + CooldownSeconds rule * Second < t2 + Microsecond.
Proof.
  intros Hwf Hh Hx Hy Hl2 Hrule. apply history_split in Hh as (d1 & H1 & Hh). apply history_wf in H1; [|done].
  inversion Hh as [|? o a d2 ? ? Hst Hh']; subst. apply history_split in Hh' as (d3 & H2 & Hh').
  inversion Hh' as [|? o' a' d4 ? ? Hst' _]; subst. cbn in Hrule.
  destruct (notified_step _ _ _ _ _ _ _ H1 Hst Hx) as (q & Hq & Hsil & _).
  assert (wf d2) as Hwf2 by (by eapply op_step_wf). pose proof (silent_history _ _ _ _ _ _ _ Hwf2 H2 Hsil Hl2) as Hsil3.
  assert (q = rule) as ->. { destruct Hsil3 as [Hr3 _]. congruence. }
  assert (wf d3) as Hwf3 by (by eapply history_wf).
  destruct (notified_step _ _ _ _ _ _ _ Hwf3 Hst' Hy) as (_ & _ & _ & Hlate). specialize (Hlate _ _ Hsil3).
  pose proof (wf_rule _ Hwf3 _ _ Hrule) as (_ & _ & Hv & _). apply cooldown_nonneg in Hv as [Hsec _].
  rewrite Hsec in Hlate. pose proof (pg_time_bounds (t1 + CooldownSeconds rule * Second)). lia.
Qed.

(** ** Aggregation *)

(** The matches an idle state has counted: triggers seen since the window
    opened and not after its end. *)
Definition counted (r : Z) (h : string) (trig : list Time) (d : db) : Prop :=
  ∀ rule s w', rules d !! r = Some rule → rule_states d r !! h = Some s → Phase s = StatePhaseIdle →
    WindowStartedAt s = Some w' →
    ∃ w ts, pg_time w = w' ∧ (w :: ts) `sublist_of` trig ∧ Z.of_nat (length (w :: ts)) = WindowMatchCount s
      ∧ Forall (fun t => t ≤ w' + AggregationWindowSeconds rule * Second) (w :: ts).

Lemma counted_mono r h trig trig' d d' :
  trig `sublist_of` trig' → rules d' !! r = rules d !! r →
  (∀ s, rule_states d' r !! h = Some s → rule_states d r !! h = Some s) → counted r h trig d → counted r h trig' d'.
Proof.
  intros Hsub Hr Hs Hc rule s w'. rewrite Hr. intros H1 H2%Hs H3 H4.
  destruct (Hc rule s w' H1 H2 H3 H4) as (w & ts & ? & ? & ? & ?). exists w, ts. split_and!; [done|by etrans|done..].
Qed.

Lemma window_seconds rule :
  validate rule = Ok tt → seconds (AggregationWindowSeconds rule) = AggregationWindowSeconds rule * Second.
Proof.
  intros (_ & _ & _ & _ & _ & _ & _ & _ & Hw & _)%validate_inv. apply seconds_exact.
  unfold MaxAggregationWindowSeconds, MaxCooldownSeconds in *. lia.
Qed.

(** The matches a trigger completes. *)
Lemma window_matches r h trig d rule s now w n :
  wf d → rules d !! r = Some rule → counted r h trig d → s = default (initial_state r h) (rule_states d r !! h) →
  coherent rule s → Phase s = StatePhaseIdle → window rule s now w n →
  ∃ w0 ts, (w = w0 ∨ pg_time w0 = w) ∧ (w0 :: ts) `sublist_of` trig ++ [now] ∧ Z.of_nat (length (w0 :: ts)) = n
    ∧ (n < AggregationCount rule ∨ (w0 = now ∧ ts = []) ∨ n = AggregationCount rule)
    ∧ Forall (fun t => t ≤ pg_time w0 + AggregationWindowSeconds rule * Second ∨ (ts = [] ∧ t = w0)) (w0 :: ts).
Proof.
  intros Hwf Hrule Hcnt Hs Hcoh Hidle Hw. pose proof (wf_rule _ Hwf _ _ Hrule) as (_ & _ & Hv & _).
  pose proof (validate_inv _ Hv) as (_ & _ & _ & _ & _ & _ & _ & Hn & Hwin & Hnw & _).
  destruct Hw as [|w Hw Hin].
  - exists now, []. split_and!; [by left|by apply sublist_inserts_l|done|by (right; left)|]. apply Forall_singleton. by right.
  - destruct (rule_states d r !! h) as [s1|] eqn:Es1; cbn in Hs; subst s; [|done].
    destruct (Hcnt rule s1 w Hrule Es1 Hidle Hw) as (w0 & ts & Hpg & Hsub & Hlen & Hall).
    destruct Hcoh as [(_ & _ & Hm)|(Hf & _)]; [|destruct phases_differ; congruence]. rewrite Hw in Hm.
    unfold MaxAggregationCount in Hn.
    rewrite wrap64_id by (unfold in_int64, int64_min, int64_max; lia).
    exists w0, (ts ++ [now]). split_and!; [by right| |cbn in *; rewrite length_app; cbn; lia|lia|].
    + rewrite app_comm_cons. by apply sublist_app.
    + rewrite app_comm_cons, Forall_app. rewrite Hpg. split.
      * eapply Forall_impl; [exact Hall|]. cbn. by left.
      * apply Forall_singleton. left. destruct Hin as [H0|Hin]; [lia|]. by rewrite window_seconds in Hin.
Qed.

Lemma counted_step r h trig d o a d' :
  wf d → step d o a d' → counted r h trig d → changes_rule r {| before := d; what := o; outcome := a |} = false →
  is_Some (rules d !! r) →
  counted r h (trig ++ option_list (triggered_at r h {| before := d; what := o; outcome := a |})) d'.
Proof.
  intros Hwf Hst Hcnt Hch [rule Hrule]. pose proof (wf_rule _ Hwf _ _ Hrule) as (Hid & Hlt & Hv & _).
  assert (∀ d1, rules d1 !! r = rules d !! r → (∀ s, rule_states d1 r !! h = Some s → rule_states d r !! h = Some s) →
    counted r h (trig ++ option_list (triggered_at r h {| before := d; what := o; outcome := a |})) d1) as Hsame.
  { intros d1 H1 H2. eapply counted_mono; [|exact H1|exact H2|exact Hcnt]. by apply sublist_inserts_r. }
  destruct (step_state _ _ _ _ Hst) as [->| ->]; [by apply Hsame|].
  assert (match o with OUpdateRule _ id _ _ | ODeleteRule id | OEvaluate id _ _ _ => id ≠ r | _ => True end →
          counted r h (trig ++ option_list (triggered_at r h {| before := d; what := o; outcome := a |})) (perform o d).2) as Hoth.
  { intros Hne. destruct (perform_untouched r o d ltac:(lia) Hne Hwf) as [H1 H2]. apply Hsame; [done|by rewrite H2]. }
  destruct o as [| | | | | | |clock id q expected|id|id e now b]; try (by apply Hoth).
  1, 2: apply Hoth; cbn in Hch; by apply bool_decide_eq_false in Hch.
  destruct (decide (id = r)) as [->|Hne]; [|by apply Hoth]. clear Hoth Hch. cbn [AlertingInv.perform answering snd].
  destruct (evaluateRuleEvent _ _ _ r e now b d) as [ans d'] eqn:E. cbn [fst snd].
  destruct (evaluate_inv _ _ _ _ _ _ _ _ _ _ Hwf E)
    as [[-> _]|(q & s & s' & ev & Hq & Hs0 & Hrid & Hkey & Hcoh & Htr & Hd & _)]; [by apply Hsame|].
  destruct Hd as [[-> _]|Hsave]; [by apply Hsame|]. rewrite Hrule in Hq. injection Hq as <-.
  pose proof (transition_key _ _ _ _ _ _ _ _ Htr) as [Hk1 Hk2].
  apply save_frame in Hsave as (_ & Hrs & _ & _ & Hput & _ & _ & Hkeep); [|done]. rewrite Hk1, Hk2, Hrid, Hkey in *.
  destruct (decide (hash_of rule e = h)) as [Hh|Hh].
  2: { apply Hsame; [by rewrite Hrs|]. intros s1. by apply Hkeep. }
  rewrite Hh in *. intros rule' s1 w' Hr' Hs1. rewrite Hrs, Hrule in Hr'. injection Hr' as <-. rewrite Hput in Hs1. injection Hs1 as <-.
  destruct Htr as [| | | |w n Hmr Hmt Hidle Hw Hn|w n ? ? ? ? ?]; cbn [Phase stored_state matched recovered markNotified set_window WindowStartedAt WindowMatchCount]; try (intros Hi; destruct phases_differ; congruence).
  - intros Hi Hw. destruct (rule_states d r !! h) as [s1|] eqn:Es1; cbn in Hs0; subst s; [|done].
    destruct (WindowStartedAt s1) as [w1|] eqn:Ew1; [|done]. cbn in Hw. injection Hw as <-.
    destruct (Hcnt rule s1 w1 Hrule Es1 Hi Ew1) as (w & ts & Hpg & Hsub & Hlen & Hall). exists w, ts.
    rewrite <- Hpg, pg_time_idem. split_and!; [done|by apply sublist_inserts_r|done|by rewrite Hpg].
  - done.
  - intros _ [= <-].
    destruct (window_matches r h trig d rule s now w n) as (w0 & ts & Hww & Hsub & Hlen & Hcase & Hall); [done..|].
    exists w0, ts.
    assert (pg_time w0 = pg_time w) as Hpg by (destruct Hww as [->|<-]; [done|by rewrite pg_time_idem]).
    split_and!; [done| |done|].
    + unfold triggered_at. rewrite (evaluation_entry r h d e now b a rule Hrule Hh), Hmt. exact Hsub.
    + eapply Forall_impl; [exact Hall|]. cbn. rewrite <- Hpg. intros t [Ht|[_ ->]]; [done|].
      pose proof (validate_inv _ Hv) as (_ & _ & _ & _ & _ & _ & _ & Hnn & Hwin & Hnw & _).
      pose proof (pg_time_bounds w0). unfold Microsecond, Second in *. cbn in Hlen. lia.
Qed.

Lemma counted_history r h trig d l d' rule :
  wf d → history d l d' → counted r h trig d → Forall (fun x => changes_rule r x = false) l →
  rules d !! r = Some rule → rules d' !! r = Some rule ∧ counted r h (trig ++ omap (triggered_at r h) l) d'.
Proof.
  intros Hwf Hh. revert trig Hwf. induction Hh as [|d o a d1 l d2 Hst Hh IH]; intros trig Hwf Hc Hl Hr.
  { by rewrite app_nil_r. }
  apply Forall_cons in Hl as [Hch Hl]. cbn [omap list_omap].
  assert (rules d1 !! r = Some rule) as Hr1.
  { destruct (step_state _ _ _ _ Hst) as [->| ->]; [done|].
    pose proof (wf_rule _ Hwf _ _ Hr) as (_ & Hlt & _).
    destruct o as [| | | | | | |clock id q expected|id|id e now b];
      try (rewrite <- Hr; eapply perform_untouched; [lia|done|done]).
    1, 2: rewrite <- Hr; apply perform_untouched; [lia|cbn in Hch; by apply bool_decide_eq_false in Hch|done].
    cbn. destruct (evaluateRuleEvent _ _ _ id e now b d) as [ans d'] eqn:E. cbn.
    destruct (evaluate_inv _ _ _ _ _ _ _ _ _ _ Hwf E) as [[-> _]|(q & s & s' & ev & _ & _ & _ & _ & _ & _ & Hd & _)]; [done|].
    destruct Hd as [[-> _]|Hsave]; [done|]. apply save_frame in Hsave as (_ & -> & _); done. }
  assert (counted r h (trig ++ option_list (triggered_at r h {| before := d; what := o; outcome := a |})) d1) as Hc1
    by (eapply counted_step; [done|done|done|done|by eexists]).
  destruct (IH _ (op_step_wf _ _ _ _ _ _ _ Hwf Hst) Hc1 Hl Hr1) as [Hr2 Hc2]. split; [done|].
  rewrite <- app_assoc in Hc2. by destruct (triggered_at _ _ _).
Qed.

(** An alert is raised only by as many triggers of its deduplication key
    as the rule asks for, all of them within the aggregation window that starts
    with the first of them; a key that was evicted or recovered starts over. *)
Theorem alert_needs_matches r h d l x d' t rule :
  wf d → rule_states d r !! h = None → history d (l ++ [x]) d' → Forall (fun z => changes_rule r z = false) l →
  rules d !! r = Some rule → notified_at r h x = Some t →
  (∀ s, rule_states (before x) r !! h = Some s → Phase s = StatePhaseIdle) →
  ∃ w ts, (w :: ts) `sublist_of` omap (triggered_at r h) (l ++ [x]) ∧ Z.of_nat (length (w :: ts)) = AggregationCount rule
    ∧ Forall (fun u => u ≤ w + AggregationWindowSeconds rule * Second) (w :: ts).
Proof.
  intros Hwf Hnone Hh Hl Hrule Hx Hidle. apply history_split in Hh as (d1 & H1 & Hh).
  assert (counted r h [] d) as Hc0 by (intros ? ? ? _ Hs; congruence).
  destruct (counted_history _ _ _ _ _ _ _ Hwf H1 Hc0 Hl Hrule) as [Hrule1 Hc1]. apply history_wf in H1 as Hwf1; [|done].
  inversion Hh as [|? o a d2 ? ? Hst _]; subst. cbn in Hidle.
  destruct (notified_inv _ _ _ _ _ _ Hx) as (e & b & ev & q & -> & Hq & Hhash & -> & Hdec).
  rewrite Hrule1 in Hq. injection Hq as <-.
  destruct (step_cases _ _ _ _ Hst) as [Heq|[Hf _]]; [|done].
  cbn in Heq. destruct (evaluateRuleEvent _ _ _ r e t b d1) as [ans d3] eqn:E. cbn in Heq. injection Heq as Hans ->. subst ans.
  destruct (evaluate_inv _ _ _ _ _ _ _ _ _ _ Hwf1 E)
    as [[_ Hno]|(q & s & s' & ev' & Hq & Hs0 & Hrid & Hkey & Hcoh & Htr & _ & [= <-] & _)].
  { rewrite (Hno ev eq_refl) in Hdec. done. }
  rewrite Hrule1 in Hq. injection Hq as <-. rewrite Hdec in Htr. rewrite Hhash in *.
  assert (Phase s = StatePhaseIdle) as Hi.
  { subst s. destruct (rule_states d1 r !! h) as [s|]; [by apply Hidle|done]. }
  remember DecisionNotify as dec eqn:Ed. destruct Htr as [|? ?| |? ? Hf ?|? ? ? ? ? Hn|w n Hmr Hmt _ Hw Hn]; try done.
  { by destruct (NotifyRecovery rule). }
  { destruct phases_differ. congruence. }
  destruct (window_matches r h (omap (triggered_at r h) l) d1 rule s t w n) as (w0 & ts & Hww & Hsub & Hlen & Hcase & Hall); [done..|].
  pose proof (wf_rule _ Hwf1 _ _ Hrule1) as (_ & _ & Hv & _).
  pose proof (validate_inv _ Hv) as (_ & _ & _ & _ & _ & _ & _ & Hnn & Hwin & _).
  exists w0, ts. split_and!.
  - rewrite omap_app. cbn [omap list_omap]. unfold triggered_at at 2.
    rewrite (evaluation_entry r h d1 e t b _ rule Hrule1 Hhash), Hmt. exact Hsub.
  - cbn [length] in Hlen |- *. destruct Hcase as [Hc|[[-> ->]|Hc]]; [lia|cbn in Hlen |- *; lia|lia].
  - eapply Forall_impl; [exact Hall|]. cbn. pose proof (pg_time_bounds w0). unfold Second in *. intros u [Hu|[_ ->]]; lia.
Qed.

(** ** Tests and versions *)

(** When the entry admitted a test of the action. *)
Definition admitted_at (id : Z) (x : entry) : option Time :=
  match what x, outcome x with
  | OBeginActionTest _ _ i _ _, RStart (Ok st) => if bool_decide (i = id) then Some (S_StartedAt st) else None
  | _, _ => None
  end.

(** A row of the tables, and the version an update of it was made from. *)
Inductive versioned := ActionRow (id : Z) | RuleRow (id : Z).

Definition updated_from (v : versioned) (x : entry) : option Time :=
  match v, what x, outcome x with
  | ActionRow id, OUpdateAction _ i input, RAction (Ok _) =>
      if bool_decide (i = id) then Some (pg_time (U_ExpectedUpdatedAt input)) else None
  | RuleRow id, OUpdateRule _ i _ expected, RRule (Ok _) => if bool_decide (i = id) then Some expected else None
  | _, _, _ => None
  end.

(** [P] holds of the row with an identifier that has been given out, while it
    exists. *)
Definition action_is (id : Z) (P : action_row → Prop) (d : db) : Prop :=
  id < next_action d ∧ ∀ a, actions d !! id = Some a → P a.
Definition rule_is (id : Z) (P : Rule → Prop) (d : db) : Prop :=
  id < next_rule d ∧ ∀ r, rules d !! id = Some r → P r.

Lemma put_action_is id P a d :
  action_is id P d → (a_id a = id → action_checks a = true → P a) → action_is id P (put_action a d).2.
Proof.
  intros [Hlt HP] Ha. unfold put_action. destruct (action_checks a) eqn:Ec; [|done]. split; [done|]. cbn.
  intros b [[He <-]|[_ Hb]]%lookup_insert_Some; auto.
Qed.

Lemma same_actions id P d d' : actions d' = actions d → next_action d' = next_action d → action_is id P d → action_is id P d'.
Proof. intros H1 H2. unfold action_is. by rewrite H1, H2. Qed.

Lemma evaluate_frame id e now b d :
  wf d → let d' := (evaluateRuleEvent sha256 ParseAddr Marshal id e now b d).2 in
  actions d' = actions d ∧ rules d' = rules d ∧ next_action d' = next_action d ∧ next_rule d' = next_rule d.
Proof.
  intros Hwf d'. subst d'. destruct (evaluateRuleEvent _ _ _ id e now b d) as [ans d'] eqn:E. cbn.
  destruct (evaluate_inv _ _ _ _ _ _ _ _ _ _ Hwf E) as [[-> _]|(q & s & s' & ev & _ & _ & _ & _ & _ & _ & Hd & _)]; [done|].
  destruct Hd as [[-> _]|Hsave]; [done|]. by apply save_frame in Hsave as (? & ? & ? & ? & _).
Qed.

Lemma insert_rule_frame q d : actions (insert_rule q d).2 = actions d ∧ next_action (insert_rule q d).2 = next_action d.
Proof. unfold insert_rule. by destruct (rule_checks q). Qed.

(** A property of an action's row that the transactions on it keep. *)
Lemma action_is_perform id (P : action_row → Prop) d o :
  wf d → action_is id P d →
  (∀ a, actions d !! id = Some a → P a →
     match o with
     | OUpdateAction clock i input => i = id → a_updated_at a = pg_time (U_ExpectedUpdatedAt input) → P (rewrite_action clock input a)
     | OBeginActionTest clock clock' i _ token => i = id → retry_after_us clock a ≤ 0 → P (admit_test clock' token a)
     | OFinalizeActionTest i _ result => i = id → P (record_test result a)
     | _ => True
     end) →
  action_is id P (perform o d).2.
Proof.
  intros Hwf Hact Hkeep. pose proof Hact as [Hlt HP].
  destruct o as [now input|clock i input|i|clock clock' i expected token|i token result|now rule|now rule|clock i rule expected|i|i e now b]; cbn [AlertingInv.perform answering snd].
  - unfold CreateAction. case_match; [|done]. split; [cbn; lia|]. cbn. intros a Ha. rewrite lookup_insert_ne in Ha by lia. auto.
  - unfold UpdateAction. destruct (actions d !! i) as [a|] eqn:Ea; [|done]. case_bool_decide as Hu; [|done].
    apply put_action_is; [done|]. cbn. intros Hi _. destruct (wf_action _ Hwf _ _ Ea) as (Hid & _). subst. by apply (Hkeep a); auto.
  - unfold DeleteAction. case_match; [|done]. case_match; [done|]. split; [done|]. cbn. intros q [_ Hq]%lookup_delete_Some. auto.
  - unfold BeginActionTest. destruct (actions d !! i) as [a|] eqn:Ea; [|done]. destruct (negb _); [done|].
    case_bool_decide as Hr; [done|]. destruct (action_checks _); [|done]. split; [done|]. cbn.
    intros b [[He <-]|[_ Hb]]%lookup_insert_Some; [|auto]. subst. apply (Hkeep a); [done|auto|done|lia].
  - unfold FinalizeActionTest. destruct (actions d !! i) as [a|] eqn:Ea; [|done]. case_match; [|done].
    apply put_action_is; [done|]. cbn. intros Hi _. destruct (wf_action _ Hwf _ _ Ea) as (Hid & _). subst. by apply (Hkeep a); auto.
  - unfold CreateRule. case_match; [|done]. eapply same_actions; [apply insert_rule_frame..|done].
  - unfold InstallRuleTemplate. repeat (case_match; try done).
    all: pose proof (insert_rule_frame (new_rule (next_rule d) (TemplateKey rule) now rule) d) as [Hia Hin];
      match goal with H : insert_rule _ _ = _ |- _ => rewrite H in Hia, Hin end; by eapply same_actions.
  - unfold UpdateRule. repeat (case_match; try done).
  - unfold DeleteRule. by case_match.
  - destruct (evaluate_frame i e now b d Hwf) as (? & ? & ? & ?). by eapply same_actions.
Qed.

Lemma admitted_inv id d o a t :
  admitted_at id {| before := d; what := o; outcome := a |} = Some t →
  ∃ clock clock' expected token st, o = OBeginActionTest clock clock' id expected token ∧ a = RStart (Ok st) ∧ S_StartedAt st = t.
Proof.
  unfold admitted_at. cbn. destruct o; try done. destruct a as [| |[st|]| | | |]; try done.
  case_bool_decide; [|done]. intros [= <-]. subst. eauto 10.
Qed.

Lemma begin_inv clock clock' id expected token d st :
  (BeginActionTest clock clock' id expected token d).1 = Ok st →
  ∃ a, actions d !! id = Some a ∧ retry_after_us clock a ≤ 0 ∧ S_StartedAt st = clock'
    ∧ actions (BeginActionTest clock clock' id expected token d).2 !! id = Some (admit_test clock' token a).
Proof.
  unfold BeginActionTest. destruct (actions d !! id) as [a|] eqn:Ea; [|done]. destruct (negb _); [done|].
  case_bool_decide as Hr; [done|]. destruct (action_checks _); [|done]. cbn. intros [= <-]. exists a.
  split_and!; [done|lia|done|]. by rewrite lookup_insert_eq.
Qed.

(** The last test of the action was admitted at [u] or later. *)
Definition tested_since (u : Time) (a : action_row) : Prop := ∃ v, test_started_at a = Some v ∧ u ≤ v.

Lemma retry_after_zero clock a v :
  retry_after_us clock a ≤ 0 → test_started_at a = Some v → v + ActionTestAdmissionWindow ≤ clock.
Proof.
  unfold retry_after_us. intros Hr Hv. rewrite Hv in Hr.
  assert (0 ≤ (clock - (v + ActionTestAdmissionWindow)) / Microsecond) as Hd by lia. unfold Microsecond in Hd.
  pose proof (Z.mul_div_le (clock - (v + ActionTestAdmissionWindow)) 1000). lia.
Qed.

Lemma tested_since_step id u d o a d' :
  wf d → step d o a d' → action_is id (tested_since u) d → action_is id (tested_since u) d'.
Proof.
  intros Hwf Hst Hact. destruct (step_state _ _ _ _ Hst) as [->| ->]; [done|]. apply action_is_perform; [done|done|].
  intros b _ (v & Hv & Hle). destruct o as [| | |clock clock' i expected token| | | | | |]; try done.
  - intros _ _. by exists v.
  - intros -> Hr. exists clock'. split; [done|].
    assert (clock ≤ clock') by (by destruct Hst as [[_ ?]|[_ ?]|[_ ?]]).
    pose proof (retry_after_zero _ _ _ Hr Hv). unfold ActionTestAdmissionWindow, Second in *. lia.
  - intros _. by exists v.
Qed.

Lemma action_is_history id (P : action_row → Prop) d l d' :
  (∀ d o a d', wf d → step d o a d' → action_is id P d → action_is id P d') →
  wf d → history d l d' → action_is id P d → action_is id P d'.
Proof.
  intros Hstep Hwf Hh. revert Hwf. induction Hh as [|d o a d1 l d2 Hst Hh IH]; [done|]. intros Hwf Hact.
  apply IH; [by eapply op_step_wf|by eapply Hstep].
Qed.

(** Two tests of an alert action are admitted at least thirty seconds
    apart, also when the action is changed in between. *)
Theorem action_tests_spaced id d l1 x l2 y l3 d' t1 t2 :
  wf d → history d (l1 ++ x :: l2 ++ y :: l3) d' → admitted_at id x = Some t1 → admitted_at id y = Some t2 →
  t1 + ActionTestAdmissionWindow ≤ t2.
Proof.
  intros Hwf Hh Hx Hy. apply history_split in Hh as (d1 & H1 & Hh). apply history_wf in H1; [|done].
  inversion Hh as [|? o a d2 ? ? Hst Hh']; subst. apply history_split in Hh' as (d3 & H2 & Hh').
  inversion Hh' as [|? o' a' d4 ? ? Hst' _]; subst.
  destruct (admitted_inv _ _ _ _ _ Hx) as (c & c' & ex & tok & st & -> & -> & <-).
  destruct (admitted_inv _ _ _ _ _ Hy) as (k & k' & ex' & tok' & st' & -> & -> & <-).
  destruct (step_cases _ _ _ _ Hst) as [Heq|[Hf _]]; [|done]. cbn in Heq. injection Heq as Hans Hd2. symmetry in Hans.
  destruct (begin_inv _ _ _ _ _ _ _ Hans) as (a & Ha & Hr & Hs & Hput). rewrite <- Hd2 in Hput.
  assert (wf d2) as Hwf2 by (by eapply op_step_wf).
  assert (action_is id (tested_since (S_StartedAt st)) d2) as Hact.
  { split; [by apply (wf_action _ Hwf2 _ _ Hput)|]. rewrite Hput. intros b [= <-]. exists c'. split; [done|]. by rewrite Hs. }
  eapply action_is_history in Hact; [|intros; by eapply tested_since_step|exact Hwf2|exact H2].
  destruct (step_cases _ _ _ _ Hst') as [Heq|[Hf _]]; [|done]. cbn in Heq. injection Heq as Hans' _. symmetry in Hans'.
  destruct (begin_inv _ _ _ _ _ _ _ Hans') as (b & Hb & Hr' & Hs' & _).
  destruct Hact as [_ Hact]. destruct (Hact b Hb) as (v & Hv & Hle).
  pose proof (retry_after_zero _ _ _ Hr' Hv).
  assert (k ≤ k') by (inversion Hst' as [[_ ?]| |]; done). lia.
Qed.

Lemma perform_next_rule o d : wf d → next_rule d ≤ next_rule (perform o d).2.
Proof.
  intros Hwf. destruct o as [| | | | |now rule|now rule|clock i rule expected|i|i e now b]; cbn [AlertingInv.perform answering snd].
  - unfold CreateAction. by case_match.
  - unfold UpdateAction, put_action. by repeat case_match.
  - unfold DeleteAction. by repeat case_match.
  - unfold BeginActionTest. by repeat case_match.
  - unfold FinalizeActionTest, put_action. by repeat case_match.
  - unfold CreateRule, insert_rule. repeat case_match; cbn; lia.
  - unfold InstallRuleTemplate, insert_rule. repeat case_match; simplify_eq; cbn; lia.
  - unfold UpdateRule. by repeat case_match.
  - unfold DeleteRule. by repeat case_match.
  - destruct (evaluate_frame i e now b d Hwf) as (_ & _ & _ & ->). lia.
Qed.

(** A property of a rule's row that an update keeps. *)
Lemma rule_is_perform id (P : Rule → Prop) d o :
  wf d → rule_is id P d →
  (∀ r, rules d !! id = Some r → P r →
     match o with OUpdateRule clock i rule expected => i = id → UpdatedAt r = expected → P (rewrite_rule clock rule r) | _ => True end) →
  rule_is id P (perform o d).2.
Proof.
  intros Hwf [Hlt HP] Hkeep. pose proof (perform_next_rule o d Hwf) as Hn. split; [lia|].
  assert (match o with OUpdateRule _ i _ _ | ODeleteRule i | OEvaluate i _ _ _ => i ≠ id | _ => True end →
          ∀ r, rules (perform o d).2 !! id = Some r → P r) as Hoth.
  { intros Ho. destruct (perform_untouched id o d Hlt Ho Hwf) as [-> _]. exact HP. }
  destruct o as [| | | | | | |clock i rule expected|i|i e now b]; try (by apply Hoth);
    destruct (decide (i = id)) as [->|Hne]; try (by apply Hoth); cbn [AlertingInv.perform answering snd].
  - unfold UpdateRule. destruct (rules d !! id) as [old|] eqn:Eo; [|cbn; rewrite Eo; exact HP].
    case_bool_decide as Hu; cbn [negb]; [|cbn; rewrite Eo; exact HP]. case_match; [|cbn; rewrite Eo; exact HP]. case_match; [|cbn; rewrite Eo; exact HP].
    cbn. rewrite lookup_insert_eq. intros r [= <-]. by apply Hkeep; auto.
  - unfold DeleteRule. case_match eqn:E; cbn; [|rewrite E; exact HP]. by rewrite lookup_delete_eq.
  - destruct (evaluate_frame id e now b d Hwf) as (_ & -> & _). exact HP.
Qed.

Lemma newer_action id v d o a d' :
  wf d → step d o a d' → action_is id (fun q => v < a_updated_at q) d → action_is id (fun q => v < a_updated_at q) d'.
Proof.
  intros Hwf Hst Hact. destruct (step_state _ _ _ _ Hst) as [->| ->]; [done|]. apply action_is_perform; [done|done|].
  intros b _ Hv. destruct o; try done; cbn; intros; unfold Microsecond; lia.
Qed.

Lemma newer_rule id v d o a d' :
  wf d → step d o a d' → rule_is id (fun q => v < UpdatedAt q) d → rule_is id (fun q => v < UpdatedAt q) d'.
Proof.
  intros Hwf Hst Hact. destruct (step_state _ _ _ _ Hst) as [->| ->]; [done|]. apply rule_is_perform; [done|done|].
  intros b _ Hv. destruct o; try done; cbn; intros; unfold Microsecond; lia.
Qed.

(** The row, while it exists, has a version after [v]. *)
Definition newer (k : versioned) (v : Time) (d : db) : Prop :=
  match k with
  | ActionRow id => action_is id (fun q => v < a_updated_at q) d
  | RuleRow id => rule_is id (fun q => v < UpdatedAt q) d
  end.

Lemma newer_history k v d l d' : wf d → history d l d' → newer k v d → newer k v d'.
Proof.
  intros Hwf Hh. revert Hwf. induction Hh as [|d o a d1 l d2 Hst Hh IH]; [done|]. intros Hwf Hn.
  apply IH; [by eapply op_step_wf|]. destruct k; [by eapply newer_action|by eapply newer_rule].
Qed.

(** An update is made from the version the row has, and makes a new one. *)
Lemma updated_step k d o a d' v :
  wf d → step d o a d' → updated_from k {| before := d; what := o; outcome := a |} = Some v →
  newer k v d' ∧ ∀ u, newer k u d → u < v.
Proof.
  intros Hwf Hst Hu. assert (wf d') as Hwf' by (by eapply op_step_wf).
  destruct (step_cases _ _ _ _ Hst) as [Heq|[-> _]].
  2: { unfold updated_from in Hu. cbn in Hu. by destruct k, o. }
  unfold updated_from in Hu. cbn in Hu. destruct k as [id|id]; destruct o as [|clock i input| | | | | |clock i rule expected| |]; try done.
  - destruct a as [[act|]| | | | | |]; try done. case_bool_decide; [|done]. injection Hu as <-. subst i. cbn in Heq.
    injection Heq as Hans Hd. unfold UpdateAction in *. destruct (actions d !! id) as [q|] eqn:Eq; [|done].
    case_bool_decide as Hv; [|done]. unfold put_action in *. destruct (action_checks _); [|done].
    destruct (wf_action _ Hwf _ _ Eq) as (Hid & Hlt & _). cbn in Hd. rewrite Hid in Hd. subst d'. split.
    + split; [done|]. cbn. rewrite lookup_insert_eq. intros b [= <-]. cbn. rewrite <- Hv. unfold Microsecond. lia.
    + intros u [_ Hu]. rewrite <- Hv. by apply Hu.
  - destruct a as [| | |[act|]| | |]; try done. case_bool_decide; [|done]. injection Hu as <-. subst i. cbn in Heq.
    injection Heq as Hans Hd. unfold UpdateRule in *. destruct (rules d !! id) as [q|] eqn:Eq; [|done].
    case_bool_decide as Hv; [|done]. cbn [negb] in *. destruct (lockAlertAction _ d); [|done]. destruct (rule_checks _); [|done].
    destruct (wf_rule _ Hwf _ _ Eq) as (Hid & Hlt & _). cbn in Hd. subst d'. split.
    + split; [cbn; lia|]. cbn. rewrite lookup_insert_eq. intros b [= <-]. cbn. rewrite <- Hv. unfold Microsecond. lia.
    + intros u [_ Hu]. rewrite <- Hv. by apply Hu.
Qed.

(** No update of an action or a rule is lost: of two updates that take
    effect the later one was made from a later version than the first, so that
    two clients that edit the same version cannot both succeed. *)
Theorem alert_updates_not_lost k d l1 x l2 y l3 d' v1 v2 :
  wf d → history d (l1 ++ x :: l2 ++ y :: l3) d' → updated_from k x = Some v1 → updated_from k y = Some v2 → v1 < v2.
Proof.
  intros Hwf Hh Hx Hy. apply history_split in Hh as (d1 & H1 & Hh). apply history_wf in H1; [|done].
  inversion Hh as [|? o a d2 ? ? Hst Hh']; subst. apply history_split in Hh' as (d3 & H2 & Hh').
  inversion Hh' as [|? o' a' d4 ? ? Hst' _]; subst.
  destruct (updated_step _ _ _ _ _ _ H1 Hst Hx) as [Hn _]. assert (wf d2) as Hwf2 by (by eapply op_step_wf).
  pose proof (newer_history _ _ _ _ _ Hwf2 H2 Hn) as Hn3. assert (wf d3) as Hwf3 by (by eapply history_wf).
  by apply (updated_step _ _ _ _ _ _ Hwf3 Hst' Hy).
Qed.

End histories.
(** ** Witnesses *)

Module Demo.
Import AlertingInv.Demo.

Definition key : string := DeduplicationKeyHash sha256 (new_rule 1 "" 2000000 rule) (event "4").
Definition run (o : list op) : list entry := (trace sha256 ParseAddr Marshal o empty_db).1.
Definition after (o : list op) : db := (trace sha256 ParseAddr Marshal o empty_db).2.
Definition no_entry : entry := {| before := empty_db; what := ODeleteRule 0; outcome := RFailed |}.
Definition nth_entry (o : list op) (n : nat) : entry := default no_entry (run o !! n).

Lemma ops_history o : Forall (served ParseAddr Marshal) o → history sha256 ParseAddr Marshal empty_db (run o) (after o).
Proof. apply trace_history. Qed.

(** The run split around two of its entries. *)
Lemma split_run (l : list entry) (i k : nat) x y :
  l !! i = Some x → drop (S i) l !! k = Some y →
  l = take i l ++ x :: take k (drop (S i) l) ++ y :: drop (S k) (drop (S i) l).
Proof.
  intros Hx Hy. rewrite (take_drop_middle (drop (S i) l) k y Hy). by rewrite take_drop_middle.
Qed.

(** Quiet entries, by evaluation. *)
Lemma quiet_entries (f g : entry → bool) l :
  forallb (fun z => negb (f z) && negb (g z)) l = true → Forall (fun z => f z = false ∧ g z = false) l.
Proof.
  intros H. apply Forall_forall. intros z Hz%list_elem_of_In. rewrite forallb_forall in H. apply H in Hz.
  by rewrite andb_true_iff, !negb_true_iff in Hz.
Qed.

Lemma quiet_rule (f : entry → bool) l : forallb (fun z => negb (f z)) l = true → Forall (fun z => f z = false) l.
Proof.
  intros H. apply Forall_forall. intros z Hz%list_elem_of_In. rewrite forallb_forall in H. apply H in Hz.
  by rewrite negb_true_iff in Hz.
Qed.

(** The alert of second 20 and the one of second 330, with the suppressed one
    and that of another account between them. *)
Lemma alert_notifications_spaced_demo :
  notified_at sha256 1 key (nth_entry ops 4) = Some (at_second 20)
  ∧ notified_at sha256 1 key (nth_entry ops 6) = Some (at_second 330)
  ∧ at_second 20 + 300 * Second < at_second 330 + Microsecond.
Proof.
  split; [vm_compute; reflexivity|]. split; [vm_compute; reflexivity|].
  pose proof (ops_history ops ops_served) as Hh.
  rewrite (split_run (run ops) 4 1 (nth_entry ops 4) (nth_entry ops 6)) in Hh by (vm_compute; reflexivity).
  refine (alert_notifications_spaced sha256 ParseAddr Marshal 1 key empty_db _ _ _ _ _ _ (at_second 20) (at_second 330)
    (new_rule 1 "" 2000000 rule) empty_wf Hh _ _ _ _); [vm_compute; reflexivity|vm_compute; reflexivity| |vm_compute; reflexivity].
  apply quiet_entries. vm_compute. reflexivity.
Defined.

(** The alert of second 20 rests on the failures of seconds 10 and 20. *)
Definition part : list entry := (trace sha256 ParseAddr Marshal (take 3 (drop 2 ops)) (after (take 2 ops))).1.
Definition idle_before (x : entry) : bool :=
  match rule_states (before x) 1 !! key with Some s => str_eq (Phase s) StatePhaseIdle | None => true end.

Lemma idle_before_spec x : idle_before x = true → ∀ s, rule_states (before x) 1 !! key = Some s → Phase s = StatePhaseIdle.
Proof. unfold idle_before. intros H s Hs. rewrite Hs in H. by apply bool_decide_eq_true in H. Qed.

Lemma part_split : part = take 2 part ++ [nth_entry ops 4].
Proof. vm_compute. reflexivity. Qed.

Lemma alert_needs_matches_demo :
  notified_at sha256 1 key (nth_entry ops 4) = Some (at_second 20)
  ∧ ∃ w ts, (w :: ts) `sublist_of` omap (triggered_at sha256 ParseAddr Marshal 1 key) (take 2 part ++ [nth_entry ops 4])
    ∧ Z.of_nat (length (w :: ts)) = AggregationCount (new_rule 1 "" 2000000 rule)
    ∧ Forall (fun u => u ≤ w + AggregationWindowSeconds (new_rule 1 "" 2000000 rule) * Second) (w :: ts).
Proof.
  split; [vm_compute; reflexivity|].
  pose proof (trace_history sha256 ParseAddr Marshal (take 3 (drop 2 ops)) (after (take 2 ops))
    (Forall_take _ 3 _ (Forall_drop _ 2 _ ops_served))) as Hh. fold part in Hh. rewrite part_split in Hh.
  refine (alert_needs_matches sha256 ParseAddr Marshal 1 key (after (take 2 ops)) (take 2 part) (nth_entry ops 4) _ (at_second 20)
    (new_rule 1 "" 2000000 rule) _ _ Hh _ _ _ _).
  - exact (history_wf sha256 ParseAddr Marshal _ _ _ empty_wf (ops_history (take 2 ops) (Forall_take _ 2 _ ops_served))).
  - vm_compute. reflexivity.
  - apply quiet_rule. vm_compute. reflexivity.
  - vm_compute. reflexivity.
  - vm_compute. reflexivity.
  - apply idle_before_spec. vm_compute. reflexivity.
Defined.

(** Two tests forty seconds apart, and two edits of the action. *)
Definition token : string := "0123456789abcdef0123456789abcdef".
Definition edit (name : string) (expected : Time) : ActionUpdate :=
  Build_ActionUpdate name ActionKindGenericWebhook None true expected.
Definition ops2 : list op :=
  [create; OBeginActionTest (at_second 10) (at_second 10) 1 1000000 token;
   OUpdateAction (5 * Second) 1 (edit "hook 2" 1000000);
   OUpdateAction (3 * Second) 1 (edit "hook 3" (5 * Second));
   OBeginActionTest (at_second 50) (at_second 51) 1 (5 * Second + Microsecond) token].

Lemma ops2_served : Forall (served ParseAddr Marshal) ops2.
Proof. repeat constructor; try (vm_compute; done); discriminate. Qed.

Lemma action_tests_spaced_demo :
  admitted_at 1 (nth_entry ops2 1) = Some (at_second 10) ∧ admitted_at 1 (nth_entry ops2 4) = Some (at_second 51)
  ∧ at_second 10 + ActionTestAdmissionWindow ≤ at_second 51.
Proof.
  split; [vm_compute; reflexivity|]. split; [vm_compute; reflexivity|].
  pose proof (ops_history ops2 ops2_served) as Hh.
  rewrite (split_run (run ops2) 1 2 (nth_entry ops2 1) (nth_entry ops2 4)) in Hh by (vm_compute; reflexivity).
  refine (action_tests_spaced sha256 ParseAddr Marshal 1 empty_db _ _ _ _ _ _ (at_second 10) (at_second 51) empty_wf Hh _ _);
    vm_compute; reflexivity.
Defined.

Lemma alert_updates_not_lost_demo :
  updated_from (ActionRow 1) (nth_entry ops2 2) = Some 1000000
  ∧ updated_from (ActionRow 1) (nth_entry ops2 3) = Some (5 * Second) ∧ 1000000 < 5 * Second.
Proof.
  split; [vm_compute; reflexivity|]. split; [vm_compute; reflexivity|].
  pose proof (ops_history ops2 ops2_served) as Hh.
  rewrite (split_run (run ops2) 2 0 (nth_entry ops2 2) (nth_entry ops2 3)) in Hh by (vm_compute; reflexivity).
  refine (alert_updates_not_lost sha256 ParseAddr Marshal (ActionRow 1) empty_db _ _ _ _ _ _ _ _ empty_wf Hh _ _);
    vm_compute; reflexivity.
Defined.

End Demo.

End AlertingThms.
