(* ===== verification/AlertingService.v ===== *)
(** * The alerting service and the delivery of notifications

    [alerting/service.go], [alerting/delivery.go], [alerting/tester.go] and the
    delivery of one job in [alerting/dispatcher.go], as programs whose calls are
    the repository's transactions, encryption, the clock, the HTTP client and
    the recorder of events. *)

From S2P Require Import Prelude GoStrings Secrets SystemEvents Effects Alerting AlertingStore AlertingInv.
From Stdlib Require Import Ascii.
From Stdlib Require String.

Module AlertingService.
Import Alerting AlertingStore.
Import Secrets (bytes_of, string_of).
Import SystemEvents (IsAlertDeliveryInternalAction).

(** ** Data *)

Record ActionInput := { I_Name : string; I_Kind : string; I_Destination : string; I_Enabled : bool }.
Record ActionUpdateInput := {
  UI_Name : string; UI_Kind : string; UI_Destination : option string; UI_Enabled : bool; UI_ExpectedUpdatedAt : Time
}.

Record Notification := {
  DeliveryID : string; N_Decision : Decision; N_RuleID : Z; N_RuleName : string; N_OccurredAt : Time;
  N_Category : string; N_Severity : string; N_Action : string; N_Outcome : string; N_Target : SystemEvents.Target;
  N_ErrorCode : string; N_Message : string; N_CorrelationID : string
}.

Record DeliveryAttempt := {
  Success : bool; Retryable : bool; StatusCode : Z; DA_ErrorCode : string; RetryAfter : Duration
}.

Record deliveryJob := {
  job_rule : Rule; job_actionUpdatedAt : Time; job_decision : Decision; job_event : SystemEvents.Event
}.

(** A request of the adapter, and what the HTTP client makes of it. *)
Record delivery_request := {
  rq_destination : string; rq_body : string; rq_headers : list (string * string)
}.
Inductive delivery_response :=
| DR_Failed (timeout : bool)
| DR_Response (status : Z) (retry_after : string).

(** ** Calls *)

Inductive cmd : Set → Type :=
| RCreateAction (input : ActionCreate) : cmd (result alert_error Action)
| RUpdateAction (id : Z) (input : ActionUpdate) : cmd (result alert_error Action)
| RDeleteAction (id : Z) : cmd (result alert_error unit)
| RGetAction (id : Z) : cmd (result alert_error Action)
| RListActions : cmd (result alert_error (list Action))
| RGetActionForDelivery (id : Z) : cmd (result alert_error ActionForDelivery)
| RBeginActionTest (id : Z) (expectedUpdatedAt : Time) (token : string) : cmd (result alert_error ActionTestStart)
| RFinalizeActionTest (id : Z) (token : string) (r : ActionTestResult) : cmd (result alert_error Action)
| RCreateRule (rule : Rule) : cmd (result alert_error Rule)
| RInstallRuleTemplate (rule : Rule) : cmd (result alert_error (Rule * bool))
| RUpdateRule (id : Z) (rule : Rule) (expectedUpdatedAt : Time) : cmd (result alert_error Rule)
| RDeleteRule (id : Z) : cmd (result alert_error unit)
| RGetRule (id : Z) : cmd (result alert_error Rule)
| RListRules : cmd (result alert_error (list Rule))
| REvaluate (id : Z) (event : SystemEvents.Event) (now : Time) (for_delivery : bool) : cmd (result alert_error Evaluation)
| Encrypt (plaintext : string) : cmd (option string)
| Decrypt (ciphertext : string) : cmd (option string)
| NewCorrelationID : cmd string
| Now : cmd Time
| ContextDone : cmd bool
| WaitContext (delay : Duration) : cmd bool
| Send (r : delivery_request) : cmd (option delivery_response)
| InsertEvent (e : SystemEvents.Event) : cmd bool
| CountFailure (code : string) : cmd unit
| CountDelivered : cmd unit
| CountRetry : cmd unit
| TryTester : cmd bool
| ReleaseTester : cmd unit
| Enqueue (worker : nat) (job : deliveryJob) : cmd bool
| SwapDroppedPending : cmd Z
| AddDroppedPending (n : Z) : cmd unit
| MarkFailure (code : string) : cmd unit.

Abbreviation P := (prog cmd).
Definition call {R : Set} (c : cmd R) : P R := Vis c Ret.

Definition try {A B : Type} (p : P (result alert_error A)) (f : A → P (result alert_error B)) : P (result alert_error B) :=
  bind p (fun r => match r with Ok a => f a | Err e => Ret (Err e) end).

(** ** The service *)

Definition repositoryError (e : alert_error) : alert_error :=
  match e with
  | ErrDatabase | ErrRepository => ErrRepository
  | e => e
  end.

(** A repository call with its error translated. *)
Definition repository {A : Set} (c : cmd (result alert_error A)) : P (result alert_error A) :=
  let! r := call c in
  Ret (match r with Ok a => Ok a | Err e => Err (repositoryError e) end).

Definition lift {A : Type} (r : result alert_error A) : P (result alert_error A) := Ret r.

Section service.

Variable sha256 : list ascii → list ascii.
Variable ParseAddr : string → bool.
Variable Marshal : SystemEvents.entries → option string.
Variable url_Parse : string → option URL.
Variable loopback_ip : string → bool.

Abbreviation validateDestination := (Alerting.validateDestination url_Parse loopback_ip).

Definition CreateAction (input : ActionInput) : P (result alert_error Action) :=
  try (lift (validateAction url_Parse loopback_ip (I_Name input) (I_Kind input) (I_Destination input))) (fun _ =>
  let! encrypted := call (Encrypt (I_Destination input)) in
  match encrypted with
  | None => Ret (Err ErrRepository)
  | Some encrypted =>
      repository (RCreateAction {| C_Name := TrimSpace (I_Name input); C_Kind := I_Kind input;
                                   C_EncryptedDestination := encrypted; C_Enabled := I_Enabled input |})
  end).

Definition GetAction (id : Z) : P (result alert_error Action) :=
  if bool_decide (id ≤ 0) then Ret (Err ErrInvalidInput) else repository (RGetAction id).

(** The destination of an update: a new one encrypted, or the one there is,
    whose kind must not change. *)
Definition updated_destination (id : Z) (input : ActionUpdateInput) : P (result alert_error (option string)) :=
  match UI_Destination input with
  | Some destination =>
      try (lift (validateDestination (UI_Kind input) destination)) (fun _ =>
      let! encrypted := call (Encrypt destination) in
      match encrypted with None => Ret (Err ErrRepository) | Some value => Ret (Ok (Some value)) end)
  | None =>
      let! current := GetAction id in
      match current with
      | Err e => Ret (Err (repositoryError e))
      | Ok current => if str_eq (A_Kind current) (UI_Kind input) then Ret (Ok None) else Ret (Err ErrInvalidInput)
      end
  end.

Definition UpdateAction (id : Z) (input : ActionUpdateInput) : P (result alert_error Action) :=
  if bool_decide (id ≤ 0) || time_is_zero (UI_ExpectedUpdatedAt input) || invalidName (UI_Name input) MaxActionNameLength
     || negb (validActionKind (UI_Kind input)) then Ret (Err ErrInvalidInput)
  else
    try (updated_destination id input) (fun encrypted =>
    repository (RUpdateAction id {| U_Name := TrimSpace (UI_Name input); U_Kind := UI_Kind input;
                                    U_EncryptedDestination := encrypted; U_Enabled := UI_Enabled input;
                                    U_ExpectedUpdatedAt := UI_ExpectedUpdatedAt input |})).

Definition DeleteAction (id : Z) : P (result alert_error unit) :=
  if bool_decide (id ≤ 0) then Ret (Err ErrInvalidInput) else repository (RDeleteAction id).

Definition ListActions : P (result alert_error (list Action)) := repository RListActions.

Definition resolved (a : ActionForDelivery) (destination : string) : ResolvedAction :=
  {| R_ID := D_ID a; R_Name := D_Name a; R_Kind := D_Kind a; R_Enabled := D_Enabled a; R_Destination := destination;
     R_UpdatedAt := D_UpdatedAt a |}.

Definition ResolveActionForDelivery (id : Z) : P (result alert_error ResolvedAction) :=
  if bool_decide (id ≤ 0) then Ret (Err ErrInvalidInput)
  else
    try (repository (RGetActionForDelivery id)) (fun stored =>
    let! destination := call (Decrypt (D_EncryptedDestination stored)) in
    match destination with
    | None => Ret (Err ErrRepository)
    | Some destination =>
        match validateDestination (D_Kind stored) destination with
        | Err _ => Ret (Err ErrRepository)
        | Ok _ => Ret (Ok (resolved stored destination))
        end
    end).

Definition DestinationForDelivery (id : Z) : P (result alert_error string) :=
  try (ResolveActionForDelivery id) (fun a => Ret (Ok (R_Destination a))).

Definition BeginActionTest (id : Z) (expectedUpdatedAt : Time) : P (result alert_error ActionTestAttempt) :=
  if bool_decide (id ≤ 0) || time_is_zero expectedUpdatedAt then Ret (Err ErrInvalidInput)
  else
    let! token := call NewCorrelationID in
    try (repository (RBeginActionTest id expectedUpdatedAt token)) (fun started =>
    let! destination := call (Decrypt (D_EncryptedDestination (S_Action started))) in
    match destination with
    | None => Ret (Err ErrRepository)
    | Some destination =>
        match validateDestination (D_Kind (S_Action started)) destination with
        | Err _ => Ret (Err ErrRepository)
        | Ok _ => Ret (Ok {| T_Action := resolved (S_Action started) destination;
                             T_AttemptToken := S_AttemptToken started; T_StartedAt := S_StartedAt started |})
        end
    end).

Definition FinalizeActionTest (attempt : ActionTestAttempt) (r : ActionTestResult) : P (result alert_error unit) :=
  if bool_decide (R_ID (T_Action attempt) ≤ 0) || negb (SystemEvents.ValidCorrelationID (T_AttemptToken attempt))
     || time_is_zero (TestedAt r)
     || negb (str_eq (Status r) ActionTestStatusPassed) && negb (str_eq (Status r) ActionTestStatusFailed)
     || bool_decide (LatencyMS r < 0) then Ret (Err ErrInvalidInput)
  else if match HTTPStatus r with Some c => bool_decide (c < 100) || bool_decide (599 < c) | None => false end
          || bool_decide (SystemEvents.MaxCodeLength < go_len (T_ErrorCode r))
          || SystemEvents.ContainsAny (T_ErrorCode r) ["013"; "010"]%char then Ret (Err ErrInvalidInput)
  else if str_eq (Status r) ActionTestStatusPassed && negb (empty (T_ErrorCode r))
          || str_eq (Status r) ActionTestStatusFailed && empty (T_ErrorCode r) then Ret (Err ErrInvalidInput)
  else try (repository (RFinalizeActionTest (R_ID (T_Action attempt)) (T_AttemptToken attempt) r)) (fun _ => Ret (Ok tt)).

(** The fields a client does not set. *)
Definition cleared (r : Rule) : Rule :=
  {| ID := 0; TemplateKey := ""; Name := TrimSpace (Name r); ActionID := ActionID r; Enabled := Enabled r;
     Category := Category r; Severity := Severity r; EventAction := EventAction r; RecoveryAction := RecoveryAction r;
     AggregationCount := AggregationCount r; AggregationWindowSeconds := AggregationWindowSeconds r;
     CooldownSeconds := CooldownSeconds r; DeduplicationScope := DeduplicationScope r;
     NotifyRecovery := NotifyRecovery r; CreatedAt := 0; UpdatedAt := 0 |}.

Definition CreateRule (input : Rule) : P (result alert_error Rule) :=
  let input := cleared input in
  try (lift (validate input)) (fun _ => repository (RCreateRule input)).

Definition UpdateRule (id : Z) (input : Rule) (expectedUpdatedAt : Time) : P (result alert_error Rule) :=
  if bool_decide (id ≤ 0) || time_is_zero expectedUpdatedAt then Ret (Err ErrInvalidInput)
  else
    let input := cleared input in
    try (lift (validate input)) (fun _ => repository (RUpdateRule id input expectedUpdatedAt)).

Definition InstallRuleTemplate (key : string) (actionID : Z) : P (result alert_error (Rule * bool)) :=
  match ruleTemplate key with
  | None => Ret (Err ErrInvalidInput)
  | Some t =>
      if bool_decide (actionID ≤ 0) then Ret (Err ErrInvalidInput)
      else try (lift (validate (template_rule t actionID))) (fun _ =>
           repository (RInstallRuleTemplate (template_rule t actionID)))
  end.

Definition DeleteRule (id : Z) : P (result alert_error unit) :=
  if bool_decide (id ≤ 0) then Ret (Err ErrInvalidInput) else repository (RDeleteRule id).

Definition GetRule (id : Z) : P (result alert_error Rule) :=
  if bool_decide (id ≤ 0) then Ret (Err ErrInvalidInput) else repository (RGetRule id).

Definition ListRules : P (result alert_error (list Rule)) := repository RListRules.

Definition validateEvaluationInput (ruleID : Z) (event : SystemEvents.Event) (now : Time) : result alert_error unit :=
  if bool_decide (ruleID ≤ 0) || time_is_zero now
     || match SystemEvents.ValidateEvent ParseAddr Marshal event with Ok _ => false | Err _ => true end
  then Err ErrInvalidInput else Ok tt.

Definition EvaluateRuleEvent (ruleID : Z) (event : SystemEvents.Event) (now : Time)
  : P (result alert_error (RuleState * Decision)) :=
  try (lift (validateEvaluationInput ruleID event now)) (fun _ =>
  try (repository (REvaluate ruleID event now false)) (fun ev => Ret (Ok (E_State ev, E_Decision ev)))).

Definition EvaluateRuleEventForDelivery (ruleID : Z) (event : SystemEvents.Event) (now : Time)
  : P (result alert_error Evaluation) :=
  try (lift (validateEvaluationInput ruleID event now)) (fun _ => repository (REvaluate ruleID event now true)).

(** ** The adapter *)

Definition decision_text (d : Decision) : string :=
  match d with
  | DecisionNone => "none" | DecisionNotify => "notify" | DecisionSuppress => "suppress" | DecisionRecover => "recover"
  end.

Definition zero_byte : string := String.String "000"%char "".

Definition notificationFor (rule : Rule) (decision : Decision) (event : SystemEvents.Event) : Notification :=
  let digest := sha256 (bytes_of (FormatInt (ID rule) +++ zero_byte +++ FormatInt (SystemEvents.Event_ID event)
                                  +++ zero_byte +++ decision_text decision)) in
  {| DeliveryID := SystemEvents.hex_EncodeToString (take 16 digest); N_Decision := decision; N_RuleID := ID rule;
     N_RuleName := Name rule; N_OccurredAt := SystemEvents.OccurredAt event; N_Category := SystemEvents.Category event;
     N_Severity := SystemEvents.Severity event; N_Action := SystemEvents.Action event;
     N_Outcome := SystemEvents.Outcome event; N_Target := SystemEvents.Event_Target event;
     N_ErrorCode := SystemEvents.ErrorCode event; N_Message := SystemEvents.Message event;
     N_CorrelationID := SystemEvents.CorrelationID event |}.

Definition ntfyPriority (severity : string) : string :=
  if str_eq severity SystemEvents.SeverityError then "5"
  else if str_eq severity SystemEvents.SeverityWarning then "4" else "3".

(** [json.Marshal] of a notification. *)
Variable marshal_notification : Notification → option string.

Definition go_prefix (n : nat) (s : string) : string := string_of (take n (bytes_of s)).

(** The body with its content type and headers, or an error code. *)
Definition deliveryRequestBody (kind : string) (n : Notification) : result string (string * string * list (string * string)) :=
  if str_eq kind ActionKindGenericWebhook then
    match marshal_notification n with
    | None => Err "alert_delivery_payload_invalid"
    | Some body => Ok (body, "application/json", [])
    end
  else if str_eq kind ActionKindNtfy then
    let summary := N_Severity n +++ ": " +++ N_Action n in
    let summary := if empty (N_Message n) then summary else summary +++ " - " +++ N_Message n in
    let summary := if bool_decide (4096 < go_len summary) then go_prefix 4096 summary else summary in
    Ok (summary, "text/plain; charset=utf-8",
        [("X-Title", "N2API alert: " +++ N_RuleName n); ("X-Priority", ntfyPriority (N_Severity n)); ("X-Tags", "warning")])
  else Err "alert_delivery_adapter_unsupported".

(** [http.ParseTime] *)
Variable ParseTime : string → option Time.

Definition parseRetryAfter (value : string) (now : Time) : Duration :=
  let value := TrimSpace value in
  if empty value then 0
  else
    match Atoi value with
    | Some seconds =>
        if bool_decide (0 ≤ seconds) then
          if bool_decide (int64_max / Second < seconds) then int64_max else seconds * Second
        else match ParseTime value with
             | Some deadline => if time_after deadline now then time_sub deadline now else 0
             | None => 0
             end
    | None => match ParseTime value with
              | Some deadline => if time_after deadline now then time_sub deadline now else 0
              | None => 0
              end
    end.

Definition failed_attempt (code : string) : DeliveryAttempt :=
  {| Success := false; Retryable := false; StatusCode := 0; DA_ErrorCode := code; RetryAfter := 0 |}.
Definition retryable_attempt (code : string) : DeliveryAttempt :=
  {| Success := false; Retryable := true; StatusCode := 0; DA_ErrorCode := code; RetryAfter := 0 |}.

(** [Send] answers [None] when no request can be made of the destination. *)
Definition Deliver (action : ResolvedAction) (n : Notification) : P DeliveryAttempt :=
  match deliveryRequestBody (R_Kind action) n with
  | Err code => Ret (failed_attempt code)
  | Ok (body, contentType, headers) =>
      let! response := call (Send
        {| rq_destination := R_Destination action; rq_body := body;
           rq_headers := [("Content-Type", contentType); ("User-Agent", "N2API-alert-delivery/1");
                          ("X-N2API-Delivery-ID", DeliveryID n)] ++ headers |}) in
      match response with
      | None => Ret (failed_attempt "alert_delivery_request_invalid")
      | Some (DR_Failed timeout) =>
          let! canceled := call ContextDone in
          if canceled then Ret (failed_attempt "alert_delivery_canceled")
          else if timeout then Ret (retryable_attempt "alert_delivery_timeout")
          else Ret (retryable_attempt "alert_delivery_network")
      | Some (DR_Response status retry_after) =>
          if bool_decide (200 ≤ status) && bool_decide (status < 300)
          then Ret {| Success := true; Retryable := false; StatusCode := status; DA_ErrorCode := ""; RetryAfter := 0 |}
          else
            let retryable := bool_decide (status = 408) || bool_decide (status = 425) || bool_decide (status = 429)
                             || bool_decide (500 ≤ status) in
            if retryable then
              let! now := call Now in
              Ret {| Success := false; Retryable := true; StatusCode := status; DA_ErrorCode := "alert_delivery_http_status";
                     RetryAfter := parseRetryAfter retry_after now |}
            else Ret {| Success := false; Retryable := false; StatusCode := status;
                        DA_ErrorCode := "alert_delivery_http_status"; RetryAfter := 0 |}
      end
  end.

(** ** Delivery of a job *)

Record DispatcherConfig := {
  MaxAttempts : Z; InitialBackoff : Duration; MaxBackoff : Duration; has_recorder : bool; EventQueueCapacity : Z
}.

(** The loop doubles the delay [attempt - 1] times. *)
Fixpoint backoff (n : nat) (delay maximum : Duration) : Duration :=
  match n with
  | O => delay
  | S n => if bool_decide (Z.quot maximum 2 ≤ delay) then maximum else backoff n (wrap64 (delay * 2)) maximum
  end.

Definition retryDelay (initial maximum : Duration) (attempt : Z) (retryAfter : Duration) : Duration :=
  let delay := backoff (Z.to_nat (attempt - 1)) initial maximum in
  let delay := if bool_decide (delay < retryAfter) then retryAfter else delay in
  if bool_decide (maximum < delay) then maximum else delay.

Variable cfg : DispatcherConfig.

Definition int_value (z : Z) : Json.Json.json := Json.Json.JNumber (bool_decide (z < 0)) (Z.abs z) 0.

Definition deliveryEvent (action severity errorCode : string) (target : SystemEvents.Target)
    (metadata : SystemEvents.metadata) : P SystemEvents.Event :=
  let! now := call Now in
  let! id := call NewCorrelationID in
  let message := if str_eq action SystemEvents.ActionAlertDeliveryQueueOverflow then "Alert delivery queue overflowed"
                 else "Alert delivery failed" in
  Ret (SystemEvents.BuildEvent
    (Some {| SystemEvents.RC_CorrelationID := id; SystemEvents.RC_SourceIP := ""; SystemEvents.RC_HTTPMethod := "";
             SystemEvents.RC_RoutePattern := "";
             SystemEvents.RC_Actor := SystemEvents.Build_Actor SystemEvents.ActorSystem 0 "alert_delivery" |}) []
    {| SystemEvents.I_Category := SystemEvents.CategoryRuntime; SystemEvents.I_Severity := severity;
       SystemEvents.I_Action := action; SystemEvents.I_Outcome := SystemEvents.OutcomeFailure;
       SystemEvents.I_Target := target; SystemEvents.I_ErrorCode := errorCode; SystemEvents.I_Message := message;
       SystemEvents.I_Metadata := metadata; SystemEvents.StartedAt := 0 |} target now now 0).

(** The metadata, nil when it is not safe. *)
Definition safe_or_nil (values : SystemEvents.entries) : SystemEvents.metadata :=
  match SystemEvents.SafeMetadata Marshal (Some values) (fst <$> values) with Ok m => m | Err _ => None end.

Definition recordFailureEvent (ruleID actionID attempts statusCode : Z) (errorCode : string) : P unit :=
  let errorCode := if empty errorCode then "alert_delivery_failed" else errorCode in
  call (CountFailure errorCode) ;;
  if negb (has_recorder cfg) then Ret tt
  else
    let values := [("rule_id", int_value ruleID); ("action_id", int_value actionID); ("attempt_count", int_value attempts)]
                  ++ (if bool_decide (0 < statusCode) then [("status_code", int_value statusCode)] else []) in
    let! event := deliveryEvent SystemEvents.ActionAlertDeliveryFailed SystemEvents.SeverityError errorCode
      (SystemEvents.Build_Target "alert_delivery" (FormatInt actionID) "") (safe_or_nil values) in
    call (InsertEvent event) ;; Ret tt.

(** The attempts from number [attempt] on; [fuel] bounds their number. *)
Fixpoint attempts (fuel : nat) (job : deliveryJob) (rule : Rule) (n : Notification) (attempt : Z) : P unit :=
  match fuel with
  | O => Ret tt
  | S fuel =>
      if bool_decide (MaxAttempts cfg < attempt) then Ret tt
      else
        let! r := ResolveActionForDelivery (ActionID rule) in
        match r with
        | Err ErrNotFound => Ret tt
        | Err _ => recordFailureEvent (ID rule) (ActionID rule) 0 0 "alert_delivery_action_unavailable"
        | Ok action =>
            if negb (R_Enabled action) || negb (bool_decide (R_UpdatedAt action = job_actionUpdatedAt job)) then Ret tt
            else
              let! result := Deliver action n in
              if Success result then call CountDelivered
              else
                let! stop := (if negb (Retryable result) || bool_decide (attempt = MaxAttempts cfg)
                              then Ret true else call ContextDone) in
                if stop then
                  let! canceled := call ContextDone in
                  if canceled then Ret tt
                  else recordFailureEvent (ID rule) (R_ID action) attempt (StatusCode result) (DA_ErrorCode result)
                else
                  call CountRetry ;;
                  let! waited := call (WaitContext (retryDelay (InitialBackoff cfg) (MaxBackoff cfg) attempt (RetryAfter result))) in
                  if waited then attempts fuel job rule n (attempt + 1) else Ret tt
        end
  end.

Definition deliver (job : deliveryJob) : P unit :=
  let! r := GetRule (ID (job_rule job)) in
  match r with
  | Err ErrNotFound => Ret tt
  | Err _ => recordFailureEvent (ID (job_rule job)) (ActionID (job_rule job)) 0 0 "alert_delivery_rule_unavailable"
  | Ok rule =>
      if negb (Enabled rule) || negb (bool_decide (UpdatedAt rule = UpdatedAt (job_rule job))) then Ret tt
      else attempts (Z.to_nat (MaxAttempts cfg)) job rule (notificationFor rule (job_decision job) (job_event job)) 1
  end.

(** ** Evaluation of an event *)

(** The first sixteen digits of the hash, as a number. *)
Definition hex_value (a : ascii) : option Z :=
  let b := byte_of a in
  if bool_decide (48 ≤ b ≤ 57) then Some (b - 48)
  else if bool_decide (97 ≤ b ≤ 102) then Some (b - 87)
  else if bool_decide (65 ≤ b ≤ 70) then Some (b - 55) else None.

Definition ParseHex (s : string) : option Z :=
  match bytes_of s with
  | [] => None
  | l => foldl (fun acc a => n ← acc; d ← hex_value a; Some (n * 16 + d)) (Some 0) l
  end.

Definition deliveryWorkerIndex (rule : Rule) (event : SystemEvents.Event) (workers : nat) : nat :=
  if (workers <=? 1)%nat then O
  else
    match ParseHex (go_prefix 16 (DeduplicationKeyHash sha256 rule event)) with
    | None => Z.to_nat (Z.rem (ID rule) (Z.of_nat workers))
    | Some value => Z.to_nat (value mod Z.of_nat workers)
    end.

(** The loop over the rules; [workers] is the number of delivery queues. *)
Fixpoint evaluate_rules (workers : nat) (event : SystemEvents.Event) (rules : list Rule) : P unit :=
  match rules with
  | [] => Ret tt
  | rule :: rules =>
      let! now := call Now in
      let! r := EvaluateRuleEventForDelivery (ID rule) event now in
      match r with
      | Err ErrNotFound => evaluate_rules workers event rules
      | Err _ =>
          recordFailureEvent (ID rule) (ActionID rule) 0 0 "alert_delivery_evaluation_failed" ;;
          evaluate_rules workers event rules
      | Ok ev =>
          if negb (E_ActionEnabled ev)
             || negb (bool_decide (E_Decision ev = DecisionNotify)) && negb (bool_decide (E_Decision ev = DecisionRecover))
          then evaluate_rules workers event rules
          else
            let! sent := call (Enqueue (deliveryWorkerIndex (E_Rule ev) event workers)
              {| job_rule := E_Rule ev; job_actionUpdatedAt := E_ActionUpdatedAt ev; job_decision := E_Decision ev;
                 job_event := event |}) in
            if sent then evaluate_rules workers event rules else Ret tt
      end
  end.

Definition evaluateEvent (workers : nat) (event : SystemEvents.Event) : P unit :=
  if IsAlertDeliveryInternalAction (SystemEvents.Action event) then Ret tt
  else
    let! r := ListRules in
    match r with
    | Err _ => recordFailureEvent 0 0 0 0 "alert_delivery_rules_unavailable"
    | Ok rules => evaluate_rules workers event rules
    end.

Definition reportOverflow : P unit :=
  let! count := call SwapDroppedPending in
  if bool_decide (count = 0) || negb (has_recorder cfg) then Ret tt
  else
    let! event := deliveryEvent SystemEvents.ActionAlertDeliveryQueueOverflow SystemEvents.SeverityWarning
      "alert_delivery_queue_overflow" (SystemEvents.Build_Target "alert_delivery" "dispatcher" "")
      (safe_or_nil [("dropped_count", int_value count); ("queue_capacity", int_value (EventQueueCapacity cfg))]) in
    let! stored := call (InsertEvent event) in
    if stored then Ret tt
    else call (AddDroppedPending count) ;; call (MarkFailure "alert_delivery_overflow_event_failed").

(** ** Testing an action *)

Definition auditID (id : Z) : string := if bool_decide (id ≤ 0) then "" else FormatInt id.

Definition actionTestNotification (action : ResolvedAction) (now : Time) : P Notification :=
  let! correlationID := call NewCorrelationID in
  Ret {| DeliveryID := correlationID; N_Decision := DecisionNotify; N_RuleID := 0; N_RuleName := "Test notification";
         N_OccurredAt := now; N_Category := SystemEvents.CategoryAudit; N_Severity := SystemEvents.SeverityInfo;
         N_Action := SystemEvents.ActionAlertDeliveryTested; N_Outcome := SystemEvents.OutcomeSuccess;
         N_Target := SystemEvents.Build_Target "alert_action" (auditID (R_ID action)) (R_Name action);
         N_ErrorCode := ""; N_Message := "N2API alert action test"; N_CorrelationID := correlationID |}.

Definition test_result (started testedAt : Time) (d : DeliveryAttempt) : ActionTestResult :=
  {| TestedAt := testedAt;
     Status := if Success d then ActionTestStatusPassed else ActionTestStatusFailed;
     HTTPStatus := if bool_decide (0 < StatusCode d) then Some (StatusCode d) else None;
     LatencyMS := Z.max (Z.quot (time_sub testedAt started) 1000000) 0;
     T_ErrorCode := if Success d then "" else if empty (DA_ErrorCode d) then "alert_delivery_failed" else DA_ErrorCode d;
     T_Retryable := if Success d then false else Retryable d |}.

Definition run_test (actionID : Z) (expectedUpdatedAt : Time) : P (result alert_error ActionTestResult) :=
  try (BeginActionTest actionID expectedUpdatedAt) (fun attempt =>
  let! started := call Now in
  let! n := actionTestNotification (T_Action attempt) (T_StartedAt attempt) in
  let! d := Deliver (T_Action attempt) n in
  let! testedAt := call Now in
  let r := test_result started testedAt d in
  try (FinalizeActionTest attempt r) (fun _ => Ret (Ok r))).

Definition TestAction (actionID : Z) (expectedUpdatedAt : Time) : P (result alert_error ActionTestResult) :=
  if bool_decide (actionID ≤ 0) || time_is_zero expectedUpdatedAt then Ret (Err ErrInvalidInput)
  else
    let! admitted := call TryTester in
    if negb admitted then Ret (Err (ErrRateLimited Second))
    else
      let! r := run_test actionID expectedUpdatedAt in
      call ReleaseTester ;; Ret r.

End service.

End AlertingService.
