(* ===== verification/AlertingServiceThms.v ===== *)
(** * The alerting service: its calls and its deliveries

    Every repository call of the service is one the tables are prepared for;
    a delivery makes a bounded number of attempts, each for the rule and the
    action the decision was made with, and none after a success. *)

From S2P Require Import Prelude GoStrings Base64 Secrets SystemEvents Effects Alerting AlertingStore AlertingInv AlertingService.
From Stdlib Require Import Ascii.
From Stdlib Require String.

Module AlertingServiceThms.
Import Alerting AlertingStore AlertingInv AlertingService.
Import Secrets (bytes_of, string_of).

(** ** Names without surrounding space *)

Lemma TrimSpace_infix s : ∃ a b, bytes_of s = a ++ bytes_of (TrimSpace s) ++ b.
Proof.
  unfold bytes_of, TrimSpace. rewrite String.list_ascii_of_string_of_list_ascii.
  destruct (trim_front_spec space1 space2 space3 (String.list_ascii_of_string s)) as [_ [a Ha]].
  destruct (trim_right_prefix (trim_left_bytes (String.list_ascii_of_string s))) as [b Hb].
  exists a, b. by rewrite <- Hb.
Qed.

Lemma has_control_suffix a l : has_control (a ++ l) = false → has_control l = false.
Proof. induction a as [|x a IH]; [done|]. cbn. rewrite !orb_false_iff. intros [_ H]. auto. Qed.

Lemma has_control_prefix l b : has_control (l ++ b) = false → has_control l = false.
Proof.
  induction l as [|x l IH]; [done|]. cbn [app has_control]. rewrite !orb_false_iff. intros [[Hx Hp] Hl].
  split; [|auto]. split; [done|]. destruct l; cbn [app] in *; [apply andb_false_r|done].
Qed.

Lemma length_bytes s : String.length s = length (bytes_of s).
Proof. unfold bytes_of. induction s as [|a s IH]; cbn; congruence. Qed.

Lemma trimmed_name s n : n ≤ 128 → invalidName s n = false → name_ok (TrimSpace s).
Proof.
  intros Hn Hv. destruct (valid_name s n Hv) as (_ & Hlen & Hctl).
  assert (TrimSpace s ≠ "") as Hne.
  { unfold invalidName in Hv. destruct (str_eq (TrimSpace s) "") eqn:E; [done|]. by apply bool_decide_eq_false in E. }
  destruct (TrimSpace_infix s) as (a & b & Hb). split; [done|]. split.
  - unfold go_len in *. rewrite length_bytes in *. rewrite Hb, !length_app in Hlen. lia.
  - rewrite Hb in Hctl. by apply has_control_suffix, has_control_prefix in Hctl.
Qed.

(** ** The calls of the service *)

(** The operation a call is, when the database reads its clock at [c] and
    then at [c']. *)
Definition op_of {R : Set} (x : cmd R) (c c' : Time) : option op :=
  match x with
  | RCreateAction input => Some (OCreateAction c input)
  | RUpdateAction id input => Some (OUpdateAction c id input)
  | RDeleteAction id => Some (ODeleteAction id)
  | RBeginActionTest id expected token => Some (OBeginActionTest c c' id expected token)
  | RFinalizeActionTest id token r => Some (OFinalizeActionTest id token r)
  | RCreateRule rule => Some (OCreateRule c rule)
  | RInstallRuleTemplate rule => Some (OInstallRuleTemplate c rule)
  | RUpdateRule id rule expected => Some (OUpdateRule c id rule expected)
  | RDeleteRule id => Some (ODeleteRule id)
  | REvaluate id event now b => Some (OEvaluate id event now b)
  | _ => None
  end.

Section calls.
Context (sha256 : list ascii → list ascii) (ParseAddr : string → bool) (Marshal : SystemEvents.entries → option string).
Context (url_Parse : string → option URL) (loopback_ip : string → bool).
Context (marshal_notification : Notification → option string) (ParseTime : string → option Time) (cfg : DispatcherConfig).

(** The call is one the tables are prepared for. *)
Definition prepared (R : Set) (x : cmd R) (_ : unit) : Prop :=
  ∀ c c' o, c ≤ c' → op_of x c c' = Some o → served ParseAddr Marshal o.

(** Encryption of a destination gives a text of bounded size; a correlation
    identifier is made of thirty-two hexadecimal digits, and the repository
    hands out the attempt token it was given. *)
Definition answers_well (R : Set) (x : cmd R) : R → unit → Prop :=
  match x in cmd R return R → unit → Prop with
  | Encrypt plaintext => fun r _ => go_len plaintext ≤ MaxActionDestinationLength → ∀ c, r = Some c → destination_ok c
  | NewCorrelationID => fun r _ => token_ok r
  | _ => fun _ _ => True
  end.

Definition nothing (R : Set) (x : cmd R) (r : R) (m : unit) : unit := m.

Abbreviation wp := (Effects.wp nothing prepared answers_well).

Lemma wp_plain {R : Set} (x : cmd R) {A} (k : R → P A) Q m :
  (∀ c c', op_of x c c' = None) → (∀ r, answers_well R x r m → wp (k r) Q m) → wp (Vis x k) Q m.
Proof. intros Hx Hk. split; [|done]. intros c c' o _ Ho. by rewrite Hx in Ho. Qed.

Lemma wp_served {R : Set} (x : cmd R) {A} (k : R → P A) Q m :
  (∀ c c' o, c ≤ c' → op_of x c c' = Some o → served ParseAddr Marshal o) → (∀ r, wp (k r) Q m) → wp (Vis x k) Q m.
Proof. intros Hx Hk. split; [exact Hx|]. intros r _. apply Hk. Qed.

Lemma wp_repository {A : Set} (x : cmd (result alert_error A)) Q m :
  (∀ c c' o, c ≤ c' → op_of x c c' = Some o → served ParseAddr Marshal o) → (∀ r, Q r m) → wp (repository x) Q m.
Proof. intros Hx HQ. apply wp_served; [exact Hx|]. intros r. apply HQ. Qed.

Lemma wp_try {A B : Type} (p : P (result alert_error A)) (f : A → P (result alert_error B)) Q m :
  wp p (fun r m => match r with Ok a => wp (f a) Q m | Err e => Q (Err e) m end) m → wp (try p f) Q m.
Proof. intros Hp. apply wp_bind. eapply wp_mono; [exact Hp|]. by intros [] ? ?. Qed.

Lemma not_le_0 id : bool_decide (id ≤ 0) = false → 0 < id.
Proof. intros H%bool_decide_eq_false. lia. Qed.

(** Each method makes prepared calls only. *)

Definition quiet {A : Type} (p : P A) : Prop := ∀ Q m, (∀ a, Q a m) → wp p Q m.

Lemma quiet_ret {A} (a : A) : quiet (Ret a).
Proof. intros Q m HQ. apply HQ. Qed.

Lemma quiet_seq {A B} (p : P A) (f : A → P B) : quiet p → (∀ a, quiet (f a)) → quiet (bind p f).
Proof. intros Hp Hf Q m HQ. apply wp_bind, Hp. intros a. by apply Hf. Qed.

Lemma quiet_try {A B} (p : P (result alert_error A)) (f : A → P (result alert_error B)) :
  quiet p → (∀ a, quiet (f a)) → quiet (try p f).
Proof. intros Hp Hf. apply quiet_seq; [done|]. intros [a|e]; [apply Hf|apply quiet_ret]. Qed.

Lemma quiet_call {R : Set} (x : cmd R) : (∀ c c', op_of x c c' = None) → quiet (call x).
Proof. intros Hx Q m HQ. apply wp_plain; [done|]. intros r _. apply HQ. Qed.

Lemma quiet_read {A : Set} (x : cmd (result alert_error A)) : (∀ c c', op_of x c c' = None) → quiet (repository x).
Proof. intros Hx. apply quiet_seq; [by apply quiet_call|]. intros r. apply quiet_ret. Qed.

Lemma quiet_repository {A : Set} (x : cmd (result alert_error A)) :
  (∀ c c' o, c ≤ c' → op_of x c c' = Some o → served ParseAddr Marshal o) → quiet (repository x).
Proof. intros Hx Q m HQ. by apply wp_repository. Qed.

Lemma quiet_if {A} (b : bool) (p q : P A) : (b = true → quiet p) → (b = false → quiet q) → quiet (if b then p else q).
Proof. destruct b; auto. Qed.

Lemma validateDestination_size kind destination :
  validateDestination url_Parse loopback_ip kind destination = Ok tt → go_len destination ≤ MaxActionDestinationLength.
Proof.
  unfold validateDestination. destruct (_ || _ || _ || _) eqn:E; [done|]. rewrite !orb_false_iff in E.
  destruct E as [[[_ Hl] _] _]. apply bool_decide_eq_false in Hl. lia.
Qed.

Lemma CreateAction_quiet input : quiet (CreateAction url_Parse loopback_ip input).
Proof.
  intros Q m HQ. apply wp_try. cbn [Effects.wp lift].
  destruct (validateAction _ _ _ _ _) as [[]|] eqn:Ev; [|apply HQ].
  unfold validateAction in Ev. destruct (invalidName _ _ || negb (validActionKind (I_Kind input))) eqn:En; [done|].
  apply orb_false_iff in En as [Hname Hkind%negb_false_iff]. apply validateDestination_size in Ev.
  apply wp_plain; [done|]. intros [c|] Hc; [|apply HQ]. apply wp_repository; [|done].
  intros t t' o _ [= <-]. split_and!; [by eapply (trimmed_name _ MaxActionNameLength)|done|]. by apply Hc.
Qed.

Lemma GetAction_quiet id : quiet (GetAction id).
Proof. apply quiet_if; intros _; [apply quiet_ret|]. by apply quiet_read. Qed.

Lemma UpdateAction_quiet id input : quiet (UpdateAction url_Parse loopback_ip id input).
Proof.
  intros Q m HQ. unfold UpdateAction. destruct (_ || _ || _ || _) eqn:E; [apply HQ|].
  rewrite !orb_false_iff in E. destruct E as [[_ Hname] Hkind%negb_false_iff].
  apply wp_try. unfold updated_destination.
  assert (∀ d, match d with Some c => destination_ok c | None => True end →
    wp (repository (RUpdateAction id {| U_Name := TrimSpace (UI_Name input); U_Kind := UI_Kind input; U_EncryptedDestination := d;
        U_Enabled := UI_Enabled input; U_ExpectedUpdatedAt := UI_ExpectedUpdatedAt input |})) Q m) as Hput.
  { intros d Hd. apply wp_repository; [|done]. intros t t' o _ [= <-].
    split_and!; [by eapply (trimmed_name _ MaxActionNameLength)|done|done]. }
  destruct (UI_Destination input) as [destination|].
  - apply wp_try. cbn [Effects.wp lift]. destruct (validateDestination _ _ _ _) as [[]|] eqn:Ev; [|apply HQ].
    apply validateDestination_size in Ev. apply wp_plain; [done|]. intros [c|] Hc; [|apply HQ]. apply Hput. by apply Hc.
  - apply wp_bind, GetAction_quiet. intros [current|e]; [|apply HQ].
    destruct (str_eq _ _); [by apply Hput|apply HQ].
Qed.

Lemma ResolveActionForDelivery_quiet id : quiet (ResolveActionForDelivery url_Parse loopback_ip id).
Proof.
  apply quiet_if; intros _; [apply quiet_ret|]. apply quiet_try; [by apply quiet_read|]. intros stored.
  apply quiet_seq; [by apply quiet_call|]. intros [d|]; [|apply quiet_ret].
  destruct (validateDestination _ _ _ _); apply quiet_ret.
Qed.

Lemma BeginActionTest_quiet id expected : quiet (BeginActionTest url_Parse loopback_ip id expected).
Proof.
  apply quiet_if; intros _; [apply quiet_ret|]. intros Q m HQ. apply wp_plain; [done|]. intros token Htok.
  apply wp_try, wp_repository; [by intros t t' o Ht [= <-]|]. intros [started|e]; [|apply HQ].
  apply wp_plain; [done|]. intros [d|] _; [|apply HQ]. destruct (validateDestination _ _ _ _); apply HQ.
Qed.

Lemma FinalizeActionTest_quiet attempt r : quiet (FinalizeActionTest attempt r).
Proof.
  apply quiet_if; intros E1; [apply quiet_ret|]. apply quiet_if; intros E2; [apply quiet_ret|].
  apply quiet_if; intros _; [apply quiet_ret|]. apply quiet_try; [|intros; apply quiet_ret].
  rewrite !orb_false_iff in E2. rewrite !orb_false_iff, andb_false_iff, !negb_false_iff in E1. destruct E1 as ((((_ & Htok) & _) & Hst) & Hlat).
  destruct E2 as ((Hh & Hlen) & Hnl).
  apply quiet_repository. intros t t' o _ [= <-]. apply bool_decide_eq_false in Hlat, Hlen. split; [|split_and!].
  - intros Heq. by rewrite Heq in Htok.
  - unfold str_eq in Hst. rewrite !bool_decide_eq_true in Hst. exact Hst.
  - lia.
  - destruct (HTTPStatus r) as [code|]; [|done]. apply orb_false_iff in Hh as [H1%bool_decide_eq_false H2%bool_decide_eq_false]. lia.
  - unfold SystemEvents.MaxCodeLength in Hlen. lia.
  - unfold newline_free. by rewrite Hnl.
Qed.

Lemma rule_quiet {A : Set} (x : cmd (result alert_error A)) (rule : Rule) :
  (∀ c c' o, op_of x c c' = Some o → validate rule = Ok tt → served ParseAddr Marshal o) →
  quiet (try (lift (validate rule)) (fun _ => repository x)).
Proof.
  intros Hx Q m HQ. apply wp_try. cbn [Effects.wp lift]. destruct (validate rule) as [[]|] eqn:Ev; [|apply HQ].
  apply wp_repository; [|done]. intros c c' o _ Ho. by eapply Hx.
Qed.

Lemma CreateRule_quiet input : quiet (CreateRule input).
Proof. apply rule_quiet. by intros c c' o [= <-] ?. Qed.

Lemma UpdateRule_quiet id input expected : quiet (UpdateRule id input expected).
Proof. apply quiet_if; intros _; [apply quiet_ret|]. apply rule_quiet. by intros c c' o [= <-] ?. Qed.

Lemma InstallRuleTemplate_quiet key actionID : quiet (InstallRuleTemplate key actionID).
Proof.
  unfold InstallRuleTemplate. destruct (ruleTemplate key) as [t|] eqn:Et; [|apply quiet_ret].
  apply quiet_if; intros Hid; [apply quiet_ret|]. apply not_le_0 in Hid. apply rule_quiet. intros c c' o [= <-] _.
  exists t. split_and!; [|done..]. apply find_some in Et as [Hin _]. by apply list_elem_of_In.
Qed.

Lemma evaluation_served id event now b :
  validateEvaluationInput ParseAddr Marshal id event now = Ok tt → served ParseAddr Marshal (OEvaluate id event now b).
Proof.
  unfold validateEvaluationInput. destruct (bool_decide (id ≤ 0)) eqn:E1; [done|].
  destruct (time_is_zero now) eqn:E2; [done|]. cbn [orb].
  destruct (SystemEvents.ValidateEvent ParseAddr Marshal event) as [[]|] eqn:E3; [|done]. intros _.
  split_and!; [by apply not_le_0|by apply bool_decide_eq_false in E2|done].
Qed.

Lemma EvaluateRuleEventForDelivery_quiet id event now :
  quiet (EvaluateRuleEventForDelivery ParseAddr Marshal id event now).
Proof.
  intros Q m HQ. apply wp_try. cbn [Effects.wp lift].
  destruct (validateEvaluationInput _ _ _ _ _) as [[]|] eqn:Ev; [|apply HQ].
  apply wp_repository; [|done]. intros c c' o _ [= <-]. by apply evaluation_served.
Qed.

Lemma EvaluateRuleEvent_quiet id event now : quiet (EvaluateRuleEvent ParseAddr Marshal id event now).
Proof.
  intros Q m HQ. apply wp_try. cbn [Effects.wp lift].
  destruct (validateEvaluationInput _ _ _ _ _) as [[]|] eqn:Ev; [|apply HQ].
  apply wp_try, wp_repository; [|intros []; apply HQ]. intros c c' o _ [= <-]. by apply evaluation_served.
Qed.

Lemma Deliver_quiet action n : quiet (Deliver marshal_notification ParseTime action n).
Proof.
  unfold Deliver. destruct (deliveryRequestBody _ _ _) as [[[body ct] hs]|code]; [|apply quiet_ret].
  apply quiet_seq; [by apply quiet_call|]. intros [[timeout|status ra]|]; [| |apply quiet_ret].
  - apply quiet_seq; [by apply quiet_call|]. intros [|]; [apply quiet_ret|]. destruct timeout; apply quiet_ret.
  - destruct (_ && _); [apply quiet_ret|]. destruct (_ || _ || _ || _); [|apply quiet_ret].
    apply quiet_seq; [by apply quiet_call|]. intros now. apply quiet_ret.
Qed.

Lemma deliveryEvent_quiet action severity code target metadata : quiet (deliveryEvent action severity code target metadata).
Proof.
  apply quiet_seq; [by apply quiet_call|]. intros now. apply quiet_seq; [by apply quiet_call|]. intros c. apply quiet_ret.
Qed.

Lemma recordFailureEvent_quiet r a n st code : quiet (recordFailureEvent Marshal cfg r a n st code).
Proof.
  apply quiet_seq; [by apply quiet_call|]. intros _. apply quiet_if; intros _; [apply quiet_ret|].
  apply quiet_seq; [apply deliveryEvent_quiet|]. intros e. apply quiet_seq; [by apply quiet_call|]. intros _. apply quiet_ret.
Qed.

Lemma attempts_quiet fuel job rule n attempt :
  quiet (attempts Marshal url_Parse loopback_ip marshal_notification ParseTime cfg fuel job rule n attempt).
Proof.
  revert attempt. induction fuel as [|fuel IH]; intros attempt; [apply quiet_ret|]. cbn [attempts].
  apply quiet_if; intros _; [apply quiet_ret|]. apply quiet_seq; [apply ResolveActionForDelivery_quiet|].
  intros [action|e]; [|destruct e; try apply recordFailureEvent_quiet; apply quiet_ret].
  apply quiet_if; intros _; [apply quiet_ret|]. apply quiet_seq; [apply Deliver_quiet|]. intros r.
  apply quiet_if; intros _; [by apply quiet_call|]. apply quiet_seq.
  { apply quiet_if; intros _; [apply quiet_ret|by apply quiet_call]. }
  intros [|].
  - apply quiet_seq; [by apply quiet_call|]. intros [|]; [apply quiet_ret|apply recordFailureEvent_quiet].
  - apply quiet_seq; [by apply quiet_call|]. intros _. apply quiet_seq; [by apply quiet_call|].
    intros [|]; [apply IH|apply quiet_ret].
Qed.

Lemma GetRule_quiet id : quiet (GetRule id).
Proof. apply quiet_if; intros _; [apply quiet_ret|]. by apply quiet_read. Qed.

Lemma deliver_quiet job :
  quiet (deliver sha256 Marshal url_Parse loopback_ip marshal_notification ParseTime cfg job).
Proof.
  apply quiet_seq; [apply GetRule_quiet|]. intros [rule|e].
  - apply quiet_if; intros _; [apply quiet_ret|apply attempts_quiet].
  - destruct e; try apply recordFailureEvent_quiet; apply quiet_ret.
Qed.

Lemma evaluate_rules_quiet workers event rules :
  quiet (evaluate_rules sha256 ParseAddr Marshal cfg workers event rules).
Proof.
  induction rules as [|rule rules IH]; [apply quiet_ret|]. cbn [evaluate_rules].
  apply quiet_seq; [by apply quiet_call|]. intros now.
  apply quiet_seq; [apply EvaluateRuleEventForDelivery_quiet|]. intros [ev|e].
  - apply quiet_if; intros _; [apply IH|]. apply quiet_seq; [by apply quiet_call|].
    intros [|]; [apply IH|apply quiet_ret].
  - destruct e; try apply IH; apply quiet_seq; try apply recordFailureEvent_quiet; intros; apply IH.
Qed.

Lemma evaluateEvent_quiet workers event : quiet (evaluateEvent sha256 ParseAddr Marshal cfg workers event).
Proof.
  apply quiet_if; intros _; [apply quiet_ret|]. apply quiet_seq; [by apply quiet_read|].
  intros [rules|e]; [apply evaluate_rules_quiet|apply recordFailureEvent_quiet].
Qed.

Lemma TestAction_quiet id expected :
  quiet (TestAction url_Parse loopback_ip marshal_notification ParseTime id expected).
Proof.
  apply quiet_if; intros _; [apply quiet_ret|]. apply quiet_seq; [by apply quiet_call|]. intros [|]; cbn [negb]; [|apply quiet_ret].
  apply quiet_seq; [|intros r; apply quiet_seq; [by apply quiet_call|]; intros; apply quiet_ret].
  apply quiet_try; [apply BeginActionTest_quiet|]. intros attempt. apply quiet_seq; [by apply quiet_call|]. intros started.
  apply quiet_seq; [apply quiet_seq; [by apply quiet_call|]; intros; apply quiet_ret|]. intros n.
  apply quiet_seq; [apply Deliver_quiet|]. intros d. apply quiet_seq; [by apply quiet_call|]. intros t.
  apply quiet_try; [apply FinalizeActionTest_quiet|]. intros []. apply quiet_ret.
Qed.

(** What the program runs against the service: the requests of administrators,
    the evaluation of an event, the delivery of a job, the test of an action. *)
Inductive request :=
| QCreateAction (input : ActionInput)
| QUpdateAction (id : Z) (input : ActionUpdateInput)
| QDeleteAction (id : Z)
| QCreateRule (input : Rule)
| QUpdateRule (id : Z) (input : Rule) (expected : Time)
| QInstallRuleTemplate (key : string) (actionID : Z)
| QDeleteRule (id : Z)
| QEvaluateRuleEvent (id : Z) (event : SystemEvents.Event) (now : Time)
| QEvaluateEvent (workers : nat) (event : SystemEvents.Event)
| QDeliver (job : deliveryJob)
| QTestAction (id : Z) (expected : Time).

Definition discard {A : Type} (p : P A) : P unit := bind p (fun _ => Ret tt).

Definition serve (q : request) : P unit :=
  match q with
  | QCreateAction input => discard (CreateAction url_Parse loopback_ip input)
  | QUpdateAction id input => discard (UpdateAction url_Parse loopback_ip id input)
  | QDeleteAction id => discard (DeleteAction id)
  | QCreateRule input => discard (CreateRule input)
  | QUpdateRule id input expected => discard (UpdateRule id input expected)
  | QInstallRuleTemplate key actionID => discard (InstallRuleTemplate key actionID)
  | QDeleteRule id => discard (DeleteRule id)
  | QEvaluateRuleEvent id event now => discard (EvaluateRuleEvent ParseAddr Marshal id event now)
  | QEvaluateEvent workers event => evaluateEvent sha256 ParseAddr Marshal cfg workers event
  | QDeliver job => deliver sha256 Marshal url_Parse loopback_ip marshal_notification ParseTime cfg job
  | QTestAction id expected => discard (TestAction url_Parse loopback_ip marshal_notification ParseTime id expected)
  end.

Lemma quiet_discard {A} (p : P A) : quiet p → quiet (discard p).
Proof. intros Hp. apply quiet_seq; [done|]. intros. apply quiet_ret. Qed.

Lemma serve_quiet q : quiet (serve q).
Proof.
  destruct q; cbn [serve]; try apply quiet_discard;
    first [apply CreateAction_quiet|apply UpdateAction_quiet|apply CreateRule_quiet|apply UpdateRule_quiet
          |apply InstallRuleTemplate_quiet|apply EvaluateRuleEvent_quiet|apply evaluateEvent_quiet|apply deliver_quiet
          |apply TestAction_quiet
          |apply quiet_if; intros _; [apply quiet_ret|]; apply quiet_repository; by intros c c' o _ [= <-]].
Qed.

(** Every transaction the alerting service asks the repository for, whatever
    input it is given, is one the alerting tables are prepared for: names,
    kinds, destinations, rules, test results and events have passed the checks
    the constraints of the tables and the theorems on them rest on. *)
Theorem alerting_calls_prepared q tr :
  executes (serve q) tr tt → honest nothing answers_well tt tr → safe nothing prepared tt tr.
Proof.
  intros Hex Hh. eapply wp_sound; [|exact Hex|exact Hh]. by apply (serve_quiet q (fun _ _ => True)).
Qed.

End calls.

(** ** Deliveries *)

Section deliveries.
Context (sha256 : list ascii → list ascii) (Marshal : SystemEvents.entries → option string).
Context (url_Parse : string → option URL) (loopback_ip : string → bool).
Context (marshal_notification : Notification → option string) (ParseTime : string → option Time) (cfg : DispatcherConfig).
Context (job : deliveryJob).

(** What has happened so far: the number of requests sent, whether one was
    accepted, the rule read, and the action read since the last request. *)
Record progress := { sends : Z; accepted : bool; rule_read : option Rule; action_read : option ActionForDelivery }.

Definition start : progress := {| sends := 0; accepted := false; rule_read := None; action_read := None |}.

Definition success_status (r : option delivery_response) : bool :=
  match r with Some (DR_Response status _) => bool_decide (200 ≤ status) && bool_decide (status < 300) | _ => false end.

Definition watch (R : Set) (x : cmd R) : R → progress → progress :=
  match x in cmd R return R → progress → progress with
  | RGetRule _ => fun r m =>
      match r with Ok rule => {| sends := sends m; accepted := accepted m; rule_read := Some rule; action_read := action_read m |}
                 | Err _ => m end
  | RGetActionForDelivery _ => fun r m =>
      match r with Ok a => {| sends := sends m; accepted := accepted m; rule_read := rule_read m; action_read := Some a |}
                 | Err _ => m end
  | Send _ => fun r m =>
      {| sends := sends m + 1; accepted := accepted m || success_status r; rule_read := rule_read m; action_read := None |}
  | _ => fun _ m => m
  end.

(** A request is sent only while attempts are left and none was accepted, for
    an enabled rule and an enabled action that are still as they were when the
    decision was made, with the identifier of the decision; the pauses are
    positive and bounded. *)
Definition proper (R : Set) (x : cmd R) (m : progress) : Prop :=
  match x with
  | Send rq =>
      sends m < MaxAttempts cfg ∧ accepted m = false
      ∧ (∃ rule, rule_read m = Some rule ∧ Enabled rule = true ∧ UpdatedAt rule = UpdatedAt (job_rule job)
           ∧ ("X-N2API-Delivery-ID", DeliveryID (notificationFor sha256 rule (job_decision job) (job_event job))) ∈ rq_headers rq)
      ∧ ∃ a, action_read m = Some a ∧ D_Enabled a = true ∧ D_UpdatedAt a = job_actionUpdatedAt job
  | WaitContext delay => 0 < delay ≤ MaxBackoff cfg
  | _ => True
  end.

Definition any_answer (R : Set) (x : cmd R) (r : R) (m : progress) : Prop := True.

Abbreviation wp := (Effects.wp watch proper any_answer).

Lemma backoff_bounds n delay maximum :
  0 < delay → 0 < maximum ≤ int64_max → 0 < backoff n delay maximum ∧ (delay ≤ maximum → backoff n delay maximum ≤ maximum).
Proof.
  revert delay. induction n as [|n IH]; intros delay Hd Hm; cbn [backoff]; [lia|]. case_bool_decide as Hle; [lia|].
  assert (delay * 2 ≤ maximum) as H2.
  { pose proof (Z.quot_div_nonneg maximum 2). pose proof (Z.mul_div_le maximum 2). lia. }
  rewrite wrap64_id by (unfold in_int64, int64_min, int64_max in *; lia).
  destruct (IH (delay * 2)) as [H1 H3]; [lia|lia|]. split; [done|]. intros _. by apply H3.
Qed.

Lemma retryDelay_bounds initial maximum attempt retryAfter :
  0 < initial → 0 < maximum ≤ int64_max → 0 < retryDelay initial maximum attempt retryAfter ≤ maximum.
Proof.
  intros Hi Hm. unfold retryDelay. destruct (backoff_bounds (Z.to_nat (attempt - 1)) initial maximum Hi Hm) as [Hp _].
  repeat case_bool_decide; lia.
Qed.

Hypothesis cfg_ok : 0 < InitialBackoff cfg ∧ 0 < MaxBackoff cfg ≤ int64_max.

(** Programs that send nothing and read no rule or action leave the progress
    alone. *)
Lemma wp_silent {R : Set} (x : cmd R) {A} (k : R → P A) Q m :
  proper R x m → (∀ r, watch R x r m = m) → (∀ r, wp (k r) Q m) → wp (Vis x k) Q m.
Proof. intros Hp Hw Hk. split; [done|]. intros r _. rewrite Hw. apply Hk. Qed.

Lemma wp_recordFailure r a n st code (Q : unit → progress → Prop) m :
  Q tt m → wp (recordFailureEvent Marshal cfg r a n st code) Q m.
Proof.
  intros HQ. unfold recordFailureEvent. cbn. split; [done|]. intros [] _. cbn. destruct (negb (has_recorder cfg)); [done|].
  cbn. split; [done|]. intros now _. split; [done|]. intros c _. split; [done|]. by intros b _.
Qed.

Lemma wp_attempts fuel rule attempt m :
  Enabled rule = true → UpdatedAt rule = UpdatedAt (job_rule job) → rule_read m = Some rule → accepted m = false →
  sends m < attempt → attempt ≤ MaxAttempts cfg + 1 →
  wp (attempts Marshal url_Parse loopback_ip marshal_notification ParseTime cfg fuel job rule
        (notificationFor sha256 rule (job_decision job) (job_event job)) attempt) (fun _ _ => True) m.
Proof.
  intros Hen Hup. revert attempt m. induction fuel as [|fuel IH]; intros attempt m Hr Hacc Hs Hmax; [done|].
  cbn [attempts]. case_bool_decide as Hlim; [done|]. apply wp_bind. unfold ResolveActionForDelivery.
  case_bool_decide; [by apply wp_recordFailure|]. unfold try, repository. cbn [bind Effects.wp call].
  split; [done|]. intros [stored|e] _; cbn [bind Effects.wp watch].
  2: { destruct e; cbn [repositoryError]; try (by apply wp_recordFailure); done. }
  split; [done|]. intros [destination|] _; cbn [Effects.wp watch]; [|by apply wp_recordFailure].
  destruct (validateDestination url_Parse loopback_ip (D_Kind stored) destination) as [[]|]; cbn [Effects.wp];
    [|by apply wp_recordFailure].
  destruct (negb (R_Enabled (resolved stored destination)) || _) eqn:Eok; [done|].
  apply orb_false_iff in Eok as [Hden%negb_false_iff Hdup%negb_false_iff%bool_decide_eq_true]. cbn in Hden, Hdup.
  set (m1 := {| sends := sends m; accepted := accepted m; rule_read := rule_read m; action_read := Some stored |}).
  (* what follows the attempt *)
  assert (∀ result m2, rule_read m2 = Some rule → sends m2 ≤ sends m + 1 → (Success result = false → accepted m2 = false) →
    wp (if Success result then call CountDelivered
        else let! stop := (if negb (Retryable result) || bool_decide (attempt = MaxAttempts cfg) then Ret true else call ContextDone) in
          if stop then let! canceled := call ContextDone in
            if canceled then Ret tt else recordFailureEvent Marshal cfg (ID rule) (R_ID (resolved stored destination)) attempt
              (StatusCode result) (DA_ErrorCode result)
          else call CountRetry ;;
            let! waited := call (WaitContext (retryDelay (InitialBackoff cfg) (MaxBackoff cfg) attempt (RetryAfter result))) in
            if waited then attempts Marshal url_Parse loopback_ip marshal_notification ParseTime cfg fuel job rule
              (notificationFor sha256 rule (job_decision job) (job_event job)) (attempt + 1) else Ret tt)
      (fun _ _ => True) m2) as Hafter.
  { intros result m2 H1 H2 H3. destruct (Success result); [split; [done|]; by intros|]. specialize (H3 eq_refl).
    assert (∀ stop : bool, wp (if stop then let! canceled := call ContextDone in
            if canceled then Ret tt else recordFailureEvent Marshal cfg (ID rule) (R_ID (resolved stored destination)) attempt
              (StatusCode result) (DA_ErrorCode result)
          else call CountRetry ;;
            let! waited := call (WaitContext (retryDelay (InitialBackoff cfg) (MaxBackoff cfg) attempt (RetryAfter result))) in
            if waited then attempts Marshal url_Parse loopback_ip marshal_notification ParseTime cfg fuel job rule
              (notificationFor sha256 rule (job_decision job) (job_event job)) (attempt + 1) else Ret tt) (fun _ _ => True) m2) as Hstop.
    { intros [|].
      - cbn. split; [done|]. intros [|] _; [done|by apply wp_recordFailure].
      - cbn. split; [done|]. intros [] _. split; [apply retryDelay_bounds; apply cfg_ok|]. intros [|] _; [|done].
        apply IH; [done|done|lia|lia]. }
    destruct (negb (Retryable result) || _); [exact (Hstop true)|]. apply wp_bind. split; [done|]. intros stop _. exact (Hstop stop). }
  apply wp_bind. unfold Deliver.
  destruct (deliveryRequestBody _ _ _) as [[[body ct] hs]|code]; [|cbn; by apply (Hafter (failed_attempt code)); [|cbn; lia|]].
  cbn [bind Effects.wp call]. split.
  { split_and!; [cbn; lia|done| |by exists stored]. exists rule. split_and!; [done..|]. cbn. set_solver. }
  intros response _. cbn [watch].
  destruct response as [[timeout|status ra]|]; cbn [success_status].
  - cbn [bind Effects.wp call]. split; [done|]. intros canceled _. cbn [watch].
    destruct canceled, timeout; cbn [Effects.wp]; (apply (Hafter _); [done|cbn; lia|cbn; by rewrite orb_false_r]).
  - destruct (bool_decide (200 ≤ status) && bool_decide (status < 300)) eqn:Est; cbn [Effects.wp].
    { apply (Hafter {| Success := true; Retryable := false; StatusCode := status; DA_ErrorCode := ""; RetryAfter := 0 |}); [done|cbn; lia|done]. }
    destruct (_ || _ || _ || _); cbn [bind Effects.wp call].
    + split; [done|]. intros now _. cbn [watch]. apply (Hafter _); [done|cbn; lia|cbn; by rewrite orb_false_r].
    + apply (Hafter _); [done|cbn; lia|cbn; by rewrite orb_false_r].
  - cbn [Effects.wp]. apply (Hafter (failed_attempt _)); [done|cbn; lia|cbn; by rewrite orb_false_r].
Qed.

(** A notification is sent at most as many times as configured, never again
    after the receiver accepted it, and each time only after the rule was found
    enabled and unchanged and the action was read again and found enabled and
    unchanged since the decision; all attempts carry the same delivery
    identifier, and the pauses between them are positive and bounded. *)
Theorem deliveries_bounded tr :
  executes (deliver sha256 Marshal url_Parse loopback_ip marshal_notification ParseTime cfg job) tr tt →
  safe watch proper start tr ∧ sends (summary watch start tr) ≤ Z.max 0 (MaxAttempts cfg).
Proof.
  intros Hex.
  assert (honest watch any_answer start tr) as Hh.
  { clear Hex. generalize start. induction tr as [|[R e r] tr IH]; intros m; [done|]. split; [done|apply IH]. }
  assert (safe watch proper start tr) as Hsafe.
  { eapply (wp_sound watch proper any_answer _ (fun _ _ => True)); [|exact Hex|exact Hh].
    unfold deliver, GetRule. case_bool_decide; [by apply wp_recordFailure|]. cbn. split; [done|]. intros [rule|e] _; cbn.
    2: { destruct e; cbn; try done; by apply wp_recordFailure. }
    destruct (negb (Enabled rule) || _) eqn:Eok; [done|].
    apply orb_false_iff in Eok as [Hen%negb_false_iff Hup%negb_false_iff%bool_decide_eq_true].
    destruct (Z.to_nat (MaxAttempts cfg)) as [|fuel] eqn:Ef; [done|]. apply wp_attempts; [done..|cbn; lia|lia]. }
  split; [done|]. clear Hex Hh. revert Hsafe. change 0 with (sends start) at 1.
  assert (∀ m, sends m ≤ Z.max 0 (MaxAttempts cfg) → safe watch proper m tr → sends (summary watch m tr) ≤ Z.max 0 (MaxAttempts cfg)) as Hgen.
  { induction tr as [|[R e r] tr IH]; intros m Hm Hs; [done|]. destruct Hs as [Hp Hs]. cbn [summary foldl observe_ev].
    apply IH; [|done]. destruct e; try done; cbn; try (destruct r; done). destruct Hp as [Hlt _]. lia. }
  apply Hgen. cbn. lia.
Qed.

End deliveries.

(** ** Witnesses *)

Module Demo.
Import AlertingInv.Demo.

Definition url_Parse (s : string) : option URL :=
  Some {| IsAbs := true; Scheme := "https"; Hostname := "hooks.example"; has_User := false; Fragment := ""; EscapedPath := "/a" |}.
Definition loopback_ip (s : string) : bool := false.
Definition marshal_notification (n : Notification) : option string := Some "{}".
Definition ParseTime (s : string) : option Time := None.
Definition cfg : DispatcherConfig :=
  {| MaxAttempts := 3; InitialBackoff := 250 * 1000000; MaxBackoff := 2 * Second; has_recorder := true; EventQueueCapacity := 256 |}.

Definition stored_rule : Rule := new_rule 1 "" 2000000 rule.
Definition action : ActionForDelivery :=
  {| D_ID := 1; D_Name := "hook"; D_Kind := ActionKindGenericWebhook; D_Enabled := true; D_EncryptedDestination := "c"; D_UpdatedAt := 1000000 |}.

Definition no_action : Action :=
  {| A_ID := 1; A_Name := "hook"; A_Kind := ActionKindGenericWebhook; A_Enabled := true; DestinationConfigured := true;
     LastTestedAt := None; LastTestStatus := ""; LastTestHTTPStatus := None; LastTestLatencyMS := 0; LastTestErrorCode := "";
     LastTestRetryable := false; A_CreatedAt := 0; A_UpdatedAt := 0 |}.

(** An environment in which the first request meets a busy receiver and the
    second is accepted. *)
Definition handle (R : Set) (x : cmd R) (sent : nat) : R * nat :=
  match x in cmd R return R * nat with
  | RCreateAction _ | RUpdateAction _ _ | RGetAction _ | RFinalizeActionTest _ _ _ => (Ok no_action, sent)
  | RDeleteAction _ | RDeleteRule _ => (Ok tt, sent)
  | RListActions => (Ok [], sent)
  | RGetActionForDelivery _ => (Ok action, sent)
  | RBeginActionTest _ _ token => (Ok {| S_Action := action; S_AttemptToken := token; S_StartedAt := 1 |}, sent)
  | RCreateRule r | RUpdateRule _ r _ => (Ok r, sent)
  | RInstallRuleTemplate r => (Ok (r, true), sent)
  | RGetRule _ => (Ok stored_rule, sent)
  | RListRules => (Ok [stored_rule], sent)
  | REvaluate _ _ _ _ => (Err ErrNotFound, sent)
  | Encrypt _ => (Some "ciphertext", sent)
  | Decrypt _ => (Some "https://hooks.example/a", sent)
  | NewCorrelationID => ("0123456789abcdef0123456789abcdef", sent)
  | Now => (1, sent)
  | ContextDone => (false, sent)
  | WaitContext _ => (true, sent)
  | Send _ => (Some (if bool_decide (sent = O) then DR_Response 503 "1" else DR_Response 204 ""), S sent)
  | InsertEvent _ => (true, sent)
  | CountFailure _ | CountDelivered | CountRetry | ReleaseTester | AddDroppedPending _ | MarkFailure _ => (tt, sent)
  | TryTester => (true, sent)
  | Enqueue _ _ => (true, sent)
  | SwapDroppedPending => (0, sent)
  end.

Definition job : deliveryJob :=
  {| job_rule := stored_rule; job_actionUpdatedAt := 1000000; job_decision := DecisionNotify; job_event := event "4" |}.

Definition delivery_program : P unit := deliver sha256 Marshal url_Parse loopback_ip marshal_notification ParseTime cfg job.
Definition delivery_trace : list (ev cmd) := (run handle delivery_program O).1.2.

Lemma delivery_executes : executes delivery_program delivery_trace tt.
Proof.
  destruct (run handle delivery_program O) as [[[] tr] w] eqn:E. pose proof (run_executes _ _ _ _ _ _ E) as H.
  unfold delivery_trace. by rewrite E.
Qed.

Lemma deliveries_bounded_demo :
  safe watch (proper sha256 cfg job) start delivery_trace ∧ sends (summary watch start delivery_trace) = 2.
Proof.
  split; [|vm_compute; reflexivity].
  refine (proj1 (deliveries_bounded sha256 Marshal url_Parse loopback_ip marshal_notification ParseTime cfg job _ delivery_trace delivery_executes)).
  vm_compute. repeat split; discriminate || reflexivity.
Defined.

Definition creation : request := QCreateAction (Build_ActionInput " hook " ActionKindGenericWebhook "https://hooks.example/a" true).
Definition creation_program : P unit :=
  serve sha256 ParseAddr Marshal url_Parse loopback_ip marshal_notification ParseTime cfg creation.
Definition creation_trace : list (ev cmd) := (run handle creation_program O).1.2.

Lemma creation_executes : executes creation_program creation_trace tt.
Proof.
  destruct (run handle creation_program O) as [[[] tr] w] eqn:E. pose proof (run_executes _ _ _ _ _ _ E) as H.
  unfold creation_trace. by rewrite E.
Qed.

Lemma creation_honest : honest nothing answers_well tt creation_trace.
Proof.
  assert (creation_trace = [Ev (Encrypt "https://hooks.example/a") (Some "ciphertext");
    Ev (RCreateAction (Build_ActionCreate "hook" ActionKindGenericWebhook "ciphertext" true)) (Ok no_action)]) as ->
    by (vm_compute; reflexivity).
  split; [|by split]. intros _ c [= <-]. split; [discriminate|vm_compute; discriminate].
Qed.

Lemma alerting_calls_prepared_demo :
  length creation_trace = 2%nat ∧ safe nothing (prepared ParseAddr Marshal) tt creation_trace.
Proof.
  split; [vm_compute; reflexivity|].
  exact (alerting_calls_prepared sha256 ParseAddr Marshal url_Parse loopback_ip marshal_notification ParseTime cfg creation
    creation_trace creation_executes creation_honest).
Defined.

End Demo.

End AlertingServiceThms.
