(* ===== verification/Dispatcher.v ===== *)
(** * The alert dispatcher

    [alerting/dispatcher.go]: a listener hands events to a bounded queue, an
    evaluator takes them and hands jobs to the bounded queues of the workers,
    and each worker delivers its jobs one after the other.

    The goroutines are the threads of a step relation over the channels; a
    thread that handles an event or a job runs the program of
    [AlertingService], call by call, with any answer to a call but a send,
    which waits for room in the channel.  Metrics are left out. *)

From S2P Require Import Prelude GoStrings Base64 Secrets SystemEvents Effects Alerting AlertingStore AlertingInv AlertingService AlertingServiceThms.
From Stdlib Require Import Ascii.
From Stdlib Require String.

Module Dispatcher.
Import Alerting AlertingStore AlertingInv AlertingService.
Import SystemEvents (IsAlertDeliveryInternalAction).
Import Secrets (bytes_of, string_of).

(** ** Configuration *)

Record settings := {
  s_EventQueueCapacity : Z; s_DeliveryQueueCapacity : Z; s_WorkerCount : Z; s_MaxAttempts : Z; s_InitialBackoff : Duration;
  s_MaxBackoff : Duration; s_ListenerRetryDelay : Duration; s_OverflowReportInterval : Duration
}.

Definition or_default (default value : Z) : Z := if bool_decide (value ≤ 0) then default else value.

(** The defaults of [NewDispatcher]. *)
Definition normalized (s : settings) : settings :=
  let workers := or_default 2 (s_WorkerCount s) in
  let capacity := or_default 64 (s_DeliveryQueueCapacity s) in
  {| s_EventQueueCapacity := or_default 256 (s_EventQueueCapacity s);
     s_DeliveryQueueCapacity := if bool_decide (capacity < workers) then workers else capacity;
     s_WorkerCount := workers; s_MaxAttempts := or_default 3 (s_MaxAttempts s);
     s_InitialBackoff := or_default (250 * 1000000) (s_InitialBackoff s); s_MaxBackoff := or_default (2 * Second) (s_MaxBackoff s);
     s_ListenerRetryDelay := or_default Second (s_ListenerRetryDelay s);
     s_OverflowReportInterval := or_default Minute (s_OverflowReportInterval s) |}.

(** The capacities of the workers' queues. *)
Definition newDeliveryQueues (totalCapacity workers : Z) : list Z :=
  let base := Z.quot totalCapacity workers in
  let remainder := Z.rem totalCapacity workers in
  map (fun index => if bool_decide (index < remainder) then base + 1 else base) (seqZ 0 workers).

(** The capacities add up to the total, and no queue is without room. *)
Lemma capacities_sum total workers :
  0 < workers → workers ≤ total →
  sumZ (fun c => c) (newDeliveryQueues total workers) = total ∧ Forall (fun c => 1 ≤ c) (newDeliveryQueues total workers).
Proof.
  intros Hw Ht. unfold newDeliveryQueues. rewrite Z.quot_div_nonneg, Z.rem_mod_nonneg by lia.
  pose proof (Z.mod_pos_bound total workers Hw) as Hm. pose proof (Z.div_mod total workers ltac:(lia)) as Hd.
  assert (1 ≤ total / workers) as Hb by (apply Z.div_le_lower_bound; lia). split.
  - assert (∀ n, (n ≤ Z.to_nat workers)%nat →
      sumZ (fun c => c) (map (fun i => if bool_decide (i < total mod workers) then total / workers + 1 else total / workers)
        (seqZ 0 (Z.of_nat n))) = Z.of_nat n * (total / workers) + Z.min (Z.of_nat n) (total mod workers)) as Hs.
    { induction n as [|n IH]; intros Hn; [change (sumZ (fun c : Z => c) [] = Z.min 0 (total mod workers)); rewrite sumZ_nil; lia|].
      replace (seqZ 0 (Z.of_nat (S n))) with (seqZ 0 (Z.of_nat n) ++ [Z.of_nat n]).
      2: { rewrite Nat2Z.inj_succ. rewrite <- Z.add_1_r. rewrite seqZ_app by lia. done. }
      rewrite map_app, sumZ_app, IH by lia. cbn [map]. rewrite sumZ_cons, sumZ_nil. case_bool_decide; lia. }
    specialize (Hs (Z.to_nat workers) ltac:(lia)). rewrite Z2Nat.id in Hs by lia. rewrite Hs. lia.
  - apply Forall_forall. intros c Hc. apply list_elem_of_fmap in Hc as (i & -> & _). case_bool_decide; lia.
Qed.

(** ** State *)

Inductive thread := Idle | Busy (p : P unit) | Exited.

(** The channels, the flags, the counters, the threads, and what has happened:
    the events accepted and those taken up by the evaluator, the jobs handed to
    the workers' queues and those taken up, each with its queue. *)
Record dispatcher := {
  event_queue : list SystemEvents.Event; event_closed : bool; queues : list (list deliveryJob); queues_closed : bool;
  accepting : bool; listening : bool; canceled : bool; enqueued : Z; dropped : Z; droppedPending : Z;
  evaluator : thread; workers : list thread;
  log_accepted : list SystemEvents.Event; log_taken : list SystemEvents.Event;
  log_decided : list (nat * deliveryJob); log_started : list (nat * deliveryJob)
}.

Definition set_events (q : list SystemEvents.Event) (closed : bool) (d : dispatcher) : dispatcher :=
  Build_dispatcher q closed (queues d) (queues_closed d) (accepting d) (listening d) (canceled d) (enqueued d) (dropped d)
    (droppedPending d) (evaluator d) (workers d) (log_accepted d) (log_taken d) (log_decided d) (log_started d).
Definition set_queues (q : list (list deliveryJob)) (closed : bool) (d : dispatcher) : dispatcher :=
  Build_dispatcher (event_queue d) (event_closed d) q closed (accepting d) (listening d) (canceled d) (enqueued d) (dropped d)
    (droppedPending d) (evaluator d) (workers d) (log_accepted d) (log_taken d) (log_decided d) (log_started d).
Definition set_flags (accepting' listening' canceled' : bool) (d : dispatcher) : dispatcher :=
  Build_dispatcher (event_queue d) (event_closed d) (queues d) (queues_closed d) accepting' listening' canceled' (enqueued d)
    (dropped d) (droppedPending d) (evaluator d) (workers d) (log_accepted d) (log_taken d) (log_decided d) (log_started d).
Definition set_counters (e dr p : Z) (d : dispatcher) : dispatcher :=
  Build_dispatcher (event_queue d) (event_closed d) (queues d) (queues_closed d) (accepting d) (listening d) (canceled d) e dr p
    (evaluator d) (workers d) (log_accepted d) (log_taken d) (log_decided d) (log_started d).
Definition set_threads (e : thread) (w : list thread) (d : dispatcher) : dispatcher :=
  Build_dispatcher (event_queue d) (event_closed d) (queues d) (queues_closed d) (accepting d) (listening d) (canceled d)
    (enqueued d) (dropped d) (droppedPending d) e w (log_accepted d) (log_taken d) (log_decided d) (log_started d).
Definition set_logs (a t : list SystemEvents.Event) (de st : list (nat * deliveryJob)) (d : dispatcher) : dispatcher :=
  Build_dispatcher (event_queue d) (event_closed d) (queues d) (queues_closed d) (accepting d) (listening d) (canceled d)
    (enqueued d) (dropped d) (droppedPending d) (evaluator d) (workers d) a t de st.

Section dispatcher.
Context (sha256 : list ascii → list ascii) (ParseAddr : string → bool) (Marshal : SystemEvents.entries → option string).
Context (url_Parse : string → option URL) (loopback_ip : string → bool).
Context (marshal_notification : Notification → option string) (ParseTime : string → option Time) (cfg : DispatcherConfig).
(** The capacities of the channels. *)
Context (event_capacity : nat) (capacities : list nat).

Abbreviation evaluateEvent := (AlertingService.evaluateEvent sha256 ParseAddr Marshal cfg (length capacities)).
Abbreviation deliver := (AlertingService.deliver sha256 Marshal url_Parse loopback_ip marshal_notification ParseTime cfg).
Abbreviation index_of := (fun job => deliveryWorkerIndex sha256 (job_rule job) (job_event job) (length capacities)).

(** After [Start]. *)
Definition started : dispatcher :=
  {| event_queue := []; event_closed := false; queues := replicate (length capacities) []; queues_closed := false;
     accepting := true; listening := true; canceled := false; enqueued := 0; dropped := 0; droppedPending := 0;
     evaluator := Idle; workers := replicate (length capacities) Idle; log_accepted := []; log_taken := [];
     log_decided := []; log_started := [] |}.

Definition tryEnqueue (event : SystemEvents.Event) (d : dispatcher) : bool * dispatcher :=
  if IsAlertDeliveryInternalAction (SystemEvents.Action event) || negb (accepting d) then (false, d)
  else if (length (event_queue d) <? event_capacity)%nat
  then (true, set_logs (log_accepted d ++ [event]) (log_taken d) (log_decided d) (log_started d)
                (set_counters (enqueued d + 1) (dropped d) (droppedPending d)
                  (set_events (event_queue d ++ [event]) (event_closed d) d)))
  else (false, set_counters (enqueued d) (dropped d + 1) (droppedPending d + 1) d).

Definition is_send {R : Set} (x : cmd R) : bool := match x with Enqueue _ _ => true | _ => false end.

Definition take_event (e : SystemEvents.Event) (q : list SystemEvents.Event) (d : dispatcher) : dispatcher :=
  set_logs (log_accepted d) (log_taken d ++ [e]) (log_decided d) (log_started d)
    (set_threads (Busy (evaluateEvent e)) (workers d) (set_events q (event_closed d) d)).

Definition push_job (i : nat) (job : deliveryJob) (q : list deliveryJob) (rest : P unit) (d : dispatcher) : dispatcher :=
  set_logs (log_accepted d) (log_taken d) (log_decided d ++ [(i, job)]) (log_started d)
    (set_threads (Busy rest) (workers d) (set_queues (<[i := q ++ [job]]> (queues d)) (queues_closed d) d)).

Definition start_job (i : nat) (job : deliveryJob) (q : list deliveryJob) (d : dispatcher) : dispatcher :=
  set_logs (log_accepted d) (log_taken d) (log_decided d) (log_started d ++ [(i, job)])
    (set_threads (evaluator d) (<[i := Busy (deliver job)]> (workers d)) (set_queues (<[i := q]> (queues d)) (queues_closed d) d)).

Definition set_evaluator (t : thread) (d : dispatcher) : dispatcher := set_threads t (workers d) d.
Definition set_worker (i : nat) (t : thread) (d : dispatcher) : dispatcher :=
  set_threads (evaluator d) (<[i := t]> (workers d)) d.

Inductive dstep (d : dispatcher) : dispatcher → Prop :=
(* the listener *)
| d_event e : listening d = true → dstep d (tryEnqueue e d).2
| d_listener_exit : accepting d = false → dstep d (set_flags (accepting d) false (canceled d) d)
(* the evaluator *)
| d_take e q : evaluator d = Idle → event_queue d = e :: q → dstep d (take_event e q d)
| d_evaluator_call (R : Set) (x : cmd R) k r :
    evaluator d = Busy (Vis x k) → is_send x = false → dstep d (set_evaluator (Busy (k r)) d)
| d_push i job k q c :
    evaluator d = Busy (Vis (Enqueue i job) k) → queues d !! i = Some q → capacities !! i = Some c → (length q < c)%nat →
    dstep d (push_job i job q (k true) d)
| d_push_canceled i job k :
    evaluator d = Busy (Vis (Enqueue i job) k) → canceled d = true → dstep d (set_evaluator (Busy (k false)) d)
| d_evaluated : evaluator d = Busy (Ret tt) → dstep d (set_evaluator Idle d)
| d_evaluator_exit :
    evaluator d = Idle → (event_closed d = true ∧ event_queue d = []) ∨ canceled d = true →
    dstep d (set_queues (queues d) true (set_evaluator Exited d))
(* the workers *)
| d_start i job q : workers d !! i = Some Idle → queues d !! i = Some (job :: q) → dstep d (start_job i job q d)
| d_worker_call i (R : Set) (x : cmd R) k r :
    workers d !! i = Some (Busy (Vis x k)) → dstep d (set_worker i (Busy (k r)) d)
| d_delivered i : workers d !! i = Some (Busy (Ret tt)) → dstep d (set_worker i Idle d)
| d_worker_exit i :
    workers d !! i = Some Idle → (queues_closed d = true ∧ queues d !! i = Some []) ∨ canceled d = true →
    dstep d (set_worker i Exited d)
(* Shutdown *)
| d_shutdown : dstep d (set_flags false (listening d) (canceled d) d)
| d_close : accepting d = false → listening d = false → dstep d (set_events (event_queue d) true d)
| d_cancel : accepting d = false → dstep d (set_flags (accepting d) (listening d) true d).

Definition reachable (d : dispatcher) : Prop := rtc dstep started d.

(** ** Invariant *)

(** The jobs of a log that went through the queue [i]. *)
Definition jobs_at (i : nat) (l : list (nat * deliveryJob)) : list deliveryJob :=
  snd <$> filter (fun x => x.1 = i) l.

#[global] Arguments jobs_at : simpl never.

Lemma jobs_at_app i l1 l2 : jobs_at i (l1 ++ l2) = jobs_at i l1 ++ jobs_at i l2.
Proof. unfold jobs_at. by rewrite filter_app, fmap_app. Qed.

Lemma jobs_at_one i j job : jobs_at i [(j, job)] = if decide (j = i) then [job] else [].
Proof. unfold jobs_at. rewrite filter_cons, filter_nil. cbn. by destruct (decide (j = i)). Qed.

(** Every send of the program is to the queue its job belongs to. *)
Definition routed (R : Set) (x : cmd R) (_ : unit) : Prop :=
  match x with Enqueue i job => i = index_of job | _ => True end.
Definition no_watch (R : Set) (x : cmd R) (r : R) (m : unit) : unit := m.
Definition any_reply (R : Set) (x : cmd R) (r : R) (m : unit) : Prop := True.
Abbreviation well_routed := (fun p : P unit => Effects.wp no_watch routed any_reply p (fun _ _ => True) tt).

Lemma routed_record r a n st code (k : unit → P unit) :
  well_routed (k tt) → well_routed (bind (recordFailureEvent Marshal cfg r a n st code) k).
Proof.
  intros Hk. unfold recordFailureEvent. cbn. split; [done|]. intros [] _. destruct (negb (has_recorder cfg)); [done|].
  cbn. split; [done|]. intros now _. split; [done|]. intros c _. split; [done|]. by intros b _.
Qed.

Lemma routed_failure r a n st code : well_routed (recordFailureEvent Marshal cfg r a n st code).
Proof.
  unfold recordFailureEvent. cbn. split; [done|]. intros [] _. destruct (negb (has_recorder cfg)); [done|].
  cbn. split; [done|]. intros now _. split; [done|]. intros c _. split; [done|]. by intros b _.
Qed.

Lemma evaluate_rules_routed event rules :
  well_routed (evaluate_rules sha256 ParseAddr Marshal cfg (length capacities) event rules).
Proof.
  induction rules as [|rule rules IH]; [done|]. cbn [evaluate_rules bind call Effects.wp]. split; [done|]. intros now _.
  unfold EvaluateRuleEventForDelivery, try, lift. cbn [bind]. destruct (validateEvaluationInput _ _ _ _ _); cbn [bind].
  2: { destruct e; try exact IH; by apply routed_record. }
  cbn [repository bind call Effects.wp]. split; [done|]. intros [ev|e] _; cbn [bind].
  - destruct (negb _ || _); [exact IH|]. cbn [bind call Effects.wp]. split; [done|]. intros [|] _; [exact IH|done].
  - destruct e; cbn [repositoryError]; try exact IH; by apply routed_record.
Qed.

Lemma evaluateEvent_routed event : well_routed (evaluateEvent event).
Proof.
  unfold AlertingService.evaluateEvent, ListRules, repository. destruct (IsAlertDeliveryInternalAction _); [done|].
  cbn [bind call Effects.wp]. split; [done|].
  intros [rules|e] _; cbn [bind]; [apply evaluate_rules_routed|apply routed_failure].
Qed.

Definition routed_thread (t : thread) : Prop := match t with Busy p => well_routed p | _ => True end.

Record dinv (d : dispatcher) : Prop := {
  inv_sizes : length (queues d) = length capacities ∧ length (workers d) = length capacities;
  inv_events : log_accepted d = log_taken d ++ event_queue d;
  inv_external : Forall (fun e => IsAlertDeliveryInternalAction (SystemEvents.Action e) = false) (log_accepted d);
  inv_counters : enqueued d = Z.of_nat (length (log_accepted d)) ∧ 0 ≤ dropped d;
  inv_jobs : ∀ i q, queues d !! i = Some q → jobs_at i (log_decided d) = jobs_at i (log_started d) ++ q;
  inv_index : Forall (fun x => x.1 = index_of x.2 ∧ (x.1 < length capacities)%nat) (log_decided d);
  inv_started : Forall (fun x => x.1 = index_of x.2 ∧ (x.1 < length capacities)%nat) (log_started d);
  inv_room : (length (event_queue d) ≤ event_capacity)%nat
    ∧ ∀ i q c, queues d !! i = Some q → capacities !! i = Some c → (length q ≤ c)%nat;
  inv_routed : routed_thread (evaluator d);
  inv_closed : event_closed d = true → accepting d = false ∧ listening d = false;
  inv_listening : accepting d = true → listening d = true;
  inv_exited : evaluator d = Exited → queues_closed d = true ∧ (canceled d = true ∨ (event_queue d = [] ∧ event_closed d = true));
  inv_open : queues_closed d = true → evaluator d = Exited;
  inv_workers : ∀ i, workers d !! i = Some Exited → canceled d = true ∨ (queues_closed d = true ∧ queues d !! i = Some [])
}.

Lemma started_inv : dinv started.
Proof.
  split; cbn; try done; try lia.
  - by rewrite !length_replicate.
  - intros i q [-> _]%lookup_replicate. done.
  - split; [lia|]. intros i q c [-> _]%lookup_replicate _. cbn. lia.
  - intros i [Hi _]%lookup_replicate. done.
Qed.

Lemma tryEnqueue_inv e d : listening d = true → dinv d → dinv (tryEnqueue e d).2.
Proof.
  intros Hl Hinv. unfold tryEnqueue. destruct (IsAlertDeliveryInternalAction _ || negb (accepting d)) eqn:Eb; [done|].
  apply orb_false_iff in Eb as [Hext Hacc%negb_false_iff]. destruct Hinv. destruct (Nat.ltb_spec (length (event_queue d)) event_capacity) as [Hlt|Hge].
  - split; cbn; try done.
    + by rewrite inv_events0, app_assoc.
    + apply Forall_app. split; [done|]. by constructor.
    + rewrite length_app. cbn. lia.
    + split; [rewrite length_app; cbn; lia|apply inv_room0].
    + intros Hex. destruct (inv_exited0 Hex) as [? [?|[_ Hcl]]]; [by auto|]. destruct (inv_closed0 Hcl). congruence.
  - split; cbn; try done. lia.
Qed.

Lemma take_inv e q d : evaluator d = Idle → event_queue d = e :: q → dinv d → dinv (take_event e q d).
Proof.
  intros Hid Hq Hinv. destruct Hinv. split; cbn; try done.
  - rewrite inv_events0, Hq. by rewrite <- app_assoc.
  - rewrite Hq in inv_room0. cbn in inv_room0. split; [lia|apply inv_room0].
  - apply evaluateEvent_routed.
  - intros Hc. specialize (inv_open0 Hc). congruence.
Qed.

Lemma push_inv i job k q c d :
  evaluator d = Busy (Vis (Enqueue i job) k) → queues d !! i = Some q → capacities !! i = Some c → (length q < c)%nat →
  dinv d → dinv (push_job i job q (k true) d).
Proof.
  intros Hev Hq Hc Hlt Hinv. destruct Hinv. rewrite Hev in inv_routed0. destruct inv_routed0 as [Hix Hk]. cbn in Hix.
  assert (queues_closed d = false) as Hop. { destruct (queues_closed d); [specialize (inv_open0 eq_refl); congruence|done]. }
  split; cbn; try done.
  - by rewrite length_insert.
  - intros j p Hp. rewrite jobs_at_app, jobs_at_one. destruct (decide (i = j)) as [<-|Hne].
    + rewrite list_lookup_insert_eq in Hp by (by eapply lookup_lt_Some). injection Hp as <-.
      by rewrite (inv_jobs0 i q Hq), app_assoc.
    + rewrite list_lookup_insert_ne in Hp by done. by rewrite app_nil_r, (inv_jobs0 j p Hp).
  - apply Forall_app. split; [done|]. constructor; [|done]. split; [done|]. cbn. rewrite <- (proj1 inv_sizes0). by eapply lookup_lt_Some.
  - split; [apply inv_room0|]. intros j p c' Hp Hc'. destruct (decide (i = j)) as [<-|Hne].
    + rewrite list_lookup_insert_eq in Hp by (by eapply lookup_lt_Some). injection Hp as <-. rewrite length_app. cbn.
      rewrite Hc in Hc'. injection Hc' as <-. lia.
    + rewrite list_lookup_insert_ne in Hp by done. by eapply inv_room0.
  - by apply Hk.
  - intros Hx. rewrite Hop in Hx. done.
  - intros j Hj. destruct (inv_workers0 j Hj) as [?|[Hx _]]; [by left|]. rewrite Hop in Hx. done.
Qed.

Lemma start_inv i job q d :
  workers d !! i = Some Idle → queues d !! i = Some (job :: q) → dinv d →
  dinv (start_job i job q d).
Proof.
  intros Hw Hq Hinv. destruct Hinv. split; cbn; try done.
  - by rewrite !length_insert.
  - intros j p Hp. rewrite jobs_at_app, jobs_at_one. destruct (decide (i = j)) as [<-|Hne].
    + rewrite list_lookup_insert_eq in Hp by (by eapply lookup_lt_Some). injection Hp as <-.
      rewrite (inv_jobs0 i _ Hq). by rewrite <- app_assoc.
    + rewrite list_lookup_insert_ne in Hp by done. by rewrite app_nil_r, (inv_jobs0 j p Hp).
  - apply Forall_app. split; [done|]. constructor; [|done]. cbn.
    assert (job ∈ jobs_at i (log_decided d)) as Hin by (rewrite (inv_jobs0 i _ Hq); set_solver).
    unfold jobs_at in Hin. apply list_elem_of_fmap in Hin as ([j job'] & [= <-] & Hin).
    apply list_elem_of_filter in Hin as [Hj Hin]. cbn in Hj. subst j.
    rewrite Forall_forall in inv_index0. by apply (inv_index0 _ Hin).
  - split; [apply inv_room0|]. intros j p c' Hp Hc'. destruct (decide (i = j)) as [<-|Hne].
    + rewrite list_lookup_insert_eq in Hp by (by eapply lookup_lt_Some). injection Hp as <-.
      destruct inv_room0 as [_ Hr]. specialize (Hr i _ c' Hq Hc'). cbn in Hr. lia.
    + rewrite list_lookup_insert_ne in Hp by done. by eapply inv_room0.
  - intros j Hj. destruct (decide (i = j)) as [<-|Hne].
    + rewrite list_lookup_insert_eq in Hj by (by eapply lookup_lt_Some). done.
    + rewrite list_lookup_insert_ne in Hj by done. rewrite list_lookup_insert_ne by done. by apply inv_workers0.
Qed.

(** A change of the evaluator other than its exit, and one of a worker. *)
Lemma set_evaluator_inv t d :
  evaluator d ≠ Exited → t ≠ Exited → routed_thread t → dinv d → dinv (set_evaluator t d).
Proof.
  intros He Ht Hr Hinv. destruct Hinv. split; cbn; try done. intros Hc. by apply inv_open0 in Hc.
Qed.

Lemma set_worker_inv i t d :
  (t = Exited → canceled d = true ∨ (queues_closed d = true ∧ queues d !! i = Some [])) → dinv d → dinv (set_worker i t d).
Proof.
  intros Ht Hinv. destruct Hinv. split; cbn; try done.
  - by rewrite length_insert.
  - intros j Hj. destruct (decide (i = j)) as [<-|Hne].
    + apply list_lookup_insert_Some in Hj as [(_ & Heq & _)|[? _]]; [by apply Ht|done].
    + rewrite list_lookup_insert_ne in Hj by done. by apply inv_workers0.
Qed.

Lemma dstep_inv d d' : dstep d d' → dinv d → dinv d'.
Proof.
  intros Hst Hinv. destruct Hst as [e Hl|Ha|e q He Hq|R x k r He Hx|i job k q c He Hq Hc Hlt|i job k He Hcan|He|He Hex
    |i job q Hw Hq|i R x k r Hw|i Hw|i Hw Hex| |Ha Hl|Ha].
  - by apply tryEnqueue_inv.
  - destruct Hinv. split; cbn; try done; intros Hc; first [by destruct (inv_closed0 Hc)|congruence].
  - by apply take_inv.
  - apply set_evaluator_inv; [congruence|done| |done]. destruct Hinv. rewrite He in inv_routed0.
    destruct inv_routed0 as [_ Hk]. by apply (Hk r).
  - by eapply push_inv.
  - apply set_evaluator_inv; [congruence|done| |done]. destruct Hinv. rewrite He in inv_routed0.
    destruct inv_routed0 as [_ Hk]. by apply (Hk false).
  - apply set_evaluator_inv; [congruence|done..].
  - destruct Hinv. split; cbn; try done.
    + intros _. split; [done|]. destruct Hex as [[? ?]|?]; auto.
    + intros i Hi. destruct (inv_workers0 i Hi) as [?|[_ ?]]; auto.
  - by apply start_inv.
  - by apply set_worker_inv.
  - by apply set_worker_inv.
  - apply set_worker_inv; [|done]. intros _. destruct Hex; auto.
  - destruct Hinv. split; cbn; try done. intros Hc. by destruct (inv_closed0 Hc).
  - destruct Hinv. split; cbn; try done. intros Hx. destruct (inv_exited0 Hx) as [? [?|[? ?]]]; auto.
  - destruct Hinv. split; cbn; try done.
    + intros Hx. destruct (inv_exited0 Hx); auto.
    + intros i Hi. by left.
Qed.

Lemma reachable_dinv d : reachable d → dinv d.
Proof.
  intros Hr. pose proof started_inv as Hi. unfold reachable in Hr.
  induction Hr as [d|d d1 d2 Hst _ IH]; [done|]. apply IH. by eapply dstep_inv.
Qed.

(** ** Order *)

Hypothesis sha256_length : ∀ m, length (sha256 m) = 32%nat.

Lemma hex_value_lower a : hex_lower a = true → is_Some (hex_value a).
Proof.
  unfold hex_lower, hex_value. rewrite orb_true_iff, !bool_decide_eq_true. intros [H|H].
  - rewrite bool_decide_eq_true_2 by done. eauto.
  - rewrite (bool_decide_eq_false_2 (48 ≤ _ ≤ 57)), (bool_decide_eq_true_2 (97 ≤ _ ≤ 102)) by lia. eauto.
Qed.

Lemma ParseHex_some l : l ≠ [] → forallb hex_lower l = true → is_Some (ParseHex (string_of l)).
Proof.
  intros Hne Hl. unfold ParseHex, bytes_of, string_of. rewrite String.list_ascii_of_string_of_list_ascii.
  assert (∀ l acc, forallb hex_lower l = true → is_Some (foldl (fun acc a => n ← acc; d ← hex_value a; Some (n * 16 + d)) (Some acc) l)) as Hfold.
  { clear. induction l as [|a l IH]; intros acc; [eauto|]. cbn. rewrite andb_true_iff. intros [Ha Hl].
    destruct (hex_value_lower a Ha) as [d ->]. cbn. by apply IH. }
  destruct l as [|a l]; [done|]. by apply Hfold.
Qed.

(** The queue of a job depends on its deduplication key only. *)
Lemma index_by_key job job' :
  DeduplicationKeyHash sha256 (job_rule job) (job_event job) = DeduplicationKeyHash sha256 (job_rule job') (job_event job') →
  index_of job = index_of job'.
Proof.
  intros Heq. cbn. unfold deliveryWorkerIndex. destruct (length capacities <=? 1)%nat; [done|]. rewrite <- Heq.
  destruct (hash_checks sha256 sha256_length (job_rule job) (job_event job)) as [Hh Hl].
  destruct (ParseHex (go_prefix 16 (DeduplicationKeyHash sha256 (job_rule job) (job_event job)))) eqn:Ep; [done|].
  unfold go_prefix in Ep. edestruct (ParseHex_some (take 16 (bytes_of (DeduplicationKeyHash sha256 (job_rule job) (job_event job))))) as [v Hv]; [| |congruence].
  - intros Hnil%(f_equal length). rewrite length_take in Hnil. unfold go_len in Hl.
    assert (String.length (DeduplicationKeyHash sha256 (job_rule job) (job_event job)) = length (bytes_of (DeduplicationKeyHash sha256 (job_rule job) (job_event job)))) as Hlen.
    { unfold bytes_of. generalize (DeduplicationKeyHash sha256 (job_rule job) (job_event job)) as s. induction s; cbn; congruence. }
    cbn [length] in Hnil. lia.
  - apply forallb_forall. intros c Hc%list_elem_of_In. rewrite forallb_forall in Hh. apply Hh, list_elem_of_In.
    apply elem_of_take in Hc as (n & Hn & _). by eapply list_elem_of_lookup_2.
Qed.

(** The jobs of a log with a deduplication key. *)
Definition of_key (h : string) (l : list (nat * deliveryJob)) : list deliveryJob :=
  filter (fun job => DeduplicationKeyHash sha256 (job_rule job) (job_event job) = h) (snd <$> l).

Lemma of_key_queue h i l :
  Forall (fun x => DeduplicationKeyHash sha256 (job_rule x.2) (job_event x.2) = h → x.1 = i) l →
  of_key h l = filter (fun job => DeduplicationKeyHash sha256 (job_rule job) (job_event job) = h) (jobs_at i l).
Proof.
  unfold of_key, jobs_at. induction l as [|[j job] l IH]; intros Hl; [done|]. apply Forall_cons in Hl as [Hj Hl]. cbn in Hj.
  cbn [fmap list_fmap]. rewrite (filter_cons _ (j, job)). cbn [fst snd]. rewrite filter_cons, IH by done.
  destruct (decide (DeduplicationKeyHash sha256 (job_rule job) (job_event job) = h)) as [Hh|Hh].
  - rewrite decide_True by auto. cbn [fmap list_fmap]. rewrite filter_cons_True by done. done.
  - destruct (decide (j = i)); [|done]. cbn [fmap list_fmap]. by rewrite filter_cons_False.
Qed.

(** [C26] Notifications of one deduplication key are taken up for delivery in the
    order in which they were decided, whatever the workers do: those taken up
    are a prefix of those decided. *)
Theorem alerts_delivered_in_order d h :
  reachable d → ∃ waiting, of_key h (log_decided d) = of_key h (log_started d) ++ waiting.
Proof.
  intros Hinv%reachable_dinv. destruct Hinv.
  assert (∀ x, x ∈ log_decided d ++ log_started d → x.1 = index_of x.2 ∧ (x.1 < length capacities)%nat) as Hall.
  { apply Forall_forall, Forall_app. done. }
  destruct (of_key h (log_decided d ++ log_started d)) as [|job l] eqn:Ek.
  { unfold of_key in *. rewrite fmap_app, filter_app in Ek. apply app_eq_nil in Ek as [-> ->]. by exists []. }
  assert (job ∈ of_key h (log_decided d ++ log_started d)) as Hj by (rewrite Ek; left).
  apply list_elem_of_filter in Hj as [Hh Hj]. apply list_elem_of_fmap in Hj as (x & -> & Hx).
  destruct (Hall x Hx) as [Hix Hlt].
  assert (∀ l, l ⊆ log_decided d ++ log_started d →
    Forall (fun y => DeduplicationKeyHash sha256 (job_rule y.2) (job_event y.2) = h → y.1 = x.1) l) as Hsame.
  { intros l' Hl'. apply Forall_forall. intros y Hy Hyh. destruct (Hall y (Hl' y Hy)) as [-> _]. rewrite Hix.
    apply index_by_key. congruence. }
  rewrite (of_key_queue h x.1 (log_decided d)), (of_key_queue h x.1 (log_started d)) by (apply Hsame; set_solver).
  destruct (lookup_lt_is_Some_2 (queues d) x.1) as [q Hq]; [lia|].
  rewrite (inv_jobs0 _ _ Hq), filter_app. eauto.
Qed.

(** [C27] A shutdown that is not cut short loses nothing: when the evaluator and
    all workers have returned, every event that was accepted has been evaluated
    and every notification decided on has been taken up for delivery; and the
    events recorded about deliveries themselves were never accepted. *)
Theorem shutdown_drains d :
  reachable d → evaluator d = Exited → Forall (fun t => t = Exited) (workers d) → canceled d = false →
  accepting d = false ∧ log_taken d = log_accepted d ∧ (∀ i, jobs_at i (log_started d) = jobs_at i (log_decided d))
  ∧ Forall (fun e => IsAlertDeliveryInternalAction (SystemEvents.Action e) = false) (log_taken d).
Proof.
  intros Hinv%reachable_dinv He Hw Hc. destruct Hinv. destruct (inv_exited0 He) as [_ [?|[Hq Hcl]]]; [congruence|].
  rewrite Hq, app_nil_r in inv_events0. destruct (inv_closed0 Hcl) as [Ha _]. split_and!; [done|done| |by rewrite <- inv_events0].
  intros i. destruct (decide (i < length capacities)%nat) as [Hi|Hi].
  - destruct (lookup_lt_is_Some_2 (workers d) i) as [t Ht]; [lia|].
    rewrite Forall_forall in Hw. rewrite (Hw t (list_elem_of_lookup_2 _ _ _ Ht)) in Ht.
    destruct (inv_workers0 i Ht) as [?|[_ Hqi]]; [congruence|]. by rewrite (inv_jobs0 i _ Hqi), app_nil_r.
  - assert (∀ l, Forall (fun x : nat * deliveryJob => x.1 = index_of x.2 ∧ (x.1 < length capacities)%nat) l → jobs_at i l = []) as Hnone.
    { intros l Hl. unfold jobs_at. induction Hl as [|x l [_ Hx] _ IH]; [done|].
      rewrite filter_cons_False by lia. exact IH. }
    by rewrite !Hnone.
Qed.

(** ** Schedules *)

Context (reply : ∀ R : Set, cmd R → R).

Inductive turn :=
| TEvent (e : SystemEvents.Event) | TTake | TCall | TPush | TReturn | TExit
| TStart (i : nat) | TWork (i : nat) | TDone (i : nat) | TLeave (i : nat)
| TShutdown | TListenerExit | TClose.

Definition push_turn (d : dispatcher) : option dispatcher :=
  match evaluator d with
  | Busy (Vis x k) =>
      match x in cmd R return (R → P unit) → option dispatcher with
      | Enqueue i job => fun k =>
          q ← queues d !! i; c ← capacities !! i;
          if (length q <? c)%nat then Some (push_job i job q (k true) d) else None
      | _ => fun _ => None
      end k
  | _ => None
  end.

Definition advance (t : turn) (d : dispatcher) : option dispatcher :=
  match t with
  | TEvent e => if listening d then Some (tryEnqueue e d).2 else None
  | TTake => match evaluator d, event_queue d with Idle, e :: q => Some (take_event e q d) | _, _ => None end
  | TCall => match evaluator d with
             | Busy (Vis x k) => if is_send x then None else Some (set_evaluator (Busy (k (reply _ x))) d)
             | _ => None end
  | TPush => push_turn d
  | TReturn => match evaluator d with Busy (Ret tt) => Some (set_evaluator Idle d) | _ => None end
  | TExit => match evaluator d, event_queue d with
             | Idle, [] => if event_closed d then Some (set_queues (queues d) true (set_evaluator Exited d)) else None
             | _, _ => None end
  | TStart i => match workers d !! i, queues d !! i with Some Idle, Some (job :: q) => Some (start_job i job q d) | _, _ => None end
  | TWork i => match workers d !! i with Some (Busy (Vis x k)) => Some (set_worker i (Busy (k (reply _ x))) d) | _ => None end
  | TDone i => match workers d !! i with Some (Busy (Ret tt)) => Some (set_worker i Idle d) | _ => None end
  | TLeave i => match workers d !! i, queues d !! i with
                | Some Idle, Some [] => if queues_closed d then Some (set_worker i Exited d) else None
                | _, _ => None end
  | TShutdown => Some (set_flags false (listening d) (canceled d) d)
  | TListenerExit => if accepting d then None else Some (set_flags (accepting d) false (canceled d) d)
  | TClose => if accepting d then None else if listening d then None else Some (set_events (event_queue d) true d)
  end.

Lemma push_turn_step d d' : push_turn d = Some d' → dstep d d'.
Proof.
  unfold push_turn. destruct (evaluator d) as [|[|R x k]|] eqn:Ee; try done. destruct x; try done. intros H.
  apply bind_Some in H as (q & Hq & H). apply bind_Some in H as (c & Hc & H).
  destruct (Nat.ltb_spec (length q) c); [|done]. injection H as <-. by eapply d_push.
Qed.

Lemma advance_step t d d' : advance t d = Some d' → dstep d d'.
Proof.
  destruct t; cbn [advance]; intros H; repeat case_match; simplify_eq; try (by constructor); try (by apply push_turn_step).
  all: first [by eapply d_take|by eapply d_evaluator_call|apply d_evaluator_exit; by auto|by eapply d_start
             |by eapply d_worker_call|apply d_worker_exit; by auto
             |match goal with H : accepting ?x = false |- _ => pose proof (d_listener_exit x H) as Hex; by rewrite H in Hex end].
Qed.

Fixpoint play (l : list turn) (d : dispatcher) : option dispatcher :=
  match l with
  | [] => Some d
  | t :: l => d ← advance t d; play l d
  end.

Lemma play_reachable l d : play l started = Some d → reachable d.
Proof.
  unfold reachable. generalize started as d0. induction l as [|t l IH]; intros d0 H; [injection H as <-; constructor|].
  cbn in H. destruct (advance t d0) as [d1|] eqn:E; [|done]. econstructor; [by eapply advance_step|by apply IH].
Qed.

End dispatcher.

Module Demo.
Import AlertingInv.Demo AlertingServiceThms.Demo.

Definition evaluation (e : SystemEvents.Event) : Evaluation :=
  {| E_Rule := stored_rule; E_ActionEnabled := true; E_ActionUpdatedAt := 1000000;
     E_State := initial_state 1 ""; E_Decision := DecisionNotify |}.

Definition reply (R : Set) (x : cmd R) : R :=
  match x in cmd R return R → R with
  | REvaluate _ e _ _ => fun _ => Ok (evaluation e)
  | _ => fun r => r
  end (handle R x 1%nat).1.

Definition capacities : list nat := [3; 3]%nat.

Abbreviation play := (Dispatcher.play sha256 ParseAddr Marshal url_Parse loopback_ip marshal_notification ParseTime cfg 4 capacities reply).
Abbreviation begin := (started capacities).

Definition evaluate_one : list turn := [TTake; TCall; TCall; TCall; TPush; TReturn].
Definition worker_of (a : string) : nat := deliveryWorkerIndex sha256 stored_rule (event a) 2.
Definition deliver_one (i : nat) : list turn := [TStart i] ++ repeat (TWork i) 5 ++ [TDone i].

(** Three events, two of one key; the second notification of that key waits
    while the first is under way. *)
Definition morning : list turn :=
  [TEvent (event "4"); TEvent (event "4"); TEvent (event "5")] ++ evaluate_one ++ evaluate_one ++ evaluate_one
  ++ deliver_one (worker_of "4").
Definition evening : list turn :=
  morning ++ [TShutdown; TListenerExit; TClose] ++ deliver_one (worker_of "4") ++ deliver_one (worker_of "5")
  ++ [TExit; TLeave 0%nat; TLeave 1%nat].

Definition at_noon : dispatcher := default begin (play morning begin).
Definition at_night : dispatcher := default begin (play evening begin).

Lemma at_noon_play : play morning begin = Some at_noon.
Proof. vm_compute. reflexivity. Qed.
Lemma at_night_play : play evening begin = Some at_night.
Proof. vm_compute. reflexivity. Qed.

Definition key : string := DeduplicationKeyHash sha256 stored_rule (event "4").

Lemma alerts_delivered_in_order_demo :
  length (of_key sha256 key (log_decided at_noon)) = 2%nat ∧ length (of_key sha256 key (log_started at_noon)) = 1%nat
  ∧ ∃ waiting, of_key sha256 key (log_decided at_noon) = of_key sha256 key (log_started at_noon) ++ waiting.
Proof.
  split; [vm_compute; reflexivity|]. split; [vm_compute; reflexivity|].
  exact (alerts_delivered_in_order sha256 ParseAddr Marshal url_Parse loopback_ip marshal_notification ParseTime cfg 4 capacities
    sha256_length at_noon key
    (play_reachable sha256 ParseAddr Marshal url_Parse loopback_ip marshal_notification ParseTime cfg 4 capacities reply
       morning at_noon at_noon_play)).
Defined.

Lemma shutdown_drains_demo :
  length (log_accepted at_night) = 3%nat ∧ log_taken at_night = log_accepted at_night
  ∧ ∀ i, jobs_at i (log_started at_night) = jobs_at i (log_decided at_night).
Proof.
  split; [vm_compute; reflexivity|].
  refine (let H := shutdown_drains sha256 ParseAddr Marshal url_Parse loopback_ip marshal_notification ParseTime cfg 4 capacities at_night
    (play_reachable sha256 ParseAddr Marshal url_Parse loopback_ip marshal_notification ParseTime cfg 4 capacities reply
       evening at_night at_night_play) _ _ _ in conj (proj1 (proj2 H)) (proj1 (proj2 (proj2 H)))).
  - vm_compute. reflexivity.
  - vm_compute. repeat constructor.
  - vm_compute. reflexivity.
Defined.

End Demo.

End Dispatcher.
