(* ===== verification/Netip.v ===== *)
(** * Go's [net/netip]

    Addresses and prefixes as numbers, the parsers [ParseAddr] and
    [ParseAddrPort], and the text form of an address: what
    [httpapi/request_info.go] uses of the package. *)

From S2P Require Import Prelude GoStrings Json.
From Stdlib Require Import Ascii.
From Stdlib Require String.

Module Netip.
Import Json (chars, hex_value, is_digit).

(** ** Addresses *)

Inductive Addr :=
| IPv4 (bits : Z)
| IPv6 (bits : Z) (zone : string).

#[export] Instance Addr_eq_dec : EqDecision Addr.
Proof. solve_decision. Defined.

Definition Zone (a : Addr) : string := match a with IPv4 _ => "" | IPv6 _ z => z end.
Definition BitLen (a : Addr) : Z := match a with IPv4 _ => 32 | IPv6 _ _ => 128 end.
Definition Is4 (a : Addr) : bool := match a with IPv4 _ => true | IPv6 _ _ => false end.
Definition Is6 (a : Addr) : bool := negb (Is4 a).
Definition addr_bits (a : Addr) : Z := match a with IPv4 b => b | IPv6 b _ => b end.

(** An IPv4 address mapped into IPv6: [::ffff:a.b.c.d]. *)
Definition Is4In6 (a : Addr) : bool :=
  match a with IPv4 _ => false | IPv6 b _ => bool_decide (Z.shiftr b 32 = 65535) end.

Definition Unmap (a : Addr) : Addr :=
  match a with IPv6 b _ => if Is4In6 a then IPv4 (Z.land b (2 ^ 32 - 1)) else a | IPv4 _ => a end.

(** ** Prefixes: [bits] is [-1] for an invalid one *)

Record Prefix := { P_Addr : Addr; Bits : Z }.

#[export] Instance Prefix_eq_dec : EqDecision Prefix.
Proof. solve_decision. Defined.

Definition withoutZone (a : Addr) : Addr := match a with IPv6 b _ => IPv6 b "" | _ => a end.

Definition PrefixFrom (a : Addr) (bits : Z) : Prefix :=
  {| P_Addr := withoutZone a; Bits := if bool_decide (0 ≤ bits ≤ BitLen a) then bits else -1 |}.

Definition IsValid (p : Prefix) : bool := bool_decide (0 ≤ Bits p).

Definition Masked (p : Prefix) : Prefix :=
  if IsValid p then
    let shift := BitLen (P_Addr p) - Bits p in
    let b := Z.shiftl (Z.shiftr (addr_bits (P_Addr p)) shift) shift in
    {| P_Addr := match P_Addr p with IPv4 _ => IPv4 b | IPv6 _ z => IPv6 b z end; Bits := Bits p |}
  else {| P_Addr := IPv6 0 ""; Bits := -1 |}.

Definition PrefixContains (p : Prefix) (a : Addr) : bool :=
  IsValid p && str_eq (Zone a) "" && bool_decide (BitLen (P_Addr p) = BitLen a) &&
  bool_decide (Z.shiftr (Z.lxor (addr_bits a) (addr_bits (P_Addr p))) (BitLen a - Bits p) = 0).

(** ** Parsing *)

(** The state of [parseIPv4Fields]: the fields so far, the value and the number
    of digits of the current one, and whether a field ended just before. *)
Fixpoint parseIPv4Fields (l : chars) (fields : list Z) (val digLen : Z) (first afterDot : bool) : option (list Z) :=
  match l with
  | [] => if bool_decide (length fields < 3)%nat then None else Some (fields ++ [val])
  | c :: l =>
      if is_digit c then
        if bool_decide (digLen = 1) && bool_decide (val = 0) then None
        else
          let val := val * 10 + (byte_of c - 48) in
          if bool_decide (255 < val) then None else parseIPv4Fields l fields val (digLen + 1) false false
      else if bool_decide (c = "."%char) then
        if first || bool_decide (l = []) || afterDot then None
        else if bool_decide (length fields = 3%nat) then None
        else parseIPv4Fields l (fields ++ [val]) 0 0 false true
      else None
  end.

Definition from_bytes (l : list Z) : Z := foldl (fun acc b => acc * 256 + b) 0 l.

Definition parseIPv4 (l : chars) : option Addr :=
  (fun fields => IPv4 (from_bytes fields)) <$> parseIPv4Fields l [] 0 0 true false.

(** The hexadecimal digits at the front: their value and what follows.  [None]
    is a group with more than four digits. *)
Fixpoint hex_group (n : nat) (acc : Z) (l : chars) : option (Z * nat * chars) :=
  match l with
  | c :: l' =>
      match hex_value c with
      | Some v => if bool_decide (4 ≤ n)%nat then None else hex_group (S n) (acc * 16 + v) l'
      | None => Some (acc, n, l)
      end
  | [] => Some (acc, n, [])
  end.

(** The loop of [parseIPv6] over the groups: [ip] are the bytes so far,
    [ellipsis] the position of a [::] among them.  Each round consumes at least
    one byte of the text and adds two bytes. *)
Fixpoint parse_groups (fuel : nat) (ip : list Z) (ellipsis : option nat) (s : chars)
  : option (list Z * option nat * chars) :=
  match fuel with
  | O => None
  | S fuel =>
      if bool_decide (16 ≤ length ip)%nat then Some (ip, ellipsis, s)
      else
        match hex_group 0 0 s with
        | None => None
        | Some (acc, off, rest) =>
            if bool_decide (off = 0%nat) then None
            else if bool_decide (head rest = Some "."%char) then
              if bool_decide (ellipsis = None) && negb (bool_decide (length ip = 12%nat)) then None
              else if bool_decide (16 < length ip + 4)%nat then None
              else match parseIPv4Fields s [] 0 0 true false with
                   | Some fields => Some (ip ++ fields, ellipsis, [])
                   | None => None
                   end
            else
              let ip := ip ++ [acc / 256; acc mod 256] in
              match rest with
              | [] => Some (ip, ellipsis, [])
              | c :: rest =>
                  if negb (bool_decide (c = ":"%char)) then None
                  else match rest with
                  | [] => None
                  | d :: rest' =>
                      if bool_decide (d = ":"%char) then
                        match ellipsis with
                        | Some _ => None
                        | None =>
                            match rest' with
                            | [] => Some (ip, Some (length ip), [])
                            | _ => parse_groups fuel ip (Some (length ip)) rest'
                            end
                        end
                      else parse_groups fuel ip ellipsis rest
                  end
              end
        end
  end.

Definition parseIPv6 (l : chars) : option Addr :=
  let '(s, zone) := match cut_bytes "%"%char l with (s, z) => (s, z) end in
  if bool_decide (zone = Some []) then None
  else
    let zone := String.string_of_list_ascii (default [] zone) in
    let '(ellipsis, s) := match s with
                          | a :: b :: s' => if bool_decide (a = ":"%char) && bool_decide (b = ":"%char)
                                            then (Some 0%nat, s') else (None, s)
                          | _ => (None, s)
                          end in
    if bool_decide (is_Some ellipsis) && bool_decide (s = []) then Some (IPv6 0 zone)
    else
      '(ip, ellipsis, s) ← parse_groups 9 [] ellipsis s;
      if negb (bool_decide (s = [])) then None
      else
        let i := length ip in
        match ellipsis with
        | None => if bool_decide (i < 16)%nat then None else Some (IPv6 (from_bytes ip) zone)
        | Some e =>
            if bool_decide (i < 16)%nat
            then Some (IPv6 (from_bytes (take e ip ++ replicate (16 - i) 0 ++ drop e ip)) zone)
            else None
        end.

Fixpoint first_of (l : chars) : option ascii :=
  match l with
  | [] => None
  | c :: l => if bool_decide (c = "."%char) || bool_decide (c = ":"%char) || bool_decide (c = "%"%char)
              then Some c else first_of l
  end.

(** [netip.ParseAddr] *)
Definition ParseAddr (s : string) : option Addr :=
  let l := String.list_ascii_of_string s in
  match first_of l with
  | Some c => if bool_decide (c = "."%char) then parseIPv4 l
              else if bool_decide (c = ":"%char) then parseIPv6 l else None
  | None => None
  end.

(** [strings.LastIndexByte], as the parts before and after. *)
Definition cut_last (c : ascii) (l : chars) : option (chars * chars) :=
  match cut_bytes c (rev l) with
  | (after, Some before) => Some (rev before, rev after)
  | (_, None) => None
  end.

(** [strconv.ParseUint(s, 10, 16)] *)
Definition ParseUint16 (l : chars) : option Z :=
  match l with
  | [] => None
  | _ => v ← digits_value l 0; if bool_decide (v ≤ 65535) then Some v else None
  end.

(** [netip.ParseAddrPort], of which only the address is used. *)
Definition ParseAddrPort (s : string) : option (Addr * Z) :=
  '(ip, port) ← cut_last ":"%char (String.list_ascii_of_string s);
  match ip with
  | [] => None
  | a :: ip' =>
      '(ip, v6) ← (if bool_decide (a = "["%char)
                   then match rev ip' with
                        | b :: mid => if bool_decide (b = "]"%char) then Some (rev mid, true) else None
                        | [] => None
                        end
                   else Some (ip, false));
      port ← ParseUint16 port;
      addr ← ParseAddr (String.string_of_list_ascii ip);
      if v6 && Is4 addr then None
      else if negb v6 && Is6 addr then None
      else Some (addr, port)
  end.

(** [netip.ParsePrefix]: an address without a zone, and a length without sign or
    leading zeros. *)
Definition ParsePrefix (s : string) : option Prefix :=
  '(ip, bits) ← cut_last "/"%char (String.list_ascii_of_string s);
  a ← ParseAddr (String.string_of_list_ascii ip);
  if Is6 a && negb (str_eq (Zone a) "") then None
  else if match bits with c :: _ :: _ => negb (bool_decide (49 ≤ byte_of c ≤ 57)) | _ => false end then None
  else
    n ← Atoi (String.string_of_list_ascii bits);
    if bool_decide (n < 0) || bool_decide (BitLen a < n) then None else Some (PrefixFrom a n).

(** [net.ParseIP] and [IP.IsLoopback]. *)
Definition ParseIP (s : string) : option Addr :=
  a ← ParseAddr s; if str_eq (Zone a) "" then Some (Unmap a) else None.
Definition IsLoopback (a : Addr) : bool :=
  match a with IPv4 b => bool_decide (Z.shiftr b 24 = 127) | IPv6 b _ => bool_decide (b = 1) end.

(** ** [Addr.String] *)

Definition octet (b i : Z) : Z := Z.land (Z.shiftr b (8 * i)) 255.
Definition string4 (b : Z) : string :=
  FormatInt (octet b 3) +++ "." +++ FormatInt (octet b 2) +++ "." +++ FormatInt (octet b 1) +++ "." +++ FormatInt (octet b 0).

Definition hex_digit (v : Z) : ascii := ascii_of_N (Z.to_N (if bool_decide (v < 10) then 48 + v else 87 + v)).

(** [appendHex]: without leading zeros. *)
Definition appendHex (x : Z) : string :=
  let d i := hex_digit (Z.land (Z.shiftr x (4 * i)) 15) in
  String.string_of_list_ascii
    ((if bool_decide (4096 ≤ x) then [d 3] else []) ++ (if bool_decide (256 ≤ x) then [d 2] else []) ++
     (if bool_decide (16 ≤ x) then [d 1] else []) ++ [d 0]).

Definition v6u16 (b i : Z) : Z := Z.land (Z.shiftr b (16 * (7 - i))) 65535.

(** The end of the run of zero groups that starts at [i]. *)
Fixpoint zero_run (n : nat) (b i : Z) : Z :=
  match n with
  | O => i
  | S n => if bool_decide (i < 8) && bool_decide (v6u16 b i = 0) then zero_run n b (i + 1) else i
  end.

(** The longest run of at least two zero groups, the first one of those. *)
Definition longest_zeros (b : Z) : Z * Z :=
  foldl (fun '(s, e) i =>
           let j := zero_run 8 b i in
           if bool_decide (2 ≤ j - i) && bool_decide (e - s < j - i) then (i, j) else (s, e))
        (255, 255) [0; 1; 2; 3; 4; 5; 6; 7].

Fixpoint groups6 (n : nat) (b i zs ze : Z) : string :=
  match n with
  | O => ""
  | S n =>
      if bool_decide (8 ≤ i) then ""
      else if bool_decide (i = zs)
      then "::" +++ (if bool_decide (8 ≤ ze) then "" else appendHex (v6u16 b ze) +++ groups6 n b (ze + 1) zs ze)
      else (if bool_decide (0 < i) then ":" else "") +++ appendHex (v6u16 b i) +++ groups6 n b (i + 1) zs ze
  end.

Definition AddrString (a : Addr) : string :=
  match a with
  | IPv4 b => string4 b
  | IPv6 b zone =>
      let text := if Is4In6 a then "::ffff:" +++ string4 (Z.land b (2 ^ 32 - 1))
                  else let '(zs, ze) := longest_zeros b in groups6 8 b 0 zs ze in
      if str_eq zone "" then text else text +++ "%" +++ zone
  end.

(** ** Tests *)

Example ParseAddr_v4 : ParseAddr "192.0.2.7" = Some (IPv4 3221225991).
Proof. vm_compute. reflexivity. Qed.

Example ParseAddr_bad : map ParseAddr ["192.0.2"; "192.0.2.256"; "192.0.02.1"; "1.2.3.4."; "1:2"; "::1::"; "12345::"; "%eth0"; "::%"] =
  replicate 9 None.
Proof. vm_compute. reflexivity. Qed.

Example Addr_text : map (fun s => AddrString <$> ParseAddr s)
  ["2001:0db8::0:1"; "::"; "::1"; "1:0:0:2:0:0:0:3"; "::ffff:10.0.0.1"; "fe80::1%eth0"; "10.0.0.1"; "1:2:3:4:5:6:7:8"; "64:ff9b::192.0.2.1"] =
  map Some ["2001:db8::1"; "::"; "::1"; "1:0:0:2::3"; "::ffff:10.0.0.1"; "fe80::1%eth0"; "10.0.0.1"; "1:2:3:4:5:6:7:8"; "64:ff9b::c000:201"].
Proof. vm_compute. reflexivity. Qed.

Example ParseAddrPort_test : map ParseAddrPort ["10.0.0.1:80"; "[::1]:443"; "::1:443"; "[10.0.0.1]:80"; "10.0.0.1:"; "10.0.0.1:65536"] =
  [Some (IPv4 167772161, 80); Some (IPv6 1 "", 443); None; None; None; None].
Proof. vm_compute. reflexivity. Qed.

End Netip.
