(* ===== verification/RequestInfo.v ===== *)
(** * Who sent a request

    [httpapi/request_info.go] finds the client's address, the scheme and the
    host of a request behind trusted proxies, and
    [httpapi/security_middleware.go] refuses requests that a browser sends on
    behalf of another site.  [url.Parse] is a parameter; the request is what
    [net/http] hands to a handler, never nil. *)

From S2P Require Import Prelude GoStrings Json SystemEvents Netip.
From Stdlib Require Import Ascii.
From Stdlib Require String.

Module RequestInfo.
Import Netip.
Import SystemEvents (ContainsAny).

(** ** Requests *)

(** [Header] holds the header fields in their order, under canonical names;
    [Cookies] the cookies [net/http] parsed from the [Cookie] header; [URLPath]
    is the decoded path. *)
Record Request := {
  Method : string;
  URLPath : string;
  Header : list (string * string);
  Cookies : list (string * string);
  RemoteAddr : string;
  Host : string;
  TLS : bool
}.

Definition Values (h : list (string * string)) (name : string) : list string :=
  map snd (List.filter (fun f => str_eq (fst f) name) h).

(** What the code reads of a parsed URL. *)
Record URL := { Scheme : string; HasUser : bool; U_Host : string; U_Path : string; RawQuery : string; Fragment : string }.

Record requestInfo := { ClientIP : string; I_Scheme : string; I_Host : string }.

(** [validOptionalPort] and [splitHostPort] of [net/url]: the host name and port
    of [URL.Host]. *)
Definition validOptionalPort (l : list ascii) : bool :=
  match l with
  | [] => true
  | c :: l => bool_decide (c = ":"%char) && forallb Json.is_digit l
  end.

Definition splitHostPort (s : string) : string * string :=
  let '(host, port) :=
    match cut_last ":"%char (String.list_ascii_of_string s) with
    | Some (before, after) =>
        if validOptionalPort (":"%char :: after)
        then (String.string_of_list_ascii before, String.string_of_list_ascii after) else (s, "")
    | None => (s, "")
    end in
  if HasPrefix host "[" && HasSuffix host "]"
  then (String.string_of_list_ascii (take (String.length host - 2) (drop 1 (String.list_ascii_of_string host))), port)
  else (host, port).

Definition Hostname (u : URL) : string := fst (splitHostPort (U_Host u)).
Definition Port (u : URL) : string := snd (splitHostPort (U_Host u)).

(** [strings.Count(s, ":")] *)
Definition count_colons (s : string) : nat :=
  length (List.filter (fun a => bool_decide (a = ":"%char)) (String.list_ascii_of_string s)).

(** ** Addresses *)

Definition parseRequestAddr (raw : string) : option Addr :=
  let raw := TrimSpace raw in
  if str_eq raw "" then None
  else
    let addr :=
      match ParseAddr raw with
      | Some a => Some a
      | None =>
          if HasPrefix raw "[" && HasSuffix raw "]" then ParseAddr (TrimSuffix (TrimPrefix raw "[") "]") else None
      end in
    let addr := match addr with Some a => Some a | None => fst <$> ParseAddrPort raw end in
    match addr with
    | None => None
    | Some a => if str_eq (Zone a) "" then Some (Unmap a) else None
    end.

Definition trustedProxyContains (prefixes : list Prefix) (addr : Addr) : bool :=
  let addr := Unmap addr in
  existsb (fun prefix =>
             let prefixAddr := P_Addr prefix in
             let prefix := if Is4In6 prefixAddr && bool_decide (96 ≤ Bits prefix)
                           then Masked (PrefixFrom (Unmap prefixAddr) (Bits prefix - 96)) else prefix in
             PrefixContains prefix addr) prefixes.

(** The entries of the [X-Forwarded-For] fields, in order. *)
Definition parseForwardedFor (values : list string) : option (list Addr) :=
  chain ← mapM parseRequestAddr (concat (map (fun v => Split v ","%char) values));
  if bool_decide (chain = []) then None else Some chain.

(** From the nearest proxy outwards, as long as the address reached is trusted.
    The chain is given in reverse. *)
Fixpoint walk_chain (client : Addr) (rchain : list Addr) (trusted : list Prefix) : Addr :=
  match rchain with
  | a :: rchain => if trustedProxyContains trusted client then walk_chain a rchain trusted else client
  | [] => client
  end.

Definition clientFromForwardedChain (directPeer : Addr) (chain : list Addr) (trusted : list Prefix) : Addr :=
  walk_chain directPeer (rev chain) trusted.

Definition singleForwardedValue (h : list (string * string)) (name : string) : option string :=
  match Values h name with
  | [v] => let value := TrimSpace v in
           if str_eq value "" || Contains value "," then None else Some value
  | _ => None
  end.

Section requests.
Variable url_Parse : string → option URL.

(** [ParseUint(port, 10, 16)] of a port that is given. *)
Definition valid_port (port : string) : bool :=
  str_eq port "" || match ParseUint16 (String.list_ascii_of_string port) with
                    | Some v => negb (bool_decide (v = 0)) | None => false end.

Definition validRequestHost (raw : string) : string :=
  let host := TrimSpace raw in
  if str_eq host "" || ContainsAny host ([","; "/"; "\"; "?"; "#"; "@"; "013"; "010"; "009"; " "]%char) then ""
  else if bool_decide (1 < count_colons host)%nat && negb (HasPrefix host "[") then ""
  else
    match url_Parse ("//" +++ host) with
    | None => ""
    | Some u =>
        if negb (str_eq (U_Host u) host) || HasUser u || negb (str_eq (U_Path u) "") ||
           negb (str_eq (RawQuery u) "") || negb (str_eq (Fragment u) "") then ""
        else if str_eq (Hostname u) "" || HasSuffix host ":" then ""
        else if valid_port (Port u) then host else ""
    end.

Definition canonicalRequestOrigin (raw : string) : option (string * string) :=
  match url_Parse (TrimSpace raw) with
  | None => None
  | Some u =>
      if negb (str_eq (Scheme u) "http" || str_eq (Scheme u) "https") || HasUser u || negb (str_eq (U_Path u) "") ||
         negb (str_eq (RawQuery u) "") || negb (str_eq (Fragment u) "") then None
      else
        let host := validRequestHost (U_Host u) in
        if str_eq host "" then None else Some (Scheme u, host)
  end.

Definition directRequestScheme (r : Request) : string := if TLS r then "https" else "http".

(** What is known without the headers of a proxy. *)
Definition direct_info (r : Request) (publicURL : string) : requestInfo :=
  let scheme := directRequestScheme r in
  let host := validRequestHost (Host r) in
  let '(scheme, host) :=
    if negb (str_eq (TrimSpace publicURL) "") then
      match canonicalRequestOrigin publicURL with Some (s, h) => (s, h) | None => (scheme, "") end
    else (scheme, host) in
  {| ClientIP := match parseRequestAddr (RemoteAddr r) with Some a => AddrString a | None => "" end;
     I_Scheme := scheme; I_Host := host |}.

(** The scheme and host a trusted proxy reports. *)
Definition forwarded_origin (r : Request) (info : requestInfo) : requestInfo :=
  let info :=
    match singleForwardedValue (Header r) "X-Forwarded-Proto" with
    | Some proto =>
        let proto := ToLower proto in
        if str_eq proto "http" || str_eq proto "https"
        then {| ClientIP := ClientIP info; I_Scheme := proto; I_Host := I_Host info |} else info
    | None => info
    end in
  match singleForwardedValue (Header r) "X-Forwarded-Host" with
  | Some host =>
      let host := validRequestHost host in
      if negb (str_eq host "")
      then {| ClientIP := ClientIP info; I_Scheme := I_Scheme info; I_Host := host |} else info
  | None => info
  end.

Definition with_client (info : requestInfo) (a : Addr) : requestInfo :=
  {| ClientIP := AddrString a; I_Scheme := I_Scheme info; I_Host := I_Host info |}.

Definition resolveRequestInfo (r : Request) (trusted : list Prefix) (publicURL : string) : requestInfo :=
  let info := direct_info r publicURL in
  match parseRequestAddr (RemoteAddr r) with
  | None => info
  | Some directPeer =>
      if negb (trustedProxyContains trusted directPeer) then info
      else
        match Values (Header r) "X-Forwarded-For" with
        | [] =>
            forwarded_origin r
              match singleForwardedValue (Header r) "X-Real-Ip" with
              | Some realIP => match parseRequestAddr realIP with Some a => with_client info a | None => info end
              | None => info
              end
        | values =>
            match parseForwardedFor values with
            | Some chain => forwarded_origin r (with_client info (clientFromForwardedChain directPeer chain trusted))
            | None => info
            end
        end
  end.

(** ** Requests on behalf of another site *)

Definition adminSessionCookieName : string := "n2api_admin_session".

(** The first cookie of the name, unless it is blank. *)
Definition readSessionCookie (r : Request) : option string :=
  match List.find (fun c => str_eq (fst c) adminSessionCookieName) (Cookies r) with
  | Some (_, value) => if str_eq (TrimSpace value) "" then None else Some value
  | None => None
  end.

(** The value, whether the field is there, and whether it is usable. *)
Definition singleBrowserHeader (h : list (string * string)) (name : string) : string * bool * bool :=
  match Values h name with
  | [] => ("", false, true)
  | [v] => let value := TrimSpace v in
           (value, true, negb (str_eq value "") && negb (Contains value ","))
  | _ => ("", true, false)
  end.

Definition adminBrowserPath (path : string) : bool := str_eq path "/api/admin" || HasPrefix path "/api/admin/".

Definition browserSafeMethod (m : string) : bool := str_eq m "GET" || str_eq m "HEAD" || str_eq m "OPTIONS".

Definition originHostPort (scheme host : string) : option (string * string) :=
  match url_Parse ("//" +++ host) with
  | None => None
  | Some u =>
      if str_eq (Hostname u) "" then None
      else if negb (str_eq (Port u) "") then Some (Hostname u, Port u)
      else if str_eq scheme "http" then Some (Hostname u, "80")
      else if str_eq scheme "https" then Some (Hostname u, "443")
      else None
  end.

Definition sameRequestOrigin (rawOrigin : string) (info : requestInfo) : bool :=
  match canonicalRequestOrigin rawOrigin with
  | None => false
  | Some (scheme, host) =>
      if negb (str_eq scheme (I_Scheme info)) || str_eq (I_Host info) "" then false
      else
        match originHostPort scheme host with
        | None => false
        | Some (originHostname, originPort) =>
            match originHostPort (I_Scheme info) (I_Host info) with
            | None => false
            | Some (requestHostname, requestPort) =>
                EqualFold originHostname requestHostname && str_eq originPort requestPort
            end
        end
  end.

Definition rejectCrossOriginAdminMutation (r : Request) (info : requestInfo) : bool :=
  if browserSafeMethod (Method r) || negb (adminBrowserPath (URLPath r)) then false
  else if bool_decide (readSessionCookie r = None) && negb (str_eq (URLPath r) "/api/admin/logout") then false
  else
    let '(fetchSite, sitePresent, siteValid) := singleBrowserHeader (Header r) "Sec-Fetch-Site" in
    if sitePresent && (negb siteValid || negb (str_eq (ToLower fetchSite) "same-origin")) then true
    else
      let '(origin, originPresent, originValid) := singleBrowserHeader (Header r) "Origin" in
      if negb originPresent then false
      else if negb originValid then true
      else negb (sameRequestOrigin origin info).

(** ** Headers of every response *)

Definition browserAppContentSecurityPolicy : string :=
  "default-src 'self'; base-uri 'self'; connect-src 'self'; font-src 'self'; form-action 'self'; frame-ancestors 'none'; img-src 'self' data:; object-src 'none'; script-src 'self' 'unsafe-inline'; style-src 'self' 'unsafe-inline'".
Definition browserDataContentSecurityPolicy : string :=
  "default-src 'none'; base-uri 'none'; form-action 'none'; frame-ancestors 'none'".
Definition browserOAuthContentSecurityPolicy : string := browserDataContentSecurityPolicy +++ "; style-src 'unsafe-inline'".
Definition browserPermissionsPolicy : string := "camera=(), geolocation=(), microphone=(), payment=(), usb=()".

Definition sensitiveBrowserResponsePath (path : string) : bool := adminBrowserPath path || HasPrefix path "/oauth/".

Definition browserContentSecurityPolicy (path : string) : string :=
  if HasPrefix path "/oauth/" then browserOAuthContentSecurityPolicy
  else if HasPrefix path "/api/" || HasPrefix path "/v1/" then browserDataContentSecurityPolicy
  else browserAppContentSecurityPolicy.

Definition setBrowserSecurityHeaders (r : Request) (info : requestInfo) : list (string * string) :=
  [("Content-Security-Policy", browserContentSecurityPolicy (URLPath r)); ("Permissions-Policy", browserPermissionsPolicy);
   ("Referrer-Policy", "no-referrer"); ("X-Content-Type-Options", "nosniff"); ("X-Frame-Options", "DENY")] ++
  (if str_eq (I_Scheme info) "https" then [("Strict-Transport-Security", "max-age=31536000")] else []) ++
  (if sensitiveBrowserResponsePath (URLPath r) then [("Cache-Control", "no-store")] else []).

End requests.

(** ** The client's address behind trusted proxies

    A proxy adds the address of its peer to [X-Forwarded-For]: as a field of its
    own, at the end of the last field, or after joining the fields into one. *)
Inductive appends (values : list string) (peer : Addr) : list string → Prop :=
| appends_field t :
    free_of ","%char t = true → parseRequestAddr t = Some peer → appends values peer (values ++ [t])
| appends_last init v t :
    values = init ++ [v] → free_of ","%char t = true → parseRequestAddr t = Some peer →
    appends values peer (init ++ [v +++ String ","%char t])
| appends_joined t :
    values ≠ [] → free_of ","%char t = true → parseRequestAddr t = Some peer →
    appends values peer [Join values ", " +++ String ","%char t].

(** [hops values c proxies values']: a request that the client [c] sends with
    [values] passes through [proxies], the last one next to the server. *)
Inductive hops : list string → Addr → list Addr → list string → Prop :=
| hops_one values c p values' : appends values c values' → hops values c [p] values'
| hops_more values c p ps values1 values' :
    appends values c values1 → hops values1 p ps values' → hops values c (p :: ps) values'.

(** The entries of the header fields, before they are parsed. *)
Definition entries (values : list string) : list string := concat (map (fun v => Split v ","%char) values).

Lemma split_bytes_ne c l : split_bytes c l ≠ [].
Proof. destruct l as [|a l]; simpl; [done|]. by repeat case_match. Qed.

Lemma Split_append (v t : string) : Split (v +++ String ","%char t) ","%char = Split v ","%char ++ Split t ","%char.
Proof.
  unfold Split. rewrite list_ascii_append. cbn [String.list_ascii_of_string].
  rewrite <- map_app. f_equal. set (k := String.list_ascii_of_string t).
  induction (String.list_ascii_of_string v) as [|a l IH]; simpl; [done|].
  rewrite IH. destruct (bool_decide (a = ","%char)); [done|].
  destruct (split_bytes ","%char l) eqn:E; [by apply split_bytes_ne in E|done].
Qed.

Lemma entries_snoc values v : entries (values ++ [v]) = entries values ++ Split v ","%char.
Proof. unfold entries. rewrite map_app, concat_app. simpl. by rewrite app_nil_r. Qed.

Lemma mapM_parse_app l k :
  mapM parseRequestAddr (l ++ k) = (x ← mapM parseRequestAddr l; y ← mapM parseRequestAddr k; Some (x ++ y)).
Proof.
  induction l as [|x l IH]; simpl; [by destruct (mapM parseRequestAddr k)|].
  destruct (parseRequestAddr x); simpl; [|done]. rewrite IH.
  destruct (mapM parseRequestAddr l); simpl; [|done]. by destruct (mapM parseRequestAddr k).
Qed.

(** A space in front of an entry does not matter. *)
Lemma parse_space s : parseRequestAddr (String " "%char s) = parseRequestAddr s.
Proof. reflexivity. Qed.

Lemma entries_space s :
  mapM parseRequestAddr (Split (String " "%char s) ","%char) = mapM parseRequestAddr (Split s ","%char).
Proof.
  unfold Split. cbn [String.list_ascii_of_string split_bytes]. rewrite bool_decide_eq_false_2 by done.
  destruct (split_bytes ","%char (String.list_ascii_of_string s)) as [|x l] eqn:E; [by apply split_bytes_ne in E|].
  cbn [map mapM]. change (String.string_of_list_ascii (" "%char :: x)) with (String " "%char (String.string_of_list_ascii x)).
  by rewrite parse_space.
Qed.

Lemma entries_join values : values ≠ [] →
  mapM parseRequestAddr (Split (Join values ", ") ","%char) = mapM parseRequestAddr (entries values).
Proof.
  induction values as [|v [|w l] IH]; intros H; [done|unfold entries; simpl; by rewrite app_nil_r|].
  change (Join (v :: w :: l) ", ") with (v +++ (String ","%char (String " "%char (Join (w :: l) ", ")))).
  rewrite Split_append. change (entries (v :: w :: l)) with (Split v ","%char ++ entries (w :: l)).
  by rewrite !mapM_parse_app, entries_space, IH.
Qed.

Lemma appends_entries values peer values' :
  appends values peer values' →
  mapM parseRequestAddr (entries values') = (fun l => l ++ [peer]) <$> mapM parseRequestAddr (entries values).
Proof.
  assert (∀ l t, free_of ","%char t = true → parseRequestAddr t = Some peer →
    mapM parseRequestAddr (l ++ Split t ","%char) = (fun l => l ++ [peer]) <$> mapM parseRequestAddr l) as Hadd.
  { intros l t Hf Hp. rewrite mapM_parse_app, Split_free by done. simpl. rewrite Hp. by destruct (mapM parseRequestAddr l). }
  intros [t Hf Hp|init v t -> Hf Hp|t Hne Hf Hp].
  - rewrite entries_snoc. by apply Hadd.
  - rewrite !entries_snoc, Split_append, app_assoc. by apply Hadd.
  - unfold entries at 1. simpl. rewrite Split_append, app_nil_r, Hadd, entries_join by done. done.
Qed.

(** What the server reads: the addresses the client sent, then the client and
    every proxy but the last. *)
Lemma hops_entries values c ps values' :
  hops values c ps values' →
  ∃ p rest, ps = rest ++ [p] ∧
    mapM parseRequestAddr (entries values') = (fun l => l ++ c :: rest) <$> mapM parseRequestAddr (entries values).
Proof.
  induction 1 as [values c p values' He%appends_entries|values c p ps values1 values' He%appends_entries _ (q & rest & -> & IH)].
  - by exists p, [].
  - exists q, (p :: rest). split; [done|]. rewrite IH, He.
    destruct (mapM parseRequestAddr (entries values)); simpl; [|done]. by rewrite <- app_assoc.
Qed.

Lemma walk_trusted trusted p rest c l :
  Forall (fun a => trustedProxyContains trusted a = true) (p :: rest) → trustedProxyContains trusted c = false →
  walk_chain p (rest ++ c :: l) trusted = c.
Proof.
  revert p. induction rest as [|q rest IH]; intros p [Hp Hr]%Forall_cons Hc; simpl; rewrite Hp.
  - destruct l; simpl; [done|]. by rewrite Hc.
  - by apply IH.
Qed.

Lemma hops_nonempty values c ps values' : hops values c ps values' → values' ≠ [].
Proof.
  induction 1 as [values c p values' [t ? ?|init v t -> ? ?|t ? ? ?]|]; [by destruct values|by destruct init|done|done].
Qed.

Lemma direct_client url_Parse r publicURL :
  ClientIP (direct_info url_Parse r publicURL) =
  match parseRequestAddr (RemoteAddr r) with Some a => AddrString a | None => "" end.
Proof. unfold direct_info. by destruct (if negb _ then _ else _). Qed.

Lemma forwarded_origin_client url_Parse r info : ClientIP (forwarded_origin url_Parse r info) = ClientIP info.
Proof. unfold forwarded_origin. by repeat case_match. Qed.

(** [C15] A client that is not a trusted proxy itself cannot choose its address:
    behind any number of trusted proxies that each add their peer to
    [X-Forwarded-For], the address found is the client's, whatever the client
    put into the header; only when that does not parse is it the address of the
    nearest proxy.  A client connected directly is known by its connection. *)
Theorem client_address_not_forged url_Parse r trusted publicURL c ps sent :
  trustedProxyContains trusted c = false →
  Forall (fun p => trustedProxyContains trusted p = true) ps →
  match last ps with
  | None => parseRequestAddr (RemoteAddr r) = Some c
  | Some p => parseRequestAddr (RemoteAddr r) = Some p ∧ hops sent c ps (Values (Header r) "X-Forwarded-For")
  end →
  ClientIP (resolveRequestInfo url_Parse r trusted publicURL) =
  match last ps with
  | Some p => AddrString (if bool_decide (is_Some (mapM parseRequestAddr (entries sent))) then c else p)
  | None => AddrString c
  end.
Proof.
  intros Hc Hps. unfold resolveRequestInfo. destruct (last ps) as [p|] eqn:El.
  - intros [Hr Hh]. rewrite Hr. pose proof (hops_nonempty _ _ _ _ Hh) as Hne.
    destruct (hops_entries _ _ _ _ Hh) as (q & rest & -> & He). rewrite last_snoc in El. injection El as ->.
    apply Forall_app in Hps as [Hrest Hp]. rewrite Forall_singleton in Hp. rewrite Hp. cbn [negb].
    destruct (Values (Header r) "X-Forwarded-For") as [|v l] eqn:Ev; [done|].
    unfold parseForwardedFor. fold (entries (v :: l)). rewrite He.
    destruct (mapM parseRequestAddr (entries sent)) as [forged|] eqn:Ef; cbn.
    + rewrite bool_decide_eq_false_2 by (by destruct forged).
      rewrite forwarded_origin_client. cbn. unfold clientFromForwardedChain.
      rewrite rev_app_distr. cbn [rev]. rewrite <- app_assoc. cbn [app]. rewrite walk_trusted; [done| |done].
      constructor; [done|]. by apply Forall_rev.
    + by rewrite direct_client, Hr.
  - intros Hr. rewrite Hr, Hc. cbn. by rewrite direct_client, Hr.
Qed.

(** A client at 203.0.113.9 pretends to be 10.0.0.5; its request passes through
    the proxies 10.0.0.2 and 10.0.0.1, the second of which joins the fields. *)
Module Demo.
Definition trusted : list Prefix := [{| P_Addr := IPv4 167772160; Bits := 8 |}].
Definition client : Addr := IPv4 3405803785.
Definition proxy2 : Addr := IPv4 167772162.
Definition proxy1 : Addr := IPv4 167772161.
Definition request : Request :=
  {| Method := "POST"; URLPath := "/api/admin/login"; Cookies := []; RemoteAddr := "10.0.0.1:40000"; Host := "n2api.test"; TLS := false;
     Header := [("X-Forwarded-For", "10.0.0.5, 203.0.113.9, 10.0.0.2")] |}.

Lemma client_address_demo :
  hops ["10.0.0.5"] client [proxy2; proxy1] (Values (Header request) "X-Forwarded-For") ∧
  ClientIP (resolveRequestInfo (fun _ => None) request trusted "") = "203.0.113.9".
Proof.
  assert (hops ["10.0.0.5"] client [proxy2; proxy1] (Values (Header request) "X-Forwarded-For")) as Hh.
  { eapply hops_more; [by apply (appends_last _ _ [] "10.0.0.5" " 203.0.113.9")|].
    apply hops_one. by apply (appends_joined ["10.0.0.5, 203.0.113.9"] proxy2 " 10.0.0.2"). }
  split; [exact Hh|].
  refine (eq_trans (client_address_not_forged (fun _ => None) request trusted "" client [proxy2; proxy1] ["10.0.0.5"] _ _ _) _).
  - vm_compute. reflexivity.
  - repeat constructor.
  - split; [vm_compute; reflexivity|exact Hh].
  - vm_compute. reflexivity.
Defined.
End Demo.

(** ** Origins *)

(** The header fields say that a page of the same origin sent the request: the
    scheme and the port agree, and so does the host name but for its case. *)
Definition same_origin (url_Parse : string → option URL) (origin : string) (info : requestInfo) : Prop :=
  ∃ host oname rname port,
    canonicalRequestOrigin url_Parse origin = Some (I_Scheme info, host) ∧
    originHostPort url_Parse (I_Scheme info) host = Some (oname, port) ∧
    originHostPort url_Parse (I_Scheme info) (I_Host info) = Some (rname, port) ∧
    EqualFold oname rname = true.

Lemma sameRequestOrigin_spec url_Parse origin info :
  sameRequestOrigin url_Parse origin info = true → same_origin url_Parse origin info.
Proof.
  unfold sameRequestOrigin, same_origin. intros H. repeat case_match; try done. simplify_eq.
  apply orb_false_iff in H2 as [Hs _]. apply negb_false_iff, bool_decide_eq_true in Hs as ->.
  apply andb_true_iff in H as [He Hp%bool_decide_eq_true]. simplify_eq. eauto 10.
Qed.

(** Of the requests that change something and carry a session, those a browser
    marks as coming from elsewhere are refused. *)
Lemma accepted_same_origin url_Parse r info :
  rejectCrossOriginAdminMutation url_Parse r info = false →
  browserSafeMethod (Method r) = false → adminBrowserPath (URLPath r) = true → is_Some (readSessionCookie r) →
  (∀ v, v ∈ Values (Header r) "Origin" → same_origin url_Parse (TrimSpace v) info) ∧
  (∀ v, v ∈ Values (Header r) "Sec-Fetch-Site" → ToLower (TrimSpace v) = "same-origin").
Proof.
  unfold rejectCrossOriginAdminMutation. intros Hrej Hm Hp [token Ht]. rewrite Hm, Hp, Ht in Hrej. cbn in Hrej.
  unfold singleBrowserHeader in Hrej.
  destruct (Values (Header r) "Sec-Fetch-Site") as [|f [|]]; cbn in Hrej; try done.
  2: destruct (negb _ || negb _) eqn:Ef; [done|].
  2: apply orb_false_iff in Ef as [_ Ef%negb_false_iff%bool_decide_eq_true].
  all: destruct (Values (Header r) "Origin") as [|o [|]]; cbn in Hrej; try done.
  all: try (destruct (negb (_ && _)); [done|]; apply negb_false_iff, sameRequestOrigin_spec in Hrej).
  all: split; intros x Hx; try (by apply not_elem_of_nil in Hx); by apply list_elem_of_singleton in Hx as ->.
Qed.

End RequestInfo.
