(* ===== verification/HttpJson.v ===== *)
(** * Request bodies and response values

    The JSON bodies of the management interface: [decodeJSON] of
    [httpapi/server.go] into the struct a handler declares, and the values that
    handlers pass to services and write back.  A struct type is a [schema], its
    content a [value].  The parser of a time is a parameter. *)

From S2P Require Import Prelude GoStrings Json.
From Stdlib Require Import Ascii.
From Stdlib Require String.

Module HttpJson.
Import Json.

(** ** Types and values *)

(** Go types as the request structs use them: [TInt] is [int] or [int64],
    [TOpt] the [optionalJSONString] of [httpapi/alerting.go], which remembers
    whether it was given and whether as null. *)
Inductive schema :=
| TString
| TInt
| TBool
| TTime
| TOpt
| TPtr (s : schema)
| TList (s : schema)
| TMap (s : schema)
| TStruct (fields : list (string * schema)).

Inductive value :=
| VNil
| VString (s : string)
| VInt (z : Z)
| VBool (b : bool)
| VTime (t : Time)
| VOpt (v : string) (present isNull : bool)
| VList (l : list value)
| VObject (l : list (string * value)).

(** The zero value of a type. *)
Fixpoint zero (s : schema) : value :=
  match s with
  | TString => VString ""
  | TInt => VInt 0
  | TBool => VBool false
  | TTime => VTime 0
  | TOpt => VOpt "" false false
  | TPtr _ | TList _ | TMap _ => VNil
  | TStruct fields => VObject (map (fun f => (fst f, zero (snd f))) fields)
  end.

(** Fields of a struct. *)
Definition get_field (v : value) (name : string) : value :=
  match v with
  | VObject l => match List.find (fun f => str_eq (fst f) name) l with Some (_, x) => x | None => VNil end
  | _ => VNil
  end.

Definition set_field (v : value) (name : string) (x : value) : value :=
  match v with
  | VObject l => VObject (map (fun f => if str_eq (fst f) name then (name, x) else f) l)
  | _ => v
  end.

Definition as_str (v : value) : string := match v with VString s => s | _ => "" end.
Definition as_int (v : value) : Z := match v with VInt z => z | _ => 0 end.
Definition as_bool (v : value) : bool := match v with VBool b => b | _ => false end.
Definition as_time (v : value) : Time := match v with VTime t => t | _ => 0 end.
Definition as_list (v : value) : list value := match v with VList l => l | _ => [] end.
Definition as_ptr {A} (f : value → A) (v : value) : option A := match v with VNil => None | _ => Some (f v) end.
Definition as_ints (v : value) : list Z := map as_int (as_list v).
Definition as_strs (v : value) : list string := map as_str (as_list v).

(** ** Decoding *)

(** The texts and values of the elements of an array, given its text, which is
    known to be well formed. *)
Fixpoint elements_of (fuel : nat) (l : chars) : list (string * json) :=
  match fuel with
  | O => []
  | S fuel =>
      let l := skip_ws l in
      match parse_value fuel 0 l with
      | None => []
      | Some (v, r) =>
          (text l r, v) ::
          match skip_ws r with
          | c :: r => if bool_decide (c = ","%char) then elements_of fuel r else []
          | [] => []
          end
      end
  end.

Definition array_elements (raw : string) : list (string * json) :=
  match String.list_ascii_of_string raw with
  | _ :: l => elements_of (2 * length l + 2) l
  | [] => []
  end.

Section decode.
(** [time.Time.UnmarshalJSON] of a string. *)
Variable ParseTime : string → option Time.

(** The field a member is for: the one of its name, or else one that differs
    from it only in case; [None] is an unknown field. *)
Definition find_field {A} (fields : list (string * A)) (name : string) : option (string * A) :=
  match List.find (fun f => str_eq (fst f) name) fields with
  | Some f => Some f
  | None => List.find (fun f => EqualFold (fst f) name) fields
  end.

(** Into a variable of type [s] that holds [cur].  [None] is an error, which the
    decoder may report late but reports. *)
Fixpoint decode (s : schema) (raw : string) (v : json) (cur : value) {struct s} : option value :=
  match s with
  | TString => match v with JString t => Some (VString t) | JNull => Some cur | _ => None end
  | TInt => match v with JNumber _ _ _ => VInt <$> Atoi raw | JNull => Some cur | _ => None end
  | TBool => match v with JBool b => Some (VBool b) | JNull => Some cur | _ => None end
  | TTime => match v with JString t => VTime <$> ParseTime t | JNull => Some cur | _ => None end
  | TOpt =>
      match v with
      | JString t => Some (VOpt t true (match cur with VOpt _ _ n => n | _ => false end))
      | JNull => Some (VOpt (match cur with VOpt t _ _ => t | _ => "" end) true true)
      | _ => None
      end
  | TPtr s => match v with JNull => Some VNil | _ => decode s raw v (match cur with VNil => zero s | _ => cur end) end
  | TList s =>
      match v with
      | JNull => Some VNil
      | JArray _ => VList <$> mapM (fun e => decode s (fst e) (snd e) (zero s)) (array_elements raw)
      | _ => None
      end
  | TMap s =>
      match v with
      | JNull => Some VNil
      | JObject ms =>
          foldl (fun acc m =>
                   cur ← acc;
                   x ← decode s (fst (snd m)) (snd (snd m)) (zero s);
                   let entries := match cur with VObject l => l | _ => [] end in
                   Some (VObject (List.filter (fun e => negb (str_eq (fst e) (fst m))) entries ++ [(fst m, x)])))
                (Some (match cur with VObject l => VObject l | _ => VObject [] end)) ms
      | _ => None
      end
  | TStruct fields =>
      match v with
      | JNull => Some cur
      | JObject ms =>
          let decoders := map (fun f => (fst f, decode (snd f))) fields in
          foldl (fun acc m =>
                   cur ← acc;
                   '(name, d) ← find_field decoders (fst m);
                   x ← d (fst (snd m)) (snd (snd m)) (get_field cur name);
                   Some (set_field cur name x))
                (Some cur) ms
      | _ => None
      end
  end.

(** [decodeJSONBytes]: exactly one value, no unknown fields. *)
Definition decodeJSONBytes (body : string) (s : schema) : option value :=
  v ← parse body; decode s body v (zero s).

(** [readJSONBody]: [None] when reading fails or there is more than 1 MiB. *)
Definition readJSONBody (body : option string) : option string :=
  b ← body; if bool_decide (go_len b ≤ 1048576) then Some b else None.

Definition decodeJSON (body : option string) (s : schema) : option value :=
  b ← readJSONBody body; decodeJSONBytes b s.

(** [jsonFieldPresent] *)
Definition jsonFieldPresent (body : string) (field : string) : option bool :=
  match parse body with
  | Some (JObject ms) => Some (existsb (fun m => str_eq (fst m) field) ms)
  | Some JNull => Some false
  | _ => None
  end.

End decode.

(** ** Tests *)

Example decode_test :
  decodeJSON (fun _ => None) (Some (String.concat (String quote "") ["{"; "NAME"; ": "; "a"; ", "; "ids"; ": [1, 20], "; "p"; ": null}"]))
    (TStruct [("name", TString); ("ids", TList TInt); ("p", TPtr TInt)]) =
  Some (VObject [("name", VString "a"); ("ids", VList [VInt 1; VInt 20]); ("p", VNil)]).
Proof. vm_compute. reflexivity. Qed.

Example decode_errors :
  map (fun s => decodeJSON (fun _ => None) (Some s) (TStruct [("n", TInt)]))
    ["{} {}"; "[1]"; String.concat (String quote "") ["{"; "n"; ": 1.0}"]; String.concat (String quote "") ["{"; "m"; ": 1}"];
     String.concat (String quote "") ["{"; "n"; ": 9223372036854775808}"]] = replicate 5 None.
Proof. vm_compute. reflexivity. Qed.

End HttpJson.
