(* ===== verification/Paging.v ===== *)
(** * Pages of a list, and the cursors between them

    The lists of [store/admin.go] and [store/system_event.go] are cut into pages:
    rows in descending order of time and id, one row more than a page to see
    whether there are others, and a signed cursor that names the last row shown.
    Here is what these lists have in common: the signed cursors, the query for a
    page, and the theorem that following the cursors lists every row once. *)

From stdpp Require Import sorting.
From S2P Require Import Prelude GoStrings Base64.
From Stdlib Require Import Ascii.
From Stdlib Require String.

Module Paging.
Import Base64.

(** ** Signed cursors *)

Section codec.
(** A cursor as it is encoded, and the message authentication code under the
    list's key; its values have 32 bytes. *)
Context {C : Type} (Marshal : C → option (list ascii)) (Unmarshal : list ascii → option C).
Context (mac : list ascii → list ascii).

Definition encodeCursor (c : C) : option string :=
  payload ← Marshal c;
  Some (EncodeToString RawURLEncoding (payload ++ mac payload)).

Definition decodeCursor (value : string) : option C :=
  decoded ← DecodeString RawURLEncoding value;
  if bool_decide (length decoded ≤ 32)%nat then None
  else
    let payload := take (length decoded - 32) decoded in
    let signature := drop (length decoded - 32) decoded in
    if bool_decide (signature = mac payload) then Unmarshal payload else None.

Lemma decode_encode c payload text :
  Marshal c = Some payload → payload ≠ [] → Unmarshal payload = Some c → length (mac payload) = 32%nat →
  encodeCursor c = Some text → decodeCursor text = Some c.
Proof.
  unfold encodeCursor, decodeCursor. intros -> Hne Hu Hl [= <-]. rewrite DecodeString_EncodeToString. simpl.
  rewrite length_app, Hl. replace (length payload + 32 - 32)%nat with (length payload) by lia.
  rewrite take_app_length, drop_app_length. rewrite bool_decide_eq_false_2 by (destruct payload; simpl in *; [done|lia]).
  by rewrite bool_decide_eq_true_2.
Qed.

(** An encoded cursor is a text without white space, not too long, that decodes
    to the cursor. *)
Lemma encode_text c payload :
  Marshal c = Some payload → payload ≠ [] → Unmarshal payload = Some c → length (mac payload) = 32%nat → (length payload ≤ 700)%nat →
  ∃ text, encodeCursor c = Some text ∧ text ≠ "" ∧ TrimSpace text = text ∧ go_len text ≤ 1024 ∧ decodeCursor text = Some c.
Proof.
  intros Hm Hne Hu Hmac Hl. unfold encodeCursor at 1. rewrite Hm. cbn [mbind option_bind].
  set (l := payload ++ mac payload). assert (32 < length l ≤ 732)%nat as Hlen.
  { unfold l. rewrite length_app, Hmac. destruct payload; [done|]. simpl in *. lia. }
  pose proof (go_len_EncodeToString RawURLEncoding l) as Hgo.
  assert (0 < EncodedLen RawURLEncoding (Z.of_nat (length l)) ≤ 1024) as Hr.
  { unfold EncodedLen. cbn [padded RawURLEncoding].
    pose proof (Z.div_mod (Z.of_nat (length l)) 3 ltac:(lia)). pose proof (Z.mod_pos_bound (Z.of_nat (length l)) 3 ltac:(lia)).
    set (q := Z.of_nat (length l) / 3) in *. set (m := Z.of_nat (length l) mod 3) in *.
    pose proof (Z.div_pos (m * 8 + 5) 6 ltac:(lia) ltac:(lia)). pose proof (Z.div_le_upper_bound (m * 8 + 5) 6 4 ltac:(lia) ltac:(lia)). lia. }
  exists (EncodeToString RawURLEncoding l). split; [done|]. split; [|split; [|split]].
  - intros Heq. rewrite Heq in Hgo. change (0 = EncodedLen RawURLEncoding (Z.of_nat (length l))) in Hgo. lia.
  - apply TrimSpace_encoded.
  - lia.
  - eapply decode_encode; [exact Hm|exact Hne|exact Hu|exact Hmac|]. unfold encodeCursor. by rewrite Hm.
Qed.

(** What is accepted was signed. *)
Lemma decode_signed text c :
  decodeCursor text = Some c →
  ∃ payload, DecodeString RawURLEncoding text = Some (payload ++ mac payload) ∧ Unmarshal payload = Some c.
Proof.
  unfold decodeCursor. intros Hd. destruct (DecodeString _ text) as [l|] eqn:E; [|done]. simpl in Hd.
  case_bool_decide; [done|]. case_bool_decide as Hs; [|done]. exists (take (length l - 32) l).
  split; [|done]. by rewrite <- Hs, take_drop.
Qed.

End codec.

(** ** The query for a page *)

(** The comparison of rows [(a, b) < (c, d)]. *)
Definition row_lt (k k' : Time * Z) : bool :=
  bool_decide (k.1 < k'.1) || bool_decide (k.1 = k'.1) && bool_decide (k.2 < k'.2).

Lemma row_lt_spec k k' : row_lt k k' = true ↔ k.1 < k'.1 ∨ k.1 = k'.1 ∧ k.2 < k'.2.
Proof. unfold row_lt. rewrite orb_true_iff, andb_true_iff, !bool_decide_eq_true. done. Qed.

Lemma row_lt_false k k' : row_lt k k' = false ↔ k = k' ∨ row_lt k' k = true.
Proof.
  rewrite <- not_true_iff_false, !row_lt_spec. destruct k as [t i], k' as [t' i']; cbn. split; [|intros [[= -> ->]|]; lia].
  intros H. destruct (decide (t = t')) as [->|]; [|lia]. destruct (decide (i = i')) as [->|]; [by left|lia].
Qed.

Lemma row_lt_trans k1 k2 k3 : row_lt k1 k2 = true → row_lt k2 k3 = true → row_lt k1 k3 = true.
Proof. rewrite !row_lt_spec. lia. Qed.

Lemma row_lt_irrefl k : row_lt k k = false.
Proof. apply row_lt_false. by left. Qed.

Lemma elem_of_lfilter {A} (p : A → bool) (l : list A) x : x ∈ List.filter p l ↔ x ∈ l ∧ p x = true.
Proof. by rewrite list_elem_of_In, filter_In, <- list_elem_of_In. Qed.

Lemma elem_of_take_l {A} n (l : list A) x : x ∈ take n l → x ∈ l.
Proof. intros H. rewrite <- (take_drop n l). apply elem_of_app. by left. Qed.

Section keyset.
Context {R : Type} (key : R → Time * Z).

(** [ORDER BY t DESC, id DESC] *)
Definition desc (x y : R) : Prop := row_lt (key x) (key y) = false.
#[local] Instance desc_dec : RelDecision desc := λ x y, decide (row_lt (key x) (key y) = false).

(** Strictly descending. *)
Definition below (x y : R) : Prop := row_lt (key y) (key x) = true.

Definition in_range (after : option (Time * Z)) (x : R) : bool :=
  match after with None => true | Some k => row_lt (key x) k end.

(** [SELECT ... WHERE p AND (t, id) < after ORDER BY t DESC, id DESC LIMIT n] *)
Definition select (p : R → bool) (after : option (Time * Z)) (n : nat) (rows : list R) : list R :=
  take n (merge_sort desc (List.filter (fun x => p x && in_range after x) rows)).

Lemma select_ext (p q : R → bool) after n rows : (∀ x, p x = q x) → select p after n rows = select q after n rows.
Proof. intros H. unfold select. do 2 f_equal. apply filter_ext. intros x. by rewrite H. Qed.

(** A page and, when there is more, the key of its last row. *)
Definition cut_page (limit : nat) (l : list R) : list R * option (Time * Z) :=
  if bool_decide (limit < length l)%nat then (take limit l, key <$> last (take limit l)) else (l, None).

(** Page after page, each from the rows there are by then; [None] when the
    snapshots end before the list does. *)
Fixpoint walk (p : R → bool) (limit : nat) (after : option (Time * Z)) (snapshots : list (list R)) : option (list R) :=
  match snapshots with
  | [] => None
  | s :: snapshots =>
      let l := select p after (S limit) s in
      match cut_page limit l with
      | (rows, Some k) => rest ← walk p limit (Some k) snapshots; Some (rows ++ rest)
      | (rows, None) => Some rows
      end
  end.

(** Keys are not shared. *)
Definition keyed (s : list R) : Prop := NoDup (map key s).

#[local] Instance desc_trans : Transitive desc.
Proof.
  intros x y z. unfold desc. rewrite !row_lt_false.
  intros [E1|H1] [E2|H2]; [left; congruence|right; congruence|right; congruence|right]. by eapply row_lt_trans.
Qed.
#[local] Instance desc_total : Total desc.
Proof.
  intros x y. unfold desc. destruct (row_lt (key x) (key y)) eqn:E; [right|by left]. apply row_lt_false. by right.
Qed.

Lemma sorted_below l : keyed l → StronglySorted below (merge_sort desc l).
Proof.
  intros Hk. assert (NoDup (map key (merge_sort desc l))) as Hn by (unfold keyed in Hk; by rewrite merge_sort_Permutation).
  pose proof (StronglySorted_merge_sort desc l) as Hs. induction Hs as [|x m Hs IH Hx]; [constructor|].
  apply NoDup_cons in Hn as [Hni Hn]. constructor; [auto|].
  apply Forall_forall. intros y Hy. rewrite Forall_forall in Hx. specialize (Hx y Hy). unfold desc, below in *.
  apply row_lt_false in Hx as [Heq|]; [|done]. exfalso. apply Hni. apply list_elem_of_fmap. eauto.
Qed.

Lemma keyed_filter (p : R → bool) s : keyed s → keyed (List.filter p s).
Proof.
  unfold keyed. induction s as [|x s IH]; simpl; [done|]. intros [Hni Hn]%NoDup_cons.
  destruct (p x); [|auto]. apply NoDup_cons. split; [|auto]. intros (y & Heq & Hy)%list_elem_of_fmap. apply Hni.
  apply list_elem_of_fmap. exists y. split; [done|]. by apply elem_of_lfilter in Hy as [Hy _].
Qed.

Lemma elem_of_sorted p after s x :
  x ∈ merge_sort desc (List.filter (fun x => p x && in_range after x) s) ↔ x ∈ s ∧ p x = true ∧ in_range after x = true.
Proof. by rewrite merge_sort_Permutation, elem_of_lfilter, andb_true_iff. Qed.

(** The next page starts below a row of the store. *)
Lemma cut_page_key p limit after n s page k :
  cut_page limit (select p after n s) = (page, Some k) → ∃ x, x ∈ s ∧ key x = k.
Proof.
  unfold cut_page. case_bool_decide; [|done]. intros [= <- Hk].
  destruct (last _) as [x|] eqn:El; [|done]. injection Hk as <-. exists x. split; [|done].
  apply last_Some in El as [m Em]. assert (x ∈ select p after n s) as Hx.
  { apply (elem_of_take_l limit). rewrite Em. apply elem_of_app. right. by apply list_elem_of_singleton. }
  unfold select in Hx. by apply elem_of_take_l, elem_of_sorted in Hx as (? & _).
Qed.

(** ** Following the cursors *)

Lemma last_lowest (l : list R) z x :
  StronglySorted below l → last l = Some z → x ∈ l → x = z ∨ below x z.
Proof.
  intros Hs Hl Hx. apply last_Some in Hl as [m ->]. apply elem_of_app in Hx as [Hx|Hx].
  - right. apply StronglySorted_app in Hs as (H & _ & _). apply H; [done|]. by apply list_elem_of_singleton.
  - left. by apply list_elem_of_singleton in Hx.
Qed.

Lemma below_NoDup (l : list R) : StronglySorted below l → NoDup l.
Proof.
  induction 1 as [|x l Hs IH Hx]; constructor; [|done]. intros Hin. rewrite Forall_forall in Hx.
  specialize (Hx x Hin). unfold below in Hx. by rewrite row_lt_irrefl in Hx.
Qed.

(** A page cut from the rows in range: what is on it, what is not, and where the
    next one starts. *)
Lemma page_spec p limit after s :
  keyed s → (0 < limit)%nat →
  let '(rows, next) := cut_page limit (select p after (S limit) s) in
  StronglySorted below rows ∧
  (∀ x, x ∈ rows → x ∈ s ∧ p x = true ∧ in_range after x = true) ∧
  match next with
  | None => ∀ x, x ∈ s → p x = true → in_range after x = true → x ∈ rows
  | Some k => (∀ x, x ∈ s → p x = true → in_range after x = true → x ∈ rows ∨ row_lt (key x) k = true) ∧
              (∀ x, x ∈ rows → row_lt (key x) k = false) ∧ (∀ x, row_lt (key x) k = true → in_range after x = true) ∧
              (length rows = limit)
  end.
Proof.
  intros Hk Hlim. unfold cut_page, select. set (l := merge_sort desc _).
  assert (StronglySorted below l) as Hs by (apply sorted_below, keyed_filter, Hk).
  assert (∀ x, x ∈ l ↔ x ∈ s ∧ p x = true ∧ in_range after x = true) as Hin by (intros x; apply elem_of_sorted).
  case_bool_decide as Hc; rewrite length_take in Hc.
  - rewrite take_take. replace (limit `min` S limit)%nat with limit by lia.
    assert (l = take limit l ++ drop limit l) as Hl by (by rewrite take_drop). rewrite Hl in Hs.
    apply StronglySorted_app in Hs as (Hcut & Hs1 & _).
    destruct (last (take limit l)) as [z|] eqn:Ez.
    2:{ apply last_None in Ez. apply (f_equal length) in Ez. rewrite length_take in Ez. simpl in Ez. lia. }
    simpl. assert (z ∈ take limit l) as Hz by (apply last_Some in Ez as [m ->]; apply elem_of_app; right; by apply list_elem_of_singleton).
    split; [done|]. split; [intros x Hx; apply Hin; rewrite Hl; apply elem_of_app; by left|].
    split; [|split; [|split]].
    + intros x H1 H2 H3. assert (x ∈ l) as Hx by (by apply Hin). rewrite Hl in Hx. apply elem_of_app in Hx as [Hx|Hx]; [by left|].
      right. by apply Hcut.
    + intros x Hx. destruct (last_lowest _ z x Hs1 Ez Hx) as [->|Hb]; [apply row_lt_irrefl|]. apply row_lt_false. by right.
    + intros x Hx. assert (in_range after z = true) as Hr by (apply Hin; rewrite Hl; apply elem_of_app; by left).
      destruct after as [k|]; [|done]. simpl in *. by eapply row_lt_trans.
    + rewrite length_take. lia.
  - rewrite take_ge by lia. split; [done|]. split; [by intros x Hx; apply Hin|]. intros x H1 H2 H3. by apply Hin.
Qed.

Lemma walk_spec p limit snapshots after rows :
  Forall keyed snapshots → (0 < limit)%nat → walk p limit after snapshots = Some rows →
  StronglySorted below rows ∧
  (∀ x, x ∈ rows → p x = true ∧ in_range after x = true ∧ ∃ s, s ∈ snapshots ∧ x ∈ s) ∧
  (∀ x, p x = true → in_range after x = true → (∀ s, s ∈ snapshots → x ∈ s) → x ∈ rows).
Proof.
  intros Hk Hlim. revert after rows. induction Hk as [|s snapshots Hs Hk IH]; intros after rows; cbn [walk]; [done|].
  pose proof (page_spec p limit after s Hs Hlim) as Hp. destruct (cut_page limit _) as [page [k|]].
  - destruct Hp as (H1 & H2 & H3 & H4 & H5 & _). destruct (walk p limit (Some k) snapshots) as [rest|] eqn:Er; [|done].
    intros [= <-]. destruct (IH _ _ Er) as (R1 & R2 & R3). split; [|split].
    + apply StronglySorted_app. split; [|done]. intros x y Hx Hy. apply R2 in Hy as (_ & Hy & _). simpl in Hy.
      specialize (H4 x Hx). apply row_lt_false in H4 as [Heq|H4]; [unfold below; by rewrite Heq|].
      unfold below. by eapply row_lt_trans.
    + intros x [Hx|Hx]%elem_of_app.
      * destruct (H2 x Hx) as (? & ? & ?). split; [done|]. split; [done|]. exists s. split; [apply elem_of_cons; by left|done].
      * destruct (R2 x Hx) as (? & Hr & s' & ? & ?). split; [done|]. split; [by apply H5|]. exists s'.
        split; [apply elem_of_cons; by right|done].
    + intros x Hx Hr Hall. apply elem_of_app. destruct (H3 x) as [?|?]; [apply Hall, elem_of_cons; by left|done|done|by left|].
      right. apply R3; [done|done|]. intros s' Hs'. apply Hall, elem_of_cons. by right.
  - intros [= <-]. destruct Hp as (H1 & H2 & H3). split; [done|]. split.
    + intros x Hx. destruct (H2 x Hx) as (? & ? & ?). split; [done|]. split; [done|]. exists s. split; [apply elem_of_cons; by left|done].
    + intros x Hx Hr Hall. apply H3; [apply Hall, elem_of_cons; by left|done|done].
Qed.

(** Every page that is not the last shows new rows, so the list ends. *)
Lemma walk_ends p limit s after n :
  keyed s → (0 < limit)%nat →
  (length (List.filter (fun x => p x && in_range after x) s) ≤ n * limit)%nat → (0 < n)%nat →
  is_Some (walk p limit after (replicate n s)).
Proof.
  intros Hk Hlim. revert after. induction n as [|n IH]; intros after Hlen Hn; [lia|].
  cbn [replicate walk]. pose proof (page_spec p limit after s Hk Hlim) as Hp.
  destruct (cut_page limit (select p after (S limit) s)) as [page [k|]] eqn:Ec; [|eauto].
  destruct Hp as (H1 & H2 & H3 & H4 & H5 & H6).
  set (L := List.filter (fun x => p x && in_range after x) s) in *.
  set (L' := List.filter (fun x => p x && in_range (Some k) x) s).
  assert (length L' + limit ≤ length L)%nat as Hless.
  { rewrite <- H6, <- length_app. apply submseteq_length, NoDup_submseteq.
    - apply NoDup_app. split; [|split].
      + apply (NoDup_fmap_1 key). by apply keyed_filter.
      + intros x Hx Hpg. apply elem_of_lfilter in Hx as [_ [_ Hx]%andb_true_iff]. simpl in Hx. rewrite H4 in Hx; done.
      + by apply below_NoDup.
    - intros x [Hx|Hx]%elem_of_app; apply elem_of_lfilter.
      + apply elem_of_lfilter in Hx as [Hx [Hp Hr]%andb_true_iff]. split; [done|]. by rewrite Hp, H5.
      + destruct (H2 x Hx) as (Ha & Hb & Hc). split; [done|]. by rewrite Hb, Hc. }
  destruct (decide (n = 0%nat)) as [->|Hn0].
  - exfalso. unfold cut_page in Ec. case_bool_decide as Hb; [|done]. unfold select in Hb. fold L in Hb.
    rewrite length_take, merge_sort_Permutation in Hb. lia.
  - destruct (IH (Some k)) as [rest Hrest]; [fold L'; lia|lia|]. rewrite Hrest. simpl. eauto.
Qed.

End keyset.

(** ** Lists with cursors

    What a list promises to those who page through it.  A row is shown as
    [shown] says.  [names c k t]: at the time [t] the text [c] stands for the
    position below the key [k]; [fresh t t']: a cursor handed out at [t] can be
    used at [t']; [clock_ok]: times that can be written down. *)
Record paged (R V : Type) := {
  key_of : R → Time * Z;
  matching : R → bool;
  shown : R → V;
  page_size : nat;
  list_page : Time → list R → string → option (list V * string * bool);
  names : string → option (Time * Z) → Time → Prop;
  fresh : Time → Time → Prop;
  storable : R → Prop;
  clock_ok : Time → Prop
}.
Arguments key_of {R V}. Arguments matching {R V}. Arguments page_size {R V}. Arguments list_page {R V}. Arguments names {R V}.
Arguments fresh {R V}. Arguments storable {R V}. Arguments shown {R V}. Arguments clock_ok {R V}.

Class PagedLaws {R V} (L : paged R V) : Prop := {
  page_size_pos : (0 < page_size L)%nat;
  names_first t : names L "" None t;
  list_page_spec t s c after :
    clock_ok L t → Forall (storable L) s → names L c after t →
    let '(rows, next) := cut_page (key_of L) (page_size L) (select (key_of L) (matching L) after (S (page_size L)) s) in
    ∃ text, list_page L t s c = Some (map (shown L) rows, text, bool_decide (is_Some next)) ∧
            (∀ k t', next = Some k → fresh L t t' → names L text (Some k) t')
}.

Section follow.
Context {R V : Type} (L : paged R V) `{!PagedLaws L}.

(** A client that asks for page after page, at the times and with the contents
    of the store as given. *)
Fixpoint follow (cursor : string) (visits : list (Time * list R)) : option (list V) :=
  match visits with
  | [] => None
  | (t, s) :: visits =>
      '(rows, next, more) ← list_page L t s cursor;
      if more : bool then rest ← follow next visits; Some (rows ++ rest) else Some rows
  end.

(** Each cursor is used while it is fresh. *)
Fixpoint timely (visits : list (Time * list R)) : Prop :=
  match visits with
  | (t, _) :: ((t', _) :: _) as rest => fresh L t t' ∧ timely rest
  | _ => True
  end.

(** Contents of a store: distinct keys, rows that can be stored. *)
Definition sound_store (s : list R) : Prop := keyed (key_of L) s ∧ Forall (storable L) s.
Definition sound_visit (v : Time * list R) : Prop := clock_ok L v.1 ∧ sound_store v.2.

Lemma follow_walk visits cursor after :
  Forall sound_visit visits → timely visits →
  (∀ t s rest, visits = (t, s) :: rest → names L cursor after t) →
  follow cursor visits = map (shown L) <$> walk (key_of L) (matching L) (page_size L) after (map snd visits).
Proof.
  revert cursor after. induction visits as [|[t s] visits IH]; intros cursor after Hs Ht Hn; [done|].
  apply Forall_cons in Hs as [[Hc [Hk Hst]] Hs]. cbn [map walk follow snd].
  pose proof (list_page_spec t s cursor after Hc Hst (Hn t s visits eq_refl)) as Hp.
  destruct (cut_page _ _ _) as [rows next]. destruct Hp as (text & -> & Hnext). cbn [mbind option_bind].
  destruct next as [k|]; [|done]. simpl. rewrite (IH text (Some k)); [|done| |].
  - destruct (walk _ _ _ _ _); simpl; [|done]. by rewrite map_app.
  - destruct visits as [|[t' s'] visits]; [done|]. by destruct Ht.
  - intros t' s' rest ->. destruct Ht as [Hf _]. by eapply Hnext.
Qed.

(** What following the cursors is to give, while the store changes: rows in
    descending order, none twice, only rows that match, and every matching row
    that was in the store all along. *)
Definition lists_exactly (visits : list (Time * list R)) (rows : list R) : Prop :=
  StronglySorted (below (key_of L)) rows ∧
  (∀ x, x ∈ rows → matching L x = true ∧ ∃ v, v ∈ visits ∧ x ∈ v.2) ∧
  (∀ x, matching L x = true → (∀ v, v ∈ visits → x ∈ v.2) → x ∈ rows).

Lemma follow_exact visits vs :
  Forall sound_visit visits → timely visits → follow "" visits = Some vs →
  ∃ rows, vs = map (shown L) rows ∧ lists_exactly visits rows.
Proof.
  intros Hs Ht Hf. rewrite (follow_walk visits "" None) in Hf; [|done|done|intros; apply names_first].
  destruct (walk _ _ _ _ _) as [rows|] eqn:Hw; [|done]. injection Hf as <-. exists rows. split; [done|].
  apply walk_spec in Hw as (H1 & H2 & H3); [| |apply page_size_pos].
  - split; [done|]. split.
    + intros x Hx. destruct (H2 x Hx) as (? & _ & s & (v & -> & ?)%list_elem_of_fmap & ?). eauto.
    + intros x Hx Hall. apply H3; [done|done|]. intros s (v & -> & Hv)%list_elem_of_fmap. auto.
  - apply Forall_fmap. eapply Forall_impl; [exact Hs|]. by intros v (_ & ? & _).
Qed.

(** With enough pages the list ends, when the store stays as it is. *)
Lemma follow_ends s t n :
  sound_visit (t, s) → (0 < n)%nat → (length (List.filter (matching L) s) ≤ n * page_size L)%nat → fresh L t t →
  is_Some (follow "" (replicate n (t, s))).
Proof.
  intros Hs Hn Hlen Ht. rewrite (follow_walk _ "" None).
  - rewrite fmap_replicate. apply fmap_is_Some. apply walk_ends; [apply Hs|apply page_size_pos| |done].
    erewrite filter_ext; [exact Hlen|]. intros x. by rewrite andb_true_r.
  - apply Forall_forall. by intros v [-> _]%elem_of_replicate.
  - clear -Ht. induction n as [|[|n] IH]; [done|done|]. split; [done|]. exact IH.
  - intros. apply names_first.
Qed.

End follow.

(** ** Reading a page

    The shape of the repositories' list functions: the rows after the cursor, one
    more than the page, and a cursor for the last one shown if there was one
    more.  [encode] is [None] when the cursor cannot be encoded. *)
Section read.
Context {R V : Type} (key : R → Time * Z) (show : R → V).

Definition read_page (p : R → bool) (limit : nat) (after : option (Time * Z)) (encode : Time * Z → option string) (rows : list R)
  : option (list V * string * bool) :=
  let l := select key p after (S limit) rows in
  match cut_page key limit l with
  | (page, Some k) => text ← encode k; Some (map show page, text, true)
  | (page, None) => Some (map show page, "", false)
  end.

End read.
End Paging.
