(* ===== verification/RequestLogs.v ===== *)
(** * Request logs: filters, pages and the stream for an export

    [RequestLogFilter] and its normalisation in [admin/service.go], and the
    repository's queries of [store/admin.go]: the condition a filter stands for,
    the pages of [ListRequestLogs] with their signed cursors, and the rows of
    [StreamRequestLogs].  The case-insensitive [LIKE] of the database, [sha256],
    the MAC, JSON encoding and the formatting of a time are parameters. *)

From S2P Require Import Prelude GoStrings Base64 Json GatewayTypes AdminBase Paging.
From Stdlib Require Import Ascii.
From Stdlib Require String.

Module RequestLogs.
Import AdminBase.
Import GatewayTypes (RequestAttempt, ResponseTiming).

(** ** Filters *)

Record RequestLogFilter := {
  RL_Limit : Z; RL_Cursor : string; RL_Since : Time; RL_Before : Time; RL_RequestID : string; RL_Query : string;
  RL_StatusClass : string; RL_StatusCode : Z; RL_ProviderAccountID : Z; RL_RoutingPoolID : Z; RL_ClientKeyID : Z;
  RL_Model : string; RL_SessionID : string; RL_Error : string; RL_UsageSource : string; RL_RoutingPoolError : string;
  RL_RoutingPoolChain : string; RL_GatewayFallbacks : bool
}.

Definition RequestLogStatusAll : string := "all".
Definition RequestLogStatusSuccess : string := "success".
Definition RequestLogStatusClientError : string := "client_error".
Definition RequestLogStatusServerError : string := "server_error".
Definition MaxRequestLogExportRows : Z := 1000000.
Definition MaxRequestLogQueryLength : Z := 200.
Definition MaxRequestLogFilterValueLength : Z := 100.
Definition MaxRequestLogRoutingPoolChainLength : Z := 200.

Definition with_limit (n : Z) (f : RequestLogFilter) : RequestLogFilter :=
  {| RL_Limit := n; RL_Cursor := RL_Cursor f; RL_Since := RL_Since f; RL_Before := RL_Before f; RL_RequestID := RL_RequestID f;
     RL_Query := RL_Query f; RL_StatusClass := RL_StatusClass f; RL_StatusCode := RL_StatusCode f;
     RL_ProviderAccountID := RL_ProviderAccountID f; RL_RoutingPoolID := RL_RoutingPoolID f; RL_ClientKeyID := RL_ClientKeyID f;
     RL_Model := RL_Model f; RL_SessionID := RL_SessionID f; RL_Error := RL_Error f; RL_UsageSource := RL_UsageSource f;
     RL_RoutingPoolError := RL_RoutingPoolError f; RL_RoutingPoolChain := RL_RoutingPoolChain f;
     RL_GatewayFallbacks := RL_GatewayFallbacks f |}.

Definition with_cursor (c : string) (f : RequestLogFilter) : RequestLogFilter :=
  {| RL_Limit := RL_Limit f; RL_Cursor := c; RL_Since := RL_Since f; RL_Before := RL_Before f; RL_RequestID := RL_RequestID f;
     RL_Query := RL_Query f; RL_StatusClass := RL_StatusClass f; RL_StatusCode := RL_StatusCode f;
     RL_ProviderAccountID := RL_ProviderAccountID f; RL_RoutingPoolID := RL_RoutingPoolID f; RL_ClientKeyID := RL_ClientKeyID f;
     RL_Model := RL_Model f; RL_SessionID := RL_SessionID f; RL_Error := RL_Error f; RL_UsageSource := RL_UsageSource f;
     RL_RoutingPoolError := RL_RoutingPoolError f; RL_RoutingPoolChain := RL_RoutingPoolChain f;
     RL_GatewayFallbacks := RL_GatewayFallbacks f |}.

Definition too_long (s : string) (n : Z) : bool := bool_decide (n < go_len s).

Definition validStatusClass (s : string) : bool :=
  str_eq s RequestLogStatusAll || str_eq s RequestLogStatusSuccess || str_eq s RequestLogStatusClientError ||
  str_eq s RequestLogStatusServerError.

(** The texts are trimmed; times are instants. *)
Definition trimmed (f : RequestLogFilter) : RequestLogFilter :=
  let class := TrimSpace (RL_StatusClass f) in
  {| RL_Limit := RL_Limit f; RL_Cursor := TrimSpace (RL_Cursor f); RL_Since := RL_Since f; RL_Before := RL_Before f;
     RL_RequestID := TrimSpace (RL_RequestID f); RL_Query := TrimSpace (RL_Query f);
     RL_StatusClass := if str_eq class "" then RequestLogStatusAll else class; RL_StatusCode := RL_StatusCode f;
     RL_ProviderAccountID := RL_ProviderAccountID f; RL_RoutingPoolID := RL_RoutingPoolID f; RL_ClientKeyID := RL_ClientKeyID f;
     RL_Model := TrimSpace (RL_Model f); RL_SessionID := TrimSpace (RL_SessionID f); RL_Error := TrimSpace (RL_Error f);
     RL_UsageSource := TrimSpace (RL_UsageSource f); RL_RoutingPoolError := TrimSpace (RL_RoutingPoolError f);
     RL_RoutingPoolChain := TrimSpace (RL_RoutingPoolChain f); RL_GatewayFallbacks := RL_GatewayFallbacks f |}.

(** Every check ends in the same error, so their order does not show. *)
Definition normalizeRequestLogFilter (f : RequestLogFilter) : result aerror RequestLogFilter :=
  let f := trimmed f in
  if too_long (RL_Cursor f) 1024 || too_long (RL_Query f) MaxRequestLogQueryLength then Err ErrInvalidInput
  else if negb (time_is_zero (RL_Since f)) && negb (time_is_zero (RL_Before f)) && negb (bool_decide (RL_Since f < RL_Before f))
  then Err ErrInvalidInput
  else if existsb (fun s => too_long s MaxRequestLogFilterValueLength)
            [RL_RequestID f; RL_Model f; RL_SessionID f; RL_Error f; RL_UsageSource f; RL_RoutingPoolError f] ||
          too_long (RL_RoutingPoolChain f) MaxRequestLogRoutingPoolChainLength then Err ErrInvalidInput
  else if negb (validStatusClass (RL_StatusClass f)) then Err ErrInvalidInput
  else if negb (bool_decide (RL_StatusCode f = 0)) &&
          (bool_decide (RL_StatusCode f < 100) || bool_decide (599 < RL_StatusCode f)) then Err ErrInvalidInput
  else if bool_decide (RL_ProviderAccountID f < 0) || bool_decide (RL_RoutingPoolID f < 0) || bool_decide (RL_ClientKeyID f < 0)
  then Err ErrInvalidInput
  else Ok f.

(** ** Rows *)

(** A row of [request_logs] with the key and account that are joined to it: the
    key's name and prefix; the account's type, display name and name. *)
Record log_row := {
  l_id : Z; l_request_id : string; l_upstream_request_id : string; l_client_key_id : option Z; l_key : option (string * string);
  l_provider : string; l_provider_account_id : option Z; l_account : option (string * string * string);
  l_provider_account_type : string; l_provider_account_name : string;
  l_routing_pool_id : option Z; l_routing_pool_name : string; l_fallback_depth : Z; l_fallback_chain : string;
  l_routing_pool_error : string; l_model : string; l_session_id : string; l_route : string; l_method : string;
  l_status_code : Z; l_latency_ms : Z; l_error : string; l_input_tokens : Z; l_output_tokens : Z; l_total_tokens : Z;
  l_cached_input_tokens : Z; l_reasoning_tokens : Z; l_usage_source : string; l_cost : Z; l_matched : bool;
  l_attempt_count : Z; l_fallback_count : Z; l_attempts : string; l_truncated : bool; l_timing : ResponseTiming;
  l_created_at : Time
}.

Record RequestLog := {
  Log_ID : Z; Log_RequestID : string; Log_UpstreamRequestID : string; Log_ClientKey : string; Log_Provider : string;
  Log_ProviderAccountID : Z; Log_ProviderAccountType : string; Log_ProviderAccountName : string; Log_RoutingPoolID : Z;
  Log_RoutingPoolName : string; Log_FallbackDepth : Z; Log_FallbackChain : string; Log_RoutingPoolError : string;
  Log_Model : string; Log_SessionID : string; Log_Route : string; Log_Method : string; Log_StatusCode : Z; Log_LatencyMS : Z;
  Log_Error : string; Log_InputTokens : Z; Log_OutputTokens : Z; Log_TotalTokens : Z; Log_CachedInputTokens : Z;
  Log_ReasoningTokens : Z; Log_UsageSource : string; Log_EstimatedCostMicrousd : Z; Log_PricingMatched : bool;
  Log_GatewayAttemptCount : Z; Log_GatewayFallbackCount : Z; Log_Attempts : list RequestAttempt; Log_Truncated : bool;
  Log_ResponseTiming : ResponseTiming; Log_CreatedAt : Time
}.

(** [COALESCE(NULLIF(a, ''), ...)] *)
Definition nonempty (s : string) : option string := if str_eq s "" then None else Some s.
Definition coalesce (l : list (option string)) : string := default "" (List.find (fun x => bool_decide (is_Some x)) l ≫= id).

Section store.
Context (ilike : string → string → bool).
(** [json.Unmarshal] of the attempts: [None] is an error, [Some None] is null. *)
Context (UnmarshalAttempts : string → option (option (list RequestAttempt))).
Context (sha256 : list ascii → list ascii) (mac : list ascii → list ascii) (FormatTime : Time → string).
Context (Marshal : list (string * Json.json) → option (list ascii)).

(** [requestLogSelectSQL] and [scanRequestLog] *)
Definition scanRequestLog (r : log_row) : option RequestLog :=
  attempts ← (if str_eq (l_attempts r) "" then Some [] else default [] <$> UnmarshalAttempts (l_attempts r));
  Some {| Log_ID := l_id r; Log_RequestID := l_request_id r; Log_UpstreamRequestID := l_upstream_request_id r;
    Log_ClientKey := match l_key r with Some (name, prefix) => name +++ " (" +++ prefix +++ ")" | None => "" end;
    Log_Provider := l_provider r; Log_ProviderAccountID := default 0 (l_provider_account_id r);
    Log_ProviderAccountType := coalesce [nonempty (l_provider_account_type r); (fun a => a.1.1) <$> l_account r];
    Log_ProviderAccountName :=
      coalesce [nonempty (l_provider_account_name r); l_account r ≫= (fun a => nonempty a.1.2); (fun a => a.2) <$> l_account r];
    Log_RoutingPoolID := default 0 (l_routing_pool_id r); Log_RoutingPoolName := l_routing_pool_name r;
    Log_FallbackDepth := l_fallback_depth r; Log_FallbackChain := l_fallback_chain r; Log_RoutingPoolError := l_routing_pool_error r;
    Log_Model := l_model r; Log_SessionID := l_session_id r; Log_Route := l_route r; Log_Method := l_method r;
    Log_StatusCode := l_status_code r; Log_LatencyMS := l_latency_ms r; Log_Error := l_error r; Log_InputTokens := l_input_tokens r;
    Log_OutputTokens := l_output_tokens r; Log_TotalTokens := l_total_tokens r; Log_CachedInputTokens := l_cached_input_tokens r;
    Log_ReasoningTokens := l_reasoning_tokens r; Log_UsageSource := l_usage_source r; Log_EstimatedCostMicrousd := l_cost r;
    Log_PricingMatched := l_matched r; Log_GatewayAttemptCount := l_attempt_count r; Log_GatewayFallbackCount := l_fallback_count r;
    Log_Attempts := attempts; Log_Truncated := l_truncated r; Log_ResponseTiming := l_timing r; Log_CreatedAt := l_created_at r |}.

(** ** The condition *)

Definition status_matches (class : string) (code : Z) : bool :=
  if str_eq class RequestLogStatusSuccess then bool_decide (200 ≤ code) && bool_decide (code < 400)
  else if str_eq class RequestLogStatusClientError then bool_decide (400 ≤ code) && bool_decide (code < 500)
  else if str_eq class RequestLogStatusServerError then bool_decide (500 ≤ code)
  else true.

(** A condition that is there only when the filter has a value for it. *)
Definition when (c condition : bool) : bool := negb c || condition.

(** The columns a query is looked for in. *)
Definition searched (r : log_row) : list string :=
  [l_request_id r; match l_key r with Some (n, _) => n | None => "" end; match l_key r with Some (_, p) => p | None => "" end;
   l_provider r; l_provider_account_type r; l_provider_account_name r; match l_account r with Some (_, d, _) => d | None => "" end;
   match l_account r with Some (_, _, n) => n | None => "" end; l_model r; l_session_id r; l_route r; l_method r; l_fallback_chain r;
   l_routing_pool_error r; l_error r; FormatInt (l_status_code r)].

(** [requestLogFilterSQL]: the rows it selects. *)
Definition requestLogFilterSQL (f : RequestLogFilter) (r : log_row) : bool :=
  let text (value column : string) := when (negb (str_eq value "")) (str_eq column value) in
  status_matches (RL_StatusClass f) (l_status_code r) && text (RL_RequestID f) (l_request_id r) &&
  when (negb (time_is_zero (RL_Since f))) (bool_decide (RL_Since f ≤ l_created_at r)) &&
  when (negb (time_is_zero (RL_Before f))) (bool_decide (l_created_at r < RL_Before f)) &&
  when (bool_decide (0 < RL_StatusCode f)) (bool_decide (l_status_code r = RL_StatusCode f)) &&
  when (bool_decide (0 < RL_ProviderAccountID f)) (bool_decide (l_provider_account_id r = Some (RL_ProviderAccountID f))) &&
  when (bool_decide (0 < RL_RoutingPoolID f)) (bool_decide (l_routing_pool_id r = Some (RL_RoutingPoolID f))) &&
  when (bool_decide (0 < RL_ClientKeyID f)) (bool_decide (l_client_key_id r = Some (RL_ClientKeyID f))) &&
  text (RL_Model f) (l_model r) && text (RL_SessionID f) (l_session_id r) && text (RL_Error f) (l_error r) &&
  text (RL_UsageSource f) (l_usage_source r) && text (RL_RoutingPoolError f) (l_routing_pool_error r) &&
  text (RL_RoutingPoolChain f) (l_fallback_chain r) && when (RL_GatewayFallbacks f) (bool_decide (0 < l_fallback_count r)) &&
  when (negb (str_eq (RL_Query f) "")) (existsb (fun c => ilike c ("%" +++ RL_Query f +++ "%")) (searched r)).

(** ** Cursors *)

Record requestLogCursor := { C_Version : Z; C_CreatedAt : Time; C_ID : Z; C_FilterDigest : string }.

Definition requestLogCursorVersion : Z := 1.

Definition jint (n : Z) : Json.json := Json.JNumber (bool_decide (n < 0)) (Z.abs n) 0.

(** Everything of the filter but the limit and the cursor. *)
Definition requestLogFilterDigest (f : RequestLogFilter) : string :=
  let payload := Marshal (
    [("since", Json.JString (if time_is_zero (RL_Since f) then "" else FormatTime (RL_Since f)))] ++
    (if time_is_zero (RL_Before f) then [] else [("before", Json.JString (FormatTime (RL_Before f)))]) ++
    [("requestId", Json.JString (RL_RequestID f)); ("query", Json.JString (RL_Query f)); ("statusClass", Json.JString (RL_StatusClass f));
     ("statusCode", jint (RL_StatusCode f)); ("providerAccountId", jint (RL_ProviderAccountID f));
     ("routingPoolId", jint (RL_RoutingPoolID f)); ("clientKeyId", jint (RL_ClientKeyID f)); ("model", Json.JString (RL_Model f));
     ("sessionId", Json.JString (RL_SessionID f)); ("error", Json.JString (RL_Error f)); ("usageSource", Json.JString (RL_UsageSource f));
     ("routingPoolError", Json.JString (RL_RoutingPoolError f)); ("routingPoolChain", Json.JString (RL_RoutingPoolChain f));
     ("gatewayFallbacks", Json.JBool (RL_GatewayFallbacks f))]) in
  Base64.EncodeToString Base64.RawURLEncoding (sha256 (default [] payload)).

Context (MarshalCursor : requestLogCursor → option (list ascii)) (UnmarshalCursor : list ascii → option requestLogCursor).

Definition encodeRequestLogCursor (c : requestLogCursor) : option string := Paging.encodeCursor MarshalCursor mac c.

Definition decodeRequestLogCursor (value : string) (f : RequestLogFilter) : result aerror requestLogCursor :=
  match Paging.decodeCursor UnmarshalCursor mac value with
  | Some c =>
      if negb (bool_decide (C_Version c = requestLogCursorVersion)) || time_is_zero (C_CreatedAt c) || bool_decide (C_ID c < 1) ||
         negb (str_eq (C_FilterDigest c) (requestLogFilterDigest f)) then Err ErrInvalidInput
      else Ok c
  | None => Err ErrInvalidInput
  end.

(** ** Listing *)

Definition row_key (r : log_row) : Time * Z := (l_created_at r, l_id r).

Record RequestLogPage := { Logs : list RequestLog; NextCursor : string; HasMore : bool }.

(** [fails] is an error of the database. *)
Definition repo_ListRequestLogs (f : RequestLogFilter) (fails : bool) (d : list log_row) : result aerror RequestLogPage :=
  if bool_decide (RL_Limit f < 1) || bool_decide (200 < RL_Limit f) then Err ErrInvalidInput
  else
    match (if str_eq (RL_Cursor f) "" then Ok None
           else match decodeRequestLogCursor (RL_Cursor f) f with Ok c => Ok (Some (C_CreatedAt c, C_ID c)) | Err e => Err e end) with
    | Err e => Err e
    | Ok after =>
        if fails then Err ErrStore
        else
          let limit := Z.to_nat (RL_Limit f) in
          match mapM scanRequestLog (Paging.select row_key (requestLogFilterSQL f) after (S limit) d) with
          | None => Err ErrStore
          | Some logs =>
              if bool_decide (limit < length logs)%nat then
                let shown := take limit logs in
                match last shown with
                | None => Err ErrStore
                | Some l =>
                    match encodeRequestLogCursor
                            {| C_Version := requestLogCursorVersion; C_CreatedAt := Log_CreatedAt l; C_ID := Log_ID l;
                               C_FilterDigest := requestLogFilterDigest f |} with
                    | Some text => Ok {| Logs := shown; NextCursor := text; HasMore := true |}
                    | None => Err ErrStore
                    end
                end
              else Ok {| Logs := logs; NextCursor := ""; HasMore := false |}
          end
    end.

(** [Service.ListRequestLogs] *)
Definition clamp_limit (n : Z) : Z := let n := if bool_decide (n ≤ 0) then 50 else n in if bool_decide (200 < n) then 200 else n.

Definition ListRequestLogs (f : RequestLogFilter) (fails : bool) (d : list log_row) : result aerror RequestLogPage :=
  match normalizeRequestLogFilter (with_limit (clamp_limit (RL_Limit f)) f) with
  | Err e => Err e
  | Ok f => repo_ListRequestLogs f fails d
  end.

(** ** Streaming *)

Record RequestLogExportResult := { RowCount : Z; LimitReached : bool }.

(** The answers of [rows.Next], [ctx.Err] and [scanRequestLog], for each row. *)
Inductive next_row := NextRow (expired : bool) (log : option RequestLog) | NoRow (fails : bool).

(** The rows a query that does not fail goes through. *)
Definition stream_rows (f : RequestLogFilter) (maxRows : Z) (d : list log_row) : list (option RequestLog) :=
  map scanRequestLog (Paging.select row_key (requestLogFilterSQL f) None (S (Z.to_nat maxRows)) d).

(** The checks of [Service.StreamRequestLogs] and of the repository. *)
Definition stream_filter (f : RequestLogFilter) (maxRows : Z) : result aerror RequestLogFilter :=
  if bool_decide (maxRows ≤ 0) || bool_decide (MaxRequestLogExportRows < maxRows) then Err ErrInvalidInput
  else
    match normalizeRequestLogFilter f with
    | Err _ => Err ErrInvalidInput
    | Ok f => if negb (str_eq (RL_Cursor f) "") || time_is_zero (RL_Since f) || time_is_zero (RL_Before f)
              then Err ErrInvalidInput else Ok f
    end.

(** ** Pages *)

Lemma normalize_ok f f' : normalizeRequestLogFilter f = Ok f' → f' = trimmed f.
Proof. unfold normalizeRequestLogFilter. intros H. repeat (case_match; [done|]). by injection H. Qed.

(** A cursor changes nothing else of a filter. *)
Lemma normalize_cursor f f' c :
  normalizeRequestLogFilter f = Ok f' → TrimSpace c = c → too_long c 1024 = false →
  normalizeRequestLogFilter (with_cursor c f) = Ok (with_cursor c f').
Proof.
  intros H Ht Hl. pose proof (normalize_ok _ _ H) as ->. revert H. unfold normalizeRequestLogFilter.
  assert (trimmed (with_cursor c f) = with_cursor c (trimmed f)) as ->.
  { destruct f. unfold trimmed, with_cursor. cbn -[TrimSpace]. by rewrite Ht. }
  generalize (trimmed f) as g. intros g. destruct g. cbn -[too_long validStatusClass existsb]. rewrite Hl. cbn [orb].
  destruct (too_long RL_Cursor0 1024), (too_long RL_Query0 MaxRequestLogQueryLength); cbn [orb]; try done.
  repeat (case_match; [done|]). done.
Qed.


Lemma digest_cursor f c : requestLogFilterDigest (with_cursor c f) = requestLogFilterDigest f.
Proof. by destruct f. Qed.

Lemma decode_cursor_filter f c text : decodeRequestLogCursor text (with_cursor c f) = decodeRequestLogCursor text f.
Proof. by destruct f. Qed.

(** The filter that is used, when [f] is valid. *)
Definition effective (f : RequestLogFilter) : option RequestLogFilter :=
  match normalizeRequestLogFilter (with_limit (clamp_limit (RL_Limit f)) (with_cursor "" f)) with Ok f => Some f | Err _ => None end.

Definition cursor_ok (c : requestLogCursor) : Prop :=
  C_Version c = 1 ∧ 0 < C_CreatedAt c < 10000 * 366 * 24 * 3600 * Second ∧ 1 ≤ C_ID c < 2 ^ 63 ∧ go_len (C_FilterDigest c) = 43.

(** The list of the requests that match a filter. *)
Definition request_log_list (f f0 : RequestLogFilter) : Paging.paged log_row (option RequestLog) := {|
  Paging.key_of := row_key;
  Paging.matching := requestLogFilterSQL f0;
  Paging.shown := scanRequestLog;
  Paging.page_size := Z.to_nat (RL_Limit f0);
  Paging.list_page := fun _ d c =>
    match ListRequestLogs (with_cursor c f) false d with
    | Ok p => Some (map Some (Logs p), NextCursor p, HasMore p)
    | Err _ => None
    end;
  Paging.names := fun c after _ =>
    match after with
    | None => c = ""
    | Some k => c ≠ "" ∧ TrimSpace c = c ∧ too_long c 1024 = false ∧
        decodeRequestLogCursor c f0 =
          Ok {| C_Version := 1; C_CreatedAt := k.1; C_ID := k.2; C_FilterDigest := requestLogFilterDigest f0 |}
    end;
  Paging.fresh := fun _ _ => True;
  Paging.storable := fun r => is_Some (scanRequestLog r) ∧ 0 < l_created_at r < 10000 * 366 * 24 * 3600 * Second ∧ 1 ≤ l_id r < 2 ^ 63;
  Paging.clock_ok := fun _ => True
|}.

(** JSON encodes and decodes a cursor, in a text that is not too long; hashes
    and codes have 32 bytes. *)
Class CursorCodec : Prop := {
  codec_cursor c : cursor_ok c →
    ∃ payload, MarshalCursor c = Some payload ∧ payload ≠ [] ∧ UnmarshalCursor payload = Some c ∧ (length payload ≤ 700)%nat;
  codec_mac m : length (mac m) = 32%nat;
  codec_sha m : length (sha256 m) = 32%nat
}.

Context `{Hcodec : !CursorCodec}.

Lemma digest_length f : go_len (requestLogFilterDigest f) = 43.
Proof. unfold requestLogFilterDigest. rewrite Base64.go_len_EncodeToString, codec_sha. reflexivity. Qed.

Lemma encode_names c :
  cursor_ok c → ∃ text, encodeRequestLogCursor c = Some text ∧ text ≠ "" ∧ TrimSpace text = text ∧ too_long text 1024 = false ∧
    Paging.decodeCursor UnmarshalCursor mac text = Some c.
Proof.
  intros Hok. destruct (codec_cursor c Hok) as (payload & Hm & Hne & Hu & Hl).
  destruct (Paging.encode_text MarshalCursor UnmarshalCursor mac c payload) as (text & ? & ? & ? & ? & ?); [done..|apply codec_mac|done|].
  exists text. split; [done|]. split; [done|]. split; [done|]. split; [|done]. unfold too_long. apply bool_decide_eq_false_2. lia.
Qed.

Lemma scan_key r l : scanRequestLog r = Some l → (Log_CreatedAt l, Log_ID l) = row_key r.
Proof. unfold scanRequestLog. intros H. destruct (if str_eq _ _ then _ else _); [|done]. simpl in H. by injection H as <-. Qed.

Lemma scan_all rows :
  Forall (fun r => is_Some (scanRequestLog r)) rows →
  ∃ logs, mapM scanRequestLog rows = Some logs ∧ map Some logs = map scanRequestLog rows.
Proof.
  induction 1 as [|r rows [l Hl] _ (logs & Hm & Hs)]; [by exists []|]. exists (l :: logs). simpl. rewrite Hl, Hm. simpl. by rewrite Hs.
Qed.

Lemma last_key logs rows l :
  map Some logs = map scanRequestLog rows → last logs = Some l →
  (row_key <$> last rows) = Some (Log_CreatedAt l, Log_ID l).
Proof.
  intros Hm Hl. apply last_Some in Hl as [k ->]. destruct (last rows) as [r|] eqn:Er.
  - apply last_Some in Er as [rs ->]. rewrite !map_app in Hm. simpl in Hm. apply app_inj_tail in Hm as [_ Hm].
    simpl. f_equal. symmetry. by apply scan_key.
  - apply last_None in Er as ->. rewrite map_app in Hm. by destruct k.
Qed.

Lemma effective_cursor f f0 c :
  effective f = Some f0 → TrimSpace c = c → too_long c 1024 = false →
  normalizeRequestLogFilter (with_limit (clamp_limit (RL_Limit (with_cursor c f))) (with_cursor c f)) = Ok (with_cursor c f0).
Proof.
  unfold effective. destruct (normalizeRequestLogFilter (with_limit _ _)) as [g|] eqn:E; [|done]. intros [= <-] Ht Hl.
  apply (normalize_cursor _ _ c) in E; [|done..]. by destruct f.
Qed.

Lemma effective_limit f f0 : effective f = Some f0 → 1 ≤ RL_Limit f0 ≤ 200 ∧ RL_Cursor f0 = "".
Proof.
  unfold effective. destruct (normalizeRequestLogFilter _) as [g|] eqn:E; [|done]. intros [= <-]. apply normalize_ok in E as ->.
  destruct f. cbn. split; [|done]. unfold clamp_limit. repeat case_bool_decide; lia.
Qed.

Lemma storable_select f f0 after n d :
  Forall (Paging.storable (request_log_list f f0)) d →
  Forall (Paging.storable (request_log_list f f0)) (Paging.select row_key (requestLogFilterSQL f0) after n d).
Proof.
  rewrite !Forall_forall. intros H x Hx. apply H. unfold Paging.select in Hx. apply Paging.elem_of_take_l, Paging.elem_of_sorted in Hx as (? & _). done.
Qed.

Lemma request_log_list_laws f f0 : effective f = Some f0 → Paging.PagedLaws (request_log_list f f0).
Proof.
  intros Hf. destruct (effective_limit _ _ Hf) as [Hlim Hcur]. split; [cbn; lia|done|].
  intros t d c after _ Hst Hn. cbn [Paging.key_of Paging.page_size Paging.matching Paging.shown Paging.list_page request_log_list].
  assert (TrimSpace c = c ∧ too_long c 1024 = false ∧
    (if str_eq (RL_Cursor (with_cursor c f0)) "" then Ok None
     else match decodeRequestLogCursor (RL_Cursor (with_cursor c f0)) (with_cursor c f0) with
          | Ok c => Ok (Some (C_CreatedAt c, C_ID c)) | Err e => Err e end) = Ok after) as (Ht & Hl & Hafter).
  { destruct after as [k|]; cbn in Hn; [|by subst c]. destruct Hn as (Hne & Ht & Hl & Hd). split; [done|]. split; [done|].
    cbn [RL_Cursor with_cursor]. unfold str_eq. rewrite bool_decide_eq_false_2 by done. rewrite decode_cursor_filter, Hd. by destruct k. }
  unfold ListRequestLogs. rewrite (effective_cursor f f0) by done. unfold repo_ListRequestLogs.
  rewrite Hafter. cbn [RL_Limit with_cursor]. rewrite !bool_decide_eq_false_2 by lia. cbn [orb].
  change (requestLogFilterSQL (with_cursor c f0)) with (requestLogFilterSQL f0).
  set (n := Z.to_nat (RL_Limit f0)). set (rows := Paging.select _ _ _ _ _).
  pose proof (storable_select f f0 after (S n) d Hst) as Hrows. fold rows in Hrows.
  destruct (scan_all rows) as (logs & Hm & Hs); [eapply Forall_impl; [exact Hrows|]; by intros r [? _]|]. rewrite Hm.
  assert (length logs = length rows) as Hlen by (apply (f_equal length) in Hs; by rewrite !length_map in Hs).
  unfold Paging.cut_page. rewrite Hlen. case_bool_decide as Hmore.
  - assert (map Some (take n logs) = map scanRequestLog (take n rows)) as Hs' by (rewrite <- !firstn_map; by rewrite Hs).
    destruct (last (take n logs)) as [l|] eqn:El.
    2:{ apply last_None in El. apply (f_equal length) in El. rewrite length_take in El. simpl in El. lia. }
    pose proof (last_key _ _ _ Hs' El) as Hk. rewrite Hk. rewrite digest_cursor.
    destruct (encode_names {| C_Version := requestLogCursorVersion; C_CreatedAt := Log_CreatedAt l; C_ID := Log_ID l;
                              C_FilterDigest := requestLogFilterDigest f0 |}) as (text & He & Hne & Htr & Hlong & Hdec).
    { destruct (last (take n rows)) as [r|] eqn:Er; [|done]. injection Hk as Hk1 Hk2. apply last_Some in Er as [rs Er].
      rewrite Forall_forall in Hrows. destruct (Hrows r) as (_ & ? & ?).
      { apply (Paging.elem_of_take_l n). rewrite Er. apply elem_of_app. right. by apply list_elem_of_singleton. }
      unfold row_key in *. split; [done|]. cbn. rewrite <- Hk1, <- Hk2. by rewrite digest_length. }
    rewrite He. exists text. cbn [Logs NextCursor HasMore]. rewrite Hs'. split; [done|]. intros k t' [= <-] _. cbn.
    split; [done|]. split; [done|]. split; [done|]. unfold decodeRequestLogCursor. rewrite Hdec. cbn.
    unfold str_eq. rewrite (bool_decide_eq_true_2 (requestLogFilterDigest f0 = _)) by done.
    destruct (last (take n rows)) as [r|] eqn:Er; [|done]. injection Hk as Hk1 Hk2. apply last_Some in Er as [rs Er].
    rewrite Forall_forall in Hrows. destruct (Hrows r) as (_ & ? & ?).
    { apply (Paging.elem_of_take_l n). rewrite Er. apply elem_of_app. right. by apply list_elem_of_singleton. }
    unfold time_is_zero. rewrite <- Hk1, <- Hk2.
    rewrite (bool_decide_eq_false_2 (l_created_at r = 0)), (bool_decide_eq_false_2 (l_id r < 1)) by lia. done.
  - exists "". cbn [Logs NextCursor HasMore]. rewrite Hs. split; [done|]. by intros k t' [=].
Qed.

(** [C14] Paging through the request logs misses nothing and repeats nothing.  A client that starts without a cursor and
    follows the cursors of [ListRequestLogs], while logs are added and deleted, sees them from the newest to the oldest,
    none twice, only logs its filter selects, and every such log that was in the store all along; and when the store does
    not change, it reaches the end after as many pages as the logs fill. *)
Theorem request_log_pages_exact f f0 :
  effective f = Some f0 →
  (∀ visits logs,
     Forall (Paging.sound_visit (request_log_list f f0)) visits →
     Paging.follow (request_log_list f f0) "" visits = Some logs →
     ∃ rows, logs = map scanRequestLog rows ∧ Paging.lists_exactly (request_log_list f f0) visits rows) ∧
  (∀ d t n,
     Paging.sound_store (request_log_list f f0) d → (0 < n)%nat →
     (length (List.filter (requestLogFilterSQL f0) d) ≤ n * Z.to_nat (RL_Limit f0))%nat →
     is_Some (Paging.follow (request_log_list f f0) "" (replicate n (t, d)))).
Proof.
  intros Hf. pose proof (request_log_list_laws f f0 Hf). split.
  - intros visits logs Hs Hfol. eapply (Paging.follow_exact (request_log_list f f0)); [done| |done].
    clear. induction visits as [|[t d] [|[t' d'] visits] IH]; [done|done|]. split; [done|exact IH].
  - intros d t n Hs Hn Hlen. by apply (Paging.follow_ends (request_log_list f f0)).
Qed.

End store.

Module Demo.
(** Numbers as bytes, the lowest first. *)
Fixpoint bytes_of (n : nat) (z : Z) : list ascii :=
  match n with O => [] | S n => Base64.char_of (z mod 256) :: bytes_of n (z / 256) end.
Definition of_bytes (l : list ascii) : Z := foldr (fun a z => byte_of a + 256 * z) 0 l.

Lemma of_bytes_of n z : 0 ≤ z < 256 ^ Z.of_nat n → of_bytes (bytes_of n z) = z.
Proof.
  revert z. induction n as [|n IH]; intros z Hz; [cbn in *; lia|]. cbn [bytes_of of_bytes foldr].
  change (foldr _ 0 (bytes_of n (z / 256))) with (of_bytes (bytes_of n (z / 256))).
  rewrite IH, Base64.byte_char_of by (try apply Z.mod_pos_bound; rewrite ?Nat2Z.inj_succ, ?Z.pow_succ_r in *;
    try (split; [apply Z.div_pos|apply Z.div_lt_upper_bound]); lia).
  pose proof (Z.div_mod z 256 ltac:(lia)). lia.
Qed.

Lemma length_bytes_of n z : length (bytes_of n z) = n.
Proof. revert z. induction n as [|n IH]; intros z; [done|]. cbn. by rewrite IH. Qed.

Definition marshal (c : requestLogCursor) : option (list ascii) :=
  Some (bytes_of 16 (C_CreatedAt c) ++ bytes_of 8 (C_ID c) ++ String.list_ascii_of_string (C_FilterDigest c)).
Definition unmarshal (l : list ascii) : option requestLogCursor :=
  Some {| C_Version := 1; C_CreatedAt := of_bytes (take 16 l); C_ID := of_bytes (take 8 (drop 16 l));
          C_FilterDigest := String.string_of_list_ascii (drop 24 l) |}.
Definition hash (l : list ascii) : list ascii := bytes_of 32 (of_bytes l mod 1000003).

Lemma string_list_length s : length (String.list_ascii_of_string s) = String.length s.
Proof. induction s as [|a s IH]; [done|]. cbn. by rewrite IH. Qed.

#[export] Instance demo_codec : CursorCodec hash hash marshal unmarshal.
Proof.
  split; [|intros; apply length_bytes_of..].
  intros [v t i dg] (Hv & Ht & Hi & Hd). cbn in *. eexists. split; [done|]. split; [done|].
  set (d := String.list_ascii_of_string dg). assert (length d = 43%nat) as Hl by (unfold d, go_len in *; rewrite string_list_length; lia).
  split.
  - unfold unmarshal. rewrite take_app_length', drop_app_length' by (by rewrite length_bytes_of).
    rewrite take_app_length' by (by rewrite length_bytes_of).
    rewrite app_assoc, drop_app_length' by (by rewrite length_app, !length_bytes_of).
    assert (10000 * 366 * 24 * 3600 * Second < 256 ^ Z.of_nat 16) by reflexivity. assert (2 ^ 63 < 256 ^ Z.of_nat 8) by reflexivity.
    rewrite !of_bytes_of by (cbn [C_CreatedAt C_ID]; lia). unfold d. by rewrite String.string_of_list_ascii_of_string, Hv.
  - rewrite !length_app, !length_bytes_of. cbn [C_FilterDigest]. fold d. lia.
Qed.

Definition filter : RequestLogFilter :=
  {| RL_Limit := 2; RL_Cursor := ""; RL_Since := 0; RL_Before := 0; RL_RequestID := ""; RL_Query := ""; RL_StatusClass := " success ";
     RL_StatusCode := 0; RL_ProviderAccountID := 0; RL_RoutingPoolID := 0; RL_ClientKeyID := 0; RL_Model := ""; RL_SessionID := "";
     RL_Error := ""; RL_UsageSource := ""; RL_RoutingPoolError := ""; RL_RoutingPoolChain := ""; RL_GatewayFallbacks := false |}.
Definition used : RequestLogFilter := trimmed filter.

Definition row (id t code : Z) : log_row :=
  {| l_id := id; l_request_id := "r"; l_upstream_request_id := ""; l_client_key_id := Some 1; l_key := Some ("key", "n2_abc");
     l_provider := "openai"; l_provider_account_id := None; l_account := None; l_provider_account_type := ""; l_provider_account_name := "";
     l_routing_pool_id := None; l_routing_pool_name := ""; l_fallback_depth := 0; l_fallback_chain := ""; l_routing_pool_error := "";
     l_model := "m"; l_session_id := ""; l_route := "/v1/responses"; l_method := "POST"; l_status_code := code; l_latency_ms := 5;
     l_error := ""; l_input_tokens := 0; l_output_tokens := 0; l_total_tokens := 0; l_cached_input_tokens := 0; l_reasoning_tokens := 0;
     l_usage_source := ""; l_cost := 0; l_matched := false; l_attempt_count := 1; l_fallback_count := 0; l_attempts := "";
     l_truncated := false; l_timing := GatewayTypes.no_timing; l_created_at := t |}.

(** Between the pages a log is added and a shown one deleted. *)
Definition store1 : list log_row := [row 1 100 200; row 2 100 200; row 3 101 500; row 4 105 200; row 5 102 201].
Definition store2 : list log_row := [row 1 100 200; row 2 100 200; row 3 101 500; row 5 102 201; row 6 109 200].

Abbreviation demo_list :=
  (request_log_list (fun _ _ => true) (fun _ => None) hash hash (fun _ => "") (fun _ => None) marshal unmarshal filter used).
Abbreviation demo_scan := (scanRequestLog (fun _ => None)).

Lemma request_log_pages_demo :
  ∃ logs rows, Paging.follow demo_list "" [(1, store1); (2, store2)] = Some logs ∧
    logs = map demo_scan [row 4 105 200; row 5 102 201; row 2 100 200; row 1 100 200] ∧
    logs = map demo_scan rows ∧ Paging.lists_exactly demo_list [(1, store1); (2, store2)] rows.
Proof.
  eexists _. destruct (request_log_pages_exact (fun _ _ => true) (fun _ => None) hash hash (fun _ => "") (fun _ => None)
    marshal unmarshal filter used ltac:(vm_compute; reflexivity)) as [H _].
  destruct (H [(1, store1); (2, store2)] (map demo_scan [row 4 105 200; row 5 102 201; row 2 100 200; row 1 100 200])) as (rows & Hr & Hl).
  - repeat constructor; try (vm_compute; congruence); try (cbn; lia); try (eexists; reflexivity); set_solver.
  - vm_compute. reflexivity.
  - exists rows. split; [vm_compute; reflexivity|]. split; [reflexivity|]. split; [exact Hr|exact Hl].
Defined.
End Demo.
End RequestLogs.
