(* ===== verification/ManagementLists.v ===== *)
(** * Lists of the administration: keys, routing pools and system events

    [normalizeManagementListFilter] and [ListSystemEvents] of [admin/service.go],
    the pages of keys and routing pools of [store/admin.go] with their signed and
    expiring cursors, and the repository of system events of
    [store/system_event.go].  The [LIKE] of the database, [sha256], the MACs and
    JSON encoding are parameters. *)

From S2P Require Import Prelude GoStrings Base64 Json AdminBase AdminKeys SystemEvents Paging.
From Stdlib Require Import Ascii.
From Stdlib Require String.

Module ManagementLists.
Import AdminBase.
Import SystemEvents (Event, serror).

(** ** Texts *)

(** [strings.Fields], with the word so far in reverse. *)
Fixpoint fields_bytes (l cur : list ascii) : list (list ascii) :=
  let word := if bool_decide (cur = []) then [] else [rev cur] in
  match l with
  | [] => word
  | a :: l1 =>
      if space1 a then word ++ fields_bytes l1 []
      else match l1 with
      | [] => fields_bytes l1 (a :: cur)
      | b :: l2 =>
          if space2 a b then word ++ fields_bytes l2 []
          else match l2 with
          | [] => fields_bytes l1 (a :: cur)
          | c :: l3 => if space3 a b c then word ++ fields_bytes l3 [] else fields_bytes l1 (a :: cur)
          end
      end
  end.
Definition Fields (s : string) : list string :=
  map String.string_of_list_ascii (fields_bytes (String.list_ascii_of_string s) []).

(** [utf8.RuneCountInString]: a byte that starts no character counts as one. *)
Fixpoint rune_count (fuel : nat) (l : list ascii) : Z :=
  match fuel, l with
  | S fuel, _ :: l1 => 1 + match Json.utf8_length l with Some n => rune_count fuel (drop n l) | None => rune_count fuel l1 end
  | _, _ => 0
  end.
Definition RuneCountInString (s : string) : Z := rune_count (String.length s) (String.list_ascii_of_string s).

(** ** Filters of keys and pools *)

Record ManagementListFilter := { F_Limit : Z; F_Cursor : string; F_Query : string }.

Definition DefaultManagementPageSize : Z := 50.
Definition MaxManagementPageSize : Z := 100.
Definition MaxManagementQueryLength : Z := 200.

Definition normalizeManagementListFilter (f : ManagementListFilter) : result aerror ManagementListFilter :=
  let limit := if bool_decide (F_Limit f = 0) then DefaultManagementPageSize else F_Limit f in
  let cursor := TrimSpace (F_Cursor f) in
  let query := ToLower (Join (Fields (F_Query f)) " ") in
  if bool_decide (limit < 1) || bool_decide (MaxManagementPageSize < limit) || bool_decide (2048 < go_len cursor) ||
     bool_decide (MaxManagementQueryLength < RuneCountInString query) then Err ErrInvalidInput
  else Ok {| F_Limit := limit; F_Cursor := cursor; F_Query := query |}.

Section store.
(** [like column pattern], and [lower(column) LIKE pattern]. *)
Context (ilike like_lower : string → string → bool).
Context (sha256 mac : list ascii → list ascii).

(** ** Cursors of keys and pools *)

Record managementCursor := {
  M_Version : Z; M_Resource : string; M_CreatedAt : Time; M_ID : Z; M_FilterDigest : string; M_ExpiresAt : Time
}.

Definition managementCursorVersion : Z := 1.
Definition managementCursorTTL : Duration := 24 * Hour.

Context (MarshalCursor : managementCursor → option (list ascii)) (UnmarshalCursor : list ascii → option managementCursor).

Definition managementFilterDigest (resource : string) (f : ManagementListFilter) : string :=
  Base64.EncodeToString Base64.RawURLEncoding
    (sha256 (String.list_ascii_of_string resource ++ ascii_of_N 0 :: String.list_ascii_of_string (F_Query f))).

Definition encodeManagementCursor (c : managementCursor) : option string := Paging.encodeCursor MarshalCursor mac c.

Definition decodeManagementCursor (value resource : string) (f : ManagementListFilter) (now : Time) : result aerror managementCursor :=
  match Paging.decodeCursor UnmarshalCursor mac value with
  | Some c =>
      if negb (bool_decide (M_Version c = managementCursorVersion)) || negb (str_eq (M_Resource c) resource) ||
         time_is_zero (M_CreatedAt c) || bool_decide (M_ID c < 1) || time_is_zero (M_ExpiresAt c) ||
         negb (bool_decide (now < M_ExpiresAt c)) || negb (str_eq (M_FilterDigest c) (managementFilterDigest resource f))
      then Err ErrInvalidCursor else Ok c
  | None => Err ErrInvalidCursor
  end.

(** [managementPageWhere]: the position the cursor names. *)
Definition managementPageWhere (f : ManagementListFilter) (resource : string) (now : Time) : result aerror (option (Time * Z)) :=
  if str_eq (F_Cursor f) "" then Ok None
  else match decodeManagementCursor (F_Cursor f) resource f now with
       | Ok c => Ok (Some (M_CreatedAt c, M_ID c))
       | Err e => Err e
       end.

(** The cursor for the last row of a page. *)
Definition next_cursor (resource : string) (f : ManagementListFilter) (clock : Time) (k : Time * Z) : option string :=
  encodeManagementCursor {| M_Version := managementCursorVersion; M_Resource := resource; M_CreatedAt := k.1; M_ID := k.2;
                            M_FilterDigest := managementFilterDigest resource f; M_ExpiresAt := clock + managementCursorTTL |}.

(** A page of rows that are read with what is joined to them; [fails] is an
    error of the database. *)
Definition management_page {R : Type} (resource : string) (key : R → Time * Z) (p : R → bool) (f : ManagementListFilter)
    (now clock : Time) (fails : bool) (rows : list R) : result aerror (list R * string * bool) :=
  if bool_decide (F_Limit f < 1) || bool_decide (MaxManagementPageSize < F_Limit f) then Err ErrInvalidInput
  else
    match managementPageWhere f resource now with
    | Err e => Err e
    | Ok after =>
        if fails then Err ErrStore
        else match Paging.read_page key id p (Z.to_nat (F_Limit f)) after (next_cursor resource f clock) rows with
             | Some page => Ok page
             | None => Err ErrStore
             end
    end.

Definition contains_pattern (f : ManagementListFilter) : string := "%" +++ F_Query f +++ "%".

(** ** Routing pools *)

Definition pool_matches (f : ManagementListFilter) (p : AdminKeys.RoutingPool) : bool :=
  str_eq (F_Query f) "" || like_lower (AdminKeys.RP_Name p) (contains_pattern f) ||
  like_lower (AdminKeys.RP_Description p) (contains_pattern f).

Definition pool_key (p : AdminKeys.RoutingPool) : Time * Z := (AdminKeys.RP_CreatedAt p, AdminKeys.RP_ID p).

Definition repo_ListRoutingPoolPage (f : ManagementListFilter) (now : Time) (fails : bool) (pools : list AdminKeys.RoutingPool) :=
  management_page "routing_pools" pool_key (pool_matches f) f now now fails pools.

(** [Service.ListRoutingPoolPage], over the pools of the database as they are
    read. *)
Definition ListRoutingPoolPage (f : ManagementListFilter) (now : Time) (fails : bool) (d : AdminKeys.db)
  : result aerror (list AdminKeys.RoutingPool * string * bool) :=
  match normalizeManagementListFilter f with
  | Err e => Err e
  | Ok f => repo_ListRoutingPoolPage f now fails (map (fun p => AdminKeys.read_pool p d) (AdminKeys.pools d))
  end.

(** ** Keys *)

Definition key_matches (f : ManagementListFilter) (k : AdminKeys.APIKey) : bool :=
  str_eq (F_Query f) "" || like_lower (AdminKeys.K_Name k) (contains_pattern f) ||
  like_lower (AdminKeys.K_Prefix k) (contains_pattern f).

Definition key_key (k : AdminKeys.APIKey) : Time * Z := (AdminKeys.K_CreatedAt k, AdminKeys.K_ID k).

(** [clock] is what the repository's clock says when the cursor is made. *)
Definition repo_ListAPIKeyPage (f : ManagementListFilter) (now clock : Time) (fails : bool) (keys : list AdminKeys.APIKey) :=
  if time_is_zero now then Err ErrInvalidInput
  else management_page "api_keys" key_key (key_matches f) f now clock fails keys.

(** [listAPIKeyBudgetUsage] and the service's loop: every key of the page has its
    usage. *)
Definition key_usage {U : Type} (usage : list (Z * U)) (keys : list AdminKeys.APIKey) : option (list (Z * U)) :=
  mapM (fun k => (fun u => (AdminKeys.K_ID k, snd u)) <$> List.find (fun u => bool_decide (fst u = AdminKeys.K_ID k)) usage) keys.

(** [Service.ListAPIKeyPage]; [usage] is the state of the ledger, [apply] fills
    in what remains. *)
Definition ListAPIKeyPage {U : Type} (apply : AdminKeys.APIKey → U → U) (usage : list (Z * U)) (f : ManagementListFilter)
    (now clock : Time) (fails : bool) (d : AdminKeys.db) : result aerror (list AdminKeys.APIKey * list (Z * U) * string * bool) :=
  match normalizeManagementListFilter f with
  | Err e => Err e
  | Ok f =>
      match repo_ListAPIKeyPage f now clock fails
              (map (fun k => AdminKeys.scanAPIKey k (AdminKeys.k_models k) d) (AdminKeys.keys d)) with
      | Err e => Err e
      | Ok (keys, next, more) =>
          match key_usage usage keys with
          | None => Err ErrNotFound
          | Some used => Ok (keys, zip_with (fun k u => (fst u, apply k (snd u))) keys used, next, more)
          end
      end
  end.

(** ** System events *)

Record SystemEventFilter := {
  SE_Limit : Z; SE_Cursor : string; SE_Since : Time; SE_Category : string; SE_Outcome : string; SE_Severity : string;
  SE_Action : string; SE_Actor : string; SE_TargetType : string; SE_TargetID : string; SE_Query : string
}.

Record systemEventCursor := { E_OccurredAt : Time; E_ID : Z }.

Context (MarshalEvent : systemEventCursor → option (list ascii)) (UnmarshalEvent : list ascii → option systemEventCursor).

Definition encodeCursor (c : systemEventCursor) : option string := Paging.encodeCursor MarshalEvent mac c.

Definition decodeCursor (value : string) : result serror systemEventCursor :=
  match Paging.decodeCursor UnmarshalEvent mac value with
  | Some c => if time_is_zero (E_OccurredAt c) || bool_decide (E_ID c < 1) then Err SystemEvents.ErrInvalidCursor else Ok c
  | None => Err SystemEvents.ErrInvalidCursor
  end.

(** [escapeLike]: the characters that mean something in a pattern are escaped. *)
Definition escape_like_char (a : ascii) : list ascii :=
  if bool_decide (a = "\"%char) || bool_decide (a = "%"%char) || bool_decide (a = "_"%char) then ["\"%char; a] else [a].
Definition escapeLike (value : string) : string :=
  String.string_of_list_ascii (String.list_ascii_of_string value ≫= escape_like_char).

Definition when (c condition : bool) : bool := negb c || condition.

Definition event_matches (f : SystemEventFilter) (e : Event) : bool :=
  let equal (value column : string) := when (negb (str_eq value "")) (str_eq column value) in
  let pattern (value : string) := "%" +++ escapeLike value +++ "%" in
  let actor := SystemEvents.Actor_Name (SystemEvents.Event_Actor e) in
  let target := SystemEvents.Event_Target e in
  when (negb (time_is_zero (SE_Since f))) (bool_decide (SE_Since f ≤ SystemEvents.OccurredAt e)) &&
  equal (SE_Category f) (SystemEvents.Category e) && equal (SE_Outcome f) (SystemEvents.Outcome e) &&
  equal (SE_Severity f) (SystemEvents.Severity e) && equal (SE_Action f) (SystemEvents.Action e) &&
  equal (SE_TargetType f) (SystemEvents.Target_Type target) && equal (SE_TargetID f) (SystemEvents.Target_ID target) &&
  when (negb (str_eq (SE_Actor f) "")) (ilike actor (pattern (SE_Actor f))) &&
  when (negb (str_eq (SE_Query f) ""))
    (existsb (fun c => ilike c (pattern (SE_Query f)))
       [SystemEvents.Action e; actor; SystemEvents.Target_Type target; SystemEvents.Target_ID target; SystemEvents.Target_Name target;
        SystemEvents.ErrorCode e; SystemEvents.Message e]).

Definition event_key (e : Event) : Time * Z := (SystemEvents.OccurredAt e, SystemEvents.Event_ID e).

(** [SystemEventRepository.List]; [None] stands for an error of the database. *)
Definition List (f : SystemEventFilter) (fails : bool) (events : list Event) : result (option serror) (list Event * string * bool) :=
  let limit := if bool_decide (SE_Limit f = 0) then 50 else SE_Limit f in
  if bool_decide (limit < 1) || bool_decide (100 < limit) then Err (Some SystemEvents.ErrInvalidEvent)
  else
    match (if str_eq (SE_Cursor f) "" then Ok None
           else match decodeCursor (SE_Cursor f) with Ok c => Ok (Some (E_OccurredAt c, E_ID c)) | Err e => Err (Some e) end) with
    | Err e => Err e
    | Ok after =>
        if fails then Err None
        else match Paging.read_page event_key id (event_matches f) (Z.to_nat limit) after
                     (fun k => encodeCursor {| E_OccurredAt := k.1; E_ID := k.2 |}) events with
             | Some page => Ok page
             | None => Err None
             end
    end.

Definition long (s : string) (n : Z) : bool := bool_decide (n < go_len s).

(** [Service.ListSystemEvents] *)
Definition ListSystemEvents (f : SystemEventFilter) (now : Time) (fails : bool) (events : list Event)
  : result aerror (list Event * string * bool) :=
  let f := {| SE_Limit := if bool_decide (SE_Limit f = 0) then 50 else SE_Limit f; SE_Cursor := TrimSpace (SE_Cursor f);
              SE_Since := SE_Since f; SE_Category := SE_Category f; SE_Outcome := SE_Outcome f; SE_Severity := SE_Severity f;
              SE_Action := SE_Action f; SE_Actor := TrimSpace (SE_Actor f); SE_TargetType := TrimSpace (SE_TargetType f);
              SE_TargetID := TrimSpace (SE_TargetID f); SE_Query := TrimSpace (SE_Query f) |} in
  if bool_decide (SE_Limit f < 1) || bool_decide (100 < SE_Limit f) || long (SE_Cursor f) 1024 || long (SE_Actor f) 128 ||
     long (SE_TargetType f) 128 || long (SE_TargetID f) 128 || long (SE_Query f) 200 ||
     negb (time_is_zero (SE_Since f)) && bool_decide (now + Minute < SE_Since f) ||
     negb (str_eq (SE_Category f) "") && negb (SystemEvents.validCategory (SE_Category f)) ||
     negb (str_eq (SE_Outcome f) "") && negb (SystemEvents.validOutcome (SE_Outcome f)) ||
     negb (str_eq (SE_Severity f) "") && negb (SystemEvents.validSeverity (SE_Severity f)) ||
     negb (str_eq (SE_Action f) "") && negb (SystemEvents.IsKnownAction (SE_Action f)) then Err ErrInvalidInput
  else if negb (str_eq (SE_TargetID f) "") && str_eq (SE_TargetType f) "" then Err ErrInvalidInput
  else match List f fails events with
       | Ok page => Ok page
       | Err (Some _) => Err ErrInvalidInput
       | Err None => Err ErrStore
       end.

(** *** The other operations of the repository *)

Context (ParseAddr : string → bool) (Marshal : SystemEvents.entries → option string).

(** The table gives the event its number; [None] is an error of the database. *)
Definition Insert (e : Event) (id : Z) (fails : bool) (events : list Event) : result (option serror) unit * list Event :=
  match SystemEvents.ValidateEvent ParseAddr Marshal e with
  | Err x => (Err (Some x), events)
  | Ok _ =>
      if fails then (Err None, events)
      else (Ok tt, events ++ [SystemEvents.Build_Event id (SystemEvents.OccurredAt e) (SystemEvents.Category e) (SystemEvents.Severity e)
             (SystemEvents.Action e) (SystemEvents.Outcome e)
             (SystemEvents.Build_Actor (SystemEvents.Actor_Type (SystemEvents.Event_Actor e))
                (if bool_decide (0 < SystemEvents.Actor_ID (SystemEvents.Event_Actor e)) then SystemEvents.Actor_ID (SystemEvents.Event_Actor e) else 0)
                (SystemEvents.Actor_Name (SystemEvents.Event_Actor e)))
             (SystemEvents.Event_Target e) (SystemEvents.CorrelationID e) (SystemEvents.SourceIP e) (SystemEvents.HTTPMethod e)
             (SystemEvents.RoutePattern e) (SystemEvents.StatusCode e) (SystemEvents.DurationMS e) (SystemEvents.ErrorCode e)
             (SystemEvents.Message e) (Some (SystemEvents.metadataOrEmpty (SystemEvents.Metadata e)))])
  end.

Definition GetByID (id : Z) (events : list Event) : result (option serror) Event :=
  if bool_decide (id ≤ 0) then Err (Some SystemEvents.ErrInvalidEvent)
  else match List.find (fun e => bool_decide (SystemEvents.Event_ID e = id)) events with Some e => Ok e | None => Err None end.

(** The oldest events before a time, at most [batchSize] of them. *)
Definition DeleteBeforeBatch (before : Time) (batchSize : Z) (fails : bool) (events : list Event)
  : result (option serror) Z * list Event :=
  if time_is_zero before || bool_decide (batchSize < 1) || bool_decide (10000 < batchSize)
  then (Err (Some SystemEvents.ErrInvalidEvent), events)
  else if fails then (Err None, events)
  else
    let old := List.filter (fun e => bool_decide (SystemEvents.OccurredAt e < before)) events in
    let candidates := take (Z.to_nat batchSize) (rev (Paging.select event_key (fun _ => true) None (length old) old)) in
    (Ok (Z.of_nat (length candidates)),
     List.filter (fun e => negb (bool_decide (SystemEvents.Event_ID e ∈ map SystemEvents.Event_ID candidates))) events).

(** ** Pages *)

Definition max_time : Time := 10000 * 366 * 24 * 3600 * Second.
Definition key_ok (k : Time * Z) : Prop := 0 < k.1 < max_time ∧ 1 ≤ k.2 < 2 ^ 63.

Definition management_cursor_ok (c : managementCursor) : Prop :=
  M_Version c = 1 ∧ (M_Resource c = "api_keys" ∨ M_Resource c = "routing_pools") ∧ key_ok (M_CreatedAt c, M_ID c) ∧
  go_len (M_FilterDigest c) = 43 ∧ 0 < M_ExpiresAt c < max_time.

(** JSON encodes and decodes the cursors, in texts that are not too long; hashes
    and codes have 32 bytes. *)
Class ListCodec : Prop := {
  codec_management c : management_cursor_ok c →
    ∃ payload, MarshalCursor c = Some payload ∧ payload ≠ [] ∧ UnmarshalCursor payload = Some c ∧ (length payload ≤ 700)%nat;
  codec_event c : key_ok (E_OccurredAt c, E_ID c) →
    ∃ payload, MarshalEvent c = Some payload ∧ payload ≠ [] ∧ UnmarshalEvent payload = Some c ∧ (length payload ≤ 700)%nat;
  codec_mac m : length (mac m) = 32%nat;
  codec_sha m : length (sha256 m) = 32%nat
}.

Definition with_cursor (c : string) (f : ManagementListFilter) : ManagementListFilter :=
  {| F_Limit := F_Limit f; F_Cursor := c; F_Query := F_Query f |}.

(** A list of [management_page]s, with the filter as the service normalises it. *)
Definition management_list {R : Type} (resource : string) (key : R → Time * Z) (p : ManagementListFilter → R → bool)
    (f f0 : ManagementListFilter) : Paging.paged R R := {|
  Paging.key_of := key;
  Paging.matching := p f0;
  Paging.shown := id;
  Paging.page_size := Z.to_nat (F_Limit f0);
  Paging.list_page := fun t rows c =>
    match normalizeManagementListFilter (with_cursor c f) with
    | Err _ => None
    | Ok g => match management_page resource key (p g) g t t false rows with Ok page => Some page | Err _ => None end
    end;
  Paging.names := fun c after t =>
    match after with
    | None => c = ""
    | Some k => c ≠ "" ∧ TrimSpace c = c ∧ go_len c ≤ 1024 ∧
        ∃ x, decodeManagementCursor c resource f0 t = Ok x ∧ (M_CreatedAt x, M_ID x) = k
    end;
  Paging.fresh := fun t t' => t ≤ t' < t + managementCursorTTL;
  Paging.storable := fun x => key_ok (key x);
  Paging.clock_ok := fun t => 0 < t < max_time - managementCursorTTL
|}.

Definition pool_list := management_list "routing_pools" pool_key pool_matches.
Definition key_list := management_list "api_keys" key_key key_matches.

Context `{Hcodec : !ListCodec}.

Lemma normalize_management_cursor f f0 c :
  normalizeManagementListFilter (with_cursor "" f) = Ok f0 → TrimSpace c = c → go_len c ≤ 1024 →
  normalizeManagementListFilter (with_cursor c f) = Ok (with_cursor c f0) ∧ 1 ≤ F_Limit f0 ≤ 100.
Proof.
  unfold normalizeManagementListFilter. cbn [F_Limit F_Cursor F_Query with_cursor]. intros H -> Hc.
  rewrite (bool_decide_eq_false_2 (2048 < go_len c)) by lia.
  change (bool_decide (2048 < go_len (TrimSpace ""))) with false in H. rewrite orb_false_r in *.
  case_match eqn:E; [done|]. injection H as <-. split; [done|]. cbn [F_Limit].
  rewrite !orb_false_iff, !bool_decide_eq_false in E. unfold MaxManagementPageSize in E. lia.
Qed.

Lemma management_list_laws {R} resource (key : R → Time * Z) p f f0 :
  (∀ g c x, p (with_cursor c g) x = p g x) → (resource = "api_keys" ∨ resource = "routing_pools") →
  normalizeManagementListFilter (with_cursor "" f) = Ok f0 → Paging.PagedLaws (management_list resource key p f f0).
Proof.
  intros Hp Hres Hf.
  destruct (normalize_management_cursor f f0 "" Hf eq_refl ltac:(done)) as [_ Hlim].
  assert (∀ t c after, Paging.names (management_list resource key p f f0) c after t →
    TrimSpace c = c ∧ go_len c ≤ 1024 ∧ managementPageWhere (with_cursor c f0) resource t = Ok after) as Hnames.
  { intros t c [k|] Hn; cbn [Paging.names management_list] in Hn.
    - destruct Hn as (Hne & Ht & Hl & x & Hd & <-). split; [done|]. split; [done|].
      unfold managementPageWhere. cbn [F_Cursor with_cursor]. unfold str_eq. rewrite bool_decide_eq_false_2 by done.
      change (decodeManagementCursor c resource (with_cursor c f0) t) with (decodeManagementCursor c resource f0 t). by rewrite Hd.
    - subst c. done. }
  constructor; [cbn; lia|done|]. intros t rows c after Hc Hst Hn. destruct (Hnames t c after Hn) as (Ht & Hl & Hw).
  cbn [Paging.list_page management_list Paging.key_of Paging.page_size Paging.matching Paging.shown].
  destruct (normalize_management_cursor f f0 c Hf Ht Hl) as [-> _].
  unfold management_page. cbn [F_Limit with_cursor]. rewrite !bool_decide_eq_false_2 by (unfold MaxManagementPageSize; lia). cbn [orb].
  rewrite Hw. unfold Paging.read_page. rewrite (Paging.select_ext key (p (with_cursor c f0)) (p f0)) by (intros; apply Hp).
  destruct (Paging.cut_page key _ _) as [page next] eqn:Ec. destruct next as [k|].
  - assert (key_ok k) as Hk.
    { apply Paging.cut_page_key in Ec as (x & Hx & <-). rewrite Forall_forall in Hst. by apply Hst. }
    cbn [Paging.clock_ok management_list] in Hc.
    set (cur := {| M_Version := managementCursorVersion; M_Resource := resource; M_CreatedAt := k.1; M_ID := k.2;
                   M_FilterDigest := managementFilterDigest resource f0; M_ExpiresAt := t + managementCursorTTL |}).
    assert (management_cursor_ok cur) as Hok.
    { split; [done|]. split; [done|]. split; [by destruct k|]. split; [|cbn; unfold managementCursorTTL, Hour, Minute, Second in *; lia].
      cbn. unfold managementFilterDigest. rewrite Base64.go_len_EncodeToString, codec_sha. reflexivity. }
    destruct (codec_management cur Hok) as (payload & Hm & Hne & Hu & Hlen).
    destruct (Paging.encode_text MarshalCursor UnmarshalCursor mac cur payload) as (text & He & Hte & Htt & Htl & Htd);
      [done..|apply codec_mac|done|].
    unfold next_cursor, encodeManagementCursor. change (managementFilterDigest resource (with_cursor c f0)) with (managementFilterDigest resource f0).
    fold cur. rewrite He. cbn [mbind option_bind]. exists text. split; [done|]. intros k' t' [= <-] Hfresh.
    cbn [Paging.names management_list Paging.fresh] in *. split; [done|]. split; [done|]. split; [done|]. exists cur.
    split; [|by destruct k]. unfold decodeManagementCursor. rewrite Htd. cbn [cur M_Version M_Resource M_CreatedAt M_ID M_ExpiresAt M_FilterDigest].
    destruct Hk as [? ?]. unfold str_eq, time_is_zero. rewrite (bool_decide_eq_true_2 (resource = _)), (bool_decide_eq_true_2 (managementFilterDigest _ _ = _)),
      (bool_decide_eq_false_2 (k.1 = 0)), (bool_decide_eq_false_2 (k.2 < 1)), (bool_decide_eq_false_2 (t + managementCursorTTL = 0)),
      (bool_decide_eq_true_2 (t' < t + managementCursorTTL)) by (done || lia || (unfold managementCursorTTL, Hour, Minute, Second; lia)).
    done.
  - exists "". split; [done|]. by intros k t' [=].
Qed.

Definition event_cursor (c : string) (f : SystemEventFilter) : SystemEventFilter :=
  {| SE_Limit := SE_Limit f; SE_Cursor := c; SE_Since := SE_Since f; SE_Category := SE_Category f; SE_Outcome := SE_Outcome f;
     SE_Severity := SE_Severity f; SE_Action := SE_Action f; SE_Actor := SE_Actor f; SE_TargetType := SE_TargetType f;
     SE_TargetID := SE_TargetID f; SE_Query := SE_Query f |}.

(** The events that match a filter, as the repository lists them. *)
Definition event_list (f : SystemEventFilter) : Paging.paged Event Event := {|
  Paging.key_of := event_key;
  Paging.matching := event_matches f;
  Paging.shown := id;
  Paging.page_size := Z.to_nat (if bool_decide (SE_Limit f = 0) then 50 else SE_Limit f);
  Paging.list_page := fun _ events c => match List (event_cursor c f) false events with Ok page => Some page | Err _ => None end;
  Paging.names := fun c after _ =>
    match after with
    | None => c = ""
    | Some k => c ≠ "" ∧ decodeCursor c = Ok {| E_OccurredAt := k.1; E_ID := k.2 |}
    end;
  Paging.fresh := fun _ _ => True;
  Paging.storable := fun e => key_ok (event_key e);
  Paging.clock_ok := fun _ => True
|}.

Lemma event_list_laws f : 0 ≤ SE_Limit f ≤ 100 → Paging.PagedLaws (event_list f).
Proof.
  intros Hlim. set (n := if bool_decide (SE_Limit f = 0) then 50 else SE_Limit f).
  assert (1 ≤ n ≤ 100) as Hn by (unfold n; case_bool_decide; lia). constructor; [cbn; fold n; lia|done|].
  intros t events c after _ Hst Hc. cbn [Paging.list_page event_list Paging.key_of Paging.page_size Paging.matching Paging.shown].
  unfold List. cbn [SE_Limit SE_Cursor event_cursor]. fold n. rewrite !bool_decide_eq_false_2 by lia. cbn [orb].
  assert ((if str_eq c "" then Ok None else match decodeCursor c with
    | Ok c => Ok (Some (E_OccurredAt c, E_ID c)) | Err e => Err (Some e) end) = Ok after) as ->.
  { destruct after as [[k1 k2]|]; cbn in Hc; [|by subst c]. destruct Hc as [Hne Hd]. unfold str_eq.
    rewrite bool_decide_eq_false_2 by done. by rewrite Hd. }
  change (event_matches (event_cursor c f)) with (event_matches f). unfold Paging.read_page.
  destruct (Paging.cut_page event_key _ _) as [page next] eqn:Ec. destruct next as [k|].
  - assert (key_ok k) as Hk.
    { apply Paging.cut_page_key in Ec as (x & Hx & <-). rewrite Forall_forall in Hst. by apply Hst. }
    set (cur := {| E_OccurredAt := k.1; E_ID := k.2 |}).
    destruct (codec_event cur) as (payload & Hm & Hne & Hu & Hlen); [by destruct k|].
    destruct (Paging.encode_text MarshalEvent UnmarshalEvent mac cur payload) as (text & He & Hte & _ & _ & Htd);
      [done..|apply codec_mac|done|].
    unfold encodeCursor. rewrite He. cbn [mbind option_bind]. exists text. split; [done|]. intros k' t' [= <-] _. cbn. split; [done|].
    unfold decodeCursor. rewrite Htd. destruct Hk as [? ?]. unfold time_is_zero. cbn [cur E_OccurredAt E_ID].
    by rewrite (bool_decide_eq_false_2 (k.1 = 0)), (bool_decide_eq_false_2 (k.2 < 1)) by lia.
  - exists "". split; [done|]. by intros k t' [=].
Qed.

(** Following the cursors of keys, pools and events lists each row once, as for
    the request logs; the cursors of keys and pools must be used within a day. *)
Lemma key_pages_exact f f0 visits keys :
  normalizeManagementListFilter (with_cursor "" f) = Ok f0 → Forall (Paging.sound_visit (key_list f f0)) visits →
  Paging.timely (key_list f f0) visits → Paging.follow (key_list f f0) "" visits = Some keys →
  Paging.lists_exactly (key_list f f0) visits keys.
Proof.
  intros Hf Hs Ht Hfol. assert (Paging.PagedLaws (key_list f f0)).
  { apply management_list_laws; [done|by left|done]. }
  apply Paging.follow_exact in Hfol as (rows & -> & Hx); [|done..]. by rewrite map_id.
Qed.

Lemma pool_pages_exact f f0 visits pools :
  normalizeManagementListFilter (with_cursor "" f) = Ok f0 → Forall (Paging.sound_visit (pool_list f f0)) visits →
  Paging.timely (pool_list f f0) visits → Paging.follow (pool_list f f0) "" visits = Some pools →
  Paging.lists_exactly (pool_list f f0) visits pools.
Proof.
  intros Hf Hs Ht Hfol. assert (Paging.PagedLaws (pool_list f f0)).
  { apply management_list_laws; [done|by right|done]. }
  apply Paging.follow_exact in Hfol as (rows & -> & Hx); [|done..]. by rewrite map_id.
Qed.

Lemma event_pages_exact f visits events :
  0 ≤ SE_Limit f ≤ 100 → Forall (Paging.sound_visit (event_list f)) visits →
  Paging.timely (event_list f) visits → Paging.follow (event_list f) "" visits = Some events →
  Paging.lists_exactly (event_list f) visits events.
Proof.
  intros Hf Hs Ht Hfol. pose proof (event_list_laws f Hf).
  apply Paging.follow_exact in Hfol as (rows & -> & Hx); [|done..]. by rewrite map_id.
Qed.

End store.
End ManagementLists.
