(* ===== verification/HttpApi.v ===== *)
(** * The management interface: requests, calls and responses

    What the handlers of [httpapi/server.go] are made of: the request, the calls
    they make to services, throttles, the recorder of events and the clock, and
    the response; the helpers shared by the handlers, the recording of failed
    operations ([httpapi/system_event.go]) and the check for an administrator.

    A handler returns the response it would write: every handler writes exactly
    one, at its end.  What a service answers and the handler only passes on is a
    [value]. *)

From S2P Require Import Prelude GoStrings Json Effects Account Scheduling AdminBase SettingsRuntime Sessions AdminKeys OAuth SystemEvents Alerting LoginThrottle RevealThrottle Netip RequestInfo HttpJson RequestLogs ManagementLists.
From Stdlib Require Import Ascii.
From Stdlib Require String.

Module HttpApi.
Import HttpJson.
Import AdminBase.
Export RequestLogs (RequestLogFilter, Build_RequestLogFilter, RL_Limit, RL_Cursor, RL_Since, RL_Before, RL_RequestID, RL_Query, RL_StatusClass, RL_StatusCode,
  RL_ProviderAccountID, RL_RoutingPoolID, RL_ClientKeyID, RL_Model, RL_SessionID, RL_Error, RL_UsageSource, RL_RoutingPoolError,
  RL_RoutingPoolChain, RL_GatewayFallbacks, RequestLog).
Export ManagementLists (ManagementListFilter, Build_ManagementListFilter, F_Limit, F_Cursor, F_Query, SystemEventFilter, Build_SystemEventFilter,
  SE_Limit, SE_Cursor, SE_Since, SE_Category, SE_Outcome, SE_Severity, SE_Action, SE_Actor, SE_TargetType, SE_TargetID, SE_Query,
  DefaultManagementPageSize, MaxManagementPageSize).
Import SystemEvents (RequestContext, Actor, EventIntent, Event, Target, Build_Target, Build_Actor, Build_EventIntent).

(** ** Requests *)

(** [Query] are the decoded parameters in their order, [QueryValid] whether the
    query is well formed, [Body] what reading the body gives ([None] when reading
    fails), [PathValues] and [Pattern] what the router found, [info] what is known
    of the sender. *)
Record HTTPRequest := {
  base : RequestInfo.Request;
  info : RequestInfo.requestInfo;
  EscapedPath : string;
  RequestURI : string;
  Query : list (string * string);
  QueryValid : bool;
  Body : option string;
  ContentLength : Z;
  PathValues : list (string * string);
  Pattern : string
}.

Definition with_route (r : HTTPRequest) (pattern : string) (values : list (string * string)) : HTTPRequest :=
  {| base := base r; info := info r; EscapedPath := EscapedPath r; RequestURI := RequestURI r; Query := Query r;
     QueryValid := QueryValid r; Body := Body r; ContentLength := ContentLength r; PathValues := values; Pattern := pattern |}.

Definition with_info (r : HTTPRequest) (i : RequestInfo.requestInfo) : HTTPRequest :=
  {| base := base r; info := i; EscapedPath := EscapedPath r; RequestURI := RequestURI r; Query := Query r;
     QueryValid := QueryValid r; Body := Body r; ContentLength := ContentLength r; PathValues := PathValues r; Pattern := Pattern r |}.

(** The first value of a name, or the empty string. *)
Definition lookup_first (l : list (string * string)) (name : string) : string :=
  match List.find (fun p => str_eq (fst p) name) l with Some (_, v) => v | None => "" end.

Definition query (r : HTTPRequest) (name : string) : string := lookup_first (Query r) name.
Definition PathValue (r : HTTPRequest) (name : string) : string := lookup_first (PathValues r) name.
Definition UserAgent (r : HTTPRequest) : string := lookup_first (RequestInfo.Header (base r)) "User-Agent".

(** ** Responses *)

Inductive body :=
| JSON (v : value)
| NoContent
| Text (contentType content : string)
| Delegated (to : string).

Inductive cookie_change := SetSession (token : string) (expires : Time) | ClearSession.

(** [failureCode] is what a handler leaves for the record of the failure. *)
Record response := {
  status : Z; headers : list (string * string); cookie : option cookie_change; content : body; failureCode : string
}.

Definition writeJSON (status : Z) (v : value) : response :=
  {| status := status; headers := []; cookie := None; content := JSON v; failureCode := "" |}.
Definition writeError (status : Z) (code : string) : response := writeJSON status (VObject [("error", VString code)]).
Definition noContent : response :=
  {| status := 204; headers := []; cookie := None; content := NoContent; failureCode := "" |}.
Definition with_header (name v : string) (x : response) : response :=
  {| status := status x; headers := headers x ++ [(name, v)]; cookie := cookie x; content := content x; failureCode := failureCode x |}.
Definition with_cookie (c : cookie_change) (x : response) : response :=
  {| status := status x; headers := headers x; cookie := Some c; content := content x; failureCode := failureCode x |}.
Definition with_failure (code : string) (x : response) : response :=
  {| status := status x; headers := headers x; cookie := cookie x; content := content x; failureCode := code |}.

(** [setRetryAfter]: whole seconds, rounded up, at least one.  The sum wraps. *)
Definition retry_after_seconds (delay : Duration) : Z := Z.max 1 (Z.quot (wrap64 (delay + Second - 1)) Second).
Definition setRetryAfter (delay : Duration) (x : response) : response :=
  with_header "Retry-After" (FormatInt (retry_after_seconds delay)) x.

(** ** Calls *)

(** Methods of [AdminService] whose answer is passed on. *)
Inductive admin_op : Set :=
| ListSessions (adminID : Z) (currentToken : string)
| RevokeAPIKey (id : Z)
| DeleteRevokedAPIKey (id : Z)
| UpdateAPIKeyName (id : Z) (name : string)
| SetAPIKeyDisabled (id : Z) (disabled : bool)
| UpdateAPIKeyModelPolicy (id : Z) (policy : string) (models : list string)
| UpdateAPIKeyLimits (id requestsPerMinute tokensPerMinute : Z)
| UpdateAPIKeyBudgets (id request24h token24h cost24h request30d token30d cost30d : Z)
| UpdateAPIKeyRoutingPool (id : Z) (routingPoolID : option Z)
| CreateRoutingPool (name description : string) (enabled : bool) (fallback : option Z)
| UpdateRoutingPool (id : Z) (name description : string) (enabled : bool) (fallback : option Z)
| DeleteRoutingPool (id : Z)
| ReplaceRoutingPoolAccounts (id : Z) (accounts : list value)
| ListRequestLogs (filter : RequestLogFilter)
| ListSystemEvents (filter : SystemEventFilter)
| CleanupRequestLogs (now : Time)
| GetRequestLogRetentionStats (now : Time)
| UpdateGatewaySettings (settings : value)
| GetUsageSummary (range groupBy : string)
| GetUsagePricing
| UpdateUsagePricing (pricing : value)
| GetOpsErrorStats (since : Time)
| GetOpsThroughputTrend (since : Time) (interval : string)
| GetOpsErrorTrend (since : Time) (interval : string)
| GetOpsLatencyDistribution (since : Time)
| GetOpsAccountHealth (since : Time)
| ListOpsAccountTests (since : Time) (limit : Z)
| GetOpsCostBreakdown (since : Time)
| ListFingerprintProfiles
| CreateFingerprintProfile (input : value)
| UpdateFingerprintProfile (id : Z) (input : value)
| DeleteFingerprintProfile (id : Z)
| ListErrorPassthroughRules
| CreateErrorPassthroughRule (input : value)
| UpdateErrorPassthroughRule (id : Z) (input : value)
| DeleteErrorPassthroughRule (id : Z)
| GetModelSettings
| UpdateModelSettings (settings : value).

(** Those with two answers. *)
Inductive admin_op2 : Set :=
| CreateAPIKey (name : string) (routingPoolID : option Z)
| SyncOfficialUsagePricing
| RemoveShutdownUsagePricing (models : list string)
| IgnoreUpcomingUsagePricing (models : list string).

(** Methods of [ProviderService]. *)
Record AccountUpdate := {
  AU_Enabled : option bool; AU_Priority : option Z; AU_LoadFactor : option Z; AU_MaxConcurrentRequests : option Z;
  AU_Name : option string; AU_BaseURL : option string; AU_APIKey : option string; AU_ProxyURL : option string;
  AU_FingerprintProfileIDSet : bool; AU_FingerprintProfileID : option Z
}.

Record APIUpstreamInput := {
  UI_Name : string; UI_BaseURL : string; UI_APIKey : string; UI_ProxyURL : string; UI_Enabled : option bool;
  UI_Priority : Z; UI_LoadFactor : Z; UI_FingerprintProfileID : option Z; UI_Models : list string
}.

Inductive provider_op : Set :=
| ProviderStatus
| CreateAPIUpstreamAccount (input : APIUpstreamInput)
| UpdateAccount (id : Z) (update : AccountUpdate)
| ListAccountModels (id : Z)
| OAuthModelCatalogStatus (id : Z)
| ReplaceAccountModels (id : Z) (models : list value)
| TestAccountModel (id : Z) (model : string)
| RefreshAccount (id : Z)
| TestAccount (id : Z)
| TestAccounts
| ListAccountTestResults (id limit : Z)
| PauseAccountScheduling (id : Z) (duration : Duration)
| ResetAccountStatus (id : Z)
| DisconnectAccount (id : Z)
| Disconnect.

Inductive provider_op2 : Set :=
| SyncUpstreamAccountModels (id : Z)
| SyncOAuthAccountModels (id : Z)
| RefreshOAuthAccountModels (id : Z).

(** Methods of [AlertingAdminService] and [AlertActionTester]. *)
Inductive alert_op : Set :=
| ListActions
| CreateAction (name kind destination : string) (enabled : bool)
| UpdateAction (id : Z) (name kind : string) (destination : option string) (enabled : bool) (expected : Time)
| DeleteAction (id : Z)
| TestAction (id : Z) (expected : Time)
| ListRules
| CreateRule (rule : value)
| UpdateRule (id : Z) (rule : value) (expected : Time)
| DeleteRule (id : Z).

(** Errors the handlers tell apart; a provider call can end with an error of the
    administration service. *)
Inductive svc_error :=
| EAdmin (e : aerror)
| EProvider (e : Account.perror)
| ErrOAuthModelCatalogBusy
| ErrOAuthModelCatalogStale.

Definition is_admin (e : svc_error) (target : aerror) : bool :=
  match e with EAdmin e => bool_decide (e = target) | _ => false end.
Definition is_provider (e : svc_error) (target : Account.perror) : bool :=
  match e with EProvider e => Account.is_err e target | _ => false end.

Record APIKeyPage := {
  PG_Keys : list AdminKeys.APIKey; PG_BudgetUsage : list (Z * value); PG_NextCursor : string; PG_HasMore : bool
}.

(** A routing pool as the routing status reads it. *)
Record PoolMembers := { PM_ID : Z; PM_AccountIDs : list Z }.

(** What an export writes: the header of a CSV file, a line of one, a JSON text. *)
Inductive export_record := HeaderRecord (cells : list string) | CSVRecord (cells : list string) | JSONRecord (text : string).

(** What the export of the configuration counts; the document is made of it. *)
Record ConfigurationSnapshot := {
  CS_RoutingPools : list value; CS_APIKeyTemplates : list value; CS_ProviderAccounts : list value; CS_FingerprintProfiles : list value;
  CS_ErrorPassthroughRules : list value; CS_AlertActions : list value; CS_AlertRules : list value; CS_Rest : value
}.

(** One call per constructor.  An attempt of the login throttle is a number.
    [batch] is the identifier of the batch a provider call belongs to, or the
    empty string.  The last calls before [Admin] are those of an export: the rows
    of its query one by one, and writing a record, flushing the CSV writer,
    flushing the body, and closing it. *)
Inductive call : Set → Type :=
| TimeNow : call Time
| Random : call (list ascii)
| Ping : call bool
| LoginBegin (clientIP username : string) : call (Z * LoginThrottle.LoginThrottleDecision)
| LoginFailure (attempt : Z) : call LoginThrottle.LoginThrottleDecision
| LoginSuccess (attempt : Z) : call unit
| LoginCancel (attempt : Z) : call unit
| RevealBegin (clientIP : string) (adminID keyID : Z) : call RevealThrottle.SecretRevealThrottleDecision
| Login (username password createdIP userAgent : string) : call (result aerror Sessions.Session)
| Logout (token : string) : call (result aerror unit)
| ValidateSession (token : string) : call (result aerror (Z * string))
| Insert (event : Event) : call bool
| ChangePassword (adminID : Z) (token current new : string) : call (result aerror Z)
| RevokeSessionByID (adminID sessionID : Z) (token : string) : call (result aerror bool)
| RevokeOtherSessions (adminID : Z) (token : string) : call (result aerror Z)
| ListAPIKeyPage (filter : ManagementListFilter) : call (result aerror APIKeyPage)
| ListRoutingPoolPage (filter : ManagementListFilter) : call (result aerror (value * string * bool))
| RevealAPIKeySecret (adminID keyID : Z) (password : string) : call (result aerror string)
| GetGatewaySettings : call (result aerror SettingsRuntime.GatewaySettings)
| DefaultModel : call (result aerror string)
| ListRoutingPools : call (result aerror (list PoolMembers))
| ExportConfiguration : call (result aerror ConfigurationSnapshot)
| ListRequestLogPage (filter : RequestLogFilter) : call (result aerror (list RequestLog * bool))
| QueryRequestLogs (filter : RequestLogFilter) (limit : Z) : call bool
| NextRequestLog : call RequestLogs.next_row
| WriteRecord (record : export_record) : call bool
| FlushWriter : call bool
| FlushBody : call bool
| CloseBody : call bool
| Admin (op : admin_op) : call (result aerror value)
| Admin2 (op : admin_op2) : call (result aerror (value * value))
| ListAccounts : call (result svc_error (list Account.Account))
| ListAccountModelsForAccounts (ids : list Z) : call (result svc_error (list (Z * list Account.AccountModel)))
| StartConnect (options : OAuth.ConnectOptions) : call (result svc_error string)
| CompleteCallback (code state : string) : call (result svc_error (Z * value))
| Preview (routingPoolID : Z) (model endpoint sessionID : string) (excluded : list Z) : call (result svc_error Scheduling.SelectionPreview)
| Provider (batch : string) (op : provider_op) : call (result svc_error value)
| Provider2 (op : provider_op2) : call (result svc_error (value * value))
| Alerts (op : alert_op) : call (result Alerting.alert_error value)
| InstallRuleTemplate (key : string) (actionID : Z) : call (result Alerting.alert_error (value * bool))
| AccountConcurrencySnapshot : call (list (Z * Z))
| APIKeyConcurrencySnapshot : call (list (Z * Z))
| APIKeyRequestRateSnapshot : call (list (Z * Z))
| APIKeyTokenRateSnapshot : call (list (Z * Z))
| RuntimeReadiness : call (string * bool * string)
| GatewaySettingsStatus : call (bool * bool)
| TaskStatus (name : string) : call value
| UpdateSnapshot : call value
| UpdateRefresh : call (result (option Duration) value)
| StaticFile (name : string) : call (option bool)
| Gateway : call response.

Abbreviation P := (prog call).

Definition ask {R : Set} (c : call R) : P R := Vis c (fun r => Ret r).

(** ** The server's configuration: which parts are there

    [redirect_status] is the status the router of [net/http] redirects with. *)

Record Server := {
  has_admins : bool; has_providers : bool; has_health : bool; has_recorder : bool; has_alerting : bool; has_tester : bool;
  has_updates : bool; has_gateway : bool; has_web : bool; has_runtime : bool; has_settings_runtime : bool;
  has_account_concurrency : bool; has_key_concurrency : bool; has_key_rates : bool;
  tasks : list (string * string); build : value; version : string; PublicURL : string; AdminUsername : string;
  AdminLoginThrottleEnabled : bool; AllowUnsafeMultiInstance : bool; TrustedProxyCIDRs : list Netip.Prefix;
  has_auto_test : bool; has_log_retention : bool; ExportMaxRows : Z; redirect_status : Z
}.

(** ** Parameters *)

(** [strconv.ParseInt(s, 10, 64)] is [Atoi] on a 64-bit machine. *)
Definition parsePositivePathID (r : HTTPRequest) (name : string) : option Z :=
  id ← Atoi (PathValue r name); if bool_decide (id ≤ 0) then None else Some id.

Definition parseOptionalPositiveInt64 (raw : string) : option Z :=
  let raw := TrimSpace raw in
  if str_eq raw "" then Some 0
  else id ← Atoi raw; if bool_decide (id < 0) then None else Some id.

(** [time.Unix(seconds, 0)] *)
Definition unix_epoch : Z := 62135596800 * Second.
Definition time_Unix (seconds : Z) : Time := unix_epoch + seconds * Second.

Definition parseSinceParam (r : HTTPRequest) : Time :=
  match Atoi (query r "since") with
  | Some seconds => if bool_decide (seconds ≤ 0) then 0 else time_Unix seconds
  | None => 0
  end.

Definition parseLimitParam (r : HTTPRequest) (defaultLimit maxLimit : Z) : option Z :=
  let raw := query r "limit" in
  limit ← (if str_eq raw "" then Some defaultLimit
           else parsed ← Atoi raw; if bool_decide (parsed ≤ 0) then None else Some parsed);
  Some (if bool_decide (0 < maxLimit) && bool_decide (maxLimit < limit) then maxLimit else limit).

Definition managementListFilterFromRequest (r : HTTPRequest) : option ManagementListFilter :=
  let raw := TrimSpace (query r "limit") in
  limit ← (if str_eq raw "" then Some DefaultManagementPageSize
           else limit ← Atoi raw;
                if bool_decide (limit < 1) || bool_decide (MaxManagementPageSize < limit) then None else Some limit);
  Some {| F_Limit := limit; F_Cursor := query r "cursor"; F_Query := query r "q" |}.

(** ** Recording events *)

Section server.
Context (s : Server).

Definition intent (category severity action outcome : string) (target : Target) (errorCode : string)
    (metadata : SystemEvents.metadata) : EventIntent :=
  Build_EventIntent category severity action outcome target errorCode "" metadata 0.

Definition with_status (e : Event) (code : Z) : Event :=
  SystemEvents.Build_Event (SystemEvents.Event_ID e) (SystemEvents.OccurredAt e) (SystemEvents.Category e)
    (SystemEvents.Severity e) (SystemEvents.Action e) (SystemEvents.Outcome e) (SystemEvents.Event_Actor e)
    (SystemEvents.Event_Target e) (SystemEvents.CorrelationID e) (SystemEvents.SourceIP e) (SystemEvents.HTTPMethod e)
    (SystemEvents.RoutePattern e) (Some code) (SystemEvents.DurationMS e) (SystemEvents.ErrorCode e)
    (SystemEvents.Message e) (SystemEvents.Metadata e).

(** [true] when there is no error. *)
Definition recordHTTPSystemEvent (ctx : RequestContext) (i : EventIntent) (statusCode : Z) (duration : Duration) : P bool :=
  if negb (has_recorder s) then Ret true
  else
    let! now := ask TimeNow in
    ask (Insert (with_status (SystemEvents.BuildEvent (Some ctx) [] i (SystemEvents.I_Target i) now now duration) statusCode)).

Definition recordLoginFailureEvent (ctx : RequestContext) (errorCode : string) (statusCode : Z) (started : Time) : P unit :=
  let! now := ask TimeNow in
  let! _ := recordHTTPSystemEvent ctx
    (intent SystemEvents.CategorySecurity SystemEvents.SeverityWarning "auth.login.failed" SystemEvents.OutcomeFailure
       (Build_Target "admin" "" "administrator") errorCode None) statusCode (time_sub now started) in
  Ret tt.

Definition adminFailureErrorCode (statusCode : Z) : string :=
  if bool_decide (statusCode = 400) then "invalid_input"
  else if bool_decide (statusCode = 401) then "unauthorized"
  else if bool_decide (statusCode = 403) then "forbidden"
  else if bool_decide (statusCode = 404) then "not_found"
  else if bool_decide (statusCode = 409) then "conflict"
  else if bool_decide (statusCode = 429) then "rate_limited"
  else "operation_failed".

Definition audit := SystemEvents.CategoryAudit.
Definition security := SystemEvents.CategorySecurity.
Definition oauth := SystemEvents.CategoryOAuth.

(** Action, category and target type by route. *)
Definition failure_definitions : list (string * (string * string * string)) :=
  [("POST /api/admin/change-password", ("auth.password.change_failed", security, "admin"));
   ("POST /api/admin/keys/{id}/reveal-secret", ("api_key.secret.viewed", security, "client_api_key"));
   ("DELETE /api/admin/sessions/{id}", ("auth.session.revoked", security, "admin_session"));
   ("POST /api/admin/sessions/revoke-others", ("auth.sessions.revoked_others", security, "admin_session_collection"));
   ("POST /api/admin/keys", ("api_key.created", audit, "client_api_key"));
   ("POST /api/admin/keys/{id}/revoke", ("api_key.revoked", audit, "client_api_key"));
   ("DELETE /api/admin/keys/{id}", ("api_key.deleted", audit, "client_api_key"));
   ("PATCH /api/admin/keys/{id}", ("api_key.renamed", audit, "client_api_key"));
   ("PUT /api/admin/keys/{id}/disabled", ("api_key.status_update.failed", audit, "client_api_key"));
   ("PUT /api/admin/keys/{id}/model-policy", ("api_key.model_policy.updated", audit, "client_api_key"));
   ("PUT /api/admin/keys/{id}/limits", ("api_key.limits.updated", audit, "client_api_key"));
   ("PUT /api/admin/keys/{id}/budgets", ("api_key.budgets.updated", audit, "client_api_key"));
   ("PUT /api/admin/keys/{id}/routing-pool", ("api_key.routing_pool.updated", audit, "client_api_key"));
   ("POST /api/admin/routing-pools", ("routing_pool.created", audit, "routing_pool"));
   ("PATCH /api/admin/routing-pools/{id}", ("routing_pool.updated", audit, "routing_pool"));
   ("DELETE /api/admin/routing-pools/{id}", ("routing_pool.deleted", audit, "routing_pool"));
   ("PUT /api/admin/routing-pools/{id}/accounts", ("routing_pool.accounts.replaced", audit, "routing_pool"));
   ("POST /api/admin/request-logs/cleanup", ("request_log.cleanup.completed", audit, "request_log_collection"));
   ("PUT /api/admin/gateway-settings", ("gateway_settings.updated", audit, "gateway_settings"));
   ("PUT /api/admin/usage-pricing", ("usage_pricing.updated", audit, "usage_pricing"));
   ("POST /api/admin/usage-pricing/sync-official", ("usage_pricing.synced", audit, "usage_pricing"));
   ("POST /api/admin/usage-pricing/remove-shutdown", ("usage_pricing.shutdown_removed", audit, "usage_pricing"));
   ("POST /api/admin/usage-pricing/ignore-upcoming", ("usage_pricing.upcoming_ignored", audit, "usage_pricing"));
   ("POST /api/admin/fingerprint-profiles", ("fingerprint_profile.created", audit, "fingerprint_profile"));
   ("PATCH /api/admin/fingerprint-profiles/{id}", ("fingerprint_profile.updated", audit, "fingerprint_profile"));
   ("DELETE /api/admin/fingerprint-profiles/{id}", ("fingerprint_profile.deleted", audit, "fingerprint_profile"));
   ("POST /api/admin/error-passthrough-rules", ("error_passthrough_rule.created", audit, "error_passthrough_rule"));
   ("PATCH /api/admin/error-passthrough-rules/{id}", ("error_passthrough_rule.updated", audit, "error_passthrough_rule"));
   ("DELETE /api/admin/error-passthrough-rules/{id}", ("error_passthrough_rule.deleted", audit, "error_passthrough_rule"));
   ("POST /api/admin/alert-actions", ("alert_action.created", audit, "alert_action"));
   ("PATCH /api/admin/alert-actions/{id}", ("alert_action.updated", audit, "alert_action"));
   ("DELETE /api/admin/alert-actions/{id}", ("alert_action.deleted", audit, "alert_action"));
   ("POST /api/admin/alert-actions/{id}/test", (SystemEvents.ActionAlertDeliveryTested, audit, "alert_action"));
   ("POST /api/admin/alert-rules", ("alert_rule.created", audit, "alert_rule"));
   ("POST /api/admin/alert-rule-templates/{key}/install", ("alert_rule.created", audit, "alert_rule"));
   ("PATCH /api/admin/alert-rules/{id}", ("alert_rule.updated", audit, "alert_rule"));
   ("DELETE /api/admin/alert-rules/{id}", ("alert_rule.deleted", audit, "alert_rule"));
   ("PUT /api/admin/model-settings", ("model_settings.updated", audit, "model_settings"));
   ("POST /api/admin/provider-accounts/api-upstream", ("provider_account.created", audit, "provider_account"));
   ("POST /api/admin/provider-accounts/codex-oauth/connect", ("oauth.connect.failed", oauth, "oauth_connection"));
   ("POST /api/admin/provider-accounts/codex-oauth/callback", ("oauth.callback.failed", oauth, "oauth_connection"));
   ("PATCH /api/admin/provider-accounts/{id}", ("provider_account.updated", audit, "provider_account"));
   ("DELETE /api/admin/provider-accounts/{id}", ("provider_account.disconnected", audit, "provider_account"));
   ("POST /api/admin/provider-accounts/{id}/disconnect", ("provider_account.disconnected", audit, "provider_account"));
   ("PUT /api/admin/provider-accounts/{id}/models", ("provider_account.models.replaced", audit, "provider_account"));
   ("POST /api/admin/provider-accounts/{id}/models/sync", ("provider_account.models.synced", audit, "provider_account"));
   ("POST /api/admin/provider-accounts/{id}/model-tests", ("provider_account.model_tested", audit, "provider_account"));
   ("POST /api/admin/provider-accounts/{id}/test", ("provider_account.tested", audit, "provider_account"));
   ("POST /api/admin/provider-accounts/{id}/pause", ("provider_account.paused", audit, "provider_account"));
   ("POST /api/admin/provider-accounts/{id}/reset-status", ("provider_account.status_reset", audit, "provider_account"));
   ("POST /api/admin/providers/openai/connect", ("oauth.connect.failed", oauth, "oauth_connection"));
   ("POST /api/admin/providers/openai/callback", ("oauth.callback.failed", oauth, "oauth_connection"));
   ("POST /api/admin/providers/openai/disconnect", ("provider_account.disconnect_all", audit, "provider_account_collection"));
   ("PATCH /api/admin/providers/openai/accounts/{id}", ("provider_account.updated", audit, "provider_account"));
   ("PUT /api/admin/providers/openai/accounts/{id}/models", ("provider_account.models.replaced", audit, "provider_account"));
   ("POST /api/admin/providers/openai/accounts/{id}/test", ("provider_account.tested", audit, "provider_account"));
   ("POST /api/admin/providers/openai/accounts/{id}/pause", ("provider_account.paused", audit, "provider_account"));
   ("POST /api/admin/providers/openai/accounts/{id}/reset-status", ("provider_account.status_reset", audit, "provider_account"));
   ("POST /api/admin/providers/openai/accounts/{id}/disconnect", ("provider_account.disconnected", audit, "provider_account"))].

Definition adminFailureEventForRequest (r : HTTPRequest) : option (string * string * string) :=
  let m := RequestInfo.Method (base r) in
  let key := if HasPrefix (Pattern r) (m +++ " ") then Pattern r else m +++ " " +++ Pattern r in
  snd <$> List.find (fun d => str_eq (fst d) key) failure_definitions.

Definition recordAdminMutationFailure (ctx : RequestContext) (r : HTTPRequest) (statusCode : Z) (failureErrorCode : string)
    (duration : Duration) : P unit :=
  if bool_decide (statusCode < 400) then Ret tt
  else
    match adminFailureEventForRequest r with
    | None => Ret tt
    | Some (action, category, targetType) =>
        let severity := if bool_decide (500 ≤ statusCode) then SystemEvents.SeverityError else SystemEvents.SeverityWarning in
        let code := if str_eq failureErrorCode "" then adminFailureErrorCode statusCode else failureErrorCode in
        let! _ := recordHTTPSystemEvent ctx
          (intent category severity action SystemEvents.OutcomeFailure (Build_Target targetType (PathValue r "id") "") code None)
          statusCode duration in
        Ret tt
    end.

(** ** Administrators only *)

Definition withAdminEventActor (ctx : RequestContext) (r : HTTPRequest) (admin : Z * string) : RequestContext :=
  SystemEvents.Build_RequestContext (SystemEvents.RC_CorrelationID ctx) (SystemEvents.RC_SourceIP ctx)
    (SystemEvents.RC_HTTPMethod ctx)
    (if str_eq (SystemEvents.RC_RoutePattern ctx) "" then Pattern r else SystemEvents.RC_RoutePattern ctx)
    (Build_Actor SystemEvents.ActorAdmin (fst admin) (snd admin)).

Definition handler := RequestContext → HTTPRequest → P response.
Definition admin_handler := RequestContext → HTTPRequest → Z * string → P response.

(** The body of [requireAdmin] up to its deferred function: the response and the
    context the failure is recorded with. *)
Definition check_admin (next : admin_handler) (ctx : RequestContext) (r : HTTPRequest) : P (response * RequestContext) :=
  if negb (has_admins s) then Ret (writeError 503 "service_unavailable", ctx)
  else
    match RequestInfo.readSessionCookie (base r) with
    | None => Ret (writeError 401 "unauthorized", ctx)
    | Some token =>
        let! v := ask (ValidateSession token) in
        match v with
        | Err AdminBase.ErrUnauthorized =>
            let! _ := recordHTTPSystemEvent ctx
              (intent security SystemEvents.SeverityWarning "auth.session.rejected" SystemEvents.OutcomeFailure
                 (Build_Target "admin_session" "" "") "invalid_session" None) 401 0 in
            Ret (writeError 401 "unauthorized", ctx)
        | Err _ => Ret (writeError 500 "internal_error", ctx)
        | Ok admin =>
            let ctx := withAdminEventActor ctx r admin in
            let! x := next ctx r admin in
            Ret (x, ctx)
        end
    end.

Definition requireAdmin (next : admin_handler) : handler := fun ctx r =>
  let! started := ask TimeNow in
  let! (x, ctx) := check_admin next ctx r in
  let! now := ask TimeNow in
  let! _ := recordAdminMutationFailure ctx r (status x) (failureCode x) (time_sub now started) in
  Ret x.

End server.

(** ** An environment for the examples

    The session [token] is that of the administrator 1; the calls in the rows of
    the store take them one by one; everything else succeeds with little. *)
Module Demo.

Definition nothing (R : Set) (c : call R) : R :=
  match c in call R return R with
  | TimeNow => 5
  | Random => repeat "a"%char 16
  | Ping => true
  | LoginBegin _ _ => (1, {| LoginThrottle.Allowed := true; LoginThrottle.RetryAfter := 0; LoginThrottle.ReportEvent := false |})
  | LoginFailure _ => {| LoginThrottle.Allowed := true; LoginThrottle.RetryAfter := 0; LoginThrottle.ReportEvent := false |}
  | LoginSuccess _ => tt
  | LoginCancel _ => tt
  | RevealBegin _ _ _ => {| RevealThrottle.Allowed := true; RevealThrottle.RetryAfter := 0 |}
  | Login _ _ _ _ => Ok (Sessions.Build_Session "token" 1 100)
  | Logout _ => Ok tt
  | ValidateSession t => if str_eq t "token" then Ok (1, "root") else Err ErrUnauthorized
  | Insert _ => true
  | ChangePassword _ _ _ _ => Ok 0
  | RevokeSessionByID _ _ _ => Ok false
  | RevokeOtherSessions _ _ => Ok 0
  | ListAPIKeyPage _ => Err ErrStore
  | ListRoutingPoolPage _ => Err ErrStore
  | RevealAPIKeySecret _ _ _ => Ok "n2_secret"
  | GetGatewaySettings => Err ErrStore
  | DefaultModel => Ok "m"
  | ListRoutingPools => Ok []
  | ExportConfiguration => Err ErrStore
  | ListRequestLogPage _ => Ok ([], false)
  | QueryRequestLogs _ _ => true
  | NextRequestLog => RequestLogs.NoRow false
  | WriteRecord _ => true
  | FlushWriter => true
  | FlushBody => true
  | CloseBody => true
  | Admin _ => Ok VNil
  | Admin2 _ => Ok (VNil, VNil)
  | ListAccounts => Ok []
  | ListAccountModelsForAccounts _ => Ok []
  | StartConnect _ => Ok ""
  | CompleteCallback _ _ => Ok (1, VNil)
  | Preview _ _ _ _ _ => Err (EAdmin ErrStore)
  | Provider _ op => match op with DisconnectAccount 3 => Err (EProvider Account.ErrNotConnected) | _ => Ok VNil end
  | Provider2 _ => Ok (VNil, VNil)
  | Alerts _ => Ok VNil
  | InstallRuleTemplate _ _ => Ok (VNil, false)
  | AccountConcurrencySnapshot => []
  | APIKeyConcurrencySnapshot => []
  | APIKeyRequestRateSnapshot => []
  | APIKeyTokenRateSnapshot => []
  | RuntimeReadiness => ("ready", true, "")
  | GatewaySettingsStatus => (true, false)
  | TaskStatus _ => VNil
  | UpdateSnapshot => VNil
  | UpdateRefresh => Ok VNil
  | StaticFile _ => None
  | Gateway => noContent
  end.

Definition env (R : Set) (c : call R) (rows : list RequestLog) : R * list RequestLog :=
  match c in call R return R * list RequestLog with
  | NextRequestLog => match rows with x :: rows => (RequestLogs.NextRow false (Some x), rows) | [] => (RequestLogs.NoRow false, []) end
  | c => (nothing _ c, rows)
  end.

(** A request to the server of the example. *)
Definition server : Server :=
  {| has_admins := true; has_providers := true; has_health := true; has_recorder := true; has_alerting := true; has_tester := true;
     has_updates := true; has_gateway := true; has_web := true; has_runtime := true; has_settings_runtime := true;
     has_account_concurrency := true; has_key_concurrency := true; has_key_rates := true; tasks := []; build := VNil; version := "1";
     PublicURL := ""; AdminUsername := "root"; AdminLoginThrottleEnabled := true; AllowUnsafeMultiInstance := false;
     TrustedProxyCIDRs := []; has_auto_test := true; has_log_retention := true; ExportMaxRows := 1000; redirect_status := 307 |}.

Definition request (method path body : string) (headers : list (string * string)) : HTTPRequest :=
  {| base := {| RequestInfo.Method := method; RequestInfo.URLPath := path; RequestInfo.Header := headers;
                RequestInfo.Cookies := [("n2api_admin_session", "token")]; RequestInfo.RemoteAddr := "192.0.2.1:99";
                RequestInfo.Host := "n2api.test"; RequestInfo.TLS := false |};
     info := {| RequestInfo.ClientIP := ""; RequestInfo.I_Scheme := ""; RequestInfo.I_Host := "" |}; EscapedPath := path; RequestURI := path;
     Query := []; QueryValid := true; Body := Some body; ContentLength := go_len body; PathValues := []; Pattern := "" |}.

End Demo.
End HttpApi.
