(* ===== verification/HttpRouting.v ===== *)
(** * The management interface: what it shows of the routing

    The functions of [httpapi/server.go] that compute what administrators see:
    the state of the models and the accounts behind them
    ([modelRoutingStatus]), the diagnosis of a selection preview, and the limits
    of keys and accounts.  The accounts shown as schedulable are those the
    gateway's query selects, in the same order. *)

From S2P Require Import Prelude GoStrings Account Scheduling ProviderStore AdminBase AdminKeys SettingsRuntime.
From Stdlib Require Import Ascii.
From Stdlib Require String.

Module HttpRouting.
Import Account Scheduling.

(** ** The state of the models *)

Record ModelRoutingAccount := {
  R_ID : Z; R_DisplayName : string; R_AccountType : string; R_RoutingPoolIDs : list Z; R_Enabled : bool; R_Priority : Z;
  R_LoadFactor : Z; R_Status : string; R_StatusReason : string; R_LastError : string; R_LastErrorAt : option Time;
  R_LastUsedAt : option Time; R_ScheduleRank : Z; R_Schedulable : bool; R_UnschedulableReason : string
}.

Record ModelRoutingModel := {
  MM_Model : string; ConfiguredCount : Z; EnabledCount : Z; MM_Accounts : list ModelRoutingAccount
}.

Record ModelRoutingStatus := { ST_DefaultModel : string; ST_Models : list ModelRoutingModel; ST_Warnings : list string }.

Definition normalizedProviderAccountLoadFactor (v : Z) : Z := if bool_decide (v ≤ 0) then 1 else v.

Definition modelRoutingUnschedulableReason (a : Account) (modelEnabled : bool) (now : Time) : string :=
  if negb modelEnabled then "model disabled"
  else if negb (Enabled a) then "account disabled"
  else
    let windows :=
      if set_after (RateLimitedUntil a) now then "rate limited"
      else if set_after (CircuitOpenUntil a) now then "circuit open" else "" in
    if str_eq (Status a) "" || str_eq (Status a) AccountStatusActive then windows
    else if str_eq (Status a) AccountStatusRateLimited
    then if unset_or_after (RateLimitedUntil a) now then "rate limited" else windows
    else if str_eq (Status a) AccountStatusCircuitOpen
    then if unset_or_after (CircuitOpenUntil a) now then "circuit open" else windows
    else if str_eq (Status a) AccountStatusDisabled then "account disabled"
    else if str_eq (Status a) AccountStatusExpired then "account expired"
    else "status " +++ Status a.

(** The pools of an account in ascending order; a pool is its id and the ids of
    its accounts. *)
Definition routingPoolIDsByAccount (pools : list (Z * list Z)) (account : Z) : list Z :=
  merge_sort Z.le (flat_map (fun p => map (fun _ => fst p) (List.filter (fun i => bool_decide (i = account)) (snd p))) pools).

Definition routing_account (a : Account) (pools : list (Z * list Z)) (modelEnabled : bool) (now : Time) : ModelRoutingAccount :=
  {| R_ID := ID a; R_DisplayName := DisplayName a; R_AccountType := AccountType a;
     R_RoutingPoolIDs := routingPoolIDsByAccount pools (ID a); R_Enabled := Enabled a; R_Priority := Priority a;
     R_LoadFactor := normalizedProviderAccountLoadFactor (LoadFactor a); R_Status := Status a;
     R_StatusReason := StatusReason a; R_LastError := LastError a; R_LastErrorAt := LastErrorAt a;
     R_LastUsedAt := LastUsedAt a; R_ScheduleRank := 0; R_Schedulable := AccountSchedulable a now && modelEnabled;
     R_UnschedulableReason := modelRoutingUnschedulableReason a modelEnabled now |}.

(** One model of one account: the entry of the model is created when it is new. *)
Fixpoint add_model (model : string) (x : ModelRoutingAccount) (l : list ModelRoutingModel) : list ModelRoutingModel :=
  let enabled := if R_Schedulable x then 1 else 0 in
  match l with
  | [] => [{| MM_Model := model; ConfiguredCount := 1; EnabledCount := enabled; MM_Accounts := [x] |}]
  | m :: l =>
      if str_eq (MM_Model m) model
      then {| MM_Model := model; ConfiguredCount := ConfiguredCount m + 1; EnabledCount := EnabledCount m + enabled;
              MM_Accounts := MM_Accounts m ++ [x] |} :: l
      else m :: add_model model x l
  end.

Definition models_of (modelsByAccount : list (Z * list AccountModel)) (id : Z) : list AccountModel :=
  match List.find (fun p => bool_decide (fst p = id)) modelsByAccount with Some (_, l) => l | None => [] end.

Definition collect_models (accounts : list Account) (modelsByAccount : list (Z * list AccountModel)) (pools : list (Z * list Z))
    (now : Time) : list ModelRoutingModel :=
  foldl (fun acc a =>
           foldl (fun acc m => add_model (Model m) (routing_account a pools (M_Enabled m) now) acc) acc
                 (models_of modelsByAccount (ID a)))
        [] accounts.

(** [sortModelRoutingAccounts] *)
Definition time_lt (l r : option Time) : option bool :=
  match l, r with
  | None, Some _ => Some true
  | Some _, None => Some false
  | Some x, Some y => if bool_decide (x = y) then None else Some (time_before x y)
  | None, None => None
  end.

Definition routing_less (source : Z → Account) (x y : ModelRoutingAccount) : bool :=
  let left := source (R_ID x) in
  let right := source (R_ID y) in
  if negb (Bool.eqb (R_Schedulable x) (R_Schedulable y)) then R_Schedulable x
  else if negb (bool_decide (Priority left = Priority right)) then bool_decide (Priority left < Priority right)
  else
    let lf := normalizedProviderAccountLoadFactor (LoadFactor left) in
    let rf := normalizedProviderAccountLoadFactor (LoadFactor right) in
    if negb (bool_decide (lf = rf)) then bool_decide (rf < lf)
    else if negb (Bool.eqb (is_set (LastErrorAt left)) (is_set (LastErrorAt right))) then negb (is_set (LastErrorAt left))
    else match time_lt (LastUsedAt left) (LastUsedAt right) with
         | Some b => b
         | None => bool_decide (ID left < ID right)
         end.

(** [map[int64]provider.Account]: the last account of an id. *)
Definition zero_account : Account :=
  {| ID := 0; Provider := ""; AccountType := ""; Subject := ""; Name := ""; DisplayName := ""; BaseURL := "";
     Credential := Build_AccountCredential "" "" "" "" None None "" None "" "" "" None;
     EncryptedAccessToken := ""; EncryptedRefreshToken := ""; EncryptedIDToken := ""; AccessTokenExpiresAt := None;
     LastRefreshAt := None; Enabled := false; Priority := 0; GlobalPriority := 0; RoutingPoolPriority := None;
     LoadFactor := 0; MaxConcurrentRequests := 0; LastUsedAt := None; LastError := ""; LastErrorAt := None;
     LastTestAt := None; LastTestStatus := ""; LastTestError := ""; Metadata := None; Status := ""; StatusReason := "";
     FingerprintHash := ""; UserAgentHash := ""; IPHash := ""; FailureCount := 0; CircuitOpenUntil := None;
     RateLimitedUntil := None; FingerprintProfileID := None; LastRefreshError := ""; LastRefreshErrorAt := None |}.

Definition accounts_by_id (accounts : list Account) (id : Z) : Account :=
  default zero_account (List.find (fun a => bool_decide (ID a = id)) (rev accounts)).

Definition sortModelRoutingAccounts (l : list ModelRoutingAccount) (source : list Account) : list ModelRoutingAccount :=
  SliceStable (routing_less (accounts_by_id source)) l.

Definition set_rank (rank : Z) (x : ModelRoutingAccount) : ModelRoutingAccount :=
  {| R_ID := R_ID x; R_DisplayName := R_DisplayName x; R_AccountType := R_AccountType x; R_RoutingPoolIDs := R_RoutingPoolIDs x;
     R_Enabled := R_Enabled x; R_Priority := R_Priority x; R_LoadFactor := R_LoadFactor x; R_Status := R_Status x;
     R_StatusReason := R_StatusReason x; R_LastError := R_LastError x; R_LastErrorAt := R_LastErrorAt x;
     R_LastUsedAt := R_LastUsedAt x; R_ScheduleRank := rank; R_Schedulable := R_Schedulable x;
     R_UnschedulableReason := R_UnschedulableReason x |}.

Definition rank_accounts (l : list ModelRoutingAccount) : list ModelRoutingAccount :=
  imap (fun i x => set_rank (Z.of_nat i + 1) x) l.

Definition with_accounts (m : ModelRoutingModel) (l : list ModelRoutingAccount) : ModelRoutingModel :=
  {| MM_Model := MM_Model m; ConfiguredCount := ConfiguredCount m; EnabledCount := EnabledCount m; MM_Accounts := l |}.

Definition model_le (x y : ModelRoutingModel) : Prop := String.leb (MM_Model x) (MM_Model y) = true.

#[export] Instance model_le_dec : RelDecision model_le.
Proof. intros x y. unfold model_le. apply _. Defined.

(** [modelRoutingStatus], given what its calls answered. *)
Definition modelRoutingStatus (defaultModel : string) (accounts : list Account) (pools : list (Z * list Z))
    (modelsByAccount : list (Z * list AccountModel)) (now : Time) : ModelRoutingStatus :=
  let models := merge_sort model_le (collect_models accounts modelsByAccount pools now) in
  let models := map (fun m => with_accounts m (rank_accounts (sortModelRoutingAccounts (MM_Accounts m) accounts))) models in
  {| ST_DefaultModel := defaultModel; ST_Models := models;
     ST_Warnings := map (fun m => "model " +++ MM_Model m +++ " has no schedulable account")
                        (List.filter (fun m => bool_decide (EnabledCount m = 0)) models) |}.

(** ** Limits shown with keys and accounts *)

Definition effectiveAPIKeyRateLimit (override fallback : Z) : Z := if bool_decide (0 < override) then override else fallback.

Definition rateWindowState (current limit : Z) : Z * bool :=
  if bool_decide (limit ≤ 0) then (0, false)
  else (Z.max 0 (wrap64 (limit - current)), bool_decide (limit ≤ current)).

Definition effectiveAccountMaxConcurrentRequests (accountMax : Z) (settings : SettingsRuntime.GatewaySettings) : Z :=
  if bool_decide (0 < accountMax) then accountMax else SettingsRuntime.MaxConcurrentRequestsPerAccount settings.

(** Reading a Go map of numbers: zero where there is no entry. *)
Definition count_of (m : list (Z * Z)) (id : Z) : Z :=
  match List.find (fun p => bool_decide (fst p = id)) m with Some (_, v) => v | None => 0 end.

Definition APIKeyPhysicalDeleteRetention : Duration := 7 * 24 * Hour.

Definition apiKeyPhysicalDeleteAt (k : AdminKeys.APIKey) : option Time :=
  (fun t => t + APIKeyPhysicalDeleteRetention) <$> AdminKeys.K_RevokedAt k.

(** [U] is the type of a key's budget usage. *)
Record apiKeyResponse (U : Type) := {
  KR_Key : AdminKeys.APIKey; KR_BudgetUsage : option U; PhysicalDeleteAt : option Time; CurrentConcurrentRequests : Z;
  EffectiveMaxConcurrentRequests : Z; ConcurrencyBlocked : bool; CurrentRequestsThisMinute : Z; EffectiveRequestsPerMinute : Z;
  RequestRateRemaining : Z; RequestRateLimited : bool; CurrentTokensThisMinute : Z; EffectiveTokensPerMinute : Z;
  TokenRateRemaining : Z; TokenRateLimited : bool
}.

Arguments Build_apiKeyResponse {U}.

Definition apiKeyResponses {U} (keys : list AdminKeys.APIKey) (budgetUsage : list (Z * U)) (settings : SettingsRuntime.GatewaySettings)
    (concurrency requestRate tokenRate : list (Z * Z)) : list (apiKeyResponse U) :=
  let maxConcurrent := SettingsRuntime.MaxConcurrentRequestsPerKey settings in
  map (fun k =>
    let id := AdminKeys.K_ID k in
    let concurrent := count_of concurrency id in
    let requests := count_of requestRate id in
    let perMinute := effectiveAPIKeyRateLimit (AdminKeys.K_RequestsPerMinute k) (SettingsRuntime.RequestsPerMinutePerKey settings) in
    let tokens := count_of tokenRate id in
    let tokensPerMinute := effectiveAPIKeyRateLimit (AdminKeys.K_TokensPerMinute k) (SettingsRuntime.TokensPerMinutePerKey settings) in
    {| KR_Key := k; KR_BudgetUsage := snd <$> List.find (fun p => bool_decide (fst p = id)) budgetUsage;
       PhysicalDeleteAt := apiKeyPhysicalDeleteAt k; CurrentConcurrentRequests := concurrent;
       EffectiveMaxConcurrentRequests := maxConcurrent;
       ConcurrencyBlocked := bool_decide (0 < maxConcurrent) && bool_decide (maxConcurrent ≤ concurrent);
       CurrentRequestsThisMinute := requests; EffectiveRequestsPerMinute := perMinute;
       RequestRateRemaining := fst (rateWindowState requests perMinute);
       RequestRateLimited := snd (rateWindowState requests perMinute);
       CurrentTokensThisMinute := tokens; EffectiveTokensPerMinute := tokensPerMinute;
       TokenRateRemaining := fst (rateWindowState tokens tokensPerMinute);
       TokenRateLimited := snd (rateWindowState tokens tokensPerMinute) |}) keys.

Record providerAccountResponse := { AR_Account : Account; AR_Current : Z; AR_Effective : Z }.

Definition providerAccountResponses (accounts : list Account) (settings : SettingsRuntime.GatewaySettings)
    (concurrency : list (Z * Z)) : list providerAccountResponse :=
  map (fun a => {| AR_Account := a; AR_Current := count_of concurrency (ID a);
                   AR_Effective := effectiveAccountMaxConcurrentRequests (MaxConcurrentRequests a) settings |}) accounts.

(** ** The diagnosis of a selection preview *)

Record selectionCandidateResponse := {
  CR_Candidate : SelectionCandidate; CR_Current : Z; CR_Effective : Z; CR_ConcurrencyBlocked : bool
}.

Record selectionPreviewResponse := {
  PR_Preview : SelectionPreview; DiagnosisStatus : string; DiagnosisSummary : string; DiagnosisHints : list string;
  BlockedReasonCounts : list (string * Z); PR_Candidates : list selectionCandidateResponse
}.

Definition selectedSelectionCandidate (selected : Z) (l : list selectionCandidateResponse) : option selectionCandidateResponse :=
  List.find (fun c => Selected (CR_Candidate c) || bool_decide (SC_ID (CR_Candidate c) = selected)) l.

Definition selectionCandidateDisplayName (c : selectionCandidateResponse) : string :=
  let name := TrimSpace (SC_DisplayName (CR_Candidate c)) in
  if negb (str_eq name "") then name else "Account " +++ FormatInt (SC_ID (CR_Candidate c)).

(** [counts[reason]++] *)
Fixpoint count_reason (reason : string) (l : list (string * Z)) : list (string * Z) :=
  match l with
  | [] => [(reason, 1)]
  | (r, n) :: l => if str_eq r reason then (r, n + 1) :: l else (r, n) :: count_reason reason l
  end.

Definition reason_le (x y : string * Z) : Prop :=
  snd y < snd x ∨ (snd x = snd y ∧ String.leb (fst x) (fst y) = true).

#[export] Instance reason_le_dec : RelDecision reason_le.
Proof. intros x y. unfold reason_le. apply _. Defined.

(** The reasons are distinct, so the order does not depend on the map's. *)
Definition blockedReasonCounts (l : list selectionCandidateResponse) : list (string * Z) :=
  let reasons := List.filter (fun r => negb (str_eq r ""))
                   (map (fun c => TrimSpace (UnschedulableReason (CR_Candidate c))) l) in
  merge_sort reason_le (foldl (fun acc r => count_reason r acc) [] reasons).

Definition blockedSelectionSummary (model : string) (reasons : list (string * Z)) : string :=
  match reasons with
  | [] => "No schedulable account for " +++ model +++ "."
  | (r, _) :: _ => "No schedulable account for " +++ model +++ ": " +++ r +++ "."
  end.

Definition reason_hint (reason : string) : string :=
  let reason := ToLower reason in
  if Contains reason "model not configured" then "Configure the requested model on at least one enabled provider account."
  else if Contains reason "concurrency" then "Reduce concurrent requests or raise the selected account concurrency limit."
  else if Contains reason "disabled" then "Enable at least one provider account in the routing scope."
  else if Contains reason "rate limit" then "Wait for the rate limit window to reset or add another account to the routing pool."
  else if Contains reason "excluded" then "Remove excluded account IDs or choose a routing pool with other schedulable accounts."
  else "".

Definition addHint (hints : list string) (hint : string) : list string :=
  if str_eq hint "" || bool_decide (hint ∈ hints) then hints else hints ++ [hint].

Definition selectionDiagnosisHints (reasons : list (string * Z)) (routingPoolError : string) : list string :=
  let hints := foldl (fun acc r => addHint acc (reason_hint (fst r))) [] reasons in
  if negb (str_eq (TrimSpace routingPoolError) "")
  then addHint hints "Check the routing pool membership, enabled state, and fallback chain." else hints.

Definition selectionPreviewWithConcurrency (preview : SelectionPreview) (accounts : list Account)
    (settings : SettingsRuntime.GatewaySettings) (concurrency : list (Z * Z)) : selectionPreviewResponse :=
  let candidates :=
    map (fun c =>
      let effective :=
        match List.find (fun a => bool_decide (ID a = SC_ID c)) (rev accounts) with
        | Some a => effectiveAccountMaxConcurrentRequests (MaxConcurrentRequests a) settings
        | None => SettingsRuntime.MaxConcurrentRequestsPerAccount settings
        end in
      let current := count_of concurrency (SC_ID c) in
      {| CR_Candidate := c; CR_Current := current; CR_Effective := effective;
         CR_ConcurrencyBlocked := bool_decide (0 < effective) && bool_decide (effective ≤ current) |}) (Candidates preview) in
  let reasons := blockedReasonCounts candidates in
  let diagnosed status summary hints :=
    {| PR_Preview := preview; DiagnosisStatus := status; DiagnosisSummary := summary; DiagnosisHints := hints;
       BlockedReasonCounts := reasons; PR_Candidates := candidates |} in
  let selected := if bool_decide (SelectedAccountID preview ≤ 0) then None
                  else selectedSelectionCandidate (SelectedAccountID preview) candidates in
  match selected with
  | None =>
      diagnosed "blocked" (blockedSelectionSummary (SP_Model preview) reasons)
        (selectionDiagnosisHints reasons (SP_RoutingPoolError preview))
  | Some c =>
      let name := selectionCandidateDisplayName c in
      if CR_ConcurrencyBlocked c then
        diagnosed "degraded"
          ("Selected " +++ name +++ " for " +++ SP_Model preview +++ ", but current concurrency is at the effective limit.")
          (selectionDiagnosisHints [("concurrency limit reached", 1)] (SP_RoutingPoolError preview))
      else
        diagnosed "routable" ("Selected " +++ name +++ " for " +++ SP_Model preview +++ ".")
          (selectionDiagnosisHints reasons (SP_RoutingPoolError preview))
  end.

Definition parseExcludedAccountIDs (raw : string) : option (list Z) :=
  if str_eq (TrimSpace raw) "" then Some []
  else
    mapM (fun v => id ← Atoi v; if bool_decide (id ≤ 0) then None else Some id)
         (List.filter (fun v => negb (str_eq v "")) (map TrimSpace (Split raw ","%char))).

(** ** What is shown is what the gateway does *)

(** The order of the routing state as a key: schedulable accounts first, then
    the columns of the repository's query. *)
Definition routing_key (source : Z → Account) (x : ModelRoutingAccount) : list Z :=
  let a := source (R_ID x) in
  [(if R_Schedulable x then 0 else 1); Priority a; - normalizedProviderAccountLoadFactor (LoadFactor a);
   Z.b2z (is_set (LastErrorAt a)); Z.b2z (is_set (LastUsedAt a)); default 0 (LastUsedAt a); ID a].

Abbreviation lex_le := ProviderStore.lex_le.

Lemma lex_le_cons x l y k : lex_le (x :: l) (y :: k) = (bool_decide (x < y) || (bool_decide (x = y) && lex_le l k)).
Proof. done. Qed.

Lemma lex_step x l y k (b : bool) :
  (x = y → b = negb (lex_le k l)) → (x ≠ y → b = bool_decide (x < y)) → b = negb (lex_le (y :: k) (x :: l)).
Proof.
  intros H1 H2. rewrite lex_le_cons. destruct (decide (x = y)) as [->|Hne].
  - rewrite (bool_decide_eq_false_2 (y < y)) by lia. rewrite (bool_decide_eq_true_2 (y = y)) by done. by apply H1.
  - rewrite (bool_decide_eq_false_2 (y = x)) by congruence. rewrite andb_false_l, orb_false_r, H2 by done.
    rewrite <- bool_decide_not. apply bool_decide_ext. lia.
Qed.

Lemma routing_less_key source x y :
  routing_less source x y = negb (lex_le (routing_key source y) (routing_key source x)).
Proof.
  unfold routing_key, routing_less. set (a := source (R_ID x)). set (b := source (R_ID y)). cbv zeta.
  apply lex_step.
  2: { destruct (R_Schedulable x), (R_Schedulable y); cbn; intros ?; try done. }
  intros Es. assert (R_Schedulable x = R_Schedulable y) as -> by (by destruct (R_Schedulable x), (R_Schedulable y)).
  rewrite Bool.eqb_reflx. cbn [negb].
  apply lex_step; [intros ->|intros Hne; by rewrite (bool_decide_eq_false_2 _ Hne)].
  rewrite bool_decide_eq_true_2 by done. cbn [negb].
  set (lf := normalizedProviderAccountLoadFactor (LoadFactor a)). set (rf := normalizedProviderAccountLoadFactor (LoadFactor b)).
  apply lex_step.
  2: { intros Hne. rewrite (bool_decide_eq_false_2 (lf = rf)) by lia. cbn. apply bool_decide_ext. lia. }
  intros Hl. rewrite (bool_decide_eq_true_2 (lf = rf)) by lia. cbn [negb].
  apply lex_step.
  2: { destruct (is_set (LastErrorAt a)), (is_set (LastErrorAt b)); cbn; intros ?; try done. }
  intros He. assert (is_set (LastErrorAt a) = is_set (LastErrorAt b)) as -> by (by destruct (is_set (LastErrorAt a)), (is_set (LastErrorAt b))).
  rewrite Bool.eqb_reflx. cbn [negb]. unfold time_lt, time_before.
  assert (bool_decide (ID a < ID b) = negb (lex_le [ID b] [ID a])) as Hid.
  { cbn. rewrite andb_true_r, negb_orb, <- !bool_decide_not, <- bool_decide_and. apply bool_decide_ext. lia. }
  destruct (LastUsedAt a) as [t|], (LastUsedAt b) as [u|]; cbn [is_set default from_option id Z.b2z];
    apply lex_step; try done; intros _; apply lex_step; try done; try (intros _; by apply lex_step).
  - intros ->. by rewrite bool_decide_eq_true_2.
  - intros Hne. by rewrite bool_decide_eq_false_2.
Qed.

Lemma lex_le_total l k : lex_le l k = false → lex_le k l = true.
Proof.
  revert k. induction l as [|x l IH]; intros [|y k]; try done. rewrite !lex_le_cons, orb_false_iff, andb_false_iff, !bool_decide_eq_false.
  intros [H1 H2]. destruct (decide (x = y)) as [->|Hne].
  - rewrite (bool_decide_eq_true_2 (y = y)), IH by naive_solver. by rewrite orb_true_r.
  - by rewrite bool_decide_eq_true_2 by lia.
Qed.

Lemma lex_le_trans l k m : lex_le l k = true → lex_le k m = true → lex_le l m = true.
Proof.
  revert k m. induction l as [|x l IH]; intros [|y k] [|z m]; try done.
  rewrite !lex_le_cons, !orb_true_iff, !andb_true_iff, !bool_decide_eq_true.
  intros [?|[-> ?]] [?|[-> ?]]; [left; lia|left; lia|left; lia|right; split; [done|by eapply IH]].
Qed.

Lemma lex_le_antisym l k : length l = length k → lex_le l k = true → lex_le k l = true → l = k.
Proof.
  revert k. induction l as [|x l IH]; intros [|y k]; try done. rewrite !lex_le_cons, !orb_true_iff, !andb_true_iff, !bool_decide_eq_true.
  intros [= Hl] [?|[-> ?]] [?|[? ?]]; try lia. f_equal. auto.
Qed.

Lemma sorted_impl {A} (R S : A → A → Prop) l : (∀ x y, R x y → S x y) → StronglySorted R l → StronglySorted S l.
Proof. intros H. induction 1 as [|x l _ IH Hx]; constructor; [done|]. eapply Forall_impl; [exact Hx|]. auto. Qed.

Lemma sorted_by_key accounts l :
  StronglySorted (fun x y => lex_le (routing_key (accounts_by_id accounts) x) (routing_key (accounts_by_id accounts) y) = true)
    (sortModelRoutingAccounts l accounts).
Proof.
  unfold sortModelRoutingAccounts. set (src := accounts_by_id accounts).
  eapply sorted_impl; [|apply (SliceStable_sorted (routing_less src))].
  - intros x y. cbn beta. by rewrite routing_less_key, negb_false_iff.
  - intros x y. rewrite !routing_less_key, negb_true_iff, negb_false_iff. apply lex_le_total.
  - intros x y z. rewrite !routing_less_key, !negb_false_iff. intros. by eapply lex_le_trans.
Qed.

(** The accounts listed for a model. *)
Definition accounts_in (model : string) (l : list ModelRoutingModel) : list ModelRoutingAccount :=
  match List.find (fun m => str_eq (MM_Model m) model) l with Some m => MM_Accounts m | None => [] end.

Lemma accounts_in_add model name x l :
  accounts_in model (add_model name x l) = accounts_in model l ++ (if str_eq name model then [x] else []).
Proof.
  unfold accounts_in. induction l as [|m l IH]; simpl.
  - by destruct (str_eq name model).
  - destruct (str_eq (MM_Model m) name) eqn:E; simpl.
    + apply AdminBase.str_eq_true in E as ->. destruct (str_eq name model); [done|by rewrite app_nil_r].
    + destruct (str_eq (MM_Model m) model) eqn:E2; [|exact IH].
      apply AdminBase.str_eq_true in E2 as <-. destruct (str_eq name (MM_Model m)) eqn:E3; [|by rewrite app_nil_r].
      apply AdminBase.str_eq_true in E3 as ->. by rewrite AdminBase.str_eq_refl in E.
Qed.

(** The entries of one account for a model. *)
Definition account_entries (a : Account) (mba : list (Z * list AccountModel)) (pools : list (Z * list Z)) (now : Time) (model : string)
  : list ModelRoutingAccount :=
  map (fun m => routing_account a pools (M_Enabled m) now) (List.filter (fun m => str_eq (Model m) model) (models_of mba (ID a))).

Lemma accounts_in_collect accounts mba pools now model :
  accounts_in model (collect_models accounts mba pools now) =
  flat_map (fun a => account_entries a mba pools now model) accounts.
Proof.
  unfold collect_models. enough (∀ acc, accounts_in model
      (foldl (fun acc a => foldl (fun acc m => add_model (Model m) (routing_account a pools (M_Enabled m) now) acc) acc
         (models_of mba (ID a))) acc accounts) =
      accounts_in model acc ++ flat_map (fun a => account_entries a mba pools now model) accounts) as H by apply (H []).
  induction accounts as [|a accounts IH]; intros acc; simpl; [by rewrite app_nil_r|].
  rewrite IH, app_assoc. f_equal. unfold account_entries. generalize (models_of mba (ID a)) as l. clear.
  intros l. revert acc. induction l as [|m l IH]; intros acc; simpl; [by rewrite app_nil_r|].
  rewrite IH, accounts_in_add, <- app_assoc. f_equal. by destruct (str_eq (Model m) model).
Qed.

Lemma add_model_names name x l : NoDup (map MM_Model l) → NoDup (map MM_Model (add_model name x l)).
Proof.
  assert (∀ l, name ∉ map MM_Model l → map MM_Model (add_model name x l) = map MM_Model l ++ [name]) as Hnew.
  { intros k. induction k as [|m k IH]; simpl; [done|]. intros Hn. rewrite not_elem_of_cons in Hn. destruct Hn as [Hn Hl].
    destruct (str_eq (MM_Model m) name) eqn:E; [by apply AdminBase.str_eq_true in E|]. simpl. by rewrite IH. }
  assert (∀ l, name ∈ map MM_Model l → map MM_Model (add_model name x l) = map MM_Model l) as Hold.
  { intros k. induction k as [|m k IH]; simpl; [by intros ?%not_elem_of_nil|]. intros Hn.
    destruct (str_eq (MM_Model m) name) eqn:E; simpl; [by apply AdminBase.str_eq_true in E as ->|].
    f_equal. apply IH. apply elem_of_cons in Hn as [->|]; [|done]. by rewrite AdminBase.str_eq_refl in E. }
  intros Hnd. destruct (decide (name ∈ map MM_Model l)) as [Hi|Hi]; [by rewrite Hold|].
  rewrite Hnew by done. by apply AdminBase.NoDup_snoc.
Qed.

Lemma collect_names accounts mba pools now : NoDup (map MM_Model (collect_models accounts mba pools now)).
Proof.
  unfold collect_models. enough (∀ acc, NoDup (map MM_Model acc) → NoDup (map MM_Model
      (foldl (fun acc a => foldl (fun acc m => add_model (Model m) (routing_account a pools (M_Enabled m) now) acc) acc
         (models_of mba (ID a))) acc accounts))) as H by (apply H; constructor).
  induction accounts as [|a accounts IH]; intros acc Ha; simpl; [done|]. apply IH. revert acc Ha.
  induction (models_of mba (ID a)) as [|m l IHl]; intros acc Ha; simpl; [done|]. by apply IHl, add_model_names.
Qed.

Lemma find_perm {A} (f : A → string) (l k : list A) name :
  NoDup (map f l) → l ≡ₚ k → List.find (fun x => str_eq (f x) name) l = List.find (fun x => str_eq (f x) name) k.
Proof.
  intros Hnd Hp. induction Hp as [|x l k Hp IH|x y l|l k m H1 IH1 H2 IH2]; simpl; [done| | |].
  - apply NoDup_cons in Hnd as [_ Hnd]. by rewrite IH.
  - apply NoDup_cons in Hnd as [Hx _]. simpl in Hx. rewrite not_elem_of_cons in Hx. destruct Hx as [Hne _].
    destruct (str_eq (f x) name) eqn:Ex, (str_eq (f y) name) eqn:Ey; try done.
    apply AdminBase.str_eq_true in Ex, Ey. congruence.
  - rewrite IH1 by done. apply IH2. by rewrite <- H1.
Qed.

(** The entry shown for a model. *)
Lemma shown_accounts dflt accounts pools mba now model :
  accounts_in model (ST_Models (modelRoutingStatus dflt accounts pools mba now)) =
  rank_accounts (sortModelRoutingAccounts (flat_map (fun a => account_entries a mba pools now model) accounts) accounts).
Proof.
  rewrite <- accounts_in_collect. unfold modelRoutingStatus. cbn [ST_Models]. unfold accounts_in.
  set (L := collect_models accounts mba pools now).
  rewrite (find_perm MM_Model L (merge_sort model_le L) model);
    [|apply collect_names|by rewrite merge_sort_Permutation].
  induction (merge_sort model_le L) as [|m l IH]; simpl; [done|]. by destruct (str_eq (MM_Model m) model).
Qed.

Lemma sorted_filter {A} (R : A → A → Prop) (p : A → bool) l : StronglySorted R l → StronglySorted R (List.filter p l).
Proof.
  induction 1 as [|x l _ IH Hx]; simpl; [constructor|]. destruct (p x); [|done]. constructor; [done|].
  rewrite Forall_forall in Hx |- *. intros y Hy. apply list_elem_of_In, filter_In in Hy as [Hy _]. apply Hx. by apply list_elem_of_In.
Qed.

Lemma sorted_map {A B} (R : A → A → Prop) (S : B → B → Prop) (f : A → B) l :
  (∀ x y, x ∈ l → y ∈ l → R x y → S (f x) (f y)) → StronglySorted R l → StronglySorted S (map f l).
Proof.
  intros H Hs. induction Hs as [|x l _ IH Hx]; simpl; constructor.
  - apply IH. intros y z Hy Hz. apply H; by right.
  - rewrite Forall_forall in Hx. apply Forall_forall. intros y (z & -> & Hz)%list_elem_of_fmap. apply H; [by left|by right|by apply Hx].
Qed.

Lemma filter_perm {A} (p : A → bool) (l k : list A) : l ≡ₚ k → List.filter p l ≡ₚ List.filter p k.
Proof. induction 1; simpl; repeat case_match; try constructor; try done. by etrans. Qed.

Lemma ranked_ids l : map R_ID (List.filter R_Schedulable (rank_accounts l)) = map R_ID (List.filter R_Schedulable l).
Proof.
  assert (∀ (f : nat → Z), map R_ID (List.filter R_Schedulable (imap (fun i x => set_rank (f i) x) l)) =
    map R_ID (List.filter R_Schedulable l)) as H; [|apply (H (fun i => Z.of_nat i + 1))].
  induction l as [|x l IH]; intros f; [done|]. rewrite imap_cons. cbn [List.filter]. cbn [R_Schedulable set_rank].
  specialize (IH (fun i => f (S i))). unfold compose. destruct (R_Schedulable x); cbn [map]; by rewrite IH.
Qed.

(** The tables keep ids unique and load factors positive, and store times in
    microseconds. *)
Record consistent (s : ProviderStore.store) : Prop := {
  ids_unique : NoDup (map ID (ProviderStore.rows s));
  factors_positive : Forall (fun a => 1 ≤ LoadFactor a) (ProviderStore.rows s);
  times_aligned : Forall (fun a => ProviderStore.aligned (RateLimitedUntil a) ∧ ProviderStore.aligned (CircuitOpenUntil a))
                    (ProviderStore.rows s)
}.

Lemma find_id (l : list Account) a : NoDup (map ID l) → a ∈ l → List.find (fun b => bool_decide (ID b = ID a)) l = Some a.
Proof.
  induction l as [|b l IH]; simpl; [by intros _ ?%not_elem_of_nil|]. intros [Hb Hl]%NoDup_cons [->|Ha]%elem_of_cons.
  - by rewrite bool_decide_eq_true_2.
  - rewrite bool_decide_eq_false_2; [by apply IH|]. intros E. apply Hb. rewrite E. by apply list_elem_of_fmap_2.
Qed.

Section agreement.
Context (s : ProviderStore.store) (Hs : consistent s) (pools : list (Z * list Z)) (now : Time).
Let accounts := merge_sort ProviderStore.account_le (ProviderStore.rows s).

(** What [ListAccountModelsForAccounts] answers. *)
Definition models_by_account (ids : list Z) : list (Z * list AccountModel) :=
  map (fun i => (i, List.filter (fun m => bool_decide (M_AccountID m = i)) (ProviderStore.models s))) ids.
Let mba := models_by_account (map ID accounts).

Lemma accounts_perm : accounts ≡ₚ ProviderStore.rows s.
Proof. apply merge_sort_Permutation. Qed.

Lemma source_row a : a ∈ ProviderStore.rows s → accounts_by_id accounts (ID a) = a.
Proof.
  intros Ha. unfold accounts_by_id. rewrite find_id; [done| |].
  - rewrite map_rev, <- Permutation_rev. rewrite (Permutation_map ID accounts_perm). apply (ids_unique _ Hs).
  - rewrite <- Permutation_rev, accounts_perm. done.
Qed.

Lemma models_of_row a : a ∈ ProviderStore.rows s →
  models_of mba (ID a) = List.filter (fun m => bool_decide (M_AccountID m = ID a)) (ProviderStore.models s).
Proof.
  intros Ha. unfold models_of, mba, models_by_account. rewrite <- accounts_perm in Ha.
  induction accounts as [|b l IH]; simpl; [by apply not_elem_of_nil in Ha|].
  case_bool_decide as E; [by rewrite E|]. apply IH. apply elem_of_cons in Ha as [->|]; [done|done].
Qed.

(** The accounts of a model, one for each entry. *)
Lemma entries_accounts a model :
  a ∈ ProviderStore.rows s →
  map (fun x => accounts_by_id accounts (R_ID x)) (List.filter R_Schedulable (account_entries a mba pools now model)) =
  (if ProviderStore.sql_schedulable now a && negb (bool_decide (ID a ∈ ([] : list Z)))
   then map (fun _ => a) (List.filter (ProviderStore.sql_model_matches a model "") (ProviderStore.models s)) else []).
Proof.
  intros Ha. pose proof (times_aligned _ Hs) as Ht. rewrite Forall_forall in Ht. destruct (Ht a Ha) as [H1 H2].
  rewrite ProviderStore.sql_schedulable_exact by done. unfold account_entries. rewrite models_of_row by done.
  rewrite (bool_decide_eq_false_2 (_ ∈ [])) by apply not_elem_of_nil. cbn [negb]. rewrite andb_true_r.
  induction (ProviderStore.models s) as [|m l IH]; simpl; [by destruct (AccountSchedulable a now)|].
  unfold ProviderStore.sql_model_matches at 1. cbn [str_eq]. rewrite (AdminBase.str_eq_refl ""). cbn [orb]. rewrite andb_true_r.
  destruct (bool_decide (M_AccountID m = ID a)); simpl; [|done].
  destruct (str_eq (Model m) model); simpl; [|done].
  destruct (AccountSchedulable a now) eqn:Ea; simpl; [|done].
  destruct (M_Enabled m); simpl; [|done]. rewrite IH. by rewrite source_row.
Qed.

Lemma entry_row x a model : x ∈ account_entries a mba pools now model → R_ID x = ID a.
Proof. unfold account_entries. by intros (m & -> & _)%list_elem_of_fmap. Qed.

Lemma account_le_antisym a b :
  a ∈ ProviderStore.rows s → b ∈ ProviderStore.rows s →
  ProviderStore.account_le a b → ProviderStore.account_le b a → a = b.
Proof.
  intros Ha Hb H1 H2. unfold ProviderStore.account_le in H1, H2.
  assert (ID a = ID b) as E.
  { pose proof (lex_le_antisym (Priority a :: ProviderStore.order_tail a) (Priority b :: ProviderStore.order_tail b) eq_refl H1 H2) as E. unfold ProviderStore.order_tail in E. congruence. }
  pose proof (find_id _ _ (ids_unique _ Hs) Ha) as Fa. pose proof (find_id _ _ (ids_unique _ Hs) Hb) as Fb.
  rewrite E in Fa. congruence.
Qed.

Lemma key_account_le x y a b :
  a ∈ ProviderStore.rows s → b ∈ ProviderStore.rows s → R_ID x = ID a → R_ID y = ID b →
  R_Schedulable x = true → R_Schedulable y = true →
  lex_le (routing_key (accounts_by_id accounts) x) (routing_key (accounts_by_id accounts) y) = true →
  ProviderStore.account_le a b.
Proof.
  intros Ha Hb Hx Hy Sx Sy. unfold routing_key. rewrite Hx, Hy, !source_row, Sx, Sy by done.
  pose proof (factors_positive _ Hs) as Hf. rewrite Forall_forall in Hf. pose proof (Hf a Ha). pose proof (Hf b Hb).
  unfold normalizedProviderAccountLoadFactor. rewrite !bool_decide_eq_false_2 by lia.
  by rewrite lex_le_cons.
Qed.

Lemma account_le_order : Transitive ProviderStore.account_le ∧ Total ProviderStore.account_le.
Proof.
  split.
  - intros a b c. unfold ProviderStore.account_le. apply lex_le_trans.
  - intros a b. unfold ProviderStore.account_le.
    destruct (ProviderStore.lex_le (Priority a :: ProviderStore.order_tail a) (Priority b :: ProviderStore.order_tail b)) eqn:E;
      [by left|right; by apply lex_le_total].
Qed.

(** The query's rows, before they are sorted. *)
Definition eligible_rows (model : string) : list Account :=
  flat_map (fun a =>
    if ProviderStore.sql_schedulable now a && negb (bool_decide (ID a ∈ ([] : list Z)))
    then map (fun _ => a) (List.filter (ProviderStore.sql_model_matches a model "") (ProviderStore.models s)) else [])
    (ProviderStore.rows s).

Lemma shown_eligible model :
  map (fun x => accounts_by_id accounts (R_ID x)) (List.filter R_Schedulable (sortModelRoutingAccounts
    (flat_map (fun a => account_entries a mba pools now model) accounts) accounts)) ≡ₚ eligible_rows model.
Proof.
  set (g := fun x => accounts_by_id accounts (R_ID x)). set (E := flat_map _ accounts).
  unfold sortModelRoutingAccounts. rewrite (Permutation_map g (filter_perm _ _ _ (SliceStable_perm _ E))). unfold E.
  assert (∀ l, (∀ a, a ∈ l → a ∈ ProviderStore.rows s) → map g (List.filter R_Schedulable
    (flat_map (fun a => account_entries a mba pools now model) l)) = flat_map (fun a =>
    if ProviderStore.sql_schedulable now a && negb (bool_decide (ID a ∈ ([] : list Z)))
    then map (fun _ => a) (List.filter (ProviderStore.sql_model_matches a model "") (ProviderStore.models s)) else []) l) as Hl.
  { induction l as [|a l IH]; intros Hl; simpl; [done|]. rewrite List.filter_app, map_app.
    f_equal; [|apply IH; intros; apply Hl; by right]. apply entries_accounts, Hl. by left. }
  rewrite Hl by (intros a; by rewrite accounts_perm). apply Permutation_flat_map, accounts_perm.
Qed.

End agreement.

(** An account is shown as schedulable exactly when no reason is shown. *)
Lemma routing_reason_exact a enabled now :
  modelRoutingUnschedulableReason a enabled now = "" ↔ AccountSchedulable a now && enabled = true.
Proof.
  unfold modelRoutingUnschedulableReason, AccountSchedulable. destruct enabled; [|by rewrite andb_false_r]. rewrite andb_true_r.
  destruct (Enabled a); [|done]. cbn [negb]. cbv zeta.
  destruct (set_after (RateLimitedUntil a) now), (set_after (CircuitOpenUntil a) now); cbn [negb andb];
    repeat case_match; done.
Qed.

(** Two accounts serve a model, the second one preferred by its load factor. *)
Module Demo.
Definition account (id factor : Z) : Account :=
  {| ID := id; Provider := "openai"; AccountType := "api_upstream"; Subject := ""; Name := ""; DisplayName := ""; BaseURL := "";
     Credential := Build_AccountCredential "" "" "" "" None None "" None "" "" "" None;
     EncryptedAccessToken := ""; EncryptedRefreshToken := ""; EncryptedIDToken := ""; AccessTokenExpiresAt := None;
     LastRefreshAt := None; Enabled := true; Priority := 10; GlobalPriority := 0; RoutingPoolPriority := None;
     LoadFactor := factor; MaxConcurrentRequests := 0; LastUsedAt := None; LastError := ""; LastErrorAt := None;
     LastTestAt := None; LastTestStatus := ""; LastTestError := ""; Metadata := None; Status := "active"; StatusReason := "";
     FingerprintHash := ""; UserAgentHash := ""; IPHash := ""; FailureCount := 0; CircuitOpenUntil := None;
     RateLimitedUntil := None; FingerprintProfileID := None; LastRefreshError := ""; LastRefreshErrorAt := None |}.
Definition serves (id : Z) : AccountModel := {| M_AccountID := id; Model := "gpt"; M_Enabled := true; M_Metadata := None |}.
Definition tables : ProviderStore.store :=
  {| ProviderStore.rows := [account 1 1; account 2 3]; ProviderStore.pools := []; ProviderStore.members := [];
     ProviderStore.models := [serves 1; serves 2]; ProviderStore.bindings := ∅ |}.

Lemma tables_consistent : consistent tables.
Proof.
  constructor; cbn.
  - apply (bool_decide_unpack _). by vm_compute.
  - by repeat constructor.
  - by repeat constructor.
Qed.

End Demo.

End HttpRouting.
