(* ===== verification/HttpHandlers.v ===== *)
(** * The management interface: handlers for the administration service

    The handlers that [NewServer] of [httpapi/server.go] registers for sessions,
    keys, routing pools, logs, settings, pricing, statistics, fingerprints and
    error rules, and the public ones: health, login and logout.  Each is named
    after its route. *)

From S2P Require Import Prelude GoStrings Json Effects Account Ledger AdminBase SettingsRuntime Sessions AdminKeys SystemEvents LoginThrottle RevealThrottle RequestInfo HttpJson HttpApi HttpRouting.
From Stdlib Require Import Ascii.
From Stdlib Require String.

Module HttpHandlers.
Import HttpJson HttpApi AdminBase.
Import SystemEvents (RequestContext, Build_Target).

(** ** What the handlers share *)

(** The answer to an error: that of the first entry it matches. *)
Definition fails (table : list (aerror * (Z * string))) (e : aerror) : response :=
  match List.find (fun t => bool_decide (fst t = e)) table with
  | Some (_, (code, text)) => writeError code text
  | None => writeError 500 "internal_error"
  end.

Definition invalid : aerror * (Z * string) := (ErrInvalidInput, (400, "invalid_input")).
Definition missing : aerror * (Z * string) := (ErrNotFound, (404, "not_found")).
Definition conflict : aerror * (Z * string) := (ErrConflict, (409, "conflict")).
Definition bad_cursor : aerror * (Z * string) := (ErrInvalidCursor, (400, "invalid_cursor")).

Definition bad_request : response := writeError 400 "bad_request".
Definition invalid_input : response := writeError 400 "invalid_input".
Definition internal_error : response := writeError 500 "internal_error".
Definition unavailable : response := writeError 503 "service_unavailable".

(** One call whose answer is written as it is, under a name. *)
Definition answer {A : Set} (c : call (result aerror A)) (table : list (aerror * (Z * string))) (k : A → response) : P response :=
  let! x := ask c in
  Ret match x with Ok a => k a | Err e => fails table e end.

Definition named (status : Z) (name : string) (v : value) : response := writeJSON status (VObject [(name, v)]).

(** Fields of responses: a pointer to a time, a map of strings, and those left out
    when they are empty. *)
Definition time_value (t : option Time) : value := match t with Some t => VTime t | None => VNil end.
Definition map_value (m : Account.metadata_map) : value :=
  match m with Some m => VObject (map (fun '(k, v) => (k, VString v)) (map_to_list m)) | None => VNil end.
Definition is_empty (v : value) : bool :=
  match v with VNil | VString "" | VInt 0 | VBool false | VList [] | VObject [] => true | _ => false end.
Definition omitempty (l : list (string * value)) : list (string * value) := List.filter (fun f => negb (is_empty (snd f))) l.

Section handlers.
Context (s : Server) (ParseTime : string → option Time).

Definition with_id (r : HTTPRequest) (k : Z → P response) : P response :=
  match parsePositivePathID r "id" with None => Ret bad_request | Some id => k id end.

Definition with_json (r : HTTPRequest) (t : schema) (k : value → P response) : P response :=
  match decodeJSON ParseTime (Body r) t with None => Ret bad_request | Some v => k v end.

(** Reading fields of a request struct. *)
Definition str (v : value) (name : string) : string := as_str (get_field v name).
Definition int (v : value) (name : string) : Z := as_int (get_field v name).
Definition flag (v : value) (name : string) : bool := as_bool (get_field v name).
Definition int_ptr (v : value) (name : string) : option Z := as_ptr as_int (get_field v name).
Definition bool_ptr (v : value) (name : string) : option bool := as_ptr as_bool (get_field v name).
Definition str_ptr (v : value) (name : string) : option string := as_ptr as_str (get_field v name).
Definition strs (v : value) (name : string) : list string := as_strs (get_field v name).
Definition ints (v : value) (name : string) : list Z := as_ints (get_field v name).

(** ** Health *)

Definition liveness : handler := fun _ _ => Ret (writeJSON 200 (VObject [("status", VString "ok")])).

Definition get_version : handler := fun _ _ => Ret (writeJSON 200 (VObject [("version", VString (version s))])).

(** [webAssetsAvailable]: one of the two entry pages is a file. *)
Definition webAssetsAvailable : P bool :=
  if negb (has_web s) then Ret false
  else
    let! index := ask (StaticFile "index.html") in
    if bool_decide (index = Some false) then Ret true
    else
      let! fallback := ask (StaticFile "200.html") in
      Ret (bool_decide (fallback = Some false)).

Definition readyz : handler := fun _ _ =>
  let! (phase, runtimeReady, reason) :=
    (if has_runtime s then ask RuntimeReadiness else Ret ("ready", true, "")) in
  let! (valid, stale) := (if has_settings_runtime s then ask GatewaySettingsStatus else Ret (true, false)) in
  let settings := if negb valid then "invalid" else if stale then "stale" else "ready" in
  let! database := (if has_health s then let! ok := ask Ping in Ret (if ok : bool then "ok" else "error") else Ret "not_configured") in
  let! assets := webAssetsAvailable in
  let ok := str_eq database "ok" && assets && runtimeReady && valid in
  Ret (writeJSON (if ok then 200 else 503)
    (VObject ([("status", VString (if ok then "ok" else "not_ready")); ("database", VString database);
               ("staticAssets", VString (if assets : bool then "ok" else "error")); ("runtime", VString phase);
               ("gatewaySettings", VString settings)] ++
              (if str_eq reason "" then [] else [("runtimeReason", VString reason)])))).

(** The status of the background tasks, for administrators. *)
Fixpoint task_statuses (l : list (string * string)) : P (list (string * value)) :=
  match l with
  | [] => Ret []
  | (name, task) :: l =>
      let! v := ask (TaskStatus task) in
      let! rest := task_statuses l in
      Ret ((name, v) :: rest)
  end.

Definition health_body (r : HTTPRequest) (status database : string) : P value :=
  let body := [("status", VString status); ("database", VString database)] in
  if negb (has_admins s) then Ret (VObject body)
  else
    match RequestInfo.readSessionCookie (base r) with
    | None => Ret (VObject body)
    | Some token =>
        let! v := ask (ValidateSession token) in
        match v with
        | Err _ => Ret (VObject body)
        | Ok _ =>
            let! statuses := task_statuses (tasks s) in
            Ret (VObject (body ++ [("build", build s)] ++
              (if AllowUnsafeMultiInstance s then [("warnings", VList [VString "unsafe_multi_instance_enabled"])] else []) ++
              (if bool_decide (statuses = []) then [] else [("tasks", VObject statuses)])))
        end
    end.

Definition admin_health : handler := fun _ r =>
  if negb (has_health s) then let! b := health_body r "ok" "not_configured" in Ret (writeJSON 200 b)
  else
    let! ok := ask Ping in
    if ok then let! b := health_body r "ok" "ok" in Ret (writeJSON 200 b)
    else let! b := health_body r "degraded" "error" in Ret (writeJSON 503 b).

Definition bootstrap : handler := fun _ _ =>
  Ret (writeJSON 200 (VObject [("publicUrl", VString (PublicURL s)); ("adminUsername", VString (AdminUsername s))])).

(** ** Login and logout *)

(** [defer loginThrottle.CancelAttempt(attempt)] runs after the rest. *)
Definition login : handler := fun ctx r =>
  let! started := ask TimeNow in
  if negb (has_admins s) then Ret unavailable
  else with_json r (TStruct [("username", TString); ("password", TString)]) (fun req =>
    let clientIP := RequestInfo.ClientIP (info r) in
    let! (attempt, decision) := ask (LoginBegin clientIP (str req "username")) in
    if negb (LoginThrottle.Allowed decision) then
      let! _ := (if LoginThrottle.ReportEvent decision
                 then recordLoginFailureEvent s ctx "login_throttled" 429 started else Ret tt) in
      Ret (setRetryAfter (LoginThrottle.RetryAfter decision) (writeError 429 "invalid_credentials"))
    else
      let! session := ask (Login (str req "username") (str req "password") clientIP (UserAgent r)) in
      let! x :=
        match session with
        | Err ErrUnauthorized =>
            let! decision := ask (LoginFailure attempt) in
            let! _ := (if negb (AdminLoginThrottleEnabled s) || LoginThrottle.ReportEvent decision
                       then recordLoginFailureEvent s ctx "invalid_credentials" 401 started else Ret tt) in
            let x := writeError 401 "invalid_credentials" in
            Ret (if bool_decide (0 < LoginThrottle.RetryAfter decision)
                 then setRetryAfter (LoginThrottle.RetryAfter decision) x else x)
        | Err _ =>
            let! _ := ask (LoginCancel attempt) in
            Ret internal_error
        | Ok session =>
            let! _ := ask (LoginSuccess attempt) in
            Ret (with_cookie (SetSession (Sessions.Token session) (Sessions.ExpiresAt session))
              (writeJSON 200 (VObject [("username", VString (str req "username"))])))
        end in
      let! _ := ask (LoginCancel attempt) in
      Ret x).

Definition logout : handler := fun _ r =>
  if negb (has_admins s) then Ret unavailable
  else
    let! ok :=
      match RequestInfo.readSessionCookie (base r) with
      | Some token => let! x := ask (Logout token) in Ret match x with Ok _ => true | Err _ => false end
      | None => Ret true
      end in
    Ret (if ok : bool then with_cookie ClearSession noContent else internal_error).

(** ** Sessions and the password *)

(** [token, _ := readSessionCookie(r)] *)
Definition session_token (r : HTTPRequest) : string := default "" (RequestInfo.readSessionCookie (base r)).

Definition update_status : admin_handler := fun _ _ _ =>
  if negb (has_updates s) then Ret unavailable else let! v := ask UpdateSnapshot in Ret (writeJSON 200 v).

Definition update_status_refresh : admin_handler := fun _ _ _ =>
  if negb (has_updates s) then Ret unavailable
  else
    let! x := ask UpdateRefresh in
    Ret match x with
        | Ok v => writeJSON 200 v
        | Err (Some cooldown) => setRetryAfter cooldown (writeError 429 "update_check_rate_limited")
        | Err None => internal_error
        end.

Definition me : admin_handler := fun _ _ admin => Ret (writeJSON 200 (VObject [("username", VString (snd admin))])).

Definition list_sessions : admin_handler := fun _ r admin =>
  answer (Admin (ListSessions (fst admin) (session_token r))) [] (named 200 "sessions").

Definition delete_session : admin_handler := fun _ r admin =>
  match parsePositivePathID r "id" with
  | None => Ret invalid_input
  | Some id =>
      answer (RevokeSessionByID (fst admin) id (session_token r)) [missing] (fun revokedCurrent =>
        if revokedCurrent : bool then with_cookie ClearSession noContent else noContent)
  end.

Definition revoke_other_sessions : admin_handler := fun _ r admin =>
  answer (RevokeOtherSessions (fst admin) (session_token r)) [] (fun n => writeJSON 200 (VObject [("revoked", VInt n)])).

(** [json.NewDecoder(r.Body).Decode]: the first value of the body, whatever
    follows it, without a limit on its size and with unknown fields ignored. *)
Definition lenient_body (b : option string) : option (list (string * (string * Json.json))) :=
  text ← b;
  let l := String.list_ascii_of_string text in
  '(v, _) ← Json.parse_value (2 * length l + 2) 0 l;
  match v with Json.JObject ms => Some ms | Json.JNull => Some [] | _ => None end.

Definition change_password : admin_handler := fun _ r admin =>
  match (ms ← lenient_body (Body r); current ← Json.string_field "currentPassword" ms;
         new ← Json.string_field "newPassword" ms; Some (current, new)) with
  | None => Ret invalid_input
  | Some (current, new) =>
      answer (ChangePassword (fst admin) (session_token r) current new)
        [invalid; (ErrUnauthorized, (400, "invalid_current_password"))]
        (fun revoked => writeJSON 200 (VObject [("ok", VBool true); ("revokedOtherSessions", VInt revoked)]))
  end.

(** ** API keys *)

(** [APIKeyBudgetUsage] where a key has no entry. *)
Definition zero_usage : list (string * value) :=
  [("budgetInitializationStatus", VString ""); ("budgetUsageStale", VBool false); ("requestsUsed24h", VInt 0); ("tokensUsed24h", VInt 0);
   ("costMicrousd24h", VInt 0); ("requestsUsed30d", VInt 0); ("tokensUsed30d", VInt 0); ("costMicrousd30d", VInt 0);
   ("requestsRemaining24h", VNil); ("tokensRemaining24h", VNil); ("costRemainingMicrousd24h", VNil); ("requestsRemaining30d", VNil);
   ("tokensRemaining30d", VNil); ("costRemainingMicrousd30d", VNil); ("requestBudgetExceeded", VBool false);
   ("tokenBudgetExceeded", VBool false); ("costBudgetExceeded", VBool false)].

(** The response for a key: the key, its budgets' use and its limits; embedded
    structs share one object. *)
Definition key_value (x : HttpRouting.apiKeyResponse value) : value :=
  let k := HttpRouting.KR_Key _ x in
  let budgets := AdminKeys.K_Budgets k in
  VObject ([("id", VInt (AdminKeys.K_ID k)); ("name", VString (AdminKeys.K_Name k)); ("prefix", VString (AdminKeys.K_Prefix k));
    ("secretAvailable", VBool (AdminKeys.SecretAvailable k)); ("createdAt", VTime (AdminKeys.K_CreatedAt k));
    ("lastUsedAt", time_value (AdminKeys.K_LastUsedAt k)); ("revokedAt", time_value (AdminKeys.K_RevokedAt k));
    ("disabledAt", time_value (AdminKeys.K_DisabledAt k)); ("modelPolicy", VString (AdminKeys.K_ModelPolicy k));
    ("allowedModels", VList (map VString (AdminKeys.K_AllowedModels k)));
    ("requestsPerMinute", VInt (AdminKeys.K_RequestsPerMinute k)); ("tokensPerMinute", VInt (AdminKeys.K_TokensPerMinute k));
    ("requestBudget24h", VInt (Ledger.Request24h budgets)); ("tokenBudget24h", VInt (Ledger.Token24h budgets));
    ("costBudgetMicrousd24h", VInt (Ledger.Cost24h budgets)); ("requestBudget30d", VInt (Ledger.Request30d budgets));
    ("tokenBudget30d", VInt (Ledger.Token30d budgets)); ("costBudgetMicrousd30d", VInt (Ledger.Cost30d budgets));
    ("routingPoolId", match AdminKeys.K_RoutingPoolID k with Some i => VInt i | None => VNil end);
    ("routingPoolName", VString (AdminKeys.K_RoutingPoolName k))] ++
    match HttpRouting.KR_BudgetUsage _ x with Some (VObject usage) => usage | _ => zero_usage end ++
    [("physicalDeleteAt", time_value (HttpRouting.PhysicalDeleteAt _ x));
    ("currentConcurrentRequests", VInt (HttpRouting.CurrentConcurrentRequests _ x));
    ("effectiveMaxConcurrentRequests", VInt (HttpRouting.EffectiveMaxConcurrentRequests _ x));
    ("concurrencyBlocked", VBool (HttpRouting.ConcurrencyBlocked _ x));
    ("currentRequestsThisMinute", VInt (HttpRouting.CurrentRequestsThisMinute _ x));
    ("effectiveRequestsPerMinute", VInt (HttpRouting.EffectiveRequestsPerMinute _ x));
    ("requestRateRemaining", VInt (HttpRouting.RequestRateRemaining _ x)); ("requestRateLimited", VBool (HttpRouting.RequestRateLimited _ x));
    ("currentTokensThisMinute", VInt (HttpRouting.CurrentTokensThisMinute _ x));
    ("effectiveTokensPerMinute", VInt (HttpRouting.EffectiveTokensPerMinute _ x));
    ("tokenRateRemaining", VInt (HttpRouting.TokenRateRemaining _ x)); ("tokenRateLimited", VBool (HttpRouting.TokenRateLimited _ x))]).

Definition list_keys : admin_handler := fun _ r _ =>
  match managementListFilterFromRequest r with
  | None => Ret invalid_input
  | Some filter =>
      let! page := ask (ListAPIKeyPage filter) in
      match page with
      | Err e => Ret (fails [bad_cursor; invalid] e)
      | Ok page =>
          let! settings := ask GetGatewaySettings in
          match settings with
          | Err _ => Ret internal_error
          | Ok settings =>
              let! concurrency := (if has_key_concurrency s then ask APIKeyConcurrencySnapshot else Ret []) in
              let! requestRate := (if has_key_rates s then ask APIKeyRequestRateSnapshot else Ret []) in
              let! tokenRate := (if has_key_rates s then ask APIKeyTokenRateSnapshot else Ret []) in
              let keys := HttpRouting.apiKeyResponses (PG_Keys page) (PG_BudgetUsage page) settings concurrency requestRate tokenRate in
              Ret (writeJSON 200 (VObject [("keys", VList (map key_value keys)); ("nextCursor", VString (PG_NextCursor page));
                                           ("hasMore", VBool (PG_HasMore page))]))
          end
      end
  end.

Definition create_key : admin_handler := fun _ r _ =>
  with_json r (TStruct [("name", TString); ("routingPoolId", TPtr TInt)]) (fun req =>
    answer (Admin2 (CreateAPIKey (str req "name") (int_ptr req "routingPoolId"))) [invalid; missing] (fun '(key, secret) =>
      writeJSON 201 (VObject [("key", key); ("secret", secret)]))).

Definition key_secret : handler := fun _ _ => Ret (writeError 405 "method_not_allowed").

Definition reveal_secret : admin_handler := fun ctx r admin =>
  with_id r (fun id =>
    let! decision := ask (RevealBegin (RequestInfo.ClientIP (info r)) (fst admin) id) in
    if negb (RevealThrottle.Allowed decision)
    then Ret (setRetryAfter (RevealThrottle.RetryAfter decision) (writeError 429 "rate_limited"))
    else with_json r (TStruct [("currentPassword", TString)]) (fun req =>
      let! secret := ask (RevealAPIKeySecret (fst admin) id (str req "currentPassword")) in
      match secret with
      | Err ErrUnauthorized => Ret (with_failure "invalid_current_password" (writeError 400 "invalid_current_password"))
      | Err e => Ret (fails [missing] e)
      | Ok secret =>
          let! recorded := recordHTTPSystemEvent s ctx
            (intent security SystemEvents.SeverityInfo "api_key.secret.viewed" SystemEvents.OutcomeSuccess
               (Build_Target "client_api_key" (FormatInt id) "") "" None) 200 0 in
          Ret (with_header "Cache-Control" "no-store"
            (if recorded : bool then writeJSON 200 (VObject [("secret", VString secret)]) else internal_error))
      end)).

Definition key_op (r : HTTPRequest) (c : Z → admin_op) (table : list (aerror * (Z * string))) : P response :=
  with_id r (fun id => answer (Admin (c id)) table (named 200 "key")).

Definition revoke_key : admin_handler := fun _ r _ => key_op r RevokeAPIKey [missing].

Definition delete_key : admin_handler := fun _ r _ =>
  with_id r (fun id => answer (Admin (DeleteRevokedAPIKey id)) [missing] (fun _ => noContent)).

Definition rename_key : admin_handler := fun _ r _ =>
  with_id r (fun id => with_json r (TStruct [("name", TString)]) (fun req =>
    answer (Admin (UpdateAPIKeyName id (str req "name"))) [invalid; missing] (named 200 "key"))).

Definition set_key_disabled : admin_handler := fun _ r _ =>
  with_id r (fun id => with_json r (TStruct [("disabled", TBool)]) (fun req =>
    answer (Admin (SetAPIKeyDisabled id (flag req "disabled"))) [missing] (named 200 "key"))).

Definition set_key_model_policy : admin_handler := fun _ r _ =>
  with_id r (fun id => with_json r (TStruct [("modelPolicy", TString); ("models", TList TString)]) (fun req =>
    answer (Admin (UpdateAPIKeyModelPolicy id (str req "modelPolicy") (strs req "models"))) [invalid; missing] (named 200 "key"))).

Definition set_key_limits : admin_handler := fun _ r _ =>
  with_id r (fun id => with_json r (TStruct [("requestsPerMinute", TInt); ("tokensPerMinute", TInt)]) (fun req =>
    answer (Admin (UpdateAPIKeyLimits id (int req "requestsPerMinute") (int req "tokensPerMinute"))) [invalid; missing]
      (named 200 "key"))).

Definition set_key_budgets : admin_handler := fun _ r _ =>
  with_id r (fun id =>
    with_json r (TStruct [("requestBudget24h", TInt); ("tokenBudget24h", TInt); ("costBudgetMicrousd24h", TInt);
                          ("requestBudget30d", TInt); ("tokenBudget30d", TInt); ("costBudgetMicrousd30d", TInt)]) (fun req =>
    answer (Admin (UpdateAPIKeyBudgets id (int req "requestBudget24h") (int req "tokenBudget24h") (int req "costBudgetMicrousd24h")
                     (int req "requestBudget30d") (int req "tokenBudget30d") (int req "costBudgetMicrousd30d")))
      [invalid; missing] (named 200 "key"))).

Definition set_key_routing_pool : admin_handler := fun _ r _ =>
  with_id r (fun id => with_json r (TStruct [("routingPoolId", TPtr TInt)]) (fun req =>
    answer (Admin (UpdateAPIKeyRoutingPool id (int_ptr req "routingPoolId"))) [invalid; missing] (named 200 "key"))).

(** ** Routing pools *)

Definition list_routing_pools : admin_handler := fun _ r _ =>
  match managementListFilterFromRequest r with
  | None => Ret invalid_input
  | Some filter =>
      answer (ListRoutingPoolPage filter) [bad_cursor; invalid] (fun '(pools, next, more) =>
        writeJSON 200 (VObject [("pools", pools); ("nextCursor", VString next); ("hasMore", VBool more)]))
  end.

Definition pool_request : schema :=
  TStruct [("name", TString); ("description", TString); ("enabled", TBool); ("fallbackPoolId", TPtr TInt)].

Definition create_routing_pool : admin_handler := fun _ r _ =>
  with_json r pool_request (fun req =>
    answer (Admin (CreateRoutingPool (str req "name") (str req "description") (flag req "enabled") (int_ptr req "fallbackPoolId")))
      [invalid] (named 201 "pool")).

Definition update_routing_pool : admin_handler := fun _ r _ =>
  with_id r (fun id => with_json r pool_request (fun req =>
    answer (Admin (UpdateRoutingPool id (str req "name") (str req "description") (flag req "enabled") (int_ptr req "fallbackPoolId")))
      [invalid; missing] (named 200 "pool"))).

Definition delete_routing_pool : admin_handler := fun _ r _ =>
  with_id r (fun id => answer (Admin (DeleteRoutingPool id)) [invalid; missing] (fun _ => noContent)).

Definition replace_routing_pool_accounts : admin_handler := fun _ r _ =>
  with_id r (fun id =>
    with_json r (TStruct [("accounts", TList (TStruct [("accountId", TInt); ("priority", TInt)]))]) (fun req =>
      answer (Admin (ReplaceRoutingPoolAccounts id (as_list (get_field req "accounts")))) [invalid; missing] (named 200 "pool"))).

(** ** Logs and events *)

(** A parameter that is a positive number when it is given. *)
Definition optional_id (r : HTTPRequest) (name : string) : option Z :=
  let raw := query r name in
  if str_eq raw "" then Some 0
  else id ← Atoi raw; if bool_decide (id < 1) then None else Some id.

Definition list_request_logs : admin_handler := fun _ r _ =>
  match (if str_eq (query r "limit") "" then Some 0 else Atoi (query r "limit")) with
  | None => Ret bad_request
  | Some limit =>
      match (account ← optional_id r "providerAccountId"; pool ← optional_id r "routingPoolId"; key ← optional_id r "clientKeyId";
             code ← (if str_eq (query r "statusCode") "" then Some 0
                     else c ← Atoi (query r "statusCode"); if bool_decide (c < 100) || bool_decide (599 < c) then None else Some c);
             fallbacks ← (let raw := query r "gatewayFallbacks" in
                          if str_eq raw "" then Some false
                          else if str_eq raw "1" || str_eq raw "true" then Some true
                          else if str_eq raw "0" || str_eq raw "false" then Some false else None);
             Some (account, pool, key, code, fallbacks)) with
      | None => Ret invalid_input
      | Some (account, pool, key, code, fallbacks) =>
          answer (Admin (ListRequestLogs
            {| RL_Limit := limit; RL_Cursor := query r "cursor"; RL_Since := parseSinceParam r; RL_Before := 0;
               RL_RequestID := query r "requestId"; RL_Query := query r "q"; RL_StatusClass := query r "statusClass";
               RL_StatusCode := code; RL_ProviderAccountID := account; RL_RoutingPoolID := pool; RL_ClientKeyID := key;
               RL_Model := query r "model"; RL_SessionID := query r "sessionId"; RL_Error := query r "error";
               RL_UsageSource := query r "usageSource"; RL_RoutingPoolError := query r "routingPoolError";
               RL_RoutingPoolChain := query r "routingPoolChain"; RL_GatewayFallbacks := fallbacks |}))
            [invalid] (writeJSON 200)
      end
  end.

Definition buildSystemEventFilter (r : HTTPRequest) : option SystemEventFilter :=
  limit ← (let raw := TrimSpace (query r "limit") in if str_eq raw "" then Some 0 else Atoi raw);
  since ← (let raw := TrimSpace (query r "since") in
           if str_eq raw "" then Some 0
           else seconds ← Atoi raw; if bool_decide (seconds < 0) then None else Some (time_Unix seconds));
  Some {| SE_Limit := limit; SE_Cursor := query r "cursor"; SE_Since := since; SE_Category := query r "category";
          SE_Outcome := query r "outcome"; SE_Severity := query r "severity"; SE_Action := query r "action";
          SE_Actor := query r "actor"; SE_TargetType := query r "targetType"; SE_TargetID := query r "targetId";
          SE_Query := query r "q" |}.

Definition list_system_events : admin_handler := fun _ r _ =>
  match buildSystemEventFilter r with
  | None => Ret invalid_input
  | Some filter => answer (Admin (ListSystemEvents filter)) [invalid] (writeJSON 200)
  end.

Definition cleanup_request_logs : admin_handler := fun _ _ _ =>
  let! now := ask TimeNow in
  answer (Admin (CleanupRequestLogs now)) [invalid; conflict] (writeJSON 200).

(** ** Settings *)

Definition settings_value (g : SettingsRuntime.GatewaySettings) : list (string * value) :=
  [("maxConcurrentGatewayRequests", VInt (SettingsRuntime.MaxConcurrentGatewayRequests g));
   ("maxConcurrentRequestsPerAccount", VInt (SettingsRuntime.MaxConcurrentRequestsPerAccount g));
   ("maxConcurrentRequestsPerKey", VInt (SettingsRuntime.MaxConcurrentRequestsPerKey g));
   ("requestsPerMinutePerKey", VInt (SettingsRuntime.RequestsPerMinutePerKey g));
   ("tokensPerMinutePerKey", VInt (SettingsRuntime.TokensPerMinutePerKey g));
   ("providerAccountAutoTestEnabled", VBool (SettingsRuntime.ProviderAccountAutoTestEnabled g));
   ("providerAccountAutoTestIntervalSeconds", VInt (SettingsRuntime.ProviderAccountAutoTestIntervalSeconds g));
   ("requestLogRetentionDays", VInt (SettingsRuntime.RequestLogRetentionDays g))].

Definition get_gateway_settings : admin_handler := fun _ _ _ =>
  let! settings := ask GetGatewaySettings in
  match settings with
  | Err _ => Ret internal_error
  | Ok settings =>
      let! now := ask TimeNow in
      let! stats := ask (Admin (GetRequestLogRetentionStats now)) in
      match stats with
      | Err _ => Ret internal_error
      | Ok stats =>
          let! autoTest := (if has_auto_test s then ask (TaskStatus "providerAccountAutoTest") else Ret VNil) in
          let! retention := (if has_log_retention s then ask (TaskStatus "requestLogRetention") else Ret VNil) in
          Ret (writeJSON 200 (VObject (settings_value settings ++
            [("providerAccountAutoTestStatus", autoTest); ("requestLogRetentionStatus", retention);
             ("requestLogRetentionStats", stats)])))
      end
  end.

Definition gateway_settings_request : schema :=
  TStruct [("maxConcurrentGatewayRequests", TInt); ("maxConcurrentRequestsPerAccount", TInt); ("maxConcurrentRequestsPerKey", TInt);
           ("requestsPerMinutePerKey", TInt); ("tokensPerMinutePerKey", TInt); ("providerAccountAutoTestEnabled", TBool);
           ("providerAccountAutoTestIntervalSeconds", TInt); ("requestLogRetentionDays", TInt)].

Definition update_gateway_settings : admin_handler := fun _ r _ =>
  with_json r gateway_settings_request (fun req => answer (Admin (UpdateGatewaySettings req)) [invalid] (writeJSON 200)).

Definition get_model_settings : admin_handler := fun _ _ _ => answer (Admin GetModelSettings) [] (writeJSON 200).

Definition update_model_settings : admin_handler := fun _ r _ =>
  with_json r (TStruct [("defaultModel", TString)]) (fun req => answer (Admin (UpdateModelSettings req)) [invalid] (writeJSON 200)).

(** ** Usage and prices *)

Definition usage_summary : admin_handler := fun _ r _ =>
  answer (Admin (GetUsageSummary (query r "range") (query r "groupBy"))) [invalid] (writeJSON 200).

Definition get_usage_pricing : admin_handler := fun _ _ _ => answer (Admin GetUsagePricing) [] (writeJSON 200).

Definition price : schema :=
  TStruct [("inputMicrousdPerMillion", TInt); ("cachedInputMicrousdPerMillion", TInt); ("outputMicrousdPerMillion", TInt);
           ("longInputMicrousdPerMillion", TInt); ("longCachedInputMicrousdPerMillion", TInt);
           ("longOutputMicrousdPerMillion", TInt)].
Definition pricing_request : schema :=
  TStruct [("version", TInt); ("currency", TString); ("unit", TString); ("updatedAt", TTime); ("models", TMap price);
           ("ignoredModels", TList TString)].

Definition update_usage_pricing : admin_handler := fun _ r _ =>
  with_json r pricing_request (fun req => answer (Admin (UpdateUsagePricing req)) [invalid] (writeJSON 200)).

Definition priced (name : string) (p : value * value) : response :=
  writeJSON 200 (VObject [("pricing", fst p); (name, snd p)]).

Definition sync_official_pricing : admin_handler := fun _ _ _ =>
  answer (Admin2 SyncOfficialUsagePricing) [invalid] (priced "synced").

Definition remove_shutdown_pricing : admin_handler := fun _ r _ =>
  with_json r (TStruct [("models", TList TString)]) (fun req =>
    answer (Admin2 (RemoveShutdownUsagePricing (strs req "models"))) [invalid] (priced "removed")).

Definition ignore_upcoming_pricing : admin_handler := fun _ r _ =>
  with_json r (TStruct [("models", TList TString)]) (fun req =>
    answer (Admin2 (IgnoreUpcomingUsagePricing (strs req "models"))) [invalid] (priced "ignored")).

(** ** Statistics *)

Definition ops_error_stats : admin_handler := fun _ r _ => answer (Admin (GetOpsErrorStats (parseSinceParam r))) [] (writeJSON 200).
Definition ops_throughput_trend : admin_handler := fun _ r _ =>
  answer (Admin (GetOpsThroughputTrend (parseSinceParam r) (query r "interval"))) [invalid] (writeJSON 200).
Definition ops_error_trend : admin_handler := fun _ r _ =>
  answer (Admin (GetOpsErrorTrend (parseSinceParam r) (query r "interval"))) [invalid] (writeJSON 200).
Definition ops_latency_distribution : admin_handler := fun _ r _ =>
  answer (Admin (GetOpsLatencyDistribution (parseSinceParam r))) [] (writeJSON 200).
Definition ops_account_health : admin_handler := fun _ r _ => answer (Admin (GetOpsAccountHealth (parseSinceParam r))) [] (writeJSON 200).
Definition ops_account_tests : admin_handler := fun _ r _ =>
  match parseLimitParam r 20 100 with
  | None => Ret bad_request
  | Some limit => answer (Admin (ListOpsAccountTests (parseSinceParam r) limit)) [] (named 200 "tests")
  end.
Definition ops_cost_breakdown : admin_handler := fun _ r _ => answer (Admin (GetOpsCostBreakdown (parseSinceParam r))) [] (writeJSON 200).

(** ** Fingerprint profiles and error rules *)

Definition fingerprint_request : schema :=
  TStruct [("name", TString); ("description", TString); ("userAgent", TString); ("tlsFingerprint", TString);
           ("headers", TMap TString); ("enabled", TBool)].

Definition list_fingerprints : admin_handler := fun _ _ _ => answer (Admin ListFingerprintProfiles) [] (named 200 "profiles").
Definition create_fingerprint : admin_handler := fun _ r _ =>
  with_json r fingerprint_request (fun req => answer (Admin (CreateFingerprintProfile req)) [invalid] (named 201 "profile")).
Definition update_fingerprint : admin_handler := fun _ r _ =>
  with_id r (fun id => with_json r fingerprint_request (fun req =>
    answer (Admin (UpdateFingerprintProfile id req)) [invalid; missing] (named 200 "profile"))).
Definition delete_fingerprint : admin_handler := fun _ r _ =>
  with_id r (fun id => answer (Admin (DeleteFingerprintProfile id)) [missing] (fun _ => noContent)).

Definition error_rule_request : schema :=
  TStruct [("pattern", TString); ("matchType", TString); ("description", TString); ("enabled", TBool); ("priority", TInt)].

Definition list_error_rules : admin_handler := fun _ _ _ => answer (Admin ListErrorPassthroughRules) [] (named 200 "rules").
Definition create_error_rule : admin_handler := fun _ r _ =>
  with_json r error_rule_request (fun req => answer (Admin (CreateErrorPassthroughRule req)) [invalid] (named 201 "rule")).
Definition update_error_rule : admin_handler := fun _ r _ =>
  with_id r (fun id => with_json r error_rule_request (fun req =>
    answer (Admin (UpdateErrorPassthroughRule id req)) [invalid; missing] (named 200 "rule"))).
Definition delete_error_rule : admin_handler := fun _ r _ =>
  with_id r (fun id => answer (Admin (DeleteErrorPassthroughRule id)) [missing] (fun _ => noContent)).

(** ** The static pages *)

(** [html.EscapeString] *)
Definition escape_char (a : ascii) : string :=
  if bool_decide (a = "&"%char) then "&amp;"
  else if bool_decide (byte_of a = 39) then "&#39;"
  else if bool_decide (a = "<"%char) then "&lt;"
  else if bool_decide (a = ">"%char) then "&gt;"
  else if bool_decide (byte_of a = 34) then "&#34;"
  else String a "".
Definition EscapeString (t : string) : string := String.concat "" (map escape_char (String.list_ascii_of_string t)).

Definition absoluteRequestURL (r : HTTPRequest) : string :=
  let i := info r in
  if str_eq (RequestInfo.I_Host i) "" then RequestURI r
  else RequestInfo.I_Scheme i +++ "://" +++ RequestInfo.I_Host i +++ RequestURI r.

(** The page around the URL is [before] and [after]. *)
Definition writeManualOAuthCallbackPage (before after : string) : handler := fun _ r =>
  Ret {| status := 200; headers := []; cookie := None; failureCode := "";
         content := Text "text/html; charset=utf-8" (before +++ EscapeString (absoluteRequestURL r) +++ after) |}.

(** [path.Clean] of an absolute path, by its segments. *)
Definition clean_segments (l : list string) : list string :=
  foldl (fun acc x => if str_eq x "" || str_eq x "." then acc
                      else if str_eq x ".." then removelast acc else acc ++ [x]) [] l.

Definition serveWeb (r : HTTPRequest) : P (option response) :=
  let m := RequestInfo.Method (base r) in
  let p := RequestInfo.URLPath (base r) in
  if negb (has_web s) || negb (str_eq m "GET" || str_eq m "HEAD") then Ret None
  else if HasPrefix p "/api/" || HasPrefix p "/v1/" || HasPrefix p "/oauth/" then Ret None
  else
    let clean := Join (clean_segments (Split p "/"%char)) "/" in
    let clean := if str_eq clean "" then "index.html" else clean in
    let! file := ask (StaticFile clean) in
    if bool_decide (file = Some false)
    then Ret (Some {| status := 200; headers := []; cookie := None; content := Delegated clean; failureCode := "" |})
    else
      let! fallback := ask (StaticFile "200.html") in
      Ret (if bool_decide (fallback = None) then None
           else Some {| status := 200; headers := []; cookie := None; content := Delegated "200.html"; failureCode := "" |}).

Definition web : handler := fun _ r =>
  let! x := serveWeb r in
  Ret (default {| status := 200; headers := []; cookie := None; failureCode := "";
                  content := Text "text/plain; charset=utf-8" ("N2API bootstrap server" +++ String (ascii_of_N 10) "") |} x).

Definition not_found : handler := fun _ _ => Ret (writeError 404 "not_found").

Definition serve_gateway : handler := fun _ _ => ask Gateway.

End handlers.
End HttpHandlers.
