(* ===== verification/HttpExport.v ===== *)
(** * The management interface: exports

    [httpapi/request_log_export.go] streams the request logs as CSV or JSON lines,
    [httpapi/configuration_export.go] hands out the configuration.  Encoding to
    JSON and formatting of times are parameters.  What is written while the rows
    come in are calls; the response returned holds the status, the headers and
    the trailers. *)

From S2P Require Import Prelude GoStrings Json Effects GatewayTypes AdminBase SystemEvents RequestLogs RequestInfo HttpJson HttpApi HttpHandlers.
From Stdlib Require Import Ascii.
From Stdlib Require String.

Module HttpExport.
Import HttpJson HttpApi HttpHandlers RequestLogs.
Import SystemEvents (RequestContext, Build_Target).

(** ** The request *)

Definition requestLogExportFormatJSON : string := "json".
Definition requestLogExportFormatCSV : string := "csv".
Definition requestLogExportFormatJSONL : string := "jsonl".
Definition requestLogExportJSONMaxRows : Z := 200.
Definition requestLogExportDefaultRows : Z := 100000.
Definition requestLogExportFlushRows : Z := 128.

Record requestLogExportOptions := { Format : string; Limit : Z; Gzip : bool }.

Definition known_parameters : list string :=
  ["format"; "limit"; "gzip"; "since"; "before"; "requestId"; "q"; "statusClass"; "statusCode"; "providerAccountId"; "routingPoolId";
   "clientKeyId"; "model"; "sessionId"; "error"; "usageSource"; "routingPoolError"; "routingPoolChain"; "gatewayFallbacks"].

Definition singleQueryValue (q : list (string * string)) (name : string) : option string :=
  match List.filter (fun p => str_eq (fst p) name) q with [(_, v)] => Some (TrimSpace v) | _ => None end.

(** A parameter that may be missing; [None] is an error. *)
Definition optional {A} (q : list (string * string)) (name : string) (dflt : A) (parse : string → option A) : option A :=
  match singleQueryValue q name with None => Some dflt | Some raw => parse raw end.

Definition positive (raw : string) : option Z := v ← Atoi raw; if bool_decide (v ≤ 0) then None else Some v.

Definition parseExportTime (q : list (string * string)) (name : string) : option Time :=
  optional q name 0 (fun raw => time_Unix <$> positive raw).

Definition bounded (n : Z) (raw : string) : option string := if str_eq raw "" || bool_decide (n < go_len raw) then None else Some raw.

Definition parseRequestLogExportFilters (q : list (string * string)) (since before : Time) : option RequestLogFilter :=
  let text name := optional q name "" (bounded MaxRequestLogFilterValueLength) in
  requestID ← text "requestId"; query ← optional q "q" "" (bounded MaxRequestLogQueryLength);
  model ← text "model"; session ← text "sessionId"; error ← text "error"; source ← text "usageSource"; poolError ← text "routingPoolError";
  chain ← optional q "routingPoolChain" "" (bounded MaxRequestLogRoutingPoolChainLength);
  class ← optional q "statusClass" RequestLogStatusAll (fun raw => if validStatusClass raw then Some raw else None);
  code ← optional q "statusCode" 0 (fun raw => v ← Atoi raw; if bool_decide (v < 100) || bool_decide (599 < v) then None else Some v);
  account ← optional q "providerAccountId" 0 positive; pool ← optional q "routingPoolId" 0 positive; key ← optional q "clientKeyId" 0 positive;
  fallbacks ← optional q "gatewayFallbacks" false (fun raw =>
    if str_eq raw "0" || str_eq raw "false" then Some false else if str_eq raw "1" || str_eq raw "true" then Some true else None);
  Some {| RL_Limit := 0; RL_Cursor := ""; RL_Since := since; RL_Before := before; RL_RequestID := requestID; RL_Query := query;
          RL_StatusClass := class; RL_StatusCode := code; RL_ProviderAccountID := account; RL_RoutingPoolID := pool; RL_ClientKeyID := key;
          RL_Model := model; RL_SessionID := session; RL_Error := error; RL_UsageSource := source; RL_RoutingPoolError := poolError;
          RL_RoutingPoolChain := chain; RL_GatewayFallbacks := fallbacks |}.

Definition parseRequestLogExportRequest (r : HTTPRequest) (maxRows : Z) : option (requestLogExportOptions * RequestLogFilter) :=
  let maxRows := if bool_decide (maxRows ≤ 0) then requestLogExportDefaultRows else maxRows in
  let q := Query r in
  if negb (QueryValid r) || negb (forallb (fun p => existsb (str_eq (fst p)) known_parameters) q) || negb (bool_decide (NoDup (map fst q)))
  then None
  else
    let raw := TrimSpace (lookup_first q "format") in
    let format := if str_eq raw "" then requestLogExportFormatJSON else raw in
    let json := str_eq format requestLogExportFormatJSON in
    dflt ← (if json then Some requestLogExportJSONMaxRows
            else if str_eq format requestLogExportFormatCSV || str_eq format requestLogExportFormatJSONL then Some maxRows else None);
    limit ← optional q "limit" dflt (fun raw =>
      n ← Atoi raw;
      if bool_decide (n < 1) || bool_decide (maxRows < n) || json && bool_decide (requestLogExportJSONMaxRows < n) then None else Some n);
    gzip ← optional q "gzip" false (fun raw =>
      if json then None else if str_eq raw "0" then Some false else if str_eq raw "1" then Some true else None);
    since ← parseExportTime q "since"; before ← parseExportTime q "before";
    if negb (time_is_zero since) && negb (time_is_zero before) && negb (bool_decide (since < before)) then None
    else if negb json && (time_is_zero since || time_is_zero before) then None
    else filter ← parseRequestLogExportFilters q since before;
         Some ({| Format := format; Limit := limit; Gzip := gzip |}, filter).

(** ** Records *)

(** What a spreadsheet would take for a formula gets a quote, after the white
    space. *)
Definition formula_start (a : ascii) : bool :=
  bool_decide (a = "="%char) || bool_decide (a = "+"%char) || bool_decide (a = "-"%char) || bool_decide (a = "@"%char).

Definition spreadsheetSafeCSVCell (value : string) : string :=
  let l := String.list_ascii_of_string value in
  let rest := trim_left_bytes l in
  match rest with
  | a :: _ => if formula_start a then String.string_of_list_ascii (take (length l - length rest) l ++ ascii_of_N 39 :: rest) else value
  | [] => value
  end.

Definition FormatBool (b : bool) : string := if b then "true" else "false".

Definition requestLogExportCSVHeader : list string :=
  ["id"; "request_id"; "upstream_request_id"; "client_key"; "provider"; "provider_account_id"; "provider_account_type"; "provider_account_name";
   "routing_pool_id"; "routing_pool_name"; "routing_pool_fallback_depth"; "routing_pool_fallback_chain"; "routing_pool_error";
   "model"; "session_id"; "route"; "method"; "status_code"; "latency_ms"; "error"; "input_tokens"; "output_tokens";
   "total_tokens"; "cached_input_tokens"; "reasoning_tokens"; "usage_source"; "estimated_cost_microusd"; "pricing_matched";
   "gateway_attempt_count"; "gateway_fallback_count"; "created_at"; "attempts_json"; "attempt_timeline_truncated";
   "header_wait_ms"; "first_useful_output_ms"; "stream_finish_ms"].

Section export.
Context (s : Server).
(** Encodings: the attempts and a row as JSON; a time as RFC 3339 with and
    without fractions, and for file names; the encoded configuration. *)
Context (MarshalAttempts : list GatewayTypes.RequestAttempt → string) (EncodeRow : RequestLog → string)
  (EncodeRows : list RequestLog → string) (FormatNano FormatSeconds FormatCompact : Time → string)
  (Marshal : SystemEvents.entries → option string) (MarshalDocument : value → option string).

Definition requestLogExportCSVRecord (l : RequestLog) : list string :=
  let safe := spreadsheetSafeCSVCell in
  let optionalDuration (v : option Z) := match v with Some n => FormatInt n | None => "" end in
  let timing := Log_ResponseTiming l in
  [FormatInt (Log_ID l); safe (Log_RequestID l); safe (Log_UpstreamRequestID l); safe (Log_ClientKey l); safe (Log_Provider l);
   FormatInt (Log_ProviderAccountID l); safe (Log_ProviderAccountType l); safe (Log_ProviderAccountName l); FormatInt (Log_RoutingPoolID l);
   safe (Log_RoutingPoolName l); FormatInt (Log_FallbackDepth l); safe (Log_FallbackChain l); safe (Log_RoutingPoolError l);
   safe (Log_Model l); safe (Log_SessionID l); safe (Log_Route l); safe (Log_Method l); FormatInt (Log_StatusCode l);
   FormatInt (Log_LatencyMS l); safe (Log_Error l); FormatInt (Log_InputTokens l); FormatInt (Log_OutputTokens l);
   FormatInt (Log_TotalTokens l); FormatInt (Log_CachedInputTokens l); FormatInt (Log_ReasoningTokens l); safe (Log_UsageSource l);
   FormatInt (Log_EstimatedCostMicrousd l); FormatBool (Log_PricingMatched l); FormatInt (Log_GatewayAttemptCount l);
   FormatInt (Log_GatewayFallbackCount l); FormatNano (Log_CreatedAt l); safe (MarshalAttempts (Log_Attempts l));
   FormatBool (Log_Truncated l); optionalDuration (GatewayTypes.HeaderWaitMS timing);
   optionalDuration (GatewayTypes.FirstUsefulOutputMS timing); optionalDuration (GatewayTypes.StreamFinishMS timing)].

(** ** Streaming *)

(** The rows that surely went out, and those that are waiting to be flushed. *)
Record progress := { writtenRows : Z; pendingRows : Z }.

Definition flushed (p : progress) : progress := {| writtenRows := writtenRows p + pendingRows p; pendingRows := 0 |}.

(** [StreamRequestLogs] of the service and the repository: [visit] is called for
    each row, at most [remaining] times.  The flag is [true] without an error. *)
Fixpoint stream_loop (visit : progress → RequestLog → P (bool * progress)) (remaining : nat) (count : Z) (p : progress)
  : P (RequestLogExportResult * bool * progress) :=
  let! x := ask NextRequestLog in
  match x with
  | NoRow fails => Ret ({| RowCount := count; LimitReached := false |}, negb fails, p)
  | NextRow expired log =>
      if expired : bool then Ret ({| RowCount := count; LimitReached := false |}, false, p)
      else
        match remaining with
        | O => Ret ({| RowCount := count; LimitReached := true |}, true, p)
        | S remaining =>
            match log with
            | None => Ret ({| RowCount := count; LimitReached := false |}, false, p)
            | Some l =>
                let! (ok, p) := visit p l in
                if ok : bool then stream_loop visit remaining (count + 1) p
                else Ret ({| RowCount := count; LimitReached := false |}, false, p)
            end
        end
  end.

Definition no_result : RequestLogExportResult := {| RowCount := 0; LimitReached := false |}.

Definition StreamRequestLogs (filter : RequestLogFilter) (maxRows : Z) (visit : progress → RequestLog → P (bool * progress)) (p : progress)
  : P (RequestLogExportResult * bool * progress) :=
  match stream_filter filter maxRows with
  | Err _ => Ret (no_result, false, p)
  | Ok f =>
      let! ok := ask (QueryRequestLogs f (maxRows + 1)) in
      if ok then stream_loop visit (Z.to_nat maxRows) 0 p else Ret (no_result, false, p)
  end.

Definition visit_csv (p : progress) (l : RequestLog) : P (bool * progress) :=
  let! ok := ask (WriteRecord (CSVRecord (requestLogExportCSVRecord l))) in
  if negb ok then Ret (false, p)
  else
    let p := {| writtenRows := writtenRows p; pendingRows := pendingRows p + 1 |} in
    if bool_decide (pendingRows p = requestLogExportFlushRows) then
      let! ok := ask FlushWriter in
      if negb ok then Ret (false, p)
      else
        let! ok := ask FlushBody in
        if negb ok then Ret (false, p) else Ret (true, flushed p)
    else Ret (true, p).

Definition visit_json (gzip : bool) (p : progress) (l : RequestLog) : P (bool * progress) :=
  let! ok := ask (WriteRecord (JSONRecord (EncodeRow l))) in
  if negb ok then Ret (false, p)
  else
    let p := if gzip then {| writtenRows := writtenRows p; pendingRows := pendingRows p + 1 |}
             else {| writtenRows := writtenRows p + 1; pendingRows := pendingRows p |} in
    if bool_decide (pendingRows p = requestLogExportFlushRows) then
      let! ok := ask FlushBody in
      if negb ok then Ret (false, p) else Ret (true, flushed p)
    else Ret (true, p).

Definition stream_csv (options : requestLogExportOptions) (filter : RequestLogFilter) : P (RequestLogExportResult * bool * progress) :=
  let start := {| writtenRows := 0; pendingRows := 0 |} in
  let! header := ask (WriteRecord (HeaderRecord requestLogExportCSVHeader)) in
  let! headerOk := (if header then ask FlushWriter else Ret false) in
  let! (result, ok, p) := (if headerOk then StreamRequestLogs filter (Limit options) visit_csv start else Ret (no_result, false, start)) in
  let! csvOk := ask FlushWriter in
  let! flushOk := ask FlushBody in
  let p := if csvOk && flushOk then flushed p else p in
  Ret (result, ok && csvOk && flushOk, p).

Definition stream_json (options : requestLogExportOptions) (filter : RequestLogFilter) : P (RequestLogExportResult * bool * progress) :=
  let! (result, ok, p) := StreamRequestLogs filter (Limit options) (visit_json (Gzip options)) {| writtenRows := 0; pendingRows := 0 |} in
  let! flushOk := ask FlushBody in
  Ret (result, ok && flushOk, if flushOk : bool then flushed p else p).

(** The rows streamed: the service's result, the rows that went out and whether
    all went well. *)
Definition stream_rows (options : requestLogExportOptions) (filter : RequestLogFilter) : P (RequestLogExportResult * Z * bool) :=
  let close := if Gzip options then ask CloseBody else Ret true in
  let! started := ask FlushBody in
  if negb started then let! _ := close in Ret (no_result, 0, false)
  else
    let! (result, ok, p) :=
      (if str_eq (Format options) requestLogExportFormatCSV then stream_csv options filter else stream_json options filter) in
    let! closed := close in
    Ret (result, if negb closed && Gzip options then 0 else writtenRows p, ok && closed).

Definition requestLogExportLegacyFilename (options : requestLogExportOptions) : string :=
  "n2api-request-logs." +++ Format options +++ (if Gzip options then ".gz" else "").

Definition requestLogExportFilename (options : requestLogExportOptions) (f : RequestLogFilter) : string :=
  "n2api-request-logs" +++
  (if negb (time_is_zero (RL_Since f)) && negb (time_is_zero (RL_Before f))
   then "_" +++ FormatCompact (RL_Since f) +++ "_" +++ FormatCompact (RL_Before f) else "") +++
  "." +++ Format options +++ (if Gzip options then ".gz" else "").

(** [%q] of a name without special characters puts it between quotes. *)
Definition content_disposition (options : requestLogExportOptions) (f : RequestLogFilter) : string :=
  let quote := String (ascii_of_N 34) "" in
  "attachment; filename=" +++ quote +++ requestLogExportLegacyFilename options +++ quote +++ "; filename*=UTF-8''" +++
  requestLogExportFilename options f.

Definition stream_content_type (options : requestLogExportOptions) : string :=
  if Gzip options then "application/gzip"
  else if str_eq (Format options) requestLogExportFormatCSV then "text/csv; charset=utf-8" else "application/x-ndjson; charset=utf-8".

Definition stream_response (options : requestLogExportOptions) (f : RequestLogFilter) : response :=
  {| status := 200; headers := [("Content-Disposition", content_disposition options f); ("Content-Type", stream_content_type options)];
     cookie := None; content := Delegated "stream"; failureCode := "" |}.

(** The response, the result, the rows that went out and whether all went well. *)
Definition streamRequestLogExport (options : requestLogExportOptions) (filter : RequestLogFilter)
  : P (response * RequestLogExportResult * Z * bool) :=
  if str_eq (Format options) requestLogExportFormatJSON then
    let! page := ask (ListRequestLogPage (with_limit (Limit options) filter)) in
    match page with
    | Err _ => Ret (internal_error, no_result, 0, false)
    | Ok (logs, hasMore) =>
        let result := {| RowCount := Z.of_nat (length logs); LimitReached := hasMore |} in
        let x := {| status := 200; headers := [("Content-Type", "application/json"); ("Content-Disposition", content_disposition options filter)];
                    cookie := None; content := Delegated "stream"; failureCode := "" |} in
        let! ok := ask (WriteRecord (JSONRecord (EncodeRows logs))) in
        Ret (x, result, if ok : bool then Z.of_nat (length logs) else 0, ok)
    end
  else
    let! (result, rows, ok) := stream_rows options filter in
    Ret (stream_response options filter, result, rows, ok).

(** ** Audit *)

Definition jint (n : Z) : Json.json := Json.JNumber (bool_decide (n < 0)) (Z.abs n) 0.

Definition requestLogExportMetadata (options : requestLogExportOptions) (f : RequestLogFilter) (rowCount : Z) (limitReached completed : bool)
  : result SystemEvents.serror SystemEvents.metadata :=
  SystemEvents.SafeMetadata Marshal
    (Some ([("format", Json.JString (Format options)); ("compression", Json.JString (if Gzip options then "gzip" else "none"));
            ("requested_limit", jint (Limit options))] ++
           (if time_is_zero (RL_Since f) then [] else [("since", Json.JString (FormatSeconds (RL_Since f)))]) ++
           (if time_is_zero (RL_Before f) then [] else [("before", Json.JString (FormatSeconds (RL_Before f)))]) ++
           (if completed then [("row_count", jint rowCount); ("limit_reached", Json.JBool limitReached)] else [])))
    (["format"; "compression"; "requested_limit"; "since"; "before"] ++ (if completed then ["row_count"; "limit_reached"] else [])).

(** The outcome, the error code and the severity. *)
Definition requestLogExportOutcome (rowCount : Z) (ok : bool) : string * string * string :=
  if ok then (SystemEvents.OutcomeSuccess, "", SystemEvents.SeverityInfo)
  else if bool_decide (0 < rowCount) then (SystemEvents.OutcomePartial, "request_log_export_partial", SystemEvents.SeverityWarning)
  else (SystemEvents.OutcomeFailure, "request_log_export_failed", SystemEvents.SeverityError).

Definition setRequestLogExportTrailers (outcome : string) (r : RequestLogExportResult) (x : response) : response :=
  with_header "X-N2API-Export-Limit-Reached" (FormatBool (LimitReached r))
    (with_header "X-N2API-Export-Row-Count" (FormatInt (RowCount r)) (with_header "X-N2API-Export-Outcome" outcome x)).

Definition announce_trailers (x : response) : response :=
  with_header "Trailer" "X-N2API-Export-Limit-Reached"
    (with_header "Trailer" "X-N2API-Export-Row-Count" (with_header "Trailer" "X-N2API-Export-Outcome" x)).

Definition ActionRequestLogExportAccepted : string := "request_log.export.accepted".
Definition ActionRequestLogExportCompleted : string := "request_log.export.completed".
Definition ActionConfigurationExported : string := "configuration.exported".

Definition recordRequestLogExportCompletion (ctx : RequestContext) (started : Time) (options : requestLogExportOptions)
    (filter : RequestLogFilter) (r : RequestLogExportResult) (outcome errorCode severity : string) (statusCode : Z) : P unit :=
  match requestLogExportMetadata options filter (RowCount r) (LimitReached r) true with
  | Err _ => Ret tt
  | Ok metadata =>
      let! now := ask TimeNow in
      let! _ := recordHTTPSystemEvent s ctx
        (intent security severity ActionRequestLogExportCompleted outcome (Build_Target "request_log_collection" "" "") errorCode metadata)
        statusCode (time_sub now started) in
      Ret tt
  end.

Definition handleExportRequestLogs : admin_handler := fun ctx r _ =>
  let! started := ask TimeNow in
  match parseRequestLogExportRequest r (ExportMaxRows s) with
  | None => Ret invalid_input
  | Some (options, filter) =>
      match requestLogExportMetadata options filter 0 false false with
      | Err _ => Ret internal_error
      | Ok metadata =>
          let! now := ask TimeNow in
          let! recorded := recordHTTPSystemEvent s ctx
            (intent security SystemEvents.SeverityInfo ActionRequestLogExportAccepted SystemEvents.OutcomeSuccess
               (Build_Target "request_log_collection" "" "") "" metadata) 200 (time_sub now started) in
          if negb recorded then Ret internal_error
          else
            let! (x, result, rows, ok) := streamRequestLogExport options filter in
            let result := {| RowCount := rows; LimitReached := LimitReached result |} in
            let '(outcome, errorCode, severity) := requestLogExportOutcome rows ok in
            let! _ := recordRequestLogExportCompletion ctx started options filter result outcome errorCode severity (status x) in
            Ret (setRequestLogExportTrailers outcome result (announce_trailers x))
      end
  end.

(** ** The configuration *)

Definition configurationExportFormatVersion : Z := 1.
Definition configurationExportMaxBytes : Z := 5 * 2 ^ 20.

Definition recordConfigurationExportFailure (ctx : RequestContext) (started : Time) (code : string) : P unit :=
  let! now := ask TimeNow in
  let! _ := recordHTTPSystemEvent s ctx
    (intent security SystemEvents.SeverityError ActionConfigurationExported SystemEvents.OutcomeFailure
       (Build_Target "portable_configuration" "v1" "") code None) 500 (time_sub now started) in
  Ret tt.

Definition jcount (l : list value) : Json.json := jint (Z.of_nat (length l)).

Definition configurationExportMetadata (c : ConfigurationSnapshot) (bodyBytes : Z) : result SystemEvents.serror SystemEvents.metadata :=
  let values :=
    [("format_version", jint configurationExportFormatVersion); ("application_version", Json.JString (version s));
     ("body_bytes", jint bodyBytes); ("routing_pool_count", jcount (CS_RoutingPools c)); ("key_template_count", jcount (CS_APIKeyTemplates c));
     ("provider_account_count", jcount (CS_ProviderAccounts c)); ("fingerprint_profile_count", jcount (CS_FingerprintProfiles c));
     ("error_rule_count", jcount (CS_ErrorPassthroughRules c)); ("alert_action_count", jcount (CS_AlertActions c));
     ("alert_rule_count", jcount (CS_AlertRules c))] in
  SystemEvents.SafeMetadata Marshal (Some values) (map fst values).

Definition snapshot_value (c : ConfigurationSnapshot) : value :=
  VObject [("routingPools", VList (CS_RoutingPools c)); ("apiKeyTemplates", VList (CS_APIKeyTemplates c));
    ("providerAccounts", VList (CS_ProviderAccounts c)); ("fingerprintProfiles", VList (CS_FingerprintProfiles c));
    ("errorPassthroughRules", VList (CS_ErrorPassthroughRules c)); ("alertActions", VList (CS_AlertActions c));
    ("alertRules", VList (CS_AlertRules c)); ("settings", CS_Rest c)].

Definition configuration_document (c : ConfigurationSnapshot) (exportedAt : Time) : value :=
  VObject [("formatVersion", VInt configurationExportFormatVersion); ("application", build s); ("exportedAt", VTime exportedAt);
    ("unsupportedSections", VList []);
    ("redactions", VList (map VString ["providerCredentials"; "providerProxyURLs"; "apiKeyCredentials"; "fingerprintHeaderValues";
                                       "alertActionDestinations"]));
    ("configuration", snapshot_value c)].

Definition handleExportConfiguration : admin_handler := fun ctx r _ =>
  let! started := ask TimeNow in
  let! exportedAt := ask TimeNow in
  let failed code := recordConfigurationExportFailure ctx started code ;; Ret internal_error in
  let! snapshot := ask ExportConfiguration in
  match snapshot with
  | Err _ => failed "configuration_export_failed"
  | Ok c =>
      match MarshalDocument (configuration_document c exportedAt) with
      | None => failed "configuration_export_encode_failed"
      | Some body =>
          let body := body +++ String (ascii_of_N 10) "" in
          if bool_decide (configurationExportMaxBytes < go_len body) then failed "configuration_export_too_large"
          else
            match configurationExportMetadata c (go_len body) with
            | Err _ => failed "configuration_export_metadata_failed"
            | Ok metadata =>
                let! now := ask TimeNow in
                let! recorded := recordHTTPSystemEvent s ctx
                  (intent security SystemEvents.SeverityInfo ActionConfigurationExported SystemEvents.OutcomeSuccess
                     (Build_Target "portable_configuration" "v1" "") "" metadata) 200 (time_sub now started) in
                if negb recorded then Ret internal_error
                else
                  let quote := String (ascii_of_N 34) "" in
                  Ret {| status := 200; cookie := None; failureCode := "";
                         headers := [("Content-Disposition", "attachment; filename=" +++ quote +++ "n2api-portable-config-v1-" +++
                                        FormatCompact exportedAt +++ ".json" +++ quote); ("Content-Length", FormatInt (go_len body))];
                         content := Text "application/json; charset=utf-8" body |}
            end
      end
  end.

(** ** What the row count says

    [sent] rows were taken by the writer, of which [flushed_csv] when the CSV
    writer was last flushed; [delivered] is how many the last flush of the body
    had before it; [seen] rows came from the store. *)
Record tally := { sent : Z; flushed_csv : Z; delivered : Z; seen : Z }.

Definition tally0 : tally := {| sent := 0; flushed_csv := 0; delivered := 0; seen := 0 |}.

Definition observe (csv : bool) (R : Set) (c : call R) : R → tally → tally :=
  match c with
  | WriteRecord (HeaderRecord _) => fun _ m => m
  | WriteRecord _ => fun ok m => if ok
      then {| sent := sent m + 1; flushed_csv := flushed_csv m; delivered := delivered m; seen := seen m |} else m
  | FlushWriter => fun ok m => if ok
      then {| sent := sent m; flushed_csv := sent m; delivered := delivered m; seen := seen m |} else m
  | FlushBody => fun ok m => if ok
      then {| sent := sent m; flushed_csv := flushed_csv m; delivered := if csv then flushed_csv m else sent m; seen := seen m |} else m
  | NextRequestLog => fun x m => match x with
      | NextRow _ _ => {| sent := sent m; flushed_csv := flushed_csv m; delivered := delivered m; seen := seen m + 1 |}
      | NoRow _ => m end
  | _ => fun _ m => m
  end.

Section rows.
Context (csv gzip : bool).

Abbreviation wpt := (wp (observe csv) (fun _ _ _ => True) (fun _ _ _ _ => True)).

(** Rows written or pending are the rows sent; what counts as written went out. *)
Definition consistent (p : progress) (m : tally) : Prop :=
  0 ≤ writtenRows p ∧ 0 ≤ pendingRows p ∧ writtenRows p + pendingRows p = sent m ∧ flushed_csv m ≤ sent m ∧
  (csv || gzip = true → writtenRows p ≤ delivered m) ∧ (csv || gzip = false → pendingRows p = 0) ∧
  (csv = true → writtenRows p ≤ flushed_csv m).

(** A visited row is sent; a row that is not is not counted. *)
Definition visits (visit : progress → RequestLog → P (bool * progress)) : Prop :=
  ∀ p l m, consistent p m →
    wpt (visit p l) (fun '(ok, p') m' => consistent p' m' ∧ seen m' = seen m ∧ sent m ≤ sent m' ≤ sent m + 1 ∧
                                         (ok = true → sent m' = sent m + 1)) m.

Lemma stream_loop_spec visit remaining count p m :
  visits visit → consistent p m → sent m = count → seen m = count → 0 ≤ count →
  wpt (stream_loop visit remaining count p) (fun '(r, ok, p') m' =>
    consistent p' m' ∧ sent m' ≤ count + Z.of_nat remaining ∧
    (ok = true → RowCount r = sent m' ∧ seen m' = sent m' + if LimitReached r then 1 else 0)) m.
Proof.
  intros Hv. revert count p m. induction remaining as [|n IH]; intros count p m Hc Hs He H0; cbn [stream_loop bind ask wp].
  all: split; [done|]; intros [expired log|fails] _; cbn [observe wp];
    [|split; [done|]; split; [lia|]; intros _; cbn; lia].
  all: destruct expired; cbn [wp]; [split; [done|]; split; [cbn; lia|done]|].
  - split; [done|]. split; [cbn; lia|]. intros _. cbn. lia.
  - destruct log as [l|]; cbn [wp]; [|split; [done|]; split; [cbn; lia|done]].
    apply wp_bind. eapply wp_mono; [by apply Hv|]. intros [ok p'] m' (Hc' & Hseen & Hsent & Hok). cbn in *. destruct ok; cbn [wp].
    + eapply wp_mono; [apply IH; [done| | |]|]; [rewrite Hok by done; lia|lia|lia|]. intros [[r ok] q] m'' (? & ? & ?).
      split; [done|]. split; [lia|done].
    + split; [done|]. split; [lia|done].
Qed.

Lemma StreamRequestLogs_spec visit f n p m :
  visits visit → consistent p m → sent m = 0 → seen m = 0 → 0 ≤ n →
  wpt (StreamRequestLogs f n visit p) (fun '(r, ok, p') m' =>
    consistent p' m' ∧ sent m' ≤ n ∧ (ok = true → RowCount r = sent m' ∧ seen m' = sent m' + if LimitReached r then 1 else 0)) m.
Proof.
  intros Hv Hc Hs He Hn. unfold StreamRequestLogs. destruct (stream_filter f n); cbn [wp bind ask]; [|split; [done|]; split; [lia|done]].
  split; [done|]. intros [] _; cbn [wp observe]; [|split; [done|]; split; [lia|done]].
  eapply wp_mono; [by apply stream_loop_spec|]. intros [[r ok] q] m' (? & ? & ?). split; [done|]. split; [lia|done].
Qed.

End rows.

(** How the two formats visit a row. *)
Lemma visit_csv_spec gzip : visits true gzip visit_csv.
Proof.
  intros p l m (H1 & H2 & H3 & H4 & H5 & H6 & H7). specialize (H5 eq_refl). specialize (H7 eq_refl). unfold visit_csv. cbn [bind ask].
  unfold consistent, flushed in *. cbn [wp observe]. split; [done|]. intros [] _; cbn [negb wp]; [|cbn; repeat split; (done || lia)].
  case_bool_decide as Hp; cbn [wp bind ask]; [|cbn; repeat split; (done || lia)].
  split; [done|]. intros [] _; cbn [negb wp bind ask]; [|cbn; repeat split; (done || lia)].
  split; [done|]. intros [] _; cbn; repeat split; (done || lia).
Qed.

Lemma visit_json_spec gzip : visits false gzip (visit_json gzip).
Proof.
  intros p l m (H1 & H2 & H3 & H4 & H5 & H6 & _). unfold visit_json. cbn [bind ask]. cbn [orb] in H5, H6.
  unfold consistent, flushed in *. cbn [wp observe orb]. split; [done|]. intros [] _; cbn [negb wp]; [|cbn; repeat split; (done || auto || lia)].
  destruct gzip; [specialize (H5 eq_refl)|specialize (H6 eq_refl)]; case_bool_decide as Hp; cbn [wp bind ask].
  all: try (split; [done|]; intros [] _); cbn in *; repeat split; intros; try done; try lia.
Qed.

Lemma stream_csv_spec gzip o f m :
  0 ≤ Limit o → sent m = 0 → seen m = 0 → flushed_csv m = 0 → 0 ≤ delivered m →
  wp (observe true) (fun _ _ _ => True) (fun _ _ _ _ => True) (stream_csv o f) (fun '(r, ok, p) m' =>
    consistent true gzip p m' ∧ sent m' ≤ Limit o ∧
    (ok = true → RowCount r = sent m' ∧ seen m' = (sent m' + if LimitReached r then 1 else 0) ∧ writtenRows p = sent m')) m.
Proof.
  intros Hn Hs He Hf Hd. unfold stream_csv. set (start := {| writtenRows := 0; pendingRows := 0 |}).
  assert (∀ m', sent m' = 0 → seen m' = 0 → flushed_csv m' = 0 → 0 ≤ delivered m' → consistent true gzip start m') as Hstart.
  { intros m' ? ? ? ?. unfold consistent. cbn. repeat split; lia || done. }
  cbn [bind ask wp observe]. split; [done|]. intros header _.
  apply wp_bind. eapply (wp_mono _ _ _ _ (fun (headerOk : bool) m' => sent m' = 0 ∧ seen m' = 0 ∧ flushed_csv m' = 0 ∧ 0 ≤ delivered m')).
  { destruct header; cbn [wp bind ask observe]; [|done]. split; [done|]. intros [] _; cbn; repeat split; lia. }
  intros headerOk m1 (H1 & H2 & H3 & H4). apply wp_bind.
  eapply (wp_mono _ _ _ _ (fun '(r, ok, p) m' => consistent true gzip p m' ∧ sent m' ≤ Limit o ∧
    (ok = true → RowCount r = sent m' ∧ seen m' = sent m' + if LimitReached r then 1 else 0))).
  { destruct headerOk; cbn [wp]; [|split; [by apply Hstart|]; split; [lia|done]].
    apply StreamRequestLogs_spec; [apply visit_csv_spec|by apply Hstart|done|done|done]. }
  intros [[r ok] p] m2 (Hc & Hle & Hok). cbn [wp bind ask]. split; [done|]. intros csvOk _. split; [done|]. intros flushOk _.
  destruct Hc as (C1 & C2 & C3 & C4 & C5 & C6 & C7). specialize (C5 eq_refl). specialize (C7 eq_refl).
  destruct csvOk, flushOk; cbn [andb observe wp]; unfold consistent, flushed; cbn;
    (split; [repeat split; intros; (done || lia)|]; split; [lia|]).
  - rewrite !andb_true_r. intros Heq. destruct (Hok Heq). repeat split; lia.
  - rewrite andb_false_r. done.
  - rewrite andb_false_r. done.
  - rewrite !andb_false_r. done.
Qed.

Lemma stream_json_spec o f m :
  0 ≤ Limit o → sent m = 0 → seen m = 0 → flushed_csv m = 0 → 0 ≤ delivered m →
  wp (observe false) (fun _ _ _ => True) (fun _ _ _ _ => True) (stream_json o f) (fun '(r, ok, p) m' =>
    consistent false (Gzip o) p m' ∧ sent m' ≤ Limit o ∧
    (ok = true → RowCount r = sent m' ∧ seen m' = (sent m' + if LimitReached r then 1 else 0) ∧ writtenRows p = sent m')) m.
Proof.
  intros Hn Hs He Hf Hd. unfold stream_json. apply wp_bind. eapply wp_mono.
  { apply (StreamRequestLogs_spec false (Gzip o)); [apply visit_json_spec| |done|done|done]. unfold consistent. cbn. repeat split; lia || done. }
  intros [[r ok] p] m2 (Hc & Hle & Hok). cbn [wp bind ask]. split; [done|]. intros flushOk _.
  destruct Hc as (C1 & C2 & C3 & C4 & C5 & C6 & C7). destruct flushOk; cbn [observe wp]; unfold consistent, flushed; cbn.
  - split; [repeat split; intros; (done || lia)|]. split; [lia|]. rewrite andb_true_r. intros Heq. destruct (Hok Heq). repeat split; lia.
  - split; [done|]. split; [lia|]. by rewrite andb_false_r.
Qed.

(** The row count of an export is honest, whatever fails on the way: it never exceeds the rows that were written and
    - for CSV and for compressed output, which are buffered - the rows written before the last flush that reached the
    client, nor the limit of the export; and an export is reported as a success only if the count is the number of rows
    that came from the store (one more was seen when the limit cut it short) and all of them went out. *)
Theorem export_row_count_honest o f tr r rows ok :
  executes (stream_rows o f) tr (r, rows, ok) → 0 ≤ Limit o →
  let csv := str_eq (Format o) requestLogExportFormatCSV in
  let m := summary (observe csv) tally0 tr in
  0 ≤ rows ≤ sent m ∧ rows ≤ Limit o ∧ (csv || Gzip o = true → rows ≤ delivered m) ∧
  (ok = true → rows = sent m ∧ rows = RowCount r ∧ seen m = rows + if LimitReached r then 1 else 0).
Proof.
  intros Hex Hn csv m.
  assert (wp (observe csv) (fun _ _ _ => True) (fun _ _ _ _ => True) (stream_rows o f) (fun '(r, rows, ok) m =>
    0 ≤ rows ≤ sent m ∧ rows ≤ Limit o ∧ (csv || Gzip o = true → rows ≤ delivered m) ∧
    (ok = true → rows = sent m ∧ rows = RowCount r ∧ seen m = rows + if LimitReached r then 1 else 0)) tally0) as Hwp.
  { unfold stream_rows. cbn [bind ask wp]. split; [done|]. intros started _.
    assert (∀ (Q : bool → tally → Prop) m, (∀ b, Q b m) →
      wp (observe csv) (fun _ _ _ => True) (fun _ _ _ _ => True) (if Gzip o then ask CloseBody else Ret true) Q m) as Hclose.
    { intros Q m' HQ. destruct (Gzip o); cbn [wp ask]; [split; [done|]; intros b _; cbn; apply HQ|apply HQ]. }
    set (m1 := observe csv _ FlushBody started tally0).
    assert (sent m1 = 0 ∧ seen m1 = 0 ∧ flushed_csv m1 = 0 ∧ 0 ≤ delivered m1) as (H1 & H2 & H3 & H4).
    { unfold m1. destruct started, csv; cbn; lia. }
    destruct started; cbn [negb].
    2:{ apply wp_bind, Hclose. intros b. cbn. repeat split; lia || done. }
    apply wp_bind. eapply (wp_mono _ _ _ _ (fun '(r, ok, p) m' => consistent csv (Gzip o) p m' ∧ sent m' ≤ Limit o ∧
      (ok = true → RowCount r = sent m' ∧ seen m' = (sent m' + if LimitReached r then 1 else 0) ∧ writtenRows p = sent m'))).
    { unfold csv. destruct (str_eq (Format o) requestLogExportFormatCSV); [by apply stream_csv_spec|by apply stream_json_spec]. }
    intros [[r' ok'] p] m2 (Hc & Hle & Hok). apply wp_bind, Hclose. intros closed. cbn.
    destruct Hc as (C1 & C2 & C3 & C4 & C5 & C6 & C7).
    destruct closed; cbn [negb andb]; [|destruct (Gzip o)]; rewrite ?andb_true_r, ?andb_false_r;
      (split; [lia|]; split; [lia|]; split; [intros Heq; (specialize (C5 Heq); lia) || lia|]); intros Heq; try done;
      destruct (Hok Heq) as (? & ? & ?); repeat split; lia. }
  destruct (wp_sound _ _ _ _ _ _ tr (r, rows, ok) Hwp Hex) as [_ HQ]; [|exact HQ].
  clear. generalize tally0. induction tr as [|[R e x] tr IH]; intros m; [done|]. split; [done|apply IH].
Qed.

(** ** Cells

    Nothing in front of the first character that is not white space makes a
    formula. *)
Definition inert (cell : string) : Prop :=
  match trim_left_bytes (String.list_ascii_of_string cell) with a :: _ => formula_start a = false | [] => True end.

(** Trimming stops at a quote put where it stopped before. *)
Lemma trim_left_quote l t :
  trim_left_bytes (take (length l - length (trim_left_bytes l)) l ++ ascii_of_N 39 :: t) = ascii_of_N 39 :: t.
Proof.
  unfold trim_left_bytes. set (tr := trim_front space1 space2 space3).
  assert (∀ n l, (length l ≤ n)%nat → ∃ k, l = k ++ tr l ∧ tr (k ++ ascii_of_N 39 :: t) = ascii_of_N 39 :: t) as H.
  { assert (tr (ascii_of_N 39 :: t) = ascii_of_N 39 :: t) as Hq by (destruct t as [|b [|c t]]; reflexivity).
    intros n. induction n as [|n IH]; intros [|a l1] Hl; cbn [length] in Hl; try lia; try (by exists []).
    cbn [tr trim_front]. destruct (space1 a) eqn:E1.
    { destruct (IH l1) as (k & Hk & Ht); [lia|]. exists (a :: k). split; [cbn; by f_equal|]. cbn. by rewrite E1. }
    destruct l1 as [|b l2]; [by exists []|]. destruct (space2 a b) eqn:E2.
    { destruct (IH l2) as (k & Hk & Ht); [cbn in Hl; lia|]. exists (a :: b :: k). split; [cbn; by do 2 f_equal|]. cbn. by rewrite E1, E2. }
    destruct l2 as [|c l3]; [by exists []|]. destruct (space3 a b c) eqn:E3; [|by exists []].
    destruct (IH l3) as (k & Hk & Ht); [cbn in Hl; lia|]. exists (a :: b :: c :: k). split; [cbn; by do 3 f_equal|].
    cbn. by rewrite E1, E2, E3. }
  destruct (H (length l) l) as (k & Hk & Ht); [done|]. rewrite Hk at 1 3. rewrite length_app.
  replace (length k + length (tr l) - length (tr l))%nat with (length k) by lia. by rewrite take_app_length.
Qed.

Lemma spreadsheetSafeCSVCell_inert v : inert (spreadsheetSafeCSVCell v).
Proof.
  unfold inert, spreadsheetSafeCSVCell. set (l := String.list_ascii_of_string v).
  destruct (trim_left_bytes l) as [|a rest] eqn:E; [fold l; by rewrite E|]. destruct (formula_start a) eqn:Ef; [|fold l; by rewrite E].
  rewrite String.list_ascii_of_string_of_list_ascii. pose proof (trim_left_quote l (a :: rest)) as H. rewrite E in H. by rewrite H.
Qed.

(** No cell of an exported CSV record that holds a text can be taken for a formula by a spreadsheet: after any white
    space it does not begin with an equals, plus, minus or at sign.  The other cells are numbers and the formatted time. *)
Theorem csv_cells_inert l cell :
  cell ∈ requestLogExportCSVRecord l →
  inert cell ∨ (∃ n, cell = FormatInt n) ∨ cell = FormatNano (Log_CreatedAt l).
Proof using Type.
  unfold requestLogExportCSVRecord. rewrite !elem_of_cons. intros H.
  assert (∀ b, inert (FormatBool b)) as Hb by (by intros []).
  assert (∀ v (Q : Prop), inert match v with Some n => FormatInt n | None => "" end ∨
            (∃ n, match v with Some n => FormatInt n | None => "" end = FormatInt n) ∨ Q) as Ho by (intros [n|] Q; [right; left; eauto|by left]).
  repeat (destruct H as [->|H]; [first [left; apply spreadsheetSafeCSVCell_inert|left; apply Hb|right; left; eexists; reflexivity|
    right; right; reflexivity|apply Ho]|]). by apply not_elem_of_nil in H.
Qed.

End export.

Module Demo.
(** Three rows in the store, an export of two. *)
Definition rows : list RequestLog :=
  match RequestLogs.scanRequestLog (fun _ => None) (RequestLogs.Demo.row 7 100 200) with Some l => [l; l; l] | None => [] end.
Definition options : requestLogExportOptions := {| Format := "csv"; Limit := 2; Gzip := false |}.
Definition window : RequestLogFilter :=
  {| RL_Limit := 0; RL_Cursor := ""; RL_Since := 1; RL_Before := 1000; RL_RequestID := ""; RL_Query := ""; RL_StatusClass := "all";
     RL_StatusCode := 0; RL_ProviderAccountID := 0; RL_RoutingPoolID := 0; RL_ClientKeyID := 0; RL_Model := ""; RL_SessionID := "";
     RL_Error := ""; RL_UsageSource := ""; RL_RoutingPoolError := ""; RL_RoutingPoolChain := ""; RL_GatewayFallbacks := false |}.

Abbreviation demo_stream := (stream_rows (fun _ => "[]") (fun _ => "{}") (fun _ => "t") options window).

Lemma export_row_count_demo :
  ∃ tr, executes demo_stream tr ({| RowCount := 2; LimitReached := true |}, 2, true) ∧ 2 ≤ delivered (summary (observe true) tally0 tr).
Proof.
  destruct (run HttpApi.Demo.env demo_stream rows) as [[a tr] w] eqn:E. exists tr.
  assert (a = ({| RowCount := 2; LimitReached := true |}, 2, true)) as Ha by (change a with ((a, tr, w).1.1); rewrite <- E; vm_compute; reflexivity).
  pose proof (run_executes _ _ _ _ _ _ E) as Hex. rewrite Ha in Hex. split; [exact Hex|].
  destruct (export_row_count_honest (fun _ => "[]") (fun _ => "{}") (fun _ => "t") options window tr _ 2 true Hex) as (_ & _ & H & _);
    [vm_compute; discriminate|]. apply H. reflexivity.
Defined.

(** A cell of such a row, and one that would be a formula. *)
Lemma csv_cells_demo : Forall (fun l => inert "key (n2_abc)" ∧ spreadsheetSafeCSVCell " =1+1" = " '=1+1") rows.
Proof.
  assert (Forall (fun l => "key (n2_abc)" ∈ requestLogExportCSVRecord (fun _ => "[]") (fun _ => "t") l) rows) as Hin.
  { repeat constructor; cbn; set_solver. }
  eapply Forall_impl; [exact Hin|]. intros l Hl. split; [|reflexivity].
  destruct (csv_cells_inert (fun _ => "[]") (fun _ => "t") l _ Hl) as [H|[_|Hn]]; [exact H|reflexivity|discriminate].
Defined.
End Demo.
End HttpExport.
