(* ===== verification/HttpProvider.v ===== *)
(** * The management interface: handlers for provider accounts and alerting

    The provider handlers of [httpapi/server.go], among them the operations on
    many accounts at once with their audit record ([httpapi/system_event.go]),
    and the alerting handlers of [httpapi/alerting.go]. *)

From S2P Require Import Prelude GoStrings Json Effects Account Scheduling OAuth AdminBase SettingsRuntime SystemEvents Alerting RequestInfo HttpJson HttpApi HttpRouting HttpHandlers.
From Stdlib Require Import Ascii.
From Stdlib Require String.

Module HttpProvider.
Import HttpJson HttpApi HttpHandlers.
Import SystemEvents (RequestContext, Build_Target).

(** ** Errors *)

Definition providerAccountErrorResponse (e : svc_error) : Z * string :=
  if is_provider e Account.ErrInvalidInput then (400, "invalid_input")
  else if is_provider e Account.ErrNotConnected || is_admin e AdminBase.ErrNotFound then (404, "not_found")
  else match e with
       | ErrOAuthModelCatalogBusy => (429, "catalog_refresh_busy")
       | ErrOAuthModelCatalogStale => (409, "catalog_refresh_superseded")
       | _ => (500, "internal_error")
       end.

Definition writeProviderAccountError (e : svc_error) : response :=
  let '(code, text) := providerAccountErrorResponse e in writeError code text.

Section handlers.
Context (s : Server) (ParseTime : string → option Time).
(** The query parameters of a URL, if it can be parsed. *)
Context (url_query : string → option (list (string * string))).

Abbreviation with_json := (HttpHandlers.with_json ParseTime).

(** [if providers == nil]: the provider service may be missing. *)
Definition with_providers (k : P response) : P response := if negb (has_providers s) then Ret unavailable else k.

(** One call to the provider service. *)
Definition provide {A : Set} (c : call (result svc_error A)) (k : A → response) : P response :=
  let! x := ask c in
  Ret match x with Ok a => k a | Err e => writeProviderAccountError e end.

(** ** What is shown *)

(** An account; credentials and ciphertexts have no field.  The summary of the
    proxy and the times of the row are not part of [Account.Account]. *)
Definition account_value (a : Account.Account) : list (string * value) :=
  [("id", VInt (Account.ID a)); ("provider", VString (Account.Provider a)); ("accountType", VString (Account.AccountType a));
   ("subject", VString (Account.Subject a)); ("name", VString (Account.Name a)); ("displayName", VString (Account.DisplayName a))] ++
  omitempty [("baseUrl", VString (Account.BaseURL a))] ++
  [("accessTokenExpiresAt", time_value (Account.AccessTokenExpiresAt a)); ("lastRefreshAt", time_value (Account.LastRefreshAt a));
   ("enabled", VBool (Account.Enabled a)); ("priority", VInt (Account.Priority a));
   ("loadFactor", VInt (Account.LoadFactor a)); ("maxConcurrentRequests", VInt (Account.MaxConcurrentRequests a));
   ("lastUsedAt", time_value (Account.LastUsedAt a)); ("lastError", VString (Account.LastError a));
   ("lastErrorAt", time_value (Account.LastErrorAt a)); ("lastTestAt", time_value (Account.LastTestAt a));
   ("lastTestStatus", VString (Account.LastTestStatus a)); ("lastTestError", VString (Account.LastTestError a));
   ("metadata", map_value (Account.Metadata a)); ("status", VString (Account.Status a)); ("statusReason", VString (Account.StatusReason a));
   ("fingerprintHash", VString (Account.FingerprintHash a)); ("userAgentHash", VString (Account.UserAgentHash a));
   ("ipHash", VString (Account.IPHash a)); ("failureCount", VInt (Account.FailureCount a));
   ("circuitOpenUntil", time_value (Account.CircuitOpenUntil a)); ("rateLimitedUntil", time_value (Account.RateLimitedUntil a));
   ("fingerprintProfileId", match Account.FingerprintProfileID a with Some i => VInt i | None => VNil end);
   ("lastRefreshError", VString (Account.LastRefreshError a)); ("lastRefreshErrorAt", time_value (Account.LastRefreshErrorAt a))].

Definition zero_settings : SettingsRuntime.GatewaySettings := SettingsRuntime.Build_GatewaySettings 0 0 0 0 0 false 0 0.

(** [settings] stays zero without an administration service. *)
Definition gateway_settings (k : SettingsRuntime.GatewaySettings → P response) : P response :=
  if has_admins s then
    let! x := ask GetGatewaySettings in
    match x with Err _ => Ret internal_error | Ok settings => k settings end
  else k zero_settings.

Definition account_concurrency : P (list (Z * Z)) := if has_account_concurrency s then ask AccountConcurrencySnapshot else Ret [].

Definition handleListProviderAccounts : admin_handler := fun _ _ _ =>
  with_providers (
    let! accounts := ask ListAccounts in
    match accounts with
    | Err _ => Ret internal_error
    | Ok accounts =>
        gateway_settings (fun settings =>
          let! concurrency := account_concurrency in
          Ret (named 200 "accounts" (VList (map (fun x =>
            VObject (account_value (HttpRouting.AR_Account x) ++
              [("currentConcurrentRequests", VInt (HttpRouting.AR_Current x));
               ("effectiveMaxConcurrentRequests", VInt (HttpRouting.AR_Effective x))]))
            (HttpRouting.providerAccountResponses accounts settings concurrency)))))
    end).

Definition candidate_value (c : HttpRouting.selectionCandidateResponse) : value :=
  let k := HttpRouting.CR_Candidate c in
  VObject ([("id", VInt (Scheduling.SC_ID k)); ("displayName", VString (Scheduling.SC_DisplayName k));
    ("accountType", VString (Scheduling.SC_AccountType k)); ("priority", VInt (Scheduling.SC_Priority k));
    ("loadFactor", VInt (Scheduling.SC_LoadFactor k)); ("status", VString (Scheduling.SC_Status k));
    ("lastUsedAt", time_value (Scheduling.SC_LastUsedAt k)); ("lastTestAt", time_value (Scheduling.SC_LastTestAt k));
    ("lastTestStatus", VString (Scheduling.SC_LastTestStatus k)); ("lastTestError", VString (Scheduling.SC_LastTestError k));
    ("scheduleRank", VInt (Scheduling.ScheduleRank k)); ("scheduleReason", VString (Scheduling.ScheduleReason k));
    ("selected", VBool (Scheduling.Selected k)); ("stickyBound", VBool (Scheduling.StickyBound k));
    ("schedulable", VBool (Scheduling.Schedulable k)); ("unschedulableReason", VString (Scheduling.UnschedulableReason k))] ++
    omitempty [("endpointCapability", VString (Scheduling.SC_EndpointCapability k))] ++
    [("currentConcurrentRequests", VInt (HttpRouting.CR_Current c));
    ("effectiveMaxConcurrentRequests", VInt (HttpRouting.CR_Effective c)); ("concurrencyBlocked", VBool (HttpRouting.CR_ConcurrencyBlocked c))]).

(** [RoutingPoolError] and [FingerprintUA] have no JSON name of their own; a
    preview leaves the fingerprint empty. *)
Definition preview_value (p : HttpRouting.selectionPreviewResponse) : value :=
  let v := HttpRouting.PR_Preview p in
  VObject ([("model", VString (Scheduling.SP_Model v))] ++ omitempty [("endpoint", VString (Scheduling.SP_Endpoint v))] ++
    [("sessionId", VString (Scheduling.SP_SessionID v)); ("selectedAccountId", VInt (Scheduling.SelectedAccountID v))] ++
    omitempty [("stickyBoundAccountId", VInt (Scheduling.StickyBoundAccountID v)); ("routingPoolId", VInt (Scheduling.SP_RoutingPoolID v));
      ("routingPoolName", VString (Scheduling.SP_RoutingPoolName v));
      ("routingPoolFallbackDepth", VInt (Scheduling.SP_RoutingPoolFallbackDepth v));
      ("routingPoolFallbackChain", VString (Scheduling.SP_RoutingPoolFallbackChain v))] ++
    [("RoutingPoolError", VString (Scheduling.SP_RoutingPoolError v)); ("FingerprintUA", VString "");
    ("diagnosisStatus", VString (HttpRouting.DiagnosisStatus p)); ("diagnosisSummary", VString (HttpRouting.DiagnosisSummary p));
    ("diagnosisHints", VList (map VString (HttpRouting.DiagnosisHints p)));
    ("blockedReasonCounts", VList (map (fun '(r, n) => VObject [("reason", VString r); ("count", VInt n)]) (HttpRouting.BlockedReasonCounts p)));
    ("candidates", VList (map candidate_value (HttpRouting.PR_Candidates p)))]).

Definition preview_error (e : svc_error) : response :=
  if is_provider e Account.ErrInvalidInput then invalid_input
  else if is_provider e Account.ErrNotConfigured then writeError 409 "provider_not_configured"
  else if is_provider e Account.ErrModelUnavailable || is_provider e Account.ErrEndpointUnavailable ||
          is_provider e Account.ErrAccountsUnavailable || is_provider e Account.ErrAccountsDisabled ||
          is_provider e Account.ErrNotConnected then writeError 404 "not_found"
  else internal_error.

Definition handleModelRoutingPreview : admin_handler := fun _ r _ =>
  with_providers (
    let model := TrimSpace (query r "model") in
    if str_eq model "" then Ret bad_request
    else
      match (excluded ← HttpRouting.parseExcludedAccountIDs (query r "excludedAccountIds");
             pool ← parseOptionalPositiveInt64 (query r "routingPoolId"); Some (excluded, pool)) with
      | None => Ret bad_request
      | Some (excluded, pool) =>
          match Account.NormalizeEndpoint (query r "endpoint") with
          | Err _ => Ret invalid_input
          | Ok endpoint =>
              let! preview := ask (Preview (if bool_decide (0 < pool) then pool else 0) model endpoint (query r "sessionId") excluded) in
              match preview with
              | Err e => Ret (preview_error e)
              | Ok preview =>
                  gateway_settings (fun settings =>
                    let! accounts := ask ListAccounts in
                    match accounts with
                    | Err _ => Ret internal_error
                    | Ok accounts =>
                        let! concurrency := account_concurrency in
                        Ret (writeJSON 200 (preview_value
                          (HttpRouting.selectionPreviewWithConcurrency preview accounts settings concurrency)))
                    end)
              end
          end
      end).

Definition routing_account_value (x : HttpRouting.ModelRoutingAccount) : value :=
  VObject ([("id", VInt (HttpRouting.R_ID x)); ("displayName", VString (HttpRouting.R_DisplayName x));
    ("accountType", VString (HttpRouting.R_AccountType x))] ++ omitempty [("routingPoolIds", VList (map VInt (HttpRouting.R_RoutingPoolIDs x)))] ++
    [("enabled", VBool (HttpRouting.R_Enabled x)); ("priority", VInt (HttpRouting.R_Priority x)); ("loadFactor", VInt (HttpRouting.R_LoadFactor x));
    ("status", VString (HttpRouting.R_Status x)); ("statusReason", VString (HttpRouting.R_StatusReason x));
    ("lastError", VString (HttpRouting.R_LastError x)); ("lastErrorAt", time_value (HttpRouting.R_LastErrorAt x));
    ("lastUsedAt", time_value (HttpRouting.R_LastUsedAt x)); ("scheduleRank", VInt (HttpRouting.R_ScheduleRank x));
    ("schedulable", VBool (HttpRouting.R_Schedulable x)); ("unschedulableReason", VString (HttpRouting.R_UnschedulableReason x))]).

Definition routing_status_value (x : HttpRouting.ModelRoutingStatus) : value :=
  VObject [("defaultModel", VString (HttpRouting.ST_DefaultModel x));
    ("models", VList (map (fun m => VObject ([("model", VString (HttpRouting.MM_Model m)); ("configuredCount", VInt (HttpRouting.ConfiguredCount m));
       ("enabledCount", VInt (HttpRouting.EnabledCount m))] ++
       omitempty [("accounts", VList (map routing_account_value (HttpRouting.MM_Accounts m)))]))
       (HttpRouting.ST_Models x)));
    ("warnings", VList (map VString (HttpRouting.ST_Warnings x)))].

(** The calls of [modelRoutingStatus]. *)
Definition modelRoutingStatus : P (result svc_error HttpRouting.ModelRoutingStatus) :=
  let! dflt := ask DefaultModel in
  match dflt with
  | Err e => Ret (Err (EAdmin e))
  | Ok dflt =>
      let! accounts := ask ListAccounts in
      match accounts with
      | Err e => Ret (Err e)
      | Ok accounts =>
          let! pools := ask ListRoutingPools in
          match pools with
          | Err e => Ret (Err (EAdmin e))
          | Ok pools =>
              let! models := ask (ListAccountModelsForAccounts (map Account.ID accounts)) in
              match models with
              | Err e => Ret (Err e)
              | Ok models =>
                  let! now := ask TimeNow in
                  Ret (Ok (HttpRouting.modelRoutingStatus dflt accounts (map (fun p => (PM_ID p, PM_AccountIDs p)) pools) models now))
              end
          end
      end
  end.

Definition model_routing : admin_handler := fun _ _ _ =>
  with_providers (
    let! x := modelRoutingStatus in
    Ret match x with
        | Ok st => writeJSON 200 (routing_status_value st)
        | Err e =>
            if is_admin e AdminBase.ErrInvalidInput || is_provider e Account.ErrInvalidInput then invalid_input
            else if is_provider e Account.ErrNotConnected then writeError 404 "not_found"
            else internal_error
        end).

(** ** Connecting accounts *)

(** A profile id of zero means none. *)
Definition profile_id (v : value) : option Z :=
  match int_ptr v "fingerprintProfileId" with Some 0 => None | x => x end.

Definition create_api_upstream : admin_handler := fun _ r _ =>
  with_providers (with_json r
    (TStruct [("name", TString); ("baseUrl", TString); ("apiKey", TString); ("proxyUrl", TString); ("enabled", TPtr TBool);
              ("priority", TInt); ("loadFactor", TInt); ("fingerprintProfileId", TPtr TInt); ("models", TList TString)]) (fun req =>
    provide (Provider "" (CreateAPIUpstreamAccount
      {| UI_Name := str req "name"; UI_BaseURL := str req "baseUrl"; UI_APIKey := str req "apiKey"; UI_ProxyURL := str req "proxyUrl";
         UI_Enabled := bool_ptr req "enabled"; UI_Priority := int req "priority"; UI_LoadFactor := int req "loadFactor";
         UI_FingerprintProfileID := profile_id req; UI_Models := strs req "models" |})) (named 201 "account"))).

Definition handleProviderStatus : admin_handler := fun _ _ _ =>
  with_providers (let! x := ask (Provider "" ProviderStatus) in Ret match x with Ok v => writeJSON 200 v | Err _ => internal_error end).

Definition decodeConnectOptions (r : HTTPRequest) : option OAuth.ConnectOptions :=
  let agent := TrimSpace (UserAgent r) in
  let ip := RequestInfo.ClientIP (info r) in
  if bool_decide (ContentLength r = 0)
  then Some (OAuth.Build_ConnectOptions "/" "" 0 None 0 None (OAuth.Build_Fingerprint "" agent ip))
  else
    req ← decodeJSON ParseTime (Body r)
      (TStruct [("redirectAfter", TString); ("name", TString); ("priority", TInt); ("enabled", TPtr TBool); ("targetAccountId", TInt);
                ("fingerprintProfileId", TPtr TInt); ("fingerprint", TString)]);
    let redirect := TrimSpace (str req "redirectAfter") in
    Some (OAuth.Build_ConnectOptions (if str_eq redirect "" then "/" else redirect) (TrimSpace (str req "name")) (int req "priority")
      (bool_ptr req "enabled") (int req "targetAccountId") (profile_id req)
      (OAuth.Build_Fingerprint (TrimSpace (str req "fingerprint")) agent ip)).

Definition handleProviderConnect : admin_handler := fun _ r _ =>
  with_providers (
    match decodeConnectOptions r with
    | None => Ret bad_request
    | Some options =>
        let! x := ask (StartConnect options) in
        Ret match x with
            | Ok url => writeJSON 200 (VObject [("authorizationUrl", VString url)])
            | Err e => if is_provider e Account.ErrNotConfigured then writeError 409 "provider_not_configured" else internal_error
            end
    end).

Definition decodeCallbackURL (r : HTTPRequest) : option (string * string) :=
  req ← decodeJSON ParseTime (Body r) (TStruct [("callbackUrl", TString)]);
  q ← url_query (TrimSpace (str req "callbackUrl"));
  let code := TrimSpace (lookup_first q "code") in
  let state := TrimSpace (lookup_first q "state") in
  if str_eq code "" || str_eq state "" then None else Some (code, state).

Definition handleProviderCallback : admin_handler := fun _ r _ =>
  with_providers (
    match decodeCallbackURL r with
    | None => Ret bad_request
    | Some (code, state) =>
        let! x := ask (CompleteCallback code state) in
        match x with
        | Err e =>
            Ret (if is_provider e Account.ErrInvalidState then writeError 400 "invalid_oauth_callback"
                 else if is_provider e Account.ErrNotConfigured then writeError 409 "provider_not_configured" else internal_error)
        | Ok (id, account) =>
            let! y := ask (Provider2 (SyncOAuthAccountModels id)) in
            Ret match y with
                | Err _ => writeJSON 502 (VObject [("error", VString "oauth_model_sync_failed"); ("account", account)])
                | Ok (models, summary) => writeJSON 200 (VObject [("account", account); ("models", models); ("synced", summary)])
                end
        end
    end).

(** ** Single accounts *)

Definition patch_request : schema :=
  TStruct [("enabled", TPtr TBool); ("priority", TPtr TInt); ("loadFactor", TPtr TInt); ("maxConcurrentRequests", TPtr TInt);
           ("name", TPtr TString); ("baseUrl", TPtr TString); ("apiKey", TPtr TString); ("proxyUrl", TPtr TString);
           ("fingerprintProfileId", TPtr TInt)].

Definition handlePatchProviderAccount : admin_handler := fun _ r _ =>
  with_providers (with_id r (fun id =>
    match (b ← readJSONBody (Body r); req ← decodeJSONBytes ParseTime b patch_request;
           present ← jsonFieldPresent b "fingerprintProfileId"; Some (req, present)) with
    | None => Ret bad_request
    | Some (req, profileSet) =>
        if forallb (fun name => bool_decide (as_ptr (fun _ => tt) (get_field req name) = None))
             ["enabled"; "priority"; "loadFactor"; "maxConcurrentRequests"; "name"; "baseUrl"; "apiKey"; "proxyUrl"] && negb profileSet
        then Ret invalid_input
        else provide (Provider "" (UpdateAccount id
          {| AU_Enabled := bool_ptr req "enabled"; AU_Priority := int_ptr req "priority"; AU_LoadFactor := int_ptr req "loadFactor";
             AU_MaxConcurrentRequests := int_ptr req "maxConcurrentRequests"; AU_Name := str_ptr req "name";
             AU_BaseURL := str_ptr req "baseUrl"; AU_APIKey := str_ptr req "apiKey"; AU_ProxyURL := str_ptr req "proxyUrl";
             AU_FingerprintProfileIDSet := profileSet; AU_FingerprintProfileID := int_ptr req "fingerprintProfileId" |}))
          (named 200 "account")
    end)).

Definition handleDeleteProviderAccount : admin_handler := fun _ r _ =>
  with_providers (with_id r (fun id => provide (Provider "" (DisconnectAccount id)) (fun _ => noContent))).

(** The catalog status is added when it can be had. *)
Definition with_catalog (id : Z) (fields : list (string * value)) : P response :=
  let! x := ask (Provider "" (OAuthModelCatalogStatus id)) in
  Ret (writeJSON 200 (VObject (fields ++ match x with Ok v => [("catalog", v)] | Err _ => [] end))).

Definition handleListProviderAccountModels : admin_handler := fun _ r _ =>
  with_providers (with_id r (fun id =>
    let! x := ask (Provider "" (ListAccountModels id)) in
    match x with Err e => Ret (writeProviderAccountError e) | Ok models => with_catalog id [("models", models)] end)).

Definition model_input : schema := TStruct [("model", TString); ("enabled", TBool); ("metadata", TMap TString)].

Definition handleReplaceProviderAccountModels : admin_handler := fun _ r _ =>
  with_providers (with_id r (fun id => with_json r (TStruct [("models", TList model_input)]) (fun req =>
    provide (Provider "" (ReplaceAccountModels id (as_list (get_field req "models")))) (named 200 "models")))).

Definition handleSyncProviderAccountModels : admin_handler := fun _ r _ =>
  with_providers (with_id r (fun id =>
    provide (Provider2 (SyncUpstreamAccountModels id)) (fun '(models, summary) =>
      writeJSON 200 (VObject [("models", models); ("synced", summary)])))).

Definition handleRefreshProviderAccountModels : admin_handler := fun _ r _ =>
  with_providers (with_id r (fun id =>
    let! x := ask (Provider2 (RefreshOAuthAccountModels id)) in
    match x with
    | Err e => Ret (writeProviderAccountError e)
    | Ok (models, summary) => with_catalog id [("models", models); ("synced", summary)]
    end)).

Definition handleTestProviderAccountModel : admin_handler := fun _ r _ =>
  with_providers (with_id r (fun id => with_json r (TStruct [("model", TString)]) (fun req =>
    provide (Provider "" (TestAccountModel id (str req "model"))) (named 200 "result")))).

Definition refresh_error (e : svc_error) : response :=
  if is_provider e Account.ErrInvalidInput then invalid_input
  else if is_provider e Account.ErrNotConnected then writeError 404 "not_found" else internal_error.

Definition handleRefreshProviderAccount : admin_handler := fun _ r _ =>
  with_providers (with_id r (fun id =>
    let! x := ask (Provider "" (RefreshAccount id)) in
    Ret match x with Ok v => named 200 "account" v | Err e => refresh_error e end)).

Definition handleTestProviderAccount : admin_handler := fun _ r _ =>
  with_providers (with_id r (fun id => provide (Provider "" (TestAccount id)) (named 200 "account"))).

Definition handleTestAllProviderAccounts : admin_handler := fun _ _ _ =>
  with_providers (provide (Provider "" TestAccounts) (named 200 "accounts")).

Definition handleListProviderAccountTestResults : admin_handler := fun _ r _ =>
  with_providers (with_id r (fun id =>
    match (if str_eq (query r "limit") "" then Some 0 else Atoi (query r "limit")) with
    | None => Ret bad_request
    | Some limit => provide (Provider "" (ListAccountTestResults id limit)) (named 200 "results")
    end)).

(** [time.Duration(seconds) * time.Second] wraps. *)
Definition seconds_duration (n : Z) : Duration := wrap64 (n * Second).

Definition handlePauseProviderAccountScheduling : admin_handler := fun _ r _ =>
  with_providers (with_id r (fun id => with_json r (TStruct [("durationSeconds", TInt)]) (fun req =>
    provide (Provider "" (PauseAccountScheduling id (seconds_duration (int req "durationSeconds")))) (named 200 "account")))).

Definition handleResetProviderAccountStatus : admin_handler := fun _ r _ =>
  with_providers (with_id r (fun id => provide (Provider "" (ResetAccountStatus id)) (named 200 "account"))).

Definition disconnect_all : admin_handler := fun _ _ _ =>
  with_providers (let! x := ask (Provider "" Disconnect) in Ret match x with Ok _ => noContent | Err _ => internal_error end).

Definition disconnect_account : admin_handler := fun _ r _ =>
  with_providers (with_id r (fun id =>
    let! x := ask (Provider "" (DisconnectAccount id)) in
    Ret match x with Ok _ => noContent | Err e => refresh_error e end)).

(** ** Operations on many accounts *)

(** [parseBulkProviderAccountIDs]: at most a hundred positive ids, the
    duplicates dropped. *)
Fixpoint distinct_ids (seen ids : list Z) : option (list Z) :=
  match ids with
  | [] => Some []
  | id :: ids =>
      if bool_decide (id ≤ 0) then None
      else if bool_decide (id ∈ seen) then distinct_ids seen ids
      else rest ← distinct_ids (id :: seen) ids; Some (id :: rest)
  end.

Definition parseBulkProviderAccountIDs (ids : list Z) : option (list Z) :=
  if bool_decide (ids = []) || bool_decide (100 < length ids)%nat then None else distinct_ids [] ids.

Record providerBatchAudit := {
  B_ID : string; B_Action : string; requestedIDs : list Z; succeededIDs : list Z; failedIDs : list Z; errorCode : string
}.

Definition jint (n : Z) : Json.json := Json.JNumber (bool_decide (n < 0)) (Z.abs n) 0.
Definition jlen (l : list Z) : Json.json := jint (Z.of_nat (length l)).
(** A slice nothing was appended to is [nil], which is encoded as [null]. *)
Definition jids (l : list Z) : Json.json := if bool_decide (l = []) then Json.JNull else Json.JArray (map jint l).

Definition skippedIDs (a : providerBatchAudit) : list Z :=
  drop (length (succeededIDs a) + length (failedIDs a)) (requestedIDs a).

Definition batch_intent (a : providerBatchAudit) : SystemEvents.EventIntent :=
  let failed := negb (bool_decide (failedIDs a = [])) in
  let outcome := if failed then if bool_decide (succeededIDs a = []) then SystemEvents.OutcomeFailure else SystemEvents.OutcomePartial
                 else SystemEvents.OutcomeSuccess in
  let severity := if failed then SystemEvents.SeverityWarning else SystemEvents.SeverityInfo in
  intent audit severity (B_Action a) outcome (Build_Target "provider_account_batch" (B_ID a) "") (errorCode a)
    (Some ([("batch_id", Json.JString (B_ID a)); ("requested_count", jlen (requestedIDs a));
            ("attempted_count", jint (Z.of_nat (length (succeededIDs a) + length (failedIDs a))));
            ("succeeded_count", jlen (succeededIDs a)); ("failed_count", jlen (failedIDs a)); ("skipped_count", jlen (skippedIDs a));
            ("requested_ids", jids (requestedIDs a)); ("succeeded_ids", jids (succeededIDs a)); ("failed_ids", jids (failedIDs a));
            ("skipped_ids", jids (skippedIDs a))] ++
           (if str_eq (errorCode a) "" then [] else [("first_error_code", Json.JString (errorCode a))]))).

Definition batch_record (ctx : RequestContext) (a : providerBatchAudit) (statusCode : Z) (started : Time) : P unit :=
  let! now := ask TimeNow in
  let! _ := recordHTTPSystemEvent s ctx (batch_intent a) statusCode (time_sub now started) in
  Ret tt.

(** The accounts one after the other, until one fails. *)
Fixpoint batch_loop (op : Z → provider_op) (batch : string) (ids : list Z) (done : list Z) (answers : list value)
  : P (list Z * list value * option (Z * svc_error)) :=
  match ids with
  | [] => Ret (done, answers, None)
  | id :: ids =>
      let! x := ask (Provider batch (op id)) in
      match x with
      | Err e => Ret (done, answers, Some (id, e))
      | Ok v => batch_loop op batch ids (done ++ [id]) (answers ++ [v])
      end
  end.

(** The part the handlers have in common: [ok] is the status and the response on
    success. *)
Definition run_batch (ctx : RequestContext) (action : string) (ids : list Z) (op : Z → provider_op)
    (ok : list Z → list value → response) : P response :=
  let! random := ask Random in
  let batch := SystemEvents.NewCorrelationID random in
  let! started := ask TimeNow in
  let! (done, answers, failure) := batch_loop op batch ids [] [] in
  match failure with
  | Some (id, e) =>
      let '(code, text) := providerAccountErrorResponse e in
      let! _ := batch_record ctx {| B_ID := batch; B_Action := action; requestedIDs := ids; succeededIDs := done; failedIDs := [id];
                                    errorCode := text |} code started in
      Ret (writeProviderAccountError e)
  | None =>
      let x := ok done answers in
      let! _ := batch_record ctx {| B_ID := batch; B_Action := action; requestedIDs := ids; succeededIDs := done; failedIDs := [];
                                    errorCode := "" |} (status x) started in
      Ret x
  end.

Definition with_bulk_ids (ids : list Z) (k : list Z → P response) : P response :=
  match parseBulkProviderAccountIDs ids with None => Ret invalid_input | Some ids => k ids end.

Definition bulk_accounts : list Z → list value → response := fun _ answers => named 200 "accounts" (VList answers).

Definition handleBulkUpdateProviderAccounts : admin_handler := fun ctx r _ =>
  with_providers (with_json r
    (TStruct [("accountIds", TList TInt); ("enabled", TPtr TBool); ("priority", TPtr TInt); ("loadFactor", TPtr TInt);
              ("maxConcurrentRequests", TPtr TInt)]) (fun req =>
    let ids := ints req "accountIds" in
    if forallb (fun name => bool_decide (as_ptr (fun _ => tt) (get_field req name) = None))
         ["enabled"; "priority"; "loadFactor"; "maxConcurrentRequests"] ||
       bool_decide (ids = []) || bool_decide (100 < length ids)%nat then Ret invalid_input
    else with_bulk_ids ids (fun ids =>
      run_batch ctx "provider_account.batch.updated" ids (fun id => UpdateAccount id
        {| AU_Enabled := bool_ptr req "enabled"; AU_Priority := int_ptr req "priority"; AU_LoadFactor := int_ptr req "loadFactor";
           AU_MaxConcurrentRequests := int_ptr req "maxConcurrentRequests"; AU_Name := None; AU_BaseURL := None; AU_APIKey := None;
           AU_ProxyURL := None; AU_FingerprintProfileIDSet := false; AU_FingerprintProfileID := None |}) bulk_accounts))).

Definition ids_request : schema := TStruct [("accountIds", TList TInt)].

Definition handleBulkTestProviderAccounts : admin_handler := fun ctx r _ =>
  with_providers (with_json r ids_request (fun req =>
    with_bulk_ids (ints req "accountIds") (fun ids => run_batch ctx "provider_account.batch.tested" ids TestAccount bulk_accounts))).

Definition handleBulkRefreshProviderAccounts : admin_handler := fun ctx r _ =>
  with_providers (with_json r ids_request (fun req =>
    with_bulk_ids (ints req "accountIds") (fun ids => run_batch ctx "provider_account.batch.refreshed" ids RefreshAccount bulk_accounts))).

Definition handleBulkDisconnectProviderAccounts : admin_handler := fun ctx r _ =>
  with_providers (with_json r ids_request (fun req =>
    with_bulk_ids (ints req "accountIds") (fun ids =>
      run_batch ctx "provider_account.batch.disconnected" ids DisconnectAccount (fun _ _ => noContent)))).

Definition handleBulkPauseProviderAccountScheduling : admin_handler := fun ctx r _ =>
  with_providers (with_json r (TStruct [("accountIds", TList TInt); ("durationSeconds", TInt)]) (fun req =>
    if bool_decide (int req "durationSeconds" ≤ 0) then Ret invalid_input
    else with_bulk_ids (ints req "accountIds") (fun ids =>
      run_batch ctx "provider_account.batch.paused" ids
        (fun id => PauseAccountScheduling id (seconds_duration (int req "durationSeconds"))) bulk_accounts))).

Definition handleBulkResetProviderAccountStatus : admin_handler := fun ctx r _ =>
  with_providers (with_json r ids_request (fun req =>
    with_bulk_ids (ints req "accountIds") (fun ids =>
      run_batch ctx "provider_account.batch.status_reset" ids ResetAccountStatus bulk_accounts))).

Definition handleBulkReplaceProviderAccountModels : admin_handler := fun ctx r _ =>
  with_providers (with_json r (TStruct [("accountIds", TList TInt); ("models", TList model_input)]) (fun req =>
    let models := as_list (get_field req "models") in
    if bool_decide (length models = 0%nat) then Ret invalid_input
    else with_bulk_ids (ints req "accountIds") (fun ids =>
      run_batch ctx "provider_account.batch.models_replaced" ids (fun id => ReplaceAccountModels id models) (fun done answers =>
        named 200 "accounts" (VList (zip_with (fun id v => VObject [("accountId", VInt id); ("models", v)]) done answers)))))).

(** ** Alerting *)

Definition writeAlertingError (e : Alerting.alert_error) (staleConflict : bool) : response :=
  match e with
  | Alerting.ErrInvalidInput => invalid_input
  | Alerting.ErrNotFound => writeError 404 "not_found"
  | Alerting.ErrConflict => writeError 409 (if staleConflict then "stale_update" else "conflict")
  | Alerting.ErrRateLimited d => setRetryAfter d (writeError 429 "rate_limited")
  | _ => internal_error
  end.

Definition with_alerting (k : P response) : P response := if negb (has_alerting s) then Ret unavailable else k.

Definition alert (op : alert_op) (stale : bool) (k : value → response) : P response :=
  let! x := ask (Alerts op) in
  Ret match x with Ok v => k v | Err e => writeAlertingError e stale end.

Definition list_alert_actions : admin_handler := fun _ _ _ => with_alerting (alert ListActions false (named 200 "actions")).

Definition create_alert_action : admin_handler := fun _ r _ =>
  with_alerting (with_json r (TStruct [("name", TString); ("kind", TString); ("destination", TString); ("enabled", TBool)]) (fun req =>
    alert (CreateAction (str req "name") (str req "kind") (str req "destination") (flag req "enabled")) false (named 201 "action"))).

(** [optionalJSONString]: whether it was null, and the pointer it stands for. *)
Definition opt_is_null (v : value) : bool := match v with VOpt _ _ n => n | _ => false end.
Definition opt_pointer (v : value) : option string := match v with VOpt t true _ => Some t | _ => None end.

Definition update_alert_action : admin_handler := fun _ r _ =>
  with_alerting (with_id r (fun id =>
    with_json r (TStruct [("name", TString); ("kind", TString); ("destination", TOpt); ("enabled", TBool); ("expectedUpdatedAt", TTime)])
      (fun req =>
        let expected := as_time (get_field req "expectedUpdatedAt") in
        if time_is_zero expected then Ret invalid_input
        else if opt_is_null (get_field req "destination") then Ret invalid_input
        else alert (UpdateAction id (str req "name") (str req "kind") (opt_pointer (get_field req "destination")) (flag req "enabled")
                      expected) true (named 200 "action")))).

Definition delete_alert_action : admin_handler := fun _ r _ =>
  with_alerting (with_id r (fun id => alert (DeleteAction id) false (fun _ => noContent))).

Definition test_alert_action : admin_handler := fun _ r _ =>
  if negb (has_tester s) then Ret unavailable
  else with_id r (fun id => with_json r (TStruct [("expectedUpdatedAt", TTime)]) (fun req =>
    let expected := as_time (get_field req "expectedUpdatedAt") in
    if time_is_zero expected then Ret invalid_input else alert (TestAction id expected) true (named 200 "result"))).

Definition list_alert_rules : admin_handler := fun _ _ _ => with_alerting (alert ListRules false (named 200 "rules")).

(** The templates are a constant, [templates] as it is encoded. *)
Definition list_alert_rule_templates (templates : value) : admin_handler := fun _ _ _ => Ret (named 200 "templates" templates).

Definition install_alert_rule_template : admin_handler := fun _ r _ =>
  with_alerting (with_json r (TStruct [("actionId", TInt)]) (fun req =>
    let! x := ask (InstallRuleTemplate (PathValue r "key") (int req "actionId")) in
    Ret match x with
        | Ok (rule, created) => writeJSON (if created : bool then 201 else 200) (VObject [("rule", rule); ("created", VBool created)])
        | Err e => writeAlertingError e false
        end)).

Definition rule_fields : list (string * schema) :=
  [("name", TString); ("actionId", TInt); ("enabled", TBool); ("category", TString); ("severity", TString); ("eventAction", TString);
   ("recoveryAction", TString); ("aggregationCount", TInt); ("aggregationWindowSeconds", TInt); ("cooldownSeconds", TInt);
   ("deduplicationScope", TString); ("notifyRecovery", TBool)].

Definition create_alert_rule : admin_handler := fun _ r _ =>
  with_alerting (with_json r (TStruct rule_fields) (fun req => alert (CreateRule req) false (named 201 "rule"))).

(** The fields of the embedded struct without the expected time. *)
Definition rule_of (req : value) : value :=
  match req with VObject l => VObject (List.filter (fun f => negb (str_eq (fst f) "expectedUpdatedAt")) l) | v => v end.

Definition update_alert_rule : admin_handler := fun _ r _ =>
  with_alerting (with_id r (fun id => with_json r (TStruct (rule_fields ++ [("expectedUpdatedAt", TTime)])) (fun req =>
    let expected := as_time (get_field req "expectedUpdatedAt") in
    if time_is_zero expected then Ret invalid_input else alert (UpdateRule id (rule_of req) expected) true (named 200 "rule")))).

Definition delete_alert_rule : admin_handler := fun _ r _ =>
  with_alerting (with_id r (fun id => alert (DeleteRule id) false (fun _ => noContent))).

End handlers.
End HttpProvider.
