(* ===== verification/HttpServer.v ===== *)
(** * The management interface: routes and middleware

    The route table of [NewServer] in [httpapi/server.go] and
    [registerAlertingAdminRoutes] in [httpapi/alerting.go], the matching of
    [net/http]'s [ServeMux], and the handlers around it: the request's
    information, the context of its events, and the checks and headers for
    browsers. *)

From S2P Require Import Prelude GoStrings Json Effects SystemEvents RequestInfo GatewayTypes HttpJson HttpApi HttpHandlers HttpProvider HttpExport.
From Stdlib Require Import Ascii.
From Stdlib Require String.

Module HttpServer.
Import HttpJson HttpApi HttpHandlers HttpProvider.
Import SystemEvents (RequestContext, Build_RequestContext, Build_Actor).

(** ** Patterns *)

(** [Multi] is a trailing slash: the rest of the path. *)
Inductive seg := Lit (s : string) | Wild (name : string) | Multi.

Definition parse_seg (t : string) : seg :=
  if HasPrefix t "{" then Wild (TrimSuffix (TrimPrefix t "{") "}") else Lit t.

Fixpoint parse_segs (l : list string) : list seg :=
  match l with
  | [] => []
  | [t] => if str_eq t "" then [Multi] else [parse_seg t]
  | t :: l => parse_seg t :: parse_segs l
  end.

(** A pattern: an optional method, then a path. *)
Definition parse_pattern (p : string) : string * list seg :=
  let '(m, path) := match Cut p " "%char with (m, Some path) => (m, path) | (path, None) => ("", path) end in
  (m, match Split path "/"%char with _ :: l => parse_segs l | [] => [] end).

(** ** Matching *)

(** Percent-decoding of a path or a segment; [None] is a bad escape. *)
Fixpoint unescape_bytes (l : list ascii) : option (list ascii) :=
  match l with
  | [] => Some []
  | a :: l1 =>
      if bool_decide (a = "%"%char) then
        match l1 with
        | b :: c :: l2 =>
            hi ← Json.hex_value b; lo ← Json.hex_value c;
            rest ← unescape_bytes l2; Some (Json.byte (hi * 16 + lo) :: rest)
        | _ => None
        end
      else rest ← unescape_bytes l1; Some (a :: rest)
  end.

Definition unescape (t : string) : option string :=
  String.string_of_list_ascii <$> unescape_bytes (String.list_ascii_of_string t).

(** [pathUnescape] keeps a segment that cannot be decoded. *)
Definition pathUnescape (t : string) : string := default t (unescape t).

(** The elements of a path: its segments, and a slash at the end. *)
Fixpoint path_elements (l : list string) : list string :=
  match l with
  | [] => []
  | [t] => if str_eq t "" then ["/"] else [pathUnescape t]
  | t :: l => pathUnescape t :: path_elements l
  end.

Definition elements (path : string) : list string :=
  match Split path "/"%char with _ :: l => path_elements l | [] => [] end.

Section tree.
Context {A : Type}.

(** The patterns below a node: what is left of each. *)
Definition under_lit (t : string) (rs : list (list seg * A)) : list (list seg * A) :=
  flat_map (fun r => match fst r with Lit u :: l => if str_eq u t then [(l, snd r)] else [] | _ => [] end) rs.
Definition under_wild (rs : list (list seg * A)) : list (list seg * A) :=
  flat_map (fun r => match fst r with Wild _ :: l => [(l, snd r)] | _ => [] end) rs.

(** [matchPath]: a literal segment first, then a wildcard, then the rest of the
    path; the values of the wildcards come along. *)
Fixpoint matchPath (rs : list (list seg * A)) (path : list string) (values : list string) : option (A * list string) :=
  match path with
  | [] => (fun r => (snd r, values)) <$> List.find (fun r => match fst r with [] => true | _ => false end) rs
  | t :: rest =>
      match matchPath (under_lit t rs) rest values with
      | Some x => Some x
      | None =>
          match (if str_eq t "/" then None else matchPath (under_wild rs) rest (values ++ [t])) with
          | Some x => Some x
          | None => (fun r => (snd r, values)) <$> List.find (fun r => match fst r with [Multi] => true | _ => false end) rs
          end
      end
  end.
End tree.

Record route := { r_pattern : string; r_handler : handler }.

Definition wild_names (l : list seg) : list string :=
  flat_map (fun x => match x with Wild n => [n] | _ => [] end) l.

(** The routes of a method, with the paths of their patterns. *)
Definition of_method (m : string) (rs : list route) : list (list seg * route) :=
  flat_map (fun r => let '(pm, segs) := parse_pattern (r_pattern r) in if str_eq pm m then [(segs, r)] else []) rs.

(** [matchMethodAndPath] *)
Definition match_route (rs : list route) (m : string) (path : list string) : option (route * list string) :=
  match matchPath (of_method m rs) path [] with
  | Some x => Some x
  | None =>
      match (if str_eq m "HEAD" then matchPath (of_method "GET" rs) path [] else None) with
      | Some x => Some x
      | None => matchPath (of_method "" rs) path []
      end
  end.

(** [cleanPath]: no empty, [.] or [..] segments; a slash at the end stays. *)
Definition cleanPath (p : string) : string :=
  let l := clean_segments (Split p "/"%char) in
  let clean := "/" +++ Join l "/" in
  if HasSuffix p "/" && negb (str_eq clean "/") then clean +++ "/" else clean.

(** The pattern is the path itself and ends in a slash. *)
Definition exact_match (x : option (route * list string)) (p : string) : bool :=
  match x with
  | Some (r, _) =>
      let '(_, segs) := parse_pattern (r_pattern r) in
      match last segs with
      | Some Multi => HasSuffix p "/" && bool_decide (length segs = length (elements p))
      | _ => true
      end
  | None => false
  end.

(** What the router decides: a handler, or a redirection to a cleaner path. *)
Inductive routed := Handle (r : route) (values : list string) | Redirect (path pattern : string) | NoRoute.

Definition route_pattern (x : option (route * list string)) : string :=
  match x with Some (r, _) => r_pattern r | None => "" end.

Definition find_handler (rs : list route) (m p : string) : routed :=
  let clean := if str_eq m "CONNECT" then p else cleanPath p in
  let x := match_route rs m (elements clean) in
  let slashed := match_route rs m (elements (clean +++ "/")) in
  if negb (exact_match x clean) && negb (HasSuffix clean "/") && negb (str_eq clean "") && exact_match slashed (clean +++ "/")
  then Redirect (clean +++ "/") (route_pattern slashed)
  else if negb (str_eq clean p) then Redirect clean (route_pattern x)
  else match x with Some (r, values) => Handle r values | None => NoRoute end.

Definition routed_pattern (x : routed) : string :=
  match x with Handle r _ => r_pattern r | Redirect _ p => p | NoRoute => "" end.

(** ** The routes *)

(** What the handlers need of the standard library and of constants: the parsers
    of times, queries and URLs; the encodings and formats of the exports; the
    alert rule templates and the page of the OAuth callback around its URL. *)
Record Library := {
  L_ParseTime : string → option Time; L_url_query : string → option (list (string * string)); L_url_Parse : string → option RequestInfo.URL;
  L_MarshalAttempts : list GatewayTypes.RequestAttempt → string; L_EncodeRow : RequestLog → string; L_EncodeRows : list RequestLog → string;
  L_FormatNano : Time → string; L_FormatSeconds : Time → string; L_FormatCompact : Time → string;
  L_Marshal : SystemEvents.entries → option string; L_MarshalDocument : value → option string;
  L_templates : value; L_before : string; L_after : string
}.

Section server.
Context (s : Server) (lib : Library).

Abbreviation ParseTime := (L_ParseTime lib).
Abbreviation url_query := (L_url_query lib).
Abbreviation url_Parse := (L_url_Parse lib).
Abbreviation templates := (L_templates lib).
Abbreviation before := (L_before lib).
Abbreviation after := (L_after lib).

Definition export_logs : admin_handler :=
  HttpExport.handleExportRequestLogs s (L_MarshalAttempts lib) (L_EncodeRow lib) (L_EncodeRows lib) (L_FormatNano lib) (L_FormatSeconds lib)
    (L_FormatCompact lib) (L_Marshal lib).
Definition export_configuration : admin_handler :=
  HttpExport.handleExportConfiguration s (L_FormatCompact lib) (L_Marshal lib) (L_MarshalDocument lib).

Definition public (p : string) (h : handler) : route := {| r_pattern := p; r_handler := h |}.
Definition admin (p : string) (h : admin_handler) : route := {| r_pattern := p; r_handler := requireAdmin s h |}.

Definition public_routes : list route :=
  [public "GET /livez" liveness; public "GET /healthz" liveness; public "GET /version" (get_version s); public "GET /readyz" (readyz s);
   public "GET /api/admin/health" (admin_health s); public "GET /api/admin/bootstrap" (bootstrap s);
   public "POST /api/admin/login" (login s ParseTime); public "POST /api/admin/logout" (logout s);
   public "GET /api/admin/keys/{id}/secret" key_secret;
   public "GET /oauth/openai/callback" (writeManualOAuthCallbackPage before after)] ++
  (if has_gateway s then [public "/v1/" serve_gateway] else []) ++
  [public "/api/admin" not_found; public "/api/admin/" not_found; public "/" (web s)].

Definition admin_routes : list route :=
  [admin "GET /api/admin/alert-actions" (list_alert_actions s); admin "POST /api/admin/alert-actions" (create_alert_action s ParseTime);
   admin "PATCH /api/admin/alert-actions/{id}" (update_alert_action s ParseTime);
   admin "DELETE /api/admin/alert-actions/{id}" (delete_alert_action s);
   admin "POST /api/admin/alert-actions/{id}/test" (test_alert_action s ParseTime);
   admin "GET /api/admin/alert-rules" (list_alert_rules s); admin "GET /api/admin/alert-rule-templates" (list_alert_rule_templates templates);
   admin "POST /api/admin/alert-rule-templates/{key}/install" (install_alert_rule_template s ParseTime);
   admin "POST /api/admin/alert-rules" (create_alert_rule s ParseTime); admin "PATCH /api/admin/alert-rules/{id}" (update_alert_rule s ParseTime);
   admin "DELETE /api/admin/alert-rules/{id}" (delete_alert_rule s);
   admin "GET /api/admin/update-status" (update_status s); admin "POST /api/admin/update-status/refresh" (update_status_refresh s);
   admin "GET /api/admin/me" me; admin "GET /api/admin/sessions" list_sessions;
   admin "DELETE /api/admin/sessions/{id}" delete_session; admin "POST /api/admin/sessions/revoke-others" revoke_other_sessions;
   admin "POST /api/admin/change-password" change_password;
   admin "GET /api/admin/keys" (list_keys s); admin "POST /api/admin/keys" (create_key ParseTime);
   admin "POST /api/admin/keys/{id}/reveal-secret" (reveal_secret s ParseTime); admin "POST /api/admin/keys/{id}/revoke" revoke_key;
   admin "DELETE /api/admin/keys/{id}" delete_key; admin "PATCH /api/admin/keys/{id}" (rename_key ParseTime);
   admin "PUT /api/admin/keys/{id}/disabled" (set_key_disabled ParseTime);
   admin "PUT /api/admin/keys/{id}/model-policy" (set_key_model_policy ParseTime);
   admin "PUT /api/admin/keys/{id}/limits" (set_key_limits ParseTime); admin "PUT /api/admin/keys/{id}/budgets" (set_key_budgets ParseTime);
   admin "PUT /api/admin/keys/{id}/routing-pool" (set_key_routing_pool ParseTime);
   admin "GET /api/admin/routing-pools" list_routing_pools; admin "POST /api/admin/routing-pools" (create_routing_pool ParseTime);
   admin "PATCH /api/admin/routing-pools/{id}" (update_routing_pool ParseTime);
   admin "DELETE /api/admin/routing-pools/{id}" delete_routing_pool;
   admin "PUT /api/admin/routing-pools/{id}/accounts" (replace_routing_pool_accounts ParseTime);
   admin "GET /api/admin/request-logs" list_request_logs; admin "GET /api/admin/request-logs/export" export_logs;
   admin "GET /api/admin/configuration/export" export_configuration; admin "GET /api/admin/system-events" list_system_events;
   admin "POST /api/admin/request-logs/cleanup" cleanup_request_logs;
   admin "GET /api/admin/gateway-settings" (get_gateway_settings s);
   admin "PUT /api/admin/gateway-settings" (update_gateway_settings ParseTime);
   admin "GET /api/admin/usage-summary" usage_summary; admin "GET /api/admin/usage-pricing" get_usage_pricing;
   admin "PUT /api/admin/usage-pricing" (update_usage_pricing ParseTime);
   admin "POST /api/admin/usage-pricing/sync-official" sync_official_pricing;
   admin "POST /api/admin/usage-pricing/remove-shutdown" (remove_shutdown_pricing ParseTime);
   admin "POST /api/admin/usage-pricing/ignore-upcoming" (ignore_upcoming_pricing ParseTime);
   admin "GET /api/admin/ops/error-stats" ops_error_stats; admin "GET /api/admin/ops/throughput-trend" ops_throughput_trend;
   admin "GET /api/admin/ops/error-trend" ops_error_trend; admin "GET /api/admin/ops/latency-distribution" ops_latency_distribution;
   admin "GET /api/admin/ops/account-health" ops_account_health; admin "GET /api/admin/ops/account-tests" ops_account_tests;
   admin "GET /api/admin/ops/cost-breakdown" ops_cost_breakdown;
   admin "GET /api/admin/fingerprint-profiles" list_fingerprints;
   admin "POST /api/admin/fingerprint-profiles" (create_fingerprint ParseTime);
   admin "PATCH /api/admin/fingerprint-profiles/{id}" (update_fingerprint ParseTime);
   admin "DELETE /api/admin/fingerprint-profiles/{id}" delete_fingerprint;
   admin "GET /api/admin/error-passthrough-rules" list_error_rules;
   admin "POST /api/admin/error-passthrough-rules" (create_error_rule ParseTime);
   admin "PATCH /api/admin/error-passthrough-rules/{id}" (update_error_rule ParseTime);
   admin "DELETE /api/admin/error-passthrough-rules/{id}" delete_error_rule;
   admin "GET /api/admin/model-settings" get_model_settings; admin "PUT /api/admin/model-settings" (update_model_settings ParseTime);
   admin "GET /api/admin/model-routing" (model_routing s); admin "GET /api/admin/model-routing/preview" (handleModelRoutingPreview s);
   admin "GET /api/admin/provider-accounts" (handleListProviderAccounts s);
   admin "POST /api/admin/provider-accounts/api-upstream" (create_api_upstream s ParseTime);
   admin "POST /api/admin/provider-accounts/test" (handleTestAllProviderAccounts s);
   admin "POST /api/admin/provider-accounts/bulk-update" (handleBulkUpdateProviderAccounts s ParseTime);
   admin "POST /api/admin/provider-accounts/bulk-test" (handleBulkTestProviderAccounts s ParseTime);
   admin "POST /api/admin/provider-accounts/bulk-refresh" (handleBulkRefreshProviderAccounts s ParseTime);
   admin "POST /api/admin/provider-accounts/bulk-disconnect" (handleBulkDisconnectProviderAccounts s ParseTime);
   admin "POST /api/admin/provider-accounts/bulk-pause" (handleBulkPauseProviderAccountScheduling s ParseTime);
   admin "POST /api/admin/provider-accounts/bulk-reset-status" (handleBulkResetProviderAccountStatus s ParseTime);
   admin "POST /api/admin/provider-accounts/bulk-models" (handleBulkReplaceProviderAccountModels s ParseTime);
   admin "GET /api/admin/provider-accounts/codex-oauth/status" (handleProviderStatus s);
   admin "POST /api/admin/provider-accounts/codex-oauth/connect" (handleProviderConnect s ParseTime);
   admin "POST /api/admin/provider-accounts/codex-oauth/callback" (handleProviderCallback s ParseTime url_query);
   admin "PATCH /api/admin/provider-accounts/{id}" (handlePatchProviderAccount s ParseTime);
   admin "DELETE /api/admin/provider-accounts/{id}" (handleDeleteProviderAccount s);
   admin "POST /api/admin/provider-accounts/{id}/disconnect" (handleDeleteProviderAccount s);
   admin "GET /api/admin/provider-accounts/{id}/models" (handleListProviderAccountModels s);
   admin "PUT /api/admin/provider-accounts/{id}/models" (handleReplaceProviderAccountModels s ParseTime);
   admin "POST /api/admin/provider-accounts/{id}/models/sync" (handleSyncProviderAccountModels s);
   admin "POST /api/admin/provider-accounts/{id}/models/refresh" (handleRefreshProviderAccountModels s);
   admin "POST /api/admin/provider-accounts/{id}/model-tests" (handleTestProviderAccountModel s ParseTime);
   admin "POST /api/admin/provider-accounts/{id}/refresh" (handleRefreshProviderAccount s);
   admin "POST /api/admin/provider-accounts/{id}/test" (handleTestProviderAccount s);
   admin "GET /api/admin/provider-accounts/{id}/test-results" (handleListProviderAccountTestResults s);
   admin "POST /api/admin/provider-accounts/{id}/pause" (handlePauseProviderAccountScheduling s ParseTime);
   admin "POST /api/admin/provider-accounts/{id}/reset-status" (handleResetProviderAccountStatus s);
   admin "GET /api/admin/providers/openai" (handleProviderStatus s);
   admin "POST /api/admin/providers/openai/connect" (handleProviderConnect s ParseTime);
   admin "POST /api/admin/providers/openai/callback" (handleProviderCallback s ParseTime url_query);
   admin "POST /api/admin/providers/openai/disconnect" (disconnect_all s);
   admin "GET /api/admin/providers/openai/accounts" (handleListProviderAccounts s);
   admin "PATCH /api/admin/providers/openai/accounts/{id}" (handlePatchProviderAccount s ParseTime);
   admin "GET /api/admin/providers/openai/accounts/{id}/models" (handleListProviderAccountModels s);
   admin "PUT /api/admin/providers/openai/accounts/{id}/models" (handleReplaceProviderAccountModels s ParseTime);
   admin "POST /api/admin/providers/openai/accounts/{id}/refresh" (handleRefreshProviderAccount s);
   admin "POST /api/admin/providers/openai/accounts/{id}/test" (handleTestProviderAccount s);
   admin "GET /api/admin/providers/openai/accounts/{id}/test-results" (handleListProviderAccountTestResults s);
   admin "POST /api/admin/providers/openai/accounts/{id}/pause" (handlePauseProviderAccountScheduling s ParseTime);
   admin "POST /api/admin/providers/openai/accounts/{id}/reset-status" (handleResetProviderAccountStatus s);
   admin "POST /api/admin/providers/openai/accounts/{id}/disconnect" (disconnect_account s)].

Definition routes : list route := public_routes ++ admin_routes.

(** ** Serving a request *)

(** [RedirectHandler]; the query is kept. *)
Definition redirect (path : string) : response :=
  with_header "Location" path {| status := redirect_status s; headers := []; cookie := None; content := NoContent; failureCode := "" |}.

(** The router as a handler. *)
Definition mux : handler := fun ctx r =>
  match find_handler routes (RequestInfo.Method (base r)) (EscapedPath r) with
  | Handle x values =>
      let '(_, segs) := parse_pattern (r_pattern x) in
      r_handler x ctx (with_route r (r_pattern x) (zip (wild_names segs) values))
  | Redirect path _ => Ret (redirect path)
  | NoRoute => Ret (writeError 404 "not_found")
  end.

(** [withBrowserSecurity]: the headers are set before anything else is written. *)
Definition withBrowserSecurity (next : handler) : handler := fun ctx r =>
  let hs := RequestInfo.setBrowserSecurityHeaders (base r) (info r) in
  let! x := (if RequestInfo.rejectCrossOriginAdminMutation url_Parse (base r) (info r)
             then Ret (writeError 403 "forbidden") else next ctx r) in
  Ret {| status := status x; headers := hs ++ headers x; cookie := cookie x; content := content x; failureCode := failureCode x |}.

(** [withSystemEventRequestContextAround] *)
Definition withSystemEventRequestContext (next : handler) (r : HTTPRequest) : P response :=
  let! random := ask Random in
  let id := SystemEvents.NormalizeCorrelationID (lookup_first (RequestInfo.Header (base r)) "X-Request-Id") random in
  let ctx := Build_RequestContext id (RequestInfo.ClientIP (info r)) (RequestInfo.Method (base r))
    (routed_pattern (find_handler routes (RequestInfo.Method (base r)) (EscapedPath r)))
    (Build_Actor SystemEvents.ActorSystem 0 "") in
  let! x := next ctx r in
  Ret {| status := status x; headers := ("X-Request-Id", id) :: headers x; cookie := cookie x; content := content x; failureCode := failureCode x |}.

(** [NewServer]: [withRequestInfo] around everything. *)
Definition ServeHTTP (r : HTTPRequest) : P response :=
  let i := RequestInfo.resolveRequestInfo url_Parse (base r) (TrustedProxyCIDRs s) (PublicURL s) in
  withSystemEventRequestContext (withBrowserSecurity mux) (with_info r i).

End server.
End HttpServer.
