(* ===== verification/HttpGuard.v ===== *)
(** * The management interface: routes and their handlers

    The router hands a request to a route that fits its path, and the handlers of
    the administrators' routes make only calls for the administrator and the
    session they are given. *)

From S2P Require Import Prelude GoStrings Json Effects AdminBase SystemEvents LoginThrottle RevealThrottle Netip RequestInfo RequestLogs HttpJson HttpApi HttpRouting HttpHandlers HttpProvider HttpExport HttpServer.
From Stdlib Require Import Ascii.
From Stdlib Require String.

Module HttpGuard.
Import HttpJson HttpApi HttpHandlers HttpProvider HttpExport HttpServer.

(** ** The calls of a program *)

Fixpoint calls (ok : ∀ R : Set, call R → Prop) {A : Type} (p : P A) : Prop :=
  match p with Ret _ => True | Vis e k => ok _ e ∧ ∀ r, calls ok (k r) end.

Lemma calls_bind (ok : ∀ R : Set, call R → Prop) {A B} (p : P A) (f : A → P B) : calls ok p → (∀ a, calls ok (f a)) → calls ok (bind p f).
Proof. induction p as [a|R e k IH]; simpl; intros Hp Hf; [done|]. destruct Hp as [? Hp]. split; [done|]. intros r. by apply IH. Qed.

(** ** Administrators act for themselves

    Calls that concern the administrator's own account and session, and those
    that only the check of the session makes. *)
Definition own (token : string) (adminID : Z) (R : Set) (c : call R) : Prop :=
  match c with
  | ChangePassword id t _ _ | RevokeOtherSessions id t | Admin (ListSessions id t) => id = adminID ∧ t = token
  | RevokeSessionByID id _ t => id = adminID ∧ t = token
  | RevealAPIKeySecret id _ _ | RevealBegin _ id _ => id = adminID
  | ValidateSession _ | Login _ _ _ _ | Logout _ | LoginBegin _ _ | LoginFailure _ | LoginSuccess _ | LoginCancel _ | Gateway => False
  | _ => True
  end.

Create HintDb handlers.
#[local] Hint Unfold update_status update_status_refresh me list_sessions delete_session revoke_other_sessions change_password list_keys
  create_key reveal_secret revoke_key delete_key rename_key set_key_disabled set_key_model_policy set_key_limits
  set_key_budgets set_key_routing_pool list_routing_pools create_routing_pool update_routing_pool delete_routing_pool
  replace_routing_pool_accounts list_request_logs list_system_events cleanup_request_logs get_gateway_settings
  update_gateway_settings get_model_settings update_model_settings usage_summary get_usage_pricing
  update_usage_pricing sync_official_pricing remove_shutdown_pricing ignore_upcoming_pricing ops_error_stats
  ops_throughput_trend ops_error_trend ops_latency_distribution ops_account_health ops_account_tests
  ops_cost_breakdown list_fingerprints create_fingerprint update_fingerprint delete_fingerprint list_error_rules
  create_error_rule update_error_rule delete_error_rule handleListProviderAccounts handleModelRoutingPreview
  model_routing create_api_upstream handleProviderStatus handleProviderConnect handleProviderCallback
  handlePatchProviderAccount handleDeleteProviderAccount handleListProviderAccountModels
  handleReplaceProviderAccountModels handleSyncProviderAccountModels handleRefreshProviderAccountModels
  handleTestProviderAccountModel handleRefreshProviderAccount handleTestProviderAccount handleTestAllProviderAccounts
  handleListProviderAccountTestResults handlePauseProviderAccountScheduling handleResetProviderAccountStatus
  disconnect_all disconnect_account handleBulkUpdateProviderAccounts handleBulkTestProviderAccounts
  handleBulkRefreshProviderAccounts handleBulkDisconnectProviderAccounts handleBulkPauseProviderAccountScheduling
  handleBulkResetProviderAccountStatus handleBulkReplaceProviderAccountModels list_alert_actions create_alert_action
  update_alert_action delete_alert_action test_alert_action list_alert_rules install_alert_rule_template
  create_alert_rule update_alert_rule delete_alert_rule handleExportRequestLogs handleExportConfiguration : handlers.
#[local] Hint Unfold with_id with_json with_providers with_alerting answer provide alert gateway_settings account_concurrency run_batch
  batch_record recordHTTPSystemEvent with_bulk_ids HttpProvider.modelRoutingStatus streamRequestLogExport HttpExport.stream_rows
  stream_csv stream_json StreamRequestLogs recordRequestLogExportCompletion recordConfigurationExportFailure visit_csv visit_json
  export_logs export_configuration key_op with_catalog : handlers.

Lemma batch_loop_calls (ok : ∀ R : Set, call R → Prop) op batch ids d l :
  (∀ id, ok _ (Provider batch (op id))) → calls ok (batch_loop op batch ids d l).
Proof.
  intros Hop. revert d l. induction ids as [|id ids IH]; intros d l; [done|]. cbn [batch_loop bind ask calls].
  split; [done|]. by intros [v|e]; cbn [bind calls].
Qed.

Lemma stream_loop_calls (ok : ∀ R : Set, call R → Prop) visit n count p :
  ok _ NextRequestLog → (∀ p l, calls ok (visit p l)) → calls ok (stream_loop visit n count p).
Proof.
  intros Hn Hv. revert count p. induction n as [|n IH]; intros count p; cbn [stream_loop bind ask calls]; (split; [done|]);
    intros [[] [l|]|]; cbn [bind calls]; try done. apply calls_bind; [done|]. intros [[] q]; cbn; auto.
Qed.

(** Walks through a handler. *)
Ltac walk_calls :=
  repeat (first
    [ exact I
    | progress intros
    | match goal with
      | |- calls _ (Ret _) => exact I
      | |- calls _ (bind _ _) => apply calls_bind
      | |- calls _ (ask _) => split; [cbn; try done|]
      | |- calls _ (batch_loop _ _ _ _ _) => apply batch_loop_calls; cbn
      | |- calls _ (stream_loop _ _ _ _) => apply stream_loop_calls; [exact I|]
      | |- calls _ (match ?x with _ => _ end) => destruct x
      | |- calls _ (let _ := _ in _) => cbv zeta
      end
    | progress autounfold with handlers
    | progress cbv beta ]).

(** ** The router finds a route that fits *)

Fixpoint fits (segs : list seg) (path : list string) : Prop :=
  match segs, path with
  | [], [] => True
  | Lit u :: l, t :: p => u = t ∧ fits l p
  | Wild _ :: l, t :: p => t ≠ "/" ∧ fits l p
  | [Multi], _ :: _ => True
  | _, _ => False
  end.

Lemma matchPath_fits {A} (rs : list (list seg * A)) path values x ws :
  matchPath rs path values = Some (x, ws) → ∃ segs, (segs, x) ∈ rs ∧ fits segs path.
Proof.
  revert rs values. induction path as [|t rest IH]; intros rs values; cbn [matchPath].
  - destruct (List.find _ rs) as [[segs y]|] eqn:E; [|done]. cbn. intros [= -> _]. apply find_some in E as [Hin E].
    exists segs. split; [by apply list_elem_of_In|]. by destruct segs.
  - destruct (matchPath (under_lit t rs) rest values) as [[y vs]|] eqn:E1.
    { intros [= -> ->]. apply IH in E1 as (segs & Hin & Hf). apply list_elem_of_In, in_flat_map in Hin as ([l a] & Ha & Hin).
      exists (Lit t :: segs). cbn in Hin. destruct l as [|[u|n|] l]; try done. destruct (str_eq u t) eqn:Eu; [|done].
      apply bool_decide_eq_true in Eu as ->. destruct Hin as [[= -> ->]|[]]. split; [by apply list_elem_of_In|done]. }
    destruct (if str_eq t "/" then None else _) as [[y vs]|] eqn:E2.
    { intros [= -> ->]. destruct (str_eq t "/") eqn:Et; [done|]. apply bool_decide_eq_false in Et.
      apply IH in E2 as (segs & Hin & Hf). apply list_elem_of_In, in_flat_map in Hin as ([l a] & Ha & Hin).
      cbn in Hin. destruct l as [|[u|n|] l]; try done. destruct Hin as [[= -> ->]|[]].
      exists (Wild n :: segs). split; [by apply list_elem_of_In|done]. }
    destruct (List.find _ rs) as [[segs y]|] eqn:E; [|done]. cbn. intros [= -> _]. apply find_some in E as [Hin E].
    exists segs. split; [by apply list_elem_of_In|]. destruct segs as [|[u|n|] [|]]; done.
Qed.

Lemma match_route_fits rs m path x ws :
  match_route rs m path = Some (x, ws) →
  ∃ pm segs, x ∈ rs ∧ parse_pattern (r_pattern x) = (pm, segs) ∧ fits segs path ∧ (pm = m ∨ (m = "HEAD" ∧ pm = "GET") ∨ pm = "").
Proof.
  assert (∀ n, matchPath (of_method n rs) path [] = Some (x, ws) →
    ∃ segs, x ∈ rs ∧ parse_pattern (r_pattern x) = (n, segs) ∧ fits segs path) as H.
  { intros n (segs & Hin & Hf)%matchPath_fits. apply list_elem_of_In, in_flat_map in Hin as (y & Hy & Hin).
    destruct (parse_pattern (r_pattern y)) as [pm l] eqn:Ep. destruct (str_eq pm n) eqn:Em; [|done].
    apply bool_decide_eq_true in Em as ->. destruct Hin as [[= -> ->]|[]]. exists segs. split; [by apply list_elem_of_In|done]. }
  unfold match_route. destruct (matchPath (of_method m rs) path []) as [[y vs]|] eqn:E1.
  { intros [= -> ->]. apply H in E1 as (segs & ? & ? & ?). exists m, segs. auto. }
  destruct (if str_eq m "HEAD" then _ else None) as [[y vs]|] eqn:E2.
  { intros [= -> ->]. destruct (str_eq m "HEAD") eqn:Em; [|done]. apply bool_decide_eq_true in Em.
    apply H in E2 as (segs & ? & ? & ?). exists "GET", segs. auto 10. }
  intros E3. apply H in E3 as (segs & ? & ? & ?). exists "", segs. auto 10.
Qed.

(** A route that handles a request fits its path as it is. *)
Lemma find_handler_fits rs m p x ws :
  find_handler rs m p = Handle x ws →
  ∃ pm segs, x ∈ rs ∧ parse_pattern (r_pattern x) = (pm, segs) ∧ fits segs (elements p) ∧
    (pm = m ∨ (m = "HEAD" ∧ pm = "GET") ∨ pm = "") ∧ (m ≠ "CONNECT" → cleanPath p = p).
Proof.
  unfold find_handler. set (clean := if str_eq m "CONNECT" then p else cleanPath p).
  destruct (negb (exact_match _ _) && _ && _ && _); [done|]. destruct (str_eq clean p) eqn:Ec; [|done]. cbn.
  apply bool_decide_eq_true in Ec. destruct (match_route rs m (elements clean)) as [[y vs]|] eqn:Em; [|done].
  intros [= -> ->]. apply match_route_fits in Em as (pm & segs & ? & ? & ? & ?). exists pm, segs. rewrite Ec in *.
  split; [done|]. split; [done|]. split; [done|]. split; [done|]. intros Hm. subst clean. unfold str_eq in Ec.
  by rewrite bool_decide_eq_false_2 in Ec.
Qed.

Section routes.
Context (s : Server) (lib : Library).

(** A route for administrators: its handler makes only their own calls. *)
Definition guarded (x : route) : Prop :=
  ∃ h, r_handler x = requireAdmin s h ∧ ∀ ctx r a, calls (own (session_token r) (fst a)) (h ctx r a).

Lemma guard p h rest :
  (∀ ctx r a, calls (own (session_token r) (fst a)) (h ctx r a)) → Forall guarded rest → Forall guarded (admin s p h :: rest).
Proof. intros H1 H2. constructor; [|done]. exists h. done. Qed.

Lemma admin_routes_guarded : Forall guarded (admin_routes s lib).
Proof.
  unfold admin_routes. repeat (apply guard; [|]). all: [>..|constructor].
  all: walk_calls.
Qed.

(** The paths of these routes are below [/api/admin/]. *)
Definition admin_pattern (p : string) : bool :=
  match snd (parse_pattern p) with Lit a :: Lit b :: _ => str_eq a "api" && str_eq b "admin" | _ => false end.

Lemma admin_routes_path : forallb (fun x => admin_pattern (r_pattern x)) (admin_routes s lib) = true.
Proof. vm_compute. reflexivity. Qed.
End routes.

End HttpGuard.
