(* ===== verification/HttpThms.v ===== *)
(** * The management interface: theorems

    Who may do what: calls to the services come after the check of the session,
    for the administrator it found; mutations sent by a browser for another site
    make none; what a login, the reveal of a secret and an operation on many
    accounts guarantee. *)

From S2P Require Import Prelude GoStrings Json Effects AdminBase Sessions SystemEvents LoginThrottle RevealThrottle Netip RequestInfo RequestLogs HttpJson HttpApi HttpRouting HttpHandlers HttpProvider HttpExport HttpServer HttpGuard.
From Stdlib Require Import Ascii.
From Stdlib Require String.

Module HttpThms.
Import HttpJson HttpApi HttpHandlers HttpProvider HttpExport HttpServer HttpGuard.

(** ** Authentication *)

Abbreviation history := (list (ev call)).

(** Calls that anyone can cause; logging out and looking up a session concern the
    session of the request. *)
Definition public_call (cookie : option string) (R : Set) (c : call R) : Prop :=
  match c with
  | TimeNow | Random | Ping | LoginBegin _ _ | LoginFailure _ | LoginSuccess _ | LoginCancel _ | Login _ _ _ _ | Insert _
  | RuntimeReadiness | GatewaySettingsStatus | StaticFile _ | Gateway => True
  | Logout t | ValidateSession t => cookie = Some t
  | _ => False
  end.

(** The others: after the session of the request was found to be that of an
    administrator, and for that administrator. *)
Definition authorised (cookie : option string) (R : Set) (c : call R) (h : history) : Prop :=
  public_call cookie R c ∨
  ∃ token a, cookie = Some token ∧ Ev (ValidateSession token) (Ok a) ∈ h ∧ own token (fst a) R c.

Definition remember (R : Set) (c : call R) (x : R) (h : history) : history := h ++ [Ev c x].

Abbreviation auth_wp cookie := (wp remember (authorised cookie) (fun _ _ _ _ => True)).

(** Once the session is known, any of the administrator's own calls will do. *)
Lemma own_calls_wp {A} cookie token a (p : P A) h :
  cookie = Some token → Ev (ValidateSession token) (Ok a) ∈ h → calls (own token (fst a)) p →
  auth_wp cookie p (fun _ h' => Ev (ValidateSession token) (Ok a) ∈ h') h.
Proof.
  intros Hc. revert h. induction p as [x|R e k IH]; intros h Hin Hp; [done|]. destruct Hp as [He Hk]. cbn [wp]. split.
  - right. eauto.
  - intros r _. apply IH; [|auto]. unfold remember. apply elem_of_app. by left.
Qed.

Lemma public_calls_wp {A} cookie (p : P A) h : calls (public_call cookie) p → auth_wp cookie p (fun _ _ => True) h.
Proof.
  revert h. induction p as [x|R e k IH]; intros h Hp; [done|]. destruct Hp as [He Hk]. cbn [wp]. split; [by left|auto].
Qed.

Section server.
Context (s : Server) (lib : Library).

Definition cookie_of (r : HTTPRequest) : option string := RequestInfo.readSessionCookie (base r).

Lemma record_public cookie ctx i code d : calls (public_call cookie) (recordHTTPSystemEvent s ctx i code d).
Proof. unfold recordHTTPSystemEvent. destruct (has_recorder s); cbn; auto. Qed.

Lemma record_failure_public cookie ctx r code text d : calls (public_call cookie) (recordAdminMutationFailure s ctx r code text d).
Proof.
  unfold recordAdminMutationFailure. case_bool_decide; [done|]. destruct (adminFailureEventForRequest r) as [[[? ?] ?]|]; [|done].
  apply calls_bind; [apply record_public|done].
Qed.

Lemma requireAdmin_wp next ctx r h :
  (∀ ctx r a, calls (own (session_token r) (fst a)) (next ctx r a)) →
  auth_wp (cookie_of r) (requireAdmin s next ctx r) (fun _ _ => True) h.
Proof.
  intros Hnext. unfold requireAdmin. cbn [bind ask wp]. split; [by left|]. intros started _.
  apply wp_bind. eapply (wp_mono _ _ _ _ (fun _ _ => True)).
  - unfold check_admin. destruct (has_admins s); cbn [negb]; [|done].
    unfold cookie_of. destruct (RequestInfo.readSessionCookie (base r)) as [token|] eqn:Et; [|done]. cbn [bind ask wp].
    split; [by left|]. intros [a|e] _.
    + apply wp_bind. eapply wp_mono; [eapply own_calls_wp; [done| |]|].
      * unfold remember. apply elem_of_app. right. by apply list_elem_of_singleton.
      * specialize (Hnext (withAdminEventActor ctx r a) r a). unfold session_token in Hnext. by rewrite Et in Hnext.
      * done.
    + destruct e; try done. apply public_calls_wp, calls_bind; [apply record_public|done].
  - intros [x ctx'] h' _. cbn [bind ask wp]. split; [by left|]. intros now _.
    apply public_calls_wp, calls_bind; [apply record_failure_public|done].
Qed.

#[local] Hint Unfold liveness get_version readyz webAssetsAvailable login bootstrap key_secret writeManualOAuthCallbackPage web serveWeb
  not_found serve_gateway recordLoginFailureEvent HttpHandlers.with_json recordHTTPSystemEvent : handlers.

(** A handler for everyone. *)
Definition open_handler (x : handler) : Prop := ∀ ctx r h, auth_wp (cookie_of r) (x ctx r) (fun _ _ => True) h.

Lemma open_public x : (∀ ctx r, calls (public_call (cookie_of r)) (x ctx r)) → open_handler x.
Proof. intros H ctx r h. by apply public_calls_wp. Qed.

Lemma task_statuses_calls token id l : calls (own token id) (task_statuses l).
Proof.
  induction l as [|[n t] l IH]; [done|]. cbn [task_statuses bind ask calls]. split; [done|]. intros v. by apply calls_bind.
Qed.

Lemma health_body_wp r st db h : auth_wp (cookie_of r) (health_body s r st db) (fun _ _ => True) h.
Proof.
  unfold health_body. destruct (has_admins s); cbn [negb]; [|done]. unfold cookie_of.
  destruct (RequestInfo.readSessionCookie (base r)) as [token|]; [|done]. cbn [bind ask wp]. split; [by left|]. intros [a|e] _; [|done].
  apply wp_bind. eapply wp_mono; [eapply own_calls_wp; [done| |apply task_statuses_calls]|done].
  unfold remember. apply elem_of_app. right. by apply list_elem_of_singleton.
Qed.

Lemma admin_health_open : open_handler (admin_health s).
Proof.
  intros ctx r h. unfold admin_health. destruct (has_health s); cbn [negb bind ask wp].
  - split; [by left|]. intros [] _; (apply wp_bind; eapply wp_mono; [apply health_body_wp|done]).
  - apply wp_bind. eapply wp_mono; [apply health_body_wp|done].
Qed.

Lemma logout_calls ctx r : calls (public_call (cookie_of r)) (logout s ctx r).
Proof.
  unfold logout, cookie_of. destruct (has_admins s); cbn [negb]; [|done].
  destruct (RequestInfo.readSessionCookie (base r)); cbn; auto.
Qed.

Lemma public_routes_open : Forall (fun x => open_handler (r_handler x)) (public_routes s lib).
Proof.
  unfold public_routes. rewrite !Forall_app. split_and!; [|destruct (has_gateway s)|].
  all: repeat (apply Forall_cons; split;
    [cbn [r_handler public]; first [apply admin_health_open | apply open_public; first [apply logout_calls|solve [walk_calls]]]|]).
  all: constructor.
Qed.

Lemma routes_open x : x ∈ routes s lib → open_handler (r_handler x).
Proof.
  unfold routes. intros [Hx|Hx]%elem_of_app.
  - pose proof public_routes_open as H. rewrite Forall_forall in H. by apply H.
  - pose proof (admin_routes_guarded s lib) as H. rewrite Forall_forall in H. destruct (H x Hx) as (h & -> & Hh).
    intros ctx r hist. by apply requireAdmin_wp.
Qed.

Lemma mux_open : open_handler (mux s lib).
Proof.
  intros ctx r h. unfold mux. destruct (find_handler _ _ _) as [x values| |] eqn:E; [|done..].
  apply find_handler_fits in E as (pm & segs & Hx & Ep & _). rewrite Ep.
  exact (routes_open x Hx ctx (with_route r (r_pattern x) (zip (wild_names segs) values)) h).
Qed.

Lemma ServeHTTP_wp r h : auth_wp (cookie_of r) (ServeHTTP s lib r) (fun _ _ => True) h.
Proof.
  unfold ServeHTTP, withSystemEventRequestContext. cbn [bind ask wp]. split; [by left|]. intros random _.
  apply wp_bind. apply (wp_mono _ _ _ _ (fun _ _ => True)); [|done]. unfold withBrowserSecurity.
  apply wp_bind. apply (wp_mono _ _ _ _ (fun _ _ => True)); [|done].
  destruct (RequestInfo.rejectCrossOriginAdminMutation _ _ _); [done|]. exact (mux_open _ (with_info r _) _).
Qed.

(** Executions with their history. *)
Lemma summary_remember h tr : summary remember h tr = h ++ tr.
Proof.
  revert h. induction tr as [|[R e x] tr IH]; intros h; [by rewrite app_nil_r|].
  change (summary remember h (Ev e x :: tr)) with (summary remember (h ++ [Ev e x]) tr). by rewrite IH, <- app_assoc.
Qed.

Lemma safe_remember adm h tr1 R (c : call R) x tr2 :
  safe remember adm h (tr1 ++ Ev c x :: tr2) → adm R c (h ++ tr1).
Proof.
  revert h. induction tr1 as [|[R' e y] tr1 IH]; intros h; [intros [H _]; by rewrite app_nil_r|].
  intros [_ H]. apply IH in H. unfold remember in H. by rewrite <- app_assoc in H.
Qed.

Lemma honest_trivial {M} (obs : ∀ R : Set, call R → R → M → M) m tr : honest obs (fun _ _ _ _ => True) m tr.
Proof. revert m. induction tr as [|[R e x] tr IH]; intros m; [done|]. split; [done|apply IH]. Qed.

(** [C10] Nothing but the public part of the interface can be used without a session.  In every execution of the server,
    whatever the request and whatever the services answer, a call that is not public comes after the session token of the
    request's own cookie was validated, and the calls that act on an account, on its sessions or on a secret do so for the
    administrator that was found, with the session of the request.  Logging out concerns only the request's own session. *)
Theorem admin_calls_authenticated r tr x :
  executes (ServeHTTP s lib r) tr x →
  ∀ tr1 R (c : call R) y tr2, tr = tr1 ++ Ev c y :: tr2 → authorised (RequestInfo.readSessionCookie (base r)) R c tr1.
Proof.
  intros Hex tr1 R c y tr2 ->. pose proof (ServeHTTP_wp r []) as Hwp.
  destruct (wp_sound _ _ _ _ _ _ _ x Hwp Hex) as [Hs _]; [apply honest_trivial|]. by apply safe_remember in Hs.
Qed.

End server.

(** ** Requests for another site *)

(** *** Paths and their decoded form *)

Lemma split_bytes_cons c l x y rest :
  split_bytes c l = x :: y :: rest → ∃ l', l = x ++ c :: l' ∧ split_bytes c l' = y :: rest.
Proof.
  revert x. induction l as [|a l IH]; intros x; cbn [split_bytes]; [done|]. case_bool_decide as Ha.
  - subst a. intros [= <- Hs]. exists l. done.
  - destruct (split_bytes c l) as [|z zs] eqn:E; [done|]. intros [= <- ->]. destruct (IH z eq_refl) as (l' & -> & ?). by exists l'.
Qed.

Lemma split_bytes_one c l x : split_bytes c l = [x] → l = x.
Proof.
  revert x. induction l as [|a l IH]; intros x; cbn [split_bytes]; [by intros [= <-]|]. case_bool_decide as Ha.
  - destruct (split_bytes c l) eqn:E; [|done]. by apply RequestInfo.split_bytes_ne in E.
  - destruct (split_bytes c l) as [|z zs] eqn:E; [by apply RequestInfo.split_bytes_ne in E|]. intros [= <- ->]. by rewrite (IH z).
Qed.

(** A slash is not part of an escape. *)
Lemma unescape_slash x y l :
  unescape_bytes (x ++ "/"%char :: y) = Some l →
  ∃ a b, unescape_bytes x = Some a ∧ unescape_bytes y = Some b ∧ l = a ++ "/"%char :: b.
Proof.
  revert l. induction x as [x IH] using (induction_ltof1 _ (@length ascii)). unfold ltof in IH. intros l.
  destruct x as [|a x]; cbn [app unescape_bytes].
  - rewrite bool_decide_eq_false_2 by done. destruct (unescape_bytes y) as [b|]; [|done]. cbn. intros [= <-]. by exists [], b.
  - case_bool_decide as Ha.
    + destruct x as [|b [|c x]]; cbn [app].
      * destruct y; [done|]. done.
      * destruct (Json.hex_value b); done.
      * destruct (Json.hex_value b) as [hi|]; [|done]. destruct (Json.hex_value c) as [lo|]; [|done]. cbn [mbind option_bind].
        destruct (unescape_bytes (x ++ "/"%char :: y)) as [k|] eqn:E; [|done]. cbn. intros [= <-].
        apply IH in E as (u & v & -> & -> & ->); [|cbn; lia]. cbn. by exists (Json.byte (hi * 16 + lo) :: u), v.
    + destruct (unescape_bytes (x ++ "/"%char :: y)) as [k|] eqn:E; [|done]. cbn. intros [= <-].
      apply IH in E as (u & v & -> & -> & ->); [|cbn; lia]. cbn. by exists (a :: u), v.
Qed.

(** The first bytes of the elements of a path. *)
Lemma path_elements_cons t l u rest : path_elements (t :: l) = u :: rest → u ≠ "/" → pathUnescape t = u ∧ (l = [] → rest = []) ∧ (l ≠ [] → path_elements l = rest).
Proof.
  cbn [path_elements]. destruct l as [|t' l].
  - destruct (str_eq t ""); [intros [= <- _]; done|]. intros [= <- <-] _. done.
  - intros [= <- <-] _. done.
Qed.

Lemma cleanPath_slash p : cleanPath p = p → ∃ l, String.list_ascii_of_string p = "/"%char :: l.
Proof. intros <-. unfold cleanPath. destruct (HasSuffix _ _ && _); cbn; eauto. Qed.

Lemma admin_path p u segs :
  cleanPath p = p → unescape p = Some u → fits (Lit "api" :: Lit "admin" :: segs) (elements p) →
  RequestInfo.adminBrowserPath u = true.
Proof.
  intros (l & Hl)%cleanPath_slash Hu Hf. unfold elements, Split in Hf. rewrite Hl in Hf. cbn [split_bytes] in Hf.
  rewrite bool_decide_eq_true_2 in Hf by done. cbn [map] in Hf.
  assert (∃ k, unescape_bytes l = Some k ∧ u = String.string_of_list_ascii ("/"%char :: k)) as (k & Hk & ->).
  { unfold unescape in Hu. rewrite Hl in Hu. cbn [unescape_bytes] in Hu. rewrite bool_decide_eq_false_2 in Hu by done.
    destruct (unescape_bytes l) as [k|]; [|done]. cbn in Hu. injection Hu as <-. eauto. }
  clear Hl Hu. destruct (split_bytes "/"%char l) as [|x1 xs] eqn:E1; [by apply RequestInfo.split_bytes_ne in E1|].
  cbn [map] in Hf. destruct (path_elements (_ :: _)) as [|e1 es] eqn:Ee; [done|]. destruct Hf as [<- Hf].
  destruct es as [|e2 es]; [done|]. destruct Hf as [<- _].
  apply path_elements_cons in Ee as (H1 & H2 & H3); [|done]. destruct xs as [|x2 xs]; [by specialize (H2 eq_refl)|].
  specialize (H3 ltac:(done)). cbn [map] in H3. apply path_elements_cons in H3 as (H4 & _ & _); [|done].
  apply split_bytes_cons in E1 as (l2 & -> & E2). apply unescape_slash in Hk as (k1 & k2 & U1 & U2 & ->).
  assert (∀ x k t, unescape_bytes x = Some k → pathUnescape (String.string_of_list_ascii x) = t → String.string_of_list_ascii k = t) as Hpu.
  { intros x j t Hx. unfold pathUnescape, unescape. rewrite String.list_ascii_of_string_of_list_ascii, Hx. done. }
  apply (Hpu _ _ _ U1) in H1. clear U1.
  assert (∃ j, k2 = j ∧ (String.string_of_list_ascii j = "admin" ∨ ∃ j1 j2, j = j1 ++ "/"%char :: j2 ∧ String.string_of_list_ascii j1 = "admin")) as (j & -> & Hj).
  { exists k2. split; [done|]. destruct xs as [|x3 xs].
    - apply split_bytes_one in E2 as ->. left. by apply (Hpu _ _ _ U2).
    - apply split_bytes_cons in E2 as (l3 & -> & _). apply unescape_slash in U2 as (j1 & j2 & V1 & V2 & ->). right. exists j1, j2.
      split; [done|]. by apply (Hpu _ _ _ V1). }
  apply (f_equal String.list_ascii_of_string) in H1. rewrite String.list_ascii_of_string_of_list_ascii in H1. subst k1.
  unfold RequestInfo.adminBrowserPath. apply orb_true_iff. destruct Hj as [Hj|(j1 & j2 & -> & Hj)].
  - left. apply (f_equal String.list_ascii_of_string) in Hj. rewrite String.list_ascii_of_string_of_list_ascii in Hj. subst j. reflexivity.
  - right. apply (f_equal String.list_ascii_of_string) in Hj. rewrite String.list_ascii_of_string_of_list_ascii in Hj. subst j1. reflexivity.
Qed.

(** *** Routes whose calls need a session are below [/api/admin] *)

Section cross_site.
Context (s : Server) (lib : Library).

Definition admin_only (p : string) : bool :=
  admin_pattern p && existsb (str_eq (fst (parse_pattern p))) ["GET"; "POST"; "PUT"; "PATCH"; "DELETE"].

#[local] Hint Unfold liveness get_version readyz webAssetsAvailable login bootstrap key_secret writeManualOAuthCallbackPage web serveWeb
  not_found serve_gateway recordLoginFailureEvent HttpHandlers.with_json recordHTTPSystemEvent : handlers.

Definition harmless (x : route) : Prop :=
  admin_only (r_pattern x) = true ∨ ∀ ctx r, calls (public_call None) (r_handler x ctx r).

Lemma routes_harmless : Forall harmless (routes s lib).
Proof.
  unfold routes. apply Forall_app. split.
  - unfold public_routes. rewrite !Forall_app. split_and!; [|destruct (has_gateway s)|].
    all: repeat (apply Forall_cons; split; [first [left; reflexivity|right; cbn [r_handler public]; solve [walk_calls]]|]).
    all: constructor.
  - assert (forallb (fun x => admin_only (r_pattern x)) (admin_routes s lib) = true) as H by (vm_compute; reflexivity).
    rewrite forallb_forall in H. apply Forall_forall. intros x Hx. left. apply H. by apply list_elem_of_In.
Qed.

Lemma calls_execution (ok : ∀ R : Set, call R → Prop) {A} (p : P A) tr x R (c : call R) y :
  calls ok p → executes p tr x → Ev c y ∈ tr → ok R c.
Proof.
  intros Hp Hex. revert Hp. induction Hex as [a|R' e k r tr a Hex IH]; intros Hp Hin; [by apply not_elem_of_nil in Hin|].
  destruct Hp as [He Hk]. apply elem_of_cons in Hin as [Heq|Hin]; [|auto].
  assert (∀ ev1 ev2 : ev call, ev1 = ev2 → match ev2 with Ev e _ => ok _ e end → match ev1 with Ev e _ => ok _ e end) as Hev by (by intros ? ? ->).
  exact (Hev _ _ Heq He).
Qed.

(** What the router does for a request that makes a call that is not public. *)
Lemma mux_admin_path ctx r tr x R (c : call R) y :
  executes (mux s lib ctx r) tr x → Ev c y ∈ tr → ¬ public_call None R c →
  unescape (EscapedPath r) = Some (RequestInfo.URLPath (base r)) → RequestInfo.adminBrowserPath (RequestInfo.URLPath (base r)) = true.
Proof.
  unfold mux. intros Hex Hin Hc Hu. destruct (find_handler _ _ _) as [rt values| |] eqn:E.
  2-3: apply executes_inv in Hex as [-> _]; by apply not_elem_of_nil in Hin.
  apply find_handler_fits in E as (pm & segs & Hrt & Ep & Hf & Hm & Hclean). rewrite Ep in Hex.
  pose proof routes_harmless as Hall. rewrite Forall_forall in Hall. destruct (Hall rt Hrt) as [Ha|Hp].
  2:{ exfalso. apply Hc. eapply calls_execution; [apply Hp|exact Hex|exact Hin]. }
  unfold admin_only in Ha. apply andb_true_iff in Ha as [Ha Hmeth]. unfold admin_pattern in Ha. rewrite Ep in Ha, Hmeth. cbn [fst snd] in *.
  destruct segs as [|[a|n|] [|[b|n'|] segs]]; try done. apply andb_true_iff in Ha as [->%bool_decide_eq_true ->%bool_decide_eq_true].
  eapply admin_path; [|exact Hu|exact Hf]. apply Hclean. intros Hcon. rewrite Hcon in Hm.
  destruct Hm as [->|[[Hm _]| ->]]; [by cbn in Hmeth|done|by cbn in Hmeth].
Qed.


End cross_site.

(** ** Operations on many accounts *)

(** The provider calls of an execution in their order, with their batch and
    whether they succeeded, and the events that were recorded. *)
Definition provider_call (x : ev call) : list (string * provider_op * bool) :=
  match x with Ev c r => match c in call R return R → _ with
    | Provider batch op => fun r => [(batch, op, match r with Ok _ => true | Err _ => false end)]
    | _ => fun _ => [] end r end.
Definition recorded_event (x : ev call) : list SystemEvents.Event :=
  match x with Ev (Insert e) _ => [e] | _ => [] end.

Lemma distinct_ids_spec seen ids out :
  distinct_ids seen ids = Some out →
  NoDup out ∧ (∀ x, x ∈ out ↔ x ∈ ids ∧ x ∉ seen) ∧ Forall (fun x => 0 < x) out ∧ out `sublist_of` ids.
Proof.
  revert seen out. induction ids as [|id ids IH]; intros seen out; cbn [distinct_ids].
  { intros [= <-]. split; [constructor|]. split; [set_solver|]. split; constructor. }
  case_bool_decide as H0; [done|]. case_bool_decide as Hin.
  - intros H. destruct (IH _ _ H) as (H1 & H2 & H3 & H4). split; [done|]. split; [|split; [done|by constructor]].
    intros x. rewrite H2, elem_of_cons. split; [tauto|]. intros [[->|?] ?]; [done|done].
  - destruct (distinct_ids (id :: seen) ids) as [rest|] eqn:E; [|done]. cbn. intros [= <-].
    destruct (IH _ _ E) as (H1 & H2 & H3 & H4). clear IH E. split; [|split; [|split; [constructor; [lia|done]|by constructor]]].
    + constructor; [|done]. rewrite H2, elem_of_cons. tauto.
    + intros x. rewrite !elem_of_cons, H2, elem_of_cons. split; [intros [->|[? ?]]; tauto|].
      intros [[->|?] ?]; [by left|]. destruct (decide (x = id)) as [->|]; [by left|]. right. tauto.
Qed.

(** The loop handles a prefix of the accounts, each once. *)
Lemma batch_loop_execution op batch ids d l tr d' l' failure :
  executes (batch_loop op batch ids d l) tr (d', l', failure) →
  ∃ done rest, ids = done ++ rest ∧ d' = d ++ done ∧
    (tr ≫= recorded_event) = [] ∧
    match failure with
    | None => rest = [] ∧ (tr ≫= provider_call) = map (fun id => (batch, op id, true)) done
    | Some (id, e) => ∃ skipped, rest = id :: skipped ∧ (tr ≫= provider_call) = map (fun id => (batch, op id, true)) done ++ [(batch, op id, false)]
    end.
Proof.
  revert d l tr. induction ids as [|id ids IH]; intros d l tr; cbn [batch_loop bind ask].
  - intros [-> [= -> -> ->]]%executes_inv. exists [], []. split; [done|]. split; [by rewrite app_nil_r|]. done.
  - intros (r & tr' & -> & Hex)%executes_inv. destruct r as [v|e].
    + apply IH in Hex as (done & rest & -> & -> & Hr & Hf). exists (id :: done), rest. rewrite <- app_assoc. cbn. rewrite Hr.
      split; [done|]. split; [done|]. split; [done|]. destruct failure as [[i e]|].
      * destruct Hf as (sk & -> & Hp). exists sk. cbn. by rewrite Hp.
      * destruct Hf as [-> Hp]. cbn. by rewrite Hp.
    + apply executes_inv in Hex as [-> [= -> -> ->]]. exists [], (id :: ids). split; [done|]. split; [by rewrite app_nil_r|]. split; [done|].
      by exists ids.
Qed.

Section batch.
Context (s : Server).

Lemma batch_record_execution ctx a code started tr x :
  has_recorder s = true → executes (batch_record s ctx a code started) tr x →
  ∃ now1 now2 e, e = with_status (SystemEvents.BuildEvent (Some ctx) [] (batch_intent a) (SystemEvents.I_Target (batch_intent a)) now2 now2
                                    (time_sub now1 started)) code ∧
    (tr ≫= recorded_event) = [e] ∧ (tr ≫= provider_call) = [].
Proof.
  intros Hr. unfold batch_record, recordHTTPSystemEvent. rewrite Hr. cbn [negb bind ask].
  intros (now1 & t1 & -> & Hex)%executes_inv. apply executes_inv in Hex as (now2 & t2 & -> & Hex).
  apply executes_inv in Hex as (ok & t3 & -> & Hex). apply executes_inv in Hex as [-> _]. eauto 10.
Qed.

(** An operation on many accounts does what its audit record says.  The accounts asked for are distinct, positive and
    at most a hundred, in the order of the request; they are handled one after the other, each at most once, until one
    fails; and exactly one event is recorded, whose succeeded, failed and skipped accounts are those that were handled with
    success, the one that failed and the ones not tried, which together are the requested ones. *)
Theorem batch_audit_exact ctx action requested op ok tr x :
  executes (with_bulk_ids requested (fun ids => run_batch s ctx action ids op ok)) tr x → has_recorder s = true →
  (parseBulkProviderAccountIDs requested = None ∧ tr = [] ∧ x = invalid_input) ∨
  ∃ batch ids done failed skipped code e,
    NoDup ids ∧ (∀ id, id ∈ ids ↔ id ∈ requested) ∧ Forall (fun id => 0 < id) ids ∧ (length ids ≤ 100)%nat ∧ ids `sublist_of` requested ∧
    ids = done ++ failed ++ skipped ∧ (failed = [] ∧ skipped = [] ∨ length failed = 1%nat) ∧
    (tr ≫= provider_call) = map (fun id => (batch, op id, true)) done ++ map (fun id => (batch, op id, false)) failed ∧
    (tr ≫= recorded_event) = [e] ∧
    (let a := {| B_ID := batch; B_Action := action; requestedIDs := ids; succeededIDs := done; failedIDs := failed; errorCode := code |} in
     skippedIDs a = skipped ∧ SystemEvents.Action e = action ∧ SystemEvents.Metadata e = SystemEvents.I_Metadata (batch_intent a) ∧
     SystemEvents.Outcome e = SystemEvents.I_Outcome (batch_intent a) ∧ SystemEvents.StatusCode e = Some (status x)).
Proof.
  intros Hex Hrec. unfold with_bulk_ids in Hex. destruct (parseBulkProviderAccountIDs requested) as [ids|] eqn:Ep.
  2:{ left. by apply executes_inv in Hex as [-> ->]. }
  right. unfold parseBulkProviderAccountIDs in Ep. destruct (bool_decide (requested = []) || _) eqn:El; [done|].
  apply orb_false_iff in El as [_ Hlen%bool_decide_eq_false]. pose proof (distinct_ids_spec _ _ _ Ep) as (D1 & D2 & D3 & D4).
  assert (∀ id, id ∈ ids ↔ id ∈ requested) as D2' by (intros id; rewrite D2; split; [by intros []|intros ?; split; [done|apply not_elem_of_nil]]).
  assert (length ids ≤ 100)%nat as D5 by (apply sublist_length in D4; lia). clear D2 Ep.
  unfold run_batch in Hex. cbn [bind ask] in Hex. apply executes_inv in Hex as (random & t1 & -> & Hex).
  apply executes_inv in Hex as (started & t2 & -> & Hex). set (batch := SystemEvents.NewCorrelationID random) in *.
  apply executes_bind in Hex as ([[done answers] failure] & t3 & t4 & -> & Hloop & Hex).
  apply batch_loop_execution in Hloop as (done' & rest & Hids & -> & Hrec3 & Hf). cbn [app] in *.
  destruct failure as [[id e]|].
  - destruct Hf as (skipped & -> & Hcalls).
    assert (∃ code text, providerAccountErrorResponse e = (code, text)) as (code & text & Ec) by (destruct (providerAccountErrorResponse e); eauto).
    rewrite Ec in Hex. apply executes_bind in Hex as (u & t5 & t6 & -> & Hbr & Hret). apply executes_inv in Hret as [-> ->].
    apply batch_record_execution in Hbr as (n1 & n2 & ev & -> & He & Hp); [|done].
    eexists batch, ids, done', [id], skipped, text, _. do 5 (split; [done|]). split; [done|]. split; [by right|].
    cbn. rewrite app_nil_r, !bind_app, Hcalls, Hrec3, He, Hp, app_nil_r. split; [done|]. split; [done|].
    unfold skippedIDs. cbn [requestedIDs succeededIDs failedIDs length]. rewrite Hids.
    split; [by rewrite (cons_middle id done' skipped), app_assoc, drop_app_length' by (rewrite length_app; cbn; lia)|].
    split; [done|]. split; [done|]. split; [done|]. unfold writeProviderAccountError. by rewrite Ec.
  - destruct Hf as [-> Hcalls]. apply executes_bind in Hex as (u & t5 & t6 & -> & Hbr & Hret). apply executes_inv in Hret as [-> ->].
    apply batch_record_execution in Hbr as (n1 & n2 & ev & -> & He & Hp); [|done]. rewrite app_nil_r in Hids.
    eexists batch, ids, done', [], [], "", _. do 5 (split; [done|]). split; [by rewrite Hids, app_nil_r|]. split; [by left|].
    cbn. rewrite !app_nil_r, !bind_app, Hcalls, Hrec3, He, Hp, app_nil_r. split; [done|]. split; [done|].
    unfold skippedIDs. cbn [requestedIDs succeededIDs failedIDs length]. rewrite Hids.
    split; [by rewrite drop_ge by lia|]. done.
Qed.

End batch.

(** ** Logging in *)

(** What happened so far: the attempt that was begun, for whom and whether it was
    allowed; what the service said; what the throttle was told; whether the
    attempt was ended. *)
Record login_state := {
  begun : option (string * string * Z * bool); answered : option (result AdminBase.aerror Sessions.Session);
  told : option bool; ended : option Z
}.
Definition login0 : login_state := {| begun := None; answered := None; told := None; ended := None |}.

Definition login_observe (R : Set) (c : call R) : R → login_state → login_state :=
  match c with
  | LoginBegin ip u => fun x m => {| begun := Some (ip, u, fst x, LoginThrottle.Allowed (snd x)); answered := answered m; told := told m; ended := ended m |}
  | Login _ _ _ _ => fun x m => {| begun := begun m; answered := Some x; told := told m; ended := ended m |}
  | LoginFailure _ => fun _ m => {| begun := begun m; answered := answered m; told := Some false; ended := ended m |}
  | LoginSuccess _ => fun _ m => {| begun := begun m; answered := answered m; told := Some true; ended := ended m |}
  | LoginCancel n => fun _ m => {| begun := begun m; answered := answered m; told := told m; ended := Some n |}
  | _ => fun _ m => m
  end.

(** The password is looked at only in an allowed attempt for the same address and
    name, and the throttle is told only about that attempt. *)
Definition login_admissible (R : Set) (c : call R) (m : login_state) : Prop :=
  match c with
  | Login u _ ip _ => ∃ n, begun m = Some (ip, u, n, true)
  | LoginFailure n | LoginSuccess n | LoginCancel n => ∃ ip u, begun m = Some (ip, u, n, true)
  | TimeNow | Insert _ => True
  | LoginBegin _ _ => begun m = None
  | _ => False
  end.

Definition login_done (r : HTTPRequest) (x : response) (m : login_state) : Prop :=
  (∀ ip u n, begun m = Some (ip, u, n, true) → ip = RequestInfo.ClientIP (info r) ∧ ended m = Some n ∧ is_Some (answered m)) ∧
  (∀ ip u n, begun m = Some (ip, u, n, false) → answered m = None ∧ status x = 429) ∧
  (answered m = Some (Err AdminBase.ErrUnauthorized) → told m = Some false) ∧
  (∀ session, answered m = Some (Ok session) → told m = Some true) ∧
  (∀ token expires, cookie x = Some (SetSession token expires) →
     ∃ session, answered m = Some (Ok session) ∧ Sessions.Token session = token ∧ Sessions.ExpiresAt session = expires).

Section login.
Context (s : Server) (ParseTime : string → option Time).

Abbreviation login_wp := (wp login_observe login_admissible (fun _ _ _ _ => True)).

Lemma login_record ctx code n started m : login_wp (recordLoginFailureEvent s ctx code n started) (fun _ m' => m' = m) m.
Proof.
  unfold recordLoginFailureEvent, recordHTTPSystemEvent. cbn [bind ask wp]. split; [done|]. intros now _.
  destruct (has_recorder s); cbn [negb bind ask wp]; [|done]. split; [done|]. intros now' _. split; [done|]. by intros b _.
Qed.

Lemma setRetryAfter_same d x : status (setRetryAfter d x) = status x ∧ cookie (setRetryAfter d x) = cookie x.
Proof. done. Qed.

Lemma login_login_wp ctx r : login_wp (login s ParseTime ctx r) (login_done r) login0.
Proof.
  unfold login. cbn [bind ask wp]. split; [done|]. intros started _. cbn [login_observe].
  destruct (has_admins s); cbn [negb]; [|by repeat split]. unfold HttpHandlers.with_json.
  destruct (decodeJSON _ _ _) as [req|]; [|by repeat split]. cbn [bind ask wp]. split; [done|]. intros [n d] _.
  cbn [login_observe fst snd]. destruct (LoginThrottle.Allowed d) eqn:Ha; cbn [negb].
  - cbn [bind ask wp]. split; [cbn; eauto|]. intros session _. cbn [login_observe].
    apply wp_bind. eapply (wp_mono _ _ _ _ (fun x m =>
      begun m = Some (RequestInfo.ClientIP (info r), str req "username", n, true) ∧ answered m = Some session ∧
      (session = Err AdminBase.ErrUnauthorized → told m = Some false) ∧ (∀ t, session = Ok t → told m = Some true) ∧
      (∀ token expires, cookie x = Some (SetSession token expires) →
         ∃ t, session = Ok t ∧ Sessions.Token t = token ∧ Sessions.ExpiresAt t = expires))).
    + destruct session as [t|e]; [|destruct e].
      all: cbn [bind ask wp]; (split; [cbn; eauto|]).
      1: intros ? _; cbn; split_and!; try done; intros token expires [= <- <-]; eauto.
      1,3-8: intros ? _; cbn; by split_and!.
      intros d' _. apply wp_bind. cbn [login_observe].
      match goal with |- wp _ _ _ _ _ ?m0 => apply (wp_mono _ _ _ _ (fun _ m' => m' = m0)) end.
      * destruct (negb (AdminLoginThrottleEnabled s) || LoginThrottle.ReportEvent d'); [apply login_record|done].
      * intros _ m' ->. cbn. case_bool_decide; cbn; repeat split; done.
    + intros x m (Hb & Hans & Hbad & Hgood & Hck). cbn [bind ask wp]. split; [cbn; eauto|]. intros ? _. cbn [login_observe].
      unfold login_done. cbn [begun answered told ended]. rewrite Hb, Hans. split_and!.
      * intros ip u k [= <- <- <-]. eauto.
      * by intros ip u k [=].
      * intros [= ->]. auto.
      * intros t [= ->]. eauto.
      * intros token expires Hx. destruct (Hck _ _ Hx) as (t & -> & ? & ?). eauto.
  - apply wp_bind. match goal with |- wp _ _ _ _ _ ?m0 => apply (wp_mono _ _ _ _ (fun _ m' => m' = m0)) end.
    + destruct (LoginThrottle.ReportEvent d); [apply login_record|done].
    + intros _ m' ->. cbn. unfold login_done. cbn. split_and!; done.
Qed.

(** [C12] Logging in goes through the throttle.  The service sees a password only after the throttle allowed an attempt for
    the same client address and name; the attempt is always ended, and the throttle is told of a failure when the service
    refuses the credentials and of a success when it accepts them; a refused attempt is answered with status 429 without
    asking the service; and a session cookie is set only for the session the service returned. *)
Theorem login_throttled ctx r tr x :
  executes (login s ParseTime ctx r) tr x →
  safe login_observe login_admissible login0 tr ∧ login_done r x (summary login_observe login0 tr).
Proof. intros Hex. eapply wp_sound; [apply login_login_wp|exact Hex|apply honest_trivial]. Qed.

End login.

(** ** Revealing a secret *)

(** The attempt the throttle allowed or not; the secret the service gave; the last
    event that was recorded. *)
Record reveal_state := {
  attempt : option (string * Z * Z * bool); revealed : option (Z * Z * result AdminBase.aerror string); logged : option SystemEvents.Event
}.
Definition reveal0 : reveal_state := {| attempt := None; revealed := None; logged := None |}.

Definition reveal_observe (R : Set) (c : call R) : R → reveal_state → reveal_state :=
  match c with
  | RevealBegin ip a k => fun d m => {| attempt := Some (ip, a, k, RevealThrottle.Allowed d); revealed := revealed m; logged := logged m |}
  | RevealAPIKeySecret a k _ => fun x m => {| attempt := attempt m; revealed := Some (a, k, x); logged := logged m |}
  | Insert e => fun ok m => {| attempt := attempt m; revealed := revealed m; logged := if ok : bool then Some e else logged m |}
  | _ => fun _ m => m
  end.

Definition reveal_admissible (R : Set) (c : call R) (m : reveal_state) : Prop :=
  match c with
  | RevealAPIKeySecret a k _ => ∃ ip, attempt m = Some (ip, a, k, true)
  | RevealBegin _ _ _ => attempt m = None
  | TimeNow | Insert _ => True
  | _ => False
  end.

(** What a response with the secret means. *)
Definition reveal_done (recorder : bool) (ctx : SystemEvents.RequestContext) (r : HTTPRequest) (a : Z * string) (x : response)
    (m : reveal_state) : Prop :=
  (status x = 200 →
   ∃ id secret, parsePositivePathID r "id" = Some id ∧ attempt m = Some (RequestInfo.ClientIP (info r), fst a, id, true) ∧
     revealed m = Some (fst a, id, Ok secret) ∧ content x = JSON (VObject [("secret", VString secret)]) ∧
     ("Cache-Control", "no-store") ∈ headers x ∧
     (recorder = true → ∃ e, logged m = Some e ∧ SystemEvents.Action e = "api_key.secret.viewed" ∧
        SystemEvents.Event_Actor e = SystemEvents.RC_Actor ctx ∧
        SystemEvents.Event_Target e = SystemEvents.Build_Target "client_api_key" (FormatInt id) "")) ∧
  (status x ≠ 200 → ∃ code, content x = JSON (VObject [("error", VString code)])).

Section reveal.
Context (s : Server) (ParseTime : string → option Time).

Abbreviation reveal_wp := (wp reveal_observe reveal_admissible (fun _ _ _ _ => True)).

Lemma reveal_refused rec ctx r a x m :
  status x ≠ 200 → (∃ code, content x = JSON (VObject [("error", VString code)])) → reveal_done rec ctx r a x m.
Proof. intros Hs Hc. split; [by intros ?|done]. Qed.

Lemma fails_refused table e : Forall (fun t => fst (snd t) ≠ 200) table →
  status (fails table e) ≠ 200 ∧ ∃ code, content (fails table e) = JSON (VObject [("error", VString code)]).
Proof.
  intros Ht. unfold fails. destruct (List.find _ table) as [[e' [code text]]|] eqn:E; [|cbn; eauto].
  apply find_some in E as [Hin _]. rewrite Forall_forall in Ht. apply list_elem_of_In in Hin. specialize (Ht _ Hin). cbn in *. eauto.
Qed.

Lemma reveal_secret_wp ctx r a : reveal_wp (reveal_secret s ParseTime ctx r a) (reveal_done (has_recorder s) ctx r a) reveal0.
Proof.
  unfold reveal_secret, with_id. destruct (parsePositivePathID r "id") as [id|] eqn:Eid; [|by apply reveal_refused; [|eauto]].
  cbn [bind ask wp]. split; [done|]. intros d _. cbn [reveal_observe].
  destruct (RevealThrottle.Allowed d); cbn [negb]; [|by apply reveal_refused; [|cbn; eauto]].
  unfold HttpHandlers.with_json. destruct (decodeJSON _ _ _) as [req|]; [|by apply reveal_refused; [|cbn; eauto]].
  cbn [bind ask wp]. split; [cbn; eauto|]. intros [secret|e] _; cbn [reveal_observe].
  2:{ assert (status (fails [missing] e) ≠ 200 ∧ ∃ code, content (fails [missing] e) = JSON (VObject [("error", VString code)])) as [H1 H2]
        by (apply fails_refused; by repeat constructor).
      destruct e; try (by apply reveal_refused). apply reveal_refused; [done|cbn; eauto]. }
  unfold recordHTTPSystemEvent. destruct (has_recorder s) eqn:Hrec; cbn [negb bind ask wp].
  - split; [done|]. intros now _. split; [done|]. intros [] _; cbn [reveal_observe].
    + split; [|by intros ?]. intros _. exists id, secret. cbn. split_and!; try done; [by apply list_elem_of_singleton|].
      intros _. eexists. split; [done|]. done.
    + apply reveal_refused; [done|cbn; eauto].
  - split; [|by intros ?]. intros _. exists id, secret. cbn. split_and!; try done. by apply list_elem_of_singleton.
Qed.


End reveal.

(** ** Failures are recorded *)

Section failures.
Context (s : Server) (lib : Library).

Lemma record_failure_execution ctx r code text d tr u action category target :
  has_recorder s = true → 400 ≤ code → adminFailureEventForRequest r = Some (action, category, target) →
  executes (recordAdminMutationFailure s ctx r code text d) tr u →
  ∃ now e ok, tr = [Ev TimeNow now; Ev (Insert e) ok] ∧ SystemEvents.Action e = action ∧ SystemEvents.Category e = category ∧
    SystemEvents.Outcome e = SystemEvents.OutcomeFailure ∧ SystemEvents.StatusCode e = Some code ∧
    SystemEvents.Event_Target e = SystemEvents.Build_Target target (PathValue r "id") "" ∧
    SystemEvents.ErrorCode e = (if str_eq text "" then adminFailureErrorCode code else text) ∧
    SystemEvents.Event_Actor e = SystemEvents.RC_Actor ctx.
Proof.
  intros Hrec Hcode Hdef. unfold recordAdminMutationFailure, recordHTTPSystemEvent. rewrite bool_decide_eq_false_2 by lia.
  rewrite Hdef, Hrec. cbn [negb bind ask]. intros (now & t1 & -> & Hex)%executes_inv. apply executes_inv in Hex as (ok & t2 & -> & Hex).
  apply executes_inv in Hex as [-> _]. eexists now, _, ok. split; [done|]. split_and!; try reflexivity. cbn. by case_bool_decide.
Qed.

(** [C17] A refused or failed operation of an administrator leaves a trace.  When a route for administrators has an entry in
    the table of failures and answers with a status of 400 or more, whatever the reason - no session, a malformed request, an
    error of a service -, its last act is to record exactly that: the entry's action and category, outcome failure, the
    status, and the error code the handler left or the one that stands for the status. *)
Theorem admin_failures_recorded next ctx r tr x action category target :
  executes (requireAdmin s next ctx r) tr x → has_recorder s = true → 400 ≤ status x →
  adminFailureEventForRequest r = Some (action, category, target) →
  ∃ tr1 e ok, tr = tr1 ++ [Ev (Insert e) ok] ∧ SystemEvents.Action e = action ∧ SystemEvents.Category e = category ∧
    SystemEvents.Outcome e = SystemEvents.OutcomeFailure ∧ SystemEvents.StatusCode e = Some (status x) ∧
    SystemEvents.Event_Target e = SystemEvents.Build_Target target (PathValue r "id") "" ∧
    SystemEvents.ErrorCode e = (if str_eq (failureCode x) "" then adminFailureErrorCode (status x) else failureCode x).
Proof.
  intros Hex Hrec Hcode Hdef. unfold requireAdmin in Hex. cbn [bind ask] in Hex. apply executes_inv in Hex as (started & t1 & -> & Hex).
  apply executes_bind in Hex as ([y ctx'] & t2 & t3 & -> & _ & Hex). apply executes_inv in Hex as (now & t4 & -> & Hex).
  apply executes_bind in Hex as (u & t5 & t6 & -> & Hr & Hret). apply executes_inv in Hret as [-> ->].
  eapply record_failure_execution in Hr as (now' & e & ok & -> & ? & ? & ? & ? & ? & ? & _); [|done..].
  exists ((Ev TimeNow started :: t2) ++ [Ev TimeNow now; Ev TimeNow now']), e, ok.
  split; [cbn; by rewrite <- app_assoc|]. by split_and!.
Qed.

End failures.

(** ** Examples *)

Module Demo.
Import HttpApi.Demo.

Definition demo_lib : Library :=
  {| L_ParseTime := fun _ => None; L_url_query := fun _ => None;
     L_url_Parse := fun u => if str_eq u "http://n2api.test"
       then Some {| RequestInfo.Scheme := "http"; RequestInfo.HasUser := false; RequestInfo.U_Host := "n2api.test"; RequestInfo.U_Path := "";
                    RequestInfo.RawQuery := ""; RequestInfo.Fragment := "" |}
       else if str_eq u "//n2api.test"
       then Some {| RequestInfo.Scheme := ""; RequestInfo.HasUser := false; RequestInfo.U_Host := "n2api.test"; RequestInfo.U_Path := "";
                    RequestInfo.RawQuery := ""; RequestInfo.Fragment := "" |}
       else None;
     L_MarshalAttempts := fun _ => "[]"; L_EncodeRow := fun _ => "{}"; L_EncodeRows := fun _ => "{}"; L_FormatNano := fun _ => "t";
     L_FormatSeconds := fun _ => "t"; L_FormatCompact := fun _ => "t"; L_Marshal := fun _ => None; L_MarshalDocument := fun _ => None;
     L_templates := VNil; L_before := ""; L_after := "" |}.

(** A mutation from the server's own pages: disconnecting an account. *)
Definition disconnect : HTTPRequest :=
  request "DELETE" "/api/admin/provider-accounts/7" "" [("Origin", "http://n2api.test"); ("Sec-Fetch-Site", "same-origin")].
Definition disconnect_run := run env (ServeHTTP server demo_lib disconnect) [].

Lemma disconnect_executes : executes (ServeHTTP server demo_lib disconnect) disconnect_run.1.2 disconnect_run.1.1.
Proof. destruct disconnect_run as [[x tr] w] eqn:E. by eapply run_executes. Qed.

(** Its calls, by name. *)
Definition is_disconnect (x : ev call) : bool :=
  match x with Ev (Provider _ (DisconnectAccount 7)) _ => true | _ => false end.

Lemma admin_calls_demo :
  ∃ tr1 y tr2, disconnect_run.1.2 = tr1 ++ Ev (Provider "" (DisconnectAccount 7)) y :: tr2 ∧
    authorised (Some "token") _ (Provider "" (DisconnectAccount 7)) tr1.
Proof.
  eexists (take 3 disconnect_run.1.2), _, (drop 4 disconnect_run.1.2).
  assert (disconnect_run.1.2 = take 3 disconnect_run.1.2 ++ Ev (Provider "" (DisconnectAccount 7)) (Ok VNil) :: drop 4 disconnect_run.1.2) as Heq
    by (vm_compute; reflexivity).
  split; [exact Heq|]. exact (admin_calls_authenticated server demo_lib disconnect _ _ disconnect_executes _ _ _ _ _ Heq).
Defined.


(** Four accounts, one of them twice; the third cannot be disconnected. *)
Definition ctx : SystemEvents.RequestContext := SystemEvents.Build_RequestContext "id" "" "POST" "" (SystemEvents.Build_Actor "admin" 1 "root").
Definition bulk := with_bulk_ids [5; 2; 5; 3; 4] (fun ids =>
  run_batch server ctx "provider_account.batch.disconnected" ids DisconnectAccount (fun _ _ => noContent)).
Definition bulk_run := run env bulk [].

Lemma batch_audit_demo :
  (∃ e, bulk_run.1.2 ≫= recorded_event = [e] ∧ SystemEvents.Outcome e = SystemEvents.OutcomePartial) ∧ status bulk_run.1.1 = 404 ∧
  ∃ batch, bulk_run.1.2 ≫= provider_call =
    [(batch, DisconnectAccount 5, true); (batch, DisconnectAccount 2, true); (batch, DisconnectAccount 3, false)].
Proof.
  assert (executes bulk bulk_run.1.2 bulk_run.1.1) as Hex by (destruct bulk_run as [[x tr] w] eqn:E; by eapply run_executes).
  destruct (batch_audit_exact server ctx _ _ _ _ _ _ Hex eq_refl) as
    [(H & _)|(batch & ids & done & failed & skipped & code & e & _ & _ & _ & _ & _ & _ & _ & Hc & He & _)]; [vm_compute in H; discriminate|].
  split; [|split; [vm_compute; reflexivity|]].
  - exists e. split; [exact He|]. vm_compute in He. injection He as <-. vm_compute. reflexivity.
  - eexists. vm_compute. reflexivity.
Defined.

(** Logging in with the right password. *)
Definition login_request : HTTPRequest :=
  request "POST" "/api/admin/login" ("{" +++ String (ascii_of_N 34) "username" +++ String (ascii_of_N 34) ":" +++ String (ascii_of_N 34) "root" +++
    String (ascii_of_N 34) "}") [].
Definition login_run := run env (login server (fun _ => None) ctx login_request) [].

Lemma login_demo :
  cookie login_run.1.1 = Some (SetSession "token" 100) ∧ ended (summary login_observe login0 login_run.1.2) = Some 1 ∧
  login_done login_request login_run.1.1 (summary login_observe login0 login_run.1.2).
Proof.
  assert (executes (login server (fun _ => None) ctx login_request) login_run.1.2 login_run.1.1) as Hex
    by (destruct login_run as [[x tr] w] eqn:E; by eapply run_executes).
  split; [vm_compute; reflexivity|]. split; [vm_compute; reflexivity|].
  exact (proj2 (login_throttled server _ _ _ _ _ Hex)).
Defined.

(** Revealing the secret of key 4. *)
Definition reveal_request : HTTPRequest :=
  with_route (request "POST" "/api/admin/keys/4/reveal-secret" ("{" +++ String (ascii_of_N 34) "currentPassword" +++ String (ascii_of_N 34) ":" +++
    String (ascii_of_N 34) "pw" +++ String (ascii_of_N 34) "}") []) "POST /api/admin/keys/{id}/reveal-secret" [("id", "4")].
Definition reveal_run := run env (reveal_secret server (fun _ => None) ctx reveal_request (1, "root")) [].


(** A malformed request to delete a key. *)
Definition bad_delete : HTTPRequest := with_route (request "DELETE" "/api/admin/keys/x" "" []) "DELETE /api/admin/keys/{id}" [("id", "x")].
Definition bad_run := run env (requireAdmin server delete_key ctx bad_delete) [].

Lemma failure_demo :
  status bad_run.1.1 = 400 ∧ ∃ tr1 e ok, bad_run.1.2 = tr1 ++ [Ev (Insert e) ok] ∧ SystemEvents.Action e = "api_key.deleted".
Proof.
  assert (executes (requireAdmin server delete_key ctx bad_delete) bad_run.1.2 bad_run.1.1) as Hex
    by (destruct bad_run as [[x tr] w] eqn:E; by eapply run_executes).
  split; [vm_compute; reflexivity|].
  destruct (admin_failures_recorded server _ _ _ _ _ "api_key.deleted" "audit" "client_api_key" Hex eq_refl
    ltac:(vm_compute; discriminate) ltac:(vm_compute; reflexivity)) as (tr1 & e & ok & H1 & H2 & _).
  exists tr1, e, ok. split; [exact H1|exact H2].
Defined.

End Demo.
End HttpThms.
