(* ===== verification/Config.v ===== *)
(** * Configuration

    [config/config.go], [config/database_tls.go] and [config/validation.go]: the
    settings read from the environment and from secret files, and their
    validation.  An error is the name of the setting its message begins with.
    [url.Parse], [URL.String] and the parser of database URLs are parameters. *)

From S2P Require Import Prelude GoStrings Secrets SecretsThms Netip RequestInfo HttpJson.
From Stdlib Require Import Ascii.
From Stdlib Require String.

Module Config.
Import Netip.

(** ** Secret files *)

Record FileInfo := { Regular : bool; Size : Z; Inode : Z }.

(** The files: what [Lstat] finds at a path, and what opening it without following
    links gives - the state of the opened file and what reading it returns. *)
Record Files := { Lstat : string → option FileInfo; Open : string → option (option FileInfo * option string) }.

Definition maximumSecretFileBytes : Z := 65536.

Definition secretFileEnvironmentNames : list string :=
  ["DATABASE_URL"; "N2API_ADMIN_PASSWORD"; "N2API_ENCRYPTION_SECRET"; "N2API_ENCRYPTION_PREVIOUS_KEYS"; "OPENAI_OAUTH_CLIENT_SECRET";
   "N2API_METRICS_BEARER_TOKEN"].

Definition newline : string := String "010"%char "".
Definition crlf : string := String "013"%char newline.

(** One line break at the end is not part of the secret. *)
Definition chomp (content : string) : string :=
  if HasSuffix content crlf then TrimSuffix content crlf else TrimSuffix content newline.

Definition readSecretFile (fs : Files) (name path : string) : result string string :=
  match Lstat fs path with
  | None => Err name
  | Some before =>
      if negb (Regular before) then Err name
      else if bool_decide (maximumSecretFileBytes < Size before) then Err name
      else
        match Open fs path with
        | Some (Some after, content) =>
            if negb (Regular after) || negb (bool_decide (Inode before = Inode after)) then Err name
            else
              match content with
              | None => Err name
              | Some content =>
                  let content := String.substring 0 (Z.to_nat (maximumSecretFileBytes + 1)) content in
                  if bool_decide (maximumSecretFileBytes < go_len content) then Err name else Ok (chomp content)
              end
        | _ => Err name
        end
  end.

Fixpoint resolve_files (fs : Files) (lookup : string → string) (names : list string) (resolved : list (string * string))
  : result string (list (string * string)) :=
  match names with
  | [] => Ok resolved
  | name :: names =>
      let value := lookup name in
      let path := lookup (name +++ "_FILE") in
      if negb (str_eq value "") && negb (str_eq path "") then Err name
      else if str_eq path "" then resolve_files fs lookup names resolved
      else
        let? content := readSecretFile fs (name +++ "_FILE") path in
        resolve_files fs lookup names (resolved ++ [(name, content)])
  end.

Definition resolveSecretFiles (fs : Files) (lookup : option (string → string)) : result string (string → string) :=
  match lookup with
  | None => Err ""
  | Some lookup =>
      let? resolved := resolve_files fs lookup secretFileEnvironmentNames [] in
      Ok (fun name => match List.find (fun e => str_eq (fst e) name) resolved with Some (_, v) => v | None => lookup name end)
  end.

(** ** Values *)

Definition valueOrDefault (value fallback : string) : string := if str_eq value "" then fallback else value.

Definition parseNamedPort (value name : string) : result string Z :=
  match Atoi value with
  | None => Err name
  | Some port => if bool_decide (port < 1) || bool_decide (65535 < port) then Err name else Ok port
  end.

Definition parsePort (value : string) : result string Z := parseNamedPort value "N2API_PORT".

Definition parseNonNegativeInt (value name : string) : result string Z :=
  if str_eq value "" then Ok 0
  else match Atoi value with None => Err name | Some parsed => if bool_decide (parsed < 0) then Err name else Ok parsed end.

Definition parsePositiveIntWithDefault (value name : string) (fallback minimum maximum : Z) : result string Z :=
  if str_eq (TrimSpace value) "" then Ok fallback
  else match Atoi value with
       | None => Err name
       | Some parsed => if bool_decide (parsed < minimum) || bool_decide (maximum < parsed) then Err name else Ok parsed
       end.

Definition parseStrictPositiveInt (value name : string) (fallback minimum maximum : Z) : result string Z :=
  if str_eq (TrimSpace value) "" then Ok fallback
  else match Atoi value with
       | None => Err name
       | Some parsed => if bool_decide (parsed < minimum) || bool_decide (maximum < parsed) then Err name else Ok parsed
       end.

(** [strconv.ParseBool] *)
Definition ParseBool (s : string) : option bool :=
  if existsb (str_eq s) ["1"; "t"; "T"; "TRUE"; "true"; "True"] then Some true
  else if existsb (str_eq s) ["0"; "f"; "F"; "FALSE"; "false"; "False"] then Some false else None.

Definition parseBool (value name : string) : result string bool :=
  if str_eq value "" then Ok false else match ParseBool value with None => Err name | Some b => Ok b end.

Definition parseSystemEventRetentionDays (value : string) : result string Z :=
  if str_eq (TrimSpace value) "" then Ok 365
  else match Atoi value with
       | None => Err "N2API_SYSTEM_EVENT_RETENTION_DAYS"
       | Some days =>
           if negb (bool_decide (days = 0)) && (bool_decide (days < 30) || bool_decide (3650 < days))
           then Err "N2API_SYSTEM_EVENT_RETENTION_DAYS" else Ok days
       end.

(** An entry of the list of trusted proxies. *)
Definition parseTrustedProxy (raw : string) : option Prefix :=
  p ← ParsePrefix (TrimSpace raw);
  p ← (if Is4In6 (P_Addr p)
       then if bool_decide (Bits p < 96) then None else Some (PrefixFrom (Unmap (P_Addr p)) (Bits p - 96))
       else Some p);
  Some (Masked p).

Fixpoint collect_proxies (raws : list string) (prefixes : list Prefix) : result string (list Prefix) :=
  match raws with
  | [] => Ok prefixes
  | raw :: raws =>
      match parseTrustedProxy raw with
      | None => Err "N2API_TRUSTED_PROXY_CIDRS"
      | Some p => collect_proxies raws (if bool_decide (p ∈ prefixes) then prefixes else prefixes ++ [p])
      end
  end.

Definition parseTrustedProxyCIDRs (value : string) : result string (list Prefix) :=
  if str_eq (TrimSpace value) "" then Ok [] else collect_proxies (Split value ","%char) [].

Definition riskPublicHTTP : string := "public-http".
Definition riskPublicBind : string := "public-bind".
Definition riskDatabasePlaintext : string := "database-plaintext".
Definition riskDatabaseUnverifiedTLS : string := "database-unverified-tls".
Definition allowed_risks : list string := [riskPublicHTTP; riskPublicBind; riskDatabasePlaintext; riskDatabaseUnverifiedTLS].

Definition parseAcceptedRisks (value : string) : result string (gset string) :=
  if str_eq (TrimSpace value) "" then Ok ∅
  else
    foldl (fun acc raw =>
             let? accepted := acc in
             let risk := TrimSpace raw in
             if bool_decide (risk ∈ allowed_risks) then Ok (accepted ∪ {[risk]}) else Err "N2API_ACCEPT_RISKS")
          (Ok ∅) (Split value ","%char).

Definition acceptsRisk (accepted : gset string) (risk : string) : bool := bool_decide (risk ∈ accepted).

(** ** Hosts and placeholders *)

Definition isLoopbackHost (value : string) : bool :=
  let host := TrimSuffix (ToLower (TrimSpace value)) "." in
  let host := TrimPrefix (TrimSuffix host "]") "[" in
  str_eq host "localhost" || HasSuffix host ".localhost" ||
  match ParseIP host with Some ip => IsLoopback ip | None => false end.

Definition isPlaceholderHost (value : string) : bool :=
  let host := TrimSuffix (ToLower (TrimSpace value)) "." in
  existsb (fun d => str_eq host d || HasSuffix host ("." +++ d)) ["example.com"; "example.net"; "example.org"; "example"; "test"; "invalid"]
  || Contains host "your-domain" || Contains host "change-me".

Definition isKnownPlaceholder (value : string) : bool :=
  let normalized := ToLower (TrimSpace value) in
  if str_eq normalized "" then false
  else Contains normalized "change-me" || Contains normalized "replace-me" ||
       existsb (str_eq normalized) ["changeme"; "password"; "admin"; "your-password"; "your-secret"].

Definition minimumEncryptionSecretBytes : Z := 32.
Definition MinimumAdminPasswordBytes : Z := 12.

Definition validateSecrets (adminPassword encryptionSecret : string) : result string unit :=
  if bool_decide (go_len adminPassword < MinimumAdminPasswordBytes) || isKnownPlaceholder adminPassword then Err "N2API_ADMIN_PASSWORD"
  else if bool_decide (go_len encryptionSecret < minimumEncryptionSecretBytes) || isKnownPlaceholder encryptionSecret
  then Err "N2API_ENCRYPTION_SECRET"
  else if str_eq adminPassword encryptionSecret then Err "N2API_ADMIN_PASSWORD"
  else Ok tt.

(** ** Previous keys *)

(** Exactly one JSON value, an array of keys. *)
Definition parsePreviousEncryptionKeys (value : string) : result string (list Secrets.EncryptionKey) :=
  if str_eq (TrimSpace value) "" then Ok []
  else
    match HttpJson.decodeJSONBytes (fun _ => None) value
            (HttpJson.TList (HttpJson.TStruct [("id", HttpJson.TString); ("secret", HttpJson.TString)])) with
    | Some (HttpJson.VList l) =>
        Ok (map (fun v => {| Secrets.Key_ID := HttpJson.as_str (HttpJson.get_field v "id");
                             Secrets.Key_Secret := HttpJson.as_str (HttpJson.get_field v "secret") |}) l)
    | _ => Err "N2API_ENCRYPTION_PREVIOUS_KEYS"
    end.

Fixpoint validatePreviousEncryptionKeys (adminPassword currentSecret : string) (keys : list Secrets.EncryptionKey) : result string unit :=
  match keys with
  | [] => Ok tt
  | key :: keys =>
      let secret := Secrets.Key_Secret key in
      if bool_decide (go_len secret < minimumEncryptionSecretBytes) || isKnownPlaceholder secret then Err "N2API_ENCRYPTION_PREVIOUS_KEYS"
      else if str_eq secret adminPassword then Err "N2API_ENCRYPTION_PREVIOUS_KEYS"
      else if str_eq secret currentSecret then Err "N2API_ENCRYPTION_PREVIOUS_KEYS"
      else validatePreviousEncryptionKeys adminPassword currentSecret keys
  end.

(** ** The transport of the database *)

Record tls_config := { InsecureSkipVerify : bool; ServerName : string }.
Record ConnConfig := { Password : string; TLSConfig : option tls_config; Fallbacks : list (option tls_config) }.
Record databaseTransportRisks := { plaintext : bool; unverifiedTLS : bool }.

Definition classify (c : option tls_config) : databaseTransportRisks :=
  match c with
  | None => {| plaintext := true; unverifiedTLS := false |}
  | Some c => {| plaintext := false; unverifiedTLS := InsecureSkipVerify c || str_eq (ServerName c) "" |}
  end.

Definition classifyDatabaseTransport (config : option ConnConfig) : databaseTransportRisks :=
  match config with
  | None => {| plaintext := true; unverifiedTLS := false |}
  | Some config =>
      let risks := map classify (TLSConfig config :: Fallbacks config) in
      {| plaintext := existsb plaintext risks; unverifiedTLS := existsb unverifiedTLS risks |}
  end.

(** ** URLs *)

(** [url.URL]: what [RequestInfo] reads of it, and the rest. *)
Record URL := { base : RequestInfo.URL; Opaque : string; RawPath : string; ForceQuery : bool; RawFragment : string }.

Definition IsAbs (u : URL) : bool := negb (str_eq (RequestInfo.Scheme (base u)) "").
Definition with_scheme (scheme : string) (u : URL) : URL :=
  let b := base u in
  {| base := RequestInfo.Build_URL scheme (RequestInfo.HasUser b) (RequestInfo.U_Host b) (RequestInfo.U_Path b) (RequestInfo.RawQuery b)
               (RequestInfo.Fragment b);
     Opaque := Opaque u; RawPath := RawPath u; ForceQuery := ForceQuery u; RawFragment := RawFragment u |}.
Definition without_path (u : URL) : URL :=
  let b := base u in
  {| base := RequestInfo.Build_URL (RequestInfo.Scheme b) (RequestInfo.HasUser b) (RequestInfo.U_Host b) "" (RequestInfo.RawQuery b)
               (RequestInfo.Fragment b);
     Opaque := Opaque u; RawPath := ""; ForceQuery := ForceQuery u; RawFragment := RawFragment u |}.

(** ** The configuration *)

Record Config := {
  Host : string; Port : Z; PublicURL : string; DatabaseURL : string; AdminUsername : string; AdminPassword : string;
  EncryptionSecret : string; EncryptionKeyID : string; EncryptionKeyring : Secrets.Keyring;
  OpenAIOAuthClientID : string; OpenAIOAuthSecret : string; OpenAIOAuthRedirectURL : string; OpenAIOAuthAuthURL : string;
  OpenAIOAuthTokenURL : string; OpenAIAPIBaseURL : string; AllowHTTPAPIUpstreams : bool; AllowUnsafeMultiInstance : bool;
  GatewayMaxConcurrentRequests : Z; GatewayMaxConcurrentRequestsPerAccount : Z; GatewayMaxConcurrentRequestsPerKey : Z;
  GatewayRequestsPerMinutePerKey : Z; GatewayTokensPerMinutePerKey : Z; GatewayMaxAcceptedRequestBodyBytes : Z;
  GatewayMaxInMemoryReplayBodyBytes : Z; GatewayMaxUpstreamResponseBodyBytes : Z;
  HTTPIdleTimeout : Duration; HTTPMaxHeaderBytes : Z; HTTPRequestBodyTimeout : Duration; ShutdownTimeout : Duration;
  RequestDrainTimeout : Duration; UpstreamResponseHeaderTimeout : Duration; UpstreamConnectTimeout : Duration;
  UpstreamTLSHandshakeTimeout : Duration; UpstreamSSEIdleTimeout : Duration;
  ProviderAccountAutoTestEnabled : bool; ProviderAccountAutoTestInterval : Duration;
  RequestLogRetentionRunnerEnabled : bool; RequestLogRetentionInterval : Duration; RequestLogRetentionBatchSize : Z;
  ResponseAffinityTTL : Duration; ResponseAffinityRetentionRunnerEnabled : bool; ResponseAffinityRetentionInterval : Duration;
  ResponseAffinityRetentionBatchSize : Z; RequestLogExportMaxRows : Z; RequestLogExportTimeout : Duration;
  SystemEventRetentionDays : Z; AlertDeliveryEnabled : bool; UpdateCheckEnabled : bool; TrustedProxyCIDRs : list Prefix;
  AdminLoginThrottleEnabled : bool; AdminLoginThrottleFailures : Z; AdminLoginThrottleMaxEntries : Z; AdminSessionTTL : Duration;
  MetricsEnabled : bool; MetricsHost : string; MetricsPort : Z; MetricsBearerToken : string
}.

(** [net.JoinHostPort] *)
Definition JoinHostPort (host port : string) : string :=
  if Contains host ":" then "[" +++ host +++ "]:" +++ port else host +++ ":" +++ port.

Definition Config_Addr (c : Config) : string := JoinHostPort (Host c) (FormatInt (Port c)).
Definition MetricsAddr (c : Config) : string := JoinHostPort (MetricsHost c) (FormatInt (MetricsPort c)).

Section load.
Context (url_Parse : string → option URL) (url_String : URL → string) (ParseConfig : string → option ConnConfig).

Definition validURLHost (raw : string) : string := RequestInfo.validRequestHost (fun s => base <$> url_Parse s) raw.

Definition validatePublicURL (value : string) (acceptedRisks : gset string) : result string string :=
  match url_Parse value with
  | None => Err "N2API_PUBLIC_URL"
  | Some parsed =>
      let b := base parsed in
      if negb (IsAbs parsed) || negb (str_eq (Opaque parsed) "") || str_eq (validURLHost (RequestInfo.U_Host b)) "" then Err "N2API_PUBLIC_URL"
      else
        let scheme := ToLower (RequestInfo.Scheme b) in
        if negb (str_eq scheme "http") && negb (str_eq scheme "https") then Err "N2API_PUBLIC_URL"
        else if RequestInfo.HasUser b || ForceQuery parsed || negb (str_eq (RequestInfo.RawQuery b) "") ||
                negb (str_eq (RequestInfo.Fragment b) "") ||
                (negb (str_eq (RequestInfo.U_Path b) "") && negb (str_eq (RequestInfo.U_Path b) "/")) then Err "N2API_PUBLIC_URL"
        else if isPlaceholderHost (RequestInfo.Hostname b) then Err "N2API_PUBLIC_URL"
        else if str_eq scheme "http" && negb (isLoopbackHost (RequestInfo.Hostname b)) && negb (acceptsRisk acceptedRisks riskPublicHTTP)
        then Err "N2API_ACCEPT_RISKS"
        else Ok (url_String (without_path (with_scheme scheme parsed)))
  end.

Definition validateDatabaseURL (value : string) (acceptedRisks : gset string) : result string unit :=
  match ParseConfig value with
  | None => Err "DATABASE_URL"
  | Some config =>
      if isKnownPlaceholder (Password config) then Err "DATABASE_URL"
      else
        let risks := classifyDatabaseTransport (Some config) in
        if plaintext risks && negb (acceptsRisk acceptedRisks riskDatabasePlaintext) then Err "N2API_ACCEPT_RISKS"
        else if unverifiedTLS risks && negb (acceptsRisk acceptedRisks riskDatabaseUnverifiedTLS) then Err "N2API_ACCEPT_RISKS"
        else Ok tt
  end.

Definition validateUpstreamURL (name value : string) (allowHTTP : bool) : result string string :=
  match url_Parse value with
  | None => Err name
  | Some parsed =>
      let b := base parsed in
      if negb (IsAbs parsed) || negb (str_eq (Opaque parsed) "") || str_eq (validURLHost (RequestInfo.U_Host b)) "" || RequestInfo.HasUser b
      then Err name
      else
        let scheme := ToLower (RequestInfo.Scheme b) in
        if negb (str_eq scheme "http") && negb (str_eq scheme "https") then Err name
        else if str_eq scheme "http" && negb allowHTTP
        then Err (if str_eq name "OPENAI_API_BASE_URL" then "N2API_ALLOW_HTTP_API_UPSTREAMS" else name)
        else Ok (url_String (with_scheme scheme parsed))
  end.

(** What [validateStartupSecurity] puts into the configuration: the public URL and
    the three upstream URLs. *)
Definition validateStartupSecurity (host publicURL adminPassword encryptionSecret databaseURL apiBase authURL tokenURL : string)
    (allowHTTP : bool) (acceptedRisks : gset string) : result string (string * string * string * string) :=
  let? publicURL := validatePublicURL publicURL acceptedRisks in
  let? _ := (if negb (isLoopbackHost host) && negb (acceptsRisk acceptedRisks riskPublicBind) then Err "N2API_ACCEPT_RISKS" else Ok tt) in
  let? _ := validateSecrets adminPassword encryptionSecret in
  let? _ := validateDatabaseURL databaseURL acceptedRisks in
  let? apiBase := validateUpstreamURL "OPENAI_API_BASE_URL" apiBase allowHTTP in
  let? authURL := validateUpstreamURL "OPENAI_OAUTH_AUTH_URL" authURL false in
  let? tokenURL := validateUpstreamURL "OPENAI_OAUTH_TOKEN_URL" tokenURL false in
  Ok (publicURL, apiBase, authURL, tokenURL).

Definition seconds (n : Z) : Duration := wrap64 (n * Second).

(** [Load], up to the settings of the listeners. *)
Definition Load (fs : Files) (env : option (string → string)) : result string Config :=
  let? lookup := resolveSecretFiles fs env in
  let? acceptedRisks := parseAcceptedRisks (lookup "N2API_ACCEPT_RISKS") in
  let? previousEncryptionKeys := parsePreviousEncryptionKeys (lookup "N2API_ENCRYPTION_PREVIOUS_KEYS") in
  let host := valueOrDefault (lookup "N2API_HOST") "0.0.0.0" in
  let publicURL := valueOrDefault (lookup "N2API_PUBLIC_URL") "http://localhost:3000" in
  let adminPassword := lookup "N2API_ADMIN_PASSWORD" in
  let databaseURL := lookup "DATABASE_URL" in
  let encryptionSecret := lookup "N2API_ENCRYPTION_SECRET" in
  let keyID := valueOrDefault (lookup "N2API_ENCRYPTION_KEY_ID") Secrets.DefaultEncryptionKeyID in
  let flag name := parseBool (lookup name) name in
  let default_int name := parsePositiveIntWithDefault (lookup name) name in
  let strict_int name := parseStrictPositiveInt (lookup name) name in
  let? allowHTTPAPIUpstreams := flag "N2API_ALLOW_HTTP_API_UPSTREAMS" in
  let? allowUnsafeMultiInstance := flag "N2API_ALLOW_UNSAFE_MULTI_INSTANCE" in
  let? adminLoginThrottleEnabled :=
    parseBool (valueOrDefault (lookup "N2API_ADMIN_LOGIN_THROTTLE_ENABLED") "true") "N2API_ADMIN_LOGIN_THROTTLE_ENABLED" in
  let? adminLoginThrottleFailures := default_int "N2API_ADMIN_LOGIN_THROTTLE_FAILURES" 5 1 20 in
  let? adminLoginThrottleMaxEntries := default_int "N2API_ADMIN_LOGIN_THROTTLE_MAX_ENTRIES" 4096 128 16384 in
  let? adminSessionTTLHours := default_int "N2API_ADMIN_SESSION_TTL_HOURS" 168 1 8760 in
  let? trustedProxyCIDRs := parseTrustedProxyCIDRs (lookup "N2API_TRUSTED_PROXY_CIDRS") in
  let? autoTestEnabled := flag "N2API_PROVIDER_ACCOUNT_AUTO_TEST_ENABLED" in
  let? alertDeliveryEnabled := flag "N2API_ALERT_DELIVERY_ENABLED" in
  let? updateCheckEnabled := parseBool (valueOrDefault (lookup "N2API_UPDATE_CHECK_ENABLED") "true") "N2API_UPDATE_CHECK_ENABLED" in
  let? requestLogRetentionRunnerEnabled := flag "N2API_REQUEST_LOG_RETENTION_RUNNER_ENABLED" in
  let? requestLogRetentionIntervalSeconds := default_int "N2API_REQUEST_LOG_RETENTION_INTERVAL_SECONDS" 86400 300 604800 in
  let? requestLogRetentionBatchSize := default_int "N2API_REQUEST_LOG_RETENTION_BATCH_SIZE" 1000 100 10000 in
  let? responseAffinityTTLDays := default_int "N2API_RESPONSE_AFFINITY_TTL_DAYS" 30 1 3650 in
  let? responseAffinityRetentionEnabled := flag "N2API_RESPONSE_AFFINITY_RETENTION_RUNNER_ENABLED" in
  let? responseAffinityRetentionIntervalSeconds := default_int "N2API_RESPONSE_AFFINITY_RETENTION_INTERVAL_SECONDS" 86400 300 604800 in
  let? responseAffinityRetentionBatchSize := default_int "N2API_RESPONSE_AFFINITY_RETENTION_BATCH_SIZE" 1000 100 10000 in
  let? requestLogExportMaxRows := default_int "N2API_REQUEST_LOG_EXPORT_MAX_ROWS" 100000 1000 1000000 in
  let? requestLogExportTimeoutSeconds := default_int "N2API_REQUEST_LOG_EXPORT_TIMEOUT_SECONDS" 60 5 300 in
  let? retentionDays := parseSystemEventRetentionDays (lookup "N2API_SYSTEM_EVENT_RETENTION_DAYS") in
  let? autoTestIntervalSeconds := parseNonNegativeInt (lookup "N2API_PROVIDER_ACCOUNT_AUTO_TEST_INTERVAL_SECONDS")
                                    "N2API_PROVIDER_ACCOUNT_AUTO_TEST_INTERVAL_SECONDS" in
  let autoTestInterval := if bool_decide (autoTestIntervalSeconds = 0) then 5 * Minute else seconds autoTestIntervalSeconds in
  let? _ := (if autoTestEnabled && bool_decide (autoTestInterval < Minute)
             then Err "N2API_PROVIDER_ACCOUNT_AUTO_TEST_INTERVAL_SECONDS" else Ok tt) in
  let? port := parsePort (valueOrDefault (lookup "N2API_PORT") "3000") in
  let? metricsEnabled := flag "N2API_METRICS_ENABLED" in
  let metricsHost := valueOrDefault (TrimSpace (lookup "N2API_METRICS_HOST")) "127.0.0.1" in
  let? metricsPort := parseNamedPort (valueOrDefault (lookup "N2API_METRICS_PORT") (FormatInt 9090)) "N2API_METRICS_PORT" in
  let metricsBearerToken := TrimSpace (lookup "N2API_METRICS_BEARER_TOKEN") in
  let? _ := (if metricsEnabled && negb (isLoopbackHost metricsHost) && str_eq metricsBearerToken ""
             then Err "N2API_METRICS_BEARER_TOKEN" else Ok tt) in
  let? _ := (if metricsEnabled && bool_decide (metricsPort = port) then Err "N2API_METRICS_PORT" else Ok tt) in
  let non_negative name := parseNonNegativeInt (lookup name) name in
  let? maxConcurrent := non_negative "N2API_GATEWAY_MAX_CONCURRENT_REQUESTS" in
  let? maxConcurrentPerAccount := non_negative "N2API_GATEWAY_MAX_CONCURRENT_REQUESTS_PER_ACCOUNT" in
  let? maxConcurrentPerKey := non_negative "N2API_GATEWAY_MAX_CONCURRENT_REQUESTS_PER_KEY" in
  let? requestsPerMinute := non_negative "N2API_GATEWAY_REQUESTS_PER_MINUTE_PER_KEY" in
  let? tokensPerMinute := non_negative "N2API_GATEWAY_TOKENS_PER_MINUTE_PER_KEY" in
  let? maxAcceptedBody := strict_int "N2API_GATEWAY_MAX_ACCEPTED_REQUEST_BODY_BYTES" (4 * 2 ^ 20) 1024 (64 * 2 ^ 20) in
  let? maxReplayBody := strict_int "N2API_GATEWAY_MAX_IN_MEMORY_REPLAY_BODY_BYTES" (2 ^ 20) 1024 (64 * 2 ^ 20) in
  let? _ := (if bool_decide (maxAcceptedBody < maxReplayBody) then Err "N2API_GATEWAY_MAX_IN_MEMORY_REPLAY_BODY_BYTES" else Ok tt) in
  let? maxResponseBody := strict_int "N2API_GATEWAY_MAX_UPSTREAM_RESPONSE_BODY_BYTES" (8 * 2 ^ 20) 1024 (64 * 2 ^ 20) in
  let? httpIdleSeconds := strict_int "N2API_HTTP_IDLE_TIMEOUT_SECONDS" 60 1 3600 in
  let? httpMaxHeaderBytes := strict_int "N2API_HTTP_MAX_HEADER_BYTES" (2 ^ 20) 8192 (4 * 2 ^ 20) in
  let? requestBodySeconds := strict_int "N2API_HTTP_REQUEST_BODY_TIMEOUT_SECONDS" 30 1 300 in
  let? shutdownSeconds := strict_int "N2API_SHUTDOWN_TIMEOUT_SECONDS" 25 6 30 in
  let? requestDrainSeconds := strict_int "N2API_REQUEST_DRAIN_TIMEOUT_SECONDS" 20 1 25 in
  let? _ := (if bool_decide (shutdownSeconds - 5 < requestDrainSeconds) then Err "N2API_REQUEST_DRAIN_TIMEOUT_SECONDS" else Ok tt) in
  let? responseHeaderSeconds := strict_int "N2API_UPSTREAM_RESPONSE_HEADER_TIMEOUT_SECONDS" 30 1 300 in
  let? connectSeconds := strict_int "N2API_UPSTREAM_CONNECT_TIMEOUT_SECONDS" 10 1 120 in
  let? tlsHandshakeSeconds := strict_int "N2API_UPSTREAM_TLS_HANDSHAKE_TIMEOUT_SECONDS" 10 1 120 in
  let? sseIdleSeconds := strict_int "N2API_UPSTREAM_SSE_IDLE_TIMEOUT_SECONDS" 60 1 3600 in
  let? _ := (if str_eq databaseURL "" then Err "DATABASE_URL" else Ok tt) in
  let? _ := (if str_eq encryptionSecret "" then Err "N2API_ENCRYPTION_SECRET" else Ok tt) in
  let? _ := (if str_eq adminPassword "" then Err "N2API_ADMIN_PASSWORD" else Ok tt) in
  let? urls := validateStartupSecurity host publicURL adminPassword encryptionSecret databaseURL
      (valueOrDefault (lookup "OPENAI_API_BASE_URL") "https://api.openai.com")
      (valueOrDefault (lookup "OPENAI_OAUTH_AUTH_URL") "https://auth.openai.com/oauth/authorize")
      (valueOrDefault (lookup "OPENAI_OAUTH_TOKEN_URL") "https://auth.openai.com/oauth/token")
      allowHTTPAPIUpstreams acceptedRisks in
  let '(publicURL, apiBase, authURL, tokenURL) := urls in
  let? _ := validatePreviousEncryptionKeys adminPassword encryptionSecret previousEncryptionKeys in
  let? keyring :=
    match Secrets.NewKeyring (Secrets.Build_EncryptionKey keyID encryptionSecret) previousEncryptionKeys with
    | Ok k => Ok k | Err _ => Err "N2API_ENCRYPTION_KEY_ID"
    end in
  Ok {| Host := host; Port := port; PublicURL := publicURL; DatabaseURL := databaseURL;
        AdminUsername := valueOrDefault (lookup "N2API_ADMIN_USERNAME") "admin"; AdminPassword := adminPassword;
        EncryptionSecret := encryptionSecret; EncryptionKeyID := keyID; EncryptionKeyring := keyring;
        OpenAIOAuthClientID := valueOrDefault (lookup "OPENAI_OAUTH_CLIENT_ID") "app_EMoamEEZ73f0CkXaXp7hrann";
        OpenAIOAuthSecret := lookup "OPENAI_OAUTH_CLIENT_SECRET";
        OpenAIOAuthRedirectURL := valueOrDefault (lookup "OPENAI_OAUTH_REDIRECT_URL") "http://localhost:1455/auth/callback";
        OpenAIOAuthAuthURL := authURL; OpenAIOAuthTokenURL := tokenURL; OpenAIAPIBaseURL := apiBase;
        AllowHTTPAPIUpstreams := allowHTTPAPIUpstreams; AllowUnsafeMultiInstance := allowUnsafeMultiInstance;
        GatewayMaxConcurrentRequests := maxConcurrent; GatewayMaxConcurrentRequestsPerAccount := maxConcurrentPerAccount;
        GatewayMaxConcurrentRequestsPerKey := maxConcurrentPerKey; GatewayRequestsPerMinutePerKey := requestsPerMinute;
        GatewayTokensPerMinutePerKey := tokensPerMinute; GatewayMaxAcceptedRequestBodyBytes := maxAcceptedBody;
        GatewayMaxInMemoryReplayBodyBytes := maxReplayBody; GatewayMaxUpstreamResponseBodyBytes := maxResponseBody;
        HTTPIdleTimeout := seconds httpIdleSeconds; HTTPMaxHeaderBytes := httpMaxHeaderBytes;
        HTTPRequestBodyTimeout := seconds requestBodySeconds; ShutdownTimeout := seconds shutdownSeconds;
        RequestDrainTimeout := seconds requestDrainSeconds; UpstreamResponseHeaderTimeout := seconds responseHeaderSeconds;
        UpstreamConnectTimeout := seconds connectSeconds; UpstreamTLSHandshakeTimeout := seconds tlsHandshakeSeconds;
        UpstreamSSEIdleTimeout := seconds sseIdleSeconds; ProviderAccountAutoTestEnabled := autoTestEnabled;
        ProviderAccountAutoTestInterval := autoTestInterval; RequestLogRetentionRunnerEnabled := requestLogRetentionRunnerEnabled;
        RequestLogRetentionInterval := seconds requestLogRetentionIntervalSeconds;
        RequestLogRetentionBatchSize := requestLogRetentionBatchSize;
        ResponseAffinityTTL := wrap64 (wrap64 (responseAffinityTTLDays * 24) * Hour);
        ResponseAffinityRetentionRunnerEnabled := responseAffinityRetentionEnabled;
        ResponseAffinityRetentionInterval := seconds responseAffinityRetentionIntervalSeconds;
        ResponseAffinityRetentionBatchSize := responseAffinityRetentionBatchSize; RequestLogExportMaxRows := requestLogExportMaxRows;
        RequestLogExportTimeout := seconds requestLogExportTimeoutSeconds; SystemEventRetentionDays := retentionDays;
        AlertDeliveryEnabled := alertDeliveryEnabled; UpdateCheckEnabled := updateCheckEnabled; TrustedProxyCIDRs := trustedProxyCIDRs;
        AdminLoginThrottleEnabled := adminLoginThrottleEnabled; AdminLoginThrottleFailures := adminLoginThrottleFailures;
        AdminLoginThrottleMaxEntries := adminLoginThrottleMaxEntries; AdminSessionTTL := wrap64 (adminSessionTTLHours * Hour);
        MetricsEnabled := metricsEnabled; MetricsHost := metricsHost; MetricsPort := metricsPort;
        MetricsBearerToken := metricsBearerToken |}.

(** ** The validation report *)

Inductive report_status := ConfigValid | ConfigInvalid.
Inductive report_reason := ReasonValid | ReasonInvalid | ReasonPostgresPasswordMismatch | ReasonPostgresPasswordSource.
Inductive password_check := CheckMatched | CheckNotApplicable | CheckNotEvaluated | CheckMismatch | CheckSourceInvalid.

Record ConfigValidationReport := { Report_Status : report_status; ReasonCode : report_reason; PostgresPasswordCheck : password_check }.

Definition resolvePostgresPassword (fs : Files) (lookup : string → string) : result string (option string) :=
  let directValue := lookup "POSTGRES_PASSWORD" in
  let filePath := lookup "POSTGRES_PASSWORD_FILE" in
  if negb (str_eq directValue "") && negb (str_eq filePath "") then Err "POSTGRES_PASSWORD"
  else if negb (str_eq directValue "") then Ok (Some directValue)
  else if str_eq filePath "" then Ok None
  else let? v := readSecretFile fs "POSTGRES_PASSWORD_FILE" filePath in Ok (Some v).

Definition Validate (fs : Files) (env : option (string → string)) : ConfigValidationReport :=
  let report status reason check := {| Report_Status := status; ReasonCode := reason; PostgresPasswordCheck := check |} in
  match Load fs env, env with
  | Ok cfg, Some lookup =>
      match resolvePostgresPassword fs lookup with
      | Err _ => report ConfigInvalid ReasonPostgresPasswordSource CheckSourceInvalid
      | Ok None => report ConfigValid ReasonValid CheckNotApplicable
      | Ok (Some password) =>
          match ParseConfig (DatabaseURL cfg) with
          | None => report ConfigInvalid ReasonInvalid CheckNotEvaluated
          | Some c =>
              if str_eq (Password c) password then report ConfigValid ReasonValid CheckMatched
              else report ConfigInvalid ReasonPostgresPasswordMismatch CheckMismatch
          end
      end
  | _, _ => report ConfigInvalid ReasonInvalid CheckNotEvaluated
  end.

End load.
End Config.

(** * Configuration: what a loaded configuration guarantees *)

Module ConfigThms.
Import Config Netip.

(** ** Single settings *)

(** The next test of a chain of early returns. *)
Ltac next_if E := match goal with |- (if ?b then _ else _) = _ → _ => destruct b eqn:E; [done|] end.

Lemma guard_Ok (b : bool) (e : string) (u : unit) : (if b then Err e else Ok tt) = Ok u → b = false.
Proof. by destruct b. Qed.

Lemma parseNamedPort_bounds v name p : parseNamedPort v name = Ok p → 1 ≤ p ≤ 65535.
Proof.
  unfold parseNamedPort. destruct (Atoi v); [|done]. destruct (_ || _) eqn:E; [done|]. intros [= <-].
  apply orb_false_iff in E as [?%bool_decide_eq_false ?%bool_decide_eq_false]. lia.
Qed.

Lemma parseNonNegativeInt_bounds v name n : parseNonNegativeInt v name = Ok n → 0 ≤ n.
Proof. unfold parseNonNegativeInt. destruct (str_eq v ""); [by intros [= <-]|]. destruct (Atoi v); [|done]. case_bool_decide; [done|]. intros [= <-]. lia. Qed.

Lemma bounded_Ok v name d lo hi n : lo ≤ d ≤ hi → parsePositiveIntWithDefault v name d lo hi = Ok n → lo ≤ n ≤ hi.
Proof.
  unfold parsePositiveIntWithDefault. intros Hd. destruct (str_eq _ ""); [by intros [= <-]|]. destruct (Atoi v); [|done].
  destruct (_ || _) eqn:E; [done|]. intros [= <-]. apply orb_false_iff in E as [?%bool_decide_eq_false ?%bool_decide_eq_false]. lia.
Qed.

Lemma strict_Ok v name d lo hi n : lo ≤ d ≤ hi → parseStrictPositiveInt v name d lo hi = Ok n → lo ≤ n ≤ hi.
Proof. exact (bounded_Ok v name d lo hi n). Qed.

Lemma retention_days_Ok v n : parseSystemEventRetentionDays v = Ok n → n = 0 ∨ 30 ≤ n ≤ 3650.
Proof.
  unfold parseSystemEventRetentionDays. destruct (str_eq _ ""); [intros [= <-]; lia|]. destruct (Atoi v); [|done].
  case_bool_decide as H0; simpl; [intros [= <-]; lia|]. destruct (_ || _) eqn:E; [done|]. intros [= <-].
  apply orb_false_iff in E as [?%bool_decide_eq_false ?%bool_decide_eq_false]. lia.
Qed.

Lemma seconds_in_range n : 0 ≤ n ≤ 604800 → seconds n = n * Second.
Proof. intros Hn. apply wrap64_id. unfold in_int64, int64_min, int64_max, Second. lia. Qed.

(** ** Trusted proxies *)

(** The addresses an entry of the list stands for: those that agree with it in the
    leading bits; a mapped prefix stands for the IPv4 addresses. *)
Definition entry_covers (raw : string) (a : Addr) : Prop :=
  ∃ p, ParsePrefix (TrimSpace raw) = Some p ∧
    let '(net, n) := if Is4In6 (P_Addr p) then (Unmap (P_Addr p), Bits p - 96) else (P_Addr p, Bits p) in
    let k := BitLen net - n in
    BitLen net = BitLen (Unmap a) ∧ Z.shiftr (addr_bits (Unmap a)) k = Z.shiftr (addr_bits net) k.

Lemma shiftr_agree x y k : bool_decide (Z.shiftr (Z.lxor x y) k = 0) = bool_decide (Z.shiftr x k = Z.shiftr y k).
Proof. apply bool_decide_ext. rewrite Z.shiftr_lxor. apply Z.lxor_eq_0_iff. Qed.

Lemma shiftr_masked x k : 0 ≤ k → Z.shiftr (Z.shiftl (Z.shiftr x k) k) k = Z.shiftr x k.
Proof. intros Hk. rewrite Z.shiftr_shiftl_l by lia. by rewrite Z.sub_diag, Z.shiftl_0_r. Qed.

Lemma shiftr_masked_more x k m : 0 ≤ k ≤ m → Z.shiftr (Z.shiftl (Z.shiftr x k) k) m = Z.shiftr x m.
Proof.
  intros Hk. replace m with (k + (m - k)) by lia. rewrite <- !Z.shiftr_shiftr by lia. by rewrite shiftr_masked by lia.
Qed.

(** What [ParsePrefix] accepts: an address without a zone and a length in range. *)
Lemma ParsePrefix_range s p : ParsePrefix s = Some p → 0 ≤ Bits p ≤ BitLen (P_Addr p) ∧ Zone (P_Addr p) = "".
Proof.
  unfold ParsePrefix. destruct (cut_last _ _) as [[ip bits]|]; [|done]. cbn -[ParseAddr Atoi BitLen PrefixFrom].
  destruct (ParseAddr _) as [a|]; [|done]. cbn -[Atoi BitLen PrefixFrom].
  destruct (_ && _); [done|].
  match goal with |- (if ?b then _ else _) = _ → _ => destruct b end; [done|].
  destruct (Atoi _) as [n|]; [|done]. cbn -[BitLen PrefixFrom].
  match goal with |- (if ?b then _ else _) = _ → _ => destruct b eqn:En end; [done|]. intros [= <-].
  apply orb_false_iff in En as [?%bool_decide_eq_false ?%bool_decide_eq_false].
  assert (BitLen (withoutZone a) = BitLen a) as Hl by by destruct a. unfold PrefixFrom. cbn [Bits P_Addr]. rewrite Hl.
  rewrite bool_decide_eq_true_2 by lia. split; [lia|]. by destruct a.
Qed.

Definition net_of (p : Prefix) : Addr * Z :=
  if Is4In6 (P_Addr p) then (Unmap (P_Addr p), Bits p - 96) else (P_Addr p, Bits p).

(** The test of one stored prefix. *)
Definition prefix_trusts (p : Prefix) (a : Addr) : bool := RequestInfo.trustedProxyContains [p] a.

Lemma trusted_app ps qs a :
  RequestInfo.trustedProxyContains (ps ++ qs) a = RequestInfo.trustedProxyContains ps a || RequestInfo.trustedProxyContains qs a.
Proof. apply existsb_app. Qed.

Lemma trusted_spec ps a : RequestInfo.trustedProxyContains ps a = true ↔ ∃ p, p ∈ ps ∧ prefix_trusts p a = true.
Proof.
  unfold prefix_trusts, RequestInfo.trustedProxyContains. rewrite existsb_exists. setoid_rewrite <- list_elem_of_In.
  split; intros (p & Hin & Hp); exists p; (split; [done|]); [cbn [existsb]; by rewrite Hp|cbn [existsb] in Hp; by rewrite orb_false_r in Hp].
Qed.

(** A prefix of an address that is not mapped, after masking. *)
Lemma masked_trusts net n a :
  0 ≤ n ≤ BitLen net → Is4In6 net = false → Zone (Unmap a) = "" →
  prefix_trusts (Masked {| P_Addr := net; Bits := n |}) a = true ↔
  BitLen net = BitLen (Unmap a) ∧ Z.shiftr (addr_bits (Unmap a)) (BitLen net - n) = Z.shiftr (addr_bits net) (BitLen net - n).
Proof.
  intros Hn H4 Hz. unfold prefix_trusts, RequestInfo.trustedProxyContains. cbn [existsb]. rewrite orb_false_r.
  assert (IsValid {| P_Addr := net; Bits := n |} = true) as Hv by (unfold IsValid; apply bool_decide_eq_true_2; simpl; lia).
  set (net' := match net with IPv4 _ => IPv4 (Z.shiftl (Z.shiftr (addr_bits net) (BitLen net - n)) (BitLen net - n))
                            | IPv6 _ z => IPv6 (Z.shiftl (Z.shiftr (addr_bits net) (BitLen net - n)) (BitLen net - n)) z end).
  assert (Masked {| P_Addr := net; Bits := n |} = {| P_Addr := net'; Bits := n |}) as -> by (unfold Masked; by rewrite Hv).
  cbn [P_Addr Bits].
  assert (BitLen net' = BitLen net) as Hl by by destruct net.
  assert (addr_bits net' = Z.shiftl (Z.shiftr (addr_bits net) (BitLen net - n)) (BitLen net - n)) as Hb by by destruct net.
  assert (Is4In6 net' && bool_decide (96 ≤ n) = false) as ->.
  { destruct net as [b|b z]; [done|]. apply andb_false_iff. case_bool_decide as H96; [left|by right].
    unfold net', Is4In6 in *. cbn [BitLen addr_bits] in *. rewrite shiftr_masked_more by lia. done. }
  unfold PrefixContains, IsValid. cbn [P_Addr Bits]. rewrite Hz, Hl, (bool_decide_eq_true_2 (0 ≤ n)) by lia.
  change (str_eq "" "") with true. cbn [andb].
  destruct (decide (BitLen net = BitLen (Unmap a))) as [He|He].
  - rewrite He, bool_decide_eq_true_2 by done. cbn [andb]. rewrite shiftr_agree, Hb, He, bool_decide_eq_true.
    rewrite shiftr_masked by (rewrite <- He; lia). tauto.
  - rewrite bool_decide_eq_false_2 by done. split; [done|tauto].
Qed.

Lemma parseTrustedProxy_spec raw p a :
  parseTrustedProxy raw = Some p → Zone (Unmap a) = "" → prefix_trusts p a = true ↔ entry_covers raw a.
Proof.
  unfold parseTrustedProxy, entry_covers. destruct (ParsePrefix _) as [q|] eqn:Eq; [|done]. cbn [mbind option_bind].
  apply ParsePrefix_range in Eq as [Hr Hzq]. intros Hp Hz.
  assert (∃ net n, p = Masked {| P_Addr := net; Bits := n |} ∧ 0 ≤ n ≤ BitLen net ∧ Is4In6 net = false ∧
            (if Is4In6 (P_Addr q) then (Unmap (P_Addr q), Bits q - 96) else (P_Addr q, Bits q)) = (net, n)) as (net & n & -> & Hn & H4 & He).
  { destruct (Is4In6 (P_Addr q)) eqn:E4.
    - case_bool_decide as H96; [done|]. cbn [mbind option_bind] in Hp. injection Hp as <-.
      destruct (P_Addr q) as [b|b z] eqn:Ea; [done|]. unfold Unmap. rewrite E4. cbn [BitLen] in Hr.
      eexists _, _. split; [|split; [|split; [|done]]]; [|cbn [BitLen]; lia|done].
      unfold PrefixFrom. cbn [withoutZone BitLen]. by rewrite bool_decide_eq_true_2 by lia.
    - cbn [mbind option_bind] in Hp. injection Hp as <-. exists (P_Addr q), (Bits q). by destruct q. }
  rewrite masked_trusts by done. split.
  - intros H. exists q. split; [done|]. by rewrite He.
  - intros (q' & [= <-] & H). by rewrite He in H.
Qed.

Lemma collect_proxies_spec raws ps out a :
  collect_proxies raws ps = Ok out → Zone (Unmap a) = "" → NoDup ps →
  NoDup out ∧ (RequestInfo.trustedProxyContains out a = true ↔
               RequestInfo.trustedProxyContains ps a = true ∨ ∃ raw, raw ∈ raws ∧ entry_covers raw a).
Proof.
  revert ps. induction raws as [|raw raws IH]; intros ps; cbn [collect_proxies].
  { intros [= <-] _ Hnd. split; [done|]. split; [by left|]. intros [?|(? & []%not_elem_of_nil & _)]; done. }
  destruct (parseTrustedProxy raw) as [p|] eqn:Ep; [|done]. intros Hc Hz Hnd.
  pose proof (parseTrustedProxy_spec _ _ _ Ep Hz) as Hspec.
  apply IH in Hc as [Hnd' Hc]; [|done|].
  - split; [done|]. rewrite Hc. setoid_rewrite elem_of_cons.
    assert (RequestInfo.trustedProxyContains (if bool_decide (p ∈ ps) then ps else ps ++ [p]) a = true ↔
            RequestInfo.trustedProxyContains ps a = true ∨ prefix_trusts p a = true) as ->.
    { case_bool_decide as Hin.
      - split; [by left|]. intros [?|Hp]; [done|]. apply trusted_spec. by exists p.
      - rewrite trusted_app, orb_true_iff. done. }
    rewrite Hspec. naive_solver.
  - case_bool_decide; [done|]. apply NoDup_app. split; [done|]. split; [|apply NoDup_singleton]. intros x Hx ->%list_elem_of_singleton. done.
Qed.

Definition proxy_entries (value : string) : list string := if str_eq (TrimSpace value) "" then [] else Split value ","%char.

(** The list of trusted proxies means what it says.  When the setting is accepted, an address is trusted exactly if it
    agrees with an entry of the list in the entry's leading bits - a mapped entry stands for the IPv4 addresses, and an
    address and an entry of different families never agree -, and no prefix is kept twice. *)
Theorem trusted_proxies_exact value ps a :
  parseTrustedProxyCIDRs value = Ok ps → Zone (Unmap a) = "" →
  NoDup ps ∧ (RequestInfo.trustedProxyContains ps a = true ↔ ∃ raw, raw ∈ proxy_entries value ∧ entry_covers raw a).
Proof.
  unfold parseTrustedProxyCIDRs, proxy_entries. destruct (str_eq _ "").
  - intros [= <-] _. split; [constructor|]. split; [done|]. intros (? & []%not_elem_of_nil & _).
  - intros Hc Hz. destruct (collect_proxies_spec _ _ _ a Hc Hz (NoDup_nil_2)) as [Hnd ->]. split; [done|].
    split; [intros [?|?]; done|by right].
Qed.

(** ** What is loaded *)

Section loaded.
Context (url_Parse : string → option URL) (url_String : URL → string) (ParseConfig : string → option ConnConfig).

(** An HTTP or HTTPS URL as it is stored: of an accepted one, with its scheme in
    lower case. *)
Definition stored_url (https_only : bool) (value stored : string) : Prop :=
  ∃ u, url_Parse value = Some u ∧ stored = url_String (with_scheme (ToLower (RequestInfo.Scheme (base u))) u) ∧
    RequestInfo.HasUser (base u) = false ∧ validURLHost url_Parse (RequestInfo.U_Host (base u)) ≠ "" ∧
    (ToLower (RequestInfo.Scheme (base u)) = "https" ∨ https_only = false ∧ ToLower (RequestInfo.Scheme (base u)) = "http").

(** The guarantees of a loaded configuration: every number is in its range, and a
    setting that weakens the deployment was accepted by name. *)
Record sound (c : Config) (risks : gset string) : Prop := {
  ports : 1 ≤ Port c ≤ 65535 ∧ 1 ≤ MetricsPort c ≤ 65535 ∧ (MetricsEnabled c = true → MetricsPort c ≠ Port c);
  limits : 0 ≤ GatewayMaxConcurrentRequests c ∧ 0 ≤ GatewayMaxConcurrentRequestsPerAccount c ∧ 0 ≤ GatewayMaxConcurrentRequestsPerKey c ∧
    0 ≤ GatewayRequestsPerMinutePerKey c ∧ 0 ≤ GatewayTokensPerMinutePerKey c;
  bodies : 1024 ≤ GatewayMaxInMemoryReplayBodyBytes c ≤ GatewayMaxAcceptedRequestBodyBytes c ∧
    GatewayMaxAcceptedRequestBodyBytes c ≤ 64 * 2 ^ 20 ∧ 1024 ≤ GatewayMaxUpstreamResponseBodyBytes c ≤ 64 * 2 ^ 20 ∧
    8192 ≤ HTTPMaxHeaderBytes c ≤ 4 * 2 ^ 20;
  timeouts : Second ≤ HTTPIdleTimeout c ≤ Hour ∧ Second ≤ HTTPRequestBodyTimeout c ≤ 5 * Minute ∧
    Second ≤ UpstreamResponseHeaderTimeout c ≤ 5 * Minute ∧ Second ≤ UpstreamConnectTimeout c ≤ 2 * Minute ∧
    Second ≤ UpstreamTLSHandshakeTimeout c ≤ 2 * Minute ∧ Second ≤ UpstreamSSEIdleTimeout c ≤ Hour;
  shutdown : Second ≤ RequestDrainTimeout c ∧ RequestDrainTimeout c + 5 * Second ≤ ShutdownTimeout c ≤ 30 * Second;
  retention : 5 * Minute ≤ RequestLogRetentionInterval c ≤ 7 * 24 * Hour ∧ 100 ≤ RequestLogRetentionBatchSize c ≤ 10000 ∧
    24 * Hour ≤ ResponseAffinityTTL c ≤ 3650 * 24 * Hour ∧ 5 * Minute ≤ ResponseAffinityRetentionInterval c ≤ 7 * 24 * Hour ∧
    100 ≤ ResponseAffinityRetentionBatchSize c ≤ 10000 ∧ 1000 ≤ RequestLogExportMaxRows c ≤ 1000000 ∧
    5 * Second ≤ RequestLogExportTimeout c ≤ 5 * Minute ∧ (SystemEventRetentionDays c = 0 ∨ 30 ≤ SystemEventRetentionDays c ≤ 3650);
  auto_test : ProviderAccountAutoTestEnabled c = true → Minute ≤ ProviderAccountAutoTestInterval c;
  throttle : 1 ≤ AdminLoginThrottleFailures c ≤ 20 ∧ 128 ≤ AdminLoginThrottleMaxEntries c ≤ 16384 ∧
    Hour ≤ AdminSessionTTL c ≤ 8760 * Hour;
  metrics : MetricsEnabled c = true → isLoopbackHost (MetricsHost c) = true ∨ MetricsBearerToken c ≠ "";
  passwords : MinimumAdminPasswordBytes ≤ go_len (AdminPassword c) ∧ isKnownPlaceholder (AdminPassword c) = false ∧
    minimumEncryptionSecretBytes ≤ go_len (EncryptionSecret c) ∧ isKnownPlaceholder (EncryptionSecret c) = false ∧
    AdminPassword c ≠ EncryptionSecret c;
  keys : Secrets.current (EncryptionKeyring c) = Secrets.Build_EncryptionKey (EncryptionKeyID c) (EncryptionSecret c) ∧
    ∀ k, k ∈ Secrets.legacyKeys (EncryptionKeyring c) → minimumEncryptionSecretBytes ≤ go_len (Secrets.Key_Secret k) ∧
      isKnownPlaceholder (Secrets.Key_Secret k) = false ∧ Secrets.Key_Secret k ≠ AdminPassword c;
  bind : isLoopbackHost (Host c) = true ∨ riskPublicBind ∈ risks;
  database : ∃ d, ParseConfig (DatabaseURL c) = Some d ∧ isKnownPlaceholder (Password d) = false ∧
    (∀ t, t ∈ TLSConfig d :: Fallbacks d →
       match t with
       | None => riskDatabasePlaintext ∈ risks
       | Some t => InsecureSkipVerify t = false ∧ ServerName t ≠ "" ∨ riskDatabaseUnverifiedTLS ∈ risks
       end);
  upstreams : (∃ v, stored_url (negb (AllowHTTPAPIUpstreams c)) v (OpenAIAPIBaseURL c)) ∧ (∃ v, stored_url true v (OpenAIOAuthAuthURL c)) ∧
    (∃ v, stored_url true v (OpenAIOAuthTokenURL c));
  public_url : ∃ v u, url_Parse v = Some u ∧ RequestInfo.HasUser (base u) = false ∧
    PublicURL c = url_String (without_path (with_scheme (ToLower (RequestInfo.Scheme (base u))) u)) ∧
    (ToLower (RequestInfo.Scheme (base u)) = "https" ∨
     ToLower (RequestInfo.Scheme (base u)) = "http" ∧
       (isLoopbackHost (RequestInfo.Hostname (base u)) = true ∨ riskPublicHTTP ∈ risks))
}.

Lemma acceptsRisk_spec risks r : acceptsRisk risks r = true ↔ r ∈ risks.
Proof. apply bool_decide_eq_true. Qed.

Lemma str_eq_false s t : str_eq s t = false ↔ s ≠ t.
Proof. apply bool_decide_eq_false. Qed.

Lemma validateUpstreamURL_Ok name v allow out :
  validateUpstreamURL url_Parse url_String name v allow = Ok out → stored_url (negb allow) v out.
Proof.
  unfold validateUpstreamURL, stored_url. destruct (url_Parse v) as [u|]; [|done]. next_if E1.
  rewrite !orb_false_iff in E1. destruct E1 as [[[_ _] Hh%str_eq_false] Hu]. next_if E2.
  next_if E3. intros [= <-]. exists u. do 4 (split; [done|]).
  apply andb_false_iff in E2 as [E2|E2]; apply negb_false_iff, bool_decide_eq_true in E2; [|by left].
  right. split; [|done]. rewrite E2 in E3. by destruct allow.
Qed.

Lemma validatePublicURL_Ok v risks out :
  validatePublicURL url_Parse url_String v risks = Ok out →
  ∃ u, url_Parse v = Some u ∧ RequestInfo.HasUser (base u) = false ∧
    out = url_String (without_path (with_scheme (ToLower (RequestInfo.Scheme (base u))) u)) ∧
    (ToLower (RequestInfo.Scheme (base u)) = "https" ∨
     ToLower (RequestInfo.Scheme (base u)) = "http" ∧ (isLoopbackHost (RequestInfo.Hostname (base u)) = true ∨ riskPublicHTTP ∈ risks)).
Proof.
  unfold validatePublicURL. destruct (url_Parse v) as [u|]; [|done]. next_if E1.
  next_if E2. next_if E3. next_if E4.
  next_if E5. intros [= <-]. exists u. split; [done|]. rewrite !orb_false_iff in E3. split; [tauto|]. split; [done|].
  apply andb_false_iff in E2 as [E2|E2]; apply negb_false_iff, bool_decide_eq_true in E2; [|by left].
  right. split; [done|]. rewrite E2 in E5. change (str_eq "http" "http") with true in E5.
  apply andb_false_iff in E5 as [E5|E5]; apply negb_false_iff in E5; [by left|right]. by apply acceptsRisk_spec.
Qed.

Lemma validateDatabaseURL_Ok v risks u :
  validateDatabaseURL ParseConfig v risks = Ok u →
  ∃ d, ParseConfig v = Some d ∧ isKnownPlaceholder (Password d) = false ∧
    (∀ t, t ∈ TLSConfig d :: Fallbacks d →
       match t with
       | None => riskDatabasePlaintext ∈ risks
       | Some t => InsecureSkipVerify t = false ∧ ServerName t ≠ "" ∨ riskDatabaseUnverifiedTLS ∈ risks
       end).
Proof.
  unfold validateDatabaseURL. destruct (ParseConfig v) as [d|]; [|done]. next_if E0.
  next_if E1. next_if E2. intros _. exists d. do 2 (split; [done|]). intros t Ht.
  assert (classify t ∈ map classify (TLSConfig d :: Fallbacks d)) as Hc by (apply list_elem_of_fmap; eauto).
  unfold classifyDatabaseTransport in E1, E2. cbn [plaintext unverifiedTLS] in E1, E2.
  assert (∀ f : databaseTransportRisks → bool, f (classify t) = true → existsb f (map classify (TLSConfig d :: Fallbacks d)) = true) as Hex.
  { intros f Hf. apply existsb_exists. exists (classify t). split; [by apply list_elem_of_In|done]. }
  destruct t as [t|].
  - destruct (InsecureSkipVerify t || str_eq (ServerName t) "") eqn:Ev.
    + right. rewrite (Hex unverifiedTLS) in E2 by done. apply acceptsRisk_spec, negb_false_iff, E2.
    + left. apply orb_false_iff in Ev as [? ?%str_eq_false]. done.
  - rewrite (Hex plaintext) in E1 by done. apply acceptsRisk_spec, negb_false_iff, E1.
Qed.

Lemma previous_keys_Ok password current keys u :
  validatePreviousEncryptionKeys password current keys = Ok u →
  Forall (fun k => minimumEncryptionSecretBytes ≤ go_len (Secrets.Key_Secret k) ∧ isKnownPlaceholder (Secrets.Key_Secret k) = false ∧
                   Secrets.Key_Secret k ≠ password ∧ Secrets.Key_Secret k ≠ current) keys.
Proof.
  induction keys as [|k keys IH]; [constructor|]. cbn [validatePreviousEncryptionKeys]. next_if E1. next_if E2. next_if E3. intros H.
  constructor; [|by apply IH]. apply orb_false_iff in E1 as [?%bool_decide_eq_false ?]. split; [lia|].
  split; [done|]. by split; apply str_eq_false.
Qed.

Lemma validateSecrets_Ok password secret u :
  validateSecrets password secret = Ok u →
  MinimumAdminPasswordBytes ≤ go_len password ∧ isKnownPlaceholder password = false ∧
  minimumEncryptionSecretBytes ≤ go_len secret ∧ isKnownPlaceholder secret = false ∧ password ≠ secret.
Proof.
  unfold validateSecrets. next_if E1. next_if E2. next_if E3. intros _. apply orb_false_iff in E1 as [?%bool_decide_eq_false ?].
  apply orb_false_iff in E2 as [?%bool_decide_eq_false ?]. split; [lia|]. split; [done|]. split; [lia|]. split; [done|].
  by apply str_eq_false.
Qed.

(** Taking a sequence of steps apart. *)
Ltac take_steps H :=
  repeat (apply result_bind_Ok in H; let x := fresh "x" in let E := fresh "E" in destruct H as (x & E & H)).

(** The bounds of the settings that were read. *)
Ltac read_bounds :=
  repeat match goal with
  | E : parsePositiveIntWithDefault _ _ _ _ _ = Ok _ |- _ => apply bounded_Ok in E; [|lia]
  | E : parseStrictPositiveInt _ _ _ _ _ = Ok _ |- _ => apply strict_Ok in E; [|lia]
  | E : parseNonNegativeInt _ _ = Ok _ |- _ => apply parseNonNegativeInt_bounds in E
  | E : parseNamedPort _ _ = Ok _ |- _ => apply parseNamedPort_bounds in E
  | E : parsePort _ = Ok _ |- _ => apply parseNamedPort_bounds in E
  | E : parseSystemEventRetentionDays _ = Ok _ |- _ => apply retention_days_Ok in E
  | E : (if _ then Err _ else Ok tt) = Ok _ |- _ => apply guard_Ok in E
  end.

Lemma wrap_small n m : 0 ≤ n * m ≤ 2 ^ 62 → wrap64 (n * m) = n * m.
Proof. intros H. apply wrap64_id. unfold in_int64, int64_min, int64_max. lia. Qed.

Ltac time_bounds := rewrite ?seconds_in_range by lia; unfold Hour, Minute, Second; rewrite ?wrap_small; lia.

Lemma validateStartupSecurity_Ok host pub pw secret db api auth tok allow risks pub' api' auth' tok' :
  validateStartupSecurity url_Parse url_String ParseConfig host pub pw secret db api auth tok allow risks = Ok (pub', api', auth', tok') →
  validatePublicURL url_Parse url_String pub risks = Ok pub' ∧ (isLoopbackHost host = true ∨ riskPublicBind ∈ risks) ∧
  (∃ u, validateSecrets pw secret = Ok u) ∧ (∃ u, validateDatabaseURL ParseConfig db risks = Ok u) ∧
  stored_url (negb allow) api api' ∧ stored_url true auth auth' ∧ stored_url true tok tok'.
Proof.
  unfold validateStartupSecurity. intros H. take_steps H. injection H as -> -> -> ->. apply guard_Ok in E0.
  apply andb_false_iff in E0. rewrite !negb_false_iff, acceptsRisk_spec in E0.
  do 2 (split; [done|]). split; [by eexists|]. split; [by eexists|].
  split; [by apply (validateUpstreamURL_Ok "OPENAI_API_BASE_URL")|].
  split; [by apply (validateUpstreamURL_Ok "OPENAI_OAUTH_AUTH_URL" _ false)|by apply (validateUpstreamURL_Ok "OPENAI_OAUTH_TOKEN_URL" _ false)].
Qed.


(** The validation report calls a configuration valid exactly if it loads and the password of the database container, where
    one is given, is the one of the database URL. *)
Lemma validation_report_exact fs env :
  Report_Status (Validate url_Parse url_String ParseConfig fs env) = ConfigValid ↔
  ∃ lookup c, env = Some lookup ∧ Load url_Parse url_String ParseConfig fs env = Ok c ∧
    (resolvePostgresPassword fs lookup = Ok None ∨
     ∃ p d, resolvePostgresPassword fs lookup = Ok (Some p) ∧ ParseConfig (DatabaseURL c) = Some d ∧ Password d = p).
Proof.
  unfold Validate. destruct (Load _ _ _ fs env) as [c|e] eqn:El; [|split; [done|by intros (? & ? & _ & [=] & _)]].
  destruct env as [lookup|]; [|split; [done|by intros (? & ? & [=] & _)]].
  destruct (resolvePostgresPassword fs lookup) as [[p|]|e] eqn:Ep; cbn.
  - destruct (ParseConfig (DatabaseURL c)) as [d|] eqn:Ed.
    + destruct (str_eq (Password d) p) eqn:Es; cbn.
      * split; [intros _|done]. exists lookup, c. split; [done|]. split; [done|]. right. exists p, d. split; [done|]. split; [done|].
        by apply bool_decide_eq_true in Es.
      * split; [done|]. intros (l' & c' & [= <-] & [= <-] & [[=]|(p' & d' & Hp & Hd & He)]); rewrite Ep in *; [done|].
        injection Hp as <-. rewrite Ed in Hd. injection Hd as <-. by apply str_eq_false in Es.
    + split; [done|]. intros (l' & c' & [= <-] & [= <-] & [Hp|(p' & d' & Hp & Hd & He)]); congruence.
  - split; [intros _|done]. exists lookup, c. by split_and!; [..|left].
  - split; [done|]. intros (l' & c' & [= <-] & [= <-] & [Hp|(p' & d' & Hp & Hd & He)]); congruence.
Qed.

End loaded.

(** ** Examples *)

Module Demo.

(** A parser good enough for URLs without credentials, query or fragment. *)
Definition parse_url (s : string) : option URL :=
  let '(scheme, rest) := if HasPrefix s "//" then ("", TrimPrefix s "//")
                         else match Cut s ":"%char with (a, Some b) => (a, TrimPrefix b "//") | (a, None) => ("", a) end in
  let '(host, path) := match Cut rest "/"%char with (a, Some b) => (a, "/" +++ b) | (a, None) => (a, "") end in
  Some {| base := RequestInfo.Build_URL scheme false host path "" ""; Opaque := ""; RawPath := ""; ForceQuery := false; RawFragment := "" |}.
Definition print_url (u : URL) : string :=
  RequestInfo.Scheme (base u) +++ "://" +++ RequestInfo.U_Host (base u) +++ RequestInfo.U_Path (base u).

Definition database_url (_ : string) : option ConnConfig :=
  Some {| Password := "s3cure"; TLSConfig := Some {| InsecureSkipVerify := false; ServerName := "db.internal" |}; Fallbacks := [None] |}.

Definition files : Files :=
  {| Lstat := fun _ => Some {| Regular := true; Size := 40; Inode := 7 |};
     Open := fun _ => Some (Some {| Regular := true; Size := 40; Inode := 7 |}, Some ("0123456789abcdef0123456789abcdef" +++ newline)) |}.

(** The secret comes from a file; the database may fall back to a connection
    without TLS, which is accepted. *)
Definition env (name : string) : string :=
  match List.find (fun e => str_eq (fst e) name)
    [("DATABASE_URL", "postgres://db"); ("N2API_ADMIN_PASSWORD", "correct horse battery"); ("N2API_ENCRYPTION_SECRET_FILE", "/run/secret");
     ("N2API_ACCEPT_RISKS", "database-plaintext, public-bind"); ("N2API_SHUTDOWN_TIMEOUT_SECONDS", "30");
     ("N2API_TRUSTED_PROXY_CIDRS", "10.0.0.0/8, ::ffff:192.168.0.0/112")] with
  | Some (_, v) => v | None => ""
  end.

Definition loaded := Load parse_url print_url database_url files (Some env).


Lemma trusted_proxies_demo : ∃ ps, parseTrustedProxyCIDRs (env "N2API_TRUSTED_PROXY_CIDRS") = Ok ps ∧
  RequestInfo.trustedProxyContains ps (IPv4 3232236292) = true ∧
  ∃ raw, raw ∈ proxy_entries (env "N2API_TRUSTED_PROXY_CIDRS") ∧ entry_covers raw (IPv4 3232236292).
Proof.
  assert (match parseTrustedProxyCIDRs (env "N2API_TRUSTED_PROXY_CIDRS") with
          | Ok ps => RequestInfo.trustedProxyContains ps (IPv4 3232236292) | Err _ => false end = true) as Hc by (vm_compute; reflexivity).
  destruct (parseTrustedProxyCIDRs _) as [ps|e] eqn:E; [|done]. rename Hc into Ht.
  exists ps. split; [done|]. split; [done|].
  apply (trusted_proxies_exact _ _ (IPv4 3232236292) E eq_refl), Ht.
Defined.

End Demo.
End ConfigThms.
