(* ===== verification/AccountModels.v ===== *)
(** * The models of an account

    What an upstream account can serve: the rows of [provider_account_models],
    with the normalisation of [provider/service.go] and the transactions of
    [store/provider.go] that replace the manual rows, merge in a synced
    catalogue and record tests.  Names are listed in the order of the database's
    collation, a parameter. *)

From stdpp Require Import gmap strings sorting.
From S2P Require Import Prelude GoStrings Account Scheduling ProviderStore OAuth.

Module AccountModels.
Import Account.

(** ** Inputs and their normalisation *)

Record AccountModelInput := { I_Model : string; I_Enabled : bool; I_Metadata : metadata_map }.

Definition AccountModelSourceManual : string := "manual".
Definition AccountModelSourceUpstream : string := "upstream".
Definition AccountModelSourceOAuthCatalog : string := "oauth_catalog".
Definition maxAccountModels : Z := 100.
Definition maxModelNameLen : Z := 128.
Definition maxAccountModelMetadataEntries : Z := 16.
Definition maxAccountModelMetadataKeyLen : Z := 64.
Definition maxAccountModelMetadataValueLen : Z := 128.

Section metadata.
(** The order in which a map is iterated. *)
Context (iterate : gmap string string → list (string * string)).

Fixpoint metadata_loop (entries : list (string * string)) (normalized : gmap string string) : result perror (gmap string string) :=
  match entries with
  | [] => Ok normalized
  | (key, value) :: entries =>
      let key := TrimSpace key in
      let value := TrimSpace value in
      if str_eq key "" || bool_decide (maxAccountModelMetadataKeyLen < go_len key) ||
         bool_decide (maxAccountModelMetadataValueLen < go_len value)
      then Err ErrInvalidInput
      else metadata_loop entries (<[key := value]> normalized)
  end.

Definition normalizeAccountModelMetadata (metadata : metadata_map) : result perror metadata_map :=
  match metadata with
  | None => Ok None
  | Some m =>
      if bool_decide (m = ∅) then Ok None
      else if bool_decide (maxAccountModelMetadataEntries < Z.of_nat (size m)) then Err ErrInvalidInput
      else let? n := metadata_loop (iterate m) ∅ in Ok (Some n)
  end.

(** The loop of both [normalizeAccountModelInputs]. *)
Fixpoint normalize_loop (meta : metadata_map → result perror metadata_map) (inputs : list AccountModelInput)
    (seen : gset string) (models : list AccountModelInput) : result perror (list AccountModelInput) :=
  match inputs with
  | [] => Ok models
  | input :: inputs =>
      let model := TrimSpace (I_Model input) in
      if str_eq model "" then normalize_loop meta inputs seen models
      else if bool_decide (maxModelNameLen < go_len model) then Err ErrInvalidInput
      else if bool_decide (model ∈ seen) then normalize_loop meta inputs seen models
      else
        let? metadata := meta (I_Metadata input) in
        let models := models ++ [{| I_Model := model; I_Enabled := I_Enabled input; I_Metadata := metadata |}] in
        if bool_decide (maxAccountModels < Z.of_nat (length models)) then Err ErrInvalidInput
        else normalize_loop meta inputs ({[ model ]} ∪ seen) models
  end.

(** Of [provider/service.go]. *)
Definition normalizeAccountModelInputs (inputs : list AccountModelInput) : result perror (list AccountModelInput) :=
  normalize_loop normalizeAccountModelMetadata inputs ∅ [].
End metadata.

(** Of [store/provider.go]: the new inputs have no metadata. *)
Definition store_normalizeAccountModelInputs (inputs : list AccountModelInput) : result perror (list AccountModelInput) :=
  normalize_loop (fun _ => Ok None) inputs ∅ [].

Definition metadataJSON (metadata : metadata_map) : gmap string string := default ∅ metadata.

(** ** The table *)

(** The columns of the last test of a model. *)
Record accountModelTestState := {
  lastError : string; lastTestAt : option Time; lastTestStatus : string; lastTestHTTPStatus : Z; lastTestLatencyMS : Z
}.

Definition no_test : accountModelTestState := Build_accountModelTestState "" None "" 0 0.

Record AccountModel := {
  ID : Z; AccountID : Z; Provider : string; Model : string; Enabled : bool; Source : string; LastSeenAt : option Time;
  Test : accountModelTestState; Metadata : gmap string string; CreatedAt : Time; UpdatedAt : Time
}.

Record tables := { accounts : list Account; models : list AccountModel; next_model : Z }.

Definition set_models (l : list AccountModel) (t : tables) : tables := Build_tables (accounts t) l (next_model t).

(** What the scheduling queries see of a row. *)
Definition routed (m : AccountModel) : Account.AccountModel :=
  {| M_AccountID := AccountID m; Account.Model := Model m; M_Enabled := Enabled m; M_Metadata := Some (Metadata m) |}.

Definition is_model_of (provider : string) (accountID : Z) (m : AccountModel) : bool :=
  str_eq (Provider m) provider && bool_decide (AccountID m = accountID).

Definition is_model_from (provider : string) (accountID : Z) (source : string) (m : AccountModel) : bool :=
  is_model_of provider accountID m && str_eq (Source m) source.

Definition has_account (provider : string) (accountID : Z) (t : tables) : bool :=
  existsb (OAuth.is_row provider accountID) (accounts t).

(** [UNIQUE (account_id, model)] *)
Definition taken (accountID : Z) (model : string) (l : list AccountModel) : bool :=
  existsb (fun m => bool_decide (AccountID m = accountID) && str_eq (Model m) model) l.

Definition insert_model (accountID : Z) (provider model : string) (enabled : bool) (source : string) (seenAt : option Time)
    (test : accountModelTestState) (metadata : gmap string string) (now : Time) (t : tables) : result perror tables :=
  if taken accountID model (models t) then Err (ErrOther "duplicate key value violates unique constraint")
  else Ok (Build_tables (accounts t)
    (models t ++ [{| ID := next_model t; AccountID := accountID; Provider := provider; Model := model; Enabled := enabled;
                     Source := source; LastSeenAt := seenAt; Test := test; Metadata := metadata;
                     CreatedAt := now; UpdatedAt := now |}]) (next_model t + 1)).

Section store.
(** The database's collation of names. *)
Context (collation : string → string → bool).

Definition model_le (a b : AccountModel) : Prop := collation (Model a) (Model b) = true.
#[local] Instance model_le_dec : RelDecision model_le.
Proof. intros a b. unfold model_le. apply _. Defined.

(** ORDER BY model ASC *)
Definition rows_of (provider : string) (accountID : Z) (t : tables) : list AccountModel :=
  merge_sort model_le (List.filter (is_model_of provider accountID) (models t)).

Definition ListAccountModels (provider : string) (accountID : Z) (t : tables) : result perror (list AccountModel) :=
  if has_account provider accountID t then Ok (rows_of provider accountID t) else Err ErrNotConnected.

(** Keys only for the accounts asked for, each with its rows. *)
Definition ListAccountModelsForAccounts (provider : string) (accountIDs : list Z) (t : tables)
  : result perror (gmap Z (list AccountModel)) :=
  Ok (list_to_map (map (fun i => (i, rows_of provider i t)) accountIDs)).

(** *** Syncing *)

Record AccountModelSyncSummary := { Total : Z; New : Z; Preserved : Z; SkippedManual : Z }.

Definition count_new (s : AccountModelSyncSummary) := Build_AccountModelSyncSummary (Total s) (New s + 1) (Preserved s) (SkippedManual s).
Definition count_preserved (s : AccountModelSyncSummary) := Build_AccountModelSyncSummary (Total s) (New s) (Preserved s + 1) (SkippedManual s).
Definition count_skipped (s : AccountModelSyncSummary) := Build_AccountModelSyncSummary (Total s) (New s) (Preserved s) (SkippedManual s + 1).

Section sync.
Context (provider : string) (accountID : Z) (seenAt : Time) (source : string) (enableNew : bool) (now : Time).

Fixpoint sync_loop (synced : gmap string (bool * accountModelTestState)) (manual : gset string)
    (inputs : list AccountModelInput) (summary : AccountModelSyncSummary) (t : tables)
  : result perror (AccountModelSyncSummary * tables) :=
  match inputs with
  | [] => Ok (summary, t)
  | model :: inputs =>
      if bool_decide (I_Model model ∈ manual) then sync_loop synced manual inputs (count_skipped summary) t
      else
        let '(enabled, test, summary) :=
          match synced !! I_Model model with
          | Some (enabled, test) => (enabled, test, count_preserved summary)
          | None => (enableNew, no_test, count_new summary)
          end in
        let? t := insert_model accountID provider (I_Model model) enabled source (Some (OAuth.pg seenAt)) test
                    (metadataJSON (I_Metadata model)) now t in
        sync_loop synced manual inputs summary t
  end.

(** The rows of the account before the sync. *)
Definition synced_state (t : tables) : gmap string (bool * accountModelTestState) :=
  foldl (fun acc m => <[Model m := (Enabled m, Test m)]> acc) ∅
    (List.filter (is_model_from provider accountID source) (models t)).

Definition is_manual (m : AccountModel) : bool := str_eq (Source m) AccountModelSourceManual || str_eq (Source m) "".

Definition manual_names (t : tables) : gset string :=
  list_to_set (map Model (List.filter (fun m => is_model_of provider accountID m && is_manual m) (models t))).

Definition without_source (t : tables) : tables :=
  set_models (List.filter (fun m => negb (is_model_from provider accountID source m)) (models t)) t.

Definition sync_transaction (inputs : list AccountModelInput) (t : tables)
  : result perror (list AccountModel * AccountModelSyncSummary) * tables :=
  if has_account provider accountID t then
    match sync_loop (synced_state t) (manual_names t) inputs
            (Build_AccountModelSyncSummary (Z.of_nat (length inputs)) 0 0 0) (without_source t) with
    | Ok (summary, t') => (Ok (rows_of provider accountID t', summary), t')
    | Err e => (Err e, t)
    end
  else (Err ErrNotConnected, t).
End sync.

(** [clock] is the service's, [now] the database's. *)
Definition syncAccountModels (provider : string) (accountID : Z) (inputs : list AccountModelInput) (seenAt : Time)
    (source : string) (enableNew : bool) (clock now : Time) (t : tables)
  : result perror (list AccountModel * AccountModelSyncSummary) * tables :=
  match store_normalizeAccountModelInputs inputs with
  | Err e => (Err e, t)
  | Ok inputs =>
      sync_transaction provider accountID (if time_is_zero seenAt then clock else seenAt) source enableNew now inputs t
  end.

Definition SyncAccountModels (provider : string) (accountID : Z) (inputs : list AccountModelInput) (seenAt clock now : Time)
    (t : tables) := syncAccountModels provider accountID inputs seenAt AccountModelSourceUpstream false clock now t.

Definition SyncOAuthAccountModels (provider : string) (accountID : Z) (inputs : list AccountModelInput) (seenAt clock now : Time)
    (t : tables) := syncAccountModels provider accountID inputs seenAt AccountModelSourceOAuthCatalog true clock now t.

(** *** Replacing the manual models *)

Fixpoint replace_loop (provider : string) (accountID : Z) (now : Time) (tests : gmap string accountModelTestState)
    (inputs : list AccountModelInput) (t : tables) : result perror tables :=
  match inputs with
  | [] => Ok t
  | model :: inputs =>
      let? t := insert_model accountID provider (I_Model model) (I_Enabled model) AccountModelSourceManual None
                  (default no_test (tests !! I_Model model)) (metadataJSON (I_Metadata model)) now t in
      replace_loop provider accountID now tests inputs t
  end.

Definition manual_tests (provider : string) (accountID : Z) (t : tables) : gmap string accountModelTestState :=
  foldl (fun acc m => <[Model m := Test m]> acc) ∅
    (List.filter (is_model_from provider accountID AccountModelSourceManual) (models t)).

Definition ReplaceAccountModels (provider : string) (accountID : Z) (inputs : list AccountModelInput) (now : Time) (t : tables)
  : result perror (list AccountModel) * tables :=
  match store_normalizeAccountModelInputs inputs with
  | Err e => (Err e, t)
  | Ok inputs =>
      if has_account provider accountID t then
        match replace_loop provider accountID now (manual_tests provider accountID t) inputs
                (without_source provider accountID AccountModelSourceManual t) with
        | Ok t' => (Ok (rows_of provider accountID t'), t')
        | Err e => (Err e, t)
        end
      else (Err ErrNotConnected, t)
  end.
End store.

(** *** Recording a test *)

Record AccountModelTestResult := {
  TR_AccountID : Z; TR_Model : string; TR_Status : string; TR_ErrorCode : string; TR_HTTPStatus : Z; TR_LatencyMS : Z;
  TR_Message : string; TR_CheckedAt : Time
}.

Definition is_tested (provider : string) (r : AccountModelTestResult) (m : AccountModel) : bool :=
  is_model_of provider (TR_AccountID r) m && str_eq (Model m) (TR_Model r).

Definition with_test (r : AccountModelTestResult) (now : Time) (m : AccountModel) : AccountModel :=
  {| ID := ID m; AccountID := AccountID m; Provider := Provider m; Model := Model m; Enabled := Enabled m; Source := Source m;
     LastSeenAt := LastSeenAt m;
     Test := {| lastError := TR_Message r; lastTestAt := Some (OAuth.pg (TR_CheckedAt r)); lastTestStatus := TR_Status r;
                lastTestHTTPStatus := TR_HTTPStatus r; lastTestLatencyMS := TR_LatencyMS r |};
     Metadata := Metadata m; CreatedAt := CreatedAt m; UpdatedAt := now |}.

(** The row and, for the event, the account must exist. *)
Definition RecordAccountModelTestResult (provider : string) (r : AccountModelTestResult) (now : Time) (t : tables)
  : result perror unit * tables :=
  if existsb (is_tested provider r) (models t) then
    if has_account provider (TR_AccountID r) t
    then (Ok tt, set_models (map (fun m => if is_tested provider r m then with_test r now m else m) (models t)) t)
    else (Err (ErrOther "no rows in result set"), t)
  else (Err ErrNotConnected, t).

(** *** Accounts come and go *)

(** DELETE FROM provider_accounts; the rows of a deleted account go with it
    ([ON DELETE CASCADE]). *)
Definition delete_accounts (gone : Account → bool) (t : tables) : tables :=
  Build_tables (List.filter (fun a => negb (gone a)) (accounts t))
    (List.filter (fun m => negb (existsb (fun a => gone a && bool_decide (Account.ID a = AccountID m)) (accounts t))) (models t))
    (next_model t).

(** Everything that happens to the two tables.  Updates of an account keep its
    id and provider. *)
Inductive step (collation : string → string → bool) : tables → tables → Prop :=
| step_sync provider accountID inputs seenAt clock now t :
    step collation t (SyncAccountModels collation provider accountID inputs seenAt clock now t).2
| step_sync_oauth provider accountID inputs seenAt clock now t :
    step collation t (SyncOAuthAccountModels collation provider accountID inputs seenAt clock now t).2
| step_replace provider accountID inputs now t :
    step collation t (ReplaceAccountModels collation provider accountID inputs now t).2
| step_test provider r now t : step collation t (RecordAccountModelTestResult provider r now t).2
| step_insert_account a t : step collation t (Build_tables (accounts t ++ [a]) (models t) (next_model t))
| step_update_accounts f t :
    (∀ a, Account.ID (f a) = Account.ID a ∧ Account.Provider (f a) = Account.Provider a) →
    step collation t (Build_tables (map f (accounts t)) (models t) (next_model t))
| step_delete_accounts gone t : step collation t (delete_accounts gone t).

Definition empty_tables : tables := Build_tables [] [] 1.

End AccountModels.
