(* ===== verification/AccountModelsThms.v ===== *)
(** * What the models of an account are after a sync

    The theorems on [AccountModels]: a sync replaces what it brought before and
    nothing else, every operation keeps the table well formed, and the metadata
    the scheduling queries read is never written. *)

From stdpp Require Import gmap strings sorting.
From S2P Require Import Prelude GoStrings Account Scheduling ProviderStore OAuth AccountModels.

Module AccountModelsThms.
Import Account AccountModels.

(** ** Normalised inputs *)

Definition model_name (n : string) : Prop := n ≠ "" ∧ TrimSpace n = n ∧ go_len n ≤ maxModelNameLen.

Record normalized (l : list AccountModelInput) : Prop := {
  n_distinct : NoDup (map I_Model l);
  n_names : Forall model_name (map I_Model l);
  n_length : Z.of_nat (length l) ≤ maxAccountModels
}.

Lemma normalize_loop_spec meta inputs seen models out :
  normalize_loop meta inputs seen models = Ok out →
  normalized models → (∀ n, n ∈ seen ↔ n ∈ map I_Model models) →
  normalized out ∧ ∀ i, i ∈ out → i ∈ models ∨ ∃ md, meta md = Ok (I_Metadata i).
Proof.
  revert seen models. induction inputs as [|input inputs IH]; intros seen models; cbn [normalize_loop]; cbv zeta.
  { intros [= ->]. auto. }
  case_match eqn:Hblank; [apply IH|]. case_match eqn:Hlen; [done|]. case_match eqn:Hseen; [apply IH|].
  intros (md & Hmd & Hk)%result_bind_Ok [Hd Hn Hl] Hs. case_match eqn:Hmax; [done|].
  apply bool_decide_eq_false in Hlen, Hseen, Hmax, Hblank. apply IH in Hk as [Ho Hfrom].
  - split; [done|]. intros i Hi. destruct (Hfrom i Hi) as [[Hin| ->%list_elem_of_singleton]%elem_of_app|?]; eauto.
  - split; rewrite ?map_app; cbn.
    + apply NoDup_app. repeat split; [done|..|apply NoDup_singleton]. intros n Hin ->%list_elem_of_singleton. by apply Hseen, Hs.
    + apply Forall_app. split; [done|]. constructor; [|done]. split; [done|]. split; [apply TrimSpace_idem|lia].
    + lia.
  - intros n. rewrite map_app, elem_of_union, elem_of_singleton, elem_of_app, Hs. cbn. rewrite list_elem_of_singleton. tauto.
Qed.

Lemma normalized_nil : normalized [].
Proof. split; [apply NoDup_nil_2|constructor|by vm_compute]. Qed.

Lemma store_normalized inputs out :
  store_normalizeAccountModelInputs inputs = Ok out → normalized out ∧ ∀ i, i ∈ out → I_Metadata i = None.
Proof.
  intros H. apply normalize_loop_spec in H as [Hn Hm]; [|apply normalized_nil|set_solver].
  split; [done|]. intros i Hi. destruct (Hm i Hi) as [?%elem_of_nil|[_ [= ->]]]; done.
Qed.

(** ** Well-formed tables *)

Definition key (m : AccountModel) : Z * string := (AccountID m, Model m).

Record well_formed (t : tables) : Prop := {
  wf_keys : NoDup (map key (models t));
  wf_ids : NoDup (map ID (models t));
  wf_fresh : Forall (fun m => ID m < next_model t) (models t);
  wf_accounts : Forall (fun m => has_account (Provider m) (AccountID m) t = true) (models t);
  wf_names : Forall (fun m => model_name (Model m)) (models t);
  wf_metadata : Forall (fun m => Metadata m = ∅) (models t)
}.

Lemma taken_spec i n l : taken i n l = true ↔ (i, n) ∈ map key l.
Proof.
  unfold taken. rewrite existsb_exists, list_elem_of_fmap. setoid_rewrite andb_true_iff.
  split; [intros (m & Hin & Hi%bool_decide_eq_true & Hm%bool_decide_eq_true)|intros (m & [= -> ->] & Hin)]; exists m.
  - subst. split; [done|by apply list_elem_of_In].
  - split; [by apply list_elem_of_In|]. by split; apply bool_decide_eq_true.
Qed.

Lemma insert_model_Ok accountID provider model enabled source seenAt test metadata now t t' :
  insert_model accountID provider model enabled source seenAt test metadata now t = Ok t' ↔
  (accountID, model) ∉ map key (models t) ∧
  t' = Build_tables (accounts t)
         (models t ++ [Build_AccountModel (next_model t) accountID provider model enabled source seenAt test metadata now now])
         (next_model t + 1).
Proof.
  unfold insert_model. destruct (taken _ _ _) eqn:E.
  - apply taken_spec in E. split; [done|]. by intros [].
  - assert ((accountID, model) ∉ map key (models t)) by (intros Hin%taken_spec; congruence).
    split; [by intros [= <-]|]. by intros [_ ->].
Qed.

Lemma well_formed_insert t t' accountID provider model enabled source seenAt test now :
  insert_model accountID provider model enabled source seenAt test ∅ now t = Ok t' →
  has_account provider accountID t = true → model_name model → well_formed t → well_formed t'.
Proof.
  intros [Hk ->]%insert_model_Ok Ha Hn [H1 H2 H3 H4 H5 H6]. constructor; cbn; rewrite ?map_app; cbn.
  - apply NoDup_app. repeat split; [done| |apply NoDup_singleton]. by intros x Hx ->%list_elem_of_singleton.
  - apply NoDup_app. repeat split; [done| |apply NoDup_singleton]. intros x (m & -> & Hm)%list_elem_of_fmap Hx%list_elem_of_singleton.
    rewrite Forall_forall in H3. specialize (H3 m Hm). lia.
  - apply Forall_app. split; [|by constructor; cbn; [lia|]]. eapply Forall_impl; [exact H3|]. cbn. lia.
  - apply Forall_app. by split; [|constructor].
  - apply Forall_app. by split; [|constructor].
  - apply Forall_app. by split; [|constructor].
Qed.

Lemma well_formed_filter p t : well_formed t → well_formed (set_models (List.filter p (models t)) t).
Proof. intros []. constructor; cbn; auto using NoDup_filter_map, Forall_filter_bool. Qed.

(** ** Syncing *)

(** What was recorded of a model that the same source had brought before. *)
Definition old_row (provider : string) (accountID : Z) (source : string) (t : tables) (name : string) : option AccountModel :=
  List.find (fun m => is_model_from provider accountID source m && str_eq (Model m) name) (models t).

Definition state_of (m : AccountModel) : bool * accountModelTestState := (Enabled m, Test m).

Lemma fold_state {B} (f : AccountModel → B) l name (m0 : gmap string B) :
  NoDup (map Model l) →
  foldl (fun acc m => <[Model m := f m]> acc) m0 l !! name =
  match List.find (fun m => str_eq (Model m) name) l with Some m => Some (f m) | None => m0 !! name end.
Proof.
  revert m0. induction l as [|m l IH]; intros m0; cbn; [done|]. intros [Hm Hl]%NoDup_cons.
  rewrite IH by done. unfold str_eq at 2. case_bool_decide as E.
  - subst. destruct (List.find _ l) as [x|] eqn:Hf; [|by rewrite lookup_insert_eq].
    apply find_some in Hf as [Hin Hx%bool_decide_eq_true]. destruct Hm. rewrite <- Hx. by apply (list_elem_of_fmap_2 Model), list_elem_of_In.
  - destruct (List.find _ l); [done|]. by rewrite lookup_insert_ne.
Qed.

Lemma find_filter_and {A} (p q : A → bool) l : List.find q (List.filter p l) = List.find (fun x => p x && q x) l.
Proof. induction l as [|x l IH]; cbn; [done|]. destruct (p x); cbn; [by destruct (q x)|done]. Qed.

Lemma from_one_account provider accountID source m :
  is_model_from provider accountID source m = true → AccountID m = accountID.
Proof. unfold is_model_from, is_model_of. rewrite !andb_true_iff. intros [[_ H] _]. by apply bool_decide_eq_true in H. Qed.

Lemma source_names_distinct provider accountID source t :
  well_formed t → NoDup (map Model (List.filter (is_model_from provider accountID source) (models t))).
Proof.
  intros Ht. assert (NoDup (map key (List.filter (is_model_from provider accountID source) (models t)))) as H
    by apply NoDup_filter_map, (wf_keys _ Ht).
  apply (NoDup_fmap_1 (pair accountID)). rewrite <- list_fmap_compose. erewrite list_fmap_ext; [exact H|].
  intros i m Hm%list_elem_of_lookup_2. apply list_elem_of_In, filter_In in Hm as [_ Hm].
  unfold key; cbn. by rewrite (from_one_account _ _ _ _ Hm).
Qed.

Lemma synced_state_spec provider accountID source t name :
  well_formed t → synced_state provider accountID source t !! name = state_of <$> old_row provider accountID source t name.
Proof.
  intros Ht. unfold synced_state, old_row. rewrite fold_state by by apply source_names_distinct.
  rewrite find_filter_and. by destruct (List.find _ _).
Qed.

(** A synced row: its name, whether it is enabled, its last test. *)
Definition synced_row (m : AccountModel) : string * bool * accountModelTestState := (Model m, Enabled m, Test m).

Definition wanted_row (synced : gmap string (bool * accountModelTestState)) (enableNew : bool) (i : AccountModelInput)
  : string * bool * accountModelTestState :=
  let '(enabled, test) := default (enableNew, no_test) (synced !! I_Model i) in (I_Model i, enabled, test).

Definition wanted (manual : gset string) (inputs : list AccountModelInput) : list AccountModelInput :=
  List.filter (fun i => negb (bool_decide (I_Model i ∈ manual))) inputs.

Definition known (synced : gmap string (bool * accountModelTestState)) (i : AccountModelInput) : bool :=
  bool_decide (is_Some (synced !! I_Model i)).

Section sync_loop.
Context (provider : string) (accountID : Z) (seenAt : Time) (source : string) (enableNew : bool) (now : Time).
Context (synced : gmap string (bool * accountModelTestState)) (manual : gset string).

Lemma sync_loop_spec inputs summary t summary' t' :
  sync_loop provider accountID seenAt source enableNew now synced manual inputs summary t = Ok (summary', t') →
  has_account provider accountID t = true → normalized inputs → (∀ i, i ∈ inputs → I_Metadata i = None) → well_formed t →
  well_formed t' ∧ accounts t' = accounts t ∧
  (∃ rows, models t' = models t ++ rows ∧ map synced_row rows = map (wanted_row synced enableNew) (wanted manual inputs) ∧
           Forall (fun m => is_model_from provider accountID source m = true ∧ LastSeenAt m = Some (OAuth.pg seenAt)) rows) ∧
  summary' = {| Total := Total summary;
                New := New summary + countZ (fun i => negb (known synced i)) (wanted manual inputs);
                Preserved := Preserved summary + countZ (known synced) (wanted manual inputs);
                SkippedManual := SkippedManual summary + countZ (fun i => bool_decide (I_Model i ∈ manual)) inputs |}.
Proof.
  revert summary t. induction inputs as [|i inputs IH]; intros summary t; cbn [sync_loop].
  { intros [= <- <-] Ha Hi Hm Ht. split; [done|]. split; [done|]. split; [exists []; by rewrite app_nil_r|].
    unfold countZ. cbn. rewrite !sumZ_nil, !Z.add_0_r. by destruct summary. }
  intros H Ha [Hd Hn Hl] Hm Ht. apply NoDup_cons in Hd as [Hi Hd]. apply Forall_cons in Hn as [Hname Hn].
  assert (normalized inputs) as Hin by (split; [done|done|cbn in Hl; lia]).
  unfold wanted. cbn [List.filter]. destruct (bool_decide (I_Model i ∈ manual)) eqn:Eman; cbn [negb].
  - apply IH in H as (Hwf & Hacc & Hrows & ->); [|done|done|by intros; apply Hm; right|done].
    split; [done|]. split; [done|]. split; [done|]. unfold countZ. rewrite !sumZ_cons, Eman. cbn. f_equal; lia.
  - destruct (match synced !! I_Model i with Some _ => _ | None => _ end) as [[enabled test] sum] eqn:Em.
    apply result_bind_Ok in H as (t1 & Hins & H). rewrite (Hm i) in Hins by left.
    pose proof Hins as [Hkey Et1]%insert_model_Ok.
    apply IH in H as (Hwf & Hacc & (rows & Hrows & Hmap & Hall) & ->);
      [|by rewrite Et1|done|by intros; apply Hm; right|by eapply well_formed_insert].
    split; [done|]. split; [by rewrite Hacc, Et1|]. split.
    + eexists (_ :: rows). split; [rewrite Hrows, Et1; cbn; by rewrite <- app_assoc|].
      split; [|constructor; [|done]; split; [|done]; unfold is_model_from, is_model_of; cbn; rewrite !andb_true_iff; repeat split; by apply bool_decide_eq_true].
      cbn [map]. fold (wanted manual inputs). rewrite Hmap. f_equal. unfold synced_row, wanted_row; cbn.
      destruct (synced !! I_Model i) as [[? ?]|]; injection Em as <- <- <-; done.
    + fold (wanted manual inputs). unfold countZ. rewrite !sumZ_cons, Eman.
      assert (known synced i = match synced !! I_Model i with Some _ => true | None => false end) as -> by
        (unfold known; destruct (synced !! I_Model i); [by apply bool_decide_eq_true_2|by apply bool_decide_eq_false_2; intros []]).
      destruct (synced !! I_Model i) as [[? ?]|]; injection Em as <- <- <-; cbn; f_equal; lia.
Qed.
End sync_loop.

(** A name held by hand, or by a row without a source. *)
Definition by_hand (provider : string) (accountID : Z) (t : tables) (name : string) : bool :=
  existsb (fun m => is_model_of provider accountID m && is_manual m && str_eq (Model m) name) (models t).

Lemma manual_names_spec provider accountID t name :
  name ∈ manual_names provider accountID t ↔ by_hand provider accountID t name = true.
Proof.
  unfold manual_names, by_hand. rewrite elem_of_list_to_set, list_elem_of_fmap, existsb_exists.
  setoid_rewrite list_elem_of_In. setoid_rewrite filter_In. split.
  - intros (m & -> & Hin & Hm). exists m. split; [done|]. rewrite Hm. by apply bool_decide_eq_true.
  - intros (m & Hin & [Hm Hn%bool_decide_eq_true]%andb_true_iff). by exists m.
Qed.

Lemma manual_names_bool provider accountID t name :
  bool_decide (name ∈ manual_names provider accountID t) = by_hand provider accountID t name.
Proof.
  destruct (by_hand _ _ _ _) eqn:E; [by apply bool_decide_eq_true_2, manual_names_spec|].
  apply bool_decide_eq_false_2. rewrite manual_names_spec, E. done.
Qed.

Definition manual_source (source : string) : bool := str_eq source AccountModelSourceManual || str_eq source "".

(** What the sync means for a name: the row there was decides whether it is
    enabled and what its last test was. *)
Definition after_sync (provider : string) (accountID : Z) (source : string) (enableNew : bool) (t : tables)
    (i : AccountModelInput) : string * bool * accountModelTestState :=
  match old_row provider accountID source t (I_Model i) with
  | Some m => (I_Model i, Enabled m, Test m)
  | None => (I_Model i, enableNew, no_test)
  end.

Definition seen_before (provider : string) (accountID : Z) (source : string) (t : tables) (i : AccountModelInput) : bool :=
  bool_decide (is_Some (old_row provider accountID source t (I_Model i))).

Lemma filter_split {A} (p : A → bool) l rows :
  Forall (fun x => p x = true) rows →
  List.filter (fun x => negb (p x)) (List.filter (fun x => negb (p x)) l ++ rows) = List.filter (fun x => negb (p x)) l ∧
  List.filter p (List.filter (fun x => negb (p x)) l ++ rows) = rows.
Proof.
  intros Hr. rewrite !List.filter_app.
  assert (List.filter (fun x => negb (p x)) rows = [] ∧ List.filter p rows = rows) as [-> ->].
  { induction Hr as [|x rows Hx _ [IH1 IH2]]; [done|]. cbn. rewrite Hx. cbn. split; [done|by rewrite IH2]. }
  rewrite app_nil_r. split; induction l as [|x l IH]; [done| |done|]; cbn; destruct (p x) eqn:E; cbn; rewrite ?E; cbn; [done| |done|done].
  by rewrite IH.
Qed.

(** A sync brings exactly what the upstream lists.  When it succeeds, every row of another source, account or provider is
    as it was; the rows of this source are the wanted names in order - those of the normalised catalogue that are not kept
    by hand -, a name that was there before is enabled and tested as it was, a new one as the kind of sync says; the
    summary counts each; and the table stays well formed.  When it fails, nothing has changed. *)
Theorem sync_exact collation provider accountID inputs seenAt source enableNew clock now t r t' :
  well_formed t → manual_source source = false →
  syncAccountModels collation provider accountID inputs seenAt source enableNew clock now t = (r, t') →
  match r with
  | Err _ => t' = t
  | Ok (saved, summary) =>
      ∃ catalogue, store_normalizeAccountModelInputs inputs = Ok catalogue ∧
        let mine := is_model_from provider accountID source in
        let names := List.filter (fun i => negb (by_hand provider accountID t (I_Model i))) catalogue in
        well_formed t' ∧ accounts t' = accounts t ∧
        List.filter (fun m => negb (mine m)) (models t') = List.filter (fun m => negb (mine m)) (models t) ∧
        map synced_row (List.filter mine (models t')) = map (after_sync provider accountID source enableNew t) names ∧
        saved ≡ₚ List.filter (is_model_of provider accountID) (models t') ∧
        Total summary = Z.of_nat (length catalogue) ∧
        Preserved summary = countZ (seen_before provider accountID source t) names ∧
        New summary = countZ (fun i => negb (seen_before provider accountID source t i)) names ∧
        SkippedManual summary = Total summary - Z.of_nat (length names)
  end.
Proof.
  intros Ht Hsrc. unfold syncAccountModels. destruct (store_normalizeAccountModelInputs inputs) as [catalogue|e] eqn:Hcat; [|by intros [= <- <-]].
  apply store_normalized in Hcat as Hn. destruct Hn as [Hn Hmeta]. unfold sync_transaction.
  destruct (has_account provider accountID t) eqn:Ha; [|by intros [= <- <-]].
  destruct (sync_loop _ _ _ _ _ _ _ _ _ _ _) as [[summary t1]|e] eqn:Hl; [|by intros [= <- <-]].
  intros [= <- <-]. exists catalogue. split; [done|]. cbv zeta.
  apply sync_loop_spec in Hl as (Hwf & Hacc & (rows & Hrows & Hmap & Hall) & ->); [|done|done|done|by apply well_formed_filter].
  assert (wanted (manual_names provider accountID t) catalogue
          = List.filter (fun i => negb (by_hand provider accountID t (I_Model i))) catalogue) as Hw.
  { apply List.filter_ext. intros i. by rewrite manual_names_bool. }
  rewrite Hw in *. set (names := List.filter _ catalogue) in *.
  assert (∀ i, known (synced_state provider accountID source t) i = seen_before provider accountID source t i) as Hk.
  { intros i. unfold known, seen_before. rewrite synced_state_spec by done. apply bool_decide_ext. by rewrite fmap_is_Some. }
  cbn [models set_models without_source] in Hrows. rewrite Hrows.
  destruct (filter_split (is_model_from provider accountID source) (models t) rows) as [-> ->]; [by eapply Forall_impl; [exact Hall|intros ? []]|].
  split; [done|]. split; [done|]. split; [done|]. split.
  { rewrite Hmap. apply map_ext. intros i. unfold wanted_row, after_sync. rewrite synced_state_spec by done. by destruct (old_row _ _ _ _ _). }
  split; [unfold rows_of; by rewrite merge_sort_Permutation, Hrows|]. cbn [Total New Preserved SkippedManual].
  split; [done|]. split; [by apply countZ_ext|]. split; [apply countZ_ext; intros i; by rewrite Hk|].
  unfold names. rewrite countZ_negb.
  rewrite (countZ_ext (fun i => bool_decide (I_Model i ∈ manual_names provider accountID t)) (fun i => by_hand provider accountID t (I_Model i)));
    [lia|intros i; apply manual_names_bool].
Qed.

(** ** Replacing the manual models *)

Definition replaced_row (provider : string) (accountID : Z) (t : tables) (i : AccountModelInput)
  : string * bool * accountModelTestState :=
  (I_Model i, I_Enabled i,
   match old_row provider accountID AccountModelSourceManual t (I_Model i) with Some m => Test m | None => no_test end).

Lemma manual_tests_spec provider accountID t name :
  well_formed t →
  manual_tests provider accountID t !! name = Test <$> old_row provider accountID AccountModelSourceManual t name.
Proof.
  intros Ht. unfold manual_tests, old_row. rewrite fold_state by by apply source_names_distinct.
  rewrite find_filter_and. by destruct (List.find _ _).
Qed.

Lemma replace_loop_spec provider accountID now tests inputs t t' :
  replace_loop provider accountID now tests inputs t = Ok t' →
  has_account provider accountID t = true → normalized inputs → (∀ i, i ∈ inputs → I_Metadata i = None) → well_formed t →
  well_formed t' ∧ accounts t' = accounts t ∧
  ∃ rows, models t' = models t ++ rows ∧
    map synced_row rows = map (fun i => (I_Model i, I_Enabled i, default no_test (tests !! I_Model i))) inputs ∧
    Forall (fun m => is_model_from provider accountID AccountModelSourceManual m = true) rows.
Proof.
  revert t. induction inputs as [|i inputs IH]; intros t; cbn [replace_loop].
  { intros [= <-] Ha Hi Hm Ht. split; [done|]. split; [done|]. exists []. by rewrite app_nil_r. }
  intros (t1 & Hins & H)%result_bind_Ok Ha [Hd Hn Hl] Hm Ht. apply NoDup_cons in Hd as [Hi Hd]. apply Forall_cons in Hn as [Hname Hn].
  rewrite (Hm i) in Hins by left. pose proof Hins as [Hkey Et1]%insert_model_Ok.
  apply IH in H as (Hwf & Hacc & rows & Hrows & Hmap & Hall);
    [|by rewrite Et1|split; [done|done|cbn in Hl; lia]|by intros; apply Hm; right|by eapply well_formed_insert].
  split; [done|]. split; [by rewrite Hacc, Et1|]. eexists (_ :: rows). split; [rewrite Hrows, Et1; cbn; by rewrite <- app_assoc|].
  split; [cbn; by rewrite Hmap|]. constructor; [|done]. unfold is_model_from, is_model_of; cbn. rewrite !andb_true_iff. repeat split; by apply bool_decide_eq_true.
Qed.

(** Replacing the manual models of an account makes them the given ones: enabled as given, their tests kept when the name
    was there before, every other row as it was; a refused replacement changes nothing. *)
Theorem replace_exact collation provider accountID inputs now t r t' :
  well_formed t → ReplaceAccountModels collation provider accountID inputs now t = (r, t') →
  match r with
  | Err _ => t' = t
  | Ok saved =>
      ∃ names, store_normalizeAccountModelInputs inputs = Ok names ∧
        let mine := is_model_from provider accountID AccountModelSourceManual in
        well_formed t' ∧ accounts t' = accounts t ∧
        List.filter (fun m => negb (mine m)) (models t') = List.filter (fun m => negb (mine m)) (models t) ∧
        map synced_row (List.filter mine (models t')) = map (replaced_row provider accountID t) names ∧
        saved ≡ₚ List.filter (is_model_of provider accountID) (models t')
  end.
Proof.
  intros Ht. unfold ReplaceAccountModels. destruct (store_normalizeAccountModelInputs inputs) as [names|e] eqn:Hcat; [|by intros [= <- <-]].
  apply store_normalized in Hcat as Hn. destruct Hn as [Hn Hmeta].
  destruct (has_account provider accountID t) eqn:Ha; [|by intros [= <- <-]].
  destruct (replace_loop _ _ _ _ _ _) as [t1|e] eqn:Hl; [|by intros [= <- <-]].
  intros [= <- <-]. exists names. split; [done|]. cbv zeta.
  apply replace_loop_spec in Hl as (Hwf & Hacc & rows & Hrows & Hmap & Hall); [|done|done|done|by apply well_formed_filter].
  cbn [models set_models without_source] in Hrows. rewrite Hrows.
  destruct (filter_split _ (models t) rows Hall) as [-> ->]. split; [done|]. split; [done|]. split; [done|].
  split; [|unfold rows_of; by rewrite merge_sort_Permutation, Hrows].
  rewrite Hmap. apply map_ext. intros i. unfold replaced_row. rewrite manual_tests_spec by done. by destruct (old_row _ _ _ _ _).
Qed.

(** ** Every reachable table *)

Lemma well_formed_sync collation provider accountID inputs seenAt source enableNew clock now t :
  manual_source source = false → well_formed t →
  well_formed (syncAccountModels collation provider accountID inputs seenAt source enableNew clock now t).2.
Proof.
  intros _ Ht. unfold syncAccountModels, sync_transaction. destruct (store_normalizeAccountModelInputs inputs) eqn:Hcat; [|done].
  apply store_normalized in Hcat as [Hn Hm]. destruct (has_account provider accountID t) eqn:Ha; [|done].
  destruct (sync_loop _ _ _ _ _ _ _ _ _ _ _) as [[summary t1]|e] eqn:Hl; [|done].
  apply sync_loop_spec in Hl as [Hw _]; [done|done|done|done|by apply well_formed_filter].
Qed.

Lemma well_formed_replace collation provider accountID inputs now t :
  well_formed t → well_formed (ReplaceAccountModels collation provider accountID inputs now t).2.
Proof.
  intros Ht. unfold ReplaceAccountModels. destruct (store_normalizeAccountModelInputs inputs) eqn:Hcat; [|done].
  apply store_normalized in Hcat as [Hn Hm]. destruct (has_account provider accountID t) eqn:Ha; [|done].
  destruct (replace_loop _ _ _ _ _ _) as [t1|e] eqn:Hl; [|done].
  apply replace_loop_spec in Hl as [Hw _]; [done|done|done|done|by apply well_formed_filter].
Qed.

(** The accounts are left alone. *)
Lemma insert_model_accounts i p n e src sn tst md now t t' : insert_model i p n e src sn tst md now t = Ok t' → accounts t' = accounts t.
Proof. intros [_ ->]%insert_model_Ok. done. Qed.

Lemma sync_accounts collation provider accountID inputs seenAt source enableNew clock now t :
  accounts (syncAccountModels collation provider accountID inputs seenAt source enableNew clock now t).2 = accounts t.
Proof.
  unfold syncAccountModels, sync_transaction. destruct (store_normalizeAccountModelInputs inputs) as [l|]; [|done].
  destruct (has_account provider accountID t); [|done]. destruct (sync_loop _ _ _ _ _ _ _ _ _ _ _) as [[s t']|e] eqn:E; [|done].
  cbn. change (accounts t) with (accounts (without_source provider accountID source t)).
  revert E. generalize (without_source provider accountID source t) as t0. generalize (Build_AccountModelSyncSummary (Z.of_nat (length l)) 0 0 0) as s0.
  induction l as [|x l IH]; intros s0 t0; cbn [sync_loop]; [by intros [= _ ->]|].
  destruct (bool_decide _); [apply IH|]. destruct (match _ with Some _ => _ | None => _ end) as [[? ?] ?]. intros (t1 & H1%insert_model_accounts & H2)%result_bind_Ok. by rewrite <- H1, (IH _ _ H2).
Qed.

Lemma replace_accounts collation provider accountID inputs now t :
  accounts (ReplaceAccountModels collation provider accountID inputs now t).2 = accounts t.
Proof.
  unfold ReplaceAccountModels. destruct (store_normalizeAccountModelInputs inputs) as [l|]; [|done].
  destruct (has_account provider accountID t); [|done]. destruct (replace_loop _ _ _ _ _ _) as [t'|e] eqn:E; [|done].
  cbn. change (accounts t) with (accounts (without_source provider accountID AccountModelSourceManual t)).
  revert E. generalize (without_source provider accountID AccountModelSourceManual t) as t0.
  induction l as [|x l IH]; intros t0; cbn [replace_loop]; [by intros [= ->]|].
  intros (t1 & H1%insert_model_accounts & H2)%result_bind_Ok. by rewrite <- H1, (IH _ H2).
Qed.

(** A change of rows that keeps what well-formedness speaks of. *)
Lemma well_formed_map f t :
  (∀ m, key (f m) = key m ∧ ID (f m) = ID m ∧ Provider (f m) = Provider m ∧ Metadata (f m) = Metadata m) →
  well_formed t → well_formed (set_models (map f (models t)) t).
Proof.
  intros Hf [H1 H2 H3 H4 H5 H6].
  assert (∀ m, AccountID (f m) = AccountID m ∧ Model (f m) = Model m) as Hk by (intros m; by destruct (Hf m) as ([= -> ->] & _)).
  constructor; cbn; rewrite ?map_map, ?Forall_map.
  - erewrite map_ext; [exact H1|]. apply Hf.
  - erewrite map_ext; [exact H2|]. apply Hf.
  - eapply Forall_impl; [exact H3|]. intros m. cbn. destruct (Hf m) as (_ & -> & _). done.
  - eapply Forall_impl; [exact H4|]. intros m. cbn. destruct (Hf m) as (_ & _ & -> & _), (Hk m) as [-> _]. done.
  - eapply Forall_impl; [exact H5|]. intros m. cbn. destruct (Hk m) as [_ ->]. done.
  - eapply Forall_impl; [exact H6|]. intros m. cbn. destruct (Hf m) as (_ & _ & _ & ->). done.
Qed.

Lemma well_formed_test provider r now t : well_formed t → well_formed (RecordAccountModelTestResult provider r now t).2.
Proof.
  intros Ht. unfold RecordAccountModelTestResult. repeat case_match; try done. cbn [snd].
  apply well_formed_map; [|done]. intros m. by case_match.
Qed.

Lemma has_account_spec provider accountID t :
  has_account provider accountID t = true ↔
  ∃ a, a ∈ accounts t ∧ Account.Provider a = provider ∧ Account.ID a = accountID.
Proof.
  unfold has_account. rewrite existsb_exists. setoid_rewrite list_elem_of_In. unfold OAuth.is_row, str_eq.
  setoid_rewrite andb_true_iff. setoid_rewrite bool_decide_eq_true. done.
Qed.

Lemma well_formed_delete gone t : well_formed t → well_formed (delete_accounts gone t).
Proof.
  intros [H1 H2 H3 H4 H5 H6]. constructor; cbn; auto using NoDup_filter_map, Forall_filter_bool.
  rewrite Forall_forall in *. intros m [Hin Hg]%list_elem_of_In%filter_In. specialize (H4 m ltac:(by apply list_elem_of_In)).
  apply has_account_spec in H4 as (a & Ha & Hp & Hi). apply (has_account_spec _ _ (delete_accounts gone t)). exists a. split; [|done].
  apply list_elem_of_In, filter_In. split; [by apply list_elem_of_In|]. destruct (gone a) eqn:E; [|done].
  apply negb_true_iff in Hg. assert (existsb (fun a => gone a && bool_decide (Account.ID a = AccountID m)) (accounts t) = true); [|congruence].
  apply existsb_exists. exists a. split; [by apply list_elem_of_In|]. rewrite E. by apply bool_decide_eq_true.
Qed.

Lemma well_formed_accounts l t :
  (∀ p i, has_account p i t = true → has_account p i (Build_tables l (models t) (next_model t)) = true) →
  well_formed t → well_formed (Build_tables l (models t) (next_model t)).
Proof.
  intros Hl [H1 H2 H3 H4 H5 H6]. constructor; [done|done|done| |done|done].
  eapply Forall_impl; [exact H4|]. intros m Hm. by apply Hl.
Qed.

Lemma well_formed_step collation t t' : step collation t t' → well_formed t → well_formed t'.
Proof.
  destruct 1; [by apply well_formed_sync|by apply well_formed_sync|apply well_formed_replace|apply well_formed_test
    |apply well_formed_accounts|apply well_formed_accounts|apply well_formed_delete].
  - intros p i. unfold has_account. cbn. rewrite existsb_app. intros ->. done.
  - intros p i. rewrite !has_account_spec. cbn. intros (a & Ha & <- & <-). exists (f a). split; [|by destruct (H a)].
    by apply (list_elem_of_fmap_2 f).
Qed.

Lemma well_formed_empty : well_formed empty_tables.
Proof. constructor; cbn; try done; constructor. Qed.

Lemma reachable_well_formed collation t : rtc (step collation) empty_tables t → well_formed t.
Proof. intros H. eapply (rtc_ind_r well_formed); [apply well_formed_empty| |exact H]. intros. by eapply well_formed_step. Qed.

(** The capabilities of endpoints are never stored.  Whatever metadata administrators send along with the models of an
    account, in every table the operations can reach each row has an id and a name of its own, belongs to an account that
    is there, and has no metadata: the condition of the scheduling queries on the endpoint never excludes an account, and
    no model is ever known not to support one. *)
Theorem endpoint_capabilities_lost collation t m a model endpoint :
  rtc (step collation) empty_tables t → m ∈ models t →
  has_account (Provider m) (AccountID m) t = true ∧ model_name (Model m) ∧
  (∀ m', m' ∈ models t → key m' = key m → m' = m) ∧
  ProviderStore.sql_model_matches a model endpoint (routed m) = ProviderStore.sql_model_matches a model "" (routed m) ∧
  endpointCapabilityUnsupported (M_Metadata (routed m)) endpoint = false.
Proof.
  intros [H1 H2 H3 H4 H5 H6]%reachable_well_formed Hm. rewrite Forall_forall in *.
  split; [by apply H4|]. split; [by apply H5|]. split.
  { intros m' Hm' Hk. apply list_elem_of_lookup in Hm as [i Hi]. apply list_elem_of_lookup in Hm' as [j Hj].
    assert (i = j) as -> by (eapply NoDup_lookup; [exact H1|..]; rewrite list_lookup_fmap; [by rewrite Hi|by rewrite Hj; cbn; rewrite Hk]).
    by simplify_eq. }
  unfold ProviderStore.sql_model_matches, endpointCapabilityUnsupported, EndpointCapability. cbn. rewrite (H6 m Hm). split.
  - f_equal. rewrite lookup_empty. cbn. by rewrite orb_true_r.
  - destruct (NormalizeEndpoint endpoint) as [e|]; [|done]. destruct (str_eq e ""); [done|].
    cbn. by rewrite !lookup_empty.
Qed.

(** ** Examples *)

Module Demo.

Definition collation (x y : string) : bool := match String.compare x y with Gt => false | _ => true end.

Definition input (name : string) : AccountModelInput :=
  {| I_Model := name; I_Enabled := true; I_Metadata := Some {[ "endpoint.responses" := "unsupported" ]} |}.

Definition account : Account := demo_account.
Definition p : string := Account.Provider account.
Definition i : Z := Account.ID account.

(** An account with a manual model and a synced one. *)
Definition t0 : tables := Build_tables [account] [] 1.
Definition t1 : tables := (ReplaceAccountModels collation p i [input "by-hand"] 5 t0).2.
Definition t2 : tables := (SyncAccountModels collation p i [input " a "; input "by-hand"; input "b"] 7 7 7 t1).2.

Definition outcome (x : result perror (list AccountModel * AccountModelSyncSummary) * tables)
  : option (list (string * bool * string) * AccountModelSyncSummary) :=
  match x.1 with Ok (l, s) => Some (map (fun m => (Model m, Enabled m, Source m)) l, s) | Err _ => None end.

(** A second sync: [a] is still there, [b] is gone, [c] is new. *)
Example second_sync :
  outcome (SyncAccountModels collation p i [input "c"; input "a"; input "by-hand"] 9 9 9 t2) =
  Some ([("a", false, "upstream"); ("by-hand", true, "manual"); ("c", false, "upstream")],
        {| Total := 3; New := 1; Preserved := 1; SkippedManual := 1 |}).
Proof. vm_compute. reflexivity. Qed.

(** A name that a sync brought cannot be added by hand as well. *)
Example manual_conflict :
  (ReplaceAccountModels collation p i [input "a"] 9 t2).1 = Err (ErrOther "duplicate key value violates unique constraint").
Proof. vm_compute. reflexivity. Qed.

Lemma t2_reachable : rtc (step collation) empty_tables t2.
Proof.
  eapply rtc_l; [exact (step_insert_account collation account empty_tables)|].
  eapply rtc_l; [exact (step_replace collation p i [input "by-hand"] 5 t0)|].
  eapply rtc_l; [exact (step_sync collation p i [input " a "; input "by-hand"; input "b"] 7 7 7 t1)|]. constructor.
Qed.

Lemma sync_exact_demo :
  match SyncAccountModels collation p i [input "c"; input "a"; input "by-hand"] 9 9 9 t2 with
  | (Ok (_, summary), _) => Preserved summary = 1
  | _ => False
  end.
Proof.
  destruct (SyncAccountModels collation p i [input "c"; input "a"; input "by-hand"] 9 9 9 t2) as [r t3] eqn:E.
  pose proof (sync_exact collation p i [input "c"; input "a"; input "by-hand"] 9 AccountModelSourceUpstream false 9 9 t2 r t3
                (reachable_well_formed _ _ t2_reachable) eq_refl E) as H.
  destruct r as [[saved summary]|e].
  - destruct H as (catalogue & Hc & _ & _ & _ & _ & _ & _ & Hp & _). vm_compute in Hc. injection Hc as <-. rewrite Hp. by vm_compute.
  - assert (match (SyncAccountModels collation p i [input "c"; input "a"; input "by-hand"] 9 9 9 t2).1 with Ok _ => true | Err _ => false end = true)
      as Hok by (vm_compute; reflexivity). rewrite E in Hok. done.
Defined.

Lemma endpoint_capabilities_lost_demo :
  match models t1 with
  | m :: _ => endpointCapabilityUnsupported (Some {[ "endpoint.responses" := "unsupported" ]}) "responses" = true ∧
              endpointCapabilityUnsupported (M_Metadata (routed m)) "responses" = false
  | [] => False
  end.
Proof.
  destruct (models t1) as [|m l] eqn:E; [vm_compute in E; done|]. split; [by vm_compute|].
  apply (endpoint_capabilities_lost collation t1 m account "gpt-5" "responses").
  - eapply rtc_l; [exact (step_insert_account collation account empty_tables)|].
    eapply rtc_l; [exact (step_replace collation p i [input "by-hand"] 5 t0)|]. constructor.
  - rewrite E. left.
Defined.

Lemma replace_exact_demo :
  match ReplaceAccountModels collation p i [input "b-hand"; input "by-hand"] 9 t1 with
  | (Ok _, t3) => map synced_row (models t3) = [("b-hand", true, no_test); ("by-hand", true, no_test)]
  | _ => False
  end.
Proof.
  destruct (ReplaceAccountModels collation p i [input "b-hand"; input "by-hand"] 9 t1) as [r t3] eqn:E.
  assert (well_formed t1) as Hw by apply well_formed_replace, (well_formed_accounts [account] empty_tables ltac:(done)), well_formed_empty.
  pose proof (replace_exact collation p i [input "b-hand"; input "by-hand"] 9 t1 r t3 Hw E) as H.
  destruct r as [saved|e].
  - destruct H as (names & Hn & _ & _ & _ & Hm & _). vm_compute in Hn. injection Hn as <-.
    vm_compute in E. injection E as _ <-. vm_compute. reflexivity.
  - assert (match (ReplaceAccountModels collation p i [input "b-hand"; input "by-hand"] 9 t1).1 with Ok _ => true | Err _ => false end = true)
      as Hok by (vm_compute; reflexivity). rewrite E in Hok. done.
Defined.
End Demo.

End AccountModelsThms.
