(* ===== verification/ModelCatalog.v ===== *)
(** * The model catalogue of OAuth accounts

    [provider/catalog.go]: the catalogue an upstream offers to an account,
    fetched at most once at a time for each account and configuration, cached for
    a while, and dropped when the account changes.  The maps behind
    [oauthModelCatalogMu] are one state; each section under the mutex is one
    function on it, and a sync is a thread that goes from section to section.
    Threads that invalidate and then change an account run beside it, as
    [provider/service.go] has them. *)

From stdpp Require Import gmap strings.
From Stdlib Require String.
From S2P Require Import Prelude GoStrings Json Account Scheduling GatewayTypes GatewayPure AccountModels.

Module ModelCatalog.
Import Account.
Import GatewayPure(DefaultCodexFingerprintVersion, DefaultCodexFingerprintOriginator).
Abbreviation AccountModelInput := AccountModels.AccountModelInput.

(** ** Keys, entries, flights *)

Record oauthModelCatalogCacheKey := {
  k_accountID : Z; k_generation : Z; k_baseURL : string; k_clientVersion : string; k_planType : string
}.

#[export] Instance key_eq_dec : EqDecision oauthModelCatalogCacheKey.
Proof. solve_decision. Defined.

#[export] Instance key_countable : Countable oauthModelCatalogCacheKey.
Proof.
  apply (inj_countable' (fun k => (k_accountID k, k_generation k, k_baseURL k, k_clientVersion k, k_planType k))
           (fun '(a, g, b, v, p) => Build_oauthModelCatalogCacheKey a g b v p)). by intros [].
Defined.

Record oauthModelCatalogCacheEntry := { e_models : list AccountModelInput; expiresAt : Time }.

Record oauthModelCatalogFetch := {
  f_models : list AccountModelInput; attemptAt : Time; f_source : string; cacheHit : bool; upstreamFetchMS : option Z; f_generation : Z
}.

Record OAuthModelCatalogStatus := {
  LastAttemptAt : option Time; LastSuccessAt : option Time; LastFailureAt : option Time; LastError : string; Source : string;
  CacheHit : option bool; UpstreamFetchMS : option Z; LocalApplyMS : option Z
}.

Definition no_status : OAuthModelCatalogStatus := Build_OAuthModelCatalogStatus None None None "" "" None None None.

(** How a sync can fail: [context.Canceled], [context.DeadlineExceeded], too many
    flights, a result that came too late, or an error of the provider. *)
Inductive catalog_error := Canceled | DeadlineExceeded | ErrOAuthModelCatalogBusy | ErrOAuthModelCatalogStale | Failed (e : perror).

Definition catalog_error_text (e : catalog_error) : string :=
  match e with
  | Canceled => "context canceled"
  | DeadlineExceeded => "context deadline exceeded"
  | ErrOAuthModelCatalogBusy => "oauth model catalog refresh busy"
  | ErrOAuthModelCatalogStale => "oauth model catalog refresh superseded"
  | Failed e => error_text e
  end.

Definition interrupted (e : option catalog_error) : bool := match e with Some Canceled | Some DeadlineExceeded => true | _ => false end.

Definition maxOAuthModelCatalogCacheEntries : Z := 32.
Definition maxOAuthModelCatalogFlights : Z := 8.

(** [flights] has the number of the flight of a key, [landed] what a flight whose
    [done] is closed brought. *)
Record catalog := {
  cache : gmap oauthModelCatalogCacheKey oauthModelCatalogCacheEntry;
  flights : gmap oauthModelCatalogCacheKey nat;
  landed : gmap nat (oauthModelCatalogFetch * option catalog_error);
  generations : gmap Z Z;
  statuses : gmap Z OAuthModelCatalogStatus;
  next_flight : nat
}.

Definition initial : catalog := Build_catalog ∅ ∅ ∅ ∅ ∅ 0.

Definition generation (accountID : Z) (c : catalog) : Z := default 0 (generations c !! accountID).

(** ** Addresses and requests *)

Definition upstreamModelsURL (baseURL : string) : string :=
  let trimmed := TrimRightSlash (TrimSpace baseURL) in
  if HasSuffix trimmed "/v1" then trimmed +++ "/models" else trimmed +++ "/v1/models".

Definition DefaultCodexFingerprintUserAgent : string :=
  "codex-tui/0.135.0 (Mac OS 26.5.0; arm64) iTerm.app/3.6.10 (codex-tui; 0.135.0)".

Section requests.
(** The iteration order of a map, and [url.Parse], [Query().Set], [String] in one. *)
Context (iterate : gmap string string → list (string * string)) (url_with : string → string → string → option string).

Fixpoint version_of (headers : list (string * string)) : string :=
  match headers with
  | [] => DefaultCodexFingerprintVersion
  | (key, value) :: headers =>
      if EqualFold (TrimSpace key) "Version" && negb (str_eq (TrimSpace value) "") then TrimSpace value else version_of headers
  end.

Definition codexCatalogClientVersion (selected : SelectedAccount) : string :=
  version_of (iterate (default ∅ (FingerprintHeaders selected))).

Definition codexModelsURL (baseURL clientVersion : string) : option string :=
  let trimmed := TrimRightSlash (TrimSpace baseURL) in
  let trimmed := if str_eq trimmed "" then "https://chatgpt.com/backend-api/codex" else trimmed in
  url_with (trimmed +++ "/models") "client_version" (TrimSpace clientVersion).

Definition catalog_header (selected : SelectedAccount) : GatewayTypes.header :=
  let h := GatewayTypes.h_set ∅ "Authorization" ("Bearer " +++ AuthorizationToken selected) in
  let h := GatewayTypes.h_set h "Accept" "application/json" in
  let h := GatewayTypes.h_set h "ChatGPT-Account-ID" (TrimSpace (ChatGPTAccountID selected)) in
  let h := GatewayTypes.h_set h "originator" DefaultCodexFingerprintOriginator in
  let h := GatewayTypes.h_set h "Version" DefaultCodexFingerprintVersion in
  let h := GatewayTypes.h_set h "User-Agent" DefaultCodexFingerprintUserAgent in
  let h := foldl (fun h e => GatewayTypes.h_set h e.1 e.2) h (iterate (default ∅ (FingerprintHeaders selected))) in
  if str_eq (TrimSpace (FingerprintUA selected)) "" then h
  else GatewayTypes.h_set h "User-Agent" (TrimSpace (FingerprintUA selected)).
End requests.

(** ** Responses *)

Abbreviation obj := (list (string * (string * Json.json))).

(** Decoding an array into a slice: the slice, [None] for nil, and the elements
    its array still has from an earlier value of the same field. *)
Section slices.
Context {A : Type} (zero : A) (element : Json.json → A → option A).

Fixpoint decode_elements (l : list Json.json) (backing : list A) : option (list A) :=
  match l with
  | [] => Some []
  | v :: l => x ← element v (default zero (head backing)); xs ← decode_elements l (tail backing); Some (x :: xs)
  end.

Definition decode_slice (v : Json.json) (cur : option (list A) * list A) : option (option (list A) * list A) :=
  match v with
  | Json.JNull => Some (None, [])
  | Json.JArray [] => Some (Some [], [])
  | Json.JArray l => new ← decode_elements l cur.2; Some (Some new, new ++ drop (length new) cur.2)
  | _ => None
  end.

(** The slice field [name] of a response. *)
Definition slice_field (name : string) (body : string) : option (option (list A)) :=
  ms ← Json.unmarshal_struct body;
  r ← foldl (fun acc m => cur ← acc; decode_slice m.2 cur) (Some (None, [])) (Json.field_members name ms);
  Some r.1.
End slices.

(** Members of an object into a struct, field by field. *)
Definition decode_members {A} (member : A → string → string * Json.json → option A) (v : Json.json) (cur : A) : option A :=
  match v with
  | Json.JNull => Some cur
  | Json.JObject ms => foldl (fun acc m => cur ← acc; member cur m.1 m.2) (Some cur) ms
  | _ => None
  end.

Definition set_string {A} (set : string → A) (cur : A) (v : Json.json) : option A :=
  match v with Json.JString s => Some (set s) | Json.JNull => Some cur | _ => None end.
Definition set_bool {A} (set : bool → A) (cur : A) (v : Json.json) : option A :=
  match v with Json.JBool b => Some (set b) | Json.JNull => Some cur | _ => None end.

(** The text of the body, of which at most [10 << 20] bytes are read. *)
Definition limited (limit : Z) (body : string) : string :=
  if bool_decide (go_len body ≤ limit) then body else String.substring 0 (Z.to_nat limit) body.

(** An element of [data]. *)
Definition listed_member (cur name : string) (v : string * Json.json) : option string :=
  if EqualFold name "id" then set_string id cur v.2 else Some cur.

(** What [SyncUpstreamAccountModels] makes of a response: its status, and its body
    if reading it succeeds. *)
Section responses.
Context (iterate : gmap string string → list (string * string)).

Definition upstream_models (response : Z * result perror string) : result perror (list AccountModelInput) :=
  let '(status, body) := response in
  if bool_decide (status < 200) || bool_decide (299 < status)
  then Err (ErrOther ("upstream returned status " +++ FormatInt status))
  else
    let? body := body in
    match slice_field "" (decode_members listed_member) "data" (limited (10 * 2 ^ 20) body) with
    | None => Err (ErrOther "json")
    | Some None => Err (ErrOther "upstream response missing data array")
    | Some (Some data) =>
        let models := map (fun mid => AccountModels.Build_AccountModelInput mid true None)
                        (List.filter (fun mid => negb (str_eq mid "")) (map TrimSpace data)) in
        if bool_decide (models = []) then Err (ErrOther "no models found in upstream response")
        else AccountModels.normalizeAccountModelInputs iterate models
    end.

(** An element of [models]. *)
Record codexModel := { Slug : string; Visibility : string; SupportedInAPI : bool; Upgrade : string }.

Definition codex_member (cur : codexModel) (name : string) (v : string * Json.json) : option codexModel :=
  if EqualFold name "slug" then set_string (fun s => Build_codexModel s (Visibility cur) (SupportedInAPI cur) (Upgrade cur)) cur v.2
  else if EqualFold name "visibility" then set_string (fun s => Build_codexModel (Slug cur) s (SupportedInAPI cur) (Upgrade cur)) cur v.2
  else if EqualFold name "supported_in_api" then set_bool (fun b => Build_codexModel (Slug cur) (Visibility cur) b (Upgrade cur)) cur v.2
  else if EqualFold name "upgrade" then Some (Build_codexModel (Slug cur) (Visibility cur) (SupportedInAPI cur) v.1)
  else Some cur.

Definition codexOAuthDeprecatedModels : list string := ["gpt-5.2"; "gpt-5.3-codex"].

Definition offered (m : codexModel) : bool :=
  let slug := TrimSpace (Slug m) in
  let hasUpgrade := negb (str_eq (Upgrade m) "") && negb (str_eq (Upgrade m) "null") in
  negb (str_eq slug "" || negb (str_eq (Visibility m) "list") || negb (SupportedInAPI m) || hasUpgrade
        || existsb (str_eq slug) codexOAuthDeprecatedModels).

(** What [fetchOAuthModelCatalog] makes of a response. *)
Definition codex_models (response : Z * result perror string) : result perror (list AccountModelInput) :=
  let '(status, body) := response in
  if bool_decide (status < 200) || bool_decide (299 < status)
  then Err (ErrOther ("codex model catalog returned status " +++ FormatInt status))
  else
    let? body := body in
    match slice_field (Build_codexModel "" "" false "") (decode_members codex_member) "models" (limited (10 * 2 ^ 20) body) with
    | None => Err (ErrWrap "decode codex model catalog" (ErrOther "json"))
    | Some None => Err (ErrOther "codex model catalog missing models array")
    | Some (Some parsed) =>
        let models := map (fun m => AccountModels.Build_AccountModelInput (TrimSpace (Slug m)) true None) (List.filter offered parsed) in
        if bool_decide (models = []) then Err (ErrOther "no current models found in codex model catalog")
        else AccountModels.normalizeAccountModelInputs iterate models
    end.
End responses.

(** ** The sections under the mutex *)

(** [oauthModelCatalogCacheKey]: an account asked about for the first time gets
    generation 0. *)
Definition oauthModelCatalogCacheKey_of (codexBaseURL clientVersion : string) (a : Account) (c : catalog)
  : oauthModelCatalogCacheKey * catalog :=
  let generations := match generations c !! ID a with Some _ => generations c | None => <[ID a := 0]> (generations c) end in
  (Build_oauthModelCatalogCacheKey (ID a) (default 0 (generations !! ID a)) (TrimRightSlash (TrimSpace codexBaseURL)) clientVersion
     (ToLower (TrimSpace (meta_get (Metadata a) "plan_type"))),
   Build_catalog (cache c) (flights c) (landed c) generations (statuses c) (next_flight c)).

(** The first section of a round of [oauthModelCatalogWithOptions]: a cached
    result, a flight to wait for, a refusal, or a flight of one's own. *)
Inductive admission := Hit (f : oauthModelCatalogFetch) | Join (n : nat) | Refused (f : oauthModelCatalogFetch) | Lead (n : nat).

Definition no_fetch (key : oauthModelCatalogCacheKey) (now : Time) (source : string) : oauthModelCatalogFetch :=
  Build_oauthModelCatalogFetch [] now source false None (k_generation key).

Definition cached_fetch (key : oauthModelCatalogCacheKey) (now : Time) (forceRefresh : bool) (c : catalog)
  : option oauthModelCatalogFetch :=
  if forceRefresh then None
  else
    cached ← cache c !! key;
    if time_before now (expiresAt cached)
    then Some (Build_oauthModelCatalogFetch (e_models cached) now "cache" true None (k_generation key)) else None.

Definition enter (key : oauthModelCatalogCacheKey) (now : Time) (forceRefresh : bool) (c : catalog) : admission * catalog :=
  match cached_fetch key now forceRefresh c with
  | Some fetch => (Hit fetch, c)
  | None =>
      match flights c !! key with
      | Some n => (Join n, c)
      | None =>
          if bool_decide (maxOAuthModelCatalogFlights ≤ Z.of_nat (size (flights c))) then (Refused (no_fetch key now "admission"), c)
          else (Lead (next_flight c),
                Build_catalog (cache c) (<[key := next_flight c]> (flights c)) (landed c) (generations c) (statuses c) (S (next_flight c)))
      end
  end.

(** [storeOAuthModelCatalogCacheLocked]; [order] is the order in which the map is
    iterated, the first of the oldest entries goes. *)
Fixpoint oldest (entries : list (oauthModelCatalogCacheKey * oauthModelCatalogCacheEntry))
    (found : option (oauthModelCatalogCacheKey * Time)) : option oauthModelCatalogCacheKey :=
  match entries with
  | [] => fst <$> found
  | (key, candidate) :: entries =>
      oldest entries
        (match found with
         | Some (_, expiry) => if time_is_zero expiry || time_before (expiresAt candidate) expiry
                               then Some (key, expiresAt candidate) else found
         | None => Some (key, expiresAt candidate)
         end)
  end.

Definition storeOAuthModelCatalogCacheLocked
    (order : list (oauthModelCatalogCacheKey * oauthModelCatalogCacheEntry)) (key : oauthModelCatalogCacheKey)
    (entry : oauthModelCatalogCacheEntry) (cache : gmap oauthModelCatalogCacheKey oauthModelCatalogCacheEntry)
  : gmap oauthModelCatalogCacheKey oauthModelCatalogCacheEntry :=
  let cache :=
    match cache !! key with
    | Some _ => cache
    | None => if bool_decide (maxOAuthModelCatalogCacheEntries ≤ Z.of_nat (size cache))
              then match oldest order None with Some k => delete k cache | None => cache end
              else cache
    end in
  <[key := entry]> cache.

(** The last section of a flight: keep the result, unless the account has changed
    since, and wake those who wait. *)
Definition land (order : list (oauthModelCatalogCacheKey * oauthModelCatalogCacheEntry)) (TTL : Duration)
    (key : oauthModelCatalogCacheKey) (n : nat) (fetch : oauthModelCatalogFetch) (err : option catalog_error) (now : Time)
    (c : catalog) : catalog :=
  let cache :=
    match err with
    | None => if bool_decide (generation (k_accountID key) c = k_generation key)
              then storeOAuthModelCatalogCacheLocked order key
                     (Build_oauthModelCatalogCacheEntry (f_models fetch) (now + TTL)) (cache c)
              else cache c
    | Some _ => cache c
    end in
  Build_catalog cache (delete key (flights c)) (<[n := (fetch, err)]> (landed c)) (generations c) (statuses c) (next_flight c).

Definition oauthModelCatalogGenerationCurrent (accountID g : Z) (c : catalog) : bool := bool_decide (generation accountID c = g).

Definition mergeOAuthModelCatalogStatus (previous current : OAuthModelCatalogStatus) : OAuthModelCatalogStatus :=
  {| LastAttemptAt := LastAttemptAt current;
     LastSuccessAt := match LastSuccessAt current with None => LastSuccessAt previous | t => t end;
     LastFailureAt := match LastFailureAt current with None => LastFailureAt previous | t => t end;
     LastError := LastError current; Source := Source current; CacheHit := CacheHit current;
     UpstreamFetchMS := UpstreamFetchMS current; LocalApplyMS := LocalApplyMS current |}.

Definition put_status (accountID : Z) (g : Z) (s : OAuthModelCatalogStatus) (c : catalog) : catalog :=
  if bool_decide (accountID ≤ 0) || negb (oauthModelCatalogGenerationCurrent accountID g c) then c
  else Build_catalog (cache c) (flights c) (landed c) (generations c)
         (<[accountID := mergeOAuthModelCatalogStatus (default no_status (statuses c !! accountID)) s]> (statuses c)) (next_flight c).

Definition recordOAuthModelCatalogSuccess (accountID : Z) (f : oauthModelCatalogFetch) (localApplyMS : Z) (now : Time)
    (c : catalog) : catalog :=
  put_status accountID (f_generation f)
    {| LastAttemptAt := Some (attemptAt f); LastSuccessAt := Some now; LastFailureAt := None; LastError := ""; Source := f_source f;
       CacheHit := Some (cacheHit f); UpstreamFetchMS := upstreamFetchMS f;
       LocalApplyMS := if bool_decide (0 ≤ localApplyMS) then Some localApplyMS else None |} c.

(** [sanitize] is [sanitizeDiagnosticMessage]. *)
Definition recordOAuthModelCatalogFailure (sanitize : string → string) (accountID : Z) (f : oauthModelCatalogFetch)
    (err : catalog_error) (localApplyMS : Z) (now : Time) (c : catalog) : catalog :=
  put_status accountID (f_generation f)
    {| LastAttemptAt := Some (if time_is_zero (attemptAt f) then now else attemptAt f); LastSuccessAt := None;
       LastFailureAt := Some now; LastError := sanitize (catalog_error_text err); Source := f_source f;
       CacheHit := Some (cacheHit f); UpstreamFetchMS := upstreamFetchMS f;
       LocalApplyMS := if bool_decide (0 ≤ localApplyMS) then Some localApplyMS else None |} c.

Definition catalog_status (accountID : Z) (c : catalog) : result perror OAuthModelCatalogStatus :=
  if bool_decide (accountID ≤ 0) then Err ErrInvalidInput else Ok (default no_status (statuses c !! accountID)).

(** [uint64] arithmetic. *)
Definition next_generation (g : Z) : Z := (g + 1) mod 2 ^ 64.

Definition invalidateOAuthModelCatalog (accountID : Z) (c : catalog) : catalog :=
  if bool_decide (accountID ≤ 0) then c
  else
    {| cache := filter (fun e => k_accountID e.1 ≠ accountID) (cache c); flights := flights c; landed := landed c;
       generations := <[accountID := next_generation (generation accountID c)]> (generations c);
       statuses := delete accountID (statuses c); next_flight := next_flight c |}.

(** Every account with a generation, a cached catalogue or a flight. *)
Definition catalog_accounts (c : catalog) : gset Z :=
  dom (generations c) ∪ set_map k_accountID (dom (cache c)) ∪ set_map k_accountID (dom (flights c)).

Definition invalidateAllOAuthModelCatalogs (c : catalog) : catalog :=
  {| cache := ∅; flights := flights c; landed := landed c;
     generations := set_fold (fun i g => <[i := next_generation (default 0 (g !! i))]> g) (generations c) (catalog_accounts c);
     statuses := ∅; next_flight := next_flight c |}.

(** ** Syncs and updates side by side *)

(** What a sync works with: the account it loaded and the credentials,
    addresses and fingerprint it selected from it. *)
Definition config : Type := Account * SelectedAccount.

(** What the threads share: the catalogues, and the configuration each account
    has in the database. *)
Record world := { shared : catalog; stored : gmap Z config }.

Definition set_shared (c : catalog) (w : world) : world := Build_world c (stored w).

(** Where a thread is.  [syncOAuthAccountModels] of an account: loading it,
    taking the key, entering, waiting for a flight, fetching, landing, checking the
    generation, applying the catalogue, checking again, recording the outcome.
    An update of an account: invalidating, committing. *)
Inductive place :=
| Load
| TakeKey (x : config)
| Enter (x : config) (k : oauthModelCatalogCacheKey)
| Wait (x : config) (k : oauthModelCatalogCacheKey) (at_ : Time) (n : nat)
| Fetching (x : config) (k : oauthModelCatalogCacheKey) (at_ : Time) (n : nat)
| Landing (x : config) (k : oauthModelCatalogCacheKey) (n : nat) (f : oauthModelCatalogFetch) (err : option catalog_error)
| CheckGeneration (x : config) (f : oauthModelCatalogFetch)
| Applying (x : config) (f : oauthModelCatalogFetch)
| Recheck (f : oauthModelCatalogFetch) (localApplyMS : Z)
| Failing (f : oauthModelCatalogFetch) (err : catalog_error) (localApplyMS : Z)
| Succeeding (f : oauthModelCatalogFetch) (localApplyMS : Z)
| Done (err : option catalog_error)
| Invalidating (x : config)
| Committing (x : config)
| Updated.

Record thread := { account : Z; force : bool; at_place : place }.

Definition go (t : thread) (p : place) : thread := Build_thread (account t) (force t) p.

(** Where the answer of [oauthModelCatalogWithOptions] leads. *)
Definition answered (x : config) (f : oauthModelCatalogFetch) (err : option catalog_error) : place :=
  match err with Some e => Failing f e (-1) | None => CheckGeneration x f end.

Section threads.
(** The service's settings; what an upstream may offer to a configuration, and
    how applying a catalogue may end. *)
Context (codexBaseURL : string) (TTL : Duration) (sanitize : string → string) (version : SelectedAccount → string).
Context (offers : config → list AccountModelInput → Prop).

Inductive tstep (t : thread) : world → place → world → Prop :=
| t_load w x : at_place t = Load → stored w !! account t = Some x → tstep t w (TakeKey x) w
| t_load_failed w e : at_place t = Load → tstep t w (Done (Some e)) w
| t_key w x k c :
    at_place t = TakeKey x → oauthModelCatalogCacheKey_of codexBaseURL (version x.2) x.1 (shared w) = (k, c) →
    tstep t w (Enter x k) (set_shared c w)
| t_hit w x k now f c :
    at_place t = Enter x k → enter k now (force t) (shared w) = (Hit f, c) →
    tstep t w (CheckGeneration x f) (set_shared c w)
| t_join w x k now n c :
    at_place t = Enter x k → enter k now (force t) (shared w) = (Join n, c) →
    tstep t w (Wait x k now n) (set_shared c w)
| t_refused w x k now f c :
    at_place t = Enter x k → enter k now (force t) (shared w) = (Refused f, c) →
    tstep t w (Failing f ErrOAuthModelCatalogBusy (-1)) (set_shared c w)
| t_lead w x k now n c :
    at_place t = Enter x k → enter k now (force t) (shared w) = (Lead n, c) →
    tstep t w (Fetching x k now n) (set_shared c w)
| t_wait_cancelled w x k now n e :
    at_place t = Wait x k now n → interrupted (Some e) = true → tstep t w (Failing (no_fetch k now "") e (-1)) w
| t_wait_again w x k now n f err :
    at_place t = Wait x k now n → landed (shared w) !! n = Some (f, err) → interrupted err = true → tstep t w (Enter x k) w
| t_wait_answer w x k now n f err :
    at_place t = Wait x k now n → landed (shared w) !! n = Some (f, err) → tstep t w (answered x f err) w
| t_fetched w x k now n models ms :
    at_place t = Fetching x k now n → offers x models →
    tstep t w (Landing x k n (Build_oauthModelCatalogFetch models now "upstream" false (Some ms) (k_generation k)) None) w
| t_fetch_failed w x k now n ms e :
    at_place t = Fetching x k now n →
    tstep t w (Landing x k n (Build_oauthModelCatalogFetch [] now "upstream" false (Some ms) (k_generation k)) (Some e)) w
| t_land w x k n f err order now :
    at_place t = Landing x k n f err → order ≡ₚ map_to_list (cache (shared w)) →
    tstep t w (answered x f err) (set_shared (land order TTL k n f err now (shared w)) w)
| t_current w x f :
    at_place t = CheckGeneration x f → oauthModelCatalogGenerationCurrent (account t) (f_generation f) (shared w) = true →
    tstep t w (Applying x f) w
| t_stale w x f :
    at_place t = CheckGeneration x f → oauthModelCatalogGenerationCurrent (account t) (f_generation f) (shared w) = false →
    tstep t w (Done (Some ErrOAuthModelCatalogStale)) w
| t_applied w x f ms : at_place t = Applying x f → 0 ≤ ms → tstep t w (Recheck f ms) w
| t_apply_failed w x f e ms : at_place t = Applying x f → 0 ≤ ms → tstep t w (Failing f e ms) w
| t_recheck w f ms :
    at_place t = Recheck f ms →
    tstep t w (if oauthModelCatalogGenerationCurrent (account t) (f_generation f) (shared w) then Succeeding f ms
               else Done (Some ErrOAuthModelCatalogStale)) w
| t_failing w f e ms now :
    at_place t = Failing f e ms →
    tstep t w (Done (Some e)) (set_shared (recordOAuthModelCatalogFailure sanitize (account t) f e ms now (shared w)) w)
| t_succeeding w f ms now :
    at_place t = Succeeding f ms →
    tstep t w (Done None) (set_shared (recordOAuthModelCatalogSuccess (account t) f ms now (shared w)) w)
| t_invalidate w x :
    at_place t = Invalidating x → tstep t w (Committing x) (set_shared (invalidateOAuthModelCatalog (account t) (shared w)) w)
| t_commit w x :
    at_place t = Committing x → tstep t w Updated (Build_world (shared w) (<[account t := x]> (stored w)))
| t_commit_failed w x : at_place t = Committing x → tstep t w Updated w.

(** Threads start at any time, and everything may be invalidated. *)
Inductive step : list thread * world → list thread * world → Prop :=
| step_thread ts w i t p w' : ts !! i = Some t → tstep t w p w' → step (ts, w) (<[i := go t p]> ts, w')
| step_sync ts w id force : 0 < id → step (ts, w) (ts ++ [Build_thread id force Load], w)
| step_update ts w id x : 0 < id → ID x.1 = id → step (ts, w) (ts ++ [Build_thread id false (Invalidating x)], w)
| step_invalidate_all ts w : step (ts, w) (ts, set_shared (invalidateAllOAuthModelCatalogs (shared w)) w).

(** From a service that has just started. *)
Definition reachable (accounts : gmap Z config) (ts : list thread) (w : world) : Prop :=
  rtc step ([], Build_world initial accounts) (ts, w).
End threads.

End ModelCatalog.
