(* ===== verification/ModelCatalogThms.v ===== *)
(** * One flight at a time, and no catalogue from before a change

    The theorems on [ModelCatalog]: what holds of the catalogues and of the
    threads in every reachable state, and where the guarantee that
    [UpdateAccount] wants to give ends. *)

From stdpp Require Import gmap strings.
From S2P Require Import Prelude GoStrings Json Account Scheduling GatewayTypes AccountModels ModelCatalog.

Module ModelCatalogThms.
Import Account ModelCatalog.

(** ** The catalogues *)

Record catalog_ok (c : catalog) : Prop := {
  cache_current : ∀ k e, cache c !! k = Some e → k_generation k = generation (k_accountID k) c;
  cache_bound : Z.of_nat (size (cache c)) ≤ maxOAuthModelCatalogCacheEntries;
  flights_bound : Z.of_nat (size (flights c)) ≤ maxOAuthModelCatalogFlights;
  flights_new : ∀ k n, flights c !! k = Some n → (n < next_flight c)%nat ∧ landed c !! n = None;
  flights_inj : ∀ k k' n, flights c !! k = Some n → flights c !! k' = Some n → k = k';
  landed_old : ∀ n x, landed c !! n = Some x → (n < next_flight c)%nat
}.

Lemma catalog_ok_initial : catalog_ok initial.
Proof. split; cbn; try done; intros *; rewrite lookup_empty; done. Qed.

(** The part of the state that the flights are. *)
Definition flying (c : catalog) := (flights c, landed c, next_flight c).

Lemma catalog_ok_flying c c' :
  flying c' = flying c →
  (∀ k e, cache c' !! k = Some e → k_generation k = generation (k_accountID k) c') →
  Z.of_nat (size (cache c')) ≤ maxOAuthModelCatalogCacheEntries →
  catalog_ok c → catalog_ok c'.
Proof. intros [= Hf Hl Hn] Hc Hs [H1 H2 H3 H4 H5 H6]. split; rewrite ?Hf, ?Hl, ?Hn; done. Qed.

Lemma put_status_spec i g s c :
  cache (put_status i g s c) = cache c ∧ generations (put_status i g s c) = generations c ∧ flying (put_status i g s c) = flying c.
Proof. unfold put_status. by case_match. Qed.

Lemma catalog_ok_put_status i g s c : catalog_ok c → catalog_ok (put_status i g s c).
Proof.
  intros Hc. destruct (put_status_spec i g s c) as (Hcache & Hgen & Hfly).
  eapply catalog_ok_flying; [done| | |done]; rewrite Hcache; [|apply Hc].
  unfold generation. rewrite Hgen. apply Hc.
Qed.

Lemma key_spec base v a c k c' :
  oauthModelCatalogCacheKey_of base v a c = (k, c') →
  k_accountID k = ID a ∧ k_generation k = generation (ID a) c ∧ cache c' = cache c ∧ (∀ i, generation i c' = generation i c) ∧
  flying c' = flying c.
Proof.
  unfold oauthModelCatalogCacheKey_of, generation. intros [= <- <-]. cbn.
  destruct (generations c !! ID a) as [g|] eqn:E; cbn; [by rewrite E|]. rewrite lookup_insert_eq. repeat split.
  intros i. destruct (decide (ID a = i)) as [<-|Hne]; [by rewrite lookup_insert_eq, E|by rewrite lookup_insert_ne].
Qed.

Lemma catalog_ok_key base v a c k c' :
  oauthModelCatalogCacheKey_of base v a c = (k, c') → catalog_ok c → catalog_ok c'.
Proof.
  intros (_ & _ & Hcache & Hgen & Hfly)%key_spec Hc. eapply catalog_ok_flying; [done| | |done]; rewrite Hcache; [|apply Hc].
  intros k' e He. rewrite Hgen. by eapply Hc.
Qed.

Lemma size_filter {A} `{Countable K} (P : K * A → Prop) `{∀ x, Decision (P x)} (m : gmap K A) : (size (filter P m) ≤ size m)%nat.
Proof. rewrite <- !size_dom. apply subseteq_size, dom_filter_subseteq. Qed.

Lemma catalog_ok_invalidate i c : catalog_ok c → catalog_ok (invalidateOAuthModelCatalog i c).
Proof.
  intros Hc. unfold invalidateOAuthModelCatalog. case_match; [done|].
  apply (catalog_ok_flying c); [reflexivity| | |done]; cbn.
  - intros k e [Hk Hne]%map_lookup_filter_Some. cbn in Hne. unfold generation. cbn. rewrite lookup_insert_ne by done. by apply (cache_current _ Hc) in Hk.
  - pose proof (size_filter (fun e => k_accountID e.1 ≠ i) (cache c)). pose proof (cache_bound _ Hc). lia.
Qed.

Lemma catalog_ok_invalidate_all c : catalog_ok c → catalog_ok (invalidateAllOAuthModelCatalogs c).
Proof.
  intros Hc. apply (catalog_ok_flying c); [reflexivity| | |done]; cbn; [intros k e; by rewrite lookup_empty|by rewrite map_size_empty].
Qed.

Lemma enter_spec k now force c a c' :
  enter k now force c = (a, c') →
  match a with
  | Hit f => c' = c ∧ f_generation f = k_generation k ∧ ∃ e, cache c !! k = Some e ∧ now < expiresAt e ∧ f_models f = e_models e
  | Join n => c' = c ∧ flights c !! k = Some n
  | Refused f => c' = c ∧ f_generation f = k_generation k
  | Lead n => flights c !! k = None ∧ n = next_flight c ∧ Z.of_nat (size (flights c)) < maxOAuthModelCatalogFlights ∧
              c' = Build_catalog (cache c) (<[k := n]> (flights c)) (landed c) (generations c) (statuses c) (S n)
  end.
Proof.
  unfold enter. destruct (cached_fetch _ _ _ _) as [f|] eqn:Hf.
  - intros [= <- <-]. unfold cached_fetch in Hf. destruct force; [done|]. apply bind_Some in Hf as (e & He & Hf).
    unfold time_before in Hf. case_bool_decide; [|done]. injection Hf as <-. cbn. eauto 10.
  - destruct (flights c !! k) as [n|] eqn:Hn; [by intros [= <- <-]|]. case_bool_decide; intros [= <- <-]; [done|]. repeat split; try done. lia.
Qed.

Lemma catalog_ok_enter k now force c a c' : enter k now force c = (a, c') → catalog_ok c → catalog_ok c'.
Proof.
  intros He Hc. apply enter_spec in He. destruct a; [by destruct He as [-> _]..|].
  destruct He as (Hk & -> & Hsize & ->). destruct Hc as [H1 H2 H3 H4 H5 H6]. split; cbn; [done|done| | | |].
  - rewrite map_size_insert_None by done. lia.
  - intros k' n. destruct (decide (k = k')) as [<-|Hne]; [rewrite lookup_insert_eq; intros [= <-]; split; [lia|]|].
    + destruct (landed c !! _) eqn:E; [|done]. apply H6 in E. lia.
    + rewrite lookup_insert_ne by done. intros Hn. destruct (H4 _ _ Hn). split; [lia|done].
  - assert (∀ k' n, flights c !! k' = Some n → n ≠ next_flight c) as Hnew by (intros k' n Hn; destruct (H4 _ _ Hn); lia).
    intros k1 k2 n. destruct (decide (k = k1)) as [<-|], (decide (k = k2)) as [<-|];
      rewrite ?lookup_insert_eq, ?lookup_insert_ne by done; [done| | |eauto]; intros ? ?; simplify_eq; exfalso; by eapply Hnew.
  - intros n x Hn. apply H6 in Hn. lia.
Qed.

Lemma oldest_spec entries found :
  (entries ≠ [] ∨ is_Some found) → ∃ k, oldest entries found = Some k ∧ (k ∈ entries.*1 ∨ ∃ t, found = Some (k, t)).
Proof.
  revert found. induction entries as [|[k e] entries IH]; intros found; cbn [oldest].
  { intros [[]|[[k t] ->]]; [done|]. exists k. eauto. }
  intros _. edestruct IH as (k' & Hk & Hin); [right|exists k'; split; [exact Hk|]]; [destruct found as [[? ?]|]; [case_match|]; eauto|].
  rewrite fmap_cons. destruct Hin as [Hin|[t Ht]]; [left; by right|].
  destruct found as [[k0 t0]|]; [case_match; [injection Ht as <- <-; left; left|right; eauto]|injection Ht as <- <-; left; left].
Qed.

Lemma store_spec order key entry m :
  order ≡ₚ map_to_list m → Z.of_nat (size m) ≤ maxOAuthModelCatalogCacheEntries →
  Z.of_nat (size (storeOAuthModelCatalogCacheLocked order key entry m)) ≤ maxOAuthModelCatalogCacheEntries ∧
  ∀ k e, storeOAuthModelCatalogCacheLocked order key entry m !! k = Some e → k = key ∨ m !! k = Some e.
Proof.
  intros Ho Hs. unfold storeOAuthModelCatalogCacheLocked. set (m' := match m !! key with Some _ => _ | None => _ end).
  assert ((∀ k e, m' !! k = Some e → m !! k = Some e) ∧
          Z.of_nat (size m') + (if m' !! key then 0 else 1) ≤ maxOAuthModelCatalogCacheEntries) as [Hsub Hsize].
  { subst m'. destruct (m !! key) as [e0|] eqn:Hk; [split; [done|]; rewrite Hk; lia|].
    case_bool_decide as Hfull; [|split; [done|]; rewrite Hk; unfold maxOAuthModelCatalogCacheEntries in *; lia].
    destruct (oldest_spec order None) as (k & -> & [Hin|[? ?]]); [|split|done].
    - left. intros ->. apply Permutation_nil, map_to_list_empty_iff in Ho. subst. rewrite map_size_empty in Hfull. by vm_compute in Hfull.
    - intros k' e [_ Hk']%lookup_delete_Some. done.
    - rewrite Ho in Hin. apply list_elem_of_fmap in Hin as ([k1 e1] & -> & Hin%elem_of_map_to_list). cbn.
      rewrite map_size_delete, Hin. assert (size m ≠ 0%nat) by (intros H0%map_size_empty_inv; subst; by rewrite lookup_empty in Hin).
      case_match; cbn; lia. }
  split.
  - rewrite map_size_insert. revert Hsize. destruct (m' !! key); cbn; lia.
  - intros k e [[<- <-]|[Hne Hk]]%lookup_insert_Some; auto.
Qed.

Lemma land_flying order TTL k n f err now c :
  flying (land order TTL k n f err now c) = (delete k (flights c), <[n := (f, err)]> (landed c), next_flight c).
Proof. done. Qed.

Lemma catalog_ok_land order TTL k n f err now c :
  order ≡ₚ map_to_list (cache c) → flights c !! k = Some n → catalog_ok c → catalog_ok (land order TTL k n f err now c).
Proof.
  intros Ho Hk Hc. pose proof Hc as [H1 H2 H3 H4 H5 H6].
  assert ((∀ k0 e, cache (land order TTL k n f err now c) !! k0 = Some e → k_generation k0 = generation (k_accountID k0) c) ∧
          Z.of_nat (size (cache (land order TTL k n f err now c))) ≤ maxOAuthModelCatalogCacheEntries) as [Hcur Hsize].
  { cbn. destruct err; [done|]. case_bool_decide as Hg; [|done].
    destruct (store_spec order k (Build_oauthModelCatalogCacheEntry (f_models f) (now + TTL)) (cache c) Ho H2) as [Hs Hl].
    split; [|done]. intros k0 e [->|He]%Hl; [done|by eapply H1]. }
  split; cbn [flights landed next_flight]; [exact Hcur|exact Hsize| | | |]; cbn.
  - rewrite map_size_delete, Hk. unfold maxOAuthModelCatalogFlights in *. lia.
  - intros k' n' [Hne Hk']%lookup_delete_Some. destruct (H4 _ _ Hk'). split; [done|].
    rewrite lookup_insert_ne; [done|]. intros ->. destruct Hne. by eapply H5.
  - intros k1 k2 n' [_ ?]%lookup_delete_Some [_ ?]%lookup_delete_Some. eauto.
  - intros n' x [[<- _]|[_ Hn]]%lookup_insert_Some; [|eauto]. by destruct (H4 _ _ Hk).
Qed.

(** ** The threads *)

(** The flight a thread leads, or waits for. *)
Definition leads (t : thread) : option (oauthModelCatalogCacheKey * nat) :=
  match at_place t with Fetching _ k _ n => Some (k, n) | Landing _ k n _ _ => Some (k, n) | _ => None end.

Definition awaits (t : thread) : option (oauthModelCatalogCacheKey * nat) :=
  match at_place t with Wait _ k _ n => Some (k, n) | _ => None end.

Record threads_ok (ts : list thread) (c : catalog) : Prop := {
  leader_flies : ∀ i t k n, ts !! i = Some t → leads t = Some (k, n) → flights c !! k = Some n;
  leader_unique : ∀ i j t u k n n', ts !! i = Some t → ts !! j = Some u → leads t = Some (k, n) → leads u = Some (k, n') → i = j;
  flight_led : ∀ k n, flights c !! k = Some n → ∃ i t, ts !! i = Some t ∧ leads t = Some (k, n);
  waiter_served : ∀ i t k n, ts !! i = Some t → awaits t = Some (k, n) → is_Some (landed c !! n) ∨ flights c !! k = Some n
}.

Lemma threads_ok_flying ts c c' : flying c' = flying c → threads_ok ts c → threads_ok ts c'.
Proof. intros [= Hf Hl _] [H1 H2 H3 H4]. split; rewrite ?Hf, ?Hl; done. Qed.

(** A thread moves on without the flights being touched: it leads what it led,
    and waits at most for a flight there is. *)
Lemma threads_ok_move ts c c' i t p :
  ts !! i = Some t → flying c' = flying c → leads (go t p) = leads t →
  (∀ k n, awaits (go t p) = Some (k, n) → is_Some (landed c !! n) ∨ flights c !! k = Some n) →
  threads_ok ts c → threads_ok (<[i := go t p]> ts) c'.
Proof.
  intros Hi Hf Hl Hw Ht. apply (threads_ok_flying _ c); [done|]. destruct Ht as [H1 H2 H3 H4].
  assert (i < length ts)%nat as Hlt by by eapply lookup_lt_Some.
  assert (∀ j u, <[i := go t p]> ts !! j = Some u → ∃ u', ts !! j = Some u' ∧ leads u = leads u' ∧
            (awaits u = awaits u' ∨ (∀ k n, awaits u = Some (k, n) → is_Some (landed c !! n) ∨ flights c !! k = Some n))) as Hback.
  { intros j u [(<- & <- & _)|[_ Hu]]%list_lookup_insert_Some; eauto. }
  split.
  - intros j u k n (u' & Hu & -> & _)%Hback. eauto.
  - intros j1 j2 u1 u2 k n n' (u1' & Hu1 & -> & _)%Hback (u2' & Hu2 & -> & _)%Hback. eauto.
  - intros k n (j & u & Hu & Hlu)%H3. destruct (decide (i = j)) as [<-|Hne].
    + exists i, (go t p). rewrite list_lookup_insert_eq by done. simplify_eq. split; [done|congruence].
    + exists j, u. by rewrite list_lookup_insert_ne.
  - intros j u k n (u' & Hu & _ & [Ha|Ha])%Hback; [|by apply Ha]. rewrite Ha. eauto.
Qed.

(** A thread takes off. *)
Lemma threads_ok_lead ts c i t x k now n :
  ts !! i = Some t → leads t = None → flights c !! k = None →
  threads_ok ts c →
  threads_ok (<[i := go t (Fetching x k now n)]> ts)
    (Build_catalog (cache c) (<[k := n]> (flights c)) (landed c) (generations c) (statuses c) (S n)).
Proof.
  intros Hi Hl Hk [H1 H2 H3 H4]. assert (i < length ts)%nat as Hlt by by eapply lookup_lt_Some.
  assert (∀ j u k' n', ts !! j = Some u → leads u = Some (k', n') → k ≠ k') as Hother.
  { intros j u k' n' Hu Hlu <-. rewrite (H1 _ _ _ _ Hu Hlu) in Hk. done. }
  split; cbn.
  - intros j u k' n' [(<- & <- & _)|[_ Hu]]%list_lookup_insert_Some Hlu.
    + cbv in Hlu. injection Hlu as <- <-. by rewrite lookup_insert_eq.
    + rewrite lookup_insert_ne by by eapply Hother. eauto.
  - intros j1 j2 u1 u2 k' n1 n2 [(<- & <- & _)|[? Hu1]]%list_lookup_insert_Some [(<- & <- & _)|[? Hu2]]%list_lookup_insert_Some Hl1 Hl2;
      [done| | |eauto].
    + cbv in Hl1. injection Hl1 as <- <-. by destruct (Hother _ _ _ _ Hu2 Hl2).
    + cbv in Hl2. injection Hl2 as <- <-. by destruct (Hother _ _ _ _ Hu1 Hl1).
  - intros k' n' [[<- <-]|[Hne Hf]]%lookup_insert_Some.
    + exists i, (go t (Fetching x k now n)). by rewrite list_lookup_insert_eq.
    + apply H3 in Hf as (j & u & Hu & Hlu). exists j, u. rewrite list_lookup_insert_ne; [done|]. intros <-. simplify_eq.
  - intros j u k' n' [(<- & <- & _)|[_ Hu]]%list_lookup_insert_Some Ha; [done|].
    destruct (H4 _ _ _ _ Hu Ha) as [?|Hf]; [by left|]. right. rewrite lookup_insert_ne; [done|]. intros <-. congruence.
Qed.

(** A flight lands: its leader goes on, those who wait have their answer. *)
Lemma threads_ok_land ts c c' i t k n p r :
  ts !! i = Some t → leads t = Some (k, n) → leads (go t p) = None → awaits (go t p) = None →
  flying c' = (delete k (flights c), <[n := r]> (landed c), next_flight c) →
  threads_ok ts c → threads_ok (<[i := go t p]> ts) c'.
Proof.
  intros Hi Hl Hp Ha [= Hf Hld _] [H1 H2 H3 H4]. assert (i < length ts)%nat as Hlt by by eapply lookup_lt_Some.
  assert (∀ j u k' n', j ≠ i → ts !! j = Some u → leads u = Some (k', n') → k ≠ k') as Hother.
  { intros j u k' n' Hne Hu Hlu <-. apply Hne. by eapply H2. }
  split; rewrite ?Hf, ?Hld.
  - intros j u k' n' [(<- & <- & _)|[Hne Hu]]%list_lookup_insert_Some Hlu; [congruence|].
    rewrite lookup_delete_ne by by eapply Hother. eauto.
  - intros j1 j2 u1 u2 k' n1 n2 [(<- & <- & _)|[? Hu1]]%list_lookup_insert_Some [(<- & <- & _)|[? Hu2]]%list_lookup_insert_Some Hl1 Hl2;
      [done|congruence|congruence|eauto].
  - intros k' n' [Hne Hk']%lookup_delete_Some. apply H3 in Hk' as (j & u & Hu & Hlu). exists j, u.
    rewrite list_lookup_insert_ne; [done|]. intros <-. simplify_eq.
  - intros j u k' n' [(<- & <- & _)|[Hne Hu]]%list_lookup_insert_Some Hw; [congruence|].
    destruct (decide (n = n')) as [<-|Hn]; [left; rewrite lookup_insert_eq; eauto|]. rewrite lookup_insert_ne by done.
    destruct (H4 _ _ _ _ Hu Hw) as [?|Hk']; [by left|]. right. rewrite lookup_delete_ne; [done|]. intros <-.
    pose proof (H1 _ _ _ _ Hi Hl). congruence.
Qed.

Lemma threads_ok_start ts c t : leads t = None → awaits t = None → threads_ok ts c → threads_ok (ts ++ [t]) c.
Proof.
  intros Hl Ha [H1 H2 H3 H4].
  assert (∀ i u, (ts ++ [t]) !! i = Some u → ts !! i = Some u ∨ u = t) as Hback.
  { intros i u [Hu|[_ Hu]]%lookup_app_Some; [by left|]. apply list_lookup_singleton_Some in Hu as [_ <-]. by right. }
  split.
  - intros i u k n [Hu| ->]%Hback; [eauto|congruence].
  - intros i j u v k n n' [Hu| ->]%Hback [Hv| ->]%Hback; try congruence. eauto.
  - intros k n (i & u & Hu & Hlu)%H3. exists i, u. split; [|done]. by apply lookup_app_l_Some.
  - intros i u k n [Hu| ->]%Hback; [eauto|congruence].
Qed.

Lemma leads_answered t x f err : leads (go t (answered x f err)) = None ∧ awaits (go t (answered x f err)) = None.
Proof. by destruct err. Qed.

Section reachable.
Context (codexBaseURL : string) (TTL : Duration) (sanitize : string → string) (version : SelectedAccount → string).
Context (offers : config → list AccountModelInput → Prop).

Definition inv (ts : list thread) (w : world) : Prop := catalog_ok (shared w) ∧ threads_ok ts (shared w).

Lemma inv_move ts w i t p :
  ts !! i = Some t → leads (go t p) = leads t →
  (∀ k n, awaits (go t p) = Some (k, n) → is_Some (landed (shared w) !! n) ∨ flights (shared w) !! k = Some n) →
  inv ts w → inv (<[i := go t p]> ts) w.
Proof. intros ? ? ? [? ?]. split; [done|]. by eapply threads_ok_move. Qed.

Lemma inv_section ts w i t p c :
  ts !! i = Some t → flying c = flying (shared w) → catalog_ok c → leads (go t p) = leads t → awaits (go t p) = None →
  inv ts w → inv (<[i := go t p]> ts) (set_shared c w).
Proof. intros ? ? ? ? Ha [? ?]. split; [done|]. eapply threads_ok_move; [done..| |done]. by rewrite Ha. Qed.

(** Threads that neither lead nor wait. *)
Lemma idle t p : at_place t = p → (leads t, awaits t) = (leads (go t p), awaits (go t p)).
Proof. intros <-. by destruct t. Qed.

Lemma inv_tstep ts w i t p w' :
  ts !! i = Some t → tstep codexBaseURL TTL sanitize version offers t w p w' → inv ts w → inv (<[i := go t p]> ts) w'.
Proof.
  intros Hi Hstep Hinv. pose proof Hinv as [Hc Ht].
  destruct Hstep; match goal with H : at_place t = _ |- _ => pose proof (idle t _ H) as Hidle end; injection Hidle as Hl Ha;
    try (apply inv_move; [done|by rewrite Hl|done|done]).
  - eapply inv_section; [done| |by eapply catalog_ok_key|by rewrite Hl|done|done]. by apply key_spec in H0 as (_ & _ & _ & _ & ?).
  - apply enter_spec in H0 as (-> & _ & _). destruct w. apply inv_move; [done|by rewrite Hl|done|done].
  - apply enter_spec in H0 as (-> & Hf). destruct w. apply inv_move; [done|by rewrite Hl| |done]. intros k' n' [= <- <-]. by right.
  - apply enter_spec in H0 as (-> & _). destruct w. apply inv_move; [done|by rewrite Hl|done|done].
  - pose proof (catalog_ok_enter _ _ _ _ _ _ H0 Hc). apply enter_spec in H0 as (Hk & -> & _ & ->).
    split; [done|]. by apply threads_ok_lead.
  - destruct (leads_answered t x f err) as [E1 E2]. apply inv_move; [done|by rewrite E1, Hl|by rewrite E2|done].
  - destruct (leads_answered t x f err) as [E1 E2]. split; [apply catalog_ok_land; [done| |done]; by eapply leader_flies|].
    eapply threads_ok_land; [done|exact Hl|done|done|apply land_flying|done].
  - apply inv_move; [done|rewrite Hl; by case_match|intros ? ?; by case_match|done].
  - apply inv_section; [done|by apply put_status_spec|by apply catalog_ok_put_status|by rewrite Hl|done|done].
  - apply inv_section; [done|by apply put_status_spec|by apply catalog_ok_put_status|by rewrite Hl|done|done].
  - apply inv_section; [done| |by apply catalog_ok_invalidate|by rewrite Hl|done|done].
    unfold invalidateOAuthModelCatalog. by case_match.
Qed.

Lemma inv_step x y : step codexBaseURL TTL sanitize version offers x y → inv x.1 x.2 → inv y.1 y.2.
Proof.
  destruct 1; cbn; [by eapply inv_tstep|..]; intros [? ?]; split; try done; try by apply threads_ok_start.
  - by apply catalog_ok_invalidate_all.
  - by apply (threads_ok_flying ts (shared w)).
Qed.

Lemma inv_reachable accounts ts w : reachable codexBaseURL TTL sanitize version offers accounts ts w → inv ts w.
Proof.
  unfold reachable. intros H.
  assert (inv (ts, w).1 (ts, w).2); [|done]. eapply (rtc_ind_r (fun y => inv y.1 y.2)); [| |exact H].
  - split; [apply catalog_ok_initial|]. split; cbn; intros *; by rewrite ?lookup_nil, ?lookup_empty.
  - intros y z _ Hs Hy. by eapply inv_step.
Qed.

(** [C21] One fetch at a time.  However syncs, updates of accounts and invalidations interleave: a cached catalogue was asked for
    after the last invalidation of its account; there are at most thirty-two of them and at most eight fetches under way;
    each fetch under way is the only one for its account and configuration and has exactly one sync that carries it out;
    and a sync that waits, waits for such a fetch or has its answer. *)
Theorem catalog_single_flight accounts ts w :
  reachable codexBaseURL TTL sanitize version offers accounts ts w →
  (∀ k e, cache (shared w) !! k = Some e → k_generation k = generation (k_accountID k) (shared w)) ∧
  Z.of_nat (size (cache (shared w))) ≤ 32 ∧ Z.of_nat (size (flights (shared w))) ≤ 8 ∧
  (∀ k n, flights (shared w) !! k = Some n ↔ ∃ i t, ts !! i = Some t ∧ leads t = Some (k, n)) ∧
  (∀ i j t u k n n', ts !! i = Some t → ts !! j = Some u → leads t = Some (k, n) → leads u = Some (k, n') → i = j) ∧
  (∀ i t k n, ts !! i = Some t → awaits t = Some (k, n) →
     is_Some (landed (shared w) !! n) ∨ ∃ j u, ts !! j = Some u ∧ leads u = Some (k, n)).
Proof.
  intros [[H1 H2 H3 _ _ _] [T1 T2 T3 T4]]%inv_reachable. split; [done|]. split; [done|]. split; [done|].
  split; [split; [apply T3|by intros (i & t & ? & ?); eapply T1]|]. split; [done|].
  intros i t k n Hi Ha. destruct (T4 _ _ _ _ Hi Ha) as [?|?%T3]; auto.
Qed.
End reachable.

(** ** Where the guarantee ends

    [UpdateAccount] advances the generation before it changes the account "so an
    in-flight request cannot apply a response fetched with the old credential,
    endpoint, proxy, or account configuration".  A sync that loaded the account
    before the invalidation and takes its key after it is not caught. *)

Definition ended (t : thread) : bool := match at_place t with Done _ | Updated => true | _ => false end.

Section stale.
Context (codexBaseURL : string) (TTL : Duration) (sanitize : string → string) (version : SelectedAccount → string).
Context (offers : config → list AccountModelInput → Prop).

Abbreviation steps := (rtc (step codexBaseURL TTL sanitize version offers)).

Lemma thread_runs ts ts' w w' w'' i t p y :
  ts !! i = Some t → tstep codexBaseURL TTL sanitize version offers t w p w' → ts' = <[i := go t p]> ts → w'' = w' →
  steps (ts', w'') y → steps (ts, w) y.
Proof. intros Hi Hs -> -> Hy. eapply rtc_l; [|exact Hy]. by eapply step_thread. Qed.

Definition stale_key (x : config) : oauthModelCatalogCacheKey :=
  Build_oauthModelCatalogCacheKey (ID x.1) 1 (TrimRightSlash (TrimSpace codexBaseURL)) (version x.2)
    (ToLower (TrimSpace (meta_get (Metadata x.1) "plan_type"))).

Definition stale_catalog (x : config) (models : list AccountModelInput) (now : Time) (statuses : gmap Z OAuthModelCatalogStatus) : catalog :=
  Build_catalog {[ stale_key x := Build_oauthModelCatalogCacheEntry models (now + TTL) ]} ∅
    {[ 0%nat := (Build_oauthModelCatalogFetch models now "upstream" false (Some 0) 1, None) ]} {[ ID x.1 := 1 ]} statuses 1.

Lemma key_after_invalidation x c :
  generations c !! ID x.1 = Some 1 → oauthModelCatalogCacheKey_of codexBaseURL (version x.2) x.1 c = (stale_key x, c).
Proof. intros Hg. unfold oauthModelCatalogCacheKey_of, stale_key. destruct c; cbn in *. by rewrite !Hg. Qed.

(** The state after the invalidation, and what a sync then finds. *)
Definition invalidated (id : Z) : catalog := Build_catalog ∅ ∅ ∅ {[ id := 1 ]} ∅ 0.

Lemma invalidate_initial id : 0 < id → invalidateOAuthModelCatalog id initial = invalidated id.
Proof. intros Hid. unfold invalidateOAuthModelCatalog. by rewrite bool_decide_eq_false_2 by lia. Qed.

Lemma land_stale x models now :
  land [] TTL (stale_key x) 0 (Build_oauthModelCatalogFetch models now "upstream" false (Some 0) 1) None now
    (Build_catalog ∅ {[ stale_key x := 0%nat ]} ∅ {[ ID x.1 := 1 ]} ∅ 1) = stale_catalog x models now ∅.
Proof.
  unfold land, stale_catalog, generation. cbn. rewrite lookup_singleton_eq, bool_decide_eq_true_2 by done.
  unfold storeOAuthModelCatalogCacheLocked. rewrite lookup_empty, map_size_empty. cbn. f_equal. exact (delete_singleton_eq (M := gmap oauthModelCatalogCacheKey) (stale_key x) 0%nat).
Qed.

(** A catalogue fetched with credentials that an update has replaced can be kept and served.  There is an execution, of one
    sync and one update of an account, after which both have ended, the account has its new configuration, and the
    catalogue that the old configuration was offered is cached for the account's current generation: until it expires,
    every sync of the account with the new configuration that does not force a refresh takes it for its own. *)
Theorem old_credentials_cached x x' models now :
  0 < ID x.1 → ID x'.1 = ID x.1 → stale_key x' = stale_key x → offers x models →
  ∃ ts w, reachable codexBaseURL TTL sanitize version offers {[ ID x.1 := x ]} ts w ∧
    forallb ended ts = true ∧ stored w !! ID x.1 = Some x' ∧
    ∀ later, later < now + TTL →
      ∃ key f, oauthModelCatalogCacheKey_of codexBaseURL (version x'.2) x'.1 (shared w) = (key, shared w) ∧
        enter key later false (shared w) = (Hit f, shared w) ∧ f_models f = models.
Proof.
  intros Hid Hid' Hkey Hoff. set (id := ID x.1) in *.
  set (f := Build_oauthModelCatalogFetch models now "upstream" false (Some 0) 1).
  set (flying_on := Build_catalog ∅ {[ stale_key x := 0%nat ]} ∅ {[ id := 1 ]} ∅ 1).
  assert (∃ st, steps ([], Build_world initial {[ id := x ]})
    ([Build_thread id false (Done None); Build_thread id false Updated], Build_world (stale_catalog x models now st) {[ id := x' ]})) as [st Hst].
  - eexists. eapply rtc_l; [by apply (step_sync _ _ _ _ _ [] _ id false)|]. cbn [app].
    eapply (thread_runs _ [_] _ _ _ 0); [done|by apply (t_load _ _ _ _ _ _ _ x); [|apply lookup_singleton_eq]|done|done|].
    eapply rtc_l; [by apply (step_update _ _ _ _ _ _ _ id x')|]. cbn [app go account force].
    eapply (thread_runs _ [_; _] _ _ (Build_world (invalidated id) {[ id := x ]}) 1); [done|by apply t_invalidate|done|by cbn; rewrite invalidate_initial|].
    eapply (thread_runs _ [_; _] _ _ (Build_world (invalidated id) {[ id := x ]}) 0); [done| |done|reflexivity|].
    { apply (t_key _ _ _ _ _ _ (Build_world (invalidated id) _) x (stale_key x) (invalidated id)); [done|]. apply key_after_invalidation, lookup_singleton_eq. }
    eapply (thread_runs _ [_; _] _ _ (Build_world flying_on {[ id := x ]}) 0); [done| |done|reflexivity|].
    { apply (t_lead _ _ _ _ _ _ (Build_world (invalidated id) _) x (stale_key x) now 0%nat flying_on); [done|]. unfold enter, cached_fetch. cbn.
      rewrite !lookup_empty. cbn. by rewrite map_size_empty. }
    eapply (thread_runs _ [_; _] _ _ _ 0); [done|by apply (t_fetched _ _ _ _ _ _ _ x (stale_key x) now 0%nat models 0)|done|done|].
    eapply (thread_runs _ [_; _] _ _ (Build_world (stale_catalog x models now ∅) {[ id := x ]}) 0); [done| |done| |].
    { by apply (t_land _ _ _ _ _ _ _ x (stale_key x) 0%nat f None [] now). }
    { unfold set_shared. cbn [shared stored]. f_equal. symmetry. apply land_stale. }
    assert (∀ s, generation id (stale_catalog x models now s) = 1) as Hgen by (intros s; unfold generation; cbn; by rewrite lookup_singleton_eq).
    eapply (thread_runs _ [_; _] _ _ _ 0); [done| |done|done|].
    { apply (t_current _ _ _ _ _ _ _ x f); [done|]. apply bool_decide_eq_true. apply Hgen. }
    eapply (thread_runs _ [_; _] _ _ _ 0); [done|by apply (t_applied _ _ _ _ _ _ _ x f 0)|done|done|].
    eapply (thread_runs _ [_; _] _ _ _ 0); [done|by apply (t_recheck _ _ _ _ _ _ _ f 0)|done|done|].
    cbn [shared account go]. unfold oauthModelCatalogGenerationCurrent at 1. rewrite Hgen. rewrite bool_decide_eq_true_2 by done.
    eapply (thread_runs _ [_; _] _ _ _ 0); [done|by apply (t_succeeding _ _ _ _ _ _ _ f 0 now)|done|done|].
    eapply (thread_runs _ [_; _] _ _ _ 1); [done|by apply (t_commit _ _ _ _ _ _ _ x')|done|done|].
    cbn [shared stored set_shared account go list_insert]. rewrite insert_singleton_eq.
    unfold recordOAuthModelCatalogSuccess, put_status. rewrite bool_decide_eq_false_2 by lia. cbn [orb].
    unfold oauthModelCatalogGenerationCurrent. rewrite Hgen, bool_decide_eq_true_2 by done. cbn [negb]. constructor.
  - eexists _, _. split; [exact Hst|]. split; [done|]. split; [apply lookup_singleton_eq|]. cbn [shared]. intros later Hlater.
    exists (stale_key x). eexists. split; [|split].
    + rewrite key_after_invalidation by (cbn; rewrite Hid'; exact (lookup_singleton_eq (M := gmap Z) id 1)). by rewrite Hkey.
    + assert (cache (stale_catalog x models now st) !! stale_key x = Some (Build_oauthModelCatalogCacheEntry models (now + TTL))) as Hc
        by exact (lookup_singleton_eq (M := gmap oauthModelCatalogCacheKey) (stale_key x) _).
      unfold enter, cached_fetch. rewrite Hc. cbn [mbind option_bind expiresAt]. unfold time_before. by rewrite bool_decide_eq_true_2.
    + done.
Qed.
End stale.

(** ** Examples *)

Module Demo.

Definition selected (proxyURL : string) : SelectedAccount :=
  {| AccountID := ID demo_account; S_Provider := "openai"; S_AccountType := AccountTypeCodexOAuth; S_DisplayName := "demo";
     AuthorizationToken := "token"; S_BaseURL := ""; ProxyURL := proxyURL; ChatGPTAccountID := ""; S_MaxConcurrentRequests := 0;
     RoutingPoolID := 0; RoutingPoolName := ""; RoutingPoolFallbackDepth := 0; RoutingPoolFallbackChain := ""; RoutingPoolError := "";
     FingerprintUA := ""; FingerprintTLS := ""; FingerprintHeaders := None |}.

(** The account behind its old and its new proxy. *)
Definition old : config := (demo_account, selected "http://old.example").
Definition new : config := (demo_account, selected "http://new.example").
Definition gpt : list AccountModelInput := [AccountModels.Build_AccountModelInput "gpt" true None].
Definition only_old (x : config) (models : list AccountModelInput) : Prop := ProxyURL x.2 = "http://old.example" ∧ models = gpt.

Lemma old_credentials_cached_demo :
  ∃ ts w, reachable "" Hour id (fun _ => "") only_old {[ ID demo_account := old ]} ts w ∧ forallb ended ts = true ∧
    stored w !! ID demo_account = Some new ∧
    ∀ later, later < Hour →
      ∃ key f, oauthModelCatalogCacheKey_of "" "" demo_account (shared w) = (key, shared w) ∧
        enter key later false (shared w) = (Hit f, shared w) ∧ f_models f = gpt.
Proof. exact (old_credentials_cached "" Hour id (fun _ => "") only_old old new gpt 0 eq_refl eq_refl eq_refl (conj eq_refl eq_refl)). Defined.

(** Two syncs at once: the second waits for the flight of the first. *)
Definition k : oauthModelCatalogCacheKey := (oauthModelCatalogCacheKey_of "" "" demo_account initial).1.
Definition asked : catalog := (oauthModelCatalogCacheKey_of "" "" demo_account initial).2.
Definition under_way : catalog := (enter k 0 false asked).2.

Definition two : list thread :=
  [Build_thread (ID demo_account) false (Fetching old k 0 0); Build_thread (ID demo_account) false (Wait old k 5 0)].

Lemma two_reachable : reachable "" Hour id (fun _ => "") only_old {[ ID demo_account := old ]} two
                        (Build_world under_way {[ ID demo_account := old ]}).
Proof.
  unfold reachable. set (acc := ID demo_account). set (st := {[ acc := old ]}).
  assert (st !! acc = Some old) as Hst by apply lookup_singleton_eq.
  eapply rtc_l; [by apply (step_sync _ _ _ _ _ [] _ acc false)|]. cbn [app].
  eapply rtc_l; [by apply (step_sync _ _ _ _ _ [_] _ acc false)|]. cbn [app].
  eapply (thread_runs _ _ _ _ _ _ [_; _] (Build_world initial st) _ (Build_world initial st) 0); [done|by apply (t_load _ _ _ _ _ _ (Build_world initial st) old)|done|done|].
  eapply (thread_runs _ _ _ _ _ _ [_; _] (Build_world initial st) _ (Build_world initial st) 1); [done|by apply (t_load _ _ _ _ _ _ (Build_world initial st) old)|done|done|].
  eapply (thread_runs _ _ _ _ _ _ [_; _] (Build_world initial st) _ (Build_world asked st) 0);
    [done|by apply (t_key _ _ _ _ _ _ (Build_world initial st) old k asked)|done|done|].
  eapply (thread_runs _ _ _ _ _ _ [_; _] (Build_world asked st) _ (Build_world asked st) 1);
    [done|by apply (t_key _ _ _ _ _ _ (Build_world asked st) old k asked)|done|done|].
  eapply (thread_runs _ _ _ _ _ _ [_; _] (Build_world asked st) _ (Build_world under_way st) 0);
    [done|by apply (t_lead _ _ _ _ _ _ (Build_world asked st) old k 0 0%nat under_way)|done|done|].
  eapply (thread_runs _ _ _ _ _ _ [_; _] (Build_world under_way st) _ (Build_world under_way st) 1);
    [done|by apply (t_join _ _ _ _ _ _ (Build_world under_way st) old k 5 0%nat under_way)|done|done|].
  constructor.
Qed.

Lemma catalog_single_flight_demo :
  is_Some (landed under_way !! 0%nat) ∨ ∃ j u, two !! j = Some u ∧ leads u = Some (k, 0%nat).
Proof.
  destruct (catalog_single_flight "" Hour id (fun _ => "") only_old _ _ _ two_reachable) as (_ & _ & _ & _ & _ & H).
  exact (H 1%nat (Build_thread (ID demo_account) false (Wait old k 5 0)) k 0%nat eq_refl eq_refl).
Defined.
End Demo.

End ModelCatalogThms.
