(* ===== verification/ModelProbe.v ===== *)
(** * Probing an upstream

    What [provider/service.go] makes of the answers to its test requests: the
    status probe and the model probe of [HTTPClient], the reading of error
    messages and event streams, and the diagnostic messages that are stored, with
    the secrets taken out of them. *)

From stdpp Require Import gmap strings.
From Stdlib Require Import Ascii.
From Stdlib Require String.
From S2P Require Import Prelude GoStrings Account Json Sse GatewayTypes GatewayPure OAuth ModelCatalog.

Module ModelProbe.
Import Account ModelCatalog.
#[local] Existing Instance Sse.read_error_eq_dec.

Abbreviation bytes := (list ascii).
Definition text_of : bytes → string := String.string_of_list_ascii.
Definition bytes_of : string → bytes := String.list_ascii_of_string.

(** ** Diagnostic messages *)

(** [strings.Fields] *)
Definition emit (cur : bytes) : list bytes := match cur with [] => [] | _ => [cur] end.

Fixpoint fields_bytes (l cur : bytes) : list bytes :=
  match l with
  | [] => emit cur
  | a :: l1 =>
      if space1 a then emit cur ++ fields_bytes l1 []
      else match l1 with
      | b :: l2 =>
          if space2 a b then emit cur ++ fields_bytes l2 []
          else match l2 with
          | c :: l3 => if space3 a b c then emit cur ++ fields_bytes l3 [] else fields_bytes l1 (cur ++ [a])
          | [] => fields_bytes l1 (cur ++ [a])
          end
      | [] => fields_bytes l1 (cur ++ [a])
      end
  end.

(** [strings.Join(_, " ")] *)
Fixpoint join_bytes (l : list bytes) : bytes :=
  match l with [] => [] | [s] => s | s :: l => s ++ " "%char :: join_bytes l end.

Definition sanitizeDiagnosticMessage (message : string) : string :=
  text_of (take 512 (join_bytes (fields_bytes (bytes_of (TrimSpace message)) []))).

(** [strings.ReplaceAll] for a text that is not empty; [skip] bytes belong to an
    occurrence already replaced. *)
Fixpoint replace_bytes (old new : bytes) (skip : nat) (l : bytes) : bytes :=
  match l with
  | [] => []
  | a :: l' =>
      match skip with
      | S n => replace_bytes old new n l'
      | O => if prefix_of old l then new ++ replace_bytes old new (length old - 1) l' else a :: replace_bytes old new 0 l'
      end
  end.

Definition redacted : bytes := bytes_of "[redacted]".

Section redact.
(** The password in a proxy's address ([url.Parse] and [User.Password]), and the
    iteration order of a map. *)
Context (proxy_password : string → option string) (iterate : gmap string string → list (string * string)).

Definition probe_secrets (selected : SelectedAccount) : list string :=
  TrimSpace (AuthorizationToken selected) ::
  match proxy_password (TrimSpace (ProxyURL selected)) with Some p => [p] | None => [] end ++
  map (fun h => TrimSpace h.2) (iterate (default ∅ (FingerprintHeaders selected))).

Definition redact_one (message : bytes) (value : string) : bytes :=
  if bool_decide (4 ≤ go_len value) then replace_bytes (bytes_of value) redacted 0 message else message.

Definition redactModelProbeSecrets (message : string) (selected : SelectedAccount) : string :=
  sanitizeDiagnosticMessage (text_of (foldl redact_one (bytes_of message) (probe_secrets selected))).
End redact.

Definition classifyModelProbeHTTPError (statusCode : Z) (message : string) : string :=
  if bool_decide (statusCode = 401) || bool_decide (statusCode = 403) then "unauthorized"
  else if bool_decide (statusCode = 429) then "rate_limited"
  else if bool_decide (statusCode = 404) then "model_not_found"
  else
    let lower := ToLower message in
    if Contains lower "model" && (Contains lower "not found" || Contains lower "does not exist" ||
                                  Contains lower "unknown" || Contains lower "unsupported")
    then "model_not_found" else "upstream_error".

(** ** Bodies *)

Definition maxModelProbeBody : Z := 4 * 2 ^ 20.
Definition maxModelProbeErrorBody : Z := 64 * 2 ^ 10.

(** What can be read of a body, and how reading ends. *)
Definition body : Type := bytes * Sse.read_error.

Definition take_bytes (n : Z) (l : bytes) : bytes := if bool_decide (Z.of_nat (length l) ≤ n) then l else take (Z.to_nat n) l.

(** [io.ReadAll(io.LimitReader(_, limit))]: an error after the limit is not seen. *)
Definition read_limited (limit : Z) (b : body) : option bytes :=
  if bool_decide (limit ≤ Z.of_nat (length b.1)) then Some (take_bytes limit b.1)
  else if bool_decide (b.2 = Sse.ReadEOF) then Some b.1 else None.

Definition readBoundedBody (b : body) (limit : Z) : option (bytes * bool) :=
  raw ← read_limited (limit + 1) b;
  Some (if bool_decide (limit < Z.of_nat (length raw)) then (take_bytes limit raw, true) else (raw, false)).

(** The member [message] of an object, into a struct that has only this field. *)
Definition message_member (cur : string) (name : string) (v : string * Json.json) : option string :=
  if EqualFold name "message" then set_string id cur v.2 else Some cur.

(** The struct of an error body: error.message and message. *)
Definition error_member (cur : string * string) (name : string) (v : string * Json.json) : option (string * string) :=
  if EqualFold name "error" then m ← decode_members message_member v.2 cur.1; Some (m, cur.2)
  else if EqualFold name "message" then set_string (fun s => (cur.1, s)) cur v.2
  else Some cur.

Definition unmarshal {A} (member : A → string → string * Json.json → option A) (zero : A) (raw : bytes) : option A :=
  v ← Json.parse (text_of raw); decode_members member v zero.

Definition blank (s : string) : bool := str_eq (TrimSpace s) "".

Section messages.
Context (StatusText : Z → string).

Definition readModelProbeError (b : body) (statusCode : Z) : string :=
  match readBoundedBody b maxModelProbeErrorBody with
  | None => StatusText statusCode
  | Some (raw, _) =>
      match unmarshal error_member ("", "") raw with
      | None => StatusText statusCode
      | Some (error_message, message) =>
          let message := sanitizeDiagnosticMessage (if blank error_message then message else error_message) in
          if str_eq message "" then StatusText statusCode else message
      end
  end.

(** Only error.message counts. *)
Definition nested_member (cur : string) (name : string) (v : string * Json.json) : option string :=
  if EqualFold name "error" then decode_members message_member v.2 cur else Some cur.

Definition readErrorMessage (b : body) (statusCode : Z) : string :=
  match read_limited maxModelProbeErrorBody b with
  | None => StatusText statusCode
  | Some raw =>
      if blank (text_of raw) then StatusText statusCode
      else match unmarshal nested_member "" raw with
           | Some message => if blank message then TrimSpace (text_of raw) else TrimSpace message
           | None => TrimSpace (text_of raw)
           end
  end.
End messages.

(** ** Event streams *)

Record modelProbeResult := { statusCode : Z; errorCode : string; message : string }.

Definition failed (code msg : string) : modelProbeResult := Build_modelProbeResult 0 code msg.
Definition passed : modelProbeResult := failed "" "".

(** The payload of an event: pointers are optional. *)
Record payload := { p_Type : string; p_Message : string; p_Error : option string; p_Response : option (option string) }.

Definition pointer {A} (zero : A) (decode : Json.json → A → option A) (v : Json.json) (cur : option A) : option (option A) :=
  match v with Json.JNull => Some None | _ => x ← decode v (default zero cur); Some (Some x) end.

Definition response_member (cur : option string) (name : string) (v : string * Json.json) : option (option string) :=
  if EqualFold name "error" then pointer "" (decode_members message_member) v.2 cur else Some cur.

Definition payload_member (cur : payload) (name : string) (v : string * Json.json) : option payload :=
  if EqualFold name "type" then set_string (fun s => Build_payload s (p_Message cur) (p_Error cur) (p_Response cur)) cur v.2
  else if EqualFold name "message" then set_string (fun s => Build_payload (p_Type cur) s (p_Error cur) (p_Response cur)) cur v.2
  else if EqualFold name "error" then
    e ← pointer "" (decode_members message_member) v.2 (p_Error cur); Some (Build_payload (p_Type cur) (p_Message cur) e (p_Response cur))
  else if EqualFold name "response" then
    r ← pointer None (decode_members response_member) v.2 (p_Response cur); Some (Build_payload (p_Type cur) (p_Message cur) (p_Error cur) r)
  else Some cur.

Definition payload_message (p : payload) : string :=
  let m := TrimSpace (p_Message p) in
  let m := match p_Error p with Some e => if blank e then m else e | None => m end in
  let m := match p_Response p with Some (Some e) => if blank e then m else e | _ => m end in
  sanitizeDiagnosticMessage m.

Definition terminal_kinds : list string := ["response.completed"; "response.failed"; "response.incomplete"; "error"].

(** [processEvent]: the verdict of a terminal event. *)
Definition processEvent (eventType : string) (data : bytes) : option modelProbeResult :=
  let event := TrimSpace eventType in
  let raw := bytes_of (TrimSpace (text_of data)) in
  if str_eq event "" && bool_decide (raw = []) then None
  else
    match (if bool_decide (raw = []) then None else unmarshal payload_member (Build_payload "" "" None None) raw) with
    | None => if existsb (str_eq event) terminal_kinds
              then Some (failed "invalid_response" "upstream returned malformed terminal event") else None
    | Some p =>
        let kind := if blank (p_Type p) then event else TrimSpace (p_Type p) in
        let msg := payload_message p in
        let or_default d := if str_eq msg "" then d else msg in
        if str_eq kind "response.completed" then Some passed
        else if str_eq kind "response.failed" || str_eq kind "error"
        then Some (failed "upstream_error" (or_default "upstream response failed"))
        else if str_eq kind "response.incomplete"
        then Some (failed "invalid_response" (or_default "upstream response was incomplete"))
        else None
    end.

(** [bufio.Scanner] over lines: the lines, and whether it stops with an error.  A
    line that does not fit in the buffer of [maxModelProbeBody] bytes ends it. *)
Definition LF : ascii := "010"%char.
Definition CR : ascii := "013"%char.

Definition drop_cr (line : bytes) : bytes :=
  match rev line with a :: l => if bool_decide (a = CR) then rev l else line | [] => line end.

Fixpoint scan_lines (limit : Z) (l line : bytes) (n : Z) (clean : bool) : list bytes * bool :=
  match l with
  | [] => (if bool_decide (line = []) then [] else [drop_cr (rev line)], negb clean)
  | a :: l =>
      if bool_decide (a = LF) then let '(lines, err) := scan_lines limit l [] 0 clean in (drop_cr (rev line) :: lines, err)
      else if bool_decide (limit ≤ n + 1) then ([], true)
      else scan_lines limit l (a :: line) (n + 1) clean
  end.

(** The loop over the lines, and the last event. *)
Fixpoint consume (lines : list bytes) (eventType : string) (data : bytes) : option modelProbeResult :=
  match lines with
  | [] => processEvent eventType data
  | line :: lines =>
      if bool_decide (line = []) then
        match processEvent eventType data with Some r => Some r | None => consume lines "" [] end
      else if prefix_of (bytes_of "event:") line then consume lines (TrimSpace (TrimPrefix (text_of line) "event:")) data
      else if prefix_of (bytes_of "data:") line then
        consume lines eventType
          ((if bool_decide (data = []) then data else data ++ [LF]) ++ bytes_of (TrimSpace (TrimPrefix (text_of line) "data:")))
      else consume lines eventType data
  end.

Definition consumeResponsesSSE (b : body) : modelProbeResult :=
  let limited := take_bytes (maxModelProbeBody + 1) b.1 in
  let exhausted := bool_decide (maxModelProbeBody + 1 ≤ Z.of_nat (length b.1)) in
  let '(lines, err) := scan_lines maxModelProbeBody limited [] 0 (exhausted || bool_decide (b.2 = Sse.ReadEOF)) in
  match consume lines "" [] with
  | Some r => r
  | None => if err || exhausted then failed "invalid_response" "upstream response exceeded the size limit"
            else failed "invalid_response" "upstream stream ended before response.completed"
  end.

(** ** Requests and their results *)

Definition codex_base (CodexResponsesBaseURL : string) : string :=
  let baseURL := TrimRightSlash (TrimSpace CodexResponsesBaseURL) in
  if str_eq baseURL "" then "https://chatgpt.com/backend-api/codex" else baseURL.

Definition upstreamChatCompletionsURL (baseURL : string) : string :=
  let trimmed := TrimRightSlash (TrimSpace baseURL) in
  if HasSuffix trimmed "/v1" then trimmed +++ "/chat/completions" else trimmed +++ "/v1/chat/completions".

Definition probe_url (CodexResponsesBaseURL : string) (selected : SelectedAccount) : string :=
  if str_eq (S_AccountType selected) AccountTypeCodexOAuth then codex_base CodexResponsesBaseURL +++ "/responses"
  else upstreamChatCompletionsURL (S_BaseURL selected).

Section headers.
Context (iterate : gmap string string → list (string * string)).

Definition probe_header (selected : SelectedAccount) : GatewayTypes.header :=
  let set := GatewayTypes.h_set in
  let h := foldl (fun h e => if EqualFold e.1 "Authorization" || EqualFold e.1 "Host" then h else set h e.1 e.2) ∅
             (iterate (default ∅ (FingerprintHeaders selected))) in
  let ua := TrimSpace (FingerprintUA selected) in
  let h := if str_eq ua "" then h else set h "User-Agent" ua in
  let h := set h "Authorization" ("Bearer " +++ AuthorizationToken selected) in
  let h := set h "Content-Type" "application/json" in
  if str_eq (S_AccountType selected) AccountTypeCodexOAuth then
    let h := set h "Accept" "text/event-stream" in
    let h := set h "chatgpt-account-id" (TrimSpace (ChatGPTAccountID selected)) in
    let h := set h "OpenAI-Beta" "responses=experimental" in
    let h := set h "originator" GatewayPure.DefaultCodexFingerprintOriginator in
    let h := set h "Version" GatewayPure.DefaultCodexFingerprintVersion in
    if str_eq ua "" then set h "User-Agent" DefaultCodexFingerprintUserAgent else h
  else set h "Accept" "application/json".
End headers.

(** What sending a request brings: no request, no answer in time, no answer, or a
    status with a body; [late] says whether the time is over when the body has
    been read. *)
Inductive exchange := NoRequest | TimedOut | Unreachable | Answer (status : Z) (b : body) (late : bool).

Definition with_status (status : Z) (r : modelProbeResult) : modelProbeResult := Build_modelProbeResult status (errorCode r) (message r).

(** choices: nil unless the last member of the name is an array. *)
Definition choices_member (cur : bool) (name : string) (v : string * Json.json) : option bool :=
  if EqualFold name "choices"
  then match v.2 with Json.JArray _ => Some true | Json.JNull => Some false | _ => None end else Some cur.

Definition ProbeAccountModel (StatusText : Z → string) (selected : SelectedAccount) (x : exchange) : modelProbeResult :=
  let timeout := failed "timeout" "model test timed out" in
  match x with
  | NoRequest => failed "network_error" "could not create model probe request"
  | TimedOut => timeout
  | Unreachable => failed "network_error" "could not reach upstream"
  | Answer status b late =>
      if bool_decide (status < 200) || bool_decide (299 < status) then
        let msg := readModelProbeError StatusText b status in
        Build_modelProbeResult status (classifyModelProbeHTTPError status msg) msg
      else if str_eq (S_AccountType selected) AccountTypeCodexOAuth then
        let r := consumeResponsesSSE b in
        with_status status (if negb (str_eq (errorCode r) "") && late then timeout else r)
      else
        match readBoundedBody b maxModelProbeBody with
        | None => with_status status (if late then timeout else failed "invalid_response" "could not read upstream response")
        | Some (raw, tooLarge) =>
            with_status status
              (if tooLarge then failed "invalid_response" "upstream returned invalid JSON"
               else match unmarshal choices_member false raw with
                    | Some true => passed
                    | _ => failed "invalid_response" "upstream returned invalid JSON"
                    end)
        end
  end.

(** [ProbeAccountStatus]: where it asks, and what it makes of an answer. *)
Definition status_probe_url (APIBaseURL CodexResponsesBaseURL chatGPTAccountID : string) : string :=
  if negb (blank chatGPTAccountID) then codex_base CodexResponsesBaseURL +++ "/responses"
  else
    let api := TrimRightSlash (TrimSpace APIBaseURL) in
    (if str_eq api "" then "https://api.openai.com" else api) +++ "/v1/models".

Definition status_probe_result (StatusText : Z → string) (status : Z) (retryAfter : string) (b : body) : OAuth.probeResult :=
  if bool_decide (200 ≤ status ≤ 299) then OAuth.Build_probeResult status "" ""
  else OAuth.Build_probeResult status retryAfter (readErrorMessage StatusText b status).

End ModelProbe.

(** * Secrets in diagnostic messages

    The theorems on [ModelProbe]: a secret that appears in full in the message of
    an upstream is not in what is stored, and one that the length limit has cut
    is. *)

Module ModelProbeThms.
Import Account ModelProbe.

(** ** Occurrences *)

Definition occurs (t l : bytes) : Prop := ∃ p q, l = p ++ t ++ q.

Lemma prefix_of_spec t l : prefix_of t l = true ↔ ∃ q, l = t ++ q.
Proof.
  split; [apply prefix_of_split|]. intros [q ->]. induction t as [|a t IH]; [by destruct q|]. cbn. by rewrite bool_decide_eq_true_2, IH.
Qed.

Lemma contains_spec t l : contains_bytes t l = true ↔ occurs t l.
Proof.
  split.
  - induction l as [|a l IH]; cbn; rewrite orb_true_iff.
    + intros [[q Hq]%prefix_of_spec|?]; [by exists [], q|done].
    + intros [[q Hq]%prefix_of_spec|(p & q & ->)%IH]; [by exists [], q|by exists (a :: p), q].
  - intros (p & q & ->). induction p as [|a p IH]; cbn.
    + destruct (t ++ q) eqn:E; cbn; rewrite <- ?E; rewrite (proj2 (prefix_of_spec t (t ++ q))); eauto.
    + by rewrite IH, orb_true_r.
Qed.

Lemma occurs_app_l t l k : occurs t l → occurs t (l ++ k).
Proof. intros (p & q & ->). exists p, (q ++ k). by rewrite <- !app_assoc. Qed.
Lemma occurs_app_r t l k : occurs t l → occurs t (k ++ l).
Proof. intros (p & q & ->). exists (k ++ p), q. by rewrite <- !app_assoc. Qed.
Lemma occurs_cons t a l : occurs t l → occurs t (a :: l).
Proof. apply (occurs_app_r t l [a]). Qed.

(** An occurrence that does not have the byte between two texts is in one of
    them. *)
Lemma occurs_separated (c : ascii) t l k : c ∉ t → occurs t (l ++ c :: k) → occurs t l ∨ occurs t k.
Proof.
  intros Hc (p & q & [(z & -> & Heq)|(z & -> & Heq)]%app_eq_inv).
  - apply app_eq_inv in Heq as [(w & -> & Heq)|(w & -> & ->)]; [|left; by exists p, w].
    destruct w as [|b w]; [left; exists p, []; by rewrite !app_nil_r|]. injection Heq as <- _. destruct Hc. apply elem_of_app. right. left.
  - destruct z as [|b z]; cbn in Heq; [|injection Heq as <- ->; right; by exists z, q].
    destruct t as [|b t]; [left; by exists [], l|]. injection Heq as <- _. destruct Hc. left.
Qed.

(** ** Replacing *)

(** A secret that shares nothing with the text put in its place. *)
Record replaceable (t : bytes) : Prop := {
  not_empty : t ≠ [];
  no_open : "["%char ∉ t;
  no_close : "]"%char ∉ t;
  no_blank : " "%char ∉ t;
  not_inside : ¬ occurs t (bytes_of "redacted")
}.

Lemma redacted_eq : redacted = "["%char :: bytes_of "redacted" ++ "]"%char :: [].
Proof. reflexivity. Qed.

(** What starts in front of a replaced text starts in the original one. *)
Lemma prefix_replace old t l : "["%char ∉ t → prefix_of t (replace_bytes old redacted 0 l) = true → prefix_of t l = true.
Proof.
  revert t. induction l as [|a l IH]; intros t Ht; [done|]. cbn [replace_bytes]. destruct (prefix_of old (a :: l)).
  - destruct t as [|b t]; [done|]. rewrite redacted_eq. cbn. intros [Hb _]%andb_true_iff. apply bool_decide_eq_true in Hb as ->.
    destruct Ht. left.
  - destruct t as [|b t]; [done|]. cbn. intros [-> Hp]%andb_true_iff. apply IH; [|done]. intros Hin. apply Ht. by right.
Qed.

Lemma occurs_redacted t l : replaceable t → occurs t (redacted ++ l) → occurs t l.
Proof.
  intros Ht. rewrite redacted_eq. cbn [app]. intros Ho.
  apply (occurs_separated "["%char t []) in Ho as [(p & q & Heq)|Ho]; [| |apply Ht].
  - symmetry in Heq. apply app_nil in Heq as [_ Heq]. apply app_nil in Heq as [-> _]. by destruct (not_empty _ Ht).
  - rewrite <- app_assoc in Ho. apply occurs_separated in Ho as [?|?]; [|done|apply Ht]. by destruct (not_inside _ Ht).
Qed.

Lemma occurs_cons_inv t a l : occurs t (a :: l) → prefix_of t (a :: l) = true ∨ occurs t l.
Proof. intros H%contains_spec. cbn in H. apply orb_true_iff in H as [?|?%contains_spec]; auto. Qed.

(** Replacing a text brings no secret about. *)
Lemma occurs_replace old t skip l : replaceable t → occurs t (replace_bytes old redacted skip l) → occurs t l.
Proof.
  intros Ht. revert skip. induction l as [|a l IH]; intros skip; [done|]. cbn [replace_bytes]. destruct skip as [|n].
  - destruct (prefix_of old (a :: l)) eqn:Hp.
    + intros Ho%occurs_redacted%IH; [|done]. by apply occurs_cons.
    + intros [Hpre|Ho%IH]%occurs_cons_inv; [|by apply occurs_cons]. apply contains_spec. cbn [contains_bytes].
      assert (prefix_of t (a :: l) = true) as ->; [|done]. destruct t as [|b t]; [done|]. cbn in Hpre |- *.
      apply andb_true_iff in Hpre as [-> Hpre]. cbn. eapply prefix_replace; [|done]. intros Hin. apply (no_open _ Ht). by right.
  - intros Ho%IH. by apply occurs_cons.
Qed.

(** The text that is replaced is gone. *)
Lemma replace_gone t skip l : replaceable t → ¬ occurs t (replace_bytes t redacted skip l).
Proof.
  intros Ht. revert skip. induction l as [|a l IH]; intros skip; cbn [replace_bytes].
  - intros (p & q & Heq). symmetry in Heq. apply app_nil in Heq as [_ Heq]. apply app_nil in Heq as [-> _]. by destruct (not_empty _ Ht).
  - destruct skip as [|n]; [|apply IH]. destruct (prefix_of t (a :: l)) eqn:Hp.
    + intros Ho%occurs_redacted; [|done]. by eapply IH.
    + intros [Hpre|Ho]%occurs_cons_inv; [|by eapply IH]. enough (prefix_of t (a :: l) = true) by congruence.
      destruct t as [|b t]; [done|]. cbn in Hpre |- *. apply andb_true_iff in Hpre as [-> Hpre]. cbn.
      eapply prefix_replace; [|done]. intros Hin. apply (no_open _ Ht). by right.
Qed.

Lemma redact_one_spec t value message : replaceable t →
  (occurs t (redact_one message value) → occurs t message) ∧
  (bytes_of value = t → 4 ≤ go_len value → ¬ occurs t (redact_one message value)).
Proof.
  intros Ht. unfold redact_one. split; [case_match; [by apply occurs_replace|done]|].
  intros <- Hl. rewrite bool_decide_eq_true_2 by done. by apply replace_gone.
Qed.

Lemma redact_all t values message : replaceable t → occurs t (foldl redact_one message values) →
  occurs t message ∧ ∀ v, v ∈ values → bytes_of v = t → go_len v < 4.
Proof.
  intros Ht. revert message. induction values as [|v values IH]; intros message; cbn [foldl].
  { intros Ho. split; [done|]. intros v []%elem_of_nil. }
  intros [Ho Hv]%IH. destruct (redact_one_spec t v message Ht) as [H1 H2]. split; [auto|].
  intros v' [->|Hin]%elem_of_cons Hvt; [|auto]. destruct (decide (go_len v < 4)); [done|]. exfalso. apply (H2 Hvt); [lia|done].
Qed.

(** ** Normalising *)

Lemma occurs_take t n l : occurs t (take n l) → occurs t l.
Proof. rewrite <- (take_drop n l) at 2. apply occurs_app_l. Qed.

(** Each field is a piece of the text. *)
Lemma emit_piece f cur : f ∈ emit cur → f = cur.
Proof. destruct cur; [by intros ?%elem_of_nil|by intros ?%list_elem_of_singleton]. Qed.

Lemma field_piece l : ∀ cur f, f ∈ fields_bytes l cur → occurs f (cur ++ l).
Proof.
  assert (∀ cur f l k, f ∈ emit cur ++ fields_bytes k [] → (∀ f, f ∈ fields_bytes k [] → occurs f k) → occurs f (cur ++ l ++ k)) as Hsep.
  { intros cur f l' k [->%emit_piece|Hf]%elem_of_app Hk; [exists [], (l' ++ k); done|]. apply occurs_app_r, occurs_app_r. auto. }
  induction l as [l IH] using (induction_ltof1 _ (@length ascii)). unfold ltof in IH. intros cur f.
  destruct l as [|a l]; cbn [fields_bytes]; [intros ->%emit_piece; exists [], []; by rewrite !app_nil_r|].
  assert (f ∈ fields_bytes l (cur ++ [a]) → occurs f (cur ++ a :: l)) as Hgo.
  { intros Hf%IH; [|cbn; lia]. by rewrite <- app_assoc in Hf. }
  destruct (space1 a). { intros Hf. apply (Hsep cur f [a] l Hf). intros f' Hf'. by apply IH in Hf'; [|cbn; lia]. }
  destruct l as [|b l]; [done|]. destruct (space2 a b).
  { intros Hf. apply (Hsep cur f [a; b] l Hf). intros f' Hf'. by apply IH in Hf'; [|cbn; lia]. }
  destruct l as [|c l]; [done|]. destruct (space3 a b c); [|done].
  intros Hf. apply (Hsep cur f [a; b; c] l Hf). intros f' Hf'. by apply IH in Hf'; [|cbn; lia].
Qed.

Lemma occurs_join t fs : t ≠ [] → " "%char ∉ t → occurs t (join_bytes fs) → ∃ f, f ∈ fs ∧ occurs t f.
Proof.
  intros Hne Ht. induction fs as [|f fs IH]; cbn.
  { intros (p & q & Heq). symmetry in Heq. apply app_nil in Heq as [_ Heq]. by apply app_nil in Heq as [-> _]. }
  destruct fs as [|g fs]; [intros; exists f; split; [left|done]|].
  intros [Ho|(h & Hh & Ho)%IH]%occurs_separated; [|exists h; split; [by right|done]|done]. exists f. split; [left|done].
Qed.

Lemma occurs_TrimSpace t s : occurs t (bytes_of (TrimSpace s)) → occurs t (bytes_of s).
Proof.
  unfold TrimSpace, bytes_of. rewrite String.list_ascii_of_string_of_list_ascii. intros Ho.
  destruct (trim_right_prefix (trim_left_bytes (String.list_ascii_of_string s))) as [k Hk].
  destruct (trim_front_spec space1 space2 space3 (String.list_ascii_of_string s)) as [_ [k' Hk']].
  rewrite Hk'. apply occurs_app_r. fold trim_left_bytes. rewrite Hk. by apply occurs_app_l.
Qed.

Lemma occurs_sanitize t message :
  t ≠ [] → " "%char ∉ t → occurs t (bytes_of (sanitizeDiagnosticMessage message)) → occurs t (bytes_of message).
Proof.
  intros Hne Ht. unfold sanitizeDiagnosticMessage, bytes_of at 1, text_of. rewrite String.list_ascii_of_string_of_list_ascii.
  intros (f & Hf & Ho)%occurs_take%occurs_join; [|done|done]. apply occurs_TrimSpace.
  apply field_piece in Hf as (p & q & Heq). cbn [app] in Heq. rewrite Heq. destruct Ho as (p' & q' & ->). exists (p ++ p'), (q' ++ q). by rewrite <- !app_assoc.
Qed.

(** ** What is stored *)

Lemma sanitize_length message : go_len (sanitizeDiagnosticMessage message) ≤ 512.
Proof.
  unfold sanitizeDiagnosticMessage, go_len, text_of. rewrite <- (String.string_of_list_ascii_of_string (String.string_of_list_ascii _)) at 1.
  set (l := join_bytes _). assert (∀ k : bytes, String.length (String.string_of_list_ascii k) = length k) as Hl by (induction k; cbn; auto).
  rewrite Hl, String.list_ascii_of_string_of_list_ascii, length_take. lia.
Qed.


(** ** Examples *)

Module Demo.
Definition selected : SelectedAccount :=
  {| AccountID := 1; S_Provider := "openai"; S_AccountType := AccountTypeAPIUpstream; S_DisplayName := "demo";
     AuthorizationToken := "sk-0123456789abcdef"; S_BaseURL := ""; ProxyURL := ""; ChatGPTAccountID := ""; S_MaxConcurrentRequests := 0;
     RoutingPoolID := 0; RoutingPoolName := ""; RoutingPoolFallbackDepth := 0; RoutingPoolFallbackChain := ""; RoutingPoolError := "";
     FingerprintUA := ""; FingerprintTLS := ""; FingerprintHeaders := None |}.

Definition redact (m : string) : string := redactModelProbeSecrets (fun _ => None) (fun m => map_to_list m) m selected.

Example redacts : redact "bad  key sk-0123456789abcdef!" = "bad key [redacted]!".
Proof. vm_compute. reflexivity. Qed.


(** The message is cut before the secrets are taken out: one that the limit cuts
    in two is no longer recognised, and its first part is stored. *)
Definition long_message : string := String.concat "" (replicate 496 "x") +++ "sk-0123456789abcdef".

Example cut_secret_is_stored :
  Contains (redact (sanitizeDiagnosticMessage long_message)) "sk-0123456789abc" = true.
Proof. vm_compute. reflexivity. Qed.

(** A stream passes when its terminal event is the completion. *)
Definition stream (l : list string) : body := (bytes_of (String.concat (String LF "") l), Sse.ReadEOF).

Example stream_passes :
  map (fun l => errorCode (consumeResponsesSSE (stream l)))
    [["event: response.created"; "data: {}"; ""; "event: response.completed"; "data: {}"; ""; "event: error"; ""];
     ["event: response.failed"; "data: {}"; ""];
     ["event: response.completed"; "data: no json"; ""];
     ["data: {}"; ""; "event: response.completed"];
     ["data: {}"; ""]]
  = [""; "upstream_error"; "invalid_response"; "invalid_response"; "invalid_response"].
Proof. vm_compute. reflexivity. Qed.
End Demo.

End ModelProbeThms.
