(* ===== verification/AccountAdmin.v ===== *)
(** * Administration of upstream accounts

    The operations of [provider/service.go] behind the management interface:
    listing, creating, updating, testing, pausing and disconnecting accounts, and
    the transactions of [store/provider.go] on the account tables.  The service's
    operations are programs over its calls; the calls that connecting and
    refreshing need are those of [OAuth], embedded. *)

From stdpp Require Import gmap strings sorting.
From S2P Require Import Prelude GoStrings Effects Secrets Account Scheduling ProviderStore OAuth AccountModels HttpApi ModelCatalog.

Module AccountAdmin.
Import Account Scheduling OAuth.

(** ** Data *)

Record AccountUpdate := {
  U_Enabled : option bool; U_Priority : option Z; U_LoadFactor : option Z; U_MaxConcurrentRequests : option Z;
  U_ClearStatus : bool; U_Name : option string; APIUpstreamBaseURL : option string; APIUpstreamAPIKey : option string;
  EncryptedAPIUpstreamAPIKey : option string; U_ProxyURL : option string; U_EncryptedProxyURL : option string;
  FingerprintProfileIDSet : bool; U_FingerprintProfileID : option Z
}.

Definition only_clear : AccountUpdate := Build_AccountUpdate None None None None true None None None None None None false None.

Definition set_name (n : string) (u : AccountUpdate) : AccountUpdate :=
  Build_AccountUpdate (U_Enabled u) (U_Priority u) (U_LoadFactor u) (U_MaxConcurrentRequests u) (U_ClearStatus u) (Some n)
    (APIUpstreamBaseURL u) (APIUpstreamAPIKey u) (EncryptedAPIUpstreamAPIKey u) (U_ProxyURL u) (U_EncryptedProxyURL u)
    (FingerprintProfileIDSet u) (U_FingerprintProfileID u).
Definition set_base_url (b : string) (u : AccountUpdate) : AccountUpdate :=
  Build_AccountUpdate (U_Enabled u) (U_Priority u) (U_LoadFactor u) (U_MaxConcurrentRequests u) (U_ClearStatus u) (U_Name u)
    (Some b) (APIUpstreamAPIKey u) (EncryptedAPIUpstreamAPIKey u) (U_ProxyURL u) (U_EncryptedProxyURL u)
    (FingerprintProfileIDSet u) (U_FingerprintProfileID u).
Definition set_encrypted_key (k : string) (u : AccountUpdate) : AccountUpdate :=
  Build_AccountUpdate (U_Enabled u) (U_Priority u) (U_LoadFactor u) (U_MaxConcurrentRequests u) (U_ClearStatus u) (U_Name u)
    (APIUpstreamBaseURL u) None (Some k) (U_ProxyURL u) (U_EncryptedProxyURL u)
    (FingerprintProfileIDSet u) (U_FingerprintProfileID u).
Definition set_proxy (p encrypted : string) (u : AccountUpdate) : AccountUpdate :=
  Build_AccountUpdate (U_Enabled u) (U_Priority u) (U_LoadFactor u) (U_MaxConcurrentRequests u) (U_ClearStatus u) (U_Name u)
    (APIUpstreamBaseURL u) (APIUpstreamAPIKey u) (EncryptedAPIUpstreamAPIKey u) (Some p) (Some encrypted)
    (FingerprintProfileIDSet u) (U_FingerprintProfileID u).

(** What is shown of an account: its proxy without user, query and fragment. *)
Record AccountView := { V_Account : Account; ProxyURLConfigured : bool; ProxyURLSummary : string }.

Record ProviderStatus := {
  St_Provider : string; St_Configured : bool; St_Connected : bool; St_DisplayName : string;
  St_AccessTokenExpiresAt : option Time; St_LastRefreshAt : option Time
}.

Record AccountTestResult := { TRA_AccountID : Z; TRA_Status : string; TRA_Message : string; TRA_CheckedAt : Time }.

Record AccountTestRequestLog := {
  RequestID : string; L_Provider : string; ProviderAccountID : Z; ProviderAccountType : string; ProviderAccountName : string;
  L_Model : string; Route : string; Method : string; StatusCode : Z; Latency : Duration; L_Error : string; L_CreatedAt : Time
}.

(** A failed [TestAccounts]: its error and how far it came. *)
Record accountBatchError := { B_Err : perror; Requested : Z; Attempted : Z; Succeeded : Z; B_Failed : Z; Skipped : Z }.

Record FingerprintProfileData := { UserAgent : string; TLSFingerprint : string; Headers : gmap string string }.

(** A parsed URL: absolute, host, scheme, its text, and its text without user,
    query and fragment. *)
Record parsed_url := { IsAbs : bool; Host : string; Scheme : string; Text : string; Bare : string; Path : string; Password : option string }.

Definition defaultManualPause : Duration := 5 * Minute.
Definition maxManualPause : Duration := 24 * Hour.
Definition defaultAccountTestResultsLimit : Z := 20.
Definition maxAccountTestResultsLimit : Z := 100.

(** ** The account tables *)

(** A credential and a row of [provider_accounts] after the UPDATEs of
    [UpdateAccount]. *)
Definition updated_credential (u : AccountUpdate) (c : AccountCredential) : AccountCredential :=
  {| CredentialType := CredentialType c; C_EncryptedAccessToken := C_EncryptedAccessToken c;
     C_EncryptedRefreshToken := C_EncryptedRefreshToken c; C_EncryptedIDToken := C_EncryptedIDToken c;
     C_AccessTokenExpiresAt := C_AccessTokenExpiresAt c; C_LastRefreshAt := C_LastRefreshAt c;
     C_LastRefreshError := C_LastRefreshError c; C_LastRefreshErrorAt := C_LastRefreshErrorAt c;
     EncryptedAPIKey := default (EncryptedAPIKey c) (EncryptedAPIUpstreamAPIKey u);
     EncryptedProxyURL := default (EncryptedProxyURL c) (U_EncryptedProxyURL u);
     C_BaseURL := default (C_BaseURL c) (APIUpstreamBaseURL u); C_Metadata := C_Metadata c |}.

Definition updated_row (u : AccountUpdate) (a : Account) : Account :=
  let clear {A} (cleared kept : A) := if U_ClearStatus u then cleared else kept in
  {| ID := ID a; Provider := Provider a; AccountType := AccountType a; Subject := Subject a;
     Name := default (Name a) (U_Name u); DisplayName := DisplayName a; BaseURL := BaseURL a;
     Credential := updated_credential u (Credential a);
     EncryptedAccessToken := EncryptedAccessToken a; EncryptedRefreshToken := EncryptedRefreshToken a;
     EncryptedIDToken := EncryptedIDToken a; AccessTokenExpiresAt := AccessTokenExpiresAt a; LastRefreshAt := LastRefreshAt a;
     Enabled := default (Enabled a) (U_Enabled u); Priority := default (Priority a) (U_Priority u);
     GlobalPriority := GlobalPriority a; RoutingPoolPriority := RoutingPoolPriority a;
     LoadFactor := default (LoadFactor a) (U_LoadFactor u);
     MaxConcurrentRequests := default (MaxConcurrentRequests a) (U_MaxConcurrentRequests u);
     LastUsedAt := LastUsedAt a; LastError := clear "" (LastError a); LastErrorAt := clear None (LastErrorAt a);
     LastTestAt := LastTestAt a; LastTestStatus := LastTestStatus a; LastTestError := LastTestError a;
     Metadata := Metadata a; Status := clear AccountStatusActive (Status a); StatusReason := clear "" (StatusReason a);
     FingerprintHash := FingerprintHash a; UserAgentHash := UserAgentHash a; IPHash := IPHash a;
     FailureCount := clear 0 (FailureCount a); CircuitOpenUntil := clear None (CircuitOpenUntil a);
     RateLimitedUntil := clear None (RateLimitedUntil a);
     FingerprintProfileID := if FingerprintProfileIDSet u then U_FingerprintProfileID u else FingerprintProfileID a;
     LastRefreshError := LastRefreshError a; LastRefreshErrorAt := LastRefreshErrorAt a |}.

(** [provider_accounts] with everything that refers to it. *)
Record db := {
  base : OAuth.db;
  model_rows : list AccountModels.AccountModel;
  next_model : Z;
  members : list (Z * Z * Z);                               (* routing_pool_accounts: pool, account, priority *)
  bindings : gmap (option Z * string * string) Z;          (* provider_session_bindings: the account *)
  affinities : list (string * Z);                          (* response_affinities: response, account *)
  profiles : gmap Z (FingerprintProfileData * bool)        (* fingerprint_profiles: data, enabled *)
}.

Definition set_base (b : OAuth.db) (d : db) : db :=
  Build_db b (model_rows d) (next_model d) (members d) (bindings d) (affinities d) (profiles d).

Definition profile_exists (u : AccountUpdate) (d : db) : bool :=
  if FingerprintProfileIDSet u
  then match U_FingerprintProfileID u with Some i => bool_decide (is_Some (profiles d !! i)) | None => true end
  else true.

Definition update_account (provider : string) (id : Z) (u : AccountUpdate) (d : db) : result perror unit * db :=
  match List.find (is_row provider id) (accounts (base d)) with
  | None => (Err ErrNotConnected, d)
  | Some _ =>
      if profile_exists u d then (Ok tt, set_base (on_row provider id (updated_row u) (base d)) d)
      else (Err (ErrOther "violates foreign key constraint"), d)
  end.

(** DELETE FROM provider_accounts: what refers to a deleted account goes with it. *)
Definition deleted_ids (gone : Account → bool) (d : db) : list Z := map ID (List.filter gone (accounts (base d))).

Definition delete_rows (gone : Account → bool) (d : db) : db :=
  let ids := deleted_ids gone d in
  let stays {A} (f : A → Z) (x : A) := negb (bool_decide (f x ∈ ids)) in
  {| base := OAuth.Build_db (List.filter (fun a => negb (gone a)) (accounts (base d))) (states (base d))
               (List.filter (stays (fun r => r.1.1.1)) (test_results (base d))) (next_account (base d));
     model_rows := List.filter (stays AccountModels.AccountID) (model_rows d); next_model := next_model d;
     members := List.filter (stays (fun m => m.1.2)) (members d); bindings := filter (fun b => b.2 ∉ ids) (bindings d);
     affinities := List.filter (stays snd) (affinities d); profiles := profiles d |}.

Definition delete_account (provider : string) (id : Z) (d : db) : result perror unit * db :=
  match List.find (is_row provider id) (accounts (base d)) with
  | None => (Err ErrNotConnected, d)
  | Some _ => (Ok tt, delete_rows (is_row provider id) d)
  end.

Definition delete_accounts (provider : string) (d : db) : result perror unit * db :=
  (Ok tt, delete_rows (fun a => str_eq (Provider a) provider) d).

Definition list_accounts (provider : string) (d : db) : result perror (list Account) :=
  Ok (map scan (merge_sort ProviderStore.account_le (List.filter (fun a => str_eq (Provider a) provider) (accounts (base d))))).

Definition find_profile (id : Z) (d : db) : result perror FingerprintProfileData :=
  match profiles d !! id with Some (p, true) => Ok p | _ => Err (ErrOther "no rows in result set") end.

(** ORDER BY checked_at DESC, id DESC LIMIT $: the list is in the order of the
    ids, its positions stand for them. *)
Definition result_le (x y : Z * (Z * string * string * Time)) : Prop :=
  ProviderStore.lex_le [ - x.2.2; - x.1 ] [ - y.2.2; - y.1 ] = true.
#[export] Instance result_le_dec : RelDecision result_le.
Proof. intros x y. unfold result_le. apply _. Defined.

Definition list_test_results (provider : string) (id limit : Z) (d : db) : result perror (list AccountTestResult) :=
  match List.find (is_row provider id) (accounts (base d)) with
  | None => Err ErrNotConnected
  | Some _ =>
      Ok (map (fun r => {| TRA_AccountID := r.2.1.1.1; TRA_Status := r.2.1.1.2; TRA_Message := r.2.1.2; TRA_CheckedAt := r.2.2 |})
            (take (Z.to_nat limit)
               (merge_sort result_le
                  (List.filter (fun r => bool_decide (r.2.1.1.1 = id))
                     (zip (seqZ 1 (Z.of_nat (length (test_results (base d))))) (test_results (base d)))))))
  end.

(** The model table with the accounts, as [AccountModels] has it. *)
Definition tables_of (d : db) : AccountModels.tables := AccountModels.Build_tables (accounts (base d)) (model_rows d) (next_model d).
Definition with_tables (t : AccountModels.tables) (d : db) : db :=
  Build_db (base d) (AccountModels.models t) (AccountModels.next_model t) (members d) (bindings d) (affinities d) (profiles d).

Definition find_first_account (provider : string) (d : db) : result perror Account :=
  match merge_sort ProviderStore.account_le (List.filter (fun a => str_eq (Provider a) provider) (accounts (base d))) with
  | a :: _ => Ok (scan a)
  | [] => Err ErrNotConnected
  end.

(** ** The calls of the service *)

(** The answer of a model probe: status code, error code, message. *)
Record modelProbeResult := { mp_statusCode : Z; errorCode : string; mp_message : string }.

Inductive cmd : Set → Type :=
| OAuthCall {R : Set} (c : OAuth.cmd R) : cmd R
| FindAccount : cmd (result perror Account)
| FindAllAccounts : cmd (result perror (list Account))
| UpdateAccountTx (id : Z) (u : AccountUpdate) : cmd (result perror unit)
| DeleteAccountTx (id : Z) : cmd (result perror unit)
| DeleteAccountsTx : cmd (result perror unit)
| FindFingerprintProfile (id : Z) : cmd (result perror FingerprintProfileData)
| FindTestResults (id limit : Z) : cmd (result perror (list AccountTestResult))
| FindModels (id : Z) : cmd (result perror (list AccountModels.AccountModel))
| FindModelsOf (ids : list Z) : cmd (result perror (gmap Z (list AccountModels.AccountModel)))
| ReplaceModelsTx (id : Z) (models : list AccountModels.AccountModelInput) : cmd (result perror (list AccountModels.AccountModel))
| SyncModelsTx (id : Z) (models : list AccountModels.AccountModelInput) (seenAt : Time)
    : cmd (result perror (list AccountModels.AccountModel * AccountModels.AccountModelSyncSummary))
| RecordModelTestTx (r : AccountModels.AccountModelTestResult) : cmd (result perror unit)
| InvalidateAllCatalogs : cmd unit
| InvalidateTransport (id : Z) : cmd unit
| InvalidateAllTransports : cmd unit
| ProbeStatus (apiBaseURL chatGPTAccountID proxyURL accessToken : string) : cmd (result perror (probeResult * bool))
| ProbeModel (selected : SelectedAccount) (model : string) : cmd modelProbeResult
| GetModels (targetURL accessToken proxyURL : string) : cmd (result perror (Z * result perror string))
| NewCorrelationID : cmd string
| LogTest (entry : AccountTestRequestLog) : cmd unit.

Abbreviation P := (prog cmd).

Definition ask {R : Set} (c : cmd R) : P R := Vis c Ret.

(** The programs of [OAuth] among those of this component. *)
Fixpoint lift {A : Type} (p : prog OAuth.cmd A) : P A :=
  match p with
  | Ret a => Ret a
  | Vis e k => Vis (OAuthCall e) (fun r => lift (k r))
  end.

Definition now : P Time := ask (OAuthCall Now).
Definition findAccountByID (id : Z) : P (result perror Account) := ask (OAuthCall (FindAccountByID id)).

Definition try {A B : Type} (c : P (result perror A)) (k : A → P (result perror B)) : P (result perror B) :=
  let! r := c in match r with Ok a => k a | Err e => Ret (Err e) end.

Section service.
Context (cfg : Config) (CodexResponsesBaseURL : string) (RefreshWindow : Duration).
Context (has_prober records_diagnostics has_model_prober has_test_logger : bool).
(** Whether transports are pooled; the correlation of the request, if it has one. *)
Context (has_invalidator : bool) (correlation : option string).
Context (sha256 : string → string) (ParseTime : string → option Time) (StatusText : Z → string).
Context (iterate : gmap string string → list (string * string)) (url_Parse : string → option parsed_url).
(** [redactModelProbeSecrets] of [ModelProbe]. *)
Context (redactModelProbeSecrets : string → SelectedAccount → string).

(** *** Helpers *)

Definition normalizeOpenAICompatibleBaseURL (value : string) : string :=
  let baseURL := TrimRightSlash (TrimSpace value) in
  if HasSuffix baseURL "/v1" then TrimSuffix baseURL "/v1" else baseURL.

Definition normalizeProxyURL (value : string) : result perror string :=
  let proxyURL := TrimSpace value in
  if str_eq proxyURL "" then Ok ""
  else
    match url_Parse proxyURL with
    | Some parsed =>
        if negb (IsAbs parsed) || str_eq (Host parsed) "" then Err ErrInvalidInput
        else
          let scheme := ToLower (TrimSpace (Scheme parsed)) in
          if str_eq scheme "http" || str_eq scheme "https" then Ok (Text parsed) else Err ErrInvalidInput
    | None => Err ErrInvalidInput
    end.

Definition proxyURLSummary (value : string) : string :=
  match url_Parse (TrimSpace value) with
  | Some parsed => if str_eq (Host parsed) "" then "configured" else Bare parsed
  | None => "configured"
  end.

(** The base URL of an API upstream as the service accepts it. *)
Definition base_url_ok (baseURL : string) : bool :=
  match url_Parse baseURL with
  | Some parsed => IsAbs parsed && negb (str_eq (Host parsed) "") && apiUpstreamSchemeAllowed cfg (Scheme parsed)
  | None => false
  end.

Definition withProxySummary (a : Account) : P AccountView :=
  let a := normalizeAccountCredentialFields a in
  let encrypted := TrimSpace (EncryptedProxyURL (Credential a)) in
  if str_eq encrypted "" then Ret (Build_AccountView a false "")
  else
    let! r := lift (decryptString Secrets.SecretKindProviderProxyURL encrypted) in
    Ret (Build_AccountView a true (match r with Ok u => proxyURLSummary u | Err _ => "configured" end)).

(** An account that is returned without its summary. *)
Definition plain (r : result perror Account) : result perror AccountView :=
  match r with Ok a => Ok (Build_AccountView a false "") | Err e => Err e end.

Definition invalidateAccountTransport (id : Z) : P unit :=
  if has_invalidator && bool_decide (0 < id) then ask (InvalidateTransport id) else Ret tt.

Definition invalidateAllAccountTransports : P unit := if has_invalidator then ask InvalidateAllTransports else Ret tt.

(** [repo.UpdateAccount]: the transaction, then reading the row. *)
Definition repo_UpdateAccount (id : Z) (u : AccountUpdate) : P (result perror Account) :=
  try (ask (UpdateAccountTx id u)) (fun _ => findAccountByID id).

(** *** Reading *)

Definition Status_ : P (result perror ProviderStatus) :=
  let none := Build_ProviderStatus (CfgProvider cfg) (Configured cfg) false "" None None in
  let! r := ask FindAccount in
  Ret (match r with
       | Ok a => Ok (Build_ProviderStatus (CfgProvider cfg) (Configured cfg) true (DisplayName a) (AccessTokenExpiresAt a) (LastRefreshAt a))
       | Err e => if is_err e ErrNotConnected then Ok none else Err e
       end).

Fixpoint with_summaries (l : list Account) : P (list AccountView) :=
  match l with
  | [] => Ret []
  | a :: l => let! v := withProxySummary a in let! vs := with_summaries l in Ret (v :: vs)
  end.

Definition ListAccounts_ : P (result perror (list AccountView)) :=
  try (ask FindAllAccounts) (fun l => let! vs := with_summaries l in Ret (Ok vs)).

Definition ListAccountModels_ (id : Z) : P (result perror (list AccountModels.AccountModel)) :=
  if bool_decide (id ≤ 0) then Ret (Err ErrInvalidInput) else ask (FindModels id).

Fixpoint distinct (ids seen : list Z) : option (list Z) :=
  match ids with
  | [] => Some []
  | i :: ids =>
      if bool_decide (i ≤ 0) then None
      else if bool_decide (i ∈ seen) then distinct ids seen
      else l ← distinct ids (i :: seen); Some (i :: l)
  end.

Definition ListAccountModelsForAccounts_ (ids : list Z) : P (result perror (gmap Z (list AccountModels.AccountModel))) :=
  match distinct ids [] with None => Ret (Err ErrInvalidInput) | Some unique => ask (FindModelsOf unique) end.

Definition ListAccountTestResults (id limit : Z) : P (result perror (list AccountTestResult)) :=
  if bool_decide (id ≤ 0) then Ret (Err ErrInvalidInput)
  else
    try (findAccountByID id) (fun _ =>
    let limit := if bool_decide (limit ≤ 0) then defaultAccountTestResultsLimit else limit in
    ask (FindTestResults id (Z.min limit maxAccountTestResultsLimit))).

(** *** Updating *)

Definition is_some {A} (o : option A) : bool := match o with Some _ => true | None => false end.

Definition nothing_given (u : AccountUpdate) : bool :=
  negb (is_some (U_Enabled u)) && negb (is_some (U_Priority u)) && negb (is_some (U_LoadFactor u))
  && negb (is_some (U_MaxConcurrentRequests u)) && negb (U_ClearStatus u) && negb (is_some (U_Name u))
  && negb (is_some (APIUpstreamBaseURL u)) && negb (is_some (APIUpstreamAPIKey u)) && negb (is_some (U_ProxyURL u))
  && negb (FingerprintProfileIDSet u).

Definition out_of_range (u : AccountUpdate) : bool :=
  match U_Priority u with Some p => bool_decide (p < 0) | None => false end
  || match U_LoadFactor u with Some f => bool_decide (f < 1) || bool_decide (100 < f) | None => false end
  || match U_MaxConcurrentRequests u with Some m => bool_decide (m < 0) | None => false end.

Definition with_name (u : AccountUpdate) : result perror AccountUpdate :=
  match U_Name u with
  | None => Ok u
  | Some n => let n := TrimSpace n in
              if str_eq n "" || bool_decide (128 < go_len n) then Err ErrInvalidInput else Ok (set_name n u)
  end.

Definition profile_allowed (given : bool) (profile : option Z) : P (result perror unit) :=
  match profile with
  | Some i =>
      if negb given then Ret (Ok tt)
      else if bool_decide (i ≤ 0) then Ret (Err ErrInvalidInput)
      else let! r := ask (FindFingerprintProfile i) in Ret (match r with Ok _ => Ok tt | Err _ => Err ErrInvalidInput end)
  | None => Ret (Ok tt)
  end.

Definition upstream_allowed (id : Z) (u : AccountUpdate) : P (result perror unit) :=
  if is_some (APIUpstreamBaseURL u) || is_some (APIUpstreamAPIKey u) then
    try (findAccountByID id) (fun a =>
    Ret (if str_eq (AccountType a) AccountTypeAPIUpstream then Ok tt else Err ErrInvalidInput))
  else Ret (Ok tt).

Definition with_base_url (u : AccountUpdate) : result perror AccountUpdate :=
  match APIUpstreamBaseURL u with
  | None => Ok u
  | Some b => let b := normalizeOpenAICompatibleBaseURL b in if base_url_ok b then Ok (set_base_url b u) else Err ErrInvalidInput
  end.

Definition with_api_key (u : AccountUpdate) : P (result perror AccountUpdate) :=
  match APIUpstreamAPIKey u with
  | None => Ret (Ok u)
  | Some k =>
      let k := TrimSpace k in
      if str_eq k "" then Ret (Err ErrInvalidInput)
      else try (lift (encryptString Secrets.SecretKindProviderAPIKey k)) (fun c => Ret (Ok (set_encrypted_key c u)))
  end.

(** The proxy's address and its encryption, nothing for no proxy. *)
Definition encrypted_proxy (proxyURL : string) : P (result perror string) :=
  if str_eq proxyURL "" then Ret (Ok "") else lift (encryptString Secrets.SecretKindProviderProxyURL proxyURL).

Definition with_proxy (u : AccountUpdate) : P (result perror AccountUpdate) :=
  match U_ProxyURL u with
  | None => Ret (Ok u)
  | Some p =>
      match normalizeProxyURL p with
      | Err e => Ret (Err e)
      | Ok p => try (encrypted_proxy p) (fun c => Ret (Ok (set_proxy p c u)))
      end
  end.

Definition UpdateAccount_ (id : Z) (u : AccountUpdate) : P (result perror AccountView) :=
  if bool_decide (id ≤ 0) || nothing_given u || out_of_range u then Ret (Err ErrInvalidInput)
  else
    match with_name u with
    | Err e => Ret (Err e)
    | Ok u =>
        try (profile_allowed (FingerprintProfileIDSet u) (U_FingerprintProfileID u)) (fun _ =>
        try (upstream_allowed id u) (fun _ =>
        match with_base_url u with
        | Err e => Ret (Err e)
        | Ok u =>
            try (with_api_key u) (fun u =>
            try (with_proxy u) (fun u =>
            lift (invalidateOAuthModelCatalog id) ;;
            try (repo_UpdateAccount id u) (fun a =>
            invalidateAccountTransport id ;;
            let! v := withProxySummary a in Ret (Ok v))))
        end))
    end.

Definition ResetAccountStatus_ (id : Z) : P (result perror AccountView) := UpdateAccount_ id only_clear.

Definition RecordAccountRecovered (id : Z) : P (result perror unit) :=
  if bool_decide (id ≤ 0) then Ret (Err ErrInvalidInput)
  else try (repo_UpdateAccount id only_clear) (fun _ => Ret (Ok tt)).

Definition PauseAccountScheduling_ (id : Z) (duration : Duration) : P (result perror AccountView) :=
  if bool_decide (id ≤ 0) then Ret (Err ErrInvalidInput)
  else
    let duration := if bool_decide (duration ≤ 0) then defaultManualPause else duration in
    if bool_decide (maxManualPause < duration) then Ret (Err ErrInvalidInput)
    else
      try (findAccountByID id) (fun _ =>
      let! t := now in
      try (ask (OAuthCall (OAuth.RecordAccount id
             (RecordStatus AccountStatusCircuitOpen "manually paused" t None (Some (t + duration)))))) (fun _ =>
      let! r := findAccountByID id in Ret (plain r))).

Definition DisconnectAccount_ (id : Z) : P (result perror unit) :=
  if bool_decide (id ≤ 0) then Ret (Err ErrInvalidInput)
  else
    lift (invalidateOAuthModelCatalog id) ;;
    try (ask (DeleteAccountTx id)) (fun _ => invalidateAccountTransport id ;; Ret (Ok tt)).

Definition Disconnect_ : P (result perror unit) :=
  ask InvalidateAllCatalogs ;;
  try (ask DeleteAccountsTx) (fun _ => invalidateAllAccountTransports ;; Ret (Ok tt)).

(** *** Creating *)

Definition ReplaceAccountModels_ (id : Z) (models : list AccountModels.AccountModelInput)
  : P (result perror (list AccountModels.AccountModel)) :=
  if bool_decide (id ≤ 0) then Ret (Err ErrInvalidInput)
  else
    match AccountModels.normalizeAccountModelInputs iterate models with
    | Err e => Ret (Err e)
    | Ok models => ask (ReplaceModelsTx id models)
    end.

Definition new_account (input : HttpApi.APIUpstreamInput) (name baseURL key proxy : string) : Account :=
  {| ID := 0; Provider := CfgProvider cfg; AccountType := AccountTypeAPIUpstream; Subject := ""; Name := name; DisplayName := name;
     BaseURL := "";
     Credential := {|
       CredentialType := CredentialTypeAPIKey; C_EncryptedAccessToken := ""; C_EncryptedRefreshToken := "";
       C_EncryptedIDToken := ""; C_AccessTokenExpiresAt := None; C_LastRefreshAt := None; C_LastRefreshError := "";
       C_LastRefreshErrorAt := None; EncryptedAPIKey := key; EncryptedProxyURL := proxy; C_BaseURL := baseURL; C_Metadata := None |};
     EncryptedAccessToken := ""; EncryptedRefreshToken := ""; EncryptedIDToken := ""; AccessTokenExpiresAt := None;
     LastRefreshAt := None; Enabled := default true (HttpApi.UI_Enabled input); Priority := HttpApi.UI_Priority input; GlobalPriority := 0;
     RoutingPoolPriority := None; LoadFactor := normalizedLoadFactor (HttpApi.UI_LoadFactor input); MaxConcurrentRequests := 0;
     LastUsedAt := None; LastError := ""; LastErrorAt := None; LastTestAt := None; LastTestStatus := ""; LastTestError := "";
     Metadata := None; Status := AccountStatusActive; StatusReason := ""; FingerprintHash := ""; UserAgentHash := ""; IPHash := "";
     FailureCount := 0; CircuitOpenUntil := None; RateLimitedUntil := None; FingerprintProfileID := HttpApi.UI_FingerprintProfileID input;
     LastRefreshError := ""; LastRefreshErrorAt := None |}.

Definition cleanup_failed (err deleteErr : perror) : perror :=
  ErrWrap "replace account models" (ErrOther (error_text err +++ "; cleanup account: " +++ error_text deleteErr)).

(** The models of a new account; when they are refused the account goes again. *)
Definition initial_models (a : Account) (models : list string) : P (result perror unit) :=
  if bool_decide (models = []) then Ret (Ok tt)
  else
    let! r := ReplaceAccountModels_ (ID a) (map (fun m => AccountModels.Build_AccountModelInput m true None) models) in
    match r with
    | Ok _ => Ret (Ok tt)
    | Err e =>
        let! d := DisconnectAccount_ (ID a) in
        Ret (Err (match d with Ok _ => e | Err deleteErr => cleanup_failed e deleteErr end))
    end.

Definition CreateAPIUpstreamAccount_ (input : HttpApi.APIUpstreamInput) : P (result perror AccountView) :=
  let name := TrimSpace (HttpApi.UI_Name input) in
  let baseURL := normalizeOpenAICompatibleBaseURL (HttpApi.UI_BaseURL input) in
  let apiKey := TrimSpace (HttpApi.UI_APIKey input) in
  if str_eq name "" || str_eq baseURL "" || str_eq apiKey "" || negb (base_url_ok baseURL) then Ret (Err ErrInvalidInput)
  else
    try (lift (encryptString Secrets.SecretKindProviderAPIKey apiKey)) (fun key =>
    match normalizeProxyURL (HttpApi.UI_ProxyURL input) with
    | Err e => Ret (Err e)
    | Ok proxyURL =>
        try (profile_allowed true (HttpApi.UI_FingerprintProfileID input)) (fun _ =>
        try (encrypted_proxy proxyURL) (fun proxy =>
        try (lift (SaveAccount (new_account input name baseURL key proxy))) (fun a =>
        try (initial_models a (HttpApi.UI_Models input)) (fun _ =>
        let! v := withProxySummary a in Ret (Ok v)))))
    end).
End service.

End AccountAdmin.
