(* ===== verification/AccountTests.v ===== *)
(** * Testing accounts and syncing their models

    The diagnostics of [provider/service.go]: the credentials a test works with,
    the test of one account and of all, the test of one model, and the sync of an
    API upstream's models, as programs over the calls of [AccountAdmin]. *)

From stdpp Require Import gmap strings.
From S2P Require Import Prelude GoStrings Effects Secrets Account Scheduling OAuth AccountModels ModelCatalog ModelProbe AccountAdmin.

Module AccountTests.
Import Account Scheduling AccountAdmin.

Section service.
Context (cfg : Config) (CodexResponsesBaseURL : string) (RefreshWindow : Duration).
Context (has_prober records_diagnostics has_model_prober has_test_logger : bool) (correlation : option string).
Context (sha256 : string → string) (ParseTime : string → option Time) (StatusText : Z → string).
Context (iterate : gmap string string → list (string * string)) (url_Parse : string → option parsed_url).


Definition proxy_password (u : string) : option string := parsed ← url_Parse u; Password parsed.

Definition redactModelProbeSecrets : string → SelectedAccount → string :=
  ModelProbe.redactModelProbeSecrets proxy_password iterate.

(** *** Credentials *)

Definition selected_proxy (a : Account) : P (result perror string) :=
  if OAuth.blank (EncryptedProxyURL (Credential a)) then Ret (Ok "")
  else AccountAdmin.try (lift (OAuth.decryptString Secrets.SecretKindProviderProxyURL (EncryptedProxyURL (Credential a))))
         (fun u => Ret (Ok (TrimSpace u))).

Definition selected_credentials (a : Account) (accountType : string) (recordRefreshFailure : bool) : P (result perror (string * string)) :=
  if str_eq accountType AccountTypeCodexOAuth then
    AccountAdmin.try (lift (OAuth.accessTokenForAccount cfg RefreshWindow records_diagnostics sha256 a recordRefreshFailure)) (fun token =>
    Ret (Ok (token, TrimRightSlash (TrimSpace (APIBaseURL cfg)))))
  else if str_eq accountType AccountTypeAPIUpstream then
    AccountAdmin.try (lift (OAuth.decryptString Secrets.SecretKindProviderAPIKey (EncryptedAPIKey (Credential a)))) (fun token =>
    let baseURL := TrimRightSlash (TrimSpace (C_BaseURL (Credential a))) in
    Ret (if base_url_ok cfg url_Parse baseURL then Ok (token, baseURL) else Err ErrInvalidInput))
  else Ret (Err (ErrOther ("unsupported account type " +++ accountType))).

Definition with_profile (p : FingerprintProfileData) (s : SelectedAccount) : SelectedAccount :=
  {| AccountID := AccountID s; S_Provider := S_Provider s; S_AccountType := S_AccountType s; S_DisplayName := S_DisplayName s;
     AuthorizationToken := AuthorizationToken s; S_BaseURL := S_BaseURL s; ProxyURL := ProxyURL s; ChatGPTAccountID := ChatGPTAccountID s;
     S_MaxConcurrentRequests := S_MaxConcurrentRequests s; RoutingPoolID := RoutingPoolID s; RoutingPoolName := RoutingPoolName s;
     RoutingPoolFallbackDepth := RoutingPoolFallbackDepth s; RoutingPoolFallbackChain := RoutingPoolFallbackChain s;
     RoutingPoolError := RoutingPoolError s;
     FingerprintUA := if OAuth.blank (UserAgent p) then FingerprintUA s else TrimSpace (UserAgent p);
     FingerprintTLS := if OAuth.blank (TLSFingerprint p) then FingerprintTLS s else TrimSpace (TLSFingerprint p);
     FingerprintHeaders := if bool_decide (Headers p = ∅) then FingerprintHeaders s else Some (Headers p) |}.

Definition selected_profile (a : Account) (s : SelectedAccount) : P SelectedAccount :=
  match FingerprintProfileID a with
  | Some i =>
      if bool_decide (0 < i) then
        let! r := ask (FindFingerprintProfile i) in
        Ret (match r with Ok p => with_profile p s | Err _ => s end)
      else Ret s
  | None => Ret s
  end.

Definition selectedAccountWithRefreshFailureRecording (a : Account) (recordRefreshFailure : bool) : P (result perror SelectedAccount) :=
  let a := normalizeAccountCredentialFields a in
  let accountType := if OAuth.blank (AccountType a) then AccountTypeCodexOAuth else TrimSpace (AccountType a) in
  AccountAdmin.try (selected_proxy a) (fun proxyURL =>
  AccountAdmin.try (selected_credentials a accountType recordRefreshFailure) (fun c =>
  let! s := selected_profile a
    {| AccountID := ID a; S_Provider := valueOrDefault (TrimSpace (Provider a)) (CfgProvider cfg); S_AccountType := accountType;
       S_DisplayName := accountDisplayName a; AuthorizationToken := c.1; S_BaseURL := c.2; ProxyURL := proxyURL;
       ChatGPTAccountID := TrimSpace (meta_get (Metadata a) "chatgpt_account_id");
       S_MaxConcurrentRequests := MaxConcurrentRequests a; RoutingPoolID := 0; RoutingPoolName := "";
       RoutingPoolFallbackDepth := 0; RoutingPoolFallbackChain := ""; RoutingPoolError := ""; FingerprintUA := "";
       FingerprintTLS := ""; FingerprintHeaders := None |} in
  Ret (Ok s))).

Definition selectedAccountForAccountTest (a : Account) := selectedAccountWithRefreshFailureRecording a true.
Definition selectedAccountForModelSync (a : Account) := selectedAccountWithRefreshFailureRecording a true.
Definition selectedAccountForDiagnostic (a : Account) := selectedAccountWithRefreshFailureRecording a false.

(** *** The log of test requests *)

Definition requestRoutePath (rawURL fallback : string) : string :=
  match url_Parse rawURL with Some target => if str_eq (Path target) "" then fallback else Path target | None => fallback end.

Definition accountStatusTestRoute (apiBaseURL chatGPTAccountID : string) : string :=
  requestRoutePath (ModelProbe.status_probe_url apiBaseURL CodexResponsesBaseURL chatGPTAccountID)
    (if OAuth.blank chatGPTAccountID then "/v1/models" else "/responses").

Definition accountStatusTestMethod (chatGPTAccountID : string) : string := if OAuth.blank chatGPTAccountID then "GET" else "POST".
Definition accountStatusTestModel (chatGPTAccountID : string) : string := if OAuth.blank chatGPTAccountID then "" else "gpt-5.4-mini".

(** A failed probe says whether its deadline was exceeded. *)
Definition accountStatusTestError (status : Z) (failure : option bool) : string :=
  match failure with
  | Some deadline => if deadline then "timeout" else "network_error"
  | None =>
      if bool_decide (200 ≤ status ≤ 299) then ""
      else if bool_decide (status = 401) || bool_decide (status = 403) then "unauthorized"
      else if bool_decide (status = 429) then "rate_limited"
      else "upstream_error"
  end.

Definition accountModelTestRoute (s : SelectedAccount) : string :=
  requestRoutePath (ModelProbe.probe_url CodexResponsesBaseURL s)
    (if str_eq (S_AccountType s) AccountTypeCodexOAuth then "/responses" else "/v1/chat/completions").

Definition logAccountTestRequest (s : SelectedAccount) (model route method : string) (statusCode : Z) (errorCode : string)
    (startedAt : Time) : P unit :=
  if has_test_logger then
    let! fresh := ask NewCorrelationID in
    let! t := now in
    ask (LogTest {|
      RequestID := default fresh correlation;
      L_Provider := if OAuth.blank (S_Provider s) then CfgProvider cfg else TrimSpace (S_Provider s);
      ProviderAccountID := AccountID s; ProviderAccountType := S_AccountType s; ProviderAccountName := S_DisplayName s;
      L_Model := model; Route := route; Method := method;
      StatusCode := if bool_decide (statusCode = 0) then 502 else statusCode;
      Latency := time_sub t startedAt; L_Error := errorCode; L_CreatedAt := startedAt |})
  else Ret tt.

(** *** The test of an account *)

Definition recordAccountTestResult (a : Account) (status message : string) (at_ : Time) : P (result perror unit) :=
  lift (OAuth.recordAccountTestResult a status message at_).

Definition recordSelectionFailure (id : Z) (e : perror) : P (result perror unit) :=
  let! t := now in ask (OAuthCall (OAuth.RecordAccount id (selection_failure e t))).

Definition record_failure (id code : Z) (retryAfter message : string) : P (result perror unit) :=
  lift (OAuth.record_failure ParseTime StatusText id code retryAfter message).

(** The account as it is stored after a failure. *)
Definition stored (id : Z) : P (result perror AccountView) := let! r := findAccountByID id in Ret (plain r).

Definition TestAccount_ (id : Z) : P (result perror AccountView) :=
  if bool_decide (id ≤ 0) then Ret (Err ErrInvalidInput)
  else
    AccountAdmin.try (findAccountByID id) (fun a =>
    let! r := selectedAccountForAccountTest a in
    match r with
    | Err e =>
        let! t := now in
        AccountAdmin.try (recordAccountTestResult a OAuth.AccountTestStatusFailed (error_text e) t) (fun _ =>
        AccountAdmin.try (recordSelectionFailure (ID a) e) (fun _ =>
        stored (ID a)))
    | Ok s =>
        if negb has_prober || OAuth.blank (AuthorizationToken s) then Ret (plain (Ok a))
        else
          let upstream := str_eq (S_AccountType s) AccountTypeAPIUpstream in
          let apiBaseURL := if upstream then S_BaseURL s else APIBaseURL cfg in
          let chatGPT := if upstream then "" else TrimSpace (ChatGPTAccountID s) in
          let! startedAt := now in
          let! r := ask (ProbeStatus apiBaseURL chatGPT (ProxyURL s) (AuthorizationToken s)) in
          let status := match r with Ok x => OAuth.statusCode x.1 | Err _ => 0 end in
          let failure := match r with Ok x => if x.2 then Some true else None | Err _ => Some false end in
          logAccountTestRequest s (accountStatusTestModel chatGPT) (accountStatusTestRoute apiBaseURL chatGPT)
            (accountStatusTestMethod chatGPT) status (accountStatusTestError status failure) startedAt ;;
          match r with
          | Err e =>
              let! t := now in
              AccountAdmin.try (recordAccountTestResult a OAuth.AccountTestStatusFailed (error_text e) t) (fun _ =>
              AccountAdmin.try (ask (OAuthCall (OAuth.RecordAccount (ID a)
                     (RecordStatus AccountStatusCircuitOpen (error_text e) t None (Some (t + defaultCircuitOpen)))))) (fun _ =>
              stored (ID a)))
          | Ok (x, _) =>
              if negb (OAuth.isSuccessfulAccountStatus (OAuth.statusCode x)) then
                let! t := now in
                let message := if OAuth.blank (OAuth.probe_message x) then StatusText (OAuth.statusCode x) else TrimSpace (OAuth.probe_message x) in
                AccountAdmin.try (recordAccountTestResult a OAuth.AccountTestStatusFailed message t) (fun _ =>
                AccountAdmin.try (record_failure (ID a) (OAuth.statusCode x) (OAuth.retryAfter x) (OAuth.probe_message x)) (fun _ =>
                stored (ID a)))
              else
                let! t := now in
                AccountAdmin.try (recordAccountTestResult a OAuth.AccountTestStatusPassed "" t) (fun _ =>
                AccountAdmin.try (RecordAccountRecovered (ID a)) (fun _ =>
                AccountAdmin.try (findAccountByID (ID a)) (fun recovered =>
                let! v := withProxySummary url_Parse recovered in Ret (Ok v))))
          end
    end).

(** *** The test of all accounts *)

Fixpoint test_each (total : Z) (index : Z) (accounts : list AccountView) (tested : list AccountView)
  : P (list AccountView * option accountBatchError) :=
  match accounts with
  | [] => Ret (tested, None)
  | v :: accounts =>
      let! r := TestAccount_ (ID (V_Account v)) in
      match r with
      | Ok updated => test_each total (index + 1) accounts (tested ++ [updated])
      | Err e =>
          Ret (tested, Some {| B_Err := e; Requested := total; Attempted := index + 1; Succeeded := Z.of_nat (length tested);
                               B_Failed := 1; Skipped := total - index - 1 |})
      end
  end.

Definition TestAccounts_ : P (result perror (list AccountView * option accountBatchError)) :=
  AccountAdmin.try (ListAccounts_ url_Parse) (fun accounts =>
  let! r := test_each (Z.of_nat (length accounts)) 0 accounts [] in Ret (Ok r)).

(** *** The test of a model *)

(** [time.Duration.Milliseconds] *)
Definition Milliseconds (d : Duration) : Z := Z.quot d (1000 * Microsecond).

Definition TestAccountModel_ (id : Z) (model : string) : P (result perror AccountModels.AccountModelTestResult) :=
  let model := TrimSpace model in
  if bool_decide (id ≤ 0) || str_eq model "" || bool_decide (AccountModels.maxModelNameLen < go_len model)
  then Ret (Err ErrInvalidInput)
  else
    AccountAdmin.try (findAccountByID id) (fun a =>
    AccountAdmin.try (ask (FindModels id)) (fun models =>
    if negb (existsb (fun m => str_eq (AccountModels.Model m) model) models) then Ret (Err ErrNotConnected)
    else
      AccountAdmin.try (selectedAccountForDiagnostic a) (fun s =>
      if negb has_model_prober then Ret (Err (ErrOther "account model prober is unavailable"))
      else
        let! startedAt := now in
        let! probe := ask (ProbeModel s model) in
        logAccountTestRequest s model (accountModelTestRoute s) "POST" (mp_statusCode probe) (errorCode probe) startedAt ;;
        let! checkedAt := now in
        let! ended := now in
        let ok := str_eq (errorCode probe) "" in
        let result := {|
          AccountModels.TR_AccountID := id; AccountModels.TR_Model := model;
          AccountModels.TR_Status := if ok then OAuth.AccountTestStatusPassed else OAuth.AccountTestStatusFailed;
          AccountModels.TR_ErrorCode := errorCode probe; AccountModels.TR_HTTPStatus := mp_statusCode probe;
          AccountModels.TR_LatencyMS := Milliseconds (time_sub ended startedAt);
          AccountModels.TR_Message := if ok then "" else redactModelProbeSecrets (mp_message probe) s;
          AccountModels.TR_CheckedAt := checkedAt |} in
        AccountAdmin.try (ask (RecordModelTestTx result)) (fun _ => Ret (Ok result))))).

(** *** Syncing an API upstream's models *)

Definition SyncUpstreamAccountModels_ (id : Z)
  : P (result perror (list AccountModels.AccountModel * AccountModels.AccountModelSyncSummary)) :=
  if bool_decide (id ≤ 0) then Ret (Err ErrInvalidInput)
  else
    AccountAdmin.try (findAccountByID id) (fun a =>
    if negb (str_eq (AccountType a) AccountTypeAPIUpstream) then Ret (Err ErrInvalidInput)
    else
      AccountAdmin.try (selectedAccountForModelSync a) (fun s =>
      AccountAdmin.try (ask (GetModels (ModelCatalog.upstreamModelsURL (S_BaseURL s)) (AuthorizationToken s) (ProxyURL s))) (fun response =>
      match ModelCatalog.upstream_models iterate response with
      | Err e => Ret (Err e)
      | Ok models => let! t := now in ask (SyncModelsTx id models t)
      end))).
End service.

End AccountTests.
