(* ===== verification/AccountAdminThms.v ===== *)
(** * Administration of upstream accounts: theorems

    What reaches the database when accounts are created, changed and removed, in
    which order the catalogue, the row and the transport of an account are
    touched, and what a deleted account leaves behind. *)

From stdpp Require Import gmap strings sorting.
From Stdlib Require Import Ascii.
From Stdlib Require String.
From S2P Require Import Prelude GoStrings Effects Secrets Account Scheduling ProviderStore OAuth AccountModels AccountModelsThms HttpApi ModelCatalog AccountAdmin.

Module AccountAdminThms.
Import Account Scheduling AccountAdmin.

(** ** Credentials *)

Abbreviation history := (list (ev cmd)).

(** A ciphertext that the secrets component made of a value that is not empty. *)
Definition encrypted (h : history) (kind c : string) : Prop :=
  ∃ v, v ≠ "" ∧ Ev (OAuthCall (OAuth.EncryptString kind v)) (Ok c) ∈ h.

Definition catalog_dropped (h : history) (id : Z) : Prop := Ev (OAuthCall (OAuth.InvalidateOAuthModelCatalog id)) tt ∈ h.

(** The credentials of a new row. *)
Definition sealed (h : history) (c : AccountCredential) : Prop :=
  encrypted h Secrets.SecretKindProviderAPIKey (EncryptedAPIKey c)
  ∧ (EncryptedProxyURL c = "" ∨ encrypted h Secrets.SecretKindProviderProxyURL (EncryptedProxyURL c))
  ∧ C_EncryptedAccessToken c = "" ∧ C_EncryptedRefreshToken c = "" ∧ C_EncryptedIDToken c = "".

(** What must have happened before a transaction. *)
Definition prepared (R : Set) (c : cmd R) (h : history) : Prop :=
  match c with
  | UpdateAccountTx id u =>
      APIUpstreamAPIKey u = None
      ∧ (∀ k, EncryptedAPIUpstreamAPIKey u = Some k → encrypted h Secrets.SecretKindProviderAPIKey k)
      ∧ (∀ x, U_EncryptedProxyURL u = Some x → x = "" ∨ encrypted h Secrets.SecretKindProviderProxyURL x)
      ∧ catalog_dropped h id
  | DeleteAccountTx id => catalog_dropped h id
  | DeleteAccountsTx => Ev InvalidateAllCatalogs tt ∈ h
  | OAuthCall c => match c with OAuth.SaveAccountTx a => sealed h (Credential a) | _ => True end
  | _ => True
  end.

(** The accounts that were changed or removed and whose pooled transports have
    not been dropped since. *)
Definition observe_transport (e : ev cmd) (l : list Z) : list Z :=
  match e with
  | Ev c r =>
      match c in cmd R return R → list Z with
      | UpdateAccountTx id _ => fun r => match r with Ok _ => id :: l | Err _ => l end
      | DeleteAccountTx id => fun r => match r with Ok _ => id :: l | Err _ => l end
      | InvalidateTransport id => fun _ => List.filter (fun i => negb (bool_decide (i = id))) l
      | InvalidateAllTransports => fun _ => []
      | _ => fun _ => l
      end r
  end.

Definition stale_transports (h : history) : list Z := foldl (fun l e => observe_transport e l) [] h.

Lemma stale_snoc h e : stale_transports (h ++ [e]) = observe_transport e (stale_transports h).
Proof. unfold stale_transports. by rewrite foldl_app. Qed.

Definition remember (R : Set) (c : cmd R) (x : R) (h : history) : history := h ++ [Ev c x].

Abbreviation admin_wp := (wp remember prepared (fun _ _ _ _ => True)).

Lemma prepared_at h tr1 R (c : cmd R) x tr2 :
  safe remember prepared h (tr1 ++ Ev c x :: tr2) → prepared R c (h ++ tr1).
Proof.
  revert h. induction tr1 as [|[R' c' x'] tr1 IH]; intros h; cbn.
  - intros [H _]. by rewrite app_nil_r.
  - intros [_ H]. apply IH in H. unfold remember in H. by rewrite <- app_assoc in H.
Qed.

Lemma honest_any h tr : honest remember (fun _ _ _ _ => True) h tr.
Proof. revert h. induction tr as [|[R c x] tr IH]; intros h; cbn; auto. Qed.

Lemma summary_history h tr : summary remember h tr = h ++ tr.
Proof.
  revert h. induction tr as [|[R c x] tr IH]; intros h; cbn; [by rewrite app_nil_r|].
  unfold summary in IH. rewrite IH. unfold remember. by rewrite <- app_assoc.
Qed.

(** What a part that commits nothing leaves as it was. *)
Definition grown (h h' : history) : Prop := h ⊆ h' ∧ stale_transports h' = stale_transports h.

Lemma grown_refl h : grown h h.
Proof. by split. Qed.

Lemma grown_snoc h h1 R (c : cmd R) x :
  grown h h1 → (∀ l, observe_transport (Ev c x) l = l) → grown h (remember R c x h1).
Proof. intros [Hs He] Hc. unfold remember. split; [set_solver|]. by rewrite stale_snoc, Hc. Qed.

Lemma grown_trans h1 h2 h3 : grown h1 h2 → grown h2 h3 → grown h1 h3.
Proof. intros [? ?] [? ?]. split; [set_solver|congruence]. Qed.

Lemma encrypted_grown h h' kind c : encrypted h kind c → h ⊆ h' → encrypted h' kind c.
Proof. intros (v & ? & ?) Hs. exists v. auto. Qed.

Create HintDb admin.
#[local] Hint Resolve grown_refl grown_trans : admin.
#[local] Hint Extern 3 (grown _ (remember _ _ _ _)) => apply grown_snoc; [|done] : admin.

Ltac call_step := cbn [AccountAdmin.try bind ask wp lift]; split; [try done|]; intros ? _; cbn [bind wp lift].

(** Programs without a call that matters. *)
Fixpoint quiet {A} (p : P A) : Prop :=
  match p with
  | Ret _ => True
  | Vis c k => (∀ h, prepared _ c h) ∧ (∀ x l, observe_transport (Ev c x) l = l) ∧ ∀ x, quiet (k x)
  end.

Lemma quiet_wp {A} (p : P A) h : quiet p → admin_wp p (fun _ h' => grown h h') h.
Proof.
  intros Hq. assert (∀ h1, grown h h1 → admin_wp p (fun _ h' => grown h h') h1) as H; [|by apply H, grown_refl].
  induction p as [a|R c k IH]; intros h1 Hg; [done|]. destruct Hq as (Hp & Hl & Hk). cbn. split; [done|].
  intros r _. apply IH; [done|]. by apply grown_snoc.
Qed.

Lemma quiet_calls_bind {A B} (p : P A) (k : A → P B) : quiet p → (∀ a, quiet (k a)) → quiet (bind p k).
Proof. intros Hp Hk. induction p as [a|R c q IH]; cbn; [done|]. destruct Hp as (? & ? & ?). repeat split; auto. Qed.

Lemma quiet_calls_try {A B} (p : P (result perror A)) (k : A → P (result perror B)) :
  quiet p → (∀ a, quiet (k a)) → quiet (AccountAdmin.try p k).
Proof. intros Hp Hk. apply quiet_calls_bind; [done|]. by intros [a|e]. Qed.

(** A program after a quiet one. *)
Lemma quiet_then {A B} (p : P A) (f : A → P B) (Q : B → history → Prop) h :
  quiet p → (∀ a h', grown h h' → admin_wp (f a) Q h') → admin_wp (bind p f) Q h.
Proof. intros Hp Hf. eapply wp_bind_mono; [by apply quiet_wp|done]. Qed.

Section service.
Context (cfg : Config) (has_invalidator : bool).
Context (iterate : gmap string string → list (string * string)) (url_Parse : string → option parsed_url).

Lemma withProxySummary_quiet a : quiet (withProxySummary url_Parse a).
Proof. unfold withProxySummary. destruct (str_eq _ ""); cbn; [done|]. repeat split; done. Qed.

Lemma profile_allowed_quiet b i : quiet (profile_allowed b i).
Proof.
  unfold profile_allowed. destruct i as [i|]; [|done]. destruct b; [|done]. cbn. destruct (bool_decide _); cbn; [done|].
  repeat split; done.
Qed.

Lemma upstream_allowed_quiet id u : quiet (upstream_allowed id u).
Proof.
  unfold upstream_allowed. destruct (_ || _); [|done]. apply quiet_calls_try; [|done]. cbn. repeat split; done.
Qed.

Lemma ReplaceAccountModels_quiet id l : quiet (ReplaceAccountModels_ iterate id l).
Proof.
  unfold ReplaceAccountModels_. destruct (bool_decide _); [done|]. destruct (AccountModels.normalizeAccountModelInputs _ _); [|done].
  cbn. repeat split; done.
Qed.

(** Encrypting a value that is not empty. *)
Lemma encrypt_wp kind v h :
  v ≠ "" →
  admin_wp (lift (OAuth.encryptString kind v))
    (fun r h' => grown h h' ∧ match r with Ok c => encrypted h' kind c | Err _ => True end) h.
Proof.
  intros Hv. cbn. split; [done|]. intros [c|e] _; (split; [by apply grown_snoc|]); [|done].
  exists v. split; [done|]. unfold remember. set_solver.
Qed.

Lemma encrypted_proxy_wp p h :
  admin_wp (encrypted_proxy p)
    (fun r h' => grown h h' ∧ match r with Ok c => c = "" ∨ encrypted h' Secrets.SecretKindProviderProxyURL c | Err _ => True end) h.
Proof.
  unfold encrypted_proxy. destruct (str_eq p "") eqn:Ep; [cbn; auto with admin|].
  eapply wp_mono; [apply encrypt_wp; exact (bool_decide_eq_false_1 _ Ep)|]. intros [c|e] h' [? ?]; auto.
Qed.

(** *** The operations *)

Inductive operation :=
| Update (id : Z) (u : AccountUpdate)
| ResetStatus (id : Z)
| Create (input : HttpApi.APIUpstreamInput)
| DisconnectOne (id : Z)
| DisconnectAll.

Definition discard {A} (p : P (result perror A)) : P (result perror unit) :=
  let! r := p in Ret (match r with Ok _ => Ok tt | Err e => Err e end).

Definition perform (o : operation) : P (result perror unit) :=
  match o with
  | Update id u => discard (UpdateAccount_ cfg has_invalidator url_Parse id u)
  | ResetStatus id => discard (ResetAccountStatus_ cfg has_invalidator url_Parse id)
  | Create input => discard (CreateAPIUpstreamAccount_ cfg has_invalidator iterate url_Parse input)
  | DisconnectOne id => DisconnectAccount_ has_invalidator id
  | DisconnectAll => Disconnect_ has_invalidator
  end.

(** Callers hand over plain values only. *)
Definition plain_input (o : operation) : Prop :=
  match o with Update _ u => EncryptedAPIUpstreamAPIKey u = None ∧ U_EncryptedProxyURL u = None | _ => True end.

(** The result of an operation that began with nothing to drop. *)
Definition transports_dropped {A} (r : result perror A) (h : history) : Prop :=
  match r with Ok _ => has_invalidator = true → stale_transports h = [] | Err _ => True end.

Lemma with_base_url_encrypted u u' :
  with_base_url cfg url_Parse u = Ok u' →
  EncryptedAPIUpstreamAPIKey u' = EncryptedAPIUpstreamAPIKey u ∧ U_EncryptedProxyURL u' = U_EncryptedProxyURL u.
Proof.
  unfold with_base_url. destruct (APIUpstreamBaseURL u); [|by intros [= <-]]. destruct (base_url_ok _ _ _); [|done].
  by intros [= <-].
Qed.

Lemma with_name_encrypted u u' :
  with_name u = Ok u' →
  EncryptedAPIUpstreamAPIKey u' = EncryptedAPIUpstreamAPIKey u ∧ U_EncryptedProxyURL u' = U_EncryptedProxyURL u.
Proof. unfold with_name. destruct (U_Name u); [|by intros [= <-]]. destruct (_ || _); [done|]. by intros [= <-]. Qed.

Definition sealed_key (h : history) (u : AccountUpdate) : Prop :=
  APIUpstreamAPIKey u = None
  ∧ (∀ k, EncryptedAPIUpstreamAPIKey u = Some k → encrypted h Secrets.SecretKindProviderAPIKey k).

Definition sealed_proxy (h : history) (u : AccountUpdate) : Prop :=
  ∀ x, U_EncryptedProxyURL u = Some x → x = "" ∨ encrypted h Secrets.SecretKindProviderProxyURL x.

Lemma sealed_key_grown h h' u : sealed_key h u → grown h h' → sealed_key h' u.
Proof. intros [? Hk] [Hs _]. split; [done|]. intros k ?. eapply encrypted_grown; [by apply Hk|done]. Qed.

Lemma sealed_proxy_grown h h' u : sealed_proxy h u → grown h h' → sealed_proxy h' u.
Proof. intros Hk [Hs _] k Hx. destruct (Hk k Hx); [by left|right]. by eapply encrypted_grown. Qed.

Lemma with_api_key_wp u h :
  EncryptedAPIUpstreamAPIKey u = None →
  admin_wp (with_api_key u)
    (fun r h' => grown h h' ∧ match r with Ok u' => sealed_key h' u' ∧ U_EncryptedProxyURL u' = U_EncryptedProxyURL u | Err _ => True end) h.
Proof.
  intros Hu. unfold with_api_key. destruct (APIUpstreamAPIKey u) as [k|] eqn:Ek.
  - destruct (str_eq (TrimSpace k) "") eqn:E0; [cbn; auto with admin|].
    unfold AccountAdmin.try. eapply wp_bind_mono; [apply encrypt_wp; exact (bool_decide_eq_false_1 _ E0)|].
    intros [c|e] h' [Hg Hc]; [|done]. cbn. repeat split; try apply Hg. by intros ? [= <-].
  - cbn. split; [apply grown_refl|]. split; [|done]. split; [done|]. by rewrite Hu.
Qed.

Lemma with_proxy_wp u h :
  U_EncryptedProxyURL u = None →
  admin_wp (with_proxy url_Parse u)
    (fun r h' => grown h h' ∧ match r with Ok u' => sealed_proxy h' u' ∧ (∀ h, sealed_key h u → sealed_key h u') | Err _ => True end) h.
Proof.
  intros Hu. unfold with_proxy. destruct (U_ProxyURL u) as [x|].
  - destruct (normalizeProxyURL url_Parse x) as [y|e]; [|cbn; auto with admin].
    unfold AccountAdmin.try. eapply wp_bind_mono; [apply encrypted_proxy_wp|]. intros [c|e] h' [Hg Hc]; [|done].
    cbn. split; [done|]. split; [|done]. by intros z [= <-].
  - cbn. split; [apply grown_refl|]. split; [|done]. intros z. by rewrite Hu.
Qed.

(** Dropping the transports of an account that was changed. *)
Lemma invalidate_wp id h :
  0 < id → List.filter (fun i => negb (bool_decide (i = id))) (stale_transports h) = [] →
  admin_wp (invalidateAccountTransport has_invalidator id)
    (fun _ h' => has_invalidator = true → stale_transports h' = []) h.
Proof.
  intros Hid Hs. unfold invalidateAccountTransport. rewrite (bool_decide_eq_true_2 _ Hid), andb_true_r.
  destruct has_invalidator; [|done]. cbn. split; [done|]. intros r _ _. unfold remember. rewrite stale_snoc. exact Hs.
Qed.

Lemma catalog_wp id h :
  0 < id → admin_wp (lift (OAuth.invalidateOAuthModelCatalog id)) (fun _ h' => grown h h' ∧ catalog_dropped h' id) h.
Proof.
  intros Hid. unfold OAuth.invalidateOAuthModelCatalog. rewrite bool_decide_eq_false_2 by lia. cbn.
  split; [done|]. intros [] _. split; [by apply grown_snoc|]. unfold catalog_dropped, remember. set_solver.
Qed.

Lemma withProxySummary_wp a h :
  (has_invalidator = true → stale_transports h = []) →
  admin_wp (let! v := withProxySummary url_Parse a in Ret (Ok v)) (fun r h' => transports_dropped (r : result perror AccountView) h') h.
Proof.
  intros Hs. apply quiet_then; [apply withProxySummary_quiet|]. intros v h' [_ Hg]. cbn. by rewrite Hg.
Qed.

(** The commit of an update, and what follows it. *)
Lemma commit_wp id u h :
  0 < id → stale_transports h = [] → sealed_key h u → sealed_proxy h u → catalog_dropped h id →
  admin_wp
    (AccountAdmin.try (repo_UpdateAccount id u) (fun a =>
       invalidateAccountTransport has_invalidator id ;; let! v := withProxySummary url_Parse a in Ret (Ok v)))
    (fun r h' => transports_dropped r h') h.
Proof.
  intros Hid Hs [Hp Hk] Hx Hc. cbn. split; [done|]. intros [[]|e] _; cbn; [|done]. split; [done|]. intros [a|e] _; cbn; [|done].
  eapply wp_bind_mono; [apply invalidate_wp|]; [done| |].
  - unfold remember. rewrite !stale_snoc. cbn. rewrite bool_decide_eq_true_2 by done. cbn. by rewrite Hs.
  - intros [] h' Hd. by apply withProxySummary_wp.
Qed.

Lemma UpdateAccount_wp id u h :
  EncryptedAPIUpstreamAPIKey u = None → U_EncryptedProxyURL u = None → stale_transports h = [] →
  admin_wp (UpdateAccount_ cfg has_invalidator url_Parse id u) (fun r h' => transports_dropped r h') h.
Proof.
  intros Hk Hx Hs. unfold UpdateAccount_. destruct (bool_decide (id ≤ 0)) eqn:Ei; [done|].
  apply bool_decide_eq_false_1 in Ei. destruct (_ || _); [done|].
  destruct (with_name u) as [u1|e] eqn:E1; [|done]. apply with_name_encrypted in E1 as [Hk1 Hx1].
  apply quiet_then; [apply profile_allowed_quiet|]. intros [[]|e] h1 [Hs1 Hg1]; [|done].
  apply quiet_then; [apply upstream_allowed_quiet|]. intros [[]|e] h2 [Hs2 Hg2]; [|done].
  destruct (with_base_url cfg url_Parse u1) as [u2|e] eqn:E2; [|done]. apply with_base_url_encrypted in E2 as [Hk2 Hx2].
  eapply wp_bind_mono; [apply with_api_key_wp; congruence|]. intros [u3|e] h3 [[Hs3 Hg3] H3]; [|done]. destruct H3 as [Hk3 Hx3].
  eapply wp_bind_mono; [apply with_proxy_wp; congruence|]. intros [u4|e] h4 [G4 H4]; [|done]. destruct H4 as [Hx4 Hk4].
  eapply wp_bind_mono; [apply catalog_wp; lia|]. intros [] h5 [G5 Hc].
  apply commit_wp; [lia| | | |done].
  - destruct G4 as [_ G4], G5 as [_ G5]. congruence.
  - eapply sealed_key_grown; [|exact G5]. apply Hk4. by eapply sealed_key_grown.
  - by eapply sealed_proxy_grown.
Qed.

Lemma DisconnectAccount_wp id h :
  stale_transports h = [] →
  admin_wp (DisconnectAccount_ has_invalidator id) (fun r h' => transports_dropped r h') h.
Proof.
  intros Hs. unfold DisconnectAccount_. destruct (bool_decide (id ≤ 0)) eqn:Ei; [done|]. apply bool_decide_eq_false_1 in Ei.
  eapply wp_bind_mono; [apply catalog_wp; lia|]. intros [] h1 [[_ G1] Hc]. cbn. split; [done|]. intros [[]|e] _; cbn; [|done].
  eapply wp_bind_mono; [apply invalidate_wp|]; [lia| |by intros [] h' Hd].
  unfold remember. rewrite stale_snoc. cbn. rewrite bool_decide_eq_true_2 by done. cbn. by rewrite G1, Hs.
Qed.

Lemma initial_models_wp a l h :
  stale_transports h = [] →
  admin_wp (initial_models has_invalidator iterate a l)
    (fun r h' => match r with Ok _ => stale_transports h' = [] | Err _ => True end) h.
Proof.
  intros Hs. unfold initial_models. destruct (bool_decide (l = [])); [done|].
  apply quiet_then; [apply ReplaceAccountModels_quiet|]. intros [ms|e] h1 [_ G1]; cbn; [congruence|].
  eapply wp_bind_mono; [apply DisconnectAccount_wp; congruence|]. done.
Qed.

Lemma SaveAccount_wp a h :
  sealed h (Credential (OAuth.normalizeAccountForSave a)) →
  admin_wp (lift (OAuth.SaveAccount a)) (fun _ h' => grown h h') h.
Proof.
  intros Hs. unfold OAuth.SaveAccount, OAuth.try. cbn. split; [done|]. intros [id|e] _; cbn; [|by apply grown_snoc].
  split; [done|]. intros r _. apply grown_snoc; [|done]. by apply grown_snoc.
Qed.

Lemma new_account_sealed input name baseURL key proxy h :
  encrypted h Secrets.SecretKindProviderAPIKey key →
  proxy = "" ∨ encrypted h Secrets.SecretKindProviderProxyURL proxy →
  sealed h (Credential (OAuth.normalizeAccountForSave (new_account cfg input name baseURL key proxy))).
Proof. intros Hk Hp. by repeat split. Qed.

Lemma CreateAPIUpstreamAccount_wp input h :
  stale_transports h = [] →
  admin_wp (CreateAPIUpstreamAccount_ cfg has_invalidator iterate url_Parse input) (fun r h' => transports_dropped r h') h.
Proof.
  intros Hs. unfold CreateAPIUpstreamAccount_.
  destruct (str_eq (TrimSpace (HttpApi.UI_APIKey input)) "") eqn:Ek; [by rewrite orb_true_r|].
  destruct (_ || _); [done|].
  eapply wp_bind_mono; [apply encrypt_wp; exact (bool_decide_eq_false_1 _ Ek)|]. intros [key|e] h1 [[S1 G1] Hk]; [|done].
  destruct (normalizeProxyURL _ _) as [p|e]; [|done].
  apply quiet_then; [apply profile_allowed_quiet|]. intros [[]|e] h2 [S2 G2]; [|done].
  eapply wp_bind_mono; [apply encrypted_proxy_wp|]. intros [c|e] h3 [[S3 G3] Hc]; [|done].
  eapply wp_bind_mono; [apply SaveAccount_wp, new_account_sealed; [|done]|].
  { eapply encrypted_grown; [done|]. set_solver. }
  intros [a|e] h4 [S4 G4]; [|done].
  eapply wp_bind_mono; [apply initial_models_wp; congruence|]. intros [[]|e] h5 G5; [|done].
  apply withProxySummary_wp. intros _. exact G5.
Qed.

Lemma Disconnect_wp h : admin_wp (Disconnect_ has_invalidator) (fun r h' => stale_transports h = [] → transports_dropped r h') h.
Proof.
  cbn. split; [done|]. intros [] _. split; [unfold remember; set_solver|]. intros [[]|e] _; cbn; [|done].
  unfold invalidateAllAccountTransports, transports_dropped. destruct has_invalidator; cbn; [|by intros _ ?].
  split; [done|]. intros [] _ _ _. unfold remember. by rewrite stale_snoc.
Qed.

Lemma discard_wp {A} (p : P (result perror A)) h :
  admin_wp p (fun r h' => transports_dropped r h') h → admin_wp (discard p) (fun r h' => transports_dropped r h') h.
Proof. intros Hp. apply wp_bind. eapply wp_mono; [done|]. by intros [a|e] h'. Qed.

Lemma perform_wp o : plain_input o → admin_wp (perform o) (fun r h' => transports_dropped r h') [].
Proof.
  destruct o as [id u|id|input|id|]; cbn [perform plain_input].
  - intros [Hk Hp]. by apply discard_wp, UpdateAccount_wp.
  - intros _. by apply discard_wp, UpdateAccount_wp.
  - intros _. by apply discard_wp, CreateAPIUpstreamAccount_wp.
  - intros _. by apply DisconnectAccount_wp.
  - intros _. eapply wp_mono; [apply Disconnect_wp|]. auto.
Qed.

End service.

(** ** The tables *)

Section repository.
(** Everything that is not the database answers as it likes. *)
Context (provider : string) (collation : string → string → bool) (dbnow : Time) (outside : ∀ R : Set, cmd R → R).

Definition oauth_call (R : Set) (c : OAuth.cmd R) (b : OAuth.db) : R → R * OAuth.db :=
  match c in OAuth.cmd R return R → R * OAuth.db with
  | OAuth.FindAccountByID id => fun _ => (OAuth.find_account provider id b, b)
  | OAuth.FindAccountByIdentity i => fun _ => (OAuth.find_by_identity provider i b, b)
  | OAuth.SaveAccountTx a => fun _ => OAuth.save_account a b
  | OAuth.UpdateOAuthCredential id c => fun _ => OAuth.update_oauth_credential provider id c b
  | OAuth.RecordRefreshFailure id message at_ openUntil => fun _ => OAuth.record_refresh_failure provider id message at_ openUntil b
  | OAuth.RecordAccountTestResult id status message at_ => fun _ => OAuth.record_test_result provider id status message at_ b
  | OAuth.RecordAccount id r => fun _ => OAuth.record_account provider id r b
  | OAuth.CreateState s => fun _ => OAuth.create_state s b
  | OAuth.ClaimState stateHash now => fun _ => OAuth.claim_state provider stateHash now b
  | _ => fun x => (x, b)
  end.

Definition on_tables {A} (d : db) (f : AccountModels.tables → A * AccountModels.tables) : A * db :=
  let '(r, t) := f (tables_of d) in (r, with_tables t d).

(** The calls on the database. *)
Definition call_db (R : Set) (c : cmd R) (d : db) : R * db :=
  match c in cmd R return R → R * db with
  | OAuthCall c => fun x => let '(r, b) := oauth_call _ c (base d) x in (r, set_base b d)
  | FindAccount => fun _ => (find_first_account provider d, d)
  | FindAllAccounts => fun _ => (list_accounts provider d, d)
  | UpdateAccountTx id u => fun _ => update_account provider id u d
  | DeleteAccountTx id => fun _ => delete_account provider id d
  | DeleteAccountsTx => fun _ => delete_accounts provider d
  | FindFingerprintProfile id => fun _ => (find_profile id d, d)
  | FindTestResults id limit => fun _ => (list_test_results provider id limit d, d)
  | FindModels id => fun _ => (AccountModels.ListAccountModels collation provider id (tables_of d), d)
  | FindModelsOf ids => fun _ => (AccountModels.ListAccountModelsForAccounts collation provider ids (tables_of d), d)
  | ReplaceModelsTx id models => fun _ =>
      on_tables d (AccountModels.ReplaceAccountModels collation provider id models dbnow)
  | SyncModelsTx id models seenAt => fun _ =>
      on_tables d (AccountModels.SyncAccountModels collation provider id models seenAt dbnow dbnow)
  | RecordModelTestTx r => fun _ => on_tables d (AccountModels.RecordAccountModelTestResult provider r dbnow)
  | _ => fun x => (x, d)
  end (outside R c).

(** *** References *)

Definition account_ids (d : db) : list Z := map ID (OAuth.accounts (base d)).

Record references_sound (d : db) : Prop := {
  rs_fresh : Forall (fun i => i < OAuth.next_account (base d)) (account_ids d);
  rs_unique : NoDup (account_ids d);
  rs_models : AccountModelsThms.well_formed (tables_of d);
  rs_members : Forall (fun m => m.1.2 ∈ account_ids d) (members d);
  rs_bindings : map_Forall (fun _ i => i ∈ account_ids d) (bindings d);
  rs_affinities : Forall (fun x => x.2 ∈ account_ids d) (affinities d);
  rs_tests : Forall (fun r => r.1.1.1 ∈ account_ids d) (OAuth.test_results (base d))
}.

(** Everything in the tables that names an account. *)
Definition refers (id : Z) (d : db) : Prop :=
  id ∈ account_ids d ∨ id ∈ map AccountModels.AccountID (model_rows d) ∨ id ∈ map (fun m => m.1.2) (members d)
  ∨ (∃ k, bindings d !! k = Some id) ∨ id ∈ map snd (affinities d)
  ∨ id ∈ map (fun r => r.1.1.1) (OAuth.test_results (base d)).

Definition set_references (ms : list (Z * Z * Z)) (bs : gmap (option Z * string * string) Z) (rs : list (string * Z)) (d : db) : db :=
  Build_db (base d) (model_rows d) (next_model d) ms bs rs (profiles d).

(** The calls of this component and of connecting accounts; elsewhere routing
    pools, bindings and affinities come and go, always for accounts that are there. *)
Inductive db_step : db → db → Prop :=
| step_call R (c : cmd R) d : db_step d (call_db R c d).2
| step_references ms bs rs d :
    Forall (fun m => m.1.2 ∈ account_ids d) ms → map_Forall (fun _ i => i ∈ account_ids d) bs →
    Forall (fun x => x.2 ∈ account_ids d) rs → db_step d (set_references ms bs rs d).

Definition empty_db (p : gmap Z (FingerprintProfileData * bool)) : db := Build_db (OAuth.Build_db [] [] [] 1) [] 1 [] ∅ [] p.

Lemma well_formed_accounts' d l :
  (∀ p i, AccountModels.has_account p i (tables_of d) = true →
          existsb (OAuth.is_row p i) l = true) →
  AccountModelsThms.well_formed (tables_of d) →
  AccountModelsThms.well_formed (AccountModels.Build_tables l (model_rows d) (next_model d)).
Proof. apply (AccountModelsThms.well_formed_accounts l (tables_of d)). Qed.

Lemma references_account_models d m :
  AccountModelsThms.well_formed (tables_of d) → m ∈ model_rows d → AccountModels.AccountID m ∈ account_ids d.
Proof.
  intros [_ _ _ H _ _] Hm. rewrite Forall_forall in H. specialize (H m Hm).
  apply AccountModelsThms.has_account_spec in H as (a & Ha & _ & <-). by apply list_elem_of_fmap_2.
Qed.


(** A change of rows that keeps who they are. *)
Definition row_key (a : Account) : Z * string := (ID a, Provider a).

Lemma has_row_key p i l : existsb (OAuth.is_row p i) l = existsb (fun k => str_eq k.2 p && bool_decide (k.1 = i)) (map row_key l).
Proof. induction l as [|a l IH]; [done|]. cbn. by rewrite IH. Qed.

Lemma row_key_ids l : map ID l = map fst (map row_key l).
Proof. by rewrite map_map. Qed.

Lemma sound_base d b :
  map row_key (OAuth.accounts b) = map row_key (OAuth.accounts (base d)) →
  OAuth.next_account b = OAuth.next_account (base d) →
  Forall (fun r => r.1.1.1 ∈ account_ids d) (OAuth.test_results b) →
  references_sound d → references_sound (set_base b d).
Proof.
  intros Hk Hn Ht [H1 H2 H3 H4 H5 H6 H7].
  assert (account_ids (set_base b d) = account_ids d) as Hid by (unfold account_ids; cbn; by rewrite !row_key_ids, Hk).
  constructor; rewrite ?Hid; cbn; rewrite ?Hn; try done.
  apply (well_formed_accounts' d); [|done]. intros p i. unfold AccountModels.has_account, tables_of. cbn. by rewrite !has_row_key, Hk.
Qed.

Lemma on_row_key i f b : (∀ a, row_key (f a) = row_key a) → map row_key (OAuth.accounts (OAuth.on_row provider i f b)) = map row_key (OAuth.accounts b).
Proof. intros Hf. cbn. rewrite map_map. apply map_ext. intros a. destruct (OAuth.is_row provider i a); [apply Hf|done]. Qed.

Lemma sound_on_row i f d :
  (∀ a, row_key (f a) = row_key a) → references_sound d → references_sound (set_base (OAuth.on_row provider i f (base d)) d).
Proof. intros Hf Hd. apply sound_base; [by apply on_row_key|done|apply Hd|done]. Qed.

(** Rows are deleted with all that refers to them. *)
Lemma deleted_ids_spec gone d i : i ∈ deleted_ids gone d ↔ ∃ a, a ∈ OAuth.accounts (base d) ∧ gone a = true ∧ ID a = i.
Proof.
  unfold deleted_ids. rewrite list_elem_of_fmap. split.
  - intros (a & -> & [Ha Hg]%list_elem_of_In%filter_In). exists a. split; [by apply list_elem_of_In|done].
  - intros (a & Ha & Hg & <-). exists a. split; [done|]. apply list_elem_of_In, filter_In. split; [by apply list_elem_of_In|done].
Qed.

Lemma remaining_ids gone d i :
  i ∈ account_ids d → i ∉ deleted_ids gone d → i ∈ account_ids (delete_rows gone d).
Proof.
  intros (a & -> & Ha)%list_elem_of_fmap Hi. apply list_elem_of_fmap. exists a. split; [done|].
  apply list_elem_of_In, filter_In. split; [by apply list_elem_of_In|]. destruct (gone a) eqn:E; [|done].
  destruct Hi. apply deleted_ids_spec. eauto.
Qed.

Lemma Forall_stays {A} (f : A → Z) gone d (l : list A) :
  Forall (fun x => f x ∈ account_ids d) l →
  Forall (fun x => f x ∈ account_ids (delete_rows gone d)) (List.filter (fun x => negb (bool_decide (f x ∈ deleted_ids gone d))) l).
Proof.
  rewrite !Forall_forall. intros H x [Hx Hs]%list_elem_of_In%filter_In. apply negb_true_iff, bool_decide_eq_false in Hs.
  apply remaining_ids; [|done]. by apply H, list_elem_of_In.
Qed.

Lemma models_deleted gone d :
  AccountModels.delete_accounts gone (tables_of d) = tables_of (delete_rows gone d).
Proof.
  unfold AccountModels.delete_accounts, tables_of. cbn. f_equal. apply List.filter_ext. intros m. f_equal.
  destruct (existsb _ _) eqn:E; symmetry; [apply bool_decide_eq_true|apply bool_decide_eq_false]; rewrite deleted_ids_spec.
  - apply existsb_exists in E as (a & Ha & [Hg Hi%bool_decide_eq_true]%andb_true_iff). exists a. by rewrite list_elem_of_In.
  - intros (a & Ha & Hg & Hi). assert (existsb (fun a => gone a && bool_decide (ID a = AccountModels.AccountID m)) (OAuth.accounts (base d)) = true);
      [|congruence]. apply existsb_exists. exists a. by rewrite <- list_elem_of_In, Hg, bool_decide_eq_true_2.
Qed.

Lemma sound_delete gone d : references_sound d → references_sound (delete_rows gone d).
Proof.
  intros [H1 H2 H3 H4 H5 H6 H7]. constructor.
  - unfold account_ids in *. cbn. rewrite Forall_map in *. by apply Forall_filter_bool.
  - by apply NoDup_filter_map.
  - rewrite <- models_deleted. by apply AccountModelsThms.well_formed_delete.
  - by apply (Forall_stays (fun m => m.1.2)).
  - intros k i [Hk Hi]%map_lookup_filter_Some. apply remaining_ids; [by eapply H5|done].
  - by apply (Forall_stays snd).
  - by apply (Forall_stays (fun r => r.1.1.1)).
Qed.

Lemma sound_tables d t :
  AccountModels.accounts t = OAuth.accounts (base d) → AccountModelsThms.well_formed t →
  references_sound d → references_sound (with_tables t d).
Proof. intros Ha Hw [H1 H2 H3 H4 H5 H6 H7]. constructor; try done. unfold tables_of. cbn. rewrite <- Ha. by destruct t. Qed.

Lemma sound_new_row a d :
  references_sound d →
  references_sound (set_base (OAuth.Build_db (OAuth.accounts (base d) ++ [OAuth.insert_row (OAuth.next_account (base d)) a])
    (OAuth.states (base d)) (OAuth.test_results (base d)) (OAuth.next_account (base d) + 1)) d).
Proof.
  intros [H1 H2 H3 H4 H5 H6 H7].
  assert (∀ i, i ∈ account_ids d → i ∈ map ID (OAuth.accounts (base d) ++ [OAuth.insert_row (OAuth.next_account (base d)) a])) as Hin.
  { intros i Hi. rewrite map_app. apply elem_of_app. by left. }
  constructor; unfold account_ids; cbn.
  - rewrite map_app. apply Forall_app. split; [|by repeat constructor; cbn; lia].
    eapply Forall_impl; [exact H1|]. cbn. lia.
  - rewrite map_app. apply NoDup_app. split; [exact H2|]. split; [|apply NoDup_singleton].
    intros i Hi ->%list_elem_of_singleton. rewrite Forall_forall in H1. specialize (H1 _ Hi). cbn in H1. lia.
  - apply (well_formed_accounts' d); [|done]. intros p i. unfold AccountModels.has_account, tables_of. cbn.
    rewrite existsb_app. by intros ->.
  - eapply Forall_impl; [exact H4|]. intros m. apply Hin.
  - intros k i Hk. by eapply Hin, H5.
  - eapply Forall_impl; [exact H6|]. intros m. apply Hin.
  - eapply Forall_impl; [exact H7|]. intros m. apply Hin.
Qed.

Lemma find_row_id i a b : List.find (OAuth.is_row provider i) (OAuth.accounts b) = Some a → i ∈ map ID (OAuth.accounts b).
Proof.
  intros [Hin [_ Hi%bool_decide_eq_true]%andb_true_iff]%find_some. apply list_elem_of_fmap. exists a.
  split; [done|]. by apply list_elem_of_In.
Qed.

Lemma set_base_same d : set_base (base d) d = d.
Proof. by destruct d. Qed.

Lemma on_row_any p i f d :
  (∀ a, row_key (f a) = row_key a) → references_sound d → references_sound (set_base (OAuth.on_row p i f (base d)) d).
Proof.
  intros Hf Hd. apply sound_base; [|done|apply Hd|done]. cbn. rewrite map_map. apply map_ext. intros a.
  destruct (OAuth.is_row p i a); [apply Hf|done].
Qed.

Lemma sound_oauth_call R (c : OAuth.cmd R) x d :
  references_sound d → references_sound (set_base (oauth_call R c (base d) x).2 d).
Proof.
  intros Hd. destruct c; cbn [oauth_call snd]; rewrite ?set_base_same; try done.
  - unfold OAuth.save_account. destruct (bool_decide _).
    + destruct (List.find _ _); cbn [snd]; [|by rewrite set_base_same]. destruct (existsb _ _); cbn [snd]; [by rewrite set_base_same|].
      by apply on_row_any.
    + destruct (List.find _ _); cbn [snd]; [by apply on_row_any|by apply sound_new_row].
  - unfold OAuth.update_oauth_credential, OAuth.if_row. destruct (List.find _ _); cbn [snd]; [by apply on_row_any|by rewrite set_base_same].
  - unfold OAuth.record_refresh_failure, OAuth.if_row. destruct (List.find _ _); cbn [snd]; [by apply on_row_any|by rewrite set_base_same].
  - unfold OAuth.record_test_result, OAuth.if_row. destruct (List.find _ _) eqn:E; cbn [snd]; [|by rewrite set_base_same].
    apply sound_base; [by apply on_row_key|done| |done]. cbn. apply Forall_app. split; [apply Hd|].
    repeat constructor. cbn. by eapply find_row_id.
  - unfold OAuth.record_account, OAuth.if_row. destruct (List.find _ _); cbn [snd]; [|by rewrite set_base_same].
    apply on_row_any; [|done]. by destruct r.
  - unfold OAuth.create_state. destruct (existsb _ _); cbn [snd]; [by rewrite set_base_same|]. by apply sound_base; try apply Hd.
  - unfold OAuth.claim_state. destruct (List.find _ _); cbn [snd]; [|by rewrite set_base_same]. by apply sound_base; try apply Hd.
Qed.

Lemma sound_on_tables {A} d (f : AccountModels.tables → A * AccountModels.tables) :
  references_sound d → AccountModels.accounts (f (tables_of d)).2 = OAuth.accounts (base d) →
  AccountModelsThms.well_formed (f (tables_of d)).2 → references_sound (on_tables d f).2.
Proof. intros Hd Ha Hw. unfold on_tables. destruct (f (tables_of d)) as [r t]. by apply sound_tables. Qed.

Lemma sound_step d d' : db_step d d' → references_sound d → references_sound d'.
Proof.
  destruct 1 as [R c d|ms bs rs d]; intros Hd; [|by destruct Hd].
  destruct c; cbn [call_db snd]; try done.
  - pose proof (sound_oauth_call R c (outside R (OAuthCall c)) d Hd) as H. by destruct (oauth_call R c (base d) _).
  - unfold update_account. destruct (List.find _ _); [|done]. destruct (profile_exists u d); [|done]. by apply on_row_any.
  - unfold delete_account. destruct (List.find _ _); [|done]. by apply sound_delete.
  - by apply sound_delete.
  - apply (sound_on_tables d); [done|apply AccountModelsThms.replace_accounts|by apply AccountModelsThms.well_formed_replace, rs_models].
  - apply (sound_on_tables d); [done|apply AccountModelsThms.sync_accounts|].
    by apply AccountModelsThms.well_formed_sync, rs_models.
  - apply (sound_on_tables d); [done| |by apply AccountModelsThms.well_formed_test, rs_models].
    unfold AccountModels.RecordAccountModelTestResult. by repeat case_match.
Qed.

(** *** Ids are not used again *)

Definition ids_grow (d d' : db) : Prop :=
  OAuth.next_account (base d) ≤ OAuth.next_account (base d')
  ∧ ∀ i, i ∈ account_ids d' → i ∈ account_ids d ∨ OAuth.next_account (base d) ≤ i.

Lemma ids_same d d' :
  OAuth.next_account (base d') = OAuth.next_account (base d) → account_ids d' = account_ids d → ids_grow d d'.
Proof. intros Hn Hi. split; [lia|]. rewrite Hi. auto. Qed.

Lemma ids_on_row p i f d : (∀ a, row_key (f a) = row_key a) → account_ids (set_base (OAuth.on_row p i f (base d)) d) = account_ids d.
Proof.
  intros Hf. unfold account_ids. cbn. rewrite map_map. apply map_ext. intros a. destruct (OAuth.is_row p i a); [|done].
  by injection (Hf a).
Qed.

Lemma ids_delete gone d : ids_grow d (delete_rows gone d).
Proof.
  split; [done|]. unfold account_ids. cbn. intros i (a & -> & [Ha _]%list_elem_of_In%filter_In)%list_elem_of_fmap. left.
  apply list_elem_of_fmap. exists a. split; [done|]. by apply list_elem_of_In.
Qed.

Lemma ids_oauth_call R (c : OAuth.cmd R) x d : ids_grow d (set_base (oauth_call R c (base d) x).2 d).
Proof.
  destruct c; cbn [oauth_call snd]; rewrite ?set_base_same; try by apply ids_same.
  - unfold OAuth.save_account. destruct (bool_decide _).
    + destruct (List.find _ _); cbn [snd]; [|by apply ids_same]. destruct (existsb _ _); cbn [snd]; [by apply ids_same|].
      apply ids_same; [done|by apply ids_on_row].
    + destruct (List.find _ _); cbn [snd]; [apply ids_same; [done|by apply ids_on_row]|].
      split; cbn; [lia|]. unfold account_ids. cbn. rewrite map_app. intros i [Hi|Hi%list_elem_of_singleton]%elem_of_app; [by left|right].
      cbn in Hi. lia.
  - unfold OAuth.update_oauth_credential, OAuth.if_row. apply ids_same; destruct (List.find _ _); (try done). by apply ids_on_row.
  - unfold OAuth.record_refresh_failure, OAuth.if_row. apply ids_same; destruct (List.find _ _); (try done). by apply ids_on_row.
  - unfold OAuth.record_test_result, OAuth.if_row. apply ids_same; destruct (List.find _ _); (try done).
    exact (ids_on_row provider id (OAuth.with_test at_ status message) d ltac:(done)).
  - unfold OAuth.record_account, OAuth.if_row. apply ids_same; destruct (List.find _ _); (try done). apply ids_on_row. by destruct r.
  - unfold OAuth.create_state. apply ids_same; by destruct (existsb _ _).
  - unfold OAuth.claim_state. apply ids_same; by destruct (List.find _ _).
Qed.

Lemma ids_on_tables {A} d (f : AccountModels.tables → A * AccountModels.tables) : ids_grow d (on_tables d f).2.
Proof. unfold on_tables. destruct (f (tables_of d)) as [r t]. by apply ids_same. Qed.

Lemma ids_step d d' : db_step d d' → ids_grow d d'.
Proof.
  destruct 1 as [R c d|ms bs rs d]; [|by apply ids_same].
  destruct c; cbn [call_db snd]; try (by apply ids_same); try apply ids_on_tables.
  - pose proof (ids_oauth_call R c (outside R (OAuthCall c)) d) as H. by destruct (oauth_call R c (base d) _).
  - unfold update_account. destruct (List.find _ _); [|by apply ids_same]. destruct (profile_exists u d); [|by apply ids_same].
    apply ids_same; [done|by apply ids_on_row].
  - unfold delete_account. destruct (List.find _ _); [|by apply ids_same]. apply ids_delete.
  - apply ids_delete.
Qed.

Lemma gone_forever d d' i :
  rtc db_step d d' → i ∉ account_ids d → i < OAuth.next_account (base d) →
  i ∉ account_ids d' ∧ i < OAuth.next_account (base d').
Proof.
  induction 1 as [|d d1 d2 H1 _ IH]; intros Hi Hn; [done|]. apply ids_step in H1 as [Hle Hids]. apply IH; [|lia].
  intros [?|?]%Hids; [done|lia].
Qed.

Lemma not_referred d i : references_sound d → refers i d → i ∈ account_ids d.
Proof.
  intros [H1 H2 H3 H4 H5 H6 H7]. rewrite Forall_forall in H4. rewrite Forall_forall in H6. rewrite Forall_forall in H7.
  intros [H|[H|[H|[[k H]|[H|H]]]]]; [done| | | | |].
  - apply list_elem_of_fmap in H as (m & -> & Hm). by apply references_account_models.
  - apply list_elem_of_fmap in H as (m & -> & Hm). by apply H4.
  - by eapply H5.
  - apply list_elem_of_fmap in H as (m & -> & Hm). by apply H6.
  - apply list_elem_of_fmap in H as (m & -> & Hm). by apply H7.
Qed.

Lemma sound_empty p : references_sound (empty_db p).
Proof. by constructor; try constructor; try apply AccountModelsThms.well_formed_empty. Qed.

Lemma sound_reachable p d : rtc db_step (empty_db p) d → references_sound d.
Proof. intros H. eapply (rtc_ind_r references_sound); [apply sound_empty| |exact H]. intros. by eapply sound_step. Qed.

(** Running a program goes by such steps. *)
Lemma run_steps {A} (p : P A) d : rtc db_step d (run call_db p d).2.
Proof.
  revert d. induction p as [a|R c k IH]; intros d; cbn; [constructor|].
  pose proof (step_call R c d) as H. destruct (call_db R c d) as [r d1]. specialize (IH r d1).
  destruct (run call_db (k r) d1) as [[b tr] d2]. by eapply rtc_l.
Qed.

Lemma is_row_ids i a d :
  references_sound d → a ∈ OAuth.accounts (base d) → OAuth.is_row provider i a = true →
  ∀ b, b ∈ OAuth.accounts (base d) → ID b = i → b = a.
Proof.
  intros Hd Ha [_ <-%bool_decide_eq_true]%andb_true_iff b Hb Hab.
  apply list_elem_of_lookup_1 in Ha as [j Hj], Hb as [k Hk]. pose proof (rs_unique _ Hd) as Hu. unfold account_ids in Hu.
  assert (j = k) as ->; [|congruence].
  eapply (NoDup_lookup (ID <$> OAuth.accounts (base d))); [exact Hu| |]; rewrite list_lookup_fmap.
  - by rewrite Hj.
  - rewrite Hk. cbn. by rewrite Hab.
Qed.

End repository.

(** ** Creating an account *)

Section creating.
Context (cfg : Config) (has_invalidator : bool).
Context (iterate : gmap string string → list (string * string)) (url_Parse : string → option parsed_url).
Context (collation : string → string → bool) (dbnow : Time) (outside : ∀ R : Set, cmd R → R).

Abbreviation on_db := (call_db (CfgProvider cfg) collation dbnow outside).

Lemma run_bind {A B} (p : P A) (f : A → P B) d b tr d' :
  run on_db (bind p f) d = (b, tr, d') →
  ∃ a tr1 d1 tr2, run on_db p d = (a, tr1, d1) ∧ run on_db (f a) d1 = (b, tr2, d').
Proof.
  revert d tr. induction p as [a|R c k IH]; cbn; intros d tr; [eauto 10|].
  destruct (on_db R c d) as [r d1]. destruct (run on_db (bind (k r) f) d1) as [[b1 tr1] d2] eqn:E. intros [= -> <- ->].
  apply IH in E as (a & tr2 & d2 & tr3 & -> & E). eauto 10.
Qed.

(** Programs that only read. *)
Fixpoint readonly {A} (p : P A) : Prop :=
  match p with
  | Ret _ => True
  | Vis c k => (∀ d, (on_db _ c d).2 = d) ∧ ∀ x, readonly (k x)
  end.

Lemma run_readonly {A} (p : P A) d a tr d' : readonly p → run on_db p d = (a, tr, d') → d' = d.
Proof.
  revert d a tr d'. induction p as [x|R c k IH]; cbn; intros d a tr d'; [by intros _ [= _ _ <-]|]. intros [Hc Hk].
  specialize (Hc d). destruct (on_db R c d) as [r d1]. cbn in Hc. subst d1.
  destruct (run on_db (k r) d) as [[b tr1] d2] eqn:E. intros [= _ _ <-]. by eapply IH, E.
Qed.

Lemma readonly_bind {A B} (p : P A) (f : A → P B) : readonly p → (∀ a, readonly (f a)) → readonly (bind p f).
Proof. intros Hp Hf. induction p as [a|R c k IH]; cbn; [done|]. destruct Hp as [? ?]. auto. Qed.

Lemma outside_same R (c : OAuth.cmd R) d : (∀ b x, (oauth_call (CfgProvider cfg) R c b x).2 = b) → (on_db R (OAuthCall c) d).2 = d.
Proof.
  intros H. cbn. specialize (H (base d) (outside R (OAuthCall c))). destruct (oauth_call _ _ _ _ _) as [r b]. cbn in *. subst b.
  apply set_base_same.
Qed.

Lemma readonly_oauth R (c : OAuth.cmd R) : (∀ b x, (oauth_call (CfgProvider cfg) R c b x).2 = b) → readonly (lift (Vis c Ret)).
Proof. intros H. split; [|done]. intros d. by apply outside_same. Qed.

Lemma readonly_encrypted_proxy p : readonly (encrypted_proxy p).
Proof. unfold encrypted_proxy. destruct (str_eq p ""); [done|]. by apply readonly_oauth. Qed.

Lemma readonly_profile b i : readonly (profile_allowed b i).
Proof.
  unfold profile_allowed. destruct i as [i|]; [|done]. destruct b; [|done]. cbn [negb]. destruct (bool_decide _); [done|]. by split.
Qed.

Lemma readonly_summary a : readonly (withProxySummary url_Parse a).
Proof. unfold withProxySummary. destruct (str_eq _ ""); [done|]. apply readonly_bind; [by apply readonly_oauth|done]. Qed.

(** A step of [try] that only reads. *)
Lemma run_try {A B} (p : P (result perror A)) (f : A → P (result perror B)) d r tr d' :
  readonly p → run on_db (AccountAdmin.try p f) d = (r, tr, d') →
  (∃ a tr2, run on_db (f a) d = (r, tr2, d')) ∨ (∃ e, r = Err e) ∧ d' = d.
Proof.
  intros Hp (x & tr1 & d1 & tr2 & H1 & H2)%run_bind. apply run_readonly in H1 as ->; [|done].
  destruct x as [a|e]; [left; eauto|]. injection H2 as <- _ <-. right. eauto.
Qed.

(** The row a new account gets. *)
Definition created (input : HttpApi.APIUpstreamInput) (key proxy : string) (d : db) : Account :=
  OAuth.insert_row (OAuth.next_account (base d))
    (OAuth.normalizeAccountForSave
       (new_account cfg input (TrimSpace (HttpApi.UI_Name input)) (normalizeOpenAICompatibleBaseURL (HttpApi.UI_BaseURL input)) key proxy)).

Definition with_row (a : Account) (d : db) : db :=
  set_base (OAuth.Build_db (OAuth.accounts (base d) ++ [a]) (OAuth.states (base d)) (OAuth.test_results (base d))
              (OAuth.next_account (base d) + 1)) d.

(** What a refused creation leaves: the next id may have been used up. *)
Definition same_rows (d d' : db) : Prop :=
  OAuth.accounts (base d') = OAuth.accounts (base d) ∧ OAuth.states (base d') = OAuth.states (base d)
  ∧ OAuth.test_results (base d') = OAuth.test_results (base d) ∧ model_rows d' = model_rows d ∧ next_model d' = next_model d
  ∧ members d' = members d ∧ bindings d' = bindings d ∧ affinities d' = affinities d ∧ profiles d' = profiles d.

Lemma same_rows_refl d : same_rows d d.
Proof. by repeat split. Qed.

Lemma fresh_not_row i d : references_sound d → i = OAuth.next_account (base d) → i ∉ account_ids d.
Proof. intros Hd -> Hi. pose proof (rs_fresh _ Hd) as Hf. rewrite Forall_forall in Hf. specialize (Hf _ Hi). cbn in Hf. lia. Qed.

(** Removing the new row again. *)
Lemma delete_created a d :
  references_sound d → ID a = OAuth.next_account (base d) → Provider a = CfgProvider cfg →
  same_rows d (delete_rows (OAuth.is_row (CfgProvider cfg) (ID a)) (with_row a d)).
Proof.
  intros Hd Hi Hp. pose proof (fresh_not_row _ d Hd eq_refl) as Hfresh. rewrite <- Hi in Hfresh.
  assert (∀ b, b ∈ OAuth.accounts (base d) → OAuth.is_row (CfgProvider cfg) (ID a) b = false) as Hrow.
  { intros b Hb. unfold OAuth.is_row. rewrite (bool_decide_eq_false_2 (ID b = ID a)), andb_false_r; [done|].
    intros E. apply Hfresh. rewrite <- E. by apply list_elem_of_fmap_2. }
  assert (deleted_ids (OAuth.is_row (CfgProvider cfg) (ID a)) (with_row a d) ⊆ [ID a]) as Hsub.
  { intros j (b & Hb & [_ Hj%bool_decide_eq_true]%andb_true_iff & <-)%deleted_ids_spec. rewrite Hj. by left. }
  assert (∀ i, i ∈ account_ids d → negb (bool_decide (i ∈ deleted_ids (OAuth.is_row (CfgProvider cfg) (ID a)) (with_row a d))) = true) as Hstay.
  { intros i Hin. apply negb_true_iff, bool_decide_eq_false_2. by intros ->%Hsub%list_elem_of_singleton. }
  destruct Hd as [H1 H2 H3 H4 H5 H6 H7].
  repeat split; cbn.
  - rewrite List.filter_app. cbn. unfold OAuth.is_row at 2. rewrite Hp, bool_decide_eq_true_2 by done. unfold str_eq.
    rewrite bool_decide_eq_true_2 by done. cbn. rewrite app_nil_r. apply filter_Forall_id, Forall_forall. intros b Hb. by rewrite Hrow.
  - apply filter_Forall_id. eapply Forall_impl; [exact H7|]. intros r. apply Hstay.
  - apply filter_Forall_id, Forall_forall. intros m Hm. apply Hstay. by apply references_account_models.
  - apply filter_Forall_id. eapply Forall_impl; [exact H4|]. intros r. apply Hstay.
  - apply map_filter_id. intros k i Hk Hin%Hsub%list_elem_of_singleton. cbn in Hin. subst i. by apply Hfresh, (H5 k).
  - apply filter_Forall_id. eapply Forall_impl; [exact H6|]. intros r. apply Hstay.
Qed.

Lemma find_created a d :
  references_sound d → ID a = OAuth.next_account (base d) → Provider a = CfgProvider cfg →
  List.find (OAuth.is_row (CfgProvider cfg) (ID a)) (OAuth.accounts (base d) ++ [a]) = Some a.
Proof.
  intros Hd Hi Hp. pose proof (fresh_not_row _ d Hd eq_refl) as Hfresh. rewrite <- Hi in Hfresh.
  assert (Forall (fun b => ID b ≠ ID a) (OAuth.accounts (base d))) as Hall.
  { apply Forall_forall. intros b Hb E. apply Hfresh. rewrite <- E. by apply list_elem_of_fmap_2. }
  induction Hall as [|b l Hb _ IH]; cbn.
  - unfold OAuth.is_row, str_eq. by rewrite !bool_decide_eq_true_2.
  - unfold OAuth.is_row at 1. rewrite (bool_decide_eq_false_2 _ Hb), andb_false_r. exact IH.
Qed.

Lemma run_save input key proxy d r tr d' :
  references_sound d →
  run on_db (lift (OAuth.SaveAccount (new_account cfg input (TrimSpace (HttpApi.UI_Name input))
    (normalizeOpenAICompatibleBaseURL (HttpApi.UI_BaseURL input)) key proxy))) d = (r, tr, d') →
  r = Ok (OAuth.scan (created input key proxy d)) ∧ d' = with_row (created input key proxy d) d.
Proof.
  intros Hd. pose proof (find_created (created input key proxy d) d Hd eq_refl eq_refl) as Hf.
  unfold OAuth.SaveAccount, OAuth.try, OAuth.call. set (n := OAuth.normalizeAccountForSave _).
  assert (OAuth.save_account n (base d) = (Ok (OAuth.next_account (base d)), base (with_row (created input key proxy d) d))) as Hs.
  { unfold OAuth.save_account. rewrite bool_decide_eq_false_2 by (cbn; lia).
    replace (List.find (OAuth.same_key n) (OAuth.accounts (base d))) with (@None Account); [done|].
    generalize (OAuth.accounts (base d)) as l. induction l as [|b l IH]; [done|exact IH]. }
  cbn [bind lift run call_db oauth_call]. rewrite Hs. cbn [lift run call_db oauth_call]. unfold OAuth.find_account.
  change (OAuth.accounts (base (set_base (base (with_row (created input key proxy d) d)) d)))
    with (OAuth.accounts (base d) ++ [created input key proxy d]).
  change (OAuth.next_account (base d)) with (ID (created input key proxy d)). rewrite Hf. by intros [= <- _ <-].
Qed.

Lemma sound_with_row input key proxy d : references_sound d → references_sound (with_row (created input key proxy d) d).
Proof. apply sound_new_row. Qed.

(** The names a new account is given. *)
Definition initial_names (l : list AccountModels.AccountModelInput) : result perror (list AccountModels.AccountModelInput) :=
  let? l := AccountModels.normalizeAccountModelInputs iterate l in AccountModels.store_normalizeAccountModelInputs l.

Definition new_model (a : Account) (n : AccountModels.AccountModelInput) (m : AccountModels.AccountModel) : Prop :=
  AccountModels.is_model_from (CfgProvider cfg) (ID a) AccountModels.AccountModelSourceManual m = true
  ∧ AccountModelsThms.synced_row m = (AccountModels.I_Model n, AccountModels.I_Enabled n, AccountModels.no_test).

Lemma no_model_yet a d m :
  references_sound d → ID a = OAuth.next_account (base d) → m ∈ model_rows d →
  AccountModels.is_model_of (CfgProvider cfg) (ID a) m = false.
Proof.
  intros Hd Hi Hm. unfold AccountModels.is_model_of. rewrite bool_decide_eq_false_2, andb_false_r; [done|].
  intros E. apply (fresh_not_row (ID a) d Hd Hi). rewrite <- E. by apply references_account_models; [apply Hd|].
Qed.

Lemma run_models a d l r tr d' :
  references_sound d → references_sound (with_row a d) → ID a = OAuth.next_account (base d) → Provider a = CfgProvider cfg →
  0 < ID a → run on_db (ReplaceAccountModels_ iterate (ID a) l) (with_row a d) = (r, tr, d') →
  match r with
  | Err _ => d' = with_row a d
  | Ok _ => ∃ names rows n, initial_names l = Ok names ∧ Forall2 (new_model a) names rows
            ∧ d' = with_tables (AccountModels.Build_tables (OAuth.accounts (base d) ++ [a]) (model_rows d ++ rows) n) (with_row a d)
  end.
Proof.
  intros Hd Hd1 Hi Hp Hpos. unfold ReplaceAccountModels_, initial_names. rewrite bool_decide_eq_false_2 by lia.
  destruct (AccountModels.normalizeAccountModelInputs iterate l) as [l1|e]; [|by intros [= <- _ <-]].
  cbn [ask run call_db]. unfold on_tables, AccountModels.ReplaceAccountModels. cbn [result_bind].
  destruct (AccountModels.store_normalizeAccountModelInputs l1) as [names|e] eqn:En; [|by intros [= <- _ <-]].
  assert (AccountModels.has_account (CfgProvider cfg) (ID a) (tables_of (with_row a d)) = true) as Ha.
  { unfold AccountModels.has_account, tables_of. cbn. rewrite existsb_app. cbn. unfold OAuth.is_row, str_eq.
    by rewrite Hp, !bool_decide_eq_true_2, orb_true_r. }
  rewrite Ha. destruct (AccountModels.replace_loop _ _ _ _ _ _) as [t|e] eqn:El; [|by intros [= <- _ <-]].
  intros [= <- _ <-]. apply AccountModelsThms.store_normalized in En as [Hn Hm].
  apply AccountModelsThms.replace_loop_spec in El as (_ & Hacc & rows & Hrows & Hmap & Hall);
    [|exact Ha|done|done|by apply AccountModelsThms.well_formed_filter, Hd1].
  exists names, rows, (AccountModels.next_model t). split; [done|].
  assert (∀ m, m ∈ model_rows d → AccountModels.is_model_from (CfgProvider cfg) (ID a) AccountModels.AccountModelSourceManual m = false) as Hno.
  { intros m Hmi. unfold AccountModels.is_model_from. by rewrite (no_model_yet a d m Hd Hi Hmi). }
  split.
  - assert (AccountModels.manual_tests (CfgProvider cfg) (ID a) (tables_of (with_row a d)) = ∅) as Ht.
    { unfold AccountModels.manual_tests. cbn. by rewrite filter_nil_intro. }
    rewrite Ht in Hmap. clear - Hmap Hall. revert names Hmap.
    induction Hall as [|m rows Hm _ IH]; intros [|n names]; cbn; try done. intros [= H1 H2 H3 H4]. constructor; [|by apply IH].
    split; [done|]. unfold AccountModelsThms.synced_row. by rewrite H1, H2, H3.
  - destruct t as [acc mods n]. cbn in *. subst acc mods. unfold with_tables. cbn. f_equal. f_equal.
    apply filter_Forall_id, Forall_forall. intros m Hmi. by rewrite Hno.
Qed.

Definition inputs_of (input : HttpApi.APIUpstreamInput) : list AccountModels.AccountModelInput :=
  map (fun m => AccountModels.Build_AccountModelInput m true None) (HttpApi.UI_Models input).

Lemma run_disconnect a d r tr d' :
  references_sound d → ID a = OAuth.next_account (base d) → Provider a = CfgProvider cfg → 0 < ID a →
  run on_db (DisconnectAccount_ has_invalidator (ID a)) (with_row a d) = (r, tr, d') → r = Ok tt ∧ same_rows d d'.
Proof.
  intros Hd Hi Hp Hpos. pose proof (delete_created a d Hd Hi Hp) as Hs. unfold DisconnectAccount_, OAuth.invalidateOAuthModelCatalog.
  rewrite bool_decide_eq_false_2 by lia. cbn [lift bind run AccountAdmin.try ask OAuth.call]. cbn [call_db oauth_call].
  rewrite set_base_same. cbn [bind run]. unfold delete_account.
  change (OAuth.accounts (base (with_row a d))) with (OAuth.accounts (base d) ++ [a]). rewrite (find_created a d Hd Hi Hp).
  unfold invalidateAccountTransport. rewrite (bool_decide_eq_true_2 _ Hpos), andb_true_r.
  destruct has_invalidator; cbn [bind run ask call_db AccountAdmin.try]; by intros [= <- _ <-].
Qed.

(** The models of a new account, or nothing at all. *)
Lemma run_initial a d input r tr d' :
  references_sound d → references_sound (with_row a d) → ID a = OAuth.next_account (base d) → Provider a = CfgProvider cfg →
  0 < ID a → run on_db (initial_models has_invalidator iterate (OAuth.scan a) (HttpApi.UI_Models input)) (with_row a d) = (r, tr, d') →
  match r with
  | Err _ => same_rows d d'
  | Ok _ => ∃ names rows n, (HttpApi.UI_Models input = [] ∧ names = [] ∨ initial_names (inputs_of input) = Ok names)
            ∧ Forall2 (new_model a) names rows
            ∧ d' = with_tables (AccountModels.Build_tables (OAuth.accounts (base d) ++ [a]) (model_rows d ++ rows) n) (with_row a d)
  end.
Proof.
  intros Hd Hd1 Hi Hp Hpos. unfold initial_models. change (ID (OAuth.scan a)) with (ID a). case_bool_decide as El.
  { intros [= <- _ <-]. exists [], [], (next_model d). split; [by left|]. split; [constructor|]. rewrite app_nil_r. by destruct d. }
  intros (x & tr1 & d1 & tr2 & H1 & H2)%run_bind. apply run_models in H1; [|done..].
  destruct x as [ms|e].
  - injection H2 as <- _ <-. destruct H1 as (names & rows & n & Hn & H1). exists names, rows, n. split; [by right|exact H1].
  - subst d1. apply run_bind in H2 as (y & tr3 & d2 & tr4 & H3 & H4). apply run_disconnect in H3 as [-> Hs]; [|done..].
    by injection H4 as <- _ <-.
Qed.

End creating.

(** ** A concrete service *)

Module Demo.

Definition oauth_outside (R : Set) (c : OAuth.cmd R) : R :=
  match c in OAuth.cmd R return R with
  | OAuth.Now => 0
  | OAuth.LockRefresh _ => tt
  | OAuth.UnlockRefresh _ => tt
  | OAuth.EncryptString kind v => Ok (kind +++ ":" +++ v)
  | OAuth.DecryptString _ _ => Err ErrNotConfigured
  | OAuth.GenerateToken _ => Err ErrNotConfigured
  | OAuth.GenerateCodeVerifier => Err ErrNotConfigured
  | OAuth.ExchangeCode _ _ _ => Err ErrNotConfigured
  | OAuth.CallRefreshToken _ _ => Err ErrNotConfigured
  | OAuth.ProbeAccountStatus _ _ _ => Err ErrNotConfigured
  | OAuth.FindAccountByID _ => Err ErrNotConnected
  | OAuth.FindAccountByIdentity _ => Err ErrNotConnected
  | OAuth.SaveAccountTx _ => Err ErrNotConnected
  | OAuth.UpdateOAuthCredential _ _ => Err ErrNotConnected
  | OAuth.RecordRefreshFailure _ _ _ _ => Err ErrNotConnected
  | OAuth.RecordOAuthRefreshFailureEvent _ => Ok tt
  | OAuth.RecordAccountTestResult _ _ _ _ => Err ErrNotConnected
  | OAuth.RecordAccount _ _ => Err ErrNotConnected
  | OAuth.CreateState _ => Err ErrNotConnected
  | OAuth.ClaimState _ _ => Err ErrNotConnected
  | OAuth.FindFingerprintProfileByID _ => Err ErrNotConnected
  | OAuth.EnsureDefaultCodexFingerprintProfile => Err ErrNotConnected
  | OAuth.InvalidateOAuthModelCatalog _ => tt
  | OAuth.ObserveProviderRefresh _ _ => tt
  end.

Definition outside (R : Set) (c : cmd R) : R :=
  match c in cmd R return R with
  | OAuthCall c => oauth_outside _ c
  | FindAccount => Err ErrNotConnected
  | FindAllAccounts => Err ErrNotConnected
  | UpdateAccountTx _ _ => Err ErrNotConnected
  | DeleteAccountTx _ => Err ErrNotConnected
  | DeleteAccountsTx => Err ErrNotConnected
  | FindFingerprintProfile _ => Err ErrNotConnected
  | FindTestResults _ _ => Err ErrNotConnected
  | FindModels _ => Err ErrNotConnected
  | FindModelsOf _ => Err ErrNotConnected
  | ReplaceModelsTx _ _ => Err ErrNotConnected
  | SyncModelsTx _ _ _ => Err ErrNotConnected
  | RecordModelTestTx _ => Err ErrNotConnected
  | InvalidateAllCatalogs => tt
  | InvalidateTransport _ => tt
  | InvalidateAllTransports => tt
  | ProbeStatus _ _ _ _ => Err ErrNotConfigured
  | ProbeModel _ _ => Build_modelProbeResult 0 "" ""
  | GetModels _ _ _ => Err ErrNotConfigured
  | NewCorrelationID => "id"
  | LogTest _ => tt
  end.

Definition config : Scheduling.Config :=
  {| Scheduling.CfgProvider := "openai"; Scheduling.ClientID := "client"; Scheduling.RedirectURL := "r";
     Scheduling.AuthURL := "a"; Scheduling.TokenURL := "t"; Scheduling.Secret := "s"; Scheduling.has_keyring := true;
     Scheduling.APIBaseURL := ""; Scheduling.AllowHTTPAPIUpstreams := false |}.

Definition url_Parse (u : string) : option parsed_url :=
  if HasPrefix u "https://" then Some (Build_parsed_url true "host" "https" u u "" None) else None.

Definition iterate (m : gmap string string) : list (string * string) := map_to_list m.
Definition collation (a b : string) : bool := true.

Abbreviation on_demo := (call_db "openai" collation 0 outside).

Definition input (models : list string) : HttpApi.APIUpstreamInput :=
  HttpApi.Build_APIUpstreamInput " up " "https://up.test/v1/" "sk-1" "" None 3 10 None models.

Definition create (models : list string) := CreateAPIUpstreamAccount_ config true iterate url_Parse (input models).

Definition d0 : db := empty_db ∅.
Definition d1 : db := (run on_demo (create [" m1 "; "m2"; "m1"]) d0).2.

(** Names that are too long are refused after the account was stored: it goes again. *)
Definition long : string := String.string_of_list_ascii (repeat "x"%char 129).

Example created_models : map AccountModels.Model (model_rows d1) = ["m1"; "m2"].
Proof. vm_compute. reflexivity. Qed.



Definition update : AccountUpdate :=
  Build_AccountUpdate None None None None false None None (Some "sk-2") None (Some "https://proxy.test") None false None.

End Demo.
End AccountAdminThms.
