(* ===== verification/RoutingExhaustion.v ===== *)
(** * The routing exhaustion projector

    [store/routing_exhaustion_projector.go]: a background task that reads the
    request logs in the order of their ids and records, for each client key, when
    its routing pool is exhausted and when it has recovered.  A cycle holds an
    advisory lock, finds an id up to which no insert is under way, and projects a
    batch in one transaction with its checkpoint; requests are logged, keys are
    revoked and old logs are deleted meanwhile.  The end of [RevokeAPIKey] in
    [store/admin.go] that ends a key's exhaustion is here as well. *)

From stdpp Require Import gmap strings sorting.
From Stdlib Require Import Ascii.
From S2P Require Import Prelude GoStrings Json SystemEvents.

Module RoutingExhaustion.
Import SystemEvents.

(** ** Rows *)

Record routingExhaustionRequestLog := {
  Log_ID : Z; ClientKeyID : option Z; Log_StatusCode : Z; ProviderAccountID : option Z; RoutingPoolID : option Z;
  RoutingPoolError : string; FallbackDepth : Z; CreatedAt : Time
}.

(** [api_key_routing_exhaustion_states] *)
Record exhaustion_state := { trigger_request_log_id : Z; triggered_at : Time; updated_at : Time }.

(** What is used of [client_api_keys]. *)
Record key_row := { key_name : string; revoked : bool }.

Record db := {
  request_logs : list routingExhaustionRequestLog;         (* committed *)
  checkpoint : Z;                                          (* of routing_exhaustion_v1 *)
  exhausted : gmap Z exhaustion_state;
  keys : gmap Z key_row;
  events : list Event
}.

Definition set_logs (l : list routingExhaustionRequestLog) (d : db) : db := Build_db l (checkpoint d) (exhausted d) (keys d) (events d).
Definition set_checkpoint (c : Z) (d : db) : db := Build_db (request_logs d) c (exhausted d) (keys d) (events d).
Definition set_exhausted (m : gmap Z exhaustion_state) (d : db) : db := Build_db (request_logs d) (checkpoint d) m (keys d) (events d).
Definition set_keys (m : gmap Z key_row) (d : db) : db := Build_db (request_logs d) (checkpoint d) (exhausted d) m (events d).
Definition add_event (e : Event) (d : db) : db :=
  Build_db (request_logs d) (checkpoint d) (exhausted d) (keys d) (events d ++ [e]).

Inductive error := ErrNotFound | ErrEvent (e : serror).

Definition maxRoutingExhaustionProjectorBatchSize : Z := 1000.
Definition maxRoutingExhaustionTransitionsPerCycle : Z := 100.

Definition ActionAPIKeyRoutingPoolExhausted : string := "api_key.routing_pool.exhausted".
Definition ActionAPIKeyRoutingPoolRecovered : string := "api_key.routing_pool.recovered".

Definition jint (n : Z) : Json.json := Json.JNumber (bool_decide (n < 0)) (Z.abs n) 0.

Section projector.
(** [netip.ParseAddr], [json.Marshal]; the random bytes of each correlation id;
    the request in the context of a cycle, if any. *)
Context (ParseAddr : string → bool) (Marshal : entries → option string) (random : nat → list ascii).
Context (request : option RequestContext).

(** ** Events *)

Definition given (key : string) (value : option Z) : entries :=
  match value with Some v => [(key, jint v)] | None => [] end.

Definition exhaustion_metadata (keyID : Z) (log : routingExhaustionRequestLog) (is_exhausted : bool) (confirmation : string) : entries :=
  [("client_key_id", jint keyID)]
  ++ (if bool_decide (0 < Log_ID log) then [("request_log_id", jint (Log_ID log))] else [])
  ++ (if is_exhausted then given "routing_pool_id" (RoutingPoolID log) ++ [("fallback_depth", jint (FallbackDepth log))]
      else given "provider_account_id" (ProviderAccountID log))
  ++ (if str_eq confirmation "" then [] else [("confirmation", Json.JString confirmation)]).

Definition buildAPIKeyRoutingExhaustionEvent (bytes : list ascii) (keyID : Z) (keyName : string) (log : routingExhaustionRequestLog)
    (is_exhausted : bool) (occurredAt now : Time) (confirmation : string) : result serror Event :=
  let values := exhaustion_metadata keyID log is_exhausted confirmation in
  let? metadata := SafeMetadata Marshal (Some values) (map fst values) in
  let request := match request with
    | Some r => r
    | None => {| RC_CorrelationID := NewCorrelationID bytes; RC_SourceIP := ""; RC_HTTPMethod := ""; RC_RoutePattern := "";
                 RC_Actor := {| Actor_Type := ActorSystem; Actor_ID := 0; Actor_Name := "routing_exhaustion_projector" |} |}
    end in
  let target := {| Target_Type := "client_api_key"; Target_ID := FormatInt keyID; Target_Name := keyName |} in
  let intent := {|
    I_Category := CategoryRuntime;
    I_Severity := if is_exhausted then SeverityError else SeverityInfo;
    I_Action := if is_exhausted then ActionAPIKeyRoutingPoolExhausted else ActionAPIKeyRoutingPoolRecovered;
    I_Outcome := if is_exhausted then OutcomeFailure else OutcomeSuccess;
    I_Target := target; I_ErrorCode := "";
    I_Message := if is_exhausted then "API key routing pool exhausted" else "API key routing pool recovered";
    I_Metadata := metadata; StartedAt := 0 |} in
  Ok (BuildEvent (Some request) bytes intent target occurredAt now 0).

(** Building the event and [InsertSystemEventTx]. *)
Definition record_event (keyID : Z) (keyName : string) (log : routingExhaustionRequestLog) (is_exhausted : bool)
    (occurredAt now : Time) (confirmation : string) (d : db) : result error db :=
  match buildAPIKeyRoutingExhaustionEvent (random (length (events d))) keyID keyName log is_exhausted occurredAt now confirmation with
  | Err e => Err (ErrEvent e)
  | Ok e => match ValidateEvent ParseAddr Marshal e with Err e => Err (ErrEvent e) | Ok _ => Ok (add_event e d) end
  end.

(** ** Projecting a log *)

Definition routingExhaustionStateExists (keyID : Z) (d : db) : bool := bool_decide (is_Some (exhausted d !! keyID)).

Definition lockActiveAPIKeyName (keyID : Z) (d : db) : option string :=
  k ← keys d !! keyID; if revoked k then None else Some (key_name k).

Definition is_trigger (log : routingExhaustionRequestLog) : bool := str_eq (RoutingPoolError log) "routing_pool_exhausted".
Definition is_recovery (log : routingExhaustionRequestLog) : bool :=
  bool_decide (200 ≤ Log_StatusCode log) && bool_decide (Log_StatusCode log ≤ 299)
  && bool_decide (is_Some (ProviderAccountID log)) && str_eq (RoutingPoolError log) "".

(** [(isTrigger && stateExists) || (isRecovery && !stateExists)] *)
Definition no_transition (log : routingExhaustionRequestLog) (stateExists : bool) : bool :=
  (is_trigger log && stateExists) || (is_recovery log && negb stateExists).

(** transitioned, stop *)
Definition projectRoutingExhaustionRequestLog (log : routingExhaustionRequestLog) (transitions transitionLimit : Z) (now : Time)
    (d : db) : result error (bool * bool * db) :=
  match ClientKeyID log with
  | None => Ok (false, false, d)
  | Some keyID =>
      if negb (is_trigger log) && negb (is_recovery log) then Ok (false, false, d)
      else if no_transition log (routingExhaustionStateExists keyID d) then Ok (false, false, d)
      else if bool_decide (transitionLimit ≤ transitions) then Ok (false, true, d)
      else
        match lockActiveAPIKeyName keyID d with
        | None => Ok (false, false, d)
        | Some keyName =>
            if no_transition log (routingExhaustionStateExists keyID d) then Ok (false, false, d)
            else
              let d := set_exhausted
                (if is_trigger log
                 then <[keyID := {| trigger_request_log_id := Log_ID log; triggered_at := CreatedAt log; updated_at := now |}]> (exhausted d)
                 else delete keyID (exhausted d)) d in
              let? d := record_event keyID keyName log (is_trigger log) (CreatedAt log) now "" d in
              Ok (true, false, d)
        end
  end.

(** ** A cycle *)

Record RoutingExhaustionProjectorCycleResult := { Processed : Z; Transitions : Z; LastRequestLogID : Z; Contended : bool }.

Definition log_le (a b : routingExhaustionRequestLog) : Prop := Log_ID a ≤ Log_ID b.
#[local] Instance log_le_dec : RelDecision log_le.
Proof. intros a b. unfold log_le. apply _. Defined.

Definition loadRoutingExhaustionRequestLogs (checkpoint safeMax limit : Z) (d : db) : list routingExhaustionRequestLog :=
  take (Z.to_nat limit)
    (merge_sort log_le (List.filter (fun l => bool_decide (checkpoint < Log_ID l) && bool_decide (Log_ID l ≤ safeMax)) (request_logs d))).

Fixpoint project_batch (logs : list routingExhaustionRequestLog) (transitionLimit : Z) (now : Time)
    (result : RoutingExhaustionProjectorCycleResult) (d : db) : Prelude.result error (RoutingExhaustionProjectorCycleResult * db) :=
  match logs with
  | [] => Ok (result, d)
  | log :: logs =>
      let? x := projectRoutingExhaustionRequestLog log (Transitions result) transitionLimit now d in
      let '(transitioned, stop, d) := x in
      if (stop : bool) then Ok (result, d)
      else project_batch logs transitionLimit now
             {| Processed := Processed result + 1;
                Transitions := if (transitioned : bool) then Transitions result + 1 else Transitions result;
                LastRequestLogID := Log_ID log; Contended := false |} d
  end.

(** The transaction of a cycle: the logs up to [safeMax]. *)
Definition project_transaction (batchLimit transitionLimit : Z) (now : Time) (safeMax : Z) (d : db)
  : Prelude.result error RoutingExhaustionProjectorCycleResult * db :=
  match project_batch (loadRoutingExhaustionRequestLogs (checkpoint d) safeMax batchLimit d) transitionLimit now
          {| Processed := 0; Transitions := 0; LastRequestLogID := checkpoint d; Contended := false |} d with
  | Ok (result, d') =>
      (Ok result, if bool_decide (LastRequestLogID result = checkpoint d) then d' else set_checkpoint (LastRequestLogID result) d')
  | Err e => (Err e, d)
  end.

Definition limits_valid (batchLimit transitionLimit : Z) (now : Time) : bool :=
  negb (bool_decide (batchLimit ≤ 0) || bool_decide (maxRoutingExhaustionProjectorBatchSize < batchLimit)
        || bool_decide (transitionLimit ≤ 0) || bool_decide (maxRoutingExhaustionTransitionsPerCycle < transitionLimit)
        || time_is_zero now).

(** [SELECT COALESCE(MAX(id), 0)], under a lock that no insert shares. *)
Definition max_id (l : list routingExhaustionRequestLog) : Z := foldr (fun log m => Z.max (Log_ID log) m) 0 l.

(** ** Revocation *)

(** The end of [RevokeAPIKey]: what the key's exhaustion leaves. *)
Definition recoverAPIKeyRoutingExhaustionForRevocation (keyID : Z) (keyName : string) (now : Time) (d : db) : Prelude.result error db :=
  match exhausted d !! keyID with
  | None => Ok d
  | Some _ =>
      record_event keyID keyName
        {| Log_ID := 0; ClientKeyID := Some keyID; Log_StatusCode := 0; ProviderAccountID := None; RoutingPoolID := None;
           RoutingPoolError := ""; FallbackDepth := 0; CreatedAt := 0 |}
        false now now "key_revoked" (set_exhausted (delete keyID (exhausted d)) d)
  end.

(** [RevokeAPIKey] as far as it matters here; its own event is left out. *)
Definition revoke_key (keyID : Z) (now : Time) (d : db) : Prelude.result error unit * db :=
  match keys d !! keyID with
  | None => (Err ErrNotFound, d)
  | Some k =>
      match recoverAPIKeyRoutingExhaustionForRevocation keyID (key_name k) now
              (set_keys (<[keyID := {| key_name := key_name k; revoked := true |}]> (keys d)) d) with
      | Ok d' => (Ok tt, d')
      | Err e => (Err e, d)
      end
  end.

(** [DeleteRevokedAPIKey]: the state goes with the key ([ON DELETE CASCADE]), the
    logs stay ([ON DELETE SET NULL]). *)
Definition forget_key (keyID : Z) (log : routingExhaustionRequestLog) : routingExhaustionRequestLog :=
  if bool_decide (ClientKeyID log = Some keyID)
  then Build_routingExhaustionRequestLog (Log_ID log) None (Log_StatusCode log) (ProviderAccountID log) (RoutingPoolID log)
         (RoutingPoolError log) (FallbackDepth log) (CreatedAt log)
  else log.

Definition delete_key (keyID : Z) (d : db) : db :=
  match keys d !! keyID with
  | Some k => if revoked k
              then Build_db (map (forget_key keyID) (request_logs d)) (checkpoint d) (delete keyID (exhausted d))
                     (delete keyID (keys d)) (events d)
              else d
  | None => d
  end.

(** ** Everything at once *)

(** Ids are drawn when an insert begins, rows are seen when it commits.  The
    session that has the advisory lock has its [safeMax]. *)
Record system := {
  tables : db; inserting : list routingExhaustionRequestLog; next_id : Z; holder : option Z; next_key : Z
}.

(** What happened, as far as the outcome depends on it. *)
Inductive item :=
| Committed (log : routingExhaustionRequestLog)
| Deleted (id : Z)
| Projected (log : routingExhaustionRequestLog) (now : Time)
| KeyCreated (id : Z) (name : string)
| KeyRenamed (id : Z) (name : string)
| KeyRevoked (id : Z) (now : Time)
| KeyDeleted (id : Z).

Definition with_tables (d : db) (s : system) : system := Build_system d (inserting s) (next_id s) (holder s) (next_key s).
Definition with_holder (h : option Z) (s : system) : system := Build_system (tables s) (inserting s) (next_id s) h (next_key s).

(** The logs a cycle is done with. *)
Definition processed (batchLimit safeMax : Z) (r : RoutingExhaustionProjectorCycleResult) (d : db) : list routingExhaustionRequestLog :=
  take (Z.to_nat (Processed r)) (loadRoutingExhaustionRequestLogs (checkpoint d) safeMax batchLimit d).

Inductive sys_step : system → list item → system → Prop :=
| s_begin log s :
    Log_ID log = next_id s →
    sys_step s [] (Build_system (tables s) (inserting s ++ [log]) (next_id s + 1) (holder s) (next_key s))
| s_commit log l1 l2 s :
    inserting s = l1 ++ log :: l2 →
    sys_step s [Committed log]
      (Build_system (set_logs (request_logs (tables s) ++ [log]) (tables s)) (l1 ++ l2) (next_id s) (holder s) (next_key s))
| s_abort log l1 l2 s :
    inserting s = l1 ++ log :: l2 → sys_step s [] (Build_system (tables s) (l1 ++ l2) (next_id s) (holder s) (next_key s))
| s_acquire s :
    holder s = None → inserting s = [] → sys_step s [] (with_holder (Some (max_id (request_logs (tables s)))) s)
| s_project batchLimit transitionLimit now safeMax r d s :
    holder s = Some safeMax → limits_valid batchLimit transitionLimit now = true →
    project_transaction batchLimit transitionLimit now safeMax (tables s) = (Ok r, d) →
    sys_step s (map (fun l => Projected l now) (processed batchLimit safeMax r (tables s))) (with_holder None (with_tables d s))
| s_release safeMax s : holder s = Some safeMax → sys_step s [] (with_holder None s)
| s_delete_log log l1 l2 s :
    request_logs (tables s) = l1 ++ log :: l2 → sys_step s [Deleted (Log_ID log)] (with_tables (set_logs (l1 ++ l2) (tables s)) s)
| s_create name s :
    sys_step s [KeyCreated (next_key s) name]
      (Build_system (set_keys (<[next_key s := {| key_name := name; revoked := false |}]> (keys (tables s))) (tables s))
         (inserting s) (next_id s) (holder s) (next_key s + 1))
| s_rename id name k s :
    keys (tables s) !! id = Some k →
    sys_step s [KeyRenamed id name]
      (with_tables (set_keys (<[id := {| key_name := name; revoked := revoked k |}]> (keys (tables s))) (tables s)) s)
| s_revoke id now s d :
    revoke_key id now (tables s) = (Ok tt, d) → sys_step s [KeyRevoked id now] (with_tables d s)
| s_delete_key id s : sys_step s [KeyDeleted id] (with_tables (delete_key id (tables s)) s).

(** From the migration: the logs there are count as projected. *)
Definition initial (old : list routingExhaustionRequestLog) : system :=
  Build_system (Build_db old (max_id old) ∅ ∅ []) [] (max_id old + 1) None 1.

Inductive reachable (old : list routingExhaustionRequestLog) : system → list item → Prop :=
| reachable_initial : reachable old (initial old) []
| reachable_step s h items s' : reachable old s h → sys_step s items s' → reachable old s' (h ++ items).
End projector.

End RoutingExhaustion.
