(* ===== verification/RoutingExhaustionThms.v ===== *)
(** * The routing exhaustion projector: theorems

    Whatever happens between and during its cycles, the projector handles every
    request log once, in order, with the outcome of handling them one by one; and
    the events of a key alternate. *)

From stdpp Require Import gmap strings sorting pretty.
From Stdlib Require Import Ascii.
From S2P Require Import Prelude GoStrings Json SystemEvents RoutingExhaustion.

Module RoutingExhaustionThms.
Import SystemEvents RoutingExhaustion.
#[local] Existing Instance log_le_dec.

Section projector.
Context (ParseAddr : string → bool) (Marshal : entries → option string) (random : nat → list ascii).
Context (request : option RequestContext).

Abbreviation record := (record_event ParseAddr Marshal random request).
Abbreviation project := (projectRoutingExhaustionRequestLog ParseAddr Marshal random request).
Abbreviation batch := (project_batch ParseAddr Marshal random request).
Abbreviation transaction := (project_transaction ParseAddr Marshal random request).
Abbreviation revoke := (revoke_key ParseAddr Marshal random request).
Abbreviation step := (sys_step ParseAddr Marshal random request).

(** ** One log after the other *)

(** The outcome: states, keys and events. *)
Definition outcome (d : db) : db := Build_db [] 0 (exhausted d) (keys d) (events d).

(** A log by itself, without a limit of transitions. *)
Definition handle (now : Time) (d : db) (log : routingExhaustionRequestLog) : db :=
  match project log 0 1 now d with Ok (_, _, d') => d' | Err _ => d end.

Definition replay (d : db) (i : item) : db :=
  match i with
  | Committed _ | Deleted _ => d
  | Projected log now => handle now d log
  | KeyCreated id name => set_keys (<[id := {| key_name := name; revoked := false |}]> (keys d)) d
  | KeyRenamed id name =>
      match keys d !! id with
      | Some k => set_keys (<[id := {| key_name := name; revoked := revoked k |}]> (keys d)) d
      | None => d
      end
  | KeyRevoked id now => (revoke id now d).2
  | KeyDeleted id => delete_key id d
  end.

Lemma record_outcome k n l e o now c d :
  record k n l e o now c (outcome d) = let? d' := record k n l e o now c d in Ok (outcome d').
Proof.
  unfold record_event. cbn [outcome events]. destruct (buildAPIKeyRoutingExhaustionEvent _ _ _ _ _ _ _ _ _ _); [|done].
  by destruct (ValidateEvent _ _ _).
Qed.

Lemma project_outcome log n L now d :
  project log n L now (outcome d) = let? x := project log n L now d in Ok (x.1, outcome x.2).
Proof.
  unfold projectRoutingExhaustionRequestLog. destruct (ClientKeyID log) as [k|]; [|done].
  unfold routingExhaustionStateExists, lockActiveAPIKeyName. cbn [outcome exhausted keys].
  destruct (_ && _); [done|]. destruct (no_transition _ _); [done|]. destruct (bool_decide _); [done|].
  destruct (keys d !! k ≫= _) as [name|]; [|done].
  set (m := if is_trigger log then _ else _). change (set_exhausted m (outcome d)) with (outcome (set_exhausted m d)).
  rewrite record_outcome. by destruct (record _ _ _ _ _ _ _ _).
Qed.

Lemma handle_outcome now d log : handle now (outcome d) log = outcome (handle now d log).
Proof. unfold handle. rewrite project_outcome. by destruct (project log 0 1 now d) as [[[t s] d']|e]. Qed.

Lemma revoke_outcome k now d : (revoke k now (outcome d)).2 = outcome (revoke k now d).2.
Proof.
  unfold revoke_key. cbn [outcome keys]. destruct (keys d !! k) as [row|]; [|done].
  set (m := <[k := _]> _). unfold recoverAPIKeyRoutingExhaustionForRevocation. cbn [set_keys exhausted outcome].
  destruct (exhausted d !! k); [|done].
  change (set_exhausted (delete k (exhausted d)) (set_keys m (outcome d))) with (outcome (set_exhausted (delete k (exhausted d)) (set_keys m d))).
  rewrite record_outcome. by destruct (record _ _ _ _ _ _ _ _).
Qed.

Lemma delete_outcome k d : delete_key k (outcome d) = outcome (delete_key k d).
Proof. unfold delete_key. cbn. destruct (keys d !! k) as [row|]; [|done]. by destruct (revoked row). Qed.

Lemma replay_outcome d i : replay (outcome d) i = outcome (replay d i).
Proof.
  destruct i; try done; [apply handle_outcome| |apply revoke_outcome|apply delete_outcome].
  cbn. by destruct (keys d !! id).
Qed.

(** The limit of transitions only stops a batch. *)
Lemma project_limit log n L now d :
  0 < L →
  match project log n L now d with
  | Ok (_, true, d') => d' = d ∧ L ≤ n
  | Ok (t, false, d') => project log 0 1 now d = Ok (t, false, d')
  | Err e => project log 0 1 now d = Err e
  end.
Proof.
  intros HL. unfold projectRoutingExhaustionRequestLog. destruct (ClientKeyID log) as [k|]; [|done].
  destruct (_ && _); [done|]. destruct (no_transition _ _) eqn:En; [done|].
  rewrite (bool_decide_eq_false_2 (1 ≤ 0)) by lia. case_bool_decide; [done|].
  destruct (lockActiveAPIKeyName k d); [|done].
  by destruct (record _ _ _ _ _ _ _ _).
Qed.

Definition last_id (c : Z) (l : list routingExhaustionRequestLog) : Z := from_option Log_ID c (last l).

Lemma last_id_cons c x l : last_id c (x :: l) = last_id (Log_ID x) l.
Proof.
  unfold last_id. destruct l as [|y l]; [done|]. rewrite last_cons_cons.
  assert (is_Some (last (y :: l))) as [z ->] by (by apply last_is_Some). done.
Qed.

Lemma batch_spec logs L now r d r' d' :
  0 < L → batch logs L now r d = Ok (r', d') →
  ∃ done rest, logs = done ++ rest ∧ d' = foldl (handle now) d done
    ∧ Processed r' = Processed r + Z.of_nat (length done) ∧ LastRequestLogID r' = last_id (LastRequestLogID r) done
    ∧ (rest = [] ∨ L ≤ Transitions r').
Proof.
  intros HL. revert r d. induction logs as [|log logs IH]; intros r d; cbn [project_batch].
  - intros [= <- <-]. exists [], []. cbn. split; [done|]. split; [done|]. split; [lia|]. split; [done|by left].
  - pose proof (project_limit log (Transitions r) L now d HL) as Hp.
    destruct (project log (Transitions r) L now d) as [[[t s] d1]|e] eqn:E; [|done]. cbn [result_bind]. destruct s.
    + intros [= <- <-]. destruct Hp as [-> Hp]. exists [], (log :: logs). cbn. split; [done|]. split; [done|]. split; [lia|]. split; [done|by right].
    + intros (dn & rest & -> & -> & HP & HLast & Hr)%IH. exists (log :: dn), rest. cbn [foldl length app]. split; [done|].
      split; [unfold handle at 3; by rewrite Hp|]. cbn [Processed LastRequestLogID] in *. split; [lia|]. rewrite last_id_cons. by split.
Qed.

(** ** A transaction *)

Definition ids (l : list routingExhaustionRequestLog) : list Z := map Log_ID l.

(** Handling leaves the logs and the checkpoint alone. *)
Lemma exhaustion_record_same k n l e o now c d d' :
  record k n l e o now c d = Ok d' → request_logs d' = request_logs d ∧ checkpoint d' = checkpoint d.
Proof.
  unfold record_event. destruct (buildAPIKeyRoutingExhaustionEvent _ _ _ _ _ _ _ _ _ _); [|done].
  destruct (ValidateEvent _ _ _); [|done]. by intros [= <-].
Qed.

Lemma handle_same now d log : request_logs (handle now d log) = request_logs d ∧ checkpoint (handle now d log) = checkpoint d.
Proof.
  unfold handle, projectRoutingExhaustionRequestLog. destruct (ClientKeyID log) as [k|]; [|done].
  destruct (_ && _); [done|]. destruct (no_transition _ _) eqn:En; [done|]. rewrite (bool_decide_eq_false_2 (1 ≤ 0)) by lia.
  destruct (lockActiveAPIKeyName k d); [|done].
  destruct (record _ _ _ _ _ _ _ _) as [d'|e] eqn:E; [|done]. cbn. apply exhaustion_record_same in E. exact E.
Qed.

Lemma handle_all_same now logs d :
  request_logs (foldl (handle now) d logs) = request_logs d ∧ checkpoint (foldl (handle now) d logs) = checkpoint d.
Proof. revert d. induction logs as [|l logs IH]; intros d; [done|]. cbn. rewrite !(proj1 (IH _)), !(proj2 (IH _)). apply handle_same. Qed.

Lemma ids_filter (p : Z → bool) (P : Z → Prop) l i :
  (∀ j, p j = true ↔ P j) → i ∈ ids (List.filter (fun x => p (Log_ID x)) l) ↔ i ∈ ids l ∧ P i.
Proof.
  intros Hp. unfold ids. rewrite !list_elem_of_fmap. split.
  - intros (x & -> & [Hx Ht]%list_elem_of_In%filter_In). split; [|by apply Hp]. exists x. split; [done|]. by apply list_elem_of_In.
  - intros [(x & -> & Hx) Ht]. exists x. split; [done|]. apply list_elem_of_In, filter_In. split; [by apply list_elem_of_In|by apply Hp].
Qed.

Lemma merge_sort_strict l : NoDup (ids l) → StronglySorted Z.lt (ids (merge_sort log_le l)).
Proof.
  intros Hn. assert (StronglySorted log_le (merge_sort log_le l)) as Hs.
  { apply Sorted_StronglySorted; [intros x y z; unfold log_le; lia|]. apply Sorted_merge_sort. intros x y. unfold log_le. lia. }
  assert (NoDup (ids (merge_sort log_le l))) as Hd.
  { unfold ids. by rewrite (merge_sort_Permutation log_le l). }
  induction Hs as [|x k Hs IH Hall]; cbn; [constructor|]. cbn in Hd. apply NoDup_cons in Hd as [Hx Hd]. constructor; [by apply IH|].
  rewrite Forall_map. rewrite Forall_forall in Hall |- *. intros y Hy. specialize (Hall y Hy). unfold log_le in Hall.
  assert (Log_ID x ≠ Log_ID y); [|lia]. intros E. apply Hx. rewrite E. by apply list_elem_of_fmap_2.
Qed.

Lemma sorted_app_l (l k : list Z) : StronglySorted Z.lt (l ++ k) → StronglySorted Z.lt l.
Proof. induction l as [|x l IH]; cbn; [constructor|]. intros [Hs Ha]%StronglySorted_inv. constructor; [auto|]. by apply Forall_app in Ha as [? _]. Qed.

Lemma sorted_app_lt (l k : list Z) x y : StronglySorted Z.lt (l ++ k) → x ∈ l → y ∈ k → x < y.
Proof.
  induction l as [|z l IH]; cbn; [set_solver|]. intros [Hs Ha]%StronglySorted_inv [->|Hx]%elem_of_cons Hy; [|auto].
  rewrite Forall_forall in Ha. apply Ha. set_solver.
Qed.

Lemma sorted_app (l k : list Z) :
  StronglySorted Z.lt l → StronglySorted Z.lt k → (∀ x y, x ∈ l → y ∈ k → x < y) → StronglySorted Z.lt (l ++ k).
Proof.
  induction 1 as [|x l Hs IH Ha]; cbn; [done|]. intros Hk Hlt. constructor.
  - apply IH; [done|]. intros. apply Hlt; [by right|done].
  - apply Forall_app. split; [done|]. apply Forall_forall. intros y Hy. apply Hlt; [by left|done].
Qed.

(** The last of the ids that were handled. *)
Lemma last_id_spec c l :
  StronglySorted Z.lt (ids l) → Forall (fun i => c < i) (ids l) →
  c ≤ last_id c l ∧ (l ≠ [] → last_id c l ∈ ids l) ∧ Forall (fun i => i ≤ last_id c l) (ids l).
Proof.
  revert c. induction l as [|x l IH]; intros c Hs Ha; [by split; [done|split; [done|constructor]]|].
  cbn in Hs, Ha. apply StronglySorted_inv in Hs as [Hs Hx]. apply Forall_cons in Ha as [Hc _].
  rewrite last_id_cons. destruct (IH (Log_ID x) Hs Hx) as (H1 & H2 & H3). split; [lia|]. split.
  - intros _. destruct l as [|y l]; [by left|]. right. by apply H2.
  - constructor; [done|exact H3].
Qed.

Lemma transaction_spec b L now m d r d' :
  NoDup (ids (request_logs d)) → 0 < L → transaction b L now m d = (Ok r, d') →
  let dn := processed b m r d in
  outcome d' = outcome (foldl (handle now) d dn) ∧ request_logs d' = request_logs d
  ∧ StronglySorted Z.lt (ids dn) ∧ Forall (fun i => checkpoint d < i ≤ checkpoint d') (ids dn)
  ∧ checkpoint d ≤ checkpoint d' ∧ (checkpoint d' = checkpoint d ∨ checkpoint d' ≤ m)
  ∧ (∀ i, i ∈ ids (request_logs d) → checkpoint d < i ≤ checkpoint d' → i ∈ ids dn)
  ∧ (dn ≠ [] → checkpoint d < checkpoint d').
Proof.
  intros Hn HL. unfold project_transaction. destruct (batch _ _ _ _ _) as [[r' d1]|e] eqn:E; [|done].
  intros [= <- <-]. apply batch_spec in E as (dn & rest & Hload & -> & HP & Hlast & _); [|done].
  cbn [Processed LastRequestLogID] in HP, Hlast. cbv zeta. unfold processed. rewrite Hload, HP, Z.add_0_l, Nat2Z.id, take_app_length.
  set (p l := bool_decide (checkpoint d < Log_ID l) && bool_decide (Log_ID l ≤ m)) in *.
  set (all := merge_sort log_le (List.filter (fun l => bool_decide (checkpoint d < Log_ID l) && bool_decide (Log_ID l ≤ m)) (request_logs d))).
  assert (StronglySorted Z.lt (ids all)) as Hall by (by apply merge_sort_strict, NoDup_filter_map).
  assert (∃ more, all = dn ++ more) as [more Hmore].
  { unfold loadRoutingExhaustionRequestLogs in Hload. fold all in Hload. exists (rest ++ drop (Z.to_nat b) all).
    rewrite <- (take_drop (Z.to_nat b) all) at 1. by rewrite Hload, <- app_assoc. }
  assert (∀ i, i ∈ ids all ↔ i ∈ ids (request_logs d) ∧ checkpoint d < i ≤ m) as Hin.
  { intros i. unfold ids, all. rewrite (merge_sort_Permutation log_le). pose (q j := bool_decide (checkpoint d < j) && bool_decide (j ≤ m)).
    apply (ids_filter q (fun j => checkpoint d < j ≤ m)). intros j. unfold q. by rewrite andb_true_iff, !bool_decide_eq_true. }
  rewrite Hmore in Hall. unfold ids in Hall. rewrite map_app in Hall. fold (ids dn) (ids more) in Hall.
  pose proof (sorted_app_l _ _ Hall) as Hs.
  assert (∀ i, i ∈ ids dn → checkpoint d < i ≤ m) as Hrange.
  { intros i Hi. apply Hin. rewrite Hmore. unfold ids. rewrite map_app. apply elem_of_app. by left. }
  destruct (last_id_spec (checkpoint d) dn Hs) as (Hle & Hmem & Hmax); [by apply Forall_forall; intros; apply Hrange|].
  rewrite <- Hlast in *. destruct (handle_all_same now dn d) as [Hlogs Hcheck].
  assert (∀ x, checkpoint (if bool_decide (LastRequestLogID r' = checkpoint d) then foldl (handle now) d dn
                           else set_checkpoint (LastRequestLogID r') (foldl (handle now) d dn)) = x ↔ LastRequestLogID r' = x) as Hc.
  { intros x. case_bool_decide as Ec; cbn; [by rewrite Hcheck, Ec|done]. }
  rewrite (proj2 (Hc _) eq_refl). split; [by case_bool_decide|]. split; [by case_bool_decide; cbn|]. split; [done|].
  split. { rewrite Forall_forall in *. intros i Hi. split; [by apply Hrange|by apply Hmax]. }
  split; [done|]. split.
  { destruct dn as [|x dn]; [by left; rewrite Hlast|right]. by apply Hrange, Hmem. }
  split.
  - intros i Hi Hir. destruct (decide (dn = [])) as [->|Hne]; [rewrite Hlast in Hir; cbn in Hir; lia|].
    assert (i ∈ ids all) as Ha. { apply Hin. split; [done|]. specialize (Hmem Hne). apply Hrange in Hmem. lia. }
    rewrite Hmore in Ha. unfold ids in Ha. rewrite map_app in Ha. apply elem_of_app in Ha as [Ha|Ha]; [done|].
    pose proof (sorted_app_lt _ _ _ _ Hall (Hmem Hne) Ha). lia.
  - intros Hne. specialize (Hmem Hne). apply Hrange in Hmem. lia.
Qed.

(** ** The invariant *)

Definition projected (h : list item) : list Z :=
  omap (fun i => match i with Projected l _ => Some (Log_ID l) | _ => None end) h.

(** Where a committed log is. *)
Definition accounted (s : system) (h : list item) (i : Z) : Prop :=
  i ∈ projected h ∨ Deleted i ∈ h ∨ (checkpoint (tables s) < i ∧ i ∈ ids (request_logs (tables s))).

Record inv (old : list routingExhaustionRequestLog) (s : system) (h : list item) : Prop := {
  i_unique : NoDup (ids (request_logs (tables s)) ++ ids (inserting s));
  i_below : Forall (fun i => i < next_id s) (ids (request_logs (tables s)) ++ ids (inserting s));
  i_check : max_id old ≤ checkpoint (tables s) < next_id s;
  i_inserting : Forall (fun i => checkpoint (tables s) < i) (ids (inserting s));
  i_holder : ∀ m, holder s = Some m → Forall (fun i => m < i) (ids (inserting s)) ∧ m < next_id s;
  i_sorted : StronglySorted Z.lt (projected h);
  i_range : Forall (fun i => max_id old < i ≤ checkpoint (tables s)) (projected h);
  i_committed : ∀ log, Committed log ∈ h → accounted s h (Log_ID log);
  i_outcome : outcome (tables s) = foldl replay (outcome (tables (initial old))) h
}.

Lemma projected_app h k : projected (h ++ k) = projected h ++ projected k.
Proof. apply omap_app. Qed.

Lemma projected_done l now : projected (map (fun x => Projected x now) l) = ids l.
Proof. induction l as [|x l IH]; [done|]. cbn. f_equal. exact IH. Qed.

Lemma replay_done l now d : foldl replay d (map (fun x => Projected x now) l) = foldl (handle now) d l.
Proof. revert d. induction l as [|x l IH]; intros d; [done|apply IH]. Qed.

Lemma handle_all_outcome now l d : outcome (foldl (handle now) d l) = foldl (handle now) (outcome d) l.
Proof. revert d. induction l as [|x l IH]; intros d; [done|]. cbn. by rewrite IH, handle_outcome. Qed.

Lemma ids_app l k : ids (l ++ k) = ids l ++ ids k.
Proof. apply map_app. Qed.

(** Steps of one kind keep what does not concern them. *)
Lemma accounted_more s s' h k i :
  accounted s h i → checkpoint (tables s') = checkpoint (tables s) →
  (i ∈ ids (request_logs (tables s)) → i ∈ ids (request_logs (tables s')) ∨ Deleted i ∈ k) → accounted s' (h ++ k) i.
Proof.
  intros [H|[H|[Hc H]]] Hcp Hin; unfold accounted; rewrite projected_app, !elem_of_app; [by left; left|by right; left; left|].
  destruct (Hin H); [|by right; left; right]. right; right. split; [lia|done].
Qed.

(** A step that touches no log. *)
Lemma inv_outcome_step old s h k d :
  inv old s h → ids (request_logs d) = ids (request_logs (tables s)) → checkpoint d = checkpoint (tables s) →
  (∀ i, i ∈ k → match i with Projected _ _ | Committed _ | Deleted _ => False | _ => True end) →
  outcome d = foldl replay (outcome (tables s)) k → inv old (with_tables d s) (h ++ k).
Proof.
  intros [H1 H2 H3 H4 H5 H6 H7 H8 H9] Hl Hc Hk Ho.
  assert (projected (h ++ k) = projected h) as Hp.
  { rewrite projected_app. replace (projected k) with (@nil Z); [apply app_nil_r|]. clear Ho. unfold projected.
    induction k as [|i k IH]; [done|]. cbn. pose proof (Hk i ltac:(left)) as Hi. destruct i; try done;
      (apply IH; intros j Hj; apply Hk; by right). }
  assert (outcome d = foldl replay (outcome (tables (initial old))) (h ++ k)) as Ho' by by rewrite foldl_app, <- H9.
  constructor; cbn; rewrite ?Hl, ?Hc, ?Hp; try done.
  intros log [Hlog|Hlog]%elem_of_app; [|by apply Hk in Hlog]. eapply accounted_more; [by apply H8|done|]. cbn. rewrite Hl. by left.
Qed.

Lemma max_id_ge l i : i ∈ ids l → i ≤ max_id l.
Proof.
  induction l as [|x l IH]; [by intros ?%elem_of_nil|]. change (max_id (x :: l)) with (Z.max (Log_ID x) (max_id l)).
  intros [->|Hi]%elem_of_cons; [lia|]. specialize (IH Hi). lia.
Qed.

Lemma initial_inv old : NoDup (ids old) → inv old (initial old) [].
Proof.
  intros Hn. constructor; cbn; rewrite ?app_nil_r; try done; try (by intros ? ?%elem_of_nil); try constructor; try lia.
  apply Forall_forall. intros i Hi%max_id_ge. lia.
Qed.

Lemma inserting_split (l1 l2 : list routingExhaustionRequestLog) log (l : list Z) :
  NoDup (l ++ ids (l1 ++ log :: l2)) → NoDup (l ++ ids (l1 ++ l2)) ∧ Log_ID log ∉ l ++ ids (l1 ++ l2).
Proof.
  rewrite !ids_app. cbn. intros H. assert (l ++ ids l1 ++ Log_ID log :: ids l2 ≡ₚ Log_ID log :: (l ++ ids l1 ++ ids l2)) as Hp by solve_Permutation.
  rewrite Hp in H. by apply NoDup_cons in H as [? ?].
Qed.

Lemma commit_ids l log l1 l2 : ids (l ++ [log]) ++ ids (l1 ++ l2) ≡ₚ ids l ++ ids (l1 ++ log :: l2).
Proof. rewrite !ids_app. cbn. rewrite <- app_assoc. apply Permutation_app_head. cbn. apply Permutation_middle. Qed.

Lemma Forall_ids_split (P : Z → Prop) l1 log l2 :
  Forall P (ids (l1 ++ log :: l2)) → Forall P (ids (l1 ++ l2)) ∧ P (Log_ID log).
Proof. rewrite !ids_app. cbn. rewrite !Forall_app, Forall_cons. tauto. Qed.

Lemma max_id_below l n : 0 < n → Forall (fun i => i < n) (ids l) → max_id l < n.
Proof.
  intros Hn. induction l as [|x l IH]; [done|]. change (max_id (x :: l)) with (Z.max (Log_ID x) (max_id l)).
  intros [Hx Hl]%Forall_cons. specialize (IH Hl). lia.
Qed.

Lemma max_id_nonneg l : 0 ≤ max_id l.
Proof. induction l as [|x l IH]; [done|]. change (max_id (x :: l)) with (Z.max (Log_ID x) (max_id l)). lia. Qed.

Lemma inv_project old b L now m r d s h :
  inv old s h → holder s = Some m → limits_valid b L now = true → transaction b L now m (tables s) = (Ok r, d) →
  inv old (with_holder None (with_tables d s)) (h ++ map (fun l => Projected l now) (processed b m r (tables s))).
Proof.
  intros [H1 H2 H3 H4 H5 H6 H7 H8 H9] Hm HL Ht.
  assert (0 < L) as HL'.
  { apply negb_true_iff, orb_false_iff in HL as [[[[_ _]%orb_false_iff HL]%orb_false_iff _]%orb_false_iff _].
    apply bool_decide_eq_false in HL. lia. }
  destruct (transaction_spec b L now m (tables s) r d) as (Ho & Hl & Hs & Hr & Hle & Hcm & Hall & _); [|done|done|].
  { by apply NoDup_app in H1 as [H1 _]. }
  set (dn := processed b m r (tables s)) in *. destruct (H5 m Hm) as [Hi Hmn].
  assert (outcome d = foldl replay (outcome (tables (initial old))) (h ++ map (fun l => Projected l now) dn)) as Ho'.
  { rewrite foldl_app, replay_done, <- H9, Ho. apply handle_all_outcome. }
  constructor; cbn [tables inserting next_id holder with_holder with_tables]; rewrite ?Hl; try done.
  - lia.
  - rewrite Forall_forall in H4, Hi |- *. intros i Hin. specialize (H4 i Hin). specialize (Hi i Hin). lia.
  - rewrite projected_app, projected_done. apply sorted_app; [done|done|]. intros x y Hx Hy. rewrite Forall_forall in H7. rewrite Forall_forall in Hr.
    specialize (H7 x Hx). specialize (Hr y Hy). lia.
  - rewrite projected_app, projected_done. apply Forall_app. split.
    + eapply Forall_impl; [exact H7|]. cbn. lia.
    + eapply Forall_impl; [exact Hr|]. cbn. lia.
  - intros log [Hlog|Hlog]%elem_of_app; [|by apply list_elem_of_fmap in Hlog as (? & ? & _)].
    unfold accounted. rewrite projected_app, projected_done, !elem_of_app. cbn [tables with_holder with_tables]. rewrite Hl.
    destruct (H8 log Hlog) as [Hp|[Hp|[Hc Hin]]]; [by left; left|by right; left; left|].
    destruct (decide (Log_ID log ≤ checkpoint d)); [left; right; apply Hall; [done|lia]|right; right; split; [lia|done]].
Qed.

Lemma revoke_same k now d : request_logs (revoke k now d).2 = request_logs d ∧ checkpoint (revoke k now d).2 = checkpoint d.
Proof.
  unfold revoke_key. destruct (keys d !! k) as [row|]; [|done]. unfold recoverAPIKeyRoutingExhaustionForRevocation. cbn [set_keys exhausted].
  destruct (exhausted d !! k); [|done]. destruct (record _ _ _ _ _ _ _ _) as [d'|] eqn:E; [|done]. apply exhaustion_record_same in E. exact E.
Qed.

Lemma projector_inv_step old s h k s' : inv old s h → step s k s' → inv old s' (h ++ k).
Proof.
  intros Hinv Hstep. destruct Hstep as [log s Hid|log l1 l2 s Hl|log l1 l2 s Hl|s Hh Hi|b L now m r d s Hh HL Ht|m s Hh|log l1 l2 s Hl
    |name s|id name row s Hk|id now s d Hr|id s].
  - destruct Hinv as [H1 H2 H3 H4 H5 H6 H7 H8 H9]. rewrite app_nil_r. constructor; cbn; try done.
    + rewrite ids_app, app_assoc. apply NoDup_app. split; [done|]. split; [|apply NoDup_singleton].
      intros i Hi ->%list_elem_of_singleton. rewrite Forall_forall in H2. specialize (H2 _ Hi). cbn in H2. lia.
    + rewrite ids_app, app_assoc. apply Forall_app. split; [eapply Forall_impl; [exact H2|cbn; lia]|]. repeat constructor. lia.
    + lia.
    + rewrite ids_app. apply Forall_app. split; [done|]. repeat constructor. lia.
    + intros m Hm. destruct (H5 m Hm) as [H H']. split; [|lia]. rewrite ids_app. apply Forall_app. split; [done|]. repeat constructor. lia.
  - destruct Hinv as [H1 H2 H3 H4 H5 H6 H7 H8 H9]. rewrite Hl in *.
    assert (outcome (tables s) = foldl replay (outcome (tables (initial old))) (h ++ [Committed log])) as H9' by by rewrite foldl_app, <- H9.
    apply Forall_ids_split in H4 as [H4 Hcp]. constructor; cbn; rewrite ?projected_app; cbn; rewrite ?app_nil_r; try done.
    + by rewrite commit_ids.
    + by rewrite commit_ids.
    + intros m Hm. destruct (H5 m Hm) as [[H _]%Forall_ids_split H']. done.
    + intros log' [Hlog|Hlog]%elem_of_app.
      * eapply accounted_more; [by apply H8|done|]. cbn. rewrite ids_app. intros Hin. left. apply elem_of_app. by left.
      * apply list_elem_of_singleton in Hlog as [= ->]. right; right. cbn. split; [done|]. rewrite ids_app. apply elem_of_app. right. by left.
  - destruct Hinv as [H1 H2 H3 H4 H5 H6 H7 H8 H9]. rewrite Hl in *. rewrite app_nil_r.
    apply Forall_ids_split in H4 as [H4 _]. apply inserting_split in H1 as [H1 _]. constructor; cbn; try done.
    + rewrite Forall_app in H2 |- *. destruct H2 as [H2 [H2' _]%Forall_ids_split]. done.
    + intros m Hm. destruct (H5 m Hm) as [[H _]%Forall_ids_split H']. done.
  - destruct Hinv as [H1 H2 H3 H4 H5 H6 H7 H8 H9]. rewrite app_nil_r. constructor; cbn; try done.
    intros m [= <-]. rewrite Hi. split; [constructor|]. apply max_id_below; [pose proof (max_id_nonneg old); lia|].
    by apply Forall_app in H2 as [H2 _].
  - by apply inv_project with (L := L).
  - destruct Hinv. rewrite app_nil_r. by constructor.
  - destruct Hinv as [H1 H2 H3 H4 H5 H6 H7 H8 H9]. rewrite Hl in *.
    assert (outcome (tables s) = foldl replay (outcome (tables (initial old))) (h ++ [Deleted (Log_ID log)])) as H9' by by rewrite foldl_app, <- H9.
    constructor; cbn; rewrite ?projected_app; cbn; rewrite ?app_nil_r; try done.
    + rewrite Permutation_app_comm in H1. apply inserting_split in H1 as [H1 _]. by rewrite Permutation_app_comm.
    + rewrite Forall_app in H2 |- *. destruct H2 as [[H2 _]%Forall_ids_split H2']. done.
    + intros log' [Hlog|Hlog]%elem_of_app; [|by apply list_elem_of_singleton in Hlog].
      eapply accounted_more; [by apply H8|done|]. cbn. rewrite Hl, !ids_app. cbn. rewrite !elem_of_app, elem_of_cons, list_elem_of_singleton.
      intros [?|[->|?]]; [by left; left|by right|by left; right].
  - destruct Hinv as [H1 H2 H3 H4 H5 H6 H7 H8 H9].
    assert (replay (outcome (tables s)) (KeyCreated (next_key s) name) = foldl replay (outcome (tables (initial old))) (h ++ [KeyCreated (next_key s) name])) as H9'
      by by rewrite foldl_app, <- H9.
    constructor; cbn; rewrite ?projected_app; cbn; rewrite ?app_nil_r; try done.
    + intros log' [Hlog|Hlog]%elem_of_app; [|by apply list_elem_of_singleton in Hlog]. eapply accounted_more; [by apply H8|done|by left].
  - apply inv_outcome_step; [done|done|done| |].
    + by intros i ->%list_elem_of_singleton.
    + cbn. by rewrite Hk.
  - pose proof (revoke_same id now (tables s)) as [Hlogs Hc]. rewrite Hr in Hlogs, Hc. cbn in Hlogs, Hc. apply inv_outcome_step; [done|by rewrite Hlogs|done| |].
    + by intros i ->%list_elem_of_singleton.
    + cbn. by rewrite revoke_outcome, Hr.
  - apply inv_outcome_step; [done| | | |].
    + unfold delete_key. destruct (keys (tables s) !! id) as [row|]; [|done]. destruct (revoked row); [|done]. cbn.
      unfold ids. rewrite map_map. apply map_ext. intros x. unfold forget_key. by case_bool_decide.
    + unfold delete_key. destruct (keys (tables s) !! id) as [row|]; [|done]. by destruct (revoked row).
    + by intros i ->%list_elem_of_singleton.
    + cbn. by rewrite delete_outcome.
Qed.

Lemma projector_inv_reachable old s h : NoDup (ids old) → reachable ParseAddr Marshal random request old s h → inv old s h.
Proof. intros Hn. induction 1 as [|s h k s' _ IH Hs]; [by apply initial_inv|]. by eapply projector_inv_step. Qed.

(** Nothing is projected that was not committed. *)
Definition known (old : list routingExhaustionRequestLog) (s : system) (h : list item) : Prop :=
  ∀ i, i ∈ ids (request_logs (tables s)) ∨ i ∈ projected h → i ≤ max_id old ∨ ∃ log, Committed log ∈ h ∧ Log_ID log = i.

Lemma known_more old s s' h k :
  known old s h → projected k = [] → ids (request_logs (tables s')) ⊆ ids (request_logs (tables s)) → known old s' (h ++ k).
Proof.
  intros Hk Hp Hl i Hi. rewrite projected_app, Hp, app_nil_r in Hi.
  destruct (Hk i) as [?|(log & ? & ?)]; [destruct Hi; auto|by left|]. right. exists log. split; [|done]. apply elem_of_app. by left.
Qed.

Lemma loaded_logs c m b d x : x ∈ loadRoutingExhaustionRequestLogs c m b d → x ∈ request_logs d.
Proof.
  unfold loadRoutingExhaustionRequestLogs. intros Hx%elem_of_take. destruct Hx as (i & Hx%list_elem_of_lookup_2 & _).
  rewrite merge_sort_Permutation in Hx. apply list_elem_of_In, filter_In in Hx as [Hx _]. by apply list_elem_of_In.
Qed.

Lemma transaction_logs b L now m d r d' : transaction b L now m d = (Ok r, d') → request_logs d' = request_logs d.
Proof.
  unfold project_transaction. destruct (batch _ _ _ _ _) as [[r' d1]|e] eqn:E; [|done]. intros [= <- <-].
  assert (request_logs d1 = request_logs d) as Hd; [|by case_bool_decide].
  revert E. generalize {| Processed := 0; Transitions := 0; LastRequestLogID := checkpoint d; Contended := false |} as r0. revert d1.
  generalize (loadRoutingExhaustionRequestLogs (checkpoint d) m b d) as l. intros l. revert d.
  induction l as [|x l IH]; intros d d1 r0; cbn [project_batch]; [by intros [= _ <-]|].
  destruct (project x (Transitions r0) L now d) as [[[t s] d2]|e] eqn:E; [|done]. cbn [result_bind].
  assert (request_logs d2 = request_logs d) as H2.
  { revert E. unfold projectRoutingExhaustionRequestLog. destruct (ClientKeyID x) as [k|]; [|by intros [= _ _ <-]].
    destruct (_ && _); [by intros [= _ _ <-]|]. destruct (no_transition _ _); [by intros [= _ _ <-]|].
    destruct (bool_decide _); [by intros [= _ _ <-]|]. destruct (lockActiveAPIKeyName k d); [|by intros [= _ _ <-]].
    destruct (record _ _ _ _ _ _ _ _) as [d'|] eqn:Er; [|done]. apply exhaustion_record_same in Er. intros [= _ _ <-]. apply Er. }
  destruct s; [by intros [= _ <-]|]. intros H. rewrite <- H2. by eapply IH.
Qed.

Lemma known_step old s h k s' : known old s h → step s k s' → known old s' (h ++ k).
Proof.
  intros Hk Hstep. destruct Hstep as [log s Hid|log l1 l2 s Hl|log l1 l2 s Hl|s Hh Hi|b L now m r d s Hh HL Ht|m s Hh|log l1 l2 s Hl
    |name s|id name row s Hkey|id now s d Hr|id s]; try (by eapply known_more).
  - intros i Hi. rewrite projected_app in Hi. cbn in Hi. rewrite ids_app, !elem_of_app in Hi. setoid_rewrite elem_of_app.
    assert (i ∈ ids (request_logs (tables s)) ∨ i ∈ projected h → i ≤ max_id old ∨ ∃ x, (Committed x ∈ h ∨ Committed x ∈ [Committed log]) ∧ Log_ID x = i) as Hold.
    { intros Hi'. destruct (Hk i Hi') as [?|(x & ? & ?)]; [by left|]. right. eauto. }
    destruct Hi as [[Hi|Hi]|[Hi|Hi]]; [auto| |auto|by apply elem_of_nil in Hi].
    apply list_elem_of_singleton in Hi as ->. right. exists log. split; [right; by left|done].
  - pose proof Ht as Hl. apply transaction_logs in Hl. intros i Hi. rewrite projected_app, projected_done, elem_of_app in Hi. cbn in Hi. rewrite Hl in Hi.
    assert (i ∈ ids (request_logs (tables s)) ∨ i ∈ projected h) as Hi'.
    { destruct Hi as [Hi|[Hi|Hi]]; [by left|by right|left]. apply list_elem_of_fmap in Hi as (x & -> & Hx). apply list_elem_of_fmap_2.
      unfold processed in Hx. apply elem_of_take in Hx as (j & Hx%list_elem_of_lookup_2 & _). by eapply loaded_logs. }
    destruct (Hk i Hi') as [?|(x & ? & ?)]; [by left|right]. exists x. split; [|done]. apply elem_of_app. by left.
  - eapply known_more; [done|done|]. cbn. rewrite Hl, !ids_app. cbn. set_solver.
  - eapply known_more; [done|done|]. cbn. pose proof (revoke_same id now (tables s)) as [Hlogs _]. rewrite Hr in Hlogs. cbn in Hlogs. by rewrite Hlogs.
  - eapply known_more; [done|done|]. cbn. unfold delete_key. destruct (keys (tables s) !! id) as [row|]; [|done]. destruct (revoked row); [|done]. cbn.
    unfold ids. rewrite map_map. erewrite map_ext; [done|]. intros x. unfold forget_key. by case_bool_decide.
Qed.

Lemma known_reachable old s h : reachable ParseAddr Marshal random request old s h → known old s h.
Proof.
  induction 1 as [|s h k s' _ IH Hs]; [|by eapply known_step].
  intros i [Hi|Hi]; [left; by apply max_id_ge|by apply elem_of_nil in Hi].
Qed.

(** [C34] Every request log is projected exactly once and in order, whatever happens
    meanwhile: requests that begin, commit or fail, cycles with any limits that
    stop early, are refused or give up, logs that are deleted, and keys that
    come, are renamed, revoked and go.  The projected ids increase; a log that
    was committed and that the checkpoint has passed was projected or deleted;
    only committed logs were projected; and states, keys and events are those of
    handling the logs one after the other without any limit. *)
Theorem projector_exactly_once old s h :
  NoDup (ids old) → reachable ParseAddr Marshal random request old s h →
  StronglySorted Z.lt (projected h)
  ∧ (∀ log, Committed log ∈ h → Log_ID log ≤ checkpoint (tables s) → Log_ID log ∈ projected h ∨ Deleted (Log_ID log) ∈ h)
  ∧ (∀ i, i ∈ projected h → ∃ log, Committed log ∈ h ∧ Log_ID log = i)
  ∧ outcome (tables s) = foldl replay (outcome (tables (initial old))) h.
Proof.
  intros Hn Hr. pose proof (projector_inv_reachable _ _ _ Hn Hr) as [H1 H2 H3 H4 H5 H6 H7 H8 H9]. split; [done|]. split; [|split; [|done]].
  - intros log Hlog Hle. destruct (H8 log Hlog) as [?|[?|[? _]]]; [by left|by right|lia].
  - intros i Hi. destruct (known_reachable _ _ _ Hr i) as [Hle|?]; [by right| |done].
    rewrite Forall_forall in H7. specialize (H7 i Hi). lia.
Qed.

(** A batch that did nothing had nothing to do. *)
Lemma batch_nothing logs L now r d r' d' :
  0 < L → Transitions r = 0 → batch logs L now r d = Ok (r', d') → Processed r' = Processed r → logs = [].
Proof.
  intros HL Ht. destruct logs as [|log logs]; [done|]. cbn [project_batch].
  pose proof (project_limit log (Transitions r) L now d HL) as Hp.
  destruct (project log (Transitions r) L now d) as [[[t s] d1]|e]; [|done]. cbn [result_bind]. destruct s; [lia|].
  intros (dn & rest & _ & _ & HP & _)%batch_spec; [|done]. cbn in HP. lia.
Qed.

(** A log that waits is loaded, or another one before it. *)
Lemma loaded_waiting c m b d i :
  0 < b → i ∈ ids (request_logs d) → c < i ≤ m → loadRoutingExhaustionRequestLogs c m b d ≠ [].
Proof.
  intros Hb Hi Him. unfold loadRoutingExhaustionRequestLogs.
  pose (q j := bool_decide (c < j) && bool_decide (j ≤ m)).
  set (l := List.filter _ _). assert (i ∈ ids (merge_sort log_le l)) as Hin.
  { unfold ids. rewrite (merge_sort_Permutation log_le). apply (ids_filter q (fun j => c < j ≤ m)); [|done].
    intros j. unfold q. by rewrite andb_true_iff, !bool_decide_eq_true. }
  destruct (merge_sort log_le l) as [|x k]; [by apply elem_of_nil in Hin|].
  destruct (Z.to_nat b) eqn:E; [lia|done].
Qed.

(** A cycle that gets its lock and whose transaction succeeds moves on: when a
    log is waiting, the checkpoint increases. *)
Theorem projector_progress old s h b L now m r d i :
  NoDup (ids old) → reachable ParseAddr Marshal random request old s h →
  holder s = Some m → limits_valid b L now = true → transaction b L now m (tables s) = (Ok r, d) →
  i ∈ ids (request_logs (tables s)) → checkpoint (tables s) < i ≤ m → checkpoint (tables s) < checkpoint d.
Proof.
  intros Hn Hr Hm HL Ht Hi Him. pose proof (projector_inv_reachable _ _ _ Hn Hr) as [H1 _ _ _ _ _ _ _ _].
  apply NoDup_app in H1 as [H1 _].
  unfold limits_valid in HL. rewrite negb_true_iff, !orb_false_iff, !bool_decide_eq_false in HL. destruct HL as [[[[Hb _] HL] _] _].
  destruct (transaction_spec b L now m (tables s) r d H1 ltac:(lia) Ht) as (_ & _ & _ & _ & _ & _ & _ & Hne).
  apply Hne. unfold processed. clear Hne. intros Hnil. revert Ht. unfold project_transaction.
  destruct (batch _ _ _ _ _) as [[r' d1]|e] eqn:E; [|done]. intros [= <- _].
  assert (loadRoutingExhaustionRequestLogs (checkpoint (tables s)) m b (tables s) ≠ []) as Hload.
  { eapply loaded_waiting; [|exact Hi|exact Him]. lia. }
  apply batch_spec in E as Hs; [|lia]. destruct Hs as (dn & rest & Heq & _ & HP & _). cbn in HP.
  rewrite Heq, HP, Z.add_0_l, Nat2Z.id, take_app_length in Hnil. subst dn. cbn in HP.
  apply Hload. refine (batch_nothing _ _ _ _ _ _ _ _ _ E HP); [lia|done].
Qed.

(** ** Events *)

Definition edges (id : Z) (d : db) : list bool :=
  map (fun e => str_eq (Action e) ActionAPIKeyRoutingPoolExhausted)
    (List.filter (fun e => str_eq (Target_ID (Event_Target e)) (FormatInt id)) (events d)).

Record told (d : db) : Prop := {
  t_edges : ∀ id, alternating true (edges id d);
  t_state : ∀ id, is_Some (exhausted d !! id) ↔ last (edges id d) = Some true;
  t_active : ∀ id, is_Some (exhausted d !! id) → ∃ row, keys d !! id = Some row ∧ revoked row = false
}.

Lemma build_event_edge bytes k name l e o now c ev :
  buildAPIKeyRoutingExhaustionEvent Marshal request bytes k name l e o now c = Ok ev →
  Target_ID (Event_Target ev) = FormatInt k ∧ str_eq (Action ev) ActionAPIKeyRoutingPoolExhausted = e.
Proof.
  unfold buildAPIKeyRoutingExhaustionEvent. destruct (SafeMetadata _ _ _) as [md|]; [|done]. cbn [result_bind]. intros [= <-].
  unfold BuildEvent. cbn [Event_Target Action I_Action]. split; [|by destruct e].
  by rewrite bool_decide_eq_false_2.
Qed.

Lemma record_edge k name l e o now c d d' :
  record k name l e o now c d = Ok d' →
  exhausted d' = exhausted d ∧ keys d' = keys d ∧ ∀ id, edges id d' = edges id d ++ (if bool_decide (k = id) then [e] else []).
Proof.
  unfold record_event. destruct (buildAPIKeyRoutingExhaustionEvent _ _ _ _ _ _ _ _ _ _) as [ev|] eqn:Ev; [|done].
  apply build_event_edge in Ev as [Hid He]. destruct (ValidateEvent _ _ _); [|done]. intros [= <-]. split; [done|]. split; [done|]. intros id.
  unfold edges. cbn [add_event events]. rewrite List.filter_app, map_app. f_equal. cbn. rewrite Hid.
  case_bool_decide as E.
  - subst k. assert (str_eq (FormatInt id) (FormatInt id) = true) as -> by by apply bool_decide_eq_true. cbn. by rewrite He.
  - assert (str_eq (FormatInt k) (FormatInt id) = false) as ->; [|done].
    apply bool_decide_eq_false. unfold FormatInt. intros E'. by apply (inj pretty) in E'.
Qed.

Lemma told_cons b (l : list bool) x : last (l ++ [x]) = Some b ↔ x = b.
Proof. rewrite last_snoc. split; [by intros [= ->]|by intros ->]. Qed.

(** An event that goes with its state. *)
Lemma told_record k name l e o now c ks m d d' :
  told d → (match last (edges k d) with Some y => e = negb y | None => e = true end) →
  (∀ j, j ≠ k → m !! j = exhausted d !! j) → (is_Some (m !! k) ↔ e = true) →
  (∀ j row, j ≠ k → keys d !! j = Some row → revoked row = false → ks !! j = Some row) →
  (e = true → ∃ row, ks !! k = Some row ∧ revoked row = false) →
  record k name l e o now c (set_exhausted m (set_keys ks d)) = Ok d' → told d'.
Proof.
  intros [H1 H2 H3] He Hm Hmk Hks Hk Hr. apply record_edge in Hr as (Hx & Hy & Hedges). cbn in Hx, Hy.
  constructor; intros id; rewrite ?Hx, ?Hy, ?Hedges; change (edges id (set_exhausted m (set_keys ks d))) with (edges id d);
    (destruct (decide (k = id)) as [->|Hne]; [rewrite ?bool_decide_eq_true_2 by done|rewrite ?bool_decide_eq_false_2 by done; rewrite ?app_nil_r]).
  - by apply alternating_snoc.
  - done.
  - rewrite Hmk. by rewrite told_cons.
  - rewrite Hm by done. apply H2.
  - rewrite Hmk. exact Hk.
  - rewrite Hm by done. intros (row & Hrow & Hv)%H3. exists row. split; [|done]. apply Hks; [by apply not_eq_sym|done|done].
Qed.

Lemma told_last d id : told d → match last (edges id d) with Some true => is_Some (exhausted d !! id) | _ => exhausted d !! id = None end.
Proof.
  intros [_ H2 _]. specialize (H2 id). destruct (last (edges id d)) as [[|]|]; [by apply H2| |];
    (apply eq_None_not_Some; intros Hx%H2; done).
Qed.

Lemma set_keys_same d : set_keys (keys d) d = d.
Proof. by destruct d. Qed.

Lemma told_handle now log d : told d → told (handle now d log).
Proof.
  intros Ht. unfold handle, projectRoutingExhaustionRequestLog. destruct (ClientKeyID log) as [k|]; [|done].
  destruct (_ && _) eqn:Ekind; [done|]. destruct (no_transition _ _) eqn:En; [done|]. rewrite (bool_decide_eq_false_2 (1 ≤ 0)) by lia.
  unfold lockActiveAPIKeyName. destruct (keys d !! k) as [row|] eqn:Ek; [|done]. cbn [mbind option_bind].
  destruct (revoked row) eqn:Ev; [done|]. set (m := if is_trigger log then _ else _).
  destruct (record _ _ _ _ _ _ _ _) as [d'|] eqn:Er; [|done]. cbn.
  rewrite <- (set_keys_same d) in Er at 1. change (set_exhausted m (set_keys (keys d) d)) with (set_exhausted m (set_keys (keys d) d)) in Er.
  pose proof (told_last d k Ht) as Hlast. unfold no_transition, routingExhaustionStateExists in En.
  apply orb_false_iff in En as [En1 En2]. eapply told_record; [exact Ht| | | | | |exact Er].
  - destruct (is_trigger log); cbn in *.
    + apply bool_decide_eq_false in En1. by destruct (last (edges k d)) as [[|]|].
    + destruct (is_recovery log); [|done]. apply negb_false_iff, bool_decide_eq_true in En2.
      destruct (last (edges k d)) as [[|]|]; [done| |]; (rewrite Hlast in En2; by destruct En2).
  - intros j Hj. subst m. destruct (is_trigger log); [by rewrite lookup_insert_ne|by rewrite lookup_delete_ne].
  - subst m. destruct (is_trigger log); [by rewrite lookup_insert_eq|rewrite lookup_delete_eq; split; [by intros []|done]].
  - done.
  - eauto.
Qed.

Lemma told_key_revoked id now d : told d → told (revoke id now d).2.
Proof.
  intros Ht. unfold revoke_key. destruct (keys d !! id) as [row|] eqn:Ek; [|done].
  set (ks := <[id := _]> _). unfold recoverAPIKeyRoutingExhaustionForRevocation. cbn [set_keys exhausted].
  pose proof (told_last d id Ht) as Hlast. destruct (exhausted d !! id) as [x|] eqn:Ex.
  - destruct (record _ _ _ _ _ _ _ _) as [d'|] eqn:Er; [|done]. cbn. eapply told_record; [exact Ht| | | | | |exact Er].
    + by destruct (last (edges id d)) as [[|]|].
    + intros j Hj. by rewrite lookup_delete_ne.
    + rewrite lookup_delete_eq. split; [by intros []|done].
    + intros j row' Hj Hrow _. subst ks. by rewrite lookup_insert_ne.
    + done.
  - cbn. destruct Ht as [H1 H2 H3]. constructor; [done|done|]. intros j Hj. destruct (H3 j Hj) as (row' & Hrow & Hv).
    cbn in Hj. exists row'. split; [|done]. cbn. subst ks. rewrite lookup_insert_ne; [done|]. intros <-. rewrite Ex in Hj. by destruct Hj.
Qed.

Lemma told_delete id d : told d → told (delete_key id d).
Proof.
  intros [H1 H2 H3]. unfold delete_key. destruct (keys d !! id) as [row|] eqn:Ek; [|done]. destruct (revoked row) eqn:Ev; [|done].
  assert (exhausted d !! id = None) as Hx.
  { apply eq_None_not_Some. intros (row' & Hrow & Hv)%H3. congruence. }
  constructor; cbn; rewrite ?(delete_id _ _ Hx); [done|done|]. intros j Hj. destruct (H3 j Hj) as (row' & Hrow & Hv).
  exists row'. split; [|done]. rewrite lookup_delete_ne; [done|]. intros <-. rewrite Hx in Hj. by destruct Hj.
Qed.

Lemma told_replay i d : told d → told (replay d i).
Proof.
  intros Ht. destruct i as [log|id|log now|id name|id name|id now|id]; cbn [replay]; [done|done|by apply told_handle| | |by apply told_key_revoked|by apply told_delete].
  - destruct Ht as [H1 H2 H3]. constructor; [done|done|]. intros j Hj. cbn. destruct (decide (id = j)) as [->|Hne].
    + rewrite lookup_insert_eq. by eexists.
    + rewrite lookup_insert_ne by done. by apply H3.
  - destruct (keys d !! id) as [row|] eqn:Ek; [|done]. destruct Ht as [H1 H2 H3]. constructor; [done|done|]. intros j Hj. cbn.
    destruct (H3 j Hj) as (row' & Hrow & Hv). destruct (decide (id = j)) as [->|Hne].
    + rewrite lookup_insert_eq. simplify_eq. by eexists.
    + rewrite lookup_insert_ne by done. eauto.
Qed.

(** Operators see a consistent story: whatever happens, the events of a key
    alternate between exhausted and recovered, starting with exhausted; the last
    one says exhausted exactly when the key has a state; and only active keys
    have one. *)
Theorem exhaustion_events_alternate old s h id :
  NoDup (ids old) → reachable ParseAddr Marshal random request old s h →
  alternating true (edges id (tables s))
  ∧ (is_Some (exhausted (tables s) !! id) ↔ last (edges id (tables s)) = Some true)
  ∧ (is_Some (exhausted (tables s) !! id) → ∃ row, keys (tables s) !! id = Some row ∧ revoked row = false).
Proof.
  intros Hn Hr. pose proof (projector_inv_reachable _ _ _ Hn Hr) as [_ _ _ _ _ _ _ _ Ho].
  assert (told (outcome (tables s))) as Ht.
  { rewrite Ho. assert (told (outcome (tables (initial old)))) as H0.
    { constructor; intros j; cbn; [done| |]; rewrite lookup_empty; [split; [by intros []|done]|by intros []]. }
    clear Ho Hr. revert H0. generalize (outcome (tables (initial old))). induction h as [|i h IH]; intros d Hd; [done|].
    cbn [foldl]. apply IH. by apply told_replay. }
  destruct Ht as [H1 H2 H3]. split; [exact (H1 id)|]. split; [exact (H2 id)|exact (H3 id)].
Qed.
End projector.

(** ** A run

    A key is created; a request finds its pool exhausted, another succeeds while a
    third is under way; the cycle takes the first two, then the third commits. *)
Module Demo.

Definition json (_ : entries) : option string := Some "{}".
Definition bytes (_ : nat) : list ascii := repeat "a"%char 16.
Definition addr (_ : string) : bool := false.
Definition log (id status : Z) (account : option Z) (e : string) : routingExhaustionRequestLog :=
  {| Log_ID := id; ClientKeyID := Some 1; Log_StatusCode := status; ProviderAccountID := account; RoutingPoolID := Some 3;
     RoutingPoolError := e; FallbackDepth := 0; CreatedAt := id * 10 |}.
Definition old : list routingExhaustionRequestLog := [log 1 200 (Some 4) ""].
Definition failed := log 2 503 None "routing_pool_exhausted".
Definition served := log 3 200 (Some 4) "".
Definition again := log 4 503 None "routing_pool_exhausted".

Abbreviation step := (sys_step addr json bytes None).
Abbreviation transaction := (project_transaction addr json bytes None).
Abbreviation reachable := (RoutingExhaustion.reachable addr json bytes None old).

Definition run (L m : Z) (d : db) : RoutingExhaustionProjectorCycleResult * db :=
  match transaction 10 L 100 m d with (Ok r, d) => (r, d) | (Err _, d) => (Build_RoutingExhaustionProjectorCycleResult 0 0 0 false, d) end.

Definition key1 : gmap Z key_row := {[1 := {| key_name := "k"; revoked := false |}]}.
Definition d0 : db := Build_db (old ++ [failed] ++ [served]) 1 ∅ key1 [].
(** One transition at most. *)
Definition d1 : db := (run 1 3 d0).2.
Definition s0 : system := Build_system d0 [] 4 (Some 3) 2.
Definition s1 : system := Build_system d1 [] 4 None 2.

Definition before : list item := [KeyCreated 1 "k"; Committed failed; Committed served].

Lemma next s h k s' h' : reachable s h → step s k s' → h' = h ++ k → reachable s' h'.
Proof. intros Hr Hs ->. by eapply reachable_step. Qed.

Definition at_rest (l inserting : list routingExhaustionRequestLog) (n : Z) : system :=
  Build_system (Build_db l 1 ∅ key1 []) inserting n None 2.

Lemma s0_reachable : reachable s0 before.
Proof.
  apply (next (at_rest (old ++ [failed] ++ [served]) [] 4) before []); [|by apply s_acquire|done].
  apply (next (at_rest (old ++ [failed]) [served] 4) [KeyCreated 1 "k"; Committed failed] [Committed served]);
    [|exact (s_commit _ _ _ _ served [] [] (at_rest (old ++ [failed]) [served] 4) eq_refl)|done].
  apply (next (at_rest old [failed; served] 4) [KeyCreated 1 "k"] [Committed failed]);
    [|exact (s_commit _ _ _ _ failed [] [served] (at_rest old [failed; served] 4) eq_refl)|done].
  apply (next (at_rest old [failed] 3) [KeyCreated 1 "k"] []); [|exact (s_begin _ _ _ _ served (at_rest old [failed] 3) eq_refl)|done].
  apply (next (at_rest old [] 2) [KeyCreated 1 "k"] []); [|exact (s_begin _ _ _ _ failed (at_rest old [] 2) eq_refl)|done].
  apply (next (initial old) [] [KeyCreated 1 "k"]); [|exact (s_create _ _ _ _ "k" (initial old))|done].
  apply reachable_initial.
Qed.

Lemma run_ok : transaction 10 1 100 3 d0 = (Ok (run 1 3 d0).1, d1).
Proof. vm_compute. reflexivity. Qed.

Lemma s1_reachable : reachable s1 (before ++ [Projected failed 100]).
Proof.
  apply (next s0 before [Projected failed 100]); [apply s0_reachable| |done].
  exact (s_project _ _ _ _ 10 1 100 3 _ _ s0 eq_refl eq_refl run_ok).
Qed.

Lemma old_unique : NoDup (ids old).
Proof. apply NoDup_singleton. Qed.

(** The limit of transitions stops the cycle after the first log. *)
Lemma projector_exactly_once_demo :
  projected (before ++ [Projected failed 100]) = [2] ∧ checkpoint (tables s1) = 2
  ∧ outcome (tables s1) = foldl (replay addr json bytes None) (outcome (tables (initial old))) (before ++ [Projected failed 100]).
Proof.
  split; [reflexivity|]. split; [vm_compute; reflexivity|].
  apply (projector_exactly_once addr json bytes None old s1 _ old_unique s1_reachable).
Defined.

Lemma projector_progress_demo : checkpoint (tables s0) < checkpoint d1.
Proof.
  apply (projector_progress addr json bytes None old s0 before 10 1 100 3 _ _ 3 old_unique s0_reachable eq_refl eq_refl run_ok).
  - change (3 ∈ [1; 2; 3]). set_solver.
  - vm_compute. split; [done|discriminate].
Defined.

Lemma exhaustion_events_alternate_demo :
  edges 1 (tables s1) = [true] ∧ is_Some (exhausted (tables s1) !! 1).
Proof.
  split; [vm_compute; reflexivity|].
  apply (exhaustion_events_alternate addr json bytes None old s1 _ 1 old_unique s1_reachable). vm_compute. reflexivity.
Defined.
End Demo.
End RoutingExhaustionThms.
