(* ===== verification/BudgetMonitor.v ===== *)
(** * The API key budget monitor

    [store/api_key_budget_monitor.go]: a background task that compares what each
    client key has used of its budgets with the thresholds of 80 and 100 percent,
    and records an event when one is crossed or recovered.  The usage is that of
    the budget ledger ([Ledger]); the end of [RevokeAPIKey] in [store/admin.go] that
    ends a key's thresholds is here as well. *)

From stdpp Require Import gmap strings sorting.
From Stdlib Require Import Ascii.
From S2P Require Import Prelude GoStrings Json SystemEvents Ledger.

Module BudgetMonitor.
Import SystemEvents.

(** ** Rows *)

Record apiKeyBudgetSnapshot := {
  ID : Z; Name : string;
  RequestBudget24h : Z; TokenBudget24h : Z; CostBudgetMicrousd24h : Z;
  RequestBudget30d : Z; TokenBudget30d : Z; CostBudgetMicrousd30d : Z
}.

Record apiKeyBudgetStream := { Kind : string; Window : string; Used : Z; Limit : Z }.

Record apiKeyBudgetThresholdKey := { K_Kind : string; K_Window : string; K_Threshold : Z }.

#[global] Instance threshold_key_eq_dec : EqDecision apiKeyBudgetThresholdKey.
Proof. solve_decision. Defined.

#[global] Program Instance threshold_key_countable : Countable apiKeyBudgetThresholdKey :=
  inj_countable' (fun k => (K_Kind k, K_Window k, K_Threshold k))
    (fun x => {| K_Kind := x.1.1; K_Window := x.1.2; K_Threshold := x.2 |}) _.
Next Obligation. by intros []. Qed.

(** What is used of [client_api_keys] and of [api_key_budget_states]. *)
Record key_row := { key_name : string; budgets : Ledger.apiKeyBudgetLimits; revoked : bool }.

Record APIKeyBudgetUsage := { InitializationStatus : Ledger.init_status; counters : Ledger.usage }.

Record db := {
  keys : gmap Z key_row;
  usages : gmap Z APIKeyBudgetUsage;
  thresholds : gmap (Z * apiKeyBudgetThresholdKey) Time;      (* crossed_at *)
  events : list Event
}.

Definition set_keys (m : gmap Z key_row) (d : db) : db := Build_db m (usages d) (thresholds d) (events d).
Definition set_usages (m : gmap Z APIKeyBudgetUsage) (d : db) : db := Build_db (keys d) m (thresholds d) (events d).
Definition set_thresholds (m : gmap (Z * apiKeyBudgetThresholdKey) Time) (d : db) : db := Build_db (keys d) (usages d) m (events d).
Definition add_event (e : Event) (d : db) : db := Build_db (keys d) (usages d) (thresholds d) (events d ++ [e]).

Inductive error := ErrInvalidInput | ErrNotFound | ErrNoRows | ErrEvent (e : serror).

Definition maxAPIKeyBudgetMonitorBatchSize : Z := 100.

Definition ActionAPIKeyBudgetThreshold80Crossed : string := "api_key.budget.threshold_80.crossed".
Definition ActionAPIKeyBudgetThreshold80Recovered : string := "api_key.budget.threshold_80.recovered".
Definition ActionAPIKeyBudgetThreshold100Crossed : string := "api_key.budget.threshold_100.crossed".
Definition ActionAPIKeyBudgetThreshold100Recovered : string := "api_key.budget.threshold_100.recovered".

(** ** Streams and thresholds *)

Definition apiKeyBudgetSnapshotFromValues (id : Z) (name : string) (l : Ledger.apiKeyBudgetLimits) : apiKeyBudgetSnapshot :=
  {| ID := id; Name := name;
     RequestBudget24h := Ledger.Request24h l; TokenBudget24h := Ledger.Token24h l; CostBudgetMicrousd24h := Ledger.Cost24h l;
     RequestBudget30d := Ledger.Request30d l; TokenBudget30d := Ledger.Token30d l; CostBudgetMicrousd30d := Ledger.Cost30d l |}.

Definition apiKeyBudgetSnapshotHasLimit (s : apiKeyBudgetSnapshot) : bool :=
  bool_decide (0 < RequestBudget24h s) || bool_decide (0 < TokenBudget24h s) || bool_decide (0 < CostBudgetMicrousd24h s)
  || bool_decide (0 < RequestBudget30d s) || bool_decide (0 < TokenBudget30d s) || bool_decide (0 < CostBudgetMicrousd30d s).

Definition apiKeyBudgetStreams (s : apiKeyBudgetSnapshot) (usage : APIKeyBudgetUsage) : list apiKeyBudgetStream :=
  let u := counters usage in
  [{| Kind := "request"; Window := "24h"; Used := Ledger.requests_used_24h u; Limit := RequestBudget24h s |};
   {| Kind := "token"; Window := "24h"; Used := Ledger.observed_tokens_used_24h u; Limit := TokenBudget24h s |};
   {| Kind := "cost"; Window := "24h"; Used := Ledger.observed_cost_microusd_used_24h u; Limit := CostBudgetMicrousd24h s |};
   {| Kind := "request"; Window := "30d"; Used := Ledger.requests_used_30d u; Limit := RequestBudget30d s |};
   {| Kind := "token"; Window := "30d"; Used := Ledger.observed_tokens_used_30d u; Limit := TokenBudget30d s |};
   {| Kind := "cost"; Window := "30d"; Used := Ledger.observed_cost_microusd_used_30d u; Limit := CostBudgetMicrousd30d s |}].

(** On [int64]: each operation wraps. *)
Definition apiKeyBudgetThresholdCrossed (used limit threshold : Z) : bool :=
  if bool_decide (limit ≤ 0) || bool_decide (used < 0) then false
  else
    let required := wrap64 (wrap64 (Z.quot limit 100 * threshold)
                            + Z.quot (wrap64 (wrap64 (Z.rem limit 100 * threshold) + 99)) 100) in
    bool_decide (required ≤ used).

Definition stream_key (s : apiKeyBudgetStream) (threshold : Z) : apiKeyBudgetThresholdKey :=
  {| K_Kind := Kind s; K_Window := Window s; K_Threshold := threshold |}.

Definition crossed_now (s : apiKeyBudgetStream) (threshold : Z) : bool := apiKeyBudgetThresholdCrossed (Used s) (Limit s) threshold.

(** ** Reading *)

Definition loadAPIKeyBudgetSnapshotForUpdate (keyID : Z) (d : db) : option apiKeyBudgetSnapshot :=
  k ← keys d !! keyID; if revoked k then None else Some (apiKeyBudgetSnapshotFromValues keyID (key_name k) (budgets k)).

Definition loadAPIKeyBudgetUsageTx (keyID : Z) (d : db) : result error APIKeyBudgetUsage :=
  match usages d !! keyID with Some u => Ok u | None => Err ErrNoRows end.

(** The map of the key's thresholds: which of them are there. *)
Definition loadAPIKeyBudgetThresholdStatesTx (keyID : Z) (d : db) : apiKeyBudgetThresholdKey → bool :=
  fun k => bool_decide (is_Some (thresholds d !! (keyID, k))).

Definition has_threshold (keyID : Z) (d : db) : bool :=
  existsb (fun x => bool_decide (x.1.1 = keyID)) (map_to_list (thresholds d)).

Definition jint (n : Z) : Json.json := Json.JNumber (bool_decide (n < 0)) (Z.abs n) 0.

Section monitor.
(** [netip.ParseAddr], [json.Marshal]; the random bytes of each correlation id;
    the request in the context, if any. *)
Context (ParseAddr : string → bool) (Marshal : entries → option string) (random : nat → list ascii).
Context (request : option RequestContext).

(** ** Events *)

Definition threshold_action (threshold : Z) (crossed : bool) : string :=
  if crossed
  then if bool_decide (threshold = 100) then ActionAPIKeyBudgetThreshold100Crossed else ActionAPIKeyBudgetThreshold80Crossed
  else if bool_decide (threshold = 100) then ActionAPIKeyBudgetThreshold100Recovered else ActionAPIKeyBudgetThreshold80Recovered.

Definition threshold_target (snapshot : apiKeyBudgetSnapshot) (stream : apiKeyBudgetStream) : Target :=
  {| Target_Type := "client_api_key_budget";
     Target_ID := FormatInt (ID snapshot) ++ ":" ++ Kind stream ++ ":" ++ Window stream;
     Target_Name := Name snapshot |}.

Definition threshold_metadata (snapshot : apiKeyBudgetSnapshot) (stream : apiKeyBudgetStream) (threshold : Z) (confirmation : string)
  : entries :=
  ([("client_key_id", jint (ID snapshot)); ("budget_kind", Json.JString (Kind stream)); ("window", Json.JString (Window stream));
    ("threshold_percent", jint threshold); ("used", jint (Used stream)); ("limit", jint (Limit stream))]
   ++ (if str_eq confirmation "" then [] else [("confirmation", Json.JString confirmation)]))%list.

Definition buildAPIKeyBudgetThresholdEvent (bytes : list ascii) (snapshot : apiKeyBudgetSnapshot) (stream : apiKeyBudgetStream)
    (threshold : Z) (crossed : bool) (occurredAt now : Time) (confirmation : string) : result serror Event :=
  let values := threshold_metadata snapshot stream threshold confirmation in
  let? metadata := SafeMetadata Marshal (Some values) (map fst values) in
  let request := match request with
    | Some r => r
    | None => {| RC_CorrelationID := NewCorrelationID bytes; RC_SourceIP := ""; RC_HTTPMethod := ""; RC_RoutePattern := "";
                 RC_Actor := {| Actor_Type := ActorSystem; Actor_ID := 0; Actor_Name := "api_key_budget_monitor" |} |}
    end in
  let target := threshold_target snapshot stream in
  let intent := {|
    I_Category := CategoryRuntime;
    I_Severity := if crossed then if bool_decide (threshold = 100) then SeverityError else SeverityWarning else SeverityInfo;
    I_Action := threshold_action threshold crossed;
    I_Outcome := if crossed then if bool_decide (threshold = 100) then OutcomeFailure else OutcomePartial else OutcomeSuccess;
    I_Target := target; I_ErrorCode := "";
    I_Message := "API key " ++ Kind stream ++ " " ++ Window stream ++ " budget "
                 ++ (if crossed then "reached" else "recovered below") ++ " " ++ FormatInt threshold ++ " percent";
    I_Metadata := metadata; StartedAt := 0 |} in
  Ok (BuildEvent (Some request) bytes intent target occurredAt now 0).

(** Building the event and [InsertSystemEventTx]. *)
Definition record_event (snapshot : apiKeyBudgetSnapshot) (stream : apiKeyBudgetStream) (threshold : Z) (crossed : bool)
    (now : Time) (confirmation : string) (d : db) : result error db :=
  match buildAPIKeyBudgetThresholdEvent (random (length (events d))) snapshot stream threshold crossed now now confirmation with
  | Err e => Err (ErrEvent e)
  | Ok e => match ValidateEvent ParseAddr Marshal e with Err e => Err (ErrEvent e) | Ok _ => Ok (add_event e d) end
  end.

(** ** The evaluation of a key *)

(** [for _, stream := range streams { for _, threshold := range order { .. } }] *)
Fixpoint for_each {A S} (f : A → S → result error S) (l : list A) (s : S) : result error S :=
  match l with
  | [] => Ok s
  | x :: l => let? s := f x s in for_each f l s
  end.

Definition pairs (streams : list apiKeyBudgetStream) (order : list Z) : list (apiKeyBudgetStream * Z) :=
  flat_map (fun s => map (fun t => (s, t)) order) streams.

Definition cross_threshold (snapshot : apiKeyBudgetSnapshot) (current : apiKeyBudgetThresholdKey → bool) (now : Time)
    (x : apiKeyBudgetStream * Z) (s : Z * db) : result error (Z * db) :=
  let '(stream, threshold) := x in
  let '(transitions, d) := s in
  if negb (crossed_now stream threshold) then Ok s
  else if current (stream_key stream threshold) then Ok s
  else
    let d := set_thresholds (<[(ID snapshot, stream_key stream threshold) := now]> (thresholds d)) d in
    let? d := record_event snapshot stream threshold true now "" d in
    Ok (transitions + 1, d).

Definition recover_threshold (snapshot : apiKeyBudgetSnapshot) (current : apiKeyBudgetThresholdKey → bool) (now : Time)
    (x : apiKeyBudgetStream * Z) (s : Z * db) : result error (Z * db) :=
  let '(stream, threshold) := x in
  let '(transitions, d) := s in
  if negb (current (stream_key stream threshold)) || crossed_now stream threshold then Ok s
  else
    let d := set_thresholds (delete (ID snapshot, stream_key stream threshold) (thresholds d)) d in
    let? d := record_event snapshot stream threshold false now "" d in
    Ok (transitions + 1, d).

Definition evaluateAPIKeyBudgetThresholds (keyID : Z) (now : Time) (d : db) : result error (Z * db) :=
  match loadAPIKeyBudgetSnapshotForUpdate keyID d with
  | None => Ok (0, d)
  | Some snapshot =>
      let? usage := loadAPIKeyBudgetUsageTx keyID d in
      if negb (bool_decide (InitializationStatus usage = Ledger.Ready)) && apiKeyBudgetSnapshotHasLimit snapshot then Ok (0, d)
      else
        let current := loadAPIKeyBudgetThresholdStatesTx keyID d in
        let streams := apiKeyBudgetStreams snapshot usage in
        let? s := for_each (cross_threshold snapshot current now) (pairs streams [80; 100]) (0, d) in
        for_each (recover_threshold snapshot current now) (pairs streams [100; 80]) s
  end.

(** ** A cycle *)

Record APIKeyBudgetMonitorCycleResult := { Processed : Z; Transitions : Z; NextAfterID : Z }.

Definition monitored (afterID : Z) (d : db) (id : Z) (k : key_row) : bool :=
  bool_decide (afterID < id) && negb (revoked k)
  && (apiKeyBudgetSnapshotHasLimit (apiKeyBudgetSnapshotFromValues id (key_name k) (budgets k)) || has_threshold id d).

(** [SELECT k.id .. ORDER BY k.id ASC LIMIT n] *)
Definition monitored_ids (afterID : Z) (n : nat) (d : db) : list Z :=
  take n (merge_sort Z.le (map fst (List.filter (fun x => monitored afterID d x.1 x.2) (map_to_list (keys d))))).

Definition limits_valid (afterID limit : Z) (now : Time) : bool :=
  negb (bool_decide (afterID < 0) || bool_decide (limit ≤ 0) || bool_decide (maxAPIKeyBudgetMonitorBatchSize < limit) || time_is_zero now).

(** The ids of a cycle and where the next one begins. *)
Definition cycle_ids (afterID limit : Z) (d : db) : list Z * Z :=
  let ids := monitored_ids afterID (S (Z.to_nat limit)) d in
  if bool_decide (limit < Z.of_nat (length ids))
  then let ids := take (Z.to_nat limit) ids in (ids, default 0 (last ids))
  else (ids, 0).

(** The keys one after the other, each in its transaction; on an error what is
    done so far stays. *)
Fixpoint evaluate_all (ids : list Z) (now : Time) (r : APIKeyBudgetMonitorCycleResult) (d : db)
  : APIKeyBudgetMonitorCycleResult * option error * db :=
  match ids with
  | [] => (r, None, d)
  | id :: ids =>
      match evaluateAPIKeyBudgetThresholds id now d with
      | Err e => (r, Some e, d)
      | Ok (transitions, d) =>
          evaluate_all ids now {| Processed := Processed r + 1; Transitions := Transitions r + transitions; NextAfterID := NextAfterID r |} d
      end
  end.

Definition RunAPIKeyBudgetMonitorCycle (afterID limit : Z) (now : Time) (d : db) : APIKeyBudgetMonitorCycleResult * option error * db :=
  if negb (limits_valid afterID limit now)
  then ({| Processed := 0; Transitions := 0; NextAfterID := 0 |}, Some ErrInvalidInput, d)
  else let '(ids, next) := cycle_ids afterID limit d in
       evaluate_all ids now {| Processed := 0; Transitions := 0; NextAfterID := next |} d.

(** ** Revocation *)

Definition recover_revoked (snapshot : apiKeyBudgetSnapshot) (current : apiKeyBudgetThresholdKey → bool) (now : Time)
    (x : apiKeyBudgetStream * Z) (d : db) : result error db :=
  let '(stream, threshold) := x in
  if negb (current (stream_key stream threshold)) then Ok d
  else record_event snapshot stream threshold false now "key_revoked" d.

Definition other_keys (keyID : Z) (m : gmap (Z * apiKeyBudgetThresholdKey) Time) : gmap (Z * apiKeyBudgetThresholdKey) Time :=
  filter (fun x => x.1.1 ≠ keyID) m.

Definition recoverAPIKeyBudgetThresholdsForRevocation (snapshot : apiKeyBudgetSnapshot) (now : Time) (d : db) : result error db :=
  if negb (has_threshold (ID snapshot) d) then Ok d
  else
    let current := loadAPIKeyBudgetThresholdStatesTx (ID snapshot) d in
    let? usage := loadAPIKeyBudgetUsageTx (ID snapshot) d in
    let? d := for_each (recover_revoked snapshot current now) (pairs (apiKeyBudgetStreams snapshot usage) [100; 80]) d in
    Ok (set_thresholds (other_keys (ID snapshot) (thresholds d)) d).

(** [RevokeAPIKey] as far as it matters here; its other events are left out. *)
Definition revoke_key (keyID : Z) (now : Time) (d : db) : result error unit * db :=
  match keys d !! keyID with
  | None => (Err ErrNotFound, d)
  | Some k =>
      match recoverAPIKeyBudgetThresholdsForRevocation (apiKeyBudgetSnapshotFromValues keyID (key_name k) (budgets k)) now
              (set_keys (<[keyID := {| key_name := key_name k; budgets := budgets k; revoked := true |}]> (keys d)) d) with
      | Ok d' => (Ok tt, d')
      | Err e => (Err e, d)
      end
  end.

(** [DeleteRevokedAPIKey]: everything of the key goes with it. *)
Definition delete_key (keyID : Z) (d : db) : db :=
  match keys d !! keyID with
  | Some k => if revoked k
              then Build_db (delete keyID (keys d)) (delete keyID (usages d)) (other_keys keyID (thresholds d)) (events d)
              else d
  | None => d
  end.

(** ** Everything at once *)

(** Keys come with a usage row ([CREATE TRIGGER] of migration 00049), the ledger
    changes usage rows, and the monitor's transactions happen in between. *)
Inductive db_step : db → db → Prop :=
| d_create id name l u d :
    keys d !! id = None →
    db_step d (set_usages (<[id := u]> (usages d)) (set_keys (<[id := {| key_name := name; budgets := l; revoked := false |}]> (keys d)) d))
| d_update id name l k d :
    keys d !! id = Some k →
    db_step d (set_keys (<[id := {| key_name := name; budgets := l; revoked := revoked k |}]> (keys d)) d)
| d_usage id u u' d : usages d !! id = Some u → db_step d (set_usages (<[id := u']> (usages d)) d)
| d_evaluate id now n d d' : evaluateAPIKeyBudgetThresholds id now d = Ok (n, d') → db_step d d'
| d_revoke id now d d' : revoke_key id now d = (Ok tt, d') → db_step d d'
| d_delete id d : db_step d (delete_key id d).

Definition initial : db := Build_db ∅ ∅ ∅ [].
Definition reachable (d : db) : Prop := rtc db_step initial d.
End monitor.

End BudgetMonitor.
