(* ===== verification/BudgetMonitorThms.v ===== *)
(** * The API key budget monitor: theorems

    The comparison with a threshold is exact and does not overflow; an evaluation
    leaves as states exactly the thresholds that are reached and tells exactly the
    differences; the events of a threshold alternate; and going through the keys
    in cycles reaches every one of them. *)

From stdpp Require Import gmap strings sorting relations pretty.
From Stdlib Require Import Ascii.
From S2P Require Import Prelude GoStrings Json SystemEvents Ledger BudgetMonitor.

Module BudgetMonitorThms.
Import SystemEvents BudgetMonitor.

(** ** The comparison *)

Lemma wrap64_small z : in_int64 z → wrap64 z = z.
Proof. unfold wrap64, in_int64, int64_min, int64_max. intros H. rewrite Z.mod_small; lia. Qed.

(** What is required, without division. *)
Lemma crossed_iff used limit threshold :
  in_int64 used → in_int64 limit → 0 < threshold ≤ 100 →
  apiKeyBudgetThresholdCrossed used limit threshold = true ↔ 0 < limit ∧ 0 ≤ used ∧ threshold * limit ≤ 100 * used.
Proof.
  unfold apiKeyBudgetThresholdCrossed. intros Hu Hl Ht. destruct (_ || _) eqn:E.
  { rewrite orb_true_iff, !bool_decide_eq_true in E. split; [done|lia]. }
  rewrite orb_false_iff, !bool_decide_eq_false in E. destruct E as [E1 E2].
  assert (0 ≤ Z.quot limit 100 ∧ limit = 100 * Z.quot limit 100 + Z.rem limit 100 ∧ 0 ≤ Z.rem limit 100 < 100) as (Hq & Heq & Hr).
  { pose proof (Z.quot_rem' limit 100). pose proof (Z.rem_bound_pos limit 100 ltac:(lia) ltac:(lia)). split; [|lia]. lia. }
  set (q := Z.quot limit 100) in *. set (r := Z.rem limit 100) in *.
  unfold in_int64, int64_min, int64_max in *.
  assert (0 ≤ r * threshold ≤ 9900) by nia. assert (0 ≤ q * threshold ≤ 100 * q) by nia.
  rewrite (wrap64_small (r * threshold)), (wrap64_small (q * threshold)), (wrap64_small (r * threshold + 99));
    [|unfold in_int64, int64_min, int64_max; lia..].
  pose proof (Z.quot_rem' (r * threshold + 99) 100). pose proof (Z.rem_bound_pos (r * threshold + 99) 100 ltac:(lia) ltac:(lia)).
  assert (Z.quot (r * threshold + 99) 100 ≤ r) by nia.
  rewrite wrap64_small by (unfold in_int64, int64_min, int64_max; lia). rewrite bool_decide_eq_true. split; [|intros (_ & _ & H')]; nia.
Qed.

(** The comparison with a threshold is exact on all of [int64], with no
    overflow: it holds when there is a limit and the percentage is reached. *)
Theorem threshold_crossed_exact used limit threshold :
  in_int64 used → in_int64 limit → threshold = 80 ∨ threshold = 100 →
  apiKeyBudgetThresholdCrossed used limit threshold = true ↔ 0 < limit ∧ 0 ≤ used ∧ threshold * limit ≤ 100 * used.
Proof. intros Hu Hl Ht. apply crossed_iff; [done|done|lia]. Qed.

(** ** Target ids tell keys, kinds and windows apart *)

Fixpoint no_colon (s : string) : Prop :=
  match s with EmptyString => True | String a s => a ≠ ":"%char ∧ no_colon s end.

Lemma pretty_go_no_colon x s : no_colon s → no_colon (pretty_N_go x s).
Proof.
  revert s. induction (N.lt_wf_0 x) as [x _ IH]; intros s Hs.
  destruct (decide (x = 0)%N) as [->|Hx]; [by rewrite pretty_N_go_0|]. rewrite pretty_N_go_step by lia.
  apply IH; [apply N.div_lt; lia|]. split; [|done]. unfold pretty_N_char. by repeat case_match.
Qed.

Lemma FormatInt_no_colon z : no_colon (FormatInt z).
Proof.
  assert (∀ p : positive, no_colon (pretty p)) as Hp by (intros p; by apply pretty_go_no_colon).
  destruct z as [|p|p]; [by vm_compute|apply Hp|]. split; [done|apply Hp].
Qed.

Lemma cut_at_colon (a b r s : string) : no_colon a → no_colon b → (a ++ String ":" r)%string = (b ++ String ":" s)%string → a = b ∧ r = s.
Proof.
  revert b. induction a as [|x a IH]; intros [|y b]; cbn.
  - by intros _ _ [= ->].
  - by intros _ [Hy _] [= <- _].
  - by intros [Hx _] _ [= -> _].
  - intros [_ Ha] [_ Hb] [= -> E]. destruct (IH b Ha Hb E) as [-> ->]. done.
Qed.

Definition target_id (id : Z) (k : apiKeyBudgetThresholdKey) : string := FormatInt id ++ ":" ++ K_Kind k ++ ":" ++ K_Window k.

(** The thresholds that the table allows. *)
Definition all_keys : list apiKeyBudgetThresholdKey :=
  flat_map (fun w => flat_map (fun t => map (fun k => Build_apiKeyBudgetThresholdKey k w t) ["request"; "token"; "cost"]) [80; 100]) ["24h"; "30d"].

Lemma kinds_no_colon k : k ∈ all_keys → no_colon (K_Kind k).
Proof. intros H. assert (Forall (fun k => no_colon (K_Kind k)) all_keys) as Ha; [repeat constructor; done|]. rewrite Forall_forall in Ha. by apply Ha. Qed.

Lemma target_id_inj i j k l :
  k ∈ all_keys → l ∈ all_keys → target_id i k = target_id j l → i = j ∧ K_Kind k = K_Kind l ∧ K_Window k = K_Window l.
Proof.
  intros Hk Hl H. apply cut_at_colon in H as [Hi H]; [|apply FormatInt_no_colon..].
  apply cut_at_colon in H as [Hkind Hw]; [|by apply kinds_no_colon..]. split; [|done]. unfold FormatInt in Hi. by apply (inj pretty).
Qed.

Lemma keys_of_pairs sn u : (map (fun x => stream_key x.1 x.2) (pairs (apiKeyBudgetStreams sn u) [80; 100])) ≡ₚ all_keys.
Proof. cbn. unfold stream_key. cbn. solve_Permutation. Qed.

Lemma keys_of_pairs' sn u : (map (fun x => stream_key x.1 x.2) (pairs (apiKeyBudgetStreams sn u) [100; 80])) ≡ₚ all_keys.
Proof. cbn. unfold stream_key. cbn. solve_Permutation. Qed.

Lemma all_keys_unique : NoDup all_keys.
Proof. apply (bool_decide_unpack _). vm_compute. exact I. Qed.

Section monitor.
Context (ParseAddr : string → bool) (Marshal : entries → option string) (random : nat → list ascii).
Context (request : option RequestContext).

Abbreviation record := (record_event ParseAddr Marshal random request).
Abbreviation cross := (cross_threshold ParseAddr Marshal random request).
Abbreviation recover := (recover_threshold ParseAddr Marshal random request).
Abbreviation evaluate := (evaluateAPIKeyBudgetThresholds ParseAddr Marshal random request).
Abbreviation revoke := (revoke_key ParseAddr Marshal random request).
Abbreviation step := (db_step ParseAddr Marshal random request).

(** ** What an operation tells and what it leaves *)

(** Changes: a stream, a threshold, and whether it is crossed. *)
Notation change := (apiKeyBudgetStream * Z * bool)%type.

Definition key_of (x : apiKeyBudgetStream * Z) : apiKeyBudgetThresholdKey := stream_key x.1 x.2.

Fixpoint tell (sn : apiKeyBudgetSnapshot) (now : Time) (confirmation : string) (l : list change) (d : db) : result error db :=
  match l with
  | [] => Ok d
  | (s, t, b) :: l => let? d := record sn s t b now confirmation d in tell sn now confirmation l d
  end.

Lemma record_thresholds m sn s t b now c d :
  record sn s t b now c (set_thresholds m d) = let? d' := record sn s t b now c d in Ok (set_thresholds m d').
Proof.
  unfold record_event. cbn [set_thresholds events]. destruct (buildAPIKeyBudgetThresholdEvent _ _ _ _ _ _ _ _ _ _); [|done].
  by destruct (ValidateEvent _ _ _).
Qed.

Lemma record_same sn s t b now c d d' :
  record sn s t b now c d = Ok d' → keys d' = keys d ∧ usages d' = usages d ∧ thresholds d' = thresholds d.
Proof.
  unfold record_event. destruct (buildAPIKeyBudgetThresholdEvent _ _ _ _ _ _ _ _ _ _); [|done].
  destruct (ValidateEvent _ _ _); [|done]. by intros [= <-].
Qed.

Lemma tell_thresholds m sn now c l d :
  tell sn now c l (set_thresholds m d) = let? d' := tell sn now c l d in Ok (set_thresholds m d').
Proof.
  revert d. induction l as [|[[s t] b] l IH]; intros d; [done|]. cbn [tell]. rewrite record_thresholds.
  destruct (record sn s t b now c d) as [d1|]; [|done]. cbn [result_bind]. apply IH.
Qed.

Lemma tell_same sn now c l d d' :
  tell sn now c l d = Ok d' → keys d' = keys d ∧ usages d' = usages d ∧ thresholds d' = thresholds d.
Proof.
  revert d. induction l as [|[[s t] b] l IH]; intros d; cbn [tell]; [by intros [= <-]|].
  destruct (record sn s t b now c d) as [d1|] eqn:E; [|done]. cbn [result_bind]. apply record_same in E as (<- & <- & <-). apply IH.
Qed.

Lemma tell_app sn now c l k d :
  tell sn now c (l ++ k) d = let? d' := tell sn now c l d in tell sn now c k d'.
Proof.
  revert d. induction l as [|[[s t] b] l IH]; intros d; [done|]. cbn. destruct (record sn s t b now c d); [|done]. cbn. apply IH.
Qed.

Definition marks (id : Z) (now : Time) (l : list (apiKeyBudgetStream * Z)) (m : gmap (Z * apiKeyBudgetThresholdKey) Time) :=
  foldl (fun m x => <[(id, key_of x) := now]> m) m l.
Definition unmarks (id : Z) (l : list (apiKeyBudgetStream * Z)) (m : gmap (Z * apiKeyBudgetThresholdKey) Time) :=
  foldl (fun m x => delete (id, key_of x) m) m l.

Lemma marks_lookup id now l m i k :
  marks id now l m !! (i, k) = if bool_decide (i = id ∧ k ∈ map key_of l) then Some now else m !! (i, k).
Proof.
  unfold marks. revert m. induction l as [|x l IH]; intros m; cbn [foldl map].
  { rewrite bool_decide_eq_false_2; [done|]. by intros [_ ?%elem_of_nil]. }
  rewrite IH. destruct (decide (i = id ∧ k ∈ map key_of l)) as [H|H].
  - rewrite !bool_decide_eq_true_2; [done|rewrite elem_of_cons; tauto|done].
  - rewrite (bool_decide_eq_false_2 (i = id ∧ k ∈ _)) by done. destruct (decide ((id, key_of x) = (i, k))) as [[= <- <-]|Hne].
    + rewrite lookup_insert_eq, bool_decide_eq_true_2; [done|rewrite elem_of_cons; tauto].
    + rewrite lookup_insert_ne by done. rewrite bool_decide_eq_false_2; [done|]. rewrite elem_of_cons. intros [-> [->|?]]; [done|tauto].
Qed.

Lemma unmarks_lookup id l m i k :
  unmarks id l m !! (i, k) = if bool_decide (i = id ∧ k ∈ map key_of l) then None else m !! (i, k).
Proof.
  unfold unmarks. revert m. induction l as [|x l IH]; intros m; cbn [foldl map].
  { rewrite bool_decide_eq_false_2; [done|]. by intros [_ ?%elem_of_nil]. }
  rewrite IH. destruct (decide (i = id ∧ k ∈ map key_of l)) as [H|H].
  - rewrite !bool_decide_eq_true_2; [done|rewrite elem_of_cons; tauto|done].
  - rewrite (bool_decide_eq_false_2 (i = id ∧ k ∈ _)) by done. destruct (decide ((id, key_of x) = (i, k))) as [[= <- <-]|Hne].
    + rewrite lookup_delete_eq, bool_decide_eq_true_2; [done|rewrite elem_of_cons; tauto].
    + rewrite lookup_delete_ne by done. rewrite bool_decide_eq_false_2; [done|]. rewrite elem_of_cons. intros [-> [->|?]]; [done|tauto].
Qed.

Definition crossings (current : apiKeyBudgetThresholdKey → bool) (l : list (apiKeyBudgetStream * Z)) : list (apiKeyBudgetStream * Z) :=
  List.filter (fun x => crossed_now x.1 x.2 && negb (current (key_of x))) l.
Definition recoveries (current : apiKeyBudgetThresholdKey → bool) (l : list (apiKeyBudgetStream * Z)) : list (apiKeyBudgetStream * Z) :=
  List.filter (fun x => current (key_of x) && negb (crossed_now x.1 x.2)) l.
Definition as_changes (b : bool) (l : list (apiKeyBudgetStream * Z)) : list change := map (fun x => (x, b)) l.

Lemma cross_loop sn current now l n d n' d' :
  for_each (cross sn current now) l (n, d) = Ok (n', d') →
  ∃ d1, tell sn now "" (as_changes true (crossings current l)) d = Ok d1
    ∧ d' = set_thresholds (marks (ID sn) now (crossings current l) (thresholds d)) d1
    ∧ n' = n + Z.of_nat (length (crossings current l)).
Proof.
  revert n d. induction l as [|[s t] l IH]; intros n d; cbn [for_each crossings List.filter].
  { intros [= <- <-]. exists d. split; [done|]. split; [by destruct d|]. cbn. lia. }
  unfold cross_threshold at 1. fold (crossings current l). change (key_of (s, t)) with (stream_key s t). cbn [fst snd].
  destruct (crossed_now s t); cbn [negb andb]; [|apply IH]. destruct (current (stream_key s t)); cbn [negb]; [apply IH|].
  rewrite record_thresholds. cbn [as_changes map tell]. destruct (record sn s t true now "" d) as [d1|] eqn:E; [|done]. cbn [result_bind].
  intros (d2 & Ht & -> & ->)%IH. rewrite tell_thresholds in Ht. unfold as_changes in Ht.
  destruct (tell sn now "" _ d1) as [d3|]; [|done]. cbn [result_bind] in Ht. injection Ht as <-.
  exists d3. split; [done|]. split; [done|]. cbn [length]. lia.
Qed.

Lemma recover_loop sn current now l n d n' d' :
  for_each (recover sn current now) l (n, d) = Ok (n', d') →
  ∃ d1, tell sn now "" (as_changes false (recoveries current l)) d = Ok d1
    ∧ d' = set_thresholds (unmarks (ID sn) (recoveries current l) (thresholds d)) d1
    ∧ n' = n + Z.of_nat (length (recoveries current l)).
Proof.
  revert n d. induction l as [|[s t] l IH]; intros n d; cbn [for_each recoveries List.filter].
  { intros [= <- <-]. exists d. split; [done|]. split; [by destruct d|]. cbn. lia. }
  unfold recover_threshold at 1. fold (recoveries current l). change (key_of (s, t)) with (stream_key s t). cbn [fst snd].
  destruct (current (stream_key s t)); cbn [negb andb orb]; [|apply IH]. destruct (crossed_now s t); cbn [negb]; [apply IH|].
  rewrite record_thresholds. cbn [as_changes map tell]. destruct (record sn s t false now "" d) as [d1|] eqn:E; [|done]. cbn [result_bind].
  intros (d2 & Ht & -> & ->)%IH. rewrite tell_thresholds in Ht. unfold as_changes in Ht.
  destruct (tell sn now "" _ d1) as [d3|]; [|done]. cbn [result_bind] in Ht. injection Ht as <-.
  exists d3. split; [done|]. split; [done|]. cbn [length]. lia.
Qed.

(** ** An evaluation *)

Definition six (sn : apiKeyBudgetSnapshot) (u : APIKeyBudgetUsage) (order : list Z) : list (apiKeyBudgetStream * Z) :=
  pairs (apiKeyBudgetStreams sn u) order.

(** The differences between what is there and what is reached. *)
Definition differences (sn : apiKeyBudgetSnapshot) (u : APIKeyBudgetUsage) (current : apiKeyBudgetThresholdKey → bool) : list change :=
  as_changes true (crossings current (six sn u [80; 100])) ++ as_changes false (recoveries current (six sn u [100; 80])).

Definition initializing (sn : apiKeyBudgetSnapshot) (u : APIKeyBudgetUsage) : bool :=
  negb (bool_decide (InitializationStatus u = Ledger.Ready)) && apiKeyBudgetSnapshotHasLimit sn.

Definition updated_thresholds (sn : apiKeyBudgetSnapshot) (u : APIKeyBudgetUsage) (current : apiKeyBudgetThresholdKey → bool) (now : Time)
    (m : gmap (Z * apiKeyBudgetThresholdKey) Time) : gmap (Z * apiKeyBudgetThresholdKey) Time :=
  unmarks (ID sn) (recoveries current (six sn u [100; 80])) (marks (ID sn) now (crossings current (six sn u [80; 100])) m).

Lemma evaluate_spec id now d n d' sn :
  evaluate id now d = Ok (n, d') → loadAPIKeyBudgetSnapshotForUpdate id d = Some sn →
  ∃ u, usages d !! id = Some u ∧
    if initializing sn u then n = 0 ∧ d' = d
    else let current := loadAPIKeyBudgetThresholdStatesTx id d in
      ∃ d1, tell sn now "" (differences sn u current) d = Ok d1
        ∧ d' = set_thresholds (updated_thresholds sn u current now (thresholds d)) d1
        ∧ n = Z.of_nat (length (differences sn u current)).
Proof.
  intros He Hsn. unfold evaluateAPIKeyBudgetThresholds in He. rewrite Hsn in He. unfold loadAPIKeyBudgetUsageTx in He.
  destruct (usages d !! id) as [u|]; [|done]. cbn [result_bind] in He. exists u. split; [done|]. fold (initializing sn u) in He.
  destruct (initializing sn u); [by injection He as <- <-|]. cbv zeta.
  set (current := loadAPIKeyBudgetThresholdStatesTx id d) in *.
  destruct (for_each (cross sn current now) _ _) as [[n1 d1]|] eqn:E1; [|done]. cbn [result_bind] in He.
  apply cross_loop in E1 as (d2 & Ht1 & -> & ->). apply recover_loop in He as (d3 & Ht2 & -> & ->).
  rewrite tell_thresholds in Ht2. destruct (tell sn now "" (as_changes false _) d2) as [d4|] eqn:E4; [|done]. cbn [result_bind] in Ht2.
  assert (∀ a b : db, @Ok error db a = Ok b → a = b) as Hok by (by intros a b [= ->]). apply Hok in Ht2. subst d3.
  exists d4. split; [|split].
  - unfold differences, six. rewrite tell_app, Ht1. exact E4.
  - done.
  - unfold differences, as_changes, six. rewrite length_app, !length_map. lia.
Qed.

Lemma snapshot_id id d sn : loadAPIKeyBudgetSnapshotForUpdate id d = Some sn → ID sn = id.
Proof. unfold loadAPIKeyBudgetSnapshotForUpdate. destruct (keys d !! id) as [k|]; [|done]. cbn. destruct (revoked k); [done|]. by intros [= <-]. Qed.

(** The pair of a key among the six streams. *)
Lemma six_key sn u order k :
  order ≡ₚ [80; 100] → k ∈ all_keys → ∃ x, x ∈ six sn u order ∧ key_of x = k.
Proof.
  intros Ho Hk. rewrite <- (keys_of_pairs sn u) in Hk. apply list_elem_of_fmap in Hk as (x & -> & Hx). exists x. split; [|done].
  unfold six, pairs in *. apply list_elem_of_In, in_flat_map in Hx as (s & Hs & Hx). apply list_elem_of_In, in_flat_map. exists s. split; [done|].
  apply in_map_iff in Hx as (t & <- & Ht). apply in_map_iff. exists t. split; [done|]. apply list_elem_of_In. rewrite Ho. by apply list_elem_of_In.
Qed.

Lemma six_inj sn u o o' x y : o ≡ₚ [80; 100] → o' ≡ₚ [80; 100] → x ∈ six sn u o → y ∈ six sn u o' → key_of x = key_of y → x = y.
Proof.
  intros Ho Ho'.
  assert (∀ o z, o ≡ₚ [80; 100] → z ∈ six sn u o → z ∈ six sn u [80; 100]) as Hin.
  { clear. intros o z Ho Hz. unfold six, pairs in *. apply list_elem_of_In, in_flat_map in Hz as (s & Hs & Hx).
    apply list_elem_of_In, in_flat_map. exists s. split; [done|]. apply in_map_iff in Hx as (t & <- & Ht). apply in_map_iff. exists t.
    split; [done|]. apply list_elem_of_In. rewrite <- Ho. by apply list_elem_of_In. }
  intros Hx%Hin Hy%Hin Hk; [|done..].
  assert (NoDup (map key_of (six sn u [80; 100]))) as Hn by (unfold six, key_of; rewrite keys_of_pairs; apply all_keys_unique).
  apply list_elem_of_lookup in Hx as [i Hi]. apply list_elem_of_lookup in Hy as [j Hj].
  assert (i = j) as <-; [|congruence]. apply (NoDup_lookup _ _ _ (key_of x) Hn); rewrite list_lookup_fmap; [by rewrite Hi|by rewrite Hj, Hk].
Qed.

Lemma six_all sn u o x : o ≡ₚ [80; 100] → x ∈ six sn u o → key_of x ∈ all_keys.
Proof.
  intros Ho Hx. destruct x as [s t]. assert (∃ y, y ∈ six sn u [80; 100] ∧ key_of y = key_of (s, t)) as (y & Hy & <-).
  { exists (s, t). split; [|done]. unfold six, pairs in *. apply list_elem_of_In, in_flat_map in Hx as (s' & Hs & Hx).
    apply list_elem_of_In, in_flat_map. exists s'. split; [done|]. apply in_map_iff in Hx as (t' & E & Ht). apply in_map_iff. exists t'.
    split; [done|]. apply list_elem_of_In. rewrite <- Ho. by apply list_elem_of_In. }
  rewrite <- (keys_of_pairs sn u). apply (list_elem_of_fmap_2 key_of _ _ Hy).
Qed.

Lemma crossings_in current l x : x ∈ crossings current l ↔ x ∈ l ∧ crossed_now x.1 x.2 = true ∧ current (key_of x) = false.
Proof. unfold crossings. rewrite list_elem_of_In, filter_In, <- list_elem_of_In, andb_true_iff, negb_true_iff. done. Qed.
Lemma recoveries_in current l x : x ∈ recoveries current l ↔ x ∈ l ∧ current (key_of x) = true ∧ crossed_now x.1 x.2 = false.
Proof. unfold recoveries. rewrite list_elem_of_In, filter_In, <- list_elem_of_In, andb_true_iff, negb_true_iff. done. Qed.

Lemma orders : [80; 100] ≡ₚ [80; 100] ∧ [100; 80] ≡ₚ [80; 100].
Proof. split; [done|]. apply perm_swap. Qed.

(** What is there afterwards. *)
Lemma updated_spec sn u d now x :
  x ∈ six sn u [80; 100] →
  is_Some (updated_thresholds sn u (loadAPIKeyBudgetThresholdStatesTx (ID sn) d) now (thresholds d) !! (ID sn, key_of x)) ↔ crossed_now x.1 x.2 = true.
Proof.
  intros Hx. unfold updated_thresholds. rewrite unmarks_lookup, marks_lookup. destruct orders as [Ho Ho'].
  set (current := loadAPIKeyBudgetThresholdStatesTx (ID sn) d).
  assert (∀ y o, o ≡ₚ [80; 100] → y ∈ six sn u o → key_of y = key_of x → y = x) as Hinj by (intros y o ?? ; by apply (six_inj sn u o [80; 100])).
  assert (∃ y, y ∈ six sn u [100; 80] ∧ y = x) as (y & Hy & ->).
  { destruct (six_key sn u [100; 80] (key_of x) Ho') as (y & Hy & E); [by apply (six_all sn u [80; 100])|]. exists y. split; [done|]. by apply (Hinj y [100; 80]). }
  assert (current (key_of x) = true ↔ is_Some (thresholds d !! (ID sn, key_of x))) as Hcur by apply bool_decide_eq_true.
  case_bool_decide as Hr.
  { destruct Hr as [_ (z & Ez & (Hz & Hc & Hn)%recoveries_in)%list_elem_of_fmap]. rewrite (Hinj z [100; 80]) in Hn by done. rewrite Hn.
    split; [by intros []|done]. }
  case_bool_decide as Hm.
  { destruct Hm as [_ (z & Ez & (Hz & Hc & Hn)%crossings_in)%list_elem_of_fmap]. rewrite (Hinj z [80; 100]) in Hc by done. rewrite Hc. by split. }
  rewrite <- Hcur. destruct (current (key_of x)) eqn:Ec.
  - split; [intros _|done]. destruct (crossed_now x.1 x.2) eqn:E; [done|]. exfalso. apply Hr. split; [done|]. apply list_elem_of_fmap_2. by apply recoveries_in.
  - split; [done|]. intros E. exfalso. apply Hm. split; [done|]. apply list_elem_of_fmap_2. by apply crossings_in.
Qed.

Lemma updated_other sn u current now m i k : i ≠ ID sn → updated_thresholds sn u current now m !! (i, k) = m !! (i, k).
Proof. intros Hi. unfold updated_thresholds. rewrite unmarks_lookup, marks_lookup, !bool_decide_eq_false_2; [done|tauto..]. Qed.

(** The rows are those the tables allow. *)
Record sound (d : db) : Prop := {
  s_keys : ∀ i k, is_Some (thresholds d !! (i, k)) → k ∈ all_keys;
  s_limits : ∀ i row, keys d !! i = Some row → Forall in_int64 (map (fun f => f (budgets row))
    [Ledger.Request24h; Ledger.Token24h; Ledger.Cost24h; Ledger.Request30d; Ledger.Token30d; Ledger.Cost30d]);
  s_counters : ∀ i u, usages d !! i = Some u → Forall in_int64 (map (fun f => f (counters u))
    [Ledger.requests_used_24h; Ledger.observed_tokens_used_24h; Ledger.observed_cost_microusd_used_24h;
     Ledger.requests_used_30d; Ledger.observed_tokens_used_30d; Ledger.observed_cost_microusd_used_30d])
}.

(** A threshold is reached: the percentage, without rounding. *)
Definition reached (x : apiKeyBudgetStream * Z) : Prop := 0 < Limit x.1 ∧ 0 ≤ Used x.1 ∧ x.2 * Limit x.1 ≤ 100 * Used x.1.

Lemma crossed_reached id d sn u x :
  sound d → loadAPIKeyBudgetSnapshotForUpdate id d = Some sn → usages d !! id = Some u → x ∈ six sn u [80; 100] →
  crossed_now x.1 x.2 = true ↔ reached x.
Proof.
  intros [_ Hl Hc] Hsn Hu Hx. unfold loadAPIKeyBudgetSnapshotForUpdate in Hsn. destruct (keys d !! id) as [row|] eqn:Ek; [|done]. cbn in Hsn.
  destruct (revoked row); [done|]. injection Hsn as <-. specialize (Hl _ _ Ek). specialize (Hc _ _ Hu). cbn in Hl, Hc.
  repeat match goal with H : Forall _ (_ :: _) |- _ => apply Forall_cons in H as [? H] end.
  unfold six in Hx. cbn in Hx. apply list_elem_of_In in Hx. cbn in Hx.
  repeat (destruct Hx as [<-|Hx]; [unfold crossed_now; apply crossed_iff; [assumption|assumption|cbn; lia]|]). done.
Qed.

(** ** Events *)

Definition told_as (id : Z) (c : change) : string * string :=
  (target_id id (key_of c.1), threshold_action c.1.2 c.2).
Definition headline (e : Event) : string * string := (Target_ID (Event_Target e), Action e).

Lemma record_headline sn s t b now c d d' :
  record sn s t b now c d = Ok d' → ∃ e, events d' = events d ++ [e] ∧ headline e = told_as (ID sn) (s, t, b).
Proof.
  unfold record_event. destruct (buildAPIKeyBudgetThresholdEvent _ _ _ _ _ _ _ _ _ _) as [e|] eqn:E; [|done].
  destruct (ValidateEvent _ _ _); [|done]. intros [= <-]. exists e. split; [done|]. revert E.
  unfold buildAPIKeyBudgetThresholdEvent. destruct (SafeMetadata _ _ _) as [md|]; [|done]. cbn [result_bind]. intros [= <-].
  unfold BuildEvent, headline. cbn [Event_Target Action I_Action]. by rewrite bool_decide_eq_false_2.
Qed.

Lemma tell_headlines sn now c l d d' :
  tell sn now c l d = Ok d' → ∃ evs, events d' = events d ++ evs ∧ map headline evs = map (told_as (ID sn)) l.
Proof.
  revert d. induction l as [|[[s t] b] l IH]; intros d; cbn [tell]; [intros [= <-]; exists []; by rewrite app_nil_r|].
  destruct (record sn s t b now c d) as [d1|] eqn:E; [|done]. cbn [result_bind].
  apply record_headline in E as (e & He & Hh). intros (evs & Hevs & Hm)%IH. exists (e :: evs).
  split; [by rewrite Hevs, He, <- app_assoc|]. cbn [map]. by rewrite Hh, Hm.
Qed.

(** The thresholds of a key are those that are reached. *)
Definition settled (id : Z) (d : db) : Prop :=
  ∀ sn u, loadAPIKeyBudgetSnapshotForUpdate id d = Some sn → usages d !! id = Some u → initializing sn u = false →
  ∀ k, is_Some (thresholds d !! (id, k)) ↔ ∃ x, x ∈ six sn u [80; 100] ∧ key_of x = k ∧ reached x.

Lemma evaluation_frame id now d n d' :
  evaluate id now d = Ok (n, d') →
  keys d' = keys d ∧ usages d' = usages d ∧ ∀ i k, i ≠ id → thresholds d' !! (i, k) = thresholds d !! (i, k).
Proof.
  intros He. destruct (loadAPIKeyBudgetSnapshotForUpdate id d) as [sn|] eqn:Esn.
  2:{ unfold evaluateAPIKeyBudgetThresholds in He. rewrite Esn in He. by injection He as <- <-. }
  destruct (evaluate_spec _ _ _ _ _ _ He Esn) as (u & Hu & Hcase). destruct (initializing sn u); [by destruct Hcase as [-> ->]|].
  destruct Hcase as (d1 & (Hk & Hu' & Hth)%tell_same & -> & ->). split; [done|]. split; [done|]. intros i k Hi. apply updated_other.
  by rewrite (snapshot_id _ _ _ Esn).
Qed.

Lemma updated_keys sn u d now i k :
  sound d → is_Some (updated_thresholds sn u (loadAPIKeyBudgetThresholdStatesTx (ID sn) d) now (thresholds d) !! (i, k)) → k ∈ all_keys.
Proof.
  intros Hs. unfold updated_thresholds. rewrite unmarks_lookup, marks_lookup. case_bool_decide; [by intros []|]. case_bool_decide as Hm; [|apply Hs].
  intros _. destruct Hm as [_ (x & -> & (Hx & _)%crossings_in)%list_elem_of_fmap]. by apply (six_all sn u [80; 100]).
Qed.

Lemma evaluate_sound id now d n d' : sound d → evaluate id now d = Ok (n, d') → sound d'.
Proof.
  intros Hs He. pose proof (evaluation_frame _ _ _ _ _ He) as (Hk & Hu & _). pose proof Hs as [H1 H2 H3].
  constructor; rewrite ?Hk, ?Hu; [|done..]. intros i k Hi.
  destruct (loadAPIKeyBudgetSnapshotForUpdate id d) as [sn|] eqn:Esn.
  2:{ unfold evaluateAPIKeyBudgetThresholds in He. rewrite Esn in He. injection He as <- <-. by eapply H1. }
  destruct (evaluate_spec _ _ _ _ _ _ He Esn) as (u & _ & Hcase). destruct (initializing sn u); [destruct Hcase as [-> ->]; by eapply H1|].
  destruct Hcase as (d1 & _ & -> & ->). rewrite <- (snapshot_id _ _ _ Esn) in Hi. cbn [thresholds set_thresholds] in Hi.
  exact (updated_keys sn u d now i k Hs Hi).
Qed.

Lemma evaluate_settled id now d n d' : sound d → evaluate id now d = Ok (n, d') → settled id d'.
Proof.
  intros Hs He sn u Esn Hu Hi k. pose proof (evaluation_frame _ _ _ _ _ He) as (Hk & Hus & _). rewrite Hus in Hu.
  assert (loadAPIKeyBudgetSnapshotForUpdate id d = Some sn) as Esn' by (unfold loadAPIKeyBudgetSnapshotForUpdate in *; by rewrite <- Hk).
  clear Esn. rename Esn' into Esn.
  pose proof (snapshot_id _ _ _ Esn) as Hid. destruct (evaluate_spec _ _ _ _ _ _ He Esn) as (u' & Hu' & Hcase). assert (u' = u) as -> by congruence.
  rewrite Hi in Hcase. destruct Hcase as (d1 & _ & -> & ->). cbn [thresholds set_thresholds]. split.
  - intros Hk'. destruct (six_key sn u [80; 100] k (proj1 orders)) as (x & Hx & <-); [rewrite <- Hid in Hk'; exact (updated_keys sn u d now _ k Hs Hk')|]. exists x. split; [done|]. split; [done|].
    eapply crossed_reached; [done..|]. eapply updated_spec; [done|]. rewrite Hid. exact Hk'.
  - intros (x & Hx & <- & Hr). rewrite <- Hid. apply updated_spec; [done|]. by eapply crossed_reached.
Qed.

(** [C35] An evaluation that succeeds leaves, of the thresholds of its key, exactly
    those that are reached, and touches no other key; it records one event per
    difference and nothing else: first what was crossed, then what has recovered.
    A revoked or unknown key and one whose counters are not there yet are left as
    they are. *)
Theorem evaluation_exact id now d n d' :
  sound d → evaluate id now d = Ok (n, d') →
  keys d' = keys d ∧ usages d' = usages d ∧ (∀ i k, i ≠ id → thresholds d' !! (i, k) = thresholds d !! (i, k))
  ∧ match loadAPIKeyBudgetSnapshotForUpdate id d with
    | None => n = 0 ∧ d' = d
    | Some sn =>
        ∃ u, usages d !! id = Some u ∧
        if initializing sn u then n = 0 ∧ d' = d
        else
          (∀ k, is_Some (thresholds d' !! (id, k)) ↔ ∃ x, x ∈ six sn u [80; 100] ∧ key_of x = k ∧ reached x)
          ∧ ∃ evs, events d' = events d ++ evs ∧ n = Z.of_nat (length evs)
              ∧ map headline evs = map (told_as id) (differences sn u (loadAPIKeyBudgetThresholdStatesTx id d))
    end.
Proof.
  intros Hs He. pose proof (evaluation_frame _ _ _ _ _ He) as (Hk & Hus & Ho). do 3 (split; [done|]).
  destruct (loadAPIKeyBudgetSnapshotForUpdate id d) as [sn|] eqn:Esn.
  2:{ unfold evaluateAPIKeyBudgetThresholds in He. rewrite Esn in He. by injection He as <- <-. }
  destruct (evaluate_spec _ _ _ _ _ _ He Esn) as (u & Hu & Hcase). exists u. split; [done|].
  destruct (initializing sn u) eqn:Ei; [done|]. split.
  - apply (evaluate_settled _ _ _ _ _ Hs He); [|by rewrite Hus|done]. unfold loadAPIKeyBudgetSnapshotForUpdate. by rewrite Hk.
  - destruct Hcase as (d1 & Ht & -> & ->). destruct (tell_headlines _ _ _ _ _ _ Ht) as (evs & Hevs & Hm). exists evs.
    rewrite (snapshot_id _ _ _ Esn) in Hm. split; [exact Hevs|]. split; [|done].
    apply (f_equal length) in Hm. rewrite !length_map in Hm. by rewrite Hm.
Qed.

(** ** The story of a threshold *)

Definition about (id : Z) (k : apiKeyBudgetThresholdKey) (e : Event) : bool :=
  str_eq (Target_ID (Event_Target e)) (target_id id k)
  && (str_eq (Action e) (threshold_action (K_Threshold k) true) || str_eq (Action e) (threshold_action (K_Threshold k) false)).

(** Of each event about a threshold, whether it says that it was crossed. *)
Definition edges (id : Z) (k : apiKeyBudgetThresholdKey) (d : db) : list bool :=
  map (fun e => str_eq (Action e) (threshold_action (K_Threshold k) true)) (List.filter (about id k) (events d)).

Lemma thresholds_are k : k ∈ all_keys → K_Threshold k = 80 ∨ K_Threshold k = 100.
Proof.
  intros H. assert (Forall (fun k => K_Threshold k = 80 ∨ K_Threshold k = 100) all_keys) as Ha by (repeat constructor; cbn; lia).
  rewrite Forall_forall in Ha. by apply Ha.
Qed.

Lemma about_headline id k e j c :
  k ∈ all_keys → key_of c.1 ∈ all_keys → headline e = told_as j c →
  about id k e = bool_decide (id = j ∧ k = key_of c.1)
  ∧ (k = key_of c.1 → str_eq (Action e) (threshold_action (K_Threshold k) true) = c.2).
Proof.
  intros Hk Hc [= Ht Ha]. unfold about. rewrite Ht, Ha. split.
  - destruct (decide (id = j ∧ k = key_of c.1)) as [[-> ->]|Hne].
    + rewrite (bool_decide_eq_true_2 (_ ∧ _)) by done. destruct c as [[s t] b]. cbn.
      assert (∀ x, str_eq x x = true) as Hr by (intros x; by apply bool_decide_eq_true). rewrite Hr. destruct b; rewrite Hr; [done|apply orb_true_r].
    + rewrite (bool_decide_eq_false_2 (_ ∧ _)) by done. apply andb_false_iff.
      destruct (decide (target_id j (key_of c.1) = target_id id k)) as [E|E]; [right|left; by apply bool_decide_eq_false].
      apply target_id_inj in E as (-> & Hkd & Hw); [|done..].
      assert (K_Threshold (key_of c.1) ≠ K_Threshold k) as Htne.
      { intros E. apply Hne. split; [done|]. destruct k, (key_of c.1); cbn in *. by subst. }
      pose proof (thresholds_are _ Hk) as H1. pose proof (thresholds_are _ Hc) as H2. destruct c as [[s t] b]. cbn in Htne, H2 |- *.
      destruct H1 as [H1|H1], H2 as [H2|H2]; rewrite H1 in Htne |- *; subst t; try done; by destruct b.
  - intros ->. destruct c as [[s t] b]. cbn in Hc |- *. pose proof (thresholds_are _ Hc) as H. cbn in H.
    destruct H as [-> | ->]; by destruct b.
Qed.

Definition change_key (c : change) : apiKeyBudgetThresholdKey := key_of c.1.
Definition concerns (sn : apiKeyBudgetSnapshot) (id : Z) (k : apiKeyBudgetThresholdKey) (c : change) : bool :=
  bool_decide (id = ID sn ∧ k = change_key c).

Lemma tell_edges sn now cf l d d' id k :
  tell sn now cf l d = Ok d' → Forall (fun c => change_key c ∈ all_keys) l → k ∈ all_keys →
  edges id k d' = edges id k d ++ map snd (List.filter (concerns sn id k) l).
Proof.
  intros Ht Hl Hk. apply tell_headlines in Ht as (evs & Hevs & Hm). unfold edges. rewrite Hevs, List.filter_app, map_app. f_equal.
  clear Hevs. revert evs Hm. induction Hl as [|c l Hc Hl IH]; intros [|e evs]; cbn [map List.filter]; try done. intros [= Hh1 Hh2 Hm].
  assert (headline e = told_as (ID sn) c) as Hh by (unfold headline; by rewrite Hh1, Hh2).
  destruct (about_headline id k e (ID sn) c Hk Hc Hh) as [Ha Hb]. rewrite Ha. unfold concerns at 1. fold (change_key c) in *.
  case_bool_decide as E; [|by apply IH]. cbn [map]. rewrite Hb by apply E. f_equal. by apply IH.
Qed.

(** At most one change of a list concerns a threshold. *)
Lemma concerned sn id k l :
  NoDup (map change_key l) →
  (List.filter (concerns sn id k) l = [] ∧ ¬ (id = ID sn ∧ k ∈ map change_key l))
  ∨ ∃ c, List.filter (concerns sn id k) l = [c] ∧ c ∈ l ∧ id = ID sn ∧ k = change_key c.
Proof.
  induction l as [|c l IH]; cbn [map List.filter]; [left; split; [done|]; by intros [_ ?%elem_of_nil]|]. intros [Hc Hn]%NoDup_cons.
  destruct (concerns sn id k c) eqn:E; unfold concerns in E; [apply bool_decide_eq_true in E|apply bool_decide_eq_false in E].
  - right. exists c. destruct E as [-> ->]. destruct (IH Hn) as [[-> _]|(c' & _ & Hc' & _ & E)]; [split; [done|split; [by left|done]]|].
    exfalso. apply Hc. rewrite E. by apply (list_elem_of_fmap_2 change_key).
  - destruct (IH Hn) as [[-> H]|(c' & -> & Hc' & E')]; [left; split; [done|]|right; exists c'; split; [done|]; split; [by right|done]].
    intros [-> [->|?]%elem_of_cons]; [by apply E|]. by apply H.
Qed.

Record told (d : db) : Prop := {
  t_edges : ∀ id k, k ∈ all_keys → alternating true (edges id k d);
  t_state : ∀ id k, k ∈ all_keys → is_Some (thresholds d !! (id, k)) ↔ last (edges id k d) = Some true;
  t_keys : ∀ id k, is_Some (thresholds d !! (id, k)) → k ∈ all_keys
}.

Definition active (d : db) : Prop :=
  ∀ id k, is_Some (thresholds d !! (id, k)) → ∃ row, keys d !! id = Some row ∧ revoked row = false.

Lemma told_change sn now cf l d d1 M :
  told d → tell sn now cf l d = Ok d1 → NoDup (map change_key l) → Forall (fun c => change_key c ∈ all_keys) l →
  (∀ c, c ∈ l → (is_Some (thresholds d !! (ID sn, change_key c)) ↔ c.2 = false) ∧ (is_Some (M !! (ID sn, change_key c)) ↔ c.2 = true)) →
  (∀ id k, ¬ (id = ID sn ∧ k ∈ map change_key l) → is_Some (M !! (id, k)) ↔ is_Some (thresholds d !! (id, k))) →
  told (set_thresholds M d1).
Proof.
  intros [H1 H2 H3] Ht Hn Hall Hc Ho. pose proof (fun id k => tell_edges sn now cf l d d1 id k Ht Hall) as Hedges.
  constructor; cbn [thresholds set_thresholds]; intros id k; change (edges id k (set_thresholds M d1)) with (edges id k d1).
  - intros Hk. rewrite Hedges by done. destruct (concerned sn id k l Hn) as [[-> _]|(c & -> & Hcl & -> & ->)]; [by rewrite app_nil_r; apply H1|].
    cbn [map]. apply alternating_snoc; [by apply H1|]. destruct (Hc c Hcl) as [Hb _]. specialize (H2 (ID sn) (change_key c) Hk).
    rewrite Hb in H2. destruct c.2; destruct (last _) as [[|]|]; try done; [destruct H2 as [_ H2]; by specialize (H2 eq_refl)|..];
      destruct H2 as [H2 _]; by specialize (H2 eq_refl).
  - intros Hk. rewrite Hedges by done. destruct (concerned sn id k l Hn) as [[-> Hno]|(c & -> & Hcl & -> & ->)].
    + rewrite app_nil_r, Ho by done. by apply H2.
    + cbn [map]. rewrite last_snoc. destruct (Hc c Hcl) as [_ ->]. split; [by intros ->|by intros [= ->]].
  - intros Hm. destruct (concerned sn id k l Hn) as [[_ Hno]|(c & _ & Hcl & -> & ->)]; [apply Ho in Hm; [by eapply H3|done]|].
    rewrite Forall_forall in Hall. by apply Hall.
Qed.

Lemma told_same d d' : told d → events d' = events d → thresholds d' = thresholds d → told d'.
Proof. intros [H1 H2 H3] He Ht. constructor; unfold edges; rewrite ?He, ?Ht; done. Qed.

(** What an evaluation changes. *)
Lemma differences_keys sn u current :
  NoDup (map change_key (differences sn u current)) ∧ Forall (fun c => change_key c ∈ all_keys) (differences sn u current).
Proof.
  destruct orders as [Ho Ho'].
  assert (∀ b l, map change_key (as_changes b l) = map key_of l) as Hm by (intros b l; unfold as_changes; by rewrite map_map).
  assert (NoDup (map key_of (six sn u [80; 100]))) as Hn by (unfold six, key_of; rewrite keys_of_pairs; apply all_keys_unique).
  assert (NoDup (map key_of (six sn u [100; 80]))) as Hn' by (unfold six, key_of; rewrite keys_of_pairs'; apply all_keys_unique).
  split.
  - unfold differences. rewrite map_app, !Hm. apply NoDup_app. split; [|split].
    + by apply NoDup_filter_map.
    + intros k (x & -> & (Hx & Hc & _)%crossings_in)%list_elem_of_fmap (y & E & (Hy & _ & Hc')%recoveries_in)%list_elem_of_fmap.
      rewrite (six_inj sn u [80; 100] [100; 80] x y) in Hc by done. congruence.
    + by apply NoDup_filter_map.
  - apply Forall_forall. intros c [Hc|Hc]%elem_of_app; apply list_elem_of_fmap in Hc as (x & -> & Hx); unfold change_key; cbn.
    + apply crossings_in in Hx as [Hx _]. by apply (six_all sn u [80; 100]).
    + apply recoveries_in in Hx as [Hx _]. by apply (six_all sn u [100; 80]).
Qed.

Lemma changed_keys sn u current k :
  k ∈ map change_key (differences sn u current)
  ↔ k ∈ map key_of (crossings current (six sn u [80; 100])) ∨ k ∈ map key_of (recoveries current (six sn u [100; 80])).
Proof. unfold differences, as_changes. rewrite map_app, elem_of_app, !map_map. reflexivity. Qed.

Lemma told_evaluate id now d n d' : told d → evaluate id now d = Ok (n, d') → told d' ∧ (active d → active d').
Proof.
  intros Ht He. destruct (loadAPIKeyBudgetSnapshotForUpdate id d) as [sn|] eqn:Esn.
  2:{ unfold evaluateAPIKeyBudgetThresholds in He. rewrite Esn in He. by injection He as <- <-. }
  pose proof (snapshot_id _ _ _ Esn) as Hid. destruct (evaluate_spec _ _ _ _ _ _ He Esn) as (u & Hu & Hcase).
  destruct (initializing sn u) eqn:Ei; [by destruct Hcase as [-> ->]|]. destruct Hcase as (d1 & Htell & -> & ->). subst id.
  set (current := loadAPIKeyBudgetThresholdStatesTx (ID sn) d) in *.
  destruct (differences_keys sn u current) as [Hn Hall]. destruct orders as [Ho Ho'].
  assert (∀ k, current k = true ↔ is_Some (thresholds d !! (ID sn, k))) as Hcur by (intros k; apply bool_decide_eq_true).
  assert (∀ x o, o ≡ₚ [80; 100] → x ∈ six sn u o → x ∈ six sn u [80; 100]) as Hsix.
  { intros x o Hoo Hx. destruct (six_key sn u [80; 100] (key_of x) Ho) as (y & Hy & E); [by apply (six_all sn u o)|].
    by rewrite (six_inj sn u o [80; 100] x y). }
  split.
  - eapply told_change; [exact Ht|exact Htell|exact Hn|exact Hall| |].
    + intros c [Hc|Hc]%elem_of_app; apply list_elem_of_fmap in Hc as (x & -> & Hx); unfold change_key; cbn [fst snd].
      * apply crossings_in in Hx as (Hx & Hc & Hno). rewrite <- Hcur, Hno. split; [done|].
        pose proof (updated_spec sn u d now x Hx) as Hup. fold current in Hup. by rewrite Hup.
      * apply recoveries_in in Hx as (Hx & Hyes & Hc). rewrite <- Hcur, Hyes. split; [done|].
        pose proof (updated_spec sn u d now x (Hsix x _ Ho' Hx)) as Hup. fold current in Hup. by rewrite Hup, Hc.
    + intros i k Hno. rewrite changed_keys in Hno. unfold updated_thresholds.
      rewrite unmarks_lookup, (bool_decide_eq_false_2 _) by tauto. rewrite marks_lookup, (bool_decide_eq_false_2 _) by tauto. done.
  - intros Hact i k Hm. cbn [thresholds keys set_thresholds] in *. rewrite (proj1 (tell_same _ _ _ _ _ _ Htell)).
    destruct (decide (i = ID sn)) as [->|Hi]; [|rewrite updated_other in Hm by done; by eapply Hact].
    unfold loadAPIKeyBudgetSnapshotForUpdate in Esn. destruct (keys d !! ID sn) as [row|]; [|done]. cbn in Esn.
    exists row. split; [done|]. by destruct (revoked row).
Qed.

(** ** Revocation *)

Lemma revoke_loop sn current now l d d' :
  for_each (recover_revoked ParseAddr Marshal random request sn current now) l d = Ok d' →
  tell sn now "key_revoked" (as_changes false (List.filter (fun x => current (key_of x)) l)) d = Ok d'.
Proof.
  revert d. induction l as [|[s t] l IH]; intros d; cbn [for_each List.filter]; [done|].
  unfold recover_revoked at 1. change (key_of (s, t)) with (stream_key s t). destruct (current (stream_key s t)); cbn [negb]; [|apply IH].
  cbn [as_changes map tell]. destruct (record sn s t false now "key_revoked" d); [|done]. cbn [result_bind]. apply IH.
Qed.

Lemma other_keys_lookup id m i k : is_Some (other_keys id m !! (i, k)) ↔ i ≠ id ∧ is_Some (m !! (i, k)).
Proof.
  unfold other_keys. split.
  - intros [t [Ht Hne]%map_lookup_filter_Some]. split; [done|by exists t].
  - intros [Hne [t Ht]]. exists t. apply map_lookup_filter_Some. done.
Qed.

Lemma has_threshold_false id d : has_threshold id d = false → ∀ k, thresholds d !! (id, k) = None.
Proof.
  unfold has_threshold. intros H k. apply eq_None_not_Some. intros [t Ht]. apply not_true_iff_false in H. apply H.
  apply existsb_exists. exists ((id, k), t). split; [apply list_elem_of_In; by apply elem_of_map_to_list|]. by apply bool_decide_eq_true.
Qed.

Lemma told_revoke id now d d' : told d → active d → revoke id now d = (Ok tt, d') → told d' ∧ active d'.
Proof.
  intros Ht Hact. unfold revoke_key. destruct (keys d !! id) as [row|] eqn:Ek; [|done].
  set (sn := apiKeyBudgetSnapshotFromValues _ _ _). set (d0 := set_keys _ d).
  assert (told d0) as Ht0 by by apply (told_same d). change id with (ID sn).
  assert (∀ M, (∀ i k, is_Some (M !! (i, k)) → i ≠ ID sn ∧ is_Some (thresholds d !! (i, k))) → ∀ d1, keys d1 = keys d0 → active (set_thresholds M d1)) as Hother.
  { intros M HM d1 Hk i k Hi. cbn in Hi |- *. rewrite Hk. apply HM in Hi as [Hne Hi]. destruct (Hact i k Hi) as (r & Hr & Hv).
    exists r. split; [|done]. subst d0. cbn. rewrite lookup_insert_ne; [done|]. by apply not_eq_sym. }
  unfold recoverAPIKeyBudgetThresholdsForRevocation. destruct (has_threshold (ID sn) d0) eqn:Eh; cbn [negb].
  - unfold loadAPIKeyBudgetUsageTx. destruct (usages d0 !! ID sn) as [u|]; [|done]. cbn [result_bind].
    set (current := loadAPIKeyBudgetThresholdStatesTx (ID sn) d0).
    destruct (for_each _ _ d0) as [d1|] eqn:E; [|done]. cbn [result_bind]. intros [= <-]. apply revoke_loop in E as Htell.
    destruct (tell_same _ _ _ _ _ _ Htell) as (Hk & _ & Hth). rewrite Hth.
    destruct orders as [_ Ho']. split.
    + eapply told_change; [exact Ht0|exact Htell| | | |].
      * unfold as_changes. rewrite map_map. unfold change_key. cbn [fst]. apply NoDup_filter_map.
        change (NoDup (map key_of (six sn u [100; 80]))). unfold six, key_of. rewrite keys_of_pairs'. apply all_keys_unique.
      * apply Forall_forall. intros c (x & -> & [Hx _]%list_elem_of_In%filter_In)%list_elem_of_fmap. unfold change_key. cbn [fst].
        apply (six_all sn u [100; 80]); [done|]. by apply list_elem_of_In.
      * intros c (x & -> & [Hx Hc]%list_elem_of_In%filter_In)%list_elem_of_fmap. unfold change_key. cbn [fst snd].
        apply bool_decide_eq_true in Hc. split; [done|]. rewrite other_keys_lookup. split; [by intros []|done].
      * intros i k Hno. rewrite other_keys_lookup. split; [by intros []|]. intros Hi. split; [|done]. intros ->. apply Hno. split; [done|].
        destruct (six_key sn u [100; 80] k Ho') as (x & Hx & <-); [by eapply Ht0|]. unfold as_changes. rewrite map_map. unfold change_key. cbn [fst].
        apply (list_elem_of_fmap_2 key_of), list_elem_of_In, filter_In. split; [by apply list_elem_of_In|]. by apply bool_decide_eq_true.
    + apply Hother; [|done]. intros i k Hi. by apply other_keys_lookup in Hi.
  - intros [= <-]. split; [done|]. assert (d0 = set_thresholds (thresholds d0) d0) as -> by done. apply Hother; [|done].
    intros i k Hi. split; [|done]. intros ->. rewrite (has_threshold_false _ _ Eh) in Hi. by destruct Hi.
Qed.

(** ** The invariant *)

Lemma told_initial : told initial ∧ active initial.
Proof.
  split; [constructor|]; intros i k; cbn; rewrite ?lookup_empty; [done|by split; [intros []|]|by intros []|by intros []].
Qed.

Lemma told_step d d' : told d ∧ active d → step d d' → told d' ∧ active d'.
Proof.
  intros [Ht Ha] Hs. destruct Hs as [id name l u d Hn|id name l k d Hk|id u u' d Hu|id now n d d' He|id now d d' Hr|id d].
  - split; [by apply (told_same d)|]. intros i k Hi. destruct (Ha i k Hi) as (row & Hrow & Hv). exists row. split; [|done]. cbn.
    rewrite lookup_insert_ne; [done|]. intros <-. congruence.
  - split; [by apply (told_same d)|]. intros i k' Hi. destruct (Ha i k' Hi) as (row & Hrow & Hv). cbn.
    destruct (decide (id = i)) as [->|Hne]; [rewrite lookup_insert_eq; simplify_eq; by eexists|rewrite lookup_insert_ne by done; eauto].
  - split; [by apply (told_same d)|exact Ha].
  - destruct (told_evaluate _ _ _ _ _ Ht He) as [? H]. split; [done|by apply H].
  - by eapply told_revoke.
  - unfold delete_key. destruct (keys d !! id) as [row|] eqn:Ek; [|done]. destruct (revoked row) eqn:Ev; [|done].
    assert (other_keys id (thresholds d) = thresholds d) as Ho.
    { apply map_filter_id. intros [i k] t Hi Hne. cbn in *. subst i. destruct (Ha id k) as (r & Hr & Hv); [by exists t|]. congruence. }
    split; [apply (told_same d); [done|done|exact Ho]|]. intros i k Hi. cbn in *. rewrite Ho in Hi. destruct (Ha i k Hi) as (r & Hr & Hv).
    exists r. split; [|done]. rewrite lookup_delete_ne; [done|]. intros <-. congruence.
Qed.

(** Whatever happens to keys, budgets and usage: the events of a threshold
    alternate between crossed and recovered, starting with crossed; the last one
    says crossed exactly when the threshold has a state; and only active keys have
    states. *)
Theorem threshold_events_alternate d id k :
  reachable ParseAddr Marshal random request d → k ∈ all_keys →
  alternating true (edges id k d)
  ∧ (is_Some (thresholds d !! (id, k)) ↔ last (edges id k d) = Some true)
  ∧ (is_Some (thresholds d !! (id, k)) → ∃ row, keys d !! id = Some row ∧ revoked row = false).
Proof.
  intros Hr Hk. assert (told d ∧ active d) as [[H1 H2 _] Ha].
  { pose proof told_initial as H0. induction Hr as [x|x y z Hs _ IH]; [done|]. apply IH. by eapply told_step. }
  split; [by apply H1|]. split; [by apply H2|]. apply Ha.
Qed.

(** ** Going through the keys *)

Abbreviation evaluate_all := (evaluate_all ParseAddr Marshal random request).
Abbreviation run_cycle := (RunAPIKeyBudgetMonitorCycle ParseAddr Marshal random request).

Lemma evaluate_all_spec ids now r d r' d' :
  NoDup ids → sound d → evaluate_all ids now r d = (r', None, d') →
  keys d' = keys d ∧ usages d' = usages d ∧ sound d' ∧ NextAfterID r' = NextAfterID r
  ∧ (∀ i k, i ∉ ids → thresholds d' !! (i, k) = thresholds d !! (i, k)) ∧ (∀ i, i ∈ ids → settled i d').
Proof.
  intros Hn. revert r d. induction Hn as [|id ids Hid Hn IH]; intros r d Hs; cbn [BudgetMonitor.evaluate_all].
  { intros [= <- <-]. do 5 (split; [done|]). by intros i ?%elem_of_nil. }
  destruct (evaluate id now d) as [[n d1]|] eqn:E; [|done]. intros H.
  apply evaluation_frame in E as Hf. destruct Hf as (Hk1 & Hu1 & Ho1).
  apply IH in H as (Hk & Hu & Hs' & Hr & Ho & Hset); [|by eapply evaluate_sound]. rewrite Hk1 in Hk. rewrite Hu1 in Hu.
  do 4 (split; [done|]). split.
  - intros i k [Hi Hi']%not_elem_of_cons. rewrite Ho, Ho1; done.
  - intros i [->|Hi]%elem_of_cons; [|by apply Hset]. pose proof (evaluate_settled _ _ _ _ _ Hs E) as H1.
    intros sn u Esn Husn Hin k. rewrite Ho by done. apply H1; [|by rewrite Hu1, <- Hu|done].
    unfold loadAPIKeyBudgetSnapshotForUpdate in *. by rewrite Hk1, <- Hk.
Qed.

(** All the keys a cycle would look at, without its limit. *)
Definition waiting (c : Z) (d : db) : list Z :=
  merge_sort Z.le (map fst (List.filter (fun x => monitored c d x.1 x.2) (map_to_list (keys d)))).

Lemma waiting_in c d id : id ∈ waiting c d ↔ ∃ k, keys d !! id = Some k ∧ monitored c d id k = true.
Proof.
  unfold waiting. rewrite (merge_sort_Permutation Z.le). rewrite list_elem_of_fmap. split.
  - intros ([i k] & -> & [Hx Hm]%list_elem_of_In%filter_In). exists k. split; [|done]. by apply elem_of_map_to_list, list_elem_of_In.
  - intros (k & Hk & Hm). exists (id, k). split; [done|]. apply list_elem_of_In, filter_In. split; [|done]. by apply list_elem_of_In, elem_of_map_to_list.
Qed.

Lemma waiting_sorted c d : StronglySorted Z.lt (waiting c d).
Proof.
  unfold waiting. set (l := map fst _).
  assert (NoDup (merge_sort Z.le l)) as Hn.
  { rewrite (merge_sort_Permutation Z.le l). apply NoDup_filter_map, NoDup_fst_map_to_list. }
  assert (StronglySorted Z.le (merge_sort Z.le l)) as Hs by (apply Sorted_StronglySorted; [intros x y z; lia|]; apply Sorted_merge_sort; apply _).
  induction Hs as [|x k Hs IH Ha]; [constructor|]. apply NoDup_cons in Hn as [Hx Hn]. constructor; [by apply IH|].
  rewrite Forall_forall in Ha |- *. intros y Hy. specialize (Ha y Hy). assert (x ≠ y); [congruence|lia].
Qed.

Lemma sorted_take (l : list Z) n m x : StronglySorted Z.lt l → last (take n l) = Some m → x ∈ l → x ≤ m → x ∈ take n l.
Proof.
  revert n. induction l as [|y l IH]; intros n Hs Hm Hx Hle; [by apply elem_of_nil in Hx|]. destruct n as [|n]; [done|].
  apply StronglySorted_inv in Hs as [Hs Ha]. rewrite firstn_cons in Hm |- *. rewrite elem_of_cons in Hx |- *. destruct Hx as [->|Hx]; [by left|right].
  destruct (take n l) as [|z k] eqn:E.
  - cbn in Hm. injection Hm as <-. rewrite Forall_forall in Ha. specialize (Ha x Hx). lia.
  - rewrite last_cons_cons, <- E in Hm. rewrite <- E. by apply IH.
Qed.

Lemma cycle_ids_spec c limit d ids next :
  0 < limit → cycle_ids c limit d = (ids, next) →
  NoDup ids ∧ (∀ i, i ∈ ids → i ∈ waiting c d)
  ∧ (if bool_decide (limit < Z.of_nat (length (waiting c d)))
     then next ∈ ids ∧ ∀ i, i ∈ waiting c d → i ≤ next → i ∈ ids
     else next = 0 ∧ ids = waiting c d).
Proof.
  intros Hl. unfold cycle_ids, monitored_ids. fold (waiting c d). rewrite length_take.
  pose proof (waiting_sorted c d) as Hs. assert (NoDup (waiting c d)) as Hn.
  { clear -Hs. induction Hs as [|x l Hs IH Ha]; constructor; [|done]. rewrite Forall_forall in Ha. intros H. specialize (Ha x H). lia. }
  destruct (decide (limit < Z.of_nat (length (waiting c d)))) as [Hlt|Hge].
  - rewrite !bool_decide_eq_true_2 by lia. rewrite take_take, Nat.min_l by lia. intros [= <- <-].
    split; [eapply sublist_NoDup; [exact Hn|apply sublist_take]|]. split.
    { intros i (j & Hj & _)%elem_of_take. by apply list_elem_of_lookup_2 in Hj. }
    assert (is_Some (last (take (Z.to_nat limit) (waiting c d)))) as [m Hm].
    { apply last_is_Some. intros H. apply (f_equal length) in H. rewrite length_take in H. cbn in H. lia. }
    rewrite Hm. cbn [default]. split; [by apply last_Some_elem_of|]. intros i Hi Hle. by eapply sorted_take.
  - rewrite !bool_decide_eq_false_2 by lia. intros [= <- <-]. rewrite take_ge by lia. done.
Qed.

(** The monitor's cycles, from one cursor to the next until it is back at the
    beginning or a cycle fails. *)
Fixpoint sweep (fuel : nat) (cursor limit : Z) (now : Time) (d : db) : option (option error * db) :=
  match fuel with
  | O => None
  | S fuel =>
      match run_cycle cursor limit now d with
      | (_, Some e, d) => Some (Some e, d)
      | (r, None, d) => if bool_decide (NextAfterID r = 0) then Some (None, d) else sweep fuel (NextAfterID r) limit now d
      end
  end.

Lemma settled_same id d d' :
  keys d' = keys d → usages d' = usages d → (∀ k, thresholds d' !! (id, k) = thresholds d !! (id, k)) → settled id d → settled id d'.
Proof.
  intros Hk Hu Ht Hset sn u Esn Hus Hi k. rewrite Ht. apply Hset; [|by rewrite <- Hu|done].
  unfold loadAPIKeyBudgetSnapshotForUpdate in *. by rewrite <- Hk.
Qed.

(** A key that a cycle passes over has nothing to evaluate. *)
Lemma unmonitored_settled c d id : c < id → id ∉ waiting c d → settled id d.
Proof.
  intros Hc Hw sn u Esn Hu Hi k. unfold loadAPIKeyBudgetSnapshotForUpdate in Esn. destruct (keys d !! id) as [row|] eqn:Ek; [|done]. cbn in Esn.
  destruct (revoked row) eqn:Ev; [done|]. injection Esn as <-.
  assert (monitored c d id row = false) as Hm.
  { apply not_true_iff_false. intros Hm. apply Hw, waiting_in. eauto. }
  unfold monitored in Hm. rewrite bool_decide_eq_true_2, Ev in Hm by lia. cbn [negb andb] in Hm. apply orb_false_iff in Hm as [Hlim Hth].
  rewrite (has_threshold_false _ _ Hth). split; [by intros []|]. intros (x & Hx & _ & Hr & _). exfalso.
  unfold apiKeyBudgetSnapshotHasLimit in Hlim. rewrite !orb_false_iff, !bool_decide_eq_false in Hlim.
  cbn in Hx. apply list_elem_of_In in Hx. cbn in Hx. repeat (destruct Hx as [<-|Hx]; [cbn in Hr; cbn in Hlim; lia|]). done.
Qed.

Lemma sweep_spec fuel c limit now d :
  0 ≤ c → 0 < limit ≤ 100 → now ≠ 0 → sound d → (size (filter (fun i => (c < i)%Z) (dom (keys d))) < fuel)%nat →
  (∀ id, 0 < id ≤ c → settled id d) →
  ∃ e d', sweep fuel c limit now d = Some (e, d')
    ∧ (e = None → keys d' = keys d ∧ usages d' = usages d ∧ ∀ id, 0 < id → settled id d').
Proof.
  intros Hc Hl Hnow. revert c d Hc. induction fuel as [|fuel IH]; intros c d Hc Hs Hfuel Hset; [lia|]. cbn [sweep].
  unfold RunAPIKeyBudgetMonitorCycle. assert (limits_valid c limit now = true) as ->.
  { unfold limits_valid, time_is_zero, maxAPIKeyBudgetMonitorBatchSize. rewrite !bool_decide_eq_false_2 by lia. done. }
  cbn [negb]. destruct (cycle_ids c limit d) as [ids next] eqn:Eids. apply cycle_ids_spec in Eids as (Hn & Hin & Hnext); [|lia].
  destruct (evaluate_all ids now _ d) as [[r [e|]] d1] eqn:E.
  { exists (Some e), d1. by split. }
  apply evaluate_all_spec in E as (Hk & Hu & Hs1 & Hr & Ho & Hset1); [|done..]. cbn [NextAfterID] in Hr. rewrite Hr.
  assert (∀ id, 0 < id → id ≤ c ∨ (c < id ∧ (id ∈ ids ∨ id ∉ waiting c d)) → settled id d1) as Hdone.
  { intros id Hpos Hcase. destruct (decide (id ∈ ids)) as [Hid|Hid]; [by apply Hset1|].
    apply (settled_same _ d); [done|done|intros k; by apply Ho|]. destruct Hcase as [?|[? [?|?]]]; [by apply Hset|done|by eapply unmonitored_settled]. }
  case_bool_decide as Hlt.
  - destruct Hnext as [Hnext Hall]. pose proof (Hin _ Hnext) as Hw. apply waiting_in in Hw as (row & Hrow & Hm).
    unfold monitored in Hm. rewrite !andb_true_iff, bool_decide_eq_true in Hm. destruct Hm as [[Hcn _] _].
    rewrite bool_decide_eq_false_2 by lia.
    destruct (IH next d1) as (e & d' & -> & Hfin); [lia|done| | |].
    + rewrite Hk. assert (filter (fun i => next < i) (dom (keys d)) ⊂ filter (fun i => c < i) (dom (keys d))) as Hsub%subset_size; [|lia].
      split; [intros i; rewrite !elem_of_filter; intros [? ?]; split; [lia|done]|].
      intros H. specialize (H next). rewrite !elem_of_filter, elem_of_dom in H. assert (next < next); [|lia]. apply H. split; [done|by eexists].
    + intros id Hid. apply Hdone; [lia|]. destruct (decide (id ≤ c)); [by left|right]. split; [lia|].
      destruct (decide (id ∈ waiting c d)); [left; apply Hall; [done|lia]|by right].
    + exists e, d'. split; [done|]. by rewrite <- Hk, <- Hu.
  - destruct Hnext as [-> ->]. rewrite bool_decide_eq_true_2 by done. exists None, d1. split; [done|]. intros _. split; [done|]. split; [done|].
    intros id Hpos. apply Hdone; [done|]. destruct (decide (id ≤ c)); [by left|right]. split; [lia|]. destruct (decide (id ∈ waiting c d)); auto.
Qed.

(** Going through the keys in cycles comes to an end, after no more cycles
    than there are keys and one: either a cycle fails, or every key - whatever the
    size of the batches - has exactly the thresholds that are reached. *)
Theorem monitor_reaches_every_key limit now d :
  0 < limit ≤ 100 → now ≠ 0 → sound d →
  ∃ e d', sweep (S (size (keys d))) 0 limit now d = Some (e, d')
    ∧ (e = None → keys d' = keys d ∧ usages d' = usages d ∧ ∀ id, 0 < id → settled id d').
Proof.
  intros Hl Hnow Hs. apply sweep_spec; [done|done|done|done| |lia].
  assert (filter (fun i => 0 < i) (dom (keys d)) ⊆ dom (keys d)) as Hsub%subseteq_size by (intros i; rewrite elem_of_filter; by intros [_ H]).
  rewrite size_dom in Hsub. lia.
Qed.
End monitor.

(** ** A run

    Two keys have used 8 and 10 of 10 requests; a third has no limits. *)
Module Demo.

Definition json (_ : entries) : option string := Some "{}".
Definition bytes (_ : nat) : list ascii := repeat "a"%char 16.
Definition addr (_ : string) : bool := false.

Definition limits (n : Z) : Ledger.apiKeyBudgetLimits :=
  {| Ledger.Request24h := n; Ledger.Token24h := 0; Ledger.Cost24h := 0; Ledger.Request30d := 0; Ledger.Token30d := 0; Ledger.Cost30d := 0 |}.
Definition used (n : Z) : APIKeyBudgetUsage :=
  {| InitializationStatus := Ledger.Ready;
     counters := {| Ledger.requests_used_24h := n; Ledger.requests_used_30d := n; Ledger.observed_tokens_used_24h := 0;
                    Ledger.observed_tokens_used_30d := 0; Ledger.observed_cost_microusd_used_24h := 0;
                    Ledger.observed_cost_microusd_used_30d := 0 |} |}.
Definition key (name : string) (n : Z) : key_row := {| key_name := name; budgets := limits n; revoked := false |}.

Definition keys0 : gmap Z key_row := <[1 := key "a" 10]> (<[2 := key "b" 10]> {[3 := key "c" 0]}).
Definition usages0 : gmap Z APIKeyBudgetUsage := <[1 := used 8]> (<[2 := used 10]> {[3 := used 5]}).
Definition d0 : db := Build_db keys0 usages0 ∅ [].

Lemma small_in_int64 z : 0 ≤ z ≤ 10 → in_int64 z.
Proof. unfold in_int64, int64_min, int64_max. lia. Qed.

Lemma d0_sound : sound d0.
Proof.
  constructor.
  - intros i k. change (thresholds d0) with (∅ : gmap (Z * apiKeyBudgetThresholdKey) Time). rewrite lookup_empty. by intros [].
  - intros i row. change (keys d0) with keys0. unfold keys0. intros Hi.
    assert (∃ n name, 0 ≤ n ≤ 10 ∧ row = key name n) as (n & name & Hn & ->).
    { apply lookup_insert_Some in Hi as [[_ <-]|[_ Hi]]; [by exists 10, "a"|]. apply lookup_insert_Some in Hi as [[_ <-]|[_ Hi]]; [by exists 10, "b"|].
      apply lookup_singleton_Some in Hi as [_ <-]. by exists 0, "c". }
    cbn. repeat (apply Forall_cons; split; [apply small_in_int64; lia|]). constructor.
  - intros i u. change (usages d0) with usages0. unfold usages0. intros Hi.
    assert (∃ n, 0 ≤ n ≤ 10 ∧ u = used n) as (n & Hn & ->).
    { apply lookup_insert_Some in Hi as [[_ <-]|[_ Hi]]; [by exists 8|]. apply lookup_insert_Some in Hi as [[_ <-]|[_ Hi]]; [by exists 10|].
      apply lookup_singleton_Some in Hi as [_ <-]. by exists 5. }
    cbn. repeat (apply Forall_cons; split; [apply small_in_int64; lia|]). constructor.
Qed.

Lemma threshold_crossed_exact_demo :
  apiKeyBudgetThresholdCrossed (int64_max / 5 * 4 + 5) int64_max 80 = true.
Proof.
  apply threshold_crossed_exact; [split; vm_compute; discriminate..|by left|]. split; [done|]. split; vm_compute; discriminate.
Defined.

Definition d1 : db := match evaluateAPIKeyBudgetThresholds addr json bytes None 2 50 d0 with Ok (_, d) => d | Err _ => d0 end.

Lemma evaluated : evaluateAPIKeyBudgetThresholds addr json bytes None 2 50 d0 = Ok (2, d1).
Proof. vm_compute. reflexivity. Qed.

Lemma evaluation_exact_demo : keys d1 = keys d0 ∧ usages d1 = usages d0.
Proof. destruct (evaluation_exact addr json bytes None 2 50 d0 2 d1 d0_sound evaluated) as (H1 & H2 & _). by split. Defined.

(** A key is created, used up and evaluated. *)
Definition e0 : db := set_usages {[1 := used 0]} (set_keys {[1 := key "a" 10]} initial).
Definition e1 : db := set_usages {[1 := used 9]} e0.
Definition e2 : db := match evaluateAPIKeyBudgetThresholds addr json bytes None 1 50 e1 with Ok (_, d) => d | Err _ => e1 end.

Lemma e2_reachable : reachable addr json bytes None e2.
Proof.
  apply (rtc_l _ _ e0); [exact (d_create _ _ _ _ 1 "a" (limits 10) (used 0) initial eq_refl)|].
  apply (rtc_l _ _ e1); [exact (d_usage _ _ _ _ 1 (used 0) (used 9) e0 eq_refl)|].
  apply rtc_once, (d_evaluate _ _ _ _ 1 50 1). vm_compute. reflexivity.
Qed.

Definition requests24h80 : apiKeyBudgetThresholdKey := {| K_Kind := "request"; K_Window := "24h"; K_Threshold := 80 |}.

Lemma threshold_events_alternate_demo : is_Some (thresholds e2 !! (1, requests24h80)).
Proof.
  apply (threshold_events_alternate addr json bytes None e2 1 requests24h80 e2_reachable); [apply list_elem_of_here|]. vm_compute. reflexivity.
Defined.

(** Batches of one. *)
Lemma monitor_reaches_every_key_demo :
  ∃ e d', sweep addr json bytes None 4 0 1 50 d0 = Some (e, d') ∧ e = None ∧ ∀ id, 0 < id → settled id d'.
Proof.
  destruct (monitor_reaches_every_key addr json bytes None 1 50 d0 ltac:(lia) ltac:(lia) d0_sound) as (e & d' & E & H).
  change (S (size (keys d0))) with 4%nat in E. exists e, d'. split; [exact E|]. assert (e = None) as ->; [|split; [done|by apply H]].
  assert (match sweep addr json bytes None 4 0 1 50 d0 with Some (None, _) => true | _ => false end = true) as Hc by (vm_compute; reflexivity).
  rewrite E in Hc. by destruct e.
Defined.
End Demo.
End BudgetMonitorThms.
