(* ===== verification/KeyInventory.v ===== *)
(** * The inventory of encrypted values and the gate before a key rotation

    [encryptioninventory/service.go] looks at every encrypted value of the database
    and reports with which key it can be read; [encryptionrotation/gate.go] holds
    an exclusive lock and decides from this report whether keys may be rotated.
    The values are those of [store/encryption_inventory.go]; reading one is
    [VerifyStringFor] of [Secrets]. *)

From stdpp Require Import gmap strings.
From Stdlib Require Import Ascii.
From S2P Require Import Prelude GoStrings Base64 Secrets SecretsThms.

Module KeyInventory.
Import Secrets.

(** ** Statuses *)

Inductive LifecycleStatus :=
| LifecycleReadableCurrentKey | LifecycleReadablePreviousKey | LifecycleReadableLegacy
| LifecycleUnreadableRequired | LifecycleUnreadableExpiredPurgeable | LifecycleUnreadableUnknown.

#[global] Instance LifecycleStatus_eq_dec : EqDecision LifecycleStatus.
Proof. solve_decision. Defined.

Inductive ReasonCode :=
| ReasonCurrentKeyVerified | ReasonPreviousKeyVerified | ReasonLegacyCiphertext | ReasonCredentialRequired
| ReasonOAuthStateActive | ReasonOAuthStateExpired | ReasonOAuthStateConsumed | ReasonLifecycleUnknown.

Inductive InventoryStatus := StatusOK | StatusAttention | StatusFailed.

#[global] Instance InventoryStatus_eq_dec : EqDecision InventoryStatus.
Proof. solve_decision. Defined.

(** ** Values and reports *)

Record EncryptedValue := {
  Table : string; Type_ : string; RowID : Z; Ciphertext : string; ExpiresAt : option Time; ConsumedAt : option Time
}.

Definition LifecycleCounts := list (LifecycleStatus * Z).

Record TypeReport := { T_Table : string; T_CredentialKind : string; T_Count : Z; T_LifecycleCounts : LifecycleCounts }.

Record ValueReport := {
  V_Table : string; V_CredentialKind : string; V_RowID : Z; EnvelopeFormat : CiphertextFormat;
  AuthenticatedKeyID : string; V_LifecycleStatus : LifecycleStatus; V_ReasonCode : ReasonCode
}.

Record Report := {
  R_Status : InventoryStatus; R_Count : Z; R_LifecycleCounts : LifecycleCounts; Types : list TypeReport; Values : list ValueReport
}.

Definition credentialClass := (string * string)%type.

Definition credentialClasses : list credentialClass :=
  [("oauth_states", SecretKindOAuthCodeVerifier);
   ("provider_account_credentials", SecretKindOAuthAccessToken);
   ("provider_account_credentials", SecretKindOAuthRefreshToken);
   ("provider_account_credentials", SecretKindOAuthIDToken);
   ("provider_account_credentials", SecretKindProviderAPIKey);
   ("provider_account_credentials", SecretKindProviderProxyURL);
   ("client_api_keys", SecretKindClientAPIKey);
   ("alert_actions", SecretKindAlertActionDestination)].

Definition lifecycleStatuses : list LifecycleStatus :=
  [LifecycleReadableCurrentKey; LifecycleReadablePreviousKey; LifecycleReadableLegacy;
   LifecycleUnreadableRequired; LifecycleUnreadableExpiredPurgeable; LifecycleUnreadableUnknown].

(** [classIndexes]: the index of a class. *)
Fixpoint index_of (c : credentialClass) (l : list credentialClass) : option nat :=
  match l with
  | [] => None
  | d :: l => if bool_decide (c = d) then Some O else option_map S (index_of c l)
  end.

Definition class_of (v : EncryptedValue) : credentialClass := (Table v, Type_ v).
Definition class_index (v : EncryptedValue) : option nat := index_of (class_of v) credentialClasses.

(** ** Counts *)

Definition emptyLifecycleCounts : LifecycleCounts := map (fun s => (s, 0)) lifecycleStatuses.

Fixpoint incrementLifecycleCount (counts : LifecycleCounts) (status : LifecycleStatus) : LifecycleCounts :=
  match counts with
  | [] => []
  | (s, n) :: counts => if bool_decide (s = status) then (s, n + 1) :: counts else (s, n) :: incrementLifecycleCount counts status
  end.

Fixpoint lifecycleCount (counts : LifecycleCounts) (status : LifecycleStatus) : Z :=
  match counts with
  | [] => 0
  | (s, n) :: counts => if bool_decide (s = status) then n else lifecycleCount counts status
  end.

(** ** The life of a value *)

Definition readableLifecycle (verification : CiphertextVerification) (currentKeyID : string) : LifecycleStatus * ReasonCode :=
  if bool_decide (Format verification = CiphertextFormatLegacy) then (LifecycleReadableLegacy, ReasonLegacyCiphertext)
  else if str_eq (V_KeyID verification) currentKeyID then (LifecycleReadableCurrentKey, ReasonCurrentKeyVerified)
  else (LifecycleReadablePreviousKey, ReasonPreviousKeyVerified).

Definition unreadableLifecycle (value : EncryptedValue) (now : Time) : LifecycleStatus * ReasonCode :=
  if str_eq (Type_ value) SecretKindOAuthCodeVerifier
  then match ConsumedAt value with
       | Some _ => (LifecycleUnreadableExpiredPurgeable, ReasonOAuthStateConsumed)
       | None =>
           match ExpiresAt value with
           | None => (LifecycleUnreadableUnknown, ReasonLifecycleUnknown)
           | Some e => if negb (time_after e now) then (LifecycleUnreadableExpiredPurgeable, ReasonOAuthStateExpired)
                       else (LifecycleUnreadableRequired, ReasonOAuthStateActive)
           end
       end
  else (LifecycleUnreadableRequired, ReasonCredentialRequired).

(** ** The order of the report *)

(** The comparison handed to [sort.SliceStable]. *)
Definition value_less (a b : EncryptedValue) : bool :=
  match class_index a, class_index b with
  | Some i, Some j => if bool_decide (i ≠ j) then bool_decide (i < j)%nat else bool_decide (RowID a < RowID b)
  | Some _, None => true
  | None, Some _ => false
  | None, None => bool_decide (RowID a < RowID b)
  end.

Section inventory.
(** AES-GCM, as in [Secrets]. *)
Context (Open : string → list ascii → list ascii → option (list ascii)).
Context (OpenLegacy : string → list ascii → list ascii → option (list ascii)).

Definition value_report (keyring : Keyring) (now : Time) (value : EncryptedValue) : ValueReport :=
  match VerifyStringFor Open OpenLegacy (Some keyring) (Type_ value) (Ciphertext value) with
  | Err _ =>
      let '(status, reason) := unreadableLifecycle value now in
      {| V_Table := Table value; V_CredentialKind := Type_ value; V_RowID := RowID value;
         EnvelopeFormat := InspectCiphertextFormat (Ciphertext value); AuthenticatedKeyID := "";
         V_LifecycleStatus := status; V_ReasonCode := reason |}
  | Ok verification =>
      let '(status, reason) := readableLifecycle verification (CurrentKeyID (Some keyring)) in
      {| V_Table := Table value; V_CredentialKind := Type_ value; V_RowID := RowID value;
         EnvelopeFormat := Format verification; AuthenticatedKeyID := V_KeyID verification;
         V_LifecycleStatus := status; V_ReasonCode := reason |}
  end.

Definition count_type (status : LifecycleStatus) (t : TypeReport) : TypeReport :=
  {| T_Table := T_Table t; T_CredentialKind := T_CredentialKind t; T_Count := T_Count t + 1;
     T_LifecycleCounts := incrementLifecycleCount (T_LifecycleCounts t) status |}.

Definition add_value (i : nat) (r : ValueReport) (report : Report) : Report :=
  {| R_Status := R_Status report; R_Count := R_Count report + 1;
     R_LifecycleCounts := incrementLifecycleCount (R_LifecycleCounts report) (V_LifecycleStatus r);
     Types := alter (count_type (V_LifecycleStatus r)) i (Types report); Values := Values report ++ [r] |}.

Fixpoint verify_each (keyring : Keyring) (now : Time) (values : list EncryptedValue) (report : Report) : result string Report :=
  match values with
  | [] => Ok report
  | value :: values =>
      if str_eq (Ciphertext value) "" then verify_each keyring now values report
      else match class_index value with
           | None => Err "encrypted credential inventory row is invalid"
           | Some i =>
               if bool_decide (RowID value ≤ 0) then Err "encrypted credential inventory row is invalid"
               else verify_each keyring now values (add_value i (value_report keyring now value) report)
           end
  end.

Definition empty_report : Report :=
  {| R_Status := StatusOK; R_Count := 0; R_LifecycleCounts := emptyLifecycleCounts;
     Types := map (fun c => {| T_Table := c.1; T_CredentialKind := c.2; T_Count := 0; T_LifecycleCounts := emptyLifecycleCounts |}) credentialClasses;
     Values := [] |}.

Definition final_status (counts : LifecycleCounts) : InventoryStatus :=
  if bool_decide (0 < lifecycleCount counts LifecycleUnreadableRequired) || bool_decide (0 < lifecycleCount counts LifecycleUnreadableUnknown)
  then StatusFailed
  else if bool_decide (0 < lifecycleCount counts LifecycleUnreadableExpiredPurgeable) then StatusAttention
  else StatusOK.

(** [repo] and [keyring] may be nil; [None] inside is a listing that fails. *)
Definition VerifyAt (repo : option (option (list EncryptedValue))) (keyring : option Keyring) (now : Time) : result string Report :=
  match repo, keyring with
  | Some values, Some keyring =>
      match values with
      | None => Err "list encrypted credential inventory failed"
      | Some values =>
          let? report := verify_each keyring now (SliceStable value_less values) empty_report in
          Ok {| R_Status := final_status (R_LifecycleCounts report); R_Count := R_Count report;
                R_LifecycleCounts := R_LifecycleCounts report; Types := Types report; Values := Values report |}
      end
  | _, _ => Err "encrypted credential inventory is not configured"
  end.

(** ** The gate *)

Inductive GateStatus := StatusReady | StatusBlocked | StatusContended.
Inductive CheckStatus := CheckPassed | CheckFailed | CheckNotChecked.
Inductive CheckName :=
| CheckCurrentKeyConfigured | CheckPreviousKeyringConfigured | CheckBackupConfirmationValid
| CheckExclusiveLockAcquired | CheckInventoryDryRunConfirmed | CheckRequiredSecretsReadable.
Inductive Reason :=
| ReasonCurrentKeyExplicit | ReasonCurrentKeyNotExplicit | ReasonPreviousKeyringConfigured | ReasonPreviousKeyringMissing
| ReasonBackupConfirmationValid | ReasonBackupIdentifierInvalid | ReasonBackupTimeInvalid | ReasonBackupConfirmationStale
| ReasonExclusiveLockAcquired | ReasonExclusiveLockContended | ReasonInventoryConfirmed | ReasonInventoryBlocking
| ReasonRequiredSecretsReadable | ReasonRequiredSecretsUnreadable | ReasonNotChecked.

#[global] Instance CheckStatus_eq_dec : EqDecision CheckStatus.
Proof. solve_decision. Defined.
#[global] Instance CheckName_eq_dec : EqDecision CheckName.
Proof. solve_decision. Defined.

Definition MaxBackupConfirmationAge : Duration := 24 * Hour.
Definition maxBackupIdentifierBytes : Z := 128.

Record Options := {
  CurrentKeyExplicit : bool; O_PreviousKeyCount : Z; O_BackupIdentifier : string; O_BackupCreatedAt : Time; O_BackupRestoredAt : Time
}.

Record GateCheck := { Name : CheckName; C_Status : CheckStatus; C_ReasonCode : Reason }.

Record Result := {
  G_Status : GateStatus; DryRun : bool; CheckedAt : Time; BackupIdentifier : string; BackupCreatedAt : Time; BackupRestoredAt : Time;
  MaxBackupAgeHours : Z; G_InventoryStatus : option InventoryStatus; RequiredUnreadableCount : Z; UnknownUnreadableCount : Z;
  PurgeableUnreadableCount : Z; Checks : list GateCheck
}.

Definition checkCurrentKey (explicit : bool) : GateCheck :=
  if explicit then {| Name := CheckCurrentKeyConfigured; C_Status := CheckPassed; C_ReasonCode := ReasonCurrentKeyExplicit |}
  else {| Name := CheckCurrentKeyConfigured; C_Status := CheckFailed; C_ReasonCode := ReasonCurrentKeyNotExplicit |}.

Definition checkPreviousKeyring (configured actual : Z) : GateCheck :=
  if bool_decide (0 < configured) && bool_decide (configured = actual)
  then {| Name := CheckPreviousKeyringConfigured; C_Status := CheckPassed; C_ReasonCode := ReasonPreviousKeyringConfigured |}
  else {| Name := CheckPreviousKeyringConfigured; C_Status := CheckFailed; C_ReasonCode := ReasonPreviousKeyringMissing |}.

Definition asciiLetterOrDigit (a : ascii) : bool :=
  let b := byte_of a in bool_decide (97 ≤ b ≤ 122) || bool_decide (65 ≤ b ≤ 90) || bool_decide (48 ≤ b ≤ 57).

(** A byte of a longer rune is no letter, digit or one of ["._-"]. *)
Definition identifier_char (a : ascii) : bool :=
  asciiLetterOrDigit a || bool_decide (a = "."%char) || bool_decide (a = "_"%char) || bool_decide (a = "-"%char).

Definition validBackupIdentifier (value : string) : bool :=
  match bytes_of value with
  | [] => false
  | a :: _ =>
      if bool_decide (maxBackupIdentifierBytes < go_len value) || negb (asciiLetterOrDigit a) then false
      else forallb identifier_char (bytes_of value)
  end.

Definition backup_check (status : CheckStatus) (reason : Reason) : GateCheck :=
  {| Name := CheckBackupConfirmationValid; C_Status := status; C_ReasonCode := reason |}.

Definition checkBackupConfirmation (options : Options) (now : Time) : GateCheck :=
  if negb (validBackupIdentifier (O_BackupIdentifier options)) then backup_check CheckFailed ReasonBackupIdentifierInvalid
  else
    let createdAt := O_BackupCreatedAt options in
    let restoredAt := O_BackupRestoredAt options in
    if time_is_zero createdAt || time_is_zero restoredAt || time_after createdAt now || time_after restoredAt now
       || time_before restoredAt createdAt
    then backup_check CheckFailed ReasonBackupTimeInvalid
    else if bool_decide (MaxBackupConfirmationAge < time_sub now createdAt) || bool_decide (MaxBackupConfirmationAge < time_sub now restoredAt)
    then backup_check CheckFailed ReasonBackupConfirmationStale
    else backup_check CheckPassed ReasonBackupConfirmationValid.

Fixpoint setCheck (checks : list GateCheck) (name : CheckName) (status : CheckStatus) (reason : Reason) : list GateCheck :=
  match checks with
  | [] => []
  | c :: checks =>
      if bool_decide (Name c = name) then {| Name := name; C_Status := status; C_ReasonCode := reason |} :: checks
      else c :: setCheck checks name status reason
  end.

Definition allChecksPassed (checks : list GateCheck) : bool := forallb (fun c => bool_decide (C_Status c = CheckPassed)) checks.

Definition with_checks (r : Result) (status : GateStatus) (checks : list GateCheck) : Result :=
  {| G_Status := status; DryRun := DryRun r; CheckedAt := CheckedAt r; BackupIdentifier := BackupIdentifier r;
     BackupCreatedAt := BackupCreatedAt r; BackupRestoredAt := BackupRestoredAt r; MaxBackupAgeHours := MaxBackupAgeHours r;
     G_InventoryStatus := G_InventoryStatus r; RequiredUnreadableCount := RequiredUnreadableCount r;
     UnknownUnreadableCount := UnknownUnreadableCount r; PurgeableUnreadableCount := PurgeableUnreadableCount r; Checks := checks |}.

(** What the repository does: [TryAcquire] fails, is refused, or gives a lease
    with the answers of its listing and of closing it. *)
Inductive acquisition :=
| AcquireFails
| AcquireRefused
| Acquired (listing : option (list EncryptedValue)) (closes : bool).

Inductive gate_error := ErrGateFailed.

Definition blocked (keyring : Keyring) (options : Options) (checkedAt : Time) : Result :=
  {| G_Status := StatusBlocked; DryRun := true; CheckedAt := checkedAt;
     BackupIdentifier := if validBackupIdentifier (O_BackupIdentifier options) then O_BackupIdentifier options else "";
     BackupCreatedAt := O_BackupCreatedAt options; BackupRestoredAt := O_BackupRestoredAt options;
     MaxBackupAgeHours := Z.quot MaxBackupConfirmationAge Hour; G_InventoryStatus := None;
     RequiredUnreadableCount := 0; UnknownUnreadableCount := 0; PurgeableUnreadableCount := 0;
     Checks := [checkCurrentKey (CurrentKeyExplicit options);
                checkPreviousKeyring (O_PreviousKeyCount options) (PreviousKeyCount (Some keyring));
                checkBackupConfirmation options checkedAt;
                {| Name := CheckExclusiveLockAcquired; C_Status := CheckNotChecked; C_ReasonCode := ReasonNotChecked |};
                {| Name := CheckInventoryDryRunConfirmed; C_Status := CheckNotChecked; C_ReasonCode := ReasonNotChecked |};
                {| Name := CheckRequiredSecretsReadable; C_Status := CheckNotChecked; C_ReasonCode := ReasonNotChecked |}] |}.

(** From the inventory to the result. *)
Definition judged (r : Result) (inventory : Report) : Result :=
  let required := lifecycleCount (R_LifecycleCounts inventory) LifecycleUnreadableRequired in
  let checks := Checks r in
  let checks := if bool_decide (R_Status inventory = StatusFailed)
                then setCheck checks CheckInventoryDryRunConfirmed CheckFailed ReasonInventoryBlocking
                else setCheck checks CheckInventoryDryRunConfirmed CheckPassed ReasonInventoryConfirmed in
  let checks := if bool_decide (0 < required)
                then setCheck checks CheckRequiredSecretsReadable CheckFailed ReasonRequiredSecretsUnreadable
                else setCheck checks CheckRequiredSecretsReadable CheckPassed ReasonRequiredSecretsReadable in
  {| G_Status := if allChecksPassed checks then StatusReady else G_Status r; DryRun := DryRun r; CheckedAt := CheckedAt r;
     BackupIdentifier := BackupIdentifier r; BackupCreatedAt := BackupCreatedAt r; BackupRestoredAt := BackupRestoredAt r;
     MaxBackupAgeHours := MaxBackupAgeHours r; G_InventoryStatus := Some (R_Status inventory);
     RequiredUnreadableCount := required;
     UnknownUnreadableCount := lifecycleCount (R_LifecycleCounts inventory) LifecycleUnreadableUnknown;
     PurgeableUnreadableCount := lifecycleCount (R_LifecycleCounts inventory) LifecycleUnreadableExpiredPurgeable;
     Checks := checks |}.

(** [Check] (the name is a command's), and whether it closed a lease. *)
Definition gate_Check (repo : option acquisition) (keyring : option Keyring) (options : Options) (now : Time) : result gate_error Result * bool :=
  match repo, keyring with
  | Some acquisition, Some keyring =>
      let r := blocked keyring options now in
      match acquisition with
      | AcquireFails => (Err ErrGateFailed, false)
      | AcquireRefused =>
          (Ok (with_checks r StatusContended (setCheck (Checks r) CheckExclusiveLockAcquired CheckFailed ReasonExclusiveLockContended)), false)
      | Acquired listing closes =>
          let r := with_checks r (G_Status r) (setCheck (Checks r) CheckExclusiveLockAcquired CheckPassed ReasonExclusiveLockAcquired) in
          (match VerifyAt (Some listing) (Some keyring) now with
           | Err _ => Err ErrGateFailed
           | Ok inventory => if closes then Ok (judged r inventory) else Err ErrGateFailed
           end, true)
      end
  | _, _ => (Err ErrGateFailed, false)
  end.
End inventory.

(** ** The values of the database *)

Record oauth_state := { os_id : Z; encrypted_code_verifier : string; expires_at : Time; consumed_at : option Time }.
Record credential := {
  cr_account_id : Z; encrypted_access_token : string; encrypted_refresh_token : string; encrypted_id_token : string;
  encrypted_api_key : string; encrypted_proxy_url : string
}.
Record secret_row := { sr_id : Z; sr_ciphertext : string }.

Record db := { oauth_states : list oauth_state; credentials : list credential; api_keys : list secret_row; alert_actions : list secret_row }.

Definition nonempty (l : list EncryptedValue) : list EncryptedValue := List.filter (fun v => negb (str_eq (Ciphertext v) "")) l.

Definition credential_values (kind : string) (f : credential → string) (d : db) : list EncryptedValue :=
  nonempty (map (fun c => {| Table := "provider_account_credentials"; Type_ := kind; RowID := cr_account_id c; Ciphertext := f c;
                             ExpiresAt := None; ConsumedAt := None |}) (credentials d)).

Definition secret_values (table kind : string) (l : list secret_row) : list EncryptedValue :=
  nonempty (map (fun r => {| Table := table; Type_ := kind; RowID := sr_id r; Ciphertext := sr_ciphertext r;
                             ExpiresAt := None; ConsumedAt := None |}) l).

(** [ORDER BY class_order, row_id]. *)
Definition by_id (l : list EncryptedValue) : list EncryptedValue := SliceStable (fun a b => bool_decide (RowID a < RowID b)) l.

Definition listEncryptedValues (d : db) : list EncryptedValue :=
  by_id (nonempty (map (fun s => {| Table := "oauth_states"; Type_ := SecretKindOAuthCodeVerifier; RowID := os_id s;
                                    Ciphertext := encrypted_code_verifier s; ExpiresAt := Some (expires_at s); ConsumedAt := consumed_at s |})
                       (oauth_states d)))
  ++ by_id (credential_values SecretKindOAuthAccessToken encrypted_access_token d)
  ++ by_id (credential_values SecretKindOAuthRefreshToken encrypted_refresh_token d)
  ++ by_id (credential_values SecretKindOAuthIDToken encrypted_id_token d)
  ++ by_id (credential_values SecretKindProviderAPIKey encrypted_api_key d)
  ++ by_id (credential_values SecretKindProviderProxyURL encrypted_proxy_url d)
  ++ by_id (secret_values "client_api_keys" SecretKindClientAPIKey (api_keys d))
  ++ by_id (secret_values "alert_actions" SecretKindAlertActionDestination (alert_actions d)).
End KeyInventory.

(** * The inventory of encrypted values and the gate: theorems

    The report counts every value once, by its class and by its life; a gate that
    says ready has seen that everything still needed can be read; and when all
    values are under the current key, the previous keys can be removed. *)

Module KeyInventoryThms.
Import Base64 Secrets SecretsThms KeyInventory.

(** ** Counting *)

Lemma increment_count counts s t :
  s ∈ map fst counts → lifecycleCount (incrementLifecycleCount counts s) t = lifecycleCount counts t + Z.b2z (bool_decide (s = t)).
Proof.
  induction counts as [|[u n] counts IH]; cbn; [by intros ?%elem_of_nil|]. intros Hs.
  destruct (decide (u = s)) as [->|Hu].
  - rewrite (bool_decide_eq_true_2 (s = s)) by done. cbn. destruct (decide (s = t)) as [->|Hne].
    + rewrite !bool_decide_eq_true_2 by done. cbn. lia.
    + rewrite !(bool_decide_eq_false_2 (s = t)) by done. cbn. lia.
  - rewrite (bool_decide_eq_false_2 (u = s)) by done. cbn. apply elem_of_cons in Hs as [->|Hs]; [done|]. destruct (decide (u = t)) as [->|Hne].
    + rewrite !(bool_decide_eq_true_2 (t = t)) by done. rewrite (bool_decide_eq_false_2 (s = t)) by done. cbn. lia.
    + rewrite !(bool_decide_eq_false_2 (u = t)) by done. by apply IH.
Qed.

Lemma increment_keys counts s : map fst (incrementLifecycleCount counts s) = map fst counts.
Proof. induction counts as [|[u n] counts IH]; cbn; [done|]. case_bool_decide; [done|]. cbn. by rewrite IH. Qed.

Lemma all_statuses s : s ∈ lifecycleStatuses.
Proof. destruct s; unfold lifecycleStatuses; set_solver. Qed.

Lemma empty_keys : map fst emptyLifecycleCounts = lifecycleStatuses.
Proof. reflexivity. Qed.
Lemma empty_count s : lifecycleCount emptyLifecycleCounts s = 0.
Proof. by destruct s. Qed.

Section inventory.
Context (Open : string → list ascii → list ascii → option (list ascii)).
Context (OpenLegacy : string → list ascii → list ascii → option (list ascii)).

Abbreviation verify := (VerifyStringFor Open OpenLegacy).
Abbreviation report_of := (value_report Open OpenLegacy).

Definition has_status (s : LifecycleStatus) (r : ValueReport) : bool := bool_decide (V_LifecycleStatus r = s).
Definition of_class (c : credentialClass) (r : ValueReport) : bool := bool_decide ((V_Table r, V_CredentialKind r) = c).

(** What a report says of the values it has seen. *)
Record tallied (report : Report) : Prop := {
  t_count : R_Count report = Z.of_nat (length (Values report));
  t_keys : map fst (R_LifecycleCounts report) = lifecycleStatuses;
  t_lives : ∀ s, lifecycleCount (R_LifecycleCounts report) s = countZ (has_status s) (Values report);
  t_types : map (fun t => (T_Table t, T_CredentialKind t)) (Types report) = credentialClasses;
  t_each : ∀ j t, Types report !! j = Some t →
    let l := List.filter (of_class (T_Table t, T_CredentialKind t)) (Values report) in
    T_Count t = Z.of_nat (length l) ∧ map fst (T_LifecycleCounts t) = lifecycleStatuses
    ∧ ∀ s, lifecycleCount (T_LifecycleCounts t) s = countZ (has_status s) l
}.

Lemma index_of_spec c l i : index_of c l = Some i → l !! i = Some c.
Proof.
  revert i. induction l as [|d l IH]; intros i; cbn; [done|]. case_bool_decide as E; [by intros [= <-]; subst|].
  destruct (index_of c l) as [j|]; [|done]. cbn. intros [= <-]. by apply IH.
Qed.

Lemma tallied_empty : tallied empty_report.
Proof.
  assert (∀ s, lifecycleCount emptyLifecycleCounts s = countZ (has_status s) []) as Hz by (intros s; rewrite empty_count; unfold countZ; by rewrite sumZ_nil).
  constructor; [done|reflexivity|exact Hz|reflexivity|]. intros j t. cbn [Types empty_report Values List.filter].
  rewrite list_lookup_fmap. intros (c & _ & ->)%fmap_Some. cbn. split; [done|]. split; [reflexivity|exact Hz].
Qed.

Lemma types_lookup report j t : tallied report → Types report !! j = Some t → credentialClasses !! j = Some (T_Table t, T_CredentialKind t).
Proof. intros [_ _ _ Ht _] Hj. rewrite <- Ht. rewrite list_lookup_fmap, Hj. done. Qed.

Lemma classes_unique : NoDup credentialClasses.
Proof. apply (bool_decide_unpack _). vm_compute. exact I. Qed.

Lemma tallied_add report i r :
  tallied report → credentialClasses !! i = Some (V_Table r, V_CredentialKind r) → tallied (add_value i r report).
Proof.
  intros Ht Hi. pose proof Ht as [H1 H2 H3 H4 H5]. constructor; unfold add_value; cbn [R_Count Values R_LifecycleCounts Types].
  - rewrite length_app, H1. cbn. lia.
  - by rewrite increment_keys.
  - intros s. rewrite increment_count, countZ_snoc, H3; [done|]. rewrite H2. apply all_statuses.
  - rewrite <- H4. apply list_eq. intros j. rewrite !list_lookup_fmap. destruct (decide (i = j)) as [<-|Hne].
    + rewrite list_lookup_alter_eq. by destruct (Types report !! i).
    + by rewrite list_lookup_alter_ne.
  - intros j t. destruct (decide (i = j)) as [<-|Hne].
    + rewrite list_lookup_alter_eq. destruct (Types report !! i) as [t0|] eqn:E0; [|done]. cbn. intros [= <-]. cbn.
      pose proof (types_lookup _ _ _ Ht E0) as Hc. rewrite Hi in Hc. injection Hc as Hc1 Hc2.
      destruct (H5 _ _ E0) as (Hcount & Hkeys & Hlives). rewrite List.filter_app. cbn [List.filter].
      assert (of_class (T_Table t0, T_CredentialKind t0) r = true) as -> by (apply bool_decide_eq_true; by rewrite Hc1, Hc2). split; [rewrite length_app, Hcount; cbn; lia|].
      split; [by rewrite increment_keys|]. intros s. rewrite increment_count, countZ_snoc, Hlives; [done|]. rewrite Hkeys. apply all_statuses.
    + rewrite list_lookup_alter_ne by done. intros Hj. pose proof (types_lookup _ _ _ Ht Hj) as Hc.
      rewrite List.filter_app. cbn [List.filter]. destruct (of_class (T_Table t, T_CredentialKind t) r) eqn:E; [exfalso|].
      * apply bool_decide_eq_true in E. apply Hne. rewrite <- E in Hc. exact (NoDup_lookup _ _ _ _ classes_unique Hi Hc).
      * rewrite app_nil_r. by apply (H5 j).
Qed.

Lemma report_class k now v : (V_Table (report_of k now v), V_CredentialKind (report_of k now v)) = class_of v.
Proof.
  unfold value_report. destruct (VerifyStringFor _ _ _ _ _); [destruct (readableLifecycle _ _)|destruct (unreadableLifecycle _ _)]; done.
Qed.

Lemma verify_each_spec k now values report report' :
  tallied report → verify_each Open OpenLegacy k now values report = Ok report' →
  tallied report' ∧ R_Status report' = R_Status report
  ∧ Values report' = Values report ++ map (report_of k now) (nonempty values)
  ∧ Forall (fun v => class_of v ∈ credentialClasses ∧ 0 < RowID v) (nonempty values).
Proof.
  revert report. induction values as [|v values IH]; intros report Ht; cbn [verify_each].
  { intros [= <-]. split; [done|]. split; [done|]. split; [by rewrite app_nil_r|constructor]. }
  unfold nonempty. cbn [List.filter]. fold (nonempty values). destruct (str_eq (Ciphertext v) "") eqn:Ec; cbn [negb]; [by apply IH|].
  destruct (class_index v) as [i|] eqn:Ei; [|done]. case_bool_decide as Hid; [done|]. apply index_of_spec in Ei.
  intros (Ht' & Hs & Hv & Hall)%IH; [|apply tallied_add; [done|by rewrite report_class]].
  split; [done|]. split; [by rewrite Hs|]. split; [rewrite Hv; cbn; by rewrite <- app_assoc|]. constructor; [|done]. split; [|lia].
  by apply list_elem_of_lookup_2 in Ei.
Qed.

Lemma nonempty_perm l k : l ≡ₚ k → nonempty l ≡ₚ nonempty k.
Proof. unfold nonempty. induction 1; cbn; repeat case_match; try done; [by constructor|by constructor|by etrans]. Qed.

(** A value that cannot be read although it is needed, or may be. *)
Definition unreadable (k : Keyring) (v : EncryptedValue) : bool :=
  match verify (Some k) (Type_ v) (Ciphertext v) with Err _ => true | Ok _ => false end.
Definition purgeable (now : Time) (v : EncryptedValue) : bool :=
  bool_decide ((unreadableLifecycle v now).1 = LifecycleUnreadableExpiredPurgeable).
Definition lost (k : Keyring) (now : Time) (v : EncryptedValue) : bool := unreadable k v && negb (purgeable now v).

Lemma status_of k now v :
  V_LifecycleStatus (report_of k now v) =
  match verify (Some k) (Type_ v) (Ciphertext v) with
  | Ok x => (readableLifecycle x (CurrentKeyID (Some k))).1 | Err _ => (unreadableLifecycle v now).1 end.
Proof.
  unfold value_report. destruct (VerifyStringFor _ _ _ _ _); [by destruct (readableLifecycle _ _)|by destruct (unreadableLifecycle _ _)].
Qed.

Lemma lost_iff k now v :
  lost k now v = true ↔
  V_LifecycleStatus (report_of k now v) = LifecycleUnreadableRequired ∨ V_LifecycleStatus (report_of k now v) = LifecycleUnreadableUnknown.
Proof.
  rewrite status_of. unfold lost, unreadable, purgeable. destruct (VerifyStringFor _ _ _ _ _) as [x|e].
  - cbn. unfold readableLifecycle. split; [done|]. by repeat case_match; intros [?|?].
  - cbn. rewrite negb_true_iff, bool_decide_eq_false. unfold unreadableLifecycle. repeat case_match; cbn; naive_solver.
Qed.

(** ** The report *)

Lemma unreadable_iff k now v :
  unreadable k v = true ↔ V_LifecycleStatus (report_of k now v) ∈ [LifecycleUnreadableRequired; LifecycleUnreadableUnknown; LifecycleUnreadableExpiredPurgeable].
Proof.
  rewrite status_of. unfold unreadable. destruct (VerifyStringFor _ _ _ _ _) as [x|e]; split; try done.
  - unfold readableLifecycle. repeat case_match; cbn; set_solver.
  - intros _. unfold unreadableLifecycle. repeat case_match; cbn; set_solver.
Qed.

Lemma nonempty_id l : nonempty (nonempty l) = nonempty l.
Proof.
  apply filter_Forall_id, Forall_forall. intros v Hv. by apply list_elem_of_In, filter_In in Hv as [_ ?].
Qed.

Lemma VerifyAt_spec values k now report :
  VerifyAt Open OpenLegacy (Some (Some values)) (Some k) now = Ok report →
  tallied report ∧ R_Status report = final_status (R_LifecycleCounts report)
  ∧ Values report ≡ₚ map (report_of k now) (nonempty values)
  ∧ Forall (fun v => class_of v ∈ credentialClasses) (nonempty values).
Proof.
  cbn [VerifyAt]. destruct (verify_each _ _ _ _ _ _) as [r|] eqn:E; [|done]. cbn [result_bind]. intros [= <-].
  apply verify_each_spec in E as ([H1 H2 H3 H4 H5] & Hs & Hv & Hall); [|apply tallied_empty]. split; [by constructor|]. split; [done|]. cbn [Values].
  pose proof (nonempty_perm _ _ (SliceStable_perm value_less values)) as Hp. split; [rewrite Hv; cbn; by rewrite Hp|].
  rewrite <- Hp. eapply Forall_impl; [exact Hall|]. by intros v [? _].
Qed.

Lemma count_life report values k now s :
  tallied report → Values report ≡ₚ map (report_of k now) (nonempty values) →
  0 < lifecycleCount (R_LifecycleCounts report) s ↔ ∃ v, v ∈ values ∧ Ciphertext v ≠ "" ∧ V_LifecycleStatus (report_of k now v) = s.
Proof.
  intros [_ _ Hl _ _] Hv. rewrite Hl, countZ_pos. split.
  - intros (r & Hr & Hs). rewrite Hv in Hr. apply list_elem_of_fmap in Hr as (v & -> & Hin). apply list_elem_of_In, filter_In in Hin as [Hin Hne].
    exists v. split; [by apply list_elem_of_In|]. split; [|by apply bool_decide_eq_true in Hs]. intros E. by rewrite E in Hne.
  - intros (v & Hin & Hne & Hs). exists (report_of k now v). split; [|by apply bool_decide_eq_true]. rewrite Hv. apply list_elem_of_fmap_2.
    apply list_elem_of_In, filter_In. split; [by apply list_elem_of_In|]. apply negb_true_iff, bool_decide_eq_false. done.
Qed.

Lemma failed_iff report values k now :
  tallied report → Values report ≡ₚ map (report_of k now) (nonempty values) →
  final_status (R_LifecycleCounts report) = StatusFailed ↔ ∃ v, v ∈ values ∧ Ciphertext v ≠ "" ∧ lost k now v = true.
Proof.
  intros Ht Hv. setoid_rewrite lost_iff. pose proof (fun s => count_life _ _ _ _ s Ht Hv) as Hc. unfold final_status.
  transitivity (0 < lifecycleCount (R_LifecycleCounts report) LifecycleUnreadableRequired ∨ 0 < lifecycleCount (R_LifecycleCounts report) LifecycleUnreadableUnknown).
  - destruct (_ || _) eqn:E.
    + rewrite orb_true_iff, !bool_decide_eq_true in E. tauto.
    + rewrite orb_false_iff, !bool_decide_eq_false in E. case_bool_decide; (split; [done|tauto]).
  - rewrite !Hc. naive_solver.
Qed.

Lemma class_sum (cs : list credentialClass) (l : list ValueReport) :
  NoDup cs → Forall (fun r => (V_Table r, V_CredentialKind r) ∈ cs) l →
  sumZ (fun c => Z.of_nat (length (List.filter (of_class c) l))) cs = Z.of_nat (length l).
Proof.
  intros Hn. induction 1 as [|r l Hr _ IH]; cbn [List.filter length].
  { clear Hn. induction cs as [|c cs IH]; [by rewrite sumZ_nil|]. rewrite sumZ_cons, IH. cbn. lia. }
  rewrite Nat2Z.inj_succ, <- IH. clear IH. induction Hn as [|c cs Hc Hn IH]; [by apply elem_of_nil in Hr|]. rewrite !sumZ_cons.
  destruct (of_class c r) eqn:E; unfold of_class in E; [apply bool_decide_eq_true in E|apply bool_decide_eq_false in E].
  - cbn [length]. assert (sumZ (fun c => Z.of_nat (length (if of_class c r then r :: List.filter (of_class c) l else List.filter (of_class c) l))) cs
      = sumZ (fun c => Z.of_nat (length (List.filter (of_class c) l))) cs) as ->; [|lia].
    apply sumZ_ext. intros d Hd. destruct (of_class d r) eqn:E'; [|done]. apply bool_decide_eq_true in E'. congruence.
  - apply elem_of_cons in Hr as [Hr|Hr]; [done|]. specialize (IH Hr). lia.
Qed.

(** ** The values of the database *)

Definition listable (v : EncryptedValue) : Prop := class_of v ∈ credentialClasses ∧ 0 < RowID v ∧ Ciphertext v ≠ "".

Lemma index_of_total c l : c ∈ l → is_Some (index_of c l).
Proof.
  induction l as [|d l IH]; [by intros ?%elem_of_nil|]. cbn. case_bool_decide; [by eexists|]. intros [->|Hc]%elem_of_cons; [done|].
  destruct (IH Hc) as [i ->]. by eexists.
Qed.

Lemma verify_each_total k now values report : Forall listable values → ∃ r, verify_each Open OpenLegacy k now values report = Ok r.
Proof.
  intros Hall. revert report. induction Hall as [|v values (Hc & Hid & Hne) _ IH]; intros report; cbn [verify_each]; [by eexists|].
  assert (str_eq (Ciphertext v) "" = false) as -> by by apply bool_decide_eq_false. unfold class_index.
  destruct (index_of_total _ _ Hc) as [i ->]. rewrite bool_decide_eq_false_2 by lia. apply IH.
Qed.

(** The ids of the tables. *)
Record positive_ids (d : db) : Prop := {
  p_states : Forall (fun s => 0 < os_id s) (oauth_states d);
  p_credentials : Forall (fun c => 0 < cr_account_id c) (credentials d);
  p_keys : Forall (fun r => 0 < sr_id r) (api_keys d);
  p_actions : Forall (fun r => 0 < sr_id r) (alert_actions d)
}.

Lemma listable_by_id {A} (f : A → EncryptedValue) (P : A → Prop) l c :
  Forall P l → (∀ x, P x → 0 < RowID (f x)) → (∀ x, class_of (f x) = c) → c ∈ credentialClasses → Forall listable (by_id (nonempty (map f l))).
Proof.
  intros Hl Hid Hc Hin. unfold by_id. apply Forall_forall. intros v Hv. rewrite SliceStable_perm in Hv.
  apply list_elem_of_In, filter_In in Hv as [Hv Hne]. apply list_elem_of_In, list_elem_of_fmap in Hv as (x & -> & Hx).
  rewrite Forall_forall in Hl. split; [by rewrite Hc|]. split; [by apply Hid, Hl|]. apply negb_true_iff, bool_decide_eq_false in Hne. done.
Qed.

Lemma listed d : positive_ids d → Forall listable (listEncryptedValues d).
Proof.
  intros [H1 H2 H3 H4]. unfold listEncryptedValues, credential_values, secret_values.
  repeat apply Forall_app_2; (eapply listable_by_id; [eassumption|intros x Hx; exact Hx|intros x; unfold class_of; cbn; reflexivity|unfold credentialClasses; set_solver]).
Qed.


(** ** The gate *)

Abbreviation check := (gate_Check Open OpenLegacy).

(** The backup was restored after it was taken, both within a day. *)
Definition backup_confirmed (o : Options) (now : Time) : Prop :=
  validBackupIdentifier (O_BackupIdentifier o) = true ∧ O_BackupCreatedAt o ≠ 0 ∧ O_BackupRestoredAt o ≠ 0
  ∧ O_BackupCreatedAt o ≤ O_BackupRestoredAt o ≤ now ∧ now - O_BackupCreatedAt o ≤ 24 * Hour.

Lemma backup_passed o now : C_Status (checkBackupConfirmation o now) = CheckPassed ↔ backup_confirmed o now.
Proof.
  unfold checkBackupConfirmation, backup_confirmed. destruct (validBackupIdentifier _); cbn [negb]; [|by cbn; split; [|by intros [? _]]].
  unfold time_is_zero, time_after, time_before. destruct (_ || _ || _ || _ || _) eqn:E.
  - rewrite !orb_true_iff, !bool_decide_eq_true in E. cbn. split; [done|]. intros (_ & ? & ? & ? & _). lia.
  - rewrite !orb_false_iff, !bool_decide_eq_false in E. unfold MaxBackupConfirmationAge, time_sub.
    assert (0 < 24 * Hour < int64_max) as Hd by (vm_compute; split; reflexivity). assert (int64_min < 0) by (vm_compute; reflexivity).
    destruct (_ || _) eqn:E'; cbn.
    + rewrite orb_true_iff, !bool_decide_eq_true in E'. split; [done|]. lia.
    + rewrite orb_false_iff, !bool_decide_eq_false in E'. split; [|done]. intros _. split; [done|]. lia.
Qed.

Lemma judged_ready k o now report :
  G_Status (judged (with_checks (blocked k o now) (G_Status (blocked k o now))
    (setCheck (Checks (blocked k o now)) CheckExclusiveLockAcquired CheckPassed ReasonExclusiveLockAcquired)) report) = StatusReady
  ↔ CurrentKeyExplicit o = true ∧ (0 < O_PreviousKeyCount o ∧ O_PreviousKeyCount o = PreviousKeyCount (Some k)) ∧ backup_confirmed o now
    ∧ R_Status report ≠ StatusFailed ∧ lifecycleCount (R_LifecycleCounts report) LifecycleUnreadableRequired ≤ 0.
Proof.
  rewrite <- backup_passed. unfold judged, blocked, with_checks, checkCurrentKey, checkPreviousKeyring. cbn [G_Status Checks].
  assert (Name (checkBackupConfirmation o now) = CheckBackupConfirmationValid) as Hb.
  { unfold checkBackupConfirmation. by repeat case_match. }
  destruct (checkBackupConfirmation o now) as [n st re]. cbn [Name C_Status] in *. subst n.
  set (b1 := CurrentKeyExplicit o). set (b2 := _ && _). set (b3 := bool_decide (R_Status report = StatusFailed)).
  set (b4 := bool_decide (0 < lifecycleCount _ _)).
  transitivity (b1 = true ∧ b2 = true ∧ st = CheckPassed ∧ b3 = false ∧ b4 = false).
  - clearbody b1 b2 b3 b4. destruct b1, b2, b3, b4, st; cbn; (split; [by intros HH|by intros (? & ? & ? & ? & ?)]).
  - subst b2 b3 b4. rewrite andb_true_iff, !bool_decide_eq_true, !bool_decide_eq_false. split; intros (? & ? & ? & ? & ?); split_and!; done || lia || tauto.
Qed.


(** ** Removing the previous keys *)

Lemma current_envelope cur previous k k' kind encoded x :
  NewKeyring cur previous = Ok k → NewKeyring cur [] = Ok k' →
  decryptBytesFor Open OpenLegacy (Some k) kind encoded = Ok x →
  Format x.2 ≠ CiphertextFormatLegacy → V_KeyID x.2 = Key_ID cur →
  decryptBytesFor Open OpenLegacy (Some k') kind encoded = Ok x.
Proof.
  intros (_ & _ & Hk & Hn & _)%NewKeyring_spec (_ & _ & Hk' & _)%NewKeyring_spec. unfold decryptBytesFor.
  destruct (validSecretKind kind); [|done]. destruct (HasPrefix _ _).
  2:{ unfold decryptLegacy. destruct (DecodeString _ _) as [payload|]; [|done]. intros Ht Hf. exfalso. apply Hf.
      revert Ht. induction (legacyKeys k) as [|key keys IH]; cbn; [done|]. case_bool_decide; [done|].
      destruct (OpenLegacy _ _ _); [by intros [= <-]|apply IH]. }
  unfold decryptEnvelope. destruct (SplitN encoded ":" 5) as [|a [|b [|c [|d [|t [|? ?]]]]]]; try done.
  destruct (str_eq a _); [|done]. destruct (str_eq b _); [|done]. destruct (validEncryptionKeyID c); [|done]. cbn [negb].
  destruct (byID k !! c) as [key|] eqn:E; [|done]. intros H Hf Hid.
  assert (V_KeyID x.2 = Key_ID key) as Hkey.
  { revert H. destruct (validSecretKind d); [|done]. destruct (str_eq d kind); [|done]. cbn [negb]. destruct (DecodeString _ _); [|done].
    case_bool_decide; [done|]. destruct (Open _ _ _); [|done]. by intros [= <-]. }
  apply Hk in E as [Hin Hc]. rewrite Hid in Hkey. assert (key = cur) as ->.
  { apply list_elem_of_lookup in Hin as [i Hi]. assert (i = 0%nat) as ->; [|by injection Hi].
    apply (NoDup_lookup _ _ _ (Key_ID cur) Hn); [|done]. rewrite list_lookup_fmap, Hi. cbn. by rewrite Hkey. }
  assert (byID k' !! c = Some cur) as ->; [|done]. apply Hk'. split; [by left|done].
Qed.

(** When the inventory has found nothing under a previous key, nothing legacy
    and nothing lost, the previous keys can be removed: with the current key alone
    every value that could be read reads the same. *)
Theorem previous_keys_removable cur previous k k' values now report :
  NewKeyring cur previous = Ok k → NewKeyring cur [] = Ok k' →
  VerifyAt Open OpenLegacy (Some (Some values)) (Some k) now = Ok report →
  lifecycleCount (R_LifecycleCounts report) LifecycleReadablePreviousKey = 0 →
  lifecycleCount (R_LifecycleCounts report) LifecycleReadableLegacy = 0 →
  R_Status report ≠ StatusFailed →
  ∀ v, v ∈ values → Ciphertext v ≠ "" →
    purgeable now v = true
    ∨ ∃ text, DecryptStringFor Open OpenLegacy (Some k) (Type_ v) (Ciphertext v) = Ok text
              ∧ DecryptStringFor Open OpenLegacy (Some k') (Type_ v) (Ciphertext v) = Ok text.
Proof.
  intros Hk Hk' (Ht & Hs & Hv & _)%VerifyAt_spec Hp Hl Hf v Hin Hne. pose proof (fun s => count_life _ _ _ _ s Ht Hv) as Hc.
  assert (∀ s, lifecycleCount (R_LifecycleCounts report) s = 0 → V_LifecycleStatus (report_of k now v) ≠ s) as Hno.
  { intros s Hz E. assert (0 < lifecycleCount (R_LifecycleCounts report) s); [|lia]. apply Hc. eauto. }
  destruct (lost k now v) eqn:El; [exfalso; rewrite Hs in Hf; apply Hf, (failed_iff _ _ _ _ Ht Hv); eauto|].
  unfold lost, unreadable in El. unfold VerifyStringFor in El. pose proof (Hno _ Hp) as H1. pose proof (Hno _ Hl) as H2. rewrite status_of in H1, H2.
  unfold VerifyStringFor in H1, H2. destruct (decryptBytesFor _ _ (Some k) _ _) as [x|] eqn:E; cbn [result_bind] in *.
  - right. exists (string_of x.1). unfold DecryptStringFor. rewrite E. split; [done|]. rewrite (current_envelope cur previous k k' _ _ x); [done|done..| |].
    + intros Hx. unfold readableLifecycle in H2. rewrite bool_decide_eq_true_2 in H2 by done. done.
    + unfold readableLifecycle in H1, H2. destruct (bool_decide (Format x.2 = _)); [done|]. destruct (str_eq _ _) eqn:Eq; [|done].
      apply bool_decide_eq_true in Eq. rewrite Eq. cbn. apply NewKeyring_spec in Hk as (-> & _). done.
  - left. destruct (purgeable now v); [done|done].
Qed.
End inventory.

(** ** A rotation

    A refresh token is sealed under the old key; the ring has the new key first.
    The verifier of an OAuth state that has expired is under no known key. *)
Module Demo.
Import SecretsThms.Demo.

Definition both : Keyring := ring key_2024 [key_2023].
Definition only : Keyring := ring key_2024 [].
Definition sealed_2024 : string :=
  match EncryptStringFor seal (Some both) [] SecretKindOAuthRefreshToken "r1" with Ok s => s | Err _ => "" end.

Definition tables (token : string) : db :=
  {| oauth_states := [{| os_id := 1; encrypted_code_verifier := "n2api:v1:gone:oauth-code-verifier:AAAA"; expires_at := 5; consumed_at := None |}];
     credentials := [{| cr_account_id := 4; encrypted_access_token := ""; encrypted_refresh_token := token; encrypted_id_token := "";
                        encrypted_api_key := ""; encrypted_proxy_url := "" |}];
     api_keys := []; alert_actions := [] |}.


Definition options : Options :=
  {| CurrentKeyExplicit := true; O_PreviousKeyCount := 1; O_BackupIdentifier := "backup-1"; O_BackupCreatedAt := 6; O_BackupRestoredAt := 8 |}.

Definition answer : result gate_error Result * bool :=
  gate_Check open open_legacy (Some (Acquired (Some (listEncryptedValues (tables sealed_2023))) true)) (Some both) options 10.
Definition result_of : Result := match answer.1 with Ok r => r | Err _ => blocked both options 10 end.


Definition report_2024 : Report :=
  match VerifyAt open open_legacy (Some (Some (listEncryptedValues (tables sealed_2024)))) (Some both) 10 with Ok r => r | Err _ => empty_report end.

Definition token : EncryptedValue :=
  {| Table := "provider_account_credentials"; Type_ := SecretKindOAuthRefreshToken; RowID := 4; Ciphertext := sealed_2024;
     ExpiresAt := None; ConsumedAt := None |}.

Lemma previous_keys_removable_demo :
  ∃ text, DecryptStringFor open open_legacy (Some both) SecretKindOAuthRefreshToken sealed_2024 = Ok text
          ∧ DecryptStringFor open open_legacy (Some only) SecretKindOAuthRefreshToken sealed_2024 = Ok text.
Proof.
  destruct (previous_keys_removable open open_legacy key_2024 [key_2023] both only (listEncryptedValues (tables sealed_2024)) 10 report_2024) with (v := token)
    as [Hp|H]; [vm_compute; reflexivity..|vm_compute; discriminate| |vm_compute; discriminate| |exact H].
  - apply (list_elem_of_lookup_2 _ 1). vm_compute. reflexivity.
  - vm_compute in Hp. discriminate.
Defined.
End Demo.
End KeyInventoryThms.
