(* ===== verification/Retention.v ===== *)
(** * Retention of request logs

    [RunRequestLogRetention], [CleanupRequestLogs] and the statistics of
    [admin/service.go], the batches of [store/admin.go], and the background task of
    [admin/request_log_retention_runner.go].  Logs are deleted in batches, the
    oldest first, while new ones arrive. *)

From stdpp Require Import sorting.
From S2P Require Import Prelude GoStrings Ledger Json AdminBase SettingsRuntime SystemEvents.
From Stdlib Require Import Ascii.
From Stdlib Require String.

Module Retention.
Import SystemEvents SettingsRuntime.

(** ** Rows and results *)

Record log_row := { log_id : Z; created_at : Time }.

Record RequestLogCleanupResult := { RetentionDays : Z; Deleted : Z; Batches : Z; Before : Time }.

Definition no_result : RequestLogCleanupResult := {| RetentionDays := 0; Deleted := 0; Batches := 0; Before := 0 |}.

Inductive retention_error := ErrInvalidInput | ErrConflict | ErrCanceled | ErrDatabase | ErrSettings.

#[global] Instance retention_error_eq_dec : EqDecision retention_error.
Proof. solve_decision. Defined.

Definition DefaultRequestLogRetentionBatchSize : Z := 1000.

(** [-time.Duration(days) * 24 * time.Hour] *)
Definition retention_offset (days : Z) : Duration := wrap64 (wrap64 (wrap64 (- days) * 24) * Hour).

(** [t.Add(-time.Duration(days) * 24 * time.Hour)] *)
Definition retention_cutoff (t : Time) (days : Z) : Time := t + retention_offset days.

(** ** A batch *)

Definition eligible (before : Time) (r : log_row) : bool := bool_decide (created_at r < before).

Definition candidates (before : Time) (batchSize : Z) (logs : list log_row) : list log_row :=
  take (Z.to_nat batchSize) (merge_sort (Ledger.row_le created_at log_id) (List.filter (eligible before) logs)).

Definition delete_rows (ids : list Z) (logs : list log_row) : list log_row :=
  List.filter (fun r => negb (bool_decide (log_id r ∈ ids))) logs.

(** [fails]: the database does. *)
Definition DeleteBeforeBatch (before : Time) (batchSize : Z) (fails : bool) (logs : list log_row) : result retention_error Z * list log_row :=
  if bool_decide (batchSize < 1) || bool_decide (10000 < batchSize) || time_is_zero before then (Err ErrInvalidInput, logs)
  else if fails then (Err ErrDatabase, logs)
  else let c := map log_id (candidates before batchSize logs) in (Ok (Z.of_nat (length c)), delete_rows c logs).

(** ** The loop *)

(** What happens before a batch: logs arrive, the context may be cancelled, the
    database may fail. *)
Record round := { arrived : list log_row; canceled : bool; fails : bool }.

(** [None] is a loop that has not ended after [fuel] rounds. *)
Fixpoint retention_loop (fuel : nat) (env : nat → round) (i : nat) (batchSize : Z) (result : RequestLogCleanupResult) (logs : list log_row)
  : option (RequestLogCleanupResult * option retention_error * list log_row) :=
  match fuel with
  | O => None
  | S fuel =>
      let logs := (logs ++ arrived (env i))%list in
      if canceled (env i) then Some (result, Some ErrCanceled, logs)
      else match DeleteBeforeBatch (Before result) batchSize (fails (env i)) logs with
           | (Err e, logs) => Some (result, Some e, logs)
           | (Ok deleted, logs) =>
               let result := {| RetentionDays := RetentionDays result; Deleted := Deleted result + deleted;
                                Batches := if bool_decide (0 < deleted) then Batches result + 1 else Batches result;
                                Before := Before result |} in
               if bool_decide (deleted < batchSize) then Some (result, None, logs)
               else retention_loop fuel env (S i) batchSize result logs
           end
  end.

(** [TryAcquireRequestLogRetention] fails, is refused, or gives a lease. *)
Inductive lease_answer := LeaseFails | LeaseRefused | Lease (closes : bool).

(** The result, the logs afterwards, and whether a lease was given back. *)
Definition RunRequestLogRetention (fuel : nat) (env : nat → round) (lease : lease_answer) (retentionDays : Z) (before : Time) (batchSize : Z)
    (logs : list log_row) : option (RequestLogCleanupResult * option retention_error * list log_row * bool) :=
  if bool_decide (retentionDays ≤ 0) || time_is_zero before || bool_decide (batchSize ≤ 0)
  then Some (no_result, Some ErrInvalidInput, logs, false)
  else
    let result := {| RetentionDays := retentionDays; Deleted := 0; Batches := 0; Before := before |} in
    match lease with
    | LeaseFails => Some (result, Some ErrDatabase, logs, false)
    | LeaseRefused => Some (result, Some ErrConflict, logs, false)
    | Lease closes =>
        match retention_loop fuel env 0 batchSize result logs with
        | None => None
        | Some (result, e, logs) =>
            Some (result, match e with None => if closes then None else Some ErrDatabase | Some e => Some e end, logs, true)
        end
    end.

Section events.
(** The encoder of metadata, the format of a time and the random bytes of a
    correlation id. *)
Context (Marshal : entries → option string) (FormatTime : Time → string).

Definition jint (n : Z) : Json.json := Json.JNumber (bool_decide (n < 0)) (Z.abs n) 0.

Definition safe_metadata (values : entries) : metadata :=
  match SafeMetadata Marshal (Some values) ["cutoff"; "retention_days"; "deleted_count"; "batch_count"] with Ok m => m | Err _ => None end.

(** ** Cleaning up by hand *)

Definition recordRequestLogCleanupEvent (request : option RequestContext) (bytes : list ascii) (started now : Time) (result : RequestLogCleanupResult)
    (cleanupErr : option retention_error) : Event :=
  let failed := bool_decide (is_Some cleanupErr) in
  let partial := failed && bool_decide (0 < Deleted result) in
  let target := {| Target_Type := "request_log_collection"; Target_ID := ""; Target_Name := "" |} in
  let intent := {|
    I_Category := CategoryAudit;
    I_Severity := if partial then SeverityWarning else if failed then SeverityError else SeverityInfo;
    I_Action := "request_log.cleanup.completed";
    I_Outcome := if partial then OutcomePartial else if failed then OutcomeFailure else OutcomeSuccess;
    I_Target := target; I_ErrorCode := if failed then "request_log_cleanup_failed" else ""; I_Message := "";
    I_Metadata := safe_metadata [("cutoff", Json.JString (FormatTime (Before result))); ("retention_days", jint (RetentionDays result));
                                 ("deleted_count", jint (Deleted result)); ("batch_count", jint (Batches result))];
    StartedAt := 0 |} in
  BuildEvent request bytes intent target now now (time_sub now started).

(** Settings that cannot be read are [None]; the event is handed to the
    repository, whose answer is ignored.  [started], [s_now] and [finished] are what
    the service's clock says at the start, when a zero [now] is replaced, and when
    the event is built. *)
Definition CleanupRequestLogs (fuel : nat) (env : nat → round) (lease : lease_answer) (settings : option GatewaySettings)
    (request : option RequestContext) (bytes : list ascii) (started s_now finished : Time) (now : Time) (logs : list log_row)
  : option (RequestLogCleanupResult * option retention_error * list log_row * option Event) :=
  match settings with
  | None => Some (no_result, Some ErrSettings, logs, None)
  | Some settings =>
      let days := RequestLogRetentionDays settings in
      if bool_decide (days ≤ 0) then Some (no_result, Some ErrInvalidInput, logs, None)
      else
        let now := if time_is_zero now then s_now else now in
        match RunRequestLogRetention fuel env lease days (retention_cutoff now days) DefaultRequestLogRetentionBatchSize logs with
        | None => None
        | Some (result, e, logs, _) => Some (result, e, logs, Some (recordRequestLogCleanupEvent request bytes started finished result e))
        end
  end.

(** ** The background task *)

Definition defaultRequestLogRetentionInterval : Duration := 24 * Hour.

Record RequestLogRetentionRunnerConfig := { Enabled : bool; Interval : Duration; BatchSize : Z }.

Record RequestLogRetentionStatus := {
  AutomaticEnabled : bool; Running : bool; LastStartedAt : option Time; LastSucceededAt : option Time; LastErrorAt : option Time;
  LastErrorCode : string; LastDeletedCount : Z; LastBatchCount : Z; LastCutoff : option Time
}.

Definition runner_config (cfg : RequestLogRetentionRunnerConfig) : RequestLogRetentionRunnerConfig :=
  {| Enabled := Enabled cfg;
     Interval := if bool_decide (Interval cfg ≤ 0) then defaultRequestLogRetentionInterval else Interval cfg;
     BatchSize := if bool_decide (BatchSize cfg ≤ 0) then DefaultRequestLogRetentionBatchSize else BatchSize cfg |}.

Definition NewRequestLogRetentionRunner (cfg : RequestLogRetentionRunnerConfig) : RequestLogRetentionStatus :=
  {| AutomaticEnabled := Enabled cfg; Running := false; LastStartedAt := None; LastSucceededAt := None; LastErrorAt := None;
     LastErrorCode := ""; LastDeletedCount := 0; LastBatchCount := 0; LastCutoff := None |}.

Definition start (started cutoff : Time) (s : RequestLogRetentionStatus) : RequestLogRetentionStatus :=
  {| AutomaticEnabled := AutomaticEnabled s; Running := true; LastStartedAt := Some started; LastSucceededAt := LastSucceededAt s;
     LastErrorAt := LastErrorAt s; LastErrorCode := LastErrorCode s; LastDeletedCount := LastDeletedCount s;
     LastBatchCount := LastBatchCount s; LastCutoff := if time_is_zero cutoff then LastCutoff s else Some cutoff |}.

Definition finishSuccess (finished : Time) (r : RequestLogCleanupResult) (s : RequestLogRetentionStatus) : RequestLogRetentionStatus :=
  {| AutomaticEnabled := AutomaticEnabled s; Running := false; LastStartedAt := LastStartedAt s; LastSucceededAt := Some finished;
     LastErrorAt := None; LastErrorCode := ""; LastDeletedCount := Deleted r; LastBatchCount := Batches r; LastCutoff := LastCutoff s |}.

Definition finishFailure (finished : Time) (r : RequestLogCleanupResult) (errorCode : string) (s : RequestLogRetentionStatus)
  : RequestLogRetentionStatus :=
  {| AutomaticEnabled := AutomaticEnabled s; Running := false; LastStartedAt := LastStartedAt s; LastSucceededAt := LastSucceededAt s;
     LastErrorAt := Some finished; LastErrorCode := errorCode; LastDeletedCount := Deleted r; LastBatchCount := Batches r; LastCutoff := LastCutoff s |}.

Definition finishSkipped (s : RequestLogRetentionStatus) : RequestLogRetentionStatus :=
  {| AutomaticEnabled := AutomaticEnabled s; Running := false; LastStartedAt := LastStartedAt s; LastSucceededAt := LastSucceededAt s;
     LastErrorAt := LastErrorAt s; LastErrorCode := LastErrorCode s; LastDeletedCount := LastDeletedCount s;
     LastBatchCount := LastBatchCount s; LastCutoff := LastCutoff s |}.

Definition recordEvent (bytes : list ascii) (started finished : Time) (r : RequestLogCleanupResult) (failed : bool) (errorCode : string) : Event :=
  let partial := failed && bool_decide (0 < Deleted r) in
  let target := {| Target_Type := "request_log_collection"; Target_ID := "retention"; Target_Name := "Request log retention" |} in
  let values := ([("deleted_count", jint (Deleted r)); ("batch_count", jint (Batches r))]
                 ++ (if time_is_zero (Before r) then [] else [("cutoff", Json.JString (FormatTime (Before r)))])
                 ++ (if bool_decide (0 < RetentionDays r) then [("retention_days", jint (RetentionDays r))] else []))%list in
  let intent := {|
    I_Category := CategoryScheduler;
    I_Severity := if partial then SeverityWarning else if failed then SeverityError else SeverityInfo;
    I_Action := if failed then "scheduler.request_log_retention.failed" else "scheduler.request_log_retention.succeeded";
    I_Outcome := if partial then OutcomePartial else if failed then OutcomeFailure else OutcomeSuccess;
    I_Target := target; I_ErrorCode := errorCode; I_Message := ""; I_Metadata := safe_metadata values; StartedAt := 0 |} in
  let request := {| RC_CorrelationID := NewCorrelationID bytes; RC_SourceIP := ""; RC_HTTPMethod := ""; RC_RoutePattern := "";
                    RC_Actor := {| Actor_Type := ActorSystem; Actor_ID := 0; Actor_Name := "request_log_retention" |} |} in
  BuildEvent (Some request) bytes intent target finished finished (time_sub finished started).

(** A cycle with the flag set, and the outcome it reports.  [gone]: the context is
    cancelled when the cycle looks at it; [t0], [t1], [t2]: the clock at the start,
    at the end and when the event is recorded. *)
Definition runCycle (fuel : nat) (env : nat → round) (lease : lease_answer) (settings : option GatewaySettings) (gone : bool) (batchSize : Z)
    (bytes : list ascii) (t0 t1 t2 : Time) (status : RequestLogRetentionStatus) (logs : list log_row)
  : option (RequestLogRetentionStatus * string * option Event * list log_row) :=
  match settings with
  | None =>
      if gone then Some (status, "canceled", None, logs)
      else Some (finishFailure t1 no_result "request_log_retention_settings_failed" (start t0 0 status), "failure",
                 Some (recordEvent bytes t0 t2 no_result true "request_log_retention_settings_failed"), logs)
  | Some settings =>
      let days := RequestLogRetentionDays settings in
      if bool_decide (days ≤ 0) then Some (status, "skipped", None, logs)
      else
        let cutoff := retention_cutoff t0 days in
        let status := start t0 cutoff status in
        match RunRequestLogRetention fuel env lease days cutoff batchSize logs with
        | None => None
        | Some (r, None, logs, _) => Some (finishSuccess t1 r status, "success", Some (recordEvent bytes t0 t2 r false ""), logs)
        | Some (r, Some e, logs, _) =>
            if bool_decide (e = ErrConflict) then Some (finishSkipped status, "skipped", None, logs)
            else if gone then Some (finishFailure t1 r "request_log_retention_canceled" status, "canceled", None, logs)
            else Some (finishFailure t1 r "request_log_retention_failed" status,
                       if bool_decide (0 < Deleted r) then "partial" else "failure",
                       Some (recordEvent bytes t0 t2 r true "request_log_retention_failed"), logs)
        end
  end.
End events.

(** ** Statistics *)

Record RequestLogRetentionStats := {
  Cutoff : Time; OldestLogAt : option Time; NewestLogAt : option Time; TotalCountEstimate : Z; EligibleCount : Z; RelationSizeBytes : Z;
  RetentionConfigured : bool; RetentionPolicy : string; DiskRisk : string; ObservedAt : Time
}.

Definition requestLogWatchRelationBytes : Z := Z.shiftl 512 20.
Definition requestLogHighRelationBytes : Z := Z.shiftl 2 30.
Definition requestLogWatchRowEstimate : Z := 250000.
Definition requestLogHighRowEstimate : Z := 1000000.

Definition classifyRequestLogDiskRisk (relation_size total eligible_count : Z) : string :=
  if bool_decide (relation_size < 0) || bool_decide (total < 0) || bool_decide (eligible_count < 0) then "unknown"
  else if bool_decide (requestLogHighRelationBytes ≤ relation_size) || bool_decide (requestLogHighRowEstimate ≤ total) then "high"
  else if bool_decide (requestLogWatchRelationBytes ≤ relation_size) || bool_decide (requestLogWatchRowEstimate ≤ total) then "watch"
  else "ok".

(** The repository's row: [estimate] and [size] are the database's, greater than
    or equal to zero. *)
Definition GetRequestLogRetentionStats (unix_epoch : Time) (settings : option GatewaySettings) (estimate size : option Z) (s_now now : Time)
    (logs : list log_row) : result retention_error RequestLogRetentionStats :=
  match settings with
  | None => Err ErrSettings
  | Some settings =>
      let now := if time_is_zero now then s_now else now in
      let configured := bool_decide (0 < RequestLogRetentionDays settings) in
      let cutoff := if configured then retention_cutoff now (RequestLogRetentionDays settings) else unix_epoch in
      if time_is_zero cutoff then Err ErrInvalidInput
      else match estimate, size with
      | Some estimate, Some size =>
          let total := Z.max estimate 0 in
          let size := Z.max size 0 in
          let count := Z.of_nat (length (List.filter (eligible cutoff) logs)) in
          Ok {| Cutoff := if configured then cutoff else 0;
                OldestLogAt := match logs with [] => None | r :: l => Some (foldr (fun x m => Z.min (created_at x) m) (created_at r) l) end;
                NewestLogAt := match logs with [] => None | r :: l => Some (foldr (fun x m => Z.max (created_at x) m) (created_at r) l) end;
                TotalCountEstimate := total; EligibleCount := count; RelationSizeBytes := size; RetentionConfigured := configured;
                RetentionPolicy := if configured then "delete_after_days" else "keep_all";
                DiskRisk := classifyRequestLogDiskRisk size total count; ObservedAt := now |}
      | _, _ => Err ErrDatabase
      end
  end.
End Retention.

(** * Retention of request logs: theorems

    A retention run ends, deletes exactly the logs before its cutoff - the oldest
    first, so that a run that fails leaves the newest - and counts them.  The cutoff
    is as many days ago as configured only up to 106751 days. *)

Module RetentionThms.
Import SystemEvents SettingsRuntime Retention.

Abbreviation older := (Ledger.row_le created_at log_id).
Definition ids (l : list log_row) : list Z := map log_id l.

(** ** A batch *)

Lemma older_trans : Transitive older.
Proof. intros x y z. unfold Ledger.row_le. lia. Qed.
Lemma older_total : Total older.
Proof. intros x y. unfold Ledger.row_le. lia. Qed.

Lemma delete_rows_perm c l k : l ≡ₚ k → delete_rows c l ≡ₚ delete_rows c k.
Proof. unfold delete_rows. induction 1; cbn; repeat case_match; try done; [by constructor|by constructor|by etrans]. Qed.

Lemma delete_rows_split c k : NoDup (ids (c ++ k)) → delete_rows (ids c) (c ++ k) = k.
Proof.
  intros Hn. unfold delete_rows. rewrite List.filter_app. unfold ids in Hn. rewrite map_app in Hn. apply NoDup_app in Hn as (_ & Hd & _).
  rewrite filter_nil_intro, filter_Forall_id; [done|..].
  - apply Forall_forall. intros x Hx. apply negb_true_iff, bool_decide_eq_false. intros H. apply (Hd _ H). by apply list_elem_of_fmap_2.
  - intros x Hx. apply negb_false_iff, bool_decide_eq_true. by apply list_elem_of_fmap_2.
Qed.

Lemma retention_batch_spec before n l :
  NoDup (ids l) →
  let c := candidates before n l in let rest := delete_rows (ids c) l in
  l ≡ₚ c ++ rest ∧ Forall (fun x => eligible before x = true) c
  ∧ length c = Nat.min (Z.to_nat n) (length (List.filter (eligible before) l))
  ∧ ∀ x y, x ∈ c → y ∈ rest → eligible before y = true → older x y.
Proof.
  intros Hn c rest. set (s := merge_sort older (List.filter (eligible before) l)). set (k := Z.to_nat n).
  assert (s ≡ₚ List.filter (eligible before) l) as Hs by apply merge_sort_Permutation.
  assert (l ≡ₚ c ++ drop k s ++ List.filter (fun x => negb (eligible before x)) l) as Hl.
  { rewrite (filter_partition (eligible before) l) at 1. rewrite <- Hs. rewrite <- (take_drop k s) at 1. by rewrite <- app_assoc. }
  assert (rest ≡ₚ drop k s ++ List.filter (fun x => negb (eligible before x)) l) as Hrest.
  { unfold rest. rewrite (delete_rows_perm _ _ _ Hl) at 1. rewrite delete_rows_split; [done|]. unfold ids. by rewrite <- Hl. }
  split; [by rewrite Hrest|]. split; [|split].
  - apply Forall_forall. intros x Hx. assert (x ∈ List.filter (eligible before) l) as Hin.
    { rewrite <- Hs. unfold c, candidates in Hx. apply elem_of_take in Hx as (i & Hi & _). by eapply list_elem_of_lookup_2. }
    by apply list_elem_of_In, filter_In in Hin as [_ ?].
  - unfold c, candidates. rewrite length_take. f_equal. by rewrite merge_sort_Permutation.
  - intros x y Hx Hy He. rewrite Hrest in Hy. apply elem_of_app in Hy as [Hy|Hy].
    2:{ apply list_elem_of_In, filter_In in Hy as [_ Hy]. by rewrite He in Hy. }
    assert (StronglySorted older s) as Hsort.
    { apply Sorted_StronglySorted; [apply older_trans|]. apply Sorted_merge_sort, older_total. }
    rewrite <- (take_drop k s) in Hsort. by apply (StronglySorted_app_1_elem_of older (take k s) (drop k s)).
Qed.

(** ** The loop *)

(** The logs that arrive before round [i] and in the [n] - 1 rounds after it. *)
Fixpoint arrivals (env : nat → round) (i n : nat) : list log_row :=
  match n with O => [] | S n => arrived (env i) ++ arrivals env (S i) n end.

Definition quiet_before (env : nat → round) (before : Time) : Prop :=
  ∀ i, Forall (fun r => before ≤ created_at r) (arrived (env i)).

Lemma eligible_late before l : Forall (fun r => before ≤ created_at r) l → List.filter (eligible before) l = [].
Proof. intros H. apply filter_nil_intro. intros x Hx. rewrite Forall_forall in H. apply bool_decide_eq_false. specialize (H x Hx). lia. Qed.

Lemma loop_spec fuel env i b before r l :
  1 ≤ b ≤ 10000 → before ≠ 0 → Before r = before → quiet_before env before →
  (∀ n, NoDup (ids (l ++ arrivals env i n))) →
  (length (List.filter (eligible before) l) < fuel)%nat →
  ∃ r' e l' n gone, retention_loop fuel env i b r l = Some (r', e, l')
    ∧ Before r' = before ∧ RetentionDays r' = RetentionDays r ∧ Deleted r' = Deleted r + Z.of_nat (length gone)
    ∧ l ++ arrivals env i n ≡ₚ gone ++ l'
    ∧ Forall (fun x => eligible before x = true) gone
    ∧ (∀ x y, x ∈ gone → y ∈ l' → eligible before y = true → older x y)
    ∧ (e = None → Forall (fun y => eligible before y = false) l')
    ∧ (e ≠ None → ∃ j, canceled (env j) = true ∨ fails (env j) = true).
Proof.
  intros Hb Hz. revert i r l. induction fuel as [|fuel IH]; intros i r l Hr Hq Hn Hf; [lia|]. cbn [retention_loop].
  set (l1 := (l ++ arrived (env i))%list).
  assert (NoDup (ids l1)) as Hn1. { specialize (Hn 1%nat). cbn in Hn. by rewrite app_nil_r in Hn. }
  assert (List.filter (eligible before) l1 = List.filter (eligible before) l) as He1.
  { unfold l1. rewrite List.filter_app, (eligible_late before (arrived (env i))); [apply app_nil_r|apply Hq]. }
  destruct (canceled (env i)) eqn:Ec.
  { exists r, (Some ErrCanceled), l1, 1%nat, []. cbn. rewrite app_nil_r. split; [done|]. split; [done|]. split; [done|]. split; [lia|]. split; [done|].
    split; [constructor|]. split; [by intros x y ?%elem_of_nil|]. split; [done|]. intros _. eauto. }
  unfold DeleteBeforeBatch. rewrite Hr, !bool_decide_eq_false_2 by lia. unfold time_is_zero. rewrite bool_decide_eq_false_2 by done. cbn [orb].
  destruct (fails (env i)) eqn:Ef.
  { exists r, (Some ErrDatabase), l1, 1%nat, []. cbn. rewrite app_nil_r. split; [done|]. split; [done|]. split; [done|]. split; [lia|]. split; [done|].
    split; [constructor|]. split; [by intros x y ?%elem_of_nil|]. split; [done|]. intros _. eauto. }
  destruct (retention_batch_spec before b l1 Hn1) as (Hperm & Hc & Hlen & Hord). set (c := candidates before b l1) in *.
  change (map log_id c) with (ids c). assert (length (ids c) = length c) as -> by apply length_map. set (rest := delete_rows (ids c) l1) in *. rewrite He1 in Hlen.
  case_bool_decide as Hlt.
  - eexists _, None, rest, 1%nat, c. split; [reflexivity|]. cbn. rewrite app_nil_r. fold l1. split; [done|]. split; [done|]. split; [done|]. split; [done|].
    split; [done|]. split; [done|]. split; [|done]. intros _. apply Forall_forall. intros y Hy. apply not_true_iff_false. intros Hey.
    assert (length c = length (List.filter (eligible before) l)) as Hall by lia.
    rewrite <- He1 in Hall. assert (List.filter (eligible before) l1 ≡ₚ List.filter (eligible before) c ++ List.filter (eligible before) rest) as Hfp.
    { rewrite <- List.filter_app. clear -Hperm. induction Hperm; cbn; repeat case_match; try done; [by constructor|by constructor|by etrans]. }
    apply Permutation_length in Hfp. rewrite length_app, (filter_Forall_id _ c Hc) in Hfp.
    assert (y ∈ List.filter (eligible before) rest) as Hin by (apply list_elem_of_In, filter_In; split; [by apply list_elem_of_In|done]).
    destruct (List.filter (eligible before) rest); [by apply elem_of_nil in Hin|cbn in Hfp; lia].
  - assert (length c = Z.to_nat b) as Hcb by lia.
    set (r1 := {| RetentionDays := RetentionDays r; Deleted := _; Batches := _; Before := before |}).
    assert (∀ p l k, l ≡ₚ k → length (@List.filter log_row p l) = length (List.filter p k)) as Hfl.
    { clear. intros p l k. induction 1; cbn; repeat case_match; cbn; lia. }
    destruct (IH (S i) r1 rest) as (r' & e & l' & n & gone & -> & H1 & H2 & H3 & H4 & H5 & H6 & H7 & H8); [done|done| | |].
    + intros n. specialize (Hn (S n)). cbn in Hn. rewrite app_assoc in Hn. fold l1 in Hn. unfold ids in *. rewrite map_app, Hperm, map_app, <- app_assoc in Hn.
      rewrite map_app. by apply NoDup_app in Hn as (_ & _ & ?).
    + pose proof (Hfl (eligible before) _ _ Hperm) as Hx. rewrite He1, List.filter_app, length_app, (filter_Forall_id _ c Hc) in Hx. lia.
    + exists r', e, l', (S n), (c ++ gone). split; [done|]. split; [done|]. split; [done|]. split; [rewrite H3, length_app; cbn; lia|]. split.
      { cbn. rewrite app_assoc. fold l1. rewrite Hperm, <- !app_assoc. by rewrite H4. }
      split; [by apply Forall_app|]. split; [|done]. intros x y [Hx|Hx]%elem_of_app Hy Hey; [|by apply H6].
      apply Hord; [done| |done]. assert (y ∈ rest ++ arrivals env (S i) n) as Hy' by (rewrite H4; apply elem_of_app; by right).
      apply elem_of_app in Hy' as [?|Hy']; [done|]. exfalso.
      assert (Forall (fun r => before ≤ created_at r) (arrivals env (S i) n)) as Hlate.
      { clear -Hq. generalize (S i). induction n as [|n IHn]; intros j; cbn; [constructor|]. apply Forall_app. split; [apply Hq|apply IHn]. }
      rewrite Forall_forall in Hlate. specialize (Hlate y Hy'). apply bool_decide_eq_true in Hey. lia.
Qed.

Lemma retention_run_spec env days before b closes logs :
  0 < days → before ≠ 0 → 1 ≤ b ≤ 10000 → quiet_before env before → (∀ n, NoDup (ids (logs ++ arrivals env 0 n))) →
  ∃ r e logs' n gone,
    RunRequestLogRetention (S (length (List.filter (eligible before) logs))) env (Lease closes) days before b logs = Some (r, e, logs', true)
    ∧ RetentionDays r = days ∧ Before r = before ∧ Deleted r = Z.of_nat (length gone)
    ∧ logs ++ arrivals env 0 n ≡ₚ gone ++ logs'
    ∧ Forall (fun x => created_at x < before) gone
    ∧ (∀ x y, x ∈ gone → y ∈ logs' → created_at y < before → older x y)
    ∧ (e = None → Forall (fun y => before ≤ created_at y) logs')
    ∧ (closes = true → (∀ j, canceled (env j) = false ∧ fails (env j) = false) → e = None).
Proof.
  intros Hd Hz Hb Hq Hn. unfold RunRequestLogRetention, time_is_zero. rewrite !bool_decide_eq_false_2 by lia. cbn [orb].
  destruct (loop_spec (S (length (List.filter (eligible before) logs))) env 0 b before
    {| RetentionDays := days; Deleted := 0; Batches := 0; Before := before |} logs)
    as (r & e & l' & n & gone & -> & H1 & H2 & H3 & H4 & H5 & H6 & H7 & H8); [done|done|done|done|done|lia|].
  eexists r, _, l', n, gone. split; [reflexivity|]. cbn in H2, H3. split; [done|]. split; [done|]. split; [lia|]. split; [done|].
  split; [eapply Forall_impl; [exact H5|]; by intros x ?%bool_decide_eq_true|]. split.
  { intros x y Hx Hy Hey. apply H6; [done|done|]. by apply bool_decide_eq_true. }
  split.
  - intros He. destruct e; [done|]. eapply Forall_impl; [by apply H7|]. intros x ?%bool_decide_eq_false. lia.
  - intros -> Hok. destruct e; [|done]. destruct H8 as (j & Hj); [done|]. destruct (Hok j) as [? ?]. destruct Hj; congruence.
Qed.


(** ** The cutoff *)

Lemma offset_product days : 0 ≤ days ≤ 213503 → retention_offset days = wrap64 (- days * 86400000000000).
Proof.
  intros H. unfold retention_offset. assert (∀ z, int64_min ≤ z ≤ int64_max → wrap64 z = z) as Hw.
  { intros z Hz. unfold wrap64, int64_min, int64_max in *. rewrite Z.mod_small; lia. }
  assert (int64_min = -9223372036854775808 ∧ int64_max = 9223372036854775807) as [Hmin Hmax] by (split; reflexivity).
  rewrite (Hw (- days)) by lia. rewrite (Hw (- days * 24)) by lia. f_equal. change Hour with 3600000000000. lia.
Qed.

Lemma cutoff_exact t days : 0 ≤ days ≤ 106751 → retention_cutoff t days = t - days * (24 * Hour).
Proof.
  intros H. unfold retention_cutoff. rewrite offset_product by lia. change (24 * Hour) with 86400000000000. unfold wrap64. rewrite Z.mod_small; lia.
Qed.

Lemma cutoff_overflows t days : 106752 ≤ days ≤ 213503 → t < retention_cutoff t days.
Proof.
  intros H. unfold retention_cutoff. rewrite offset_product by lia. unfold wrap64.
  replace (- days * 86400000000000 + 2 ^ 63) with ((- days * 86400000000000 + 2 ^ 63 + 2 ^ 64) + (-1) * 2 ^ 64) by lia.
  rewrite Z.mod_add by lia. rewrite Z.mod_small by lia. lia.
Qed.

Section events.
Context (Marshal : entries → option string) (FormatTime : Time → string).

Definition undisturbed (_ : nat) : round := {| arrived := []; canceled := false; fails := false |}.

Definition keeping (days : Z) : GatewaySettings :=
  {| MaxConcurrentGatewayRequests := 0; MaxConcurrentRequestsPerAccount := 0; MaxConcurrentRequestsPerKey := 0;
     RequestsPerMinutePerKey := 0; TokensPerMinutePerKey := 0; ProviderAccountAutoTestEnabled := false;
     ProviderAccountAutoTestIntervalSeconds := 300; RequestLogRetentionDays := days |}.

(** The retention period is honoured up to 106751 days.  From 106752 to 213503
    days, which the settings accept, its duration overflows, the cutoff lies in the
    future, and a cleanup deletes every log there is. *)
Theorem long_retention_deletes_everything days request bytes started s_now finished now logs :
  0 < now → NoDup (ids logs) → Forall (fun r => created_at r ≤ now) logs →
  (0 < days ≤ 106751 → retention_cutoff now days = now - days * (24 * Hour))
  ∧ (106752 ≤ days ≤ 213503 →
     ∃ s r event, normalizeGatewaySettings s = Ok s ∧ RequestLogRetentionDays s = days
       ∧ CleanupRequestLogs Marshal FormatTime (S (length logs)) undisturbed (Lease true) (Some s) request bytes started s_now finished now logs
         = Some (r, None, [], Some event) ∧ Deleted r = Z.of_nat (length logs)).
Proof.
  intros Hnow Hn Hl. split; [intros; apply cutoff_exact; lia|]. intros Hd. exists (keeping days).
  pose proof (cutoff_overflows now _ Hd) as Hc. set (before := retention_cutoff now days) in *.
  assert (∀ j n, arrivals undisturbed j n = []) as Hno by (intros j n; revert j; induction n as [|n IH]; intros j; [done|apply (IH (S j))]).
  destruct (retention_run_spec undisturbed days before DefaultRequestLogRetentionBatchSize true logs)
    as (r & e & l' & n & gone & E & H1 & H2 & H3 & H4 & H5 & H6 & H7 & H8); [lia|lia|unfold DefaultRequestLogRetentionBatchSize; lia| | |].
  { intros i. constructor. }
  { intros k. by rewrite Hno, app_nil_r. }
  assert (List.filter (eligible before) logs = logs) as Hall.
  { apply filter_Forall_id. eapply Forall_impl; [exact Hl|]. intros x Hx. apply bool_decide_eq_true. cbn in Hx. lia. }
  rewrite Hall in E. assert (e = None) as -> by by apply H8. rewrite Hno, app_nil_r in H4.
  assert (l' = []) as ->.
  { destruct l' as [|y l']; [done|]. specialize (H7 eq_refl). apply Forall_cons in H7 as [Hy _].
    assert (y ∈ logs) as Hin by (rewrite H4; apply elem_of_app; right; by left). rewrite Forall_forall in Hl. specialize (Hl y Hin). lia. }
  rewrite app_nil_r in H4. unfold CleanupRequestLogs. cbn [RequestLogRetentionDays keeping]. rewrite bool_decide_eq_false_2 by lia.
  unfold time_is_zero. rewrite bool_decide_eq_false_2 by lia. fold before. rewrite E.
  eexists r, _. split.
  { unfold normalizeGatewaySettings. cbn [existsb keeping MaxConcurrentGatewayRequests MaxConcurrentRequestsPerAccount MaxConcurrentRequestsPerKey
      RequestsPerMinutePerKey TokensPerMinutePerKey ProviderAccountAutoTestIntervalSeconds RequestLogRetentionDays].
    by rewrite (bool_decide_eq_false_2 (days < 0)) by lia. }
  split; [done|]. split; [reflexivity|]. by rewrite H3, <- H4.
Qed.

(** What a cycle of the background task leaves in its status, its outcome and its
    event. *)
Theorem retention_cycle_reported fuel env lease settings gone b bytes t0 t1 t2 status logs s' outcome event logs' :
  runCycle Marshal FormatTime fuel env lease settings gone b bytes t0 t1 t2 status logs = Some (s', outcome, event, logs') →
  (Running status = false → Running s' = false)
  ∧ (is_Some event ↔ outcome ∈ ["success"; "failure"; "partial"])
  ∧ (outcome = "success" → LastSucceededAt s' = Some t1 ∧ LastErrorAt s' = None ∧ LastErrorCode s' = "")
  ∧ (outcome ∈ ["failure"; "partial"] → LastErrorAt s' = Some t1 ∧ LastErrorCode s' ≠ "")
  ∧ (outcome = "partial" → 0 < LastDeletedCount s').
Proof.
  assert (∀ (o : string) l, existsb (str_eq o) l = false → o ∉ l) as Hout.
  { intros o l Hf Hin. apply not_true_iff_false in Hf. apply Hf, existsb_exists. exists o. split; [by apply list_elem_of_In|by apply bool_decide_eq_true]. }
  assert (∀ (o : string) l, existsb (str_eq o) l = true → o ∈ l) as Hin.
  { intros o l (x & Hx & ->%bool_decide_eq_true)%existsb_exists. by apply list_elem_of_In. }
  assert (∀ st l1, Running st = Running status ∨ Running st = false → ∀ o, o = "canceled" ∨ o = "skipped" → Some (st, o, None, l1) = Some (s', outcome, event, logs') →
    (Running status = false → Running s' = false) ∧ (is_Some event ↔ outcome ∈ ["success"; "failure"; "partial"])
    ∧ (outcome = "success" → LastSucceededAt s' = Some t1 ∧ LastErrorAt s' = None ∧ LastErrorCode s' = "")
    ∧ (outcome ∈ ["failure"; "partial"] → LastErrorAt s' = Some t1 ∧ LastErrorCode s' ≠ "") ∧ (outcome = "partial" → 0 < LastDeletedCount s')) as Hquiet.
  { intros st l1 Hst o Ho [= <- <- <- <-]. split; [destruct Hst; congruence|]. split; [split; [by intros []|intros H; exfalso; revert H; apply Hout; by destruct Ho; subst]|].
    split; [by destruct Ho; subst|]. split; [intros H; exfalso; revert H; apply Hout; by destruct Ho; subst|by destruct Ho; subst]. }
  unfold runCycle. destruct settings as [settings|].
  2:{ destruct gone; [apply Hquiet; auto|]. intros [= <- <- <- <-]. split; [done|]. split; [split; [by intros _; apply Hin|by eexists]|]. done. }
  case_bool_decide; [apply Hquiet; auto|].
  destruct (RunRequestLogRetention _ _ _ _ _ _ _) as [[[[r [e|]] l1] c]|]; [| |done].
  - case_bool_decide; [apply Hquiet; cbn; auto|]. destruct gone; [apply Hquiet; cbn; auto|]. intros [= <- <- <- <-]. split; [done|].
    case_bool_decide; (split; [split; [by intros _; apply Hin|by eexists]|]); done.
  - intros [= <- <- <- <-]. split; [done|]. split; [split; [by intros _; apply Hin|by eexists]|]. split; [done|].
    split; [intros H'; exfalso; revert H'; by apply Hout|done].
Qed.
End events.

(** ** Runs *)
Module Demo.

Definition row (i t : Z) : log_row := {| log_id := i; created_at := t |}.
Definition logs : list log_row := [row 1 40; row 2 10; row 3 99; row 4 20].

(** Batches of one; a new log arrives, and the third batch fails. *)
Definition env (i : nat) : round :=
  {| arrived := if bool_decide (i = 1%nat) then [row 5 101] else []; canceled := false; fails := bool_decide (i = 2%nat) |}.

Lemma env_arrivals n : arrivals env 2 n = [].
Proof.
  assert (∀ j, (2 ≤ j)%nat → arrivals env j n = []) as H; [|by apply H]. induction n as [|n IH]; intros j Hj; [done|]. cbn.
  rewrite bool_decide_eq_false_2 by lia. apply IH. lia.
Qed.


Definition json (_ : entries) : option string := Some "{}".
Definition bytes : list ascii := repeat "a"%char 16.

Lemma long_retention_demo :
  ∃ s r event, normalizeGatewaySettings s = Ok s ∧ RequestLogRetentionDays s = 200000
    ∧ CleanupRequestLogs json FormatInt 5 undisturbed (Lease true) (Some s) None bytes 100 100 101 100 logs = Some (r, None, [], Some event) ∧ Deleted r = 4.
Proof.
  apply (long_retention_deletes_everything json FormatInt 200000 None bytes 100 100 101 100 logs); [lia| | |lia].
  - apply (bool_decide_unpack _). vm_compute. exact I.
  - repeat constructor; vm_compute; discriminate.
Defined.
End Demo.
End RetentionThms.
