(* ===== verification/BackgroundTasks.v ===== *)
(** * Background tasks: cycles and their status

    The tasks of [admin/api_key_budget_monitor.go],
    [admin/routing_exhaustion_projector.go] and
    [admin/api_key_budget_maintenance.go]: a flag keeps cycles apart, a mutex guards
    the status, and a cycle calls the store in between.  What the cycles of the
    first two do is in [BudgetMonitor] and [RoutingExhaustion]; the maintenance
    calls the transactions of the budget ledger in bounded batches. *)

From stdpp Require Import functions relations.
From S2P Require Import Prelude GoStrings Ledger LedgerInv LedgerThms SystemEvents RoutingExhaustion BudgetMonitor.

Module BackgroundTasks.

(** ** A task *)

(** The status of a task, what its cycle gets from the store, and what it makes of
    it: the status when a cycle starts, and with the outcome for the metrics when
    it ends ([canceled]: the context is). *)
Class Task (Status Answer : Type) := {
  running : Status → bool;
  started_status : Time → Status → Status;
  finished_status : Answer → bool → Time → Status → Status * string
}.

Class TaskLaws (Status Answer : Type) `{Task Status Answer} := {
  started_runs : ∀ t s, running (started_status t s) = true;
  finished_rests : ∀ a c t s, running (finished_status a c t s).1 = false
}.

(** *** The budget monitor *)

Record APIKeyBudgetMonitorStatus := {
  M_Running : bool; M_LastStartedAt : option Time; M_LastSucceededAt : option Time; M_LastErrorAt : option Time;
  M_LastErrorCode : string; M_LastProcessed : Z; M_LastTransitions : Z; CursorAfterID : Z
}.

Definition monitor_initial : APIKeyBudgetMonitorStatus := Build_APIKeyBudgetMonitorStatus false None None None "" 0 0 0.

Definition monitor_started (t : Time) (s : APIKeyBudgetMonitorStatus) : APIKeyBudgetMonitorStatus :=
  Build_APIKeyBudgetMonitorStatus true (Some t) (M_LastSucceededAt s) (M_LastErrorAt s) (M_LastErrorCode s) (M_LastProcessed s)
    (M_LastTransitions s) (CursorAfterID s).

Definition monitor_answer := (BudgetMonitor.APIKeyBudgetMonitorCycleResult * option BudgetMonitor.error)%type.

Definition monitor_finished (answer : monitor_answer) (canceled : bool) (t : Time) (s : APIKeyBudgetMonitorStatus)
  : APIKeyBudgetMonitorStatus * string :=
  let '(result, e) := answer in
  match e with
  | None =>
      (Build_APIKeyBudgetMonitorStatus false (M_LastStartedAt s) (Some t) None "" (BudgetMonitor.Processed result)
         (BudgetMonitor.Transitions result) (BudgetMonitor.NextAfterID result), "success")
  | Some _ =>
      (Build_APIKeyBudgetMonitorStatus false (M_LastStartedAt s) (M_LastSucceededAt s) (Some t)
         (if canceled then "api_key_budget_monitor_canceled" else "api_key_budget_monitor_failed")
         (M_LastProcessed s) (M_LastTransitions s) (CursorAfterID s),
       if canceled then "canceled"
       else if bool_decide (0 < BudgetMonitor.Processed result) || bool_decide (0 < BudgetMonitor.Transitions result) then "partial"
       else "failure")
  end.

#[export] Instance monitor_task : Task APIKeyBudgetMonitorStatus monitor_answer :=
  {| running := M_Running; started_status := monitor_started; finished_status := monitor_finished |}.

#[export] Instance monitor_laws : TaskLaws APIKeyBudgetMonitorStatus monitor_answer.
Proof. split; [done|]. by intros [r [e|]] c t s. Qed.

(** *** The routing exhaustion projector *)

Record RoutingExhaustionProjectorStatus := {
  P_Running : bool; P_LastStartedAt : option Time; P_LastSucceededAt : option Time; P_LastErrorAt : option Time;
  P_LastErrorCode : string; P_LastProcessed : Z; P_LastTransitions : Z; P_LastRequestLogID : Z
}.

Definition projector_initial : RoutingExhaustionProjectorStatus := Build_RoutingExhaustionProjectorStatus false None None None "" 0 0 0.

Definition projector_started (t : Time) (s : RoutingExhaustionProjectorStatus) : RoutingExhaustionProjectorStatus :=
  Build_RoutingExhaustionProjectorStatus true (Some t) (P_LastSucceededAt s) (P_LastErrorAt s) (P_LastErrorCode s) (P_LastProcessed s)
    (P_LastTransitions s) (P_LastRequestLogID s).

(** With [None] for an error that has no result. *)
Definition projector_answer := (RoutingExhaustion.RoutingExhaustionProjectorCycleResult * bool)%type.

Definition projector_finished (answer : projector_answer) (canceled : bool) (t : Time) (s : RoutingExhaustionProjectorStatus)
  : RoutingExhaustionProjectorStatus * string :=
  let '(result, failed) := answer in
  if negb failed then
    if RoutingExhaustion.Contended result
    then (Build_RoutingExhaustionProjectorStatus false (P_LastStartedAt s) (P_LastSucceededAt s) (P_LastErrorAt s) (P_LastErrorCode s)
            (P_LastProcessed s) (P_LastTransitions s) (P_LastRequestLogID s), "skipped")
    else (Build_RoutingExhaustionProjectorStatus false (P_LastStartedAt s) (Some t) None "" (RoutingExhaustion.Processed result)
            (RoutingExhaustion.Transitions result) (RoutingExhaustion.LastRequestLogID result), "success")
  else
    (Build_RoutingExhaustionProjectorStatus false (P_LastStartedAt s) (P_LastSucceededAt s) (Some t)
       (if canceled then "routing_exhaustion_projector_canceled" else "routing_exhaustion_projector_failed")
       (P_LastProcessed s) (P_LastTransitions s) (P_LastRequestLogID s),
     if canceled then "canceled"
     else if bool_decide (0 < RoutingExhaustion.Processed result) || bool_decide (0 < RoutingExhaustion.Transitions result) then "partial"
     else "failure").

#[export] Instance projector_task : Task RoutingExhaustionProjectorStatus projector_answer :=
  {| running := P_Running; started_status := projector_started; finished_status := projector_finished |}.

#[export] Instance projector_laws : TaskLaws RoutingExhaustionProjectorStatus projector_answer.
Proof. split; [done|]. intros [r [|]] c t s; cbn; [done|]. by destruct (RoutingExhaustion.Contended r). Qed.

(** *** The maintenance of the ledger *)

Record maintenance_work := { initialized : Z; pending : bool; settled : Z; expired : Z; abandoned : Z }.

Record APIKeyBudgetMaintenanceStatus := {
  B_Running : bool; B_LastStartedAt : option Time; B_LastSucceededAt : option Time; B_LastErrorAt : option Time; B_LastErrorCode : string;
  LastInitializedLogs : Z; LastSettledRows : Z; LastExpiredRows : Z; LastAbandonedRows : Z; InitializationPending : bool
}.

Definition maintenance_initial : APIKeyBudgetMaintenanceStatus := Build_APIKeyBudgetMaintenanceStatus false None None None "" 0 0 0 0 false.

Definition maintenance_started (t : Time) (s : APIKeyBudgetMaintenanceStatus) : APIKeyBudgetMaintenanceStatus :=
  Build_APIKeyBudgetMaintenanceStatus true (Some t) (B_LastSucceededAt s) (B_LastErrorAt s) (B_LastErrorCode s) (LastInitializedLogs s)
    (LastSettledRows s) (LastExpiredRows s) (LastAbandonedRows s) (InitializationPending s).

Definition maintenance_answer := (maintenance_work * option Ledger.ledger_error)%type.

Definition maintenance_finished (answer : maintenance_answer) (canceled : bool) (t : Time) (s : APIKeyBudgetMaintenanceStatus)
  : APIKeyBudgetMaintenanceStatus * string :=
  let '(w, e) := answer in
  match e with
  | None =>
      (Build_APIKeyBudgetMaintenanceStatus false (B_LastStartedAt s) (Some t) None "" (initialized w) (settled w) (expired w) (abandoned w)
         (pending w), "success")
  | Some _ =>
      (Build_APIKeyBudgetMaintenanceStatus false (B_LastStartedAt s) (B_LastSucceededAt s) (Some t)
         (if canceled then "api_key_budget_maintenance_canceled" else "api_key_budget_maintenance_failed")
         (initialized w) (settled w) (expired w) (abandoned w) (pending w),
       if canceled then "canceled"
       else if bool_decide (0 < initialized w) || bool_decide (0 < settled w) || bool_decide (0 < expired w) || bool_decide (0 < abandoned w)
       then "partial" else "failure")
  end.

#[export] Instance maintenance_task : Task APIKeyBudgetMaintenanceStatus maintenance_answer :=
  {| running := B_Running; started_status := maintenance_started; finished_status := maintenance_finished |}.

#[export] Instance maintenance_laws : TaskLaws APIKeyBudgetMaintenanceStatus maintenance_answer.
Proof. split; [done|]. by intros [w [e|]] c t s. Qed.

(** ** Bounded work *)

Record APIKeyBudgetMaintenanceConfig := { Interval : Duration; BatchSize : Z; MaxBatches : Z; AbandonAfter : Duration }.

Definition or_default (valid : bool) (value default : Z) : Z := if valid then value else default.

(** The configuration [NewAPIKeyBudgetMaintenance] keeps. *)
Definition maintenance_config (cfg : APIKeyBudgetMaintenanceConfig) : APIKeyBudgetMaintenanceConfig :=
  {| Interval := or_default (bool_decide (0 < Interval cfg)) (Interval cfg) (30 * Second);
     BatchSize := or_default (bool_decide (0 < BatchSize cfg ≤ 1000)) (BatchSize cfg) 1000;
     MaxBatches := or_default (bool_decide (0 < MaxBatches cfg ≤ 10)) (MaxBatches cfg) 10;
     AbandonAfter := or_default (bool_decide (0 < AbandonAfter cfg)) (AbandonAfter cfg) (24 * Hour) |}.

(** The rounds of a stage, at most [n]: each takes a batch and says how much it
    did and whether another is due; the first error ends them. *)
Section stage.
Context {S : Type} (batch : nat → S → Z * bool * option Ledger.ledger_error * S).

Fixpoint rounds (n i : nat) (total : Z) (more : bool) (s : S) : Z * bool * option Ledger.ledger_error * S :=
  match n with
  | O => (total, more, None, s)
  | Datatypes.S n =>
      let '(done, more, e, s) := batch i s in
      let total := total + done in
      match e with
      | Some e => (total, more, Some e, s)
      | None => if (more : bool) then rounds n (Datatypes.S i) total more s else (total, more, None, s)
      end
  end.
End stage.

(** A transaction of the ledger as a batch; a failed one did nothing. *)
Definition ledger_batch {R} (t : Ledger.db → result Ledger.ledger_error (R * Ledger.db)) (done : R → Z) (more : R → bool) (d : Ledger.db)
  : Z * bool * option Ledger.ledger_error * Ledger.db :=
  match Ledger.run t d with
  | (Ok r, d) => (done r, more r, None, d)
  | (Err e, d) => (0, false, Some e, d)
  end.

Section work.
(** Which rows others hold in the rounds of the stages; the database's clock. *)
Context (locked : nat → nat → Z → bool) (dbnow : Time).

Definition initialize_batch (now : Time) (batchSize : Z) (i : nat) : Ledger.db → Z * bool * option Ledger.ledger_error * Ledger.db :=
  ledger_batch (Ledger.RunAPIKeyBudgetInitializationCycle dbnow now batchSize) Ledger.I_Processed Ledger.I_HasPending.

Definition settle_batch (now : Time) (batchSize : Z) (i : nat) (d : Ledger.db) : Z * bool * option Ledger.ledger_error * Ledger.db :=
  let '(processed, e, d) := Ledger.RunAPIKeyBudgetSettlementCycle (locked 1 i) now batchSize d in
  (processed, negb (bool_decide (processed < batchSize)), e, d).

Definition expire_batch (now : Time) (batchSize : Z) (i : nat) : Ledger.db → Z * bool * option Ledger.ledger_error * Ledger.db :=
  ledger_batch (Ledger.RunAPIKeyBudgetExpiryCycle (locked 2 i) now batchSize) Ledger.E_Processed
    (fun r => negb (bool_decide (Ledger.E_Processed r < batchSize))).

Definition abandon_batch (cutoff now : Time) (batchSize : Z) (i : nat) : Ledger.db → Z * bool * option Ledger.ledger_error * Ledger.db :=
  ledger_batch (Ledger.RunAPIKeyBudgetAbandonedCycle (locked 3 i) cutoff now batchSize) (fun n => n) (fun n => negb (bool_decide (n < batchSize))).

Definition runBoundedWork (cfg : APIKeyBudgetMaintenanceConfig) (now : Time) (d : Ledger.db) : maintenance_answer * Ledger.db :=
  let n := Z.to_nat (MaxBatches cfg) in
  let b := BatchSize cfg in
  let '(initialized, pending, e, d) := rounds (initialize_batch now b) n 0 0 false d in
  match e with
  | Some e => ({| initialized := initialized; pending := pending; settled := 0; expired := 0; abandoned := 0 |}, Some e, d)
  | None =>
      let '(settled, _, e, d) := rounds (settle_batch now b) n 0 0 false d in
      match e with
      | Some e => ({| initialized := initialized; pending := pending; settled := settled; expired := 0; abandoned := 0 |}, Some e, d)
      | None =>
          let '(expired, _, e, d) := rounds (expire_batch now b) n 0 0 false d in
          match e with
          | Some e => ({| initialized := initialized; pending := pending; settled := settled; expired := expired; abandoned := 0 |}, Some e, d)
          | None =>
              let cutoff := now - AbandonAfter cfg in
              let '(abandoned, _, e, d) := rounds (abandon_batch cutoff now b) n 0 0 false d in
              ({| initialized := initialized; pending := pending; settled := settled; expired := expired; abandoned := abandoned |}, e, d)
          end
      end
  end.
End work.

(** ** Cycles of several goroutines *)

Section cycles.
Context {Status Answer : Type} `{Task Status Answer}.

(** Where a goroutine is in [runCycle]: not in it, past the flag, between the two
    sections under the mutex, past the second. *)
Inductive phase := Outside | Entered | Working (since : Time) | Leaving.

Record task := { flag : bool; status : Status; goroutines : nat → phase; outcomes : list string }.

(** A cycle: when it started, what it got, whether its context was cancelled, and
    when it finished. *)
Record cycle := { c_started : Time; c_answer : Answer; c_canceled : bool; c_finished : Time }.

Inductive task_step : task → list cycle → task → Prop :=
| t_skip i s :
    goroutines s i = Outside → flag s = true →
    task_step s [] {| flag := true; status := status s; goroutines := goroutines s; outcomes := outcomes s ++ ["skipped"] |}
| t_enter i s :
    goroutines s i = Outside → flag s = false →
    task_step s [] {| flag := true; status := status s; goroutines := <[i := Entered]> (goroutines s); outcomes := outcomes s |}
| t_start i t s :
    goroutines s i = Entered →
    task_step s [] {| flag := flag s; status := started_status t (status s); goroutines := <[i := Working t]> (goroutines s); outcomes := outcomes s |}
| t_finish i t a c t' s :
    goroutines s i = Working t →
    task_step s [{| c_started := t; c_answer := a; c_canceled := c; c_finished := t' |}]
      {| flag := flag s; status := (finished_status a c t' (status s)).1; goroutines := <[i := Leaving]> (goroutines s);
         outcomes := outcomes s ++ [(finished_status a c t' (status s)).2] |}
| t_leave i s :
    goroutines s i = Leaving →
    task_step s [] {| flag := false; status := status s; goroutines := <[i := Outside]> (goroutines s); outcomes := outcomes s |}.

Definition task_initial (s : Status) : task := {| flag := false; status := s; goroutines := fun _ => Outside; outcomes := [] |}.

Inductive task_reachable (s0 : Status) : task → list cycle → Prop :=
| tr_initial : task_reachable s0 (task_initial s0) []
| tr_step s h k s' : task_reachable s0 s h → task_step s k s' → task_reachable s0 s' (h ++ k).
End cycles.
End BackgroundTasks.

(** * Background tasks: theorems

    The cycles of a task do not overlap, and its status is that of running them one
    after the other; the maintenance of the ledger drains the backlog of expired
    admissions as far as its batches reach. *)

Module BackgroundTasksThms.
Import LedgerInv.LedgerInv LedgerThms.LedgerThms BackgroundTasks.

(** ** Cycles *)

Section cycles.
Context {Status Answer : Type} `{TaskLaws Status Answer}.

(** A cycle on a status, with no other in between. *)
Definition run_alone (s : Status) (c : cycle) : Status :=
  (finished_status (c_answer c) (c_canceled c) (c_finished c) (started_status (c_started c) s)).1.
Definition run_serially (s : Status) (l : list cycle) : Status := foldl run_alone s l.

Lemma run_serially_rests s l : running s = false → running (run_serially s l) = false.
Proof. revert s. induction l as [|c l IH]; intros s Hs; [done|]. apply IH, finished_rests. Qed.

Definition inside (p : phase) : Prop := p ≠ Outside.

Record serial (s0 : Status) (s : task) (h : list cycle) : Prop := {
  s_one : ∀ i j, inside (goroutines s i) → inside (goroutines s j) → i = j;
  s_flag : ∀ i, inside (goroutines s i) → flag s = true;
  s_status : (∃ i t, goroutines s i = Working t ∧ status s = started_status t (run_serially s0 h))
             ∨ ((∀ i t, goroutines s i ≠ Working t) ∧ status s = run_serially s0 h)
}.

Lemma moved_one (f : nat → phase) i p :
  (∀ j k, inside (f j) → inside (f k) → j = k) → inside (f i) → ∀ j k, inside (<[i:=p]> f j) → inside (<[i:=p]> f k) → j = k.
Proof.
  intros H1 Hi j k. destruct (decide (i = j)) as [<-|Hj], (decide (i = k)) as [<-|Hk]; rewrite ?fn_lookup_insert, ?fn_lookup_insert_ne by done; try done.
  - intros _ Hk'. by apply H1.
  - intros Hj' _. by apply H1.
  - by apply H1.
Qed.

Lemma serial_step s0 s h k s' : serial s0 s h → task_step s k s' → serial s0 s' (h ++ k).
Proof.
  intros [H1 H2 H3] Hs. destruct Hs as [i s Ho Hf|i s Ho Hf|i t s He|i t a c t' s Hw|i s Hl]; cbn [goroutines flag status] in *; rewrite ?app_nil_r.
  - by constructor.
  - assert (∀ j, goroutines s j = Outside) as Hall.
    { intros j. destruct (goroutines s j) eqn:E; try done; specialize (H2 j); unfold inside in H2; rewrite E in H2; rewrite H2 in Hf; done. }
    constructor; cbn.
    + intros j k. unfold inside. destruct (decide (i = j)) as [<-|Hj], (decide (i = k)) as [<-|Hk]; rewrite ?fn_lookup_insert, ?fn_lookup_insert_ne, ?Hall by done; done.
    + done.
    + right. split; [|destruct H3 as [(j & t & Hj & _)|[_ ?]]; [by rewrite Hall in Hj|done]].
      intros j t. destruct (decide (i = j)) as [<-|Hj]; rewrite ?fn_lookup_insert, ?fn_lookup_insert_ne, ?Hall by done; done.
  - assert (inside (goroutines s i)) as Hi by (unfold inside; by rewrite He). constructor; cbn.
    + by apply moved_one.
    + intros _ _. by eapply H2.
    + left. exists i, t. rewrite fn_lookup_insert. split; [done|]. destruct H3 as [(j & u & Hj & _)|[_ ->]]; [|done].
      assert (j = i) as -> by (apply H1; [unfold inside; by rewrite Hj|done]). congruence.
  - assert (inside (goroutines s i)) as Hi by (unfold inside; by rewrite Hw). constructor; cbn.
    + by apply moved_one.
    + intros _ _. by eapply H2.
    + right. split.
      * intros j u. destruct (decide (i = j)) as [<-|Hj]; [by rewrite fn_lookup_insert|]. rewrite fn_lookup_insert_ne by done. intros E. apply Hj.
        apply H1; [done|]. unfold inside. by rewrite E.
      * destruct H3 as [(j & u & Hj & Hst)|[Hno _]]; [|by destruct (Hno i t)].
        assert (j = i) as -> by (apply H1; [unfold inside; by rewrite Hj|done]). assert (u = t) as -> by congruence.
        unfold run_serially in *. rewrite foldl_app, Hst. done.
  - assert (inside (goroutines s i)) as Hi by (unfold inside; by rewrite Hl).
    assert (∀ j, <[i:=Outside]> (goroutines s) j = Outside) as Hall.
    { intros j. destruct (decide (i = j)) as [<-|Hj]; [by rewrite fn_lookup_insert|]. rewrite fn_lookup_insert_ne by done.
      destruct (goroutines s j) eqn:E; try done; exfalso; apply Hj, H1; try done; unfold inside; by rewrite E. }
    constructor; cbn.
    + intros j k. unfold inside. by rewrite Hall.
    + intros j. unfold inside. by rewrite Hall.
    + right. split; [intros j t; by rewrite Hall|]. destruct H3 as [(j & u & Hj & _)|[_ ->]]; [|done].
      assert (j = i) as -> by (apply H1; [unfold inside; by rewrite Hj|done]). congruence.
Qed.

(** [C38] Cycles of a task do not overlap: at most one goroutine is in one, whatever
    the interleaving of their steps.  Between cycles the status is that of the
    finished cycles one after the other, so that each began with what the one
    before it left; while a cycle works it says that the task runs, and at no
    other time if it did not say so at first. *)
Theorem cycles_serial s0 s h :
  task_reachable s0 s h →
  (∀ i j, goroutines s i ≠ Outside → goroutines s j ≠ Outside → i = j)
  ∧ (∀ i t, goroutines s i = Working t → status s = started_status t (run_serially s0 h))
  ∧ ((∀ i t, goroutines s i ≠ Working t) → status s = run_serially s0 h)
  ∧ (running s0 = false → (running (status s) = true ↔ ∃ i t, goroutines s i = Working t)).
Proof.
  intros Hr. assert (serial s0 s h) as [H1 H2 H3].
  { induction Hr as [|s h k s' _ IH Hs]; [|by eapply serial_step]. constructor; cbn; [by intros i j []|by intros i []|by right]. }
  assert (∀ i t, goroutines s i = Working t → status s = started_status t (run_serially s0 h)) as Hw.
  { intros i t Hi. destruct H3 as [(j & u & Hj & ->)|[Hno _]]; [|by destruct (Hno i t)].
    assert (i = j) as -> by (apply H1; unfold inside; congruence). congruence. }
  assert ((∀ i t, goroutines s i ≠ Working t) → status s = run_serially s0 h) as Hq.
  { intros Hno. destruct H3 as [(j & u & Hj & _)|[_ ?]]; [by destruct (Hno j u)|done]. }
  split; [exact H1|]. split; [exact Hw|]. split; [exact Hq|]. intros Hidle. split.
  - intros Hrun. destruct H3 as [(i & t & Hi & _)|[Hno Hst]]; [eauto|exfalso]. by rewrite Hst, run_serially_rests in Hrun.
  - intros (i & t & Hi). rewrite (Hw i t Hi). apply started_runs.
Qed.
End cycles.

(** ** The backlog of expired admissions *)

Definition versions_below (m : Z) (d : Ledger.db) : Prop :=
  ∀ k s, Ledger.states d !! k = Some s → Ledger.version s ≤ m.

Lemma expire_candidate_versions now c d d' m :
  Ledger.expire_candidate now c d = Ok d' → versions_below m d → versions_below (m + 1) d'.
Proof.
  unfold Ledger.expire_candidate. intros (d1 & Hu & Hr)%result_bind_Ok Hm. destruct (update_admissions_Ok _ _ _ _ Hr) as [-> _].
  unfold Ledger.update_state in Hu. intros k s. change (Ledger.states (Ledger.set_admissions d1 _)) with (Ledger.states d1).
  destruct (Ledger.states d !! Ledger.C_ClientKeyID c) as [s1|] eqn:E; [|injection Hu as <-; intros Hk; specialize (Hm _ _ Hk); lia].
  destruct (Ledger.state_row_ok _); [|done]. injection Hu as <-. cbn [Ledger.set_states Ledger.states].
  intros [(<- & <-)|[_ Hk]]%lookup_insert_Some; cbn [Ledger.version]; [specialize (Hm _ _ E)|specialize (Hm _ _ Hk)]; lia.
Qed.

Lemma expire_loop_versions now cs d d' m :
  Ledger.expire_loop now cs d = Ok d' → versions_below m d → versions_below (m + Z.of_nat (length cs)) d'.
Proof.
  revert d m. induction cs as [|c cs IH]; intros d m; cbn [Ledger.expire_loop length].
  { intros [= <-]. by rewrite Z.add_0_r. }
  intros (d1 & H1 & H2)%result_bind_Ok Hm. specialize (IH _ _ H2 (expire_candidate_versions _ _ _ _ _ H1 Hm)).
  intros k s Hk. specialize (IH k s Hk). lia.
Qed.

Lemma expiry_versions locked now b d r d' m :
  Ledger.RunAPIKeyBudgetExpiryCycle locked now b d = Ok (r, d') → versions_below m d → versions_below (m + Ledger.E_Processed r) d'.
Proof.
  unfold Ledger.RunAPIKeyBudgetExpiryCycle. destruct (_ || _); [done|].
  intros (u & _ & (d1 & Hl & [= <- <-])%result_bind_Ok)%result_bind_Ok. apply (expire_loop_versions _ _ _ _ _ Hl).
Qed.

(** One batch without contention. *)
Lemma expire_batch_spec T now b i d :
  reachable T d → now ≠ 0 → now ≤ T → 1 ≤ b ≤ Ledger.maxAPIKeyBudgetLedgerBatchSize → versions_below (int64_max - b) d →
  ∃ d', expire_batch (fun _ _ _ => false) now b i d
        = (Z.min b (backlog now d), negb (bool_decide (Z.min b (backlog now d) < b)), None, d')
        ∧ reachable T d' ∧ backlog now d' = backlog now d - Z.min b (backlog now d)
        ∧ ∀ m, versions_below m d → versions_below (m + b) d'.
Proof.
  intros Hr Hnow HT Hb Hv. destruct (expiry_cycle_progress T d now b Hr Hnow Hb) as (r & d' & Hrun & Hp & Hbl).
  { intros k s Hk. specialize (Hv k s Hk). lia. }
  exists d'. unfold expire_batch, ledger_batch, Ledger.run. rewrite Hrun, Hp. split_and!; [done|..|lia|].
  - destruct Hr as (d0 & Hd0 & Hrtc). exists d0. split; [done|]. eapply rtc_r; [exact Hrtc|].
    pose proof (step_expire T d (fun _ => false) now b HT) as Hs. unfold Ledger.run in Hs. by rewrite Hrun in Hs.
  - intros m Hm k s Hk. pose proof (expiry_versions _ _ _ _ _ _ _ Hrun Hm k s Hk). lia.
Qed.

Lemma expire_rounds T now b n i total more d :
  reachable T d → now ≠ 0 → now ≤ T → 1 ≤ b ≤ Ledger.maxAPIKeyBudgetLedgerBatchSize → versions_below (int64_max - Z.of_nat n * b) d →
  let drained := Z.min (Z.of_nat n * b) (backlog now d) in
  ∃ more' d', rounds (expire_batch (fun _ _ _ => false) now b) n i total more d = (total + drained, more', None, d')
              ∧ reachable T d' ∧ backlog now d' = backlog now d - drained.
Proof.
  intros Hr Hnow HT Hb. revert i total more d Hr. induction n as [|n IH]; intros i total more d Hr Hv drained.
  { exists more, d. assert (0 ≤ backlog now d) by apply countZ_nonneg. assert (drained = 0) as -> by (unfold drained; lia).
    split_and!; [by rewrite Z.add_0_r|done|lia]. }
  destruct (expire_batch_spec T now b i d) as (d1 & Hbatch & Hr1 & Hbl & Hv1); try done.
  { intros k s Hk. specialize (Hv k s Hk). nia. }
  cbn [rounds]. rewrite Hbatch. case_bool_decide as Hless; cbn [negb].
  - exists false, d1. assert (0 ≤ backlog now d) by apply countZ_nonneg.
    assert (drained = Z.min b (backlog now d)) as -> by (unfold drained; nia). done.
  - destruct (IH (S i) (total + Z.min b (backlog now d)) true d1 Hr1) as (more' & d' & -> & Hr' & Hbl').
    { intros k s Hk. specialize (Hv1 _ Hv k s Hk). nia. }
    exists more', d'. split_and!; [|done|rewrite Hbl', Hbl; unfold drained; lia].
    do 3 f_equal. rewrite Hbl. unfold drained. lia.
Qed.

(** The expiry stage of a maintenance round, without contention for the rows and
    with room in the state versions, expires as many of the due admissions as its
    batches hold, meets no error, and leaves exactly the others due: what a round
    leaves the next ones drain. *)
Theorem maintenance_drains_backlog T now cfg d :
  let cfg := maintenance_config cfg in
  let room := MaxBatches cfg * BatchSize cfg in
  reachable T d → now ≠ 0 → now ≤ T → versions_below (int64_max - room) d →
  ∃ more d', rounds (expire_batch (fun _ _ _ => false) now (BatchSize cfg)) (Z.to_nat (MaxBatches cfg)) 0 0 false d
             = (Z.min room (backlog now d), more, None, d')
             ∧ reachable T d' ∧ backlog now d' = backlog now d - Z.min room (backlog now d).
Proof.
  intros c room Hr Hnow HT Hv. assert (0 < BatchSize c ≤ 1000 ∧ 0 < MaxBatches c ≤ 10) as [Hb Hm].
  { unfold c, maintenance_config, or_default. cbn. repeat case_bool_decide; lia. }
  destruct (expire_rounds T now (BatchSize c) (Z.to_nat (MaxBatches c)) 0 0 false d) as (more & d' & H1 & H2 & H3); try done.
  { unfold Ledger.maxAPIKeyBudgetLedgerBatchSize. lia. }
  { by rewrite Z2Nat.id by lia. }
  exists more, d'. rewrite Z2Nat.id in H1, H3 by lia. done.
Qed.

Module Demo.

Definition demo_cfg : APIKeyBudgetMaintenanceConfig := {| Interval := 0; BatchSize := 10; MaxBatches := 2; AbandonAfter := 0 |}.

Lemma maintenance_drains_backlog_demo :
  ∃ more d', rounds (expire_batch (fun _ _ _ => false) (demo_t + Ledger.hours24) 10) 2 0 0 false demo1 = (1, more, None, d')
             ∧ backlog (demo_t + Ledger.hours24) d' = 0.
Proof.
  destruct (maintenance_drains_backlog (demo_t + Ledger.hours24) (demo_t + Ledger.hours24) demo_cfg demo1) as (more & d' & H1 & _ & H3).
  - apply demo1_reachable.
  - by vm_compute.
  - done.
  - intros k s. assert (Ledger.states demo1 = {[ 1 := demo_state1 ]}) as -> by (by vm_compute).
    intros [_ <-]%lookup_singleton_Some. by vm_compute.
  - exists more, d'. assert (Z.min (2 * 10) (backlog (demo_t + Ledger.hours24) demo1) = 1) as Hd by (by vm_compute).
    change (MaxBatches (maintenance_config demo_cfg) * BatchSize (maintenance_config demo_cfg)) with (2 * 10) in H1, H3.
    rewrite Hd in H1, H3. split; [exact H1|]. rewrite H3. by vm_compute.
Defined.

(** A cycle of the monitor that finds one transition. *)
Definition demo_answer : monitor_answer := (BudgetMonitor.Build_APIKeyBudgetMonitorCycleResult 3 1 0, None).
Definition demo_working : task (Status := APIKeyBudgetMonitorStatus) :=
  {| flag := true; status := monitor_started 5 monitor_initial; goroutines := <[7%nat:=Working 5]> (<[7%nat:=Entered]> (fun _ => Outside));
     outcomes := [] |}.

Lemma demo_working_reachable : task_reachable (Answer := monitor_answer) monitor_initial demo_working [].
Proof.
  pose proof (tr_initial (Answer := monitor_answer) monitor_initial) as H0.
  pose proof (tr_step _ _ _ _ _ H0 (t_enter 7%nat (task_initial monitor_initial) eq_refl eq_refl)) as H1.
  match type of H1 with task_reachable _ ?s _ => exact (tr_step _ _ _ _ _ H1 (t_start 7%nat 5 s (fn_lookup_insert _ _ _))) end.
Qed.

Lemma cycles_serial_demo :
  task_reachable (Answer := monitor_answer) monitor_initial demo_working []
  ∧ (running (Answer := monitor_answer) (status demo_working) = true ↔ ∃ i t, goroutines demo_working i = Working t).
Proof. split; [apply demo_working_reachable|]. by apply (cycles_serial monitor_initial demo_working [] demo_working_reachable). Defined.
End Demo.
End BackgroundTasksThms.
