(* ===== verification/StateCleanup.v ===== *)
(** * The cleanup of OAuth states

    [oauthstatecleanup/service.go] with [store/oauth_state_cleanup.go]: an
    administrator's command removes the states that expired or were consumed before
    a cutoff, in batches, while states are created and claimed ([OAuth]).  It ends,
    removes no state that can still be claimed, and leaves none that is eligible. *)

From S2P Require Import Prelude GoStrings Ledger Json Account OAuth AdminBase SettingsRuntime SystemEvents Retention.
From Stdlib Require Import Ascii.
From Stdlib Require String.

Module StateCleanup.
Import OAuth SystemEvents.

Definition MaxBatchSize : Z := 10000.

Inductive cleanup_status := StatusDryRun | StatusCompleted | StatusContended.
Inductive cleanup_error := ErrCleanupFailed | ErrContext.

Record Options := { Cutoff : Time; BatchSize : Z; DryRun : bool }.

Record Result := {
  R_Status : option cleanup_status; R_DryRun : bool; R_Cutoff : Time; R_BatchSize : Z; EligibleCount : Z; DeletedCount : Z; BatchCount : Z
}.

Definition no_result : Result :=
  {| R_Status := None; R_DryRun := false; R_Cutoff := 0; R_BatchSize := 0; EligibleCount := 0; DeletedCount := 0; BatchCount := 0 |}.

(** ** The statements *)

Definition eligible (cutoff : Time) (s : OAuthState) : bool :=
  bool_decide (ExpiresAt s < Ledger.pg_time cutoff)
  || match ConsumedAt s with Some t => bool_decide (t < Ledger.pg_time cutoff) | None => false end.

Definition CountEligible (cutoff : Time) (l : list OAuthState) : Z := Z.of_nat (length (List.filter (eligible cutoff) l)).

(** The first [n] rows, in the order of their ids, that satisfy a test; these and
    the rest. *)
Fixpoint delete_first (p : OAuthState → bool) (n : nat) (l : list OAuthState) : list OAuthState * list OAuthState :=
  match l, n with
  | [], _ => ([], [])
  | _, O => ([], l)
  | s :: l, S n' =>
      if p s then let '(gone, rest) := delete_first p n' l in (s :: gone, rest)
      else let '(gone, rest) := delete_first p n l in (gone, s :: rest)
  end.

(** [locked]: states, by their hash, whose rows another transaction holds. *)
Definition DeleteEligibleBatch (locked : string → bool) (cutoff : Time) (batchSize : Z) (l : list OAuthState) : Z * list OAuthState :=
  let '(gone, rest) := delete_first (fun s => eligible cutoff s && negb (locked (StateHash s))) (Z.to_nat batchSize) l in
  (Z.of_nat (length gone), rest).

(** ** The command *)

(** Before a batch others change the states; then it may fail ([Some true]: the
    context has ended). *)
Record round := { meanwhile : list OAuthState → list OAuthState; locked : string → bool; failure : option bool }.

Definition cleanupError (gone : bool) : cleanup_error := if gone then ErrContext else ErrCleanupFailed.

Fixpoint cleanup_loop (fuel : nat) (env : nat → round) (i : nat) (options : Options) (result : Result) (l : list OAuthState)
  : option (Result * option cleanup_error * list OAuthState) :=
  match fuel with
  | O => None
  | S fuel =>
      let l := meanwhile (env i) l in
      match failure (env i) with
      | Some gone => Some (result, Some (cleanupError gone), l)
      | None =>
          let '(deleted, l) := DeleteEligibleBatch (locked (env i)) (Cutoff options) (BatchSize options) l in
          let result := if bool_decide (0 < deleted)
            then {| R_Status := R_Status result; R_DryRun := R_DryRun result; R_Cutoff := R_Cutoff result; R_BatchSize := R_BatchSize result;
                    EligibleCount := EligibleCount result; DeletedCount := DeletedCount result + deleted; BatchCount := BatchCount result + 1 |}
            else result in
          if bool_decide (deleted < BatchSize options) then Some (result, None, l) else cleanup_loop fuel env (S i) options result l
      end
  end.

(** [TryAcquire] fails, is refused, or gives a lease: whether its count fails, and
    whether it closes. *)
Inductive lease_answer := LeaseFails (gone : bool) | LeaseRefused | Lease (count_failure : option bool) (closes : bool).

(** The recorder: none, or what goes wrong with the event, if anything does. *)
Definition recorder := option (option bool).

(** The result, the error, the states, and whether the lease was closed.  [started]
    is the clock's first reading. *)
Definition Run (fuel : nat) (env : nat → round) (lease : lease_answer) (events : recorder) (options : Options) (started : Time) (l : list OAuthState)
  : option (Result * option cleanup_error * list OAuthState * bool) :=
  if time_is_zero (Cutoff options) || bool_decide (BatchSize options < 1) || bool_decide (MaxBatchSize < BatchSize options)
  then Some (no_result, Some ErrCleanupFailed, l, false)
  else if time_after (Cutoff options) started then Some (no_result, Some ErrCleanupFailed, l, false)
  else match lease with
  | LeaseFails gone => Some (no_result, Some (cleanupError gone), l, false)
  | LeaseRefused =>
      Some ({| R_Status := Some StatusContended; R_DryRun := DryRun options; R_Cutoff := Cutoff options; R_BatchSize := BatchSize options;
               EligibleCount := 0; DeletedCount := 0; BatchCount := 0 |}, None, l, false)
  | Lease (Some gone) _ => Some (no_result, Some (cleanupError gone), l, true)
  | Lease None closes =>
      let result := {| R_Status := Some (if DryRun options then StatusDryRun else StatusCompleted); R_DryRun := DryRun options;
                       R_Cutoff := Cutoff options; R_BatchSize := BatchSize options; EligibleCount := CountEligible (Cutoff options) l;
                       DeletedCount := 0; BatchCount := 0 |} in
      if DryRun options then Some (if closes then (result, None, l, true) else (no_result, Some ErrCleanupFailed, l, true))
      else match cleanup_loop fuel env 0 options result l with
           | None => None
           | Some (result, Some e, l) => Some (result, Some e, l, true)
           | Some (result, None, l) =>
               match events with
               | None => Some (result, Some ErrCleanupFailed, l, true)
               | Some inserted =>
                   if negb closes then Some (result, Some ErrCleanupFailed, l, true)
                   else Some (result, option_map cleanupError inserted, l, true)
               end
           end
  end.

(** The event of a completed cleanup. *)
Definition cleanup_event (Marshal : entries → option string) (FormatTime : Time → string) (bytes : list ascii) (started finished : Time) (r : Result)
  : result serror Event :=
  let? metadata := SafeMetadata Marshal (Some [("cutoff", Json.JString (FormatTime (R_Cutoff r))); ("deleted_count", Retention.jint (DeletedCount r));
      ("batch_count", Retention.jint (BatchCount r)); ("batch_size", Retention.jint (R_BatchSize r))])
    ["cutoff"; "deleted_count"; "batch_count"; "batch_size"] in
  let request := {| RC_CorrelationID := NewCorrelationID bytes; RC_SourceIP := ""; RC_HTTPMethod := ""; RC_RoutePattern := "";
                    RC_Actor := {| Actor_Type := ActorSystem; Actor_ID := 0; Actor_Name := "oauth_state_cleanup" |} |} in
  let intent := {| I_Category := CategoryOAuth; I_Severity := SeverityInfo; I_Action := "oauth.state_cleanup.completed"; I_Outcome := OutcomeSuccess;
                   I_Target := {| Target_Type := "oauth_state_collection"; Target_ID := ""; Target_Name := "" |};
                   I_ErrorCode := ""; I_Message := "Expired OAuth state cleanup completed"; I_Metadata := metadata; StartedAt := 0 |} in
  Ok (BuildEvent (Some request) bytes intent {| Target_Type := ""; Target_ID := ""; Target_Name := "" |} finished finished (time_sub finished started)).
End StateCleanup.

(** * The cleanup of OAuth states: theorems *)

Module StateCleanupThms.
Import OAuth StateCleanup.

(** ** A batch *)

Lemma delete_first_spec p n l :
  let '(gone, rest) := delete_first p n l in
  l ≡ₚ gone ++ rest ∧ Forall (fun s => p s = true) gone ∧ length gone = Nat.min n (length (List.filter p l))
  ∧ (∀ q, (∀ s, q s = true → p s = false) → List.filter q rest = List.filter q l).
Proof.
  revert n. induction l as [|s l IH]; intros n; [cbn; by rewrite Nat.min_0_r|]. destruct n as [|n]; [by split_and!|].
  cbn [delete_first List.filter]. destruct (p s) eqn:Ep.
  - specialize (IH n). destruct (delete_first p n l) as [gone rest], IH as (H1 & H2 & H3 & H4). split_and!.
    + cbn. by constructor.
    + by constructor.
    + cbn. lia.
    + intros q Hq. rewrite (H4 q Hq). destruct (q s) eqn:Eq; [apply Hq in Eq; congruence|done].
  - specialize (IH (S n)). destruct (delete_first p (S n) l) as [gone rest], IH as (H1 & H2 & H3 & H4). split_and!; [|done|done|].
    + rewrite <- Permutation_middle. by constructor.
    + intros q Hq. cbn. by rewrite (H4 q Hq).
Qed.

Lemma delete_first_find p n l q : (∀ s, q s = true → p s = false) → List.find q (delete_first p n l).2 = List.find q l.
Proof.
  intros Hq. assert (∀ k, List.find q k = head (List.filter q k)) as Hf.
  { induction k as [|s k IH]; [done|]. cbn. by destruct (q s). }
  rewrite !Hf. pose proof (delete_first_spec p n l) as H. destruct (delete_first p n l) as [gone rest]. destruct H as (_ & _ & _ & H). cbn. by rewrite H.
Qed.

(** A batch without locked rows. *)
Lemma batch_counts cutoff b l :
  0 ≤ b →
  let '(n, rest) := DeleteEligibleBatch (fun _ => false) cutoff b l in
  n = Z.min b (CountEligible cutoff l) ∧ CountEligible cutoff rest = CountEligible cutoff l - n
  ∧ List.filter (fun s => negb (eligible cutoff s)) rest = List.filter (fun s => negb (eligible cutoff s)) l.
Proof.
  intros Hb. unfold DeleteEligibleBatch. pose proof (delete_first_spec (fun s => eligible cutoff s && negb false) (Z.to_nat b) l) as H.
  destruct (delete_first _ _ l) as [gone rest], H as (H1 & H2 & H3 & H4).
  assert (∀ k, List.filter (fun s => eligible cutoff s && negb false) k = List.filter (eligible cutoff) k) as Hk
    by (intros k; apply filter_ext; intros s; apply andb_true_r).
  rewrite Hk in H3. unfold CountEligible. split; [lia|]. split.
  - rewrite <- !countZ_filter, (countZ_perm _ _ _ H1), countZ_app. rewrite (countZ_filter _ gone), filter_Forall_id; [lia|].
    eapply Forall_impl; [exact H2|]. intros s. cbn. by rewrite andb_true_r.
  - apply H4. intros s Hs. by rewrite andb_true_r, (proj1 (negb_true_iff _) Hs).
Qed.

(** ** The loop *)

(** Others create and claim states, and have no row that is eligible locked. *)
Definition undisturbed (cutoff : Time) (env : nat → round) : Prop :=
  ∀ i, locked (env i) = (fun _ => false) ∧ ∀ l, List.filter (eligible cutoff) (meanwhile (env i) l) = List.filter (eligible cutoff) l.

Lemma loop_ends env i options r l fuel :
  undisturbed (Cutoff options) env → 1 ≤ BatchSize options → (Z.to_nat (CountEligible (Cutoff options) l) < fuel)%nat →
  ∃ r' e l', cleanup_loop fuel env i options r l = Some (r', e, l')
    ∧ DeletedCount r' = DeletedCount r + CountEligible (Cutoff options) l - CountEligible (Cutoff options) l'
    ∧ EligibleCount r' = EligibleCount r ∧ R_Cutoff r' = R_Cutoff r
    ∧ (e = None → CountEligible (Cutoff options) l' = 0) ∧ (e ≠ None → ∃ j, failure (env j) ≠ None)
    ∧ ((∀ j k, meanwhile (env j) k = k) → List.filter (fun s => negb (eligible (Cutoff options) s)) l' = List.filter (fun s => negb (eligible (Cutoff options) s)) l).
Proof.
  intros Hu Hb. revert i r l. induction fuel as [|fuel IH]; intros i r l Hf; [lia|]. cbn [cleanup_loop].
  destruct (Hu i) as [Hl He]. specialize (He l). set (l1 := meanwhile (env i) l) in *.
  assert (CountEligible (Cutoff options) l1 = CountEligible (Cutoff options) l) as Hc by (unfold CountEligible; by rewrite He).
  destruct (failure (env i)) as [gone|] eqn:Ef.
  { exists r, (Some (cleanupError gone)), l1. split_and!; try done; [lia|intros _; exists i; congruence|]. intros Hid. unfold l1. by rewrite Hid. }
  rewrite Hl. pose proof (batch_counts (Cutoff options) (BatchSize options) l1 ltac:(lia)) as Hbatch.
  destruct (DeleteEligibleBatch _ _ _ l1) as [n rest], Hbatch as (Hn & Hrest & Hkept).
  set (r1 := if bool_decide (0 < n) then _ else r).
  assert (DeletedCount r1 = DeletedCount r + n ∧ EligibleCount r1 = EligibleCount r ∧ R_Cutoff r1 = R_Cutoff r) as (Hr1 & Hr2 & Hr3).
  { unfold r1. case_bool_decide; cbn; [done|]. assert (0 ≤ CountEligible (Cutoff options) l1) by (unfold CountEligible; lia). split_and!; lia. }
  case_bool_decide as Hlast.
  - exists r1, None, rest. split_and!; try done; [lia|lia|]. intros Hid. rewrite Hkept. unfold l1. by rewrite Hid.
  - destruct (IH (S i) r1 rest) as (r' & e & l' & -> & H1 & H2 & H3 & H4 & H5 & H6); [lia|]. exists r', e, l'.
    split_and!; try done; [lia|lia|lia|]. intros Hid. rewrite (H6 Hid), Hkept. unfold l1. by rewrite Hid.
Qed.

(** A cleanup ends within one round more than there are eligible states, counts
    what it deletes, and when it reports success none is left that was eligible.
    If nothing else happens and nothing fails, it leaves exactly the other states.
    A dry run changes nothing. *)
Theorem cleanup_exact env events options started closes l :
  undisturbed (Cutoff options) env → 1 ≤ BatchSize options ≤ MaxBatchSize → 0 < Cutoff options ≤ started →
  ∃ r e l', Run (S (Z.to_nat (CountEligible (Cutoff options) l))) env (Lease None closes) events options started l = Some (r, e, l', true)
    ∧ (DryRun options = true → l' = l ∧ (e = None → EligibleCount r = CountEligible (Cutoff options) l ∧ DeletedCount r = 0))
    ∧ (DryRun options = false →
       DeletedCount r = CountEligible (Cutoff options) l - CountEligible (Cutoff options) l'
       ∧ (e = None → List.filter (eligible (Cutoff options)) l' = [])
       ∧ ((∀ j, failure (env j) = None) → events = Some None → closes = true → e = None)
       ∧ ((∀ j k, meanwhile (env j) k = k) → e = None → l' = List.filter (fun s => negb (eligible (Cutoff options) s)) l)).
Proof.
  intros Hu Hb Hc. unfold Run, time_is_zero, time_after. rewrite !bool_decide_eq_false_2 by lia. cbn [orb].
  destruct (DryRun options) eqn:Ed.
  { destruct closes; (eexists _, _, l; split; [reflexivity|]; split; [by split|done]). }
  set (r0 := {| R_Status := _; R_DryRun := _; R_Cutoff := _; R_BatchSize := _; EligibleCount := _; DeletedCount := _; BatchCount := _ |}).
  destruct (loop_ends env 0 options r0 l (S (Z.to_nat (CountEligible (Cutoff options) l))) Hu)
    as (r & e & l' & -> & H1 & H2 & _ & H4 & H5 & H6); [lia|lia|]. cbn in H1.
  assert (CountEligible (Cutoff options) l' = 0 → List.filter (eligible (Cutoff options)) l' = []) as Hnone.
  { unfold CountEligible. destruct (List.filter (eligible (Cutoff options)) l'); [done|]. cbn. lia. }
  assert ((∀ j k, meanwhile (env j) k = k) → e = None → l' = List.filter (fun s => negb (eligible (Cutoff options) s)) l) as Hexact.
  { intros Hid ->. rewrite <- (H6 Hid). symmetry. apply filter_Forall_id, Forall_forall. intros s Hs. apply negb_true_iff, not_true_iff_false. intros He.
    apply list_elem_of_In in Hs. assert (In s (List.filter (eligible (Cutoff options)) l')) as Hin by by apply filter_In.
    by rewrite (Hnone (H4 eq_refl)) in Hin. }
  destruct e as [e|].
  { eexists r, (Some e), l'. split; [reflexivity|]. split; [done|]. intros _. split_and!; try done.
    intros Hok. destruct H5 as [j Hj]; [done|]. by rewrite Hok in Hj. }
  destruct events as [[gone|]|], closes; cbn [negb option_map];
    (eexists r, _, l'; split; [reflexivity|]; split; [done|]; intros _; split_and!; first [done|by intros _; apply Hnone, H4|by auto]).
Qed.

(** A batch takes no state that a callback could still claim: a claim at the
    cutoff or later gets the same answer before and after it. *)
Theorem claims_unaffected lock cutoff b d provider h now :
  cutoff ≤ now →
  (claim_state provider h now (set_states (DeleteEligibleBatch lock cutoff b (states d)).2 d)).1 = (claim_state provider h now d).1.
Proof.
  intros Hnow. unfold claim_state, DeleteEligibleBatch.
  pose proof (delete_first_find (fun s => eligible cutoff s && negb (lock (StateHash s))) (Z.to_nat b) (states d) (claimable provider h now)) as Hf.
  destruct (delete_first _ _ _) as [gone rest]. cbn [snd set_states states] in *. rewrite Hf; [by destruct (List.find (claimable provider h now) (states d))|].
  intros s Hs. unfold claimable in Hs. apply andb_true_iff in Hs as [[_ Hex]%andb_true_iff Hcons%bool_decide_eq_true].
  apply bool_decide_eq_true in Hex. unfold eligible. rewrite Hcons, bool_decide_eq_false_2; [done|].
  pose proof (time_truncate_mono cutoff now Microsecond ltac:(done) Hnow). unfold Ledger.pg_time, pg in *. lia.
Qed.

Module Demo.

Definition state (hash : string) (expires : Time) (consumed : option Time) : OAuthState :=
  {| O_Provider := "openai"; StateHash := hash; RedirectAfter := ""; ExpiresAt := expires; ConsumedAt := consumed; CodeVerifier := "";
     EncryptedCodeVerifier := ""; CodeVerifierHash := ""; O_ClientID := ""; TargetAccountID := 0; PendingAccountName := ""; PendingPriority := 0;
     PendingEnabled := None; PendingFingerprintProfileID := None; O_FingerprintHash := ""; O_UserAgentHash := ""; O_IPHash := "" |}.
Definition states0 : list OAuthState :=
  [state "a" 1000 None; state "b" 9000000 (Some 2000); state "c" 9000000 None; state "d" 3000 None].
Definition quiet (i : nat) : round := {| meanwhile := fun l => l; locked := fun _ => false; failure := None |}.
Definition options : Options := {| Cutoff := 5000000; BatchSize := 2; DryRun := false |}.
Definition d0 : db := Build_db [] states0 [] 1.

Lemma cleanup_exact_demo :
  ∃ r l', Run 4 quiet (Lease None true) (Some None) options 6000000 states0 = Some (r, None, l', true) ∧ DeletedCount r = 3
          ∧ map StateHash l' = ["c"].
Proof.
  destruct (cleanup_exact quiet (Some None) options 6000000 true states0) as (r & e & l' & HR & _ & Hd).
  - intros i. by split.
  - vm_compute. by split.
  - vm_compute. by split.
  - destruct (Hd eq_refl) as (Hc & Hn & He & Hl). assert (e = None) as -> by by apply He. exists r, l'. split; [exact HR|].
    assert (map StateHash l' = ["c"]) as Hm. { rewrite Hl; [by vm_compute|done|done]. }
    split; [|exact Hm]. rewrite Hc, Hl; [by vm_compute|done|done].
Defined.

Lemma claims_unaffected_demo :
  (claim_state "openai" "c" 7000000 (set_states (DeleteEligibleBatch (fun _ => false) 5000000 10 states0).2 d0)).1
  = Ok (stored_state (state "c" 9000000 None) (Some 7000000)).
Proof. rewrite (claims_unaffected (fun _ => false) 5000000 10 d0); [by vm_compute|done]. Defined.
End Demo.
End StateCleanupThms.
