(* ===== verification/Profiles.v ===== *)
(** * Fingerprint profiles and error rules

    [admin/fingerprint.go] with the operations of [admin/service.go] and
    [store/fingerprint.go] on the profiles that requests to upstreams imitate, and
    those of [store/error_passthrough.go] on the rules that let an upstream's error
    through.  What a profile adds to a request is in [GatewayPure]: its headers can
    break neither the request nor another header. *)

From stdpp Require Import gmap strings.
From S2P Require Import Prelude GoStrings Base64 GatewayTypes GatewayPure.
From Stdlib Require Import Ascii.
From Stdlib Require String.

Module Profiles.
Import GatewayTypes.

Inductive profile_error := ErrInvalidInput | ErrNotFound | ErrDatabase.

(** ** Profiles *)

(** [Headers] is [None] for a nil map. *)
Record FingerprintProfileInput := {
  Name : string; Description : string; UserAgent : string; TLSFingerprint : string; Headers : option (gmap string string); Enabled : bool
}.

Definition normalizeFingerprintTLS (value : string) : string :=
  let value := TrimSpace (ToLower value) in
  if str_eq value "" then ""
  else
    let replace a := if bool_decide (a = "_"%char) || bool_decide (a = " "%char) then "-"%char else a in
    let value := String.string_of_list_ascii (map replace (String.list_ascii_of_string value)) in
    let among := existsb (str_eq value) in
    if among ["chrome"; "hellochrome"; "hellochrome-auto"; "chrome-auto"] then "chrome"
    else if among ["firefox"; "hellofirefox"; "hellofirefox-auto"; "firefox-auto"] then "firefox"
    else if among ["safari"; "hellosafari"; "hellosafari-auto"; "safari-auto"] then "safari"
    else if among ["ios"; "helloios"; "helloios-auto"; "ios-auto"] then "ios"
    else if among ["android"; "android-okhttp"; "helloandroid"; "helloandroid-11-okhttp"] then "android"
    else if among ["edge"; "helloedge"; "helloedge-auto"; "edge-auto"] then "edge"
    else if among ["random"; "randomized"; "hellorandomized"] then "randomized"
    else if among ["randomized-alpn"; "hellorandomizedalpn"] then "randomized-alpn"
    else if among ["randomized-no-alpn"; "hellorandomizednoalpn"] then "randomized-no-alpn"
    else if among ["go"; "golang"; "hello-golang"; "hellogolang"] then "golang"
    else "".

(** A byte of a longer rune is no token character, and none of the control
    characters that a value must not have. *)
Definition isHTTPTokenRune : ascii → bool := token_char.
Definition validFingerprintHeaderName (value : string) : bool :=
  negb (str_eq value "") && forallb isHTTPTokenRune (String.list_ascii_of_string value).
Definition value_char (a : ascii) : bool :=
  bool_decide (byte_of a = 9) || negb (bool_decide (byte_of a < 32) || bool_decide (byte_of a = 127)).
Definition validFingerprintHeaderValue (value : string) : bool := forallb value_char (String.list_ascii_of_string value).

Fixpoint headers_loop (l : list (string * string)) (headers : gmap string string) : result profile_error (gmap string string) :=
  match l with
  | [] => Ok headers
  | (key, value) :: l =>
      let key := TrimSpace key in
      if negb (validFingerprintHeaderName key) then Err ErrInvalidInput
      else
        let value := TrimSpace value in
        if negb (validFingerprintHeaderValue value) then Err ErrInvalidInput
        else headers_loop l (<[canonical key := value]> headers)
  end.

Definition with_headers (input : FingerprintProfileInput) (h : gmap string string) : FingerprintProfileInput :=
  {| Name := TrimSpace (Name input); Description := TrimSpace (Description input); UserAgent := TrimSpace (UserAgent input);
     TLSFingerprint := normalizeFingerprintTLS (TrimSpace (TLSFingerprint input)); Headers := Some h; Enabled := Enabled input |}.

(** [order] is the order in which the map is iterated. *)
Definition Normalize (order : list (string * string)) (input : FingerprintProfileInput) : result profile_error FingerprintProfileInput :=
  let tlsFingerprint := TrimSpace (TLSFingerprint input) in
  if negb (str_eq tlsFingerprint "") && str_eq (normalizeFingerprintTLS tlsFingerprint) "" then Err ErrInvalidInput
  else match Headers input with
       | None => Ok (with_headers input ∅)
       | Some _ => let? h := headers_loop order ∅ in Ok (with_headers input h)
       end.

(** ** Rules *)

Record ErrorPassthroughRuleInput := { E_Pattern : string; E_MatchType : string; E_Description : string; E_Enabled : bool; E_Priority : Z }.

Definition validErrorPassthroughMatchType (matchType : string) : bool := existsb (str_eq matchType) ["status_code"; "error_message"; "error_code"].

(** ** The tables *)

Record profile := { P_ID : Z; P_SystemKey : string; P_Input : FingerprintProfileInput }.
Record rule := { E_ID : Z; E_Input : ErrorPassthroughRuleInput }.

(** [uses] are the profiles of accounts that have one; identifiers come from
    sequences. *)
Record db := { profiles : list profile; rules : list rule; uses : gmap Z Z; next_profile : Z; next_rule : Z }.

(** The priority is a 32-bit integer; a larger one is not sent. *)
Definition rule_row_ok (i : ErrorPassthroughRuleInput) : bool := bool_decide (-2147483648 ≤ E_Priority i ≤ 2147483647).

(** [P_SystemKey p = ""] protects the system's profiles. *)
Definition custom (id : Z) (p : profile) : bool := bool_decide (P_ID p = id) && str_eq (P_SystemKey p) "".

Definition create_profile (input : FingerprintProfileInput) (d : db) : result profile_error profile * db :=
  let p := {| P_ID := next_profile d; P_SystemKey := ""; P_Input := input |} in
  (Ok p, {| profiles := profiles d ++ [p]; rules := rules d; uses := uses d; next_profile := next_profile d + 1; next_rule := next_rule d |}).

Definition update_profile (id : Z) (input : FingerprintProfileInput) (d : db) : result profile_error profile * db :=
  match List.find (custom id) (profiles d) with
  | None => (Err ErrNotFound, d)
  | Some p =>
      let change p := {| P_ID := P_ID p; P_SystemKey := P_SystemKey p; P_Input := input |} in
      (Ok (change p), {| profiles := map (fun p => if custom id p then change p else p) (profiles d); rules := rules d; uses := uses d;
                         next_profile := next_profile d; next_rule := next_rule d |})
  end.

(** ON DELETE SET NULL for the accounts that use the profile. *)
Definition delete_profile (id : Z) (d : db) : result profile_error unit * db :=
  match List.find (custom id) (profiles d) with
  | None => (Err ErrNotFound, d)
  | Some _ =>
      (Ok tt, {| profiles := List.filter (fun p => negb (custom id p)) (profiles d); rules := rules d; uses := filter (fun x => x.2 ≠ id) (uses d);
                 next_profile := next_profile d; next_rule := next_rule d |})
  end.

Definition create_rule (input : ErrorPassthroughRuleInput) (d : db) : result profile_error rule * db :=
  if negb (rule_row_ok input) then (Err ErrDatabase, d)
  else let r := {| E_ID := next_rule d; E_Input := input |} in
       (Ok r, {| profiles := profiles d; rules := rules d ++ [r]; uses := uses d; next_profile := next_profile d; next_rule := next_rule d + 1 |}).

Definition set_rules (l : list rule) (d : db) : db :=
  {| profiles := profiles d; rules := l; uses := uses d; next_profile := next_profile d; next_rule := next_rule d |}.

Definition update_rule (id : Z) (input : ErrorPassthroughRuleInput) (d : db) : result profile_error rule * db :=
  if negb (rule_row_ok input) then (Err ErrDatabase, d)
  else if negb (existsb (fun r => bool_decide (E_ID r = id)) (rules d)) then (Err ErrNotFound, d)
  else (Ok {| E_ID := id; E_Input := input |},
        set_rules (map (fun r => if bool_decide (E_ID r = id) then {| E_ID := id; E_Input := input |} else r) (rules d)) d).

Definition delete_rule (id : Z) (d : db) : result profile_error unit * db :=
  if negb (existsb (fun r => bool_decide (E_ID r = id)) (rules d)) then (Err ErrNotFound, d)
  else (Ok tt, set_rules (List.filter (fun r => negb (bool_decide (E_ID r = id))) (rules d)) d).

(** [ORDER BY priority ASC, id ASC]. *)
Definition rule_le (r s : rule) : Prop :=
  E_Priority (E_Input r) < E_Priority (E_Input s) ∨ (E_Priority (E_Input r) = E_Priority (E_Input s) ∧ E_ID r ≤ E_ID s).
#[global] Instance rule_le_dec : RelDecision rule_le.
Proof. intros r s. unfold rule_le. apply _. Defined.
Definition list_rules (d : db) : list rule := merge_sort rule_le (rules d).

(** ** The service *)

Definition CreateFingerprintProfile (order : list (string * string)) (input : FingerprintProfileInput) (d : db) : result profile_error profile * db :=
  if str_eq (TrimSpace (Name input)) "" then (Err ErrInvalidInput, d)
  else match Normalize order input with Err e => (Err e, d) | Ok input => create_profile input d end.

Definition UpdateFingerprintProfile (order : list (string * string)) (id : Z) (input : FingerprintProfileInput) (d : db)
  : result profile_error profile * db :=
  if bool_decide (id ≤ 0) || str_eq (TrimSpace (Name input)) "" then (Err ErrInvalidInput, d)
  else match Normalize order input with Err e => (Err e, d) | Ok input => update_profile id input d end.

Definition DeleteFingerprintProfile (id : Z) (d : db) : result profile_error unit * db :=
  if bool_decide (id ≤ 0) then (Err ErrInvalidInput, d) else delete_profile id d.

Definition CreateErrorPassthroughRule (input : ErrorPassthroughRuleInput) (d : db) : result profile_error rule * db :=
  if str_eq (TrimSpace (E_Pattern input)) "" || negb (validErrorPassthroughMatchType (E_MatchType input)) then (Err ErrInvalidInput, d)
  else create_rule input d.

Definition UpdateErrorPassthroughRule (id : Z) (input : ErrorPassthroughRuleInput) (d : db) : result profile_error rule * db :=
  if bool_decide (id ≤ 0) || str_eq (TrimSpace (E_Pattern input)) "" || negb (validErrorPassthroughMatchType (E_MatchType input))
  then (Err ErrInvalidInput, d) else update_rule id input d.

Definition DeleteErrorPassthroughRule (id : Z) (d : db) : result profile_error unit * db :=
  if bool_decide (id ≤ 0) then (Err ErrInvalidInput, d) else delete_rule id d.

(** An account is given a profile that is there. *)
Definition use_profile (account id : Z) (d : db) : db :=
  if existsb (fun p => bool_decide (P_ID p = id)) (profiles d)
  then {| profiles := profiles d; rules := rules d; uses := <[account := id]> (uses d); next_profile := next_profile d; next_rule := next_rule d |}
  else d.

Inductive step (d : db) : db → Prop :=
| s_create order input : order ≡ₚ map_to_list (default ∅ (Headers input)) → step d (CreateFingerprintProfile order input d).2
| s_update order id input : order ≡ₚ map_to_list (default ∅ (Headers input)) → step d (UpdateFingerprintProfile order id input d).2
| s_delete id : step d (DeleteFingerprintProfile id d).2
| s_create_rule input : step d (CreateErrorPassthroughRule input d).2
| s_update_rule id input : step d (UpdateErrorPassthroughRule id input d).2
| s_delete_rule id : step d (DeleteErrorPassthroughRule id d).2
| s_use account id : step d (use_profile account id d).
End Profiles.

(** * Fingerprint profiles: theorems

    What a profile adds to a request is safe: header names are tokens, in their
    canonical form and once each, values have no line break, and the TLS name is one
    the gateway knows. *)

Module ProfilesThms.
Import Base64 GatewayTypes GatewayPure Profiles.

(** ** Canonical names *)

Lemma token_visible a : isHTTPTokenRune a = true → visible a = true.
Proof. revert a. enough (forallb (fun a => implb (isHTTPTokenRune a) (visible a)) (map ascii_of_nat (seq 0 256)) = true) as H; [|by vm_compute].
  intros a Ha. rewrite forallb_forall in H. specialize (H a). rewrite Ha in H. apply H. rewrite <- (ascii_nat_embedding a).
  apply in_map, in_seq. pose proof (nat_ascii_bounded a). lia.
Qed.

Lemma upper_token a : isHTTPTokenRune a = true → isHTTPTokenRune (upper_ascii a) = true ∧ isHTTPTokenRune (lower_ascii a) = true
  ∧ upper_ascii (upper_ascii a) = upper_ascii a ∧ lower_ascii (lower_ascii a) = lower_ascii a
  ∧ bool_decide (upper_ascii a = "-"%char) = bool_decide (a = "-"%char) ∧ bool_decide (lower_ascii a = "-"%char) = bool_decide (a = "-"%char).
Proof.
  intros Ha. cut (forallb (fun a => implb (isHTTPTokenRune a) (isHTTPTokenRune (upper_ascii a) && isHTTPTokenRune (lower_ascii a)
      && bool_decide (upper_ascii (upper_ascii a) = upper_ascii a) && bool_decide (lower_ascii (lower_ascii a) = lower_ascii a)
      && Bool.eqb (bool_decide (upper_ascii a = "-"%char)) (bool_decide (a = "-"%char))
      && Bool.eqb (bool_decide (lower_ascii a = "-"%char)) (bool_decide (a = "-"%char)))) (map ascii_of_nat (seq 0 256)) = true); [|by vm_compute].
  intros H. rewrite forallb_forall in H. specialize (H a). rewrite Ha in H. cbn [implb] in H.
  rewrite !andb_true_iff, !bool_decide_eq_true, !Bool.eqb_true_iff in H. destruct H as [[[[[? ?] ?] ?] ?] ?]; [|done].
  rewrite <- (ascii_nat_embedding a). apply in_map, in_seq. pose proof (nat_ascii_bounded a). lia.
Qed.

Lemma canonical_bytes_token b l :
  forallb isHTTPTokenRune l = true →
  forallb isHTTPTokenRune (canonical_bytes b l) = true ∧ canonical_bytes b (canonical_bytes b l) = canonical_bytes b l.
Proof.
  revert b. induction l as [|a l IH]; intros b; [done|]. cbn [forallb canonical_bytes]. intros [Ha Hl]%andb_true_iff.
  destruct (upper_token a Ha) as (H1 & H2 & H3 & H4 & H5 & H6). destruct (IH (bool_decide (a = "-"%char)) Hl) as [IH1 IH2].
  destruct b; [rewrite H1, H3, H5|rewrite H2, H4, H6]; by rewrite IH1, IH2.
Qed.

Lemma canonical_token k :
  validFingerprintHeaderName k = true →
  validFingerprintHeaderName (canonical k) = true ∧ canonical (canonical k) = canonical k ∧ TrimSpace (canonical k) = canonical k.
Proof.
  unfold validFingerprintHeaderName. intros [Hne Hk]%andb_true_iff. destruct (canonical_bytes_token true _ Hk) as [H1 H2].
  assert (canonical k = String.string_of_list_ascii (canonical_bytes true (String.list_ascii_of_string k))) as E.
  { unfold canonical. change (forallb token_char) with (forallb isHTTPTokenRune). by rewrite Hk. }
  rewrite E. split_and!.
  - rewrite String.list_ascii_of_string_of_list_ascii, H1, andb_true_r. apply negb_true_iff, bool_decide_eq_false. by destruct k.
  - unfold canonical. rewrite String.list_ascii_of_string_of_list_ascii. change (forallb token_char) with (forallb isHTTPTokenRune). by rewrite H1, H2.
  - unfold TrimSpace. rewrite String.list_ascii_of_string_of_list_ascii.
    destruct (visible_clean (canonical_bytes true (String.list_ascii_of_string k))) as [-> ->]; [|done].
    eapply forallb_weaken; [|exact H1]. apply token_visible.
Qed.

(** ** Headers *)

(** A header that can be added to a request. *)
Definition header_ok (key value : string) : Prop :=
  validFingerprintHeaderName key = true ∧ canonical key = key ∧ validFingerprintHeaderValue value = true ∧ TrimSpace value = value.

Definition headers_ok (h : gmap string string) : Prop := map_Forall header_ok h.

Lemma loop_ok l h h' : headers_ok h → headers_loop l h = Ok h' → headers_ok h'.
Proof.
  revert h. induction l as [|[k v] l IH]; intros h Hh; cbn [headers_loop]; [by intros [= <-]|].
  destruct (negb (validFingerprintHeaderName _)) eqn:Ek; [done|]. destruct (negb (validFingerprintHeaderValue _)) eqn:Ev; [done|].
  apply negb_false_iff in Ek, Ev. apply IH, map_Forall_insert_2; [|done]. destruct (canonical_token _ Ek) as (H1 & H2 & _).
  split_and!; [done|done|done|apply TrimSpace_idem].
Qed.

Lemma loop_fixed l h : Forall (fun kv => header_ok kv.1 kv.2) l → headers_loop l h = Ok (foldl (fun h kv => <[kv.1 := kv.2]> h) h l).
Proof.
  intros Hl. revert h. induction Hl as [|[k v] l (H1 & H2 & H3 & H4) Hl IH]; intros h; [done|]. cbn [headers_loop foldl fst snd] in *.
  destruct (canonical_token k H1) as (_ & _ & H5). rewrite H2 in H5. by rewrite H5, H1, H4, H3, H2, IH.
Qed.

Lemma foldl_insert_map (l : list (string * string)) (h : gmap string string) :
  NoDup (map fst l) → (∀ k, k ∈ map fst l → h !! k = None) → foldl (fun h kv => <[kv.1 := kv.2]> h) h l = list_to_map l ∪ h.
Proof.
  revert h. induction l as [|[k v] l IH]; intros h Hn Hh; cbn [foldl list_to_map map]; [by rewrite list_to_map_nil, (left_id_L ∅ (∪))|].
  cbn [map] in Hn. apply NoDup_cons in Hn as [Hk Hn]. cbn in Hk. rewrite IH; [|done|].
  - cbn. rewrite <- insert_union_l, insert_union_r; [done|]. by apply not_elem_of_list_to_map.
  - intros k' Hk'. cbn. rewrite lookup_insert_ne; [apply Hh; by right|]. by intros ->.
Qed.

Definition tls_names : list string :=
  [""; "chrome"; "firefox"; "safari"; "ios"; "android"; "edge"; "randomized"; "randomized-alpn"; "randomized-no-alpn"; "golang"].

Lemma tls_name v : normalizeFingerprintTLS v ∈ tls_names.
Proof.
  unfold normalizeFingerprintTLS. cbv zeta. repeat case_match; apply (bool_decide_unpack _); vm_compute; exact I.
Qed.

Lemma tls_fixed v : v ∈ tls_names → TrimSpace v = v ∧ normalizeFingerprintTLS v = v ∧ normalizeTLSFingerprintName v = v.
Proof.
  intros Hv. assert (Forall (fun v => TrimSpace v = v ∧ normalizeFingerprintTLS v = v ∧ normalizeTLSFingerprintName v = v) tls_names) as H.
  { repeat constructor; vm_compute; reflexivity. }
  rewrite Forall_forall in H. by apply H.
Qed.

(** A normalised profile. *)
Record normalised (i : FingerprintProfileInput) : Prop := {
  n_name : TrimSpace (Name i) = Name i;
  n_description : TrimSpace (Description i) = Description i;
  n_agent : TrimSpace (UserAgent i) = UserAgent i;
  n_tls : TLSFingerprint i ∈ tls_names;
  n_headers : ∃ h, Headers i = Some h ∧ headers_ok h
}.

Lemma Normalize_shape order input input' :
  Normalize order input = Ok input' → ∃ h, input' = with_headers input h ∧ headers_ok h.
Proof.
  unfold Normalize. destruct (_ && _); [done|]. intros H.
  destruct (Headers input); [|injection H as <-; exists ∅; split; [done|apply map_Forall_empty]].
  apply result_bind_Ok in H as (h & Hl & [= <-]). exists h. split; [done|]. eapply loop_ok; [|exact Hl]. apply map_Forall_empty.
Qed.

Lemma with_headers_normalised input h : headers_ok h → normalised (with_headers input h).
Proof. intros Hh. split; cbn; try apply TrimSpace_idem; [apply tls_name|eauto]. Qed.

(** What normalisation accepts is trimmed, its TLS name is one that the gateway
    knows under the same name, and each of its headers can be sent: the name is a
    token in canonical form, the value has no control character but the tab.
    Normalising it again changes nothing, in whatever order its headers come. *)
Theorem normalize_sound order input input' :
  Normalize order input = Ok input' →
  normalised input' ∧ normalizeTLSFingerprintName (TLSFingerprint input') = TLSFingerprint input'
  ∧ ∀ order', order' ≡ₚ map_to_list (default ∅ (Headers input')) → Normalize order' input' = Ok input'.
Proof.
  intros (h & -> & Hh)%Normalize_shape. destruct (tls_fixed _ (tls_name (TrimSpace (TLSFingerprint input)))) as (H1 & H2 & H3).
  split; [by apply with_headers_normalised|]. split; [exact H3|].
  intros order' Ho. cbn in Ho. unfold Normalize, with_headers. cbn [TLSFingerprint Name Description UserAgent Headers Enabled].
  rewrite H1, H2, !TrimSpace_idem. assert (NoDup (map fst order')) as Hn by (rewrite Ho; apply NoDup_fst_map_to_list).
  assert (headers_loop order' ∅ = Ok h) as ->.
  { rewrite loop_fixed; [|apply Forall_forall; intros [k v] Hkv; rewrite Ho in Hkv; apply elem_of_map_to_list in Hkv; by apply (Hh k v)].
    rewrite foldl_insert_map by (done || (intros; apply lookup_empty)). rewrite (right_id_L ∅ (∪)).
    by rewrite (list_to_map_proper order' (map_to_list h)), list_to_map_to_list. }
  by destruct (str_eq (normalizeFingerprintTLS _) "").
Qed.

(** ** The tables *)

Definition system (p : profile) : bool := negb (str_eq (P_SystemKey p) "").

Definition profile_ok (p : profile) : Prop := P_SystemKey p = "" → normalised (P_Input p) ∧ Name (P_Input p) ≠ "".
Definition rule_ok (r : rule) : Prop :=
  TrimSpace (E_Pattern (E_Input r)) ≠ "" ∧ validErrorPassthroughMatchType (E_MatchType (E_Input r)) = true ∧ rule_row_ok (E_Input r) = true.

Record tables_ok (d0 d : db) : Prop := {
  t_ids : NoDup (map P_ID (profiles d));
  t_next : Forall (fun p => P_ID p < next_profile d) (profiles d);
  t_system : List.filter system (profiles d) = profiles d0;
  t_custom : Forall profile_ok (profiles d);
  t_rules : Forall rule_ok (rules d);
  t_uses : map_Forall (fun _ id => id ∈ map P_ID (profiles d)) (uses d)
}.

(** The tables with the system's profiles only. *)
Definition seeded (d0 : db) : Prop :=
  Forall (fun p => system p = true ∧ P_ID p < next_profile d0) (profiles d0) ∧ NoDup (map P_ID (profiles d0)) ∧ rules d0 = [] ∧ uses d0 = ∅.

Lemma seeded_ok d0 : seeded d0 → tables_ok d0 d0.
Proof.
  intros (H1 & H2 & H3 & H4). split; rewrite ?H3, ?H4; try done.
  - eapply Forall_impl; [exact H1|]. by intros p [_ ?].
  - apply filter_Forall_id. eapply Forall_impl; [exact H1|]. by intros p [].
  - eapply Forall_impl; [exact H1|]. intros p [Hs _] Hk. unfold system in Hs. by rewrite Hk in Hs.
Qed.

Lemma custom_not_system id p : custom id p = true → P_ID p = id ∧ P_SystemKey p = "" ∧ system p = false.
Proof.
  unfold custom, system. intros [H1%bool_decide_eq_true H2]%andb_true_iff. split; [done|]. rewrite H2. by apply bool_decide_eq_true in H2.
Qed.

Lemma create_profile_ok d0 d input : tables_ok d0 d → normalised input → Name input ≠ "" → tables_ok d0 (create_profile input d).2.
Proof.
  intros [H1 H2 H3 H4 H5 H6] Hn Hne. split; cbn; rewrite ?map_app, ?List.filter_app; cbn.
  - apply NoDup_app. split_and!; [done| |apply NoDup_singleton]. intros i (p & -> & Hp)%list_elem_of_fmap Hi%list_elem_of_singleton.
    rewrite Forall_forall in H2. specialize (H2 p Hp). lia.
  - apply Forall_app. split; [eapply Forall_impl; [exact H2|]; intros p; cbn; lia|]. repeat constructor. cbn. lia.
  - by rewrite app_nil_r.
  - apply Forall_app. split; [done|]. constructor; [by intros _|constructor].
  - done.
  - eapply map_Forall_impl; [exact H6|]. intros a i Hi. apply elem_of_app. by left.
Qed.

Lemma update_profile_ok d0 d id input : tables_ok d0 d → normalised input → Name input ≠ "" → tables_ok d0 (update_profile id input d).2.
Proof.
  intros [H1 H2 H3 H4 H5 H6] Hn Hne. unfold update_profile. destruct (List.find (custom id) (profiles d)) as [q|]; [|done]. cbn.
  set (change := fun p => if custom id p then {| P_ID := P_ID p; P_SystemKey := P_SystemKey p; P_Input := input |} else p).
  assert (map P_ID (map change (profiles d)) = map P_ID (profiles d)) as Hids.
  { rewrite map_map. apply map_ext. intros p. unfold change. by destruct (custom id p). }
  split; cbn; rewrite ?Hids; try done.
  - apply Forall_map. eapply Forall_impl; [exact H2|]. intros p. cbn. unfold change. by destruct (custom id p).
  - rewrite <- H3. unfold change. clear. induction (profiles d) as [|p l IH]; [done|]. cbn. destruct (custom id p) eqn:E; [|by rewrite IH].
    apply custom_not_system in E as (_ & Hk & Hs). rewrite Hs. unfold system at 1. cbn. by rewrite Hk.
  - apply Forall_map. eapply Forall_impl; [exact H4|]. intros p Hp. cbn. unfold change. destruct (custom id p); [|done]. by intros _.
Qed.

Lemma delete_profile_ok d0 d id : tables_ok d0 d → tables_ok d0 (delete_profile id d).2.
Proof.
  intros [H1 H2 H3 H4 H5 H6]. unfold delete_profile. destruct (List.find (custom id) (profiles d)) as [q|]; [|done]. split; cbn; try done.
  - by apply NoDup_filter_map.
  - by apply Forall_filter_bool.
  - rewrite <- H3. clear. induction (profiles d) as [|p l IH]; [done|]. cbn. destruct (custom id p) eqn:E; cbn; [|by rewrite IH].
    by apply custom_not_system in E as (_ & _ & ->).
  - by apply Forall_filter_bool.
  - intros a i [Hi Hne]%map_lookup_filter_Some. specialize (H6 a i Hi). cbn in *. apply list_elem_of_fmap in H6 as (p & -> & Hp).
    apply list_elem_of_fmap. exists p. split; [done|]. apply list_elem_of_In, filter_In. split; [by apply list_elem_of_In|].
    apply negb_true_iff, not_true_iff_false. intros Hc. by apply custom_not_system in Hc as [? _].
Qed.

Lemma rules_ok d0 d l : tables_ok d0 d → Forall rule_ok l → tables_ok d0 (set_rules l d).
Proof. by intros [] ?. Qed.

Lemma valid_rule_input input id :
  str_eq (TrimSpace (E_Pattern input)) "" || negb (validErrorPassthroughMatchType (E_MatchType input)) = false →
  rule_row_ok input = true → rule_ok {| E_ID := id; E_Input := input |}.
Proof.
  intros [H1 H2]%orb_false_iff H3. split_and!; [by apply bool_decide_eq_false in H1|by apply negb_false_iff|done].
Qed.

Lemma step_tables d0 d d' : tables_ok d0 d → step d d' → tables_ok d0 d'.
Proof.
  intros Hd Hs. destruct Hs as [order input _|order id input _|id|input|id input|id|account id].
  - unfold CreateFingerprintProfile. destruct (str_eq _ _) eqn:E; [done|]. destruct (Normalize order input) as [i|e] eqn:En; [|done].
    apply create_profile_ok; [done|by apply Normalize_shape in En as (h & -> & ?); apply with_headers_normalised|].
    apply bool_decide_eq_false in E. by apply Normalize_shape in En as (h & -> & ?).
  - unfold UpdateFingerprintProfile. destruct (_ || _) eqn:E; [done|]. apply orb_false_iff in E as [_ E].
    destruct (Normalize order input) as [i|e] eqn:En; [|done]. apply update_profile_ok; [done|by apply Normalize_shape in En as (h & -> & ?); apply with_headers_normalised|].
    apply bool_decide_eq_false in E. by apply Normalize_shape in En as (h & -> & ?).
  - unfold DeleteFingerprintProfile. case_bool_decide; [done|]. by apply delete_profile_ok.
  - unfold CreateErrorPassthroughRule, create_rule. destruct (_ || _) eqn:E; [done|]. destruct (negb (rule_row_ok _)) eqn:Er; [done|].
    apply negb_false_iff in Er. destruct Hd. split; cbn; try done. apply Forall_app. split; [done|]. constructor; [|constructor]. by apply valid_rule_input.
  - unfold UpdateErrorPassthroughRule, update_rule. rewrite <- orb_assoc. destruct (bool_decide (id ≤ 0)); [done|]. destruct (_ || _) eqn:E; [done|].
    destruct (negb (rule_row_ok _)) eqn:Er; [done|]. destruct (existsb _ (rules d)); cbn [negb]; [|done]. apply negb_false_iff in Er. apply rules_ok; [done|].
    apply Forall_map. eapply Forall_impl; [apply Hd|]. intros r Hr. cbn. case_bool_decide; [|done]. by apply valid_rule_input.
  - unfold DeleteErrorPassthroughRule, delete_rule. case_bool_decide; [done|]. destruct (negb _); [done|]. apply rules_ok; [done|].
    apply Forall_filter_bool, Hd.
  - unfold use_profile. destruct (existsb _ _) eqn:E; [|done]. apply existsb_exists in E as (p & Hp & Hid%bool_decide_eq_true).
    destruct Hd as [H1 H2 H3 H4 H5 H6]. split; cbn; try done. apply map_Forall_insert_2; [|done]. apply list_elem_of_fmap.
    exists p. split; [done|]. by apply list_elem_of_In.
Qed.

(** Whatever administrators do, the system's profiles stay as they were seeded,
    every other profile is normalised and has a name, every rule has a pattern and a
    kind the gateway knows, identifiers are unique, and an account's profile is
    there. *)
Theorem profiles_well_formed d0 d : seeded d0 → rtc step d0 d → tables_ok d0 d.
Proof.
  intros H0 Hr. apply seeded_ok in H0. remember d0 as d1 eqn:E in Hr. assert (tables_ok d0 d1) as H1 by by subst. clear E.
  induction Hr as [|x y z Hs _ IH]; [done|]. apply IH. by eapply step_tables.
Qed.

(** Two names with the same canonical form: the map's order decides the value. *)
Lemma header_order_matters :
  headers_loop [("x-a", "1"); ("X-A", "2")] ∅ = Ok {[ "X-A" := "2" ]} ∧ headers_loop [("X-A", "2"); ("x-a", "1")] ∅ = Ok {[ "X-A" := "1" ]}.
Proof. split; vm_compute; reflexivity. Qed.

Module Demo.

Definition no_profile : FingerprintProfileInput :=
  {| Name := "Default"; Description := ""; UserAgent := "codex"; TLSFingerprint := ""; Headers := Some ∅; Enabled := true |}.
Definition d0 : db :=
  {| profiles := [{| P_ID := 1; P_SystemKey := "codex_cli_default"; P_Input := no_profile |}]; rules := []; uses := ∅; next_profile := 2; next_rule := 1 |}.
Definition input : FingerprintProfileInput :=
  {| Name := " Mine "; Description := ""; UserAgent := "agent"; TLSFingerprint := "Hello_Chrome auto"; Headers := Some {[ "x-version" := " 1.2 " ]};
     Enabled := true |}.
Definition input2 : FingerprintProfileInput :=
  {| Name := " Mine "; Description := ""; UserAgent := "agent"; TLSFingerprint := "Chrome"; Headers := Some {[ "x-version" := " 1.2 " ]};
     Enabled := true |}.
Definition d1 : db := (CreateFingerprintProfile [("x-version", " 1.2 ")] input2 d0).2.

Lemma profiles_well_formed_demo : tables_ok d0 (DeleteFingerprintProfile 1 d1).2 ∧ length (profiles (DeleteFingerprintProfile 1 d1).2) = 2%nat.
Proof.
  split; [|by vm_compute]. apply profiles_well_formed.
  - split_and!; [|apply NoDup_singleton|done|done]. by repeat constructor.
  - eapply rtc_l; [apply (s_create d0 [("x-version", " 1.2 ")] input2)|apply rtc_once, s_delete]. vm_compute. reflexivity.
Defined.

Lemma normalize_sound_demo :
  Normalize [("x-version", " 1.2 ")] input = Err ErrInvalidInput
  ∧ ∃ i, Normalize [("x-version", " 1.2 ")] input2 = Ok i ∧ Headers i = Some {[ "X-Version" := "1.2" ]} ∧ TLSFingerprint i = "chrome" ∧ normalised i.
Proof.
  split; [by vm_compute|]. eexists. split; [by vm_compute|]. split; [by vm_compute|]. split; [by vm_compute|].
  eapply (normalize_sound [("x-version", " 1.2 ")] input2). by vm_compute.
Defined.
End Demo.
End ProfilesThms.
